(* ===== verification/_CoqProject ===== *)
-Q . S2P
Prelude.v
Bits.v
Varint.v
Regions.v
Heap.v
Ctype.v
HashTable.v
MemJournal.v
Numeric.v
Decimal.v
Double.v
Order.v
VdbeMem.v
Record.v
MakeRecord.v
RecordCompare.v
BtreeCell.v
BtreePage.v
BtreeSpace.v
BtreeFit.v
BtreeOps.v
BtreeFile.v
BtreeFree.v
BtreeAlloc.v
BtreePayload.v
BtreeOverflow.v
BtreeCursor.v
BtreeTree.v
BtreeTable.v
Utf.v
Like.v
Bitvec.v
RowSet.v
WalIndex.v
WalLog.v
WalIter.v
JvmLocks.v
WalLocks.v
WalTxn.v
WalClaims.v
WalLink.v
WalActions.v
WalPrograms.v
WalCalls.v
WalIsolation.v
ShmArena.v
OsJvm.v
JvmFile.v
ConnWorker.v
