(* ===== verification/Prelude.v ===== *)
(** A verification library for sqlol: SQLite compiled to wasm32, with a custom VFS whose
    locks and wal-index memory live in the host, and connection workers that run inside
    the module.  Paths below are relative to src/modules/sqlite; [sqlite3.c] is
    sqlite-amalgamation/sqlite3.c, whose sections are named after SQLite's own files.

    * How the program is put together

    A host process (Kotlin) runs one wasm module with a shared linear memory and many
    threads.  A client writes a statement into a channel and waits; a connection worker
    (wasm-lib/extras/conn_worker.c) picks it up, runs it through the SQLite interface and
    answers.  SQLite reaches files through the VFS of wasm-lib/os_jvm.c, which passes reads
    and writes to the VFS that was the default before, asks the host for file locks and
    wal-index locks (JvmVfsLocks.kt), and takes wal-index memory from an arena in the
    linear memory (ShmArena.kt).  Because the wal-index is shared by all connections, the
    write-ahead log (wal.c) is where their concurrent transactions meet: readers take a
    snapshot by claiming a read mark, one writer appends frames and publishes them in the
    wal-index header, and checkpoints copy frames into the database file while both go on.
    Above the log, SQLite stores rows as records in the cells of b-tree pages; the library
    covers the record format with its comparisons, the pages with their cells, the overflow
    pages of large payloads, the list of free pages, and the cursors that move over a table.
    The rest is what these rest on: numbers, text, patterns, bit vectors, sets of rowids, the
    hash tables of the schema and the journal that is kept in memory.

    * The files

    Foundations
    - Prelude: machine integers as [Z] with wrap-around written out, arrays as lists indexed
      by [Z] ([l.[i]], [l.[i <- v]]), result codes, small-step closures, shared tactics and hint databases.
    - Bits: the decision procedure [bitwise] for shift/mask/or expressions over bytes.
    - Regions: writes to a buffer that leave the rest of it alone, lists of disjoint regions.
    - Heap: linked lists in a heap of blocks indexed by address.
    - Order: comparisons as [comparison] values, lexicographic orders.

    Values and text
    - Varint (util.c: [sqlite3PutVarint], [sqlite3GetVarint], [sqlite3GetVarint32],
      [sqlite3VarintLen], [sqlite3Get4byte], [sqlite3Put4byte]).
    - Ctype (global.c, util.c: the class tables, [sqlite3StrICmp], [sqlite3StrIHash],
      [sqlite3Dequote] and the like).
    - Numeric (util.c: [sqlite3AddInt64] and its siblings, [sqlite3Atoi64],
      [sqlite3DecOrHexToI64], [sqlite3GetInt32], [sqlite3Int64ToText], [sqlite3LogEst]).
    - Decimal (util.c: [sqlite3Multiply128], [powerOfTen], [sqlite3Fp10Convert2],
      [sqlite3AtoF] and their helpers).
    - Double (the IEEE doubles of the record format: decoding, comparison, truncation).
    - Utf (utf.c: reading, writing, skipping and counting UTF-8).
    - Like (func.c: [patternCompare], [likeFunc], [sqlite3_strglob], [sqlite3_strlike]).

    Records (vdbemem.c, vdbeaux.c, vdbe.c)
    - VdbeMem: the cells [Mem] of the virtual machine and their order ([sqlite3MemCompare],
      [sqlite3IntFloatCompare], [sqlite3BlobCompare]).
    - Record: serial types, the record format, [sqlite3VdbeRecordUnpack].
    - MakeRecord: [OP_MakeRecord], against the format of Record.
    - RecordCompare: [sqlite3VdbeRecordCompareWithSkip], [vdbeRecordCompareInt],
      [vdbeRecordCompareString] and the choice between them.

    B-trees (btree.c)
    - BtreeCell: the limits and kinds of pages, the parsers and sizes of their cells.
    - BtreePage: the operations on the space and the cells of a page.
    - BtreeSpace: the list of free blocks, searching and freeing ([space]: every byte of a page
      is the header, a pointer, the gap, a cell, a free block or a fragment).
    - BtreeFit: both ways of defragmenting, and allocation.
    - BtreeOps: a page as a list of cells, over sequences of operations.
    - BtreeFile: the file as a map of pages with the calls of the pager as answers of any kind;
      [allocateBtreePage], [freePage2], the pointer map, and rules for their computations.
    - BtreeFree: the list of free pages with its trunks and leaves, through every branch.
    - BtreeAlloc: the file as an allocator of pages, over whole clients.
    - BtreePayload: [accessPayload] through the cache of a cursor, against a string of bytes; the
      definitions of [fillInCell] and [clearCellOverflow].
    - BtreeOverflow: a cell with its overflow pages, from [fillInCell] to [BTREE_CLEAR_CELL].
    - BtreeCursor: the definitions of cursors: moving to the first, last, next and previous
      entry, [sqlite3BtreeTableMoveto], saving and restoring a position.
    - BtreeTree: a table as a tree of pages, where a cursor is in it, and its moves.
    - BtreeTable: a cursor against a place in the list of rows, over whole clients.

    Sets, tables and journals
    - HashTable (hash.c): the chains in memory, against a finite map with an order.
    - MemJournal (memjournal.c): the list of chunks, against a file of bytes.
    - Bitvec (bitvec.c): the three representations as one inductive type.
    - RowSet (rowset.c): insertion, extraction in order, tests by batches.

    The write-ahead log (wal.c)
    - WalIndex: the hash tables of the wal-index ([walIndexAppend], [walCleanupHash],
      [walFindFrame]), against the list of page numbers of the log.
    - WalLog: the bytes of the log ([walChecksumBytes], [walEncodeFrame],
      [walDecodeFrame], [walWriteOneFrame]) and recovery ([walIndexRecover]).
    - WalIter: the checkpoint iterator ([walMergesort], [walIteratorInit], [walIteratorNext]).
    - WalLocks: the lock method as an interface ([LockManager] with [LockLaws]), discharged
      for the host's lock manager.
    - WalTxn: the routines of readers, the writer and checkpoints as programs of atomic
      actions on a shared world, and the step relation that interleaves them.
    - WalClaims, WalActions, WalPrograms, WalCalls, WalIsolation: their proof.  The invariant
      relates the world to what each connection may claim; every action keeps it; every
      routine is checked against the claims of its own connection; every session of calls
      keeps them, hence every schedule.
    - WalLink: the lookups and work lists that WalTxn computes on the list of frames are the
      answers of the tables of WalIndex and of the iterator of WalIter.

    The host side
    - JvmLocks (JvmVfsLocks.kt), ShmArena (ShmArena.kt): the imports of the module.
    - OsJvm (os.c: the list of VFSes; wasm-lib/os_jvm.c: installing the custom VFS).
    - JvmFile (wasm-lib/os_jvm.c: [jOpen], [jClose] and the method table), with lists of
      calls by any number of connections.
    - ConnWorker (wasm-lib/extras/conn_worker.c, thread_shim.c, and the client in
      SqliteWalPool.kt): two threads as deterministic programs with one access to shared
      memory per step, for both channel protocols.

    * What the theorems show

    - Concurrency of the log: in every interleaving of any sessions, with any I/O failures,
      what a reader sees is one published transaction ([snapshot_isolation]); the log over
      the database file is always the newest one ([last_transaction_kept]), and the file
      alone is once everything is backfilled ([backfilled_database]); a writer that began
      from an old snapshot is refused ([stale_reader_cannot_write]); the shared state stays
      well formed ([shared_state_wellformed]).
    - Host locks: through the VFS, a wal-index slot held exclusively is shared by nobody
      else, and file locks exclude as long as their callers keep the rule that the pager
      asserts ([jvm_vfs_excludes], [file_locks_exclude], [shmLock_exclusive]); without it they
      do not ([pending_beside_reserved], [unlock_can_acquire]); opening and closing files is balanced; the
      arena hands out disjoint regions.
    - Workers: a submitted statement is answered within a fixed number of steps under every
      schedule with its own result, and the worker stops when told ([submit_completes],
      [worker_serializes], [close_stops_worker]); the one-word protocol can lose a stop
      ([stop_lost]).
    - The log on disk and its index: recovery publishes the last commit of the longest valid
      prefix, whatever follows it; the hash tables are a linear search; the iterator yields
      each page once with its last frame.
    - B-tree pages: for any sequence of insertions, removals and rereadings, a page is the list
      of cells on which the same is done; its free space is exact and nothing is ever found
      corrupt ([page_refines_list]).  The two ways of computing the size of a cell agree on
      all bytes ([cell_sizes_agree]).
    - B-tree files: no client is given a page it holds, its pages stay, none is lost and nothing
      is ever found corrupt ([file_refines_allocator]); each mode of allocation gives what it
      promises ([allocate_page_modes]); the pointer map is a map ([ptrmap_roundtrip]); a
      payload is one string of bytes wherever its parts lie, and leaves no page behind
      ([payload_is_string]).  A cursor on a table is a place among sorted rows, through any
      moves, searches and changes of the table by others ([cursor_refines_rows]), and a scan
      ends with all rows ([scan_lists_table]).  But for the pointer map and the modes of allocation this is for
      files without auto-vacuum, the default.
    - Records: what is packed is read back ([make_record_roundtrip]), and comparing packed keys
      is comparing the values ([packed_keys_ordered], [find_compare_exact]).
    - Equivalences, refinements and round trips of the value, text, set, table and journal
      components against plain reference definitions.

    * Bounds and fuel

    - Integers are kept at their width; sizes and pointers are those of wasm32, which is
      little-endian.  Where the source has a branch for a compiler and a portable one, the
      portable one is modelled, as the wasm build takes it.
    - [Like]: the matcher recurses on the pattern, so its fuel is the length of the pattern
      plus one; [patternCompare_exact] covers every pattern.
    - [Bitvec]: a vector of 32-bit size nests at most eight deep ([SET_FUEL]).
    - [RowSet]: the 40 buckets of the sort and of the forest hold 2^40 entries, more than a
      32-bit memory can.
    - [BtreePage]: the searches of the list of free blocks take at most one step per byte of the
      page, as addresses grow; on a page whose list does not grow the source stops as well.
    - [BtreeFile]: the search for a page passes at most one trunk per free page and looks past
      the end once, so the count of free pages plus three rounds suffice.
    - [BtreeCursor]: trees of tables are at most [BTCURSOR_MAX_DEPTH] = 20 levels deep, which
      the source checks as well; the searches in a page halve it in each round.
    - [BtreePayload]: an access visits at most the pages up to its last byte; making a cell takes
      at most one round per byte.
    - [WalIndex], [WalIter]: logs of up to [MAX_FRAMES] = 2^31 frames; chains are followed for
      at most one round of the table, and iteration takes at most one step per frame.
    - [WalTxn]: a reader retries [WAL_RETRY_PROTOCOL_LIMIT] + 1 rounds, as the source does; other
      loops are structural in the marks, the frames or the pages at hand.
    - [ConnWorker]: 382 steps of both threads together complete a request.
    - Schedules of [WalTxn] take the random salt of a new log to differ from those of the frames
      it replaces ([salts_fresh]): that is what [sqlite3_randomness] is used for there.

    * Not modelled

    - In the write-ahead log: a torn read of the wal-index header and recovery while other
      transactions run (recovery is modelled by itself, in WalLog), exclusive locking mode,
      heap-memory and read-only wal-indexes, the journal size limit, [sqlite3WalClose] and the
      snapshot interface.
    - Failing allocations, except where a component has a parameter for them.
    - Of the host, what is not locks, memory or the channel: JDBC, WASI and the server.
    - Of b-trees: the search of an index, inserting and deleting rows with balancing, auto-vacuum steps and shared caches.  Of
      records: the affinities that [OP_MakeRecord] applies first.
    - The pager, the rest of the virtual machine, the SQL front end, the extensions and the
      shell. *)

From Stdlib Require Export ZArith Lia Bool.
From stdpp Require Export prelude list gmap strings.
#[global] Open Scope Z_scope.

(** ** Machine-width integers

    A C integer is a [Z]; a cast to a width is written out.  Unsigned casts
    reduce modulo [2^w], signed casts pick the representative of the residue
    class in [[-2^(w-1), 2^(w-1))]. *)

Definition u8 (z : Z) : Z := z mod 2 ^ 8.
Definition u16 (z : Z) : Z := z mod 2 ^ 16.
Definition u32 (z : Z) : Z := z mod 2 ^ 32.
Definition u64 (z : Z) : Z := z mod 2 ^ 64.
Definition i8 (z : Z) : Z := (z + 2 ^ 7) mod 2 ^ 8 - 2 ^ 7.
Definition i16 (z : Z) : Z := (z + 2 ^ 15) mod 2 ^ 16 - 2 ^ 15.
Definition i32 (z : Z) : Z := (z + 2 ^ 31) mod 2 ^ 32 - 2 ^ 31.
Definition i64 (z : Z) : Z := (z + 2 ^ 63) mod 2 ^ 64 - 2 ^ 63.

Definition is_u8 (z : Z) : Prop := 0 <= z < 2 ^ 8.
Definition is_u16 (z : Z) : Prop := 0 <= z < 2 ^ 16.
Definition is_u32 (z : Z) : Prop := 0 <= z < 2 ^ 32.
Definition is_u64 (z : Z) : Prop := 0 <= z < 2 ^ 64.
Definition is_i32 (z : Z) : Prop := - 2 ^ 31 <= z < 2 ^ 31.
Definition is_i64 (z : Z) : Prop := - 2 ^ 63 <= z < 2 ^ 63.

(** [#define LARGEST_INT64], [#define SMALLEST_INT64] *)
Definition LARGEST_INT64 : Z := 2 ^ 63 - 1.
Definition SMALLEST_INT64 : Z := - 2 ^ 63.

(** ** Result codes *)

Definition SQLITE_OK : Z := 0.
Definition SQLITE_ERROR : Z := 1.
Definition SQLITE_BUSY : Z := 5.
Definition SQLITE_NOMEM : Z := 7.
Definition SQLITE_READONLY : Z := 8.
Definition SQLITE_IOERR : Z := 10.
Definition SQLITE_CORRUPT : Z := 11.
Definition SQLITE_NOTFOUND : Z := 12.
Definition SQLITE_FULL : Z := 13.
Definition SQLITE_CANTOPEN : Z := 14.
Definition SQLITE_PROTOCOL : Z := 15.
Definition SQLITE_MISUSE : Z := 21.
Definition SQLITE_DONE : Z := 101.
Definition SQLITE_IOERR_SHMMAP : Z := Z.lor SQLITE_IOERR (21 * 2 ^ 8).

(** ** Byte buffers and arrays

    A C array is a list; an index is a [Z].  A read outside the array yields
    [None] in [zlookup] (and the default in [zget]); a write outside the array
    leaves it unchanged.  Theorems about code that must not go out of bounds
    carry the bound. *)

Definition zlookup {A} (l : list A) (i : Z) : option A :=
  if 0 <=? i then l !! Z.to_nat i else None.
Definition zget {A} `{Inhabited A} (l : list A) (i : Z) : A :=
  default inhabitant (zlookup l i).
Definition zput {A} (l : list A) (i : Z) (x : A) : list A :=
  if 0 <=? i then <[Z.to_nat i := x]> l else l.
Definition zlen {A} (l : list A) : Z := Z.of_nat (length l).

Declare Scope c_scope.
Delimit Scope c_scope with c.
Notation "p .[ i ]" := (zget p i)
  (at level 1, left associativity, format "p .[ i ]") : c_scope.
Notation "p .[ i <- x ]" := (zput p i x)
  (at level 1, left associativity, format "p .[ i  <-  x ]") : c_scope.
#[global] Open Scope c_scope.

(** C's truth value of an integer, and the integer of a condition. *)
Definition truthy (z : Z) : bool := negb (z =? 0).
Definition b2z (b : bool) : Z := if b then 1 else 0.

(** [memcpy(&dst[i], src, n)] as a splice. *)
Definition splice {A} (dst : list A) (i : Z) (src : list A) : list A :=
  take (Z.to_nat i) dst ++ src ++ drop (Z.to_nat i + length src) dst.
(** The [n] elements from index [i]. *)
Definition slice {A} (l : list A) (i n : Z) : list A :=
  take (Z.to_nat n) (drop (Z.to_nat i) l).

(** C strings: the bytes before the terminating NUL, and the buffers they are
    copied into.  [strncpy(dst, src, n)] copies at most [n] bytes of [src] and
    fills the rest of the first [n] bytes with NULs. *)
Definition cstr (buf : list Z) : list Z :=
  (fix go l := match l with [] => [] | b :: l' => if b =? 0 then [] else b :: go l' end) buf.
Definition strncpy (dst src : list Z) (n : Z) : list Z :=
  let k := Z.to_nat n in
  take k (cstr src ++ replicate k 0) ++ drop k dst.
Definition string_of_bytes (l : list Z) : string :=
  String.string_of_list_ascii (map (fun b => Ascii.ascii_of_N (Z.to_N b)) l).

Definition bytes_ok (l : list Z) : Prop := Forall is_u8 l.

(** Results of the memory allocations to come, [true] for a failure; allocations
    succeed when the list is exhausted. *)
Definition alloc (oom : list bool) : bool * list bool :=
  match oom with [] => (false, []) | b :: r => (b, r) end.

(** ** Tactics *)

(** Turn boolean comparisons in the context into propositions. *)
Ltac zbool :=
  repeat match goal with
  | H : context [Z.eqb ?a ?b] |- _ => destruct (Z.eqb_spec a b)
  | H : context [Z.ltb ?a ?b] |- _ => destruct (Z.ltb_spec a b)
  | H : context [Z.leb ?a ?b] |- _ => destruct (Z.leb_spec a b)
  | |- context [Z.eqb ?a ?b] => destruct (Z.eqb_spec a b)
  | |- context [Z.ltb ?a ?b] => destruct (Z.ltb_spec a b)
  | |- context [Z.leb ?a ?b] => destruct (Z.leb_spec a b)
  end.

(** Widths as numerals, so that [lia] sees constants. *)
Ltac widths :=
  unfold is_u8, is_u16, is_u32, is_u64, is_i32, is_i64, u8, u16, u32, u64,
    i8, i16, i32, i64, LARGEST_INT64, SMALLEST_INT64 in *.
Ltac zwlia := widths; Z.div_mod_to_equations; lia.

Create HintDb sqlite discriminated.
Create Rewrite HintDb zlen.

(** ** Generic lemmas on indexed lists *)

Section zlists.
Context {A : Type}.
Implicit Types (l p s : list A) (i j : Z) (x : A).

Lemma zlen_nonneg l : 0 <= zlen l.
Proof. unfold zlen. lia. Qed.
Lemma zlen_nil : zlen (@nil A) = 0.
Proof. done. Qed.
Lemma zlen_cons x l : zlen (x :: l) = 1 + zlen l.
Proof. unfold zlen. cbn [length]. lia. Qed.
Lemma zlen_app l p : zlen (l ++ p) = zlen l + zlen p.
Proof. unfold zlen. rewrite length_app. lia. Qed.
Lemma zlen_snoc l x : zlen (l ++ [x]) = zlen l + 1.
Proof. unfold zlen. rewrite length_app. cbn [length]. lia. Qed.
Lemma zlen_zput l i x : zlen (l.[i <- x]) = zlen l.
Proof. unfold zlen, zput. destruct (0 <=? i); [|done]. by rewrite length_insert. Qed.
Lemma zlen_splice p i s :
  0 <= i -> i + zlen s <= zlen p -> zlen (splice p i s) = zlen p.
Proof.
  unfold zlen, splice. rewrite !length_app, length_take, length_drop. lia.
Qed.
Lemma zlen_slice l i n :
  0 <= i -> 0 <= n -> i + n <= zlen l -> zlen (slice l i n) = n.
Proof. unfold zlen, slice. rewrite length_take, length_drop. lia. Qed.

Lemma zlen_take l n : 0 <= n <= zlen l -> zlen (take (Z.to_nat n) l) = n.
Proof. unfold zlen. rewrite length_take. lia. Qed.
Lemma zlookup_Some_lt l i x : zlookup l i = Some x -> 0 <= i < zlen l.
Proof.
  unfold zlookup, zlen. destruct (Z.leb_spec 0 i); [|done].
  intros Hlt%lookup_lt_Some. lia.
Qed.
Lemma zlookup_lt l i : 0 <= i < zlen l -> exists x, zlookup l i = Some x.
Proof.
  unfold zlookup, zlen. intros Hi. destruct (Z.leb_spec 0 i); [|lia].
  apply lookup_lt_is_Some_2. lia.
Qed.
Lemma zlookup_zput_eq l i x : 0 <= i < zlen l -> zlookup (l.[i <- x]) i = Some x.
Proof.
  unfold zlookup, zput, zlen. intros Hi. destruct (Z.leb_spec 0 i); [|lia].
  apply list_lookup_insert_eq. lia.
Qed.
Lemma zlookup_zput_ne l i j x : i <> j -> zlookup (l.[i <- x]) j = zlookup l j.
Proof.
  unfold zlookup, zput. intros Hne.
  destruct (Z.leb_spec 0 i), (Z.leb_spec 0 j); try done.
  apply list_lookup_insert_ne. lia.
Qed.
Lemma zlookup_app_l l p i : i < zlen l -> zlookup (l ++ p) i = zlookup l i.
Proof.
  unfold zlookup, zlen. intros. destruct (Z.leb_spec 0 i); [|done].
  apply lookup_app_l. lia.
Qed.
Lemma zlookup_app_r l p i : zlen l <= i -> zlookup (l ++ p) i = zlookup p (i - zlen l).
Proof.
  unfold zlookup, zlen. intros. destruct (Z.leb_spec 0 i), (Z.leb_spec 0 (i - Z.of_nat (length l)));
    try lia. rewrite lookup_app_r by lia. f_equal. lia.
Qed.

Lemma zput_app_r l p i x : zlen l <= i -> (l ++ p).[i <- x] = l ++ p.[i - zlen l <- x].
Proof.
  unfold zput, zlen. intros. destruct (Z.leb_spec 0 i), (Z.leb_spec 0 (i - Z.of_nat (length l)));
    try lia. rewrite insert_app_r_alt by lia. repeat f_equal. lia.
Qed.

Lemma splice_nil p i : splice p i [] = p.
Proof. unfold splice. cbn. rewrite Nat.add_0_r. apply take_drop. Qed.
Lemma zput_splice p i x : 0 <= i < zlen p -> p.[i <- x] = splice p i [x].
Proof.
  unfold zput, splice, zlen. intros Hi. destruct (Z.leb_spec 0 i); [|lia].
  rewrite insert_take_drop by lia. cbn. by rewrite Nat.add_1_r.
Qed.
Lemma splice_app p i s1 s2 :
  0 <= i -> i + zlen s1 + zlen s2 <= zlen p ->
  splice (splice p i s1) (i + zlen s1) s2 = splice p i (s1 ++ s2).
Proof.
  unfold splice, zlen. intros Hi Hl.
  replace (Z.to_nat (i + Z.of_nat (length s1))) with (Z.to_nat i + length s1)%nat by lia.
  assert (Hti : length (take (Z.to_nat i) p) = Z.to_nat i) by (rewrite length_take; lia).
  rewrite (app_assoc (take _ p)), take_app_length' by (rewrite length_app; lia).
  rewrite <- !app_assoc. do 3 f_equal. rewrite app_assoc.
  rewrite drop_app_ge by (rewrite length_app; lia).
  rewrite drop_drop. f_equal. rewrite !length_app. lia.
Qed.
Lemma splice_splice_below p i s1 s2 :
  0 <= i -> i + zlen s1 + zlen s2 <= zlen p ->
  splice (splice p (i + zlen s1) s2) i s1 = splice p i (s1 ++ s2).
Proof.
  unfold splice, zlen. intros Hi Hl.
  replace (Z.to_nat (i + Z.of_nat (length s1))) with (Z.to_nat i + length s1)%nat by lia.
  rewrite take_app_le by (rewrite length_take; lia). rewrite take_take.
  rewrite Nat.min_l by lia. rewrite <- app_assoc. do 2 f_equal.
  rewrite drop_app_length' by (rewrite length_take; lia).
  f_equal. f_equal. rewrite length_app. lia.
Qed.
Lemma splice_0 p s : splice p 0 s = s ++ drop (length s) p.
Proof. done. Qed.
Lemma slice_splice p i s :
  0 <= i -> i + zlen s <= zlen p -> slice (splice p i s) i (zlen s) = s.
Proof.
  unfold slice, splice, zlen. intros Hi Hl.
  rewrite drop_app_length' by (rewrite length_take; lia).
  by rewrite Nat2Z.id, take_app_length.
Qed.
End zlists.

Section zget.
Context {A : Type} `{Inhabited A}.
Implicit Types (l p s : list A) (i j : Z) (x : A).

Lemma zlookup_zget l i : 0 <= i < zlen l -> zlookup l i = Some l.[i].
Proof. intros Hi. unfold zget. destruct (zlookup_lt l i Hi) as [x E]. by rewrite E. Qed.
Lemma zget_zput_eq l i x : 0 <= i < zlen l -> (l.[i <- x]).[i] = x.
Proof. intros Hi. unfold zget. by rewrite zlookup_zput_eq. Qed.
Lemma zget_zput_ne l i j x : i <> j -> (l.[i <- x]).[j] = l.[j].
Proof. intros Hi. unfold zget. by rewrite zlookup_zput_ne. Qed.
Lemma zget_app_l l p i : i < zlen l -> (l ++ p).[i] = l.[i].
Proof. intros. unfold zget. by rewrite zlookup_app_l. Qed.
Lemma zget_app_r l p i : zlen l <= i -> (l ++ p).[i] = p.[i - zlen l].
Proof. intros. unfold zget. by rewrite zlookup_app_r. Qed.
Lemma zget_cons_0 x l : (x :: l).[0] = x.
Proof. done. Qed.
Lemma zget_app_len l p x : (l ++ x :: p).[zlen l] = x.
Proof. rewrite zget_app_r, Z.sub_diag by lia. done. Qed.
End zget.

Lemma zget_byte (l : list Z) i : bytes_ok l -> is_u8 l.[i].
Proof.
  intros H. unfold zget, zlookup. destruct (0 <=? i); [|cbn; unfold is_u8; lia].
  destruct (l !! Z.to_nat i) eqn:E; cbn; [|unfold is_u8; lia].
  eapply Forall_lookup in H; [exact H|exact E].
Qed.
#[export] Hint Resolve zget_byte : sqlite.

#[export] Hint Rewrite @zlen_zput @zlen_app @zlen_cons @zlen_nil : zlen.

(** Membership is a position. *)
Lemma elem_zget {A} `{Inhabited A} (l : list A) x : x ∈ l <-> exists i, 0 <= i < zlen l /\ l.[i] = x.
Proof.
  split.
  - intros [i Hi]%list_elem_of_lookup. exists (Z.of_nat i). pose proof (lookup_lt_Some _ _ _ Hi).
    split; [unfold zlen; lia|]. unfold zget, zlookup. rewrite (proj2 (Z.leb_le _ _)) by lia.
    by rewrite Nat2Z.id, Hi.
  - intros (i & Hi & <-). apply list_elem_of_lookup. exists (Z.to_nat i).
    pose proof (zlookup_zget l i Hi) as E. unfold zlookup in E. by rewrite (proj2 (Z.leb_le _ _)) in E by lia.
Qed.

(** [m & (1<<k)] as a condition. *)
Lemma land_bit m k : 0 <= k -> truthy (Z.land m (Z.shiftl 1 k)) = Z.testbit m k.
Proof.
  intros Hk. unfold truthy. destruct (Z.testbit m k) eqn:E.
  - apply negb_true_iff, Z.eqb_neq. intros H. assert (Ht : Z.testbit (Z.land m (Z.shiftl 1 k)) k = true).
    { rewrite Z.land_spec, E, Z.shiftl_spec, Z.sub_diag by done. done. }
    by rewrite H, Z.bits_0 in Ht.
  - apply negb_false_iff, Z.eqb_eq, Z.bits_inj'. intros n Hn.
    rewrite Z.land_spec, Z.shiftl_spec, Z.bits_0 by done.
    destruct (decide (n = k)) as [->|Hne]; [by rewrite E|]. rewrite andb_false_iff. right.
    destruct (decide (n < k)); [apply Z.testbit_neg_r; lia|]. apply Z.bits_above_log2; cbn; lia.
Qed.

(** ** First and last positions *)

(** A first distance with a decidable property. *)
Lemma first_distance (P : Z -> bool) n : (exists d, 0 <= d <= n /\ P d = true) ->
  exists d, 0 <= d <= n /\ P d = true /\ forall d', 0 <= d' < d -> P d' = false.
Proof.
  intros (d & Hd & Hp). remember (Z.to_nat d) as m eqn:Em.
  revert d Hd Hp Em. induction (lt_wf m) as [m _ IH]. intros d Hd Hp ->.
  destruct (decide (Exists (fun d' => P d' = true) (seqZ 0 d))) as [He|He].
  - apply Exists_exists in He as (d' & Hin & Hp'). apply elem_of_seqZ in Hin.
    apply (IH (Z.to_nat d') ltac:(lia) d'); auto; lia.
  - exists d. split; [lia|]. split; [done|]. intros d' Hd'. apply not_true_is_false. intros E.
    apply He, Exists_exists. exists d'. split; [|done]. apply elem_of_seqZ. lia.
Qed.

(** The last position in a range. *)
Lemma last_position (P : Z -> Prop) `{!forall j, Decision (P j)} j hi : j < hi -> P j ->
  exists k, j <= k < hi /\ P k /\ forall k', k < k' < hi -> ~ P k'.
Proof.
  remember (Z.to_nat (hi - j)) as n eqn:En. revert j En. induction (lt_wf n) as [n _ IH]. intros j -> Hj Hp.
  destruct (decide (Exists P (seqZ (j + 1) (hi - j - 1)))) as [He|He].
  - apply Exists_exists in He as (k & Hk & Ek). apply elem_of_seqZ in Hk.
    destruct (IH (Z.to_nat (hi - k)) ltac:(lia) k eq_refl ltac:(lia) Ek) as (k' & ? & ? & ?).
    exists k'. split; [lia|]. done.
  - exists j. split; [lia|]. split; [done|]. intros k Hk Ek. apply He, Exists_exists.
    exists k. split; [apply elem_of_seqZ; lia|done].
Qed.


(** Deciding ranges, so that concrete inputs are checked by computation. *)
#[export] Instance is_u8_dec z : Decision (is_u8 z).
Proof. unfold is_u8. apply _. Defined.
#[export] Instance is_u32_dec z : Decision (is_u32 z).
Proof. unfold is_u32. apply _. Defined.
#[export] Instance is_u64_dec z : Decision (is_u64 z).
Proof. unfold is_u64. apply _. Defined.
#[export] Instance bytes_ok_dec l : Decision (bytes_ok l).
Proof. unfold bytes_ok. apply _. Defined.

(** Prove a decidable proposition without variables by evaluating it. *)
Ltac by_compute :=
  lazymatch goal with
  | |- ?P => apply (bool_decide_unpack P); vm_compute; exact I
  end.

(** ** C strings *)

Lemma cstr_no_nul l : Forall (fun b => b <> 0) (cstr l).
Proof.
  induction l as [|b l IH]; [constructor|]. cbn. destruct (Z.eqb_spec b 0); constructor; auto.
Qed.
Lemma cstr_app_nul s r : Forall (fun b => b <> 0) s -> cstr (s ++ 0 :: r) = s.
Proof.
  induction 1 as [|b s Hb _ IH]; [done|]. cbn. rewrite (proj2 (Z.eqb_neq b 0)) by done.
  by apply (f_equal (cons b)).
Qed.
(** A [strncpy] that leaves a NUL after the copied bytes stores the string,
    cut to [n] bytes. *)
Lemma cstr_strncpy dst z n r : drop (Z.to_nat n) dst = 0 :: r ->
  cstr (strncpy dst z n) = take (Z.to_nat n) (cstr z).
Proof.
  intros Hd. unfold strncpy. rewrite Hd, take_app, take_replicate, <- app_assoc.
  assert (Hf : Forall (fun b => b <> 0) (take (Z.to_nat n) (cstr z)))
    by apply Forall_take, cstr_no_nul.
  destruct (_ `min` _)%nat as [|m]; cbn [replicate app]; by apply cstr_app_nul.
Qed.
Lemma zlen_strncpy dst z n : 0 <= n <= zlen dst -> zlen (strncpy dst z n) = zlen dst.
Proof.
  unfold strncpy, zlen. intros. rewrite length_app, length_take, length_app, length_replicate,
    length_drop. lia.
Qed.
