(* ===== verification/Bits.v ===== *)
(** Bit-level equality of shift/mask/or expressions over bytes, by reflection.

    The decoders and encoders of the file format combine bytes with [<<], [>>],
    [|], constant masks and casts.  Every bit of such an expression is a
    disjunction of bits of the input bytes, so two expressions are equal when
    the two disjunctions have the same disjuncts at every position.  [bx] is the
    syntax, [atoms] the disjuncts at a position, [bx_eqb] the decision procedure
    and [bitwise] the tactic.  The second half relates the same operations to
    arithmetic. *)

From S2P Require Import Prelude.

Inductive bx :=
| BVar (i : nat)
| BOr (a b : bx)
| BAnd (a : bx) (m : Z)
| BShl (a : bx) (k : Z)
| BShr (a : bx) (k : Z)
| BMod (a : bx) (k : Z).

Fixpoint bx_den (env : list Z) (e : bx) : Z :=
  match e with
  | BVar i => nth i env 0
  | BOr a b => Z.lor (bx_den env a) (bx_den env b)
  | BAnd a m => Z.land (bx_den env a) m
  | BShl a k => Z.shiftl (bx_den env a) k
  | BShr a k => Z.shiftr (bx_den env a) k
  | BMod a k => bx_den env a mod 2 ^ k
  end.

(** Shift and width arguments are non-negative. *)
Fixpoint bx_ok (e : bx) : bool :=
  match e with
  | BVar _ => true
  | BOr a b => bx_ok a && bx_ok b
  | BAnd a m => (0 <=? m) && bx_ok a
  | BShl a k | BShr a k | BMod a k => (0 <=? k) && bx_ok a
  end.

Fixpoint atoms (e : bx) (n : Z) : list (nat * Z) :=
  match e with
  | BVar i => if n <? 8 then [(i, n)] else []
  | BOr a b => atoms a n ++ atoms b n
  | BAnd a m => if Z.testbit m n then atoms a n else []
  | BShl a k => if n <? k then [] else atoms a (n - k)
  | BShr a k => atoms a (n + k)
  | BMod a k => if n <? k then atoms a n else []
  end.

Fixpoint bx_width (e : bx) : Z :=
  match e with
  | BVar _ => 8
  | BOr a b => Z.max (bx_width a) (bx_width b)
  | BAnd a _ => bx_width a
  | BShl a k => bx_width a + k
  | BShr a k => Z.max 0 (bx_width a - k)
  | BMod a k => bx_width a
  end.

Definition atom_eqb (x y : nat * Z) : bool :=
  Nat.eqb x.1 y.1 && Z.eqb x.2 y.2.
Definition atoms_sub (l1 l2 : list (nat * Z)) : bool :=
  forallb (fun x => existsb (atom_eqb x) l2) l1.
Definition bx_eqb (e1 e2 : bx) : bool :=
  bx_ok e1 && bx_ok e2 &&
  forallb (fun n => atoms_sub (atoms e1 (Z.of_nat n)) (atoms e2 (Z.of_nat n))
                 && atoms_sub (atoms e2 (Z.of_nat n)) (atoms e1 (Z.of_nat n)))
    (seq 0 (Z.to_nat (Z.max (bx_width e1) (bx_width e2)))).

Definition ev (env : list Z) (l : list (nat * Z)) : bool :=
  existsb (fun x => Z.testbit (nth x.1 env 0) x.2) l.

Lemma testbit_byte x n : is_u8 x -> 8 <= n -> Z.testbit x n = false.
Proof.
  intros Hx Hn. unfold is_u8 in Hx.
  rewrite <- (Z.mod_small x (2 ^ 8)) by lia. by apply Z.mod_pow2_bits_high.
Qed.

Lemma nth_byte env i : bytes_ok env -> is_u8 (nth i env 0).
Proof.
  intros H. destruct (Nat.lt_ge_cases i (length env)) as [Hl|Hl].
  - eapply Forall_forall in H; [exact H|]. apply list_elem_of_In. by apply nth_In.
  - rewrite nth_overflow by done. unfold is_u8. lia.
Qed.

Lemma testbit_atoms env e : bytes_ok env -> bx_ok e = true ->
  forall n, 0 <= n -> Z.testbit (bx_den env e) n = ev env (atoms e n).
Proof.
  intros Henv. induction e as [i|a IHa b IHb|a IHa m|a IHa k|a IHa k|a IHa k];
    cbn [bx_den bx_ok atoms]; intros Hok n Hn;
    rewrite ?andb_true_iff in Hok; destruct_and?.
  - destruct (Z.ltb_spec n 8); cbn; [by rewrite orb_false_r|].
    apply testbit_byte; [by apply nth_byte|lia].
  - rewrite Z.lor_spec, IHa, IHb by done. unfold ev. by rewrite existsb_app.
  - rewrite Z.land_spec, IHa by done.
    destruct (Z.testbit m n); [by rewrite andb_true_r|by rewrite andb_false_r].
  - rewrite Z.shiftl_spec by done. destruct (Z.ltb_spec n k).
    + by rewrite Z.testbit_neg_r by lia.
    + apply IHa; [done|lia].
  - rewrite Z.shiftr_spec by done. apply IHa; [done|zbool; lia].
  - destruct (Z.ltb_spec n k); zbool; try discriminate.
    + by rewrite Z.mod_pow2_bits_low, IHa by (done || lia).
    + by rewrite Z.mod_pow2_bits_high by lia.
Qed.

Lemma atoms_above e : bx_ok e = true ->
  forall n, 0 <= n -> bx_width e <= n -> atoms e n = [].
Proof.
  induction e as [i|a IHa b IHb|a IHa m|a IHa k|a IHa k|a IHa k];
    cbn [bx_ok bx_width atoms]; intros Hok n Hn Hw;
    rewrite ?andb_true_iff in Hok; destruct_and?.
  - by destruct (Z.ltb_spec n 8); [lia|].
  - by rewrite IHa, IHb by (done || lia).
  - rewrite IHa by (done || lia). by destruct (Z.testbit m n).
  - destruct (Z.ltb_spec n k); [done|]. apply IHa; (done || lia).
  - apply IHa; [done|zbool; lia|lia].
  - rewrite IHa by (done || lia). by destruct (n <? k).
Qed.

Lemma atoms_sub_ev env l1 l2 :
  atoms_sub l1 l2 = true -> ev env l1 = true -> ev env l2 = true.
Proof.
  unfold atoms_sub, ev. rewrite forallb_forall, !existsb_exists.
  intros H [x [Hx Hb]]. specialize (H x Hx). apply existsb_exists in H.
  destruct H as [y [Hy E]]. unfold atom_eqb in E. apply andb_true_iff in E.
  destruct E as [E1 E2]. apply Nat.eqb_eq in E1. apply Z.eqb_eq in E2.
  exists y. by rewrite <- E1, <- E2.
Qed.

Lemma bx_eqb_sound env e1 e2 :
  bytes_ok env -> bx_eqb e1 e2 = true -> bx_den env e1 = bx_den env e2.
Proof.
  unfold bx_eqb. rewrite !andb_true_iff, forallb_forall.
  intros Henv [[H1 H2] H]. apply Z.bits_inj'. intros n Hn.
  rewrite !testbit_atoms by done.
  destruct (Z.lt_ge_cases n (Z.max (bx_width e1) (bx_width e2))).
  - specialize (H (Z.to_nat n)). rewrite Z2Nat.id in H by done.
    destruct (andb_true_iff (atoms_sub (atoms e1 n) (atoms e2 n))
      (atoms_sub (atoms e2 n) (atoms e1 n))) as [Hb _].
    destruct Hb as [S1 S2]; [apply H, in_seq; lia|].
    apply eq_true_iff_eq. split; by apply atoms_sub_ev.
  - by rewrite !atoms_above by (done || lia).
Qed.

(** Reification: the variables are the bytes of a list. *)
Ltac bx_find x env :=
  lazymatch env with
  | x :: _ => constr:(O)
  | _ :: ?t => let n := bx_find x t in constr:(S n)
  end.
Ltac bx_reify env e :=
  lazymatch e with
  | Z.lor ?a ?b => let a := bx_reify env a in let b := bx_reify env b in
                   constr:(BOr a b)
  | Z.land ?a ?m => let a := bx_reify env a in constr:(BAnd a m)
  | Z.shiftl ?a ?k => let a := bx_reify env a in constr:(BShl a k)
  | Z.shiftr ?a ?k => let a := bx_reify env a in constr:(BShr a k)
  | u8 ?a => let a := bx_reify env a in constr:(BMod a 8)
  | u16 ?a => let a := bx_reify env a in constr:(BMod a 16)
  | u32 ?a => let a := bx_reify env a in constr:(BMod a 32)
  | u64 ?a => let a := bx_reify env a in constr:(BMod a 64)
  | ?a mod (2 ^ ?k) => let a := bx_reify env a in constr:(BMod a k)
  | ?x => let n := bx_find x env in constr:(BVar n)
  end.
(** [bitwise env] proves [e1 = e2] for expressions over the bytes [env];
    it leaves [bytes_ok env] when [auto] does not find it. *)
Ltac bitwise env :=
  lazymatch goal with
  | |- ?e1 = ?e2 =>
      let b1 := bx_reify env e1 in
      let b2 := bx_reify env e2 in
      change (bx_den env b1 = bx_den env b2);
      apply bx_eqb_sound; [repeat constructor; unfold is_u8 in *; lia
                          |vm_compute; reflexivity]
  end.

(** ** Bit operations as arithmetic *)

Lemma land_127 x : Z.land x 127 = x mod 128.
Proof. change 127 with (Z.ones 7). by rewrite Z.land_ones by lia. Qed.

Lemma land_byte_mask x : Z.land x 255 = x mod 256.
Proof. change 255 with (Z.ones 8). by rewrite Z.land_ones by lia. Qed.

Lemma testbit_7 x : is_u8 x -> Z.testbit x 7 = (128 <=? x).
Proof.
  unfold is_u8. intros H. destruct (Z.leb_spec 128 x).
  - apply Z.testbit_true; [lia|]. change (2 ^ 7) with 128.
    replace (x / 128) with 1; [done|]. Z.div_mod_to_equations; lia.
  - apply Z.testbit_false; [lia|]. by rewrite Z.div_small by lia.
Qed.

Lemma land_128 x : Z.land x 128 = if Z.testbit x 7 then 128 else 0.
Proof.
  apply Z.bits_inj'. intros n Hn. rewrite Z.land_spec.
  change 128 with (2 ^ 7). rewrite Z.pow2_bits_eqb by lia.
  destruct (Z.eqb_spec 7 n) as [<-|Hne].
  - destruct (Z.testbit x 7); [|done]. by rewrite Z.pow2_bits_true by lia.
  - rewrite andb_false_r. destruct (Z.testbit x 7); [|by rewrite Z.testbit_0_l].
    by rewrite Z.pow2_bits_false by lia.
Qed.

(** [|] of disjoint ranges is [+]. *)
Lemma lor_shiftl_add a b k : 0 <= k -> 0 <= b < 2 ^ k ->
  Z.lor (Z.shiftl a k) b = a * 2 ^ k + b.
Proof.
  intros Hk Hb. rewrite <- Z.shiftl_mul_pow2 by done.
  rewrite Z.add_nocarry_lxor, Z.lxor_lor; [done|..].
  all: apply Z.bits_inj'; intros n Hn; rewrite Z.land_spec, Z.testbit_0_l;
    rewrite Z.shiftl_spec by done; destruct (Z.lt_ge_cases n k).
  all: try (by rewrite Z.testbit_neg_r by lia).
  all: rewrite <- (Z.mod_small b (2 ^ k)) by lia;
    rewrite (Z.mod_pow2_bits_high b) by lia; apply andb_false_r.
Qed.
