(* ===== verification/Varint.v ===== *)
(** The variable-length integers of the record and b-tree formats, and the
    fixed-width big-endian integers (src/util.c section of sqlite3.c).

    [varint] is the reference decoder of the format comment in the source
    (A = 0xxxxxxx, B = 1xxxxxxx, C = xxxxxxxx; at most nine bytes, the ninth
    carries eight bits).  The routines translated from the code are proved
    against it. *)

From S2P Require Import Prelude Bits.

(** ** Translated routines *)

(** The loop [for(i=7; i>=0; i--)] of [putVarint64]. *)
Fixpoint putVarint64_hi (k : nat) (p : list Z) (v : Z) : list Z :=
  match k with
  | O => p
  | S i => putVarint64_hi i (p.[Z.of_nat i <- u8 (Z.lor (Z.land v 127) 128)])
             (Z.shiftr v 7)
  end.

(** The [do ... while(v!=0)] loop: [buf] in the order written.  A [u64] has at
    most ten 7-bit groups. *)
Fixpoint putVarint64_buf (fuel : nat) (v : Z) : list Z :=
  match fuel with
  | O => []
  | S f =>
      let b := u8 (Z.lor (Z.land v 127) 128) in
      let v := Z.shiftr v 7 in
      if v =? 0 then [b] else b :: putVarint64_buf f v
  end.

(** [for(i=0, j=n-1; j>=0; j--, i++) p[i] = buf[j]] *)
Fixpoint putVarint64_copy (j : nat) (i : Z) (buf p : list Z) : list Z :=
  match j with
  | O => p
  | S j' => putVarint64_copy j' (i + 1) buf (p.[i <- buf.[Z.of_nat j']])
  end.

Definition putVarint64 (p : list Z) (v : Z) : list Z * Z :=
  if truthy (Z.land v (Z.shiftl 4278190080 32)) then
    let p := p.[8 <- u8 v] in
    (putVarint64_hi 8 p (Z.shiftr v 8), 9)
  else
    let buf := putVarint64_buf 10 v in
    let n := zlen buf in
    let buf := buf.[0 <- Z.land buf.[0] 127] in
    (putVarint64_copy (length buf) 0 buf p, n).

Definition sqlite3PutVarint (p : list Z) (v : Z) : list Z * Z :=
  if v <=? 127 then (p.[0 <- u8 (Z.land v 127)], 1)
  else if v <=? 16383 then
    (p.[0 <- u8 (Z.lor (Z.land (Z.shiftr v 7) 127) 128)].[1 <- u8 (Z.land v 127)], 2)
  else putVarint64 p v.

Definition SLOT_2_0 : Z := 0x001fc07f.
Definition SLOT_4_2_0 : Z := 0xf01fc07f.

(** Returns the number of bytes read and [*v].  [a], [b], [s] are [u32]. *)
Definition sqlite3GetVarint (p : list Z) : Z * Z :=
  if 0 <=? i8 p.[0] then (1, p.[0]) else
  if 0 <=? i8 p.[1] then (2, Z.lor (u32 (Z.shiftl (Z.land p.[0] 127) 7)) p.[1]) else
  let a := u32 (Z.shiftl p.[0] 14) in
  let b := p.[1] in
  let a := Z.lor a p.[2] in
  if negb (truthy (Z.land a 128)) then
    let a := Z.land a SLOT_2_0 in
    let b := Z.land b 127 in
    let b := u32 (Z.shiftl b 7) in
    let a := Z.lor a b in
    (3, a) else
  let a := Z.land a SLOT_2_0 in
  let b := u32 (Z.shiftl b 14) in
  let b := Z.lor b p.[3] in
  if negb (truthy (Z.land b 128)) then
    let b := Z.land b SLOT_2_0 in
    let a := u32 (Z.shiftl a 7) in
    let a := Z.lor a b in
    (4, a) else
  let b := Z.land b SLOT_2_0 in
  let s := a in
  let a := u32 (Z.shiftl a 14) in
  let a := Z.lor a p.[4] in
  if negb (truthy (Z.land a 128)) then
    let b := u32 (Z.shiftl b 7) in
    let a := Z.lor a b in
    let s := Z.shiftr s 18 in
    (5, Z.lor (u64 (Z.shiftl s 32)) a) else
  let s := u32 (Z.shiftl s 7) in
  let s := Z.lor s b in
  let b := u32 (Z.shiftl b 14) in
  let b := Z.lor b p.[5] in
  if negb (truthy (Z.land b 128)) then
    let a := Z.land a SLOT_2_0 in
    let a := u32 (Z.shiftl a 7) in
    let a := Z.lor a b in
    let s := Z.shiftr s 18 in
    (6, Z.lor (u64 (Z.shiftl s 32)) a) else
  let a := u32 (Z.shiftl a 14) in
  let a := Z.lor a p.[6] in
  if negb (truthy (Z.land a 128)) then
    let a := Z.land a SLOT_4_2_0 in
    let b := Z.land b SLOT_2_0 in
    let b := u32 (Z.shiftl b 7) in
    let a := Z.lor a b in
    let s := Z.shiftr s 11 in
    (7, Z.lor (u64 (Z.shiftl s 32)) a) else
  let a := Z.land a SLOT_2_0 in
  let b := u32 (Z.shiftl b 14) in
  let b := Z.lor b p.[7] in
  if negb (truthy (Z.land b 128)) then
    let b := Z.land b SLOT_4_2_0 in
    let a := u32 (Z.shiftl a 7) in
    let a := Z.lor a b in
    let s := Z.shiftr s 4 in
    (8, Z.lor (u64 (Z.shiftl s 32)) a) else
  let a := u32 (Z.shiftl a 15) in
  let a := Z.lor a p.[8] in
  let b := Z.land b SLOT_2_0 in
  let b := u32 (Z.shiftl b 8) in
  let a := Z.lor a b in
  let s := u32 (Z.shiftl s 4) in
  let b := p.[4] in
  let b := Z.land b 127 in
  let b := Z.shiftr b 3 in
  let s := Z.lor s b in
  (9, Z.lor (u64 (Z.shiftl s 32)) a).

(** Called by the [getVarint32] macro when [p[0] & 0x80] is set. *)
Definition sqlite3GetVarint32 (p : list Z) : Z * Z :=
  if Z.land p.[1] 128 =? 0 then
    (2, Z.lor (Z.shiftl (Z.land p.[0] 127) 7) p.[1])
  else if Z.land p.[2] 128 =? 0 then
    (3, Z.lor (Z.lor (Z.shiftl (Z.land p.[0] 127) 14)
                     (Z.shiftl (Z.land p.[1] 127) 7)) p.[2])
  else
    let '(n, v64) := sqlite3GetVarint p in
    if negb (Z.land v64 0xffffffff =? v64) then (n, 0xffffffff)
    else (n, u32 v64).

(** [#define getVarint32(A,B)]: the inlined single-byte case. *)
Definition getVarint32 (p : list Z) : Z * Z :=
  if p.[0] <? 128 then (1, p.[0]) else sqlite3GetVarint32 p.

(** [for(i=1; (v >>= 7)!=0; i++)] on a [u64]. *)
Fixpoint sqlite3VarintLen_loop (fuel : nat) (i v : Z) : Z :=
  match fuel with
  | O => i
  | S f => let v := Z.shiftr v 7 in
           if v =? 0 then i else sqlite3VarintLen_loop f (i + 1) v
  end.
Definition sqlite3VarintLen (v : Z) : Z := sqlite3VarintLen_loop 10 1 v.

Definition sqlite3Get4byte (p : list Z) : Z :=
  Z.lor (Z.lor (Z.lor (u32 (Z.shiftl p.[0] 24)) (Z.shiftl p.[1] 16))
               (Z.shiftl p.[2] 8)) p.[3].
Definition sqlite3Put4byte (p : list Z) (v : Z) : list Z :=
  p.[0 <- u8 (Z.shiftr v 24)].[1 <- u8 (Z.shiftr v 16)]
   .[2 <- u8 (Z.shiftr v 8)].[3 <- u8 v].

(** ** The format *)

(** Reference decoder: at most [k] more bytes with a continuation bit, then a
    byte of eight bits. *)
Fixpoint varint_from (k : nat) (p : list Z) (i acc : Z) : Z * Z :=
  match k with
  | O => (i + 1, acc * 256 + p.[i])
  | S k' => if p.[i] <? 128 then (i + 1, acc * 128 + p.[i])
            else varint_from k' p (i + 1) (acc * 128 + (p.[i] - 128))
  end.
Definition varint (p : list Z) : Z * Z := varint_from 8 p 0 0.

(** Reference encoder: the [n] low 7-bit groups of [v], most significant
    first. *)
Fixpoint groups (n : nat) (v : Z) : list Z :=
  match n with
  | O => []
  | S n' => groups n' (v / 128) ++ [v mod 128]
  end.
Definition cont (g : Z) : Z := g + 128.
Fixpoint ngroups (fuel : nat) (v : Z) : nat :=
  match fuel with
  | O => O
  | S f => if v / 128 =? 0 then 1%nat else S (ngroups f (v / 128))
  end.
Definition varint_enc (v : Z) : list Z :=
  if v <? 2 ^ 56
  then map cont (groups (pred (ngroups 10 v)) (v / 128)) ++ [v mod 128]
  else map cont (groups 8 (v / 256)) ++ [v mod 256].

(** ** Decoding *)

Lemma i8_sign x : is_u8 x -> (0 <=? i8 x) = (x <? 128).
Proof.
  unfold is_u8, i8. intros Hx. destruct (Z.ltb_spec x 128).
  - rewrite Z.mod_small by lia. lia.
  - replace ((x + 2 ^ 7) mod 2 ^ 8) with (x - 128); [lia|].
    Z.div_mod_to_equations; lia.
Qed.

(** Bit 7 of a word whose low byte is [x]. *)
Lemma low_bit7 a x : Z.testbit a 7 = false -> is_u8 x ->
  negb (truthy (Z.land (Z.lor a x) 128)) = (x <? 128).
Proof.
  intros Ha Hx. rewrite land_128, Z.lor_spec, Ha, testbit_7 by done.
  cbn [orb]. rewrite Z.ltb_antisym. by destruct (128 <=? x).
Qed.

Lemma shl_bit7 a k : 8 <= k -> Z.testbit (u32 (Z.shiftl a k)) 7 = false.
Proof.
  intros. unfold u32. rewrite Z.mod_pow2_bits_low, Z.shiftl_spec by lia.
  by rewrite Z.testbit_neg_r by lia.
Qed.

(** One step of the reference decoder in bit operations. *)
Lemma varint_cont_step acc x : 128 <= x < 256 ->
  acc * 128 + (x - 128) = Z.lor (Z.shiftl acc 7) (Z.land x 127).
Proof.
  intros Hx. rewrite land_127, lor_shiftl_add by (Z.div_mod_to_equations; lia).
  change (2 ^ 7) with 128. Z.div_mod_to_equations; lia.
Qed.
Lemma varint_last_step acc x : 0 <= x < 128 ->
  acc * 128 + x = Z.lor (Z.shiftl acc 7) (Z.land x 127).
Proof.
  intros Hx. rewrite land_127, lor_shiftl_add by (Z.div_mod_to_equations; lia).
  by rewrite Z.mod_small by lia.
Qed.
Lemma varint_ninth_step acc x : 0 <= x < 256 ->
  acc * 256 + x = Z.lor (Z.shiftl acc 8) x.
Proof. intros Hx. by rewrite lor_shiftl_add by lia. Qed.
Lemma varint_first_cont x : 128 <= x < 256 -> 0 * 128 + (x - 128) = Z.land x 127.
Proof. intros Hx. rewrite land_127. Z.div_mod_to_equations; lia. Qed.

(** A byte below 128 is its own low group. *)
Lemma land_127_id x : 0 <= x < 128 -> Z.land x 127 = x.
Proof. intros. rewrite land_127. by apply Z.mod_small. Qed.

(** Close one exit of the decoder: the last byte [x] carries seven bits. *)
Ltac varint_exit x env :=
  f_equal;
  repeat first [ rewrite varint_first_cont by (unfold is_u8 in *; lia)
               | rewrite varint_cont_step by (unfold is_u8 in *; lia)
               | rewrite varint_last_step by (unfold is_u8 in *; lia)
               | rewrite varint_ninth_step by (unfold is_u8 in *; lia) ];
  rewrite <- (land_127_id x) by (unfold is_u8 in *; lia);
  unfold SLOT_2_0, SLOT_4_2_0; bitwise env.

(** The optimised decoder is the reference decoder, on any buffer. *)
Lemma getvarint_varint p : bytes_ok p -> sqlite3GetVarint p = varint p.
Proof.
  intros H. unfold sqlite3GetVarint, varint. cbn [varint_from].
  change (Z.add 0 1) with 1. change (Z.add 1 1) with 2. change (Z.add 2 1) with 3.
  change (Z.add 3 1) with 4. change (Z.add 4 1) with 5. change (Z.add 5 1) with 6.
  change (Z.add 6 1) with 7. change (Z.add 7 1) with 8.
  pose proof (zget_byte p 0 H). pose proof (zget_byte p 1 H).
  pose proof (zget_byte p 2 H). pose proof (zget_byte p 3 H).
  pose proof (zget_byte p 4 H). pose proof (zget_byte p 5 H).
  pose proof (zget_byte p 6 H). pose proof (zget_byte p 7 H).
  pose proof (zget_byte p 8 H).
  generalize dependent p.[0]; intros x0 Hx0. generalize dependent p.[1]; intros x1 Hx1.
  generalize dependent p.[2]; intros x2 Hx2. generalize dependent p.[3]; intros x3 Hx3.
  generalize dependent p.[4]; intros x4 Hx4. generalize dependent p.[5]; intros x5 Hx5.
  generalize dependent p.[6]; intros x6 Hx6. generalize dependent p.[7]; intros x7 Hx7.
  generalize dependent p.[8]; intros x8 Hx8. clear H p.
  rewrite !i8_sign by done. cbv zeta.
  repeat (rewrite low_bit7; [|by apply shl_bit7|assumption]).
  destruct (Z.ltb_spec x0 128); [f_equal; lia|].
  destruct (Z.ltb_spec x1 128); [varint_exit x1 [x0;x1]|].
  destruct (Z.ltb_spec x2 128); [varint_exit x2 [x0;x1;x2]|].
  destruct (Z.ltb_spec x3 128); [varint_exit x3 [x0;x1;x2;x3]|].
  destruct (Z.ltb_spec x4 128); [varint_exit x4 [x0;x1;x2;x3;x4]|].
  destruct (Z.ltb_spec x5 128); [varint_exit x5 [x0;x1;x2;x3;x4;x5]|].
  destruct (Z.ltb_spec x6 128); [varint_exit x6 [x0;x1;x2;x3;x4;x5;x6]|].
  destruct (Z.ltb_spec x7 128); [varint_exit x7 [x0;x1;x2;x3;x4;x5;x6;x7]|].
  f_equal.
  rewrite varint_ninth_step, varint_first_cont, !varint_cont_step
    by (unfold is_u8 in *; lia).
  unfold SLOT_2_0; bitwise [x0;x1;x2;x3;x4;x5;x6;x7;x8].
Qed.

(** ** Encoding *)

Lemma cont_byte v : u8 (Z.lor (Z.land v 127) 128) = cont (v mod 128).
Proof.
  rewrite Z.lor_comm, land_127. unfold cont.
  change 128 with (Z.shiftl 1 7) at 1.
  pose proof (Z.mod_pos_bound v 128 ltac:(lia)).
  rewrite lor_shiftl_add by lia. change (1 * 2 ^ 7) with 128.
  unfold u8. rewrite Z.mod_small by lia. lia.
Qed.

Lemma shiftr_7 v : Z.shiftr v 7 = v / 128.
Proof. by rewrite Z.shiftr_div_pow2 by lia. Qed.

Lemma length_groups n v : length (groups n v) = n.
Proof.
  revert v; induction n as [|n IH]; intros v; cbn [groups]; [done|].
  rewrite length_app, IH. cbn. lia.
Qed.

Lemma groups_range n v : Forall (fun g => 0 <= g < 128) (groups n v).
Proof.
  revert v; induction n as [|n IH]; intros v; cbn [groups]; [constructor|].
  apply Forall_app; split; [apply IH|]. repeat constructor; Z.div_mod_to_equations; lia.
Qed.

Lemma groups_value n v acc : 0 <= v ->
  foldl (fun a g => a * 128 + g) acc (groups n v) =
  acc * 128 ^ Z.of_nat n + v mod 128 ^ Z.of_nat n.
Proof.
  revert v; induction n as [|n IH]; intros v Hv; cbn [groups].
  - cbn. rewrite Z.mod_1_r. lia.
  - rewrite foldl_app. cbn [foldl]. rewrite IH by (apply Z.div_pos; lia).
    rewrite Nat2Z.inj_succ, Z.pow_succ_r by lia.
    rewrite Z.rem_mul_r by lia. lia.
Qed.

Lemma putVarint64_hi_spec k p v : Z.of_nat k <= zlen p ->
  putVarint64_hi k p v = splice p 0 (map cont (groups k v)).
Proof.
  revert p v; induction k as [|k IH]; intros p v Hp; cbn [putVarint64_hi groups].
  - cbn [map]. by rewrite splice_nil.
  - rewrite IH by (rewrite zlen_zput; lia).
    rewrite cont_byte, shiftr_7, zput_splice by lia.
    assert (E : zlen (map cont (groups k (v / 128))) = Z.of_nat k)
      by (unfold zlen; by rewrite length_map, length_groups).
    replace (Z.of_nat k) with (0 + zlen (map cont (groups k (v / 128)))) by lia.
    rewrite splice_splice_below by (autorewrite with zlen; lia).
    by rewrite map_app.
Qed.

Lemma putVarint64_buf_spec f v :
  putVarint64_buf f v = rev (map cont (groups (ngroups f v) v)).
Proof.
  revert v; induction f as [|f IH]; intros v; cbn [putVarint64_buf ngroups groups]; [done|].
  rewrite shiftr_7, cont_byte. destruct (v / 128 =? 0).
  - done.
  - cbn [groups]. rewrite IH, map_app, rev_app_distr. done.
Qed.

Lemma ngroups_bound f v : 0 <= v < 128 ^ Z.of_nat f -> v < 128 ^ Z.of_nat (ngroups f v).
Proof.
  revert v; induction f as [|f IH]; intros v; cbn [ngroups]; [by intros [? ?]|].
  rewrite Nat2Z.inj_succ, Z.pow_succ_r by lia. intros Hv.
  destruct (Z.eqb_spec (v / 128) 0) as [E|E].
  - change (Z.of_nat 1) with 1. Z.div_mod_to_equations; lia.
  - rewrite Nat2Z.inj_succ, Z.pow_succ_r by lia.
    assert (v / 128 < 128 ^ Z.of_nat (ngroups f (v / 128))).
    { apply IH. split; [apply Z.div_pos; lia|apply Z.div_lt_upper_bound; lia]. }
    Z.div_mod_to_equations; lia.
Qed.

Lemma ngroups_le f k v : 0 <= v < 128 ^ Z.of_nat k -> (1 <= k)%nat ->
  (ngroups f v <= k)%nat.
Proof.
  revert k v; induction f as [|f IH]; intros k v Hv Hk; cbn [ngroups]; [lia|].
  destruct (Z.eqb_spec (v / 128) 0) as [E|E]; [lia|].
  destruct k as [|[|k]]; [lia| |].
  - exfalso. apply E. apply Z.div_small. lia.
  - rewrite (Nat2Z.inj_succ (S k)), Z.pow_succ_r in Hv by lia.
    assert (ngroups f (v / 128) <= S k)%nat; [|lia]. apply IH; [|lia].
    split; [apply Z.div_pos; lia|apply Z.div_lt_upper_bound; lia].
Qed.

Lemma ngroups_pos f v : (1 <= ngroups (S f) v)%nat.
Proof. cbn [ngroups]. destruct (v / 128 =? 0); lia. Qed.

Lemma putVarint64_copy_spec j i buf p :
  0 <= i -> i + Z.of_nat j <= zlen p -> (j <= length buf)%nat ->
  putVarint64_copy j i buf p = splice p i (rev (take j buf)).
Proof.
  revert i p; induction j as [|j IH]; intros i p Hi Hp Hj; cbn [putVarint64_copy].
  - rewrite take_0. cbn [rev]. by rewrite splice_nil.
  - rewrite IH by (rewrite ?zlen_zput; lia).
    rewrite zput_splice by lia.
    assert (E : zlen [buf.[Z.of_nat j]] = 1) by done.
    rewrite <- E at 1. rewrite splice_app.
    + f_equal. erewrite (take_S_r buf j); [by rewrite rev_app_distr|].
      pose proof (zlookup_zget buf (Z.of_nat j)) as Hz. unfold zlookup in Hz.
      rewrite (proj2 (Z.leb_le 0 (Z.of_nat j))), Nat2Z.id in Hz by lia.
      apply Hz. unfold zlen. lia.
    + done.
    + unfold zlen in *. rewrite length_rev, length_take. cbn. lia.
Qed.

Lemma high_byte_test v : is_u64 v ->
  truthy (Z.land v (Z.shiftl 4278190080 32)) = (2 ^ 56 <=? v).
Proof.
  intros Hv. unfold is_u64 in Hv.
  change (Z.shiftl 4278190080 32) with (Z.shiftl (Z.ones 8) 56).
  assert (E : Z.land v (Z.shiftl (Z.ones 8) 56) = Z.shiftl (Z.shiftr v 56) 56).
  { apply Z.bits_inj'. intros n Hn. rewrite Z.land_spec, !Z.shiftl_spec by lia.
    destruct (Z.lt_ge_cases n 56).
    - rewrite !(Z.testbit_neg_r _ (n - 56)) by lia. apply andb_false_r.
    - rewrite Z.shiftr_spec by lia. replace (n - 56 + 56) with n by lia.
      destruct (Z.lt_ge_cases n 64).
      + rewrite Z.ones_spec_low by lia. apply andb_true_r.
      + rewrite <- (Z.mod_small v (2 ^ 64)), Z.mod_pow2_bits_high by lia. done. }
  rewrite E, Z.shiftl_mul_pow2, Z.shiftr_div_pow2 by lia. unfold truthy.
  destruct (Z.leb_spec (2 ^ 56) v), (Z.eqb_spec (v / 2 ^ 56 * 2 ^ 56) 0); try done;
    Z.div_mod_to_equations; lia.
Qed.

Lemma splice_1_1 (p : list Z) a b : 2 <= zlen p ->
  splice (splice p 0 [a]) 1 [b] = splice p 0 [a; b].
Proof. intros. apply (splice_app p 0 [a] [b]); autorewrite with zlen; lia. Qed.

Lemma varint_enc_len v : is_u64 v -> 1 <= zlen (varint_enc v) <= 9.
Proof.
  intros Hv. unfold is_u64 in Hv. unfold varint_enc, zlen.
  destruct (Z.ltb_spec v (2 ^ 56)); rewrite length_app, length_map, length_groups; cbn [length].
  - assert (Hn8 : (ngroups 10 v <= 8)%nat) by (apply ngroups_le; cbn; lia). lia.
  - lia.
Qed.

Lemma putVarint64_short p v : 0 <= v < 2 ^ 56 -> zlen (varint_enc v) <= zlen p ->
  putVarint64 p v = (splice p 0 (varint_enc v), zlen (varint_enc v)).
Proof.
  unfold putVarint64, varint_enc. intros Hv.
  rewrite high_byte_test, (proj2 (Z.leb_gt (2 ^ 56) v)),
    (proj2 (Z.ltb_lt v (2 ^ 56))) by (unfold is_u64; lia).
  rewrite putVarint64_buf_spec.
  pose proof (ngroups_pos 9 v) as Hn.
  assert (Hn8 : (ngroups 10 v <= 8)%nat) by (apply ngroups_le; cbn; lia).
  destruct (ngroups 10 v) as [|m]; [lia|]. cbn [pred groups].
  unfold zlen at 1. rewrite length_app, length_map, length_groups. cbn [length]. intros Hp.
  rewrite map_app, rev_app_distr. cbn [map rev app].
  set (R := rev (map cont (groups m (v / 128)))).
  assert (HR : length R = m) by (unfold R; by rewrite length_rev, length_map, length_groups).
  change ((cont (v mod 128) :: R).[0]) with (cont (v mod 128)).
  change ((cont (v mod 128) :: R).[0 <- Z.land (cont (v mod 128)) 127])
    with (Z.land (cont (v mod 128)) 127 :: R).
  rewrite putVarint64_copy_spec by (cbn [length]; lia).
  rewrite firstn_all. cbn [rev]. unfold R. rewrite rev_involutive, land_127.
  replace (cont (v mod 128) mod 128) with (v mod 128)
    by (unfold cont; Z.div_mod_to_equations; lia).
  f_equal. unfold zlen. cbn [length].
  rewrite length_rev, length_app, length_map. cbn. lia.
Qed.

Lemma putVarint64_nine p v : 2 ^ 56 <= v < 2 ^ 64 -> zlen (varint_enc v) <= zlen p ->
  putVarint64 p v = (splice p 0 (varint_enc v), zlen (varint_enc v)).
Proof.
  unfold putVarint64, varint_enc. intros Hv.
  rewrite high_byte_test, (proj2 (Z.leb_le (2 ^ 56) v)),
    (proj2 (Z.ltb_ge v (2 ^ 56))) by (unfold is_u64; lia).
  unfold zlen at 1. rewrite length_app, length_map, length_groups. change (Z.of_nat (8 + length [v mod 256])) with 9. intros Hp.
  rewrite putVarint64_hi_spec by (rewrite zlen_zput; lia).
  rewrite Z.shiftr_div_pow2, zput_splice by lia.
  assert (E : zlen (map cont (groups 8 (v / 2 ^ 8))) = 8) by done.
  pose proof (splice_splice_below p 0 (map cont (groups 8 (v / 2 ^ 8))) [u8 v]) as S.
  rewrite E in S. change (0 + 8) with 8 in S.
  rewrite S by (autorewrite with zlen; lia). done.
Qed.

(** The writer emits exactly the reference encoding and touches nothing else. *)
Lemma putvarint_enc p v : is_u64 v -> zlen (varint_enc v) <= zlen p ->
  sqlite3PutVarint p v = (splice p 0 (varint_enc v), zlen (varint_enc v)).
Proof.
  intros Hv. unfold sqlite3PutVarint. unfold is_u64 in Hv.
  destruct (Z.leb_spec v 127); [|destruct (Z.leb_spec v 16383)].
  - unfold varint_enc. rewrite (proj2 (Z.ltb_lt v (2 ^ 56))) by lia. cbn [ngroups].
    rewrite Z.div_small by lia. cbn [Z.eqb pred groups map app]. rewrite zlen_cons, zlen_nil. intros Hp.
    rewrite land_127, zput_splice by lia. unfold u8.
    by rewrite (Z.mod_small (v mod 128)) by (Z.div_mod_to_equations; lia).
  - unfold varint_enc. rewrite (proj2 (Z.ltb_lt v (2 ^ 56))) by lia. cbn [ngroups].
    destruct (Z.eqb_spec (v / 128) 0); [Z.div_mod_to_equations; lia|].
    destruct (Z.eqb_spec (v / 128 / 128) 0); [|Z.div_mod_to_equations; lia].
    cbn [pred groups map app]. rewrite !zlen_cons, zlen_nil. intros Hp. rewrite shiftr_7, cont_byte, land_127.
    rewrite zput_splice by (rewrite zlen_zput; lia). rewrite zput_splice by lia.
    unfold u8. rewrite (Z.mod_small (v mod 128)) by (Z.div_mod_to_equations; lia).
    by rewrite splice_1_1 by lia.
  - destruct (Z.lt_ge_cases v (2 ^ 56)).
    + apply putVarint64_short. lia.
    + apply putVarint64_nine. lia.
Qed.

(** ** Decoding what was encoded *)

Lemma varint_from_cont gs k pre post acc :
  Forall (fun g => 0 <= g < 128) gs -> (length gs <= k)%nat ->
  varint_from k (pre ++ map cont gs ++ post) (zlen pre) acc =
  varint_from (k - length gs) (pre ++ map cont gs ++ post) (zlen pre + zlen gs)
    (foldl (fun a g => a * 128 + g) acc gs).
Proof.
  revert k pre acc; induction gs as [|g gs IH]; intros k pre acc Hg Hk.
  - cbn. rewrite Z.add_0_r, Nat.sub_0_r. done.
  - apply Forall_cons in Hg as [Hg Hgs]. cbn [length] in Hk.
    destruct k as [|k]; [lia|]. cbn [varint_from map app].
    rewrite zget_app_len, (proj2 (Z.ltb_ge (cont g) 128)) by (unfold cont; lia).
    replace (cont g - 128) with g by (unfold cont; lia).
    specialize (IH k (pre ++ [cont g]) (acc * 128 + g) Hgs ltac:(lia)).
    rewrite zlen_app in IH. change (zlen [cont g]) with 1 in IH.
    rewrite <- app_assoc in IH. cbn [app] in IH. rewrite IH.
    cbn [foldl length Nat.sub]. f_equal. rewrite zlen_cons. lia.
Qed.

Lemma varint_enc_dec v r : is_u64 v ->
  varint (varint_enc v ++ r) = (zlen (varint_enc v), v).
Proof.
  intros Hv. unfold is_u64 in Hv. unfold varint, varint_enc.
  destruct (Z.ltb_spec v (2 ^ 56)).
  - assert (Hn8 : (ngroups 10 v <= 8)%nat) by (apply ngroups_le; cbn; lia).
    pose proof (ngroups_pos 9 v) as Hn1.
    pose proof (ngroups_bound 10 v ltac:(cbn; lia)) as Hb.
    destruct (ngroups 10 v) as [|m]; [lia|]. cbn [pred].
    rewrite Nat2Z.inj_succ, Z.pow_succ_r in Hb by lia.
    rewrite <- app_assoc. cbn [app].
    pose proof (varint_from_cont (groups m (v / 128)) 8 [] (v mod 128 :: r) 0
      (groups_range _ _)) as E. cbn [app] in E. rewrite length_groups in E.
    change (zlen (@nil Z)) with 0 in E. rewrite E by lia. clear E.
    rewrite groups_value by (apply Z.div_pos; lia).
    rewrite (Z.mod_small (v / 128)) by
      (split; [apply Z.div_pos; lia|apply Z.div_lt_upper_bound; lia]).
    assert (Ez : 0 + zlen (groups m (v / 128)) = zlen (map cont (groups m (v / 128))))
      by (unfold zlen; rewrite length_map; lia).
    rewrite Ez. destruct (8 - m)%nat as [|k] eqn:Ek; [lia|]. cbn [varint_from].
    rewrite zget_app_len, (proj2 (Z.ltb_lt (v mod 128) 128)) by (Z.div_mod_to_equations; lia).
    rewrite zlen_app. change (zlen [v mod 128]) with 1. f_equal.
    rewrite Z.mul_0_l. Z.div_mod_to_equations; lia.
  - rewrite <- app_assoc. cbn [app].
    pose proof (varint_from_cont (groups 8 (v / 256)) 8 [] (v mod 256 :: r) 0
      (groups_range _ _)) as E. cbn [app] in E. rewrite length_groups in E.
    change (zlen (@nil Z)) with 0 in E. rewrite E by lia. clear E.
    rewrite groups_value by (apply Z.div_pos; lia).
    rewrite (Z.mod_small (v / 256)) by
      (split; [apply Z.div_pos; lia|apply Z.div_lt_upper_bound; cbn; lia]).
    change (0 + zlen (groups 8 (v / 256))) with (zlen (map cont (groups 8 (v / 256)))).
    change (8 - 8)%nat with O. cbn [varint_from].
    rewrite zget_app_len, zlen_app. change (zlen [v mod 256]) with 1. f_equal.
    rewrite Z.mul_0_l. Z.div_mod_to_equations; lia.
Qed.

Lemma groups_bytes n v : Forall is_u8 (map cont (groups n v)).
Proof.
  pose proof (groups_range n v) as H. apply Forall_map. eapply Forall_impl; [exact H|].
  unfold compose, is_u8, cont. intros. cbn in *. lia.
Qed.

Lemma varint_enc_bytes v : bytes_ok (varint_enc v).
Proof.
  unfold bytes_ok, varint_enc. destruct (v <? 2 ^ 56);
    (apply Forall_app; split; [apply groups_bytes|repeat constructor]);
    unfold is_u8; Z.div_mod_to_equations; lia.
Qed.

Lemma varintlen_loop f i v : 0 <= v < 128 ^ Z.of_nat (S f) ->
  sqlite3VarintLen_loop (S f) i v = i + Z.of_nat (ngroups (S f) v) - 1.
Proof.
  revert i v; induction f as [|f IH]; intros i v Hv.
  - cbn in *. rewrite shiftr_7, Z.div_small by lia. cbn. lia.
  - remember (S f) as g. cbn [sqlite3VarintLen_loop ngroups]. rewrite shiftr_7.
    destruct (Z.eqb_spec (v / 128) 0); [lia|]. rewrite IH; [lia|].
    rewrite Nat2Z.inj_succ, Z.pow_succ_r in Hv by lia.
    split; [apply Z.div_pos; lia|apply Z.div_lt_upper_bound; lia].
Qed.

Lemma ngroups_ge f k v : (k < f)%nat -> 128 ^ Z.of_nat k <= v -> (k < ngroups f v)%nat.
Proof.
  revert k v; induction f as [|f IH]; intros k v Hf Hv; [lia|]. cbn [ngroups].
  destruct k as [|k]; [destruct (v / 128 =? 0); lia|].
  rewrite Nat2Z.inj_succ, Z.pow_succ_r in Hv by lia.
  assert (128 ^ Z.of_nat k <= v / 128) by (apply Z.div_le_lower_bound; lia).
  assert (0 < 128 ^ Z.of_nat k) by (apply Z.pow_pos_nonneg; lia).
  destruct (Z.eqb_spec (v / 128) 0); [lia|].
  specialize (IH k (v / 128)). lia.
Qed.

Lemma u64_64 v : is_u64 v -> v < 128 ^ 10.
Proof. unfold is_u64. intros. cbn. lia. Qed.

Lemma varint_from_nonneg k p i acc : bytes_ok p -> 0 <= acc ->
  0 <= snd (varint_from k p i acc).
Proof.
  intros Hb. revert i acc; induction k as [|k IH]; intros i acc Ha;
    pose proof (zget_byte p i Hb) as Hx; unfold is_u8 in Hx; cbn [varint_from].
  - cbn. lia.
  - destruct (Z.ltb_spec p.[i] 128); [cbn; lia|]. apply IH. lia.
Qed.
Lemma varint_nonneg p : bytes_ok p -> 0 <= snd (varint p).
Proof. intros. by apply varint_from_nonneg. Qed.

Lemma bit7_clear x : is_u8 x -> (Z.land x 128 =? 0) = (x <? 128).
Proof.
  intros. rewrite land_128, testbit_7 by done. rewrite Z.ltb_antisym.
  by destruct (128 <=? x).
Qed.

(** The 2- and 3-byte fast paths as arithmetic. *)
Lemma lor2_groups x0 x1 : is_u8 x0 -> is_u8 x1 ->
  Z.lor (Z.shiftl (Z.land x0 127) 7) x1 =
  if x1 <? 128 then x0 mod 128 * 128 + x1 else Z.lor (Z.shiftl (Z.land x0 127) 7) x1.
Proof.
  intros H0 H1. destruct (Z.ltb_spec x1 128); [|done].
  unfold is_u8 in *. by rewrite lor_shiftl_add, land_127 by lia.
Qed.
Lemma lor3_groups x0 x1 x2 : is_u8 x0 -> is_u8 x1 -> is_u8 x2 ->
  Z.lor (Z.lor (Z.shiftl (Z.land x0 127) 14) (Z.shiftl (Z.land x1 127) 7)) x2 =
  if x2 <? 128 then (x0 mod 128 * 128 + x1 mod 128) * 128 + x2
  else Z.lor (Z.lor (Z.shiftl (Z.land x0 127) 14) (Z.shiftl (Z.land x1 127) 7)) x2.
Proof.
  intros H0 H1 H2. destruct (Z.ltb_spec x2 128); [|done]. unfold is_u8 in *.
  rewrite (varint_last_step _ x2), (varint_last_step _ (x1 mod 128)), <- !land_127
    by (Z.div_mod_to_equations; lia).
  rewrite <- (land_127_id x2) at 1 by lia. bitwise [x0; x1; x2].
Qed.

(** ** Big-endian words *)

Lemma put4_splice p v : 4 <= zlen p -> sqlite3Put4byte p v =
  splice p 0 [u8 (Z.shiftr v 24); u8 (Z.shiftr v 16); u8 (Z.shiftr v 8); u8 v].
Proof.
  intros Hp. by destruct p as [|a [|b [|c [|d r]]]]; try (unfold zlen in Hp; cbn in Hp; lia).
Qed.

Lemma u8_range v : is_u8 (u8 v).
Proof. unfold is_u8, u8. Z.div_mod_to_equations; lia. Qed.
Lemma u8_div v k : 0 <= k -> u8 (Z.shiftr v k) = v / 2 ^ k mod 256.
Proof. intros. unfold u8. by rewrite Z.shiftr_div_pow2. Qed.

(** [sqlite3Get4byte] as the big-endian sum. *)
Lemma get4_sum a b c d r : is_u8 a -> is_u8 b -> is_u8 c -> is_u8 d ->
  sqlite3Get4byte (a :: b :: c :: d :: r) = ((a * 256 + b) * 256 + c) * 256 + d.
Proof.
  intros. unfold sqlite3Get4byte.
  change ((a :: b :: c :: d :: r).[0]) with a. change ((a :: b :: c :: d :: r).[1]) with b.
  change ((a :: b :: c :: d :: r).[2]) with c. change ((a :: b :: c :: d :: r).[3]) with d.
  rewrite !varint_ninth_step by (unfold is_u8 in *; lia).
  bitwise [a; b; c; d].
Qed.

Lemma get4_of_put4 p v : is_u32 v -> 4 <= zlen p -> sqlite3Get4byte (sqlite3Put4byte p v) = v.
Proof.
  intros Hv Hp. rewrite put4_splice, splice_0 by done. cbn [app].
  rewrite get4_sum by apply u8_range. rewrite !u8_div by lia. unfold u8.
  unfold is_u32 in Hv. cbn. Z.div_mod_to_equations; lia.
Qed.

Lemma put4_of_get4 p : 4 <= zlen p -> bytes_ok p -> sqlite3Put4byte p (sqlite3Get4byte p) = p.
Proof.
  intros Hp Hb. rewrite put4_splice by done.
  destruct p as [|a [|b [|c [|d r]]]]; try (unfold zlen in Hp; cbn in Hp; lia).
  unfold bytes_ok in Hb. rewrite !Forall_cons in Hb. destruct_and?.
  rewrite get4_sum by done. rewrite splice_0. cbn [app length drop].
  rewrite !u8_div by lia. unfold u8, is_u8 in *. cbn.
  repeat f_equal; Z.div_mod_to_equations; lia.
Qed.

Lemma varintlen_enc v : 0 <= v < 2 ^ 56 -> sqlite3VarintLen v = zlen (varint_enc v).
Proof.
  intros Hv. unfold sqlite3VarintLen, varint_enc, zlen. rewrite varintlen_loop by (cbn; lia).
  rewrite (proj2 (Z.ltb_lt v (2 ^ 56))), length_app, length_map, length_groups by lia. cbn [length].
  pose proof (ngroups_pos 9 v). lia.
Qed.

(** ** Properties *)

(** The unrolled 64-bit decoder [sqlite3GetVarint] computes exactly the
    reference decoding of the file format (length and value) on every byte
    buffer: the mask/shift dance over three 32-bit registers loses no bit. *)
Theorem getvarint_is_varint p : bytes_ok p -> sqlite3GetVarint p = varint p.
Proof. apply getvarint_varint. Qed.

Lemma getvarint_is_varint_witness :
  sqlite3GetVarint [255; 255; 255; 255; 255; 255; 255; 255; 255] = (9, 2 ^ 64 - 1).
Proof.
  rewrite (getvarint_is_varint [255; 255; 255; 255; 255; 255; 255; 255; 255]);
    [vm_compute; reflexivity|by_compute].
Defined.

(** C37. Round trip: writing any [u64] with [sqlite3PutVarint] into a buffer with
    at least nine bytes of room uses between one and nine bytes, changes no byte
    beyond them, and [sqlite3GetVarint] reads back the same length and value. *)
Theorem varint_roundtrip p v : is_u64 v -> 9 <= zlen p -> bytes_ok p ->
  exists p' n, sqlite3PutVarint p v = (p', n) /\
    1 <= n <= 9 /\ zlen p' = zlen p /\ drop (Z.to_nat n) p' = drop (Z.to_nat n) p /\
    sqlite3GetVarint p' = (n, v).
Proof.
  intros Hv Hp Hb. pose proof (varint_enc_len v Hv) as Hl.
  eexists _, _. split; [apply putvarint_enc; [done|lia]|]. split; [done|].
  split; [apply zlen_splice; lia|]. rewrite splice_0. split.
  - rewrite drop_app_ge by (unfold zlen; lia). unfold zlen.
    rewrite Nat2Z.id, Nat.sub_diag. done.
  - rewrite getvarint_varint; [by apply varint_enc_dec|].
    apply Forall_app; split; [apply varint_enc_bytes|by apply Forall_drop].
Qed.

Lemma varint_roundtrip_witness :
  exists p' n, sqlite3PutVarint (replicate 9 0) (2 ^ 56) = (p', n) /\
    1 <= n <= 9 /\ zlen p' = 9 /\ drop (Z.to_nat n) p' = drop (Z.to_nat n) (replicate 9 0) /\
    sqlite3GetVarint p' = (n, 2 ^ 56).
Proof.
  apply (varint_roundtrip (replicate 9 0) (2 ^ 56)).
  - by_compute.
  - by_compute.
  - by_compute.
Defined.

(** [getVarint32] returns the length of the varint and its value clamped to
    [0xffffffff]: the 2- and 3-byte fast paths agree with the general decoder. *)
Theorem getVarint32_clamps p : bytes_ok p ->
  getVarint32 p = (fst (varint p), Z.min (snd (varint p)) 0xffffffff).
Proof.
  intros Hb. pose proof (varint_nonneg p Hb) as Hv.
  unfold getVarint32, sqlite3GetVarint32. rewrite getvarint_varint by done.
  pose proof (zget_byte p 0 Hb) as H0. pose proof (zget_byte p 1 Hb) as H1.
  pose proof (zget_byte p 2 Hb) as H2.
  rewrite !bit7_clear by done. rewrite lor3_groups by done. rewrite lor2_groups by done.
  destruct (varint p) as [n v] eqn:E. revert E. cbn [fst snd] in *.
  unfold varint. cbn [varint_from]. change (0 + 1) with 1. change (1 + 1) with 2.
  change (2 + 1) with 3. unfold is_u8 in *.
  destruct (Z.ltb_spec p.[0] 128); [intros [= <- <-]; f_equal; lia|].
  destruct (Z.ltb_spec p.[1] 128); [intros [= <- <-]; f_equal; Z.div_mod_to_equations; lia|].
  destruct (Z.ltb_spec p.[2] 128); [intros [= <- <-]; f_equal; Z.div_mod_to_equations; lia|].
  intros _. change 0xffffffff with (Z.ones 32). rewrite Z.land_ones by lia.
  change (Z.ones 32) with 4294967295. unfold u32.
  destruct (Z.eqb_spec (v mod 2 ^ 32) v); cbn [negb]; f_equal;
    Z.div_mod_to_equations; lia.
Qed.

Lemma getVarint32_clamps_witness : getVarint32 [144; 128; 128; 128; 0] = (5, 0xffffffff).
Proof. rewrite (getVarint32_clamps [144; 128; 128; 128; 0]); [reflexivity|by_compute]. Defined.

(** [sqlite3VarintLen v] is the number of bytes [sqlite3PutVarint] writes for
    every [v] below [2^63] (every non-negative [i64]); for larger values it
    answers ten although nine bytes are written. *)
Theorem varintlen_exact p v : is_u64 v -> 9 <= zlen p ->
  sqlite3VarintLen v =
    if v <? 2 ^ 63 then snd (sqlite3PutVarint p v)
    else snd (sqlite3PutVarint p v) + 1.
Proof.
  intros Hv Hp. pose proof (varint_enc_len v Hv) as Hl. rewrite putvarint_enc by (done || lia). clear Hl. unfold sqlite3VarintLen, varint_enc.
  unfold is_u64 in Hv. rewrite varintlen_loop by (cbn; lia).
  assert (Hp1 := ngroups_pos 9 v). unfold zlen.
  destruct (Z.ltb_spec v (2 ^ 63)), (Z.ltb_spec v (2 ^ 56)); cbn [snd]; try lia;
    rewrite length_app, length_map, length_groups; cbn [length].
  - lia.
  - assert (ngroups 10 v <= 9)%nat by (apply ngroups_le; cbn; lia).
    assert (8 < ngroups 10 v)%nat by (apply ngroups_ge; cbn; lia). lia.
  - assert (9 < ngroups 10 v)%nat by (apply ngroups_ge; cbn; lia).
    assert (ngroups 10 v <= 10)%nat by (apply ngroups_le; cbn; lia). lia.
Qed.

Lemma varintlen_exact_witness :
  sqlite3VarintLen (2 ^ 63) = snd (sqlite3PutVarint (replicate 9 0) (2 ^ 63)) + 1.
Proof.
  apply (varintlen_exact (replicate 9 0) (2 ^ 63));
    [by_compute|by_compute].
Defined.

(** Big-endian words: [sqlite3Get4byte] reads back what [sqlite3Put4byte]
    wrote, for every [u32]; and writing what was read restores the bytes. *)
Theorem get4_put4 p v : is_u32 v -> 4 <= zlen p -> bytes_ok p ->
  sqlite3Get4byte (sqlite3Put4byte p v) = v /\
  sqlite3Put4byte p (sqlite3Get4byte p) = p.
Proof.
  intros Hv Hp Hb. split; [by apply get4_of_put4|by apply put4_of_get4].
Qed.

Lemma get4_put4_witness :
  sqlite3Get4byte (sqlite3Put4byte [1; 2; 3; 4; 5] 0xdeadbeef) = 0xdeadbeef /\
  sqlite3Put4byte [1; 2; 3; 4; 5] (sqlite3Get4byte [1; 2; 3; 4; 5]) = [1; 2; 3; 4; 5].
Proof.
  apply (get4_put4 [1; 2; 3; 4; 5] 0xdeadbeef);
    [by_compute|by_compute|by_compute].
Defined.
