(* ===== verification/Regions.v ===== *)
(** Regions of memory: where writes to a buffer leave it as it was, and lists of disjoint
    regions.  The components that lay out pages and buffers share these lemmas.

    A region is a start and a size.  [same_outside mods a b] says that [b] differs from [a]
    only inside the regions [mods]; [disjoint_regions] and [regions_fit] carry the counting
    arguments. *)

From S2P Require Import Prelude.

Abbreviation region := (Z * Z)%type.
Definition apart (r s : region) : Prop := r.1 + r.2 <= s.1 \/ s.1 + s.2 <= r.1.
Definition inside (lo hi : Z) (r : region) : Prop := lo <= r.1 /\ r.1 + r.2 <= hi.

Lemma apart_comm r s : apart r s -> apart s r.
Proof. unfold apart. tauto. Qed.

(** ** Reading after writing *)

Section buffers.
Context {A : Type} `{Inhabited A}.
Implicit Types (a b c s : list A) (i j n : Z) (mods : list region).

Lemma zlist_ext a b : zlen a = zlen b -> (forall i, 0 <= i < zlen a -> a.[i] = b.[i]) -> a = b.
Proof.
  unfold zlen. intros Hl He. apply list_eq. intros k. destruct (decide (k < length a)%nat) as [Hk|Hk].
  - specialize (He (Z.of_nat k) ltac:(lia)). unfold zget, zlookup in He. rewrite (proj2 (Z.leb_le _ _)), Nat2Z.id in He by lia.
    destruct (lookup_lt_is_Some_2 a k Hk) as [x Ex]. destruct (lookup_lt_is_Some_2 b k ltac:(lia)) as [y Ey].
    rewrite Ex, Ey in *. cbn in He. by rewrite He.
  - rewrite !lookup_ge_None_2 by lia. done.
Qed.

Lemma zget_taken a n j : 0 <= j < n -> (take (Z.to_nat n) a).[j] = a.[j].
Proof. intros Hj. unfold zget, zlookup. rewrite (proj2 (Z.leb_le _ _)) by lia. by rewrite lookup_take_lt by lia. Qed.

Lemma zget_dropped a i j : 0 <= i -> 0 <= j -> (drop (Z.to_nat i) a).[j] = a.[i + j].
Proof.
  intros. unfold zget, zlookup. rewrite !(proj2 (Z.leb_le _ _)) by lia. rewrite lookup_drop. do 2 f_equal. lia.
Qed.

Lemma zget_slice a i n j : 0 <= i -> 0 <= j < n -> (slice a i n).[j] = a.[i + j].
Proof. intros. unfold slice. rewrite zget_taken, zget_dropped by lia. done. Qed.

Lemma zget_splice_in a i s j : 0 <= i -> i + zlen s <= zlen a -> i <= j < i + zlen s -> (splice a i s).[j] = s.[j - i].
Proof.
  intros Hi Hl Hj. unfold splice. assert (Ht : zlen (take (Z.to_nat i) a) = i) by (apply zlen_take; unfold zlen in *; lia).
  rewrite zget_app_r, Ht by lia. apply zget_app_l. lia.
Qed.

Lemma zget_splice_out a i s j : 0 <= i -> i + zlen s <= zlen a -> ~ (i <= j < i + zlen s) -> (splice a i s).[j] = a.[j].
Proof.
  intros Hi Hl Hj. unfold splice. assert (Ht : zlen (take (Z.to_nat i) a) = i) by (apply zlen_take; unfold zlen in *; lia).
  destruct (Z.ltb_spec j i).
  - rewrite zget_app_l by lia. destruct (Z.leb_spec 0 j); [by rewrite zget_taken by lia|]. unfold zget, zlookup. destruct (Z.leb_spec 0 j); [lia|done].
  - rewrite zget_app_r, Ht, zget_app_r by lia.
    replace (Z.to_nat i + length s)%nat with (Z.to_nat (i + zlen s)) by (unfold zlen; lia). rewrite zget_dropped by (unfold zlen in *; lia). f_equal. lia.
Qed.

Definition same_outside mods a b : Prop :=
  zlen b = zlen a /\ forall j, Forall (fun r => ~ (r.1 <= j < r.1 + r.2)) mods -> b.[j] = a.[j].

Lemma same_refl mods a : same_outside mods a a.
Proof. done. Qed.
Lemma same_trans m1 m2 a b c : same_outside m1 a b -> same_outside m2 b c -> same_outside (m1 ++ m2) a c.
Proof. intros [L1 H1] [L2 H2]. split; [lia|]. intros j [J1 J2]%Forall_app. by rewrite H2, H1. Qed.
Lemma same_weaken m1 m2 a b : same_outside m1 a b ->
  (forall j, Forall (fun r => ~ (r.1 <= j < r.1 + r.2)) m2 -> Forall (fun r => ~ (r.1 <= j < r.1 + r.2)) m1) -> same_outside m2 a b.
Proof. intros [L H1] Hw. split; [done|]. intros j Hj. auto. Qed.
Lemma same_zput a i x : same_outside [(i, 1)] a (a.[i <- x]).
Proof. split; [apply zlen_zput|]. intros j Hj. rewrite Forall_singleton in Hj. cbn [fst snd] in Hj. apply zget_zput_ne. lia. Qed.
Lemma same_splice a i s : 0 <= i -> i + zlen s <= zlen a -> same_outside [(i, zlen s)] a (splice a i s).
Proof. intros. split; [by apply zlen_splice|]. intros j Hj. rewrite Forall_singleton in Hj. cbn [fst snd] in Hj. by apply zget_splice_out. Qed.

Lemma same_byte mods a b j : same_outside mods a b -> Forall (apart (j, 1)) mods -> b.[j] = a.[j].
Proof.
  intros [_ Hs] Hm. apply Hs. eapply Forall_impl; [exact Hm|]. intros r Hr. unfold apart in Hr. cbn [fst snd] in Hr. lia.
Qed.
Lemma same_slice mods a b i n : same_outside mods a b -> 0 <= i -> 0 <= n -> i + n <= zlen a -> Forall (apart (i, n)) mods -> slice b i n = slice a i n.
Proof.
  intros [L Hs] Hi Hn Hl Hm. apply zlist_ext; [rewrite !zlen_slice; lia|]. rewrite zlen_slice by lia. intros j Hj.
  rewrite !zget_slice by lia. apply Hs. eapply Forall_impl; [exact Hm|]. intros r Hr. unfold apart in Hr. cbn [fst snd] in Hr. lia.
Qed.
End buffers.

Lemma bytes_slice (a : list Z) i n : bytes_ok a -> bytes_ok (slice a i n).
Proof. intros. by apply Forall_take, Forall_drop. Qed.
Lemma bytes_zput (a : list Z) i x : bytes_ok a -> is_u8 x -> bytes_ok (a.[i <- x]).
Proof. intros Ha Hx. unfold zput. destruct (0 <=? i); [|done]. by apply Forall_insert. Qed.
Lemma bytes_spliced (a s : list Z) i : bytes_ok a -> bytes_ok s -> bytes_ok (splice a i s).
Proof. intros Ha Hs. unfold splice. repeat apply Forall_app_2; auto using Forall_take, Forall_drop. Qed.
Lemma bytes_zeroed n : bytes_ok (replicate n 0).
Proof. apply Forall_replicate. unfold is_u8. lia. Qed.
#[export] Hint Resolve bytes_slice bytes_zput bytes_spliced bytes_zeroed : sqlite.

(** ** Disjoint regions *)

Fixpoint disjoint_regions (l : list region) : Prop :=
  match l with [] => True | r :: l => Forall (apart r) l /\ disjoint_regions l end.
Definition total (l : list region) : Z := foldr (fun r t => r.2 + t) 0 l.

Lemma total_cons r l : total (r :: l) = r.2 + total l.
Proof. done. Qed.
Lemma total_app l k : total (l ++ k) = total l + total k.
Proof. induction l as [|r l IH]; [done|]. cbn [app]. rewrite !total_cons. lia. Qed.

Lemma disjoint_app l k : disjoint_regions (l ++ k) <-> disjoint_regions l /\ disjoint_regions k /\ Forall (fun r => Forall (apart r) k) l.
Proof.
  induction l as [|r l IH]; cbn [app disjoint_regions]; [naive_solver|].
  rewrite IH, Forall_app, Forall_cons. tauto.
Qed.

#[export] Instance disjoint_perm : Proper (Permutation ==> iff) disjoint_regions.
Proof.
  assert (P : forall l k, l ≡ₚ k -> disjoint_regions l -> disjoint_regions k).
  { induction 1 as [|r l k Hp IH|r s l|l k m _ IH1 _ IH2]; cbn [disjoint_regions]; auto.
    - intros [H1 H2]. split; [by rewrite <- Hp|auto].
    - rewrite !Forall_cons. intros ((H1 & H2) & H3 & H4). split_and!; auto using apart_comm. }
  intros l k Hp. split; apply P; done.
Qed.
#[export] Instance total_perm : Proper (Permutation ==> eq) total.
Proof. intros l k Hp. induction Hp; rewrite ?total_cons in *; lia. Qed.

Definition addresses (l : list region) : list Z := mjoin ((fun r => seqZ r.1 r.2) <$> l).

Lemma addresses_length l : Forall (fun r => 0 <= r.2) l -> Z.of_nat (length (addresses l)) = total l.
Proof.
  induction 1 as [|r l Hr _ IH]; [done|]. change (addresses (r :: l)) with (seqZ r.1 r.2 ++ addresses l).
  rewrite length_app, length_seqZ, total_cons, Nat2Z.inj_add, IH. lia.
Qed.

Lemma elem_addresses l j : j ∈ addresses l <-> exists r, r ∈ l /\ r.1 <= j < r.1 + r.2.
Proof.
  unfold addresses. rewrite list_elem_of_join. split.
  - intros (m & Hj & (r & -> & Hr)%list_elem_of_fmap). exists r. apply elem_of_seqZ in Hj. done.
  - intros (r & Hr & Hj). exists (seqZ r.1 r.2). split; [by apply elem_of_seqZ|]. apply list_elem_of_fmap. by exists r.
Qed.

(** Disjoint regions inside an interval do not add up to more than its length. *)
Lemma regions_fit lo hi l : lo <= hi -> disjoint_regions l -> Forall (fun r => 0 <= r.2) l -> Forall (inside lo hi) l -> total l <= hi - lo.
Proof.
  intros Hlh Hd Hn Hin. rewrite <- addresses_length by done.
  assert (Hs : addresses l ⊆+ seqZ lo (hi - lo)).
  { apply NoDup_submseteq.
    - clear Hin. induction l as [|r l IH]; [constructor|]. destruct Hd as [Hr Hd]. apply Forall_cons in Hn as [_ Hn].
      change (addresses (r :: l)) with (seqZ r.1 r.2 ++ addresses l). apply NoDup_app. split; [apply NoDup_seqZ|]. split; [|by apply IH].
      intros j Hj%elem_of_seqZ (s & Hs & Hj')%elem_addresses. rewrite Forall_forall in Hr. specialize (Hr s Hs). unfold apart in Hr. lia.
    - intros j (r & Hr & Hj)%elem_addresses. rewrite Forall_forall in Hin. destruct (Hin r Hr). apply elem_of_seqZ. lia. }
  apply submseteq_length in Hs. rewrite length_seqZ in Hs. lia.
Qed.
