(* ===== verification/Heap.v ===== *)
(** Linked lists in a heap: blocks indexed by address, 0 is NULL; a list is followed
    through the link field of its blocks. *)

From S2P Require Import Prelude.

(** From [a] the links [N] lead through the addresses [l], then to [q]. *)
Fixpoint chain (N : Z -> Z) (a : Z) (l : list Z) (q : Z) : Prop :=
  match l with [] => a = q | x :: l' => a = x /\ chain N (N x) l' q end.

Lemma chain_ext N N' a l q : (forall x, x ∈ l -> N' x = N x) -> chain N a l q -> chain N' a l q.
Proof.
  revert a. induction l as [|x l IH]; intros a He; [done|]. cbn. intros [-> H]. rewrite He by by left. split; [done|].
  apply IH; [|done]. intros y Hy. apply He. by apply list_elem_of_further.
Qed.
Lemma chain_app N a l1 l2 q : chain N a (l1 ++ l2) q <-> exists b, chain N a l1 b /\ chain N b l2 q.
Proof.
  revert a. induction l1 as [|x l1 IH]; intros a; cbn [app chain].
  - split; [by exists a|by intros (b & <- & H)].
  - rewrite IH. split; [intros (-> & b & H1 & H2); by exists b|intros (b & (-> & H1) & H2); split; [done|by exists b]].
Qed.
Lemma chain_hd N a l q : chain N a l q -> a = hd q l.
Proof. destruct l; cbn; [done|by intros [-> _]]. Qed.

Section free.
Context {A : Type} `{Inhabited A} (next : A -> Z).

(** A block; anything at all where none is allocated. *)
Definition block (h : gmap Z A) (a : Z) : A := default inhabitant (h !! a).
Definition links_of (h : gmap Z A) (a : Z) : Z := next (block h a).

(** [for(p=pFirst; p; p=pNext){ pNext = p->pNext; sqlite3_free(p); }] *)
Fixpoint free_list (fuel : nat) (h : gmap Z A) (a : Z) : gmap Z A :=
  match fuel with
  | O => h
  | S fuel' => if truthy a then free_list fuel' (delete a h) (links_of h a) else h
  end.

Lemma truthy_true z : z <> 0 -> truthy z = true.
Proof. unfold truthy. zbool; done. Qed.
Lemma block_delete h a x : x <> a -> block (delete a h) x = block h x.
Proof. intros Hx. unfold block. by rewrite lookup_delete_ne. Qed.
Lemma block_insert h a c x : block (<[a := c]> h) x = if decide (x = a) then c else block h x.
Proof. unfold block. case_decide as E; [subst; by rewrite lookup_insert_eq|by rewrite lookup_insert_ne]. Qed.

(** Freeing a list removes its blocks and nothing else. *)
Lemma free_list_chain fuel h l a : chain (links_of h) a l 0 -> NoDup l -> 0 ∉ l -> (length l <= fuel)%nat ->
  dom (free_list fuel h a) = dom h ∖ list_to_set l /\
  (forall x, x ∉ l -> free_list fuel h a !! x = h !! x).
Proof.
  revert h l a. induction fuel as [|fuel IH]; intros h l a Hc Hn Hz Hf; destruct l as [|x l]; cbn [length] in *; try lia; cbn in Hc |- *.
  - split; [set_solver|done].
  - subst a. cbn. split; [set_solver|done].
  - destruct Hc as [-> Hc]. rewrite not_elem_of_cons in Hz. destruct Hz as [Hx Hz]. rewrite truthy_true by done. apply NoDup_cons in Hn as [Hxl Hn].
    destruct (IH (delete x h) l (links_of h x)) as [E1 E2]; [|done|done|lia|].
    { eapply chain_ext; [|exact Hc]. intros y Hy. unfold links_of. rewrite block_delete; [done|]. by intros ->. }
    rewrite E1, dom_delete_L. split; [set_solver|]. intros y [Hyx Hyl]%not_elem_of_cons. rewrite E2 by done. by rewrite lookup_delete_ne.
Qed.
End free.

(** A list without repetitions fits into a heap that has all its blocks. *)
Lemma heap_size {A} (h : gmap Z A) (l : list Z) : NoDup l -> (forall a, a ∈ l -> a ∈ dom h) -> (length l <= size h)%nat.
Proof.
  intros Hn Hd. rewrite <- (size_dom (D := gset Z)). rewrite <- (size_list_to_set (C := gset Z) l Hn).
  apply subseteq_size. intros x. rewrite elem_of_list_to_set. apply Hd.
Qed.
