(* ===== verification/Ctype.v ===== *)
(** Character classes and identifier text (global.c, util.c): the tables
    [sqlite3UpperToLower] and [sqlite3CtypeMap], the class tests made from them,
    case-insensitive comparison and hashing, and dequoting. *)

From S2P Require Import Prelude.

(** ** Tables *)

(** The first 256 entries (the ASCII build) of [sqlite3UpperToLower]. *)
Definition sqlite3UpperToLower : list Z :=
  [0; 1; 2; 3; 4; 5; 6; 7; 8; 9; 10; 11; 12; 13; 14; 15; 16; 17;
   18; 19; 20; 21; 22; 23; 24; 25; 26; 27; 28; 29; 30; 31; 32; 33; 34; 35;
   36; 37; 38; 39; 40; 41; 42; 43; 44; 45; 46; 47; 48; 49; 50; 51; 52; 53;
   54; 55; 56; 57; 58; 59; 60; 61; 62; 63; 64; 97; 98; 99; 100; 101; 102; 103;
   104; 105; 106; 107; 108; 109; 110; 111; 112; 113; 114; 115; 116; 117; 118; 119; 120; 121;
   122; 91; 92; 93; 94; 95; 96; 97; 98; 99; 100; 101; 102; 103; 104; 105; 106; 107;
   108; 109; 110; 111; 112; 113; 114; 115; 116; 117; 118; 119; 120; 121; 122; 123; 124; 125;
   126; 127; 128; 129; 130; 131; 132; 133; 134; 135; 136; 137; 138; 139; 140; 141; 142; 143;
   144; 145; 146; 147; 148; 149; 150; 151; 152; 153; 154; 155; 156; 157; 158; 159; 160; 161;
   162; 163; 164; 165; 166; 167; 168; 169; 170; 171; 172; 173; 174; 175; 176; 177; 178; 179;
   180; 181; 182; 183; 184; 185; 186; 187; 188; 189; 190; 191; 192; 193; 194; 195; 196; 197;
   198; 199; 200; 201; 202; 203; 204; 205; 206; 207; 208; 209; 210; 211; 212; 213; 214; 215;
   216; 217; 218; 219; 220; 221; 222; 223; 224; 225; 226; 227; 228; 229; 230; 231; 232; 233;
   234; 235; 236; 237; 238; 239; 240; 241; 242; 243; 244; 245; 246; 247; 248; 249; 250; 251;
   252; 253; 254; 255].

Definition sqlite3CtypeMap : list Z :=
  [0; 0; 0; 0; 0; 0; 0; 0; 0; 1; 1; 1; 1; 1; 0; 0;
   0; 0; 0; 0; 0; 0; 0; 0; 0; 0; 0; 0; 0; 0; 0; 0;
   1; 0; 128; 0; 64; 0; 0; 128; 0; 0; 0; 0; 0; 0; 0; 0;
   12; 12; 12; 12; 12; 12; 12; 12; 12; 12; 0; 0; 0; 0; 0; 0;
   0; 10; 10; 10; 10; 10; 10; 2; 2; 2; 2; 2; 2; 2; 2; 2;
   2; 2; 2; 2; 2; 2; 2; 2; 2; 2; 2; 128; 0; 0; 0; 64;
   128; 42; 42; 42; 42; 42; 42; 34; 34; 34; 34; 34; 34; 34; 34; 34;
   34; 34; 34; 34; 34; 34; 34; 34; 34; 34; 34; 0; 0; 0; 0; 0;
   64; 64; 64; 64; 64; 64; 64; 64; 64; 64; 64; 64; 64; 64; 64; 64;
   64; 64; 64; 64; 64; 64; 64; 64; 64; 64; 64; 64; 64; 64; 64; 64;
   64; 64; 64; 64; 64; 64; 64; 64; 64; 64; 64; 64; 64; 64; 64; 64;
   64; 64; 64; 64; 64; 64; 64; 64; 64; 64; 64; 64; 64; 64; 64; 64;
   64; 64; 64; 64; 64; 64; 64; 64; 64; 64; 64; 64; 64; 64; 64; 64;
   64; 64; 64; 64; 64; 64; 64; 64; 64; 64; 64; 64; 64; 64; 64; 64;
   64; 64; 64; 64; 64; 64; 64; 64; 64; 64; 64; 64; 64; 64; 64; 64;
   64; 64; 64; 64; 64; 64; 64; 64; 64; 64; 64; 64; 64; 64; 64; 64].

(** The argument is the byte after the cast to [unsigned char]. *)
Definition ctype (x mask : Z) : bool := truthy (Z.land (sqlite3CtypeMap.[x]) mask).
Definition sqlite3Isspace (x : Z) : bool := ctype x 1.
Definition sqlite3Isalnum (x : Z) : bool := ctype x 6.
Definition sqlite3Isalpha (x : Z) : bool := ctype x 2.
Definition sqlite3Isdigit (x : Z) : bool := ctype x 4.
Definition sqlite3Isxdigit (x : Z) : bool := ctype x 8.
Definition sqlite3Isquote (x : Z) : bool := ctype x 128.
Definition IdChar (x : Z) : bool := ctype x 70.
Definition sqlite3Toupper (x : Z) : Z :=
  Z.land x (Z.lnot (Z.land (sqlite3CtypeMap.[x]) 32)).
Definition sqlite3Tolower (x : Z) : Z := sqlite3UpperToLower.[x].

(** *** What the tables say *)

Definition all_bytes : list Z := map Z.of_nat (seq 0 256).

Lemma byte_in x : is_u8 x -> x ∈ all_bytes.
Proof.
  intros H. unfold all_bytes. apply list_elem_of_fmap. exists (Z.to_nat x). unfold is_u8 in H.
  split; [lia|]. apply elem_of_seq. lia.
Qed.
(** A property of all byte values is checked by evaluating it 256 times. *)
Lemma bytes_by_compute (P : Z -> bool) : forallb P all_bytes = true ->
  forall x, is_u8 x -> P x = true.
Proof.
  intros H x Hx. rewrite forallb_forall in H. apply H, list_elem_of_In, byte_in, Hx.
Qed.
Ltac by_bytes x Hx :=
  match goal with |- ?a = ?b =>
    pattern x in |- *; match goal with |- ?P x =>
      let H := fresh in
      assert (H : forall y, is_u8 y -> bool_decide (P y) = true)
        by (apply bytes_by_compute; vm_compute; reflexivity);
      exact (bool_decide_eq_true_1 _ (H x Hx)) end end.

Definition is_upper (x : Z) : bool := (65 <=? x) && (x <=? 90).
Definition is_lower (x : Z) : bool := (97 <=? x) && (x <=? 122).

Lemma Isspace_spec x : is_u8 x -> sqlite3Isspace x = (x =? 32) || ((9 <=? x) && (x <=? 13)).
Proof. intros Hx. by_bytes x Hx. Qed.
Lemma Isdigit_spec x : is_u8 x -> sqlite3Isdigit x = (48 <=? x) && (x <=? 57).
Proof. intros Hx. by_bytes x Hx. Qed.
Lemma Isxdigit_spec x : is_u8 x -> sqlite3Isxdigit x =
  ((48 <=? x) && (x <=? 57)) || ((65 <=? x) && (x <=? 70)) || ((97 <=? x) && (x <=? 102)).
Proof. intros Hx. by_bytes x Hx. Qed.
Lemma IdChar_spec x : is_u8 x -> IdChar x =
  (128 <=? x) || is_upper x || is_lower x || ((48 <=? x) && (x <=? 57)) || (x =? 95) || (x =? 36).
Proof. intros Hx. by_bytes x Hx. Qed.
Lemma Isquote_spec x : is_u8 x ->
  sqlite3Isquote x = (x =? 34) || (x =? 39) || (x =? 91) || (x =? 96).
Proof. intros Hx. by_bytes x Hx. Qed.
Lemma Tolower_spec x : is_u8 x -> sqlite3Tolower x = if is_upper x then x + 32 else x.
Proof. intros Hx. by_bytes x Hx. Qed.
Lemma Toupper_spec x : is_u8 x -> sqlite3Toupper x = if is_lower x then x - 32 else x.
Proof. intros Hx. by_bytes x Hx. Qed.
Lemma Tolower_0 x : is_u8 x -> sqlite3Tolower x = 0 -> x = 0.
Proof. intros Hx. rewrite Tolower_spec by done. unfold is_upper. zbool; cbn; lia. Qed.
Lemma Tolower_idem x : is_u8 x -> sqlite3Tolower (sqlite3Tolower x) = sqlite3Tolower x.
Proof. intros Hx. by_bytes x Hx. Qed.
Lemma Tolower_u8 x : is_u8 x -> is_u8 (sqlite3Tolower x).
Proof.
  intros Hx. rewrite Tolower_spec by done. unfold is_upper, is_u8 in *. zbool; cbn; lia.
Qed.
#[export] Hint Resolve Tolower_u8 : sqlite.

(** ** Comparison and hashing *)

(** A NUL-terminated string is a list of bytes followed by the terminator; the
    comparisons read both byte by byte. *)
Fixpoint sqlite3StrICmp (a b : list Z) : Z :=
  match a, b with
  | ca :: a', xb :: b' =>
      if ca =? xb then if ca =? 0 then ca else sqlite3StrICmp a' b'
      else let c := sqlite3Tolower ca - sqlite3Tolower xb in
           if truthy c then c else sqlite3StrICmp a' b'
  | _, _ => 0
  end.
Definition sqlite3_stricmp (zLeft zRight : option (list Z)) : Z :=
  match zLeft, zRight with
  | None, None => 0
  | None, Some _ => -1
  | Some _, None => 1
  | Some a, Some b => sqlite3StrICmp a b
  end.

(** The loop [while( N-- > 0 && ... )] of [sqlite3_strnicmp], then its return. *)
Fixpoint strnicmp_loop (N : nat) (a b : list Z) : Z :=
  match N with
  | O => 0
  | S N' =>
      match a, b with
      | ca :: a', xb :: b' =>
          if negb (ca =? 0) && (sqlite3Tolower ca =? sqlite3Tolower xb)
          then strnicmp_loop N' a' b' else sqlite3Tolower ca - sqlite3Tolower xb
      | _, _ => 0
      end
  end.
Definition sqlite3_strnicmp (zLeft zRight : option (list Z)) (N : Z) : Z :=
  match zLeft, zRight with
  | None, None => 0
  | None, Some _ => -1
  | Some _, None => 1
  | Some a, Some b => strnicmp_loop (Z.to_nat N) a b
  end.

Definition sqlite3StrIHash (z : option (list Z)) : Z :=
  match z with
  | None => 0
  | Some s => foldl (fun h c => u8 (h + sqlite3Tolower c)) 0 (cstr s)
  end.

(** ** Dequoting *)

Fixpoint dequote_loop (fuel : nat) (z : list Z) (quote i j : Z) : list Z :=
  match fuel with
  | O => z
  | S fuel' =>
      if z.[i] =? quote then
        if z.[i + 1] =? quote then dequote_loop fuel' (z.[j <- quote]) quote (i + 2) (j + 1)
        else z.[j <- 0]
      else dequote_loop fuel' (z.[j <- z.[i]]) quote (i + 1) (j + 1)
  end.
Definition sqlite3Dequote (z : list Z) : list Z :=
  let quote := z.[0] in
  if negb (sqlite3Isquote quote) then z else
  let quote := if quote =? 91 then 93 else quote in
  dequote_loop (length z) z quote 1 0.

(** A token is its text; [sqlite3DequoteToken] cuts it to the text between the
    quotes when there is no quote inside. *)
Definition sqlite3DequoteToken (z : list Z) : list Z :=
  if zlen z <? 2 then z else
  if negb (sqlite3Isquote (z.[0])) then z else
  if existsb sqlite3Isquote (slice z 1 (zlen z - 2)) then z else slice z 1 (zlen z - 2).

(** *** Specifications and proofs *)

Definition lower (s : list Z) : list Z := map sqlite3Tolower s.
(** NUL-terminated text. *)
Definition text (s : list Z) : Prop := Forall (fun b => is_u8 b /\ b <> 0) s.
#[export] Instance text_dec s : Decision (text s).
Proof. unfold text. apply _. Defined.

(** The sign of a comparison by first difference. *)
Fixpoint lex (a b : list Z) : Z :=
  match a, b with
  | [], [] => 0
  | [], x :: _ => 0 - x
  | c :: _, [] => c
  | c :: a', x :: b' => if c =? x then lex a' b' else c - x
  end.

Lemma StrICmp_lex s t : text s -> text t ->
  sqlite3StrICmp (s ++ [0]) (t ++ [0]) = lex (lower s) (lower t).
Proof.
  intros Hs. revert t. induction Hs as [|c s [Hc Hc0] Hs IH]; intros t Ht.
  - destruct Ht as [|x t [Hx Hx0] Ht]; [done|]. cbn [app sqlite3StrICmp lower map lex].
    rewrite (proj2 (Z.eqb_neq 0 x)) by done. unfold truthy. change (sqlite3Tolower 0) with 0.
    destruct (Z.eqb_spec (0 - sqlite3Tolower x) 0) as [E|]; [|done].
    exfalso. apply Hx0, Tolower_0; [done|lia].
  - destruct Ht as [|x t [Hx Hx0] Ht]; cbn [app sqlite3StrICmp lower map lex].
    + rewrite (proj2 (Z.eqb_neq c 0)) by done. unfold truthy. change (sqlite3Tolower 0) with 0.
      rewrite Z.sub_0_r. destruct (Z.eqb_spec (sqlite3Tolower c) 0) as [E|]; [|done].
      exfalso. by apply Hc0, Tolower_0.
    + rewrite IH by done. unfold truthy. destruct (Z.eqb_spec c x) as [->|Hne].
      * rewrite (proj2 (Z.eqb_neq x 0)), Z.eqb_refl by done. done.
      * destruct (Z.eqb_spec (sqlite3Tolower c) (sqlite3Tolower x)) as [->|]; zbool; try done; lia.
Qed.

Lemma lex_0 a b : Forall (fun x => x <> 0) a -> Forall (fun x => x <> 0) b ->
  lex a b = 0 <-> a = b.
Proof.
  intros Ha. revert b. induction Ha as [|c a Hc Ha IH]; intros b Hb;
    destruct Hb as [|x b Hx Hb]; cbn.
  - done.
  - split; [lia|done].
  - split; [lia|done].
  - destruct (Z.eqb_spec c x) as [->|]; [|split; [lia|congruence]].
    rewrite IH by done. split; congruence.
Qed.
Lemma lex_antisym a b : lex b a = - lex a b.
Proof.
  revert b. induction a as [|c a IH]; intros [|x b]; cbn; try lia.
  rewrite IH. zbool; lia.
Qed.

Lemma lower_text s : text s -> Forall (fun x => x <> 0) (lower s).
Proof.
  induction 1 as [|c s [Hc Hc0] _ IH]; [constructor|]. constructor; [|done].
  intros E. by apply Hc0, Tolower_0.
Qed.

Lemma cstr_text s r : text s -> cstr (s ++ 0 :: r) = s.
Proof. intros H. apply cstr_app_nul. eapply Forall_impl; [exact H|]. by intros ? [_ ?]. Qed.

Lemma StrIHash_lower s t h : lower s = lower t ->
  foldl (fun h c => u8 (h + sqlite3Tolower c)) h s =
  foldl (fun h c => u8 (h + sqlite3Tolower c)) h t.
Proof.
  revert t h. induction s as [|c s IH]; intros [|x t] h; try done.
  cbn [lower map foldl]. intros E. injection E as E1 E2. rewrite E1. by apply IH.
Qed.

(** Identifier comparison: [sqlite3StrICmp] returns 0 exactly on strings that are
    equal up to ASCII case, orders any two strings consistently in both directions,
    and strings it identifies have the same [sqlite3StrIHash]. *)
Theorem StrICmp_hash (s t : list Z) (Hs : text s) (Ht : text t) :
  (sqlite3StrICmp (s ++ [0]) (t ++ [0]) = 0 <-> lower s = lower t) /\
  sqlite3StrICmp (t ++ [0]) (s ++ [0]) = - sqlite3StrICmp (s ++ [0]) (t ++ [0]) /\
  (sqlite3StrICmp (s ++ [0]) (t ++ [0]) = 0 ->
   sqlite3StrIHash (Some (s ++ [0])) = sqlite3StrIHash (Some (t ++ [0]))).
Proof.
  rewrite !StrICmp_lex by done. rewrite lex_0 by (by apply lower_text).
  split; [done|]. split; [apply lex_antisym|]. intros E. unfold sqlite3StrIHash.
  rewrite !cstr_text by done. by apply StrIHash_lower.
Qed.
Lemma StrICmp_hash_witness :
  sqlite3StrICmp ([84; 49] ++ [0]) ([116; 49] ++ [0]) = 0.
Proof.
  refine (proj2 (proj1 (StrICmp_hash [84; 49] [116; 49] _ _)) _);
    [by_compute|by_compute|reflexivity].
Defined.

(** Text with its quotes doubled. *)
Definition escape (quote : Z) (s : list Z) : list Z :=
  flat_map (fun b => if b =? quote then [quote; quote] else [b]) s.

Lemma zget_at (l p : list Z) x i : i = zlen l -> (l ++ x :: p).[i] = x.
Proof. intros ->. apply zget_app_len. Qed.
Lemma zput_at (l p : list Z) x y i : i = zlen l -> (l ++ x :: p).[i <- y] = l ++ y :: p.
Proof. intros ->. rewrite zput_app_r, Z.sub_diag by lia. done. Qed.

(** The text written so far is [out], [g] the gap the dequoted text has left. *)
Lemma dequote_loop_spec fuel quote s out g tl :
  Forall (fun b => b <> 0) s -> Forall (fun b => b <> 0) out ->
  (length s < fuel)%nat -> hd 0 tl <> quote -> tl <> [] -> g <> [] ->
  cstr (dequote_loop fuel (out ++ g ++ escape quote s ++ quote :: tl) quote
          (zlen out + zlen g) (zlen out)) = out ++ s.
Proof.
  intros Hs. revert fuel out g. induction Hs as [|b s Hb Hs IH];
    intros fuel out g Ho Hf Ht Hn Hg; (destruct fuel as [|fuel]; [cbn in Hf; lia|]);
    (destruct g as [|m g]; [done|]); cbn [dequote_loop escape flat_map].
  - assert (E1 : (out ++ (m :: g) ++ [] ++ quote :: tl).[zlen out + zlen (m :: g)] = quote).
    { rewrite app_assoc. apply zget_at. by autorewrite with zlen. }
    assert (E2 : (out ++ (m :: g) ++ [] ++ quote :: tl).[zlen out + zlen (m :: g) + 1] = hd 0 tl).
    { destruct tl as [|t tl]; [done|]. rewrite app_assoc, zget_app_r; autorewrite with zlen; [|lia].
      by replace (_ - _) with 1 by lia. }
    rewrite E1, E2, Z.eqb_refl, (proj2 (Z.eqb_neq _ _)) by done. cbn [app].
    rewrite zput_at, app_nil_r by done. by apply cstr_app_nul.
  - fold (escape quote s). destruct (Z.eqb_spec b quote) as [->|Hne]; cbn [app].
    + assert (E1 : (out ++ m :: g ++ quote :: quote :: escape quote s ++ quote :: tl).[zlen out + zlen (m :: g)] = quote).
      { rewrite app_comm_cons, app_assoc. apply zget_at. by autorewrite with zlen. }
      assert (E2 : (out ++ m :: g ++ quote :: quote :: escape quote s ++ quote :: tl).[zlen out + zlen (m :: g) + 1] = quote).
      { rewrite app_comm_cons, app_assoc, zget_app_r; autorewrite with zlen; [|lia].
        by replace (_ - _) with 1 by lia. }
      rewrite E1, E2, Z.eqb_refl, zput_at by done.
      specialize (IH fuel (out ++ [quote]) (g ++ [quote; quote])).
      rewrite <- !app_assoc in IH. cbn [app] in IH.
      rewrite <- IH; [|by apply Forall_app; auto|cbn in Hf; lia|done|done|by destruct g].
      f_equal. f_equal; autorewrite with zlen; lia.
    + assert (E1 : (out ++ m :: g ++ b :: escape quote s ++ quote :: tl).[zlen out + zlen (m :: g)] = b).
      { rewrite app_comm_cons, app_assoc. apply zget_at. by autorewrite with zlen. }
      rewrite E1, (proj2 (Z.eqb_neq _ _)), zput_at by done.
      specialize (IH fuel (out ++ [b]) (g ++ [b])).
      rewrite <- !app_assoc in IH. cbn [app] in IH.
      rewrite <- IH; [|by apply Forall_app; auto|cbn in Hf; lia|done|done|by destruct g].
      f_equal. f_equal; autorewrite with zlen; lia.
Qed.

(** The closing quote of an opening one. *)
Definition closing (q : Z) : Z := if q =? 91 then 93 else q.

Lemma length_escape q s : (length s <= length (escape q s))%nat.
Proof.
  induction s as [|b s IH]; [cbn; lia|]. cbn [escape flat_map]. fold (escape q s).
  rewrite length_app, length_cons. destruct (b =? q); cbn [length]; lia.
Qed.

(** Dequoting inverts quoting: for each of the four quote characters, the text
    [s] written between quotes with every closing quote doubled is turned, in place,
    into [s]. *)
Theorem dequote_roundtrip (q : Z) (s tl : list Z) (Hq : sqlite3Isquote q = true)
  (Hs : Forall (fun b => b <> 0) s) (Htl : hd 0 tl <> closing q) (Hne : tl <> []) :
  cstr (sqlite3Dequote (q :: escape (closing q) s ++ closing q :: tl)) = s.
Proof.
  unfold sqlite3Dequote. rewrite zget_cons_0, Hq. cbn [negb]. fold (closing q).
  apply (dequote_loop_spec _ (closing q) s [] [q] tl); [done|constructor| |done|done|done].
  pose proof (length_escape (closing q) s). rewrite length_cons, length_app. lia.
Qed.
Lemma dequote_roundtrip_witness :
  cstr (sqlite3Dequote (39 :: escape (closing 39) [97; 39; 98] ++ closing 39 :: [0])) = [97; 39; 98].
Proof.
  apply (dequote_roundtrip 39 [97; 39; 98] [0]);
    [reflexivity|by_compute|vm_compute; discriminate|discriminate].
Defined.
