(* ===== verification/HashTable.v ===== *)
(** Hash tables (hash.c): the tables that map names to schema objects, functions,
    collations and modules.

    All elements are on one doubly linked list; the elements of a bucket are neighbours
    in it.  Elements live in a heap indexed by address, 0 is NULL; a key is a
    NUL-terminated string that its owner keeps unchanged while it is in a table, and data
    are addresses too.  Small tables have no buckets.  The theorems show that any
    sequence of calls implements a finite map on case-folded keys, whatever allocations
    fail and whatever sizes the bucket arrays get. *)

From S2P Require Import Prelude Heap Ctype.

Record HashElem := mkElem { e_next : Z; e_prev : Z; e_data : Z; e_pKey : list Z; e_h : Z }.
(** [static HashElem nullElement], which stands at address 0. *)
Definition nullElement : HashElem := mkElem 0 0 0 [] 0.
#[global] Instance HashElem_inhabited : Inhabited HashElem := populate nullElement.

(** [struct _ht] *)
Record ht_entry := mkHt { ht_count : Z; ht_chain : Z }.
#[global] Instance ht_entry_inhabited : Inhabited ht_entry := populate (mkHt 0 0).

(** The table, with the elements that are allocated for it. *)
Record Hash := mkHash { htsize : Z; count : Z; first : Z; ht : option (list ht_entry); mem : gmap Z HashElem }.

Abbreviation elem := (block (A := HashElem)).
Definition set_next (m : gmap Z HashElem) (a v : Z) : gmap Z HashElem :=
  alter (fun e => mkElem v (e_prev e) (e_data e) (e_pKey e) (e_h e)) a m.
Definition set_prev (m : gmap Z HashElem) (a v : Z) : gmap Z HashElem :=
  alter (fun e => mkElem (e_next e) v (e_data e) (e_pKey e) (e_h e)) a m.

Definition sqlite3HashInit : Hash := mkHash 0 0 0 None ∅.

(** The [while] loop over the elements is [free_list]. *)
Definition sqlite3HashClear (pH : Hash) : Hash :=
  mkHash 0 0 0 None (free_list e_next (size (mem pH)) (mem pH) (first pH)).

Definition strHash (z : list Z) : Z :=
  foldl (fun h c => u32 (u32 (h + Z.land 0xdf c) * 0x9e3779b1)) 0 (cstr z).

(** [pEntry] is the index of a bucket, or nothing. *)
Definition insertElement (pH : Hash) (pEntry : option Z) (pNew : Z) : Hash :=
  let '(pHead, ht') :=
    match pEntry, ht pH with
    | Some i, Some l =>
        let e := l.[i] in
        (if truthy (ht_count e) then ht_chain e else 0, Some l.[i <- mkHt (u32 (ht_count e + 1)) pNew])
    | _, l => (0, l)
    end in
  let m := mem pH in
  if truthy pHead then
    let m := set_next m pNew pHead in
    let m := set_prev m pNew (e_prev (elem m pHead)) in
    let p := e_prev (elem m pHead) in
    let '(m, first') := if truthy p then (set_next m p pNew, first pH) else (m, pNew) in
    mkHash (htsize pH) (count pH) first' ht' (set_prev m pHead pNew)
  else
    let m := set_next m pNew (first pH) in
    let m := if truthy (first pH) then set_prev m (first pH) pNew else m in
    mkHash (htsize pH) (count pH) pNew ht' (set_prev m pNew 0).

Definition SQLITE_MALLOC_SOFT_LIMIT : Z := 1024.
Definition sizeof_ht : Z := 8.

Definition bucket (pH : Hash) (h : Z) : option Z :=
  match ht pH with Some _ => Some (h mod htsize pH) | None => None end.

(** [for(elem=pH->first, pH->first=0; elem; elem = next_elem)] *)
Fixpoint rehash_loop (fuel : nat) (pH : Hash) (a : Z) : Hash :=
  match fuel with
  | O => pH
  | S fuel' =>
      if truthy a then
        let next_elem := e_next (elem (mem pH) a) in
        rehash_loop fuel' (insertElement pH (bucket pH (e_h (elem (mem pH) a))) a) next_elem
      else pH
  end.
(** [usable] is the allocator's answer: nothing if it fails, else [sqlite3MallocSize] of
    the new block. *)
Definition rehash (pH : Hash) (new_size : Z) (usable : Z -> option Z) : bool * Hash :=
  let new_size := if SQLITE_MALLOC_SOFT_LIMIT <? u32 (new_size * sizeof_ht)
                  then SQLITE_MALLOC_SOFT_LIMIT / sizeof_ht else new_size in
  if new_size =? htsize pH then (false, pH) else
  match usable (u32 (new_size * sizeof_ht)) with
  | None => (false, pH)
  | Some n =>
      let new_size := n / sizeof_ht in
      (true, rehash_loop (size (mem pH))
        (mkHash new_size (count pH) 0 (Some (replicate (Z.to_nat new_size) (mkHt 0 0))) (mem pH)) (first pH))
  end.

(** [while( count )] *)
Fixpoint find_loop (n : nat) (m : gmap Z HashElem) (a h : Z) (pKey : list Z) : Z :=
  match n with
  | O => 0
  | S n' =>
      if (h =? e_h (elem m a)) && (sqlite3StrICmp (e_pKey (elem m a)) pKey =? 0) then a
      else find_loop n' m (e_next (elem m a)) h pKey
  end.
Definition findElementWithHash (pH : Hash) (pKey : list Z) : Z * Z :=
  let h := strHash pKey in
  let '(a, n) := match ht pH with
                 | Some l => let e := l.[h mod htsize pH] in (ht_chain e, ht_count e)
                 | None => (first pH, count pH)
                 end in
  (find_loop (Z.to_nat n) (mem pH) a h pKey, h).

Definition removeElement (pH : Hash) (a : Z) : Hash :=
  let e := elem (mem pH) a in
  let '(m, first') := if truthy (e_prev e) then (set_next (mem pH) (e_prev e) (e_next e), first pH)
                      else (mem pH, e_next e) in
  let m := if truthy (e_next e) then set_prev m (e_next e) (e_prev e) else m in
  let ht' :=
    match ht pH with
    | Some l =>
        let i := e_h e mod htsize pH in
        let b := l.[i] in
        Some l.[i <- mkHt (u32 (ht_count b - 1)) (if ht_chain b =? a then e_next e else ht_chain b)]
    | None => None
    end in
  let pH := mkHash (htsize pH) (u32 (count pH - 1)) first' ht' (delete a m) in
  if count pH =? 0 then sqlite3HashClear pH else pH.

Definition sqlite3HashFind (pH : Hash) (pKey : list Z) : Z :=
  e_data (elem (mem pH) (fst (findElementWithHash pH pKey))).

(** [pNew] is the address of the new element, or nothing when its allocation fails. *)
Definition sqlite3HashInsert (pH : Hash) (pKey : list Z) (data : Z) (pNew : option Z)
  (usable : Z -> option Z) : Z * Hash :=
  let '(a, h) := findElementWithHash pH pKey in
  let old_data := e_data (elem (mem pH) a) in
  if truthy old_data then
    (old_data,
     if data =? 0 then removeElement pH a
     else mkHash (htsize pH) (count pH) (first pH) (ht pH)
            (alter (fun e => mkElem (e_next e) (e_prev e) data pKey (e_h e)) a (mem pH)))
  else if data =? 0 then (0, pH) else
  match pNew with
  | None => (data, pH)
  | Some new_elem =>
      let pH := mkHash (htsize pH) (u32 (count pH + 1)) (first pH) (ht pH)
                  (<[new_elem := mkElem 0 0 data pKey h]> (mem pH)) in
      let pH := if (5 <=? count pH) && (u32 (2 * htsize pH) <? count pH)
                then snd (rehash pH (u32 (count pH * 3)) usable) else pH in
      (0, insertElement pH (bucket pH (e_h (elem (mem pH) new_elem))) new_elem)
  end.

(** [for(p=sqliteHashFirst(&h); p; p=sqliteHashNext(p))], reading key and data. *)
Fixpoint walk (fuel : nat) (m : gmap Z HashElem) (a : Z) : list (list Z * Z) :=
  match fuel with
  | O => []
  | S fuel' => if truthy a then let e := elem m a in (e_pKey e, e_data e) :: walk fuel' m (e_next e) else []
  end.
Definition entries (pH : Hash) : list (list Z * Z) := walk (size (mem pH)) (mem pH) (first pH).

(** ** Links *)

Abbreviation nxt := (links_of e_next).
Definition prv (m : gmap Z HashElem) (x : Z) : Z := e_prev (elem m x).
(** Everything of an element but its links. *)
Definition load (m : gmap Z HashElem) (x : Z) : Z * list Z * Z :=
  (e_data (elem m x), e_pKey (elem m x), e_h (elem m x)).

Section updates.
Implicit Types m : gmap Z HashElem.
Lemma nxt_set_next m a v x : a ∈ dom m -> nxt (set_next m a v) x = if decide (x = a) then v else nxt m x.
Proof.
  intros [e E]%elem_of_dom. unfold links_of, set_next, block. case_decide as Ex; [subst; by rewrite lookup_alter_eq, E|by rewrite lookup_alter_ne].
Qed.
Lemma prv_set_prev m a v x : a ∈ dom m -> prv (set_prev m a v) x = if decide (x = a) then v else prv m x.
Proof.
  intros [e E]%elem_of_dom. unfold prv, set_prev, block. case_decide as Ex; [subst; by rewrite lookup_alter_eq, E|by rewrite lookup_alter_ne].
Qed.
Lemma nxt_set_prev m a v x : nxt (set_prev m a v) x = nxt m x.
Proof.
  unfold links_of, set_prev, block. destruct (decide (x = a)) as [->|Hx]; [rewrite lookup_alter_eq; by destruct (m !! a)|by rewrite lookup_alter_ne].
Qed.
Lemma prv_set_next m a v x : prv (set_next m a v) x = prv m x.
Proof.
  unfold prv, set_next, block. destruct (decide (x = a)) as [->|Hx]; [rewrite lookup_alter_eq; by destruct (m !! a)|by rewrite lookup_alter_ne].
Qed.
Lemma load_set_next m a v x : load (set_next m a v) x = load m x.
Proof.
  unfold load, set_next, block. destruct (decide (x = a)) as [->|Hx]; [rewrite lookup_alter_eq; by destruct (m !! a)|by rewrite lookup_alter_ne].
Qed.
Lemma load_set_prev m a v x : load (set_prev m a v) x = load m x.
Proof.
  unfold load, set_prev, block. destruct (decide (x = a)) as [->|Hx]; [rewrite lookup_alter_eq; by destruct (m !! a)|by rewrite lookup_alter_ne].
Qed.
Lemma dom_set_next m a v : dom (set_next m a v) = dom m.
Proof. apply dom_alter_L. Qed.
Lemma dom_set_prev m a v : dom (set_prev m a v) = dom m.
Proof. apply dom_alter_L. Qed.
End updates.

(** A segment of a doubly linked list: [p] comes before it and [q] after it. *)
Fixpoint dl (N P : Z -> Z) (p : Z) (l : list Z) (q : Z) : Prop :=
  match l with
  | [] => True
  | a :: l' => P a = p /\ N a = hd q l' /\ dl N P a l' q
  end.

Lemma hd_app {A} (d : A) l l' : hd d (l ++ l') = hd (hd d l') l.
Proof. by destruct l. Qed.
Lemma hd_default {A} (d : A) l : hd d l = default d (head l).
Proof. by destruct l. Qed.
Lemma last_cons_default {A} (p x : A) l : default p (last (x :: l)) = default x (last l).
Proof. destruct l; [done|]. rewrite last_cons_cons. by destruct (last (a :: l)) eqn:E; [|apply last_None in E]. Qed.

Lemma dl_ext N P N' P' p l q :
  (forall x, x ∈ l -> N' x = N x /\ P' x = P x) -> dl N P p l q -> dl N' P' p l q.
Proof.
  revert p. induction l as [|a l IH]; intros p He; [done|]. cbn. intros (H1 & H2 & H3).
  destruct (He a (list_elem_of_here _ _)) as [-> ->]. split_and!; try done. apply IH; [|done].
  intros x Hx. apply He. by apply list_elem_of_further.
Qed.
(** One element more: only it and its neighbours change. *)
Lemma dl_insert N P N' P' p l1 a l2 q :
  dl N P p (l1 ++ l2) q -> NoDup (l1 ++ a :: l2) ->
  (forall x, x ∈ l1 ++ a :: l2 ->
     N' x = (if decide (x = a) then hd q l2 else if decide (last l1 = Some x) then a else N x) /\
     P' x = (if decide (x = a) then default p (last l1) else if decide (head l2 = Some x) then a else P x)) ->
  dl N' P' p (l1 ++ a :: l2) q.
Proof.
  intros Hd Hn HN. revert p Hd HN. induction l1 as [|b l1 IH]; intros p Hd HN; cbn [app] in *.
  - apply NoDup_cons in Hn as [Ha Hn]. cbn. destruct (HN a (list_elem_of_here _ _)) as [-> ->]. rewrite !decide_True by done.
    split_and!; [done|done|]. destruct l2 as [|c l2]; [done|]. cbn in Hd |- *. destruct Hd as (H1 & H2 & H3). apply NoDup_cons in Hn as [Hc Hn].
    rewrite not_elem_of_cons in Ha. destruct (HN c) as [-> ->]; [rewrite !elem_of_cons; tauto|].
    cbn. rewrite decide_False, (decide_True (P := Some c = Some c)), decide_False by naive_solver. split_and!; [done|done|].
    eapply dl_ext; [|exact H3]. intros x Hx. destruct (HN x) as [-> ->]; [rewrite !elem_of_cons; tauto|]. cbn.
    rewrite !decide_False; [done|naive_solver..].
  - cbn in Hd. destruct Hd as (H1 & H2 & H3). apply NoDup_cons in Hn as [Hb Hn].
    assert (b <> a) by (intros ->; apply Hb; rewrite elem_of_app, elem_of_cons; tauto).
    assert (head l2 <> Some b). { intros E. apply Hb. destruct l2; [done|]. injection E as ->. rewrite elem_of_app, !elem_of_cons; tauto. }
    cbn. destruct (HN b (list_elem_of_here _ _)) as [-> ->]. rewrite decide_False, decide_False, decide_False by done. split_and!; [done| |].
    + destruct l1 as [|c l1]; cbn [last app hd]; [by rewrite decide_True|].
      rewrite decide_False; [done|]. intros E. apply Hb, elem_of_app. left. by apply last_Some_elem_of.
    + apply IH; [done|done|]. intros x Hx. destruct (HN x) as [-> ->]; [by apply list_elem_of_further|].
      rewrite last_cons_default. split; [|done]. destruct l1 as [|c l1]; [|done]. cbn. case_decide; [done|].
      rewrite decide_False; [done|]. intros [= ->]. done.
Qed.
(** One element less. *)
Lemma dl_delete N P N' P' p l1 a l2 q :
  dl N P p (l1 ++ a :: l2) q -> NoDup (l1 ++ a :: l2) ->
  (forall x, x ∈ l1 ++ l2 ->
     N' x = (if decide (last l1 = Some x) then hd q l2 else N x) /\
     P' x = (if decide (head l2 = Some x) then default p (last l1) else P x)) ->
  dl N' P' p (l1 ++ l2) q.
Proof.
  intros Hd Hn HN. revert p Hd HN. induction l1 as [|b l1 IH]; intros p Hd HN; cbn [app] in *.
  - cbn in Hd. destruct Hd as (_ & _ & Hd). apply NoDup_cons in Hn as [Ha Hn]. destruct l2 as [|c l2]; [done|].
    cbn in Hd |- *. destruct Hd as (H1 & H2 & H3). apply NoDup_cons in Hn as [Hc Hn].
    destruct (HN c (list_elem_of_here _ _)) as [-> ->]. cbn. rewrite decide_True by done. split_and!; [done|done|].
    eapply dl_ext; [|exact H3]. intros x Hx. destruct (HN x) as [-> ->]; [by apply list_elem_of_further|]. cbn.
    rewrite !decide_False; [done|naive_solver..].
  - cbn in Hd. destruct Hd as (H1 & H2 & H3). apply NoDup_cons in Hn as [Hb Hn].
    assert (head l2 <> Some b). { intros E. apply Hb. destruct l2; [done|]. injection E as ->. rewrite elem_of_app, !elem_of_cons; tauto. }
    cbn. destruct (HN b (list_elem_of_here _ _)) as [-> ->]. rewrite (decide_False (P := head l2 = _)) by done. split_and!; [done| |].
    + destruct l1 as [|c l1]; cbn [last app hd]; [by rewrite decide_True|].
      rewrite decide_False; [done|]. intros E. apply Hb, elem_of_app. left. by apply last_Some_elem_of.
    + apply IH; [done|done|]. intros x Hx. destruct (HN x) as [-> ->]; [by apply list_elem_of_further|].
      rewrite last_cons_default. split; [|done]. destruct l1 as [|c l1]; [|done]. cbn.
      rewrite (decide_False (P := Some b = Some x)); [done|]. intros [= ->]. apply Hb. by apply list_elem_of_further.
Qed.

Lemma dl_at N P p l1 a l2 q : dl N P p (l1 ++ a :: l2) q -> P a = default p (last l1) /\ N a = hd q l2.
Proof.
  revert p. induction l1 as [|b l1 IH]; intros p; cbn [app dl]; [tauto|]. intros (_ & _ & H).
  rewrite last_cons_default. by apply IH.
Qed.

(** The list of a table: the addresses of its elements in order. *)
Record links (t : Hash) (order : list Z) : Prop := {
  l_nodup : NoDup order;
  l_zero : 0 ∉ order;
  l_first : first t = hd 0 order;
  l_dl : dl (nxt (mem t)) (prv (mem t)) 0 order 0;
  l_dom : forall a, a ∈ order -> a ∈ dom (mem t)
}.

(** [insertElement] finds a head and updates the buckets, then links. *)
Definition entry_head (t : Hash) (e : option Z) (a : Z) : Z * option (list ht_entry) :=
  match e, ht t with
  | Some i, Some l => (if truthy (ht_count l.[i]) then ht_chain l.[i] else 0, Some l.[i <- mkHt (u32 (ht_count l.[i] + 1)) a])
  | _, l => (0, l)
  end.
Definition link (t : Hash) (pHead : Z) (ht' : option (list ht_entry)) (a : Z) : Hash :=
  let m := mem t in
  if truthy pHead then
    let m := set_next m a pHead in
    let m := set_prev m a (e_prev (elem m pHead)) in
    let p := e_prev (elem m pHead) in
    let '(m, first') := if truthy p then (set_next m p a, first t) else (m, a) in
    mkHash (htsize t) (count t) first' ht' (set_prev m pHead a)
  else
    let m := set_next m a (first t) in
    let m := if truthy (first t) then set_prev m (first t) a else m in
    mkHash (htsize t) (count t) a ht' (set_prev m a 0).
Lemma insertElement_link t e a :
  insertElement t e a = link t (fst (entry_head t e a)) (snd (entry_head t e a)) a.
Proof.
  unfold insertElement, entry_head, link. destruct e as [i|]; [destruct (ht t) as [l|]|]; reflexivity.
Qed.

(** What [insertElement] and [removeElement] leave alone. *)
Record frame (t t' : Hash) (l : list Z) : Prop := {
  f_load : forall x, x ∈ dom (mem t') -> load (mem t') x = load (mem t) x;
  f_nxt : forall x, x ∉ l -> nxt (mem t') x = nxt (mem t) x
}.

Lemma last_in {A} (l : list A) x : last l = Some x -> x ∈ l.
Proof. apply last_Some_elem_of. Qed.
Lemma nodup_mid {A} (l1 l2 : list A) a : a ∉ l1 ++ l2 -> NoDup (l1 ++ l2) -> NoDup (l1 ++ a :: l2).
Proof. intros Ha Hn. rewrite <- Permutation_middle. by constructor. Qed.
Lemma mid_in {A} (l1 l2 : list A) a : a ∈ l1 ++ a :: l2.
Proof. rewrite elem_of_app, elem_of_cons. tauto. Qed.

Ltac links_dom := repeat (rewrite dom_set_next || rewrite dom_set_prev).
(** Links of a heap after updates. *)
Ltac links_upd := repeat (first
  [ rewrite nxt_set_prev | rewrite prv_set_next
  | rewrite nxt_set_next by (links_dom; done)
  | rewrite prv_set_prev by (links_dom; done)
  | rewrite load_set_next | rewrite load_set_prev ]).

Lemma link_mem_before t ht' b a : b <> 0 -> b <> a -> a ∈ dom (mem t) ->
  let p := prv (mem t) b in
  link t b ht' a = mkHash (htsize t) (count t) (if truthy p then first t else a) ht'
    (let m := set_prev (set_next (mem t) a b) a p in set_prev (if truthy p then set_next m p a else m) b a).
Proof.
  intros Hb Hab Ha. cbv zeta. unfold link. rewrite truthy_true by done. cbv zeta.
  change (e_prev (elem ?m b)) with (prv m b). links_upd. rewrite decide_False by done. links_upd.
  by destruct (truthy (prv (mem t) b)).
Qed.

Lemma link_before t ht' l1 b l2 a :
  links t (l1 ++ b :: l2) -> a ∉ l1 ++ b :: l2 -> a <> 0 -> a ∈ dom (mem t) ->
  links (link t b ht' a) (l1 ++ a :: b :: l2) /\ frame t (link t b ht' a) (a :: l1 ++ b :: l2) /\
  dom (mem (link t b ht' a)) = dom (mem t).
Proof.
  intros [Hn Hz Hf Hd Hm] Ha Ha0 Ham. pose proof (mid_in l1 l2 b) as Hbi.
  assert (Hb : b <> 0) by (by intros ->).
  assert (Hab : b <> a) by (by intros ->). pose proof (Hm _ Hbi) as Hbm.
  pose proof (dl_at _ _ _ _ _ _ _ Hd) as [Ep En].
  rewrite link_mem_before by done. rewrite Ep. set (p := default 0 (last l1)) in *. cbv zeta.
  assert (Hp : truthy p = true -> last l1 = Some p /\ p <> a /\ p ∈ dom (mem t)).
  { unfold p. destruct (last l1) as [x|] eqn:E; [|done]. cbn. intros _.
    assert (x ∈ l1 ++ b :: l2) by (apply elem_of_app; left; by apply last_in).
    split; [done|]. split; [by intros ->|by apply Hm]. }
  assert (Hp' : truthy p = false -> l1 = []).
  { unfold p. destruct (last l1) as [x|] eqn:E; [|by apply last_None in E]. cbn. unfold truthy. zbool; [|done]. subst.
    intros _. exfalso. apply Hz, elem_of_app. left. by apply last_in. }
  split_and!; [constructor; cbn [first mem] | constructor; cbn [mem] | cbn [mem]].
  - by apply nodup_mid.
  - rewrite elem_of_app, elem_of_cons. intros [H|[H|H]]; [|congruence|]; apply Hz; rewrite elem_of_app; tauto.
  - destruct (truthy p) eqn:Et; [|by rewrite (Hp' eq_refl)]. destruct (Hp eq_refl) as (El & _). rewrite Hf.
    destruct l1; done.
  - eapply dl_insert; [exact Hd|by apply nodup_mid|]. intros x Hx. cbn [hd head]. destruct (truthy p) eqn:Et.
    + destruct (Hp eq_refl) as (El & Hpa & Hpm). fold p. rewrite El. links_upd. split.
      * destruct (decide (x = p)) as [->|Hxp]; [by rewrite decide_False, decide_True|].
        destruct (decide (x = a)); [done|]. rewrite decide_False; [done|congruence].
      * destruct (decide (x = b)) as [->|]; [by rewrite decide_False, decide_True|].
        destruct (decide (x = a)); [done|]. by rewrite decide_False by congruence.
    + fold p. pose proof (Hp' eq_refl) as El. clearbody p. rewrite El. cbn [last]. links_upd. split; [by destruct (decide (x = a))|].
      destruct (decide (x = b)) as [->|]; [by rewrite decide_False, decide_True|].
      destruct (decide (x = a)); [done|]. by rewrite decide_False by congruence.
  - intros x. destruct (truthy p) eqn:Et; links_dom;
      rewrite elem_of_app, elem_of_cons; intros [H|[->|H]]; try done; apply Hm; rewrite elem_of_app; tauto.
  - intros x _. destruct (truthy p) eqn:Et; by links_upd.
  - intros x Hx. rewrite not_elem_of_cons in Hx. destruct Hx as [Hxa Hx]. destruct (truthy p) eqn:Et.
    + destruct (Hp eq_refl) as (El & Hpa & Hpm). links_upd. rewrite decide_False, decide_False; [done|done|].
      intros ->. apply Hx, elem_of_app. left. by apply last_in.
    + links_upd. by rewrite decide_False.
  - destruct (truthy p); by (links_dom).
Qed.

Lemma link_front t ht' order a :
  links t order -> a ∉ order -> a <> 0 -> a ∈ dom (mem t) ->
  links (link t 0 ht' a) (a :: order) /\ frame t (link t 0 ht' a) (a :: order) /\
  dom (mem (link t 0 ht' a)) = dom (mem t).
Proof.
  intros [Hn Hz Hf Hd Hm] Ha Ha0 Ham. unfold link. cbn [truthy Z.eqb negb].
  change (truthy 0) with false. cbv iota zeta. rewrite Hf.
  assert (Hp : truthy (hd 0 order) = true -> head order = Some (hd 0 order) /\ hd 0 order ∈ dom (mem t)).
  { destruct order as [|x l]; [done|]. intros _. split; [done|]. apply Hm. by left. }
  assert (Hp' : truthy (hd 0 order) = false -> order = []).
  { destruct order as [|x l]; [done|]. unfold truthy. cbn. zbool; [|done]. subst. intros _. exfalso. apply Hz. by left. }
  split_and!; [constructor; cbn [first mem] | constructor; cbn [mem] | cbn [mem]].
  - by constructor.
  - rewrite elem_of_cons. intros [H|H]; [congruence|done].
  - done.
  - apply (dl_insert (nxt (mem t)) (prv (mem t)) _ _ 0 [] a order 0); [exact Hd|by constructor|]. intros x Hx.
    cbn [last default app]. destruct (truthy (hd 0 order)) eqn:Et.
    + destruct (Hp eq_refl) as [Eh Hh]. rewrite Eh. links_upd. split; [by destruct (decide (x = a))|].
      destruct (decide (x = a)) as [->|]; [done|]. destruct (decide (x = hd 0 order)) as [->|]; [by rewrite decide_True|].
      by rewrite decide_False by congruence.
    + rewrite (Hp' eq_refl) in *. cbn [hd head]. links_upd. by destruct (decide (x = a)).
  - intros x. destruct (truthy (hd 0 order)) eqn:Et; links_dom; rewrite elem_of_cons;
      intros [->|H]; try done; by apply Hm.
  - intros x _. destruct (truthy (hd 0 order)) eqn:Et; by links_upd.
  - intros x Hx. rewrite not_elem_of_cons in Hx. destruct Hx as [Hx _]. destruct (truthy (hd 0 order)) eqn:Et;
      [destruct (Hp eq_refl) as [_ Hh]|]; links_upd; by rewrite decide_False.
  - destruct (truthy (hd 0 order)); by (links_dom).
Qed.

(** ** Buckets

    The list is a sequence of groups, one for each bucket that is not empty. *)
Definition members (gs : list (Z * list Z)) : list Z := mjoin (gs.*2).
Record grouped (b : Z -> Z) (l : list ht_entry) (order : list Z) (gs : list (Z * list Z)) : Prop := {
  g_order : order = members gs;
  g_nodup : NoDup gs.*1;
  g_mid : forall i mid, (i, mid) ∈ gs -> mid <> [] /\ 0 <= i < zlen l /\ Forall (fun a => b a = i) mid /\ l.[i] = mkHt (zlen mid) (hd 0 mid);
  g_empty : forall i, 0 <= i < zlen l -> i ∉ gs.*1 -> ht_count l.[i] = 0
}.
Definition hash_of (t : Hash) (a : Z) : Z := e_h (elem (mem t) a).
Definition bucket_of (t : Hash) (a : Z) : Z := hash_of t a mod htsize t.
Definition table_ok (t : Hash) (order : list Z) : Prop :=
  match ht t with
  | None => htsize t = 0
  | Some l => htsize t = zlen l /\ 0 < htsize t /\ exists gs, grouped (bucket_of t) l order gs
  end.

Lemma members_app gs gs' : members (gs ++ gs') = members gs ++ members gs'.
Proof. unfold members. by rewrite fmap_app, join_app. Qed.
Lemma members_mid g1 i mid g2 : members (g1 ++ (i, mid) :: g2) = members g1 ++ mid ++ members g2.
Proof. rewrite members_app. done. Qed.
Lemma group_split (gs : list (Z * list Z)) i mid : (i, mid) ∈ gs -> exists g1 g2, gs = g1 ++ (i, mid) :: g2.
Proof. apply list_elem_of_split. Qed.
Lemma find_group (gs : list (Z * list Z)) i : i ∈ gs.*1 -> exists mid, (i, mid) ∈ gs.
Proof. intros ((j, mid) & -> & H)%list_elem_of_fmap. by exists mid. Qed.
Lemma group_key (gs : list (Z * list Z)) i mid : (i, mid) ∈ gs -> i ∈ gs.*1.
Proof. intros H. apply list_elem_of_fmap. by exists (i, mid). Qed.
Lemma in_members gs i mid a : (i, mid) ∈ gs -> a ∈ mid -> a ∈ members gs.
Proof. intros (g1 & g2 & ->)%group_split Ha. rewrite members_mid, !elem_of_app. tauto. Qed.
Lemma members_in gs a : a ∈ members gs -> exists i mid, (i, mid) ∈ gs /\ a ∈ mid.
Proof.
  change (members gs) with (mjoin (gs.*2)). intros (mid & Ha & ((i & mid') & -> & H)%list_elem_of_fmap)%list_elem_of_join. by exists i, mid'.
Qed.
(** An entry of a list of pairs with distinct keys. *)
Lemma pair_unique (gs : list (Z * list Z)) i mid mid' : NoDup gs.*1 -> (i, mid) ∈ gs -> (i, mid') ∈ gs -> mid = mid'.
Proof.
  intros Hn (g1 & g2 & ->)%group_split. rewrite fmap_app, fmap_cons in Hn. cbn in Hn.
  apply NoDup_app in Hn as (_ & H1 & [H2 _]%NoDup_cons). rewrite elem_of_app, elem_of_cons. intros [H|[H|H]].
  - exfalso. apply (H1 i); [by eapply group_key|by left].
  - by injection H.
  - exfalso. apply H2. by eapply group_key.
Qed.

Section groups.
Context (b : Z -> Z) (l : list ht_entry).
(** A bucket that has entries gets one more at its front. *)
Lemma grouped_push g1 i mid g2 order a : grouped b l order (g1 ++ (i, mid) :: g2) -> b a = i -> zlen order < 2 ^ 32 - 1 ->
  grouped b l.[i <- mkHt (u32 (ht_count l.[i] + 1)) a] (members g1 ++ a :: mid ++ members g2) (g1 ++ (i, a :: mid) :: g2).
Proof.
  intros [Ho Hn Hm He] Hb Hl. destruct (Hm i mid (mid_in _ _ _)) as (Hne & Hi & Hall & Ei).
  assert (Hlen : zlen mid <= zlen order) by (rewrite Ho, members_mid; autorewrite with zlen; pose proof (zlen_nonneg (members g1)); pose proof (zlen_nonneg (members g2)); lia).
  pose proof (zlen_nonneg mid) as Hz.
  assert (Hf : (g1 ++ (i, a :: mid) :: g2).*1 = (g1 ++ (i, mid) :: g2).*1) by (by rewrite !fmap_app).
  constructor.
  - by rewrite members_mid.
  - by rewrite Hf.
  - intros j mid' Hj. rewrite zlen_zput. rewrite elem_of_app, elem_of_cons in Hj.
    assert ((j, mid') = (i, a :: mid) \/ (j <> i /\ (j, mid') ∈ g1 ++ (i, mid) :: g2)) as [[= -> ->]|[Hji Hj']].
    { destruct Hj as [Hj|[Hj|Hj]]; [right|by left|right]; (split; [|rewrite elem_of_app, elem_of_cons; tauto]);
        intros ->; rewrite fmap_app, fmap_cons in Hn; cbn in Hn; apply NoDup_app in Hn as (_ & H1 & [H2 _]%NoDup_cons);
        [apply (H1 i); [by eapply group_key|by left]|apply H2; by eapply group_key]. }
    + split_and!; [done|lia|lia|by constructor|]. rewrite zget_zput_eq by lia. rewrite Ei. cbn [ht_count hd]. autorewrite with zlen.
      f_equal. unfold u32. rewrite Z.mod_small; lia.
    + rewrite zget_zput_ne by done. by apply Hm.
  - intros j. rewrite zlen_zput, Hf. intros Hj Hji. rewrite zget_zput_ne; [by apply He|].
    intros ->. apply Hji. eapply group_key, mid_in.
Qed.
(** An empty bucket starts a group at the front of the list. *)
Lemma grouped_new gs i order a : grouped b l order gs -> b a = i -> 0 <= i < zlen l -> i ∉ gs.*1 ->
  grouped b l.[i <- mkHt (u32 (ht_count l.[i] + 1)) a] (a :: order) ((i, [a]) :: gs).
Proof.
  intros [Ho Hn Hm He] Hb Hi Hni. constructor.
  - by rewrite Ho.
  - cbn. by constructor.
  - intros j mid. rewrite zlen_zput, elem_of_cons. intros [[= -> ->]|Hj].
    + split_and!; [done|lia|lia|by repeat constructor|]. rewrite zget_zput_eq by lia. by rewrite He.
    + rewrite zget_zput_ne; [by apply Hm|]. intros ->. apply Hni. by eapply group_key.
  - intros j. rewrite zlen_zput. cbn. rewrite not_elem_of_cons. intros Hj [Hji Hjn]. rewrite zget_zput_ne by done. by apply He.
Qed.
(** An entry leaves its group; a group that gets empty disappears. *)
Lemma grouped_pop g1 i m1 a m2 g2 order nx : grouped b l order (g1 ++ (i, m1 ++ a :: m2) :: g2) ->
  NoDup order -> zlen order < 2 ^ 32 -> (m2 <> [] -> nx = hd 0 m2) ->
  exists gs, grouped b l.[i <- mkHt (u32 (ht_count l.[i] - 1)) (if ht_chain l.[i] =? a then nx else ht_chain l.[i])]
    (members g1 ++ (m1 ++ m2) ++ members g2) gs.
Proof.
  intros [Ho Hn Hm He] Hnd Hl Hnx. destruct (Hm i _ (mid_in _ _ _)) as (_ & Hi & Hall & Ei).
  assert (Hlen : zlen (m1 ++ a :: m2) <= zlen order) by (rewrite Ho, members_mid; autorewrite with zlen; pose proof (zlen_nonneg (members g1)); pose proof (zlen_nonneg (members g2)); lia).
  assert (Hout : forall j mid', (j, mid') ∈ g1 \/ (j, mid') ∈ g2 -> j <> i /\ (j, mid') ∈ g1 ++ (i, m1 ++ a :: m2) :: g2).
  { intros j mid' Hj. split; [|rewrite elem_of_app, elem_of_cons; tauto].
    intros ->; rewrite fmap_app, fmap_cons in Hn; cbn in Hn; apply NoDup_app in Hn as (_ & H1 & [H2 _]%NoDup_cons).
    destruct Hj; [apply (H1 i); [by eapply group_key|by left]|apply H2; by eapply group_key]. }
  assert (Hcnt : u32 (ht_count l.[i] - 1) = zlen (m1 ++ m2)).
  { rewrite Ei. cbn [ht_count]. autorewrite with zlen in *. pose proof (zlen_nonneg m1). pose proof (zlen_nonneg m2).
    unfold u32. rewrite Z.mod_small; lia. }
  destruct (decide (m1 ++ m2 = [])) as [E|E].
  - apply app_eq_nil in E as [-> ->]. exists (g1 ++ g2). constructor.
    + by rewrite members_app.
    + rewrite fmap_app, fmap_cons in Hn. cbn in Hn. rewrite fmap_app. rewrite <- Permutation_middle in Hn. by apply NoDup_cons in Hn as [_ Hn].
    + intros j mid' Hj. rewrite zlen_zput. rewrite elem_of_app in Hj. destruct (Hout j mid' Hj) as [Hji Hj'].
      rewrite zget_zput_ne by done. by apply Hm.
    + intros j. rewrite zlen_zput. intros Hj Hjn. destruct (decide (j = i)) as [->|Hji].
      * rewrite zget_zput_eq by lia. cbn [ht_count]. rewrite Hcnt. done.
      * rewrite zget_zput_ne by done. apply He; [done|]. rewrite fmap_app, fmap_cons, elem_of_app, elem_of_cons. cbn.
        rewrite fmap_app, elem_of_app in Hjn. tauto.
  - exists (g1 ++ (i, m1 ++ m2) :: g2).
    assert (Hf : (g1 ++ (i, m1 ++ m2) :: g2).*1 = (g1 ++ (i, m1 ++ a :: m2) :: g2).*1) by (by rewrite !fmap_app).
    constructor.
    + by rewrite members_mid.
    + by rewrite Hf.
    + intros j mid' Hj. rewrite zlen_zput. rewrite elem_of_app, elem_of_cons in Hj.
      assert ((j, mid') = (i, m1 ++ m2) \/ ((j, mid') ∈ g1 \/ (j, mid') ∈ g2)) as [[= -> ->]|Hj'] by tauto.
      * split_and!; [done|lia|lia| |].
        -- rewrite !Forall_app, Forall_cons in *. tauto.
        -- rewrite zget_zput_eq by lia. rewrite Hcnt, Ei. cbn [ht_chain]. f_equal. destruct m1 as [|c m1]; cbn.
           ++ rewrite Z.eqb_refl. apply Hnx. by intros ->.
           ++ destruct (Z.eqb_spec c a) as [->|]; [|done]. exfalso. rewrite Ho, members_mid in Hnd.
              apply NoDup_app in Hnd as (_ & _ & Hnd). apply NoDup_app in Hnd as (Hnd & _). cbn in Hnd. apply NoDup_cons in Hnd as [H _].
              apply H, mid_in.
      * destruct (Hout j mid' Hj') as [Hji Hj'']. rewrite zget_zput_ne by done. by apply Hm.
    + intros j. rewrite zlen_zput, Hf. intros Hj Hjn. rewrite zget_zput_ne; [by apply He|].
      intros ->. apply Hjn. eapply group_key, mid_in.
Qed.
End groups.

Lemma grouped_ext b b' l order gs : (forall a, a ∈ order -> b' a = b a) -> grouped b l order gs -> grouped b' l order gs.
Proof.
  intros He [Ho Hn Hm Hz]. constructor; try done. intros i mid Hi. destruct (Hm i mid Hi) as (H1 & H2 & H3 & H4). split_and!; try done; try lia.
  apply Forall_forall. intros a Ha. rewrite Forall_forall in H3. rewrite He; [by apply H3|]. rewrite Ho. by eapply in_members.
Qed.

Lemma link_ht t b ht' a : ht (link t b ht' a) = ht' /\ htsize (link t b ht' a) = htsize t /\ count (link t b ht' a) = count t.
Proof. unfold link. destruct (truthy b); [destruct (truthy _)|]; done. Qed.

Lemma load_hash t t' a : load (mem t') a = load (mem t) a -> hash_of t' a = hash_of t a.
Proof. unfold load, hash_of. congruence. Qed.

Lemma frame_bucket t t' l a : frame t t' l -> htsize t' = htsize t -> a ∈ dom (mem t') -> bucket_of t' a = bucket_of t a.
Proof. intros Hf He Ha. unfold bucket_of. rewrite He. f_equal. by apply load_hash, (f_load _ _ _ Hf). Qed.

Lemma bucket_range t l a : ht t = Some l -> table_ok t [] \/ (htsize t = zlen l /\ 0 < htsize t) -> 0 <= bucket_of t a < zlen l.
Proof. intros El [H|[H1 H2]]; [unfold table_ok in H; rewrite El in H; destruct H as (H1 & H2 & _)|]; unfold bucket_of; rewrite <- H1; apply Z.mod_pos_bound; lia. Qed.

(** Linking an element that is allocated and not in the list. *)
Lemma hash_link_ok t order a :
  links t order -> table_ok t order -> a ∉ order -> a <> 0 -> a ∈ dom (mem t) -> zlen order < 2 ^ 32 - 1 ->
  let t' := insertElement t (bucket t (hash_of t a)) a in
  exists order', order' ≡ₚ a :: order /\ links t' order' /\ table_ok t' order' /\
    frame t t' (a :: order) /\ dom (mem t') = dom (mem t) /\ htsize t' = htsize t /\ count t' = count t /\
    (ht t' = None <-> ht t = None).
Proof.
  intros Hl Ht Ha Ha0 Ham Hlen t'. unfold t'. rewrite insertElement_link. unfold bucket, entry_head, table_ok in *.
  destruct (ht t) as [l|] eqn:El; cbn [fst snd].
  - destruct Ht as (Es & Hpos & gs & Hg). fold (bucket_of t a). set (i := bucket_of t a).
    assert (Hi : 0 <= i < zlen l) by (by eapply bucket_range; eauto).
    set (l' := l.[i <- mkHt (u32 (ht_count l.[i] + 1)) a]). destruct (decide (i ∈ gs.*1)) as [Hig|Hig].
    + apply find_group in Hig as [mid Hmid]. destruct (g_mid _ _ _ _ Hg i mid Hmid) as (Hne & _ & _ & Ei).
      apply group_split in Hmid as (g1 & g2 & ->). destruct mid as [|c mid]; [done|].
      assert (Hc : truthy (ht_count l.[i]) = true).
      { rewrite Ei. cbn [ht_count]. apply truthy_true. autorewrite with zlen. pose proof (zlen_nonneg mid). lia. }
      rewrite Hc, Ei. cbn [ht_chain hd]. pose proof (grouped_push _ _ _ _ _ _ _ a Hg eq_refl Hlen) as Hg'. fold i l' in Hg'.
      rewrite (g_order _ _ _ _ Hg), members_mid in *. cbn [app] in *.
      destruct (link_before t (Some l') (members g1) c (mid ++ members g2) a) as (H1 & H2 & H3); try done.
      destruct (link_ht t c (Some l') a) as (E1 & E2 & E3). eexists. split_and!; [|exact H1| |exact H2|done|done|done|by rewrite E1].
      * by rewrite <- Permutation_middle.
      * rewrite E1, E2. split_and!; [by unfold l'; rewrite zlen_zput|done|]. eexists. eapply grouped_ext; [|exact Hg'].
        intros x Hx. eapply frame_bucket; [exact H2|done|]. by apply (l_dom _ _ H1).
    + assert (Hc : truthy (ht_count l.[i]) = false) by (rewrite (g_empty _ _ _ _ Hg i Hi Hig); done).
      rewrite Hc. pose proof (grouped_new _ _ _ _ _ a Hg eq_refl Hi Hig) as Hg'. fold i l' in Hg'.
      destruct (link_front t (Some l') order a) as (H1 & H2 & H3); try done.
      destruct (link_ht t 0 (Some l') a) as (E1 & E2 & E3). eexists. split_and!; [|exact H1| |exact H2|done|done|done|by rewrite E1].
      * done.
      * rewrite E1, E2. split_and!; [by unfold l'; rewrite zlen_zput|done|]. eexists. eapply grouped_ext; [|exact Hg'].
        intros x Hx. eapply frame_bucket; [exact H2|done|]. by apply (l_dom _ _ H1).
  - destruct (link_front t None order a) as (H1 & H2 & H3); try done.
    destruct (link_ht t 0 None a) as (E1 & E2 & E3). eexists. split_and!; [|exact H1| |exact H2|done|done|done|by rewrite E1]; [done|].
    by rewrite E1, E2.
Qed.

(** ** Removal *)

Definition unlink (t : Hash) (a : Z) : Hash :=
  let e := elem (mem t) a in
  let m := if truthy (e_prev e) then set_next (mem t) (e_prev e) (e_next e) else mem t in
  mkHash (htsize t) (u32 (count t - 1)) (if truthy (e_prev e) then first t else e_next e)
    (match ht t with
     | Some l =>
         let i := bucket_of t a in
         Some l.[i <- mkHt (u32 (ht_count l.[i] - 1)) (if ht_chain l.[i] =? a then e_next e else ht_chain l.[i])]
     | None => None
     end)
    (delete a (if truthy (e_next e) then set_prev m (e_next e) (e_prev e) else m)).
Lemma removeElement_unlink t a :
  removeElement t a = if count (unlink t a) =? 0 then sqlite3HashClear (unlink t a) else unlink t a.
Proof. unfold removeElement, unlink. destruct (truthy (e_prev _)); destruct (ht t); reflexivity. Qed.

Lemma nxt_delete (m : gmap Z HashElem) a x : x <> a -> nxt (delete a m) x = nxt m x.
Proof. intros H. unfold links_of, block. by rewrite lookup_delete_ne. Qed.
Lemma prv_delete (m : gmap Z HashElem) a x : x <> a -> prv (delete a m) x = prv m x.
Proof. intros H. unfold prv, block. by rewrite lookup_delete_ne. Qed.
Lemma load_delete (m : gmap Z HashElem) a x : x <> a -> load (delete a m) x = load m x.
Proof. intros H. unfold load, block. by rewrite lookup_delete_ne. Qed.

Lemma unlink_links t l1 a l2 : links t (l1 ++ a :: l2) ->
  links (unlink t a) (l1 ++ l2) /\ dom (mem (unlink t a)) = dom (mem t) ∖ {[a]} /\
  (forall x, x ∈ dom (mem (unlink t a)) -> load (mem (unlink t a)) x = load (mem t) x).
Proof.
  intros [Hn Hz Hf Hd Hm]. pose proof (dl_at _ _ _ _ _ _ _ Hd) as [Ep En]. unfold unlink.
  change (e_prev (elem (mem t) a)) with (prv (mem t) a). change (e_next (elem (mem t) a)) with (nxt (mem t) a).
  rewrite Ep, En. set (p := default 0 (last l1)). set (q := hd 0 l2). cbv zeta. cbn [first mem].
  assert (Hn' : NoDup (l1 ++ l2) /\ a ∉ l1 ++ l2) by (rewrite <- Permutation_middle in Hn; apply NoDup_cons in Hn; tauto).
  destruct Hn' as [Hn' Ha].
  assert (Hsub : forall x, x ∈ l1 ++ l2 -> x ∈ l1 ++ a :: l2) by (intros x; rewrite !elem_of_app, elem_of_cons; tauto).
  assert (Hp : truthy p = true -> last l1 = Some p /\ p <> a /\ p ∈ dom (mem t)).
  { unfold p. destruct (last l1) as [x|] eqn:E; [|done]. cbn. intros _.
    assert (x ∈ l1 ++ l2) by (apply elem_of_app; left; by apply last_in).
    split; [done|]. split; [by intros ->|by apply Hm, Hsub]. }
  assert (Hp' : truthy p = false -> l1 = []).
  { unfold p. destruct (last l1) as [x|] eqn:E; [|by apply last_None in E]. cbn. unfold truthy. zbool; [|done]. subst.
    intros _. exfalso. apply Hz, elem_of_app. left. by apply last_in. }
  assert (Hq : truthy q = true -> head l2 = Some q /\ q <> a /\ q ∈ dom (mem t)).
  { unfold q. destruct l2 as [|x l2']; [done|]. cbn. intros _. assert (x ∈ l1 ++ x :: l2') by apply mid_in.
    split; [done|]. split; [by intros ->|by apply Hm, Hsub]. }
  assert (Hq' : truthy q = false -> l2 = []).
  { unfold q. destruct l2 as [|x l2']; [done|]. cbn. unfold truthy. zbool; [|done]. subst.
    intros _. exfalso. apply Hz. rewrite elem_of_app, !elem_of_cons. tauto. }
  set (m1 := if truthy p then set_next (mem t) p q else mem t). set (m2 := if truthy q then set_prev m1 q p else m1).
  assert (Hd1 : dom m1 = dom (mem t)) by (unfold m1; destruct (truthy p); by links_dom).
  assert (Hd2 : dom m2 = dom (mem t)) by (unfold m2; destruct (truthy q); by links_dom).
  split_and!; [constructor; cbn [first mem]|by rewrite dom_delete_L, Hd2|].
  - done.
  - intros H. by apply Hz, Hsub.
  - destruct (truthy p) eqn:Et; [|by rewrite (Hp' eq_refl)]. destruct (Hp eq_refl) as (El & _). rewrite Hf. by destruct l1.
  - eapply dl_delete; [exact Hd|done|]. intros x Hx. assert (Hxa : x <> a) by (by intros ->). rewrite nxt_delete, prv_delete by done. split.
    + transitivity (nxt m1 x); [unfold m2; destruct (truthy q); by links_upd|]. unfold m1. destruct (truthy p) eqn:Et.
      * destruct (Hp eq_refl) as (El & _ & Hpm). rewrite El. links_upd. destruct (decide (x = p)) as [->|]; [by rewrite decide_True|by rewrite decide_False by congruence].
      * rewrite (Hp' eq_refl). done.
    + unfold m2. destruct (truthy q) eqn:Et.
      * destruct (Hq eq_refl) as (El & _ & Hqm). rewrite El, prv_set_prev by (by rewrite Hd1).
        assert (E1 : prv m1 x = prv (mem t) x) by (unfold m1; destruct (truthy p); by links_upd). rewrite E1.
        destruct (decide (x = q)) as [->|]; [by rewrite decide_True|by rewrite decide_False by congruence].
      * rewrite (Hq' eq_refl). cbn. unfold m1. destruct (truthy p); by links_upd.
  - intros x Hx. rewrite dom_delete_L, Hd2, elem_of_difference, elem_of_singleton. split; [by apply Hm, Hsub|]. by intros ->.
  - intros x. rewrite dom_delete_L, elem_of_difference, elem_of_singleton. intros [_ Hxa]. rewrite load_delete by done.
    transitivity (load m1 x); [unfold m2; destruct (truthy q)|unfold m1; destruct (truthy p)]; by links_upd.
Qed.

Lemma unlink_ok t order a : links t order -> table_ok t order -> a ∈ order -> zlen order < 2 ^ 32 ->
  exists order', order ≡ₚ a :: order' /\ links (unlink t a) order' /\ table_ok (unlink t a) order' /\
    dom (mem (unlink t a)) = dom (mem t) ∖ {[a]} /\
    (forall x, x ∈ dom (mem (unlink t a)) -> load (mem (unlink t a)) x = load (mem t) x).
Proof.
  intros Hl Ht Ha Hlen. destruct (ht t) as [l|] eqn:El.
  - unfold table_ok in Ht. rewrite El in Ht. destruct Ht as (Es & Hpos & gs & Hg). pose proof (g_order _ _ _ _ Hg) as Eo.
    rewrite Eo in Ha. apply members_in in Ha as (i & mid & Hi & Ha). destruct (g_mid _ _ _ _ Hg i mid Hi) as (_ & Hil & Hall & _).
    assert (Eb : bucket_of t a = i) by (rewrite Forall_forall in Hall; by apply Hall).
    apply group_split in Hi as (g1 & g2 & ->). apply list_elem_of_split in Ha as (m1 & m2 & ->).
    rewrite members_mid in Eo. assert (Eo' : order = (members g1 ++ m1) ++ a :: (m2 ++ members g2)) by (rewrite Eo, <- !app_assoc; done).
    pose proof Hl as Hl'. rewrite Eo' in Hl'. destruct (unlink_links t _ _ _ Hl') as (H1 & H2 & H3).
    exists ((members g1 ++ m1) ++ m2 ++ members g2). split_and!; [rewrite Eo'; by rewrite <- Permutation_middle|done| |done|done].
    destruct (grouped_pop _ _ g1 i m1 a m2 g2 order (nxt (mem t) a) Hg (l_nodup _ _ Hl) Hlen) as [gs' Hg'].
    { intros Hm2. pose proof (dl_at _ _ _ _ _ _ _ (l_dl _ _ Hl')) as [_ ->]. by destruct m2. }
    unfold table_ok. unfold unlink at 1. rewrite El. cbn [ht]. rewrite Eb. change (htsize (unlink t a)) with (htsize t). split_and!; [by rewrite zlen_zput|done|].
    replace (members g1 ++ (m1 ++ m2) ++ members g2) with ((members g1 ++ m1) ++ m2 ++ members g2) in Hg' by (by rewrite <- !app_assoc).
    exists gs'. eapply grouped_ext; [|exact Hg']. intros x Hx. unfold bucket_of. change (htsize (unlink t a)) with (htsize t).
    f_equal. apply load_hash, H3, (l_dom _ _ H1). done.
  - apply list_elem_of_split in Ha as (l1 & l2 & ->). destruct (unlink_links t _ _ _ Hl) as (H1 & H2 & H3).
    exists (l1 ++ l2). split_and!; [by rewrite <- Permutation_middle|done| |done|done].
    unfold table_ok in *. unfold unlink at 1. rewrite El in *. done.
Qed.

(** ** Following the list *)

Lemma dl_chain N P p l q : dl N P p l q -> chain N (hd q l) l q.
Proof. revert p. induction l as [|a l IH]; intros p; cbn; [done|]. intros (_ & -> & H). split; [done|]. by eapply IH. Qed.
Lemma dl_app_r N P p l1 l2 q : dl N P p (l1 ++ l2) q -> dl N P (default p (last l1)) l2 q.
Proof. revert p. induction l1 as [|a l1 IH]; intros p; [done|]. cbn [app dl]. intros (_ & _ & H). rewrite last_cons_default. by apply IH. Qed.
Lemma dl_app_l N P p l1 l2 q : dl N P p (l1 ++ l2) q -> dl N P p l1 (hd q l2).
Proof.
  revert p. induction l1 as [|a l1 IH]; intros p; [done|]. cbn [app dl]. rewrite hd_app. intros (H1 & H2 & H). split_and!; [done|done|by apply IH].
Qed.
Lemma links_size t order : links t order -> (length order <= size (mem t))%nat.
Proof. intros [Hn _ _ _ Hd]. by apply heap_size. Qed.
(** Clearing frees every element of the table. *)
Lemma hash_clear_ok t order : links t order -> (forall a, a ∈ dom (mem t) -> a ∈ order) -> sqlite3HashClear t = sqlite3HashInit.
Proof.
  intros Hl Hd. unfold sqlite3HashClear, sqlite3HashInit. f_equal. apply (dom_empty_inv_L (D := gset Z)).
  assert (Hc : chain (nxt (mem t)) (first t) order 0) by (rewrite (l_first _ _ Hl); by eapply dl_chain, (l_dl _ _ Hl)).
  rewrite (proj1 (free_list_chain e_next _ _ order _ Hc (l_nodup _ _ Hl) (l_zero _ _ Hl) (links_size _ _ Hl))).
  apply set_eq. intros x. rewrite elem_of_difference, elem_of_list_to_set. set_solver.
Qed.

Lemma walk_chain m l fuel a : chain (nxt m) a l 0 -> 0 ∉ l -> (length l <= fuel)%nat ->
  walk fuel m a = map (fun x => (e_pKey (elem m x), e_data (elem m x))) l.
Proof.
  revert l a. induction fuel as [|fuel IH]; intros l a Hc Hz Hf; destruct l as [|x l]; cbn [length] in *; try lia; cbn in Hc |- *.
  - done.
  - by subst a.
  - destruct Hc as [-> Hc]. rewrite not_elem_of_cons in Hz. destruct Hz as [Hx Hz]. rewrite truthy_true by done. f_equal. apply IH; [done|done|lia].
Qed.

(** ** Hashing and searching *)

Lemma mask_lower c : is_u8 c -> Z.land 0xdf (sqlite3Tolower c) = Z.land 0xdf c.
Proof. intros Hx. by_bytes c Hx. Qed.
Lemma strHash_lower s t : text s -> text t -> lower s = lower t -> strHash (s ++ [0]) = strHash (t ++ [0]).
Proof.
  intros Hs Ht. unfold strHash. rewrite !cstr_text by done. generalize 0 as h. revert t Ht.
  induction Hs as [|c s [Hc _] Hs IH]; intros t Ht h E; destruct Ht as [|x t [Hx _] Ht]; try done.
  cbn [foldl]. injection E as E1 E2. rewrite <- (mask_lower c), <- (mask_lower x), E1 by done. by apply IH.
Qed.

(** Keys that name the same thing. *)
Definition fold_key (k : list Z) : list Z := lower (cstr k).
Definition is_key (k : list Z) : Prop := exists s, text s /\ k = s ++ [0].
Lemma fold_key_text s : text s -> fold_key (s ++ [0]) = lower s.
Proof. intros H. unfold fold_key. by rewrite cstr_text. Qed.
Lemma key_match a k : is_key a -> is_key k -> (strHash k =? strHash a) && (sqlite3StrICmp a k =? 0) = bool_decide (fold_key a = fold_key k).
Proof.
  intros (s & Hs & ->) (t & Ht & ->). rewrite !fold_key_text, StrICmp_lex by done.
  destruct (decide (lower s = lower t)) as [E|E].
  - rewrite bool_decide_true by done. rewrite (strHash_lower t s), Z.eqb_refl by done. apply Z.eqb_eq, lex_0; [by apply lower_text..|done].
  - rewrite bool_decide_false by done. apply andb_false_iff. right. apply Z.eqb_neq. intros H. apply E.
    apply lex_0 in H; [done|by apply lower_text..].
Qed.
Lemma key_hash a k : is_key a -> is_key k -> fold_key a = fold_key k -> strHash a = strHash k.
Proof. intros (s & Hs & ->) (t & Ht & ->). rewrite !fold_key_text by done. by apply strHash_lower. Qed.

(** The elements of [l] are proper: what [sqlite3HashInsert] put there. *)
Definition proper (m : gmap Z HashElem) (a : Z) : Prop :=
  let e := elem m a in e_data e <> 0 /\ is_key (e_pKey e) /\ e_h e = strHash (e_pKey e).
Definition key_of (m : gmap Z HashElem) (a : Z) : list Z := fold_key (e_pKey (elem m a)).

Lemma find_loop_spec m k l q a : chain (nxt m) a l q -> is_key k -> (forall x, x ∈ l -> proper m x) ->
  let r := find_loop (length l) m a (strHash k) k in
  (r ∈ l /\ key_of m r = fold_key k) \/ (r = 0 /\ forall x, x ∈ l -> key_of m x <> fold_key k).
Proof.
  intros Hc Hk. revert a Hc. induction l as [|x l IH]; intros a Hc Hp; cbn [length find_loop chain] in *.
  - right. split; [done|]. intros x Hx. by apply not_elem_of_nil in Hx.
  - destruct Hc as [-> Hc]. destruct (Hp x (list_elem_of_here _ _)) as (_ & Hkx & ->). rewrite key_match by done. fold (key_of m x).
    case_bool_decide as E; [left; split; [by left|done]|].
    destruct (IH (nxt m x) Hc) as [[H1 H2]|[H1 H2]]; [intros y Hy; apply Hp; by right|left; split; [by right|done]|].
    right. split; [done|]. intros y [->|Hy]%elem_of_cons; auto.
Qed.

(** ** The table as a finite map

    Keys are folded to lower case; an entry keeps the key it was last inserted with. *)
Abbreviation hash_map := (gmap (list Z) (list Z * Z)).

Record contents (m : gmap Z HashElem) (M : hash_map) (order : list Z) : Prop := {
  c_proper : forall a, a ∈ order -> proper m a;
  c_keys : NoDup (key_of m <$> order);
  c_map : forall k v, M !! k = Some v <-> exists a, a ∈ order /\ key_of m a = k /\ v = (e_pKey (elem m a), e_data (elem m a))
}.
Record hash_ok (t : Hash) (M : hash_map) (order : list Z) : Prop := {
  h_links : links t order;
  h_table : table_ok t order;
  h_mem : forall a, a ∈ dom (mem t) -> a ∈ order /\ 0 < a < 2 ^ 32;
  h_count : count t = zlen order;
  h_contents : contents (mem t) M order
}.

Lemma load_fields m m' a : load m' a = load m a ->
  e_data (elem m' a) = e_data (elem m a) /\ e_pKey (elem m' a) = e_pKey (elem m a) /\ e_h (elem m' a) = e_h (elem m a).
Proof. unfold load. intros [= H1 H2 H3]. done. Qed.
Lemma key_of_load m m' a : load m' a = load m a -> key_of m' a = key_of m a.
Proof. intros (_ & H & _)%load_fields. unfold key_of. by rewrite H. Qed.

Lemma contents_frame m m' M order order' : order' ≡ₚ order -> (forall a, a ∈ order -> load m' a = load m a) ->
  contents m M order -> contents m' M order'.
Proof.
  intros Hp Hl [H1 H2 H3]. constructor.
  - intros a Ha. rewrite Hp in Ha. unfold proper. destruct (load_fields _ _ _ (Hl a Ha)) as (-> & -> & ->). by apply H1.
  - rewrite Hp. erewrite list_fmap_ext; [exact H2|]. intros i a Ha. cbn. apply key_of_load, Hl, list_elem_of_lookup. by exists i.
  - intros k v. rewrite H3. apply exist_proper. intros a. rewrite Hp. split; intros (Ha & Hk & Hv); (split; [done|]);
      destruct (load_fields _ _ _ (Hl a Ha)) as (E1 & E2 & _); pose proof (key_of_load _ _ _ (Hl a Ha)); rewrite ?E1, ?E2 in *; split; congruence.
Qed.
Lemma contents_insert m M order a k d : contents m M order -> load m a = (d, k, strHash k) -> d <> 0 -> is_key k ->
  (forall x, x ∈ order -> key_of m x <> fold_key k) -> contents m (<[fold_key k := (k, d)]> M) (a :: order).
Proof.
  intros [H1 H2 H3] Ha Hd Hk Hx. injection Ha as E1 E2 E3.
  assert (Ek : key_of m a = fold_key k) by (unfold key_of; by rewrite E2). constructor.
  - intros x [->|Hin]%elem_of_cons; [|by apply H1]. unfold proper. by rewrite E1, E2, E3.
  - cbn. constructor; [|done]. rewrite Ek. intros (x & E & Hin)%list_elem_of_fmap. by apply (Hx x).
  - intros k' v. destruct (decide (k' = fold_key k)) as [->|Hne].
    + rewrite lookup_insert_eq. split.
      * intros [= <-]. exists a. rewrite E1, E2. split_and!; [by left|done|done].
      * intros (x & [->|Hin]%elem_of_cons & Hkx & ->); [by rewrite E1, E2|]. by destruct (Hx x).
    + rewrite lookup_insert_ne by done. rewrite H3. apply exist_proper. intros x. rewrite elem_of_cons. split; [tauto|].
      intros ([->|Hin] & Hkx & Hv); [congruence|tauto].
Qed.
Lemma contents_delete m M order a : contents m M (a :: order) -> contents m (delete (key_of m a) M) order.
Proof.
  intros [H1 H2 H3]. cbn in H2. apply NoDup_cons in H2 as [Hn H2]. constructor; [|done|].
  - intros x Hx. apply H1. by right.
  - intros k v. rewrite lookup_delete_Some, H3. split.
    + intros (Hk & x & [->|Hin]%elem_of_cons & Hkx & Hv); [congruence|eauto].
    + intros (x & Hin & Hkx & Hv). split; [|exists x; rewrite elem_of_cons; tauto].
      intros E. apply Hn. apply list_elem_of_fmap. exists x. split; [congruence|done].
Qed.
Lemma contents_lookup m M order a : contents m M order -> a ∈ order ->
  M !! key_of m a = Some (e_pKey (elem m a), e_data (elem m a)).
Proof. intros H Ha. apply (c_map _ _ _ H). eauto. Qed.
Lemma contents_none m M order k : contents m M order -> (forall x, x ∈ order -> key_of m x <> k) -> M !! k = None.
Proof.
  intros H Hx. destruct (M !! k) as [v|] eqn:E; [|done]. apply (c_map _ _ _ H) in E as (a & Ha & Hk & _). by destruct (Hx a).
Qed.

Lemma order_bound (l : list Z) : NoDup l -> (forall a, a ∈ l -> 0 < a < 2 ^ 32) -> zlen l <= 2 ^ 32 - 1.
Proof.
  intros Hn Hl. unfold zlen. assert (H : (length l <= length (seqZ 1 (2 ^ 32 - 1)))%nat).
  { apply submseteq_length, NoDup_submseteq; [done|]. intros a Ha. apply elem_of_seqZ. specialize (Hl a Ha). lia. }
  rewrite length_seqZ in H. lia.
Qed.
Lemma hash_bound t M order : hash_ok t M order -> zlen order <= 2 ^ 32 - 1.
Proof.
  intros Ho. apply order_bound; [apply (h_links _ _ _ Ho)|]. intros a Ha. apply (h_mem _ _ _ Ho), (l_dom _ _ (h_links _ _ _ Ho)), Ha.
Qed.

Lemma find_ok t M order k : hash_ok t M order -> is_key k ->
  exists a, findElementWithHash t k = (a, strHash k) /\
    ((a ∈ order /\ key_of (mem t) a = fold_key k) \/ (a = 0 /\ forall x, x ∈ order -> key_of (mem t) x <> fold_key k)).
Proof.
  intros [Hl Ht Hm Hc [Hp _ _]] Hk. unfold findElementWithHash, table_ok in *. cbv zeta. destruct (ht t) as [l|].
  - destruct Ht as (Es & Hpos & gs & Hg). set (i := strHash k mod htsize t). eexists. split; [reflexivity|].
    assert (Hi : 0 <= i < zlen l) by (rewrite <- Es; apply Z.mod_pos_bound; lia).
    assert (Hb : forall x, x ∈ order -> key_of (mem t) x = fold_key k -> bucket_of t x = i).
    { intros x Hx E. destruct (Hp x Hx) as (_ & Hkx & Hh). unfold bucket_of, hash_of. rewrite Hh. unfold i. f_equal. by apply key_hash. }
    destruct (decide (i ∈ gs.*1)) as [Hig|Hig].
    + apply find_group in Hig as [mid Hmid]. destruct (g_mid _ _ _ _ Hg i mid Hmid) as (Hne & _ & _ & ->). cbn [ht_chain ht_count].
      unfold zlen. rewrite Nat2Z.id. pose proof Hmid as (g1 & g2 & ->)%group_split.
      pose proof (l_dl _ _ Hl) as Hd. rewrite (g_order _ _ _ _ Hg), members_mid in Hd. apply dl_app_r, dl_app_l, dl_chain in Hd.
      rewrite (hd_default _ mid) in *. destruct mid as [|c mid]; [done|]. cbn [head default] in *.
      destruct (find_loop_spec (mem t) k (c :: mid) _ _ Hd Hk) as [[H1 H2]|[H1 H2]].
      * intros x Hx. apply Hp. rewrite (g_order _ _ _ _ Hg). by eapply in_members.
      * left. split; [|done]. rewrite (g_order _ _ _ _ Hg). by eapply in_members.
      * right. split; [done|]. intros x Hx E. pose proof (Hb x Hx E) as Ebx. rewrite (g_order _ _ _ _ Hg) in Hx.
        apply members_in in Hx as (j & mid' & Hj & Hxm). destruct (g_mid _ _ _ _ Hg j mid' Hj) as (_ & _ & Hall & _).
        rewrite Forall_forall in Hall. rewrite (Hall x Hxm) in Ebx. subst j.
        rewrite (pair_unique _ _ _ _ (g_nodup _ _ _ _ Hg) Hj Hmid) in Hxm. by apply (H2 x).
    + rewrite (g_empty _ _ _ _ Hg i Hi Hig). right. split; [done|]. intros x Hx E. apply Hig. pose proof (Hb x Hx E) as Ebx.
      rewrite (g_order _ _ _ _ Hg) in Hx. apply members_in in Hx as (j & mid' & Hj & Hxm).
      destruct (g_mid _ _ _ _ Hg j mid' Hj) as (_ & _ & Hall & _). rewrite Forall_forall in Hall. rewrite (Hall x Hxm) in Ebx. subst j.
      by eapply group_key.
  - eexists. split; [reflexivity|]. rewrite Hc. unfold zlen. rewrite Nat2Z.id.
    eapply find_loop_spec; [rewrite (l_first _ _ Hl); eapply dl_chain, (l_dl _ _ Hl)|done|done].
Qed.

(** ** Rehashing *)

Lemma rehash_loop_ok fuel t done rest a :
  links t done -> table_ok t done -> chain (nxt (mem t)) a rest 0 -> NoDup (rest ++ done) -> 0 ∉ rest ->
  (forall x, x ∈ rest -> x ∈ dom (mem t)) -> zlen (rest ++ done) < 2 ^ 32 -> (length rest <= fuel)%nat ->
  let t' := rehash_loop fuel t a in
  exists order, order ≡ₚ rest ++ done /\ links t' order /\ table_ok t' order /\ dom (mem t') = dom (mem t) /\
    (forall x, x ∈ dom (mem t') -> load (mem t') x = load (mem t) x) /\ count t' = count t.
Proof.
  revert t done rest a. induction fuel as [|fuel IH]; intros t done rest a Hl Ht Hc Hn Hz Hd Hb Hf;
    destruct rest as [|x rest]; cbn [length] in *; try lia; cbn [rehash_loop chain app] in *.
  - exists done. done.
  - subst a. cbn. exists done. done.
  - destruct Hc as [-> Hc]. rewrite not_elem_of_cons in Hz. destruct Hz as [Hx Hz]. rewrite truthy_true by done.
    apply NoDup_cons in Hn as [Hxn Hn]. rewrite elem_of_app in Hxn. autorewrite with zlen in Hb. pose proof (zlen_nonneg rest).
    destruct (hash_link_ok t done x Hl Ht) as (done' & Hp & Hl' & Ht' & Hfr & Hdom & _ & Hcnt & _);
      [tauto|done|apply Hd; by left|lia|].
    fold (hash_of t x). fold (nxt (mem t) x). set (t1 := insertElement t _ x) in *.
    destruct (IH t1 done' rest (nxt (mem t) x)) as (order & H1 & H2 & H3 & H4 & H5 & H6).
    + done.
    + done.
    + eapply chain_ext; [|exact Hc]. intros y Hy. apply (f_nxt _ _ _ Hfr). rewrite elem_of_cons. apply NoDup_app in Hn as (_ & Hn & _).
      intros [->|Hyd]; [tauto|by apply (Hn y)].
    + rewrite Hp. rewrite <- Permutation_middle. constructor; [rewrite elem_of_app; tauto|done].
    + done.
    + intros y Hy. rewrite Hdom. apply Hd. by right.
    + assert (El : zlen done' = 1 + zlen done) by (unfold zlen; rewrite Hp; cbn [length]; lia). autorewrite with zlen. lia.
    + lia.
    + exists order. split_and!; [rewrite H1, Hp; by rewrite <- Permutation_middle|done|done|congruence| |congruence].
      intros y Hy. rewrite H5 by done. apply (f_load _ _ _ Hfr). by rewrite <- H4.
Qed.

(** A block that the allocator gives is at least as large as the request, which is not
    empty. *)
Definition usable_ok (usable : Z -> option Z) : Prop := forall n m, usable n = Some m -> 0 < n <= m.

Lemma rehash_ok t order n usable : usable_ok usable -> links t order -> table_ok t order -> zlen order < 2 ^ 32 ->
  let t' := snd (rehash t n usable) in
  exists order', order' ≡ₚ order /\ links t' order' /\ table_ok t' order' /\ dom (mem t') = dom (mem t) /\
    (forall x, x ∈ dom (mem t') -> load (mem t') x = load (mem t) x) /\ count t' = count t.
Proof.
  intros Hu Hl Ht Hlen. unfold rehash. cbv zeta. set (ns := if _ <? _ then _ else n).
  assert (Hsame : exists order', order' ≡ₚ order /\ links t order' /\ table_ok t order' /\ dom (mem t) = dom (mem t) /\
    (forall x, x ∈ dom (mem t) -> load (mem t) x = load (mem t) x) /\ count t = count t) by (by exists order).
  destruct (ns =? htsize t); [exact Hsame|]. destruct (usable (u32 (ns * sizeof_ht))) as [m|] eqn:Em; [|exact Hsame]. clear Hsame.
  apply Hu in Em. unfold sizeof_ht in *. cbn [snd].
  assert (Hm : 0 < m / 8).
  { apply Z.div_str_pos. split; [lia|]. assert (0 < u32 (ns * 8)) by lia. assert (u32 (ns * 8) mod 8 = 0).
    { unfold u32. change (2 ^ 32) with (2 ^ 29 * 8). rewrite Z.mul_mod_distr_r by done. apply Z.mod_mul. done. }
    Z.div_mod_to_equations; lia. }
  set (t0 := mkHash _ _ _ _ _). pose proof (rehash_loop_ok (size (mem t)) t0 [] order (first t)) as H.
  rewrite !app_nil_r in H. apply H; clear H; try done.
  - constructor; cbn; [constructor|apply not_elem_of_nil|done|done|]. intros a Ha. by apply not_elem_of_nil in Ha.
  - unfold table_ok. cbn [ht t0 htsize]. assert (E : zlen (replicate (Z.to_nat (m / 8)) (mkHt 0 0)) = m / 8) by (unfold zlen; rewrite length_replicate; lia).
    split_and!; [done|done|]. exists []. constructor; [done|constructor| |].
    + intros i mid Hi. by apply not_elem_of_nil in Hi.
    + intros i Hi _. unfold zget, zlookup. rewrite E in Hi. rewrite (proj2 (Z.leb_le _ _)), lookup_replicate_2 by lia. done.
  - rewrite (l_first _ _ Hl). eapply dl_chain, (l_dl _ _ Hl).
  - apply Hl.
  - apply Hl.
  - apply Hl.
  - by apply links_size.
Qed.

(** ** Calls *)

Inductive hash_call :=
| CInsert (k : list Z) (d : Z) (pNew : option Z) (usable : Z -> option Z)
| CFind (k : list Z)
| CClear.

Definition run_call (t : Hash) (c : hash_call) : Z * Hash :=
  match c with
  | CInsert k d pNew usable => sqlite3HashInsert t k d pNew usable
  | CFind k => (sqlite3HashFind t k, t)
  | CClear => (0, sqlite3HashClear t)
  end.
(** The specification: a finite map on folded keys.  Only a failing allocation of a new
    entry shows. *)
Definition spec_call (M : hash_map) (c : hash_call) : Z * hash_map :=
  match c with
  | CInsert k d pNew _ =>
      match M !! fold_key k, pNew with
      | Some (_, old), _ => (old, if d =? 0 then delete (fold_key k) M else <[fold_key k := (k, d)]> M)
      | None, None => (d, M)
      | None, Some _ => (0, if d =? 0 then M else <[fold_key k := (k, d)]> M)
      end
  | CFind k => (match M !! fold_key k with Some (_, d) => d | None => 0 end, M)
  | CClear => (0, ∅)
  end.
(** Keys are C strings; a new block is not NULL and not in use; arrays as in [usable_ok]. *)
Definition call_ok (t : Hash) (c : hash_call) : Prop :=
  match c with
  | CInsert k d pNew usable => is_key k /\ usable_ok usable /\ forall a, pNew = Some a -> 0 < a < 2 ^ 32 /\ a ∉ dom (mem t)
  | CFind k => is_key k
  | CClear => True
  end.

Lemma init_ok : hash_ok sqlite3HashInit ∅ [].
Proof.
  constructor; cbn.
  - constructor; cbn; [constructor|apply not_elem_of_nil|done|done|]. intros a Ha. by apply not_elem_of_nil in Ha.
  - done.
  - set_solver.
  - done.
  - constructor; cbn; [|constructor|].
    + intros a Ha. by apply not_elem_of_nil in Ha.
    + intros k v. rewrite lookup_empty. split; [done|]. intros (a & Ha & _). by apply not_elem_of_nil in Ha.
Qed.

Lemma found_data t M order k a : hash_ok t M order ->
  (a ∈ order /\ key_of (mem t) a = fold_key k) \/ (a = 0 /\ forall x, x ∈ order -> key_of (mem t) x <> fold_key k) ->
  (a ∈ order /\ key_of (mem t) a = fold_key k /\ e_data (elem (mem t) a) <> 0 /\
     M !! fold_key k = Some (e_pKey (elem (mem t) a), e_data (elem (mem t) a))) \/
  (e_data (elem (mem t) a) = 0 /\ M !! fold_key k = None /\ forall x, x ∈ order -> key_of (mem t) x <> fold_key k).
Proof.
  intros Ho [[Ha Ek]|[-> Hn]].
  - left. split_and!; [done|done|by apply (c_proper _ _ _ (h_contents _ _ _ Ho))|]. rewrite <- Ek.
    by eapply contents_lookup; [apply Ho|].
  - right. split_and!; [|by eapply contents_none; [apply Ho|]|done]. unfold block. destruct (mem t !! 0) as [e|] eqn:E; [|done].
    apply elem_of_dom_2, (h_mem _ _ _ Ho) in E. lia.
Qed.

Lemma remove_step t M order a : hash_ok t M order -> a ∈ order ->
  exists order', hash_ok (removeElement t a) (delete (key_of (mem t) a) M) order'.
Proof.
  intros Ho Ha. pose proof (hash_bound _ _ _ Ho) as Hb. destruct Ho as [Hl Ht Hm Hc Hcon].
  destruct (unlink_ok t order a Hl Ht Ha ltac:(lia)) as (order' & Hp & Hl' & Ht' & Hd & Hld).
  assert (Ho' : hash_ok (unlink t a) (delete (key_of (mem t) a) M) order').
  { constructor; try done.
    - intros x. rewrite Hd, elem_of_difference, elem_of_singleton. intros [Hx Hxa]. destruct (Hm x Hx) as [Hxo Hr].
      rewrite Hp in Hxo. apply elem_of_cons in Hxo as [|]; [done|]. done.
    - unfold unlink. cbn [count]. rewrite Hc. assert (E : zlen order = 1 + zlen order') by (unfold zlen; rewrite Hp; cbn [length]; lia).
      pose proof (zlen_nonneg order'). unfold u32. rewrite Z.mod_small; lia.
    - eapply contents_frame; [reflexivity| |eapply contents_delete, contents_frame; [symmetry; exact Hp|intros; reflexivity|exact Hcon]].
      intros x Hx. apply Hld. by apply (l_dom _ _ Hl'). }
  rewrite removeElement_unlink. destruct (Z.eqb_spec (count (unlink t a)) 0) as [E|E]; [|by exists order'].
  rewrite (h_count _ _ _ Ho') in E. assert (order' = []) as -> by (destruct order'; [done|]; exfalso; autorewrite with zlen in E; pose proof (zlen_nonneg order'); lia).
  rewrite (hash_clear_ok _ []); [|done|apply Ho']. exists []. replace (delete _ M) with (∅ : hash_map); [apply init_ok|].
  symmetry. apply map_empty. intros k. eapply contents_none; [apply Ho'|]. intros x Hx. by apply not_elem_of_nil in Hx.
Qed.

Lemma replace_step t M order a k d : hash_ok t M order -> a ∈ order -> key_of (mem t) a = fold_key k -> is_key k -> d <> 0 ->
  hash_ok (mkHash (htsize t) (count t) (first t) (ht t)
    (alter (fun e => mkElem (e_next e) (e_prev e) d k (e_h e)) a (mem t))) (<[fold_key k := (k, d)]> M) order.
Proof.
  intros [Hl Ht Hm Hc Hcon] Ha Ek Hk Hd. set (m' := alter _ a (mem t)).
  assert (Hdom : dom m' = dom (mem t)) by apply dom_alter_L.
  pose proof (l_dom _ _ Hl a Ha) as [e Ee]%elem_of_dom.
  assert (Eo : forall x, elem m' x = if decide (x = a) then mkElem (e_next e) (e_prev e) d k (e_h e) else elem (mem t) x).
  { intros x. unfold m', block. case_decide as E; [subst; by rewrite lookup_alter_eq, Ee|by rewrite lookup_alter_ne]. }
  assert (Ea : elem (mem t) a = e) by (unfold block; by rewrite Ee).
  assert (Eh : forall x, e_h (elem m' x) = e_h (elem (mem t) x)) by (intros x; rewrite Eo; case_decide as E; [by rewrite E, Ea|done]).
  destruct (c_proper _ _ _ Hcon a Ha) as (_ & Hka & Hha).
  constructor; cbn [mem count]; try done.
  - destruct Hl as [H1 H2 H3 H4 H5]. constructor; cbn [first mem]; try done.
    + eapply dl_ext; [|exact H4]. intros x _. unfold links_of, prv. rewrite Eo. case_decide as E; [by rewrite E, Ea|done].
    + intros x. rewrite Hdom. apply H5.
  - unfold table_ok in *. cbn [ht htsize]. destruct (ht t) as [l|]; [|done]. destruct Ht as (E1 & E2 & gs & Hg). split_and!; [done|done|].
    exists gs. eapply grouped_ext; [|exact Hg]. intros x _. unfold bucket_of, hash_of. cbn [mem htsize]. by rewrite Eh.
  - intros x. rewrite Hdom. apply Hm.
  - apply list_elem_of_split in Ha as (l1 & l2 & ->). apply (contents_frame m' m' _ (a :: l1 ++ l2)); [by rewrite <- Permutation_middle|done|].
    assert (Hcon' : contents (mem t) M (a :: l1 ++ l2)) by (eapply contents_frame; [by rewrite Permutation_middle|intros; reflexivity|exact Hcon]).
    assert (Hnot : forall x, x ∈ l1 ++ l2 -> x <> a /\ key_of (mem t) x <> fold_key k).
    { intros x Hx. pose proof (c_keys _ _ _ Hcon') as [Hn _]%NoDup_cons. rewrite Ek in Hn. split.
      - intros ->. apply Hn, list_elem_of_fmap. by exists a.
      - intros E. apply Hn, list_elem_of_fmap. by exists x. }
    rewrite <- insert_delete_eq. apply contents_insert; [|unfold load; rewrite Eo, decide_True by done; cbn; rewrite <- Ea, Hha, (key_hash _ k) by done; done|done|done|].
    + rewrite <- Ek. eapply contents_frame; [reflexivity| |by apply contents_delete]. intros x Hx. unfold load.
      rewrite Eo, decide_False by (by apply Hnot). done.
    + intros x Hx. unfold key_of. rewrite Eo, decide_False by (by apply Hnot). by apply Hnot.
Qed.

(** The part of [sqlite3HashInsert] after a new element is allocated. *)
Lemma new_step t M order k d a usable : hash_ok t M order -> is_key k -> usable_ok usable -> d <> 0 ->
  0 < a < 2 ^ 32 -> a ∉ dom (mem t) -> (forall x, x ∈ order -> key_of (mem t) x <> fold_key k) ->
  let t1 := mkHash (htsize t) (u32 (count t + 1)) (first t) (ht t) (<[a := mkElem 0 0 d k (strHash k)]> (mem t)) in
  let t2 := if (5 <=? count t1) && (u32 (2 * htsize t1) <? count t1) then snd (rehash t1 (u32 (count t1 * 3)) usable) else t1 in
  exists order', hash_ok (insertElement t2 (bucket t2 (e_h (elem (mem t2) a))) a) (<[fold_key k := (k, d)]> M) order'.
Proof.
  intros Ho Hk Hu Hd Ha Ham Hnk t1 t2. pose proof Ho as [Hl Ht Hm Hc Hcon].
  assert (Hao : a ∉ order) by (intros H; by apply Ham, (l_dom _ _ Hl)).
  assert (Hlen : zlen (a :: order) <= 2 ^ 32 - 1).
  { apply order_bound; [constructor; [done|apply Hl]|]. intros x [->|Hx]%elem_of_cons; [done|]. by apply Hm, (l_dom _ _ Hl). }
  autorewrite with zlen in Hlen. pose proof (zlen_nonneg order).
  assert (Eo : forall x, x ∈ order -> elem (mem t1) x = elem (mem t) x).
  { intros x Hx. unfold t1, block. cbn [mem]. rewrite lookup_insert_ne; [done|]. by intros ->. }
  assert (Ea : elem (mem t1) a = mkElem 0 0 d k (strHash k)) by (unfold t1, block; cbn [mem]; by rewrite lookup_insert_eq).
  assert (Hl1 : links t1 order).
  { destruct Hl as [H1 H2 H3 H4 H5]. constructor; cbn [first mem]; try done.
    - eapply dl_ext; [|exact H4]. intros x Hx. unfold links_of, prv. by rewrite Eo.
    - intros x Hx. cbn. apply elem_of_dom. rewrite lookup_insert_ne by (by intros ->). by apply elem_of_dom, H5. }
  assert (Ht1 : table_ok t1 order).
  { unfold table_ok in *. cbn [ht htsize t1]. destruct (ht t) as [l|]; [|done]. destruct Ht as (E1 & E2 & gs & Hg). split_and!; [done|done|].
    exists gs. eapply grouped_ext; [|exact Hg]. intros x Hx. unfold bucket_of, hash_of. rewrite Eo by done. done. }
  assert (Hcount : count t1 = zlen (a :: order)).
  { unfold t1. cbn [count]. rewrite Hc. autorewrite with zlen. unfold u32. rewrite Z.mod_small; lia. }
  assert (exists order2, order2 ≡ₚ order /\ links t2 order2 /\ table_ok t2 order2 /\ dom (mem t2) = dom (mem t1) /\
    (forall x, x ∈ dom (mem t2) -> load (mem t2) x = load (mem t1) x) /\ count t2 = count t1) as (o2 & Hp & Hl2 & Ht2 & Hd2 & Hld2 & Hc2).
  { unfold t2. destruct (_ && _); [|by exists order]. apply (rehash_ok _ order); try done. lia. }
  assert (Had : a ∈ dom (mem t2)) by (rewrite Hd2; cbn; apply elem_of_dom; rewrite lookup_insert_eq; eauto).
  destruct (hash_link_ok t2 o2 a) as (o3 & Hp3 & Hl3 & Ht3 & Hfr & Hd3 & _ & Hc3 & _); try done.
  - by rewrite Hp.
  - lia.
  - assert (E : zlen o2 = zlen order) by (unfold zlen; by rewrite Hp). lia.
  - exists o3. fold (hash_of t2 a). set (t3 := insertElement t2 _ a) in *. assert (Hp' : o3 ≡ₚ a :: order) by (by rewrite Hp3, Hp).
    assert (Hld : forall x, x ∈ a :: order -> load (mem t3) x = load (mem t1) x).
    { intros x Hx. assert (x ∈ dom (mem t3)) by (apply (l_dom _ _ Hl3); by rewrite Hp'). rewrite (f_load _ _ _ Hfr) by done.
      apply Hld2. by rewrite <- Hd3. }
    constructor; try done.
    + intros x. rewrite Hd3, Hd2. cbn. rewrite Hp', elem_of_cons, elem_of_dom. destruct (decide (x = a)) as [->|Hx]; [tauto|].
      rewrite lookup_insert_ne, <- elem_of_dom by done. intros Hx'. specialize (Hm x Hx'). tauto.
    + rewrite Hc3, Hc2, Hcount. unfold zlen. by rewrite Hp'.
    + eapply contents_frame; [exact Hp'|exact Hld|]. apply contents_insert; [|unfold load; by rewrite Ea|done|done|].
      * eapply contents_frame; [reflexivity| |exact Hcon]. intros x Hx. unfold load. by rewrite Eo.
      * intros x Hx. unfold key_of. rewrite Eo by done. by apply Hnk.
Qed.

Lemma call_step t M order c : hash_ok t M order -> call_ok t c ->
  fst (run_call t c) = fst (spec_call M c) /\ exists order', hash_ok (snd (run_call t c)) (snd (spec_call M c)) order'.
Proof.
  intros Ho Hc. destruct c as [k d pNew usable|k|]; cbn [run_call spec_call] in *.
  - destruct Hc as (Hk & Hu & Hnew). unfold sqlite3HashInsert. destruct (find_ok t M order k Ho Hk) as (a & -> & Hf).
    destruct (found_data t M order k a Ho Hf) as [(Ha & Ek & Hd & ->)|(Hd & -> & Hn)].
    + rewrite truthy_true by done. cbn [fst snd]. split; [done|]. destruct (Z.eqb_spec d 0) as [->|Hd0].
      * rewrite <- Ek. by eapply remove_step.
      * exists order. by apply replace_step.
    + rewrite Hd. change (truthy 0) with false. cbv iota. destruct (Z.eqb_spec d 0) as [->|Hd0].
      * destruct pNew; split; try done; by exists order.
      * destruct pNew as [a'|]; [|split; [done|by exists order]]. destruct (Hnew a' eq_refl) as [Ha1 Ha2]. split; [done|].
        by apply (new_step t M order k d a' usable).
  - unfold sqlite3HashFind. destruct (find_ok t M order k Ho Hc) as (a & -> & Hf). cbn [fst snd]. split; [|by exists order].
    destruct (found_data t M order k a Ho Hf) as [(Ha & Ek & Hd & ->)|(Hd & -> & Hn)]; done.
  - split; [done|]. exists []. rewrite (hash_clear_ok t order); [apply init_ok|apply Ho|]. intros a Ha. by apply (h_mem _ _ _ Ho).
Qed.

Fixpoint run_calls (t : Hash) (cs : list hash_call) : list Z * Hash :=
  match cs with
  | [] => ([], t)
  | c :: cs' => let '(r, t') := run_call t c in let '(rs, t'') := run_calls t' cs' in (r :: rs, t'')
  end.
Fixpoint spec_calls (M : hash_map) (cs : list hash_call) : list Z * hash_map :=
  match cs with
  | [] => ([], M)
  | c :: cs' => let '(r, M') := spec_call M c in let '(rs, M'') := spec_calls M' cs' in (r :: rs, M'')
  end.
Fixpoint calls_ok (t : Hash) (cs : list hash_call) : Prop :=
  match cs with [] => True | c :: cs' => call_ok t c /\ calls_ok (snd (run_call t c)) cs' end.

Lemma calls_step cs t M order : hash_ok t M order -> calls_ok t cs ->
  fst (run_calls t cs) = fst (spec_calls M cs) /\ exists order', hash_ok (snd (run_calls t cs)) (snd (spec_calls M cs)) order'.
Proof.
  revert t M order. induction cs as [|c cs IH]; intros t M order Ho Hc; cbn [run_calls spec_calls] in *; [eauto|].
  destruct Hc as [Hc Hcs]. destruct (call_step t M order c Ho Hc) as [E (o & Ho')].
  destruct (run_call t c) as [r t'], (spec_call M c) as [r' M']. cbn [fst snd] in *. subst r'.
  destruct (IH t' M' o Ho' Hcs) as [E2 H2]. destruct (run_calls t' cs), (spec_calls M' cs). cbn [fst snd] in *. split; [congruence|done].
Qed.

Lemma entries_perm t M order : hash_ok t M order -> entries t ≡ₚ (map_to_list M).*2.
Proof.
  intros Ho. destruct Ho as [Hl Ht Hm Hc Hcon]. unfold entries.
  rewrite (walk_chain _ order); [|rewrite (l_first _ _ Hl); eapply dl_chain, (l_dl _ _ Hl)|apply Hl|by apply links_size].
  change (map ?g ?l) with (g <$> l). set (g := fun x => (e_pKey (elem (mem t) x), e_data (elem (mem t) x))).
  transitivity (((fun a => (key_of (mem t) a, g a)) <$> order).*2).
  { rewrite <- list_fmap_compose. done. }
  apply fmap_Permutation. apply NoDup_Permutation; [|apply NoDup_map_to_list|].
  - apply (NoDup_fmap_1 fst). rewrite <- list_fmap_compose. apply Hcon.
  - intros [k v]. rewrite elem_of_map_to_list, (c_map _ _ _ Hcon), list_elem_of_fmap. split.
    + intros (a & [= -> ->] & Ha). by exists a.
    + intros (a & Ha & <- & ->). by exists a.
Qed.

(** C31. A hash table is a finite map on case-folded names: for any sequence of insertions,
    replacements, removals, lookups and clears, whatever allocations fail and whatever
    sizes bucket arrays get, every call returns what the map returns, and a walk over the
    elements afterwards meets every entry of the map exactly once, with the spelling and
    the data last inserted. *)
Theorem hash_refines_map (cs : list hash_call) (Hcs : calls_ok sqlite3HashInit cs) :
  fst (run_calls sqlite3HashInit cs) = fst (spec_calls ∅ cs) /\
  entries (snd (run_calls sqlite3HashInit cs)) ≡ₚ (map_to_list (snd (spec_calls ∅ cs))).*2.
Proof.
  destruct (calls_step cs sqlite3HashInit ∅ [] init_ok Hcs) as [E (order & Ho)]. split; [exact E|]. by eapply entries_perm.
Qed.

Definition demo_usable (n : Z) : option Z := if 0 <? n then Some (n + 4) else None.
Definition demo_insert (c d a : Z) : hash_call := CInsert [c; 0] d (Some a) demo_usable.
Definition demo_calls : list hash_call :=
  [demo_insert 97 1 20; demo_insert 98 2 40; demo_insert 99 3 60; demo_insert 100 4 80; demo_insert 101 5 100;
   demo_insert 102 6 120; CInsert [103; 0] 7 None demo_usable; demo_insert 67 33 140; demo_insert 66 0 140;
   CFind [65; 0]; CFind [98; 0]; CFind [99; 0]].
Lemma hash_refines_map_witness :
  fst (run_calls sqlite3HashInit demo_calls) = [0; 0; 0; 0; 0; 0; 7; 3; 2; 1; 0; 33] /\
  entries (snd (run_calls sqlite3HashInit demo_calls)) ≡ₚ (map_to_list (snd (spec_calls ∅ demo_calls))).*2.
Proof.
  assert (Hu : usable_ok demo_usable) by (intros n m; unfold demo_usable; destruct (Z.ltb_spec 0 n); intros [= <-]; lia).
  assert (Hk : forall c, is_u8 c -> c <> 0 -> is_key [c; 0]) by (intros c H1 H2; exists [c]; split; [by apply Forall_singleton|done]).
  change [0; 0; 0; 0; 0; 0; 7; 3; 2; 1; 0; 33] with (fst (spec_calls ∅ demo_calls)). apply hash_refines_map.
  cbn [calls_ok demo_calls call_ok demo_insert].
  repeat match goal with
  | |- usable_ok _ => exact Hu
  | |- is_key _ => apply Hk; by_compute
  | |- forall a, _ = Some a -> _ => let E := fresh in intros ? E; (discriminate E || (injection E as <-; split; by_compute))
  | |- _ /\ _ => split
  | |- True => exact I
  end.
Defined.
