(* ===== verification/MemJournal.v ===== *)
(** Journals in memory (memjournal.c): rollback and statement journals kept in a list of
    chunks until they outgrow a limit, when they are written to a real file.

    Chunks live in a heap indexed by address.  The file handle is either the in-memory
    journal or a handle of the VFS underneath, whose methods are functions over a state
    [W].  The theorems show that the handle behaves as a plain sequence of bytes, and that
    a failing spill leaves the journal as it was. *)

From S2P Require Import Prelude Heap.

Definition SQLITE_IOERR_SHORT_READ : Z := Z.lor SQLITE_IOERR (2 * 2 ^ 8).
Definition SQLITE_IOERR_NOMEM : Z := Z.lor SQLITE_IOERR (12 * 2 ^ 8).
Definition MEMJOURNAL_DFLT_FILECHUNKSIZE : Z := 1024.
(** [sizeof(FileChunk)]: a 32-bit pointer and eight bytes. *)
Definition sizeof_FileChunk : Z := 12.

Record FileChunk := mkChunk { pNext : Z; zChunk : list Z }.
#[global] Instance FileChunk_inhabited : Inhabited FileChunk := populate (mkChunk 0 []).
Record FilePoint := mkPoint { iOffset : Z; pChunk : Z }.
(** [isMem] says whether [pMethod] is [&MemJournalMethods]. *)
Record MemJournal := mkJournal {
  isMem : bool; nChunkSize : Z; nSpill : Z; pFirst : Z; endpoint : FilePoint; readpoint : FilePoint;
  flags : Z; zJournal : list Z }.
(** [memset(p, 0, sizeof(MemJournal))] *)
Definition zero_journal : MemJournal := mkJournal false 0 0 0 (mkPoint 0 0) (mkPoint 0 0) 0 [].

Abbreviation chunk := (block (A := FileChunk)).
Definition put_pNext (h : gmap Z FileChunk) (a v : Z) : gmap Z FileChunk := alter (fun c => mkChunk v (zChunk c)) a h.
Definition put_zChunk (h : gmap Z FileChunk) (a : Z) (z : list Z) : gmap Z FileChunk := alter (fun c => mkChunk (pNext c) z) a h.

(** [for(pChunk=p->pFirst; pChunk && (iOff+p->nChunkSize)<=iOfst; pChunk=pChunk->pNext)] *)
Fixpoint seek (fuel : nat) (h : gmap Z FileChunk) (n iOfst a iOff : Z) : Z :=
  match fuel with
  | O => a
  | S fuel' => if truthy a && (iOff + n <=? iOfst) then seek fuel' h n iOfst (pNext (chunk h a)) (iOff + n) else a
  end.
(** The [do] loop of [memjrnlRead]: the bytes copied and the last [pChunk]. *)
Fixpoint read_loop (fuel : nat) (h : gmap Z FileChunk) (n a iChunkOffset nRead : Z) : list Z * Z :=
  match fuel with
  | O => ([], a)
  | S fuel' =>
      let iSpace := n - iChunkOffset in
      let nCopy := Z.min nRead (n - iChunkOffset) in
      let z := slice (zChunk (chunk h a)) iChunkOffset nCopy in
      let nRead := nRead - iSpace in
      if 0 <=? nRead then
        let a' := pNext (chunk h a) in
        if truthy a' && (0 <? nRead) then let '(z', r) := read_loop fuel' h n a' 0 nRead in (z ++ z', r) else (z, a')
      else (z, a)
  end.

Section journal.
(** The methods of the VFS below: [xOpen] given the name and the flags, which also tells
    whether it leaves [pMethods] set, for that may be so after a failure, [xWrite] with its
    data and offset, [xRead], [xTruncate], [xFileSize], [xClose]. *)
Context {W : Type} (osOpen : W -> list Z -> Z -> Z * bool * W) (osWrite : W -> list Z -> Z -> Z * W)
  (osRead : W -> Z -> Z -> Z * list Z * W) (osTruncate : W -> Z -> Z * W) (osFileSize : W -> Z * Z) (osClose : W -> Z * W).

(** A file handle with the blocks of its journal and the world of the VFS. *)
Record jfile := mkFile { jrnl : MemJournal; heap : gmap Z FileChunk; real : W }.
Implicit Types st : jfile.

Definition memjrnlRead st (iAmt iOfst : Z) : Z * list Z * jfile :=
  let p := jrnl st in
  if iOffset (endpoint p) <? iAmt + iOfst then (SQLITE_IOERR_SHORT_READ, [], st) else
  let a := if negb (iOffset (readpoint p) =? iOfst) || (iOfst =? 0)
           then seek (size (heap st)) (heap st) (nChunkSize p) iOfst (pFirst p) 0
           else pChunk (readpoint p) in
  let '(z, a) := read_loop (S (size (heap st))) (heap st) (nChunkSize p) a (iOfst mod nChunkSize p) iAmt in
  (SQLITE_OK, z,
   mkFile (mkJournal (isMem p) (nChunkSize p) (nSpill p) (pFirst p) (endpoint p)
             (mkPoint (if truthy a then iOfst + iAmt else 0) a) (flags p) (zJournal p)) (heap st) (real st)).

Definition memjrnlFreeChunks (h : gmap Z FileChunk) (a : Z) : gmap Z FileChunk := free_list pNext (size h) h a.

(** The loop of [memjrnlCreateFile] over the chunks. *)
Fixpoint flush_loop (fuel : nat) (h : gmap Z FileChunk) (w : W) (endOff nChunk a iOff : Z) : Z * W :=
  match fuel with
  | O => (SQLITE_OK, w)
  | S fuel' =>
      if truthy a then
        let nChunk := if endOff <? iOff + nChunk then i32 (endOff - iOff) else nChunk in
        let '(rc, w) := osWrite w (slice (zChunk (chunk h a)) 0 nChunk) iOff in
        if truthy rc then (rc, w) else flush_loop fuel' h w endOff nChunk (pNext (chunk h a)) (iOff + nChunk)
      else (SQLITE_OK, w)
  end.
(** [sqlite3OsClose]: nothing to do for a handle without methods. *)
Definition sqlite3OsClose (pMethods : bool) (w : W) : W := if pMethods then snd (osClose w) else w.
Definition memjrnlCreateFile st : Z * jfile :=
  let copy := jrnl st in
  let '(rc, pMethods, w) := osOpen (real st) (zJournal copy) (flags copy) in
  let '(rc, w, h) :=
    if rc =? SQLITE_OK then
      let '(rc, w) := flush_loop (size (heap st)) (heap st) w (iOffset (endpoint copy)) (nChunkSize copy) (pFirst copy) 0 in
      (rc, w, if rc =? SQLITE_OK then memjrnlFreeChunks (heap st) (pFirst copy) else heap st)
    else (rc, w, heap st) in
  if negb (rc =? SQLITE_OK) then (rc, mkFile copy h (sqlite3OsClose pMethods w))
  else (rc, mkFile zero_journal h w).

(** [for(pIter=p->pFirst; pIter && iOff<size; pIter=pIter->pNext)] *)
Fixpoint trunc_seek (fuel : nat) (h : gmap Z FileChunk) (n size a iOff : Z) : Z :=
  match fuel with
  | O => a
  | S fuel' => if truthy a && (iOff <? size) then trunc_seek fuel' h n size (pNext (chunk h a)) (iOff + n) else a
  end.
Definition memjrnlTruncate st (sz : Z) : Z * jfile :=
  let p := jrnl st in
  if sz <? iOffset (endpoint p) then
    let '(pFirst', pIter, h) :=
      if sz =? 0 then (0, 0, memjrnlFreeChunks (heap st) (pFirst p))
      else
        let pIter := trunc_seek (size (heap st)) (heap st) (nChunkSize p) sz (pFirst p) (nChunkSize p) in
        (pFirst p, pIter,
         if truthy pIter then put_pNext (memjrnlFreeChunks (heap st) (pNext (chunk (heap st) pIter))) pIter 0 else heap st) in
    (SQLITE_OK, mkFile (mkJournal (isMem p) (nChunkSize p) (nSpill p) pFirst' (mkPoint sz pIter) (mkPoint 0 0) (flags p) (zJournal p)) h (real st))
  else (SQLITE_OK, st).

(** [malloc] is the answer to [sqlite3_malloc] in a given heap: nothing, or an address
    with the bytes that the block happens to hold. *)
Definition allocator : Type := gmap Z FileChunk -> option (Z * list Z).

(** [while( nWrite>0 )] *)
Fixpoint write_loop (fuel : nat) (malloc : allocator) st (zWrite : list Z) : Z * jfile :=
  match fuel with
  | O => (SQLITE_OK, st)
  | S fuel' =>
      if 0 <? zlen zWrite then
        let p := jrnl st in
        let iChunkOffset := iOffset (endpoint p) mod nChunkSize p in
        let iSpace := Z.min (zlen zWrite) (nChunkSize p - iChunkOffset) in
        let finish first a h :=
          let h := put_zChunk h a (splice (zChunk (chunk h a)) iChunkOffset (slice zWrite 0 iSpace)) in
          write_loop fuel' malloc
            (mkFile (mkJournal (isMem p) (nChunkSize p) (nSpill p) first (mkPoint (iOffset (endpoint p) + iSpace) a) (readpoint p) (flags p) (zJournal p)) h (real st))
            (drop (Z.to_nat iSpace) zWrite) in
        if iChunkOffset =? 0 then
          match malloc (heap st) with
          | None => (SQLITE_IOERR_NOMEM, st)
          | Some (pNew, bytes) =>
              let h := <[pNew := mkChunk 0 bytes]> (heap st) in
              if truthy (pChunk (endpoint p)) then finish (pFirst p) pNew (put_pNext h (pChunk (endpoint p)) pNew)
              else finish pNew pNew h
          end
        else finish (pFirst p) (pChunk (endpoint p)) (heap st)
      else (SQLITE_OK, st)
  end.

Definition os_write st (zBuf : list Z) (iOfst : Z) : Z * jfile :=
  let '(rc, w) := osWrite (real st) zBuf iOfst in (rc, mkFile (jrnl st) (heap st) w).
Definition memjrnlWrite (malloc : allocator) st (zBuf : list Z) (iOfst : Z) : Z * jfile :=
  let p := jrnl st in
  if (0 <? nSpill p) && (nSpill p <? zlen zBuf + iOfst) then
    let '(rc, st) := memjrnlCreateFile st in
    if rc =? SQLITE_OK then os_write st zBuf iOfst else (rc, st)
  else
    let st := if (0 <? iOfst) && negb (iOfst =? iOffset (endpoint p)) then snd (memjrnlTruncate st iOfst) else st in
    if (iOfst =? 0) && truthy (pFirst (jrnl st)) then
      (SQLITE_OK, mkFile (jrnl st) (put_zChunk (heap st) (pFirst (jrnl st)) (splice (zChunk (chunk (heap st) (pFirst (jrnl st)))) 0 zBuf)) (real st))
    else write_loop (length zBuf) malloc st zBuf.

Definition memjrnlFileSize st : Z := iOffset (endpoint (jrnl st)).
Definition memjrnlClose st : Z * jfile :=
  (SQLITE_OK, mkFile (jrnl st) (memjrnlFreeChunks (heap st) (pFirst (jrnl st))) (real st)).

Definition sqlite3JournalOpen (w : W) (zName : list Z) (flags nSpill : Z) : Z * jfile :=
  if nSpill =? 0 then let '(rc, _, w) := osOpen w zName flags in (rc, mkFile zero_journal ∅ w)
  else
    (SQLITE_OK,
     mkFile (mkJournal true (if 0 <? nSpill then nSpill else 8 + MEMJOURNAL_DFLT_FILECHUNKSIZE - sizeof_FileChunk) nSpill 0
               (mkPoint 0 0) (mkPoint 0 0) flags zName) ∅ w).
Definition sqlite3JournalIsInMemory st : bool := isMem (jrnl st).

(** Calls through the method table of the handle. *)
Definition xWrite (malloc : allocator) st (z : list Z) (iOfst : Z) : Z * jfile :=
  if isMem (jrnl st) then memjrnlWrite malloc st z iOfst else os_write st z iOfst.
Definition xRead st (iAmt iOfst : Z) : Z * list Z * jfile :=
  if isMem (jrnl st) then memjrnlRead st iAmt iOfst
  else let '(rc, z, w) := osRead (real st) iAmt iOfst in (rc, z, mkFile (jrnl st) (heap st) w).
Definition xTruncate st (sz : Z) : Z * jfile :=
  if isMem (jrnl st) then memjrnlTruncate st sz
  else let '(rc, w) := osTruncate (real st) sz in (rc, mkFile (jrnl st) (heap st) w).
Definition xFileSize st : Z * Z :=
  if isMem (jrnl st) then (SQLITE_OK, memjrnlFileSize st) else osFileSize (real st).

(** ** The bytes of a journal *)

Definition bytes_of (h : gmap Z FileChunk) (order : list Z) : list Z := mjoin ((fun a => zChunk (chunk h a)) <$> order).
Record mem_ok st (data : list Z) (order : list Z) : Prop := {
  m_mem : isMem (jrnl st) = true;
  m_size : 0 < nChunkSize (jrnl st);
  m_nodup : NoDup order;
  m_zero : 0 ∉ order;
  m_heap : forall a, a ∈ dom (heap st) <-> a ∈ order;
  m_chain : chain (links_of pNext (heap st)) (pFirst (jrnl st)) order 0;
  m_len : Forall (fun a => zlen (zChunk (chunk (heap st) a)) = nChunkSize (jrnl st)) order;
  m_off : iOffset (endpoint (jrnl st)) = zlen data;
  m_last : pChunk (endpoint (jrnl st)) = default 0 (last order);
  m_count : nChunkSize (jrnl st) * (zlen order - 1) < zlen data <= nChunkSize (jrnl st) * zlen order \/ (order = [] /\ data = []);
  m_data : exists junk, bytes_of (heap st) order = data ++ junk;
  m_read : iOffset (readpoint (jrnl st)) = 0 \/
    (0 < iOffset (readpoint (jrnl st)) /\
     order !! Z.to_nat (iOffset (readpoint (jrnl st)) / nChunkSize (jrnl st)) = Some (pChunk (readpoint (jrnl st))))
}.

(** What the operations leave alone. *)
Definition config (p : MemJournal) : bool * Z * Z * Z * list Z := (isMem p, nChunkSize p, nSpill p, flags p, zJournal p).

Lemma bytes_cons h a l : bytes_of h (a :: l) = zChunk (chunk h a) ++ bytes_of h l.
Proof. done. Qed.
Lemma bytes_app h l l' : bytes_of h (l ++ l') = bytes_of h l ++ bytes_of h l'.
Proof. unfold bytes_of. by rewrite fmap_app, join_app. Qed.
Lemma bytes_ext h h' l : (forall a, a ∈ l -> zChunk (chunk h' a) = zChunk (chunk h a)) -> bytes_of h' l = bytes_of h l.
Proof. intros H. unfold bytes_of. f_equal. apply list_fmap_ext. intros i a Ha. apply H, list_elem_of_lookup. by exists i. Qed.
Lemma bytes_len h l n : Forall (fun a => zlen (zChunk (chunk h a)) = n) l -> zlen (bytes_of h l) = n * zlen l.
Proof.
  induction 1 as [|a l Ha _ IH]; [unfold bytes_of, zlen; cbn; lia|]. rewrite bytes_cons. autorewrite with zlen. rewrite Ha, IH. lia.
Qed.

(** *** Reading *)

Lemma take_drop_slice {A} (l : list A) i n : slice l i n = take (Z.to_nat n) (drop (Z.to_nat i) l).
Proof. done. Qed.

Lemma seek_ok fuel h n iOfst a l k : chain (links_of pNext h) a l 0 -> 0 ∉ l -> 0 < n -> 0 <= k ->
  n * k <= iOfst -> iOfst / n < k + zlen l -> (length l <= fuel)%nat ->
  exists l1 l2, l = l1 ++ l2 /\ zlen l1 = iOfst / n - k /\ l2 <> [] /\ seek fuel h n iOfst a (n * k) = hd 0 l2.
Proof.
  intros Hc Hz Hn Hk. revert fuel a k Hc Hk. induction l as [|x l IH]; intros fuel a k Hc Hk Hlo Hhi Hf.
  - autorewrite with zlen in Hhi. exfalso. assert (k <= iOfst / n) by (apply Z.div_le_lower_bound; lia). lia.
  - destruct fuel as [|fuel]; cbn [length] in Hf; [lia|]. cbn in Hc. destruct Hc as [-> Hc]. rewrite not_elem_of_cons in Hz. destruct Hz as [Hx Hz].
    cbn [seek]. rewrite truthy_true by done. cbn [andb]. destruct (Z.leb_spec (n * k + n) iOfst) as [H|H].
    + replace (n * k + n) with (n * (k + 1)) in * by lia. autorewrite with zlen in Hhi.
      destruct (IH Hz fuel (links_of pNext h x) (k + 1)) as (l1 & l2 & -> & E1 & E2 & E3); [done|lia|lia|lia|lia|].
      exists (x :: l1), l2. split_and!; [done|autorewrite with zlen; lia|done|exact E3].
    + exists [], (x :: l). split_and!; [done| |done|done]. autorewrite with zlen.
      assert (iOfst / n = k) by (symmetry; apply Z.div_unique_pos with (iOfst - n * k); lia). lia.
Qed.

Lemma read_loop_ok fuel h n l off nRead a : chain (links_of pNext h) a l 0 -> 0 ∉ l -> 0 <= off < n -> 0 < nRead ->
  Forall (fun a => zlen (zChunk (chunk h a)) = n) l -> off + nRead <= n * zlen l -> (length l <= fuel)%nat ->
  exists r, read_loop fuel h n a off nRead = (slice (bytes_of h l) off nRead, r) /\
    ((exists l1 l2, l = l1 ++ l2 /\ r = hd 0 l2 /\ l2 <> [] /\ zlen l1 = (off + nRead) / n) \/ r = 0).
Proof.
  intros Hc Hz Ho Hr Hl. revert fuel off nRead a Hc Ho Hr. induction Hl as [|x l Hx Hl IH]; intros fuel off nRead a Hc Ho Hr Hb Hf.
  - autorewrite with zlen in Hb. lia.
  - destruct fuel as [|fuel]; cbn [length] in Hf; [lia|]. cbn in Hc. destruct Hc as [-> Hc]. rewrite not_elem_of_cons in Hz. destruct Hz as [Hx0 Hz].
    cbn [read_loop]. cbv zeta. rewrite bytes_cons. autorewrite with zlen in Hb. unfold zlen in Hx.
    assert (Es : nRead <= n - off -> slice (zChunk (chunk h x)) off (Z.min nRead (n - off)) = slice (zChunk (chunk h x) ++ bytes_of h l) off nRead).
    { intros H. rewrite Z.min_l by lia. unfold slice. rewrite drop_app_le by lia. by rewrite take_app_le by (rewrite length_drop; lia). }
    destruct (Z.leb_spec 0 (nRead - (n - off))) as [H|H].
    + change (pNext (chunk h x)) with (links_of pNext h x). pose proof (chain_hd _ _ _ _ Hc) as Eh.
      destruct (Z.ltb_spec 0 (nRead - (n - off))) as [H1|H1].
      * destruct l as [|y l]; [autorewrite with zlen in Hb; lia|]. cbn [hd] in Eh.
        rewrite truthy_true by (rewrite Eh; intros ->; apply Hz; by left). cbn [andb].
        destruct (IH Hz fuel 0 (nRead - (n - off)) (links_of pNext h x)) as (r & Er & Hr'); [done|lia|lia|lia|lia|].
        rewrite Er. exists r. split.
        -- f_equal. rewrite Z.min_r by lia. unfold slice. rewrite drop_app_le by lia.
           rewrite (take_app_ge (drop _ _)) by (rewrite length_drop; lia). f_equal; [apply take_ge; rewrite length_drop; lia|].
           cbn [drop]. f_equal. rewrite length_drop. lia.
        -- destruct Hr' as [(l1 & l2 & El & Er' & Hne & Hk)|Hr']; [left|by right]. exists (x :: l1), l2. split_and!; [cbn; by rewrite El|done|done|].
           autorewrite with zlen. rewrite Hk. replace (off + nRead) with (0 + (nRead - (n - off)) + 1 * n) by lia. rewrite Z.div_add by lia. lia.
      * rewrite andb_false_r. exists (links_of pNext h x). split; [by rewrite Es by lia|].
        destruct l as [|y l]; [by right|]. left. exists [x], (y :: l). split_and!; [done|done|done|].
        replace (off + nRead) with n by lia. rewrite Z.div_same by lia. done.
    + exists x. split; [by rewrite Es by lia|]. left. exists [], (x :: l). split_and!; [done|done|done|].
      rewrite Z.div_small by lia. done.
Qed.

Lemma mem_len st data order : mem_ok st data order -> zlen data <= nChunkSize (jrnl st) * zlen order.
Proof. intros H. destruct (m_count _ _ _ H) as [|[-> ->]]; [lia|]. unfold zlen. cbn. lia. Qed.
Lemma mem_size st data order : mem_ok st data order -> (length order <= size (heap st))%nat.
Proof. intros H. apply heap_size; [apply H|]. intros a. apply H. Qed.

Lemma slice_prefix {A} (l junk : list A) i n : 0 <= i -> 0 <= n -> i + n <= zlen l -> slice (l ++ junk) i n = slice l i n.
Proof.
  unfold zlen, slice. intros. rewrite drop_app_le by lia. by rewrite take_app_le by (rewrite length_drop; lia).
Qed.
Lemma slice_skip {A} (l l' : list A) i n : zlen l <= i -> slice (l ++ l') i n = slice l' (i - zlen l) n.
Proof.
  unfold zlen, slice. intros. rewrite drop_app_ge by lia. do 2 f_equal. lia.
Qed.

Lemma memjrnlRead_short st iAmt iOfst : iOffset (endpoint (jrnl st)) < iAmt + iOfst ->
  memjrnlRead st iAmt iOfst = (SQLITE_IOERR_SHORT_READ, [], st).
Proof. intros H. unfold memjrnlRead. by rewrite (proj2 (Z.ltb_lt _ _)). Qed.

Lemma memjrnlRead_ok st data order iAmt iOfst : mem_ok st data order -> 0 < iAmt -> 0 <= iOfst -> iAmt + iOfst <= zlen data ->
  exists st', memjrnlRead st iAmt iOfst = (SQLITE_OK, slice data iOfst iAmt, st') /\ mem_ok st' data order /\ real st' = real st /\ config (jrnl st') = config (jrnl st).
Proof.
  intros Ho Ha Hi Hb. pose proof Ho as [Hm Hn Hnd Hz Hh Hc Hl Hoff Hlast Hcnt [junk Hj] Hr].
  pose proof (mem_len _ _ _ Ho) as Hlen. pose proof (mem_size _ _ _ Ho) as Hsz.
  unfold memjrnlRead. rewrite (proj2 (Z.ltb_ge _ _)) by lia. set (n := nChunkSize (jrnl st)) in *.
  assert (Hidx : 0 <= iOfst / n < zlen order) by (split; [apply Z.div_pos; lia|apply Z.div_lt_upper_bound; lia]).
  match goal with |- context [read_loop _ _ _ ?x _ _] => set (a := x) end.
  assert (exists l1 l2, order = l1 ++ l2 /\ zlen l1 = iOfst / n /\ l2 <> [] /\ a = hd 0 l2) as (l1 & l2 & El & E1 & Hne & Ea).
  { unfold a. destruct (negb _ || _) eqn:E.
    - destruct (seek_ok (size (heap st)) (heap st) n iOfst (pFirst (jrnl st)) order 0) as (l1 & l2 & H1 & H2 & H3 & H4);
        [done|done|lia|lia|lia|lia|lia|]. rewrite Z.mul_0_r in H4. exists l1, l2. split_and!; [done|lia|done|done].
    - apply orb_false_iff in E as [E1%negb_false_iff%Z.eqb_eq E2%Z.eqb_neq]. destruct Hr as [Hr|[_ Hr]]; [lia|].
      rewrite E1 in Hr. exists (take (Z.to_nat (iOfst / n)) order), (drop (Z.to_nat (iOfst / n)) order).
      rewrite (drop_S _ _ _ Hr). split_and!; [by rewrite <- (drop_S _ _ _ Hr), take_drop| |done|done].
      unfold zlen in *. rewrite length_take. lia. }
  rewrite El in Hc, Hl. apply chain_app in Hc as (b & Hc1 & Hc2). pose proof (chain_hd _ _ _ _ Hc2) as Eb. rewrite <- Ea in Eb. subst b.
  apply Forall_app in Hl as [Hl1 Hl2].
  assert (Hmod : 0 <= iOfst mod n < n) by (apply Z.mod_pos_bound; lia).
  assert (Eo : iOfst = n * zlen l1 + iOfst mod n) by (rewrite E1; apply Z.div_mod; lia).
  assert (Hzl : zlen order = zlen l1 + zlen l2) by (rewrite El; by autorewrite with zlen).
  destruct (read_loop_ok (S (size (heap st))) (heap st) n l2 (iOfst mod n) iAmt a) as (r & Er & Hr2); [done| |done|done|done| | |].
  { intros H. apply Hz. rewrite El. apply elem_of_app. by right. }
  { rewrite Hzl in Hlen. nia. }
  { unfold zlen in Hzl. lia. }
  rewrite Er. eexists. split; [|split].
  - f_equal. f_equal. pose proof (bytes_len _ _ _ Hl1) as Hb1. rewrite El, bytes_app in Hj.
    transitivity (slice (data ++ junk) iOfst iAmt); [|apply slice_prefix; lia]. rewrite <- Hj, slice_skip by lia. f_equal. lia.
  - constructor; cbn [jrnl isMem nChunkSize pFirst endpoint readpoint heap]; try done.
    + by rewrite El; apply chain_app; exists a.
    + rewrite El. by apply Forall_app.
    + by exists junk.
    + destruct Hr2 as [(l3 & l4 & E2 & -> & Hne4 & E3)| ->]; [right|by left]. cbn [iOffset pChunk].
      assert (hd 0 l4 ∈ order) by (rewrite El, E2; destruct l4; [done|]; rewrite !elem_of_app; right; right; by left).
      rewrite truthy_true by (by intros E; rewrite E in *). split; [lia|].
      rewrite El, E2, app_assoc. replace (Z.to_nat ((iOfst + iAmt) / n)) with (length (l1 ++ l3)).
      * destruct l4; [done|]. by rewrite list_lookup_middle.
      * assert ((iOfst + iAmt) / n = zlen l1 + zlen l3).
        { rewrite E3, E1. replace (iOfst + iAmt) with ((iOfst mod n + iAmt) + (iOfst / n) * n) by lia. rewrite Z.div_add by lia. lia. }
        unfold zlen in *. rewrite length_app. lia.
  - done.
Qed.

(** *** Truncation *)

Lemma trunc_seek_ok fuel h n size a l k : chain (links_of pNext h) a l 0 -> 0 ∉ l -> 0 < n ->
  n * (k - 1) < size -> size <= n * (k + zlen l - 1) -> (length l <= fuel)%nat ->
  exists l1 x l2, l = l1 ++ x :: l2 /\ n * (k + zlen l1 - 1) < size <= n * (k + zlen l1) /\ trunc_seek fuel h n size a (n * k) = x.
Proof.
  intros Hc Hz Hn. revert fuel a k Hc. induction l as [|x l IH]; intros fuel a k Hc Hlo Hhi Hf.
  - autorewrite with zlen in Hhi. nia.
  - destruct fuel as [|fuel]; cbn [length] in Hf; [lia|]. cbn in Hc. destruct Hc as [-> Hc]. rewrite not_elem_of_cons in Hz. destruct Hz as [Hx Hz].
    cbn [trunc_seek]. rewrite truthy_true by done. cbn [andb]. destruct (Z.ltb_spec (n * k) size) as [H|H].
    + replace (n * k + n) with (n * (k + 1)) by lia. autorewrite with zlen in Hhi.
      destruct (IH Hz fuel (links_of pNext h x) (k + 1)) as (l1 & y & l2 & -> & E1 & E2); [done|nia|nia|lia|].
      exists (x :: l1), y, l2. split_and!; [done|autorewrite with zlen; nia|autorewrite with zlen; nia|exact E2].
    + exists [], x, l. split_and!; [done|autorewrite with zlen; nia|autorewrite with zlen; nia|done].
Qed.

Section updates.
Implicit Types h : gmap Z FileChunk.
Lemma zChunk_put_pNext h a v x : zChunk (chunk (put_pNext h a v) x) = zChunk (chunk h x).
Proof. unfold block, put_pNext. destruct (decide (x = a)) as [->|]; [rewrite lookup_alter_eq; by destruct (h !! a)|by rewrite lookup_alter_ne]. Qed.
Lemma next_put_zChunk h a z x : links_of pNext (put_zChunk h a z) x = links_of pNext h x.
Proof. unfold links_of, block, put_zChunk. destruct (decide (x = a)) as [->|]; [rewrite lookup_alter_eq; by destruct (h !! a)|by rewrite lookup_alter_ne]. Qed.
Lemma next_put_pNext h a v x : a ∈ dom h -> links_of pNext (put_pNext h a v) x = if decide (x = a) then v else links_of pNext h x.
Proof.
  intros [c E]%elem_of_dom. unfold links_of, block, put_pNext. case_decide; [subst; by rewrite lookup_alter_eq, E|by rewrite lookup_alter_ne].
Qed.
Lemma zChunk_put_zChunk h a z x : a ∈ dom h -> zChunk (chunk (put_zChunk h a z) x) = if decide (x = a) then z else zChunk (chunk h x).
Proof.
  intros [c E]%elem_of_dom. unfold block, put_zChunk. case_decide; [subst; by rewrite lookup_alter_eq, E|by rewrite lookup_alter_ne].
Qed.
Lemma dom_put_pNext h a v : dom (put_pNext h a v) = dom h.
Proof. apply dom_alter_L. Qed.
Lemma dom_put_zChunk h a z : dom (put_zChunk h a z) = dom h.
Proof. apply dom_alter_L. Qed.
End updates.

Lemma exists_last_or_nil {A} (l : list A) : l = [] \/ exists l' x, l = l' ++ [x].
Proof. destruct l as [|x l _] using rev_ind; eauto. Qed.
(** The end of a chain is redirected. *)
Lemma chain_redirect N N' a l x q q' : chain N a (l ++ [x]) q -> NoDup (l ++ [x]) -> N' x = q' ->
  (forall y, y ∈ l -> N' y = N y) -> chain N' a (l ++ [x]) q'.
Proof.
  intros (b & Hc & Hx)%chain_app Hn Hq He. apply chain_app. exists b. split; [by eapply chain_ext|]. cbn in *. destruct Hx as [-> _]. done.
Qed.

Lemma prefix_cut {A} (l l' d j : list A) s : l ++ l' = d ++ j -> 0 <= s -> s <= zlen l -> s <= zlen d ->
  exists j', l = take (Z.to_nat s) d ++ j'.
Proof.
  unfold zlen. intros E Hs Hl Hd. exists (drop (Z.to_nat s) l). rewrite <- (take_app_le d j) by lia. rewrite <- E, take_app_le by lia.
  by rewrite take_drop.
Qed.


Lemma memjrnlTruncate_ok st data order sz : mem_ok st data order -> 0 <= sz ->
  exists st' order', memjrnlTruncate st sz = (SQLITE_OK, st') /\ mem_ok st' (take (Z.to_nat sz) data) order' /\
    real st' = real st /\ config (jrnl st') = config (jrnl st).
Proof.
  intros Ho Hs. pose proof Ho as [Hm Hn Hnd Hz Hh Hc Hl Hoff Hlast Hcnt [junk Hj] Hr].
  pose proof (mem_len _ _ _ Ho) as Hlen. pose proof (mem_size _ _ _ Ho) as Hsz.
  unfold memjrnlTruncate. rewrite Hoff. set (n := nChunkSize (jrnl st)) in *.
  destruct (Z.ltb_spec sz (zlen data)) as [H|H]; [|exists st, order; rewrite take_ge by (unfold zlen in H; lia); done].
  destruct (Z.eqb_spec sz 0) as [->|Hs0].
  - destruct (free_list_chain pNext (size (heap st)) _ _ _ Hc Hnd Hz Hsz) as [Hd _].
    eexists _, []. split; [reflexivity|]. split; [|done]. constructor; cbn; try done.
    + constructor.
    + apply not_elem_of_nil.
    + intros a. unfold memjrnlFreeChunks. rewrite Hd, elem_of_difference, elem_of_list_to_set, Hh. set_solver.
    + by right.
    + by exists [].
    + by left.
  - destruct (trunc_seek_ok (size (heap st)) (heap st) n sz (pFirst (jrnl st)) order 1) as (l1 & x & l2 & El & Hk & Ex);
      [done|done|lia|lia|lia|lia|]. rewrite Z.mul_1_r in Ex. rewrite Ex.
    assert (Hx0 : x <> 0) by (intros ->; apply Hz; rewrite El, elem_of_app; right; by left).
    rewrite truthy_true by done. rewrite El in Hc, Hnd, Hl. pose proof Hc as (b & Hc1 & Hc2)%chain_app. cbn in Hc2. destruct Hc2 as [-> Hc2].
    change (pNext (chunk (heap st) x)) with (links_of pNext (heap st) x).
    apply NoDup_app in Hnd as (Hnd1 & Hnd2 & [Hx2 Hnd3]%NoDup_cons).
    destruct (free_list_chain pNext (size (heap st)) _ _ _ Hc2 Hnd3) as [Hd Hlk].
    { intros Hi. apply Hz. rewrite El, elem_of_app, elem_of_cons. tauto. }
    { rewrite El, length_app in Hsz. cbn in Hsz. lia. }
    unfold memjrnlFreeChunks. set (h' := free_list _ _ _ _) in *.
    assert (Hkeep : forall y, y ∈ l1 ++ [x] -> chunk h' y = chunk (heap st) y).
    { intros y Hy. unfold block. rewrite Hlk; [done|]. rewrite elem_of_app, list_elem_of_singleton in Hy. destruct Hy as [Hy| ->]; [|done].
      intros Hy2. apply (Hnd2 y Hy). by right. }
    assert (Hxd : x ∈ dom h') by (rewrite Hd, elem_of_difference, elem_of_list_to_set, Hh, El, elem_of_app, elem_of_cons; tauto).
    assert (Hnd' : NoDup (l1 ++ [x])).
    { apply NoDup_app. split_and!; [done| |apply NoDup_singleton]. intros y Hy ->%list_elem_of_singleton. apply (Hnd2 x Hy). by left. }
    pose proof Hl as [Hla [Hlx _]%Forall_cons]%Forall_app.
    eexists _, (l1 ++ [x]). split; [reflexivity|]. split; [|done]. constructor; cbn; try done.
    + intros Hi. apply Hz. rewrite El, elem_of_app, elem_of_cons. rewrite elem_of_app, list_elem_of_singleton in Hi. tauto.
    + intros y. rewrite dom_put_pNext, Hd, elem_of_difference, elem_of_list_to_set, Hh, El, !elem_of_app, elem_of_cons, list_elem_of_singleton.
      split; [tauto|]. intros [Hy| ->]; [|tauto]. split; [tauto|]. intros Hy2. apply (Hnd2 y Hy). by right.
    + eapply chain_redirect; [|done| |].
      * apply chain_app. exists x. split; [exact Hc1|]. cbn. split; [done|reflexivity].
      * rewrite next_put_pNext by done. by rewrite decide_True.
      * intros y Hy. rewrite next_put_pNext by done. rewrite decide_False by (intros ->; apply (Hnd2 x Hy); by left).
        unfold links_of. rewrite Hkeep; [done|]. apply elem_of_app. by left.
    + apply Forall_forall. intros y Hy. rewrite zChunk_put_pNext, Hkeep by done. rewrite elem_of_app, list_elem_of_singleton in Hy.
      rewrite Forall_forall in Hla. destruct Hy as [Hy| ->]; [by apply Hla|done].
    + unfold zlen in *. rewrite length_take. lia.
    + by rewrite last_snoc.
    + left. autorewrite with zlen. assert (zlen (take (Z.to_nat sz) data) = sz) as -> by (unfold zlen in *; rewrite length_take; lia). nia.
    + assert (Hb : bytes_of (put_pNext h' x 0) (l1 ++ [x]) = bytes_of (heap st) (l1 ++ [x])).
      { apply bytes_ext. intros y Hy. by rewrite zChunk_put_pNext, Hkeep. }
      rewrite Hb. apply (prefix_cut _ (bytes_of (heap st) l2) data junk); [|lia| |lia].
      * rewrite <- bytes_app, <- Hj, El, <- app_assoc. done.
      * rewrite (bytes_len _ _ n) by (apply Forall_app; split; [done|by constructor]). autorewrite with zlen. lia.
    + by left.
Qed.

(** *** Writing *)

(** A block from the allocator is not NULL, not in use, and has room for a chunk. *)
Definition malloc_ok (malloc : allocator) (n : Z) : Prop :=
  forall h a bytes, malloc h = Some (a, bytes) -> a <> 0 /\ (a ∉ dom h) /\ zlen bytes = n.

Lemma splice_bytes (c pre s : list Z) off : zlen pre = off -> off + zlen s <= zlen c -> (exists j, c = pre ++ j) ->
  exists j, splice c off s = pre ++ s ++ j.
Proof.
  unfold zlen, splice. intros <- Hs [j ->]. rewrite Nat2Z.id, take_app_length. eexists. reflexivity.
Qed.

(** The journal after [s] is copied behind its end, into chunk [a], the last one. *)
Lemma mem_extend st st' data s l a order :
  mem_ok st data order -> config (jrnl st') = config (jrnl st) -> readpoint (jrnl st') = readpoint (jrnl st) ->
  endpoint (jrnl st') = mkPoint (zlen (data ++ s)) a -> order `prefix_of` (l ++ [a]) -> NoDup (l ++ [a]) -> 0 ∉ l ++ [a] ->
  (forall x, x ∈ dom (heap st') <-> x ∈ l ++ [a]) -> chain (links_of pNext (heap st')) (pFirst (jrnl st')) (l ++ [a]) 0 ->
  Forall (fun a => zlen (zChunk (chunk (heap st') a)) = nChunkSize (jrnl st)) (l ++ [a]) ->
  (exists junk, bytes_of (heap st') (l ++ [a]) = (data ++ s) ++ junk) ->
  nChunkSize (jrnl st) * zlen l < zlen (data ++ s) ->
  mem_ok st' (data ++ s) (l ++ [a]).
Proof.
  intros Ho Hcf Hrp Hep [k Hk] Hnd Hz Hh Hc Hl [junk Hj] Hgt. injection Hcf as E1 E2 E3 E4 E5.
  pose proof (bytes_len _ _ _ Hl) as Hb. rewrite Hj in Hb. autorewrite with zlen in Hb.
  constructor; rewrite ?E1, ?E2, ?Hep, ?Hrp; cbn [iOffset pChunk]; try done; try apply Ho.
  - by rewrite last_snoc.
  - left. autorewrite with zlen in *. pose proof (zlen_nonneg junk). nia.
  - by exists junk.
  - destruct (m_read _ _ _ Ho) as [|[Hr1 Hr2]]; [by left|right]. split; [done|]. rewrite Hk. by apply lookup_app_l_Some.
Qed.

Lemma fresh_chunk st data order malloc a bytes : mem_ok st data order -> malloc_ok malloc (nChunkSize (jrnl st)) ->
  malloc (heap st) = Some (a, bytes) -> a <> 0 /\ (a ∉ order) /\ zlen bytes = nChunkSize (jrnl st).
Proof. intros Ho Hmal E. destruct (Hmal _ _ _ E) as (H1 & H2 & H3). split_and!; [done| |done]. intros H. by apply H2, Ho. Qed.

(** A journal whose chunks are full gets one more. *)
Lemma write_new st data order malloc a bytes s : mem_ok st data order -> malloc_ok malloc (nChunkSize (jrnl st)) ->
  malloc (heap st) = Some (a, bytes) -> zlen data mod nChunkSize (jrnl st) = 0 -> 0 < zlen s <= nChunkSize (jrnl st) ->
  let p := jrnl st in
  let h := <[a := mkChunk 0 bytes]> (heap st) in
  let h1 := if truthy (pChunk (endpoint p)) then put_pNext h (pChunk (endpoint p)) a else h in
  let first := if truthy (pChunk (endpoint p)) then pFirst p else a in
  mem_ok (mkFile (mkJournal (isMem p) (nChunkSize p) (nSpill p) first (mkPoint (zlen (data ++ s)) a) (readpoint p) (flags p) (zJournal p))
            (put_zChunk h1 a (splice (zChunk (chunk h1 a)) 0 s)) (real st)) (data ++ s) (order ++ [a]).
Proof.
  intros Ho Hmal Em Hmod Hs p h h1 first. destruct (fresh_chunk _ _ _ _ _ _ Ho Hmal Em) as (Ha0 & Hao & Hbl).
  pose proof Ho as [Hm Hn Hnd Hz Hh Hc Hl Hoff Hlast Hcnt [junk Hj] Hr]. fold p in Hn, Hcnt, Hl, Hmod, Hs, Hbl, Hlast, Hc.
  assert (Hfull : zlen data = nChunkSize p * zlen order).
  { destruct Hcnt as [Hcnt|[-> ->]]; [|unfold zlen; cbn; lia]. apply Z.mod_divide in Hmod as [q Hq]; [|lia].
    assert (zlen order - 1 < q) by nia. assert (q <= zlen order) by nia. assert (q = zlen order) as -> by lia. lia. }
  assert (junk = []) as ->.
  { pose proof (bytes_len _ _ _ Hl) as Hb. rewrite Hj in Hb. autorewrite with zlen in Hb. destruct junk; [done|].
    autorewrite with zlen in Hb. pose proof (zlen_nonneg junk). lia. }
  rewrite app_nil_r in Hj.
  assert (Hc1 : forall x, zChunk (chunk h1 x) = if decide (x = a) then bytes else zChunk (chunk (heap st) x)).
  { intros x. transitivity (zChunk (chunk h x)); [unfold h1; destruct (truthy _); by rewrite ?zChunk_put_pNext|].
    unfold h. rewrite block_insert. by case_decide. }
  assert (Hd1 : dom h1 = {[a]} ∪ dom (heap st)).
  { unfold h1. destruct (truthy _); rewrite ?dom_put_pNext; unfold h; by rewrite dom_insert_L. }
  rewrite Hc1, decide_True by done. set (z0 := splice bytes 0 s).
  assert (Hz0 : zlen z0 = nChunkSize p) by (unfold z0; rewrite zlen_splice; lia).
  assert (Hc2 : forall x, zChunk (chunk (put_zChunk h1 a z0) x) = if decide (x = a) then z0 else zChunk (chunk (heap st) x)).
  { intros x. rewrite zChunk_put_zChunk by (rewrite Hd1; set_solver). rewrite Hc1. by case_decide. }
  assert (Hnew : NoDup (order ++ [a])).
  { apply NoDup_app. split_and!; [done| |apply NoDup_singleton]. by intros x Hx ->%list_elem_of_singleton. }
  assert (Hx : forall x, x ∈ order -> x <> a) by (by intros x Hx ->).
  apply (mem_extend st _ data s order a order); cbn [jrnl heap]; try done.
  - by apply prefix_app_r.
  - rewrite elem_of_app, list_elem_of_singleton. intros [H|H]; [done|congruence].
  - intros x. rewrite dom_put_zChunk, Hd1, elem_of_union, elem_of_singleton, Hh, elem_of_app, list_elem_of_singleton. tauto.
  - apply (chain_ext (links_of pNext h1)); [intros x _; apply next_put_zChunk|].
    assert (Hnx : forall x, x <> a -> links_of pNext h x = links_of pNext (heap st) x).
    { intros x Hxa. unfold links_of, h. by rewrite block_insert, decide_False. }
    assert (Hna : links_of pNext h a = 0) by (unfold links_of, h; rewrite block_insert, decide_True by done; done).
    unfold h1, first. rewrite Hlast. cbn [pFirst]. destruct (exists_last_or_nil order) as [->|(l & x & ->)].
    + done.
    + rewrite last_snoc. cbn [default].
      assert (Hx0 : x <> 0) by (intros ->; apply Hz, elem_of_app; right; by left).
      assert (Hxa : x <> a) by (apply Hx, elem_of_app; right; by left).
      rewrite truthy_true by done.
      assert (Hxd : x ∈ dom h) by (unfold h; rewrite dom_insert, elem_of_union, Hh, elem_of_app; right; right; by left).
      apply chain_app. exists a. split.
      * eapply chain_redirect; [exact Hc|done|rewrite next_put_pNext by done; by rewrite decide_True|].
        intros y Hy. rewrite next_put_pNext by done. apply NoDup_app in Hnd as (_ & Hnd & _).
        rewrite decide_False by (intros ->; apply (Hnd x Hy); by left). apply Hnx, Hx, elem_of_app. by left.
      * split; [done|]. cbn [chain]. rewrite next_put_pNext by done. by rewrite decide_False.
  - apply Forall_forall. intros x Hxi. rewrite Hc2. case_decide; [done|]. rewrite Forall_forall in Hl. apply Hl.
    rewrite elem_of_app, list_elem_of_singleton in Hxi. tauto.
  - rewrite bytes_app. rewrite (bytes_ext (heap st)) by (intros x Hxi; rewrite Hc2, decide_False by (by apply Hx); done).
    rewrite Hj. unfold bytes_of at 1. cbn. rewrite Hc2, decide_True by done. unfold z0, splice. cbn. exists (drop (length s) bytes).
    by rewrite app_nil_r, <- app_assoc.
  - fold p. autorewrite with zlen. lia.
Qed.

(** A journal whose last chunk has room gets [s] there. *)
Lemma write_room st data order s off : mem_ok st data order -> off = zlen data mod nChunkSize (jrnl st) -> off <> 0 ->
  0 < zlen s <= nChunkSize (jrnl st) - off ->
  let p := jrnl st in let a := pChunk (endpoint p) in
  mem_ok (mkFile (mkJournal (isMem p) (nChunkSize p) (nSpill p) (pFirst p) (mkPoint (zlen (data ++ s)) a) (readpoint p) (flags p) (zJournal p))
            (put_zChunk (heap st) a (splice (zChunk (chunk (heap st) a)) off s)) (real st)) (data ++ s) order.
Proof.
  intros Ho Eoff Hoff0 Hs p a. pose proof Ho as [Hm Hn Hnd Hz Hh Hc Hl Hoff Hlast Hcnt [junk Hj] Hr]. fold p in Hn, Hcnt, Hl, Hs, Hlast, Hc, Eoff.
  assert (Hor : 0 <= off < nChunkSize p) by (subst off; apply Z.mod_pos_bound; lia).
  destruct (exists_last_or_nil order) as [->|(l & x & ->)].
  { exfalso. assert (zlen data = 0) as E by (destruct Hcnt as [Hcnt|[_ ->]]; [unfold zlen in *; cbn in Hcnt; lia|done]).
    rewrite E, Zmod_0_l in Eoff. done. }
  assert (Ea : a = x) by (unfold a; rewrite Hlast, last_snoc; done). rewrite Ea. clear a Ea.
  destruct Hcnt as [Hcnt|[E _]]; [|by apply app_eq_nil in E as [_ E]]. autorewrite with zlen in Hcnt.
  pose proof Hl as [Hla [Hlx _]%Forall_cons]%Forall_app. pose proof (bytes_len _ _ _ Hla) as Hb.
  assert (Ed : zlen data = nChunkSize p * zlen l + off).
  { pose proof (Z.div_mod (zlen data) (nChunkSize p) ltac:(lia)) as Hdm. rewrite <- Eoff in Hdm.
    assert (zlen data / nChunkSize p = zlen l) as Eq; [|rewrite Eq in Hdm; lia].
    symmetry. apply Z.div_unique_pos with (zlen data - nChunkSize p * zlen l); [|lia].
    assert (zlen (@nil Z) = 0) by done. destruct (Z.eq_dec (zlen data) (nChunkSize p * (zlen l + 1))) as [E|]; [|lia].
    exfalso. apply Hoff0. rewrite Eoff, E, Z.mul_comm. by apply Z.mod_mul; lia. }
  rewrite bytes_app in Hj. unfold bytes_of at 2 in Hj. cbn in Hj. rewrite app_nil_r in Hj.
  assert (exists c1, data = bytes_of (heap st) l ++ c1 /\ exists j, zChunk (chunk (heap st) x) = c1 ++ j /\ junk = j) as (c1 & Ec1 & j & Ej & ->).
  { exists (drop (length (bytes_of (heap st) l)) data). unfold zlen in *.
    assert (Et : take (length (bytes_of (heap st) l)) data = bytes_of (heap st) l).
    { rewrite <- (take_app_le data junk) by lia. rewrite <- Hj. by rewrite take_app_length. }
    assert (Ed2 : data = bytes_of (heap st) l ++ drop (length (bytes_of (heap st) l)) data).
    { rewrite <- (take_drop (length (bytes_of (heap st) l)) data) at 1. by rewrite Et. }
    split; [exact Ed2|]. exists junk. split; [|done].
    apply (app_inv_head (bytes_of (heap st) l)). rewrite Hj, app_assoc. by rewrite <- Ed2. }
  assert (Hc1l : zlen c1 = off) by (rewrite Ec1 in Ed; autorewrite with zlen in Ed; lia).
  assert (Hxd : x ∈ dom (heap st)) by (apply Hh, elem_of_app; right; by left).
  set (z := splice (zChunk (chunk (heap st) x)) off s).
  assert (Hzl : zlen z = nChunkSize p) by (unfold z; rewrite zlen_splice; lia).
  assert (Hxl : forall y, y ∈ l -> y <> x).
  { intros y Hy ->. apply NoDup_app in Hnd as (_ & Hnd & _). apply (Hnd x Hy). by left. }
  apply (mem_extend st _ data s l x (l ++ [x])); cbn [jrnl heap]; try done.
  - intros y. by rewrite dom_put_zChunk, Hh.
  - apply (chain_ext (links_of pNext (heap st))); [intros y _; apply next_put_zChunk|done].
  - apply Forall_app. split; [|constructor; [|done]].
    + apply Forall_forall. intros y Hy. rewrite zChunk_put_zChunk, decide_False by auto. rewrite Forall_forall in Hla. by apply Hla.
    + by rewrite zChunk_put_zChunk, decide_True.
  - rewrite bytes_app. rewrite (bytes_ext (heap st)) by (intros y Hy; rewrite zChunk_put_zChunk, decide_False by auto; done).
    unfold bytes_of at 2. cbn. rewrite app_nil_r, zChunk_put_zChunk, decide_True by done.
    destruct (splice_bytes (zChunk (chunk (heap st) x)) c1 s off) as [j' Ej']; [done|lia|by exists j|].
    exists j'. unfold z. rewrite Ej', Ec1, !app_assoc. done.
  - fold p. autorewrite with zlen. lia.
Qed.

(** The loop of [memjrnlWrite]: all of [z] is appended, or memory ran out and a prefix of
    it is. *)
Lemma write_loop_ok fuel malloc st data order z : mem_ok st data order -> malloc_ok malloc (nChunkSize (jrnl st)) ->
  (length z <= fuel)%nat ->
  exists rc st' order' k, write_loop fuel malloc st z = (rc, st') /\ (rc = SQLITE_OK /\ k = length z \/ rc = SQLITE_IOERR_NOMEM) /\
    mem_ok st' (data ++ take k z) order' /\ real st' = real st /\ config (jrnl st') = config (jrnl st).
Proof.
  revert st data order z. induction fuel as [|fuel IH]; intros st data order z Ho Hmal Hf.
  { destruct z; [|cbn in Hf; lia]. eexists _, st, order, 0%nat. split; [reflexivity|]. rewrite app_nil_r. split; [by left|done]. }
  cbn [write_loop]. destruct (Z.ltb_spec 0 (zlen z)) as [Hz|Hz].
  2:{ destruct z; [|autorewrite with zlen in Hz; pose proof (zlen_nonneg z0); lia]. eexists _, st, order, 0%nat. split; [reflexivity|]. rewrite app_nil_r. split; [by left|done]. }
  cbv zeta. rewrite (m_off _ _ _ Ho). set (p := jrnl st) in *. set (off := zlen data mod nChunkSize p).
  pose proof (m_size _ _ _ Ho) as Hn. fold p in Hn.
  assert (Hor : 0 <= off < nChunkSize p) by (apply Z.mod_pos_bound; lia).
  set (n := Z.min (zlen z) (nChunkSize p - off)). set (s := slice z 0 n).
  assert (Hs : zlen s = n) by (unfold s; apply zlen_slice; lia).
  assert (Hnext : forall st1 order1, mem_ok st1 (data ++ s) order1 -> real st1 = real st -> config (jrnl st1) = config (jrnl st) ->
    exists rc st' order' k, write_loop fuel malloc st1 (drop (Z.to_nat n) z) = (rc, st') /\ (rc = SQLITE_OK /\ k = length z \/ rc = SQLITE_IOERR_NOMEM) /\
      mem_ok st' (data ++ take k z) order' /\ real st' = real st /\ config (jrnl st') = config (jrnl st)).
  { intros st1 order1 Ho1 Er Ec. assert (En : nChunkSize (jrnl st1) = nChunkSize (jrnl st)) by (unfold config in Ec; congruence).
    destruct (IH st1 (data ++ s) order1 (drop (Z.to_nat n) z) Ho1) as (rc & st' & order' & k & E1 & E2 & E3 & E4 & E5).
    - by rewrite En.
    - rewrite length_drop. unfold zlen in *. lia.
    - exists rc, st', order', (Z.to_nat n + k)%nat. split_and!; [done| | |congruence|congruence].
      + destruct E2 as [[-> ->]|]; [left|by right]. split; [done|]. rewrite length_drop. unfold zlen in *. lia.
      + rewrite <- app_assoc in E3. unfold s, slice in E3. cbn [drop Z.to_nat] in E3. by rewrite take_take_drop in E3. }
  replace (zlen data + n) with (zlen (data ++ s)) by (autorewrite with zlen; lia).
  assert (Hs1 : 0 < zlen s <= nChunkSize (jrnl st) - off) by (fold p; lia).
  assert (Hs2 : 0 < zlen s <= nChunkSize (jrnl st)) by (fold p; lia).
  destruct (Z.eqb_spec off 0) as [E0|E0].
  - destruct (malloc (heap st)) as [[a bytes]|] eqn:Em.
    + pose proof (write_new st data order malloc a bytes s Ho Hmal Em E0 Hs2) as Hw. cbv zeta in Hw. fold p in Hw. rewrite E0.
      destruct (truthy (pChunk (endpoint p))); (eapply Hnext; [exact Hw|done|done]).
    + eexists _, st, order, 0%nat. split; [reflexivity|]. rewrite take_0, app_nil_r. split; [by right|done].
  - pose proof (write_room st data order s off Ho eq_refl E0 Hs1) as Hw. cbv zeta in Hw. fold p in Hw.
    eapply Hnext; [exact Hw|done|done].
Qed.

Lemma mem_empty st data order : mem_ok st data order -> (pFirst (jrnl st) = 0 <-> data = []).
Proof.
  intros Ho. pose proof Ho as [Hm Hn Hnd Hz Hh Hc Hl Hoff Hlast Hcnt Hj Hr]. destruct order as [|x l]; cbn in Hc.
  - split; [intros _|done]. destruct Hcnt as [Hcnt|[_ ->]]; [|done]. destruct data; [done|]. autorewrite with zlen in Hcnt. pose proof (zlen_nonneg data). lia.
  - destruct Hc as [-> _]. split; [intros ->; exfalso; apply Hz; by left|]. intros ->. destruct Hcnt as [Hcnt|[]]; [|done].
    autorewrite with zlen in Hcnt. pose proof (zlen_nonneg l). nia.
Qed.

(** The contract of a journal: a write at the front of a journal that has data replaces
    bytes there; any other write discards what lies behind its offset and appends. *)
Definition spec_write (d z : list Z) (off : Z) : list Z :=
  if (off =? 0) && negb (bool_decide (d = [])) then z ++ drop (length z) d else take (Z.to_nat off) d ++ z.
(** Writes begin inside the journal; a header that is rewritten is already there and lies
    in the first chunk. *)
Definition write_ok (n : Z) (d z : list Z) (off : Z) : Prop :=
  0 <= off <= zlen d /\ (off = 0 -> d <> [] -> zlen z <= zlen d /\ zlen z <= n).

Lemma mem_overwrite st d order z : mem_ok st d order -> d <> [] -> zlen z <= zlen d -> zlen z <= nChunkSize (jrnl st) ->
  let a := pFirst (jrnl st) in
  mem_ok (mkFile (jrnl st) (put_zChunk (heap st) a (splice (zChunk (chunk (heap st) a)) 0 z)) (real st)) (z ++ drop (length z) d) order.
Proof.
  intros Ho Hd Hz Hzn a. pose proof Ho as [Hm Hn Hnd Hz0 Hh Hc Hl Hoff Hlast Hcnt [junk Hj] Hr].
  destruct order as [|x l]; [exfalso; apply Hd; by apply (mem_empty _ _ _ Ho)|]. pose proof Hc as [Ea _]. fold a in Ea. subst x.
  apply Forall_cons in Hl as [Hla Hl]. pose proof Hnd as [Hal _]%NoDup_cons. rewrite bytes_cons in Hj.
  assert (Had : a ∈ dom (heap st)) by (apply Hh; by left).
  assert (Ezl : zlen (z ++ drop (length z) d) = zlen d) by (unfold zlen in *; rewrite length_app, length_drop; lia).
  set (z' := splice (zChunk (chunk (heap st) a)) 0 z).
  assert (Ez' : zlen z' = nChunkSize (jrnl st)) by (unfold z'; rewrite zlen_splice; lia).
  assert (Hne : forall y, y ∈ l -> y <> a) by (by intros y Hy ->).
  constructor; cbn [jrnl heap]; try done; rewrite ?Ezl; try done.
  - intros y. by rewrite dom_put_zChunk.
  - eapply chain_ext; [|exact Hc]. intros y _. apply next_put_zChunk.
  - constructor; [by rewrite zChunk_put_zChunk, decide_True|]. apply Forall_forall. intros y Hy.
    rewrite zChunk_put_zChunk, decide_False by auto. rewrite Forall_forall in Hl. by apply Hl.
  - destruct Hcnt as [Hcnt|[]]; [by left|done].
  - rewrite bytes_cons. rewrite (bytes_ext (heap st)) by (intros y Hy; rewrite zChunk_put_zChunk, decide_False by auto; done).
    rewrite zChunk_put_zChunk, decide_True by done. exists junk. unfold z'. rewrite splice_0, <- !app_assoc. f_equal.
    unfold zlen in *. rewrite <- (drop_app_le d junk) by lia. rewrite <- Hj. by rewrite drop_app_le by lia.
Qed.

(** Writing in memory. *)
Lemma memjrnlWrite_ok malloc st d order z off : mem_ok st d order -> malloc_ok malloc (nChunkSize (jrnl st)) ->
  write_ok (nChunkSize (jrnl st)) d z off -> (0 <? nSpill (jrnl st)) && (nSpill (jrnl st) <? zlen z + off) = false ->
  exists rc st' d' order', memjrnlWrite malloc st z off = (rc, st') /\ mem_ok st' d' order' /\
    (rc = SQLITE_OK /\ d' = spec_write d z off \/ rc = SQLITE_IOERR_NOMEM /\ exists k, d' = take (Z.to_nat off) d ++ take k z) /\
    real st' = real st /\ config (jrnl st') = config (jrnl st).
Proof.
  intros Ho Hmal [Hoff Hfront] Hsp. unfold memjrnlWrite. rewrite Hsp.
  assert (exists st1 order1, (if (0 <? off) && negb (off =? iOffset (endpoint (jrnl st))) then snd (memjrnlTruncate st off) else st) = st1 /\
    mem_ok st1 (if 0 <? off then take (Z.to_nat off) d else d) order1 /\ real st1 = real st /\ config (jrnl st1) = config (jrnl st))
    as (st1 & order1 & -> & Ho1 & Er & Ec).
  { destruct (Z.ltb_spec 0 off) as [H|H]; cbn [andb]; [|by exists st, order]. rewrite (m_off _ _ _ Ho).
    destruct (Z.eqb_spec off (zlen d)) as [->|Hne]; cbn [negb].
    - exists st, order. by rewrite take_ge by (unfold zlen; lia).
    - destruct (memjrnlTruncate_ok st d order off Ho) as (st1 & order1 & -> & H1 & H2 & H3); [lia|]. by exists st1, order1. }
  assert (En : nChunkSize (jrnl st1) = nChunkSize (jrnl st)) by (unfold config in Ec; congruence).
  unfold spec_write. pose proof (mem_empty _ _ _ Ho1) as He. destruct (Z.eqb_spec off 0) as [->|H0]; cbn [andb].
  - change (0 <? 0) with false in *. cbv iota in *. destruct (bool_decide_reflect (d = [])) as [->|Hd]; cbn [negb].
    + rewrite (proj2 He) by done. change (truthy 0) with false. cbv iota.
      destruct (write_loop_ok (length z) malloc st1 [] order1 z Ho1) as (rc & st' & order' & k & E1 & E2 & E3 & E4 & E5); [by rewrite En|done|].
      exists rc, st', (take k z), order'. split_and!; [exact E1|done| |congruence|congruence].
      destruct E2 as [[-> ->]| ->]; [left|right]; (split; [done|]); [by rewrite firstn_all|by exists k].
    + rewrite truthy_true by (intros E; by apply Hd, He). destruct (Hfront eq_refl Hd) as [F1 F2].
      eexists _, _, _, order1. split; [reflexivity|]. split; [apply (mem_overwrite st1 d order1 z); [done|done|done|by rewrite En]|]. split_and!; [by left|done|done].
  - rewrite (proj2 (Z.ltb_lt 0 off)) in * by lia. destruct (write_loop_ok (length z) malloc st1 _ order1 z Ho1) as (rc & st' & order' & k & E1 & E2 & E3 & E4 & E5); [by rewrite En|done|].
    exists rc, st', (take (Z.to_nat off) d ++ take k z), order'. split_and!; [exact E1|done| |congruence|congruence].
    destruct E2 as [[-> ->]| ->]; [left|right]; (split; [done|]); [by rewrite firstn_all|by exists k].
Qed.

(** *** Spilling *)

Lemma slice_0 {A} (l : list A) n : slice l 0 n = take (Z.to_nat n) l.
Proof. done. Qed.


(** What the methods of the VFS underneath promise when they succeed, [content] being the
    bytes of the file. *)
Record os_laws (content : W -> list Z) : Prop := {
  os_write_law : forall w z off w', osWrite w z off = (SQLITE_OK, w') -> 0 <= off <= zlen (content w) ->
    content w' = take (Z.to_nat off) (content w) ++ z ++ drop (Z.to_nat off + length z) (content w);
  os_read_law : forall w n off z w', osRead w n off = (SQLITE_OK, z, w') -> content w' = content w /\
    (0 <= off -> 0 <= n -> off + n <= zlen (content w) -> z = slice (content w) off n);
  os_truncate_law : forall w sz w', osTruncate w sz = (SQLITE_OK, w') -> 0 <= sz <= zlen (content w) ->
    content w' = take (Z.to_nat sz) (content w)
}.

Section laws.
Context (content : W -> list Z) (Hos : os_laws content).

Lemma flush_loop_ok fuel h n l a w pre rem junk rc w' : chain (links_of pNext h) a l 0 -> 0 ∉ l -> 0 < n < 2 ^ 31 ->
  Forall (fun a => zlen (zChunk (chunk h a)) = n) l -> bytes_of h l = rem ++ junk ->
  n * (zlen l - 1) < zlen rem \/ l = [] -> (length l <= fuel)%nat -> pre `prefix_of` content w ->
  flush_loop fuel h w (zlen pre + zlen rem) n a (zlen pre) = (rc, w') -> rc = SQLITE_OK -> (pre ++ rem) `prefix_of` content w'.
Proof.
  intros Hc Hz Hn Hl. revert fuel a w pre rem Hc. induction Hl as [|x l Hx Hl IH]; intros fuel a w pre rem Hc Hb Hlo Hf Hp Hfl Hrc.
  - cbn in Hc. subst a. symmetry in Hb. apply app_eq_nil in Hb as [-> ->]. rewrite app_nil_r.
    destruct fuel; cbn in Hfl; injection Hfl as <- <-; done.
  - destruct fuel as [|fuel]; cbn [length] in Hf; [lia|]. cbn in Hc. destruct Hc as [-> Hc]. rewrite not_elem_of_cons in Hz. destruct Hz as [Hx0 Hz].
    cbn [flush_loop] in Hfl. rewrite truthy_true in Hfl by done. cbv zeta in Hfl. rewrite bytes_cons in Hb.
    pose proof (bytes_len _ _ _ Hl) as Hbl. destruct Hlo as [Hlo|]; [|done]. autorewrite with zlen in Hlo.
    pose proof (f_equal zlen Hb) as Hbz. rewrite !zlen_app, Hx, Hbl in Hbz.
    set (k := if zlen pre + zlen rem <? zlen pre + n then i32 (zlen pre + zlen rem - zlen pre) else n) in *.
    assert (Hk : k = Z.min n (zlen rem)).
    { unfold k. destruct (Z.ltb_spec (zlen pre + zlen rem) (zlen pre + n)); [|lia].
      replace (zlen pre + zlen rem - zlen pre) with (zlen rem) by lia. pose proof (zlen_nonneg rem). unfold i32. rewrite Z.mod_small; lia. }
    assert (Es : slice (zChunk (chunk h x)) 0 k = take (Z.to_nat k) rem).
    { rewrite slice_0. unfold zlen in *.
      rewrite <- (take_app_le (zChunk (chunk h x)) (bytes_of h l)) by lia. rewrite Hb. by rewrite take_app_le by lia. }
    rewrite Es in Hfl. destruct (osWrite w (take (Z.to_nat k) rem) (zlen pre)) as [rc1 w1] eqn:Ew.
    destruct (truthy rc1) eqn:Et; [injection Hfl as -> ->; subst rc; done|].
    assert (rc1 = SQLITE_OK) as -> by (unfold truthy in Et; destruct (Z.eqb_spec rc1 0); done).
    destruct Hp as [c2 Hp]. pose proof (os_write_law _ Hos _ _ _ _ Ew) as Hw. rewrite Hp in Hw.
    assert (Hpre : pre ++ take (Z.to_nat k) rem `prefix_of` content w1).
    { rewrite Hw by (autorewrite with zlen; pose proof (zlen_nonneg pre); pose proof (zlen_nonneg c2); lia).
      unfold zlen. rewrite Nat2Z.id, take_app_length. rewrite app_assoc. by apply prefix_app_r. }
    destruct (decide (l = [])) as [->|Hne].
    + assert (k = zlen rem) by (unfold zlen in Hbz at 1; cbn in Hbz; pose proof (zlen_nonneg junk); lia).
      cbn in Hc. rewrite take_ge in Hpre by (unfold zlen in *; lia). change (pNext (chunk h x)) with (links_of pNext h x) in Hfl. rewrite Hc in Hfl.
      destruct fuel; cbn in Hfl; injection Hfl as _ <-; done.
    + assert (Hlz : 1 <= zlen l) by (destruct l; [done|]; autorewrite with zlen; pose proof (zlen_nonneg l); lia).
      assert (Ekn : k = n) by nia.
      assert (Ek : zlen (take (Z.to_nat k) rem) = k) by (unfold zlen in *; rewrite length_take; nia).
      assert (Ed : zlen (drop (Z.to_nat k) rem) = zlen rem - k) by (unfold zlen in *; rewrite length_drop; nia).
      specialize (IH Hz fuel (links_of pNext h x) w1 (pre ++ take (Z.to_nat k) rem) (drop (Z.to_nat k) rem) Hc).
      rewrite <- app_assoc, take_drop in IH. apply IH; [|left; nia|lia|done| |done].
      * assert (Er : zChunk (chunk h x) = take (Z.to_nat k) rem) by (rewrite <- Es, slice_0; by rewrite take_ge by (unfold zlen in *; lia)).
        apply (app_inv_head (zChunk (chunk h x))). rewrite Hb, Er, app_assoc. by rewrite take_drop.
      * rewrite <- Hfl. change (pNext (chunk h x)) with (links_of pNext h x). rewrite zlen_app, Ek, Ed.
        replace (zlen pre + k + (zlen rem - k)) with (zlen pre + zlen rem) by lia. by rewrite <- Ekn at 1.
Qed.

Lemma mem_real st d order w : mem_ok st d order -> mem_ok (mkFile (jrnl st) (heap st) w) d order.
Proof. intros [H1 H2 H3 H4 H5 H6 H7 H8 H9 H10 H11 H12]. by constructor. Qed.
Lemma free_all st d order : mem_ok st d order -> memjrnlFreeChunks (heap st) (pFirst (jrnl st)) = ∅.
Proof.
  intros Ho. apply (dom_empty_inv_L (D := gset Z)). unfold memjrnlFreeChunks.
  rewrite (proj1 (free_list_chain pNext (size (heap st)) _ _ _ (m_chain _ _ _ Ho) (m_nodup _ _ _ Ho) (m_zero _ _ _ Ho) (mem_size _ _ _ Ho))).
  apply set_eq. intros x. rewrite elem_of_difference, elem_of_list_to_set. pose proof (m_heap _ _ _ Ho x). set_solver.
Qed.

(** The state of a journal that holds [d]: in memory exactly, on disk with perhaps more
    bytes behind. *)
Inductive file_ok st (d : list Z) : Prop :=
| in_memory order : mem_ok st d order -> nChunkSize (jrnl st) < 2 ^ 31 -> file_ok st d
| on_disk : isMem (jrnl st) = false -> heap st = ∅ -> d `prefix_of` content (real st) -> file_ok st d.

Lemma file_in_memory st d : file_ok st d -> isMem (jrnl st) = true ->
  exists order, mem_ok st d order /\ nChunkSize (jrnl st) < 2 ^ 31.
Proof. intros [order H1 H2|H1 _ _] H; [by exists order|congruence]. Qed.

Lemma memjrnlCreateFile_ok st d order : mem_ok st d order -> nChunkSize (jrnl st) < 2 ^ 31 ->
  exists rc st', memjrnlCreateFile st = (rc, st') /\
    (rc = SQLITE_OK /\ isMem (jrnl st') = false /\ heap st' = ∅ /\ d `prefix_of` content (real st') \/
     rc <> SQLITE_OK /\ jrnl st' = jrnl st /\ heap st' = heap st).
Proof.
  intros Ho Hn. unfold memjrnlCreateFile. destruct (osOpen (real st) (zJournal (jrnl st)) (flags (jrnl st))) as [[rc0 meth] w0].
  assert (Hbad : forall rc w, rc <> SQLITE_OK -> exists rc' st', (if negb (rc =? SQLITE_OK)
      then (rc, mkFile (jrnl st) (heap st) (sqlite3OsClose meth w)) else (rc, mkFile zero_journal (heap st) w)) = (rc', st') /\
    (rc' = SQLITE_OK /\ isMem (jrnl st') = false /\ heap st' = ∅ /\ d `prefix_of` content (real st') \/
     rc' <> SQLITE_OK /\ jrnl st' = jrnl st /\ heap st' = heap st)).
  { intros rc w Hrc. rewrite (proj2 (Z.eqb_neq _ _)) by done. cbn [negb].
    eexists rc, _. split; [done|]. by right. }
  destruct (Z.eqb_spec rc0 SQLITE_OK) as [->|H0]; [|by apply Hbad].
  destruct (flush_loop _ _ _ _ _ _ _) as [rc1 w1] eqn:Ef. destruct (Z.eqb_spec rc1 SQLITE_OK) as [->|H1].
  - change (SQLITE_OK =? SQLITE_OK) with true. cbn [negb]. eexists _, _. split; [reflexivity|]. left. cbn. split_and!; [done|done|by eapply free_all|].
    destruct (m_data _ _ _ Ho) as [junk Hj]. change d with ([] ++ d).
    apply (flush_loop_ok (size (heap st)) (heap st) (nChunkSize (jrnl st)) order (pFirst (jrnl st)) w0 [] d junk SQLITE_OK w1).
    + apply Ho.
    + apply Ho.
    + split; [apply Ho|done].
    + apply Ho.
    + exact Hj.
    + destruct (m_count _ _ _ Ho) as [[H _]|[-> _]]; [by left|by right].
    + by eapply mem_size.
    + apply prefix_nil.
    + change (zlen [] + zlen d) with (zlen d). rewrite <- (m_off _ _ _ Ho). exact Ef.
    + done.
  - specialize (Hbad rc1 w1 H1). by rewrite (proj2 (Z.eqb_neq _ _)) in Hbad by done.
Qed.

(** ** Calls through the handle *)

Inductive jcall :=
| JWrite (malloc : allocator) (z : list Z) (off : Z)
| JRead (n off : Z)
| JTruncate (sz : Z)
| JFileSize.
(** The result code, the bytes read or the size, whether the journal is in memory
    afterwards, and the state of the VFS. *)
Definition jresult : Type := Z * list Z * bool * W.
Definition run_jcall st (c : jcall) : jresult * jfile :=
  match c with
  | JWrite malloc z off => let '(rc, st') := xWrite malloc st z off in (rc, [], sqlite3JournalIsInMemory st', real st', st')
  | JRead n off => let '(rc, z, st') := xRead st n off in (rc, z, sqlite3JournalIsInMemory st', real st', st')
  | JTruncate sz => let '(rc, st') := xTruncate st sz in (rc, [], sqlite3JournalIsInMemory st', real st', st')
  | JFileSize => let '(rc, sz) := xFileSize st in (rc, [sz], sqlite3JournalIsInMemory st, real st, st)
  end.
Fixpoint run_jcalls st (cs : list jcall) : list jresult :=
  match cs with
  | [] => []
  | c :: cs' => let '(r, st') := run_jcall st c in r :: run_jcalls st' cs'
  end.

(** Must this write move the journal to a file? *)
Definition spills (nSpill : Z) (z : list Z) (off : Z) : bool := (0 <? nSpill) && (nSpill <? zlen z + off).

(** What the results must be for a journal with bytes [d] that uses chunks of size [n].
    Calls that break the rules of use, and failing calls on a real file, end the promise.
    A failing write on a journal in memory ends it only when all bytes have been moved and
    the VFS then refused the new ones. *)
Fixpoint agrees (n nSpill : Z) (mem : bool) (d : list Z) (cs : list jcall) (rs : list jresult) : Prop :=
  match cs, rs with
  | [], [] => True
  | JWrite malloc z off :: cs', (rc, _, mem', w) :: rs' =>
      malloc_ok malloc n -> write_ok n d z off ->
      (mem' = true -> mem = true) /\
      (rc = SQLITE_OK ->
         (mem = true -> mem' = negb (spills nSpill z off)) /\
         agrees n nSpill mem' (spec_write d z off) cs' rs') /\
      (rc <> SQLITE_OK -> mem = true ->
         if spills nSpill z off then
           (mem' = true /\ agrees n nSpill true d cs' rs') \/
           (mem' = false /\ exists w0, d `prefix_of` content w0 /\ osWrite w0 z off = (rc, w))
         else mem' = true /\ exists k, agrees n nSpill true (take (Z.to_nat off) d ++ take k z) cs' rs')
  | JRead m off :: cs', (rc, z, mem', _) :: rs' =>
      0 < m -> 0 <= off -> mem' = mem /\
      (off + m <= zlen d -> (mem = true -> rc = SQLITE_OK) /\ (rc = SQLITE_OK -> z = slice d off m)) /\
      (zlen d < off + m -> mem = true -> rc = SQLITE_IOERR_SHORT_READ /\ z = []) /\
      (mem = true \/ rc = SQLITE_OK -> agrees n nSpill mem d cs' rs')
  | JTruncate sz :: cs', (rc, _, mem', _) :: rs' =>
      0 <= sz -> (mem = false -> sz <= zlen d) -> mem' = mem /\ (mem = true -> rc = SQLITE_OK) /\
      (rc = SQLITE_OK -> agrees n nSpill mem (take (Z.to_nat sz) d) cs' rs')
  | JFileSize :: cs', (rc, r, mem', _) :: rs' =>
      mem' = mem /\ (mem = true -> rc = SQLITE_OK /\ r = [zlen d]) /\ agrees n nSpill mem d cs' rs'
  | _, _ => False
  end.

Lemma disk_write_ok st d z off rc st' n : isMem (jrnl st) = false -> heap st = ∅ -> d `prefix_of` content (real st) ->
  write_ok n d z off -> os_write st z off = (rc, st') ->
  isMem (jrnl st') = false /\ (rc = SQLITE_OK -> file_ok st' (spec_write d z off)).
Proof.
  intros Hm Hh [c Hc] [Hoff Hfront] E. unfold os_write in E. destruct (osWrite (real st) z off) as [rc1 w1] eqn:Ew. injection E as <- <-.
  split; [done|]. intros ->. apply on_disk; [done|done|]. cbn [real]. pose proof (os_write_law _ Hos _ _ _ _ Ew) as Hw. rewrite Hc in Hw.
  rewrite Hw by (autorewrite with zlen; pose proof (zlen_nonneg c); lia). unfold spec_write, zlen in *.
  destruct (Z.eqb_spec off 0) as [->|H0]; cbn [andb]; [destruct (bool_decide_reflect (d = [])) as [->|Hd]; cbn [negb]|].
  - eexists. reflexivity.
  - specialize (Hfront eq_refl Hd). change (Z.to_nat 0) with 0%nat. cbn [Nat.add]. rewrite drop_app_le by lia.
    exists c. by rewrite take_0, app_nil_l, <- app_assoc.
  - rewrite take_app_le by lia. rewrite app_assoc. by apply prefix_app_r.
Qed.

Lemma mem_same st st' d order : jrnl st' = jrnl st -> heap st' = heap st -> mem_ok st d order -> mem_ok st' d order.
Proof. intros E1 E2 Ho. destruct st'. cbn in E1, E2. subst. by apply mem_real. Qed.

(** A write on a journal in memory. *)
Definition mem_write_result st (d z : list Z) (off rc : Z) st' : Prop :=
  (isMem (jrnl st') = true -> nChunkSize (jrnl st') = nChunkSize (jrnl st) /\ nSpill (jrnl st') = nSpill (jrnl st)) /\
  (rc = SQLITE_OK -> isMem (jrnl st') = negb (spills (nSpill (jrnl st)) z off) /\ file_ok st' (spec_write d z off)) /\
  (rc <> SQLITE_OK ->
     if spills (nSpill (jrnl st)) z off then
       (isMem (jrnl st') = true /\ file_ok st' d) \/
       (isMem (jrnl st') = false /\ exists w0, d `prefix_of` content w0 /\ osWrite w0 z off = (rc, real st'))
     else isMem (jrnl st') = true /\ exists k, file_ok st' (take (Z.to_nat off) d ++ take k z)).

Lemma mem_spill_ok malloc st d z off order : mem_ok st d order -> nChunkSize (jrnl st) < 2 ^ 31 ->
  write_ok (nChunkSize (jrnl st)) d z off -> spills (nSpill (jrnl st)) z off = true ->
  exists rc st', memjrnlWrite malloc st z off = (rc, st') /\ mem_write_result st d z off rc st'.
Proof.
  intros Ho Hn Hw Esp. unfold memjrnlWrite, mem_write_result. unfold spills in *. rewrite Esp.
  destruct (memjrnlCreateFile_ok st d order Ho Hn) as (rc & st1 & -> & [(-> & H1 & H2 & H3)|(H1 & H2 & H3)]).
  - change (SQLITE_OK =? SQLITE_OK) with true. cbv iota. destruct (os_write st1 z off) as [rc st2] eqn:E2.
    destruct (disk_write_ok _ _ _ _ _ _ _ H1 H2 H3 Hw E2) as [H4 H5]. exists rc, st2. cbn [negb].
    split_and!; [done|congruence|by auto|]. intros _. right. split; [done|]. exists (real st1). split; [done|].
    unfold os_write in E2. destruct (osWrite (real st1) z off). by injection E2 as <- <-.
  - rewrite (proj2 (Z.eqb_neq _ _)) by done. exists rc, st1. rewrite H2. split_and!; [done|done|done|].
    intros _. left. split; [apply (m_mem _ _ _ Ho)|]. apply (in_memory _ _ order); [by eapply mem_same|by rewrite H2].
Qed.

Lemma mem_append_ok malloc st d z off order : mem_ok st d order -> nChunkSize (jrnl st) < 2 ^ 31 ->
  malloc_ok malloc (nChunkSize (jrnl st)) -> write_ok (nChunkSize (jrnl st)) d z off ->
  spills (nSpill (jrnl st)) z off = false ->
  exists rc st', memjrnlWrite malloc st z off = (rc, st') /\ mem_write_result st d z off rc st'.
Proof.
  intros Ho Hn Hmal Hw Esp. unfold mem_write_result. rewrite Esp.
  destruct (memjrnlWrite_ok malloc st d order z off Ho Hmal Hw Esp) as (rc & st' & d' & order' & E & Ho' & Hd & _ & Hc).
  unfold config in Hc. assert (En : nChunkSize (jrnl st') = nChunkSize (jrnl st)) by congruence.
  pose proof (m_mem _ _ _ Ho') as Hm'. exists rc, st'. split; [done|]. split; [intros _; split; congruence|].
  destruct Hd as [[Hrc ->]|[Hrc [k ->]]].
  - split; [intros _; split; [done|]; apply (in_memory _ _ order'); [done|by rewrite En]|done].
  - split; [by intros ->|]. intros _. split; [done|]. exists k. apply (in_memory _ _ order'); [done|by rewrite En].
Qed.

(** A write through the handle of a journal in memory. *)
Lemma xWrite_ok malloc st d z off : file_ok st d -> isMem (jrnl st) = true -> malloc_ok malloc (nChunkSize (jrnl st)) ->
  write_ok (nChunkSize (jrnl st)) d z off ->
  exists rc st', xWrite malloc st z off = (rc, st') /\ mem_write_result st d z off rc st'.
Proof.
  intros Hf Hm Hmal Hw. destruct (file_in_memory st d Hf Hm) as (order & Ho & Hn). unfold xWrite. rewrite Hm.
  destruct (spills (nSpill (jrnl st)) z off) eqn:Esp; [by eapply mem_spill_ok|by eapply mem_append_ok].
Qed.

Lemma write_ok_disk n n' d z off : write_ok n d z off -> zlen z <= n' \/ off <> 0 \/ d = [] -> write_ok n' d z off.
Proof. intros [H1 H2] H. split; [done|]. intros H3 H4. specialize (H2 H3 H4). destruct H as [|[|]]; [lia|done|done]. Qed.

Lemma run_agrees cs st d n ns : file_ok st d ->
  (isMem (jrnl st) = true -> nChunkSize (jrnl st) = n /\ nSpill (jrnl st) = ns) ->
  agrees n ns (isMem (jrnl st)) d cs (run_jcalls st cs).
Proof.
  revert st d. induction cs as [|c cs IH]; intros st d Hf Hn; [done|]. cbn [run_jcalls].
  destruct c as [malloc z off|m off|sz|]; cbn [run_jcall]; unfold sqlite3JournalIsInMemory.
  - destruct (xWrite malloc st z off) as [rc st'] eqn:E. cbn [agrees]. intros Hmal Hw.
    destruct (isMem (jrnl st)) eqn:Em.
    + destruct (Hn eq_refl) as [En Es]. subst n ns.
      destruct (xWrite_ok malloc st d z off Hf Em Hmal Hw) as (rc' & st2 & E' & H1 & H2 & H3).
      rewrite E in E'. injection E' as <- <-.
      split_and!; [done|intros Hrc; destruct (H2 Hrc) as [H4 H5]; split; [done|by apply IH]|].
      intros Hrc _. pose proof (IH st') as IH'. specialize (H3 Hrc). destruct (spills _ z off).
      * destruct H3 as [[Hm' H]|H]; [left|by right]. rewrite Hm' in IH', H1. split; [done|]. by apply IH'.
      * destruct H3 as [Hm' [k H]]. rewrite Hm' in IH', H1. split; [done|]. exists k. by apply IH'.
    + destruct Hf as [order Ho _|_ Hh Hp]; [rewrite (m_mem _ _ _ Ho) in Em; done|]. unfold xWrite in E. rewrite Em in E.
      destruct (disk_write_ok _ _ _ _ _ _ _ Em Hh Hp Hw E) as [H1 H2]. rewrite H1. split_and!; [done| |done].
      intros Hrc. split; [done|]. pose proof (IH st') as IH'. rewrite H1 in IH'. by apply IH'; [apply H2|].
  - destruct (xRead st m off) as [[rc z] st'] eqn:E. cbn [agrees]. intros Hm0 Hoff. unfold xRead in E. destruct Hf as [order Ho Hsz|Hm Hh Hp].
    + rewrite (m_mem _ _ _ Ho) in *. destruct (Z.ltb_spec (zlen d) (m + off)) as [Hlt|Hge].
      * rewrite memjrnlRead_short in E by (rewrite (m_off _ _ _ Ho); lia). injection E as <- <- <-. rewrite (m_mem _ _ _ Ho).
        split_and!; [done|lia|done|]. intros _. rewrite <- (m_mem _ _ _ Ho). apply IH; [by eapply in_memory|by rewrite (m_mem _ _ _ Ho)].
      * destruct (memjrnlRead_ok st d order m off Ho Hm0 Hoff Hge) as (st2 & E2 & Ho2 & _ & Ec). rewrite E in E2. injection E2 as -> -> ->.
        rewrite (m_mem _ _ _ Ho2). split_and!; [done|done|lia|]. intros _. rewrite <- (m_mem _ _ _ Ho2).
        assert (En : nChunkSize (jrnl st2) = nChunkSize (jrnl st)) by (unfold config in Ec; congruence).
        apply IH; [apply (in_memory _ _ order); [done|by rewrite En]|intros _; unfold config in Ec; destruct (Hn eq_refl); split; congruence].
    + rewrite Hm in *. destruct (osRead (real st) m off) as [[rc1 z1] w1] eqn:Er. injection E as <- <- <-. cbn [jrnl]. rewrite Hm.
      split_and!; [done| |done|].
      * intros Hlen. split; [done|]. intros ->. destruct (os_read_law _ Hos _ _ _ _ _ Er) as [_ Hz]. destruct Hp as [c Hp]. rewrite Hp in Hz.
        rewrite Hz by (autorewrite with zlen; pose proof (zlen_nonneg c); lia). apply slice_prefix; lia.
      * intros [? | ->]; [done|]. pose proof (IH (mkFile (jrnl st) (heap st) w1) d) as IH'. cbn [jrnl] in IH'. rewrite Hm in IH'. apply IH'; [|done].
        apply on_disk; [done|done|]. cbn [real]. by destruct (os_read_law _ Hos _ _ _ _ _ Er) as [-> _].
  - destruct (xTruncate st sz) as [rc st'] eqn:E. cbn [agrees]. intros Hsz Hszd. unfold xTruncate in E. destruct Hf as [order Ho Hb|Hm Hh Hp].
    + rewrite (m_mem _ _ _ Ho) in *. destruct (memjrnlTruncate_ok st d order sz Ho Hsz) as (st2 & order2 & E2 & Ho2 & _ & Ec). rewrite E in E2. injection E2 as -> ->.
      assert (En : nChunkSize (jrnl st2) = nChunkSize (jrnl st)) by (unfold config in Ec; congruence).
      rewrite (m_mem _ _ _ Ho2). split_and!; [done|done|]. intros _. rewrite <- (m_mem _ _ _ Ho2).
      apply IH; [apply (in_memory _ _ order2); [done|by rewrite En]|intros _; unfold config in Ec; destruct (Hn eq_refl); split; congruence].
    + rewrite Hm in *. destruct (osTruncate (real st) sz) as [rc1 w1] eqn:Er. injection E as <- <-. cbn [jrnl]. rewrite Hm. split_and!; [done|done|].
      intros ->. pose proof (IH (mkFile (jrnl st) (heap st) w1) (take (Z.to_nat sz) d)) as IH'. cbn [jrnl] in IH'. rewrite Hm in IH'. apply IH'; [|done].
      apply on_disk; [done|done|]. cbn [real]. destruct Hp as [c Hp]. specialize (Hszd eq_refl).
      rewrite (os_truncate_law _ Hos _ _ _ Er) by (rewrite Hp; autorewrite with zlen; pose proof (zlen_nonneg c); lia). rewrite Hp.
      rewrite take_app_le by (unfold zlen in *; lia). done.
  - unfold xFileSize. destruct Hf as [order Ho Hb|Hm Hh Hp].
    + rewrite (m_mem _ _ _ Ho) in *. cbn [agrees]. unfold memjrnlFileSize. rewrite (m_off _ _ _ Ho). split_and!; [done|done|].
      rewrite <- (m_mem _ _ _ Ho). apply IH; [by eapply in_memory|by rewrite (m_mem _ _ _ Ho)].
    + rewrite Hm in *. destruct (osFileSize (real st)) as [rc sz]. cbn [agrees]. split_and!; [done|done|]. rewrite <- Hm.
      apply IH; [by apply on_disk|by rewrite Hm].
Qed.
End laws.
End journal.

Lemma open_ok {W} (osOpen : W -> list Z -> Z -> Z * bool * W) content w zName flags nSpill : nSpill <> 0 -> nSpill < 2 ^ 31 ->
  let st := snd (sqlite3JournalOpen osOpen w zName flags nSpill) in
  file_ok content st [] /\ isMem (jrnl st) = true /\ MemJournal.nSpill (jrnl st) = nSpill.
Proof.
  intros H0 H1. unfold sqlite3JournalOpen. rewrite (proj2 (Z.eqb_neq _ _)) by done. cbv zeta. cbn [snd jrnl isMem]. split; [|split; done].
  assert (Hn : 0 < (if 0 <? nSpill then nSpill else 8 + MEMJOURNAL_DFLT_FILECHUNKSIZE - sizeof_FileChunk) < 2 ^ 31)
    by (destruct (Z.ltb_spec 0 nSpill); [lia|done]).
  apply (in_memory _ _ _ []); [|cbn; lia]. constructor; cbn; try done; try lia.
  all: first [by constructor | apply not_elem_of_nil | set_solver | by right | by exists [] | by left].
Qed.

(** C32. A journal is a sequence of bytes: for any calls through the handle that
    [sqlite3JournalOpen] makes, with any limit but 0 and any allocation failures, a read
    returns exactly what the successful writes and truncations left at that place, in
    memory a read beyond the end is refused, and a write that runs out of memory appends a
    prefix.  A write in memory goes to a real file exactly when it passes the limit.  Such a
    spill either moves all the bytes there, or, when the file cannot be opened or written,
    leaves the journal in memory as it was; once moved, only the VFS refusing the new bytes
    themselves can make the write fail. *)
Theorem journal_keeps_bytes {W} (osOpen : W -> list Z -> Z -> Z * bool * W) (osWrite : W -> list Z -> Z -> Z * W) (osRead : W -> Z -> Z -> Z * list Z * W)
  (osTruncate : W -> Z -> Z * W) (osFileSize : W -> Z * Z) (osClose : W -> Z * W) (content : W -> list Z)
  (Hos : os_laws osWrite osRead osTruncate content) (w : W) (zName : list Z) (flags nSpill : Z) (cs : list jcall)
  (H0 : nSpill <> 0) (H1 : nSpill < 2 ^ 31) :
  let st := snd (sqlite3JournalOpen osOpen w zName flags nSpill) in
  agrees osWrite content (nChunkSize (jrnl st)) nSpill true [] cs (run_jcalls osOpen osWrite osRead osTruncate osFileSize osClose st cs).
Proof.
  intros st. destruct (open_ok osOpen content w zName flags nSpill H0 H1) as (Hf & Hm & Hns). fold st in Hf, Hm, Hns. rewrite <- Hm.
  by apply (run_agrees osOpen osWrite osRead osTruncate osFileSize osClose content Hos).
Qed.

(** A file system with one file on a disk with [room] for so many bytes. *)
Definition ram_open (w : list Z) (_ : list Z) (_ : Z) : Z * bool * list Z := (SQLITE_OK, true, []).
Definition ram_write (room : nat) (w z : list Z) (off : Z) : Z * list Z :=
  let w' := take (Z.to_nat off) w ++ z ++ drop (Z.to_nat off + length z) w in
  if (length w' <=? room)%nat then (SQLITE_OK, w') else (SQLITE_FULL, w).
Definition ram_read (w : list Z) (n off : Z) : Z * list Z * list Z := (SQLITE_OK, slice w off n, w).
Definition ram_truncate (w : list Z) (sz : Z) : Z * list Z := (SQLITE_OK, take (Z.to_nat sz) w).
Definition ram_malloc : allocator := fun h => Some (Z.of_nat (size h) + 1, [7; 7; 7; 7; 7; 7]).
Lemma ram_laws room : os_laws (ram_write room) ram_read ram_truncate id.
Proof.
  constructor.
  - intros w z off w' E _. unfold ram_write in E. by destruct (_ <=? _)%nat; [injection E as <-|].
  - by intros w n off z w' [= <- <-].
  - by intros w sz w' [= <-] _.
Qed.

(** Six bytes in memory, a write without memory, a spill, and reads of the file; on a full
    disk the spill fails and the journal stays as it was. *)
Definition demo_jcalls : list jcall :=
  [JWrite ram_malloc [1; 2; 3; 4] 0; JRead 3 1; JWrite ram_malloc [5; 6] 4; JRead 4 2; JRead 2 6;
   JWrite (fun _ => None) [9] 6; JWrite ram_malloc [8; 8; 8] 4; JRead 3 4].
Definition demo_journal (room : nat) : list (jresult (W := list Z)) :=
  run_jcalls ram_open (ram_write room) ram_read ram_truncate (fun w => (SQLITE_OK, zlen w)) (fun w => (SQLITE_OK, w))
    (snd (sqlite3JournalOpen ram_open [] [106] 0 6)) demo_jcalls.
Lemma journal_keeps_bytes_witness :
  map fst (demo_journal 100) =
    [(0, [], true); (0, [2; 3; 4], true); (0, [], true); (0, [3; 4; 5; 6], true); (SQLITE_IOERR_SHORT_READ, [], true);
     (0, [], false); (0, [], false); (0, [8; 8; 8], false)] /\
  agrees (ram_write 100) id 6 6 true [] demo_jcalls (demo_journal 100) /\
  map fst (demo_journal 3) =
    [(0, [], true); (0, [2; 3; 4], true); (0, [], true); (0, [3; 4; 5; 6], true); (SQLITE_IOERR_SHORT_READ, [], true);
     (SQLITE_FULL, [], true); (SQLITE_FULL, [], true); (SQLITE_IOERR_SHORT_READ, [], true)] /\
  agrees (ram_write 3) id 6 6 true [] demo_jcalls (demo_journal 3).
Proof.
  assert (H : forall room, agrees (ram_write room) id 6 6 true [] demo_jcalls (demo_journal room)).
  { intros room. exact (journal_keeps_bytes ram_open (ram_write room) ram_read ram_truncate (fun w => (SQLITE_OK, zlen w))
      (fun w => (SQLITE_OK, w)) id (ram_laws room) [] [106] 0 6 demo_jcalls ltac:(done) ltac:(done)). }
  split_and!; [vm_compute; reflexivity|apply H|vm_compute; reflexivity|apply H].
Defined.
