(* ===== verification/Numeric.v ===== *)
(** Integer text and checked arithmetic (util.c): 64-bit addition, subtraction and
    multiplication with overflow detection, conversion of decimal and hexadecimal
    text to integers and back, and the logarithmic estimates of the planner.

    The functions that write through a pointer return the written value beside the
    result code.  Compilers that are not GCC 5.4 or later take the portable branches
    of the checked operations, and so does the wasm build. *)

From S2P Require Import Prelude Ctype.

(** ** Checked 64-bit arithmetic *)

(** Each returns the result code and the new value of [*pA]. *)
Definition sqlite3AddInt64 (iA iB : Z) : Z * Z :=
  if 0 <=? iB then
    if (0 <? iA) && (LARGEST_INT64 - iA <? iB) then (1, iA) else (0, i64 (iA + iB))
  else
    if (iA <? 0) && (iB + 1 <? - (iA + LARGEST_INT64)) then (1, iA) else (0, i64 (iA + iB)).
Definition sqlite3SubInt64 (iA iB : Z) : Z * Z :=
  if iB =? SMALLEST_INT64 then
    if 0 <=? iA then (1, iA) else (0, i64 (iA - iB))
  else sqlite3AddInt64 iA (i64 (- iB)).
(** C's [/] truncates. *)
Definition sqlite3MulInt64 (iA iB : Z) : Z * Z :=
  let prod := (0, i64 (iA * iB)) in
  if 0 <? iB then
    if LARGEST_INT64 ÷ iB <? iA then (1, iA)
    else if iA <? SMALLEST_INT64 ÷ iB then (1, iA) else prod
  else if iB <? 0 then
    if 0 <? iA then if iB <? SMALLEST_INT64 ÷ iA then (1, iA) else prod
    else if iA <? 0 then
      if iB =? SMALLEST_INT64 then (1, iA)
      else if iA =? SMALLEST_INT64 then (1, iA)
      else if LARGEST_INT64 ÷ (- iB) <? - iA then (1, iA) else prod
    else prod
  else prod.
Definition sqlite3AbsInt32 (x : Z) : Z :=
  if 0 <=? x then x else if x =? - 2 ^ 31 then 2 ^ 31 - 1 else - x.

(** The exact result when it fits, the untouched operand otherwise. *)
Definition checked (exact old : Z) : Z * Z :=
  if (- 2 ^ 63 <=? exact) && (exact <? 2 ^ 63) then (0, exact) else (1, old).

Ltac checked_split :=
  unfold checked; repeat (case_match; rewrite ?andb_true_iff, ?andb_false_iff,
    ?Z.leb_le, ?Z.leb_gt, ?Z.ltb_lt, ?Z.ltb_ge, ?Z.eqb_eq, ?Z.eqb_neq in *).

Lemma i64_id z : is_i64 z -> i64 z = z.
Proof. unfold is_i64, i64. intros. rewrite Z.mod_small; lia. Qed.

Lemma AddInt64_checked a b : is_i64 a -> is_i64 b -> sqlite3AddInt64 a b = checked (a + b) a.
Proof.
  unfold sqlite3AddInt64, checked. widths. intros Ha Hb.
  zbool; cbn; try lia; f_equal; rewrite ?Z.mod_small; lia.
Qed.
Lemma SubInt64_checked a b : is_i64 a -> is_i64 b -> sqlite3SubInt64 a b = checked (a - b) a.
Proof.
  unfold sqlite3SubInt64. intros Ha Hb. destruct (Z.eqb_spec b SMALLEST_INT64) as [->|Hne].
  - unfold checked. widths. zbool; cbn; try lia; f_equal; rewrite ?Z.mod_small; lia.
  - rewrite (i64_id (- b)) by (widths; lia). rewrite AddInt64_checked; [|done|widths; lia].
    unfold checked. by rewrite Z.add_opp_r.
Qed.

Lemma quot_lt_mul q a b : 0 <= q -> 0 < b -> (q ÷ b <? a) = (q <? a * b).
Proof.
  intros Hq Hb. pose proof (Z.quot_rem' q b). pose proof (Z.rem_bound_pos q b Hq Hb).
  zbool; try done; exfalso; nia.
Qed.
Lemma lt_quot_mul q a b : 0 <= q -> 0 < b -> (a <? (- q) ÷ b) = (a * b <? - q).
Proof.
  intros Hq Hb. rewrite Z.quot_opp_l by lia.
  pose proof (Z.quot_rem' q b). pose proof (Z.rem_bound_pos q b Hq Hb).
  zbool; try done; exfalso; nia.
Qed.
Lemma MulInt64_checked a b : is_i64 a -> is_i64 b -> sqlite3MulInt64 a b = checked (a * b) a.
Proof.
  intros Ha Hb. unfold sqlite3MulInt64, checked. unfold is_i64 in *.
  unfold SMALLEST_INT64, LARGEST_INT64.
  assert (Hi : forall z, - 2 ^ 63 <= z < 2 ^ 63 -> i64 z = z) by apply i64_id.
  destruct (Z.ltb_spec 0 b) as [Hb0|Hb0]; [|destruct (Z.ltb_spec b 0) as [Hb1|Hb1]].
  - rewrite quot_lt_mul, lt_quot_mul by lia. zbool; cbn [andb]; try done; try lia; rewrite Hi by lia; done.
  - destruct (Z.ltb_spec 0 a) as [Ha0|Ha0]; [|destruct (Z.ltb_spec a 0) as [Ha1|Ha1]].
    + rewrite lt_quot_mul by lia. rewrite (Z.mul_comm b a).
      zbool; cbn [andb]; try done; try lia; try nia; rewrite Hi by nia; done.
    + destruct (Z.eqb_spec b (- 2 ^ 63)) as [->|].
      { zbool; cbn [andb]; try done; nia. }
      destruct (Z.eqb_spec a (- 2 ^ 63)) as [->|].
      { zbool; cbn [andb]; try done; nia. }
      rewrite quot_lt_mul by lia. rewrite Z.mul_opp_opp.
      zbool; cbn [andb]; try done; try lia; try nia; rewrite Hi by nia; done.
    + assert (a = 0) as -> by lia. done.
  - assert (b = 0) as -> by lia. rewrite Z.mul_0_r. done.
Qed.

(** C39. The checked operations are exact: each returns 0 and the mathematical result
    when it fits in 64 bits, and otherwise 1 with the operand unchanged. *)
Theorem checked_arithmetic (a b : Z) (Ha : is_i64 a) (Hb : is_i64 b) :
  sqlite3AddInt64 a b = checked (a + b) a /\
  sqlite3SubInt64 a b = checked (a - b) a /\
  sqlite3MulInt64 a b = checked (a * b) a.
Proof.
  split; [by apply AddInt64_checked|]. split; [by apply SubInt64_checked|by apply MulInt64_checked].
Qed.
Lemma checked_arithmetic_witness :
  sqlite3AddInt64 (2 ^ 63 - 1) (-5) = checked (2 ^ 63 - 6) (2 ^ 63 - 1) /\
  sqlite3SubInt64 (2 ^ 63 - 1) (-5) = checked (2 ^ 63 + 4) (2 ^ 63 - 1) /\
  sqlite3MulInt64 (2 ^ 63 - 1) (-5) = checked (-5 * 2 ^ 63 + 5) (2 ^ 63 - 1).
Proof. apply (checked_arithmetic (2 ^ 63 - 1) (-5)); unfold is_i64; lia. Defined.

(** ** Text to integer *)

(** Encodings. *)
Definition SQLITE_UTF8 : Z := 1.
Definition SQLITE_UTF16LE : Z := 2.
Definition SQLITE_UTF16BE : Z := 3.

Definition sqlite3HexToInt (h : Z) : Z :=
  u8 (Z.land (h + 9 * Z.land 1 (Z.shiftr h 6)) 15).

(** [while( p<zEnd && P(z[p]) ) p += incr;] *)
Fixpoint skip_while (fuel : nat) (P : Z -> bool) (z : list Z) (p zEnd incr : Z) : Z :=
  match fuel with
  | O => p
  | S f => if (p <? zEnd) && P (z.[p]) then skip_while f P z (p + incr) zEnd incr else p
  end.

(** [for(i=0; &zNum[i]<zEnd && (c=(unsigned)zNum[i]-'0')<=9; i+=incr) u = u*10 + c;] *)
Fixpoint atoi_digits (fuel : nat) (z : list Z) (p i zEnd incr u : Z) : Z * Z :=
  match fuel with
  | O => (i, u)
  | S f => let c := u32 (z.[p + i] - 48) in
           if (p + i <? zEnd) && (c <=? 9)
           then atoi_digits f z p (i + incr) zEnd incr (u64 (u * 10 + c)) else (i, u)
  end.

Definition pow63 : list Z :=
  [57; 50; 50; 51; 51; 55; 50; 48; 51; 54; 56; 53; 52; 55; 55; 53; 56; 48].
Fixpoint compare2pow63_loop (pows : list Z) (z : list Z) (p incr c : Z) : Z :=
  match pows with
  | [] => c
  | d :: pows' => if c =? 0 then compare2pow63_loop pows' z (p + incr) incr ((z.[p] - d) * 10)
                  else c
  end.
Definition compare2pow63 (z : list Z) (p incr : Z) : Z :=
  let c := compare2pow63_loop pow63 z p incr 0 in
  if c =? 0 then z.[p + 18 * incr] - 56 else c.

(** Returns the result code and [*pNum]. *)
Definition sqlite3Atoi64 (z : list Z) (length enc : Z) : Z * Z :=
  let fuel := S (Z.to_nat length) in
  let '(incr, zEnd, nonNum, p) :=
    if enc =? SQLITE_UTF8 then (1, length, false, 0) else
    let length := Z.land length (Z.lnot 1) in
    let i := skip_while fuel (fun b => b =? 0) z (3 - enc) length 2 in
    (2, Z.lxor i 1, i <? length, Z.land enc 1) in
  let p := skip_while fuel sqlite3Isspace z p zEnd incr in
  let '(neg, p) :=
    if p <? zEnd then
      if z.[p] =? 45 then (true, p + incr)
      else if z.[p] =? 43 then (false, p + incr) else (false, p)
    else (false, p) in
  let zStart := p in
  let p := skip_while fuel (fun b => b =? 48) z p zEnd incr in
  let '(i, u) := atoi_digits fuel z p 0 zEnd incr 0 in
  let num := if LARGEST_INT64 <? u then (if neg then SMALLEST_INT64 else LARGEST_INT64)
             else if neg then i64 (- u) else i64 u in
  let rc :=
    if (i =? 0) && (zStart =? p) then -1
    else if nonNum then 1
    else if p + i <? zEnd then
      if skip_while fuel sqlite3Isspace z (p + i) zEnd incr <? zEnd then 1 else 0
    else 0 in
  if i <? 19 * incr then (rc, num) else
  let j := if 19 * incr <? i then 1 else compare2pow63 z p incr in
  if j <? 0 then (rc, num) else
  let num := if neg then SMALLEST_INT64 else LARGEST_INT64 in
  if 0 <? j then (2, num) else if neg then (rc, num) else (3, num).

(** Characters that [strspn(z,"+- \n\t0123456789")] accepts. *)
Definition span_char (b : Z) : bool :=
  (b =? 43) || (b =? 45) || (b =? 32) || (b =? 10) || (b =? 9) || ((48 <=? b) && (b <=? 57)).
Fixpoint hex_digits (fuel : nat) (z : list Z) (k u : Z) : Z * Z :=
  match fuel with
  | O => (k, u)
  | S f => if sqlite3Isxdigit (z.[k])
           then hex_digits f z (k + 1) (u64 (u * 16 + sqlite3HexToInt (z.[k]))) else (k, u)
  end.
(** [z] is NUL-terminated and shorter than 2^30, so that the mask on the result of
    [strspn] has no effect. *)
Definition sqlite3DecOrHexToI64 (z : list Z) : Z * Z :=
  let fuel := length z in
  if (z.[0] =? 48) && ((z.[1] =? 120) || (z.[1] =? 88)) then
    let i := skip_while fuel (fun b => b =? 48) z 2 (zlen z) 1 in
    let '(k, u) := hex_digits fuel z i 0 in
    let out := i64 u in
    if 16 <? k - i then (2, out) else if truthy (z.[k]) then (1, out) else (0, out)
  else
    let n := skip_while fuel span_char z 0 (zlen z) 1 in
    let n := if truthy (z.[n]) then n + 1 else n in
    sqlite3Atoi64 z n SQLITE_UTF8.

(** Decimal digits of [sqlite3GetInt32], at most [m] of them. *)
Fixpoint int32_digits (m : nat) (z : list Z) (p i v : Z) : Z * Z :=
  match m with
  | O => (i, v)
  | S m' => let c := z.[p + i] - 48 in
            if (0 <=? c) && (c <=? 9) then int32_digits m' z p (i + 1) (v * 10 + c) else (i, v)
  end.
Fixpoint int32_xdigits (m : nat) (z : list Z) (p i u : Z) : Z * Z :=
  match m with
  | O => (i, u)
  | S m' => if sqlite3Isxdigit (z.[p + i])
            then int32_xdigits m' z p (i + 1) (u32 (u * 16 + sqlite3HexToInt (z.[p + i]))) else (i, u)
  end.
(** [Some v]: returns 1 and stores [v]; [None]: returns 0. *)
Definition sqlite3GetInt32 (z : list Z) : option Z :=
  let fuel := length z in
  let decimal neg p :=
    if negb (sqlite3Isdigit (z.[p])) then None else
    let p := skip_while fuel (fun b => b =? 48) z p (zlen z) 1 in
    let '(i, v) := int32_digits 11 z p 0 0 in
    if 10 <? i then None
    else if 2147483647 <? v - b2z neg then None
    else Some (i32 (if neg then - v else v)) in
  if z.[0] =? 45 then decimal true 1
  else if z.[0] =? 43 then decimal false 1
  else if (z.[0] =? 48) && ((z.[1] =? 120) || (z.[1] =? 88)) && sqlite3Isxdigit (z.[2]) then
    let p := skip_while fuel (fun b => b =? 48) z 2 (zlen z) 1 in
    let '(i, u) := int32_xdigits 8 z p 0 0 in
    if (Z.land u 0x80000000 =? 0) && negb (sqlite3Isxdigit (z.[p + i])) then Some u else None
  else decimal false 0.
Definition sqlite3Atoi (z : list Z) : Z := default 0 (sqlite3GetInt32 z).

Fixpoint uint32_loop (fuel : nat) (z : list Z) (i v : Z) : option (Z * Z) :=
  match fuel with
  | O => None
  | S f => if sqlite3Isdigit (z.[i]) then
             let v := u64 (v * 10 + z.[i] - 48) in
             if 4294967296 <? v then None else uint32_loop f z (i + 1) v
           else Some (i, v)
  end.
(** The result code and [*pI]. *)
Definition sqlite3GetUInt32 (z : list Z) : Z * Z :=
  match uint32_loop (length z) z 0 0 with
  | None => (0, 0)
  | Some (i, v) => if (i =? 0) || truthy (z.[i]) then (0, 0) else (1, u32 v)
  end.

(** ** Integer to text *)

(** [sqlite3DigitPairs] *)
Definition digit_pairs : list Z :=
  [48; 48; 48; 49; 48; 50; 48; 51; 48; 52; 48; 53; 48; 54; 48; 55; 48; 56; 48; 57;
   49; 48; 49; 49; 49; 50; 49; 51; 49; 52; 49; 53; 49; 54; 49; 55; 49; 56; 49; 57;
   50; 48; 50; 49; 50; 50; 50; 51; 50; 52; 50; 53; 50; 54; 50; 55; 50; 56; 50; 57;
   51; 48; 51; 49; 51; 50; 51; 51; 51; 52; 51; 53; 51; 54; 51; 55; 51; 56; 51; 57;
   52; 48; 52; 49; 52; 50; 52; 51; 52; 52; 52; 53; 52; 54; 52; 55; 52; 56; 52; 57;
   53; 48; 53; 49; 53; 50; 53; 51; 53; 52; 53; 53; 53; 54; 53; 55; 53; 56; 53; 57;
   54; 48; 54; 49; 54; 50; 54; 51; 54; 52; 54; 53; 54; 54; 54; 55; 54; 56; 54; 57;
   55; 48; 55; 49; 55; 50; 55; 51; 55; 52; 55; 53; 55; 54; 55; 55; 55; 56; 55; 57;
   56; 48; 56; 49; 56; 50; 56; 51; 56; 52; 56; 53; 56; 54; 56; 55; 56; 56; 56; 57;
   57; 48; 57; 49; 57; 50; 57; 51; 57; 52; 57; 53; 57; 54; 57; 55; 57; 56; 57; 57].
(** The loop that fills [u.a] from the right, two digits at a time; the buffer
    is kept as the text already written. *)
Fixpoint int64_pairs (fuel : nat) (x : Z) (a : list Z) : Z * list Z :=
  match fuel with
  | O => (x, a)
  | S f => if 10 <=? x then
             let kk := (x mod 100) * 2 in
             int64_pairs f (x / 100) (digit_pairs.[kk] :: digit_pairs.[kk + 1] :: a)
           else (x, a)
  end.
(** The text without its terminator. *)
Definition sqlite3Int64ToText (v : Z) : list Z :=
  if v =? 0 then [48] else
  let x := if 0 <? v then v
           else if v =? SMALLEST_INT64 then Z.shiftl 1 63 else u64 (- v) in
  let '(x, a) := int64_pairs 10 x [] in
  let a := if truthy x then (x + 48) :: a else a in
  if v <? 0 then 45 :: a else a.

(** ** Correctness of the conversions *)

(** The value of a list of decimal digits, from an accumulator. *)
Definition dec_from (v : Z) (ds : list Z) : Z := foldl (fun v b => v * 10 + (b - 48)) v ds.
Definition dec (ds : list Z) : Z := dec_from 0 ds.
Definition digits (ds : list Z) : Prop := Forall (fun b => 48 <= b <= 57) ds.
Definition spaces (ws : list Z) : Prop := Forall (fun b => sqlite3Isspace b = true) ws.
(** [post] does not go on with a character of the class. *)
Definition stops (P : Z -> bool) (post : list Z) : Prop :=
  match post with [] => True | x :: _ => P x = false end.
Definition is_dec (b : Z) : bool := (48 <=? b) && (b <=? 57).

Lemma dec_from_shift ds v : dec_from v ds = v * 10 ^ zlen ds + dec ds.
Proof.
  revert v. induction ds as [|d ds IH]; intros v; unfold dec, dec_from in *.
  { cbn [foldl]. rewrite zlen_nil. lia. }
  cbn [foldl]. rewrite IH, (IH (0 * 10 + (d - 48))), zlen_cons.
  rewrite Z.pow_add_r by (unfold zlen; lia). ring.
Qed.
Lemma dec_app l r : dec (l ++ r) = dec l * 10 ^ zlen r + dec r.
Proof. unfold dec, dec_from. rewrite foldl_app. apply dec_from_shift. Qed.
Lemma dec_cons d ds : dec (d :: ds) = (d - 48) * 10 ^ zlen ds + dec ds.
Proof. change (d :: ds) with ([d] ++ ds). rewrite dec_app. f_equal. Qed.
Lemma dec_bound ds : digits ds -> 0 <= dec ds < 10 ^ zlen ds.
Proof.
  induction 1 as [|d ds Hd _ IH]; [by vm_compute|]. rewrite dec_cons, zlen_cons.
  rewrite Z.pow_add_r by (unfold zlen; lia). change (10 ^ 1) with 10.
  revert IH. generalize (10 ^ zlen ds) (dec ds). intros p v IH. nia.
Qed.
Lemma dec_zeros zs : Forall (fun b => b = 48) zs -> dec zs = 0.
Proof. induction 1 as [|d ds -> _ IH]; [done|]. rewrite dec_cons, IH. lia. Qed.

Lemma skip_while_spec P pre mid post zEnd fuel :
  Forall (fun b => P b = true) mid ->
  zlen pre + zlen mid <= zEnd -> (stops P post \/ zlen pre + zlen mid = zEnd) ->
  (zEnd <= zlen (pre ++ mid ++ post)) -> (length mid < fuel)%nat ->
  skip_while fuel P (pre ++ mid ++ post) (zlen pre) zEnd 1 = zlen pre + zlen mid.
Proof.
  intros Hm. revert pre fuel. induction Hm as [|m mid Hm _ IH]; intros pre fuel Hle Hst Hend Hf;
    (destruct fuel as [|fuel]; [cbn in Hf; lia|]); cbn [skip_while app].
  - rewrite zlen_nil, Z.add_0_r. destruct (Z.ltb_spec (zlen pre) zEnd) as [Hlt|]; [|done].
    destruct Hst as [Hst|]; [|autorewrite with zlen in *; lia].
    destruct post as [|x post]; [autorewrite with zlen in *; cbn in *; lia|].
    rewrite zget_app_len. cbn in Hst. by rewrite Hst.
  - rewrite zget_app_len, Hm. autorewrite with zlen in *.
    pose proof (zlen_nonneg mid). rewrite (proj2 (Z.ltb_lt _ _)) by lia. cbn [andb].
    specialize (IH (pre ++ [m]) fuel). rewrite <- app_assoc in IH. cbn [app] in IH.
    autorewrite with zlen in IH. rewrite Z.add_0_r, (Z.add_comm 1) in IH.
    rewrite (Z.add_comm 1) in Hst, Hle.
    rewrite IH; [lia|lia|destruct Hst; [by left|right; lia]|cbn [length] in *; lia|cbn in Hf; lia].
Qed.

Lemma u32_digit b : is_u8 b -> (u32 (b - 48) <=? 9) = is_dec b.
Proof.
  unfold is_dec, is_u8, u32. intros Hb. destruct (Z.leb_spec 48 b) as [H|H].
  - rewrite Z.mod_small by lia. zbool; cbn; lia.
  - replace (b - 48) with (b - 48 + 2 ^ 32 + (-1) * 2 ^ 32) by lia.
    rewrite Z.mod_add, Z.mod_small by lia. zbool; cbn; lia.
Qed.
Lemma u32_digit_val b : 48 <= b <= 57 -> u32 (b - 48) = b - 48.
Proof. intros. unfold u32. apply Z.mod_small. lia. Qed.

Lemma atoi_digits_spec pre done_ ds post zEnd fuel u :
  digits ds -> Forall is_u8 post -> stops is_dec post ->
  zEnd = zlen (pre ++ done_ ++ ds ++ post) -> (length ds < fuel)%nat ->
  atoi_digits fuel (pre ++ done_ ++ ds ++ post) (zlen pre) (zlen done_) zEnd 1 u =
    (zlen done_ + zlen ds, foldl (fun v b => u64 (v * 10 + (b - 48))) u ds).
Proof.
  intros Hd Hp Hst. revert done_ fuel u. induction Hd as [|d ds Hd _ IH];
    intros dn fuel u Hend Hf; (destruct fuel as [|fuel]; [cbn in Hf; lia|]); cbn [atoi_digits].
  - rewrite Z.add_0_r. cbn [app foldl]. destruct (Z.ltb_spec (zlen pre + zlen dn) zEnd) as [Hlt|]; [|done].
    destruct post as [|x post]; [autorewrite with zlen in *; cbn in *; lia|].
    rewrite app_assoc, zget_at by (by autorewrite with zlen).
    inversion_clear Hp. rewrite u32_digit by done. cbn in Hst. by rewrite Hst.
  - assert (E : (pre ++ dn ++ (d :: ds) ++ post).[zlen pre + zlen dn] = d).
    { rewrite app_assoc. apply zget_at. by autorewrite with zlen. }
    rewrite E, u32_digit_val, (proj2 (Z.leb_le (d - 48) 9)) by lia.
    rewrite (proj2 (Z.ltb_lt _ _)).
    2: { subst zEnd. autorewrite with zlen. pose proof (zlen_nonneg ds). pose proof (zlen_nonneg post). lia. }
    cbn [andb foldl app]. specialize (IH (dn ++ [d]) fuel (u64 (u * 10 + (d - 48)))).
    rewrite <- app_assoc in IH. cbn [app] in IH. autorewrite with zlen in *.
    replace (zlen dn + 1) with (zlen dn + (1 + 0)) by lia.
    rewrite IH; [f_equal; lia|lia|cbn in Hf; lia].
Qed.

(** Decimal accumulation modulo [2^64]. *)
Lemma dec_u64 ds u v : u = u64 v ->
  foldl (fun v b => u64 (v * 10 + (b - 48))) u ds = u64 (dec_from v ds).
Proof.
  revert u v. induction ds as [|d ds IH]; intros u v ->; [done|]. cbn [foldl dec_from].
  apply IH. unfold u64. by rewrite Z.add_mod, Z.mul_mod_idemp_l, <- Z.add_mod by lia.
Qed.

(** Comparing digit by digit decides which of two equally long numbers is larger. *)
Lemma compare_loop_spec pows ds pre post :
  digits ds -> digits pows -> length ds = length pows ->
  Z.sgn (compare2pow63_loop pows (pre ++ ds ++ post) (zlen pre) 1 0) = Z.sgn (dec ds - dec pows).
Proof.
  intros Hd. revert pows pre. induction Hd as [|d ds Hd Hds IH]; intros pows pre Hp Hl;
    destruct Hp as [|p pows Hp Hps]; try discriminate Hl; [done|]. cbn [compare2pow63_loop app].
  rewrite zget_app_len. cbn [Z.eqb]. rewrite !dec_cons.
  assert (El : zlen pows = zlen ds) by (unfold zlen; cbn in Hl; lia). rewrite El.
  pose proof (dec_bound ds Hds). pose proof (dec_bound pows Hps) as Hb2. rewrite El in Hb2.
  destruct (Z.eq_dec d p) as [->|Hne].
  - replace ((p - p) * 10) with 0 by lia. specialize (IH pows (pre ++ [p]) Hps).
    rewrite <- app_assoc in IH. cbn [app] in IH. autorewrite with zlen in IH.
    replace (zlen pre + 1) with (zlen pre + (1 + 0)) by lia.
    rewrite IH by (cbn in Hl; lia). f_equal. lia.
  - assert (Hr : compare2pow63_loop pows (pre ++ d :: ds ++ post) (zlen pre + 1) 1 ((d - p) * 10)
             = (d - p) * 10).
    { destruct pows; cbn; [done|]. rewrite (proj2 (Z.eqb_neq _ _)) by lia. done. }
    rewrite Hr. destruct (Z.lt_trichotomy d p) as [|[|]]; [|lia|].
    + rewrite (Z.sgn_neg ((d - p) * 10)), Z.sgn_neg by nia. done.
    + rewrite (Z.sgn_pos ((d - p) * 10)), Z.sgn_pos by nia. done.
Qed.

Lemma sgn_0 c : Z.sgn c = 0 <-> c = 0.
Proof. apply Z.sgn_null_iff. Qed.

Lemma compare2pow63_spec ds pre post : digits ds -> length ds = 19%nat ->
  Z.sgn (compare2pow63 (pre ++ ds ++ post) (zlen pre) 1) = Z.sgn (dec ds - 2 ^ 63).
Proof.
  intros Hd Hl. rewrite <- (take_drop 18 ds) in Hd |- *. apply Forall_app in Hd as [Hh Ht].
  assert (Hlh : length (take 18 ds) = 18%nat) by (rewrite length_take; lia).
  destruct (drop 18 ds) as [|x [|y r]] eqn:Ed; apply (f_equal length) in Ed;
    rewrite length_drop, Hl in Ed; try discriminate Ed. clear Ed.
  set (h := take 18 ds) in *. unfold compare2pow63. rewrite <- (app_assoc h).
  pose proof (compare_loop_spec pow63 h pre ([x] ++ post) Hh ltac:(by_compute) Hlh) as Hc.
  rewrite dec_app. change (zlen [x]) with 1. change (10 ^ 1) with 10.
  replace (2 ^ 63) with (dec pow63 * 10 + 8) by reflexivity.
  replace (dec [x]) with (x - 48) by (unfold dec, dec_from; cbn; lia).
  apply Forall_inv in Ht. destruct (Z.eqb_spec (compare2pow63_loop pow63 (pre ++ h ++ [x] ++ post) (zlen pre) 1 0) 0) as [E|E].
  - rewrite E in Hc. symmetry in Hc. apply sgn_0 in Hc.
    cbn [app]. rewrite (app_assoc pre), zget_at; [|autorewrite with zlen; unfold zlen; rewrite Hlh; lia].
    f_equal. lia.
  - destruct (Z.lt_trichotomy (dec h) (dec pow63)) as [H|[H|H]].
    + rewrite Hc, !Z.sgn_neg by lia. done.
    + exfalso. apply E, sgn_0. rewrite Hc, H. apply sgn_0. lia.
    + rewrite Hc, !Z.sgn_pos by lia. done.
Qed.

(** The parts of integer text: optional sign characters. *)
Definition sign_text (neg : bool) (sg : list Z) : Prop :=
  (sg = [45] /\ neg = true) \/ ((sg = [43] \/ sg = []) /\ neg = false).

Definition signed (neg : bool) (v : Z) : Z := if neg then - v else v.

(** What [sqlite3Atoi64] is to return on text with value [v], [clean] when only
    spaces follow. *)
Definition atoi_spec (neg clean : bool) (v : Z) : Z * Z :=
  if (- 2 ^ 63 <=? signed neg v) && (signed neg v <? 2 ^ 63) then (b2z (negb clean), signed neg v)
  else (if v =? 2 ^ 63 then 3 else 2, if neg then SMALLEST_INT64 else LARGEST_INT64).

(** Splitting digits into leading zeros and the rest. *)
Fixpoint zeros (ds : list Z) : list Z :=
  match ds with b :: ds' => if b =? 48 then b :: zeros ds' else [] | [] => [] end.
Fixpoint strip (ds : list Z) : list Z :=
  match ds with b :: ds' => if b =? 48 then strip ds' else ds | [] => [] end.
Lemma zeros_strip ds : ds = zeros ds ++ strip ds.
Proof. induction ds as [|b ds IH]; [done|]. cbn. destruct (b =? 48); [|done]. cbn. by f_equal. Qed.
Lemma zeros_48 ds : Forall (fun b => b = 48) (zeros ds).
Proof. induction ds as [|b ds IH]; cbn; [done|]. destruct (Z.eqb_spec b 48); auto. Qed.
Lemma zeros_spec ds : Forall (fun b => (b =? 48) = true) (zeros ds).
Proof. eapply Forall_impl; [apply zeros_48|]. by intros ? ->. Qed.
Lemma strip_stops ds post : stops (fun b => b =? 48) post ->
  stops (fun b => b =? 48) (strip ds ++ post).
Proof.
  intros Hp. induction ds as [|b ds IH]; [done|]. cbn. destruct (b =? 48) eqn:E; [done|].
  by cbn.
Qed.
Lemma strip_digits ds : digits ds -> digits (strip ds).
Proof. intros H. rewrite (zeros_strip ds) in H. by apply Forall_app in H as [_ H]. Qed.
Lemma dec_strip ds : dec (strip ds) = dec ds.
Proof.
  rewrite (zeros_strip ds) at 2. rewrite dec_app, (dec_zeros _ (zeros_48 ds)). lia.
Qed.
(** A number without leading zero has as many digits as its size requires. *)
Lemma strip_lower ds : digits ds -> strip ds <> [] -> 10 ^ (zlen (strip ds) - 1) <= dec (strip ds).
Proof.
  induction 1 as [|b ds Hb Hds IH]; [done|]. cbn [strip]. destruct (Z.eqb_spec b 48); [done|].
  intros _. rewrite dec_cons, zlen_cons. pose proof (dec_bound ds Hds).
  replace (1 + zlen ds - 1) with (zlen ds) by lia. nia.
Qed.
Lemma stops_0 post : stops is_dec post -> stops (fun b => b =? 48) post.
Proof. destruct post; [done|]. cbn. unfold is_dec. zbool; cbn; lia. Qed.

(** The number of significant digits and the value decide the range. *)
Lemma digits_small ds : digits ds -> zlen ds < 19 -> dec ds < 2 ^ 63.
Proof.
  intros Hd Hl. pose proof (dec_bound ds Hd). pose proof (zlen_nonneg ds).
  assert (10 ^ zlen ds <= 10 ^ 18) by (apply Z.pow_le_mono_r; lia). lia.
Qed.
Lemma digits_large ds : digits ds -> 19 < zlen (strip ds) -> 2 ^ 63 < dec (strip ds).
Proof.
  intros Hd Hl. assert (Hn : strip ds <> []) by (intros E; rewrite E in Hl; by vm_compute in Hl).
  pose proof (strip_lower ds Hd Hn).
  assert (10 ^ 19 <= 10 ^ (zlen (strip ds) - 1)) by (apply Z.pow_le_mono_r; lia). lia.
Qed.

(** From the accumulated value and the digit count to the result: the tail of
    [sqlite3Atoi64], for [n] significant digits of value [v] and trailing text. *)
Lemma atoi_tail (neg clean : bool) (n v j rc : Z) :
  0 <= v -> (n < 19 -> v < 2 ^ 63) -> (19 < n -> 2 ^ 63 < v) ->
  (n = 19 -> Z.sgn j = Z.sgn (v - 2 ^ 63)) -> rc = b2z (negb clean) ->
  (let u := u64 v in
   let num := if LARGEST_INT64 <? u then (if neg then SMALLEST_INT64 else LARGEST_INT64)
             else if neg then i64 (- u) else i64 u in
   if n <? 19 then (rc, num) else
   let j := if 19 <? n then 1 else j in
   if j <? 0 then (rc, num) else
   let num := if neg then SMALLEST_INT64 else LARGEST_INT64 in
   if 0 <? j then (2, num) else if neg then (rc, num) else (3, num)) = atoi_spec neg clean v.
Proof.
  intros Hv Hs Hl He ->. cbn zeta.
  assert (Hnum : v < 2 ^ 63 -> (if LARGEST_INT64 <? u64 v then
      (if neg then SMALLEST_INT64 else LARGEST_INT64)
      else if neg then i64 (- u64 v) else i64 (u64 v)) = signed neg v).
  { intros Hlt. assert (u64 v = v) as -> by (unfold u64; apply Z.mod_small; lia).
    rewrite (proj2 (Z.ltb_ge _ _)) by (unfold LARGEST_INT64; lia).
    unfold signed. destruct neg; apply i64_id; unfold is_i64; lia. }
  assert (Hok : v < 2 ^ 63 -> atoi_spec neg clean v = (b2z (negb clean), signed neg v)).
  { intros Hlt. unfold atoi_spec, signed. destruct neg; zbool; cbn [andb]; (done || lia). }
  destruct (Z.ltb_spec n 19) as [Hn|Hn]; [rewrite Hnum, Hok by auto; done|].
  destruct (Z.ltb_spec 19 n) as [Hn'|Hn'].
  - cbn [Z.ltb Z.compare]. specialize (Hl Hn'). unfold atoi_spec, signed.
    destruct neg; zbool; cbn [andb]; (done || lia).
  - specialize (He ltac:(lia)). destruct (Z.lt_trichotomy v (2 ^ 63)) as [H|[H|H]].
    + rewrite Hnum, Hok by done. rewrite (Z.sgn_neg (v - 2 ^ 63)) in He by lia.
      rewrite (proj2 (Z.ltb_lt j 0)) by lia. done.
    + assert (j = 0) as -> by (apply sgn_0; rewrite He; apply sgn_0; lia).
      cbn [Z.ltb Z.compare]. subst v. unfold atoi_spec, signed. by destruct neg, clean.
    + rewrite (Z.sgn_pos (v - 2 ^ 63)) in He by lia.
      rewrite (proj2 (Z.ltb_ge j 0)), (proj2 (Z.ltb_lt 0 j)) by lia.
      unfold atoi_spec, signed. destruct neg; zbool; cbn [andb]; (done || lia).
Qed.

Lemma digit_not_space b : 48 <= b <= 57 -> sqlite3Isspace b = false.
Proof. intros. rewrite Isspace_spec by (unfold is_u8; lia). zbool; cbn; lia. Qed.

Lemma skip_spaces ws rest fuel zEnd : spaces ws -> stops sqlite3Isspace rest ->
  zEnd = zlen (ws ++ rest) -> (length ws < fuel)%nat ->
  skip_while fuel sqlite3Isspace (ws ++ rest) 0 zEnd 1 = zlen ws.
Proof.
  intros Hw Hs -> Hf. pose proof (zlen_nonneg rest).
  rewrite <- (app_nil_l (ws ++ rest)). change 0 with (zlen (@nil Z)).
  rewrite skip_while_spec; auto; autorewrite with zlen; cbn; lia.
Qed.

(** The trailing text is all spaces exactly when the skip reaches the end. *)
Lemma trailing_spaces pre tl fuel zEnd : zEnd = zlen (pre ++ tl) -> (length tl < fuel)%nat ->
  (skip_while fuel sqlite3Isspace (pre ++ tl) (zlen pre) zEnd 1 <? zEnd) =
  negb (forallb sqlite3Isspace tl).
Proof.
  intros -> Hf.
  assert (Hsplit : exists a b, tl = a ++ b /\ spaces a /\ stops sqlite3Isspace b /\
            forallb sqlite3Isspace tl = bool_decide (b = [])).
  { clear. induction tl as [|c tl (a & b & -> & Ha & Hb & E)]; 
      [exists [], []; repeat split; constructor|].
    destruct (sqlite3Isspace c) eqn:Ec.
    - exists (c :: a), b. cbn [forallb]. rewrite Ec, E. split_and!; [done|by constructor|done|done].
    - exists [], (c :: a ++ b). cbn [forallb]. rewrite Ec. split_and!; [done|constructor|done|done]. }
  destruct Hsplit as (a & b & -> & Ha & Hb & ->).
  rewrite skip_while_spec; auto; autorewrite with zlen;
    try (pose proof (zlen_nonneg b); lia); [|rewrite length_app in Hf; lia].
  destruct b as [|x b]; [cbn; rewrite zlen_nil; zbool; cbn; lia|].
  rewrite (bool_decide_eq_false_2 (x :: b = [])) by done. rewrite zlen_cons.
  pose proof (zlen_nonneg b). zbool; cbn; lia.
Qed.

Lemma atoi64_value (neg : bool) (ws sg ds tl : list Z)
  (Hws : spaces ws) (Hsg : sign_text neg sg) (Hds : digits ds) (Hne : ds <> [])
  (Htl : Forall is_u8 tl) (Hst : stops is_dec tl) :
  sqlite3Atoi64 (ws ++ sg ++ ds ++ tl) (zlen (ws ++ sg ++ ds ++ tl)) SQLITE_UTF8 =
  atoi_spec neg (forallb sqlite3Isspace tl) (dec ds).
Proof.
  set (z := ws ++ sg ++ ds ++ tl). set (N := zlen z).
  assert (exists d0 ds0, ds = d0 :: ds0) as (d0 & ds0 & Eds) by (destruct ds; [done|eauto]).
  assert (Hd0 : 48 <= d0 <= 57) by (rewrite Eds in Hds; by inversion Hds).
  assert (HN : N = zlen ws + zlen sg + zlen (zeros ds) + zlen (strip ds) + zlen tl).
  { unfold N, z. rewrite !zlen_app, (zeros_strip ds) at 1. rewrite zlen_app. lia. }
  pose proof (zlen_nonneg ws). pose proof (zlen_nonneg sg). pose proof (zlen_nonneg (zeros ds)).
  pose proof (zlen_nonneg (strip ds)). pose proof (zlen_nonneg tl).
  assert (HNd : zlen ws + zlen sg < N).
  { unfold N, z. rewrite Eds. autorewrite with zlen. pose proof (zlen_nonneg ds0). lia. }
  unfold sqlite3Atoi64. cbn [Z.eqb Pos.eqb SQLITE_UTF8].
  (* spaces *)
  assert (Hstop : stops sqlite3Isspace (sg ++ ds ++ tl)).
  { destruct Hsg as [[-> _]|[[-> | ->] _]]; [done|done|]. rewrite Eds. by apply digit_not_space. }
  assert (Hsp : skip_while (S (Z.to_nat N)) sqlite3Isspace z 0 N 1 = zlen ws).
  { apply skip_spaces; [done|done|done|unfold zlen in *; lia]. }
  cbn zeta. rewrite !Hsp. clear Hsp.
  (* sign *)
  assert (Hsign : (if zlen ws <? N then
      if z.[zlen ws] =? 45 then (true, zlen ws + 1)
      else if z.[zlen ws] =? 43 then (false, zlen ws + 1) else (false, zlen ws)
      else (false, zlen ws)) = (neg, zlen ws + zlen sg)).
  { rewrite (proj2 (Z.ltb_lt _ _)) by lia. unfold z.
    destruct Hsg as [[-> ->]|[[-> | ->] ->]]; cbn [app].
    - by rewrite zget_app_len.
    - by rewrite zget_app_len.
    - rewrite Eds. cbn [app]. rewrite zget_app_len, !(proj2 (Z.eqb_neq d0 _)) by lia.
      by rewrite zlen_nil, Z.add_0_r. }
  rewrite Hsign. clear Hsign.
  (* leading zeros *)
  assert (Ez : z = (ws ++ sg) ++ zeros ds ++ strip ds ++ tl).
  { unfold z. rewrite (zeros_strip ds) at 1. by rewrite <- !app_assoc. }
  assert (Hskip : skip_while (S (Z.to_nat N)) (fun b => b =? 48) z (zlen ws + zlen sg) N 1 =
                  zlen ws + zlen sg + zlen (zeros ds)).
  { rewrite Ez, <- zlen_app. apply skip_while_spec;
      [apply zeros_spec|autorewrite with zlen; lia|left; by apply strip_stops, stops_0| |].
    - unfold N. by rewrite Ez.
    - unfold zlen in *. lia. }
  rewrite Hskip. clear Hskip.
  (* digits *)
  assert (Hdig : atoi_digits (S (Z.to_nat N)) z (zlen ws + zlen sg + zlen (zeros ds)) 0 N 1 0 =
                 (zlen (strip ds), u64 (dec ds))).
  { assert (E : z = ((ws ++ sg) ++ zeros ds) ++ [] ++ strip ds ++ tl)
      by (by rewrite Ez, <- !app_assoc).
    rewrite E, <- !zlen_app. change 0 with (zlen (@nil Z)) at 1.
    rewrite atoi_digits_spec; [|by apply strip_digits|done|done|unfold N; by rewrite E|unfold zlen in *; lia].
    rewrite (dec_u64 _ 0 0) by done. fold (dec (strip ds)). by rewrite dec_strip. }
  rewrite Hdig. clear Hdig. change (1 * 19) with 19. cbn [negb].
  (* result *)
  rewrite <- (dec_strip ds).
  apply atoi_tail.
  - by apply dec_bound, strip_digits.
  - intros. apply digits_small; [by apply strip_digits|done].
  - intros. by apply digits_large.
  - intros El. assert (E : z = ((ws ++ sg) ++ zeros ds) ++ strip ds ++ tl)
      by (by rewrite Ez, <- !app_assoc).
    rewrite E, <- !zlen_app. apply compare2pow63_spec; [by apply strip_digits|unfold zlen in El; lia].
  - assert (Hsome : (zlen (strip ds) =? 0) && (zlen ws + zlen sg =? zlen ws + zlen sg + zlen (zeros ds)) = false).
    { zbool; try done. exfalso. assert (zlen ds = 0).
      { rewrite (zeros_strip ds), zlen_app. lia. }
      rewrite Eds, zlen_cons in *. pose proof (zlen_nonneg ds0). lia. }
    rewrite Hsome. assert (E : z = (((ws ++ sg) ++ zeros ds) ++ strip ds) ++ tl)
      by (by rewrite Ez, <- !app_assoc).
    rewrite E, <- !zlen_app, trailing_spaces; [|by unfold N; rewrite E|unfold zlen in *; lia].
    destruct (Z.ltb_spec (zlen (((ws ++ sg) ++ zeros ds) ++ strip ds)) N) as [|Hge].
    { by destruct (forallb _ tl). }
    rewrite !zlen_app in Hge. destruct tl as [|t tl]; [done|]. rewrite zlen_cons in *.
    pose proof (zlen_nonneg tl). lia.
Qed.

(** C38. Decimal text is converted exactly: on optional spaces, an optional sign, at
    least one digit and trailing text that does not go on with a digit,
    [sqlite3Atoi64] stores the value and returns 0 (1 if non-space text follows)
    when the value fits in 64 bits, whatever the number of digits; otherwise it
    stores the nearest 64-bit integer and returns 3 for 9223372036854775808 and 2
    beyond. *)
Theorem atoi64_exact (neg : bool) (ws sg ds tl : list Z)
  (Hws : spaces ws) (Hsg : sign_text neg sg) (Hds : digits ds) (Hne : ds <> [])
  (Htl : Forall is_u8 tl) (Hst : stops is_dec tl) :
  sqlite3Atoi64 (ws ++ sg ++ ds ++ tl) (zlen (ws ++ sg ++ ds ++ tl)) SQLITE_UTF8 =
  atoi_spec neg (forallb sqlite3Isspace tl) (dec ds).
Proof. by apply atoi64_value. Qed.
Lemma atoi64_exact_witness :
  sqlite3Atoi64 [32; 45; 48; 55; 32] 5 SQLITE_UTF8 = (0, -7).
Proof.
  apply (atoi64_exact true [32] [45] [48; 55] [32]);
    [by_compute|left; done|by_compute|discriminate|by_compute|reflexivity].
Defined.

(** *** Printing *)

Lemma digit_pair k : 0 <= k < 100 ->
  digit_pairs.[k * 2] = 48 + k / 10 /\ digit_pairs.[k * 2 + 1] = 48 + k mod 10.
Proof.
  intros Hk.
  assert (H : forallb (fun n => let k := Z.of_nat n in
      (digit_pairs.[k * 2] =? 48 + k / 10) && (digit_pairs.[k * 2 + 1] =? 48 + k mod 10))
      (seq 0 100) = true) by (vm_compute; reflexivity).
  rewrite forallb_forall in H. specialize (H (Z.to_nat k) ltac:(apply in_seq; lia)).
  cbn beta zeta in H. rewrite Z2Nat.id in H by lia. apply andb_true_iff in H as [H1 H2].
  by apply Z.eqb_eq in H1, H2.
Qed.

Lemma int64_pairs_spec fuel x a : 0 <= x < 10 * 100 ^ Z.of_nat fuel ->
  exists x' p, int64_pairs fuel x a = (x', p ++ a) /\ 0 <= x' < 10 /\ digits p /\
    x = x' * 10 ^ zlen p + dec p.
Proof.
  revert x a. induction fuel as [|fuel IH]; intros x a Hx; cbn [int64_pairs].
  - exists x, []. split; [done|]. split; [lia|]. split; [constructor|].
    change (zlen []) with 0. change (dec []) with 0. lia.
  - destruct (Z.leb_spec 10 x) as [H10|H10].
    + assert (Hk : 0 <= x mod 100 < 100) by (apply Z.mod_pos_bound; lia).
      destruct (digit_pair _ Hk) as [-> ->].
      destruct (IH (x / 100) (48 + x mod 100 / 10 :: 48 + (x mod 100) mod 10 :: a))
        as (x' & p & E & Hx' & Hp & Ev).
      { rewrite Nat2Z.inj_succ, Z.pow_succ_r in Hx by lia. split; [apply Z.div_pos; lia|].
        apply Z.div_lt_upper_bound; lia. }
      exists x', (p ++ [48 + x mod 100 / 10; 48 + (x mod 100) mod 10]).
      rewrite E, <- app_assoc. split; [done|]. split; [done|].
      assert (0 <= x mod 100 / 10 < 10 /\ 0 <= (x mod 100) mod 10 < 10)
        by (Z.div_mod_to_equations; lia).
      split; [apply Forall_app; split; [done|]; repeat constructor; lia|].
      rewrite zlen_app, dec_app, Z.pow_add_r by (unfold zlen; lia).
      change (zlen [_; _]) with 2. change (10 ^ 2) with 100.
      unfold dec at 2, dec_from. cbn [foldl].
      pose proof (Z.div_mod x 100 ltac:(lia)). pose proof (Z.div_mod (x mod 100) 10 ltac:(lia)).
      rewrite Z.mul_assoc. lia.
    + exists x, []. split; [done|]. split; [lia|]. split; [constructor|].
      change (zlen []) with 0. change (dec []) with 0. lia.
Qed.

(** The text is the sign and the digits of the absolute value. *)
Lemma Int64ToText_spec v : is_i64 v -> exists sg ds,
  sqlite3Int64ToText v = sg ++ ds /\ sign_text (v <? 0) sg /\ digits ds /\ ds <> [] /\
  dec ds = Z.abs v.
Proof.
  unfold is_i64. intros Hv. unfold sqlite3Int64ToText.
  destruct (Z.eqb_spec v 0) as [->|Hne].
  { exists [], [48]. split; [done|]. split; [right; auto|]. split; [repeat constructor; lia|done]. }
  assert (Ex : (if 0 <? v then v else if v =? SMALLEST_INT64 then Z.shiftl 1 63 else u64 (- v))
               = Z.abs v).
  { unfold SMALLEST_INT64, u64. zbool; try lia; try (subst; done); rewrite Z.mod_small; lia. }
  rewrite Ex. destruct (int64_pairs_spec 10 (Z.abs v) []) as (x & p & E & Hx & Hp & Ev).
  { change (10 * 100 ^ Z.of_nat 10) with (10 ^ 21). lia. }
  rewrite E, app_nil_r.
  set (a := if truthy x then x + 48 :: p else p).
  assert (Ha : digits a /\ a <> [] /\ dec a = Z.abs v).
  { unfold a, truthy. destruct (Z.eqb_spec x 0) as [->|Hx0]; cbn [negb].
    - split; [done|]. split; [|lia]. intros ->. change (dec []) with 0 in Ev. lia.
    - split; [constructor; [lia|done]|]. split; [done|]. rewrite dec_cons. lia. }
  destruct Ha as (Ha1 & Ha2 & Ha3). destruct (Z.ltb_spec v 0).
  - exists [45], a. split; [done|]. split; [by left|done].
  - exists [], a. split; [done|]. split; [right; auto|done].
Qed.

(** Integers print and read back: the text of every 64-bit integer is converted
    back to it, with result code 0. *)
Theorem int64_text_roundtrip (v : Z) (Hv : is_i64 v) :
  let t := sqlite3Int64ToText v in sqlite3Atoi64 t (zlen t) SQLITE_UTF8 = (0, v).
Proof.
  cbn zeta. destruct (Int64ToText_spec v Hv) as (sg & ds & -> & Hsg & Hds & Hne & Hd).
  pose proof (atoi64_value (v <? 0) [] sg ds [] ltac:(constructor) Hsg Hds Hne
    ltac:(constructor) I) as H.
  rewrite !app_nil_r in H. cbn [app] in H. rewrite H, Hd. unfold is_i64 in Hv.
  unfold atoi_spec, signed. destruct (Z.ltb_spec v 0).
  - rewrite Z.abs_neq, Z.opp_involutive by lia. by zbool; cbn [andb]; try lia.
  - rewrite Z.abs_eq by lia. by zbool; cbn [andb]; try lia.
Qed.
Lemma int64_text_roundtrip_witness :
  sqlite3Atoi64 (sqlite3Int64ToText (- 2 ^ 63)) 20 SQLITE_UTF8 = (0, - 2 ^ 63).
Proof. apply (int64_text_roundtrip (- 2 ^ 63)). unfold is_i64. lia. Defined.

(** [sqlite3GetUInt32] accepts one number too many: the text "4294967296" is
    accepted with the value 0, although 2^32 is not a 32-bit unsigned integer. *)
Theorem getUInt32_accepts_2pow32 :
  sqlite3GetUInt32 [52; 50; 57; 52; 57; 54; 55; 50; 57; 54; 0] = (1, 0).
Proof. reflexivity. Qed.

(** *** 32-bit integers *)

Lemma int32_digits_spec m pre dn ds post v :
  digits ds -> post <> [] -> stops is_dec post ->
  int32_digits m (pre ++ dn ++ ds ++ post) (zlen pre) (zlen dn) v =
    (zlen dn + zlen (take m ds), dec_from v (take m ds)).
Proof.
  intros Hd Hne Hst. revert m dn v. induction Hd as [|d ds Hd _ IH]; intros m dn v;
    (destruct m as [|m]; cbn [int32_digits take]; [by rewrite Z.add_0_r|]).
  - destruct post as [|x post]; [done|]. cbn [app]. rewrite app_assoc, zget_at by (by autorewrite with zlen).
    cbn in Hst. unfold is_dec in Hst. rewrite Z.add_0_r.
    destruct (Z.leb_spec 0 (x - 48)), (Z.leb_spec (x - 48) 9); cbn [andb]; try done.
    exfalso. revert Hst. zbool; cbn; (done || lia).
  - cbn [app]. rewrite app_assoc, zget_at by (by autorewrite with zlen).
    rewrite <- app_assoc, (proj2 (Z.leb_le 0 (d - 48))), (proj2 (Z.leb_le (d - 48) 9)) by lia.
    cbn [andb]. specialize (IH m (dn ++ [d]) (v * 10 + (d - 48))).
    rewrite <- app_assoc in IH. cbn [app] in IH. rewrite zlen_snoc in IH. rewrite IH, zlen_cons.
    f_equal. lia.
Qed.

(** [sqlite3GetInt32] is exact on decimal text: it accepts the number exactly
    when it fits in 32 bits and then stores its value, whatever text follows
    (the text is not the start of a hexadecimal literal). *)
Theorem getInt32_exact (neg : bool) (sg ds tl : list Z)
  (Hsg : sign_text neg sg) (Hds : digits ds) (Hne : ds <> [])
  (Htl : tl <> []) (Hst : stops is_dec tl)
  (Hhex : sg = [] -> ds = [48] -> hd 0 tl <> 120 /\ hd 0 tl <> 88) :
  sqlite3GetInt32 (sg ++ ds ++ tl) =
  if (- 2 ^ 31 <=? signed neg (dec ds)) && (signed neg (dec ds) <? 2 ^ 31)
  then Some (signed neg (dec ds)) else None.
Proof.
  assert (exists d0 ds0, ds = d0 :: ds0) as (d0 & ds0 & Eds) by (destruct ds; [done|eauto]).
  assert (Hd0 : 48 <= d0 <= 57) by (rewrite Eds in Hds; by inversion Hds).
  set (z := sg ++ ds ++ tl).
  assert (Hz : z = sg ++ zeros ds ++ strip ds ++ tl).
  { unfold z. rewrite (zeros_strip ds) at 1. by rewrite <- !app_assoc. }
  (* the decimal part, from the position after the sign *)
  assert (Hdec : (if negb (sqlite3Isdigit (z.[zlen sg])) then None else
      let p := skip_while (length z) (fun b => b =? 48) z (zlen sg) (zlen z) 1 in
      let '(i, v) := int32_digits 11 z p 0 0 in
      if 10 <? i then None else if 2147483647 <? v - b2z neg then None
      else Some (i32 (if neg then - v else v))) =
      if (- 2 ^ 31 <=? signed neg (dec ds)) && (signed neg (dec ds) <? 2 ^ 31)
      then Some (signed neg (dec ds)) else None).
  { assert (z.[zlen sg] = d0) as -> by (unfold z; rewrite Eds; apply zget_app_len).
    rewrite Isdigit_spec by (unfold is_u8; lia).
    rewrite (proj2 (Z.leb_le 48 d0)), (proj2 (Z.leb_le d0 57)) by lia. cbn [andb negb]. cbn zeta.
    assert (Hsk : skip_while (length z) (fun b => b =? 48) z (zlen sg) (zlen z) 1 =
                  zlen (sg ++ zeros ds)).
    { rewrite Hz at 2. rewrite skip_while_spec; [by rewrite zlen_app|apply zeros_spec| | | |].
      - rewrite Hz. autorewrite with zlen. pose proof (zlen_nonneg (strip ds)).
        pose proof (zlen_nonneg tl). lia.
      - left. by apply strip_stops, stops_0.
      - by rewrite Hz.
      - rewrite Hz, !length_app. destruct tl; [done|]. cbn [length]. lia. }
    rewrite Hsk.
    assert (E : z = (sg ++ zeros ds) ++ [] ++ strip ds ++ tl) by (by rewrite Hz, <- app_assoc).
    rewrite E. change 0 with (zlen (@nil Z)) at 1.
    rewrite int32_digits_spec by (done || by apply strip_digits). rewrite zlen_nil, Z.add_0_l.
    rewrite <- (dec_strip ds). pose proof (dec_bound _ (strip_digits _ Hds)) as Hb.
    destruct (Z.ltb_spec 10 (zlen (take 11 (strip ds)))) as [Hl|Hl].
    - assert (Hl' : 10 < zlen (strip ds)) by (unfold zlen in *; rewrite length_take in Hl; lia).
      assert (Hn : strip ds <> []) by (intros E'; rewrite E' in Hl'; by vm_compute in Hl').
      pose proof (strip_lower ds Hds Hn).
      assert (10 ^ 10 <= 10 ^ (zlen (strip ds) - 1)) by (apply Z.pow_le_mono_r; lia).
      unfold signed. destruct neg; zbool; cbn [andb]; (done || lia).
    - rewrite take_ge by (unfold zlen in Hl; rewrite length_take in Hl; lia).
      fold (dec (strip ds)). unfold signed, b2z.
      destruct neg; zbool; cbn [andb]; try (done || lia); f_equal; zwlia. }
  unfold sqlite3GetInt32. fold z. cbn zeta in Hdec |- *.
  destruct Hsg as [[-> ->]|[[-> | ->] ->]].
  - exact Hdec.
  - exact Hdec.
  - assert (Ez0 : z.[0] = d0) by (unfold z; by rewrite Eds).
    rewrite Ez0, !(proj2 (Z.eqb_neq d0 _)) by lia. change (zlen []) with 0 in Hdec.
    rewrite Ez0 in Hdec.
    assert (Hnx : (d0 =? 48) && ((z.[1] =? 120) || (z.[1] =? 88)) = false).
    { destruct (Z.eqb_spec d0 48) as [->|]; [|done]. cbn [andb].
      assert (Hc : z.[1] = hd 0 (ds0 ++ tl)).
      { unfold z. rewrite Eds. cbn [app]. destruct ds0, tl; done. }
      rewrite Hc. destruct ds0 as [|d1 ds1]; cbn [app hd].
      - destruct (Hhex eq_refl Eds) as [H1 H2]. by rewrite !(proj2 (Z.eqb_neq _ _)).
      - assert (48 <= d1 <= 57) by (rewrite Eds in Hds; inversion Hds as [|? ? ? H']; by inversion H').
        rewrite !(proj2 (Z.eqb_neq d1 _)) by lia. done. }
    rewrite Hnx. exact Hdec.
Qed.
Lemma getInt32_exact_witness :
  sqlite3GetInt32 [45; 50; 49; 52; 55; 52; 56; 51; 54; 52; 56; 0] = Some (- 2 ^ 31).
Proof.
  apply (getInt32_exact true [45] [50; 49; 52; 55; 52; 56; 51; 54; 52; 56] [0]);
    [left; done|by_compute|discriminate|discriminate|reflexivity|discriminate].
Defined.

(** ** Logarithmic estimates *)

Definition logest_add : list Z :=
  [10; 10; 9; 9; 8; 8; 7; 7; 7; 6; 6; 6; 5; 5; 5; 4; 4; 4; 4;
   3; 3; 3; 3; 3; 3; 2; 2; 2; 2; 2; 2; 2].
Definition sqlite3LogEstAdd (a b : Z) : Z :=
  if b <=? a then
    if b + 49 <? a then a else if b + 31 <? a then a + 1 else a + logest_add.[a - b]
  else
    if a + 49 <? b then b else if a + 31 <? b then b + 1 else b + logest_add.[b - a].

Fixpoint logest_up (fuel : nat) (x y : Z) : Z * Z :=
  match fuel with
  | O => (x, y)
  | S f => if x <? 8 then logest_up f (u64 (Z.shiftl x 1)) (y - 10) else (x, y)
  end.
(** [while( x>lim ){ y += dy; x >>= sh; }] *)
Fixpoint logest_down (fuel : nat) (lim sh dy x y : Z) : Z * Z :=
  match fuel with
  | O => (x, y)
  | S f => if lim <? x then logest_down f lim sh dy (Z.shiftr x sh) (y + dy) else (x, y)
  end.
Definition logest_a : list Z := [0; 2; 3; 5; 6; 7; 8; 9].
Definition sqlite3LogEst (x : Z) : Z :=
  if (x <? 8) && (x <? 2) then 0 else
  let '(x, y) :=
    if x <? 8 then logest_up 3 x 40 else
    let '(x, y) := logest_down 16 255 4 40 x 40 in logest_down 4 15 1 10 x y in
  logest_a.[Z.land x 7] + y - 10.
Definition sqlite3LogEstToInt (x : Z) : Z :=
  let n := Z.rem x 10 in
  let x := x ÷ 10 in
  let n := if 5 <=? n then n - 2 else if 1 <=? n then n - 1 else n in
  if 60 <? x then LARGEST_INT64
  else if 3 <=? x then u64 (Z.shiftl (n + 8) (x - 3)) else Z.shiftr (n + 8) (3 - x).

(** A normalised mantissa and exponent. *)
Lemma logest_down_spec fuel lim sh dy x y : 0 < sh -> 0 <= x ->
  exists k, logest_down fuel lim sh dy x y = (x / 2 ^ (sh * k), y + dy * k) /\ 0 <= k <= Z.of_nat fuel /\
   (k < Z.of_nat fuel -> x / 2 ^ (sh * k) <= lim) /\ (0 < k -> lim < x / 2 ^ (sh * (k - 1))).
Proof.
  intros Hsh Hx. revert x y Hx. induction fuel as [|fuel IH]; intros x y Hx; cbn [logest_down].
  - exists 0. rewrite !Z.mul_0_r, Z.div_1_r, Z.add_0_r. repeat split; lia.
  - destruct (Z.ltb_spec lim x) as [Hl|Hl].
    + rewrite Z.shiftr_div_pow2 by lia.
      destruct (IH (x / 2 ^ sh) (y + dy)) as (k & E & Hk & H1 & H2).
      { apply Z.div_pos; lia. }
      assert (Hdiv : forall j, 0 <= j -> x / 2 ^ sh / 2 ^ (sh * j) = x / 2 ^ (sh * (j + 1))).
      { intros j Hj. rewrite Z.div_div, <- Z.pow_add_r by lia. do 2 f_equal. lia. }
      exists (k + 1). rewrite E, Hdiv by lia. split; [f_equal; lia|]. split; [lia|]. split.
      * intros. rewrite <- Hdiv by lia. apply H1. lia.
      * intros _. replace (k + 1 - 1) with k by lia. destruct (Z.eq_dec k 0) as [->|].
        { rewrite Z.mul_0_r, Z.div_1_r. done. }
        specialize (H2 ltac:(lia)). rewrite Hdiv in H2 by lia. by replace (k - 1 + 1) with k in H2 by lia.
    + exists 0. rewrite !Z.mul_0_r, Z.div_1_r, Z.add_0_r. repeat split; lia.
Qed.

Lemma logest_down_norm fuel lim sh dy x y : 0 < sh -> 0 <= lim -> 2 ^ sh * 8 <= lim + 1 ->
  8 <= x -> x < (lim + 1) * 2 ^ (sh * Z.of_nat fuel) ->
  exists k, logest_down fuel lim sh dy x y = (x / 2 ^ (sh * k), y + dy * k) /\ 0 <= k <= Z.of_nat fuel /\
   8 <= x / 2 ^ (sh * k) <= lim.
Proof.
  intros Hsh Hl0 Hl Hx8 Hx. destruct (logest_down_spec fuel lim sh dy x y) as (k & E & Hk & H1 & H2); [lia..|].
  exists k. split; [done|]. split; [done|]. split.
  - destruct (Z.eq_dec k 0) as [->|]; [rewrite Z.mul_0_r, Z.div_1_r; lia|].
    specialize (H2 ltac:(lia)).
    assert (Ed : x / 2 ^ (sh * k) = x / 2 ^ (sh * (k - 1)) / 2 ^ sh).
    { rewrite Z.div_div, <- Z.pow_add_r by nia. do 2 f_equal. lia. }
    rewrite Ed. apply Z.div_le_lower_bound; lia.
  - destruct (Z.eq_dec k (Z.of_nat fuel)) as [->|]; [|apply H1; lia].
    assert (x / 2 ^ (sh * Z.of_nat fuel) < lim + 1); [|lia].
    apply Z.div_lt_upper_bound; lia.
Qed.

(** From 8 on, the estimate is made of the four most significant bits. *)
Lemma LogEst_norm x : 8 <= x < 2 ^ 64 -> exists k m,
  0 <= k <= 60 /\ 8 <= m <= 15 /\ m * 2 ^ k <= x < (m + 1) * 2 ^ k /\
  sqlite3LogEst x = logest_a.[m - 8] + 10 * k + 30.
Proof.
  intros Hx. unfold sqlite3LogEst. rewrite (proj2 (Z.ltb_ge x 8)) by lia. cbn [andb].
  destruct (logest_down_norm 16 255 4 40 x 40) as (k1 & -> & Hk1 & Hm1); [lia..|].
  destruct (logest_down_norm 4 15 1 10 (x / 2 ^ (4 * k1)) (40 + 40 * k1)) as (k2 & -> & Hk2 & Hm2);
    [lia..|].
  assert (Ed : x / 2 ^ (4 * k1) / 2 ^ (1 * k2) = x / 2 ^ (4 * k1 + k2)).
  { rewrite Z.div_div, <- Z.pow_add_r by lia. do 2 f_equal. lia. }
  rewrite Ed in *. set (k := 4 * k1 + k2) in *. set (m := x / 2 ^ k) in *.
  pose proof (Z.div_mod x (2 ^ k) ltac:(lia)) as Hd.
  pose proof (Z.mod_pos_bound x (2 ^ k) ltac:(lia)).
  assert (Hk60 : k <= 60).
  { destruct (Z.le_gt_cases k 60); [done|]. exfalso.
    assert (2 ^ 61 <= 2 ^ k) by (apply Z.pow_le_mono_r; lia). nia. }
  exists k, m. split; [lia|]. split; [done|]. fold m in Hd. split; [nia|].
  change 7 with (Z.ones 3). rewrite Z.land_ones by lia. change (2 ^ 3) with 8.
  replace (m mod 8) with (m - 8) by (rewrite (Z.mod_eq m 8) by lia; Z.div_mod_to_equations; lia).
  lia.
Qed.

Lemma mantissa_cases (P : Z -> Prop) m : 8 <= m <= 15 ->
  P 8 -> P 9 -> P 10 -> P 11 -> P 12 -> P 13 -> P 14 -> P 15 -> P m.
Proof.
  intros Hm ? ? ? ? ? ? ? ?.
  assert (m = 8 \/ m = 9 \/ m = 10 \/ m = 11 \/ m = 12 \/ m = 13 \/ m = 14 \/ m = 15) as E by lia.
  by repeat destruct E as [->|E]; subst.
Qed.

(** The estimate is ten times a base-two logarithm: with [y] the estimate of a
    64-bit [x] from 2 on, [2^(y-1) < x^10 < 2^(y+2)], so [y] is within 2 of
    [10*log2(x)]. *)
Theorem logest_approximates (x : Z) (Hx : 2 <= x < 2 ^ 64) :
  2 ^ (sqlite3LogEst x - 1) < x ^ 10 < 2 ^ (sqlite3LogEst x + 2).
Proof.
  destruct (Z.lt_ge_cases x 8) as [Hlt|Hge].
  - assert (x = 2 \/ x = 3 \/ x = 4 \/ x = 5 \/ x = 6 \/ x = 7) as E by lia.
    repeat destruct E as [->|E]; subst; by vm_compute.
  - destruct (LogEst_norm x) as (k & m & Hk & Hm & Hx' & ->); [lia|].
    assert (Hlo : (m * 2 ^ k) ^ 10 <= x ^ 10) by (apply Z.pow_le_mono_l; lia).
    assert (Hhi : x ^ 10 < ((m + 1) * 2 ^ k) ^ 10) by (apply Z.pow_lt_mono_l; lia).
    rewrite Z.pow_mul_l, <- Z.pow_mul_r in Hlo, Hhi by lia.
    assert (Ht : 2 ^ (logest_a.[m - 8] + 29) < m ^ 10 /\ (m + 1) ^ 10 <= 2 ^ (logest_a.[m - 8] + 32) /\
                 0 <= logest_a.[m - 8]).
    { apply (mantissa_cases (fun m => 2 ^ (logest_a.[m - 8] + 29) < m ^ 10 /\
        (m + 1) ^ 10 <= 2 ^ (logest_a.[m - 8] + 32) /\ 0 <= logest_a.[m - 8])); [done|by vm_compute..]. }
    destruct Ht as (Ht1 & Ht2 & Ht3). set (a := logest_a.[m - 8]) in *.
    replace (a + 10 * k + 30 - 1) with ((a + 29) + k * 10) by lia.
    replace (a + 10 * k + 30 + 2) with ((a + 32) + k * 10) by lia.
    rewrite (Z.pow_add_r 2 (a + 29)), (Z.pow_add_r 2 (a + 32)) by lia.
    pose proof (Z.pow_pos_nonneg 2 (k * 10) ltac:(lia) ltac:(lia)). split.
    + eapply Z.lt_le_trans; [|exact Hlo]. by apply Z.mul_lt_mono_pos_r.
    + eapply Z.lt_le_trans; [exact Hhi|]. by apply Z.mul_le_mono_nonneg_r; [lia|].
Qed.
Lemma logest_approximates_witness :
  2 ^ (sqlite3LogEst 1000 - 1) < 1000 ^ 10 < 2 ^ (sqlite3LogEst 1000 + 2).
Proof. apply (logest_approximates 1000). lia. Defined.

(** Converting an estimate back loses less than an eighth: for [8 <= x < 2^61]
    the result keeps the four most significant bits of [x]. *)
Theorem logest_roundtrip (x : Z) (Hx : 8 <= x < 2 ^ 61) :
  let r := sqlite3LogEstToInt (sqlite3LogEst x) in r <= x /\ 8 * x < 9 * r.
Proof.
  cbn zeta. destruct (LogEst_norm x) as (k & m & Hk & Hm & Hx' & ->); [lia|].
  assert (Hk57 : k <= 57).
  { destruct (Z.le_gt_cases k 57); [done|]. exfalso.
    assert (2 ^ 58 <= 2 ^ k) by (apply Z.pow_le_mono_r; lia). nia. }
  assert (E : sqlite3LogEstToInt (logest_a.[m - 8] + 10 * k + 30) = m * 2 ^ k).
  { pose (a := logest_a.[m - 8]). fold a.
    assert (Ha : 0 <= a < 10 /\ (if 5 <=? a then a - 2 else if 1 <=? a then a - 1 else a) = m - 8).
    { unfold a. apply (mantissa_cases (fun m => 0 <= logest_a.[m - 8] < 10 /\
        (if 5 <=? logest_a.[m - 8] then logest_a.[m - 8] - 2
         else if 1 <=? logest_a.[m - 8] then logest_a.[m - 8] - 1 else logest_a.[m - 8]) = m - 8));
      [done|by vm_compute..]. }
    destruct Ha as [Ha1 Ha2]. unfold sqlite3LogEstToInt.
    replace (a + 10 * k + 30) with ((k + 3) * 10 + a) by lia.
    assert (Eq : ((k + 3) * 10 + a) ÷ 10 = k + 3).
    { rewrite Z.quot_div_nonneg by lia. Z.div_mod_to_equations; lia. }
    assert (Er : Z.rem ((k + 3) * 10 + a) 10 = a).
    { rewrite Z.rem_mod_nonneg by lia. Z.div_mod_to_equations; lia. }
    rewrite Eq, Er, Ha2. rewrite (proj2 (Z.ltb_ge 60 _)), (proj2 (Z.leb_le 3 _)) by lia.
    replace (k + 3 - 3) with k by lia. rewrite Z.shiftl_mul_pow2 by lia. unfold u64.
    replace (m - 8 + 8) with m by lia. rewrite Z.mod_small; [done|]. nia. }
  rewrite E. nia.
Qed.
Lemma logest_roundtrip_witness :
  sqlite3LogEstToInt (sqlite3LogEst 1000) <= 1000 /\
  8 * 1000 < 9 * sqlite3LogEstToInt (sqlite3LogEst 1000).
Proof. apply (logest_roundtrip 1000). lia. Defined.
