(* ===== verification/Decimal.v ===== *)
(** Decimal and binary floating point (util.c): wide multiplication, the table of
    powers of ten, the conversions between binary and decimal mantissas, and the
    text-to-double parser.  A double is its 64-bit pattern.  The wasm target has
    neither [__uint128_t] enabled nor [_WIN64], so the portable branches of the
    multiplications are the ones compiled. *)

From S2P Require Import Prelude Bits Ctype Numeric.

(** ** Wide multiplication *)

(** The result and [*pLo]. *)
Definition sqlite3Multiply128 (a b : Z) : Z * Z :=
  let a0 := u32 a in
  let a1 := Z.shiftr a 32 in
  let b0 := u32 b in
  let b1 := Z.shiftr b 32 in
  let a0b0 := u64 (a0 * b0) in
  let a1b1 := u64 (a1 * b1) in
  let a0b1 := u64 (a0 * b1) in
  let a1b0 := u64 (a1 * b0) in
  let t := u64 (Z.shiftr a0b0 32 + u32 a0b1 + u32 a1b0) in
  (u64 (a1b1 + Z.shiftr a0b1 32 + Z.shiftr a1b0 32 + Z.shiftr t 32),
   Z.lor (Z.land a0b0 0xffffffff) (u64 (Z.shiftl t 32))).

Definition sqlite3Multiply160 (a aLo b : Z) : Z * Z :=
  let x2 := Z.shiftr a 32 in
  let x1 := Z.land a 0xffffffff in
  let x0 := aLo in
  let y1 := Z.shiftr b 32 in
  let y0 := Z.land b 0xffffffff in
  let x2y1 := u64 (x2 * y1) in
  let r4 := Z.shiftr x2y1 32 in
  let x2y0 := u64 (x2 * y0) in
  let x1y1 := u64 (x1 * y1) in
  let r3 := u64 (Z.land x2y1 0xffffffff + Z.shiftr x2y0 32 + Z.shiftr x1y1 32) in
  let x1y0 := u64 (x1 * y0) in
  let x0y1 := u64 (x0 * y1) in
  let r2 := u64 (Z.land x2y0 0xffffffff + Z.land x1y1 0xffffffff
                 + Z.shiftr x1y0 32 + Z.shiftr x0y1 32) in
  let x0y0 := u64 (x0 * y0) in
  let r1 := u64 (Z.land x1y0 0xffffffff + Z.land x0y1 0xffffffff + Z.shiftr x0y0 32) in
  let r2 := u64 (r2 + Z.shiftr r1 32) in
  let r3 := u64 (r3 + Z.shiftr r2 32) in
  (u64 (u64 (Z.shiftl r4 32) + r3), Z.land r2 0xffffffff).

(** ** Powers of ten *)

Definition POWERSOF10_FIRST : Z := -348.
Definition POWERSOF10_LAST : Z := 347.

Definition aBase : list Z :=
  [0x8000000000000000; 0xa000000000000000; 0xc800000000000000; 0xfa00000000000000;
   0x9c40000000000000; 0xc350000000000000; 0xf424000000000000; 0x9896800000000000;
   0xbebc200000000000; 0xee6b280000000000; 0x9502f90000000000; 0xba43b74000000000;
   0xe8d4a51000000000; 0x9184e72a00000000; 0xb5e620f480000000; 0xe35fa931a0000000;
   0x8e1bc9bf04000000; 0xb1a2bc2ec5000000; 0xde0b6b3a76400000; 0x8ac7230489e80000;
   0xad78ebc5ac620000; 0xd8d726b7177a8000; 0x878678326eac9000; 0xa968163f0a57b400;
   0xd3c21bcecceda100; 0x84595161401484a0; 0xa56fa5b99019a5c8].
Definition aScale : list Z :=
  [0x8049a4ac0c5811ae; 0xcf42894a5dce35ea; 0xa76c582338ed2621; 0x873e4f75e2224e68;
   0xda7f5bf590966848; 0xb080392cc4349dec; 0x8e938662882af53e; 0xe65829b3046b0afa;
   0xba121a4650e4ddeb; 0x964e858c91ba2655; 0xf2d56790ab41c2a2; 0xc428d05aa4751e4c;
   0x9e74d1b791e07e48; 0xcccccccccccccccc; 0xcecb8f27f4200f3a; 0xa70c3c40a64e6c51;
   0x86f0ac99b4e8dafd; 0xda01ee641a708de9; 0xb01ae745b101e9e4; 0x8e41ade9fbebc27d;
   0xe5d3ef282a242e81; 0xb9a74a0637ce2ee1; 0x95f83d0a1fb69cd9; 0xf24a01a73cf2dccf;
   0xc3b8358109e84f07; 0x9e19db92b4e31ba9].
Definition aScaleLo : list Z :=
  [0x205b896d; 0x52064cad; 0xaf2af2b8; 0x5a7744a7; 0xaf39a475; 0xbd8d794e;
   0x547eb47b; 0xcb4a5a3; 0x92f34d62; 0x3a6a07f9; 0xfae27299; 0xaa97e14c;
   0x775ea265; 0xcccccccc; 0x0; 0x999090b6; 0x69a028bb; 0xe80e6f48;
   0x5ec05dd0; 0x14588f14; 0x8f1668c9; 0x6d953e2c; 0x4abdaf10; 0xbc633b39;
   0xa862f81; 0x6c07a2c2].

(** The result and [*pLo]. *)
Definition powerOfTen (p : Z) : Z * Z :=
  let finish g n :=
    let s := aScale.[g + 13] in
    if n =? 0 then (s, aScaleLo.[g + 13]) else
    let '(x, lo) := sqlite3Multiply160 s (aScaleLo.[g + 13]) (aBase.[n]) in
    if Z.land (Z.shiftl 1 63) x =? 0
    then (Z.lor (u64 (Z.shiftl x 1)) (Z.land (Z.shiftr lo 31) 1), Z.lor (u32 (Z.shiftl lo 1)) 1)
    else (x, lo) in
  if p <? 0 then
    if p =? -1 then (aScale.[13], aScaleLo.[13]) else
    let g := p ÷ 27 in
    let n := Z.rem p 27 in
    if truthy n then finish (g - 1) (n + 27) else finish g n
  else if p <? 27 then (aBase.[p], 0)
  else finish (p ÷ 27) (Z.rem p 27).

Definition pwr10to2 (p : Z) : Z := Z.shiftr (p * 108853) 15.
Definition pwr2to10 (p : Z) : Z := Z.shiftr (p * 78913) 18.
(** [__builtin_clzll], for a non-zero argument. *)
Definition countLeadingZeros (m : Z) : Z := 63 - Z.log2 m.

(** ** Conversions *)

(** [*pD] and [*pP]. *)
Definition sqlite3Fp2Convert10 (m e n : Z) : Z * Z :=
  let p := n - 1 - pwr2to10 (e + 63) in
  let '(h, _) := sqlite3Multiply128 m (fst (powerOfTen p)) in
  let d :=
    if n =? 18 then
      let h := Z.shiftr h (- (e + pwr10to2 p + 2)) in
      Z.shiftr (u64 (h + Z.land (u64 (Z.shiftl h 1)) 2)) 1
    else Z.shiftr h (- (e + pwr10to2 p + 1)) in
  (d, - p).

Definition INFINITY : Z := 0x7ff0000000000000.
(** The bit pattern of the double. *)
Definition sqlite3Fp10Convert2 (d p : Z) : Z :=
  if p <? POWERSOF10_FIRST then 0 else
  if POWERSOF10_LAST <? p then INFINITY else
  let b := 64 - countLeadingZeros d in
  let lp := pwr10to2 p in
  let e := 53 - b - lp in
  if (1074 <? e) && (1130 <=? e) then 0 else
  let e := if 1074 <? e then 1074 else e in
  let s := - (e - (64 - b) + lp + 3) in
  let '(pwr10h, pwr10l) := powerOfTen p in
  let '(pwr10h, pwr10l) :=
    if truthy pwr10l then (u64 (pwr10h + 1), u32 (Z.lnot pwr10l)) else (pwr10h, pwr10l) in
  let x := u64 (Z.shiftl d (64 - b)) in
  let '(hi, lo) := sqlite3Multiply128 x pwr10h in
  let mid1 := Z.shiftr lo 32 in
  let '(sticky, hi) :=
    if Z.land hi (Z.shiftl 1 s - 1) =? 0 then
      let mid2 := Z.shiftr (fst (sqlite3Multiply128 x (u64 (Z.shiftl pwr10l 32)))) 32 in
      (b2z (1 <? u32 (mid1 - mid2)), u64 (hi - b2z (mid1 <? mid2)))
    else (1, hi) in
  let u := Z.lor (Z.shiftr hi s) sticky in
  let adj := Z.shiftl 1 55 - 2 <=? u in
  let '(u, e) := if adj then (Z.lor (Z.shiftr u 1) (Z.land u 1), e - 1) else (u, e) in
  let m := Z.shiftr (u64 (u + 1 + Z.land (Z.shiftr u 2) 1)) 2 in
  if e <=? -972 then INFINITY else
  if truthy (Z.land m (Z.shiftl 1 52))
  then Z.lor (Z.land m (u64 (Z.lnot (Z.shiftl 1 52)))) (u64 (Z.shiftl (1075 - e) 52))
  else m.

(** ** Text to double *)

Definition LARGEST_UINT64 : Z := 2 ^ 64 - 1.
(** Beyond this no further digit fits in the mantissa. *)
Definition mantissa_limit : Z := (LARGEST_UINT64 - 9) / 10.

(** The loop of [parse_integer_part] from the second digit on: the mantissa, the
    position, the exponent and [mState]. *)
Fixpoint atof_int (fuel : nat) (z : list Z) (p s : Z) : Z * Z * Z * Z :=
  match fuel with
  | O => (s, p, 0, 1)
  | S f =>
      let v := u32 (z.[p] - 48) in
      if v <? 10 then
        let s := u64 (s * 10 + v) in
        if mantissa_limit <=? s then
          let q := skip_while fuel sqlite3Isdigit z (p + 1) (zlen z) 1 in (s, q, q - (p + 1), 9)
        else atof_int f z (p + 1) s
      else (s, p, 0, 1)
  end.
(** The digits after the decimal point. *)
Fixpoint atof_frac (fuel : nat) (z : list Z) (p s d mState : Z) : Z * Z * Z * Z :=
  match fuel with
  | O => (s, p, d, mState)
  | S f =>
      let '(s, d, mState) :=
        if s <? mantissa_limit then (u64 (s * 10 + z.[p] - 48), d - 1, mState) else (s, d, 11) in
      if sqlite3Isdigit (z.[p + 1]) then atof_frac f z (p + 1) s d mState else (s, p + 1, d, mState)
  end.
(** The digits of the exponent. *)
Fixpoint atof_exp (fuel : nat) (z : list Z) (p exp : Z) : Z * Z :=
  match fuel with
  | O => (exp, p)
  | S f => let v := u32 (z.[p] - 48) in
           if v <? 10 then atof_exp f z (p + 1) (if exp <? 10000 then exp * 10 + v else 10000)
           else (exp, p)
  end.

(** The result code and the bit pattern stored in [*pResult]. *)
Definition sqlite3AtoF (z : list Z) : Z * Z :=
  let fuel := length z in
  let p := skip_while fuel sqlite3Isspace z 0 (zlen z) 1 in
  let '(neg, p) := if z.[p] =? 45 then (true, p + 1)
                   else if z.[p] =? 43 then (false, p + 1) else (false, p) in
  let v := u32 (z.[p] - 48) in
  let '(s, p, d, mState) := if v <? 10 then atof_int fuel z (p + 1) v else (0, p, 0, 0) in
  let point := z.[p] =? 46 in
  if negb (point && sqlite3Isdigit (z.[p + 1])) && (mState =? 0) then (0, 0) else
  let '(s, p, d, mState) :=
    if point then
      let '(s, p, d, mState) :=
        if sqlite3Isdigit (z.[p + 1]) then atof_frac fuel z (p + 1) s d (Z.lor mState 1)
        else (s, p + 1, d, mState) in
      (s, p, d, Z.lor mState 2)
    else (s, p, d, mState) in
  let '(p, d, mState) :=
    if (z.[p] =? 101) || (z.[p] =? 69) then
      let p := p + 1 in
      let '(esign, p) := if z.[p] =? 45 then (-1, p + 1)
                         else if z.[p] =? 43 then (1, p + 1) else (1, p) in
      let v := u32 (z.[p] - 48) in
      if v <? 10 then
        let '(exp, p) := atof_exp fuel z (p + 1) v in (p, d + esign * exp, Z.lor mState 2)
      else (p - 1, d, mState)
    else (p, d, mState) in
  let '(r, mState) := if s =? 0 then (0, Z.lor mState 4) else (sqlite3Fp10Convert2 s d, mState) in
  let r := if neg then Z.lxor r (Z.shiftl 1 63) else r in
  if z.[p] =? 0 then (mState, r) else
  let q := skip_while fuel sqlite3Isspace z p (zlen z) 1 in
  if z.[q] =? 0 then (mState, r) else (i32 (Z.lor 0xfffffff0 mState), r).

(** ** Wide multiplication is exact *)

Lemma land_mask32 x : Z.land x 0xffffffff = x mod 2 ^ 32.
Proof. change 0xffffffff with (Z.ones 32). by rewrite Z.land_ones by lia. Qed.
Lemma shiftr32 x : Z.shiftr x 32 = x / 2 ^ 32.
Proof. by rewrite Z.shiftr_div_pow2 by lia. Qed.
Lemma u64_small x : 0 <= x < 2 ^ 64 -> u64 x = x.
Proof. intros. unfold u64. by apply Z.mod_small. Qed.
Lemma mul32 x y : 0 <= x < 2 ^ 32 -> 0 <= y < 2 ^ 32 -> 0 <= x * y <= (2 ^ 32 - 1) * (2 ^ 32 - 1).
Proof. intros. nia. Qed.
Lemma halves x : is_u64 x -> exists h l, x = h * 2 ^ 32 + l /\ 0 <= h < 2 ^ 32 /\ 0 <= l < 2 ^ 32 /\
  x / 2 ^ 32 = h /\ x mod 2 ^ 32 = l.
Proof. unfold is_u64. intros. exists (x / 2 ^ 32), (x mod 2 ^ 32). Z.div_mod_to_equations. lia. Qed.

Lemma Multiply128_exact a b : is_u64 a -> is_u64 b ->
  let '(hi, lo) := sqlite3Multiply128 a b in
  hi * 2 ^ 64 + lo = a * b /\ is_u64 hi /\ is_u64 lo.
Proof.
  intros Ha Hb. unfold sqlite3Multiply128.
  destruct (halves a Ha) as (a1 & a0 & Ea & Ha1 & Ha0 & Eah & Eal).
  destruct (halves b Hb) as (b1 & b0 & Eb & Hb1 & Hb0 & Ebh & Ebl).
  unfold u32. rewrite !shiftr32, !land_mask32, Eah, Eal, Ebh, Ebl.
  assert (Hab : a * b = a1 * b1 * 2 ^ 64 + (a0 * b1 + a1 * b0) * 2 ^ 32 + a0 * b0) by (subst; ring).
  rewrite Hab. clear Ea Eb Hab Ha Hb Eah Eal Ebh Ebl.
  pose proof (mul32 a1 b1 Ha1 Hb1). pose proof (mul32 a0 b1 Ha0 Hb1).
  pose proof (mul32 a1 b0 Ha1 Hb0). pose proof (mul32 a0 b0 Ha0 Hb0).
  generalize dependent (a1 * b1). generalize dependent (a0 * b1). generalize dependent (a1 * b0).
  generalize dependent (a0 * b0). clear. intros p00 H00 p10 H10 p01 H01 p11 H11.
  rewrite !(u64_small p00), !(u64_small p10), !(u64_small p01), !(u64_small p11) by lia.
  set (t := p00 / 2 ^ 32 + p01 mod 2 ^ 32 + p10 mod 2 ^ 32).
  assert (Ht : 0 <= t < 3 * 2 ^ 32) by (unfold t; Z.div_mod_to_equations; lia).
  rewrite !(u64_small t) by lia.
  assert (El : Z.lor (p00 mod 2 ^ 32) (u64 (Z.shiftl t 32)) = (t mod 2 ^ 32) * 2 ^ 32 + p00 mod 2 ^ 32).
  { rewrite Z.lor_comm. unfold u64. rewrite Z.shiftl_mul_pow2 by lia.
    change (2 ^ 64) with (2 ^ 32 * 2 ^ 32). rewrite Z.mul_mod_distr_r by lia.
    rewrite <- (lor_shiftl_add (t mod 2 ^ 32) _ 32) by (lia || (apply Z.mod_pos_bound; lia)).
    by rewrite Z.shiftl_mul_pow2 by lia. }
  rewrite El. rewrite u64_small by (Z.div_mod_to_equations; lia). unfold t, is_u64.
  Z.div_mod_to_equations. lia.
Qed.

(** The 96-bit number [a * 2^32 + aLo] times [b], without its low 64 bits. *)
Lemma Multiply160_exact a aLo b : is_u64 a -> is_u32 aLo -> is_u64 b ->
  let '(hi, lo) := sqlite3Multiply160 a aLo b in
  hi * 2 ^ 32 + lo = (a * 2 ^ 32 + aLo) * b / 2 ^ 64 /\ is_u64 hi /\ is_u32 lo.
Proof.
  intros Ha Hl Hb. unfold sqlite3Multiply160.
  destruct (halves a Ha) as (x2 & x1 & Ea & Hx2 & Hx1 & Eah & Eal).
  destruct (halves b Hb) as (y1 & y0 & Eb & Hy1 & Hy0 & Ebh & Ebl).
  unfold is_u32 in Hl. rewrite !shiftr32, !land_mask32, Eah, Eal, Ebh, Ebl.
  assert (Hab : (a * 2 ^ 32 + aLo) * b =
    x2 * y1 * 2 ^ 96 + (x2 * y0 + x1 * y1) * 2 ^ 64 + (x1 * y0 + aLo * y1) * 2 ^ 32 + aLo * y0)
    by (subst; ring).
  assert (Htot : (a * 2 ^ 32 + aLo) * b <= (2 ^ 96 - 1) * (2 ^ 64 - 1))
    by (apply Z.mul_le_mono_nonneg; unfold is_u64 in *; lia).
  rewrite Hab in *. clear Ea Eb Hab Ha Hb Eah Eal Ebh Ebl.
  pose proof (mul32 x2 y1 Hx2 Hy1). pose proof (mul32 x2 y0 Hx2 Hy0).
  pose proof (mul32 x1 y1 Hx1 Hy1). pose proof (mul32 x1 y0 Hx1 Hy0).
  pose proof (mul32 aLo y1 Hl Hy1). pose proof (mul32 aLo y0 Hl Hy0).
  generalize dependent (x2 * y1). generalize dependent (x2 * y0). generalize dependent (x1 * y1).
  generalize dependent (x1 * y0). generalize dependent (aLo * y1). generalize dependent (aLo * y0).
  clear. intros p00 H00 p01 H01 p10 H10 p11 H11 p20 H20 p21 Htot H21.
  rewrite !(u64_small p00), !(u64_small p01), !(u64_small p10), !(u64_small p11),
    !(u64_small p20), !(u64_small p21) by lia.
  rewrite !(u64_small (p10 mod 2 ^ 32 + _ + _)) by (Z.div_mod_to_equations; lia).
  rewrite !(u64_small (p20 mod 2 ^ 32 + _ + _ + _)) by (Z.div_mod_to_equations; lia).
  rewrite !(u64_small (p21 mod 2 ^ 32 + _ + _)) by (Z.div_mod_to_equations; lia).
  set (r1 := p10 mod 2 ^ 32 + p01 mod 2 ^ 32 + p00 / 2 ^ 32).
  set (r2 := p20 mod 2 ^ 32 + p11 mod 2 ^ 32 + p10 / 2 ^ 32 + p01 / 2 ^ 32).
  set (r3 := p21 mod 2 ^ 32 + p20 / 2 ^ 32 + p11 / 2 ^ 32).
  assert (Hr1 : 0 <= r1 < 3 * 2 ^ 32) by (unfold r1; Z.div_mod_to_equations; lia).
  assert (Hr2 : 0 <= r2 < 4 * 2 ^ 32) by (unfold r2; Z.div_mod_to_equations; lia).
  assert (Hr3 : 0 <= r3 < 3 * 2 ^ 32) by (unfold r3; Z.div_mod_to_equations; lia).
  rewrite !(u64_small (r2 + _)) by (Z.div_mod_to_equations; lia).
  rewrite !(u64_small (r3 + _)) by (Z.div_mod_to_equations; lia).
  rewrite Z.shiftl_mul_pow2 by lia. rewrite (u64_small (_ * 2 ^ 32)) by (Z.div_mod_to_equations; lia).
  (* the exact quotient *)
  set (R2 := r2 + r1 / 2 ^ 32).
  assert (Eq : (p21 * 2 ^ 96 + (p20 + p11) * 2 ^ 64 + (p10 + p01) * 2 ^ 32 + p00) / 2 ^ 64 =
               (p21 / 2 ^ 32 * 2 ^ 32 + (r3 + R2 / 2 ^ 32)) * 2 ^ 32 + R2 mod 2 ^ 32).
  { rewrite (Z.add_comm _ (R2 mod _)), Z.mul_add_distr_r, Z.mul_add_distr_r.
    pose proof (Z.div_mod R2 (2 ^ 32) ltac:(lia)) as HR.
    assert (E : p21 / 2 ^ 32 * 2 ^ 32 * 2 ^ 32 + r3 * 2 ^ 32 + R2 =
      p21 * 2 ^ 32 + (p20 + p11) + (p10 / 2 ^ 32 + p01 / 2 ^ 32) + r1 / 2 ^ 32).
    { unfold R2, r2, r3. clear. Z.div_mod_to_equations. lia. }
    transitivity (p21 / 2 ^ 32 * 2 ^ 32 * 2 ^ 32 + r3 * 2 ^ 32 + R2); [|lia].
    rewrite E. unfold r1. clear. Z.div_mod_to_equations. lia. }
  assert (Hq : (p21 * 2 ^ 96 + (p20 + p11) * 2 ^ 64 + (p10 + p01) * 2 ^ 32 + p00) / 2 ^ 64 < 2 ^ 96)
    by (apply Z.div_lt_upper_bound; lia).
  rewrite Eq in *. pose proof (Z.mod_pos_bound R2 (2 ^ 32) ltac:(lia)) as HRm.
  assert (0 <= p21 / 2 ^ 32 * 2 ^ 32) by (clear - H21; Z.div_mod_to_equations; lia).
  assert (0 <= R2 / 2 ^ 32) by (apply Z.div_pos; [unfold R2; clear - Hr2 Hr1; Z.div_mod_to_equations; lia|lia]).
  rewrite u64_small by lia. unfold is_u64, is_u32. lia.
Qed.

(** The wide multiplications are exact: [sqlite3Multiply128] returns both
    halves of the 128-bit product, and [sqlite3Multiply160] the upper 96 bits of
    the product of a 96-bit and a 64-bit number. *)
Theorem wide_multiply_exact (a aLo b : Z) (Ha : is_u64 a) (Hl : is_u32 aLo) (Hb : is_u64 b) :
  (let '(hi, lo) := sqlite3Multiply128 a b in
   hi * 2 ^ 64 + lo = a * b /\ is_u64 hi /\ is_u64 lo) /\
  (let '(hi, lo) := sqlite3Multiply160 a aLo b in
   hi * 2 ^ 32 + lo = (a * 2 ^ 32 + aLo) * b / 2 ^ 64 /\ is_u64 hi /\ is_u32 lo).
Proof. split; [by apply Multiply128_exact|by apply Multiply160_exact]. Qed.
Lemma wide_multiply_exact_witness :
  (let '(hi, lo) := sqlite3Multiply128 (2 ^ 64 - 1) (2 ^ 64 - 1) in
   hi * 2 ^ 64 + lo = (2 ^ 64 - 1) * (2 ^ 64 - 1) /\ is_u64 hi /\ is_u64 lo).
Proof.
  apply (wide_multiply_exact (2 ^ 64 - 1) 0 (2 ^ 64 - 1)); unfold is_u64, is_u32; lia.
Defined.

(** ** The powers of ten *)

(** [b^p] as a fraction. *)
Definition num (b p : Z) : Z := b ^ Z.max p 0.
Definition den (b p : Z) : Z := b ^ Z.max (- p) 0.

(** [10^p] scaled by the power of two that makes it a 64-bit number, as a
    fraction. *)
Definition scaled_num (p : Z) : Z := num 10 p * num 2 (63 - pwr10to2 p).
Definition scaled_den (p : Z) : Z := den 10 p * den 2 (63 - pwr10to2 p).

Definition power_ok (p : Z) : bool :=
  let '(x, lo) := powerOfTen p in
  let n := scaled_num p in
  let d := scaled_den p in
  (2 ^ 63 <=? x) && (x <? 2 ^ 64) && (x * d <=? n) && (n <? (x + 1) * d) &&
  (0 <=? lo) && (lo <? 2 ^ 32) && (Z.abs ((x * 2 ^ 32 + lo) * d - n * 2 ^ 32) <=? 2 * d).

(** The exponents in range, each checked by evaluation. *)
Definition exponents : list Z := map (fun n => Z.of_nat n - 348) (seq 0 696).
Lemma power_all : forallb power_ok exponents = true.
Proof. vm_compute. reflexivity. Qed.
Lemma power_in p : POWERSOF10_FIRST <= p <= POWERSOF10_LAST -> power_ok p = true.
Proof.
  unfold POWERSOF10_FIRST, POWERSOF10_LAST. intros Hp.
  pose proof power_all as H. rewrite forallb_forall in H. apply H. unfold exponents.
  apply in_map_iff. exists (Z.to_nat (p + 348)). split; [lia|]. apply in_seq. lia.
Qed.

Lemma powerOfTen_floor p : POWERSOF10_FIRST <= p <= POWERSOF10_LAST ->
  let x := fst (powerOfTen p) in
  2 ^ 63 <= x < 2 ^ 64 /\ x * scaled_den p <= scaled_num p < (x + 1) * scaled_den p.
Proof.
  intros Hp. pose proof (power_in p Hp) as H. unfold power_ok in H. cbv zeta in H.
  destruct (powerOfTen p) as [x lo]. cbn [fst].
  rewrite !andb_true_iff, !Z.leb_le, !Z.ltb_lt in H. lia.
Qed.

(** The table of powers of ten is right for all 696 exponents: [powerOfTen p]
    returns the integer part of [10^p] scaled by [2^(63 - pwr10to2 p)], which has its
    most significant bit set, and with the 32 bits stored in [*pLo] the scaled power
    is known to within two units of the 96th bit. *)
Theorem powerOfTen_exact (p : Z) (Hp : POWERSOF10_FIRST <= p <= POWERSOF10_LAST) :
  let '(x, lo) := powerOfTen p in
  2 ^ 63 <= x < 2 ^ 64 /\ x = scaled_num p / scaled_den p /\ is_u32 lo /\
  Z.abs ((x * 2 ^ 32 + lo) * scaled_den p - scaled_num p * 2 ^ 32) <= 2 * scaled_den p.
Proof.
  pose proof (power_in p Hp) as H. unfold power_ok in H. cbv zeta in H. destruct (powerOfTen p) as [x lo].
  rewrite !andb_true_iff, !Z.leb_le, !Z.ltb_lt in H. unfold is_u32.
  split; [lia|]. split; [|lia]. apply (Z.div_unique _ _ _ (scaled_num p - scaled_den p * x)); lia.
Qed.
Lemma powerOfTen_exact_witness : fst (powerOfTen (-348)) = scaled_num (-348) / scaled_den (-348).
Proof.
  refine (proj1 (proj2 (powerOfTen_exact (-348) _))).
  unfold POWERSOF10_FIRST, POWERSOF10_LAST. lia.
Defined.

Lemma num_pos b p : 0 < b -> 0 < num b p.
Proof. intros. unfold num. apply Z.pow_pos_nonneg; lia. Qed.
Lemma den_pos b p : 0 < b -> 0 < den b p.
Proof. intros. unfold den. apply Z.pow_pos_nonneg; lia. Qed.
(** [2^e = 2^E / 2^k] when [e = E - k]. *)
Lemma shift_frac e E k : 0 <= k -> e = E - k ->
  den 2 e * num 2 E = num 2 e * den 2 E * 2 ^ k.
Proof.
  intros Hk ->. unfold num, den. rewrite <- !Z.pow_add_r by lia. f_equal. lia.
Qed.

(** Binary to decimal: for a normalised mantissa [m] and fewer than 18 digits,
    the decimal mantissa [D] and exponent [P] computed by [sqlite3Fp2Convert10]
    satisfy [D * 10^P <= m * 2^e < (D + 2) * 10^P] (under the ranges the code
    asserts), so the conversion is off by less than two units of the last digit. *)
Theorem fp2convert10_accurate (m e n : Z) (Hm : 2 ^ 63 <= m < 2 ^ 64) (Hn : 1 <= n <= 17)
  (Hrange : POWERSOF10_FIRST <= n - 1 - pwr2to10 (e + 63) <= POWERSOF10_LAST)
  (Hshift : 0 <= - (e + pwr10to2 (n - 1 - pwr2to10 (e + 63)) + 1) <= 63) :
  let '(D, P) := sqlite3Fp2Convert10 m e n in
  D * num 10 P * den 2 e <= m * den 10 P * num 2 e < (D + 2) * num 10 P * den 2 e.
Proof.
  unfold sqlite3Fp2Convert10. set (p := n - 1 - pwr2to10 (e + 63)) in *.
  destruct (powerOfTen_floor p Hrange) as [Hx Hf]. cbn zeta in Hx, Hf.
  set (x := fst (powerOfTen p)) in *.
  pose proof (Multiply128_exact m x ltac:(unfold is_u64; lia) ltac:(unfold is_u64; lia)) as Hmul.
  destruct (sqlite3Multiply128 m x) as [h lo]. destruct Hmul as (Hmul & Hh & Hlo).
  rewrite (proj2 (Z.eqb_neq n 18)) by lia. set (s := - (e + pwr10to2 p + 1)) in *.
  rewrite Z.shiftr_div_pow2 by lia. set (D := h / 2 ^ s).
  assert (HD : D * 2 ^ (64 + s) <= m * x < (D + 1) * 2 ^ (64 + s)).
  { assert (E : h = m * x / 2 ^ 64).
    { apply (Z.div_unique _ _ _ lo); unfold is_u64 in *; lia. }
    assert (ED : D = m * x / 2 ^ (64 + s)).
    { unfold D. rewrite E, Z.div_div, <- Z.pow_add_r by lia. done. }
    pose proof (Z.div_mod (m * x) (2 ^ (64 + s)) ltac:(lia)).
    pose proof (Z.mod_pos_bound (m * x) (2 ^ (64 + s)) ltac:(lia)). rewrite ED. lia. }
  unfold scaled_num, scaled_den in Hf. set (E := 63 - pwr10to2 p) in *.
  assert (HeE : e = E - (64 + s)) by (unfold s, E; lia).
  pose proof (shift_frac e E (64 + s) ltac:(lia) HeE) as Hsf.
  assert (En : num 10 (- p) = den 10 p) by reflexivity.
  assert (Ed : den 10 (- p) = num 10 p) by (unfold num, den; by rewrite Z.opp_involutive).
  rewrite En, Ed.
  pose proof (num_pos 2 E ltac:(lia)) as P1. pose proof (den_pos 2 E ltac:(lia)) as P2.
  pose proof (num_pos 2 e ltac:(lia)) as P3. pose proof (den_pos 2 e ltac:(lia)) as P4.
  pose proof (num_pos 10 p ltac:(lia)) as P5. pose proof (den_pos 10 p ltac:(lia)) as P6.
  revert Hf Hsf P1 P2 P3 P4 P5 P6 HD.
  generalize (num 2 E) (den 2 E) (num 2 e) (den 2 e) (num 10 p) (den 10 p).
  assert (Hpow : 2 ^ 64 <= 2 ^ (64 + s)) by (apply Z.pow_le_mono_r; lia).
  revert Hpow. generalize (2 ^ (64 + s)). clearbody D x. clear - Hm Hx.
  intros K HK u v u' v' a b Hf Hsf P1 P2 P3 P4 P5 P6 HD. split.
  - apply (Z.mul_le_mono_pos_r _ _ u); [done|].
    replace (D * b * v' * u) with ((D * K) * (b * v) * u') by (rewrite <- (Z.mul_assoc (D * b)), Hsf; ring).
    replace (m * a * u' * u) with (m * (a * u) * u') by ring.
    apply Z.mul_le_mono_nonneg_r; [lia|]. transitivity (m * x * (b * v)).
    + apply Z.mul_le_mono_nonneg_r; nia.
    + rewrite <- Z.mul_assoc. apply Z.mul_le_mono_nonneg_l; lia.
  - apply (Z.mul_lt_mono_pos_r u); [done|].
    replace ((D + 2) * b * v' * u) with (((D + 2) * K) * (b * v) * u')
      by (rewrite <- (Z.mul_assoc ((D + 2) * b)), Hsf; ring).
    replace (m * a * u' * u) with (m * (a * u) * u') by ring.
    apply Z.mul_lt_mono_pos_r; [lia|]. apply Z.lt_le_trans with (m * ((x + 1) * (b * v))).
    + apply Z.mul_lt_mono_pos_l; lia.
    + rewrite Z.mul_assoc. apply Z.mul_le_mono_nonneg_r; [nia|].
      rewrite Z.mul_add_distr_l, Z.mul_1_r. lia.
Qed.
Lemma fp2convert10_accurate_witness :
  let '(D, P) := sqlite3Fp2Convert10 (2 ^ 63) (-63) 15 in
  D * num 10 P * den 2 (-63) <= 2 ^ 63 * den 10 P * num 2 (-63) < (D + 2) * num 10 P * den 2 (-63).
Proof. apply (fp2convert10_accurate (2 ^ 63) (-63) 15); by vm_compute. Defined.

(** ** Integers are converted exactly *)

(** The double nearest to, here equal to, the integer [d] below [2^53]: exponent
    [log2 d], mantissa without its leading bit. *)
Definition double_of_int (d : Z) : Z :=
  (1023 + Z.log2 d) * 2 ^ 52 + (d * 2 ^ (52 - Z.log2 d) - 2 ^ 52).

Lemma hidden_bit m e : 2 ^ 52 <= m < 2 ^ 53 -> 0 <= e < 2 ^ 11 ->
  truthy (Z.land m (Z.shiftl 1 52)) = true /\
  Z.lor (Z.land m (u64 (Z.lnot (Z.shiftl 1 52)))) (u64 (Z.shiftl e 52)) = e * 2 ^ 52 + (m - 2 ^ 52).
Proof.
  intros Hm He. set (f := m - 2 ^ 52).
  assert (Em : m = Z.lor (Z.shiftl 1 52) f) by (rewrite lor_shiftl_add; unfold f; lia).
  assert (Hf : Z.land f (Z.ones 52) = f) by (rewrite Z.land_ones, Z.mod_small; unfold f; lia).
  split.
  - rewrite Em, Z.land_lor_distr_l, <- Hf, <- Z.land_assoc.
    change (Z.land (Z.ones 52) (Z.shiftl 1 52)) with 0. rewrite Z.land_0_r, Z.lor_0_r. done.
  - assert (El : Z.land m (u64 (Z.lnot (Z.shiftl 1 52))) = f).
    { rewrite Em, Z.land_lor_distr_l.
      change (Z.land (Z.shiftl 1 52) (u64 (Z.lnot (Z.shiftl 1 52)))) with 0. rewrite Z.lor_0_l.
      rewrite <- Hf at 1. rewrite <- Z.land_assoc.
      change (Z.land (Z.ones 52) (u64 (Z.lnot (Z.shiftl 1 52)))) with (Z.ones 52). done. }
    rewrite El, Z.lor_comm. rewrite u64_small by (rewrite Z.shiftl_mul_pow2 by lia; nia).
    apply lor_shiftl_add; unfold f; lia.
Qed.

Lemma Multiply128_value a b hi lo : is_u64 a -> is_u64 b -> is_u64 hi -> is_u64 lo ->
  a * b = hi * 2 ^ 64 + lo -> sqlite3Multiply128 a b = (hi, lo).
Proof.
  intros Ha Hb Hh Hl E. pose proof (Multiply128_exact a b Ha Hb) as H.
  destruct (sqlite3Multiply128 a b) as [h l]. destruct H as (H & H1 & H2).
  unfold is_u64 in *. f_equal; lia.
Qed.

Lemma Fp10Convert2_int d : 0 < d < 2 ^ 53 -> sqlite3Fp10Convert2 d 0 = double_of_int d.
Proof.
  intros Hd. pose proof (Z.log2_spec d ltac:(lia)) as Hlog.
  assert (Hk : 0 <= Z.log2 d <= 52).
  { split; [apply Z.log2_nonneg|]. assert (Z.log2 d < 53) by (apply Z.log2_lt_pow2; lia). lia. }
  unfold sqlite3Fp10Convert2, double_of_int, countLeadingZeros.
  set (k := Z.log2 d) in *. clearbody k. rewrite Z.pow_succ_r in Hlog by lia.
  change (0 <? POWERSOF10_FIRST) with false. change (POWERSOF10_LAST <? 0) with false.
  change (pwr10to2 0) with 0. change (powerOfTen 0) with (2 ^ 63, 0). cbn iota.
  replace (53 - (64 - (63 - k)) - 0) with (52 - k) by lia.
  rewrite (proj2 (Z.ltb_ge 1074 _)) by lia. cbn [andb]. change (truthy 0) with false. cbn iota.
  replace (- (52 - k - (64 - (64 - (63 - k))) + 0 + 3)) with 8 by lia.
  replace (64 - (64 - (63 - k))) with (63 - k) by lia.
  set (w := d * 2 ^ (52 - k)).
  assert (Hw : 2 ^ 52 <= w < 2 ^ 53).
  { assert (E52 : 2 ^ k * 2 ^ (52 - k) = 2 ^ 52) by (rewrite <- Z.pow_add_r by lia; f_equal; lia).
    assert (0 < 2 ^ (52 - k)) by (apply Z.pow_pos_nonneg; lia). unfold w.
    change (2 ^ 53) with (2 * 2 ^ 52). nia. }
  assert (Ex : u64 (Z.shiftl d (63 - k)) = w * 2 ^ 11).
  { rewrite Z.shiftl_mul_pow2 by lia. replace (63 - k) with ((52 - k) + 11) by lia.
    rewrite Z.pow_add_r, Z.mul_assoc by lia. fold w. apply u64_small. lia. }
  rewrite Ex. rewrite (Multiply128_value _ _ (w * 2 ^ 10) 0) by (unfold is_u64; lia).
  change (u64 (Z.shiftl 0 32)) with 0.
  rewrite (Multiply128_value _ 0 0 0) by (unfold is_u64; lia).
  cbn [fst]. change (Z.shiftl 1 8 - 1) with (Z.ones 8). rewrite Z.land_ones by lia.
  assert (Em : (w * 2 ^ 10) mod 2 ^ 8 = 0).
  { replace (w * 2 ^ 10) with (w * 4 * 2 ^ 8) by lia. by apply Z.mod_mul. }
  rewrite Em. cbn [Z.eqb]. change (Z.shiftr 0 32) with 0. change (u32 (0 - 0)) with 0.
  change (b2z (1 <? 0)) with 0. change (b2z (0 <? 0)) with 0. rewrite Z.sub_0_r, (u64_small (w * 2 ^ 10)) by lia.
  assert (Eu : Z.shiftr (w * 2 ^ 10) 8 = 4 * w).
  { rewrite Z.shiftr_div_pow2 by lia. replace (w * 2 ^ 10) with (4 * w * 2 ^ 8) by lia.
    by rewrite Z.div_mul by lia. }
  rewrite Eu, Z.lor_0_r. change (Z.shiftl 1 55 - 2) with (2 ^ 55 - 2).
  rewrite (proj2 (Z.leb_gt (2 ^ 55 - 2) (4 * w))) by lia.
  assert (Er : 0 <= Z.land (Z.shiftr (4 * w) 2) 1 <= 1).
  { pose proof (Z.land_ones (Z.shiftr (4 * w) 2) 1 ltac:(lia)) as E1.
    change (Z.ones 1) with 1 in E1. rewrite E1. Z.div_mod_to_equations. lia. }
  rewrite u64_small by lia. rewrite Z.shiftr_div_pow2 by lia.
  assert (Ew : (4 * w + 1 + Z.land (Z.shiftr (4 * w) 2) 1) / 2 ^ 2 = w).
  { generalize dependent (Z.land (Z.shiftr (4 * w) 2) 1). intros r Hr. Z.div_mod_to_equations. lia. }
  rewrite Ew, (proj2 (Z.leb_gt (52 - k) (-972))) by lia.
  destruct (hidden_bit w (1075 - (52 - k))) as [-> ->]; [done|lia|]. f_equal. lia.
Qed.

Lemma u32_digit_lt b : is_u8 b -> (u32 (b - 48) <? 10) = is_dec b.
Proof.
  intros Hb. rewrite <- u32_digit by done. pose proof (u32_digit b Hb).
  zbool; lia || done.
Qed.

Lemma dec_from_mono v ds : digits ds -> 0 <= v -> v <= dec_from v ds.
Proof.
  intros Hd. revert v. induction Hd as [|d ds Hd _ IH]; intros v Hv; [cbn; lia|].
  cbn [dec_from foldl]. fold (dec_from (v * 10 + (d - 48)) ds).
  specialize (IH (v * 10 + (d - 48)) ltac:(lia)). lia.
Qed.

Lemma atof_int_spec fuel pre ds post s : digits ds -> bytes_ok post -> post <> [] ->
  stops is_dec post -> 0 <= s -> dec_from s ds < mantissa_limit -> (length ds < fuel)%nat ->
  atof_int fuel (pre ++ ds ++ post) (zlen pre) s = (dec_from s ds, zlen pre + zlen ds, 0, 1).
Proof.
  intros Hd Hp Hne Hst. revert pre fuel s. induction Hd as [|d ds Hd Hds IH];
    intros pre fuel s Hs Hlim Hf; (destruct fuel as [|fuel]; [cbn in Hf; lia|]); cbn [atof_int app].
  - destruct post as [|x post]; [done|]. rewrite zget_app_len. inversion_clear Hp.
    cbn in Hst. rewrite u32_digit_lt, Hst by done. by rewrite Z.add_0_r.
  - rewrite zget_app_len, u32_digit_val by lia. rewrite (proj2 (Z.ltb_lt (d - 48) 10)) by lia.
    cbn [dec_from foldl] in *. fold (dec_from (s * 10 + (d - 48)) ds) in *.
    pose proof (dec_from_mono (s * 10 + (d - 48)) ds Hds ltac:(lia)).
    assert (mantissa_limit < 2 ^ 64) by (by vm_compute).
    rewrite u64_small, (proj2 (Z.leb_gt _ _)) by lia.
    specialize (IH (pre ++ [d]) fuel (s * 10 + (d - 48)) ltac:(lia) Hlim ltac:(cbn in Hf; lia)).
    rewrite <- app_assoc, zlen_snoc in IH. cbn [app] in IH. by rewrite IH, zlen_cons, Z.add_assoc.
Qed.

(** Integer text is converted to a double exactly: spaces, an optional sign and
    any number of digits with a positive value below [2^53] give result code 1 (a
    valid integer) and the double equal to that integer. *)
Theorem atof_integer_exact (neg : bool) (ws sg ds : list Z)
  (Hws : spaces ws) (Hsg : sign_text neg sg) (Hds : digits ds) (Hpos : 0 < dec ds < 2 ^ 53) :
  sqlite3AtoF (ws ++ sg ++ ds ++ [0]) =
  (1, if neg then Z.lxor (double_of_int (dec ds)) (Z.shiftl 1 63) else double_of_int (dec ds)).
Proof.
  assert (exists d0 ds0, ds = d0 :: ds0) as (d0 & ds0 & Eds).
  { destruct ds; [by vm_compute in Hpos; destruct Hpos|eauto]. }
  assert (Hd : 48 <= d0 <= 57 /\ digits ds0) by (rewrite Eds in Hds; by inversion Hds).
  destruct Hd as [Hd0 Hds0]. set (z := ws ++ sg ++ ds ++ [0]). unfold sqlite3AtoF.
  assert (Hstop : stops sqlite3Isspace (sg ++ ds ++ [0])).
  { destruct Hsg as [[-> _]|[[-> | ->] _]]; [done|done|]. rewrite Eds. by apply digit_not_space. }
  assert (Hsp : skip_while (length z) sqlite3Isspace z 0 (zlen z) 1 = zlen ws).
  { apply skip_spaces; [done|done|done|]. unfold z. rewrite !length_app. cbn [length]. lia. }
  cbn zeta. rewrite !Hsp.
  assert (Hsign : (if z.[zlen ws] =? 45 then (true, zlen ws + 1)
      else if z.[zlen ws] =? 43 then (false, zlen ws + 1) else (false, zlen ws)) =
      (neg, zlen (ws ++ sg))).
  { unfold z. rewrite zlen_app. destruct Hsg as [[-> ->]|[[-> | ->] ->]]; cbn [app].
    - by rewrite zget_app_len.
    - by rewrite zget_app_len.
    - rewrite Eds. cbn [app]. rewrite zget_app_len, !(proj2 (Z.eqb_neq d0 _)) by lia.
      by rewrite zlen_nil, Z.add_0_r. }
  rewrite Hsign.
  assert (Ez : z = ((ws ++ sg) ++ [d0]) ++ ds0 ++ [0]) by (unfold z; rewrite Eds, <- !app_assoc; done).
  assert (E0 : z.[zlen (ws ++ sg)] = d0) by (rewrite Ez, <- app_assoc; apply zget_app_len).
  rewrite E0, u32_digit_val, (proj2 (Z.ltb_lt (d0 - 48) 10)) by lia.
  assert (Edec : dec_from (d0 - 48) ds0 = dec ds) by (rewrite Eds; unfold dec, dec_from; cbn [foldl]; f_equal; lia).
  assert (Hint : atof_int (length z) z (zlen (ws ++ sg) + 1) (d0 - 48) =
                 (dec ds, zlen (ws ++ sg ++ ds), 0, 1)).
  { rewrite Ez at 2. rewrite <- (zlen_snoc _ d0), atof_int_spec; rewrite ?Edec; try done.
    - rewrite Eds. autorewrite with zlen. rewrite Z.add_0_r, !Z.add_assoc. done.
    - by_compute.
    - lia.
    - assert (2 ^ 53 < mantissa_limit) by (by vm_compute). lia.
    - rewrite Ez, !length_app. cbn [length]. lia. }
  rewrite Hint.
  assert (Ee : z.[zlen (ws ++ sg ++ ds)] = 0).
  { unfold z. rewrite !app_assoc. rewrite <- (app_assoc ws sg ds). apply zget_app_len. }
  rewrite Ee. cbn [Z.eqb Pos.eqb andb orb negb].
  rewrite (proj2 (Z.eqb_neq (dec ds) 0)) by lia. rewrite Ee. cbn [Z.eqb Pos.eqb orb].
  rewrite Ee, Fp10Convert2_int by done.
  by destruct neg.
Qed.
Lemma atof_integer_exact_witness :
  sqlite3AtoF [32; 45; 48; 55; 0] = (1, Z.lxor (double_of_int 7) (Z.shiftl 1 63)).
Proof.
  apply (atof_integer_exact true [32] [45] [48; 55]); [by_compute|left; done|by_compute|by vm_compute].
Defined.
