(* ===== verification/Double.v ===== *)
(** Double-precision numbers as their 64-bit patterns: the comparisons and conversions of
    C that the record code uses, under IEEE 754 with rounding to the nearest even.

    Every finite double is a multiple of 2^-1074, so its value is given by an integer,
    [dval]; an infinity gets the integer next to the largest double, which compares as it
    should. *)

From S2P Require Import Prelude.

Definition d_neg (b : Z) : bool := Z.testbit b 63.
Definition d_exp (b : Z) : Z := b / 2 ^ 52 mod 2 ^ 11.
Definition d_frac (b : Z) : Z := b mod 2 ^ 52.

(** [#define IsNaN(X)  (((X)&EXP754)==EXP754 && ((X)&MAN754)!=0)] *)
Definition EXP754 : Z := 0x7ff0000000000000.
Definition MAN754 : Z := 0x000fffffffffffff.
Definition IsNaN (b : Z) : bool := (Z.land b EXP754 =? EXP754) && negb (Z.land b MAN754 =? 0).

(** The value in units of 2^-1074. *)
Definition d_mag (b : Z) : Z :=
  if d_exp b =? 0 then d_frac b else (2 ^ 52 + d_frac b) * 2 ^ (d_exp b - 1).
Definition dval (b : Z) : Z := if d_neg b then - d_mag b else d_mag b.
Definition UNIT : Z := 2 ^ 1074.

(** [a < b], [(i64)a] when it fits, [(double)i] *)
Definition dlt (a b : Z) : bool := negb (IsNaN a) && negb (IsNaN b) && (dval a <? dval b).
Definition d2i (b : Z) : Z := Z.quot (dval b) UNIT.
Definition round_even (a k : Z) : Z :=
  let q := a / 2 ^ k in let r := a mod 2 ^ k in
  if (2 ^ k <? 2 * r) || ((2 ^ k =? 2 * r) && Z.odd q) then q + 1 else q.
Definition n2d (a : Z) : Z :=
  if a =? 0 then 0 else
  let e := Z.log2 a in
  let q := if e <=? 52 then a * 2 ^ (52 - e) else round_even a (e - 52) in
  (1023 + e) * 2 ^ 52 + (q - 2 ^ 52).
Definition i2d (i : Z) : Z := if i <? 0 then 2 ^ 63 + n2d (- i) else n2d i.

(** ** Values *)

Lemma is_nan_fields b : is_u64 b -> IsNaN b = (d_exp b =? 2047) && negb (d_frac b =? 0).
Proof.
  intros Hb. unfold IsNaN, d_exp, d_frac, EXP754, MAN754. f_equal.
  - replace 0x7ff0000000000000 with (Z.shiftl (Z.ones 11) 52) by done.
    assert (E : Z.land b (Z.shiftl (Z.ones 11) 52) = Z.shiftl (b / 2 ^ 52 mod 2 ^ 11) 52).
    { rewrite <- Z.land_ones, <- Z.shiftr_div_pow2 by lia. apply Z.bits_inj'. intros n Hn.
      rewrite Z.land_spec, !Z.shiftl_spec by lia. destruct (Z.ltb_spec n 52).
      - rewrite !(Z.testbit_neg_r _ (n - 52)) by lia. by rewrite andb_false_r.
      - rewrite Z.land_spec, Z.shiftr_spec by lia. by replace (n - 52 + 52) with n by lia. }
    rewrite E. rewrite !Z.shiftl_mul_pow2 by lia. change (Z.ones 11 * 2 ^ 52) with (2047 * 2 ^ 52).
    destruct (Z.eqb_spec (b / 2 ^ 52 mod 2 ^ 11) 2047) as [->|]; [done|]. apply Z.eqb_neq. lia.
  - f_equal. change 0x000fffffffffffff with (Z.ones 52). by rewrite Z.land_ones by lia.
Qed.

Lemma d_fields_pos m e : 0 <= m < 2 ^ 52 -> 0 <= e < 2 ^ 11 ->
  let b := e * 2 ^ 52 + m in d_exp b = e /\ d_frac b = m /\ d_neg b = false.
Proof.
  intros Hm He b. unfold d_exp, d_frac, d_neg.
  assert (Eb : b / 2 ^ 52 = e) by (symmetry; apply Z.div_unique_pos with m; lia).
  rewrite Eb, Z.mod_small by lia. split; [done|]. split; [symmetry; apply Z.mod_unique_pos with e; lia|].
  rewrite <- (Z.mod_small b (2 ^ 63)) by lia. apply Z.mod_pow2_bits_high. lia.
Qed.
Lemma d_fields_neg m e : 0 <= m < 2 ^ 52 -> 0 <= e < 2 ^ 11 ->
  let b := 2 ^ 63 + (e * 2 ^ 52 + m) in d_exp b = e /\ d_frac b = m /\ d_neg b = true.
Proof.
  intros Hm He b. unfold d_exp, d_frac, d_neg.
  assert (Eb : b / 2 ^ 52 = 2 ^ 11 + e) by (symmetry; apply Z.div_unique_pos with m; lia).
  rewrite Eb. replace (2 ^ 11 + e) with (e + 1 * 2 ^ 11) by lia. rewrite Z.mod_add, Z.mod_small by lia.
  split; [done|]. split; [symmetry; apply Z.mod_unique_pos with (2 ^ 11 + e); lia|].
  apply Z.testbit_true; [lia|]. replace (b / 2 ^ 63) with 1 by (apply Z.div_unique_pos with (e * 2 ^ 52 + m); lia). done.
Qed.

(** A double as sign, exponent and mantissa. *)
Lemma d_mag_form b : exists m s, d_mag b = m * 2 ^ s /\ 0 <= m < 2 ^ 53 /\ 0 <= s.
Proof.
  unfold d_mag. assert (Hf : 0 <= d_frac b < 2 ^ 52) by (apply Z.mod_pos_bound; lia).
  assert (He : 0 <= d_exp b) by (apply Z.mod_pos_bound; lia).
  destruct (Z.eqb_spec (d_exp b) 0); [exists (d_frac b), 0|exists (2 ^ 52 + d_frac b), (d_exp b - 1)]; (split; [lia|split; [lia|lia]]).
Qed.
Lemma d_mag_nonneg b : 0 <= d_mag b.
Proof. destruct (d_mag_form b) as (m & s & -> & Hm & Hs). apply Z.mul_nonneg_nonneg; [lia|]. by apply Z.pow_nonneg. Qed.

(** The exact conversions. *)
Lemma n2d_exact a : 0 <= a < 2 ^ 63 -> (Z.log2 a <= 52 \/ a mod 2 ^ (Z.log2 a - 52) = 0) ->
  exists m e, n2d a = e * 2 ^ 52 + m /\ 0 <= m < 2 ^ 52 /\ 0 <= e < 2047 /\
    (if e =? 0 then m else (2 ^ 52 + m) * 2 ^ (e - 1)) = a * UNIT.
Proof.
  intros Ha Hx. unfold n2d. destruct (Z.eqb_spec a 0) as [->|H0]; [exists 0, 0; split_and!; (lia || done)|].
  pose proof (Z.log2_spec a ltac:(lia)) as Hl. pose proof (Z.log2_nonneg a) as Hl0. set (e := Z.log2 a) in *.
  assert (He : e < 63) by (apply Z.log2_lt_pow2; lia). rewrite Z.pow_succ_r in Hl by lia. set (q := if e <=? 52 then _ else _).
  assert (2 ^ 52 <= q < 2 ^ 53 /\ q * 2 ^ (1022 + e) = a * UNIT) as [Hq1 Hq2].
  { unfold q, UNIT. destruct (Z.leb_spec e 52) as [H|H].
    - assert (E : 2 ^ e * 2 ^ (52 - e) = 2 ^ 52) by (rewrite <- Z.pow_add_r by lia; f_equal; lia).
      pose proof (Z.pow_pos_nonneg 2 (52 - e) ltac:(lia) ltac:(lia)). split; [change (2 ^ 53) with (2 * 2 ^ 52); nia|].
      rewrite <- Z.mul_assoc, <- Z.pow_add_r by lia. do 2 f_equal. lia.
    - destruct Hx as [Hx|Hx]; [lia|]. unfold round_even. cbv zeta. rewrite Hx. pose proof (Z.pow_pos_nonneg 2 (e - 52) ltac:(lia) ltac:(lia)) as Hp.
      rewrite (proj2 (Z.ltb_ge _ _)), (proj2 (Z.eqb_neq _ _)) by lia. cbn [orb andb].
      assert (E : a = a / 2 ^ (e - 52) * 2 ^ (e - 52)) by (pose proof (Z.div_mod a (2 ^ (e - 52)) ltac:(lia)); lia).
      assert (E2 : 2 ^ e = 2 ^ 52 * 2 ^ (e - 52)) by (rewrite <- Z.pow_add_r by lia; f_equal; lia).
      split; [change (2 ^ 53) with (2 * 2 ^ 52); nia|]. rewrite E at 2. rewrite <- Z.mul_assoc, <- Z.pow_add_r by lia. do 2 f_equal. lia. }
  exists (q - 2 ^ 52), (1023 + e). split_and!; [lia|lia|lia|lia|lia|]. rewrite (proj2 (Z.eqb_neq _ _)) by lia.
  rewrite <- Hq2. f_equal; [lia|]. f_equal. lia.
Qed.
Lemma i2d_exact i : - 2 ^ 63 < i < 2 ^ 63 -> (Z.log2 (Z.abs i) <= 52 \/ Z.abs i mod 2 ^ (Z.log2 (Z.abs i) - 52) = 0) ->
  dval (i2d i) = i * UNIT.
Proof.
  intros Hi Hx. destruct (n2d_exact (Z.abs i) ltac:(lia) Hx) as (m & e & En & Hm & He & Ev). unfold i2d, dval, d_mag.
  destruct (Z.ltb_spec i 0) as [H|H].
  - rewrite Z.abs_neq in En, Ev by lia. destruct (d_fields_neg m e Hm ltac:(lia)) as (E1 & E2 & E3). rewrite En, E1, E2, E3, Ev. lia.
  - rewrite Z.abs_eq in En, Ev by lia. destruct (d_fields_pos m e Hm ltac:(lia)) as (E1 & E2 & E3). rewrite En, E1, E2, E3, Ev. lia.
Qed.
Lemma i2d_not_nan i : - 2 ^ 63 < i < 2 ^ 63 -> (Z.log2 (Z.abs i) <= 52 \/ Z.abs i mod 2 ^ (Z.log2 (Z.abs i) - 52) = 0) ->
  IsNaN (i2d i) = false.
Proof.
  intros Hi Hx. destruct (n2d_exact (Z.abs i) ltac:(lia) Hx) as (m & e & En & Hm & He & _). unfold i2d.
  destruct (Z.ltb_spec i 0) as [H|H].
  - rewrite Z.abs_neq in En by lia. destruct (d_fields_neg m e Hm ltac:(lia)) as (E1 & E2 & E3).
    rewrite En, is_nan_fields, E1 by (unfold is_u64; lia). by rewrite (proj2 (Z.eqb_neq e 2047)) by lia.
  - rewrite Z.abs_eq in En by lia. destruct (d_fields_pos m e Hm ltac:(lia)) as (E1 & E2 & E3).
    rewrite En, is_nan_fields, E1 by (unfold is_u64; lia). by rewrite (proj2 (Z.eqb_neq e 2047)) by lia.
Qed.
(** The value of a double converts exactly. *)
Lemma representable i b : dval b = i * UNIT -> Z.log2 (Z.abs i) <= 52 \/ Z.abs i mod 2 ^ (Z.log2 (Z.abs i) - 52) = 0.
Proof.
  intros Hb. destruct (Z.le_gt_cases (Z.log2 (Z.abs i)) 52) as [H|H]; [by left|right].
  destruct (d_mag_form b) as (m & s & Em & Hm & Hs).
  assert (Ea : Z.abs i * UNIT = m * 2 ^ s).
  { rewrite <- Em. unfold dval in Hb. pose proof (d_mag_nonneg b). unfold UNIT in *. pose proof (Z.pow_pos_nonneg 2 1074 ltac:(lia) ltac:(lia)).
    destruct (d_neg b); nia. }
  set (a := Z.abs i) in *. assert (Ha : 0 < a) by (destruct (Z.eq_dec a 0) as [E|]; [rewrite E in H; cbn in H; lia|lia]).
  set (l := Z.log2 a) in *. pose proof (Z.log2_spec a Ha) as Hl. fold l in Hl.
  assert (Hs2 : l - 52 <= s - 1074).
  { destruct (Z.le_gt_cases (l - 52) (s - 1074)) as [|Hlt]; [done|exfalso].
    assert (E1 : 2 ^ l * UNIT <= a * UNIT) by (apply Z.mul_le_mono_nonneg_r; [by apply Z.pow_nonneg|lia]).
    unfold UNIT in *. rewrite <- Z.pow_add_r in E1 by lia. rewrite Ea in E1.
    assert (E2 : m * 2 ^ s < 2 ^ 53 * 2 ^ s) by (apply Z.mul_lt_mono_pos_r; [by apply Z.pow_pos_nonneg|lia]).
    rewrite <- Z.pow_add_r in E2 by lia. assert (E3 : 2 ^ (53 + s) <= 2 ^ (l + 1074)) by (apply Z.pow_le_mono_r; lia). lia. }
  assert (Ea2 : a = m * 2 ^ (s - 1074)).
  { assert (E : 2 ^ s = 2 ^ (s - 1074) * UNIT) by (unfold UNIT; rewrite <- Z.pow_add_r by lia; f_equal; lia).
    rewrite E, Z.mul_assoc in Ea. apply Z.mul_cancel_r in Ea; [done|]. unfold UNIT. by apply Z.pow_nonzero. }
  rewrite Ea2. replace (s - 1074) with ((s - 1074 - (l - 52)) + (l - 52)) by lia. rewrite Z.pow_add_r, Z.mul_assoc by lia.
  apply Z.mod_mul. apply Z.pow_nonzero; lia.
Qed.

(** A double whose integer part is not exact is small. *)
Lemma large_is_integer b : 2 ^ 52 * UNIT <= d_mag b -> d_mag b mod UNIT = 0.
Proof.
  destruct (d_mag_form b) as (m & s & -> & Hm & Hs). intros H. unfold UNIT in *.
  assert (Hs2 : 1074 <= s).
  { destruct (Z.le_gt_cases 1074 s) as [|Hlt]; [done|exfalso].
    assert (m * 2 ^ s < 2 ^ 53 * 2 ^ s) by (apply Z.mul_lt_mono_pos_r; [by apply Z.pow_pos_nonneg|lia]).
    assert (2 ^ 53 * 2 ^ s <= 2 ^ 52 * 2 ^ 1074); [|lia]. rewrite <- !Z.pow_add_r by lia. apply Z.pow_le_mono_r; lia. }
  replace s with (s - 1074 + 1074) by lia. rewrite Z.pow_add_r, Z.mul_assoc by lia. apply Z.mod_mul. apply Z.pow_nonzero; lia.
Qed.
Lemma dval_small_or_integer b : Z.abs (dval b) < 2 ^ 52 * UNIT \/ exists i, dval b = i * UNIT.
Proof.
  destruct (Z.lt_ge_cases (d_mag b) (2 ^ 52 * UNIT)) as [H|H].
  - left. unfold dval. pose proof (d_mag_nonneg b). destruct (d_neg b); lia.
  - right. apply large_is_integer in H. apply Z.mod_divide in H as [q Hq]; [|by apply Z.pow_nonzero].
    unfold dval. rewrite Hq. destruct (d_neg b); [exists (- q); lia|by exists q].
Qed.

(** No integer converts to a NaN. *)
Lemma n2d_range a : 0 <= a <= 2 ^ 63 -> 0 <= n2d a < 2047 * 2 ^ 52.
Proof.
  intros Ha. unfold n2d. destruct (Z.eqb_spec a 0); [lia|]. cbv zeta. pose proof (Z.log2_nonneg a) as H0.
  pose proof (Z.log2_spec a ltac:(lia)) as Hl. set (e := Z.log2 a) in *.
  assert (He : e < 64) by (apply Z.log2_lt_pow2; lia). rewrite Z.pow_succ_r in Hl by lia.
  assert (0 <= (if e <=? 52 then a * 2 ^ (52 - e) else round_even a (e - 52)) <= 2 ^ 53); [|lia].
  destruct (Z.leb_spec e 52) as [H|H].
  - assert (E : 2 ^ e * 2 ^ (52 - e) = 2 ^ 52) by (rewrite <- Z.pow_add_r by lia; f_equal; lia).
    pose proof (Z.pow_pos_nonneg 2 (52 - e) ltac:(lia) ltac:(lia)). change (2 ^ 53) with (2 * 2 ^ 52). nia.
  - unfold round_even. assert (Hp : 0 < 2 ^ (e - 52)) by (apply Z.pow_pos_nonneg; lia).
    assert (E : 2 * 2 ^ e = 2 ^ 53 * 2 ^ (e - 52)) by (rewrite <- Z.pow_add_r, <- Z.pow_succ_r by lia; f_equal; lia).
    assert (a / 2 ^ (e - 52) < 2 ^ 53) by (apply Z.div_lt_upper_bound; lia).
    assert (0 <= a / 2 ^ (e - 52)) by (apply Z.div_pos; lia). destruct (_ || _); lia.
Qed.
Lemma i2d_range i : is_i64 i -> is_u64 (i2d i) /\ IsNaN (i2d i) = false.
Proof.
  intros Hi. unfold is_i64 in Hi. unfold i2d, is_u64. pose proof (n2d_range (Z.abs i) ltac:(lia)) as Hn.
  destruct (Z.ltb_spec i 0) as [H|H]; [rewrite Z.abs_neq in Hn by lia|rewrite Z.abs_eq in Hn by lia]; (split; [lia|]);
    (rewrite is_nan_fields by (unfold is_u64; lia)); unfold d_exp.
  - replace ((2 ^ 63 + n2d (- i)) / 2 ^ 52) with (n2d (- i) / 2 ^ 52 + 1 * 2 ^ 11) by (rewrite <- Z.div_add by lia; f_equal; lia).
    rewrite Z.mod_add by lia. rewrite Z.mod_small by (split; [apply Z.div_pos|apply Z.div_lt_upper_bound]; lia).
    assert (n2d (- i) / 2 ^ 52 < 2047) by (apply Z.div_lt_upper_bound; lia). by rewrite (proj2 (Z.eqb_neq _ 2047)) by lia.
  - rewrite Z.mod_small by (split; [apply Z.div_pos|apply Z.div_lt_upper_bound]; lia).
    assert (n2d i / 2 ^ 52 < 2047) by (apply Z.div_lt_upper_bound; lia). by rewrite (proj2 (Z.eqb_neq _ 2047)) by lia.
Qed.
