(* ===== verification/Order.v ===== *)
(** Total preorders given by a three-way comparison: the interface between the comparison
    of values and the comparison of keys.  The instances build orders from orders: by a
    key, reversed, one order refined by another, and lexicographically on lists. *)

From S2P Require Import Prelude.

Class TotalPreorder {A} (cmp : A -> A -> comparison) : Prop := {
  cmp_flip x y : cmp y x = CompOpp (cmp x y);
  cmp_le_trans x y z : cmp x y <> Gt -> cmp y z <> Gt -> cmp x z <> Gt }.

Section facts.
Context {A} (cmp : A -> A -> comparison) `{!TotalPreorder cmp}.

Lemma cmp_refl x : cmp x x = Eq.
Proof. pose proof (cmp_flip x x) as H. by destruct (cmp x x). Qed.
Lemma cmp_lt_le x y z : cmp x y = Lt -> cmp y z <> Gt -> cmp x z = Lt.
Proof.
  intros H1 H2. destruct (cmp x z) eqn:E; [exfalso|done|exfalso].
  - apply (cmp_le_trans y z x); [done| |by rewrite cmp_flip, H1]. by rewrite cmp_flip, E.
  - apply (cmp_le_trans x y z); [by rewrite H1|done|done].
Qed.
Lemma cmp_le_lt x y z : cmp x y <> Gt -> cmp y z = Lt -> cmp x z = Lt.
Proof.
  intros H1 H2. destruct (cmp x z) eqn:E; [exfalso|done|exfalso].
  - apply (cmp_le_trans z x y); [by rewrite cmp_flip, E|done|by rewrite cmp_flip, H2].
  - apply (cmp_le_trans x y z); [done|by rewrite H2|done].
Qed.
Lemma cmp_eq_trans x y z : cmp x y = Eq -> cmp y z = Eq -> cmp x z = Eq.
Proof.
  intros H1 H2. assert (cmp x z <> Gt) as H3 by (apply (cmp_le_trans x y z); [by rewrite H1|by rewrite H2]).
  assert (cmp z x <> Gt) as H by (apply (cmp_le_trans z y x); rewrite cmp_flip; [by rewrite H2|by rewrite H1]).
  rewrite cmp_flip in H. by destruct (cmp x z).
Qed.
End facts.

#[export] Instance by_key {A} (f : A -> Z) : TotalPreorder (fun x y => f x ?= f y).
Proof.
  split; [intros x y; apply Z.compare_antisym|].
  intros x y z. rewrite !Z.compare_ngt_iff. lia.
Qed.

#[export] Instance reversed {A} (cmp : A -> A -> comparison) `{!TotalPreorder cmp} :
  TotalPreorder (fun x y => CompOpp (cmp x y)).
Proof.
  split; [intros x y; by rewrite cmp_flip|]. intros x y z H1 H2.
  rewrite <- cmp_flip in *. by apply (cmp_le_trans z y x).
Qed.

(** Compare by the first, and by the second where the first does not tell. *)
Definition then_cmp (c d : comparison) : comparison := match c with Eq => d | c => c end.
#[export] Instance refined {A} (cmp1 cmp2 : A -> A -> comparison) `{!TotalPreorder cmp1, !TotalPreorder cmp2} :
  TotalPreorder (fun x y => then_cmp (cmp1 x y) (cmp2 x y)).
Proof.
  split.
  - intros x y. rewrite (cmp_flip (cmp := cmp1) x y), (cmp_flip (cmp := cmp2) x y). by destruct (cmp1 x y).
  - intros x y z H1 H2. destruct (cmp1 x y) eqn:E1; [| |done]; destruct (cmp1 y z) eqn:E2; try done.
    + rewrite (cmp_eq_trans cmp1 x y z E1 E2). cbn in *. by apply (cmp_le_trans x y z).
    + rewrite (cmp_le_lt cmp1 x y z); [done|by rewrite E1|done].
    + rewrite (cmp_lt_le cmp1 x y z); [done|done|by rewrite E2].
    + rewrite (cmp_lt_le cmp1 x y z); [done|done|by rewrite E2].
Qed.
#[export] Instance pulled_back {A B} (f : A -> B) (cmp : B -> B -> comparison) `{!TotalPreorder cmp} :
  TotalPreorder (fun x y => cmp (f x) (f y)).
Proof. split; [intros x y; apply cmp_flip|intros x y z; apply cmp_le_trans]. Qed.

(** ** Lists of bytes *)

Fixpoint bytes_cmp (a b : list Z) : comparison :=
  match a, b with
  | [], [] => Eq
  | [], _ => Lt
  | _, [] => Gt
  | x :: a, y :: b => then_cmp (x ?= y) (bytes_cmp a b)
  end.
#[export] Instance bytes_order : TotalPreorder bytes_cmp.
Proof.
  split.
  - intros x. induction x as [|x a IH]; intros [|y b]; try done. cbn [bytes_cmp].
    rewrite IH, (Z.compare_antisym x y). by destruct (x ?= y).
  - intros x. induction x as [|x a IH]; intros [|y b] [|z c]; try done. cbn [bytes_cmp].
    destruct (Z.compare_spec x y), (Z.compare_spec y z), (Z.compare_spec x z); try done; try lia.
    subst. apply IH.
Qed.

Lemma bytes_cmp_app p a b : bytes_cmp (p ++ a) (p ++ b) = bytes_cmp a b.
Proof. induction p as [|x p IH]; [done|]. cbn. by rewrite Z.compare_refl. Qed.
