(* ===== verification/VdbeMem.v ===== *)
(** Values of the virtual machine (vdbemem.c and vdbeaux.c sections of sqlite3.c): the
    cell [Mem], its buffers, and the comparison of two values.

    [sval] is the SQL value a cell stands for and [val_cmp] the order of SQL values: NULL,
    then numbers by their exact value, then text by a collating sequence, then blobs by
    their bytes.  [sqlite3MemCompare] is proved to be [val_cmp], and [val_cmp] to be a total
    preorder whenever the collating sequence is one. *)

From S2P Require Import Prelude Bits Double Order.

(** ** The cell *)

Definition MEM_Null : Z := 0x0001.
Definition MEM_Str : Z := 0x0002.
Definition MEM_Int : Z := 0x0004.
Definition MEM_Real : Z := 0x0008.
Definition MEM_Blob : Z := 0x0010.
Definition MEM_IntReal : Z := 0x0020.
Definition MEM_Term : Z := 0x0200.
Definition MEM_Zero : Z := 0x0400.
Definition MEM_Dyn : Z := 0x1000.
Definition MEM_Static : Z := 0x2000.
Definition MEM_Ephem : Z := 0x4000.

Definition has (f m : Z) : bool := truthy (Z.land f m).
Definition clear (f m : Z) : Z := Z.land f (Z.lnot m).

(** [char *z]: null, the cell's own allocation, or bytes elsewhere. *)
Inductive zptr := ZNull | ZOwn | ZAt (bytes : list Z).

(** The union [u] is its 64 bits.  [zMalloc] is the cell's own allocation, empty when there
    is none, so that [szMalloc] is its length. *)
Record Mem := mkMem {
  m_u : Z; m_z : zptr; m_n : Z; m_flags : Z; m_enc : Z; m_zMalloc : list Z; m_uTemp : Z }.
#[export] Instance Mem_inhabited : Inhabited Mem := populate (mkMem 0 ZNull 0 MEM_Null 1 [] 0).

Definition u_i (m : Mem) : Z := i64 (m_u m).
Definition u_r (m : Mem) : Z := m_u m.
Definition u_nZero (m : Mem) : Z := i32 (m_u m).
Definition szMalloc (m : Mem) : Z := zlen (m_zMalloc m).
Definition z_bytes (m : Mem) : list Z :=
  match m_z m with ZNull => [] | ZOwn => m_zMalloc m | ZAt l => l end.

Definition set_u (m : Mem) (v : Z) : Mem := mkMem v (m_z m) (m_n m) (m_flags m) (m_enc m) (m_zMalloc m) (m_uTemp m).
Definition set_z (m : Mem) (v : zptr) : Mem := mkMem (m_u m) v (m_n m) (m_flags m) (m_enc m) (m_zMalloc m) (m_uTemp m).
Definition set_n (m : Mem) (v : Z) : Mem := mkMem (m_u m) (m_z m) v (m_flags m) (m_enc m) (m_zMalloc m) (m_uTemp m).
Definition set_flags (m : Mem) (v : Z) : Mem := mkMem (m_u m) (m_z m) (m_n m) v (m_enc m) (m_zMalloc m) (m_uTemp m).
Definition set_enc (m : Mem) (v : Z) : Mem := mkMem (m_u m) (m_z m) (m_n m) (m_flags m) v (m_zMalloc m) (m_uTemp m).
Definition set_zMalloc (m : Mem) (v : list Z) : Mem := mkMem (m_u m) (m_z m) (m_n m) (m_flags m) (m_enc m) v (m_uTemp m).
Definition set_uTemp (m : Mem) (v : Z) : Mem := mkMem (m_u m) (m_z m) (m_n m) (m_flags m) (m_enc m) (m_zMalloc m) v.
(** [u.nZero = v] writes the low four bytes of the union. *)
Definition set_nZero (m : Mem) (v : Z) : Mem := set_u m (m_u m - m_u m mod 2 ^ 32 + u32 v).

(** Destructors are calls to the outside; the cell that remains is a NULL. *)
Definition sqlite3VdbeMemSetNull (m : Mem) : Mem := set_flags m MEM_Null.

(** ** Buffers of a cell *)

Section buffers.
(** [malloc w n]: a block of at least [n] bytes, or nothing. *)
Context {W : Type} (malloc : W -> Z -> option (list Z) * W).

Definition realloc (w : W) (old : list Z) (n : Z) : option (list Z) * W :=
  let '(r, w) := malloc w n in
  ((fun b => take (length b) old ++ drop (length old) b) <$> r, w).

Definition sqlite3VdbeMemGrow (w : W) (m : Mem) (n : Z) (bPreserve : bool) : Z * Mem * W :=
  let own := match m_z m with ZOwn => true | _ => false end in
  let '(r, bPreserve, w) :=
    if (0 <? szMalloc m) && bPreserve && own
    then let '(r, w) := realloc w (m_zMalloc m) n in (r, false, w)
    else let '(r, w) := malloc w n in (r, bPreserve, w) in
  match r with
  | None => (SQLITE_NOMEM, set_zMalloc (set_z (sqlite3VdbeMemSetNull m) ZNull) [], w)
  | Some b =>
      let isnull := match m_z m with ZNull => true | _ => false end in
      let b := if bPreserve && negb isnull then splice b 0 (take (Z.to_nat (m_n m)) (z_bytes m)) else b in
      let m := set_z (set_zMalloc m b) ZOwn in
      (SQLITE_OK, set_flags m (clear (m_flags m) (Z.lor MEM_Dyn (Z.lor MEM_Ephem MEM_Static))), w)
  end.

Definition sqlite3VdbeMemClearAndResize (w : W) (m : Mem) (szNew : Z) : Z * Mem * W :=
  if szMalloc m <? szNew then sqlite3VdbeMemGrow w m szNew false
  else
    let m := set_z m ZOwn in
    (SQLITE_OK, set_flags m (Z.land (m_flags m) (Z.lor (Z.lor MEM_Null MEM_Int) (Z.lor MEM_Real MEM_IntReal))), w).

Definition sqlite3VdbeMemExpandBlob (w : W) (m : Mem) : Z * Mem * W :=
  let nByte := m_n m + u_nZero m in
  if (nByte <=? 0) && negb (has (m_flags m) MEM_Blob) then (SQLITE_OK, m, w) else
  let nByte := if nByte <=? 0 then 1 else nByte in
  let '(rc, m, w) := sqlite3VdbeMemGrow w m nByte true in
  if truthy rc then (SQLITE_NOMEM, m, w) else
  let m := set_zMalloc m (splice (m_zMalloc m) (m_n m) (replicate (Z.to_nat (u_nZero m)) 0)) in
  let m := set_n m (m_n m + u_nZero m) in
  (SQLITE_OK, set_flags m (clear (m_flags m) (Z.lor MEM_Zero MEM_Term)), w).
End buffers.

(** ** Comparing *)

(** [memcmp(a, b, n)]: the difference of the first bytes that differ. *)
Fixpoint memcmp (a b : list Z) (n : nat) : Z :=
  match n with
  | O => 0
  | S n => let d := a.[0] - b.[0] in if d =? 0 then memcmp (drop 1 a) (drop 1 b) n else d
  end.

Fixpoint isAllZero (z : list Z) (n : nat) : bool :=
  match n with O => true | S n => if truthy z.[0] then false else isAllZero (drop 1 z) n end.

Definition sqlite3BlobCompare (pB1 pB2 : Mem) : Z :=
  let n1 := m_n pB1 in let n2 := m_n pB2 in
  if has (Z.lor (m_flags pB1) (m_flags pB2)) MEM_Zero then
    if has (Z.land (m_flags pB1) (m_flags pB2)) MEM_Zero then u_nZero pB1 - u_nZero pB2
    else if has (m_flags pB1) MEM_Zero then
      if negb (isAllZero (z_bytes pB2) (Z.to_nat n2)) then -1 else u_nZero pB1 - n2
    else if negb (isAllZero (z_bytes pB1) (Z.to_nat n1)) then 1 else n1 - u_nZero pB2
  else
    let c := memcmp (z_bytes pB1) (z_bytes pB2) (Z.to_nat (if n2 <? n1 then n2 else n1)) in
    if truthy c then c else n1 - n2.

(** [-9223372036854775808.0] and [9223372036854775808.0] *)
Definition D_MIN_I64 : Z := 0xc3e0000000000000.
Definition D_END_I64 : Z := 0x43e0000000000000.

Definition sqlite3IntFloatCompare (i r : Z) : Z :=
  if IsNaN r then 1
  else if dlt r D_MIN_I64 then 1
  else if negb (dlt r D_END_I64) then -1
  else
    let y := d2i r in
    if i <? y then -1 else if y <? i then 1
    else if dlt (i2d i) r then -1 else b2z (dlt r (i2d i)).

Record CollSeq := mkColl { c_enc : Z; c_xCmp : list Z -> list Z -> Z }.

Section compare.
(** [sqlite3ValueText(m, enc)]: the text of a cell in an encoding, nothing without memory. *)
Variable sqlite3ValueText : Mem -> Z -> option (list Z).

Definition vdbeCompareMemStringWithEncodingChange (pMem1 pMem2 : Mem) (pColl : CollSeq) : Z * Z :=
  match sqlite3ValueText pMem1 (c_enc pColl), sqlite3ValueText pMem2 (c_enc pColl) with
  | Some v1, Some v2 => (c_xCmp pColl v1 v2, SQLITE_OK)
  | _, _ => (0, SQLITE_NOMEM)
  end.

(** The comparison and [*prcErr]. *)
Definition vdbeCompareMemString (pMem1 pMem2 : Mem) (pColl : CollSeq) : Z * Z :=
  if m_enc pMem1 =? c_enc pColl
  then (c_xCmp pColl (take (Z.to_nat (m_n pMem1)) (z_bytes pMem1)) (take (Z.to_nat (m_n pMem2)) (z_bytes pMem2)), SQLITE_OK)
  else vdbeCompareMemStringWithEncodingChange pMem1 pMem2 pColl.

Definition int_cmp (a b : Z) : Z := if a <? b then -1 else if b <? a then 1 else 0.
Definition real_cmp (a b : Z) : Z := if dlt a b then -1 else if dlt b a then 1 else 0.

Definition sqlite3MemCompare (pMem1 pMem2 : Mem) (pColl : option CollSeq) : Z :=
  let f1 := m_flags pMem1 in let f2 := m_flags pMem2 in
  let combined_flags := Z.lor f1 f2 in
  if has combined_flags MEM_Null then Z.land f2 MEM_Null - Z.land f1 MEM_Null
  else if has combined_flags (Z.lor MEM_Int (Z.lor MEM_Real MEM_IntReal)) then
    if has (Z.land f1 f2) (Z.lor MEM_Int MEM_IntReal) then int_cmp (u_i pMem1) (u_i pMem2)
    else if has (Z.land f1 f2) MEM_Real then real_cmp (u_r pMem1) (u_r pMem2)
    else if has f1 (Z.lor MEM_Int MEM_IntReal) then
      if has f2 MEM_Real then sqlite3IntFloatCompare (u_i pMem1) (u_r pMem2)
      else if has f2 (Z.lor MEM_Int MEM_IntReal) then int_cmp (u_i pMem1) (u_i pMem2)
      else -1
    else if has f1 MEM_Real then
      if has f2 (Z.lor MEM_Int MEM_IntReal) then - sqlite3IntFloatCompare (u_i pMem2) (u_r pMem1)
      else -1
    else 1
  else if has combined_flags MEM_Str then
    if negb (has f1 MEM_Str) then 1
    else if negb (has f2 MEM_Str) then -1
    else match pColl with
         | Some pColl => fst (vdbeCompareMemString pMem1 pMem2 pColl)
         | None => sqlite3BlobCompare pMem1 pMem2
         end
  else sqlite3BlobCompare pMem1 pMem2.
End compare.

(** ** SQL values *)

Inductive sval := VNull | VInt (i : Z) | VReal (r : Z) | VText (s : list Z) | VBlob (s : list Z).

(** Numbers by their exact value, in units of 2^-1074. *)
Definition number (v : sval) : Z :=
  match v with VInt i => i * UNIT | VReal r => dval r | _ => 0 end.
Definition text_cmp (coll : option CollSeq) (a b : list Z) : comparison :=
  match coll with Some c => c_xCmp c a b ?= 0 | None => bytes_cmp a b end.
(** NULL, numbers, text, blobs *)
Definition storage_class (v : sval) : Z :=
  match v with VNull => 0 | VInt _ | VReal _ => 1 | VText _ => 2 | VBlob _ => 3 end.
Definition val_cmp (coll : option CollSeq) (a b : sval) : comparison :=
  match a, b with
  | VText s, VText t => text_cmp coll s t
  | VBlob s, VBlob t => bytes_cmp s t
  | _, _ => then_cmp (storage_class a ?= storage_class b) (number a ?= number b)
  end.

(** The value a cell stands for. *)
Definition val_of (m : Mem) : sval :=
  let f := m_flags m in
  if has f MEM_Null then VNull
  else if has f MEM_Int || has f MEM_IntReal then VInt (u_i m)
  else if has f MEM_Real then VReal (u_r m)
  else
    let s := take (Z.to_nat (m_n m)) (z_bytes m) in
    if has f MEM_Str then VText s
    else VBlob (s ++ if has f MEM_Zero then replicate (Z.to_nat (u_nZero m)) 0 else []).

Record mem_ok (m : Mem) : Prop := {
  mo_u : is_u64 (m_u m);
  mo_type : has (m_flags m) MEM_Null || has (m_flags m) MEM_Int || has (m_flags m) MEM_IntReal || has (m_flags m) MEM_Real
            || has (m_flags m) MEM_Str || has (m_flags m) MEM_Blob = true;
  mo_int : has (m_flags m) MEM_Int = true -> has (m_flags m) MEM_IntReal = false;
  mo_real : has (m_flags m) MEM_Real = true -> has (m_flags m) MEM_Int = false /\ has (m_flags m) MEM_IntReal = false /\ IsNaN (m_u m) = false;
  mo_buf : has (m_flags m) MEM_Str || has (m_flags m) MEM_Blob = true -> 0 <= m_n m <= zlen (z_bytes m) /\ bytes_ok (z_bytes m);
  mo_zero : has (m_flags m) MEM_Zero = true ->
    has (m_flags m) MEM_Str || has (m_flags m) MEM_Int || has (m_flags m) MEM_IntReal || has (m_flags m) MEM_Real = false /\ 0 <= u_nZero m }.

(** A NULL cell has no other type. *)
Definition only_null (f : Z) : Prop := has f MEM_Null = true -> has f (Z.lor MEM_Int MEM_IntReal) = false /\
  has f MEM_Real = false /\ has f MEM_Str = false /\ has f MEM_Blob = false.

(** ** Flags *)

Lemma truthy_b2z b : truthy (b2z b) = b.
Proof. by destruct b. Qed.
Lemma has_pow2 f k : 0 <= k -> has f (2 ^ k) = Z.testbit f k.
Proof. intros Hk. unfold has. rewrite <- (Z.shiftl_1_l k). by apply land_bit. Qed.
Lemma land_zero_iff f m : has f m = false <-> Z.land f m = 0.
Proof. unfold has, truthy. destruct (Z.eqb_spec (Z.land f m) 0); done. Qed.
Lemma has_lor f a b : has f (Z.lor a b) = has f a || has f b.
Proof.
  apply eq_true_iff_eq. rewrite <- !not_false_iff_true, orb_false_iff, !land_zero_iff, Z.land_lor_distr_r, Z.lor_eq_0_iff. done.
Qed.
Lemma has_or f g m : has (Z.lor f g) m = has f m || has g m.
Proof.
  apply eq_true_iff_eq. rewrite <- !not_false_iff_true, orb_false_iff, !land_zero_iff, Z.land_lor_distr_l, Z.lor_eq_0_iff. done.
Qed.
Lemma has_and f g k : 0 <= k -> has (Z.land f g) (2 ^ k) = has f (2 ^ k) && has g (2 ^ k).
Proof. intros. by rewrite !has_pow2, Z.land_spec. Qed.
Lemma has_clear f a k : 0 <= k -> has (clear f a) (2 ^ k) = has f (2 ^ k) && negb (has a (2 ^ k)).
Proof. intros. unfold clear. by rewrite !has_pow2, Z.land_spec, Z.lnot_spec. Qed.
Lemma land_1 z : Z.land z 1 = z mod 2.
Proof. apply (Z.land_ones z 1). lia. Qed.
Lemma land_null f : Z.land f MEM_Null = b2z (has f MEM_Null).
Proof.
  unfold has, MEM_Null. rewrite land_1. pose proof (Z.mod_pos_bound f 2 ltac:(lia)) as Hb.
  assert (f mod 2 = 0 \/ f mod 2 = 1) as [-> | ->]; [lia|done|done].
Qed.

Lemma has_clear1 f a m : 2 ^ Z.log2 m = m -> has (clear f a) m = has f m && negb (has a m).
Proof. intros <-. apply has_clear, Z.log2_nonneg. Qed.
Ltac flag_eval :=
  repeat match goal with
  | |- context [has ?c ?m] => let b := eval vm_compute in (has c m) in
      lazymatch b with true => change (has c m) with true | false => change (has c m) with false end
  | H : context [has ?c ?m] |- _ => let b := eval vm_compute in (has c m) in
      lazymatch b with true => change (has c m) with true in H | false => change (has c m) with false in H end
  end.
Ltac mem_cbn := cbn [m_u m_z m_n m_flags m_enc m_zMalloc m_uTemp set_u set_z set_n set_flags set_enc set_zMalloc set_uTemp z_bytes] in *.
Ltac flag_simpl := rewrite ?has_clear1 by done; flag_eval; rewrite ?andb_true_r, ?andb_false_r; cbn [andb orb negb].

(** ** Blobs *)

Lemma memcmp_ok n a b : (n <= length a)%nat -> (n <= length b)%nat -> bytes_ok a -> bytes_ok b ->
  (memcmp a b n ?= 0) = bytes_cmp (take n a) (take n b).
Proof.
  revert a b. induction n as [|n IH]; intros [|x a] [|y b]; cbn [length]; try lia; try done.
  intros Ha Hb Oa Ob. cbn [memcmp take bytes_cmp drop]. rewrite !zget_cons_0.
  destruct (Z.eqb_spec (x - y) 0) as [E|E].
  - replace y with x by lia. rewrite Z.compare_refl. cbn [then_cmp]. apply IH; [lia|lia|by inversion Oa|by inversion Ob].
  - destruct (Z.compare_spec x y); [lia| |]; cbn [then_cmp]; [by apply Z.compare_lt_iff; lia|by apply Z.compare_gt_iff; lia].
Qed.
Lemma isAllZero_ok n z : (n <= length z)%nat -> isAllZero z n = true <-> take n z = replicate n 0.
Proof.
  revert z. induction n as [|n IH]; intros [|x z]; cbn [length]; try lia; try done.
  intros Hn. cbn [isAllZero take replicate drop]. rewrite zget_cons_0. unfold truthy.
  destruct (Z.eqb_spec x 0) as [->|E]; cbn [negb].
  - change (drop 0 z) with z. rewrite IH by lia. split; [by intros ->|by intros [=]].
  - split; [done|]. by intros [=].
Qed.

(** A comparison by length once the common prefix agrees. *)
Lemma bytes_cmp_prefix (a b : list Z) n : n = Nat.min (length a) (length b) ->
  bytes_cmp a b = then_cmp (bytes_cmp (take n a) (take n b)) (Z.of_nat (length a) ?= Z.of_nat (length b)).
Proof.
  revert b n. induction a as [|x a IH]; intros [|y b] n ->; try done. cbn [length Nat.min take bytes_cmp].
  rewrite (IH b _ eq_refl). destruct (x ?= y); cbn [then_cmp]; [|done|done]. f_equal.
  rewrite !Nat2Z.inj_succ. by (destruct (Z.compare_spec (Z.of_nat (length a)) (Z.of_nat (length b))); symmetry; [apply Z.compare_eq_iff|apply Z.compare_lt_iff|apply Z.compare_gt_iff]; lia).
Qed.
Lemma zeros_cmp a b : bytes_cmp (replicate a 0) (replicate b 0) = (Z.of_nat a ?= Z.of_nat b).
Proof.
  revert b. induction a as [|a IH]; intros [|b]; try done. cbn [replicate bytes_cmp]. rewrite IH. cbn [then_cmp].
  destruct (Z.compare_spec (Z.of_nat a) (Z.of_nat b)); symmetry; [apply Z.compare_eq_iff|apply Z.compare_lt_iff|apply Z.compare_gt_iff]; lia.
Qed.
(** Zeros come before anything that is not all zeros. *)
Lemma zeros_first n b : bytes_ok b -> b <> replicate (length b) 0 -> bytes_cmp (replicate n 0) b = Lt.
Proof.
  revert n. induction b as [|x b IH]; intros n Hb Hne; [done|]. inversion Hb as [|? ? Hx Hb']; subst.
  destruct n as [|n]; [done|]. cbn [replicate bytes_cmp]. destruct (Z.compare_spec 0 x) as [<-|H|H]; [|done|unfold is_u8 in Hx; lia].
  apply IH; [done|]. intros E. apply Hne. cbn. by rewrite <- E.
Qed.

(** The bytes a text or blob cell stands for. *)
Definition content (m : Mem) : list Z :=
  take (Z.to_nat (m_n m)) (z_bytes m) ++ if has (m_flags m) MEM_Zero then replicate (Z.to_nat (u_nZero m)) 0 else [].
(** Zero-filled tails of compared cells follow no bytes. *)
Definition plain_zero (m : Mem) : Prop := has (m_flags m) MEM_Zero = true -> m_n m = 0.
Definition stringy (m : Mem) : bool := has (m_flags m) MEM_Str || has (m_flags m) MEM_Blob.

Lemma len_bytes m : mem_ok m -> stringy m = true -> zlen (take (Z.to_nat (m_n m)) (z_bytes m)) = m_n m /\
  bytes_ok (take (Z.to_nat (m_n m)) (z_bytes m)).
Proof.
  intros Hm Hs. destruct (mo_buf m Hm Hs) as [Hn Hb]. split; [|by apply Forall_take].
  unfold zlen in *. rewrite length_take. lia.
Qed.

Lemma sub_cmp a b : (a - b ?= 0) = (a ?= b).
Proof. destruct (Z.compare_spec a b); [apply Z.compare_eq_iff|apply Z.compare_lt_iff|apply Z.compare_gt_iff]; lia. Qed.
(** Comparing the common prefix and then the lengths, as the code does. *)
Lemma memcmp_length a b n1 n2 : 0 <= n1 <= zlen a -> 0 <= n2 <= zlen b -> bytes_ok a -> bytes_ok b ->
  let c := memcmp a b (Z.to_nat (Z.min n1 n2)) in
  ((if c =? 0 then n1 - n2 else c) ?= 0) = bytes_cmp (take (Z.to_nat n1) a) (take (Z.to_nat n2) b).
Proof.
  intros H1 H2 B1 B2 c. unfold zlen in *. set (n := Z.to_nat (Z.min n1 n2)) in *.
  rewrite (bytes_cmp_prefix _ _ n) by (rewrite !length_take; lia). rewrite !take_take, !Nat.min_l by lia.
  rewrite !length_take, !Nat.min_l, !Z2Nat.id by lia.
  rewrite <- (memcmp_ok n a b) by (done || lia). fold c.
  destruct (Z.eqb_spec c 0) as [E|E]; [by rewrite E, sub_cmp|]. by destruct (Z.compare_spec c 0).
Qed.
Lemma zeros_against z n k : 0 <= n <= zlen z -> 0 <= k -> bytes_ok z ->
  ((if negb (isAllZero z (Z.to_nat n)) then 1 else n - k) ?= 0) = bytes_cmp (take (Z.to_nat n) z) (replicate (Z.to_nat k) 0).
Proof.
  intros Hn Hk Hb. unfold zlen in *. pose proof (isAllZero_ok (Z.to_nat n) z ltac:(lia)) as A. destruct (isAllZero z _); cbn [negb].
  - rewrite (proj1 A eq_refl), zeros_cmp, sub_cmp. by rewrite !Z2Nat.id by lia.
  - rewrite (cmp_flip (cmp := bytes_cmp) (replicate _ 0)), zeros_first; [done|by apply Forall_take|].
    intros E. rewrite length_take, Nat.min_l in E by lia. by apply A in E.
Qed.

Lemma blob_compare_ok m1 m2 : mem_ok m1 -> mem_ok m2 -> stringy m1 = true -> stringy m2 = true ->
  plain_zero m1 -> plain_zero m2 -> (sqlite3BlobCompare m1 m2 ?= 0) = bytes_cmp (content m1) (content m2).
Proof.
  intros H1 H2 S1 S2 Z1 Z2. unfold sqlite3BlobCompare, content, plain_zero in *. rewrite has_or.
  change MEM_Zero with (2 ^ 10) in *. rewrite has_and by lia. change (2 ^ 10) with MEM_Zero in *.
  destruct (mo_buf m1 H1 S1) as [N1 B1], (mo_buf m2 H2 S2) as [N2 B2].
  pose proof (mo_zero m1 H1) as O1. pose proof (mo_zero m2 H2) as O2.
  destruct (has (m_flags m1) MEM_Zero) eqn:F1, (has (m_flags m2) MEM_Zero) eqn:F2; cbn [orb andb].
  - destruct (O1 eq_refl), (O2 eq_refl). rewrite (Z1 eq_refl), (Z2 eq_refl). change (Z.to_nat 0) with O; rewrite ?take_0; cbn [app].
    by rewrite zeros_cmp, sub_cmp, !Z2Nat.id.
  - destruct (O1 eq_refl). rewrite (Z1 eq_refl), app_nil_r. change (Z.to_nat 0) with O; rewrite ?take_0; cbn [app].
    rewrite (cmp_flip (cmp := bytes_cmp) (take _ _)), <- zeros_against by done.
    destruct (isAllZero _ _); cbn [negb]; [rewrite !sub_cmp; apply Z.compare_antisym|done].
  - destruct (O2 eq_refl). rewrite (Z2 eq_refl), app_nil_r. change (Z.to_nat 0) with O; rewrite ?take_0; cbn [app].
    by apply zeros_against.
  - rewrite !app_nil_r. rewrite <- memcmp_length by done.
    replace (if m_n m2 <? m_n m1 then m_n m2 else m_n m1) with (Z.min (m_n m1) (m_n m2)) by (destruct (Z.ltb_spec (m_n m2) (m_n m1)); lia).
    unfold truthy. by destruct (Z.eqb_spec (memcmp (z_bytes m1) (z_bytes m2) (Z.to_nat (Z.min (m_n m1) (m_n m2)))) 0).
Qed.

(** ** Numbers *)

Lemma dval_bounds : dval D_MIN_I64 = - 2 ^ 63 * UNIT /\ dval D_END_I64 = 2 ^ 63 * UNIT /\ IsNaN D_MIN_I64 = false /\ IsNaN D_END_I64 = false.
Proof. by vm_compute. Qed.
Lemma dlt_real a b : IsNaN a = false -> IsNaN b = false -> dlt a b = (dval a <? dval b).
Proof. unfold dlt. by intros -> ->. Qed.
Lemma UNIT_pos : 0 < UNIT.
Proof. done. Qed.

(** An integer that a double truncates to converts exactly, whenever it matters. *)
Lemma truncated_exact r : - 2 ^ 63 * UNIT <= dval r < 2 ^ 63 * UNIT ->
  dval (i2d (d2i r)) = d2i r * UNIT /\ IsNaN (i2d (d2i r)) = false.
Proof.
  intros Hr. pose proof UNIT_pos as HU. unfold d2i.
  pose proof (Z.quot_rem' (dval r) UNIT) as Hq. pose proof (Z.rem_bound_abs (dval r) UNIT ltac:(lia)) as Hb.
  destruct (Z.eq_dec (Z.quot (dval r) UNIT) (- 2 ^ 63)) as [E|E]; [rewrite E; by vm_compute|].
  set (i := Z.quot (dval r) UNIT) in *. set (m := Z.rem (dval r) UNIT) in *.
  pose proof (Z.rem_sign_mul (dval r) UNIT ltac:(lia)) as Hs. fold m in Hs.
  assert (Hi : - 2 ^ 63 < i < 2 ^ 63).
  { split; [assert (- 2 ^ 63 <= i); [|lia]|]; apply Z.lt_nge || apply Z.nlt_ge; intros Hc.
    - assert (UNIT * i <= UNIT * (- 2 ^ 63 - 1)) by (apply Z.mul_le_mono_nonneg_l; lia). lia.
    - assert (UNIT * 2 ^ 63 <= UNIT * i) by (apply Z.mul_le_mono_nonneg_l; lia).
      assert (0 <= m); [|lia]. apply Z.nlt_ge. intros Hm. assert (m * dval r < 0); [|lia]. apply Z.mul_neg_pos; lia. }
  assert (Hx : Z.log2 (Z.abs i) <= 52 \/ Z.abs i mod 2 ^ (Z.log2 (Z.abs i) - 52) = 0).
  { destruct (dval_small_or_integer r) as [H|(i' & H)].
    - left. assert (Z.abs i < 2 ^ 52 + 1).
      { apply Z.nle_gt. intros Hc. assert (UNIT * (2 ^ 52 + 1) <= UNIT * Z.abs i) by (apply Z.mul_le_mono_nonneg_l; lia). lia. } destruct (Z.eq_dec i 0) as [->|]; [done|].
      assert (Z.log2 (Z.abs i) < 53); [|lia]. apply Z.log2_lt_pow2; lia.
    - apply (representable i r). unfold i. rewrite H, Z.quot_mul by lia. done. }
  split; [by apply i2d_exact|by apply i2d_not_nan].
Qed.

Lemma int_float_ok i r : is_i64 i -> IsNaN r = false -> (sqlite3IntFloatCompare i r ?= 0) = (i * UNIT ?= dval r).
Proof.
  intros Hi Hn. unfold is_i64 in Hi. unfold sqlite3IntFloatCompare. rewrite Hn. destruct dval_bounds as (E1 & E2 & N1 & N2).
  rewrite !dlt_real, E1, E2 by done. pose proof UNIT_pos as HU.
  destruct (Z.ltb_spec (dval r) (- 2 ^ 63 * UNIT)); [symmetry; apply Z.compare_gt_iff; nia|].
  destruct (Z.ltb_spec (dval r) (2 ^ 63 * UNIT)); cbn [negb]; [|symmetry; apply Z.compare_lt_iff; nia].
  destruct (truncated_exact r ltac:(lia)) as [Ev En]. revert Ev En. unfold d2i.
  pose proof (Z.quot_rem' (dval r) UNIT) as Hq. pose proof (Z.rem_bound_abs (dval r) UNIT ltac:(lia)) as Hb.
  pose proof (Z.rem_sign_mul (dval r) UNIT ltac:(lia)) as Hs.
  set (y := Z.quot (dval r) UNIT) in *. set (m := Z.rem (dval r) UNIT) in *. intros Ev En.
  destruct (Z.ltb_spec i y); [symmetry; apply Z.compare_lt_iff; nia|].
  destruct (Z.ltb_spec y i); [symmetry; apply Z.compare_gt_iff; nia|].
  replace i with y by lia. rewrite !dlt_real, Ev by done.
  destruct (Z.compare_spec (y * UNIT) (dval r)); zbool; (done || lia).
Qed.

(** ** The order of values *)

#[export] Instance val_order (coll : option CollSeq) :
  (forall c, coll = Some c -> TotalPreorder (fun s t => c_xCmp c s t ?= 0)) -> TotalPreorder (val_cmp coll).
Proof.
  intros Hc. assert (HT : TotalPreorder (text_cmp coll)) by (destruct coll; [by apply Hc|apply bytes_order]).
  split.
  - intros [] []; cbn [val_cmp storage_class]; try done; try apply (cmp_flip (cmp := text_cmp coll)); try apply (cmp_flip (cmp := bytes_cmp));
      cbn [Z.compare Pos.compare Pos.compare_cont then_cmp number]; try done; apply Z.compare_antisym.
  - intros [] [] []; cbn [val_cmp storage_class Z.compare Pos.compare Pos.compare_cont then_cmp]; try done;
      try apply (cmp_le_trans (cmp := text_cmp coll)); try apply (cmp_le_trans (cmp := bytes_cmp)); rewrite !Z.compare_ngt_iff; lia.
Qed.

Lemma int_cmp_ok a b : (int_cmp a b ?= 0) = (a ?= b).
Proof. unfold int_cmp. destruct (Z.compare_spec a b); zbool; (done || lia). Qed.
Lemma real_cmp_ok a b : IsNaN a = false -> IsNaN b = false -> (real_cmp a b ?= 0) = (dval a ?= dval b).
Proof. intros Ha Hb. unfold real_cmp. rewrite !dlt_real by done. destruct (Z.compare_spec (dval a) (dval b)); zbool; (done || lia). Qed.
Lemma opp_cmp z : (- z ?= 0) = CompOpp (z ?= 0).
Proof. destruct z; done. Qed.
Lemma scale_cmp a b : (a * UNIT ?= b * UNIT) = (a ?= b).
Proof. symmetry. apply Zmult_compare_compat_r. apply Z.lt_gt, UNIT_pos. Qed.

Lemma has_both f g : has (Z.land f g) (Z.lor MEM_Int MEM_IntReal) = (has f MEM_Int && has g MEM_Int) || (has f MEM_IntReal && has g MEM_IntReal).
Proof. rewrite has_lor. change MEM_Int with (2 ^ 2). change MEM_IntReal with (2 ^ 5). by rewrite !has_and by lia. Qed.

Lemma has_real f g : has (Z.land f g) MEM_Real = has f MEM_Real && has g MEM_Real.
Proof. change MEM_Real with (2 ^ 3). by rewrite has_and by lia. Qed.

(** Cells that can be compared under a collating sequence. *)
Definition comparable (coll : option CollSeq) (m : Mem) : Prop :=
  mem_ok m /\ plain_zero m /\ (has (m_flags m) MEM_Str = true -> forall c, coll = Some c -> m_enc m = c_enc c).

Lemma u_i_range m : is_i64 (u_i m).
Proof. unfold u_i. zwlia. Qed.
Lemma content_str m : mem_ok m -> has (m_flags m) MEM_Str = true -> content m = take (Z.to_nat (m_n m)) (z_bytes m).
Proof.
  intros Hm Hs. unfold content. destruct (has (m_flags m) MEM_Zero) eqn:E; [|apply app_nil_r].
  destruct (mo_zero m Hm E) as [H _]. by rewrite Hs in H.
Qed.

Lemma mem_compare_ok svt coll m1 m2 : comparable coll m1 -> comparable coll m2 ->
  (sqlite3MemCompare svt m1 m2 coll ?= 0) = val_cmp coll (val_of m1) (val_of m2).
Proof.
  intros (H1 & P1 & E1) (H2 & P2 & E2). unfold sqlite3MemCompare, val_of. cbv zeta. fold (content m1) (content m2).
  pose proof (blob_compare_ok m1 m2 H1 H2) as HB. unfold stringy in HB.
  pose proof (content_str m1 H1) as C1. pose proof (content_str m2 H2) as C2.
  pose proof (u_i_range m1) as U1. pose proof (u_i_range m2) as U2.
  rewrite !land_null, has_both, has_real, !has_lor, !has_or.
  destruct H1 as [_ T1 _ R1 _ _], H2 as [_ T2 _ R2 _ _]. unfold u_r.
  destruct (has (m_flags m1) MEM_Null); [by destruct (has (m_flags m2) MEM_Null), (has (m_flags m2) MEM_Int), (has (m_flags m2) MEM_IntReal),
    (has (m_flags m2) MEM_Real), (has (m_flags m2) MEM_Str)|].
  destruct (has (m_flags m2) MEM_Null); [by destruct (has (m_flags m1) MEM_Int), (has (m_flags m1) MEM_IntReal),
    (has (m_flags m1) MEM_Real), (has (m_flags m1) MEM_Str)|]. cbn [orb] in *.
  assert (HI : (int_cmp (u_i m1) (u_i m2) ?= 0) = (number (VInt (u_i m1)) ?= number (VInt (u_i m2)))) by (by rewrite int_cmp_ok; cbn; rewrite scale_cmp).
  destruct (has (m_flags m1) MEM_Real) eqn:F1; [destruct R1 as (-> & -> & N1); [done|]|]; cbn [orb andb] in *;
    (destruct (has (m_flags m2) MEM_Real) eqn:F2; [destruct R2 as (-> & -> & N2); [done|]|]); cbn [orb andb] in *; rewrite ?orb_false_r, ?orb_true_r, ?andb_false_r.
  - by apply real_cmp_ok.
  - destruct (has (m_flags m2) MEM_Int), (has (m_flags m2) MEM_IntReal); cbn [orb];
      try (rewrite opp_cmp, int_float_ok by done; cbn [val_cmp storage_class Z.compare Pos.compare Pos.compare_cont then_cmp number]; symmetry; apply Z.compare_antisym).
    by destruct (has (m_flags m2) MEM_Str).
  - destruct (has (m_flags m1) MEM_Int), (has (m_flags m1) MEM_IntReal); cbn [orb];
      try (rewrite int_float_ok by done; done). by destruct (has (m_flags m1) MEM_Str).
  - destruct (has (m_flags m1) MEM_Int) eqn:I1, (has (m_flags m1) MEM_IntReal) eqn:J1,
      (has (m_flags m2) MEM_Int) eqn:I2, (has (m_flags m2) MEM_IntReal) eqn:J2; cbn [orb andb] in *; try (exact HI); try (by destruct (has (m_flags m2) MEM_Str));
      try (by destruct (has (m_flags m1) MEM_Str)).
    destruct (has (m_flags m1) MEM_Str) eqn:S1, (has (m_flags m2) MEM_Str) eqn:S2; cbn [orb negb] in *; try done.
    + cbn [val_cmp]. rewrite <- C1, <- C2 by done. destruct coll as [c|]; [|by apply HB].
      unfold vdbeCompareMemString. rewrite (E1 eq_refl c eq_refl), Z.eqb_refl. cbn [fst]. by rewrite <- C1, <- C2 by done.
    + by apply HB.
Qed.

(** The conditions on a cell, decided. *)
Definition mem_okb (m : Mem) : bool :=
  let f := m_flags m in
  bool_decide (is_u64 (m_u m)) &&
  (has f MEM_Null || has f MEM_Int || has f MEM_IntReal || has f MEM_Real || has f MEM_Str || has f MEM_Blob) &&
  negb (has f MEM_Int && has f MEM_IntReal) &&
  negb (has f MEM_Real && (has f MEM_Int || has f MEM_IntReal || IsNaN (m_u m))) &&
  (negb (stringy m) || (0 <=? m_n m) && (m_n m <=? zlen (z_bytes m)) && bool_decide (bytes_ok (z_bytes m))) &&
  (negb (has f MEM_Zero) || negb (has f MEM_Str || has f MEM_Int || has f MEM_IntReal || has f MEM_Real) && (0 <=? u_nZero m)).
Lemma mem_okb_ok m : mem_okb m = true -> mem_ok m.
Proof.
  unfold mem_okb, stringy. rewrite !andb_true_iff. intros [[[[[H1 H2] H3] H4] H5] H6]. apply bool_decide_eq_true in H1. split; [done|done|..].
  - intros E. rewrite E in H3. by destruct (has (m_flags m) MEM_IntReal).
  - intros E. rewrite E in H4. by destruct (has (m_flags m) MEM_Int), (has (m_flags m) MEM_IntReal), (IsNaN (m_u m)).
  - intros E. rewrite E in H5. cbn [negb orb] in H5. rewrite !andb_true_iff, bool_decide_eq_true in H5. destruct H5 as [[? ?] ?]. split; [lia|done].
  - intros E. rewrite E in H6. cbn [negb orb] in H6. rewrite andb_true_iff, negb_true_iff in H6. destruct H6 as [-> ?]. split; [done|lia].
Qed.

(** C24. [sqlite3MemCompare] compares any two cells as SQL orders their values: NULL first,
    then integers and reals by their exact values (an integer beyond 2^53 is never rounded
    to the real it is compared with), then text by the collating sequence, then blobs by
    their bytes, a zero-filled tail counting as the zeros it stands for.  That order is a
    total preorder when the collating sequence is one. *)
Theorem mem_compare_exact svt (coll : option CollSeq)
  (Hcoll : forall c, coll = Some c -> TotalPreorder (fun s t => c_xCmp c s t ?= 0)) :
  TotalPreorder (val_cmp coll) /\
  forall m1 m2, comparable coll m1 -> comparable coll m2 ->
    (sqlite3MemCompare svt m1 m2 coll ?= 0) = val_cmp coll (val_of m1) (val_of m2).
Proof. split; [by apply val_order|]. intros. by apply mem_compare_ok. Qed.

Definition mem_int (i : Z) : Mem := mkMem (u64 i) ZNull 0 MEM_Int 1 [] 0.
Definition mem_real (r : Z) : Mem := mkMem r ZNull 0 MEM_Real 1 [] 0.

(** 2^53 + 1 against the double 2^53 *)
Lemma mem_compare_exact_witness :
  (sqlite3MemCompare (fun _ _ => None) (mem_int (2 ^ 53 + 1)) (mem_real 0x4340000000000000) None ?= 0) = Gt.
Proof.
  rewrite (proj2 (mem_compare_exact (fun _ _ => None) None ltac:(intros c Hc; discriminate Hc))).
  - vm_compute. reflexivity.
  - split; [apply mem_okb_ok; vm_compute; reflexivity|]. split; intros H; discriminate H.
  - split; [apply mem_okb_ok; vm_compute; reflexivity|]. split; intros H; discriminate H.
Defined.
