(* ===== verification/Record.v ===== *)
(** The record format (vdbeaux.c section of sqlite3.c): serial types, and unpacking a record
    into cells.

    [record] is the format itself: a header with its size and one serial type per value,
    then the data of the values.  [sqlite3VdbeRecordUnpack] is proved to read it; the file
    MakeRecord proves that the virtual machine writes it. *)

From S2P Require Import Prelude Bits Varint Double Order VdbeMem.

(** ** Serial types *)

Definition sqlite3SmallTypeSizes : list Z :=
  [ 0;  1;  2;  3;  4;  6;  8;  8;  0;  0;
    0;  0;  0;  0;  1;  1;  2;  2;  3;  3;
    4;  4;  5;  5;  6;  6;  7;  7;  8;  8;
    9;  9; 10; 10; 11; 11; 12; 12; 13; 13;
   14; 14; 15; 15; 16; 16; 17; 17; 18; 18;
   19; 19; 20; 20; 21; 21; 22; 22; 23; 23;
   24; 24; 25; 25; 26; 26; 27; 27; 28; 28;
   29; 29; 30; 30; 31; 31; 32; 32; 33; 33;
   34; 34; 35; 35; 36; 36; 37; 37; 38; 38;
   39; 39; 40; 40; 41; 41; 42; 42; 43; 43;
   44; 44; 45; 45; 46; 46; 47; 47; 48; 48;
   49; 49; 50; 50; 51; 51; 52; 52; 53; 53;
   54; 54; 55; 55; 56; 56; 57; 57].

Definition sqlite3VdbeSerialTypeLen (serial_type : Z) : Z :=
  if 128 <=? serial_type then (serial_type - 12) / 2 else sqlite3SmallTypeSizes.[serial_type].
Definition sqlite3VdbeOneByteSerialTypeLen (serial_type : Z) : Z := sqlite3SmallTypeSizes.[serial_type].

Definition ONE_BYTE_INT (x : list Z) : Z := i8 x.[0].
Definition TWO_BYTE_INT (x : list Z) : Z := Z.lor (256 * i8 x.[0]) x.[1].
Definition THREE_BYTE_INT (x : list Z) : Z := Z.lor (Z.lor (65536 * i8 x.[0]) (Z.shiftl x.[1] 8)) x.[2].
Definition FOUR_BYTE_UINT (x : list Z) : Z :=
  Z.lor (Z.lor (Z.lor (u32 (Z.shiftl x.[0] 24)) (Z.shiftl x.[1] 16)) (Z.shiftl x.[2] 8)) x.[3].
Definition FOUR_BYTE_INT (x : list Z) : Z :=
  Z.lor (Z.lor (Z.lor (16777216 * i8 x.[0]) (Z.shiftl x.[1] 16)) (Z.shiftl x.[2] 8)) x.[3].

(** [pMem->u.i = v] *)
Definition set_i (m : Mem) (v : Z) : Mem := set_u m (u64 v).

Definition serialGet (buf : list Z) (serial_type : Z) (pMem : Mem) : Mem :=
  let x := FOUR_BYTE_UINT buf in
  let y := FOUR_BYTE_UINT (drop 4 buf) in
  let x := u64 (u64 (Z.shiftl x 32) + y) in
  if serial_type =? 6 then set_flags (set_u pMem x) MEM_Int
  else set_flags (set_u pMem x) (if IsNaN x then MEM_Null else MEM_Real).

(** The value returned, true for a NaN, and the cell. *)
Definition serialGet7 (buf : list Z) (pMem : Mem) : bool * Mem :=
  let x := FOUR_BYTE_UINT buf in
  let y := FOUR_BYTE_UINT (drop 4 buf) in
  let x := u64 (u64 (Z.shiftl x 32) + y) in
  let pMem := set_u pMem x in
  if IsNaN x then (true, set_flags pMem MEM_Null) else (false, set_flags pMem MEM_Real).

(** [static const u16 aFlag[]] *)
Definition aFlag : list Z := [Z.lor MEM_Blob MEM_Ephem; Z.lor MEM_Str MEM_Ephem].

Definition sqlite3VdbeSerialGet (buf : list Z) (serial_type : Z) (pMem : Mem) : Mem :=
  if serial_type =? 10 then set_nZero (set_n (set_flags pMem (Z.lor MEM_Null MEM_Zero)) 0) 0
  else if (serial_type =? 11) || (serial_type =? 0) then set_flags pMem MEM_Null
  else if serial_type =? 1 then set_flags (set_i pMem (ONE_BYTE_INT buf)) MEM_Int
  else if serial_type =? 2 then set_flags (set_i pMem (TWO_BYTE_INT buf)) MEM_Int
  else if serial_type =? 3 then set_flags (set_i pMem (THREE_BYTE_INT buf)) MEM_Int
  else if serial_type =? 4 then set_flags (set_i pMem (FOUR_BYTE_INT buf)) MEM_Int
  else if serial_type =? 5 then
    set_flags (set_i pMem (FOUR_BYTE_UINT (drop 2 buf) + Z.shiftl 1 32 * TWO_BYTE_INT buf)) MEM_Int
  else if (serial_type =? 6) || (serial_type =? 7) then serialGet buf serial_type pMem
  else if (serial_type =? 8) || (serial_type =? 9) then set_flags (set_i pMem (serial_type - 8)) MEM_Int
  else set_flags (set_n (set_z pMem (ZAt buf)) ((serial_type - 12) / 2)) aFlag.[Z.land serial_type 1].

(** ** Unpacking *)

Record KeyInfo := mkKeyInfo {
  ki_enc : Z; nKeyField : Z; nAllField : Z; aSortFlags : list Z; aColl : list (option CollSeq) }.

(** [p_i] and [p_z] are the two members of the union [u]. *)
Record UnpackedRecord := mkUnpacked {
  pKeyInfo : KeyInfo; aMem : list Mem; p_i : Z; p_z : list Z; p_n : Z; nField : Z;
  default_rc : Z; errCode : Z; p_r1 : Z; p_r2 : Z; eqSeen : bool }.

(** The loop of [sqlite3VdbeRecordUnpack]: the cells, [d] and [u] when it ends. *)
Fixpoint unpack_loop (fuel : nat) (aKey : list Z) (nKey szHdr enc nField : Z) (aMem : list Mem) (d idx u : Z) : list Mem * Z * Z :=
  match fuel with
  | O => (aMem, d, u)
  | S fuel =>
      if (idx <? szHdr) && (d <=? nKey) then
        let '(k, serial_type) := getVarint32 (drop (Z.to_nat idx) aKey) in
        let idx := u32 (idx + k) in
        let pMem := set_z (set_zMalloc (set_enc aMem.[u] enc) []) ZNull in
        let pMem := sqlite3VdbeSerialGet (drop (Z.to_nat d) aKey) serial_type pMem in
        let aMem := aMem.[u <- pMem] in
        let d := u32 (d + sqlite3VdbeSerialTypeLen serial_type) in
        let u := u16 (u + 1) in
        if nField <=? u then (aMem, d, u)
        else unpack_loop fuel aKey nKey szHdr enc nField aMem d idx u
      else (aMem, d, u)
  end.

Definition sqlite3VdbeRecordUnpack (nKey : Z) (aKey : list Z) (p : UnpackedRecord) : UnpackedRecord :=
  let '(idx, szHdr) := getVarint32 aKey in
  let '(aMem, d, u) := unpack_loop (S (Z.to_nat (nField p))) aKey nKey szHdr (ki_enc (pKeyInfo p)) (nField p) (aMem p) szHdr idx 0 in
  let aMem := if (nKey <? d) && truthy u then aMem.[u - 1 <- sqlite3VdbeMemSetNull aMem.[u - 1]] else aMem in
  mkUnpacked (pKeyInfo p) aMem (p_i p) (p_z p) (p_n p) u 0 (errCode p) (p_r1 p) (p_r2 p) (eqSeen p).

(** The cells of a freshly allocated record are whatever the allocation holds. *)
Definition sqlite3VdbeAllocUnpackedRecord (pKeyInfo : KeyInfo) (junk : list Mem) : UnpackedRecord :=
  mkUnpacked pKeyInfo junk 0 [] 0 (nKeyField pKeyInfo + 1) 0 0 0 0 false.

(** The size of a header whose serial types take [nHdr] bytes ([OP_MakeRecord]). *)
Definition header_size (nHdr : Z) : Z :=
  if nHdr <=? 126 then nHdr + 1
  else
    let nVarint := sqlite3VarintLen nHdr in
    let nHdr := nHdr + nVarint in
    if nVarint <? sqlite3VarintLen nHdr then nHdr + 1 else nHdr.

(** ** The format *)

(** The low [n] bytes of an integer, most significant first. *)
Fixpoint be (n : nat) (v : Z) : list Z :=
  match n with O => [] | S n => be n (v / 256) ++ [v mod 256] end.

Definition within (k i : Z) : bool := (- 2 ^ k <=? i) && (i <? 2 ^ k).
Definition int_stype (fmt i : Z) : Z :=
  if within 7 i then if (4 <=? fmt) && ((i =? 0) || (i =? 1)) then 8 + i else 1
  else if within 15 i then 2 else if within 23 i then 3 else if within 31 i then 4
  else if within 47 i then 5 else 6.
Definition stype (fmt : Z) (v : sval) : Z :=
  match v with
  | VNull => 0 | VInt i => int_stype fmt i | VReal _ => 7
  | VText s => 13 + 2 * zlen s | VBlob s => 12 + 2 * zlen s
  end.
Definition sdata (fmt : Z) (v : sval) : list Z :=
  match v with
  | VNull => [] | VInt i => be (Z.to_nat sqlite3SmallTypeSizes.[int_stype fmt i]) (u64 i)
  | VReal r => be 8 r | VText s | VBlob s => s
  end.
Definition types (fmt : Z) (vs : list sval) : list Z := mjoin ((fun v => varint_enc (stype fmt v)) <$> vs).
Definition data (fmt : Z) (vs : list sval) : list Z := mjoin (sdata fmt <$> vs).
Definition record (fmt : Z) (vs : list sval) : list Z :=
  varint_enc (header_size (zlen (types fmt vs))) ++ types fmt vs ++ data fmt vs.

(** [SQLITE_MAX_LENGTH] and [SQLITE_MAX_COLUMN] at their highest *)
Definition MAX_LENGTH : Z := 1000000000.
Definition MAX_FIELDS : Z := 65536.
Definition storable (v : sval) : Prop :=
  match v with
  | VNull => True | VInt i => is_i64 i | VReal r => is_u64 r /\ IsNaN r = false
  | VText s | VBlob s => bytes_ok s /\ zlen s <= MAX_LENGTH
  end.

(** ** Sizes *)

Lemma varintlen_steps v : 0 <= v < 2 ^ 35 -> sqlite3VarintLen v =
  if v <? 2 ^ 7 then 1 else if v <? 2 ^ 14 then 2 else if v <? 2 ^ 21 then 3 else if v <? 2 ^ 28 then 4 else 5.
Proof.
  intros Hv. unfold sqlite3VarintLen. cbn [sqlite3VarintLen_loop]. rewrite !shiftr_7.
  assert (E1 : v / 128 / 128 = v / 2 ^ 14) by (rewrite Z.div_div by lia; done).
  assert (E2 : v / 2 ^ 14 / 128 = v / 2 ^ 21) by (rewrite Z.div_div by lia; done).
  assert (E3 : v / 2 ^ 21 / 128 = v / 2 ^ 28) by (rewrite Z.div_div by lia; done).
  assert (E4 : v / 2 ^ 28 / 128 = v / 2 ^ 35) by (rewrite Z.div_div by lia; done).
  rewrite E1, E2, E3, E4, (Z.div_small v (2 ^ 35)) by lia. change (v / 128) with (v / 2 ^ 7). change (0 =? 0) with true. cbn iota.
  assert (D : forall k, 0 < k -> (v / 2 ^ k =? 0) = (v <? 2 ^ k)).
  { intros k Hk. pose proof (Z.pow_pos_nonneg 2 k ltac:(lia) ltac:(lia)).
    destruct (Z.ltb_spec v (2 ^ k)); [rewrite Z.div_small by lia; done|]. apply Z.eqb_neq. intros E.
    apply Z.div_small_iff in E; lia. }
  rewrite !D by lia. zbool; lia.
Qed.

Lemma header_size_ok h : 0 <= h < 2 ^ 31 -> zlen (varint_enc (header_size h)) + h = header_size h /\ h < header_size h <= h + 5.
Proof.
  intros Hh. assert (B : h < header_size h <= h + 5).
  { unfold header_size. rewrite (varintlen_steps h) by lia. destruct (Z.leb_spec h 126); [lia|].
    set (n := if h <? _ then _ else _). assert (1 <= n <= 5) by (unfold n; zbool; lia).
    rewrite varintlen_steps by lia. unfold n. zbool; lia. }
  split; [|done]. rewrite <- varintlen_enc by lia. revert B. unfold header_size. rewrite (varintlen_steps h) by lia.
  destruct (Z.leb_spec h 126); [intros _; rewrite varintlen_steps by lia; zbool; lia|].
  set (n := if h <? _ then _ else _). assert (1 <= n <= 5) by (unfold n; zbool; lia).
  rewrite (varintlen_steps (h + n)) by lia. intros _. subst n.
  destruct (Z.ltb_spec (if h <? 2 ^ 7 then 1 else if h <? 2 ^ 14 then 2 else if h <? 2 ^ 21 then 3 else if h <? 2 ^ 28 then 4 else 5)
    (if h + (if h <? 2 ^ 7 then 1 else if h <? 2 ^ 14 then 2 else if h <? 2 ^ 21 then 3 else if h <? 2 ^ 28 then 4 else 5) <? 2 ^ 7 then 1
     else if h + (if h <? 2 ^ 7 then 1 else if h <? 2 ^ 14 then 2 else if h <? 2 ^ 21 then 3 else if h <? 2 ^ 28 then 4 else 5) <? 2 ^ 14 then 2
     else if h + (if h <? 2 ^ 7 then 1 else if h <? 2 ^ 14 then 2 else if h <? 2 ^ 21 then 3 else if h <? 2 ^ 28 then 4 else 5) <? 2 ^ 21 then 3
     else if h + (if h <? 2 ^ 7 then 1 else if h <? 2 ^ 14 then 2 else if h <? 2 ^ 21 then 3 else if h <? 2 ^ 28 then 4 else 5) <? 2 ^ 28 then 4 else 5));
    rewrite varintlen_steps; zbool; lia.
Qed.

Lemma enc_small v : 0 <= v < 128 -> varint_enc v = [v].
Proof.
  intros Hv. unfold varint_enc. rewrite (proj2 (Z.ltb_lt v (2 ^ 56))) by lia. cbn [ngroups]. rewrite Z.div_small by lia.
  cbn. by rewrite Z.mod_small by lia.
Qed.

Lemma be_len n v : zlen (be n v) = Z.of_nat n.
Proof.
  revert v. induction n as [|n IH]; intros v; [done|]. cbn [be]. rewrite zlen_app, IH. change (zlen [v mod 256]) with 1. lia.
Qed.
Lemma be_bytes n v : bytes_ok (be n v).
Proof.
  revert v. induction n as [|n IH]; intros v; [constructor|]. cbn [be]. apply Forall_app. split; [apply IH|].
  repeat constructor; unfold is_u8; Z.div_mod_to_equations; lia.
Qed.
Lemma types_cons fmt v vs : types fmt (v :: vs) = varint_enc (stype fmt v) ++ types fmt vs.
Proof. done. Qed.
Lemma data_cons fmt v vs : data fmt (v :: vs) = sdata fmt v ++ data fmt vs.
Proof. done. Qed.

Lemma int_stype_range fmt i : 1 <= int_stype fmt i <= 9 /\ int_stype fmt i <> 7.
Proof.
  unfold int_stype. destruct (within 7 i), (within 15 i), (within 23 i), (within 31 i), (within 47 i); try lia;
    destruct (4 <=? fmt), (Z.eqb_spec i 0), (Z.eqb_spec i 1); cbn [andb orb]; lia.
Qed.
Lemma stype_range fmt v : storable v -> 0 <= stype fmt v <= 13 + 2 * MAX_LENGTH.
Proof.
  pose proof (int_stype_range fmt) as HI. unfold MAX_LENGTH. destruct v as [|i|r|s|s]; cbn [stype storable]; try lia.
  - intros _. specialize (HI i). lia.
  - intros [_ H]. unfold MAX_LENGTH in H. pose proof (zlen_nonneg s). lia.
  - intros [_ H]. unfold MAX_LENGTH in H. pose proof (zlen_nonneg s). lia.
Qed.
Lemma typelen_text t : 12 <= t -> sqlite3VdbeSerialTypeLen t = (t - 12) / 2.
Proof.
  intros Ht. unfold sqlite3VdbeSerialTypeLen. destruct (Z.leb_spec 128 t); [done|].
  assert (A : forallb (fun k => sqlite3SmallTypeSizes.[k] =? (k - 12) / 2) (seqZ 12 116) = true) by by_compute.
  rewrite forallb_forall in A. apply Z.eqb_eq, A. apply list_elem_of_In, elem_of_seqZ. lia.
Qed.
Lemma typelen_ok fmt v : sqlite3VdbeSerialTypeLen (stype fmt v) = zlen (sdata fmt v).
Proof.
  destruct v as [|i|r|s|s]; cbn [stype sdata]; [done| |done| |].
  - pose proof (int_stype_range fmt i) as Hr. rewrite be_len. unfold sqlite3VdbeSerialTypeLen.
    rewrite (proj2 (Z.leb_gt 128 _)) by lia. rewrite Z2Nat.id; [done|].
    assert (int_stype fmt i ∈ seqZ 1 9) as Hin by (apply elem_of_seqZ; lia).
    assert (A : forallb (fun k => 0 <=? sqlite3SmallTypeSizes.[k]) (seqZ 1 9) = true) by by_compute.
    rewrite forallb_forall in A. apply list_elem_of_In in Hin. apply A in Hin. lia.
  - pose proof (zlen_nonneg s). rewrite typelen_text by lia. replace (13 + 2 * zlen s - 12) with (1 + zlen s * 2) by lia.
    rewrite Z.div_add by lia. done.
  - pose proof (zlen_nonneg s). rewrite typelen_text by lia. replace (12 + 2 * zlen s - 12) with (zlen s * 2) by lia. by apply Z.div_mul.
Qed.
Lemma type_varint fmt v : storable v -> is_u64 (stype fmt v) /\ 1 <= zlen (varint_enc (stype fmt v)) <= 5 /\
  sqlite3VarintLen (stype fmt v) = zlen (varint_enc (stype fmt v)).
Proof.
  intros Hv. pose proof (stype_range fmt v Hv) as Hr. unfold MAX_LENGTH in Hr. rewrite <- varintlen_enc by lia.
  rewrite varintlen_steps by lia. split; [unfold is_u64; lia|]. split; [zbool; lia|done].
Qed.
Lemma types_len fmt vs : Forall storable vs -> zlen vs <= zlen (types fmt vs) <= 5 * zlen vs.
Proof.
  induction 1 as [|v vs Hv _ IH]; [done|]. rewrite types_cons, zlen_app, zlen_cons.
  destruct (type_varint fmt v Hv) as (_ & H & _). lia.
Qed.

(** ** Reading values *)

Definition ubig (l : list Z) : Z := foldl (fun a b => a * 256 + b) 0 l.
Lemma be_cons n v : be (S n) v = v / 256 ^ Z.of_nat n mod 256 :: be n v.
Proof.
  revert v. induction n as [|n IH]; intros v; [cbn; by rewrite Z.div_1_r|].
  change (be (S (S n)) v) with (be (S n) (v / 256) ++ [v mod 256]). rewrite IH. cbn [be app].
  by rewrite Nat2Z.inj_succ, Z.pow_succ_r, Z.div_div by (lia || (apply Z.pow_nonneg; lia) || (apply Z.pow_pos_nonneg; lia)).
Qed.
Lemma be_mod n v : (n <= 8)%nat -> be n (u64 v) = be n v.
Proof.
  assert (G : forall k v, (n <= k)%nat -> be n (v mod 256 ^ Z.of_nat k) = be n v).
  { clear v. induction n as [|n IH]; intros k v Hk; [done|]. destruct k as [|k]; [lia|]. cbn [be].
    rewrite Nat2Z.inj_succ, Z.pow_succ_r by lia. assert (0 < 256 ^ Z.of_nat k) by (apply Z.pow_pos_nonneg; lia).
    rewrite Z.rem_mul_r by lia. rewrite <- (IH k (v / 256)) by lia. f_equal; [f_equal|f_equal].
    - rewrite Z.mul_comm, Z.div_add by lia. rewrite Z.div_small by (apply Z.mod_pos_bound; lia). lia.
    - rewrite Z.mul_comm, Z.mod_add by lia. apply Z.mod_mod. lia. }
  intros Hn. apply (G 8%nat v Hn).
Qed.
Lemma ubig_be n v : ubig (be n v) = v mod 256 ^ Z.of_nat n.
Proof.
  revert v. induction n as [|n IH]; intros v; [cbn; by rewrite Z.mod_1_r|]. cbn [be]. unfold ubig in *. rewrite foldl_app, IH. cbn [foldl].
  rewrite Nat2Z.inj_succ, Z.pow_succ_r by lia. rewrite Z.rem_mul_r by (lia || apply Z.pow_pos_nonneg; lia). lia.
Qed.

(** The high byte of a signed number of [n + 1] bytes. *)
Lemma high_byte n i : - 2 ^ (8 * Z.of_nat n + 7) <= i < 2 ^ (8 * Z.of_nat n + 7) ->
  i8 (i / 256 ^ Z.of_nat n mod 256) * 256 ^ Z.of_nat n + i mod 256 ^ Z.of_nat n = i.
Proof.
  intros Hi. assert (Hp : 0 < 256 ^ Z.of_nat n) by (apply Z.pow_pos_nonneg; lia).
  assert (E : 2 ^ (8 * Z.of_nat n + 7) = 256 ^ Z.of_nat n * 128) by (rewrite Z.pow_add_r, Z.pow_mul_r by lia; done).
  rewrite E in Hi. assert (Hq : -128 <= i / 256 ^ Z.of_nat n < 128).
  { split; [apply Z.div_le_lower_bound; lia|apply Z.div_lt_upper_bound; lia]. }
  assert (E8 : i8 (i / 256 ^ Z.of_nat n mod 256) = i / 256 ^ Z.of_nat n) by zwlia. rewrite E8.
  pose proof (Z.div_mod i (256 ^ Z.of_nat n) ltac:(lia)). lia.
Qed.

Lemma TWO_sum a b r : is_u8 b -> TWO_BYTE_INT (a :: b :: r) = i8 a * 256 + b.
Proof.
  intros Hb. unfold TWO_BYTE_INT. change ((a :: b :: r).[0]) with a. change ((a :: b :: r).[1]) with b.
  replace (256 * i8 a) with (Z.shiftl (i8 a) 8) by (rewrite Z.shiftl_mul_pow2 by lia; lia). by rewrite lor_shiftl_add by (unfold is_u8 in *; lia).
Qed.
Lemma lor_step a b c : is_u8 b -> is_u8 c -> Z.lor (Z.lor (a * 2 ^ 16) (Z.shiftl b 8)) c = (a * 256 + b) * 256 + c.
Proof.
  intros Hb Hc. unfold is_u8 in *. rewrite <- (Z.shiftl_mul_pow2 a 16), lor_shiftl_add by (rewrite ?Z.shiftl_mul_pow2; lia).
  rewrite Z.shiftl_mul_pow2 by lia. replace (a * 2 ^ 16 + b * 2 ^ 8) with (Z.shiftl (a * 256 + b) 8) by (rewrite Z.shiftl_mul_pow2; lia).
  rewrite lor_shiftl_add by lia. lia.
Qed.
Lemma THREE_sum a b c r : is_u8 b -> is_u8 c -> THREE_BYTE_INT (a :: b :: c :: r) = (i8 a * 256 + b) * 256 + c.
Proof.
  intros Hb Hc. unfold THREE_BYTE_INT. change ((a :: b :: c :: r).[0]) with a. change ((a :: b :: c :: r).[1]) with b. change ((a :: b :: c :: r).[2]) with c.
  replace (65536 * i8 a) with (i8 a * 2 ^ 16) by lia. by apply lor_step.
Qed.
Lemma FOUR_sum a b c d r : is_u8 b -> is_u8 c -> is_u8 d -> FOUR_BYTE_INT (a :: b :: c :: d :: r) = ((i8 a * 256 + b) * 256 + c) * 256 + d.
Proof.
  intros Hb Hc Hd. unfold FOUR_BYTE_INT. change ((a :: b :: c :: d :: r).[0]) with a. change ((a :: b :: c :: d :: r).[1]) with b.
  change ((a :: b :: c :: d :: r).[2]) with c. change ((a :: b :: c :: d :: r).[3]) with d. unfold is_u8 in *.
  assert (E : Z.lor (16777216 * i8 a) (Z.shiftl b 16) = (i8 a * 256 + b) * 2 ^ 16).
  { replace (16777216 * i8 a) with (Z.shiftl (i8 a) 24) by (rewrite Z.shiftl_mul_pow2; lia).
    rewrite lor_shiftl_add by (rewrite ?Z.shiftl_mul_pow2; lia). rewrite Z.shiftl_mul_pow2; lia. }
  rewrite E. apply lor_step; unfold is_u8; lia.
Qed.
Lemma UFOUR_sum a b c d r : is_u8 a -> is_u8 b -> is_u8 c -> is_u8 d -> FOUR_BYTE_UINT (a :: b :: c :: d :: r) = ((a * 256 + b) * 256 + c) * 256 + d.
Proof. apply get4_sum. Qed.

Ltac be_bytes := unfold is_u8; apply Z.mod_pos_bound; lia.
Lemma ONE_be i pad : within 7 i = true -> ONE_BYTE_INT (be 1 i ++ pad) = i.
Proof. intros Hi. unfold ONE_BYTE_INT. cbn [be app]. rewrite zget_cons_0. unfold within in Hi. zbool; [zwlia|done..]. Qed.
Lemma within_range k i : within k i = true -> - 2 ^ k <= i < 2 ^ k.
Proof. unfold within. zbool; done. Qed.
Lemma TWO_be i pad : within 15 i = true -> TWO_BYTE_INT (be 2 i ++ pad) = i.
Proof.
  intros Hi%within_range. rewrite be_cons. cbn [app be]. rewrite TWO_sum by be_bytes. exact (high_byte 1 i Hi).
Qed.
Lemma THREE_be i pad : within 23 i = true -> THREE_BYTE_INT (be 3 i ++ pad) = i.
Proof.
  intros Hi%within_range. rewrite be_cons. pose proof (high_byte 2 i Hi) as E. rewrite <- (ubig_be 2) in E. cbn [be app ubig foldl] in *.
  rewrite THREE_sum by be_bytes. unfold ubig in E. cbn [foldl] in E. lia.
Qed.
Lemma FOUR_be i pad : within 31 i = true -> FOUR_BYTE_INT (be 4 i ++ pad) = i.
Proof.
  intros Hi%within_range. rewrite be_cons. pose proof (high_byte 3 i Hi) as E. rewrite <- (ubig_be 3) in E. unfold ubig in E. cbn [be app foldl] in *.
  rewrite FOUR_sum by be_bytes. lia.
Qed.
Lemma UFOUR_be v pad : FOUR_BYTE_UINT (be 4 v ++ pad) = v mod 2 ^ 32.
Proof.
  pose proof (ubig_be 4 v) as E. change (256 ^ Z.of_nat 4) with (2 ^ 32) in E. rewrite <- E. unfold ubig. cbn [be app foldl].
  rewrite UFOUR_sum by be_bytes. lia.
Qed.
Lemma be_app n k v : be (k + n) v = be k (v / 256 ^ Z.of_nat n) ++ be n v.
Proof.
  revert v. induction n as [|n IH]; intros v; [rewrite Nat.add_0_r, Z.div_1_r; cbn; by rewrite app_nil_r|].
  rewrite Nat.add_succ_r. cbn [be]. rewrite IH, <- app_assoc. do 2 f_equal.
  rewrite Nat2Z.inj_succ, Z.pow_succ_r, Z.div_div by (lia || apply Z.pow_pos_nonneg; lia). done.
Qed.
Lemma SIX_be i pad : within 47 i = true -> FOUR_BYTE_UINT (drop 2 (be 6 i ++ pad)) + Z.shiftl 1 32 * TWO_BYTE_INT (be 6 i ++ pad) = i.
Proof.
  intros Hi%within_range. change (be 6 i) with (be (2 + 4) i). rewrite (be_app 4 2 i), <- app_assoc. change (256 ^ Z.of_nat 4) with (2 ^ 32).
  rewrite TWO_be. 2: { unfold within. assert (- 2 ^ 15 <= i / 2 ^ 32 < 2 ^ 15); [|zbool; lia]. Z.div_mod_to_equations; lia. }
  rewrite drop_app_length' by done. rewrite UFOUR_be. change (Z.shiftl 1 32) with (2 ^ 32). pose proof (Z.div_mod i (2 ^ 32) ltac:(lia)). lia.
Qed.
Lemma EIGHT_be v pad : is_u64 v -> u64 (u64 (Z.shiftl (FOUR_BYTE_UINT (be 8 v ++ pad)) 32) + FOUR_BYTE_UINT (drop 4 (be 8 v ++ pad))) = v.
Proof.
  intros Hv. change (be 8 v) with (be (4 + 4) v). rewrite (be_app 4 4 v), <- app_assoc. change (256 ^ Z.of_nat 4) with (2 ^ 32). rewrite UFOUR_be.
  rewrite drop_app_length' by done. rewrite UFOUR_be. rewrite Z.shiftl_mul_pow2 by lia. zwlia.
Qed.

Lemma i64_u64 i : is_i64 i -> i64 (u64 i) = i.
Proof. intros. zwlia. Qed.
Lemma u64_range z : is_u64 (u64 z).
Proof. zwlia. Qed.
Lemma int_cell m i : is_i64 i -> let m' := set_flags (set_i m i) MEM_Int in val_of m' = VInt i /\ mem_ok m' /\ plain_zero m' /\ only_null (m_flags m').
Proof.
  intros Hi m'. split; [|split; [split|split]]; unfold val_of, plain_zero, only_null, u_i, m', set_i; mem_cbn; flag_eval; cbn [orb]; try done; [by rewrite i64_u64|apply u64_range].
Qed.

(** Each serial type reads back the value it was chosen for. *)
Lemma serial_get_ok fmt v m pad : storable v -> is_u64 (m_u m) -> bytes_ok pad ->
  let m' := sqlite3VdbeSerialGet (sdata fmt v ++ pad) (stype fmt v) m in
  val_of m' = v /\ mem_ok m' /\ plain_zero m' /\ m_enc m' = m_enc m /\ only_null (m_flags m').
Proof.
  intros Hv Hu Hp. destruct v as [|i|r|s|s]; cbn [stype sdata].
  - unfold sqlite3VdbeSerialGet. cbn zeta. change (0 =? 10) with false. change ((0 =? 11) || (0 =? 0)) with true. cbn iota.
    split; [done|]. split; [by split|]. done.
  - cbn [storable] in Hv. assert (Hin : forall j, j = i -> let m' := set_flags (set_i m j) MEM_Int in val_of m' = VInt i /\ mem_ok m' /\ plain_zero m' /\ m_enc m' = m_enc m /\ only_null (m_flags m')).
    { intros j -> m'. destruct (int_cell m i Hv) as (A & B & C & D). done. }
    unfold int_stype. destruct (within 7 i) eqn:W7.
    { destruct (_ && _) eqn:E01; [|rewrite be_mod by (vm_compute; lia); by apply (Hin (ONE_BYTE_INT _)), ONE_be].
      apply andb_true_iff in E01 as [_ E]. apply orb_true_iff in E as [->%Z.eqb_eq | ->%Z.eqb_eq]; by apply Hin. }
    destruct (within 15 i) eqn:W15; [rewrite be_mod by (vm_compute; lia); by apply (Hin (TWO_BYTE_INT _)), TWO_be|].
    destruct (within 23 i) eqn:W23; [rewrite be_mod by (vm_compute; lia); by apply (Hin (THREE_BYTE_INT _)), THREE_be|].
    destruct (within 31 i) eqn:W31; [rewrite be_mod by (vm_compute; lia); by apply (Hin (FOUR_BYTE_INT _)), FOUR_be|].
    destruct (within 47 i) eqn:W47; [rewrite be_mod by (vm_compute; lia); by apply (Hin (_ + _)), SIX_be|].
    change (Z.to_nat sqlite3SmallTypeSizes.[6]) with 8%nat. unfold sqlite3VdbeSerialGet, serialGet. cbn zeta.
    repeat match goal with |- context [6 =? ?k] => change (6 =? k) with (Z.eqb 6 k); let b := eval vm_compute in (6 =? k) in change (6 =? k) with b end. cbn [orb].
    cbv iota. rewrite EIGHT_be by apply u64_range. by apply Hin.
  - destruct Hv as [Hr Hn]. unfold sqlite3VdbeSerialGet, serialGet. cbn zeta.
    repeat match goal with |- context [7 =? ?k] => let b := eval vm_compute in (7 =? k) in change (7 =? k) with b end. cbn [orb]. cbv iota.
    rewrite EIGHT_be by done. rewrite Hn. split; [|split; [split|split; [|split]]]; unfold val_of, plain_zero, only_null, u_r; mem_cbn; flag_eval; cbn [orb]; try done.
  - destruct Hv as [Hs Hl]. unfold MAX_LENGTH in Hl. pose proof (zlen_nonneg s). unfold sqlite3VdbeSerialGet.
    repeat (rewrite (proj2 (Z.eqb_neq (13 + 2 * zlen s) _)) by lia). cbn [orb]. cbv iota.
    replace ((13 + 2 * zlen s - 12) / 2) with (zlen s) by (Z.div_mod_to_equations; lia).
    assert (El : Z.land (13 + 2 * zlen s) 1 = 1).
    { rewrite land_1. Z.div_mod_to_equations; lia. }
    rewrite El. change (aFlag.[1]) with (Z.lor MEM_Str MEM_Ephem).
    split; [|split; [split|split; [|split]]]; unfold val_of, plain_zero, only_null; mem_cbn; flag_eval; cbn [orb]; try done.
    + unfold zlen. by rewrite Nat2Z.id, take_app_length.
    + intros _. split; [rewrite zlen_app; pose proof (zlen_nonneg pad); lia|by apply Forall_app].
  - destruct Hv as [Hs Hl]. unfold MAX_LENGTH in Hl. pose proof (zlen_nonneg s). unfold sqlite3VdbeSerialGet.
    repeat (rewrite (proj2 (Z.eqb_neq (12 + 2 * zlen s) _)) by lia). cbn [orb]. cbv iota.
    replace ((12 + 2 * zlen s - 12) / 2) with (zlen s) by (Z.div_mod_to_equations; lia).
    assert (El : Z.land (12 + 2 * zlen s) 1 = 0).
    { rewrite land_1. Z.div_mod_to_equations; lia. }
    rewrite El. change (aFlag.[0]) with (Z.lor MEM_Blob MEM_Ephem).
    split; [|split; [split|split; [|split]]]; unfold val_of, plain_zero, only_null; mem_cbn; flag_eval; cbn [orb]; try done.
    + unfold zlen. by rewrite app_nil_r, Nat2Z.id, take_app_length.
    + intros _. split; [rewrite zlen_app; pose proof (zlen_nonneg pad); lia|by apply Forall_app].
Qed.

(** ** Unpacking what was packed *)

(** A cell that holds a value read from a record. *)
Definition decoded (enc : Z) (v : sval) (m : Mem) : Prop := val_of m = v /\ mem_ok m /\ plain_zero m /\ m_enc m = enc /\ only_null (m_flags m).

Lemma get_varint32_enc v r : 0 <= v < 2 ^ 32 -> bytes_ok r -> getVarint32 (varint_enc v ++ r) = (zlen (varint_enc v), v).
Proof.
  intros Hv Hr. rewrite getVarint32_clamps by (apply Forall_app; split; [apply varint_enc_bytes|done]).
  rewrite varint_enc_dec by (unfold is_u64; lia). cbn [fst snd]. f_equal. lia.
Qed.
Lemma sdata_bytes fmt v : storable v -> bytes_ok (sdata fmt v).
Proof. destruct v; cbn [storable sdata]; [constructor|intros; apply be_bytes..|by intros []|by intros []]. Qed.
Lemma data_bytes fmt vs : Forall storable vs -> bytes_ok (data fmt vs).
Proof. induction 1 as [|v vs Hv _ IH]; [constructor|]. apply Forall_app. split; [by apply sdata_bytes|done]. Qed.
Lemma types_bytes fmt vs : bytes_ok (types fmt vs).
Proof. induction vs as [|v vs IH]; [constructor|]. apply Forall_app. split; [apply varint_enc_bytes|done]. Qed.
Lemma record_bytes fmt vs : Forall storable vs -> bytes_ok (record fmt vs).
Proof.
  intros Hs. unfold record. apply Forall_app. split; [apply varint_enc_bytes|]. apply Forall_app.
  split; [apply types_bytes|by apply data_bytes].
Qed.
Lemma drop_more {A} (l a b : list A) i : 0 <= i -> drop (Z.to_nat i) l = a ++ b -> drop (Z.to_nat (i + zlen a)) l = b.
Proof.
  intros Hi E. replace (Z.to_nat (i + zlen a)) with (Z.to_nat i + length a)%nat by (unfold zlen; lia).
  rewrite <- drop_drop, E. by apply drop_app_length.
Qed.

(** Where the loop stands: the types and the data of the values that are left. *)
Record unpacking (fmt : Z) (aKey pad : list Z) (nKey szHdr : Z) (vs : list sval) (d idx : Z) : Prop := {
  up_idx : 0 <= idx /\ exists r, drop (Z.to_nat idx) aKey = types fmt vs ++ r /\ bytes_ok r;
  up_hdr : szHdr = idx + zlen (types fmt vs) /\ szHdr <= nKey;
  up_d : 0 <= d /\ drop (Z.to_nat d) aKey = data fmt vs ++ pad;
  up_key : nKey = d + zlen (data fmt vs) /\ nKey < 2 ^ 31 }.

Lemma unpacking_next fmt aKey pad nKey szHdr v vs d idx : unpacking fmt aKey pad nKey szHdr (v :: vs) d idx ->
  unpacking fmt aKey pad nKey szHdr vs (d + zlen (sdata fmt v)) (idx + zlen (varint_enc (stype fmt v))).
Proof.
  intros [[H1 (r & H2 & H3)] [H4 H5] [H6 H7] [H8 H9]]. rewrite types_cons, data_cons, ?zlen_app, <- ?app_assoc in *.
  pose proof (zlen_nonneg (sdata fmt v)). pose proof (zlen_nonneg (varint_enc (stype fmt v))).
  split; (split; [lia|]).
  - exists r. split; [|done]. by apply drop_more.
  - lia.
  - by apply drop_more.
  - lia.
Qed.

Lemma unpack_loop_ok fuel fmt aKey pad nKey szHdr enc nF vs aMem d idx u :
  Forall storable vs -> bytes_ok pad -> unpacking fmt aKey pad nKey szHdr vs d idx ->
  0 <= u < nF -> nF < 2 ^ 16 -> nF <= zlen aMem -> (Z.to_nat (nF - u) < fuel)%nat -> Forall (fun m => is_u64 (m_u m)) aMem ->
  exists aMem' d', unpack_loop fuel aKey nKey szHdr enc nF aMem d idx u = (aMem', d', Z.min nF (u + zlen vs)) /\
    d' <= nKey /\ zlen aMem' = zlen aMem /\ (forall i, i < u -> aMem'.[i] = aMem.[i]) /\
    (forall k v, vs !! k = Some v -> u + Z.of_nat k < nF -> decoded enc v aMem'.[u + Z.of_nat k]).
Proof.
  intros Hs Hp. revert vs aMem d idx u Hs. induction fuel as [|fuel IH]; intros vs aMem d idx u Hs Hup Hu HnF Hlen Hf Hm; [lia|].
  cbn [unpack_loop]. destruct vs as [|v vs].
  { destruct Hup as [_ [H _] _ [H8 _]]. unfold types, data in *. cbn in H, H8. rewrite Z.add_0_r in H, H8. subst szHdr.
    rewrite (proj2 (Z.ltb_ge idx idx)) by lia. cbn [andb]. exists aMem, d. rewrite zlen_nil, Z.add_0_r, Z.min_r by lia.
    split_and!; [done|lia|done|done|]. intros k v Hk. done. }
  inversion Hs as [|? ? Hv Hs']; subst. pose proof (unpacking_next _ _ _ _ _ _ _ _ _ Hup) as Hnext.
  destruct Hup as [[H1 (r & H2 & H3)] [H4 H5] [H6 H7] [H8 H9]]. rewrite types_cons, data_cons, ?zlen_app, <- ?app_assoc in *.
  destruct (type_varint fmt v Hv) as (H64 & Hlv & _). pose proof (stype_range fmt v Hv) as Hr. unfold MAX_LENGTH in Hr.
  pose proof (zlen_nonneg (types fmt vs)). pose proof (zlen_nonneg (data fmt vs)). pose proof (zlen_nonneg (sdata fmt v)).
  rewrite (proj2 (Z.ltb_lt idx szHdr)), (proj2 (Z.leb_le d nKey)) by lia. cbn [andb].
  rewrite H2, get_varint32_enc by (lia || (apply Forall_app; split; [apply types_bytes|done])). rewrite H7, typelen_ok.
  set (m0 := set_z _ _). assert (Hm0 : is_u64 (m_u m0)).
  { unfold m0. mem_cbn. pose proof (zlookup_zget aMem u ltac:(lia)) as E. unfold zlookup in E. rewrite (proj2 (Z.leb_le 0 u)) in E by lia.
    eapply Forall_lookup_1 in E; [|exact Hm]. done. }
  pose proof (serial_get_ok fmt v m0 (data fmt vs ++ pad) Hv Hm0 ltac:(apply Forall_app; split; [by apply data_bytes|done])) as (G1 & G2 & G3 & G4 & G5).
  set (m1 := sqlite3VdbeSerialGet _ _ m0) in *.
  assert (Ed : u32 (d + zlen (sdata fmt v)) = d + zlen (sdata fmt v)) by zwlia.
  assert (Ei : u32 (idx + zlen (varint_enc (stype fmt v))) = idx + zlen (varint_enc (stype fmt v))) by zwlia.
  assert (Eu : u16 (u + 1) = u + 1) by zwlia. rewrite Ed, Ei, Eu, zlen_cons.
  assert (Hdec : decoded enc v m1) by done.
  destruct (Z.leb_spec nF (u + 1)) as [Hend|Hend].
  - exists (aMem.[u <- m1]), (d + zlen (sdata fmt v)). pose proof (zlen_nonneg vs). rewrite Z.min_l by lia. split; [do 2 f_equal; lia|].
    split_and!; [lia|apply zlen_zput|intros i Hi; apply zget_zput_ne; lia|]. intros [|k] w Hk Hlt; [|lia].
    injection Hk as <-. change (u + Z.of_nat 0) with (u + 0). rewrite Z.add_0_r, zget_zput_eq by lia. done.
  - destruct (IH vs (aMem.[u <- m1]) _ _ (u + 1) Hs' Hnext ltac:(lia) HnF ltac:(rewrite zlen_zput; lia) ltac:(lia)) as (aMem' & d' & -> & A1 & A2 & A3 & A4).
    { unfold zput. destruct (0 <=? u); [|done]. by apply Forall_insert; [|apply G2]. }
    exists aMem', d'. rewrite zlen_zput in A2. split; [do 2 f_equal; lia|]. split_and!; [done|done| |].
    + intros i Hi. rewrite A3 by lia. apply zget_zput_ne. lia.
    + intros [|k] w Hk Hlt.
      * injection Hk as <-. rewrite Z.add_0_r, A3, zget_zput_eq by lia. done.
      * replace (u + Z.of_nat (S k)) with (u + 1 + Z.of_nat k) in * by lia. by apply A4.
Qed.

Lemma header_get fmt vs pad : Forall storable vs -> zlen vs <= MAX_FIELDS -> bytes_ok pad ->
  let h := header_size (zlen (types fmt vs)) in
  getVarint32 (record fmt vs ++ pad) = (zlen (varint_enc h), h) /\ 0 <= zlen vs <= zlen (types fmt vs) /\ zlen (types fmt vs) <= 5 * zlen vs /\
  h = zlen (varint_enc h) + zlen (types fmt vs) /\ 1 <= zlen (varint_enc h) <= 5.
Proof.
  intros Hs Hl Hp h. pose proof (types_len fmt vs Hs) as Ht. unfold MAX_FIELDS in Hl. pose proof (zlen_nonneg vs).
  destruct (header_size_ok (zlen (types fmt vs)) ltac:(lia)) as [H1 H2]. fold h in H1, H2.
  split; [|lia]. unfold record. fold h. rewrite <- app_assoc. apply get_varint32_enc; [lia|].
  repeat (apply Forall_app; split); [apply types_bytes|by apply data_bytes|done].
Qed.

Lemma unpacking_start fmt vs pad : Forall storable vs -> zlen vs <= MAX_FIELDS -> bytes_ok pad -> zlen (record fmt vs) < 2 ^ 31 ->
  let h := header_size (zlen (types fmt vs)) in
  unpacking fmt (record fmt vs ++ pad) pad (zlen (record fmt vs)) h vs h (zlen (varint_enc h)).
Proof.
  intros Hs Hl Hp Hlen h. destruct (header_get fmt vs pad Hs Hl Hp) as (_ & _ & _ & H1 & H2). fold h in H1, H2.
  assert (E : record fmt vs = varint_enc h ++ types fmt vs ++ data fmt vs) by done. rewrite E in *. rewrite !zlen_app in *.
  pose proof (zlen_nonneg (data fmt vs)). pose proof (zlen_nonneg (types fmt vs)). split.
  - split; [lia|]. exists (data fmt vs ++ pad). rewrite <- !app_assoc. split; [unfold zlen; by rewrite Nat2Z.id, drop_app_length|].
    apply Forall_app. split; [by apply data_bytes|done].
  - lia.
  - split; [lia|]. rewrite H1 at 1. rewrite <- !app_assoc. rewrite (app_assoc (varint_enc h)). apply drop_app_length'. rewrite length_app. unfold zlen. lia.
  - lia.
Qed.

(** Cells to unpack into: as many as asked for. *)
Definition roomy (p : UnpackedRecord) : Prop :=
  1 <= nField p < 2 ^ 16 /\ nField p <= zlen (aMem p) /\ Forall (fun m => is_u64 (m_u m)) (aMem p).

Lemma unpack_ok fmt vs pad p : Forall storable vs -> zlen vs <= MAX_FIELDS -> zlen (record fmt vs) < 2 ^ 31 -> bytes_ok pad -> roomy p ->
  let p' := sqlite3VdbeRecordUnpack (zlen (record fmt vs)) (record fmt vs ++ pad) p in
  nField p' = Z.min (nField p) (zlen vs) /\ pKeyInfo p' = pKeyInfo p /\ default_rc p' = 0 /\ zlen (aMem p') = zlen (aMem p) /\
  eqSeen p' = eqSeen p /\ errCode p' = errCode p /\
  forall k v, vs !! k = Some v -> Z.of_nat k < nField p -> decoded (ki_enc (pKeyInfo p)) v (aMem p').[Z.of_nat k].
Proof.
  intros Hs Hl Hlen Hp (Hn & Ha & Hm). unfold sqlite3VdbeRecordUnpack. destruct (header_get fmt vs pad Hs Hl Hp) as (-> & Hv & _).
  destruct (unpack_loop_ok (S (Z.to_nat (nField p))) fmt _ pad _ _ (ki_enc (pKeyInfo p)) (nField p) vs (aMem p) _ _ 0 Hs Hp
    (unpacking_start fmt vs pad Hs Hl Hp Hlen) ltac:(lia) ltac:(lia) Ha ltac:(lia) Hm) as (aMem' & d' & -> & A1 & A2 & A3 & A4).
  rewrite (proj2 (Z.ltb_ge _ d')) by lia. cbn [andb]. cbn [nField pKeyInfo default_rc aMem eqSeen errCode]. rewrite Z.add_0_l.
  split_and!; try done.
Qed.
