(* ===== verification/MakeRecord.v ===== *)
(** Packing cells into a record (the opcode [OP_MakeRecord] of the vdbe.c section of
    sqlite3.c).

    The first loop chooses the serial types from the last field to the first, the second
    writes them and the data.  Zero-filled tails of blobs that only zeros follow are counted
    and stay unexpanded in the output; other tails are expanded first.  Allocation is a
    parameter. *)

From S2P Require Import Prelude Bits Varint Double Order VdbeMem Record.

(** ** Packing *)

Inductive make_result := Made (pOut : Mem) (regs : list Mem) | TooBig | NoMem.

Section pack.
Context {W : Type} (malloc : W -> Z -> option (list Z) * W).
(** [p->minWriteFileFormat] and [db->aLimit[SQLITE_LIMIT_LENGTH]] *)
Variables (minWriteFileFormat limit : Z).

(** One round of the first loop: the field with its serial type in [uTemp], then [nHdr],
    [nData] and [nZero]; nothing when a blob cannot be expanded. *)
Definition size_field (w : W) (pRec : Mem) (nHdr nData nZero : Z) : option (Mem * Z * Z * Z) * W :=
  let f := m_flags pRec in
  if has f MEM_Null then (Some (set_uTemp pRec (if has f MEM_Zero then 10 else 0), nHdr + 1, nData, nZero), w)
  else if has f (Z.lor MEM_Int MEM_IntReal) then
    let i := u_i pRec in
    let uu := u64 (if i <? 0 then Z.lnot i else i) in
    let nHdr := nHdr + 1 in
    if uu <=? 127 then
      if (Z.land i 1 =? i) && (4 <=? minWriteFileFormat)
      then (Some (set_uTemp pRec (u32 (8 + u32 uu)), nHdr, nData, nZero), w)
      else (Some (set_uTemp pRec 1, nHdr, u64 (nData + 1), nZero), w)
    else if uu <=? 32767 then (Some (set_uTemp pRec 2, nHdr, u64 (nData + 2), nZero), w)
    else if uu <=? 8388607 then (Some (set_uTemp pRec 3, nHdr, u64 (nData + 3), nZero), w)
    else if uu <=? 2147483647 then (Some (set_uTemp pRec 4, nHdr, u64 (nData + 4), nZero), w)
    else if uu <=? 140737488355327 then (Some (set_uTemp pRec 5, nHdr, u64 (nData + 6), nZero), w)
    else
      let nData := u64 (nData + 8) in
      if has f MEM_IntReal then
        let pRec := set_u pRec (i2d i) in
        let pRec := set_flags pRec (Z.lor (clear f MEM_IntReal) MEM_Real) in
        (Some (set_uTemp pRec 7, nHdr, nData, nZero), w)
      else (Some (set_uTemp pRec 6, nHdr, nData, nZero), w)
  else if has f MEM_Real then (Some (set_uTemp pRec 7, nHdr + 1, u64 (nData + 8), nZero), w)
  else
    let len := u32 (m_n pRec) in
    let serial_type := u32 (len * 2 + 12 + b2z (has f MEM_Str)) in
    if has f MEM_Zero then
      let serial_type := u32 (serial_type + u32 (u32 (u_nZero pRec) * 2)) in
      if truthy nData then
        match sqlite3VdbeMemExpandBlob malloc w pRec with
        | (rc, pRec, w) =>
            if truthy rc then (None, w) else
            let len := u32 (len + u_nZero pRec) in
            (Some (set_uTemp pRec serial_type, nHdr + sqlite3VarintLen serial_type, u64 (nData + len), nZero), w)
        end
      else
        (Some (set_uTemp pRec serial_type, nHdr + sqlite3VarintLen serial_type, u64 (nData + len), nZero + u_nZero pRec), w)
    else (Some (set_uTemp pRec serial_type, nHdr + sqlite3VarintLen serial_type, u64 (nData + len), nZero), w).

(** The first loop, from the last field to the first. *)
Fixpoint size_fields (w : W) (regs : list Mem) : option (list Mem * Z * Z * Z) * W :=
  match regs with
  | [] => (Some ([], 0, 0, 0), w)
  | pRec :: regs =>
      match size_fields w regs with
      | (Some (regs, nHdr, nData, nZero), w) =>
          match size_field w pRec nHdr nData nZero with
          | (Some (pRec, nHdr, nData, nZero), w) => (Some (pRec :: regs, nHdr, nData, nZero), w)
          | (None, w) => (None, w)
          end
      | (None, w) => (None, w)
      end
  end.

(** [sqlite3PutVarint(&z[i], v)] *)
Definition put_varint_at (z : list Z) (i v : Z) : list Z * Z :=
  let '(tail, n) := sqlite3PutVarint (drop (Z.to_nat i) z) v in (take (Z.to_nat i) z ++ tail, n).

(** The [switch( len )] writes bytes [len-1] down to 0 of the payload. *)
Fixpoint put_payload (n : nat) (z : list Z) (zPayload v : Z) : list Z :=
  match n with
  | O => z
  | S n => put_payload n (z.[zPayload + Z.of_nat n <- u8 (Z.land v 255)]) zPayload (Z.shiftr v 8)
  end.

(** One round of the second loop; [zHdr] and [zPayload] are offsets in the output. *)
Definition write_field (pRec : Mem) (z : list Z) (zHdr zPayload : Z) : list Z * Z * Z :=
  let serial_type := m_uTemp pRec in
  let copy z := splice z zPayload (take (Z.to_nat (m_n pRec)) (z_bytes pRec)) in
  if serial_type <=? 7 then
    let z := z.[zHdr <- u8 serial_type] in
    let zHdr := zHdr + 1 in
    if serial_type =? 0 then (z, zHdr, zPayload)
    else
      let len := sqlite3SmallTypeSizes.[serial_type] in
      (put_payload (Z.to_nat len) z zPayload (m_u pRec), zHdr, zPayload + len)
  else if serial_type <? 128 then
    let z := z.[zHdr <- u8 serial_type] in
    let zHdr := zHdr + 1 in
    if (14 <=? serial_type) && (0 <? m_n pRec) then (copy z, zHdr, zPayload + m_n pRec) else (z, zHdr, zPayload)
  else
    let '(z, n) := put_varint_at z zHdr serial_type in
    let zHdr := zHdr + n in
    if truthy (m_n pRec) then (copy z, zHdr, zPayload + m_n pRec) else (z, zHdr, zPayload).

Fixpoint write_fields (regs : list Mem) (z : list Z) (zHdr zPayload : Z) : list Z :=
  match regs with
  | [] => z
  | pRec :: regs =>
      let '(z, zHdr, zPayload) := write_field pRec z zHdr zPayload in
      write_fields regs z zHdr zPayload
  end.

(** The opcode once affinities are applied: [regs] are the registers P1 to P1+P2-1, [pOut]
    the register P3. *)
Definition OP_MakeRecord (w : W) (regs : list Mem) (pOut : Mem) : make_result * W :=
  match size_fields w regs with
  | (None, w) => (NoMem, w)
  | (Some (regs, nHdr, nData, nZero), w) =>
      let nHdr := header_size nHdr in
      let nByte := i64 (nHdr + nData) in
      let '(out, w) :=
        if nByte + nZero <=? szMalloc pOut then (inl (set_z pOut ZOwn), w)
        else if limit <? nByte + nZero then (inr TooBig, w)
        else
          let '(rc, pOut, w) := sqlite3VdbeMemClearAndResize malloc w pOut (i32 nByte) in
          (if truthy rc then inr NoMem else inl pOut, w) in
      match out with
      | inr e => (e, w)
      | inl pOut =>
          let pOut := set_flags (set_n pOut (i32 nByte)) MEM_Blob in
          let pOut := if truthy nZero then set_flags (set_nZero pOut (i32 nZero)) (Z.lor MEM_Blob MEM_Zero) else pOut in
          let z := m_zMalloc pOut in
          let '(z, zHdr) :=
            if nHdr <? 128 then (z.[0 <- u8 nHdr], 1) else put_varint_at z 0 nHdr in
          (Made (set_zMalloc pOut (write_fields regs z zHdr nHdr)) regs, w)
      end
  end.
End pack.

(** The value a record keeps of a cell: an integer that stands for a real becomes a real
    where that takes no more room. *)
Definition stored (m : Mem) : sval :=
  match val_of m with
  | VInt i => if has (m_flags m) MEM_IntReal && negb (within 47 i) then VReal (i2d i) else VInt i
  | v => v
  end.


Section packing.
Context {W : Type} (malloc : W -> Z -> option (list Z) * W).
Hypothesis malloc_ok : forall w n b w', malloc w n = (Some b, w') -> n <= zlen b /\ bytes_ok b.
Definition out_of_memory : Prop := exists w n w', malloc w n = (None, w').
Variables (fmt limit : Z).

Lemma take_splice (b s t : list Z) : zlen s + zlen t <= zlen b ->
  take (Z.to_nat (zlen s + zlen t)) (splice (splice b 0 s) (zlen s) t) = s ++ t.
Proof.
  intros H. pose proof (splice_app b 0 s t ltac:(lia) ltac:(lia)) as E. rewrite Z.add_0_l in E. rewrite E, splice_0.
  rewrite take_app_le by (rewrite length_app; unfold zlen; lia). rewrite take_ge; [done|]. rewrite length_app. unfold zlen. lia.
Qed.

(** A cell that can be packed: valid, not the no-change marker, not too long. *)
Record packable (m : Mem) : Prop := {
  pk_ok : mem_ok m;
  pk_null : has (m_flags m) MEM_Null = true -> has (m_flags m) MEM_Zero = false;
  pk_len : stringy m = true -> zlen (content m) <= MAX_LENGTH }.

Lemma grow_preserving w m n : mem_ok m -> stringy m = true -> m_n m <= n -> 0 < n ->
  (exists w', sqlite3VdbeMemGrow malloc w m n true = (SQLITE_NOMEM, set_zMalloc (set_z (sqlite3VdbeMemSetNull m) ZNull) [], w') /\ out_of_memory) \/
  exists b w', sqlite3VdbeMemGrow malloc w m n true =
    (SQLITE_OK, set_flags (set_z (set_zMalloc m b) ZOwn) (clear (m_flags m) (Z.lor MEM_Dyn (Z.lor MEM_Ephem MEM_Static))), w') /\
    n <= zlen b /\ bytes_ok b /\ take (Z.to_nat (m_n m)) b = take (Z.to_nat (m_n m)) (z_bytes m).
Proof.
  intros Hm Hs Hn H0. destruct (mo_buf m Hm Hs) as [Hl Hb]. unfold sqlite3VdbeMemGrow, realloc.
  destruct (malloc w n) as [[b|] w'] eqn:E.
  2: { left. exists w'. split; [|by exists w, n, w']. destruct (_ && _ && _); cbn; done. }
  right. destruct (malloc_ok _ _ _ _ E) as [Hlb Hbb].
  destruct (m_z m) eqn:Ez; unfold z_bytes in *; rewrite Ez in *; cbn [andb negb].
  - rewrite andb_false_r. cbn [andb negb]. exists b, w'. split; [done|]. split; [done|]. split; [done|].
    unfold zlen in Hl. cbn in Hl. replace (m_n m) with 0 by lia. done.
  - rewrite !andb_true_r. destruct (Z.ltb_spec 0 (szMalloc m)) as [Hz|Hz]; cbn [fmap option_fmap option_map andb].
    + eexists _, w'. split; [done|]. unfold szMalloc, zlen in *. split; [rewrite length_app, length_take, length_drop; lia|].
      split; [apply Forall_app; split; [by apply Forall_take|by apply Forall_drop]|].
      rewrite take_app_le by (rewrite length_take; lia). rewrite take_take. f_equal. lia.
    + unfold szMalloc in Hz. pose proof (zlen_nonneg (m_zMalloc m)). replace (m_n m) with 0 in * by lia.
      eexists _, w'. split; [done|]. change (Z.to_nat 0) with O. rewrite take_0, splice_nil. done.
  - rewrite andb_false_r. cbn [andb negb]. eexists _, w'. split; [done|].
    assert (L : zlen (take (Z.to_nat (m_n m)) bytes) = m_n m) by (apply zlen_take; lia).
    split; [rewrite zlen_splice; lia|]. split.
    + unfold splice. apply Forall_app. split; [by apply Forall_take|]. apply Forall_app. split; [by apply Forall_take|by apply Forall_drop].
    + rewrite splice_0. rewrite take_app_le by (unfold zlen in L; lia). rewrite take_ge; [done|unfold zlen in L; lia].
Qed.

Lemma bytes_zeros k : bytes_ok (replicate k 0).
Proof. apply Forall_replicate. unfold is_u8. lia. Qed.
Lemma zlen_zeros k : 0 <= k -> zlen (replicate (Z.to_nat k) 0) = k.
Proof. intros. unfold zlen. rewrite length_replicate. lia. Qed.
Lemma bytes_splice (p s : list Z) i : bytes_ok p -> bytes_ok s -> bytes_ok (splice p i s).
Proof. intros Hp Hs. unfold splice. apply Forall_app. split; [by apply Forall_take|]. apply Forall_app. split; [done|by apply Forall_drop]. Qed.

(** A blob with a zero-filled tail, expanded. *)
Lemma expand_ok w m : mem_ok m -> has (m_flags m) MEM_Blob = true -> has (m_flags m) MEM_Zero = true -> zlen (content m) <= MAX_LENGTH ->
  (exists m' w', sqlite3VdbeMemExpandBlob malloc w m = (SQLITE_NOMEM, m', w') /\ out_of_memory) \/
  exists m' w', sqlite3VdbeMemExpandBlob malloc w m = (SQLITE_OK, m', w') /\ mem_ok m' /\
    u_nZero m' = u_nZero m /\ m_n m' = m_n m + u_nZero m /\ take (Z.to_nat (m_n m')) (z_bytes m') = content m /\
    has (m_flags m') MEM_Zero = false /\
    (forall x, x ∈ [MEM_Null; MEM_Int; MEM_IntReal; MEM_Real; MEM_Str; MEM_Blob] -> has (m_flags m') x = has (m_flags m) x).
Proof.
  intros Hm Hb Hz Hlen. assert (Hs : stringy m = true) by (unfold stringy; rewrite Hb; apply orb_true_r).
  destruct (mo_buf m Hm Hs) as [Hl Hbb]. destruct (mo_zero m Hm Hz) as [Hstr Hn]. unfold sqlite3VdbeMemExpandBlob. rewrite Hb.
  cbn [negb]. rewrite andb_false_r. set (nByte := if _ <=? 0 then 1 else _).
  assert (HnB : 0 < nByte /\ m_n m + u_nZero m <= nByte) by (unfold nByte; destruct (Z.leb_spec (m_n m + u_nZero m) 0); lia).
  destruct (grow_preserving w m nByte Hm Hs ltac:(lia) ltac:(lia)) as [(w' & -> & Ho)|(b & w' & -> & Hlb & Hob & Ht)].
  { left. eexists _, w'. split; [|done]. done. }
  right. change (truthy SQLITE_OK) with false. cbn iota. eexists _, w'. split; [done|].
  assert (Ec : take (Z.to_nat (m_n m + u_nZero m)) (splice b (m_n m) (replicate (Z.to_nat (u_nZero m)) 0)) = content m).
  { unfold content. rewrite Hz, <- Ht. pose proof (zlen_take b (m_n m) ltac:(lia)) as L1. pose proof (zlen_zeros (u_nZero m) Hn) as L2.
    pose proof (take_splice b (take (Z.to_nat (m_n m)) b) (replicate (Z.to_nat (u_nZero m)) 0) ltac:(lia)) as E. rewrite L1, L2 in E.
    rewrite <- E. f_equal. f_equal. rewrite splice_0. rewrite length_take, Nat.min_l by (unfold zlen in *; lia). by rewrite take_drop. }
  destruct Hm as [H1 H2 H3 H4 H5 H6]. unfold u_nZero in *. mem_cbn. split; [split; unfold u_nZero; mem_cbn|].
  - done.
  - flag_simpl. done.
  - flag_simpl. done.
  - flag_simpl. done.
  - flag_simpl. intros _. split; [rewrite zlen_splice; rewrite ?zlen_zeros; lia|]. by apply bytes_splice, bytes_zeros.
  - flag_simpl. done.
  - split; [done|]. split; [done|]. split; [exact Ec|]. split; [by flag_simpl|].
    intros x Hx. rewrite !elem_of_cons in Hx. destruct_or!; try (by apply elem_of_nil in Hx); subst x; by flag_simpl.
Qed.

(** The bytes the second loop writes for a cell. *)
Definition written (m : Mem) : list Z :=
  if m_uTemp m <=? 7 then
    if m_uTemp m =? 0 then [] else be (Z.to_nat sqlite3SmallTypeSizes.[m_uTemp m]) (m_u m)
  else if m_uTemp m <? 128 then
    if (14 <=? m_uTemp m) && (0 <? m_n m) then take (Z.to_nat (m_n m)) (z_bytes m) else []
  else if truthy (m_n m) then take (Z.to_nat (m_n m)) (z_bytes m) else [].

(** A cell that is ready to be written. *)
Record packed (v : sval) (m : Mem) : Prop := {
  pd_type : m_uTemp m = stype fmt v;
  pd_val : val_of m = v;
  pd_ok : mem_ok m;
  pd_buf : 7 < m_uTemp m -> 10 <= m_uTemp m -> 0 <= m_n m <= zlen (z_bytes m) }.

Lemma mem_ok_uTemp m t : mem_ok m -> mem_ok (set_uTemp m t).
Proof. intros []. by split. Qed.
Lemma u64_i64 u : is_u64 u -> u64 (i64 u) = u.
Proof. intros. zwlia. Qed.
Lemma within_test i k : is_i64 i -> 0 <= k < 63 -> (u64 (if i <? 0 then Z.lnot i else i) <=? 2 ^ k - 1) = within k i.
Proof.
  intros Hi Hk. unfold within, Z.lnot. assert (2 ^ k < 2 ^ 63) by (apply Z.pow_lt_mono_r; lia). unfold is_i64, u64 in *.
  destruct (Z.ltb_spec i 0); rewrite Z.mod_small by lia; zbool; lia.
Qed.
Lemma bool_test i : is_i64 i -> within 7 i = true -> (Z.land i 1 =? i) = (i =? 0) || (i =? 1).
Proof.
  intros Hi _. rewrite land_1.
  pose proof (Z.mod_pos_bound i 2 ltac:(lia)).
  destruct (Z.eqb_spec i 0) as [->|]; [done|]. destruct (Z.eqb_spec i 1) as [->|]; [done|]. apply Z.eqb_neq. lia.
Qed.

Definition grows (v : sval) (nHdr nData nZero : Z) (r : option (Mem * Z * Z * Z)) : Prop :=
  match r with
  | None => out_of_memory
  | Some (m, nHdr', nData', nZero') =>
      packed v m /\ nHdr' = nHdr + zlen (varint_enc (stype fmt v)) /\ nData' = nData + zlen (written m) /\
      nZero <= nZero' /\ (nData <> 0 -> nZero' = nZero) /\
      sdata fmt v = written m ++ replicate (Z.to_nat (nZero' - nZero)) 0
  end.

Lemma grows_fixed v m nHdr nData nZero k : packed v m -> 0 <= stype fmt v < 128 -> written m = sdata fmt v ->
  0 <= nData < 2 ^ 62 -> k = zlen (sdata fmt v) -> k < 2 ^ 62 -> grows v nHdr nData nZero (Some (m, nHdr + 1, u64 (nData + k), nZero)).
Proof.
  intros Hp Ht Hw Hd -> Hk. pose proof (zlen_nonneg (sdata fmt v)). cbn [grows]. rewrite <- varintlen_enc, varintlen_steps by lia.
  rewrite (proj2 (Z.ltb_lt _ _)), Hw, Z.sub_diag, app_nil_r by lia. unfold u64. rewrite Z.mod_small by lia.
  split_and!; (done || lia).
Qed.

Lemma size_int v m k nHdr nData nZero : mem_ok m -> val_of m = v -> 1 <= k <= 9 -> k = stype fmt v ->
  (exists i, v = VInt i /\ m_u m = u64 i) \/ (exists r, v = VReal r /\ m_u m = r) -> 0 <= nData < 2 ^ 62 ->
  grows v nHdr nData nZero (Some (set_uTemp m k, nHdr + 1, u64 (nData + sqlite3SmallTypeSizes.[k]), nZero)).
Proof.
  intros Hm Hv Hk Et Hc Hd. assert (Hl : sqlite3SmallTypeSizes.[k] = zlen (sdata fmt v)).
  { rewrite <- typelen_ok, <- Et. unfold sqlite3VdbeSerialTypeLen. by rewrite (proj2 (Z.leb_gt 128 k)) by lia. }
  assert (Hb : 0 <= sqlite3SmallTypeSizes.[k] <= 8).
  { assert (A : forallb (fun k => (0 <=? sqlite3SmallTypeSizes.[k]) && (sqlite3SmallTypeSizes.[k] <=? 8)) (seqZ 1 9) = true) by by_compute.
    rewrite forallb_forall in A. assert (Hin : k ∈ seqZ 1 9) by (apply elem_of_seqZ; lia). apply list_elem_of_In in Hin. apply A in Hin. lia. }
  apply grows_fixed; [|lia| |done|done|lia].
  - split; [done|done|by apply mem_ok_uTemp|]. cbn. lia.
  - unfold written. mem_cbn. destruct Hc as [(i & -> & Eu)|(r & -> & Eu)]; cbn [stype sdata] in *.
    + rewrite <- Et, Eu. destruct (Z.leb_spec k 7).
      * by rewrite (proj2 (Z.eqb_neq k 0)) by lia.
      * rewrite (proj2 (Z.ltb_lt k 128)), (proj2 (Z.leb_gt 14 k)) by lia. cbn [andb].
        assert (k = 8 \/ k = 9) as [-> | ->] by lia; done.
    + by rewrite Et, Eu.
Qed.

Lemma size_field_int w m nHdr nData nZero : mem_ok m -> has (m_flags m) MEM_Null = false ->
  has (m_flags m) MEM_Int || has (m_flags m) MEM_IntReal = true -> 0 <= nData < 2 ^ 62 ->
  exists r, size_field malloc fmt w m nHdr nData nZero = (r, w) /\ grows (stored m) nHdr nData nZero r.
Proof.
  intros Hm Hn Hi Hd. assert (Hv : val_of m = VInt (u_i m)) by (unfold val_of; by rewrite Hn, Hi).
  pose proof (u_i_range m) as Hr. assert (Eu : m_u m = u64 (u_i m)) by (unfold u_i; rewrite u64_i64; [done|apply Hm]).
  unfold size_field, stored. rewrite Hv, Hn, has_lor, Hi. cbv zeta.
  change 127 with (2 ^ 7 - 1). change 32767 with (2 ^ 15 - 1). change 8388607 with (2 ^ 23 - 1).
  change 2147483647 with (2 ^ 31 - 1). change 140737488355327 with (2 ^ 47 - 1). rewrite !within_test by (done || lia).
  assert (M : forall a b, 0 <= a -> a <= b -> within a (u_i m) = true -> within b (u_i m) = true).
  { intros a b Ha Hab. unfold within. pose proof (Z.pow_le_mono_r 2 a b ltac:(lia) Hab). zbool; (done || lia). }
  destruct (within 7 (u_i m)) eqn:W7; [rewrite bool_test by done|].
  { rewrite (M 7 47) by (done || lia). cbn [negb]. rewrite andb_false_r.
    assert (Eb : (((u_i m =? 0) || (u_i m =? 1)) && (4 <=? fmt)) = ((4 <=? fmt) && ((u_i m =? 0) || (u_i m =? 1)))) by apply andb_comm.
    destruct (((u_i m =? 0) || (u_i m =? 1)) && (4 <=? fmt)) eqn:E01; (eexists; split; [done|]).
    - assert (H01 : u_i m = 0 \/ u_i m = 1) by (zbool; try lia; done). clear Eb.
      replace nData with (u64 (nData + sqlite3SmallTypeSizes.[8 + u_i m])) at 2 by
        (destruct H01 as [-> | ->]; unfold u64; change (sqlite3SmallTypeSizes.[_]) with 0; rewrite Z.mod_small; lia).
      replace (u32 (8 + u32 _)) with (8 + u_i m) by (destruct H01 as [-> | ->]; done).
      apply size_int; [done|done|lia| |left; eauto|done]. cbn [stype]. unfold int_stype. by rewrite W7, andb_comm, E01.
    - apply (size_int _ _ 1); [done|done|lia| |left; eauto|done]. cbn [stype]. unfold int_stype. by rewrite W7, <- Eb. }
  destruct (within 15 (u_i m)) eqn:W15; [rewrite (M 15 47) by (done || lia); cbn [negb]; rewrite andb_false_r; eexists; split; [done|];
    apply (size_int _ _ 2); [done|done|lia|cbn [stype]; unfold int_stype; by rewrite W7, W15|left; eauto|done]|].
  destruct (within 23 (u_i m)) eqn:W23; [rewrite (M 23 47) by (done || lia); cbn [negb]; rewrite andb_false_r; eexists; split; [done|];
    apply (size_int _ _ 3); [done|done|lia|cbn [stype]; unfold int_stype; by rewrite W7, W15, W23|left; eauto|done]|].
  destruct (within 31 (u_i m)) eqn:W31; [rewrite (M 31 47) by (done || lia); cbn [negb]; rewrite andb_false_r; eexists; split; [done|];
    apply (size_int _ _ 4); [done|done|lia|cbn [stype]; unfold int_stype; by rewrite W7, W15, W23, W31|left; eauto|done]|].
  destruct (within 47 (u_i m)) eqn:W47; cbn [negb]; [rewrite andb_false_r; eexists; split; [done|];
    apply (size_int _ _ 5); [done|done|lia|cbn [stype]; unfold int_stype; by rewrite W7, W15, W23, W31, W47|left; eauto|done]|].
  rewrite andb_true_r. destruct (has (m_flags m) MEM_IntReal) eqn:EI.
  - assert (HI : has (m_flags m) MEM_Int = false) by (destruct (has (m_flags m) MEM_Int) eqn:E; [by rewrite (mo_int m Hm E) in EI|done]).
    destruct (i2d_range _ Hr) as [Ru Rn]. eexists. split; [done|].
    apply (size_int _ (set_flags (set_u m (i2d (u_i m))) (Z.lor (clear (m_flags m) MEM_IntReal) MEM_Real)) 7);
      [| |lia|done|right; by eexists|done].
    + destruct Hm as [H1 H2 H3 H4 H5 H6]. rewrite EI, !orb_true_r in H6.
      split; unfold u_nZero; mem_cbn; rewrite ?has_or; flag_simpl; rewrite ?HI, ?Hn, ?orb_true_r, ?orb_false_r in *; try done.
      intros Hz. by destruct (H6 Hz).
    + unfold val_of. mem_cbn. rewrite !has_or. flag_simpl. rewrite HI, Hn. cbn [orb]. by rewrite orb_true_r.
  - eexists. split; [done|]. apply (size_int _ _ 6); [done|done|lia| |left; eauto|done]. cbn [stype]. unfold int_stype. by rewrite W7, W15, W23, W31, W47.
Qed.

Lemma written_text m v : m_uTemp m = stype fmt v -> 12 <= stype fmt v -> m_n m <= (stype fmt v - 12) / 2 -> 0 <= m_n m ->
  written m = take (Z.to_nat (m_n m)) (z_bytes m).
Proof.
  intros Et Ht Hn H0. unfold written, truthy. rewrite Et, (proj2 (Z.leb_gt _ 7)) by lia.
  destruct (Z.eqb_spec (m_n m) 0) as [E|E]; cbn [negb]; [rewrite E, andb_false_r; change (Z.to_nat 0) with O; rewrite take_0; by destruct (_ <? _)|].
  rewrite (proj2 (Z.ltb_lt 0 (m_n m))) by lia. rewrite (proj2 (Z.leb_le 14 _)); [by destruct (_ <? _)|].
  assert ((stype fmt v - 12) / 2 <> 0) by lia. Z.div_mod_to_equations; lia.
Qed.

Lemma stringy_value m : mem_ok m -> has (m_flags m) MEM_Null = false -> has (m_flags m) MEM_Int || has (m_flags m) MEM_IntReal = false ->
  has (m_flags m) MEM_Real = false ->
  stringy m = true /\ val_of m = (if has (m_flags m) MEM_Str then VText (content m) else VBlob (content m)) /\ stored m = val_of m /\
  12 + 2 * zlen (content m) + b2z (has (m_flags m) MEM_Str) = stype fmt (val_of m) /\ sdata fmt (val_of m) = content m.
Proof.
  intros Hm Hn Hi Hr. pose proof (mo_type m Hm) as Ht. rewrite Hn, Hr in Ht. apply orb_false_iff in Hi as [Hi Hj].
  rewrite Hi, Hj in Ht. cbn [orb] in Ht. pose proof (content_str m Hm) as Hc.
  assert (Hv : val_of m = (if has (m_flags m) MEM_Str then VText (content m) else VBlob (content m))).
  { unfold val_of. rewrite Hn, Hi, Hj, Hr. cbn [orb]. destruct (has (m_flags m) MEM_Str); [by rewrite Hc|done]. }
  split; [done|]. split; [done|]. unfold stored. rewrite Hv. destruct (has (m_flags m) MEM_Str); cbn [stype sdata b2z]; split_and!; (done || lia).
Qed.

Lemma size_field_text w m nHdr nData nZero : packable m -> has (m_flags m) MEM_Null = false ->
  has (m_flags m) MEM_Int || has (m_flags m) MEM_IntReal = false -> has (m_flags m) MEM_Real = false -> 0 <= nData < 2 ^ 62 ->
  exists r w', size_field malloc fmt w m nHdr nData nZero = (r, w') /\ grows (stored m) nHdr nData nZero r.
Proof.
  intros [Hm _ Hlen] Hn Hi Hr Hd. destruct (stringy_value m Hm Hn Hi Hr) as (Hs & Hv & -> & Et & Ed). specialize (Hlen Hs).
  pose proof (mo_buf m Hm Hs) as [Hl Hb]. destruct (len_bytes m Hm Hs) as [Lt _]. unfold MAX_LENGTH in Hlen.
  assert (Hst : storable (val_of m)).
  { rewrite Hv. assert (bytes_ok (content m) /\ zlen (content m) <= MAX_LENGTH); [|by destruct (has (m_flags m) MEM_Str)].
    split; [|done]. apply Forall_app. split; [by apply Forall_take|]. destruct (has (m_flags m) MEM_Zero); [apply bytes_zeros|constructor]. }
  destruct (type_varint fmt (val_of m) Hst) as (_ & Hlv & Ev). pose proof (stype_range fmt (val_of m) Hst) as Hrt. unfold MAX_LENGTH in Hrt.
  assert (Ed2 : (stype fmt (val_of m) - 12) / 2 = zlen (content m)).
  { rewrite <- Et. replace (12 + 2 * _ + _ - 12) with (b2z (has (m_flags m) MEM_Str) + zlen (content m) * 2) by lia.
    rewrite Z.div_add by lia. by destruct (has (m_flags m) MEM_Str). }
  assert (Hst12 : 12 <= stype fmt (val_of m)) by (rewrite <- Et; pose proof (zlen_nonneg (content m)); destruct (has (m_flags m) MEM_Str); cbn [b2z]; lia).
  unfold size_field. rewrite Hn, has_lor, Hi, Hr. cbn zeta iota.
  assert (En : u32 (m_n m) = m_n m) by (unfold u32; apply Z.mod_small; unfold content in Hlen; rewrite zlen_app in Hlen; pose proof (zlen_nonneg (if has (m_flags m) MEM_Zero then replicate (Z.to_nat (u_nZero m)) 0 else [])); lia).
  rewrite En. set (t := stype fmt (val_of m)) in *.
  destruct (has (m_flags m) MEM_Zero) eqn:EZ.
  - destruct (mo_zero m Hm EZ) as [Hno Hz0].
    assert (Hstr : has (m_flags m) MEM_Str = false) by (destruct (has (m_flags m) MEM_Str); done). rewrite Hstr in *. cbn [b2z] in *.
    assert (Lc : zlen (content m) = m_n m + u_nZero m) by (unfold content; rewrite EZ, zlen_app, Lt, zlen_zeros by done; done).
    assert (Hbl : has (m_flags m) MEM_Blob = true) by (unfold stringy in Hs; by rewrite Hstr in Hs).
    assert (E1 : u32 (u32 (m_n m * 2 + 12 + 0) + u32 (u32 (u_nZero m) * 2)) = t)
      by (rewrite <- Et, Lc; clear - Lc Hlen Hz0 Hl; zwlia).
    rewrite E1. unfold truthy. destruct (Z.eqb_spec nData 0) as [E0|E0]; cbn [negb].
    + eexists _, w. split; [done|]. cbn [grows]. fold t. rewrite Ev.
      assert (Hw : written (set_uTemp m t) = take (Z.to_nat (m_n m)) (z_bytes m)) by (refine (written_text (set_uTemp m t) (val_of m) _ _ _ _); fold t; mem_cbn; rewrite ?Ed2; (done || lia)).
      rewrite Hw, Lt, Ed. split; [split; [done|done|by apply mem_ok_uTemp|intros _ _; exact Hl]|]. unfold u64. rewrite Z.mod_small by lia.
      split_and!; try (done || lia). unfold content. rewrite EZ. do 3 f_equal. lia.
    + destruct (expand_ok w m Hm Hbl EZ ltac:(unfold MAX_LENGTH; lia)) as [(m' & w' & -> & Ho)|(m' & w' & -> & Hm' & Eu & En' & Ec & Ez & Hf)].
      { by exists None, w'. }
      change (truthy SQLITE_OK) with false. cbn iota. eexists _, w'. split; [done|]. cbn [grows]. fold t. rewrite Ev, Eu.
      assert (Hw : written (set_uTemp m' t) = content m) by (rewrite <- Ec; refine (written_text (set_uTemp m' t) (val_of m) _ _ _ _); fold t; mem_cbn; rewrite ?Ed2; (done || lia)).
      rewrite Hw, Lc, Ed, Z.sub_diag, app_nil_r. unfold u64, u32. rewrite (Z.mod_small (m_n m + u_nZero m)), Z.mod_small by lia.
      split; [|split_and!; (done || lia)]. 
      assert (Hs' : stringy m' = true) by (unfold stringy; rewrite !Hf by set_solver; exact Hs).
      split; [done| |by apply mem_ok_uTemp|intros _ _; apply (mo_buf m' Hm'); exact Hs'].
      change (val_of (set_uTemp m' t)) with (val_of m'). rewrite Hv. unfold val_of. rewrite Ez, !Hf by set_solver. rewrite Hn, Hi, Hr, Hstr, app_nil_r. by rewrite Ec.
  - assert (Lc : content m = take (Z.to_nat (m_n m)) (z_bytes m)) by (unfold content; rewrite EZ; apply app_nil_r).
    assert (E1 : u32 (m_n m * 2 + 12 + b2z (has (m_flags m) MEM_Str)) = t)
      by (unfold u32; rewrite Z.mod_small; rewrite Lc in *; lia).
    rewrite E1. eexists _, w. split; [done|]. cbn [grows]. fold t. rewrite Ev.
    assert (Hw : written (set_uTemp m t) = content m) by (rewrite Lc; refine (written_text (set_uTemp m t) (val_of m) _ _ _ _); fold t; mem_cbn; rewrite ?Ed2, ?Lc; (done || lia)).
    rewrite Hw, Ed, Z.sub_diag, app_nil_r, Lc, Lt. split; [split; [done|done|by apply mem_ok_uTemp|intros _ _; exact Hl]|].
    unfold u64. rewrite Z.mod_small by (rewrite Lc in Hlen; lia). split_and!; (done || lia).
Qed.

Lemma size_field_ok w m nHdr nData nZero : packable m -> 0 <= nData < 2 ^ 62 ->
  exists r w', size_field malloc fmt w m nHdr nData nZero = (r, w') /\ grows (stored m) nHdr nData nZero r.
Proof.
  intros Hp Hd. destruct (has (m_flags m) MEM_Null) eqn:Hn.
  - pose proof (pk_null m Hp Hn) as Hz. assert (Ev : val_of m = VNull) by (unfold val_of; by rewrite Hn).
    unfold size_field, stored. rewrite Hn, Hz, Ev. eexists _, w. split; [done|]. replace nData with (u64 (nData + 0)) at 2 by zwlia.
    apply grows_fixed; [|done|done|done|done|done].
    split; [done|done|by apply mem_ok_uTemp, Hp|]. cbn. lia.
  - destruct (has (m_flags m) MEM_Int || has (m_flags m) MEM_IntReal) eqn:Hi.
    + destruct (size_field_int w m nHdr nData nZero (pk_ok m Hp) Hn Hi Hd) as (r & E & Hg). eauto.
    + destruct (has (m_flags m) MEM_Real) eqn:Hr; [|by apply size_field_text].
      assert (Ev : val_of m = VReal (m_u m)) by (unfold val_of; by rewrite Hn, Hi, Hr).
      unfold size_field, stored. rewrite Hn, has_lor, Hi, Hr, Ev. eexists _, w. split; [done|].
      apply (size_int _ m 7); [apply Hp|done|lia|done|right; eauto|done].
Qed.

Lemma stored_storable m : packable m -> storable (stored m).
Proof.
  intros [Hm _ Hl]. pose proof (u_i_range m) as Hi. unfold stored. destruct (val_of m) eqn:Ev; cbn [storable]; try done.
  - assert (Ei : i = u_i m).
    { unfold val_of in Ev. destruct (has (m_flags m) MEM_Null); [done|]. destruct (_ || _); [congruence|].
      by destruct (has (m_flags m) MEM_Real), (has (m_flags m) MEM_Str). }
    subst i. destruct (_ && _); cbn [storable]; [by apply i2d_range|done].
  - unfold val_of in Ev. destruct (has (m_flags m) MEM_Null); [done|]. destruct (_ || _); [done|].
    destruct (has (m_flags m) MEM_Real) eqn:Hr; [|destruct (has (m_flags m) MEM_Str); done]. injection Ev as <-. split; [apply Hm|by apply (mo_real m Hm)].
  - unfold val_of in Ev. destruct (has (m_flags m) MEM_Null); [done|]. destruct (_ || _); [done|]. destruct (has (m_flags m) MEM_Real); [done|].
    destruct (has (m_flags m) MEM_Str) eqn:Hs; [|done]. injection Ev as <-. assert (Hst : stringy m = true) by (unfold stringy; by rewrite Hs).
    rewrite <- (content_str m Hm Hs). split; [|by apply Hl]. rewrite (content_str m Hm Hs). by apply len_bytes.
  - unfold val_of in Ev. destruct (has (m_flags m) MEM_Null) eqn:Hn; [done|]. destruct (_ || _) eqn:Hij; [done|]. destruct (has (m_flags m) MEM_Real) eqn:Hr; [done|].
    destruct (has (m_flags m) MEM_Str) eqn:Hs; [done|]. injection Ev as <-. destruct (stringy_value m Hm Hn Hij Hr) as (Hst & _). fold (content m).
    split; [|by apply Hl]. apply Forall_app. split; [by apply len_bytes|]. destruct (has (m_flags m) MEM_Zero); [apply bytes_zeros|constructor].
Qed.
Lemma sdata_len v : storable v -> 0 <= zlen (sdata fmt v) <= MAX_LENGTH.
Proof.
  intros Hv. unfold MAX_LENGTH in *. pose proof (zlen_nonneg (sdata fmt v)). split; [done|]. rewrite <- typelen_ok.
  destruct v as [|i|r|s|s]; try (by cbn); cbn [storable] in Hv.
  - cbn [stype]. pose proof (int_stype_range fmt i) as Hr. unfold sqlite3VdbeSerialTypeLen. rewrite (proj2 (Z.leb_gt 128 _)) by lia.
    assert (Hin : int_stype fmt i ∈ seqZ 1 9) by (apply elem_of_seqZ; lia).
    assert (A : forallb (fun k => sqlite3SmallTypeSizes.[k] <=? 8) (seqZ 1 9) = true) by by_compute.
    rewrite forallb_forall in A. apply list_elem_of_In in Hin. apply A in Hin. lia.
  - rewrite typelen_ok. cbn [sdata]. apply Hv.
  - rewrite typelen_ok. cbn [sdata]. apply Hv.
Qed.
Lemma data_len vs : Forall storable vs -> 0 <= zlen (data fmt vs) <= zlen vs * MAX_LENGTH.
Proof.
  induction 1 as [|v vs Hv _ IH]; [done|]. rewrite data_cons, zlen_app, zlen_cons. pose proof (sdata_len v Hv). lia.
Qed.

Definition payload (regs : list Mem) : list Z := mjoin (written <$> regs).

Lemma size_fields_ok w regs : Forall packable regs -> zlen regs <= MAX_FIELDS ->
  exists r w', size_fields malloc fmt w regs = (r, w') /\
  match r with
  | None => out_of_memory
  | Some (regs', nHdr, nData, nZero) =>
      Forall2 packed (stored <$> regs) regs' /\ nHdr = zlen (types fmt (stored <$> regs)) /\ nData = zlen (payload regs') /\ 0 <= nZero /\
      data fmt (stored <$> regs) = payload regs' ++ replicate (Z.to_nat nZero) 0
  end.
Proof.
  induction 1 as [|m regs Hm Hr IH]; intros Hl; [by exists (Some ([], 0, 0, 0)), w|]. rewrite zlen_cons in Hl.
  destruct IH as (r & w1 & E & H); [lia|]. cbn [size_fields]. rewrite E.
  destruct r as [[[[regs' nHdr] nData] nZero]|]; [|by exists None, w1]. destruct H as (H1 & H2 & H3 & H4 & H5).
  assert (Hst : Forall storable (stored <$> regs)) by (apply Forall_fmap; eapply Forall_impl; [exact Hr|]; intros x Hx; by apply stored_storable).
  assert (Hd : 0 <= nData < 2 ^ 62).
  { pose proof (data_len _ Hst) as B. rewrite H5, zlen_app in B. pose proof (zlen_nonneg (replicate (Z.to_nat nZero) 0)).
    pose proof (zlen_nonneg (payload regs')). rewrite H3.
    assert (zlen (stored <$> regs) = zlen regs) as El by (unfold zlen; by rewrite length_fmap). rewrite El in B. unfold MAX_FIELDS, MAX_LENGTH in *. lia. }
  destruct (size_field_ok w1 m nHdr nData nZero Hm Hd) as (r & w2 & -> & Hg).
  destruct r as [[[[m' nHdr'] nData'] nZero']|]; [|by exists None, w2]. destruct Hg as (G1 & G2 & G3 & G4 & G5 & G6).
  eexists _, w2. split; [done|]. rewrite !fmap_cons. split; [by constructor|]. split; [rewrite types_cons, zlen_app; lia|].
  unfold payload. rewrite fmap_cons. change (mjoin (written m' :: (written <$> regs'))) with (written m' ++ payload regs').
  split; [rewrite zlen_app; lia|]. split; [lia|]. rewrite data_cons, G6, H5.
  destruct (Z.eq_dec nData 0) as [E0|E0].
  - assert (payload regs' = []) as -> by (apply nil_length_inv; unfold zlen in H3; lia).
    rewrite app_nil_r, <- app_assoc. cbn [app]. rewrite <- replicate_add. do 2 f_equal. lia.
  - rewrite (G5 E0), Z.sub_diag, app_nil_r. apply app_assoc.
Qed.

(** ** Writing *)

Lemma splice_mid {A} (a b c s : list A) : length s = length b -> splice (a ++ b ++ c) (zlen a) s = a ++ s ++ c.
Proof.
  intros H. unfold splice, zlen. rewrite Nat2Z.id, take_app_length, H. f_equal. f_equal.
  rewrite app_assoc, drop_app_length' by (rewrite length_app; lia). done.
Qed.
Lemma put_payload_ok n z p v : 0 <= p -> p + Z.of_nat n <= zlen z -> put_payload n z p v = splice z p (be n v).
Proof.
  revert z v. induction n as [|n IH]; intros z v Hp Hl; cbn [put_payload be]; [by rewrite splice_nil|].
  rewrite IH by (rewrite ?zlen_zput; lia). rewrite Z.shiftr_div_pow2 by lia. change (2 ^ 8) with 256.
  assert (E : u8 (Z.land v 255) = v mod 256) by (change 255 with (Z.ones 8); rewrite Z.land_ones by lia; unfold u8; by rewrite Z.mod_mod by lia).
  rewrite E, zput_splice by lia. pose proof (be_len n (v / 256)) as L. replace (Z.of_nat n) with (zlen (be n (v / 256))) by lia.
  apply splice_splice_below; [lia|]. rewrite L. change (zlen [v mod 256]) with 1. lia.
Qed.
Lemma put_varint_ok z i v : is_u64 v -> 0 <= i -> i + zlen (varint_enc v) <= zlen z ->
  put_varint_at z i v = (splice z i (varint_enc v), zlen (varint_enc v)).
Proof.
  intros Hv Hi Hl. unfold put_varint_at. rewrite putvarint_enc; [|done|unfold zlen in *; rewrite length_drop; lia].
  f_equal. unfold splice. change (Z.to_nat 0) with O. rewrite take_0. cbn [app Nat.add]. by rewrite drop_drop.
Qed.
(** The output while it is written: finished types, room, finished data, room. *)
Lemma write_field_ok v m H G P R : packed v m -> storable v -> zlen (varint_enc (stype fmt v)) <= zlen G -> zlen (written m) <= zlen R ->
  write_field m (H ++ G ++ P ++ R) (zlen H) (zlen (H ++ G ++ P)) =
  ((H ++ varint_enc (stype fmt v)) ++ drop (length (varint_enc (stype fmt v))) G ++ (P ++ written m) ++ drop (length (written m)) R,
   zlen (H ++ varint_enc (stype fmt v)), zlen (H ++ G ++ P) + zlen (written m)).
Proof.
  intros [Et _ Hok Hbuf] Hs HG HR. destruct (type_varint fmt v Hs) as (H64 & Hlv & _). pose proof (stype_range fmt v Hs) as Hr.
  assert (HB : forall h p, zlen h <= zlen G -> zlen p <= zlen R ->
    splice (splice (H ++ G ++ P ++ R) (zlen H) h) (zlen (H ++ G ++ P)) p =
    (H ++ h) ++ drop (length h) G ++ (P ++ p) ++ drop (length p) R).
  { intros h p Hh Hp. unfold zlen in Hh, Hp. rewrite <- (take_drop (length h) G) at 1. rewrite <- (app_assoc _ (drop _ G)).
    rewrite splice_mid by (rewrite length_take; lia).
    replace (zlen (H ++ G ++ P)) with (zlen ((H ++ h) ++ drop (length h) G ++ P)) by (rewrite !zlen_app; unfold zlen; rewrite length_drop; lia).
    rewrite <- (take_drop (length p) R) at 1.
    replace (H ++ h ++ drop (length h) G ++ P ++ take (length p) R ++ drop (length p) R) with
      (((H ++ h) ++ drop (length h) G ++ P) ++ take (length p) R ++ drop (length p) R) by (by rewrite <- !app_assoc).
    rewrite splice_mid by (rewrite length_take; lia). by rewrite <- !app_assoc. }
  assert (Hz : forall h, zlen h <= zlen G -> splice (H ++ G ++ P ++ R) (zlen H) h = splice (splice (H ++ G ++ P ++ R) (zlen H) h) (zlen (H ++ G ++ P)) [])
    by (intros; by rewrite splice_nil).
  assert (Lz : zlen (H ++ G ++ P ++ R) = zlen H + zlen G + zlen P + zlen R) by (rewrite !zlen_app; lia).
  assert (Lp : zlen (H ++ G ++ P) = zlen H + zlen G + zlen P) by (rewrite !zlen_app; lia).
  pose proof (zlen_nonneg H). pose proof (zlen_nonneg P). pose proof (zlen_nonneg R).
  unfold write_field. unfold written in *. rewrite Et in *. destruct (Z.leb_spec (stype fmt v) 7) as [H7|H7].
  - rewrite enc_small in * by lia. change (zlen [_]) with 1 in HG.
    assert (Eu : u8 (stype fmt v) = stype fmt v) by zwlia. rewrite Eu, zput_splice by lia. rewrite zlen_snoc.
    destruct (Z.eqb_spec (stype fmt v) 0) as [E0|E0].
    + rewrite Hz by done. rewrite HB by (done || lia). rewrite zlen_nil, Z.add_0_r. done.
    + rewrite be_len in HR. rewrite put_payload_ok by (rewrite ?zlen_splice; change (zlen [_]) with 1; lia).
      rewrite HB by (rewrite ?be_len; (done || lia)). rewrite be_len.
      assert (Hin : stype fmt v ∈ seqZ 0 8) by (apply elem_of_seqZ; lia).
      assert (A : forallb (fun k => 0 <=? sqlite3SmallTypeSizes.[k]) (seqZ 0 8) = true) by by_compute.
      rewrite forallb_forall in A. apply list_elem_of_In in Hin. apply A in Hin. by rewrite Z2Nat.id by lia.
  - destruct (Z.ltb_spec (stype fmt v) 128) as [H128|H128].
    + rewrite enc_small in * by lia. change (zlen [_]) with 1 in HG.
      assert (Eu : u8 (stype fmt v) = stype fmt v) by zwlia. rewrite Eu, zput_splice by lia. rewrite zlen_snoc.
      destruct (_ && _) eqn:Ec.
      * assert (0 <= m_n m <= zlen (z_bytes m)) by (apply Hbuf; zbool; (done || lia)).
        pose proof (zlen_take (z_bytes m) (m_n m) ltac:(lia)) as Lt. rewrite Lt in *. rewrite HB by (rewrite ?Lt; (done || lia)). done.
      * rewrite Hz by done. rewrite HB by (done || lia). rewrite zlen_nil, Z.add_0_r. done.
    + rewrite put_varint_ok by (done || lia). rewrite (zlen_app H (varint_enc _)). destruct (truthy (m_n m)) eqn:Ec.
      * assert (0 <= m_n m <= zlen (z_bytes m)) by (apply Hbuf; lia).
        pose proof (zlen_take (z_bytes m) (m_n m) ltac:(lia)) as Lt. rewrite Lt in *. rewrite HB by (rewrite ?Lt; (done || lia)). done.
      * rewrite Hz by done. rewrite HB by (done || lia). rewrite zlen_nil, Z.add_0_r. done.
Qed.

Lemma write_fields_ok vs regs H G P R : Forall2 packed vs regs -> Forall storable vs -> zlen G = zlen (types fmt vs) -> zlen (payload regs) <= zlen R ->
  write_fields regs (H ++ G ++ P ++ R) (zlen H) (zlen (H ++ G ++ P)) =
  H ++ types fmt vs ++ P ++ payload regs ++ drop (length (payload regs)) R.
Proof.
  intros Hp. revert H G P R. induction Hp as [|v m vs regs Hvm Hp IH]; intros H G P R Hs HG HR.
  - cbn [write_fields]. assert (G = []) as -> by (apply nil_length_inv; unfold zlen in HG; cbn in HG; lia). done.
  - inversion Hs; subst. cbn [write_fields]. rewrite types_cons, zlen_app in HG.
    assert (Ep : payload (m :: regs) = written m ++ payload regs) by done. rewrite Ep, zlen_app in HR.
    pose proof (zlen_nonneg (types fmt vs)). pose proof (zlen_nonneg (payload regs)).
    rewrite (write_field_ok v m H G P R) by (done || lia).
    set (h := varint_enc (stype fmt v)) in *. set (p := written m) in *.
    replace (zlen (H ++ G ++ P) + zlen p) with (zlen ((H ++ h) ++ drop (length h) G ++ (P ++ p)))
      by (rewrite !zlen_app; unfold zlen in *; rewrite length_drop; lia).
    rewrite IH; [|done|unfold zlen in *; rewrite length_drop; lia|unfold zlen in *; rewrite length_drop; lia].
    rewrite Ep, types_cons, length_app, <- !app_assoc, drop_drop. done.
Qed.

(** ** The opcode *)

Lemma resize_ok w m n : bytes_ok (m_zMalloc m) ->
  exists rc m' w', sqlite3VdbeMemClearAndResize malloc w m n = (rc, m', w') /\
    (truthy rc = true /\ out_of_memory \/
     rc = SQLITE_OK /\ m_z m' = ZOwn /\ n <= zlen (m_zMalloc m') /\ bytes_ok (m_zMalloc m') /\ m_u m' = m_u m).
Proof.
  intros Hb. unfold sqlite3VdbeMemClearAndResize. destruct (Z.ltb_spec (szMalloc m) n).
  - unfold sqlite3VdbeMemGrow. rewrite andb_false_r. cbn [andb]. destruct (malloc w n) as [[b|] w'] eqn:E.
    + destruct (malloc_ok _ _ _ _ E). eexists _, _, w'. split; [done|]. right. by mem_cbn.
    + eexists _, _, w'. split; [done|]. left. split; [done|]. by exists w, n, w'.
  - eexists _, _, w. split; [done|]. right. by mem_cbn.
Qed.

(** A finished output buffer. *)
Lemma fill_ok vs regs nHdr z : Forall2 packed vs regs -> Forall storable vs -> zlen vs <= MAX_FIELDS ->
  nHdr = header_size (zlen (types fmt vs)) -> nHdr + zlen (payload regs) <= zlen z -> bytes_ok z -> bytes_ok (payload regs) ->
  let '(z', zHdr) := if nHdr <? 128 then (z.[0 <- u8 nHdr], 1) else put_varint_at z 0 nHdr in
  let out := write_fields regs z' zHdr nHdr in
  take (Z.to_nat (nHdr + zlen (payload regs))) out = varint_enc nHdr ++ types fmt vs ++ payload regs /\
  zlen out = zlen z /\ bytes_ok out.
Proof.
  intros Hp Hs Hl -> Hz Hb Hbp. pose proof (types_len fmt vs Hs) as Ht. unfold MAX_FIELDS in Hl. pose proof (zlen_nonneg vs).
  destruct (header_size_ok (zlen (types fmt vs)) ltac:(lia)) as [Hh1 Hh2]. set (h := header_size _) in *.
  set (e := varint_enc h) in *. pose proof (zlen_nonneg (payload regs)).
  assert (Ez : (if h <? 128 then (z.[0 <- u8 h], 1) else put_varint_at z 0 h) = (e ++ drop (length e) z, zlen e)).
  { destruct (Z.ltb_spec h 128).
    - assert (e = [h]) as -> by (apply enc_small; lia). rewrite zput_splice by lia. replace (u8 h) with h by zwlia. done.
    - rewrite put_varint_ok; [done|unfold is_u64; lia|lia|fold e; lia]. }
  rewrite Ez. set (G := take (length (types fmt vs)) (drop (length e) z)). set (R := drop (length (types fmt vs)) (drop (length e) z)).
  assert (Lg : length G = length (types fmt vs)) by (unfold G; rewrite length_take, length_drop; unfold zlen in *; lia).
  assert (Lr : zlen (payload regs) <= zlen R) by (unfold R, zlen in *; rewrite !length_drop; lia).
  assert (E : write_fields regs (e ++ drop (length e) z) (zlen e) h = e ++ types fmt vs ++ payload regs ++ drop (length (payload regs)) R).
  { pose proof (write_fields_ok vs regs e G [] R Hp Hs ltac:(unfold zlen; lia) Lr) as E. cbn [app] in E. rewrite app_nil_r in E.
    rewrite <- E. f_equal; [unfold G, R; by rewrite take_drop|]. rewrite zlen_app. unfold zlen in *. lia. }
  cbv zeta. rewrite E. split_and!.
  - rewrite !app_assoc, take_app_le by (rewrite !length_app; unfold zlen in *; lia). apply take_ge. rewrite !length_app. unfold zlen in *. lia.
  - rewrite !zlen_app. unfold zlen, R in *. rewrite !length_drop in *. lia.
  - repeat (apply Forall_app; split); [apply varint_enc_bytes| |done|unfold R; by repeat apply Forall_drop].
    unfold types. clear. induction vs as [|v vs IH]; [constructor|]. cbn. apply Forall_app. split; [apply varint_enc_bytes|done].
Qed.

Lemma written_bytes_ok v m : packed v m -> bytes_ok (written m).
Proof.
  intros [Et Ev Hm Hb]. unfold written. destruct (Z.leb_spec (m_uTemp m) 7) as [H7|H7]; [destruct (_ =? 0); [constructor|apply be_bytes]|].
  assert (Hs : 14 <= m_uTemp m -> bytes_ok (z_bytes m)).
  { intros H14. apply (mo_buf m Hm). rewrite Et in H14. destruct v; cbn [stype] in H14; try lia.
    - pose proof (int_stype_range fmt i). lia.
    - unfold val_of in Ev. destruct (has (m_flags m) MEM_Null); [done|]. destruct (_ || _); [done|]. destruct (has (m_flags m) MEM_Real); [done|].
      by destruct (has (m_flags m) MEM_Str).
    - pose proof (mo_type m Hm) as T. unfold val_of in Ev. destruct (has (m_flags m) MEM_Null); [done|].
      destruct (has (m_flags m) MEM_Int), (has (m_flags m) MEM_IntReal), (has (m_flags m) MEM_Real), (has (m_flags m) MEM_Str); done. }
  destruct (Z.ltb_spec (m_uTemp m) 128); [destruct (Z.leb_spec 14 (m_uTemp m)); cbn [andb]; [|constructor]; destruct (0 <? m_n m)|
    destruct (truthy (m_n m))]; try constructor; apply Forall_take, Hs; lia.
Qed.

Lemma payload_bytes vs regs : Forall2 packed vs regs -> bytes_ok (payload regs).
Proof.
  induction 1 as [|v m vs regs Hv _ IH]; [constructor|]. apply Forall_app. split; [by eapply written_bytes_ok|done].
Qed.

(** The record is at most [max limit (szMalloc pOut)] bytes, and comes out as the value of
    the output register. *)
Definition record_made (regs : list Mem) (pOut : Mem) (r : make_result) : Prop :=
  let rec := record fmt (stored <$> regs) in
  match r with
  | NoMem => out_of_memory
  | TooBig => limit < zlen rec /\ szMalloc pOut < zlen rec
  | Made pOut' regs' =>
      val_of pOut' = VBlob rec /\ mem_ok pOut' /\ zlen rec <= Z.max limit (szMalloc pOut) /\
      Forall2 (fun v m => val_of m = v /\ mem_ok m) (stored <$> regs) regs'
  end.

(** What the opcode does once the output register has room. *)
Definition finish (regs : list Mem) (pOut : Mem) (nHdr nByte nZero : Z) : Mem :=
  let pOut := set_flags (set_n pOut (i32 nByte)) MEM_Blob in
  let pOut := if truthy nZero then set_flags (set_nZero pOut (i32 nZero)) (Z.lor MEM_Blob MEM_Zero) else pOut in
  let z := m_zMalloc pOut in
  let '(z, zHdr) := if nHdr <? 128 then (z.[0 <- u8 nHdr], 1) else put_varint_at z 0 nHdr in
  set_zMalloc pOut (write_fields regs z zHdr nHdr).

Lemma zero_tail u nZero : is_u64 u -> 0 <= nZero < 2 ^ 31 ->
  let u' := if truthy nZero then u - u mod 2 ^ 32 + u32 nZero else u in
  is_u64 u' /\ (truthy nZero = true -> i32 u' = nZero) /\
  (if has (if truthy nZero then Z.lor MEM_Blob MEM_Zero else MEM_Blob) MEM_Zero then replicate (Z.to_nat (i32 u')) 0 else []) = replicate (Z.to_nat nZero) 0.
Proof.
  intros Hu Hz. unfold truthy. destruct (Z.eqb_spec nZero 0) as [-> |]; cbn [negb]; [done|]. flag_eval.
  assert (E : i32 (u - u mod 2 ^ 32 + u32 nZero) = nZero) by zwlia. rewrite E. split; [|done].
  unfold is_u64, u32 in *. Z.div_mod_to_equations. lia.
Qed.

Lemma finish_ok regs pOut regs' p h nByte nZero : let vs := stored <$> regs in
  Forall2 packed vs regs' -> Forall storable vs -> zlen vs <= MAX_FIELDS -> h = header_size (zlen (types fmt vs)) ->
  nByte = h + zlen (payload regs') -> 0 <= nByte -> 0 <= nZero -> nByte + nZero < 2 ^ 31 ->
  record fmt vs = (varint_enc h ++ types fmt vs ++ payload regs') ++ replicate (Z.to_nat nZero) 0 ->
  zlen (record fmt vs) <= Z.max limit (szMalloc pOut) -> m_z p = ZOwn -> nByte <= zlen (m_zMalloc p) -> bytes_ok (m_zMalloc p) -> is_u64 (m_u p) ->
  record_made regs pOut (Made (finish regs' p h nByte nZero) regs').
Proof.
  intros vs Hp Hs Hlv Eh EB H0 Hn0 Hmax Erec Hle Hz Hlen Hbz Hu. subst nByte.
  pose proof (fill_ok vs regs' h (m_zMalloc p) Hp Hs Hlv Eh Hlen Hbz (payload_bytes _ _ Hp)) as HF.
  set (nByte := h + zlen (payload regs')) in *. pose proof (zlen_nonneg (payload regs')).
  assert (En : i32 nByte = nByte) by zwlia. assert (Ez : i32 nZero = nZero) by zwlia. unfold finish. rewrite En, Ez.
  assert (Em : forall f g, (if truthy nZero then set_flags (set_nZero (set_flags (set_n p nByte) f) nZero) g else set_flags (set_n p nByte) f) =
    mkMem (if truthy nZero then m_u p - m_u p mod 2 ^ 32 + u32 nZero else m_u p) (m_z p) nByte (if truthy nZero then g else f) (m_enc p) (m_zMalloc p) (m_uTemp p))
    by (intros; by destruct (truthy nZero)).
  cbv zeta. rewrite Em. mem_cbn. destruct (zero_tail (m_u p) nZero Hu ltac:(lia)) as (T1 & T2 & T3).
  destruct (if h <? 128 then _ else _) as [z zHdr]. destruct HF as (F1 & F2 & F3).
  unfold record_made. fold vs. rewrite Hz. split; [|split; [|split]].
  - unfold val_of, u_nZero. mem_cbn. rewrite F1, T3, Erec. by destruct (truthy nZero).
  - split; mem_cbn; [done|by destruct (truthy nZero)|by destruct (truthy nZero)|by destruct (truthy nZero)| |].
    + intros _. split; [rewrite F2; lia|done].
    + unfold u_nZero. mem_cbn. destruct (truthy nZero) eqn:Et; [|done]. by rewrite T2.
  - done.
  - eapply Forall2_impl; [exact Hp|]. intros v m []. done.
Qed.

Lemma make_record_ok w regs pOut : Forall packable regs -> zlen regs <= MAX_FIELDS -> limit <= MAX_LENGTH ->
  szMalloc pOut < 2 ^ 31 -> is_u64 (m_u pOut) -> bytes_ok (m_zMalloc pOut) ->
  exists r w', OP_MakeRecord malloc fmt limit w regs pOut = (r, w') /\ record_made regs pOut r.
Proof.
  intros Hr Hl Hlim Hsz Hu Hb. unfold OP_MakeRecord, MAX_LENGTH in *.
  destruct (size_fields_ok w regs Hr Hl) as (r & w1 & -> & H). destruct r as [[[[regs' nHdr] nData] nZero]|]; [|by exists NoMem, w1].
  destruct H as (Hp & -> & -> & H0 & Hd). set (vs := stored <$> regs) in *.
  assert (Hs : Forall storable vs) by (apply Forall_fmap; eapply Forall_impl; [exact Hr|]; intros x Hx; by apply stored_storable).
  assert (Hlv : zlen vs <= MAX_FIELDS) by (unfold vs, zlen; by rewrite length_fmap).
  pose proof (types_len fmt vs Hs) as Ht. pose proof (data_len vs Hs) as Hdl. unfold MAX_FIELDS, MAX_LENGTH in *. pose proof (zlen_nonneg vs).
  destruct (header_size_ok (zlen (types fmt vs)) ltac:(lia)) as [Hh1 Hh2]. set (h := header_size _) in *.
  assert (Erec : record fmt vs = (varint_enc h ++ types fmt vs ++ payload regs') ++ replicate (Z.to_nat nZero) 0)
    by (unfold record; fold h; by rewrite Hd, <- !app_assoc).
  pose proof (zlen_zeros nZero H0) as Lz.
  assert (Lrec : zlen (record fmt vs) = h + zlen (payload regs') + nZero) by (rewrite Erec, !zlen_app, Lz; lia).
  rewrite Hd, zlen_app, Lz in Hdl. pose proof (zlen_nonneg (payload regs')).
  assert (Ei : i64 (h + zlen (payload regs')) = h + zlen (payload regs')) by zwlia. rewrite Ei. cbv zeta. set (nByte := h + zlen (payload regs')) in *.
  pose proof (payload_bytes vs regs' Hp) as Hbp.
  assert (FIN : forall p, nByte + nZero <= Z.max limit (szMalloc pOut) -> m_z p = ZOwn -> nByte <= zlen (m_zMalloc p) -> bytes_ok (m_zMalloc p) -> m_u p = m_u pOut ->
    record_made regs pOut (Made (finish regs' p h nByte nZero) regs')).
  { intros p Hmax Hz Hlen Hbz Eu. pose proof (finish_ok regs pOut regs' p h nByte nZero) as F. cbv zeta in F. fold vs in F. rewrite Eu in F. apply F; (done || lia). }
  destruct (Z.leb_spec (nByte + nZero) (szMalloc pOut)) as [Hc|Hc]; [|destruct (Z.ltb_spec limit (nByte + nZero)) as [Hc2|Hc2]].
  - specialize (FIN (set_z pOut ZOwn) ltac:(lia) eq_refl ltac:(unfold szMalloc in Hc; mem_cbn; lia) Hb eq_refl). unfold finish in FIN. cbv zeta in FIN.
    destruct (if h <? 128 then _ else _) as [z zHdr]. by eexists _, w1.
  - eexists TooBig, w1. split; [done|]. unfold record_made. fold vs. lia.
  - assert (En : i32 nByte = nByte) by zwlia. rewrite En.
    destruct (resize_ok w1 pOut nByte Hb) as (rc & p & w2 & -> & [[Hrc Ho]|(-> & Hz & Hlen & Hbz & Eu)]).
    + rewrite Hrc. by exists NoMem, w2.
    + change (truthy SQLITE_OK) with false. cbn iota. specialize (FIN p ltac:(lia) Hz Hlen Hbz Eu). unfold finish in FIN. cbv zeta in FIN. rewrite En in FIN.
      destruct (if h <? 128 then _ else _) as [z zHdr]. by eexists _, w2.
Qed.
End packing.

(** ** Round trip *)

Lemma blob_content m s : val_of m = VBlob s -> content m = s.
Proof.
  unfold val_of. destruct (has _ MEM_Null); [done|]. destruct (_ || _); [done|]. destruct (has (m_flags m) MEM_Real); [done|].
  destruct (has (m_flags m) MEM_Str); [done|]. by intros [= <-].
Qed.

(** C22. Packing and unpacking: [OP_MakeRecord] on any valid registers ends in one of three
    ways.  It runs out of memory only when an allocation failed; it reports a record too big
    only when the record exceeds both the limit and the output register's buffer; otherwise
    the output register holds the record of the registers' values (a zero-filled tail of a
    trailing blob kept as a count), the registers keep their values, and
    [sqlite3VdbeRecordUnpack] reads from these bytes, whatever follows them in memory, as many
    fields as the record has and the caller asked for, each with the value that went in. *)
Theorem make_record_roundtrip {W} (malloc : W -> Z -> option (list Z) * W) (fmt limit : Z) (w : W) (regs : list Mem) (pOut : Mem)
  (pad : list Z) (p : UnpackedRecord)
  (Hmalloc : forall w n b w', malloc w n = (Some b, w') -> n <= zlen b /\ bytes_ok b)
  (Hregs : Forall packable regs) (Hn : zlen regs <= MAX_FIELDS) (Hlimit : limit <= MAX_LENGTH)
  (Hsz : szMalloc pOut < 2 ^ 31) (Hu : is_u64 (m_u pOut)) (Hb : bytes_ok (m_zMalloc pOut)) (Hpad : bytes_ok pad) (Hp : roomy p) :
  exists r w', OP_MakeRecord malloc fmt limit w regs pOut = (r, w') /\
  match r with
  | NoMem => exists w n w', malloc w n = (None, w')
  | TooBig => Z.max limit (szMalloc pOut) < zlen (record fmt (stored <$> regs))
  | Made out regs' =>
      val_of out = VBlob (record fmt (stored <$> regs)) /\ mem_ok out /\ val_of <$> regs' = stored <$> regs /\
      let p' := sqlite3VdbeRecordUnpack (zlen (content out)) (content out ++ pad) p in
      nField p' = Z.min (nField p) (zlen regs) /\
      forall k v, (stored <$> regs) !! k = Some v -> Z.of_nat k < nField p -> val_of (aMem p').[Z.of_nat k] = v
  end.
Proof.
  destruct (make_record_ok malloc Hmalloc fmt limit w regs pOut Hregs Hn Hlimit Hsz Hu Hb) as (r & w' & E & Hr).
  exists r, w'. split; [done|]. destruct r as [out regs'| |]; cbn [record_made] in Hr; [|lia|done].
  destruct Hr as (Hv & Hm & Hlen & Hregs'). rewrite (blob_content out _ Hv). split; [done|]. split; [done|]. split.
  { clear -Hregs'. induction Hregs' as [|v m vs ms [<- _] _ IH]; [done|]. by rewrite fmap_cons, IH. }
  assert (Hs : Forall storable (stored <$> regs)).
  { apply Forall_fmap. eapply Forall_impl; [exact Hregs|]. intros x Hx. by eapply stored_storable. }
  assert (El : zlen (stored <$> regs) = zlen regs) by (unfold zlen; by rewrite length_fmap).
  destruct (unpack_ok fmt (stored <$> regs) pad p Hs ltac:(lia) ltac:(unfold MAX_LENGTH in *; lia) Hpad Hp) as (E1 & _ & _ & _ & _ & _ & Hd).
  rewrite El in E1. split; [done|]. intros k v Hk Hlt. by destruct (Hd k v Hk Hlt).
Qed.

(** 300, the text "ab", a zero-filled blob of three bytes *)
Definition demo_regs : list Mem :=
  [mem_int 300; mkMem 0 (ZAt [97; 98; 0]) 2 MEM_Str 1 [] 0; mkMem 3 ZNull 0 (Z.lor MEM_Blob MEM_Zero) 1 [] 0].
Definition demo_malloc (w : nat) (n : Z) : option (list Z) * nat := (Some (replicate (Z.to_nat n) 7), S w).
Definition demo_info (desc : Z) : KeyInfo := mkKeyInfo 1 2 3 [desc; 0; 0] [None; None; None].
Definition demo_key (desc : Z) : UnpackedRecord := mkUnpacked (demo_info desc) (replicate 3 inhabitant) 0 [] 0 3 0 0 0 0 false.

Lemma demo_malloc_ok w n b w' : demo_malloc w n = (Some b, w') -> n <= zlen b /\ bytes_ok b.
Proof.
  intros [= <- <-]. split; [unfold zlen; rewrite length_replicate; lia|]. apply Forall_replicate. by_compute.
Qed.
Lemma packable_check m : mem_okb m && negb (has (m_flags m) MEM_Null) && (zlen (content m) <=? MAX_LENGTH) = true -> packable m.
Proof.
  rewrite !andb_true_iff, negb_true_iff. intros [[H1 H2] H3]. split; [by apply mem_okb_ok|by rewrite H2|lia].
Qed.
Lemma demo_regs_ok : Forall packable demo_regs.
Proof. unfold demo_regs. rewrite !Forall_cons. split_and!; [apply packable_check; by vm_compute..|constructor]. Qed.
Lemma demo_key_ok desc : roomy (demo_key desc).
Proof. split; [cbn; lia|]. split; [by vm_compute|]. repeat constructor; by vm_compute. Qed.

Lemma make_record_roundtrip_witness :
  exists r w', OP_MakeRecord demo_malloc 4 1000000 O demo_regs inhabitant = (r, w') /\
    match r with
    | Made out _ => val_of (aMem (sqlite3VdbeRecordUnpack (zlen (content out)) (content out ++ [9; 9]) (demo_key 0))).[1] = VText [97; 98]
    | _ => False
    end.
Proof.
  destruct (make_record_roundtrip demo_malloc 4 1000000 O demo_regs inhabitant [9; 9] (demo_key 0) demo_malloc_ok demo_regs_ok
    ltac:(by_compute) ltac:(by_compute) ltac:(by_compute) ltac:(by_compute) ltac:(by_compute) ltac:(by_compute) (demo_key_ok 0)) as (r & w' & E & H).
  exists r, w'. split; [exact E|]. vm_compute in E. injection E as <- <-. destruct H as (_ & _ & _ & _ & H).
  apply (H 1%nat); [reflexivity|vm_compute; reflexivity].
Defined.
