(* ===== verification/RecordCompare.v ===== *)
(** Comparing a packed record with an unpacked one (vdbeaux.c section of sqlite3.c): the
    general routine and the two fast ones that [sqlite3VdbeFindCompare] chooses when the
    first field of the key allows it.

    [key_cmp] is the order of keys: the fields' values one after the other, each ascending
    or descending, with NULLs first or last.  The routines are proved to return it, to
    report when all fields of the key agree, and when the record has too few of them. *)

From S2P Require Import Prelude Bits Varint Double Order VdbeMem Record MakeRecord.

Definition KEYINFO_ORDER_DESC : Z := 0x01.
Definition KEYINFO_ORDER_BIGNULL : Z := 0x02.

Definition set_errCode (p : UnpackedRecord) (v : Z) : UnpackedRecord :=
  mkUnpacked (pKeyInfo p) (aMem p) (p_i p) (p_z p) (p_n p) (nField p) (default_rc p) v (p_r1 p) (p_r2 p) (eqSeen p).
Definition set_eqSeen (p : UnpackedRecord) : UnpackedRecord :=
  mkUnpacked (pKeyInfo p) (aMem p) (p_i p) (p_z p) (p_n p) (nField p) (default_rc p) (errCode p) (p_r1 p) (p_r2 p) true.
Definition set_r (p : UnpackedRecord) (r1 r2 : Z) : UnpackedRecord :=
  mkUnpacked (pKeyInfo p) (aMem p) (p_i p) (p_z p) (p_n p) (nField p) (default_rc p) (errCode p) r1 r2 (eqSeen p).
Definition cache_i (p : UnpackedRecord) (i : Z) : UnpackedRecord :=
  mkUnpacked (pKeyInfo p) (aMem p) i (p_z p) (p_n p) (nField p) (default_rc p) (errCode p) (p_r1 p) (p_r2 p) (eqSeen p).
Definition cache_z (p : UnpackedRecord) (z : list Z) (n : Z) : UnpackedRecord :=
  mkUnpacked (pKeyInfo p) (aMem p) (p_i p) z n (nField p) (default_rc p) (errCode p) (p_r1 p) (p_r2 p) (eqSeen p).

(** ** The routines *)

Definition vdbeRecordDecodeInt (serial_type : Z) (aKey : list Z) : Z :=
  if (serial_type =? 0) || (serial_type =? 1) then ONE_BYTE_INT aKey
  else if serial_type =? 2 then TWO_BYTE_INT aKey
  else if serial_type =? 3 then THREE_BYTE_INT aKey
  else if serial_type =? 4 then i32 (FOUR_BYTE_UINT aKey)
  else if serial_type =? 5 then FOUR_BYTE_UINT (drop 2 aKey) + Z.shiftl 1 32 * TWO_BYTE_INT aKey
  else if serial_type =? 6 then i64 (Z.lor (u64 (Z.shiftl (FOUR_BYTE_UINT aKey) 32)) (FOUR_BYTE_UINT (drop 4 aKey)))
  else serial_type - 8.

Section compare.
Variable sqlite3ValueText : Mem -> Z -> option (list Z).

(** One field: [rc], [serial_type] and [errCode], or nothing when the record is corrupt. *)
Definition compare_field (nKey1 : Z) (aKey1 : list Z) (pPKey2 : UnpackedRecord) (i idx1 d1 : Z) : option (Z * Z * Z) :=
  let pRhs := (aMem pPKey2).[i] in
  let f := m_flags pRhs in
  let mem1 : Mem := inhabitant in
  let pKeyInfo := pKeyInfo pPKey2 in
  let at_d1 := drop (Z.to_nat d1) aKey1 in
  if has f (Z.lor MEM_Int MEM_IntReal) then
    let serial_type := aKey1.[idx1] in
    let rc :=
      if 10 <=? serial_type then (if serial_type =? 10 then -1 else 1)
      else if serial_type =? 0 then -1
      else if serial_type =? 7 then
        let '(_, mem1) := serialGet7 at_d1 mem1 in - sqlite3IntFloatCompare (u_i pRhs) (u_r mem1)
      else
        let lhs := vdbeRecordDecodeInt serial_type at_d1 in
        let rhs := u_i pRhs in
        if lhs <? rhs then -1 else if rhs <? lhs then 1 else 0 in
    Some (rc, serial_type, errCode pPKey2)
  else if has f MEM_Real then
    let serial_type := aKey1.[idx1] in
    let rc :=
      if 10 <=? serial_type then (if serial_type =? 10 then -1 else 1)
      else if serial_type =? 0 then -1
      else if serial_type =? 7 then
        let '(nan, mem1) := serialGet7 at_d1 mem1 in
        if nan then -1
        else if dlt (u_r mem1) (u_r pRhs) then -1 else if dlt (u_r pRhs) (u_r mem1) then 1 else 0
      else
        let mem1 := sqlite3VdbeSerialGet at_d1 serial_type mem1 in
        sqlite3IntFloatCompare (u_i mem1) (u_r pRhs) in
    Some (rc, serial_type, errCode pPKey2)
  else if has f MEM_Str then
    let serial_type := snd (getVarint32 (drop (Z.to_nat idx1) aKey1)) in
    if serial_type <? 12 then Some (-1, serial_type, errCode pPKey2)
    else if negb (has serial_type 1) then Some (1, serial_type, errCode pPKey2)
    else
      let mem1 := set_n mem1 ((serial_type - 12) / 2) in
      if (nKey1 <? u32 (d1 + m_n mem1)) || (nAllField pKeyInfo <=? i) then None
      else match (aColl pKeyInfo).[i] with
           | Some pColl =>
               let mem1 := set_z (set_flags (set_enc mem1 (ki_enc pKeyInfo)) MEM_Str) (ZAt at_d1) in
               let '(rc, prcErr) := vdbeCompareMemString sqlite3ValueText mem1 pRhs pColl in
               Some (rc, serial_type, if truthy prcErr then prcErr else errCode pPKey2)
           | None =>
               let nCmp := Z.min (m_n mem1) (m_n pRhs) in
               let rc := memcmp at_d1 (z_bytes pRhs) (Z.to_nat nCmp) in
               Some (if rc =? 0 then m_n mem1 - m_n pRhs else rc, serial_type, errCode pPKey2)
           end
  else if has f MEM_Blob then
    let serial_type := snd (getVarint32 (drop (Z.to_nat idx1) aKey1)) in
    if (serial_type <? 12) || has serial_type 1 then Some (-1, serial_type, errCode pPKey2)
    else
      let nStr := (serial_type - 12) / 2 in
      if nKey1 <? u32 (d1 + nStr) then None
      else if has f MEM_Zero then
        Some (if negb (isAllZero at_d1 (Z.to_nat nStr)) then 1 else nStr - u_nZero pRhs, serial_type, errCode pPKey2)
      else
        let nCmp := Z.min nStr (m_n pRhs) in
        let rc := memcmp at_d1 (z_bytes pRhs) (Z.to_nat nCmp) in
        Some (if rc =? 0 then nStr - m_n pRhs else rc, serial_type, errCode pPKey2)
  else
    let serial_type := aKey1.[idx1] in
    let rc :=
      if (serial_type =? 0) || (serial_type =? 10) || ((serial_type =? 7) && fst (serialGet7 at_d1 mem1)) then 0 else 1 in
    Some (rc, serial_type, errCode pPKey2).

(** The result turned round as the column's flags say. *)
Definition apply_sort (sortFlags : Z) (null : bool) (rc : Z) : Z :=
  if truthy sortFlags then
    if negb (has sortFlags KEYINFO_ORDER_BIGNULL) || negb (Z.land sortFlags KEYINFO_ORDER_DESC =? b2z null) then - rc else rc
  else rc.

(** The loop moves [idx1] on by at least one byte of the header in each round and
    leaves when it reaches [szHdr1]: [S szHdr1] rounds are enough for any record and
    any key ([compare_loop_ends]). *)
Fixpoint compare_loop (fuel : nat) (nKey1 : Z) (aKey1 : list Z) (pPKey2 : UnpackedRecord) (szHdr1 i idx1 d1 : Z) : Z * UnpackedRecord :=
  match fuel with
  | O => (default_rc pPKey2, set_eqSeen pPKey2)
  | S fuel =>
      match compare_field nKey1 aKey1 pPKey2 i idx1 d1 with
      | None => (0, set_errCode pPKey2 SQLITE_CORRUPT)
      | Some (rc, serial_type, errCode) =>
          let pPKey2 := set_errCode pPKey2 errCode in
          if truthy rc then
            (apply_sort (aSortFlags (pKeyInfo pPKey2)).[i]
               ((serial_type =? 0) || has (m_flags (aMem pPKey2).[i]) MEM_Null) rc, pPKey2)
          else
            let i := i + 1 in
            if i =? nField pPKey2 then (default_rc pPKey2, set_eqSeen pPKey2) else
            let d1 := u32 (d1 + sqlite3VdbeSerialTypeLen serial_type) in
            if nKey1 <? d1 then (default_rc pPKey2, set_eqSeen pPKey2) else
            let idx1 := u32 (idx1 + sqlite3VarintLen serial_type) in
            if szHdr1 <=? idx1 then (0, set_errCode pPKey2 SQLITE_CORRUPT)
            else compare_loop fuel nKey1 aKey1 pPKey2 szHdr1 i idx1 d1
      end
  end.

Definition sqlite3VdbeRecordCompareWithSkip (nKey1 : Z) (aKey1 : list Z) (pPKey2 : UnpackedRecord) (bSkip : bool) : Z * UnpackedRecord :=
  let '(szHdr1, idx1, d1, i) :=
    if bSkip then
      let '(s1, idx1) :=
        if aKey1.[1] <? 128 then (aKey1.[1], 2)
        else let '(n, s1) := sqlite3GetVarint32 (drop 1 aKey1) in (s1, 1 + n) in
      let szHdr1 := aKey1.[0] in
      (szHdr1, idx1, u32 (szHdr1 + sqlite3VdbeSerialTypeLen s1), 1)
    else
      let '(idx1, szHdr1) := if aKey1.[0] <? 128 then (1, aKey1.[0]) else sqlite3GetVarint32 aKey1 in
      (szHdr1, idx1, szHdr1, 0) in
  if nKey1 <? d1 then (0, set_errCode pPKey2 SQLITE_CORRUPT)
  else compare_loop (S (Z.to_nat szHdr1)) nKey1 aKey1 pPKey2 szHdr1 i idx1 d1.

Definition sqlite3VdbeRecordCompare (nKey1 : Z) (aKey1 : list Z) (pPKey2 : UnpackedRecord) : Z * UnpackedRecord :=
  sqlite3VdbeRecordCompareWithSkip nKey1 aKey1 pPKey2 false.

Definition vdbeRecordCompareInt (nKey1 : Z) (pKey1 : list Z) (pPKey2 : UnpackedRecord) : Z * UnpackedRecord :=
  let aKey := drop (Z.to_nat (Z.land pKey1.[0] 0x3F)) pKey1 in
  let serial_type := pKey1.[1] in
  let lhs :=
    if serial_type =? 1 then Some (ONE_BYTE_INT aKey)
    else if serial_type =? 2 then Some (TWO_BYTE_INT aKey)
    else if serial_type =? 3 then Some (THREE_BYTE_INT aKey)
    else if serial_type =? 4 then Some (i32 (FOUR_BYTE_UINT aKey))
    else if serial_type =? 5 then Some (FOUR_BYTE_UINT (drop 2 aKey) + Z.shiftl 1 32 * TWO_BYTE_INT aKey)
    else if serial_type =? 6 then Some (i64 (Z.lor (u64 (Z.shiftl (FOUR_BYTE_UINT aKey) 32)) (FOUR_BYTE_UINT (drop 4 aKey))))
    else if serial_type =? 8 then Some 0
    else if serial_type =? 9 then Some 1
    else None in
  match lhs with
  | None => sqlite3VdbeRecordCompare nKey1 pKey1 pPKey2
  | Some lhs =>
      let v := p_i pPKey2 in
      if lhs <? v then (p_r1 pPKey2, pPKey2)
      else if v <? lhs then (p_r2 pPKey2, pPKey2)
      else if 1 <? nField pPKey2 then sqlite3VdbeRecordCompareWithSkip nKey1 pKey1 pPKey2 true
      else (default_rc pPKey2, set_eqSeen pPKey2)
  end.

(** The test of [vrcs_restart] once [serial_type] is not negative, or stays so. *)
Definition compare_string (nKey1 : Z) (aKey1 : list Z) (pPKey2 : UnpackedRecord) (serial_type : Z) : Z * UnpackedRecord :=
  if serial_type <? 12 then (p_r1 pPKey2, pPKey2)
  else if negb (has serial_type 1) then (p_r2 pPKey2, pPKey2)
  else
    let szHdr := aKey1.[0] in
    let nStr := (serial_type - 12) / 2 in
    if nKey1 <? szHdr + nStr then (0, set_errCode pPKey2 SQLITE_CORRUPT)
    else
      let nCmp := Z.min (p_n pPKey2) nStr in
      let res := memcmp (drop (Z.to_nat szHdr) aKey1) (p_z pPKey2) (Z.to_nat nCmp) in
      if 0 <? res then (p_r2 pPKey2, pPKey2)
      else if res <? 0 then (p_r1 pPKey2, pPKey2)
      else
        let res := nStr - p_n pPKey2 in
        if res =? 0 then
          if 1 <? nField pPKey2 then sqlite3VdbeRecordCompareWithSkip nKey1 aKey1 pPKey2 true
          else (default_rc pPKey2, set_eqSeen pPKey2)
        else if 0 <? res then (p_r2 pPKey2, pPKey2) else (p_r1 pPKey2, pPKey2).

Definition vdbeRecordCompareString (nKey1 : Z) (aKey1 : list Z) (pPKey2 : UnpackedRecord) : Z * UnpackedRecord :=
  let serial_type := i8 aKey1.[1] in
  if serial_type <? 0 then
    compare_string nKey1 aKey1 pPKey2 (i32 (snd (sqlite3GetVarint32 (drop 1 aKey1))))
  else compare_string nKey1 aKey1 pPKey2 serial_type.

Inductive comparer := CompareInt | CompareString | CompareRecord.
Definition run_comparer (c : comparer) : Z -> list Z -> UnpackedRecord -> Z * UnpackedRecord :=
  match c with
  | CompareInt => vdbeRecordCompareInt
  | CompareString => vdbeRecordCompareString
  | CompareRecord => sqlite3VdbeRecordCompare
  end.

Definition sqlite3VdbeFindCompare (p : UnpackedRecord) : comparer * UnpackedRecord :=
  if nAllField (pKeyInfo p) <=? 13 then
    let flags := m_flags (aMem p).[0] in
    let f0 := (aSortFlags (pKeyInfo p)).[0] in
    if truthy f0 && has f0 KEYINFO_ORDER_BIGNULL then (CompareRecord, p)
    else
      let p := if truthy f0 then set_r p 1 (-1) else set_r p (-1) 1 in
      if has flags MEM_Int then (CompareInt, cache_i p (u_i (aMem p).[0]))
      else if negb (has flags (Z.lor (Z.lor MEM_Real MEM_IntReal) (Z.lor MEM_Null MEM_Blob)))
              && match (aColl (pKeyInfo p)).[0] with None => true | Some _ => false end
      then (CompareString, cache_z p (z_bytes (aMem p).[0]) (m_n (aMem p).[0]))
      else (CompareRecord, p)
  else (CompareRecord, p).
End compare.

Lemma varintlen_loop_bounds f i v : i <= sqlite3VarintLen_loop f i v <= i + Z.of_nat f.
Proof.
  revert i v. induction f as [|f IH]; intros i v; cbn [sqlite3VarintLen_loop]; [lia|].
  cbv zeta. destruct (_ =? 0); [lia|]. specialize (IH (i + 1) (Z.shiftr v 7)). lia.
Qed.
(** More rounds than the header has bytes change nothing, whatever the record, corrupt
    or not, and the key. *)
Lemma compare_loop_ends svt nKey1 aKey1 szHdr1 k fuel p i idx1 d1 :
  0 <= idx1 < 2 ^ 31 -> szHdr1 < 2 ^ 31 -> (0 < fuel)%nat -> szHdr1 - idx1 < Z.of_nat fuel ->
  compare_loop svt (fuel + k) nKey1 aKey1 p szHdr1 i idx1 d1 =
  compare_loop svt fuel nKey1 aKey1 p szHdr1 i idx1 d1.
Proof.
  revert p i idx1 d1. induction fuel as [|fuel IH]; intros p i idx1 d1 Hi Hs Hf Hlt; [lia|].
  cbn [compare_loop Nat.add]. destruct (compare_field _ _ _ _ _ _ _) as [[[rc t] e]|]; [|done].
  cbv zeta. destruct (truthy rc); [done|]. destruct (_ =? _); [done|].
  destruct (nKey1 <? _); [done|]. pose proof (varintlen_loop_bounds 10 1 t) as Hl.
  fold (sqlite3VarintLen t) in Hl. change (Z.of_nat 10) with 10 in Hl.
  assert (Eu : u32 (idx1 + sqlite3VarintLen t) = idx1 + sqlite3VarintLen t)
    by (unfold u32; apply Z.mod_small; lia).
  rewrite Eu. destruct (Z.leb_spec szHdr1 (idx1 + sqlite3VarintLen t)); [done|]. apply IH; lia.
Qed.

(** ** The order of keys *)

Definition is_null (v : sval) : bool := match v with VNull => true | _ => false end.
Definition field_cmp (sortFlags : Z) (coll : option CollSeq) (v k : sval) : comparison :=
  let c := val_cmp coll v k in
  if xorb (has sortFlags KEYINFO_ORDER_DESC) (has sortFlags KEYINFO_ORDER_BIGNULL && (is_null v || is_null k)) then CompOpp c else c.

(** The columns of a key: sort flags and collating sequence. *)
Definition column : Type := Z * option CollSeq.
Fixpoint key_cmp (cols : list column) (vs ks : list sval) : comparison :=
  match cols with
  | [] => Eq
  | (f, c) :: cols => then_cmp (field_cmp f c (hd VNull vs) (hd VNull ks)) (key_cmp cols (tail vs) (tail ks))
  end.

(** What comparing a record with a key can tell: the first field that differs decides, all
    fields of the key are the same, or the record ends before that. *)
Inductive outcome := Differ (c : comparison) | Same | Short.
Fixpoint compare_spec (cols : list column) (vs ks : list sval) : outcome :=
  match cols, vs, ks with
  | (f, c) :: cols, v :: vs, k :: ks =>
      match field_cmp f c v k with
      | Eq => match ks, vs with [], _ => Same | _, [] => Short | _, _ => compare_spec cols vs ks end
      | c => Differ c
      end
  | _, _, _ => Same
  end.

Definition coll_order (coll : option CollSeq) : Prop :=
  forall c, coll = Some c -> TotalPreorder (fun s t => c_xCmp c s t ?= 0).

#[export] Instance field_order f coll : coll_order coll -> TotalPreorder (field_cmp f coll).
Proof.
  intros Hc. pose proof (val_order coll Hc) as HV.
  assert (HN : forall v k : sval, is_null v = false -> is_null k = true -> val_cmp coll v k = Gt) by (by intros [] []).
  assert (HL : forall v k : sval, is_null v = true -> is_null k = false -> val_cmp coll v k = Lt) by (by intros [] []).
  assert (HE : forall v k : sval, is_null v = true -> is_null k = true -> val_cmp coll v k = Eq) by (by intros [] []).
  unfold field_cmp. destruct (has f KEYINFO_ORDER_DESC), (has f KEYINFO_ORDER_BIGNULL); cbn [andb xorb]; try exact HV; try exact (reversed (val_cmp coll)).
  - split.
    + intros x y. rewrite (orb_comm (is_null y)), (cmp_flip (cmp := val_cmp coll) x y). by destruct (is_null x || is_null y).
    + intros x y z. destruct (is_null x) eqn:Nx, (is_null y) eqn:Ny, (is_null z) eqn:Nz; cbn [orb negb];
        rewrite ?(HN x y), ?(HL x y), ?(HE x y), ?(HN y z), ?(HL y z), ?(HE y z), ?(HN x z), ?(HL x z), ?(HE x z) by done; try done.
      apply (cmp_le_trans (cmp := fun a b => CompOpp (val_cmp coll a b))).
  - split.
    + intros x y. rewrite (orb_comm (is_null y)), (cmp_flip (cmp := val_cmp coll) x y). by destruct (is_null x || is_null y).
    + intros x y z. destruct (is_null x) eqn:Nx, (is_null y) eqn:Ny, (is_null z) eqn:Nz; cbn [orb negb];
        rewrite ?(HN x y), ?(HL x y), ?(HE x y), ?(HN y z), ?(HL y z), ?(HE y z), ?(HN x z), ?(HL x z), ?(HE x z) by done; try done.
      apply (cmp_le_trans (cmp := val_cmp coll)).
Qed.
#[export] Instance key_order cols : Forall (fun col => coll_order (snd col)) cols -> TotalPreorder (key_cmp cols).
Proof.
  induction cols as [|[f c] cols IH]; intros Hc; [by split|]. inversion Hc as [|? ? H1 H2]; subst. specialize (IH H2).
  pose proof (field_order f c H1) as HF.
  exact (refined (fun vs ks => field_cmp f c (hd VNull vs) (hd VNull ks)) (fun vs ks => key_cmp cols (tail vs) (tail ks))).
Qed.

(** The two agree when the record has all fields of the key. *)
Lemma compare_spec_key cols vs ks : (0 < length ks)%nat -> length cols = length ks -> (length ks <= length vs)%nat ->
  compare_spec cols vs ks = match key_cmp cols vs ks with Eq => Same | c => Differ c end.
Proof.
  revert vs ks. induction cols as [|[f c] cols IH]; intros [|v vs] [|k ks]; cbn [length]; intros; try lia.
  cbn [compare_spec key_cmp hd tail]. destruct (field_cmp f c v k); try done. cbn [then_cmp].
  destruct ks as [|k2 ks]; [by destruct cols|]. destruct vs as [|v2 vs]; [cbn [length] in *; lia|].
  apply IH; cbn [length] in *; lia.
Qed.

(** ** Reading a packed field *)

Lemma zget_drop (l : list Z) i j : 0 <= i -> 0 <= j -> (drop (Z.to_nat i) l).[j] = l.[i + j].
Proof.
  intros Hi Hj. unfold zget, zlookup. rewrite !(proj2 (Z.leb_le 0 _)) by lia. rewrite lookup_drop. do 2 f_equal. lia.
Qed.
Lemma zget_drop_hd (l a r : list Z) i : 0 <= i -> drop (Z.to_nat i) l = a ++ r -> a <> [] -> l.[i] = hd 0 a.
Proof.
  intros Hi E Ha. replace i with (i + 0) by lia. rewrite <- zget_drop, E by lia. by destruct a.
Qed.
(** The first byte of a serial type tells small types apart. *)
Lemma first_byte v : 0 <= v < 2 ^ 56 -> let b := hd 0 (varint_enc v) in varint_enc v <> [] /\ 0 <= b < 256 /\ (if v <? 128 then b = v else 128 <= b).
Proof.
  intros Hv b. pose proof (varint_enc_len v ltac:(unfold is_u64; lia)) as Hl.
  assert (Hne : varint_enc v <> []) by (intros E; rewrite E, zlen_nil in Hl; lia). split; [done|].
  pose proof (varint_enc_bytes v) as Hb. split.
  { unfold b. destruct (varint_enc v) as [|x l]; [done|]. inversion Hb as [|? ? Hx]. cbn. unfold is_u8 in Hx. lia. }
  destruct (Z.ltb_spec v 128); [unfold b; by rewrite enc_small by lia|].
  apply Z.nlt_ge. intros Hlt. pose proof (varint_enc_dec v [] ltac:(unfold is_u64; lia)) as D. rewrite app_nil_r in D.
  unfold varint in D. cbn [varint_from] in D. unfold b in Hlt. destruct (varint_enc v) as [|x l] eqn:E; [done|]. rewrite zget_cons_0 in D. cbn [hd] in Hlt.
  rewrite (proj2 (Z.ltb_lt x 128)) in D by lia. injection D as _ D. lia.
Qed.

Lemma EIGHT_lor v pad : is_u64 v ->
  Z.lor (u64 (Z.shiftl (FOUR_BYTE_UINT (be 8 v ++ pad)) 32)) (FOUR_BYTE_UINT (drop 4 (be 8 v ++ pad))) = v.
Proof.
  intros Hv. change (be 8 v) with (be (4 + 4) v). rewrite (be_app 4 4 v), <- app_assoc. change (256 ^ Z.of_nat 4) with (2 ^ 32).
  rewrite UFOUR_be, drop_app_length' by done. rewrite UFOUR_be.
  assert (Es : u64 (Z.shiftl (v / 2 ^ 32 mod 2 ^ 32) 32) = Z.shiftl (v / 2 ^ 32 mod 2 ^ 32) 32) by (rewrite Z.shiftl_mul_pow2 by lia; zwlia).
  rewrite Es, lor_shiftl_add by (Z.div_mod_to_equations; lia). zwlia.
Qed.
Lemma decode_int_ok fmt i pad m : is_i64 i -> bytes_ok pad ->
  vdbeRecordDecodeInt (int_stype fmt i) (sdata fmt (VInt i) ++ pad) = i /\
  (is_u64 (m_u m) -> u_i (sqlite3VdbeSerialGet (sdata fmt (VInt i) ++ pad) (int_stype fmt i) m) = i).
Proof.
  intros Hi Hp. split.
  - unfold int_stype, sdata, int_stype. destruct (within 7 i) eqn:W7.
    { destruct (_ && _) eqn:E01; [|rewrite be_mod by (vm_compute; lia); by apply ONE_be].
      apply andb_true_iff in E01 as [_ E]. by apply orb_true_iff in E as [->%Z.eqb_eq | ->%Z.eqb_eq]. }
    destruct (within 15 i) eqn:W15; [rewrite be_mod by (vm_compute; lia); by apply TWO_be|].
    destruct (within 23 i) eqn:W23; [rewrite be_mod by (vm_compute; lia); by apply THREE_be|].
    destruct (within 31 i) eqn:W31.
    { rewrite be_mod by (vm_compute; lia). change (vdbeRecordDecodeInt 4 ?x) with (i32 (FOUR_BYTE_UINT x)).
      change (Z.to_nat sqlite3SmallTypeSizes.[4]) with 4%nat. rewrite UFOUR_be. apply within_range in W31. zwlia. }
    destruct (within 47 i) eqn:W47; [rewrite be_mod by (vm_compute; lia); by apply SIX_be|].
    change (Z.to_nat sqlite3SmallTypeSizes.[6]) with 8%nat.
    change (vdbeRecordDecodeInt 6 ?x) with (i64 (Z.lor (u64 (Z.shiftl (FOUR_BYTE_UINT x) 32)) (FOUR_BYTE_UINT (drop 4 x)))).
    rewrite EIGHT_lor by apply u64_range. by apply i64_u64.
  - intros Hu. destruct (serial_get_ok fmt (VInt i) m pad Hi Hu Hp) as (E & _). cbn [stype] in E. set (m' := sqlite3VdbeSerialGet _ _ _) in *. unfold val_of in E.
    destruct (has (m_flags m') MEM_Null); [done|]. destruct (_ || _); [by injection E|]. destruct (has (m_flags m') MEM_Real); [done|]. by destruct (has (m_flags m') MEM_Str).
Qed.

(** ** Comparing one field *)

Definition field_result (coll : option CollSeq) (fmt : Z) (v k : sval) (err : Z) (r : option (Z * Z * Z)) : Prop :=
  exists rc t, r = Some (rc, t, err) /\ (rc ?= 0) = val_cmp coll v k /\ (t =? 0) = is_null v /\ (rc = 0 -> t = stype fmt v).

Lemma text_type fmt v s : v = VText s -> has (stype fmt v) 1 = true /\ (stype fmt v - 12) / 2 = zlen s.
Proof.
  intros ->. cbn [stype]. unfold has, truthy. rewrite land_1. pose proof (zlen_nonneg s). split; [zbool|]; Z.div_mod_to_equations; lia.
Qed.
Lemma blob_type fmt v s : v = VBlob s -> has (stype fmt v) 1 = false /\ (stype fmt v - 12) / 2 = zlen s.
Proof.
  intros ->. cbn [stype]. unfold has, truthy. rewrite land_1. pose proof (zlen_nonneg s). split; [zbool|]; Z.div_mod_to_equations; lia.
Qed.
Lemma take_data (s r : list Z) : take (Z.to_nat (zlen s)) (s ++ r) = s.
Proof. unfold zlen. rewrite Nat2Z.id. apply take_app_length. Qed.

Section field.
Variable svt : Mem -> Z -> option (list Z).
Context (fmt : Z) (aKey pad : list Z) (nKey szHdr : Z) (v : sval) (vs : list sval) (d idx : Z) (p : UnpackedRecord) (i : Z).
Hypothesis Hstore : Forall storable (v :: vs).
Hypothesis Hpad : bytes_ok pad.
Hypothesis Hup : unpacking fmt aKey pad nKey szHdr (v :: vs) d idx.
Hypothesis Hall : i < nAllField (pKeyInfo p).
Let pRhs := (aMem p).[i].
Let coll := (aColl (pKeyInfo p)).[i].
Hypothesis Hrhs : comparable coll pRhs.
Hypothesis Henc : forall c, coll = Some c -> ki_enc (pKeyInfo p) = c_enc c.
Let rest := data fmt vs ++ pad.
Let result : Prop := field_result coll fmt v (val_of pRhs) (errCode p) (compare_field svt nKey aKey p i idx d).

Lemma field_data : drop (Z.to_nat d) aKey = sdata fmt v ++ rest /\ bytes_ok rest /\ 0 <= d /\ d + zlen (sdata fmt v) <= nKey /\ nKey < 2 ^ 31.
Proof.
  destruct Hup as [_ _ [H6 H7] [H8 H9]]. rewrite data_cons, <- app_assoc in H7. rewrite data_cons, zlen_app in H8.
  inversion Hstore. pose proof (zlen_nonneg (data fmt vs)). split_and!; try (done || lia). apply Forall_app. split; [by apply data_bytes|done].
Qed.
Lemma field_storable : storable v.
Proof. by inversion Hstore. Qed.
Lemma field_type : snd (getVarint32 (drop (Z.to_nat idx) aKey)) = stype fmt v.
Proof.
  destruct Hup as [[H1 (r & H2 & H3)] _ _ _]. rewrite H2, types_cons, <- app_assoc.
  pose proof (stype_range fmt v field_storable) as Hr. unfold MAX_LENGTH in Hr.
  rewrite get_varint32_enc; [done|lia|]. apply Forall_app. split; [apply types_bytes|done].
Qed.
Lemma field_byte : if stype fmt v <? 128 then aKey.[idx] = stype fmt v else 128 <= aKey.[idx].
Proof.
  destruct Hup as [[H1 (r & H2 & H3)] _ _ _]. rewrite types_cons, <- app_assoc in H2.
  pose proof (stype_range fmt v field_storable) as Hr. unfold MAX_LENGTH in Hr.
  destruct (first_byte (stype fmt v) ltac:(lia)) as (Hne & Hb & Hif). by rewrite (zget_drop_hd _ _ _ _ H1 H2 Hne).
Qed.

(** A string or blob field is past the numbers. *)
Lemma byte_text : 12 <= stype fmt v -> 10 < aKey.[idx].
Proof. intros Ht. pose proof field_byte as Hb. destruct (Z.ltb_spec (stype fmt v) 128); lia. Qed.
Lemma byte_small : stype fmt v < 12 -> aKey.[idx] = stype fmt v.
Proof. intros Ht. pose proof field_byte as Hb. by rewrite (proj2 (Z.ltb_lt _ _)) in Hb by lia. Qed.

Lemma field_real r : v = VReal r -> serialGet7 (drop (Z.to_nat d) aKey) inhabitant = (false, set_flags (set_u inhabitant r) MEM_Real).
Proof.
  intros E. pose proof field_storable as Hs. destruct field_data as (Hd & _). rewrite Hd. rewrite E in *. cbn [sdata].
  destruct Hs as [Hr Hn]. unfold serialGet7. cbn zeta. by rewrite EIGHT_be, Hn.
Qed.

Lemma field_rhs_int : has (m_flags pRhs) MEM_Null = false -> has (m_flags pRhs) MEM_Int || has (m_flags pRhs) MEM_IntReal = true -> result.
Proof.
  unfold result.  intros Hn Hi. assert (Ev : val_of pRhs = VInt (u_i pRhs)) by (unfold val_of; by rewrite Hn, Hi).
  pose proof field_storable as Hs. destruct field_data as (Hd & Hrb & _). pose proof (u_i_range pRhs) as Hr.
  unfold compare_field. cbv zeta. fold pRhs. rewrite has_lor, Hi, Ev. eexists _, _. split; [reflexivity|].
  pose proof byte_text as HT. pose proof byte_small as HS. pose proof field_real as HR. destruct v as [|j|r|s|s] eqn:Evv; cbn [stype] in HT, HS.
  - rewrite HS by lia. done.
  - cbn [storable] in Hs. pose proof (int_stype_range fmt j) as Hj. rewrite HS by lia.
    destruct (decode_int_ok fmt j rest inhabitant Hs Hrb) as [E _].
    rewrite (proj2 (Z.leb_gt 10 _)), (proj2 (Z.eqb_neq _ 0)), (proj2 (Z.eqb_neq _ 7)) by lia. rewrite Hd, E.
    fold (int_cmp j (u_i pRhs)). rewrite int_cmp_ok. split; [cbn; by rewrite scale_cmp|]. split; [done|]. done.
  - rewrite HS by lia. change (10 <=? 7) with false. change (7 =? 0) with false. change (7 =? 7) with true. cbn iota.
    rewrite (HR r eq_refl). cbn beta iota. change (u_r _) with r.
    destruct Hs as [Hr64 Hnan]. rewrite opp_cmp, int_float_ok by done. split; [symmetry; apply Z.compare_antisym|]. done.
  - specialize (HT ltac:(pose proof (zlen_nonneg s); lia)). rewrite (proj2 (Z.leb_le 10 _)), (proj2 (Z.eqb_neq _ 10)), (proj2 (Z.eqb_neq _ 0)) by lia. done.
  - specialize (HT ltac:(pose proof (zlen_nonneg s); lia)). rewrite (proj2 (Z.leb_le 10 _)), (proj2 (Z.eqb_neq _ 10)), (proj2 (Z.eqb_neq _ 0)) by lia. done.
Qed.

Lemma field_rhs_real : has (m_flags pRhs) MEM_Null = false -> has (m_flags pRhs) MEM_Real = true -> result.
Proof.
  unfold result.  intros Hn Hf. destruct Hrhs as (Hm & _). destruct (mo_real _ Hm Hf) as (Hi & Hj & Hnan).
  assert (Ev : val_of pRhs = VReal (u_r pRhs)) by (unfold val_of; by rewrite Hn, Hi, Hj, Hf).
  pose proof field_storable as Hs. destruct field_data as (Hd & Hrb & _).
  unfold compare_field. cbv zeta. fold pRhs. rewrite has_lor, Hi, Hj, Hf, Ev. cbn [orb]. eexists _, _. split; [reflexivity|].
  pose proof byte_text as HT. pose proof byte_small as HS. pose proof field_real as HR. destruct v as [|j|r|s|s] eqn:Evv; cbn [stype] in HT, HS.
  - rewrite HS by lia. done.
  - cbn [storable] in Hs. pose proof (int_stype_range fmt j) as Hjr. rewrite HS by lia.
    destruct (decode_int_ok fmt j rest inhabitant Hs Hrb) as [_ E].
    rewrite (proj2 (Z.leb_gt 10 _)), (proj2 (Z.eqb_neq _ 0)), (proj2 (Z.eqb_neq _ 7)) by lia. rewrite Hd, E by by_compute.
    rewrite int_float_ok by done. done.
  - rewrite HS by lia. change (10 <=? 7) with false. change (7 =? 0) with false. change (7 =? 7) with true. cbn iota.
    rewrite (HR r eq_refl). cbn beta iota. change (u_r (set_flags _ _)) with r. fold (real_cmp r (u_r pRhs)).
    destruct Hs as [Hr64 Hrn]. rewrite real_cmp_ok by done. done.
  - specialize (HT ltac:(pose proof (zlen_nonneg s); lia)). rewrite (proj2 (Z.leb_le 10 _)), (proj2 (Z.eqb_neq _ 10)), (proj2 (Z.eqb_neq _ 0)) by lia. done.
  - specialize (HT ltac:(pose proof (zlen_nonneg s); lia)). rewrite (proj2 (Z.leb_le 10 _)), (proj2 (Z.eqb_neq _ 10)), (proj2 (Z.eqb_neq _ 0)) by lia. done.
Qed.

Lemma field_rhs_null : has (m_flags pRhs) MEM_Null = true -> has (m_flags pRhs) (Z.lor MEM_Int MEM_IntReal) = false ->
  has (m_flags pRhs) MEM_Real = false -> has (m_flags pRhs) MEM_Str = false -> has (m_flags pRhs) MEM_Blob = false -> result.
Proof.
  unfold result.  intros Hn Hi Hf Hst Hb. assert (Ev : val_of pRhs = VNull) by (unfold val_of; by rewrite Hn).
  pose proof field_storable as Hs. unfold compare_field. cbv zeta. fold pRhs. rewrite Hi, Hf, Hst, Hb, Ev. eexists _, _. split; [reflexivity|].
  pose proof byte_text as HT. pose proof byte_small as HS. pose proof field_real as HR. destruct v as [|j|r|s|s] eqn:Evv; cbn [stype] in HT, HS.
  - rewrite HS by lia. done.
  - pose proof (int_stype_range fmt j) as Hjr. rewrite HS by lia.
    rewrite (proj2 (Z.eqb_neq _ 0)), (proj2 (Z.eqb_neq _ 10)), (proj2 (Z.eqb_neq _ 7)) by lia. done.
  - rewrite HS by lia. change (7 =? 0) with false. change (7 =? 10) with false. change (7 =? 7) with true. cbn [orb andb]. by rewrite (HR r eq_refl).
  - specialize (HT ltac:(pose proof (zlen_nonneg s); lia)). rewrite (proj2 (Z.eqb_neq _ 0)), (proj2 (Z.eqb_neq _ 10)), (proj2 (Z.eqb_neq _ 7)) by lia. done.
  - specialize (HT ltac:(pose proof (zlen_nonneg s); lia)). rewrite (proj2 (Z.eqb_neq _ 0)), (proj2 (Z.eqb_neq _ 10)), (proj2 (Z.eqb_neq _ 7)) by lia. done.
Qed.

Lemma field_rhs_text : has (m_flags pRhs) MEM_Null = false -> has (m_flags pRhs) (Z.lor MEM_Int MEM_IntReal) = false ->
  has (m_flags pRhs) MEM_Real = false -> has (m_flags pRhs) MEM_Str = true -> result.
Proof.
  unfold result.  intros Hn Hi Hf Hst. rewrite has_lor in Hi. set (s2 := take (Z.to_nat (m_n pRhs)) (z_bytes pRhs)).
  assert (Ev : val_of pRhs = VText s2) by (unfold val_of; by rewrite Hn, Hi, Hf, Hst).
  pose proof field_storable as Hs. destruct field_data as (Hd & Hrb & Hd0 & Hdn & Hn31). destruct Hrhs as (Hm & _ & Hce).
  assert (Hsg : stringy pRhs = true) by (unfold stringy; by rewrite Hst). destruct (mo_buf _ Hm Hsg) as [Hl2 Hb2].
  unfold compare_field. cbv zeta. fold pRhs. rewrite field_type, has_lor, Hi, Hf, Hst, Ev.
  pose proof (text_type fmt v) as HT. pose proof (blob_type fmt v) as HB. destruct v as [|j|r|s|s] eqn:Evv; rewrite <- Evv in *; cbn [stype] in *.
  - rewrite Evv. eexists _, _. split; [done|]. done.
  - pose proof (int_stype_range fmt j) as Hj. rewrite Evv. cbn [stype]. rewrite (proj2 (Z.ltb_lt _ 12)) by lia. eexists _, _. split; [done|].
    split; [done|]. split; [apply Z.eqb_neq; lia|done].
  - rewrite Evv. eexists _, _. split; [done|]. done.
  - destruct (HT s Evv) as [Eo El]. rewrite Eo, El. assert (Ht : 12 <= stype fmt v) by (rewrite Evv; cbn [stype]; pose proof (zlen_nonneg s); lia).
    rewrite (proj2 (Z.ltb_ge _ 12)) by lia. cbn [negb]. mem_cbn. rewrite Evv in Hdn, Hd, Hs. cbn [sdata storable] in Hdn, Hd, Hs. pose proof (zlen_nonneg s).
    assert (Eu : u32 (d + zlen s) = d + zlen s) by zwlia. rewrite Eu, (proj2 (Z.ltb_ge nKey _)), (proj2 (Z.leb_gt _ i)) by lia. cbn [orb].
    fold coll. unfold field_result. destruct coll as [c|] eqn:Ec.
    + unfold vdbeCompareMemString. mem_cbn. rewrite (Henc c eq_refl), Z.eqb_refl. eexists _, _. split; [done|]. fold s2. rewrite Hd, take_data, Evv. split; [done|].
      split; [|done]. rewrite Evv in Ht. by rewrite (proj2 (Z.eqb_neq _ 0)) by lia.
    + eexists _, _. split; [done|]. rewrite Hd. split; [|split; [|done]]; [|rewrite Evv in *; by rewrite (proj2 (Z.eqb_neq _ 0)) by lia].
      rewrite memcmp_length; [rewrite take_data; fold s2; by rewrite Evv|rewrite zlen_app; pose proof (zlen_nonneg rest); lia|done| |done].
      apply Forall_app. split; [apply Hs|done].
  - destruct (HB s Evv) as [Eo El]. rewrite Eo. assert (Ht : 12 <= stype fmt v) by (rewrite Evv; cbn [stype]; pose proof (zlen_nonneg s); lia).
    rewrite (proj2 (Z.ltb_ge _ 12)) by lia. cbn [negb]. eexists _, _. split; [done|]. rewrite Evv in *. split; [done|].
    split; [by rewrite (proj2 (Z.eqb_neq _ 0)) by lia|done].
Qed.

Lemma field_rhs_blob : has (m_flags pRhs) MEM_Null = false -> has (m_flags pRhs) (Z.lor MEM_Int MEM_IntReal) = false ->
  has (m_flags pRhs) MEM_Real = false -> has (m_flags pRhs) MEM_Str = false -> has (m_flags pRhs) MEM_Blob = true -> result.
Proof.
  unfold result.  intros Hn Hi Hf Hst Hbl. rewrite has_lor in Hi.
  assert (Ev : val_of pRhs = VBlob (content pRhs)) by (unfold val_of; by rewrite Hn, Hi, Hf, Hst).
  pose proof field_storable as Hs. destruct field_data as (Hd & Hrb & Hd0 & Hdn & Hn31). destruct Hrhs as (Hm & Hpz & _).
  assert (Hsg : stringy pRhs = true) by (unfold stringy; rewrite Hbl; apply orb_true_r). destruct (mo_buf _ Hm Hsg) as [Hl2 Hb2].
  unfold compare_field. cbv zeta. fold pRhs. rewrite field_type, has_lor, Hi, Hf, Hst, Hbl, Ev.
  pose proof (text_type fmt v) as HT. pose proof (blob_type fmt v) as HB. destruct v as [|j|r|s|s] eqn:Evv; rewrite <- Evv in *; cbn [stype] in *.
  - rewrite Evv. eexists _, _. split; [done|]. done.
  - pose proof (int_stype_range fmt j) as Hj. rewrite Evv. cbn [stype]. rewrite (proj2 (Z.ltb_lt _ 12)) by lia. eexists _, _. split; [done|].
    split; [done|]. split; [apply Z.eqb_neq; lia|done].
  - rewrite Evv. eexists _, _. split; [done|]. done.
  - destruct (HT s Evv) as [Eo El]. rewrite Eo, orb_true_r. assert (Ht : 12 <= stype fmt v) by (rewrite Evv; cbn [stype]; pose proof (zlen_nonneg s); lia).
    eexists _, _. split; [done|]. rewrite Evv in *. split; [done|]. split; [by rewrite (proj2 (Z.eqb_neq _ 0)) by lia|done].
  - destruct (HB s Evv) as [Eo El]. rewrite Eo, El. assert (Ht : 12 <= stype fmt v) by (rewrite Evv; cbn [stype]; pose proof (zlen_nonneg s); lia).
    rewrite (proj2 (Z.ltb_ge _ 12)) by lia. cbn [orb]. rewrite Evv in Hdn, Hd, Hs. cbn [sdata storable] in Hdn, Hd, Hs. pose proof (zlen_nonneg s).
    assert (Eu : u32 (d + zlen s) = d + zlen s) by zwlia. rewrite Eu, (proj2 (Z.ltb_ge nKey _)) by lia. rewrite Hd.
    assert (Hsb : bytes_ok (s ++ rest)) by (apply Forall_app; split; [apply Hs|done]).
    assert (Hsl : 0 <= zlen s <= zlen (s ++ rest)) by (rewrite zlen_app; pose proof (zlen_nonneg rest); lia).
    unfold content. destruct (has (m_flags pRhs) MEM_Zero) eqn:EZ; (eexists _, _; split; [done|]; split; [|split; [|done]]; [|rewrite Evv in *; by rewrite (proj2 (Z.eqb_neq _ 0)) by lia]).
    + rewrite (Hpz EZ). change (Z.to_nat 0) with O. rewrite take_0. cbn [app]. destruct (mo_zero _ Hm EZ) as [_ Hz].
      rewrite zeros_against by done. rewrite take_data. by rewrite Evv.
    + rewrite memcmp_length by done. rewrite take_data, app_nil_r. by rewrite Evv.
Qed.

(** Flags of a key's cell: one type, or a number with its text. *)
Lemma compare_field_ok : (has (m_flags pRhs) MEM_Null = true -> has (m_flags pRhs) (Z.lor MEM_Int MEM_IntReal) = false /\
  has (m_flags pRhs) MEM_Real = false /\ has (m_flags pRhs) MEM_Str = false /\ has (m_flags pRhs) MEM_Blob = false) -> result.
Proof.
  unfold result.  intros Hnull. destruct (has (m_flags pRhs) MEM_Null) eqn:Hn; [destruct (Hnull eq_refl) as (? & ? & ? & ?); by apply field_rhs_null|].
  destruct (has (m_flags pRhs) MEM_Int || has (m_flags pRhs) MEM_IntReal) eqn:Hi; [by apply field_rhs_int|].
  destruct (has (m_flags pRhs) MEM_Real) eqn:Hf; [by apply field_rhs_real|].
  destruct (has (m_flags pRhs) MEM_Str) eqn:Hs; [apply field_rhs_text; [done|by rewrite has_lor|done|done]|].
  apply field_rhs_blob; [done|by rewrite has_lor|done|done|].
  destruct Hrhs as (Hm & _). pose proof (mo_type _ Hm) as T. apply orb_false_iff in Hi as [Hi Hj]. by rewrite Hn, Hi, Hj, Hf, Hs in T.
Qed.
End field.

(** ** Comparing a whole key *)

Definition key_columns (p : UnpackedRecord) (i : Z) : list column :=
  (fun j => ((aSortFlags (pKeyInfo p)).[j], (aColl (pKeyInfo p)).[j])) <$> seqZ i (nField p - i).
Definition key_values (p : UnpackedRecord) (i : Z) : list sval := (fun j => val_of (aMem p).[j]) <$> seqZ i (nField p - i).

Definition key_cell (ki : KeyInfo) (i : Z) (m : Mem) : Prop :=
  comparable ki.(aColl).[i] m /\ only_null (m_flags m) /\ 0 <= (aSortFlags ki).[i] <= 3 /\
  forall c, (aColl ki).[i] = Some c -> ki_enc ki = c_enc c.
Record key_ok (p : UnpackedRecord) : Prop := {
  ko_n : 1 <= nField p <= nAllField (pKeyInfo p);
  ko_len : nField p <= zlen (aMem p) /\ nAllField (pKeyInfo p) <= zlen (aColl (pKeyInfo p)) /\ nAllField (pKeyInfo p) <= zlen (aSortFlags (pKeyInfo p));
  ko_cell i : 0 <= i < nField p -> key_cell (pKeyInfo p) i (aMem p).[i] }.

(** What a routine returns for an outcome: a result of the right sign, [default_rc] and
    [eqSeen], or [errCode]. *)
Definition answers (p : UnpackedRecord) (o : outcome) (r : Z * UnpackedRecord) : Prop :=
  match o with
  | Differ c => (fst r ?= 0) = c /\ c <> Eq /\ snd r = p
  | Same => r = (default_rc p, set_eqSeen p)
  | Short => r = (0, set_errCode p SQLITE_CORRUPT)
  end.

Lemma key_columns_cons p i : 0 <= i < nField p -> key_columns p i = ((aSortFlags (pKeyInfo p)).[i], (aColl (pKeyInfo p)).[i]) :: key_columns p (i + 1).
Proof. intros Hi. unfold key_columns. rewrite (seqZ_cons i) by lia. rewrite fmap_cons. do 3 f_equal; lia. Qed.
Lemma key_values_cons p i : 0 <= i < nField p -> key_values p i = val_of (aMem p).[i] :: key_values p (i + 1).
Proof. intros Hi. unfold key_values. rewrite (seqZ_cons i) by lia. rewrite fmap_cons. do 3 f_equal; lia. Qed.
Lemma key_values_end p : key_values p (nField p) = [].
Proof. unfold key_values. by rewrite Z.sub_diag. Qed.
Lemma key_values_nil p i : 0 <= i < nField p -> key_values p i <> [].
Proof. intros Hi. by rewrite key_values_cons. Qed.

Lemma apply_sort_ok f null rc : 0 <= f <= 3 -> (apply_sort f null rc ?= 0) =
  if xorb (has f KEYINFO_ORDER_DESC) (has f KEYINFO_ORDER_BIGNULL && null) then CompOpp (rc ?= 0) else (rc ?= 0).
Proof.
  intros Hf. assert (f = 0 \/ f = 1 \/ f = 2 \/ f = 3) as [-> |[-> |[-> | ->]]] by lia; destruct null; unfold apply_sort;
    cbn [b2z]; try done; try apply opp_cmp.
Qed.
Lemma set_errCode_id p : set_errCode p (errCode p) = p.
Proof. by destruct p. Qed.

Section whole.
Variable svt : Mem -> Z -> option (list Z).
Context (fmt : Z) (aKey pad : list Z) (nKey szHdr : Z) (p : UnpackedRecord).
Hypothesis Hpad : bytes_ok pad.
Hypothesis Hkey : key_ok p.

Lemma field_null_rhs i : 0 <= i < nField p -> has (m_flags (aMem p).[i]) MEM_Null = is_null (val_of (aMem p).[i]).
Proof.
  intros Hi. unfold val_of. destruct (has _ MEM_Null); [done|]. destruct (_ || _); [done|]. destruct (has (m_flags (aMem p).[i]) MEM_Real); [done|].
  by destruct (has (m_flags (aMem p).[i]) MEM_Str).
Qed.

Lemma compare_loop_ok fuel v vs d idx i : Forall storable (v :: vs) -> unpacking fmt aKey pad nKey szHdr (v :: vs) d idx ->
  0 <= i < nField p -> (length (v :: vs) <= fuel)%nat ->
  answers p (compare_spec (key_columns p i) (v :: vs) (key_values p i)) (compare_loop svt fuel nKey aKey p szHdr i idx d).
Proof.
  revert v vs d idx i. induction fuel as [|fuel IH]; intros v vs d idx i Hs Hup Hi Hf; cbn [length] in Hf; [lia|].
  destruct (ko_cell p Hkey i Hi) as (Hc & Hon & Hso & He). pose proof (ko_n p Hkey) as Hn.
  destruct (compare_field_ok svt fmt aKey pad nKey szHdr v vs d idx p i Hs Hpad Hup ltac:(lia) Hc He Hon) as (rc & t & E & Ec & Et & Er).
  cbn [compare_loop]. rewrite E, set_errCode_id, key_columns_cons, key_values_cons by done. cbn [compare_spec].
  rewrite Et, field_null_rhs by done. unfold field_cmp. rewrite <- Ec. unfold truthy.
  destruct (Z.eqb_spec rc 0) as [E0|E0]; cbn [negb].
  2: { pose proof (apply_sort_ok (aSortFlags (pKeyInfo p)).[i] (is_null v || is_null (val_of (aMem p).[i])) rc Hso) as ES.
       destruct (if xorb _ _ then _ else _) eqn:EX; [exfalso|by split|by split].
       destruct (Z.compare_spec rc 0), (xorb _ _); done || lia. }
  rewrite E0, (Z.compare_refl 0). set (x := xorb _ _). assert (Ex : (if x then CompOpp Eq else Eq) = Eq) by (by destruct x). rewrite Ex. clear x Ex.
  destruct (Z.eqb_spec (i + 1) (nField p)) as [En|En]; [by rewrite En, key_values_end|].
  pose proof (key_values_nil p (i + 1) ltac:(lia)) as Hne. destruct (key_values p (i + 1)) as [|k ks] eqn:Ek; [done|]. rewrite <- Ek.
  pose proof (unpacking_next _ _ _ _ _ _ _ _ _ Hup) as Hnext. rewrite (Er E0), typelen_ok.
  inversion Hs as [|? ? Hv Hs']; subst. destruct (type_varint fmt v Hv) as (_ & Hlv & ->).
  pose proof Hnext as [Hn1 Hn2 Hn3 Hn4]. pose proof (zlen_nonneg (data fmt vs)). pose proof (zlen_nonneg (types fmt vs)).
  assert (Ed : u32 (d + zlen (sdata fmt v)) = d + zlen (sdata fmt v)) by (unfold u32; apply Z.mod_small; lia).
  assert (Ei : u32 (idx + zlen (varint_enc (stype fmt v))) = idx + zlen (varint_enc (stype fmt v))) by (unfold u32; apply Z.mod_small; lia).
  rewrite Ed, Ei, (proj2 (Z.ltb_ge nKey _)) by lia. destruct vs as [|v2 vs].
  { destruct Hn2 as [Hn2 _]. change (types fmt []) with (@nil Z) in Hn2. rewrite zlen_nil in Hn2. by rewrite (proj2 (Z.leb_le szHdr _)) by lia. }
  inversion Hs' as [|? ? Hv2 _]; subst. destruct (type_varint fmt v2 Hv2) as (_ & Hlv2 & _).
  rewrite types_cons, zlen_app in Hn2. pose proof (zlen_nonneg (types fmt vs)).
  rewrite (proj2 (Z.leb_gt szHdr _)) by lia. apply IH; [done|done|lia|cbn [length] in *; lia].
Qed.
End whole.

(** A record with the bytes that follow it in memory. *)
Record record_at (fmt : Z) (vs : list sval) (pad : list Z) : Prop := {
  ra_vals : Forall storable vs;
  ra_fields : 1 <= zlen vs <= MAX_FIELDS;
  ra_len : zlen (record fmt vs) < 2 ^ 31;
  ra_pad : bytes_ok pad }.

Section routines.
Variable svt : Mem -> Z -> option (list Z).
Context (fmt : Z) (vs : list sval) (pad : list Z) (p : UnpackedRecord).
Hypothesis Hrec : record_at fmt vs pad.
Hypothesis Hkey : key_ok p.
Let nKey := zlen (record fmt vs).
Let aKey := record fmt vs ++ pad.
Let h := header_size (zlen (types fmt vs)).

Lemma start : getVarint32 aKey = (zlen (varint_enc h), h) /\ unpacking fmt aKey pad nKey h vs h (zlen (varint_enc h)) /\ 0 <= h <= nKey /\ nKey < 2 ^ 31.
Proof.
  destruct Hrec as [H1 H2 H3 H4]. destruct (header_get fmt vs pad H1 ltac:(lia) H4) as (E & _ & _ & Eh & Hl).
  pose proof (unpacking_start fmt vs pad H1 ltac:(lia) H4 H3) as Hu. split; [done|]. split; [done|].
  pose proof (zlen_nonneg (types fmt vs)). fold h in Eh, Hl. destruct Hu as [_ [_ Hu] _ _]. fold h in Hu. fold nKey in Hu, H3. lia.
Qed.

(** Every field has a byte in the header. *)
Lemma fields_in_header : (length vs <= Z.to_nat h)%nat.
Proof.
  destruct start as (_ & [_ [Hu _] _ _] & Hh & _). pose proof (types_len fmt vs (ra_vals _ _ _ Hrec)).
  pose proof (zlen_nonneg (varint_enc h)). unfold zlen in *. lia.
Qed.

Lemma record_compare_ok : answers p (compare_spec (key_columns p 0) vs (key_values p 0)) (sqlite3VdbeRecordCompare svt nKey aKey p).
Proof.
  pose proof fields_in_header as HF. destruct start as (E & Hu & Hh & Hn). pose proof (ko_n p Hkey) as Hf. unfold sqlite3VdbeRecordCompare, sqlite3VdbeRecordCompareWithSkip.
  change (if aKey.[0] <? 128 then (1, aKey.[0]) else sqlite3GetVarint32 aKey) with (getVarint32 aKey). rewrite E.
  rewrite (proj2 (Z.ltb_ge nKey h)) by lia. destruct Hrec as [H1 H2 _ H4]. destruct vs as [|v vs'] eqn:Ev; [rewrite zlen_nil in H2; lia|].
  apply (compare_loop_ok svt fmt aKey pad nKey h p H4 Hkey); [done|done|lia|lia].
Qed.

(** A short header: its size is one byte. *)
Hypothesis Hshort : h < 128.
Lemma short_header : aKey.[0] = h /\ zlen (varint_enc h) = 1.
Proof.
  destruct start as (E & Hu & Hh & Hn). assert (E1 : varint_enc h = [h]) by (apply enc_small; lia). rewrite E1. split; [|done].
  unfold aKey, record. fold h. by rewrite E1.
Qed.

Lemma skip_ok v v2 vs' : vs = v :: v2 :: vs' -> 1 < nField p ->
  answers p (compare_spec (key_columns p 1) (v2 :: vs') (key_values p 1)) (sqlite3VdbeRecordCompareWithSkip svt nKey aKey p true).
Proof.
  intros Ev Hnf. pose proof fields_in_header as HF. destruct start as (E & Hu & Hh & Hn). destruct short_header as [E0 E1]. rewrite E1 in Hu.
  destruct Hrec as [H1 H2 _ H4]. rewrite Ev in H1, Hu, HF. inversion H1 as [|? ? Hv Hvs]; subst.
  pose proof (unpacking_next _ _ _ _ _ _ _ _ _ Hu) as Hnext. destruct (type_varint fmt v Hv) as (_ & Hlv & _).
  pose proof (stype_range fmt v Hv) as Hr. unfold MAX_LENGTH in Hr.
  assert (Es : (if aKey.[1] <? 128 then (aKey.[1], 2) else let '(n, s1) := sqlite3GetVarint32 (drop 1 aKey) in (s1, 1 + n)) =
    (stype fmt v, 1 + zlen (varint_enc (stype fmt v)))).
  { destruct Hu as [[_ (r & Hd & Hrb)] _ _ _]. rewrite types_cons, <- app_assoc in Hd.
    assert (G : getVarint32 (drop 1 aKey) = (zlen (varint_enc (stype fmt v)), stype fmt v)).
    { change (Z.to_nat 1) with 1%nat in Hd. rewrite Hd. apply get_varint32_enc; [lia|]. apply Forall_app. split; [apply types_bytes|done]. }
    unfold getVarint32 in G. pose proof (zget_drop aKey 1 0 ltac:(lia) ltac:(lia)) as Z1. change (Z.to_nat 1) with 1%nat in Z1. rewrite Z1 in G. change (1 + 0) with 1 in G.
    destruct (aKey.[1] <? 128); [injection G as G1 G2; by rewrite G2, <- G1|by rewrite G]. }
  unfold sqlite3VdbeRecordCompareWithSkip. rewrite Es, E0, typelen_ok.
  destruct Hnext as [N1 N2 N3 N4] eqn:EN. clear EN. pose proof (zlen_nonneg (data fmt (v2 :: vs'))). pose proof (zlen_nonneg (sdata fmt v)).
  assert (Ed : u32 (h + zlen (sdata fmt v)) = h + zlen (sdata fmt v)) by (unfold u32; apply Z.mod_small; lia). rewrite Ed, (proj2 (Z.ltb_ge nKey _)) by lia.
  apply (compare_loop_ok svt fmt aKey pad nKey h p H4 Hkey); [done|done|lia|].
  cbn [length] in *. lia.
Qed.

(** What the fast routines do after an equal first field. *)
Lemma tail_ok v vs' k ks : vs = v :: vs' -> nField p = 1 \/ 1 < zlen vs -> key_values p 0 = k :: ks ->
  field_cmp (aSortFlags (pKeyInfo p)).[0] (aColl (pKeyInfo p)).[0] v k = Eq ->
  answers p (compare_spec (key_columns p 0) vs (key_values p 0))
    (if 1 <? nField p then sqlite3VdbeRecordCompareWithSkip svt nKey aKey p true else (default_rc p, set_eqSeen p)).
Proof.
  intros Ev Hnv Ek Ec. pose proof (ko_n p Hkey) as Hf. rewrite Ek, key_columns_cons, Ev by lia. cbn [compare_spec]. rewrite Ec.
  rewrite key_values_cons in Ek by lia. injection Ek as _ Ek. change (0 + 1) with 1 in *.
  destruct (Z.ltb_spec 1 (nField p)).
  - rewrite Ev, zlen_cons in Hnv. destruct vs' as [|v2 vs']; [rewrite zlen_nil in Hnv; lia|].
    assert (ks <> []) by (rewrite <- Ek; apply key_values_nil; lia). destruct ks as [|k2 ks]; [done|]. rewrite <- Ek. by apply (skip_ok v v2 vs').
  - assert (ks = []) as -> by (rewrite <- Ek; replace 1 with (nField p) by lia; apply key_values_end). done.
Qed.

(** The first column is not BIGNULL and [r1], [r2] are the answers for less and greater. *)
Let f0 := (aSortFlags (pKeyInfo p)).[0].
Let coll0 := (aColl (pKeyInfo p)).[0].
Hypothesis Hr : f0 = 0 /\ p_r1 p = -1 /\ p_r2 p = 1 \/ f0 = 1 /\ p_r1 p = 1 /\ p_r2 p = -1.
Hypothesis Hlong : nField p = 1 \/ 1 < zlen vs.

Lemma first_cmp v k : field_cmp f0 coll0 v k = if f0 =? 0 then val_cmp coll0 v k else CompOpp (val_cmp coll0 v k).
Proof. unfold field_cmp. destruct Hr as [[-> _]|[-> _]]; done. Qed.
Lemma decided_lt v vs' k ks : vs = v :: vs' -> key_values p 0 = k :: ks -> val_cmp coll0 v k = Lt ->
  answers p (compare_spec (key_columns p 0) vs (key_values p 0)) (p_r1 p, p).
Proof.
  intros Ev Ek Ec. pose proof (ko_n p Hkey). rewrite Ek, key_columns_cons, Ev by lia. cbn [compare_spec]. fold f0 coll0. rewrite first_cmp, Ec.
  destruct Hr as [(-> & -> & _)|(-> & -> & _)]; done.
Qed.
Lemma decided_gt v vs' k ks : vs = v :: vs' -> key_values p 0 = k :: ks -> val_cmp coll0 v k = Gt ->
  answers p (compare_spec (key_columns p 0) vs (key_values p 0)) (p_r2 p, p).
Proof.
  intros Ev Ek Ec. pose proof (ko_n p Hkey). rewrite Ek, key_columns_cons, Ev by lia. cbn [compare_spec]. fold f0 coll0. rewrite first_cmp, Ec.
  destruct Hr as [(-> & _ & ->)|(-> & _ & ->)]; done.
Qed.
Lemma decided_eq v vs' k ks : vs = v :: vs' -> key_values p 0 = k :: ks -> val_cmp coll0 v k = Eq ->
  answers p (compare_spec (key_columns p 0) vs (key_values p 0))
    (if 1 <? nField p then sqlite3VdbeRecordCompareWithSkip svt nKey aKey p true else (default_rc p, set_eqSeen p)).
Proof.
  intros Ev Ek Ec. apply (tail_ok v vs' k ks Ev Hlong Ek). fold f0 coll0. rewrite first_cmp, Ec. by destruct (f0 =? 0).
Qed.

Lemma key_first : exists ks, key_values p 0 = val_of (aMem p).[0] :: ks.
Proof. pose proof (ko_n p Hkey). eexists. apply key_values_cons. lia. Qed.

Lemma record_cons : exists v vs', vs = v :: vs'.
Proof. pose proof (ra_fields _ _ _ Hrec) as Hf. destruct vs as [|v vs']; [rewrite zlen_nil in Hf; lia|by eexists _, _]. Qed.
Lemma header_byte v vs' : vs = v :: vs' ->
  (if stype fmt v <? 128 then aKey.[1] = stype fmt v else 128 <= aKey.[1] < 256) /\
  getVarint32 (drop 1 aKey) = (zlen (varint_enc (stype fmt v)), stype fmt v) /\
  drop (Z.to_nat h) aKey = sdata fmt v ++ data fmt vs' ++ pad /\ h + zlen (sdata fmt v) <= nKey /\ 0 <= h.
Proof.
  intros Ev. destruct start as (E & Hu & Hh & Hn). destruct short_header as [E0 E1]. rewrite E1 in Hu. rewrite Ev in Hu.
  destruct Hrec as [H1 H2 _ H4]. rewrite Ev in H1. apply Forall_cons in H1 as [Hv Hvs].
  destruct Hu as [[_ (r & Hd & Hrb)] _ [_ Hdd] [Hnk _]]. rewrite types_cons, <- app_assoc in Hd. rewrite data_cons, <- app_assoc in Hdd.
  rewrite data_cons, zlen_app in Hnk. pose proof (zlen_nonneg (data fmt vs')).
  pose proof (stype_range fmt v Hv) as Hrg. unfold MAX_LENGTH in Hrg.
  destruct (first_byte (stype fmt v) ltac:(lia)) as (Hne & Hb & Hif).
  rewrite (zget_drop_hd aKey (varint_enc (stype fmt v)) _ 1 ltac:(lia) Hd Hne). change (Z.to_nat 1) with 1%nat in Hd. rewrite Hd.
  split; [destruct (stype fmt v <? 128); lia|]. split; [|split; [done|lia]].
  apply get_varint32_enc; [lia|]. apply Forall_app. split; [apply types_bytes|done].
Qed.

(** The switch of [vdbeRecordCompareInt] decodes what [vdbeRecordDecodeInt] does. *)
Lemma compare_int_ok : has (m_flags (aMem p).[0]) MEM_Int = true -> has (m_flags (aMem p).[0]) MEM_Null = false ->
  p_i p = u_i (aMem p).[0] -> (forall j vs', vs = VInt j :: vs' -> h < 64) ->
  answers p (compare_spec (key_columns p 0) vs (key_values p 0)) (vdbeRecordCompareInt svt nKey aKey p).
Proof.
  intros Hi Hn Hp Hh63. destruct key_first as [ks Ek].
  assert (Ev0 : val_of (aMem p).[0] = VInt (u_i (aMem p).[0])) by (unfold val_of; by rewrite Hn, Hi). rewrite Ev0 in Ek.
  destruct record_cons as (v & vs' & Evs).
  destruct (header_byte v vs' Evs) as (Hb & _ & Hd & Hdn & Hh0). pose proof (ra_vals _ _ _ Hrec) as Hst. rewrite Evs in Hst. apply Forall_cons in Hst as [Hv Hst'].
  destruct short_header as [E0 _]. unfold vdbeRecordCompareInt. rewrite E0, Hp.
  destruct v as [|j|r|s|s] eqn:Ev; cbn [stype] in Hb.
  - change (0 <? 128) with true in Hb. cbn iota in Hb. rewrite Hb. apply record_compare_ok.
  - pose proof (int_stype_range fmt j) as Hj. rewrite (proj2 (Z.ltb_lt _ 128)) in Hb by lia.
    assert (Eh : Z.land h 63 = h) by (change 63 with (Z.ones 6); rewrite Z.land_ones by lia; apply Z.mod_small; specialize (Hh63 j vs' Evs); lia).
    rewrite Eh, Hd, Hb. cbv zeta. cbn [storable] in Hv.
    destruct (decode_int_ok fmt j (data fmt vs' ++ pad) inhabitant Hv) as [Edec _].
    { apply Forall_app. split; [by apply data_bytes|apply Hrec]. }
    set (buf := sdata fmt (VInt j) ++ _) in *. set (t := int_stype fmt j) in *.
    assert (El : (if t =? 1 then Some (ONE_BYTE_INT buf) else if t =? 2 then Some (TWO_BYTE_INT buf) else if t =? 3 then Some (THREE_BYTE_INT buf)
      else if t =? 4 then Some (i32 (FOUR_BYTE_UINT buf)) else if t =? 5 then Some (FOUR_BYTE_UINT (drop 2 buf) + Z.shiftl 1 32 * TWO_BYTE_INT buf)
      else if t =? 6 then Some (i64 (Z.lor (u64 (Z.shiftl (FOUR_BYTE_UINT buf) 32)) (FOUR_BYTE_UINT (drop 4 buf))))
      else if t =? 8 then Some 0 else if t =? 9 then Some 1 else None) = Some j).
    { rewrite <- Edec. unfold vdbeRecordDecodeInt. rewrite (proj2 (Z.eqb_neq t 0)) by lia. cbn [orb].
      repeat match goal with |- context [t =? ?k] => destruct (Z.eqb_spec t k) as [->|?]; [reflexivity|] end. lia. }
    rewrite El. assert (Ec : val_cmp coll0 (VInt j) (VInt (u_i (aMem p).[0])) = (j ?= u_i (aMem p).[0])) by (cbn; apply scale_cmp).
    destruct (Z.compare_spec j (u_i (aMem p).[0])) as [E|E|E].
    + rewrite E, !Z.ltb_irrefl. rewrite E in Evs. apply (decided_eq _ _ _ _ Evs Ek). by rewrite <- E at 1.
    + rewrite (proj2 (Z.ltb_lt _ _)) by lia. by apply (decided_lt _ _ _ _ Evs Ek).
    + rewrite (proj2 (Z.ltb_ge _ _)), (proj2 (Z.ltb_lt _ j)) by lia. by apply (decided_gt _ _ _ _ Evs Ek).
  - change (7 <? 128) with true in Hb. cbn iota in Hb. rewrite Hb. apply record_compare_ok.
  - assert (10 < aKey.[1]) by (pose proof (zlen_nonneg s); destruct (_ <? 128); lia).
    repeat (rewrite (proj2 (Z.eqb_neq aKey.[1] _)) by lia). apply record_compare_ok.
  - assert (10 < aKey.[1]) by (pose proof (zlen_nonneg s); destruct (_ <? 128); lia).
    repeat (rewrite (proj2 (Z.eqb_neq aKey.[1] _)) by lia). apply record_compare_ok.
Qed.

Lemma compare_string_ok s2 : coll0 = None -> val_of (aMem p).[0] = VText s2 -> s2 = take (Z.to_nat (p_n p)) (p_z p) ->
  0 <= p_n p <= zlen (p_z p) -> bytes_ok (p_z p) ->
  answers p (compare_spec (key_columns p 0) vs (key_values p 0)) (vdbeRecordCompareString svt nKey aKey p).
Proof.
  intros Hc0 Ev0 Es2 Hl2 Hb2. destruct key_first as [ks Ek]. rewrite Ev0 in Ek.
  destruct record_cons as (v & vs' & Evs).
  destruct (header_byte v vs' Evs) as (Hb & Hg & Hd & Hdn & Hh0). pose proof (ra_vals _ _ _ Hrec) as Hst. rewrite Evs in Hst. apply Forall_cons in Hst as [Hv Hst'].
  destruct short_header as [E0 _]. pose proof (stype_range fmt v Hv) as Hrg. unfold MAX_LENGTH in Hrg.
  assert (Et : vdbeRecordCompareString svt nKey aKey p = compare_string svt nKey aKey p (stype fmt v)).
  { unfold vdbeRecordCompareString. unfold getVarint32 in Hg. pose proof (zget_drop aKey 1 0 ltac:(lia) ltac:(lia)) as Z1. change (Z.to_nat 1) with 1%nat in Z1.
    rewrite Z1 in Hg. change (1 + 0) with 1 in Hg. destruct (Z.ltb_spec (stype fmt v) 128).
    - rewrite Hb. assert (E8 : i8 (stype fmt v) = stype fmt v) by zwlia. by rewrite E8, (proj2 (Z.ltb_ge _ 0)) by lia.
    - assert (E8 : i8 aKey.[1] < 0) by zwlia. rewrite (proj2 (Z.ltb_lt _ 0)) by lia. rewrite (proj2 (Z.ltb_ge aKey.[1] 128)) in Hg by lia. rewrite Hg. cbn [snd].
      assert (E32 : i32 (stype fmt v) = stype fmt v) by zwlia. by rewrite E32. }
  rewrite Et. unfold compare_string. destruct v as [|j|r|s|s] eqn:Ev; cbn [stype].
  - by apply (decided_lt _ _ _ _ Evs Ek).
  - pose proof (int_stype_range fmt j) as Hj. rewrite (proj2 (Z.ltb_lt _ 12)) by lia. by apply (decided_lt _ _ _ _ Evs Ek).
  - by apply (decided_lt _ _ _ _ Evs Ek).
  - pose proof (zlen_nonneg s). destruct (text_type fmt (VText s) s eq_refl) as [Eo El]. cbn [stype] in Eo, El. rewrite (proj2 (Z.ltb_ge _ 12)), Eo, El by lia. cbn [negb].
    cbn [sdata] in Hd, Hdn. rewrite E0, (proj2 (Z.ltb_ge nKey _)) by lia. rewrite Hd. cbn [storable] in Hv.
    assert (HB : bytes_ok (s ++ data fmt vs' ++ pad)).
    { apply Forall_app. split; [apply Hv|]. apply Forall_app. split; [by apply data_bytes|apply Hrec]. }
    pose proof (memcmp_length (s ++ data fmt vs' ++ pad) (p_z p) (zlen s) (p_n p) ltac:(rewrite !zlen_app; pose proof (zlen_nonneg (data fmt vs')); pose proof (zlen_nonneg pad); lia) Hl2 HB Hb2) as HM.
    cbv zeta in HM. rewrite take_data, <- Es2 in HM. rewrite (Z.min_comm (p_n p)).
    set (res := memcmp _ _ _) in *. assert (Ec : val_cmp coll0 (VText s) (VText s2) = bytes_cmp s s2) by (by rewrite Hc0). rewrite <- Ec in HM.
    destruct (Z.ltb_spec 0 res); [rewrite (proj2 (Z.eqb_neq res 0)) in HM by lia; apply (decided_gt _ _ _ _ Evs Ek); rewrite <- HM; by apply Z.compare_gt_iff|].
    destruct (Z.ltb_spec res 0); [rewrite (proj2 (Z.eqb_neq res 0)) in HM by lia; apply (decided_lt _ _ _ _ Evs Ek); rewrite <- HM; by apply Z.compare_lt_iff|].
    rewrite (proj2 (Z.eqb_eq res 0)) in HM by lia. destruct (Z.eqb_spec (zlen s - p_n p) 0) as [E|E].
    + apply (decided_eq _ _ _ _ Evs Ek). by rewrite <- HM, E.
    + destruct (Z.ltb_spec 0 (zlen s - p_n p)); [apply (decided_gt _ _ _ _ Evs Ek); rewrite <- HM; by apply Z.compare_gt_iff|].
      apply (decided_lt _ _ _ _ Evs Ek). rewrite <- HM. apply Z.compare_lt_iff. lia.
  - pose proof (zlen_nonneg s). destruct (blob_type fmt (VBlob s) s eq_refl) as [Eo El]. cbn [stype] in Eo. rewrite (proj2 (Z.ltb_ge _ 12)), Eo by lia. cbn [negb].
    by apply (decided_gt _ _ _ _ Evs Ek).
Qed.
End routines.

(** ** The chosen routine *)

Lemma header_bounds fmt vs : Forall storable vs -> zlen vs <= 13 ->
  header_size (zlen (types fmt vs)) < 128 /\ (forall j vs', vs = VInt j :: vs' -> header_size (zlen (types fmt vs)) < 64).
Proof.
  intros Hs Hl. pose proof (types_len fmt vs Hs) as Ht. pose proof (zlen_nonneg vs).
  assert (Eh : header_size (zlen (types fmt vs)) = zlen (types fmt vs) + 1) by (unfold header_size; by rewrite (proj2 (Z.leb_le _ 126)) by lia).
  rewrite Eh. split; [lia|]. intros j vs' ->. inversion Hs as [|? ? _ Hs']; subst. pose proof (types_len fmt vs' Hs') as Ht'.
  rewrite types_cons, zlen_app. pose proof (int_stype_range fmt j) as Hj. cbn [stype]. rewrite enc_small by lia.
  rewrite zlen_cons in Hl. change (zlen [_]) with 1. lia.
Qed.

(** The key as [sqlite3VdbeFindCompare] leaves it: only caches differ. *)
Lemma find_compare_key p : let '(c, p1) := sqlite3VdbeFindCompare p in
  pKeyInfo p1 = pKeyInfo p /\ aMem p1 = aMem p /\ nField p1 = nField p /\ default_rc p1 = default_rc p /\ errCode p1 = errCode p /\ eqSeen p1 = eqSeen p.
Proof.
  unfold sqlite3VdbeFindCompare. destruct (_ <=? 13); [|done]. destruct (_ && _); [done|]. destruct (truthy _), (has (m_flags (aMem p).[0]) MEM_Int); try done;
    by destruct (_ && _).
Qed.
Lemma key_ok_ext p p1 : pKeyInfo p1 = pKeyInfo p -> aMem p1 = aMem p -> nField p1 = nField p -> key_ok p -> key_ok p1.
Proof. intros E1 E2 E3 [H1 H2 H3]. split; rewrite ?E1, ?E2, ?E3; done. Qed.

Lemma find_compare_ok svt fmt vs pad p : record_at fmt vs pad -> key_ok p -> zlen vs <= nAllField (pKeyInfo p) -> nField p = 1 \/ 1 < zlen vs ->
  let '(c, p1) := sqlite3VdbeFindCompare p in
  answers p1 (compare_spec (key_columns p 0) vs (key_values p 0)) (run_comparer svt c (zlen (record fmt vs)) (record fmt vs ++ pad) p1).
Proof.
  intros Hrec Hkey Hvs Hlong. pose proof (find_compare_key p) as HE. destruct (sqlite3VdbeFindCompare p) as [c p1] eqn:EF.
  destruct HE as (E1 & E2 & E3 & _). pose proof (key_ok_ext p p1 E1 E2 E3 Hkey) as Hkey1.
  assert (Ec : key_columns p 0 = key_columns p1 0) by (unfold key_columns; by rewrite E1, E3).
  assert (Ek : key_values p 0 = key_values p1 0) by (unfold key_values; by rewrite E2, E3). rewrite Ec, Ek.
  pose proof (ko_n p Hkey) as Hn. destruct (ko_cell p Hkey 0 ltac:(lia)) as (Hc & Hon & Hso & _).
  unfold sqlite3VdbeFindCompare in EF. destruct (Z.leb_spec (nAllField (pKeyInfo p)) 13); [|injection EF as <- <-; by apply record_compare_ok].
  destruct (header_bounds fmt vs (ra_vals _ _ _ Hrec) ltac:(lia)) as [Hh1 Hh2].
  destruct (truthy (aSortFlags (pKeyInfo p)).[0] && _) eqn:EB; [injection EF as <- <-; by apply record_compare_ok|].
  set (p' := if truthy _ then _ else _) in EF.
  assert (Hr : (aSortFlags (pKeyInfo p)).[0] = 0 /\ p_r1 p' = -1 /\ p_r2 p' = 1 \/ (aSortFlags (pKeyInfo p)).[0] = 1 /\ p_r1 p' = 1 /\ p_r2 p' = -1).
  { unfold p'. set (f := (aSortFlags (pKeyInfo p)).[0]) in *. assert (f = 0 \/ f = 1 \/ f = 2 \/ f = 3) as [Ef|[Ef|[Ef|Ef]]] by lia; rewrite Ef in *;
      (try discriminate EB); [by left|by right]. }
  assert (Ep : aMem p' = aMem p /\ pKeyInfo p' = pKeyInfo p /\ nField p' = nField p) by (unfold p'; by destruct (truthy _)). destruct Ep as (EM & EKI & EN').
  destruct (has (m_flags (aMem p).[0]) MEM_Int) eqn:EI.
  - injection EF as <- <-. cbn [run_comparer].
    apply (compare_int_ok svt fmt vs pad (cache_i p' _) Hrec Hkey1 Hh1); cbn [cache_i pKeyInfo aMem nField p_r1 p_r2 p_i]; rewrite ?EM, ?EKI, ?EN'; try (done || lia).
    destruct (has (m_flags (aMem p).[0]) MEM_Null) eqn:EN; [|done]. destruct (Hon EN) as (Hi & _). by rewrite has_lor, EI in Hi.
  - destruct (negb _ && _) eqn:ES; [|injection EF as <- <-; by apply record_compare_ok].
    injection EF as <- <-. cbn [run_comparer]. apply andb_true_iff in ES as [ES1 ES2]. apply negb_true_iff in ES1. rewrite !has_lor in ES1.
    apply orb_false_iff in ES1 as [ES1 ES3]. apply orb_false_iff in ES1 as [ER EJ]. apply orb_false_iff in ES3 as [EN EBl].
    destruct Hc as (Hm & _). pose proof (mo_type _ Hm) as HT. rewrite EN, EI, EJ, ER, EBl in HT. cbn [orb] in HT. rewrite orb_false_r in HT.
    destruct (mo_buf _ Hm ltac:(by rewrite HT)) as [Hl2 Hb2].
    apply (compare_string_ok svt fmt vs pad (cache_z p' _ _) Hrec Hkey1 Hh1) with (s2 := take (Z.to_nat (m_n (aMem p).[0])) (z_bytes (aMem p).[0]));
      cbn [cache_z pKeyInfo aMem nField p_r1 p_r2 p_n p_z]; rewrite ?EM, ?EKI, ?EN' in *; try (done || lia).
    + by destruct ((aColl (pKeyInfo p)).[0]).
    + unfold val_of. by rewrite EN, EI, EJ, ER, HT.
Qed.

(** What callers look at, in terms of the order of keys. *)
Lemma answers_key p1 cols vs ks r : 0 < zlen ks <= zlen vs -> length cols = length ks -> answers p1 (compare_spec cols vs ks) r ->
  errCode (snd r) = errCode p1 /\
  match key_cmp cols vs ks with
  | Eq => fst r = default_rc p1 /\ eqSeen (snd r) = true
  | c => (fst r ?= 0) = c /\ eqSeen (snd r) = eqSeen p1
  end.
Proof.
  intros Hl Hc. rewrite compare_spec_key by (unfold zlen in Hl; lia). destruct (key_cmp cols vs ks); cbn [answers].
  - by intros ->.
  - intros (? & _ & ->). done.
  - intros (? & _ & ->). done.
Qed.
Lemma key_lengths p : 0 <= nField p -> length (key_columns p 0) = length (key_values p 0) /\ zlen (key_values p 0) = nField p.
Proof. intros Hn. unfold key_columns, key_values, zlen. rewrite !length_fmap, length_seqZ. lia. Qed.

(** ** Properties *)

(** C23. The general comparison [sqlite3VdbeRecordCompare] and the routine that
    [sqlite3VdbeFindCompare] picks for a key.  On any record, the general one returns the sign
    of the first field that differs in the order of its column, [default_rc] with [eqSeen] set
    when all fields of the key are the same, and the error SQLITE_CORRUPT when the record ends
    before that.  The picked one, whether for integers, for strings or general, answers the
    same on every record with no more fields than the index, with one exception: a record of a
    single field against a key of several, where the picked routine may read on past the
    record's header ([skip_reads_data]).  So on records with at least the fields of the key it
    gives the order of keys, and that order is a total preorder: an index is sorted and
    searched consistently whichever routine is used. *)
Theorem find_compare_exact svt (fmt : Z) (vs : list sval) (pad : list Z) (p : UnpackedRecord)
  (Hrec : record_at fmt vs pad) (Hkey : key_ok p)
  (Hcoll : Forall (fun col => coll_order (snd col)) (key_columns p 0)) :
  let outcome := compare_spec (key_columns p 0) vs (key_values p 0) in
  answers p outcome (sqlite3VdbeRecordCompare svt (zlen (record fmt vs)) (record fmt vs ++ pad) p) /\
  (zlen vs <= nAllField (pKeyInfo p) -> nField p = 1 \/ 1 < zlen vs ->
   let '(c, p1) := sqlite3VdbeFindCompare p in
   default_rc p1 = default_rc p /\ errCode p1 = errCode p /\ eqSeen p1 = eqSeen p /\
   answers p1 outcome (run_comparer svt c (zlen (record fmt vs)) (record fmt vs ++ pad) p1)) /\
  (nField p <= zlen vs <= nAllField (pKeyInfo p) ->
   let '(c, p1) := sqlite3VdbeFindCompare p in
   let '(rc, p2) := run_comparer svt c (zlen (record fmt vs)) (record fmt vs ++ pad) p1 in
   errCode p2 = errCode p /\
   match key_cmp (key_columns p 0) vs (key_values p 0) with
   | Eq => rc = default_rc p /\ eqSeen p2 = true
   | o => (rc ?= 0) = o /\ eqSeen p2 = eqSeen p
   end) /\
  TotalPreorder (key_cmp (key_columns p 0)).
Proof.
  intros outcome. split; [by apply record_compare_ok|].
  pose proof (find_compare_key p) as HE. pose proof (ko_n p Hkey).
  assert (HA : zlen vs <= nAllField (pKeyInfo p) -> nField p = 1 \/ 1 < zlen vs ->
    let '(c, p1) := sqlite3VdbeFindCompare p in
    answers p1 outcome (run_comparer svt c (zlen (record fmt vs)) (record fmt vs ++ pad) p1))
    by (intros; by apply find_compare_ok).
  destruct (sqlite3VdbeFindCompare p) as [c p1]. destruct HE as (_ & _ & _ & E4 & E5 & E6).
  split; [intros; split_and!; auto|]. split; [|by apply key_order]. intros Hvs.
  destruct (key_lengths p ltac:(lia)) as [L1 L2].
  destruct (answers_key p1 _ vs _ _ ltac:(rewrite L2; lia) L1 (HA ltac:(lia) ltac:(lia))) as [HB HC].
  destruct (run_comparer _ _ _ _ _) as [rc p2]. cbn [fst snd] in *. rewrite <- E4, <- E5, <- E6. done.
Qed.

Lemma key_cell_check desc i m : (desc = 0 \/ desc = 1) -> i ∈ [0; 1; 2] ->
  mem_okb m && negb (has (m_flags m) MEM_Zero) && negb (has (m_flags m) MEM_Null) = true -> key_cell (demo_info desc) i m.
Proof.
  intros Hd Hi. rewrite !andb_true_iff, !negb_true_iff. intros [[H1 H2] H3].
  assert (Hc : (aColl (demo_info desc)).[i] = None /\ 0 <= (aSortFlags (demo_info desc)).[i] <= 3).
  { rewrite !elem_of_cons in Hi. destruct Hd as [-> | ->]; destruct_or!; try (by apply elem_of_nil in Hi); subst i; (split; [done|by_compute]). }
  destruct Hc as [Hc Hs]. split; [split; [by apply mem_okb_ok|split; [unfold plain_zero; by rewrite H2|by rewrite Hc]]|].
  split; [unfold only_null; by rewrite H3|]. split; [done|]. by rewrite Hc.
Qed.

(** The record (300, "ab") against the keys (300, "b") and ("a", 5), the first column descending *)
Definition demo_search (ms : list Mem) : UnpackedRecord := mkUnpacked (demo_info 1) ms 0 [] 0 2 0 0 0 0 false.
Definition mem_text (s : list Z) : Mem := mkMem 0 (ZAt s) (zlen s) MEM_Str 1 [] 0.
Lemma demo_search_ok m0 m1 : mem_okb m0 && negb (has (m_flags m0) MEM_Zero) && negb (has (m_flags m0) MEM_Null) = true ->
  mem_okb m1 && negb (has (m_flags m1) MEM_Zero) && negb (has (m_flags m1) MEM_Null) = true -> key_ok (demo_search [m0; m1]).
Proof.
  intros H0 H1. split; [cbn; lia|by cbn|]. intros i Hi. cbn in Hi. assert (i = 0 \/ i = 1) as [-> | ->] by lia;
    apply key_cell_check; try done; try (by right); set_solver.
Qed.
Definition demo_values : list sval := [VInt 300; VText [97; 98]].
Lemma demo_record_ok : record_at 4 demo_values [7; 7; 7].
Proof. split; [repeat constructor; by_compute|by_compute|by_compute|by_compute]. Qed.

(** The same record, too short for a key of three columns. *)
Definition demo_search3 (ms : list Mem) : UnpackedRecord := mkUnpacked (demo_info 1) ms 0 [] 0 3 0 0 0 0 false.
Lemma demo_search3_ok m0 m1 m2 :
  forallb (fun m => mem_okb m && negb (has (m_flags m) MEM_Zero) && negb (has (m_flags m) MEM_Null)) [m0; m1; m2] = true ->
  key_ok (demo_search3 [m0; m1; m2]).
Proof.
  cbn [forallb]. rewrite !andb_true_iff. intros (H0 & H1 & H2 & _). split; [cbn; lia|by cbn|].
  intros i Hi. cbn in Hi. assert (i = 0 \/ i = 1 \/ i = 2) as [-> |[-> | ->]] by lia;
    apply key_cell_check; rewrite ?andb_true_iff; try done; try (by right); set_solver.
Qed.
Lemma demo_search3_coll ms : Forall (fun col => coll_order (snd col)) (key_columns (demo_search3 ms) 0).
Proof. repeat (constructor; [intros c Hc; discriminate Hc|]). constructor. Qed.

Lemma find_compare_exact_witness :
  (let '(c, p1) := sqlite3VdbeFindCompare (demo_search [mem_int 300; mem_text [98]]) in
   let '(rc, p2) := run_comparer (fun _ _ => None) c 7 (record 4 demo_values ++ [7; 7; 7]) p1 in
   c = CompareInt /\ (rc ?= 0) = Lt) /\
  (let '(c, p1) := sqlite3VdbeFindCompare (demo_search [mem_text [97]; mem_int 5]) in
   let '(rc, p2) := run_comparer (fun _ _ => None) c 7 (record 4 demo_values ++ [7; 7; 7]) p1 in
   c = CompareString /\ (rc ?= 0) = Gt) /\
  (let '(c, p1) := sqlite3VdbeFindCompare (demo_search3 [mem_int 300; mem_text [97; 98]; mem_int 1]) in
   let r := run_comparer (fun _ _ => None) c 7 (record 4 demo_values ++ [7; 7; 7]) p1 in
   c = CompareInt /\ r = (0, set_errCode p1 SQLITE_CORRUPT)).
Proof.
  assert (HC : forall ms, Forall (fun col => coll_order (snd col)) (key_columns (demo_search ms) 0)).
  { intros ms. constructor; [intros c Hc; discriminate Hc|]. constructor; [intros c Hc; discriminate Hc|constructor]. }
  split_and!.
  - destruct (find_compare_exact (fun _ _ => None) 4 demo_values [7; 7; 7] (demo_search [mem_int 300; mem_text [98]]) demo_record_ok
      ltac:(apply demo_search_ok; vm_compute; reflexivity) (HC _)) as (_ & _ & H & _).
    specialize (H ltac:(by_compute)). destruct (sqlite3VdbeFindCompare _) as [c p1] eqn:E. change (zlen (record 4 demo_values)) with 7 in H.
    destruct (run_comparer _ _ _ _ _) as [rc p2]. destruct H as [_ H]. vm_compute in E. injection E as <- _. split; [reflexivity|]. exact (proj1 H).
  - destruct (find_compare_exact (fun _ _ => None) 4 demo_values [7; 7; 7] (demo_search [mem_text [97]; mem_int 5]) demo_record_ok
      ltac:(apply demo_search_ok; vm_compute; reflexivity) (HC _)) as (_ & _ & H & _).
    specialize (H ltac:(by_compute)). destruct (sqlite3VdbeFindCompare _) as [c p1] eqn:E. change (zlen (record 4 demo_values)) with 7 in H.
    destruct (run_comparer _ _ _ _ _) as [rc p2]. destruct H as [_ H]. vm_compute in E. injection E as <- _. split; [reflexivity|]. exact (proj1 H).
  - destruct (find_compare_exact (fun _ _ => None) 4 demo_values [7; 7; 7]
      (demo_search3 [mem_int 300; mem_text [97; 98]; mem_int 1]) demo_record_ok
      ltac:(apply demo_search3_ok; vm_compute; reflexivity) (demo_search3_coll _)) as (_ & H & _).
    specialize (H ltac:(by_compute) ltac:(right; by_compute)).
    destruct (sqlite3VdbeFindCompare _) as [c p1] eqn:E. change (zlen (record 4 demo_values)) with 7 in H.
    destruct H as (_ & _ & _ & H). vm_compute in E. injection E as <- _. split; [reflexivity|]. exact H.
Defined.

(** ** Packed keys *)

(** A packed record: the bytes that [OP_MakeRecord] leaves in its output register. *)
Definition packs {W} (malloc : W -> Z -> option (list Z) * W) (fmt limit : Z) (regs : list Mem) (key : list Z) : Prop :=
  exists w w' pOut out regs', OP_MakeRecord malloc fmt limit w regs pOut = (Made out regs', w') /\ key = content out /\
    szMalloc pOut < 2 ^ 31 /\ is_u64 (m_u pOut) /\ bytes_ok (m_zMalloc pOut).

(** The columns of an index. *)
Record index_ok (ki : KeyInfo) : Prop := {
  ix_len : nAllField ki <= zlen (aColl ki) /\ nAllField ki <= zlen (aSortFlags ki);
  ix_flags i : 0 <= i < nAllField ki -> 0 <= (aSortFlags ki).[i] <= 3;
  ix_coll i c : 0 <= i < nAllField ki -> (aColl ki).[i] = Some c -> ki_enc ki = c_enc c /\ TotalPreorder (fun s t => c_xCmp c s t ?= 0) }.
Definition index_columns (ki : KeyInfo) (n : Z) : list column := (fun j => ((aSortFlags ki).[j], (aColl ki).[j])) <$> seqZ 0 n.

Lemma packs_record {W} (malloc : W -> Z -> option (list Z) * W) fmt limit regs key :
  (forall w n b w', malloc w n = (Some b, w') -> n <= zlen b /\ bytes_ok b) -> Forall packable regs -> zlen regs <= MAX_FIELDS -> limit <= MAX_LENGTH ->
  packs malloc fmt limit regs key -> key = record fmt (stored <$> regs) /\ zlen key < 2 ^ 31 /\ Forall storable (stored <$> regs).
Proof.
  intros Hm Hr Hn Hl (w & w' & pOut & out & regs' & E & -> & Hs & Hu & Hb).
  destruct (make_record_ok malloc Hm fmt limit w regs pOut Hr Hn Hl Hs Hu Hb) as (r & w2 & E2 & H). rewrite E in E2. injection E2 as <- _.
  destruct H as (Hv & _ & Hlen & _). rewrite (blob_content out _ Hv). split; [done|]. split; [unfold MAX_LENGTH in *; lia|].
  apply Forall_fmap. eapply Forall_impl; [exact Hr|]. intros x Hx. by eapply stored_storable.
Qed.
Lemma key_cmp_take cols vs ks n : (length cols <= n)%nat -> key_cmp cols vs (take n ks) = key_cmp cols vs ks.
Proof.
  revert vs ks n. induction cols as [|[f c] cols IH]; intros vs ks n Hn; [done|]. cbn [length] in Hn. destruct n as [|n]; [lia|].
  cbn [key_cmp]. destruct ks as [|k ks]; [done|]. cbn [take hd tail]. by rewrite IH by lia.
Qed.
Lemma values_unpacked p vs : nField p <= zlen vs -> (forall k v, vs !! k = Some v -> Z.of_nat k < nField p -> val_of (aMem p).[Z.of_nat k] = v) ->
  0 <= nField p -> key_values p 0 = take (Z.to_nat (nField p)) vs.
Proof.
  intros Hl Hv Hn. unfold key_values. rewrite Z.sub_0_r. apply list_eq. intros k. rewrite list_lookup_fmap.
  destruct (decide (Z.of_nat k < nField p)) as [Hk|Hk].
  - rewrite lookup_take_lt by lia. rewrite (proj2 (lookup_seqZ 0 (nField p) k (Z.of_nat k))) by lia. cbn [fmap option_fmap option_map].
    destruct (vs !! k) as [v|] eqn:E; [by rewrite (Hv k v E Hk)|]. apply lookup_ge_None in E. unfold zlen in Hl. lia.
  - rewrite lookup_take_ge by lia. rewrite (proj2 (lookup_ge_None (seqZ 0 (nField p)) k)) by (rewrite length_seqZ; lia). done.
Qed.

Lemma unpacked_key_ok fmt vs pad p0 : Forall storable vs -> 1 <= zlen vs <= MAX_FIELDS -> zlen (record fmt vs) < 2 ^ 31 -> bytes_ok pad -> roomy p0 ->
  index_ok (pKeyInfo p0) -> Z.min (nField p0) (zlen vs) <= nAllField (pKeyInfo p0) ->
  let p := sqlite3VdbeRecordUnpack (zlen (record fmt vs)) (record fmt vs ++ pad) p0 in
  key_ok p /\ key_values p 0 = take (Z.to_nat (nField p)) vs /\ nField p = Z.min (nField p0) (zlen vs) /\ pKeyInfo p = pKeyInfo p0 /\ default_rc p = 0 /\
  errCode p = errCode p0.
Proof.
  intros Hs Hl Hlen Hp Hroom Hix Hall p. destruct (unpack_ok fmt vs pad p0 Hs ltac:(lia) Hlen Hp Hroom) as (E1 & E2 & E3 & E4 & E5 & E6 & Hd).
  fold p in E1, E2, E3, E4, E6, Hd. destruct Hroom as (Hr1 & Hr2 & _). destruct (ix_len _ Hix). split; [|split].
  - split; [rewrite E2; lia|rewrite E2; lia|]. intros i Hi. rewrite E2.
    destruct (vs !! Z.to_nat i) as [v|] eqn:E; [|apply lookup_ge_None in E; unfold zlen in *; lia].
    specialize (Hd (Z.to_nat i) v E ltac:(lia)). rewrite Z2Nat.id in Hd by lia. destruct Hd as (D1 & D2 & D3 & D4 & D5).
    assert (Henc : forall c, (aColl (pKeyInfo p0)).[i] = Some c -> ki_enc (pKeyInfo p0) = c_enc c) by (intros c Hc; by apply (ix_coll _ Hix i c ltac:(lia))).
    split; [split; [done|split; [done|]]|split; [done|split; [apply (ix_flags _ Hix); lia|done]]].
    intros _ c Hc. rewrite D4. by apply Henc.
  - apply values_unpacked; [lia| |lia]. intros k v Hk Hlt. by destruct (Hd k v Hk ltac:(lia)).
  - done.
Qed.

(** C21. Packed keys compare as their values.  Two rows of registers packed by
    [OP_MakeRecord]; the second unpacked as a search key by [sqlite3VdbeRecordUnpack]; the
    first compared with it by the routine that [sqlite3VdbeFindCompare] picks: the result has
    the sign of the first difference between the two rows of values in the order of the
    index, and is 0, with [eqSeen] set, when the compared columns agree.  The order of the
    values is a total preorder. *)
Theorem packed_keys_ordered {W} (malloc : W -> Z -> option (list Z) * W) (fmt limit : Z) svt (regs1 regs2 : list Mem) (key1 key2 pad1 pad2 : list Z)
  (p0 : UnpackedRecord)
  (Hmalloc : forall w n b w', malloc w n = (Some b, w') -> n <= zlen b /\ bytes_ok b) (Hlimit : limit <= MAX_LENGTH)
  (H1 : Forall packable regs1) (H2 : Forall packable regs2) (Hp1 : packs malloc fmt limit regs1 key1) (Hp2 : packs malloc fmt limit regs2 key2)
  (Hpad1 : bytes_ok pad1) (Hpad2 : bytes_ok pad2) (Hp0 : roomy p0) (Hix : index_ok (pKeyInfo p0))
  (Hn2 : 1 <= zlen regs2 <= MAX_FIELDS)
  (Hn1 : Z.min (nField p0) (zlen regs2) <= zlen regs1 <= Z.min MAX_FIELDS (nAllField (pKeyInfo p0))) :
  let cols := index_columns (pKeyInfo p0) (Z.min (nField p0) (zlen regs2)) in
  let p := sqlite3VdbeRecordUnpack (zlen key2) (key2 ++ pad2) p0 in
  let '(c, p1) := sqlite3VdbeFindCompare p in
  let '(rc, p2) := run_comparer svt c (zlen key1) (key1 ++ pad1) p1 in
  TotalPreorder (key_cmp cols) /\ errCode p2 = errCode p0 /\
  match key_cmp cols (stored <$> regs1) (stored <$> regs2) with
  | Eq => rc = 0 /\ eqSeen p2 = true
  | o => (rc ?= 0) = o
  end.
Proof.
  destruct (packs_record malloc fmt limit regs1 key1 Hmalloc H1 ltac:(lia) Hlimit Hp1) as (-> & L1 & S1).
  destruct (packs_record malloc fmt limit regs2 key2 Hmalloc H2 ltac:(lia) Hlimit Hp2) as (-> & L2 & S2).
  assert (Z1 : zlen (stored <$> regs1) = zlen regs1) by (unfold zlen; by rewrite length_fmap).
  assert (Z2 : zlen (stored <$> regs2) = zlen regs2) by (unfold zlen; by rewrite length_fmap).
  destruct (unpacked_key_ok fmt (stored <$> regs2) pad2 p0 S2 ltac:(lia) L2 Hpad2 Hp0 Hix ltac:(lia)) as (Hkey & Ek & En & Eki & Edr & Eerr).
  intros cols p. fold p in Hkey, Ek, En, Eki, Edr, Eerr. rewrite Z2 in En.
  assert (Ec : key_columns p 0 = cols) by (unfold key_columns, cols, index_columns; by rewrite Eki, Z.sub_0_r, En).
  assert (Hrec : record_at fmt (stored <$> regs1) pad1) by (destruct Hp0 as [[? _] _]; split; [done|lia|done|done]).
  assert (Hlong : nField p = 1 \/ 1 < zlen (stored <$> regs1)) by (pose proof (ko_n p Hkey); rewrite Z1; lia).
  pose proof (find_compare_ok svt fmt (stored <$> regs1) pad1 p Hrec Hkey ltac:(rewrite Eki; lia) Hlong) as HA.
  pose proof (find_compare_key p) as HE. destruct (sqlite3VdbeFindCompare p) as [c p1]. destruct HE as (_ & _ & _ & E4 & E5 & E6).
  pose proof (ko_n p Hkey). destruct (key_lengths p ltac:(lia)) as [K1 K2].
  destruct (answers_key p1 _ (stored <$> regs1) _ _ ltac:(rewrite K2; lia) K1 HA) as [HB HC]. rewrite Ec, Ek, key_cmp_take in HC.
  2: { rewrite <- Ec, K1. unfold zlen in K2. lia. }
  destruct (run_comparer _ _ _ _ _) as [rc p2]. cbn [fst snd] in *. rewrite HB, E5. split; [|split; [done|]].
  - apply key_order. unfold cols, index_columns. apply Forall_fmap, Forall_forall. intros j Hj%elem_of_seqZ. intros d Hd. by apply (ix_coll _ Hix j d ltac:(lia)).
  - destruct (key_cmp cols _ _); [destruct HC as [-> ?]; by rewrite E4|by destruct HC..].
Qed.

(** The rows (300, "ab", three zero bytes) and (300, "b"), the key unpacked from the second *)
Definition demo_row : list Mem := [mem_int 300; mem_text [98]].
Definition demo_pack (regs : list Mem) : list Z :=
  match OP_MakeRecord demo_malloc 4 1000000 O regs inhabitant with (Made out _, _) => content out | _ => [] end.
Lemma demo_packs regs out : (match fst (OP_MakeRecord demo_malloc 4 1000000 O regs inhabitant) with Made o _ => content o | _ => [] end) = out ->
  match fst (OP_MakeRecord demo_malloc 4 1000000 O regs inhabitant) with Made _ _ => true | _ => false end = true ->
  packs demo_malloc 4 1000000 regs out.
Proof.
  destruct (OP_MakeRecord demo_malloc 4 1000000 O regs inhabitant) as [[o rs| |] w'] eqn:E; intros Ho Hm; cbn [fst] in *; try discriminate Hm.
  exists O, w', inhabitant, o, rs. split; [done|]. split; [done|]. split; [by_compute|]. split; [by_compute|by_compute].
Qed.
Lemma demo_index_ok : index_ok (demo_info 1).
Proof.
  split; [cbn; by vm_compute| |].
  - intros i Hi. cbn in Hi. assert (i = 0 \/ i = 1 \/ i = 2) as [-> |[-> | ->]] by lia; by_compute.
  - intros i c Hi Hc. cbn in Hi. assert (i = 0 \/ i = 1 \/ i = 2) as [-> |[-> | ->]] by lia; discriminate Hc.
Qed.

Lemma packed_keys_ordered_witness :
  let p := sqlite3VdbeRecordUnpack 6 ([3; 2; 15; 1; 44; 98] ++ [9]) (demo_key 1) in
  let '(c, p1) := sqlite3VdbeFindCompare p in
  let '(rc, p2) := run_comparer (fun _ _ => None) c 11 ([4; 2; 17; 18; 1; 44; 97; 98; 0; 0; 0] ++ [7]) p1 in
  (rc ?= 0) = Lt.
Proof.
  pose proof (packed_keys_ordered demo_malloc 4 1000000 (fun _ _ => None) demo_regs demo_row [4; 2; 17; 18; 1; 44; 97; 98; 0; 0; 0] [3; 2; 15; 1; 44; 98] [7] [9]
    (demo_key 1) demo_malloc_ok ltac:(by_compute) demo_regs_ok
    ltac:(unfold demo_row; rewrite !Forall_cons; split; [apply packable_check; vm_compute; reflexivity|split; [apply packable_check; vm_compute; reflexivity|constructor]])
    ltac:(apply demo_packs; vm_compute; reflexivity) ltac:(apply demo_packs; vm_compute; reflexivity)
    ltac:(by_compute) ltac:(by_compute) (demo_key_ok 1) demo_index_ok ltac:(by_compute) ltac:(by_compute)) as H.
  cbv zeta in H. change (zlen [3; 2; 15; 1; 44; 98]) with 6 in H. change (zlen [4; 2; 17; 18; 1; 44; 97; 98; 0; 0; 0]) with 11 in H.
  cbv zeta. destruct (sqlite3VdbeFindCompare _) as [c p1]. destruct (run_comparer _ _ _ _ _) as [rc p2]. exact (proj2 (proj2 H)).
Defined.

(** The comment of [sqlite3VdbeRecordCompareWithSkip] has records with fewer fields than the
    key compare as [default_rc]; they are reported as corrupt. *)
Lemma short_record_corrupt svt fmt vs pad p : record_at fmt vs pad -> key_ok p -> compare_spec (key_columns p 0) vs (key_values p 0) = Short ->
  sqlite3VdbeRecordCompare svt (zlen (record fmt vs)) (record fmt vs ++ pad) p = (0, set_errCode p SQLITE_CORRUPT).
Proof. intros Hr Hk E. pose proof (record_compare_ok svt fmt vs pad p Hr Hk) as H. by rewrite E in H. Qed.
(** After a skipped first field the header is read without a check of its end: the one-field
    record (300) is compared with (300, 5) by taking its first data byte for a serial type. *)
Lemma skip_reads_data :
  let p := demo_search [mem_int 300; mem_int 5] in let rec := record 4 [VInt 300] in
  sqlite3VdbeRecordCompare (fun _ _ => None) (zlen rec) (rec ++ [7; 7; 7; 7; 7; 7; 7; 7]) p = (0, set_errCode p SQLITE_CORRUPT) /\
  let '(c, p1) := sqlite3VdbeFindCompare p in
  fst (run_comparer (fun _ _ => None) c (zlen rec) (rec ++ [7; 7; 7; 7; 7; 7; 7; 7]) p1) = 1.
Proof. split; vm_compute; reflexivity. Qed.
