(* ===== verification/BtreeCell.v ===== *)
(** Cells of b-tree pages (btree.c section of sqlite3.c): the kinds of pages, parsing a cell
    and computing its size.

    A cell is the bytes from its first one to the end of the page; offsets in it are
    numbers.  The parsers inline the decoding of varints; [payload_varint] and
    [key_varint_varint] relate the inlined code to the format.  [cell_sizes_agree] shows that
    each of the four size routines computes the size that the parser of the same kind of page
    does, whatever the bytes are. *)

From S2P Require Import Prelude Bits Varint Regions.

(** ** Pages *)

Definition get2byte (x : list Z) (i : Z) : Z := Z.lor (Z.shiftl x.[i] 8) x.[i + 1].
Definition put2byte (p : list Z) (i v : Z) : list Z := p.[i <- u8 (Z.shiftr v 8)].[i + 1 <- u8 v].
Definition get2byteNotZero (x : list Z) (i : Z) : Z := Z.land (get2byte x i - 1) 0xffff + 1.

Definition PTF_INTKEY : Z := 0x01.
Definition PTF_ZERODATA : Z := 0x02.
Definition PTF_LEAFDATA : Z := 0x04.
Definition PTF_LEAF : Z := 0x08.

(** The fields of [BtShared] that the pages of a database share. *)
Record BtShared := mkBt {
  autoVacuum : bool; btsFlags : Z; bt_max1bytePayload : Z;
  bt_maxLocal : Z; bt_minLocal : Z; bt_maxLeaf : Z; bt_minLeaf : Z;
  pageSize : Z; usableSize : Z }.

(** [MX_CELL(pBt)] *)
Definition MX_CELL (pBt : BtShared) : Z := (pageSize pBt - 8) / 6.

(** The limits [lockBtree] computes from the usable size. *)
Definition lockBtree_limits (autoVacuum : bool) (btsFlags pageSize usableSize : Z) : BtShared :=
  let maxLocal := u16 (u32 (u32 ((usableSize - 12) * 64) / 255 - 23)) in
  let minLocal := u16 (u32 (u32 ((usableSize - 12) * 32) / 255 - 23)) in
  mkBt autoVacuum btsFlags (if 127 <? maxLocal then 127 else u8 maxLocal)
    maxLocal minLocal (u16 (usableSize - 35)) minLocal pageSize usableSize.

(** The sizes [lockBtree] accepts. *)
Definition wf_bt (bt : BtShared) : Prop := (exists k, 9 <= k <= 16 /\ pageSize bt = 2 ^ k) /\ 480 <= usableSize bt <= pageSize bt.

(** The methods of a page. *)
Inductive CellSize := CellSizePtr | CellSizePtrIdxLeaf | CellSizePtrNoPayload | CellSizePtrTableLeaf.
Inductive ParseCell := ParseCellPtr | ParseCellPtrIndex | ParseCellPtrNoPayload.

(** The part of [MemPage] that the flag byte of the page determines. *)
Record PageType := mkType {
  intKey : bool; intKeyLeaf : bool; leaf : bool; childPtrSize : Z; max1bytePayload : Z;
  maxLocal : Z; minLocal : Z; xCellSize : CellSize; xParseCell : ParseCell }.

Definition decodeFlags (pBt : BtShared) (t : PageType) (flagByte : Z) : Z * PageType :=
  let m1 := bt_max1bytePayload pBt in
  if Z.lor PTF_ZERODATA PTF_LEAF <=? flagByte then
    if flagByte =? Z.lor PTF_LEAFDATA (Z.lor PTF_INTKEY PTF_LEAF) then
      (SQLITE_OK, mkType true true true 0 m1 (bt_maxLeaf pBt) (bt_minLeaf pBt) CellSizePtrTableLeaf ParseCellPtr)
    else if flagByte =? Z.lor PTF_ZERODATA PTF_LEAF then
      (SQLITE_OK, mkType false false true 0 m1 (bt_maxLocal pBt) (bt_minLocal pBt) CellSizePtrIdxLeaf ParseCellPtrIndex)
    else
      (SQLITE_CORRUPT, mkType false false true 0 m1 (maxLocal t) (minLocal t) CellSizePtrIdxLeaf ParseCellPtrIndex)
  else
    if flagByte =? PTF_ZERODATA then
      (SQLITE_OK, mkType false false false 4 m1 (bt_maxLocal pBt) (bt_minLocal pBt) CellSizePtr ParseCellPtrIndex)
    else if flagByte =? Z.lor PTF_LEAFDATA PTF_INTKEY then
      (SQLITE_OK, mkType true false false 4 m1 (bt_maxLeaf pBt) (bt_minLeaf pBt) CellSizePtrNoPayload ParseCellPtrNoPayload)
    else
      (SQLITE_CORRUPT, mkType false false false 4 m1 (maxLocal t) (minLocal t) CellSizePtr ParseCellPtrIndex).

(** ** Parsing *)

(** [pPayload] is an offset in the cell. *)
Record CellInfo := mkInfo { nKey : Z; pPayload : Z; nPayload : Z; nLocal : Z; nSize : Z }.

(** [do{ n = (n<<7) | ( *++pIter & 0x7f); }while( ( *pIter)>=0x80 && pIter<pEnd )] where [k]
    bytes are left before [pEnd]; [n] is an integer of [w] bits. *)
Fixpoint size_loop (k : nat) (w : Z) (pCell : list Z) (pIter n : Z) : Z * Z :=
  match k with
  | O => (n, pIter)
  | S k =>
      let pIter := pIter + 1 in
      let n := Z.lor (Z.shiftl n 7 mod 2 ^ w) (Z.land pCell.[pIter] 0x7f) in
      if (128 <=? pCell.[pIter]) && negb (Nat.eqb k 0) then size_loop k w pCell pIter n else (n, pIter)
  end.

Definition btreeParseCellAdjustSizeForOverflow (pBt : BtShared) (t : PageType) (pInfo : CellInfo) : CellInfo :=
  let surplus := minLocal t + u32 (nPayload pInfo - minLocal t) mod (usableSize pBt - 4) in
  let nLocal := if surplus <=? maxLocal t then u16 surplus else u16 (minLocal t) in
  mkInfo (nKey pInfo) (pPayload pInfo) (nPayload pInfo) nLocal (u16 (u16 (pPayload pInfo + nLocal) + 4)).

Definition btreePayloadToLocal (pBt : BtShared) (t : PageType) (nPayload : Z) : Z :=
  if nPayload <=? maxLocal t then i32 nPayload
  else
    let surplus := i32 (minLocal t + (nPayload - minLocal t) mod (usableSize pBt - 4)) in
    if surplus <=? maxLocal t then surplus else minLocal t.

(** The common end of the parsers. *)
Definition local_size (pBt : BtShared) (t : PageType) (pInfo : CellInfo) : CellInfo :=
  if nPayload pInfo <=? maxLocal t then
    let nSize := u16 (u16 (nPayload pInfo) + u16 (pPayload pInfo)) in
    mkInfo (nKey pInfo) (pPayload pInfo) (nPayload pInfo) (u16 (nPayload pInfo)) (if nSize <? 4 then 4 else nSize)
  else btreeParseCellAdjustSizeForOverflow pBt t pInfo.

Definition btreeParseCellPtrNoPayload (pCell : list Z) : CellInfo :=
  let '(n, v) := sqlite3GetVarint (drop 4 pCell) in
  mkInfo (i64 v) 0 0 0 (u16 (4 + n)).

(** The unrolled loop that reads the key: the value and the offset of its last byte. *)
Definition key_varint (pCell : list Z) (pIter : Z) : Z * Z :=
  let shl v k := Z.shiftl v k mod 2 ^ 64 in
  let iKey := pCell.[pIter] in
  if 128 <=? iKey then
    let pIter := pIter + 1 in let x := pCell.[pIter] in
    let iKey := Z.lxor (shl iKey 7) x in
    if 128 <=? x then
      let pIter := pIter + 1 in let x := pCell.[pIter] in
      let iKey := Z.lxor (shl iKey 7) x in
      if 128 <=? x then
        let pIter := pIter + 1 in let x := pCell.[pIter] in
        let iKey := Z.lxor (Z.lxor (shl iKey 7) 0x10204000) x in
        if 128 <=? x then
          let pIter := pIter + 1 in let x := pCell.[pIter] in
          let iKey := Z.lxor (Z.lxor (shl iKey 7) 0x4000) x in
          if 128 <=? x then
            let pIter := pIter + 1 in let x := pCell.[pIter] in
            let iKey := Z.lxor (Z.lxor (shl iKey 7) 0x4000) x in
            if 128 <=? x then
              let pIter := pIter + 1 in let x := pCell.[pIter] in
              let iKey := Z.lxor (Z.lxor (shl iKey 7) 0x4000) x in
              if 128 <=? x then
                let pIter := pIter + 1 in let x := pCell.[pIter] in
                let iKey := Z.lxor (Z.lxor (shl iKey 7) 0x4000) x in
                if 128 <=? x then
                  let pIter := pIter + 1 in
                  (Z.lxor (Z.lxor (shl iKey 8) 0x8000) pCell.[pIter], pIter)
                else (iKey, pIter)
              else (iKey, pIter)
            else (iKey, pIter)
          else (iKey, pIter)
        else (iKey, pIter)
      else (Z.lxor iKey 0x204000, pIter)
    else (Z.lxor iKey 0x4000, pIter)
  else (iKey, pIter).

Definition btreeParseCellPtr (pBt : BtShared) (t : PageType) (pCell : list Z) : CellInfo :=
  let nPayload := pCell.[0] in
  let '(nPayload, pIter) :=
    if 128 <=? nPayload then
      let '(nPayload, pIter) := size_loop 8 64 pCell 0 (Z.land nPayload 0x7f) in
      (Z.land nPayload 0xffffffff, pIter)
    else (nPayload, 0) in
  let pIter := pIter + 1 in
  let '(iKey, pIter) := key_varint pCell pIter in
  let pIter := pIter + 1 in
  local_size pBt t (mkInfo (i64 iKey) pIter (u32 nPayload) 0 0).

Definition btreeParseCellPtrIndex (pBt : BtShared) (t : PageType) (pCell : list Z) : CellInfo :=
  let pIter := childPtrSize t in
  let nPayload := pCell.[pIter] in
  let '(nPayload, pIter) :=
    if 128 <=? nPayload then size_loop 8 32 pCell pIter (Z.land nPayload 0x7f) else (nPayload, pIter) in
  let pIter := pIter + 1 in
  local_size pBt t (mkInfo nPayload pIter nPayload 0 0).

Definition run_xParseCell (pBt : BtShared) (t : PageType) (pCell : list Z) : CellInfo :=
  match xParseCell t with
  | ParseCellPtr => btreeParseCellPtr pBt t pCell
  | ParseCellPtrIndex => btreeParseCellPtrIndex pBt t pCell
  | ParseCellPtrNoPayload => btreeParseCellPtrNoPayload pCell
  end.

(** ** Sizes *)

(** The size varint at [pIter] and the offset after it. *)
Definition read_size (pCell : list Z) (pIter : Z) : Z * Z :=
  let nSize := pCell.[pIter] in
  let '(nSize, pIter) :=
    if 128 <=? nSize then size_loop 8 32 pCell pIter (Z.land nSize 0x7f) else (nSize, pIter) in
  (nSize, pIter + 1).

(** What the size routines do with the payload size [nSize] and the offset [pIter] of the
    payload; [min4] if a cell is at least four bytes. *)
Definition whole_size (pBt : BtShared) (t : PageType) (min4 : bool) (nSize pIter : Z) : Z :=
  if nSize <=? maxLocal t then
    let nSize := u32 (nSize + u32 pIter) in
    u16 (if min4 && (nSize <? 4) then 4 else nSize)
  else
    let nSize := u32 (minLocal t + u32 (nSize - minLocal t) mod (usableSize pBt - 4)) in
    let nSize := if maxLocal t <? nSize then minLocal t else nSize in
    u16 (nSize + (4 + u16 pIter)).

Definition cellSizePtr (pBt : BtShared) (t : PageType) (pCell : list Z) : Z :=
  let '(nSize, pIter) := read_size pCell 4 in whole_size pBt t false nSize pIter.

Definition cellSizePtrIdxLeaf (pBt : BtShared) (t : PageType) (pCell : list Z) : Z :=
  let '(nSize, pIter) := read_size pCell 0 in whole_size pBt t true nSize pIter.

(** [while( ( *pIter++)&0x80 && pIter<pEnd );] with [k] bytes before [pEnd] *)
Fixpoint skip_varint (k : nat) (pCell : list Z) (pIter : Z) : Z :=
  match k with
  | O => pIter
  | S k =>
      let more := truthy (Z.land pCell.[pIter] 0x80) in
      let pIter := pIter + 1 in
      if more && negb (Nat.eqb k 0) then skip_varint k pCell pIter else pIter
  end.

Definition cellSizePtrNoPayload (pCell : list Z) : Z := u16 (skip_varint 9 pCell 4).

Definition cellSizePtrTableLeaf (pBt : BtShared) (t : PageType) (pCell : list Z) : Z :=
  let '(nSize, pIter) := read_size pCell 0 in
  (* eight conditions joined by [&&], then one more byte *)
  let pIter := skip_varint 9 pCell pIter in
  whole_size pBt t true nSize pIter.

Definition run_xCellSize (pBt : BtShared) (t : PageType) (pCell : list Z) : Z :=
  match xCellSize t with
  | CellSizePtr => cellSizePtr pBt t pCell
  | CellSizePtrIdxLeaf => cellSizePtrIdxLeaf pBt t pCell
  | CellSizePtrNoPayload => cellSizePtrNoPayload pCell
  | CellSizePtrTableLeaf => cellSizePtrTableLeaf pBt t pCell
  end.

Lemma wf_bt_sizes bt : wf_bt bt -> 512 <= pageSize bt <= 65536 /\ 480 <= usableSize bt <= pageSize bt.
Proof.
  intros [(k & Hk & E) Hu]. pose proof (Z.pow_le_mono_r 2 9 k ltac:(lia) ltac:(lia)). pose proof (Z.pow_le_mono_r 2 k 16 ltac:(lia) ltac:(lia)).
  change (2 ^ 9) with 512 in *. change (2 ^ 16) with 65536 in *. lia.
Qed.

(** ** The inlined varints *)

Lemma lor_cont v x : 0 <= v -> Z.lor (Z.shiftl v 7) (Z.land x 127) = v * 128 + x mod 128.
Proof. intros. rewrite land_127, lor_shiftl_add by (Z.div_mod_to_equations; lia). by change (2 ^ 7) with 128. Qed.

(** The loop on [w]-bit integers is the one on unbounded integers, modulo [2^w]. *)
Fixpoint groups_value_from (k : nat) (p : list Z) (i v : Z) : Z * Z :=
  match k with
  | O => (v, i)
  | S k =>
      let i := i + 1 in
      let v := v * 128 + p.[i] mod 128 in
      if (128 <=? p.[i]) && negb (Nat.eqb k 0) then groups_value_from k p i v else (v, i)
  end.

Lemma size_loop_mod k w p i n v : 7 <= w -> 0 <= v -> n = v mod 2 ^ w ->
  size_loop k w p i n = (fst (groups_value_from k p i v) mod 2 ^ w, snd (groups_value_from k p i v)).
Proof.
  intros Hw. revert i n v. induction k as [|k IH]; intros i n v Hv ->; cbn [size_loop groups_value_from]; [done|].
  assert (E : Z.lor (Z.shiftl (v mod 2 ^ w) 7 mod 2 ^ w) (Z.land p.[i + 1] 127) = (v * 128 + p.[i + 1] mod 128) mod 2 ^ w).
  { rewrite land_127, Z.shiftl_mul_pow2 by lia. change (2 ^ 7) with 128. rewrite Z.mul_mod_idemp_l by lia.
    replace w with (7 + (w - 7)) by lia. rewrite Z.pow_add_r by lia. change (2 ^ 7) with 128.
    set (m := 2 ^ (w - 7)). assert (0 < m) by (unfold m; lia).
    rewrite Z.mul_comm, Z.mul_mod_distr_l by lia.
    replace (128 * (v mod m)) with (Z.shiftl (v mod m) 7) by (rewrite Z.shiftl_mul_pow2 by lia; lia).
    rewrite lor_shiftl_add by (Z.div_mod_to_equations; lia). change (2 ^ 7) with 128.
    apply Z.mod_unique_pos with (v / m); [Z.div_mod_to_equations; nia|].
    pose proof (Z.div_mod v m ltac:(lia)). lia. }
  rewrite E. destruct (_ && _); [|done]. apply IH; [Z.div_mod_to_equations; lia|done].
Qed.

Lemma groups_value_from_nonneg k p i v : 0 <= v -> 0 <= fst (groups_value_from k p i v).
Proof.
  revert i v. induction k as [|k IH]; intros i v Hv; cbn [groups_value_from]; [done|].
  destruct (_ && _); [apply IH|cbn]; Z.div_mod_to_equations; lia.
Qed.
Lemma groups_value_from_pos k p i v : i <= snd (groups_value_from k p i v) <= i + Z.of_nat k.
Proof.
  revert i v. induction k as [|k IH]; intros i v; cbn [groups_value_from]; [cbn; lia|].
  destruct (_ && _); [pose proof (IH (i + 1) (v * 128 + p.[i + 1] mod 128))|cbn]; lia.
Qed.

(** Seven bits of every byte but the ninth: where the format and the loop agree. *)
Lemma groups_value_varint k p i v : (k <= 8)%nat -> bytes_ok p -> 0 <= i -> 0 <= v ->
  fst (varint_from k p i v) - i <= Z.of_nat k -> (0 < k)%nat -> 128 <= p.[i] ->
  groups_value_from k p i (v * 128 + p.[i] mod 128) =
    (snd (varint_from k p i v), fst (varint_from k p i v) - 1).
Proof.
  intros Hk Hp. revert i v Hk. induction k as [|k IH]; intros i v Hk Hi Hv Hn Hpos Hc; [lia|].
  pose proof (zget_byte p i Hp) as B0. pose proof (zget_byte p (i + 1) Hp) as B1. unfold is_u8 in *.
  cbn [varint_from] in Hn |- *. rewrite (proj2 (Z.ltb_ge _ _)) in * by lia.
  cbn [groups_value_from]. replace (p.[i] mod 128) with (p.[i] - 128) by (Z.div_mod_to_equations; lia).
  destruct (Z.leb_spec 128 p.[i + 1]) as [H1|H1]; cbn [andb].
  - destruct k as [|k]; [cbn in Hn; lia|]. cbn [Nat.eqb negb].
    rewrite IH by lia. done.
  - rewrite Z.mod_small by lia. destruct k as [|k]; cbn [varint_from fst snd] in *; [lia|].
    rewrite (proj2 (Z.ltb_lt _ _)) by lia. cbn. f_equal; lia.
Qed.

(** [read_size] and the payload size of the parsers. *)
Definition payload_varint (k : nat) (p : list Z) (i : Z) : Z * Z :=
  if 128 <=? p.[i] then groups_value_from k p i (p.[i] mod 128) else (p.[i], i).

Lemma read_size_varint p i : bytes_ok p ->
  read_size p i = (fst (payload_varint 8 p i) mod 2 ^ 32, snd (payload_varint 8 p i) + 1).
Proof.
  intros Hp. pose proof (zget_byte p i Hp) as B. unfold is_u8 in B. unfold read_size, payload_varint.
  destruct (Z.leb_spec 128 p.[i]); [|cbn; by rewrite Z.mod_small by lia].
  change 0x7f with 127. rewrite land_127. rewrite (size_loop_mod 8 32 p i _ (p.[i] mod 128)); [done|lia|Z.div_mod_to_equations; lia|].
  rewrite (Z.mod_small _ (2 ^ 32)); [done|Z.div_mod_to_equations; lia].
Qed.

(** ** The unrolled key *)

Lemma varint_from_drop k p i j acc : 0 <= i -> 0 <= j ->
  varint_from k (drop (Z.to_nat i) p) j acc = (fst (varint_from k p (i + j) acc) - i, snd (varint_from k p (i + j) acc)).
Proof.
  intros Hi. revert j acc. induction k as [|k IH]; intros j acc Hj; cbn [varint_from]; rewrite zget_dropped by lia.
  - cbn. f_equal. lia.
  - destruct (_ <? _); [cbn; f_equal; lia|]. rewrite IH by lia. by replace (i + (j + 1)) with (i + j + 1) by lia.
Qed.

Lemma lxor_range a b n : 0 <= n -> 0 <= a < 2 ^ n -> 0 <= b < 2 ^ n -> 0 <= Z.lxor a b < 2 ^ n.
Proof.
  intros Hn Ha Hb. split; [apply Z.lxor_nonneg; lia|].
  destruct (Z.eq_dec (Z.lxor a b) 0) as [->|Hne]; [lia|].
  apply Z.log2_lt_pow2; [assert (0 <= Z.lxor a b) by (apply Z.lxor_nonneg; lia); lia|].
  pose proof (Z.log2_lxor a b ltac:(lia) ltac:(lia)).
  assert (forall x, 0 <= x < 2 ^ n -> x = 0 \/ Z.log2 x < n) as L.
  { intros x Hx. destruct (Z.eq_dec x 0); [by left|right]. apply Z.log2_lt_pow2; lia. }
  destruct (L a Ha) as [->|], (L b Hb) as [->|]; try lia; rewrite ?Z.lxor_0_l, ?Z.lxor_0_r in *; try done; cbn in *; lia.
Qed.

Lemma land_shiftl_low v x k : 0 <= k -> 0 <= x < 2 ^ k -> Z.land (Z.shiftl v k) x = 0.
Proof.
  intros Hk Hx. apply Z.bits_inj'. intros n Hn. rewrite Z.land_spec, Z.shiftl_spec, Z.bits_0 by lia.
  destruct (Z.ltb_spec n k); [rewrite (Z.testbit_neg_r v) by lia; done|].
  rewrite <- (Z.mod_small x (2 ^ k)) by lia. rewrite Z.mod_pow2_bits_high by lia. apply andb_false_r.
Qed.
Lemma add_low v x : 0 <= v -> 0 <= x < 128 -> v * 128 + x = Z.lxor (v * 128) x.
Proof.
  intros Hv Hx. change 128 with (2 ^ 7). rewrite <- lor_shiftl_add, <- Z.shiftl_mul_pow2 by lia. symmetry.
  apply Z.lxor_lor, land_shiftl_low; lia.
Qed.

Lemma shl_lxor v c : 0 <= v < 2 ^ 56 -> 0 <= c < 2 ^ 56 ->
  Z.shiftl (Z.lxor v c) 7 mod 2 ^ 64 = Z.lxor (v * 128) (c * 128).
Proof.
  intros Hv Hc. pose proof (lxor_range v c 56 ltac:(lia) Hv Hc).
  rewrite Z.mod_small by (rewrite Z.shiftl_mul_pow2 by lia; lia). rewrite Z.shiftl_lxor, !Z.shiftl_mul_pow2 by lia. done.
Qed.

(** The decoder's word is the value so far, xored with a constant that accounts for the
    continuation bits. *)
Lemma key_cont v c x : 0 <= v < 2 ^ 56 -> 0 <= c < 2 ^ 56 -> 128 <= x < 256 ->
  Z.lxor (Z.shiftl (Z.lxor v c) 7 mod 2 ^ 64) x = Z.lxor (v * 128 + (x - 128)) (Z.lxor (c * 128) 128).
Proof.
  intros Hv Hc Hx. rewrite shl_lxor, add_low by lia. replace x with (Z.lxor (x - 128) 128) at 1.
  - rewrite !Z.lxor_assoc. f_equal. rewrite (Z.lxor_comm (x - 128) (Z.lxor _ _)), Z.lxor_assoc. f_equal. apply Z.lxor_comm.
  - rewrite Z.lxor_comm. change 128 with (1 * 128) at 1. rewrite <- add_low by lia. lia.
Qed.
Lemma key_last v c x : 0 <= v < 2 ^ 56 -> 0 <= c < 2 ^ 56 -> 0 <= x < 128 ->
  Z.lxor (Z.shiftl (Z.lxor v c) 7 mod 2 ^ 64) x = Z.lxor (v * 128 + x) (c * 128).
Proof.
  intros Hv Hc Hx. rewrite shl_lxor, add_low by lia. rewrite !Z.lxor_assoc. f_equal. apply Z.lxor_comm.
Qed.
Lemma lxor_mask a m x : Z.lxor (Z.lxor a m) x = Z.lxor (Z.lxor a x) m.
Proof. rewrite !Z.lxor_assoc. f_equal. apply Z.lxor_comm. Qed.
Lemma key_first_byte x : 128 <= x < 256 -> x = Z.lxor (x - 128) 128.
Proof. intros. rewrite Z.lxor_comm. change 128 with (1 * 128) at 1. rewrite <- add_low by lia. lia. Qed.

(** The word after one more byte, in the form of the lemmas above. *)
Ltac xor_constants :=
  repeat match goal with
  | |- context [Zpos ?a * 128] => let c := eval vm_compute in (Zpos a * 128) in change (Zpos a * 128) with c
  | |- context [Z.lxor (Zpos ?a) (Zpos ?b)] => let c := eval vm_compute in (Z.lxor (Zpos a) (Zpos b)) in change (Z.lxor (Zpos a) (Zpos b)) with c
  | |- context [Z.lxor (Z.lxor ?x (Zpos ?a)) (Zpos ?b)] => rewrite (Z.lxor_assoc x (Zpos a) (Zpos b))
  end;
  rewrite ?Z.lxor_0_r.
Ltac key_step :=
  rewrite ?(lxor_mask (_ mod _) (Zpos _));
  match goal with
  | |- context [Z.lxor (Z.shiftl (Z.lxor ?v (Zpos ?c)) 7 mod _) ?x] =>
      first [rewrite (key_cont v (Zpos c) x) by lia | rewrite (key_last v (Zpos c) x) by lia]
  end; xor_constants.
Ltac key_exit x := rewrite (key_first_byte x) at 1 by lia; repeat key_step; cbn [fst snd]; f_equal; lia.

Lemma key_varint_varint p i : bytes_ok p -> 0 <= i ->
  key_varint p i = (snd (varint (drop (Z.to_nat i) p)), i + fst (varint (drop (Z.to_nat i) p)) - 1).
Proof.
  intros Hp Hi. unfold varint. rewrite varint_from_drop, Z.add_0_r by lia. cbn [fst snd].
  unfold key_varint. cbn [varint_from]. cbv zeta.
  pose proof (zget_byte p i Hp) as B0. pose proof (zget_byte p (i + 1) Hp) as B1. pose proof (zget_byte p (i + 1 + 1) Hp) as B2.
  pose proof (zget_byte p (i + 1 + 1 + 1) Hp) as B3. pose proof (zget_byte p (i + 1 + 1 + 1 + 1) Hp) as B4.
  pose proof (zget_byte p (i + 1 + 1 + 1 + 1 + 1) Hp) as B5. pose proof (zget_byte p (i + 1 + 1 + 1 + 1 + 1 + 1) Hp) as B6.
  pose proof (zget_byte p (i + 1 + 1 + 1 + 1 + 1 + 1 + 1) Hp) as B7. pose proof (zget_byte p (i + 1 + 1 + 1 + 1 + 1 + 1 + 1 + 1) Hp) as B8.
  clear Hp. unfold is_u8 in *. rewrite !Z.leb_antisym.
  generalize dependent p.[i]. intros x0 B0. generalize dependent p.[i + 1]. intros x1 B1.
  generalize dependent p.[i + 1 + 1]. intros x2 B2. generalize dependent p.[i + 1 + 1 + 1]. intros x3 B3.
  generalize dependent p.[i + 1 + 1 + 1 + 1]. intros x4 B4. generalize dependent p.[i + 1 + 1 + 1 + 1 + 1]. intros x5 B5.
  generalize dependent p.[i + 1 + 1 + 1 + 1 + 1 + 1]. intros x6 B6. generalize dependent p.[i + 1 + 1 + 1 + 1 + 1 + 1 + 1]. intros x7 B7.
  generalize dependent p.[i + 1 + 1 + 1 + 1 + 1 + 1 + 1 + 1]. intros x8 B8.
  rewrite !Z.mul_0_l.
  destruct (Z.ltb_spec x0 128); cbn [negb]; [cbn [fst snd]; f_equal; lia|].
  destruct (Z.ltb_spec x1 128); cbn [negb]; [key_exit x0|].
  destruct (Z.ltb_spec x2 128); cbn [negb]; [key_exit x0|].
  destruct (Z.ltb_spec x3 128); cbn [negb]; [key_exit x0|].
  destruct (Z.ltb_spec x4 128); cbn [negb]; [key_exit x0|].
  destruct (Z.ltb_spec x5 128); cbn [negb]; [key_exit x0|].
  destruct (Z.ltb_spec x6 128); cbn [negb]; [key_exit x0|].
  destruct (Z.ltb_spec x7 128); cbn [negb]; [key_exit x0|].
  rewrite (key_first_byte x0) at 1 by lia. do 7 key_step.
  match goal with |- context [Z.shiftl (Z.lxor ?v 128) 8] => set (w := v) end.
  assert (Hw : 0 <= w < 2 ^ 56) by (unfold w; lia).
  assert (E : Z.shiftl (Z.lxor w 128) 8 mod 2 ^ 64 = Z.lxor (w * 256) 0x8000).
  { rewrite Z.mod_small.
    - by rewrite Z.shiftl_lxor, !Z.shiftl_mul_pow2 by lia.
    - rewrite Z.shiftl_mul_pow2 by lia. pose proof (lxor_range w 128 56 ltac:(lia) ltac:(lia) ltac:(lia)). lia. }
  rewrite E, (lxor_mask (w * 256)), Z.lxor_assoc, Z.lxor_nilpotent, Z.lxor_0_r.
  replace (Z.lxor (w * 256) x8) with (w * 256 + x8); [cbn [fst snd]; unfold w; f_equal; lia|].
  change 256 with (2 ^ 8). rewrite <- lor_shiftl_add, <- Z.shiftl_mul_pow2 by lia. symmetry. by apply Z.lxor_lor, land_shiftl_low.
Qed.

Lemma varint_from_pos k p i acc : i < fst (varint_from k p i acc) <= i + Z.of_nat k + 1.
Proof.
  revert i acc. induction k as [|k IH]; intros i acc; cbn [varint_from]; [cbn; lia|].
  destruct (_ <? _); [cbn; lia|]. pose proof (IH (i + 1) (acc * 128 + (p.[i] - 128))). lia.
Qed.

(** Skipping a varint goes to where decoding it ends. *)
Lemma skip_varint_from k p i acc : bytes_ok p -> skip_varint (S k) p i = fst (varint_from k p i acc).
Proof.
  intros Hp. revert i acc. induction k as [|k IH]; intros i acc.
  - cbn. by rewrite andb_false_r.
  - pose proof (zget_byte p i Hp) as B. cbn [varint_from]. cbn [skip_varint]. cbn [Nat.eqb negb]. rewrite andb_true_r.
    replace (truthy (Z.land p.[i] 128)) with (negb (p.[i] <? 128)); [|unfold truthy; by rewrite bit7_clear].
    destruct (p.[i] <? 128); cbn [negb]; [done|]. by apply IH.
Qed.

Lemma skip_key_varint p i : bytes_ok p -> 0 <= i -> skip_varint 9 p i = snd (key_varint p i) + 1.
Proof.
  intros Hp Hi. rewrite key_varint_varint by done. cbn [snd]. unfold varint. rewrite varint_from_drop by lia. cbn [fst].
  rewrite (skip_varint_from 8 p i 0) by done. rewrite Z.add_0_r. lia.
Qed.

(** ** Page types *)

(** What the routines need of the limits: [lockBtree] provides it. *)
Record limits_ok (pBt : BtShared) (t : PageType) : Prop := {
  lo_usable : 480 <= usableSize pBt <= 65536;
  lo_min : 0 < minLocal t <= maxLocal t;
  lo_max : maxLocal t + 35 <= usableSize pBt }.

Lemma whole_size_parse pBt t min4 key n i : limits_ok pBt t -> 0 <= n < 2 ^ 32 -> 0 < i < 32 -> (min4 = false -> 4 <= i) ->
  whole_size pBt t min4 n i = nSize (local_size pBt t (mkInfo key i n 0 0)).
Proof.
  intros [Hu Hm Hx] Hn Hi H4. unfold whole_size, local_size. cbn [nPayload pPayload nKey nSize].
  destruct (Z.leb_spec n (maxLocal t)) as [Hle|Hgt]; cbn [nSize].
  - assert (E : u32 (n + u32 i) = n + i) by (unfold u32; rewrite (Z.mod_small i), Z.mod_small; lia).
    assert (E' : u16 (u16 n + u16 i) = n + i) by (unfold u16; rewrite (Z.mod_small n), (Z.mod_small i), Z.mod_small; lia).
    rewrite E, E'. destruct min4; cbn [andb].
    + destruct (n + i <? 4); [done|]. unfold u16. by rewrite Z.mod_small by lia.
    + specialize (H4 eq_refl). rewrite (proj2 (Z.ltb_ge _ _)) by lia. unfold u16. by rewrite Z.mod_small by lia.
  - unfold btreeParseCellAdjustSizeForOverflow. cbn [nSize nPayload pPayload].
    set (r := u32 (n - minLocal t) mod (usableSize pBt - 4)).
    assert (Hr : 0 <= r < usableSize pBt - 4) by (apply Z.mod_pos_bound; lia).
    assert (E : u32 (minLocal t + r) = minLocal t + r) by (unfold u32; rewrite Z.mod_small; lia). rewrite E.
    assert (Ei : u16 i = i) by (unfold u16; rewrite Z.mod_small; lia). rewrite Ei.
    destruct (Z.leb_spec (minLocal t + r) (maxLocal t)); [rewrite (proj2 (Z.ltb_ge _ _)) by lia|rewrite (proj2 (Z.ltb_lt _ _)) by lia].
    all: unfold u16; rewrite ?Z.add_mod_idemp_r, ?Z.add_mod_idemp_l by lia; f_equal; lia.
Qed.

Lemma decodeFlags_ok pBt t0 flagByte t : decodeFlags pBt t0 flagByte = (SQLITE_OK, t) ->
  match xParseCell t, xCellSize t with
  | ParseCellPtr, CellSizePtrTableLeaf => childPtrSize t = 0 /\ intKey t = true /\ leaf t = true /\ maxLocal t = bt_maxLeaf pBt /\ minLocal t = bt_minLeaf pBt
  | ParseCellPtrIndex, CellSizePtrIdxLeaf => childPtrSize t = 0 /\ intKey t = false /\ leaf t = true /\ maxLocal t = bt_maxLocal pBt /\ minLocal t = bt_minLocal pBt
  | ParseCellPtrIndex, CellSizePtr => childPtrSize t = 4 /\ intKey t = false /\ leaf t = false /\ maxLocal t = bt_maxLocal pBt /\ minLocal t = bt_minLocal pBt
  | ParseCellPtrNoPayload, CellSizePtrNoPayload => childPtrSize t = 4 /\ intKey t = true /\ leaf t = false /\ maxLocal t = bt_maxLeaf pBt /\ minLocal t = bt_minLeaf pBt
  | _, _ => False
  end.
Proof.
  unfold decodeFlags. intros H.
  repeat match type of H with context [if ?b then _ else _] => destruct b end; inversion H; subst; cbn; done.
Qed.

Lemma lockBtree_limits_ok av fl ps us t0 flagByte t : 480 <= us <= 65536 -> decodeFlags (lockBtree_limits av fl ps us) t0 flagByte = (SQLITE_OK, t) ->
  limits_ok (lockBtree_limits av fl ps us) t.
Proof.
  intros Hu H%decodeFlags_ok.
  assert (E : maxLocal t = bt_maxLocal (lockBtree_limits av fl ps us) /\ minLocal t = bt_minLocal (lockBtree_limits av fl ps us) \/
              maxLocal t = bt_maxLeaf (lockBtree_limits av fl ps us) /\ minLocal t = bt_minLeaf (lockBtree_limits av fl ps us)).
  { destruct (xParseCell t), (xCellSize t); try done; tauto. }
  clear H. unfold lockBtree_limits in *. cbn [bt_maxLocal bt_minLocal bt_maxLeaf bt_minLeaf] in E.
  assert (E1 : u32 ((us - 12) * 64) = (us - 12) * 64) by (unfold u32; rewrite Z.mod_small; lia).
  assert (E2 : u32 ((us - 12) * 32) = (us - 12) * 32) by (unfold u32; rewrite Z.mod_small; lia).
  rewrite E1, E2 in E. set (a := (us - 12) * 64 / 255) in *. set (b := (us - 12) * 32 / 255) in *.
  assert (Ha : b <= a /\ 58 <= b /\ 2 * b <= a /\ a <= us - 12) by (unfold a, b; split_and!; Z.div_mod_to_equations; lia).
  assert (Ea : u16 (u32 (a - 23)) = a - 23) by (unfold u16, u32; rewrite (Z.mod_small (a - 23)), Z.mod_small; lia).
  assert (Eb : u16 (u32 (b - 23)) = b - 23) by (unfold u16, u32; rewrite (Z.mod_small (b - 23)), Z.mod_small; lia).
  assert (El : u16 (us - 35) = us - 35) by (unfold u16; rewrite Z.mod_small; lia).
  rewrite Ea, Eb, El in E. split; cbn [usableSize]; lia.
Qed.

Lemma read_size_index p i : bytes_ok p ->
  (let n := p.[i] in let '(n, j) := if 128 <=? n then size_loop 8 32 p i (Z.land n 0x7f) else (n, i) in (n, j + 1)) = read_size p i.
Proof. done. Qed.

Lemma payload_varint_range k p i : bytes_ok p -> (k <= 8)%nat -> 0 <= fst (payload_varint k p i) /\ i <= snd (payload_varint k p i) <= i + 8.
Proof.
  intros Hp Hk. pose proof (zget_byte p i Hp) as B. unfold is_u8 in B. unfold payload_varint. destruct (_ <=? _); [|cbn; lia].
  pose proof (groups_value_from_nonneg k p i (p.[i] mod 128) ltac:(Z.div_mod_to_equations; lia)).
  pose proof (groups_value_from_pos k p i (p.[i] mod 128)). lia.
Qed.

Lemma key_varint_pos p i : bytes_ok p -> 0 <= i -> i <= snd (key_varint p i) <= i + 8.
Proof.
  intros Hp Hi. rewrite key_varint_varint by done. cbn [snd]. pose proof (varint_from_pos 8 (drop (Z.to_nat i) p) 0 0). unfold varint. lia.
Qed.

(** The payload size in [btreeParseCellPtr], masked after the loop. *)
Lemma parse_payload p : bytes_ok p ->
  (let n := p.[0] in
   if 128 <=? n then let '(n, i) := size_loop 8 64 p 0 (Z.land n 0x7f) in (Z.land n 0xffffffff, i) else (n, 0)) =
  (fst (payload_varint 8 p 0) mod 2 ^ 32, snd (payload_varint 8 p 0)).
Proof.
  intros Hp. pose proof (zget_byte p 0 Hp) as B. unfold is_u8 in B. cbv zeta. unfold payload_varint.
  destruct (Z.leb_spec 128 p.[0]); [|cbn [fst snd]; by rewrite (Z.mod_small p.[0]) by lia].
  change 0x7f with 127. rewrite land_127. rewrite (size_loop_mod 8 64 p 0 _ (p.[0] mod 128)); [|lia|Z.div_mod_to_equations; lia|].
  - change 0xffffffff with (Z.ones 32). rewrite Z.land_ones by lia. f_equal.
    replace (2 ^ 64) with (2 ^ 32 * 2 ^ 32) by done. rewrite Z.rem_mul_r by lia. rewrite (Z.mul_comm (2 ^ 32)), Z.mod_add by lia. by apply Z.mod_mod.
  - pose proof (Z.mod_pos_bound p.[0] 128 ltac:(lia)). by rewrite (Z.mod_small _ (2 ^ 64)) by lia.
Qed.

Lemma cell_sizes_agree_ok pBt t0 flagByte t pCell : decodeFlags pBt t0 flagByte = (SQLITE_OK, t) -> limits_ok pBt t -> bytes_ok pCell ->
  run_xCellSize pBt t pCell = nSize (run_xParseCell pBt t pCell).
Proof.
  intros H%decodeFlags_ok Hl Hp. unfold run_xCellSize, run_xParseCell.
  destruct (xParseCell t), (xCellSize t); try done; destruct H as (Hc & _).
  - pose proof (payload_varint_range 8 pCell 0 Hp ltac:(lia)) as [Hn Hi].
    unfold cellSizePtrTableLeaf, btreeParseCellPtr. rewrite read_size_varint by done. rewrite parse_payload by done.
    rewrite (skip_key_varint _ _ Hp) by lia. pose proof (key_varint_pos pCell (snd (payload_varint 8 pCell 0) + 1) Hp ltac:(lia)).
    destruct (key_varint _ _) as [key j]. cbn [fst snd] in *. unfold u32 at 1. rewrite Zmod_mod.
    apply whole_size_parse; [done| |lia|done]. apply Z.mod_pos_bound. lia.
  - pose proof (payload_varint_range 8 pCell 4 Hp ltac:(lia)) as [Hn Hi].
    unfold cellSizePtr, btreeParseCellPtrIndex. rewrite Hc.
    pose proof (read_size_index pCell 4 Hp) as E. cbv zeta in E. rewrite read_size_varint in * by done.
    destruct (if 128 <=? pCell.[4] then _ else _) as [n j]. injection E as -> E. assert (j = snd (payload_varint 8 pCell 4)) as -> by lia.
    apply whole_size_parse; [done| |lia|lia]. apply Z.mod_pos_bound. lia.
  - pose proof (payload_varint_range 8 pCell 0 Hp ltac:(lia)) as [Hn Hi].
    unfold cellSizePtrIdxLeaf, btreeParseCellPtrIndex. rewrite Hc.
    pose proof (read_size_index pCell 0 Hp) as E. cbv zeta in E. rewrite read_size_varint in * by done.
    destruct (if 128 <=? pCell.[0] then _ else _) as [n j]. injection E as -> E. assert (j = snd (payload_varint 8 pCell 0)) as -> by lia.
    apply whole_size_parse; [done| |lia|lia]. apply Z.mod_pos_bound. lia.
  - unfold cellSizePtrNoPayload, btreeParseCellPtrNoPayload. rewrite getvarint_varint by (by apply Forall_drop).
    rewrite (skip_varint_from 8 pCell 4 0) by done. unfold varint. change 4%nat with (Z.to_nat 4). rewrite varint_from_drop by lia. cbn [nSize].
    do 2 f_equal. change (4 + 0) with 4. lia.
Qed.

(** ** Cells as they are written *)

Lemma bytes_append a b : bytes_ok a -> bytes_ok b -> bytes_ok (a ++ b).
Proof. intros. by apply Forall_app. Qed.
#[export] Hint Resolve bytes_append varint_enc_bytes : sqlite.

Lemma payload_varint_enc p i n rest : bytes_ok p -> 0 <= i -> 0 <= n < 2 ^ 56 -> drop (Z.to_nat i) p = varint_enc n ++ rest ->
  payload_varint 8 p i = (n, i + zlen (varint_enc n) - 1).
Proof.
  intros Hp Hi Hn Hd. pose proof (varint_enc_dec n rest ltac:(unfold is_u64; lia)) as E. rewrite <- Hd in E.
  unfold varint in E. rewrite varint_from_drop, Z.add_0_r in E by lia.
  assert (Ef : varint_from 8 p i 0 = (i + zlen (varint_enc n), n)).
  { destruct (varint_from 8 p i 0) as [a b]. cbn [fst snd] in E. injection E as E1 E2. f_equal; lia. }
  assert (H8 : zlen (varint_enc n) <= 8).
  { rewrite <- varintlen_enc by lia. pose proof (varintlen_loop 8 1 n ltac:(change (128 ^ Z.of_nat 9) with (2 ^ 63); lia)) as _.
    unfold varint_enc. rewrite varintlen_enc by lia. unfold varint_enc. rewrite (proj2 (Z.ltb_lt _ _)) by lia.
    rewrite zlen_snoc. unfold zlen. rewrite length_map, length_groups. pose proof (ngroups_le 10 8 n ltac:(cbn; lia) ltac:(lia)). lia. }
  pose proof (zget_byte p i Hp) as B. unfold is_u8 in B. unfold payload_varint.
  destruct (Z.leb_spec 128 p.[i]) as [Hc|Hc].
  - replace (p.[i] mod 128) with (0 * 128 + p.[i] mod 128) by lia. rewrite groups_value_varint; rewrite ?Ef; cbn [fst snd]; try lia; done.
  - cbn [varint_from] in Ef. rewrite (proj2 (Z.ltb_lt _ _)) in Ef by lia. injection Ef as E1 E2. f_equal; lia.
Qed.

Lemma key_varint_enc p i k rest : bytes_ok p -> 0 <= i -> is_u64 k -> drop (Z.to_nat i) p = varint_enc k ++ rest ->
  key_varint p i = (k, i + zlen (varint_enc k) - 1).
Proof. intros Hp Hi Hk Hd. rewrite key_varint_varint by done. by rewrite Hd, varint_enc_dec. Qed.

Lemma drop_app_zlen (a b : list Z) : drop (Z.to_nat (zlen a)) (a ++ b) = b.
Proof. unfold zlen. rewrite Nat2Z.id. apply drop_app_length. Qed.

Lemma parse_table_cell pBt t n key rest : 0 <= n < 2 ^ 31 -> is_i64 key -> bytes_ok rest ->
  let head := varint_enc n ++ varint_enc (u64 key) in
  btreeParseCellPtr pBt t (head ++ rest) = local_size pBt t (mkInfo key (zlen head) n 0 0).
Proof.
  intros Hn Hk Hr head. set (p := head ++ rest).
  assert (Hp : bytes_ok p) by (unfold p, head; auto with sqlite).
  assert (U : is_u64 (u64 key)) by (unfold is_u64, u64; apply Z.mod_pos_bound; lia).
  pose proof (payload_varint_enc p 0 n (varint_enc (u64 key) ++ rest) Hp ltac:(lia) ltac:(lia) ltac:(unfold p, head; by rewrite <- app_assoc)) as E1.
  pose proof (varint_enc_len n ltac:(unfold is_u64; lia)).
  assert (E2 : key_varint p (zlen (varint_enc n)) = (u64 key, zlen (varint_enc n) + zlen (varint_enc (u64 key)) - 1)).
  { apply (key_varint_enc _ _ _ rest); [done|lia|done|]. unfold p, head. rewrite <- app_assoc. apply drop_app_zlen. }
  pose proof (parse_payload p Hp) as E. unfold btreeParseCellPtr. cbv zeta in *. rewrite E, E1. cbn [fst snd].
  replace (0 + zlen (varint_enc n) - 1 + 1) with (zlen (varint_enc n)) by lia. rewrite E2.
  do 2 f_equal; [|unfold head; rewrite zlen_app; lia|].
  - unfold i64, u64. rewrite Z.add_mod_idemp_l by lia. unfold is_i64 in Hk. rewrite Z.mod_small; lia.
  - unfold u32. rewrite Zmod_mod, Z.mod_small by lia. done.
Qed.

Lemma parse_index_cell pBt t child n rest : zlen child = childPtrSize t -> 0 <= n < 2 ^ 31 -> bytes_ok child -> bytes_ok rest ->
  let head := child ++ varint_enc n in
  btreeParseCellPtrIndex pBt t (head ++ rest) = local_size pBt t (mkInfo n (zlen head) n 0 0).
Proof.
  intros Hc Hn Hb Hr head. set (p := head ++ rest).
  assert (Hp : bytes_ok p) by (unfold p, head; auto with sqlite).
  pose proof (zlen_nonneg child).
  assert (E : read_size p (childPtrSize t) = (n, zlen head)).
  { rewrite read_size_varint by done. rewrite <- Hc. rewrite (payload_varint_enc p (zlen child) n rest Hp ltac:(lia) ltac:(lia)).
    - cbn [fst snd]. rewrite Z.mod_small by lia. unfold head. rewrite zlen_app. f_equal. lia.
    - unfold p, head. rewrite <- app_assoc. apply drop_app_zlen. }
  unfold read_size in E. unfold btreeParseCellPtrIndex.
  destruct (if 128 <=? p.[childPtrSize t] then _ else _) as [n' j]. injection E as -> <-. done.
Qed.

Lemma parse_interior_cell child key rest : zlen child = 4 -> is_i64 key -> bytes_ok child -> bytes_ok rest ->
  btreeParseCellPtrNoPayload (child ++ varint_enc (u64 key) ++ rest) = mkInfo key 0 0 0 (4 + zlen (varint_enc (u64 key))).
Proof.
  intros Hc Hk Hb Hr. assert (U : is_u64 (u64 key)) by (unfold is_u64, u64; apply Z.mod_pos_bound; lia).
  pose proof (varint_enc_len _ U). unfold btreeParseCellPtrNoPayload.
  replace (drop 4 _) with (varint_enc (u64 key) ++ rest) by (rewrite drop_app_length'; [done|unfold zlen in Hc; lia]).
  rewrite getvarint_varint by (auto with sqlite). rewrite varint_enc_dec by done. f_equal.
  - unfold i64, u64. rewrite Z.add_mod_idemp_l by lia. unfold is_i64 in Hk. rewrite Z.mod_small; lia.
  - unfold u16. rewrite Z.mod_small; lia.
Qed.

(** How much of a payload is kept on the page: parsers and [btreePayloadToLocal] agree. *)
Definition local_bytes (pBt : BtShared) (t : PageType) (n : Z) : Z :=
  if n <=? maxLocal t then n
  else let s := minLocal t + (n - minLocal t) mod (usableSize pBt - 4) in if s <=? maxLocal t then s else minLocal t.

Lemma local_bytes_range pBt t n : limits_ok pBt t -> 0 <= n -> 0 <= local_bytes pBt t n <= maxLocal t /\ local_bytes pBt t n <= n.
Proof.
  intros [Hu Hm Hx] Hn. unfold local_bytes. destruct (Z.leb_spec n (maxLocal t)); [lia|].
  pose proof (Z.mod_pos_bound (n - minLocal t) (usableSize pBt - 4) ltac:(lia)).
  destruct (Z.leb_spec (minLocal t + (n - minLocal t) mod (usableSize pBt - 4)) (maxLocal t)); lia.
Qed.

Lemma local_size_ok pBt t key off n : limits_ok pBt t -> 0 <= n < 2 ^ 31 -> 0 < off <= 22 ->
  local_size pBt t (mkInfo key off n 0 0) =
    mkInfo key off n (local_bytes pBt t n) (if n <=? maxLocal t then Z.max 4 (n + off) else off + local_bytes pBt t n + 4).
Proof.
  intros Hl Hn Ho. pose proof (local_bytes_range pBt t n Hl ltac:(lia)) as R. destruct Hl as [Hu Hm Hx].
  unfold local_size, local_bytes in *. cbn [nPayload pPayload nKey].
  destruct (Z.leb_spec n (maxLocal t)).
  - unfold u16. rewrite (Z.mod_small n), (Z.mod_small off), Z.mod_small by lia. f_equal. destruct (Z.ltb_spec (n + off) 4); lia.
  - unfold btreeParseCellAdjustSizeForOverflow. cbn [nPayload pPayload nKey].
    assert (E : u32 (n - minLocal t) = n - minLocal t) by (unfold u32; rewrite Z.mod_small; lia). rewrite E.
    pose proof (Z.mod_pos_bound (n - minLocal t) (usableSize pBt - 4) ltac:(lia)).
    set (s := (n - minLocal t) mod (usableSize pBt - 4)) in *.
    assert (E1 : u16 (minLocal t) = minLocal t) by (unfold u16; rewrite Z.mod_small; lia).
    destruct (Z.leb_spec (minLocal t + s) (maxLocal t)).
    + assert (E2 : u16 (minLocal t + s) = minLocal t + s) by (unfold u16; rewrite Z.mod_small; lia). rewrite E2.
      f_equal. unfold u16. rewrite (Z.mod_small (off + _)), Z.mod_small; lia.
    + rewrite E1. f_equal. unfold u16. rewrite (Z.mod_small (off + _)), Z.mod_small; lia.
Qed.

Lemma payload_to_local_ok pBt t n : limits_ok pBt t -> 0 <= n < 2 ^ 31 -> btreePayloadToLocal pBt t n = local_bytes pBt t n.
Proof.
  intros [Hu Hm Hx] Hn. unfold btreePayloadToLocal, local_bytes.
  assert (I : forall z, 0 <= z < 2 ^ 31 -> i32 z = z) by (intros; unfold i32; rewrite Z.mod_small; lia).
  pose proof (Z.mod_pos_bound (n - minLocal t) (usableSize pBt - 4) ltac:(lia)).
  rewrite !I by lia. done.
Qed.

(** ** Properties *)

Definition no_type : PageType := mkType false false false 0 0 0 0 CellSizePtr ParseCellPtr.

(** C20. For each kind of page and any bytes whatever, of a cell or not, the routine that
    computes the size of a cell without parsing it returns the size that parsing gives: the
    two are used interchangeably. *)
Theorem cell_sizes_agree (autoVacuum : bool) (btsFlags page usable flagByte : Z) (t0 t : PageType) (pCell : list Z)
  (pBt := lockBtree_limits autoVacuum btsFlags page usable) :
  480 <= usable <= 65536 -> decodeFlags pBt t0 flagByte = (SQLITE_OK, t) -> bytes_ok pCell ->
  run_xCellSize pBt t pCell = nSize (run_xParseCell pBt t pCell).
Proof.
  intros Hu Hd Hp. apply (cell_sizes_agree_ok pBt t0 flagByte); [done| |done]. by eapply lockBtree_limits_ok.
Qed.

Lemma cell_sizes_agree_witness :
  let pBt := lockBtree_limits false 0 512 512 in
  run_xCellSize pBt (snd (decodeFlags pBt no_type 13)) [131; 116; 5; 1; 2] = 3 + 39 + 4 /\
  nSize (run_xParseCell pBt (snd (decodeFlags pBt no_type 13)) [131; 116; 5; 1; 2]) = 46.
Proof.
  cbv zeta. split; [reflexivity|].
  rewrite <- (cell_sizes_agree false 0 512 512 13 no_type (snd (decodeFlags (lockBtree_limits false 0 512 512) no_type 13)) [131; 116; 5; 1; 2]);
    [reflexivity|lia|reflexivity|by_compute].
Defined.

(** A comment in [btreeParseCellPtr] calls its first loop equivalent to [getVarint32], which
    answers [0xffffffff] for a size of more than 32 bits; the loop keeps the low 32 bits. *)
Lemma inlined_size_not_clamped :
  snd (getVarint32 [144; 128; 128; 128; 0]) = 0xffffffff /\
  nPayload (btreeParseCellPtr (lockBtree_limits false 0 512 512) no_type ([144; 128; 128; 128; 0] ++ [1])) = 0.
Proof. split; reflexivity. Qed.
