(* ===== verification/BtreePage.v ===== *)
(** The pages of a b-tree (btree.c section of sqlite3.c): reading a page, the list of free
    blocks, allocating and freeing in the cell content area, defragmentation, and inserting
    and removing cells.

    A page is its bytes: a header, an array of cell pointers that grows up, and a content
    area that grows down from the end, in which cells, free blocks and fragments of up to
    three bytes lie in any order.  This file holds the definitions; BtreeSpace, BtreeFit and
    BtreeOps prove them right. *)

From S2P Require Import Prelude Bits Varint Regions BtreeCell.

(** ** Pages in memory *)

(** [nOverflow] is the length of [aiOvfl]; [aCellIdx], [aDataEnd] and [aDataOfst] are
    pointers into the page at [cellOffset], [pageSize] and [childPtrSize]. *)
Record MemPage := mkPage {
  isInit : bool; pgno : Z; hdrOffset : Z; ptype : PageType; aiOvfl : list Z; apOvfl : list (list Z);
  cellOffset : Z; nFree : Z; nCell : Z; maskPage : Z; pBt : BtShared; aData : list Z }.

Definition set_aData (p : MemPage) (d : list Z) : MemPage :=
  mkPage (isInit p) (pgno p) (hdrOffset p) (ptype p) (aiOvfl p) (apOvfl p) (cellOffset p) (nFree p) (nCell p) (maskPage p) (pBt p) d.
Definition set_nFree (p : MemPage) (v : Z) : MemPage :=
  mkPage (isInit p) (pgno p) (hdrOffset p) (ptype p) (aiOvfl p) (apOvfl p) (cellOffset p) v (nCell p) (maskPage p) (pBt p) (aData p).
Definition set_nCell (p : MemPage) (v : Z) : MemPage :=
  mkPage (isInit p) (pgno p) (hdrOffset p) (ptype p) (aiOvfl p) (apOvfl p) (cellOffset p) (nFree p) v (maskPage p) (pBt p) (aData p).
Definition add_ovfl (p : MemPage) (i : Z) (pCell : list Z) : MemPage :=
  mkPage (isInit p) (pgno p) (hdrOffset p) (ptype p) (aiOvfl p ++ [u16 i]) (apOvfl p ++ [pCell]) (cellOffset p) (nFree p) (nCell p) (maskPage p) (pBt p) (aData p).

Definition usable (p : MemPage) : Z := usableSize (pBt p).

(** [memmove(&data[d], &data[s], n)], [memset(&data[i], 0, n)] *)
Definition memmove (data : list Z) (d s n : Z) : list Z := splice data d (slice data s n).
Definition memzero (data : list Z) (i n : Z) : list Z := splice data i (replicate (Z.to_nat n) 0).

Definition findCell (p : MemPage) (i : Z) : list Z :=
  drop (Z.to_nat (Z.land (maskPage p) (get2byte (aData p) (cellOffset p + 2 * i)))) (aData p).

(** ** Defragmentation *)

Section page.
(** The pager's temporary space. *)
Variable tempSpace : list Z.

(** [for(pAddr=&data[cellOffset]; pAddr<pEnd; pAddr+=2)] *)
Fixpoint shift_pointers (n : nat) (data : list Z) (pAddr iFree iFree2 sz sz2 : Z) : list Z :=
  match n with
  | O => data
  | S n =>
      let pc := get2byte data pAddr in
      let data :=
        if pc <? iFree then put2byte data pAddr (pc + sz)
        else if pc <? iFree2 then put2byte data pAddr (pc + sz2) else data in
      shift_pointers n data (pAddr + 2) iFree iFree2 sz sz2
  end.

(** [for(i=0; i<nCell; i++)]: a result code, [data] and [cbrk]. *)
Fixpoint pack_cells (n : nat) (p : MemPage) (src data : list Z) (pAddr iCellStart cbrk : Z) : Z * list Z * Z :=
  match n with
  | O => (SQLITE_OK, data, cbrk)
  | S n =>
      let pc := get2byte data pAddr in
      if usable p - 4 <? pc then (SQLITE_CORRUPT, data, cbrk)
      else
        let size := run_xCellSize (pBt p) (ptype p) (drop (Z.to_nat pc) src) in
        let cbrk := cbrk - size in
        if (cbrk <? iCellStart) || (usable p <? pc + size) then (SQLITE_CORRUPT, data, cbrk)
        else
          let data := put2byte data pAddr cbrk in
          let data := splice data cbrk (slice src pc size) in
          pack_cells n p src data (pAddr + 2) iCellStart cbrk
  end.

(** The label [defragment_out]. *)
Definition defragment_out (p : MemPage) (data : list Z) (cbrk : Z) : Z * MemPage :=
  let hdr := hdrOffset p in
  let iCellFirst := cellOffset p + 2 * nCell p in
  if negb (data.[hdr + 7] + cbrk - iCellFirst =? nFree p) then (SQLITE_CORRUPT, set_aData p data)
  else
    let data := put2byte data (hdr + 5) cbrk in
    let data := data.[hdr + 1 <- 0].[hdr + 2 <- 0] in
    (SQLITE_OK, set_aData p (memzero data iCellFirst (cbrk - iCellFirst))).

(** The page rebuilt from a copy. *)
Definition defragment_slow (p : MemPage) : Z * MemPage :=
  let data := aData p in
  let iCellStart := get2byte data (hdrOffset p + 5) in
  let src := splice tempSpace 0 (take (Z.to_nat (usable p)) data) in
  let '(rc, data, cbrk) :=
    if 0 <? nCell p then pack_cells (Z.to_nat (nCell p)) p src data (cellOffset p) iCellStart (usable p)
    else (SQLITE_OK, data, usable p) in
  if truthy rc then (rc, set_aData p data)
  else defragment_out p (data.[hdrOffset p + 7 <- 0]) cbrk.

(** At most two free blocks: the cells before and between them are moved up. *)
Definition defragment_fast (p : MemPage) (iFree iFree2 : Z) : Z * MemPage :=
  let data := aData p in
  let sz := get2byte data (iFree + 2) in
  let top := get2byte data (hdrOffset p + 5) in
  if iFree <=? top then (SQLITE_CORRUPT, p)
  else
    let moved :=
      if truthy iFree2 then
        if iFree2 <? iFree + sz then inl data
        else
          let sz2 := get2byte data (iFree2 + 2) in
          if usable p <? iFree2 + sz2 then inl data
          else inr (memmove data (iFree + sz + sz2) (iFree + sz) (iFree2 - (iFree + sz)), sz + sz2, sz2)
      else if usable p <? iFree + sz then inl data
      else inr (data, sz, 0) in
    match moved with
    | inl data => (SQLITE_CORRUPT, set_aData p data)
    | inr (data, sz, sz2) =>
        let cbrk := top + sz in
        let data := memmove data cbrk top (iFree - top) in
        let data := shift_pointers (Z.to_nat (nCell p)) data (cellOffset p) iFree iFree2 sz sz2 in
        defragment_out p data cbrk
    end.

Definition defragmentPage (p : MemPage) (nMaxFrag : Z) : Z * MemPage :=
  let data := aData p in
  let hdr := hdrOffset p in
  if data.[hdr + 7] <=? nMaxFrag then
    let iFree := get2byte data (hdr + 1) in
    if usable p - 4 <? iFree then (SQLITE_CORRUPT, p)
    else if truthy iFree then
      let iFree2 := get2byte data iFree in
      if usable p - 4 <? iFree2 then (SQLITE_CORRUPT, p)
      else if (iFree2 =? 0) || ((data.[iFree2] =? 0) && (data.[iFree2 + 1] =? 0))
      then defragment_fast p iFree iFree2
      else defragment_slow p
    else defragment_slow p
  else defragment_slow p.

(** ** Allocation *)

(** The loop of [pageFindSlot]: the address, the result code and [aData]. *)
Fixpoint slot_loop (fuel : nat) (hdr usable nByte : Z) (aData : list Z) (iAddr pc : Z) : option Z * Z * list Z :=
  match fuel with
  | O => (None, SQLITE_OK, aData)
  | S fuel =>
      let maxPC := usable - nByte in
      if pc <=? maxPC then
        let size := get2byte aData (pc + 2) in
        let x := size - nByte in
        if 0 <=? x then
          if x <? 4 then
            if 57 <? aData.[hdr + 7] then (None, SQLITE_OK, aData)
            else
              let aData := memmove aData iAddr pc 2 in
              (Some pc, SQLITE_OK, aData.[hdr + 7 <- u8 (aData.[hdr + 7] + u8 x)])
          else if maxPC <? x + pc then (None, SQLITE_CORRUPT, aData)
          else (Some (pc + x), SQLITE_OK, put2byte aData (pc + 2) x)
        else
          let iAddr := pc in
          let pc := get2byte aData pc in
          if pc <=? iAddr then (None, if truthy pc then SQLITE_CORRUPT else SQLITE_OK, aData)
          else slot_loop fuel hdr usable nByte aData iAddr pc
      else (None, if maxPC + nByte - 4 <? pc then SQLITE_CORRUPT else SQLITE_OK, aData)
  end.

(** [pc] grows with every round. *)
Definition pageFindSlot (p : MemPage) (nByte : Z) : option Z * Z * MemPage :=
  let iAddr := hdrOffset p + 1 in
  let '(r, rc, data) := slot_loop (S (Z.to_nat (usable p))) (hdrOffset p) (usable p) nByte (aData p) iAddr (get2byte (aData p) iAddr) in
  (r, rc, set_aData p data).

(** The end of [allocateSpace]: from the gap, after defragmenting if that is needed. *)
Definition allocate_gap (p : MemPage) (nByte gap top : Z) : Z * Z * MemPage :=
  let hdr := hdrOffset p in
  let '(rc, p, top) :=
    if top <? gap + 2 + nByte then
      let '(rc, p) := defragmentPage p (Z.min 4 (nFree p - (2 + nByte))) in
      if truthy rc then (rc, p, top) else (rc, p, get2byteNotZero (aData p) (hdr + 5))
    else (SQLITE_OK, p, top) in
  if truthy rc then (rc, 0, p)
  else
    let top := top - nByte in
    (SQLITE_OK, top, set_aData p (put2byte (aData p) (hdr + 5) top)).

(** The result code and [*pIdx]. *)
Definition allocateSpace (p : MemPage) (nByte : Z) : Z * Z * MemPage :=
  let hdr := hdrOffset p in
  let gap := cellOffset p + 2 * nCell p in
  let top := get2byte (aData p) (hdr + 5) in
  let top :=
    if top <? gap then (if (top =? 0) && (usable p =? 65536) then Some 65536 else None)
    else if usable p <? top then None else Some top in
  match top with
  | None => (SQLITE_CORRUPT, 0, p)
  | Some top =>
      if (truthy (aData p).[hdr + 2] || truthy (aData p).[hdr + 1]) && (gap + 2 <=? top) then
        match pageFindSlot p nByte with
        | (Some g2, _, p) => (if g2 <=? gap then SQLITE_CORRUPT else SQLITE_OK, g2, p)
        | (None, rc, p) => if truthy rc then (rc, 0, p) else allocate_gap p nByte gap top
        end
      else allocate_gap p nByte gap top
  end.

(** ** Freeing *)

(** The block before [iStart] and the one after it, or nothing on corruption. *)
Fixpoint find_place (fuel : nat) (data : list Z) (iStart iPtr : Z) : option (Z * Z) :=
  match fuel with
  | O => None
  | S fuel =>
      let iFreeBlk := get2byte data iPtr in
      if iFreeBlk <? iStart then
        if iFreeBlk <=? iPtr then (if iFreeBlk =? 0 then Some (iPtr, iFreeBlk) else None)
        else find_place fuel data iStart iFreeBlk
      else Some (iPtr, iFreeBlk)
  end.

(** The checks and mergers of [freeSpace]: [iStart], [iEnd], [iFreeBlk] and [nFrag]. *)
Definition coalesce (u hdr : Z) (data : list Z) (iStart iEnd iPtr iFreeBlk : Z) : option (Z * Z * Z * Z) :=
  if u - 4 <? iFreeBlk then None
  else
    let right :=
      if truthy iFreeBlk && (iFreeBlk <=? iEnd + 3) then
        if iFreeBlk <? iEnd then None
        else
          let iEnd' := iFreeBlk + get2byte data (iFreeBlk + 2) in
          if u <? iEnd' then None else Some (iEnd', get2byte data iFreeBlk, iFreeBlk - iEnd)
      else Some (iEnd, iFreeBlk, 0) in
    match right with
    | None => None
    | Some (iEnd, iFreeBlk, nFrag) =>
        let left :=
          if hdr + 1 <? iPtr then
            let iPtrEnd := iPtr + get2byte data (iPtr + 2) in
            if iStart <=? iPtrEnd + 3 then
              if iStart <? iPtrEnd then None else Some (iPtr, nFrag + (iStart - iPtrEnd))
            else Some (iStart, nFrag)
          else Some (iStart, nFrag) in
        match left with
        | None => None
        | Some (iStart, nFrag) => if data.[hdr + 7] <? nFrag then None else Some (iStart, iEnd, iFreeBlk, nFrag)
        end
    end.

Definition BTS_FAST_SECURE : Z := 0x000c.

(** The search: the predecessor, the merged block, its successor, and the data. *)
Definition free_found (p : MemPage) (iStart iSize : Z) : option (Z * Z * Z * Z * list Z) :=
  let data := aData p in
  let hdr := hdrOffset p in
  let iPtr := hdr + 1 in
  if (data.[iPtr + 1] =? 0) && (data.[iPtr] =? 0) then Some (iPtr, iStart, iStart + iSize, 0, data)
  else
    match find_place (S (Z.to_nat iStart)) data iStart iPtr with
    | None => None
    | Some (iPtr, iFreeBlk) =>
        match coalesce (usable p) hdr data iStart (iStart + iSize) iPtr iFreeBlk with
        | None => None
        | Some (iStart, iEnd, iFreeBlk, nFrag) =>
            Some (iPtr, iStart, iEnd, iFreeBlk, data.[hdr + 7 <- u8 (data.[hdr + 7] - u8 nFrag)])
        end
    end.

(** The block is put in the list, or joins the gap. *)
Definition free_link (p : MemPage) (data : list Z) (iPtr iStart iEnd iFreeBlk : Z) : Z * list Z :=
  let hdr := hdrOffset p in
  let x := get2byte data (hdr + 5) in
  let data := if truthy (Z.land (btsFlags (pBt p)) BTS_FAST_SECURE) then memzero data iStart (iEnd - iStart) else data in
  if iStart <=? x then
    if (iStart <? x) || negb (iPtr =? hdr + 1) then (SQLITE_CORRUPT, data)
    else (SQLITE_OK, put2byte (put2byte data (hdr + 1) iFreeBlk) (hdr + 5) iEnd)
  else
    let data := put2byte (put2byte data iPtr iStart) iStart iFreeBlk in
    (SQLITE_OK, put2byte data (iStart + 2) (u16 (iEnd - iStart))).

Definition freeSpace (p : MemPage) (iStart iSize : Z) : Z * MemPage :=
  match free_found p iStart iSize with
  | None => (SQLITE_CORRUPT, p)
  | Some (iPtr, iStart', iEnd, iFreeBlk, data) =>
      let '(rc, data) := free_link p data iPtr iStart' iEnd iFreeBlk in
      if truthy rc then (rc, set_aData p data)
      else (SQLITE_OK, set_nFree (set_aData p data) (nFree p + iSize))
  end.

(** ** Reading a page *)

(** The loop of [btreeComputeFreeSpace]: [nFree] and the checks after it. *)
Fixpoint sum_free (fuel : nat) (u : Z) (data : list Z) (pc nFree : Z) : option Z :=
  match fuel with
  | O => None
  | S fuel =>
      if u - 4 <? pc then None
      else
        let next := get2byte data pc in
        let size := get2byte data (pc + 2) in
        let nFree := nFree + size in
        if next <=? pc + size + 3 then
          if (0 <? next) || (u <? pc + size) then None else Some nFree
        else sum_free fuel u data next nFree
  end.

Definition btreeComputeFreeSpace (p : MemPage) : Z * MemPage :=
  let hdr := hdrOffset p in
  let data := aData p in
  let top := get2byteNotZero data (hdr + 5) in
  let iCellFirst := hdr + 8 + childPtrSize (ptype p) + 2 * nCell p in
  let pc := get2byte data (hdr + 1) in
  let nFree := data.[hdr + 7] + top in
  let nFree :=
    if 0 <? pc then
      if pc <? top then None else sum_free (S (Z.to_nat (usable p))) (usable p) data pc nFree
    else Some nFree in
  match nFree with
  | None => (SQLITE_CORRUPT, p)
  | Some nFree =>
      if (usable p <? nFree) || (nFree <? iCellFirst) then (SQLITE_CORRUPT, p)
      else (SQLITE_OK, set_nFree p (u16 (nFree - iCellFirst)))
  end.

Fixpoint check_cells (n : nat) (p : MemPage) (pAddr iCellFirst iCellLast : Z) : Z :=
  match n with
  | O => SQLITE_OK
  | S n =>
      let pc := get2byte (aData p) pAddr in
      if (pc <? iCellFirst) || (iCellLast <? pc) then SQLITE_CORRUPT
      else
        let sz := run_xCellSize (pBt p) (ptype p) (drop (Z.to_nat pc) (aData p)) in
        if usable p <? pc + sz then SQLITE_CORRUPT else check_cells n p (pAddr + 2) iCellFirst iCellLast
  end.

Definition btreeCellSizeCheck (p : MemPage) : Z :=
  let iCellLast := usable p - 4 in
  let iCellLast := if negb (leaf (ptype p)) then iCellLast - 1 else iCellLast in
  check_cells (Z.to_nat (nCell p)) p (cellOffset p) (cellOffset p + 2 * nCell p) iCellLast.

(** [cellSizeCk] is the flag [SQLITE_CellSizeCk] of the connection. *)
Definition btreeInitPage (cellSizeCk : bool) (p : MemPage) : Z * MemPage :=
  let hdr := hdrOffset p in
  let '(rc, t) := decodeFlags (pBt p) (ptype p) (aData p).[hdr] in
  if truthy rc then
    (SQLITE_CORRUPT, mkPage (isInit p) (pgno p) hdr t (aiOvfl p) (apOvfl p) (cellOffset p) (nFree p) (nCell p) (maskPage p) (pBt p) (aData p))
  else
    let nCell := get2byte (aData p) (hdr + 3) in
    let read init nFree :=
      mkPage init (pgno p) hdr t [] [] (u16 (hdr + 8 + childPtrSize t)) nFree nCell (u16 (pageSize (pBt p) - 1)) (pBt p) (aData p) in
    if MX_CELL (pBt p) <? nCell then (SQLITE_CORRUPT, read (isInit p) (nFree p))
    else
      let p := read true (-1) in
      (if cellSizeCk then btreeCellSizeCheck p else SQLITE_OK, p).

Definition zeroPage (p : MemPage) (flags : Z) : MemPage :=
  let hdr := hdrOffset p in
  let data := aData p in
  let u := usable p in
  let data := if truthy (Z.land (btsFlags (pBt p)) BTS_FAST_SECURE) then memzero data hdr (u - hdr) else data in
  let data := data.[hdr <- u8 flags] in
  let first := hdr + (if Z.land flags PTF_LEAF =? 0 then 12 else 8) in
  let data := memzero data (hdr + 1) 4 in
  let data := data.[hdr + 7 <- 0] in
  let data := put2byte data (hdr + 5) u in
  let '(_, t) := decodeFlags (pBt p) (ptype p) flags in
  mkPage true (pgno p) hdr t [] [] (u16 first) (u16 (u - first)) 0 (u16 (pageSize (pBt p) - 1)) (pBt p) data.

(** ** Cells in and out *)

(** [*pRC] and the page; nothing is done after an earlier error. *)
Definition dropCell (p : MemPage) (idx sz pRC : Z) : Z * MemPage :=
  if truthy pRC then (pRC, p)
  else
    let hdr := hdrOffset p in
    let ptr := cellOffset p + 2 * idx in
    let pc := get2byte (aData p) ptr in
    if usable p <? u32 (pc + sz) then (SQLITE_CORRUPT, p)
    else
      let '(rc, p) := freeSpace p pc sz in
      if truthy rc then (rc, p)
      else
        let p := set_nCell p (u16 (nCell p - 1)) in
        if nCell p =? 0 then
          let data := memzero (aData p) (hdr + 1) 4 in
          let data := data.[hdr + 7 <- 0] in
          let data := put2byte data (hdr + 5) (usable p) in
          (SQLITE_OK, set_nFree (set_aData p data) (usable p - hdr - childPtrSize (ptype p) - 8))
        else
          let data := memmove (aData p) ptr (ptr + 2) (2 * (nCell p - idx)) in
          let data := put2byte data (hdr + 3) (nCell p) in
          (SQLITE_OK, set_nFree (set_aData p data) (nFree p + 2)).

(** The cell, its pointer, and the count of cells with its carry. *)
Definition place_data (data : list Z) (hdr cellOffset nCell i idx : Z) (content : list Z) : list Z :=
  let data := splice data idx content in
  let pIns := cellOffset + i * 2 in
  let data := memmove data (pIns + 2) pIns (2 * (nCell - i)) in
  let data := put2byte data pIns idx in
  let c := hdr + 4 in
  let data := data.[c <- u8 (data.[c] + 1)] in
  if data.[c] =? 0 then data.[c - 1 <- u8 (data.[c - 1] + 1)] else data.

Section insert.
Context {W : Type}.
(** Making the page writable, and the entry in the pointer map for the first overflow page
    of a cell. *)
Variable sqlite3PagerWrite : W -> MemPage -> Z * W.
Variable ptrmapPutOvflPtr : W -> MemPage -> list Z -> Z * W.

(** What follows the allocation: [content] is written at [idx]. *)
Definition place_cell (w : W) (p : MemPage) (i sz idx : Z) (content pCell : list Z) : Z * MemPage * W :=
  let p := set_nFree p (nFree p - u16 (2 + sz)) in
  let data := place_data (aData p) (hdrOffset p) (cellOffset p) (nCell p) i idx content in
  let p := set_aData (set_nCell p (u16 (nCell p + 1))) data in
  if autoVacuum (pBt p) then
    let '(rc2, w) := ptrmapPutOvflPtr w p pCell in (if truthy rc2 then rc2 else SQLITE_OK, p, w)
  else (SQLITE_OK, p, w).

(** The buffer [pTemp] decides only where the copy of an overflowing cell lives; that copy is
    the [sz] bytes with [iChild] in the first four. *)
Definition insertCell (w : W) (p : MemPage) (i : Z) (pCell : list Z) (sz : Z) (iChild : Z) : Z * MemPage * W :=
  let with_child := sqlite3Put4byte (take (Z.to_nat sz) pCell) iChild in
  if negb (Nat.eqb (length (aiOvfl p)) 0) || (nFree p <? sz + 2) then (SQLITE_OK, add_ovfl p i with_child, w)
  else
    let '(rc, w) := sqlite3PagerWrite w p in
    if truthy rc then (rc, p, w)
    else
      let '(rc, idx, p) := allocateSpace p sz in
      if truthy rc then (rc, p, w)
      else place_cell w p i sz idx with_child pCell.

Definition insertCellFast (w : W) (p : MemPage) (i : Z) (pCell : list Z) (sz : Z) : Z * MemPage * W :=
  if nFree p <? sz + 2 then (SQLITE_OK, add_ovfl p i pCell, w)
  else
    let '(rc, w) := sqlite3PagerWrite w p in
    if truthy rc then (rc, p, w)
    else
      let '(rc, idx, p) := allocateSpace p sz in
      if truthy rc then (rc, p, w)
      else place_cell w p i sz idx (take (Z.to_nat sz) pCell) pCell.
End insert.
End page.
