(* ===== verification/BtreeSpace.v ===== *)
(** The free space of a b-tree page: two-byte fields, the list of free blocks, what it means
    for a page to account for every byte ([space]), and that searching for a slot
    ([pageFindSlot]) and freeing with its mergers ([freeSpace]) keep the account.

    Each lemma on an operation says that it succeeds, what the space is afterwards, and by
    [kept] that the regions in use and the rest of the page are as before. *)

From S2P Require Import Prelude Bits Varint Regions BtreeCell BtreePage.

(** ** Two-byte fields *)

Lemma get2_value d i : bytes_ok d -> get2byte d i = 256 * d.[i] + d.[i + 1] /\ 0 <= get2byte d i < 65536.
Proof.
  intros Hd. pose proof (zget_byte d i Hd) as B0. pose proof (zget_byte d (i + 1) Hd) as B1. unfold is_u8 in *.
  unfold get2byte. rewrite lor_shiftl_add by lia. lia.
Qed.
Lemma same_put2 d i v : same_outside [(i, 2)] d (put2byte d i v).
Proof.
  eapply same_weaken; [exact (same_trans _ _ _ _ _ (same_zput d i _) (same_zput _ (i + 1) _))|].
  intros j Hj. rewrite Forall_singleton in Hj. cbn [fst snd] in Hj. repeat constructor; cbn [fst snd]; lia.
Qed.
Lemma zlen_put2 d i v : zlen (put2byte d i v) = zlen d.
Proof. apply (same_put2 d i v). Qed.
Lemma bytes_put2 d i v : bytes_ok d -> bytes_ok (put2byte d i v).
Proof. intros. unfold put2byte. auto using bytes_zput, u8_range. Qed.
#[export] Hint Resolve bytes_put2 u8_range : sqlite.
#[export] Hint Rewrite zlen_put2 : zlen.
Lemma get2_put2 d i v : 0 <= i -> i + 2 <= zlen d -> 0 <= v -> get2byte (put2byte d i v) i = v mod 65536.
Proof.
  intros Hi Hl Hv. unfold get2byte, put2byte. rewrite (zget_zput_ne _ (i + 1) i), zget_zput_eq by lia.
  rewrite zget_zput_eq by (rewrite zlen_zput; lia). unfold u8. rewrite lor_shiftl_add by (Z.div_mod_to_equations; lia).
  rewrite Z.shiftr_div_pow2 by lia. Z.div_mod_to_equations; lia.
Qed.
Lemma same_get2 mods a b j : same_outside mods a b -> Forall (apart (j, 2)) mods -> get2byte b j = get2byte a j.
Proof.
  intros Hs Hm. unfold get2byte. f_equal; [f_equal|]; eapply same_byte; try exact Hs; (eapply Forall_impl; [exact Hm|]);
    intros r Hr; unfold apart in *; cbn [fst snd] in *; lia.
Qed.
Lemma get2_slice a b j n i : slice b j n = slice a j n -> 0 <= j -> j <= i -> i + 2 <= j + n -> get2byte b i = get2byte a i.
Proof.
  intros E Hj Hi Hn. unfold get2byte.
  rewrite <- !(zget_slice a j n (i - j)), <- !(zget_slice b j n (i - j)) || idtac.
  assert (G : forall k, j <= k < j + n -> b.[k] = a.[k]).
  { intros k Hk. pose proof (zget_slice a j n (k - j) Hj ltac:(lia)) as E1. pose proof (zget_slice b j n (k - j) Hj ltac:(lia)) as E2.
    rewrite E in E2. rewrite E1 in E2. by replace (j + (k - j)) with k in E2 by lia. }
  by rewrite !G by lia.
Qed.

Definition part_of (m b : region) : Prop := b.1 <= m.1 /\ m.1 + m.2 <= b.1 + b.2.
(** One goal for each of a given list of regions, and closing it. *)
Ltac solve_apart := unfold apart, part_of; cbn [fst snd]; lia.
Ltac each := repeat first [apply List.Forall_nil | apply List.Forall_cons]; cbn [fst snd].

(** ** The list of free blocks *)

Fixpoint free_chain (d : list Z) (i : Z) (frees : list region) : Prop :=
  match frees with
  | [] => get2byte d i = 0
  | (a, s) :: frees => get2byte d i = a /\ get2byte d (a + 2) = s /\ free_chain d a frees
  end.
Fixpoint sorted_from (lo : Z) (frees : list region) : Prop :=
  match frees with [] => True | (a, s) :: frees => lo < a /\ 4 <= s /\ sorted_from (a + s + 3) frees end.
Fixpoint chain_end (i : Z) (l : list region) : Z := match l with [] => i | (a, _) :: l => chain_end a l end.

Lemma chain_frame mods d d' i frees : same_outside mods d d' -> Forall (apart (i, 2)) mods ->
  Forall (fun r => Forall (apart (r.1, 4)) mods) frees -> free_chain d i frees -> free_chain d' i frees.
Proof.
  intros Hs. revert i. induction frees as [|[a s] frees IH]; intros i Hi Hf; cbn [free_chain].
  - intros <-. by apply (same_get2 mods).
  - apply Forall_cons in Hf as [Ha Hf]. cbn [fst] in Ha. intros (E1 & E2 & E3). split_and!.
    + rewrite <- E1. by apply (same_get2 mods).
    + rewrite <- E2. apply (same_get2 mods); [done|]. eapply Forall_impl; [exact Ha|]. intros r Hr. unfold apart in *. cbn [fst snd] in *. lia.
    + apply IH; [|done|done]. eapply Forall_impl; [exact Ha|]. intros r Hr. unfold apart in *. cbn [fst snd] in *. lia.
Qed.

Lemma chain_end_app i l k : chain_end i (l ++ k) = chain_end (chain_end i l) k.
Proof. revert i. induction l as [|[a s] l IH]; intros i; [done|]. apply IH. Qed.

Lemma chain_tail d i l k : free_chain d i (l ++ k) -> free_chain d (chain_end i l) k.
Proof. revert i. induction l as [|[a s] l IH]; intros i; [done|]. intros (_ & _ & H). by apply IH. Qed.

Lemma sorted_weaken lo lo' l : lo' <= lo -> sorted_from lo l -> sorted_from lo' l.
Proof. destruct l as [|[a s] l]; [done|]. intros Hl (H1 & H2 & H3). cbn. split_and!; [lia|done|done]. Qed.

(** The bound on what may follow the blocks [l]. *)
Fixpoint next_from (lo : Z) (l : list region) : Z := match l with [] => lo | (a, s) :: l => next_from (a + s + 3) l end.

Lemma sorted_app lo l k : sorted_from lo (l ++ k) <-> sorted_from lo l /\ sorted_from (next_from lo l) k.
Proof.
  revert lo. induction l as [|[a s] l IH]; intros lo; cbn [app sorted_from next_from]; [tauto|].
  rewrite IH, <- !(assoc and). done.
Qed.
Lemma next_from_snoc lo l a s : next_from lo (l ++ [(a, s)]) = a + s + 3.
Proof. revert lo. induction l as [|[b t] l IH]; intros lo; [done|]. apply IH. Qed.
Lemma chain_end_snoc i l a s : chain_end i (l ++ [(a, s)]) = a.
Proof. by rewrite chain_end_app. Qed.

Lemma sorted_elem lo l r : sorted_from lo l -> r ∈ l -> lo < r.1 /\ 4 <= r.2.
Proof.
  revert lo. induction l as [|[a s] l IH]; intros lo; [by intros _ ?%not_elem_of_nil|].
  intros (H1 & H2 & H3) [->|Hr]%elem_of_cons; [cbn; lia|]. destruct (IH _ H3 Hr). lia.
Qed.

Lemma chain_end_le lo i l : sorted_from lo l -> i <= lo -> i <= chain_end i l.
Proof.
  revert lo i. induction l as [|[a s] l IH]; intros lo i; [cbn; lia|]. intros (H1 & H2 & H3) Hi.
  cbn [chain_end]. specialize (IH (a + s + 3) a H3 ltac:(lia)). lia.
Qed.

(** Writes that spare the part [l] of the list, but for the link at its end. *)
Lemma chain_replace mods d d' lo i l k k' : same_outside mods d d' -> sorted_from lo l -> i < lo ->
  Forall (fun r => (r.1 + r.2 <= lo + 1 /\ apart (i, 2) r) \/ (r.1 = chain_end i l /\ r.2 = 2) \/ chain_end i l + 4 <= r.1) mods ->
  free_chain d i (l ++ k) -> free_chain d' (chain_end i l) k' -> free_chain d' i (l ++ k').
Proof.
  intros Hs. revert lo i. induction l as [|[a s] l IH]; intros lo i; [done|].
  intros (H1 & H2 & H3) Hi Hm (E1 & E2 & E3) Hk. cbn [app free_chain chain_end] in *.
  pose proof (chain_end_le (a + s + 3) a l H3 ltac:(lia)) as Hle.
  assert (Hl : l <> [] -> a + 4 <= chain_end a l).
  { destruct l as [|[a' s'] l]; [done|]. intros _. destruct H3 as (Ha & Hs' & H3). cbn [chain_end].
    pose proof (chain_end_le (a' + s' + 3) a' l H3 ltac:(lia)). lia. }
  split_and!.
  - rewrite <- E1. apply (same_get2 mods); [done|]. eapply Forall_impl; [exact Hm|]. intros r Hr. unfold apart in *. cbn [fst snd] in *. lia.
  - rewrite <- E2. apply (same_get2 mods); [done|]. eapply Forall_impl; [exact Hm|]. intros r Hr. unfold apart in *. cbn [fst snd] in *.
    destruct l as [|r' l]; [cbn [chain_end] in *; lia|]. specialize (Hl ltac:(done)). lia.
  - apply (IH (a + s + 3)); [done|lia| |done|done]. eapply Forall_impl; [exact Hm|]. intros r Hr. unfold apart in *. cbn [fst snd] in *. lia.
Qed.

(** ** The space of a page *)

(** [lo] is the end of the cell pointers, [regs] the regions in use and [frees] the free
    blocks; [top] is the start of the content area. *)
Record space (u hdr lo : Z) (d : list Z) (regs frees : list region) (top : Z) : Prop := {
  sp_bytes : bytes_ok d;
  sp_u : 480 <= u <= 65536 /\ u <= zlen d;
  sp_hdr : 0 <= hdr /\ hdr + 8 <= lo;
  sp_chain : free_chain d (hdr + 1) frees;
  sp_sorted : sorted_from top frees;
  sp_disjoint : disjoint_regions (regs ++ frees);
  sp_inside : Forall (inside top u) (regs ++ frees);
  sp_size : Forall (fun r => 4 <= r.2) (regs ++ frees);
  sp_top : get2byte d (hdr + 5) = top mod 65536;
  sp_lo : lo <= top <= u;
  sp_frag : 0 <= d.[hdr + 7] <= 60;
  sp_sum : total regs + total frees + d.[hdr + 7] = u - top }.

(** The parts of a page that allocating and freeing leave alone: the rest of the header, the
    cell pointers, the regions in use, and what is reserved at the end. *)
Definition untouched (hdr lo u : Z) (regs : list region) (r : region) : Prop :=
  0 <= r.1 /\ 0 <= r.2 /\ ((r.1 + r.2 <= lo /\ apart r (hdr + 1, 2) /\ apart r (hdr + 5, 3)) \/ r ∈ regs \/ u <= r.1).
Definition kept (hdr lo u : Z) (regs : list region) (d d' : list Z) : Prop :=
  zlen d' = zlen d /\ forall r, untouched hdr lo u regs r -> r.1 + r.2 <= zlen d -> slice d' r.1 r.2 = slice d r.1 r.2.

Lemma kept_refl hdr lo u regs d : kept hdr lo u regs d d.
Proof. done. Qed.
Lemma kept_trans hdr lo u regs d1 d2 d3 : kept hdr lo u regs d1 d2 -> kept hdr lo u regs d2 d3 -> kept hdr lo u regs d1 d3.
Proof. intros [L1 H1] [L2 H2]. split; [lia|]. intros r Hr Hl. by rewrite H2, H1 by (done || lia). Qed.
Lemma kept_same mods hdr lo u regs d d' : same_outside mods d d' ->
  (forall r, untouched hdr lo u regs r -> r.1 + r.2 <= zlen d -> Forall (apart r) mods) -> kept hdr lo u regs d d'.
Proof.
  intros Hs Hm. split; [apply Hs|]. intros [i n] Hr Hl. pose proof Hr as (H1 & H2 & _). cbn [fst snd] in *.
  apply (same_slice mods); try done. by apply Hm.
Qed.
Lemma kept_get2 hdr lo u regs d d' i : kept hdr lo u regs d d' -> untouched hdr lo u regs (i, 2) -> i + 2 <= zlen d -> get2byte d' i = get2byte d i.
Proof. intros [_ H] Hi Hl. specialize (H _ Hi Hl). destruct Hi as (H1 & _). cbn [fst snd] in *. apply (get2_slice d d' i 2 i); [done|lia..]. Qed.

(** Everything but the fields for free space, the array of pointers and the content area. *)
Definition same_header (hdr co u : Z) : list Z -> list Z -> Prop := same_outside [(hdr + 1, 2); (hdr + 5, 3); (co, u - co)].
Lemma kept_header hdr lo u regs d d' : 0 <= hdr -> lo <= u -> u <= zlen d -> kept hdr lo u regs d d' -> same_header hdr lo u d d'.
Proof.
  intros H0 Hlo Hu [L H]. split; [done|]. intros j Hj. rewrite !Forall_cons in Hj. cbn [fst snd] in Hj. destruct Hj as (J1 & J2 & J3 & _).
  destruct (decide (0 <= j < zlen d)) as [Hr|Hr].
  - specialize (H (j, 1)). cbn [fst snd] in H. pose proof (zget_slice d j 1 0 ltac:(lia) ltac:(lia)) as E1. pose proof (zget_slice d' j 1 0 ltac:(lia) ltac:(lia)) as E2.
    rewrite Z.add_0_r in E1, E2. rewrite <- E1, <- E2, H; [done| |lia].
    split_and!; [cbn; lia|cbn; lia|]. destruct (decide (u <= j)); [right; by right|left]. split_and!; solve_apart.
  - unfold zget, zlookup. destruct (Z.leb_spec 0 j); [|done]. unfold zlen in *. rewrite !lookup_ge_None_2 by lia. done.
Qed.
Lemma header_weaken hdr lo co u d d' : co <= lo -> lo <= u -> same_header hdr lo u d d' -> same_header hdr co u d d'.
Proof. intros H1 H2 Hs. eapply same_weaken; [exact Hs|]. intros j Hj. rewrite !Forall_cons in *. cbn [fst snd] in *. split_and!; (done || lia || tauto). Qed.

Section space.
Context (u hdr lo : Z).

Lemma space_frees_in d regs frees top r : space u hdr lo d regs frees top -> r ∈ frees -> top < r.1 /\ 4 <= r.2 /\ r.1 + r.2 <= u.
Proof.
  intros Hs Hr. pose proof (sorted_elem _ _ _ (sp_sorted _ _ _ _ _ _ _ Hs) Hr). pose proof (sp_inside _ _ _ _ _ _ _ Hs) as Hi.
  apply Forall_app in Hi as [_ Hi]. rewrite Forall_forall in Hi. destruct (Hi r Hr). lia.
Qed.
Lemma space_regs_in d regs frees top r : space u hdr lo d regs frees top -> r ∈ regs -> top <= r.1 /\ 4 <= r.2 /\ r.1 + r.2 <= u.
Proof.
  intros Hs Hr. pose proof (sp_inside _ _ _ _ _ _ _ Hs) as Hi. pose proof (sp_size _ _ _ _ _ _ _ Hs) as Hz.
  apply Forall_app in Hi as [Hi _]. apply Forall_app in Hz as [Hz _]. rewrite Forall_forall in Hi, Hz. destruct (Hi r Hr). specialize (Hz r Hr). lia.
Qed.
Lemma space_apart d regs frees top r s : space u hdr lo d regs frees top -> r ∈ regs -> s ∈ frees -> apart r s.
Proof.
  intros Hs Hr Hf. destruct (proj1 (disjoint_app _ _) (sp_disjoint _ _ _ _ _ _ _ Hs)) as (_ & _ & H).
  rewrite Forall_forall in H. specialize (H r Hr). rewrite Forall_forall in H. auto.
Qed.

(** A change of the regions in use that keeps their number of bytes does not matter. *)
Lemma space_perm d regs regs' frees top : regs ≡ₚ regs' -> space u hdr lo d regs frees top -> space u hdr lo d regs' frees top.
Proof.
  intros Hp [H1 H2 H3 H4 H5 H6 H7 H8 H9 H10 H11 H12]. split; try done.
  - by rewrite <- Hp.
  - by rewrite <- Hp.
  - by rewrite <- Hp.
  - by rewrite <- Hp.
Qed.

(** ** Searching for a slot *)

Inductive slot (d : list Z) (nByte iAddr : Z) (frees : list region) : option Z * Z * list Z -> Prop :=
| no_slot : slot d nByte iAddr frees (None, SQLITE_OK, d)
| whole_slot l k pc s : frees = l ++ (pc, s) :: k -> 0 <= s - nByte < 4 -> d.[hdr + 7] <= 57 ->
    slot d nByte iAddr frees
      (Some pc, SQLITE_OK, (memmove d (chain_end iAddr l) pc 2).[hdr + 7 <- u8 ((memmove d (chain_end iAddr l) pc 2).[hdr + 7] + u8 (s - nByte))])
| part_slot l k pc s : frees = l ++ (pc, s) :: k -> 4 <= s - nByte ->
    slot d nByte iAddr frees (Some (pc + (s - nByte)), SQLITE_OK, put2byte d (pc + 2) (s - nByte)).

Lemma slot_cons d nByte iAddr a s frees r : slot d nByte a frees r -> slot d nByte iAddr ((a, s) :: frees) r.
Proof.
  intros [|l k pc t -> H1 H2|l k pc t -> H1].
  - constructor.
  - by apply (whole_slot d nByte iAddr _ ((a, s) :: l) k pc t).
  - by apply (part_slot d nByte iAddr _ ((a, s) :: l) k pc t).
Qed.

Lemma slot_loop_ok d nByte frees : forall fuel iAddr bound, free_chain d iAddr frees -> sorted_from bound frees ->
  (length frees < fuel)%nat -> Forall (fun r => r.1 + r.2 <= u) frees -> 0 <= bound -> 4 <= nByte <= u ->
  get2byte d iAddr <> 0 -> slot d nByte iAddr frees (slot_loop fuel hdr u nByte d iAddr (get2byte d iAddr)).
Proof.
  induction frees as [|[a s] frees IH]; intros fuel iAddr bound Hc Hs Hf Hu Hb Hn Hz; [done|].
  destruct Hc as (-> & E2 & Hc). destruct Hs as (Hlt & Hs4 & Hs). apply Forall_cons in Hu as [Ha Hu]. cbn [fst snd] in Ha.
  destruct fuel as [|fuel]; [cbn in Hf; lia|]. cbn [slot_loop]. cbv zeta. rewrite E2.
  destruct (Z.leb_spec a (u - nByte)) as [H1|H1].
  - destruct (Z.leb_spec 0 (s - nByte)) as [H2|H2].
    + destruct (Z.ltb_spec (s - nByte) 4) as [H3|H3].
      * destruct (Z.ltb_spec 57 d.[hdr + 7]); [constructor|]. by apply (whole_slot d nByte iAddr _ [] frees a s).
      * rewrite (proj2 (Z.ltb_ge _ _)) by lia. by apply (part_slot d nByte iAddr _ [] frees a s).
    + destruct frees as [|[a' s'] frees].
      * cbn in Hc. rewrite Hc. rewrite (proj2 (Z.leb_le _ _)) by lia. constructor.
      * assert (E : get2byte d a = a') by apply Hc. pose proof (proj1 Hs).
        pose proof (IH fuel a (a + s + 3) Hc Hs ltac:(cbn [length] in *; lia) Hu ltac:(lia) ltac:(lia) ltac:(rewrite E; lia)) as G.
        rewrite E in G |- *. rewrite (proj2 (Z.leb_gt _ _)) by lia. by apply slot_cons.
  - rewrite (proj2 (Z.ltb_ge _ _)) by lia. constructor.
Qed.

Lemma frees_few bound frees : sorted_from bound frees -> 0 <= bound -> Forall (fun r => r.1 + r.2 <= u) frees -> Z.of_nat (length frees) <= Z.max 0 (u - bound).
Proof.
  revert bound. induction frees as [|[a s] frees IH]; intros bound; [cbn; lia|]. intros (H1 & H2 & H3) Hb [Ha Hf]%Forall_cons.
  cbn [fst snd] in Ha. specialize (IH _ H3 ltac:(lia) Hf). cbn [length]. lia.
Qed.

Lemma apart_part r m b : apart r b -> part_of m b -> apart r m.
Proof. unfold apart, part_of. lia. Qed.

(** Writes to the free-space fields of the header, into free blocks, and into regions [extra]
    that nothing in use overlaps. *)
Lemma kept_mods d regs0 regs frees top mods extra d' : space u hdr lo d regs0 frees top -> (forall r, r ∈ regs -> r ∈ regs0) -> same_outside mods d d' ->
  Forall (fun m => part_of m (hdr + 1, 2) \/ part_of m (hdr + 5, 3) \/ exists b, (b ∈ frees \/ b ∈ extra) /\ part_of m b) mods ->
  Forall (fun b => inside top u b /\ Forall (fun r => apart r b) regs) extra -> kept hdr lo u regs d d'.
Proof.
  intros Hs Hsub Hd Hm He. pose proof (sp_lo _ _ _ _ _ _ _ Hs) as Hlo. pose proof (sp_hdr _ _ _ _ _ _ _ Hs) as Hh.
  apply (kept_same mods); [done|]. intros r (R1 & R2 & R4) _.
  assert (Hr : r ∈ regs -> top <= r.1 /\ 4 <= r.2) by (intros Hr; pose proof (space_regs_in _ _ _ _ _ Hs (Hsub _ Hr)); lia).
  apply Forall_forall. intros m Hin. rewrite Forall_forall in Hm, He. specialize (Hm m Hin).
  destruct Hm as [Hm|[Hm|(b & Hb & Hm)]]; apply (apart_part _ _ _) with (2 := Hm).
  - destruct R4 as [R4|[R4|R4]]; [tauto|specialize (Hr R4)|]; unfold apart; cbn [fst snd]; lia.
  - destruct R4 as [R4|[R4|R4]]; [tauto|specialize (Hr R4)|]; unfold apart; cbn [fst snd]; lia.
  - assert (Hin' : inside top u b) by (destruct Hb as [Hb|Hb]; [pose proof (space_frees_in _ _ _ _ _ Hs Hb); unfold inside; lia|apply (He b Hb)]).
    destruct R4 as [R4|[R4|R4]]; [unfold apart, inside in *; lia| |unfold apart, inside in *; lia].
    destruct Hb as [Hb|Hb]; [eapply space_apart; [exact Hs|by apply Hsub|done]|]. destruct (He b Hb) as [_ Ha]. rewrite Forall_forall in Ha. auto.
Qed.

Lemma chain_end_in i l : chain_end i l = i \/ exists r, r ∈ l /\ chain_end i l = r.1.
Proof.
  revert i. induction l as [|[a s] l IH]; intros i; [by left|]. cbn [chain_end]. right.
  destruct (IH a) as [->|(r & Hr & ->)]; [exists (a, s)|exists r]; split; auto; [by left|by right].
Qed.
Lemma chain_end_gap bound i l : sorted_from bound l -> i + 3 <= bound -> chain_end i l + 3 <= next_from bound l.
Proof.
  revert bound i. induction l as [|[a s] l IH]; intros bound i; [cbn [chain_end next_from]; lia|].
  intros (H1 & H2 & H3) Hi. cbn [chain_end next_from]. apply IH; [done|lia].
Qed.
Lemma next_from_ge bound l : sorted_from bound l -> bound <= next_from bound l.
Proof.
  revert bound. induction l as [|[a s] l IH]; intros bound; [cbn [next_from]; lia|]. intros (H1 & H2 & H3). cbn [next_from]. specialize (IH _ H3). lia.
Qed.

(** Moving a link. *)
Lemma chain_move mods d d' i i' k : free_chain d i k -> same_outside mods d d' -> get2byte d' i' = get2byte d i ->
  Forall (fun r => Forall (apart (r.1, 4)) mods) k -> free_chain d' i' k.
Proof.
  intros Hc Hs E Hk. destruct k as [|[a s] k]; cbn [free_chain] in *; [congruence|].
  destruct Hc as (E1 & E2 & Hc). apply Forall_cons in Hk as [Ha Hk]. cbn [fst] in Ha. split_and!; [congruence| |].
  - rewrite <- E2. apply (same_get2 mods); [done|]. eapply Forall_impl; [exact Ha|]. intros r Hr. unfold apart in *. cbn [fst snd] in *. lia.
  - apply (chain_frame mods d); [done| |done|done]. eapply Forall_impl; [exact Ha|]. intros r Hr. unfold apart in *. cbn [fst snd] in *. lia.
Qed.

Lemma move2 d i j : bytes_ok d -> 0 <= i -> i + 2 <= zlen d -> 0 <= j -> j + 2 <= zlen d -> memmove d i j 2 = put2byte d i (get2byte d j).
Proof.
  intros Hb Hi Hi2 Hj Hj2. pose proof (zget_byte d j Hb) as B0. pose proof (zget_byte d (j + 1) Hb) as B1. unfold is_u8 in *.
  destruct (get2_value d j Hb) as [E _]. unfold memmove, put2byte. rewrite E.
  assert (Hl : zlen (slice d j 2) = 2) by (apply zlen_slice; lia).
  rewrite Z.shiftr_div_pow2 by lia. apply zlist_ext; [rewrite zlen_splice, !zlen_zput by lia; done|].
  intros k Hk. rewrite zlen_splice in Hk by lia. destruct (decide (k = i)) as [->|].
  { rewrite zget_splice_in, zget_slice by lia. rewrite (zget_zput_ne _ (i + 1) i), zget_zput_eq by lia. rewrite Z.sub_diag, Z.add_0_r.
    unfold u8. Z.div_mod_to_equations; lia. }
  destruct (decide (k = i + 1)) as [->|].
  { rewrite zget_splice_in, zget_slice by lia. rewrite zget_zput_eq by (rewrite zlen_zput; lia). replace (j + (i + 1 - i)) with (j + 1) by lia.
    unfold u8. Z.div_mod_to_equations; lia. }
  rewrite zget_splice_out, !zget_zput_ne by lia. done.
Qed.

(** The facts about a free block and its neighbours in the list. *)
Lemma space_split d regs l pc s k top : space u hdr lo d regs (l ++ (pc, s) :: k) top ->
  let ce := chain_end (hdr + 1) l in
  get2byte d ce = pc /\ get2byte d (pc + 2) = s /\ free_chain d pc k /\ sorted_from top l /\ sorted_from (pc + s + 3) k /\
  next_from top l < pc /\ 4 <= s /\ pc + s <= u /\ top < pc /\ ce + 4 <= pc /\ 0 <= ce /\
  (ce = hdr + 1 \/ exists r, r ∈ l ++ (pc, s) :: k /\ ce = r.1) /\ Forall (fun r => pc + s + 3 < r.1) k.
Proof.
  intros Hs ce. pose proof (sp_chain _ _ _ _ _ _ _ Hs) as Hc. pose proof (chain_tail _ _ _ _ Hc) as (E1 & E2 & E3).
  pose proof (proj1 (sorted_app _ _ _) (sp_sorted _ _ _ _ _ _ _ Hs)) as (S1 & S2 & S3 & S4).
  pose proof (sp_lo _ _ _ _ _ _ _ Hs). pose proof (sp_hdr _ _ _ _ _ _ _ Hs).
  pose proof (chain_end_gap top (hdr + 1) l S1 ltac:(lia)). pose proof (next_from_ge top l S1). pose proof (chain_end_le top (hdr + 1) l S1 ltac:(lia)).
  pose proof (space_frees_in _ _ _ _ (pc, s) Hs ltac:(set_solver)) as (F1 & F2 & F3). cbn [fst snd] in *.
  split_and!; try done; try lia.
  - destruct (chain_end_in (hdr + 1) l) as [E|(r & Hr & E)]; [by left|right]. exists r. split; [set_solver|done].
  - apply Forall_forall. intros r Hr. by apply (sorted_elem _ _ _ S4).
Qed.

Lemma whole_slot_space d nByte regs l k pc s top : space u hdr lo d regs (l ++ (pc, s) :: k) top -> 4 <= nByte -> 0 <= s - nByte < 4 -> d.[hdr + 7] <= 57 ->
  let d1 := memmove d (chain_end (hdr + 1) l) pc 2 in let d' := d1.[hdr + 7 <- u8 (d1.[hdr + 7] + u8 (s - nByte))] in
  space u hdr lo d' ((pc, nByte) :: regs) (l ++ k) top /\ kept hdr lo u regs d d' /\ top < pc.
Proof.
  cbv zeta. intros Hs Hn Hx Hfr.
  pose proof (space_split _ _ _ _ _ _ _ Hs) as Hsp. cbv zeta in Hsp. set (ce := chain_end (hdr + 1) l) in *. destruct Hsp as (E1 & E2 & E3 & S1 & S2 & H1 & H2 & H3 & H4 & H5 & H6 & H7 & H8).
  assert (Hce : ce + 2 <= zlen d /\ 0 <= ce) by (pose proof (sp_u _ _ _ _ _ _ _ Hs); lia).
  pose proof Hs as [Db Du Dh Dc Ds Dd Di Dz Dt Dl Df Dm].
  assert (Hce7 : ce = hdr + 1 \/ top < ce).
  { destruct H7 as [?|(r & Hr & ?)]; [by left|right]. pose proof (space_frees_in _ _ _ _ _ Hs Hr). lia. }
  rewrite move2 by (try done; lia). set (v := get2byte d pc) in *.
  pose proof (get2_value d pc Db) as [_ Hv]. fold v in Hv.
  set (d1 := put2byte d ce v).
  assert (F7 : d1.[hdr + 7] = d.[hdr + 7]).
  { apply (same_byte _ _ _ _ (same_put2 d ce v)). each. destruct Hce7; solve_apart. }
  assert (Ef : u8 (d1.[hdr + 7] + u8 (s - nByte)) = d.[hdr + 7] + (s - nByte)).
  { rewrite F7. unfold u8. rewrite (Z.mod_small (s - nByte)), Z.mod_small by lia. done. }
  rewrite Ef. set (d' := d1.[hdr + 7 <- _]).
  assert (Hsame : same_outside ([(ce, 2)] ++ [(hdr + 7, 1)]) d d') by (eapply same_trans; [apply same_put2|apply same_zput]).
  split_and!; [|..].
  - split.
    + unfold d', d1. apply bytes_zput; [by apply bytes_put2|]. unfold is_u8. lia.
    + destruct Hsame as [-> _]. done.
    + done.
    + apply (chain_replace _ d d' top (hdr + 1) l ((pc, s) :: k) k Hsame S1); [lia| |done|].
      { each; [right; left; done|left; solve_apart]. }
      apply (chain_move _ d d' pc ce k E3 Hsame).
      { rewrite (same_get2 _ d1 d' ce (same_zput d1 (hdr + 7) _)); [|each; destruct Hce7; solve_apart].
        unfold d1. rewrite get2_put2 by lia. by rewrite Z.mod_small by lia. }
      eapply Forall_impl; [exact H8|]. intros [a t] Ha. cbn [fst snd] in *. each; solve_apart.
    + apply sorted_app. split; [done|]. eapply sorted_weaken; [|exact S2]. lia.
    + cbn [app disjoint_regions]. rewrite app_assoc in Dd |- *. rewrite <- Permutation_middle in Dd. destruct Dd as [Da Dd].
      split; [|done]. eapply Forall_impl; [exact Da|]. intros r Hr. unfold apart in *. cbn [fst snd] in *. lia.
    + cbn [app]. rewrite app_assoc in Di |- *. rewrite <- Permutation_middle in Di. apply Forall_cons in Di as [Da Di].
      apply Forall_cons. split; [unfold inside in *; cbn [fst snd] in *; lia|done].
    + cbn [app]. rewrite app_assoc in Dz |- *. rewrite <- Permutation_middle in Dz. apply Forall_cons in Dz as [Da Dz].
      apply Forall_cons. split; [cbn [snd] in *; lia|done].
    + rewrite (same_get2 _ _ _ _ Hsame); [done|]. each; [destruct Hce7; solve_apart|solve_apart].
    + done.
    + unfold d'. rewrite zget_zput_eq by (unfold d1; rewrite zlen_put2; lia). lia.
    + unfold d'. rewrite zget_zput_eq by (unfold d1; rewrite zlen_put2; lia). rewrite total_cons, total_app in *. rewrite total_cons in Dm. cbn [snd] in *. lia.
  - apply (kept_mods d regs regs (l ++ (pc, s) :: k) top _ [] d' Hs (fun _ H => H) Hsame); [|constructor]. each; [|right; left; solve_apart].
    destruct H7 as [->|([a t] & Hr & ->)]; [left; solve_apart|right; right]. exists (a, t). split; [by left|].
    pose proof (space_frees_in _ _ _ _ _ Hs Hr) as F. unfold part_of. cbn [fst snd] in *. lia.
  - lia.
Qed.

Lemma part_slot_space d nByte regs l k pc s top : space u hdr lo d regs (l ++ (pc, s) :: k) top -> 4 <= nByte -> 4 <= s - nByte ->
  let d' := put2byte d (pc + 2) (s - nByte) in
  space u hdr lo d' ((pc + (s - nByte), nByte) :: regs) (l ++ (pc, s - nByte) :: k) top /\ kept hdr lo u regs d d' /\ top < pc + (s - nByte).
Proof.
  cbv zeta. intros Hs Hn Hx.
  pose proof (space_split _ _ _ _ _ _ _ Hs) as Hsp. cbv zeta in Hsp. set (ce := chain_end (hdr + 1) l) in *. destruct Hsp as (E1 & E2 & E3 & S1 & S2 & H1 & H2 & H3 & H4 & H5 & H6 & H7 & H8).
  pose proof Hs as [Db Du Dh Dc Ds Dd Di Dz Dt Dl Df Dm].
  set (x := s - nByte) in *. set (d' := put2byte d (pc + 2) x).
  pose proof (same_put2 d (pc + 2) x) as Hsame. fold d' in Hsame.
  split_and!; [|..].
  - split.
    + by apply bytes_put2.
    + unfold d'. by rewrite zlen_put2.
    + done.
    + apply (chain_replace _ d d' top (hdr + 1) l ((pc, s) :: k) _ Hsame S1); [lia| |done|].
      { each. right. right. fold ce. lia. }
      cbn [free_chain]. fold ce. split_and!.
      { rewrite <- E1. apply (same_get2 _ _ _ _ Hsame). each. solve_apart. }
      { unfold d'. rewrite get2_put2 by lia. rewrite Z.mod_small by lia. done. }
      { apply (chain_frame _ d d' pc k Hsame); [each; solve_apart| |done]. eapply Forall_impl; [exact H8|]. intros [a t] Ha. cbn [fst snd] in *. each. solve_apart. }
    + apply sorted_app. split; [done|]. cbn [sorted_from]. split_and!; [lia|done|]. eapply sorted_weaken; [|exact S2]. lia.
    + cbn [app disjoint_regions]. rewrite app_assoc in Dd |- *. rewrite <- Permutation_middle in Dd |- *. destruct Dd as [Da Dd].
      cbn [disjoint_regions]. split_and!; [|..|done].
      { apply Forall_cons. split; [solve_apart|]. eapply Forall_impl; [exact Da|]. intros r Hr. unfold apart in *. cbn [fst snd] in *. lia. }
      { eapply Forall_impl; [exact Da|]. intros r Hr. unfold apart in *. cbn [fst snd] in *. lia. }
    + cbn [app]. rewrite app_assoc in Di |- *. rewrite <- Permutation_middle in Di |- *. apply Forall_cons in Di as [Da Di].
      rewrite !Forall_cons. unfold inside in *. cbn [fst snd] in *. split_and!; [lia..|done].
    + cbn [app]. rewrite app_assoc in Dz |- *. rewrite <- Permutation_middle in Dz |- *. apply Forall_cons in Dz as [Da Dz].
      rewrite !Forall_cons. cbn [snd] in *. split_and!; [lia..|done].
    + rewrite (same_get2 _ _ _ _ Hsame); [done|]. each. solve_apart.
    + done.
    + rewrite (same_byte _ _ _ (hdr + 7) Hsame); [done|]. each. solve_apart.
    + rewrite (same_byte _ _ _ (hdr + 7) Hsame); [|each; solve_apart]. rewrite total_cons, total_app in *. rewrite total_cons in *. cbn [snd] in *. lia.
  - apply (kept_mods d regs regs (l ++ (pc, s) :: k) top _ [] d' Hs (fun _ H => H) Hsame); [|constructor]. each. right. right. exists (pc, s). split; [left; set_solver|solve_apart].
  - lia.
Qed.

Lemma slot_space d nByte regs frees top g rc d' : space u hdr lo d regs frees top -> 4 <= nByte ->
  slot d nByte (hdr + 1) frees (Some g, rc, d') ->
  exists frees', space u hdr lo d' ((g, nByte) :: regs) frees' top /\ kept hdr lo u regs d d' /\ top < g.
Proof.
  intros Hs Hn Hslot. remember (Some g, rc, d') as res eqn:Er. destruct Hslot as [|l k pc s -> Hx Hfr|l k pc s -> Hx]; [done| |]; injection Er as <- _ <-.
  - eexists. by apply whole_slot_space.
  - eexists. by apply part_slot_space.
Qed.

(** ** Freeing *)

Definition hd_addr (k : list region) : Z := match k with [] => 0 | (a, _) :: _ => a end.

Lemma free_chain_hd d i k : free_chain d i k -> get2byte d i = hd_addr k.
Proof. by destruct k as [|[a s] k]; [|intros []]. Qed.

Lemma find_place_ok d iStart frees : 0 < iStart -> forall fuel i bound, free_chain d i frees -> sorted_from bound frees -> 0 <= i <= bound ->
  (0 < fuel)%nat -> iStart - i <= Z.of_nat fuel ->
  exists l k, frees = l ++ k /\ find_place fuel d iStart i = Some (chain_end i l, hd_addr k) /\
    Forall (fun r => r.1 < iStart) l /\ (k = [] \/ iStart <= hd_addr k).
Proof.
  intros H0. induction frees as [|[a s] frees IH]; intros fuel i bound Hc Hs Hi Hf Hm; (destruct fuel as [|fuel]; [lia|]); cbn [find_place].
  - cbn in Hc. rewrite Hc. exists [], []. rewrite (proj2 (Z.ltb_lt _ _)), (proj2 (Z.leb_le _ _)) by lia. split_and!; auto.
  - destruct Hc as (E & _ & Hc). destruct Hs as (S1 & S2 & Hs). rewrite E.
    destruct (Z.ltb_spec a iStart) as [Ha|Ha].
    + rewrite (proj2 (Z.leb_gt _ _)) by lia. destruct (IH fuel a (a + s + 3) Hc Hs ltac:(lia) ltac:(lia) ltac:(lia)) as (l & k & -> & E' & Hl & Hk).
      exists ((a, s) :: l), k. split_and!; auto.
    + exists [], ((a, s) :: frees). split_and!; auto.
Qed.

Lemma sorted_disjoint bound l : sorted_from bound l -> disjoint_regions l.
Proof.
  revert bound. induction l as [|[a s] l IH]; intros bound; [done|]. intros (H1 & H2 & H3). split; [|by eapply IH].
  apply Forall_forall. intros r Hr. pose proof (sorted_elem _ _ _ H3 Hr). unfold apart. cbn [fst snd]. lia.
Qed.

Lemma disjoint_with_frees regs frees bound : disjoint_regions regs -> sorted_from bound frees ->
  (forall r s, r ∈ regs -> s ∈ frees -> apart r s) -> disjoint_regions (regs ++ frees).
Proof.
  intros Hr Hs Ha. apply disjoint_app. split; [done|]. split; [by eapply sorted_disjoint|].
  apply Forall_forall. intros r Hin. apply Forall_forall. auto.
Qed.

(** What freeing the region (S, E) means for the list: [l] before it, [k] after it. *)
Record merged (d : list Z) (regs : list region) (top iStart iSize : Z) (frees l k : list region) (S E nFrag : Z) : Prop := {
  mg_sorted_l : sorted_from top l;
  mg_sorted_k : sorted_from (E + 3) k;
  mg_cover : top <= S <= iStart /\ iStart + iSize <= E <= u;
  mg_regs : Forall (fun r => apart r (S, E - S)) regs;
  mg_sub : forall r, r ∈ l \/ r ∈ k -> r ∈ frees;
  mg_sum : total l + total k + (E - S) = total frees + iSize + nFrag;
  mg_frag : 0 <= nFrag }.

Lemma merge_right d regs iStart iSize l k top : space u hdr lo d ((iStart, iSize) :: regs) (l ++ k) top ->
  Forall (fun r => r.1 < iStart) l -> (k = [] \/ iStart <= hd_addr k) ->
  exists k' E n j,
    (if truthy (hd_addr k) && (hd_addr k <=? iStart + iSize + 3) then
       if hd_addr k <? iStart + iSize then None
       else let iEnd' := hd_addr k + get2byte d (hd_addr k + 2) in
            if u <? iEnd' then None else Some (iEnd', get2byte d (hd_addr k), hd_addr k - (iStart + iSize))
     else Some (iStart + iSize, hd_addr k, 0)) = Some (E, hd_addr k', n) /\
    merged d regs top iStart iSize (l ++ k) l k' iStart E n /\ free_chain d j k' /\ Forall (fun r => r.1 + r.2 <= iStart) l.
Proof.
  intros Hs Hl Hk. pose proof Hs as [Db Du Dh Dc Ds Dd Di Dz Dt Dl Df Dm].
  destruct (space_regs_in _ _ _ _ (iStart, iSize) Hs ltac:(left)) as (R1 & R2 & R3). cbn [fst snd] in *.
  destruct (proj1 (sorted_app _ _ _) Ds) as [S1 S2]. pose proof (chain_tail _ _ _ _ Dc) as Ck.
  assert (Ar : forall r, r ∈ l ++ k -> apart (iStart, iSize) r) by (intros r Hr; eapply space_apart; [exact Hs|left|done]).
  assert (Al : Forall (fun r => r.1 + r.2 <= iStart) l).
  { apply Forall_forall. intros r Hr. rewrite Forall_forall in Hl. specialize (Hl r Hr). specialize (Ar r ltac:(apply elem_of_app; by left)). unfold apart in Ar. cbn [fst snd] in Ar. lia. }
  assert (Hrr : Forall (fun r => apart r (iStart, iSize)) regs).
  { cbn [app disjoint_regions] in Dd. destruct Dd as [Da _]. apply Forall_app in Da as [Da _]. eapply Forall_impl; [exact Da|]. intros r. apply apart_comm. }
  destruct k as [|[a s] k]; cbn [hd_addr] in *.
  { exists [], (iStart + iSize), 0, (chain_end (hdr + 1) l). split; [done|]. split; [|done]. rewrite app_nil_r in *.
    split; try done; try lia; [by replace (iStart + iSize - iStart) with iSize by lia|by intros r [?|?%not_elem_of_nil]|change (total []) with 0; lia]. }
  destruct Hk as [Hk|Hk]; [done|]. destruct Ck as (C1 & C2 & Ck). destruct S2 as (S2 & S3 & S4).
  pose proof (Ar (a, s) ltac:(set_solver)) as Aas. unfold apart in Aas. cbn [fst snd] in Aas.
  pose proof (space_frees_in _ _ _ _ (a, s) Hs ltac:(set_solver)) as (F1 & F2 & F3). cbn [fst snd] in *.
  replace (truthy a) with true by (unfold truthy; rewrite (proj2 (Z.eqb_neq _ _)) by lia; done). cbn [andb].
  destruct (Z.leb_spec a (iStart + iSize + 3)) as [Hn|Hn].
  - rewrite C2, (proj2 (Z.ltb_ge _ _)), (proj2 (Z.ltb_ge u _)) by lia. cbv zeta.
    exists k, (a + s), (a - (iStart + iSize)), a. rewrite (free_chain_hd _ _ _ Ck). split; [done|]. split; [|done].
    split; try done; try lia.
    + apply Forall_forall. intros r Hr. rewrite Forall_forall in Hrr. specialize (Hrr r Hr).
      pose proof (space_apart _ _ _ _ r (a, s) Hs ltac:(by right) ltac:(set_solver)) as Ha.
      pose proof (space_regs_in _ _ _ _ r Hs ltac:(by right)) as (_ & H4 & _). unfold apart in *. cbn [fst snd] in *. lia.
    + intros r [Hr|Hr]; apply elem_of_app; [by left|right; by right].
    + rewrite total_app, total_cons. cbn [snd]. lia.
  - exists ((a, s) :: k), (iStart + iSize), 0, (chain_end (hdr + 1) l). cbn [hd_addr]. split; [done|]. split; [|done].
    split; try done; try lia.
    + by replace (iStart + iSize - iStart) with iSize by lia.
    + intros r [?|?]; apply elem_of_app; auto.
    + rewrite total_app. lia.
Qed.

(** The merger with the block before. *)
Lemma merge_left d regs iStart iSize l k k' E n top : space u hdr lo d ((iStart, iSize) :: regs) (l ++ k) top ->
  merged d regs top iStart iSize (l ++ k) l k' iStart E n -> Forall (fun r => r.1 + r.2 <= iStart) l ->
  exists l' S n',
    (if hdr + 1 <? chain_end (hdr + 1) l then
       let iPtrEnd := chain_end (hdr + 1) l + get2byte d (chain_end (hdr + 1) l + 2) in
       if iStart <=? iPtrEnd + 3 then if iStart <? iPtrEnd then None else Some (chain_end (hdr + 1) l, n + (iStart - iPtrEnd)) else Some (iStart, n)
     else Some (iStart, n)) = Some (S, n') /\
    merged d regs top iStart iSize (l ++ k) l' k' S E n' /\ (next_from top l' < S \/ (l' = [] /\ S = top)) /\
    ((l = l' /\ S = iStart) \/ exists s, l = l' ++ [(S, s)]).
Proof.
  intros Hs Hm Hl. pose proof Hs as [Db Du Dh Dc Ds Dd Di Dz Dt Dl Df Dm].
  destruct (space_regs_in _ _ _ _ (iStart, iSize) Hs ltac:(left)) as (R1 & R2 & R3). cbn [fst snd] in *.
  destruct l as [|[a s] l0 _] using rev_ind.
  { cbn [chain_end]. rewrite (proj2 (Z.ltb_ge _ _)) by lia. exists [], iStart, n. split; [done|]. split; [done|]. cbn [next_from]. split; [|by left].
    destruct (decide (iStart = top)); [right|left]; [done|lia]. }
  pose proof (space_split _ _ _ _ _ _ _ (eq_ind _ (fun f => space u hdr lo d _ f top) Hs _ (eq_sym (app_assoc _ _ _)))) as Hsp.
  cbv zeta in Hsp. cbn [app] in Hsp. destruct Hsp as (E1 & E2 & E3 & S1 & S2 & H1 & H2 & H3 & H4 & _).
  rewrite chain_end_snoc, E2. apply Forall_app in Hl as [Hl Ha]. rewrite Forall_singleton in Ha. cbn [fst snd] in Ha.
  rewrite (proj2 (Z.ltb_lt _ _)) by lia. cbv zeta. destruct Hm as [M1 M2 M3 M4 M5 M6 M7].
  destruct (Z.leb_spec iStart (a + s + 3)) as [Hn|Hn].
  - rewrite (proj2 (Z.ltb_ge _ _)) by lia. exists l0, a, (n + (iStart - (a + s))). split; [done|]. split; [|split; [left; done|right; by exists s]].
    split; try done; try lia.
    + apply Forall_forall. intros r Hr. rewrite Forall_forall in M4. specialize (M4 r Hr).
      pose proof (space_apart _ _ _ _ r (a, s) Hs ltac:(by right) ltac:(set_solver)) as Haa.
      pose proof (space_regs_in _ _ _ _ r Hs ltac:(by right)) as (_ & H5 & _). unfold apart in *. cbn [fst snd] in *. lia.
    + intros r [?|?]; apply M5; [left; apply elem_of_app; by left|by right].
    + rewrite total_app, total_cons in M6. change (total []) with 0 in M6. cbn [snd] in M6. lia.
  - exists (l0 ++ [(a, s)]), iStart, n. split; [done|]. split; [done|]. split; [left; rewrite next_from_snoc; lia|by left].
Qed.

Lemma merged_fits d regs top iStart iSize frees l k S E n : space u hdr lo d ((iStart, iSize) :: regs) frees top ->
  merged d regs top iStart iSize frees l k S E n -> (next_from top l < S \/ (l = [] /\ S = top)) ->
  let all := regs ++ l ++ (S, E - S) :: k in
  disjoint_regions all /\ Forall (inside top u) all /\ Forall (fun r => 4 <= r.2) all /\ n <= d.[hdr + 7].
Proof.
  intros Hs [M1 M2 M3 M4 M5 M6 M7] HS all. pose proof (space_regs_in _ _ _ _ (iStart, iSize) Hs ltac:(left)) as (R1 & R2 & R3). cbn [fst snd] in *.
  assert (Hin : forall r, r ∈ regs \/ r ∈ l \/ r ∈ k -> inside top u r /\ 4 <= r.2).
  { intros r [Hr|Hr]; [pose proof (space_regs_in _ _ _ _ r Hs ltac:(by right))|pose proof (space_frees_in _ _ _ _ r Hs (M5 _ Hr))]; unfold inside; lia. }
  assert (Hd : disjoint_regions all).
  { apply (disjoint_with_frees _ _ (top - 1)).
    - pose proof (sp_disjoint _ _ _ _ _ _ _ Hs) as [_ Hd]. by apply disjoint_app in Hd as (Hd & _).
    - apply sorted_app. split; [eapply sorted_weaken; [|exact M1]; lia|]. cbn [sorted_from].
      split_and!; [|lia|eapply sorted_weaken; [|exact M2]; lia]. destruct HS as [HS|[-> ->]]; [|cbn [next_from]; lia].
      destruct l as [|[a s] l]; [cbn [next_from] in *; lia|exact HS].
    - intros r x Hr [Hx|[->|Hx]%elem_of_cons]%elem_of_app.
      + eapply space_apart; [exact Hs|by right|auto].
      + rewrite Forall_forall in M4. auto.
      + eapply space_apart; [exact Hs|by right|auto]. }
  assert (Hb : Forall (fun r => inside top u r /\ 4 <= r.2) all).
  { unfold all. rewrite !Forall_app, Forall_cons. split_and!; try (unfold inside; cbn [fst snd]; lia);
      apply Forall_forall; intros r Hr; apply Hin; tauto. }
  apply Forall_and in Hb as [Hb1 Hb2]. split_and!; try done.
  pose proof (regions_fit top u all) as Hf. unfold all in Hf. rewrite !total_app, total_cons in Hf. cbn [snd] in Hf.
  pose proof (sp_sum _ _ _ _ _ _ _ Hs) as Hsum. rewrite total_cons in Hsum. cbn [snd] in Hsum.
  enough (total regs + (total l + (E - S + total k)) <= u - top) by lia. apply Hf; [lia|done| |done]. eapply Forall_impl; [exact Hb2|]. cbn. lia.
Qed.

Lemma free_found_ok p regs iStart iSize frees top : usable p = u -> hdrOffset p = hdr ->
  space u hdr lo (aData p) ((iStart, iSize) :: regs) frees top ->
  exists l k l' k' S E n j d1, frees = l ++ k /\
    free_found p iStart iSize = Some (chain_end (hdr + 1) l, S, E, hd_addr k', d1) /\
    merged (aData p) regs top iStart iSize frees l' k' S E n /\ (next_from top l' < S \/ (l' = [] /\ S = top)) /\
    ((l = l' /\ S = iStart) \/ exists s, l = l' ++ [(S, s)]) /\ free_chain (aData p) j k' /\
    bytes_ok d1 /\ same_outside [(hdr + 7, 1)] (aData p) d1 /\ d1.[hdr + 7] = (aData p).[hdr + 7] - n.
Proof.
  intros Hu Hh Hs. unfold free_found. rewrite Hu, Hh. set (d := aData p) in *. pose proof Hs as [Db Du Dh Dc Ds Dd Di Dz Dt Dl Df Dm].
  destruct (space_regs_in _ _ _ _ (iStart, iSize) Hs ltac:(left)) as (R1 & R2 & R3). cbn [fst snd] in *.
  destruct ((d.[hdr + 1 + 1] =? 0) && (d.[hdr + 1] =? 0)) eqn:Eb.
  - apply andb_true_iff in Eb as [E1%Z.eqb_eq E2%Z.eqb_eq]. destruct (get2_value d (hdr + 1) Db) as [Ev _]. rewrite E1, E2 in Ev.
    assert (frees = []) as -> by (destruct frees as [|[a s] frees]; [done|]; destruct Dc as [Dc _], Ds as [Ds _]; lia).
    exists [], [], [], [], iStart, (iStart + iSize), 0, (hdr + 1), d. cbn [chain_end hd_addr next_from]. split; [done|]. split; [done|].
    split; [|split; [destruct (decide (iStart = top)); [by right|left; lia]|split; [by left|split; [done|split; [done|split; [done|lia]]]]]].
    replace (iStart + iSize - iStart) with iSize by lia. split; try done; try lia.
    + rewrite app_nil_r in Dd. destruct Dd as [Da _]. eapply Forall_impl; [exact Da|]. intros r. replace (iStart + iSize - iStart) with iSize by lia. apply apart_comm.
    + intros r [Hr|Hr]; by apply not_elem_of_nil in Hr.
    + change (total []) with 0. lia.
  - clear Eb. destruct (find_place_ok d iStart frees ltac:(lia) (Datatypes.S (Z.to_nat iStart)) (hdr + 1) top Dc Ds ltac:(lia) ltac:(lia) ltac:(lia)) as (l & k & -> & -> & Hl & Hk).
    destruct (merge_right d regs iStart iSize l k top Hs Hl Hk) as (k' & E & n & j & Er & Hm & Hj & Hl').
    destruct (merge_left d regs iStart iSize l k k' E n top Hs Hm Hl') as (l' & S & n' & El & Hm' & HS & Hll).
    destruct (merged_fits _ _ _ _ _ _ _ _ _ _ _ Hs Hm' HS) as (_ & _ & _ & Hn). pose proof (mg_frag _ _ _ _ _ _ _ _ _ _ _ Hm') as Hn0.
    unfold coalesce. cbv zeta in Er, El |- *. rewrite (proj2 (Z.ltb_ge (u - 4) _)) by
      (destruct k as [|[a s] k]; cbn [hd_addr]; [lia|]; pose proof (space_frees_in _ _ _ _ (a, s) Hs ltac:(set_solver)); cbn [fst snd] in *; lia).
    rewrite Er, El, (proj2 (Z.ltb_ge d.[hdr + 7] _)) by lia. clear Er El.
    assert (Eu : u8 (d.[hdr + 7] - u8 n') = d.[hdr + 7] - n') by (unfold u8; rewrite (Z.mod_small n'), Z.mod_small by lia; done).
    exists l, k, l', k', S, E, n', j, (d.[hdr + 7 <- u8 (d.[hdr + 7] - u8 n')]). split_and!; try done.
    + apply bytes_zput; [done|apply u8_range].
    + apply same_zput.
    + rewrite zget_zput_eq by lia. exact Eu.
Qed.

Lemma zlen_zeroed n : 0 <= n -> zlen (replicate (Z.to_nat n) 0) = n.
Proof. intros. unfold zlen. rewrite length_replicate. lia. Qed.

(** The block and the count of fragments, before the list is changed. *)
Lemma cleared_ok p d d1 S E n : bytes_ok d1 -> same_outside [(hdr + 7, 1)] d d1 -> d1.[hdr + 7] = d.[hdr + 7] - n -> 0 <= hdr -> hdr + 8 <= S -> S <= E <= zlen d ->
  let d2 := if truthy (Z.land (btsFlags (pBt p)) BTS_FAST_SECURE) then memzero d1 S (E - S) else d1 in
  bytes_ok d2 /\ same_outside [(hdr + 7, 1); (S, E - S)] d d2 /\ d2.[hdr + 7] = d.[hdr + 7] - n.
Proof.
  intros Hb Hs H7 H0 H1 H2. cbv zeta. pose proof (proj1 Hs) as Hl. destruct (truthy _).
  - assert (Hz : same_outside [(S, E - S)] d1 (memzero d1 S (E - S))).
    { pose proof (same_splice d1 S (replicate (Z.to_nat (E - S)) 0)) as G. rewrite zlen_zeroed in G by lia. apply G; lia. }
    split_and!; [apply bytes_spliced; auto using bytes_zeroed|exact (same_trans _ _ _ _ _ Hs Hz)|]. rewrite <- H7. apply (same_byte _ _ _ _ Hz). each. solve_apart.
  - split_and!; [done| |done]. eapply same_weaken; [exact Hs|]. intros j [Hj _]%Forall_cons. by each.
Qed.

(** The block that is put in the list. *)
Lemma linked_chain d d' mods l k l' k' j top S E iStart : free_chain d (hdr + 1) (l ++ k) -> free_chain d j k' ->
  sorted_from top (l ++ k) -> sorted_from (E + 3) k' -> hdr + 8 <= top -> next_from top l' < S -> S + 4 <= E ->
  ((l = l' /\ S = iStart) \/ exists s, l = l' ++ [(S, s)]) ->
  same_outside mods d d' -> mods = [(hdr + 7, 1); (S, E - S); (chain_end (hdr + 1) l, 2)] ->
  (l = l' -> get2byte d' (chain_end (hdr + 1) l) = S) -> get2byte d' S = hd_addr k' -> get2byte d' (S + 2) = E - S ->
  free_chain d' (hdr + 1) (l' ++ (S, E - S) :: k').
Proof.
  intros Hc Hj Hs Hk Ht HS HE Hl Hsame Hm G1 G2 G3. apply sorted_app in Hs as [Hsl _].
  assert (Hs' : sorted_from top l') by (destruct Hl as [[-> _]|[s ->]]; [done|by apply sorted_app in Hsl as [? _]]).
  pose proof (chain_end_gap top (hdr + 1) l' Hs' ltac:(lia)) as Hg. pose proof (next_from_ge _ _ Hs').
  pose proof (chain_end_le top (hdr + 1) l' Hs' ltac:(lia)).
  assert (Hc' : exists k0, free_chain d (hdr + 1) (l' ++ k0)).
  { destruct Hl as [[-> _]|[s ->]]; [by exists k|]. exists ((S, s) :: k). by rewrite <- app_assoc in Hc. }
  destruct Hc' as [k0 Hc'].
  apply (chain_replace mods d d' top (hdr + 1) l' k0 _ Hsame Hs'); [lia| |done|].
  { rewrite Hm. each; [left; solve_apart|right; right; lia|]. destruct Hl as [[-> _]|[s ->]]; [right; left; done|].
    rewrite chain_end_snoc. right; right; lia. }
  cbn [free_chain]. split_and!; [|done|].
  - destruct Hl as [[-> _]|[s ->]]; [auto|]. rewrite <- app_assoc in Hc. apply chain_tail in Hc as [Hc _]. rewrite <- Hc.
    apply (same_get2 _ _ _ _ Hsame). rewrite Hm, chain_end_snoc.
    assert (chain_end (hdr + 1) l' = hdr + 1 \/ top < chain_end (hdr + 1) l').
    { destruct (chain_end_in (hdr + 1) l') as [?|(r & Hr & ?)]; [by left|right]. pose proof (sorted_elem _ _ _ Hs' Hr). lia. }
    each; solve_apart.
  - apply (chain_move mods d d' j S k' Hj Hsame); [by rewrite G2, (free_chain_hd _ _ _ Hj)|].
    apply Forall_forall. intros r Hr. pose proof (sorted_elem _ _ _ Hk Hr). rewrite Hm.
    assert (chain_end (hdr + 1) l + 2 <= E) by (destruct Hl as [[-> _]|[s ->]]; [lia|rewrite chain_end_snoc; lia]). each; solve_apart.
Qed.

Section freeing.
Context (d d2 : list Z) (regs l k l' k' : list region) (iStart iSize top S E n j : Z).
Context (Hs : space u hdr lo d ((iStart, iSize) :: regs) (l ++ k) top).
Context (Hm : merged d regs top iStart iSize (l ++ k) l' k' S E n) (HS : next_from top l' < S \/ (l' = [] /\ S = top)).
Context (Hll : (l = l' /\ S = iStart) \/ exists s, l = l' ++ [(S, s)]) (Hj : free_chain d j k').
Context (Hb2 : bytes_ok d2) (Hs2 : same_outside [(hdr + 7, 1); (S, E - S)] d d2) (H72 : d2.[hdr + 7] = d.[hdr + 7] - n).

Lemma freed_fits : let all := regs ++ l' ++ (S, E - S) :: k' in
  disjoint_regions all /\ Forall (inside top u) all /\ Forall (fun r => 4 <= r.2) all /\ n <= d.[hdr + 7].
Proof using Hs Hm HS. by apply (merged_fits d regs top iStart iSize (l ++ k)). Qed.

Lemma freed_bounds : hdr + 8 <= lo <= top /\ 0 <= hdr /\ top <= S /\ S + 4 <= E <= u /\ u <= zlen d /\ u <= 65536 /\ zlen d2 = zlen d /\
  0 <= hd_addr k' < 65536 /\ Forall (fun r => E + 3 < r.1) k' /\ 0 <= n <= d.[hdr + 7] /\ d.[hdr + 7] <= 60 /\
  total regs + total l' + total k' + (E - S) + (d.[hdr + 7] - n) = u - top.
Proof using Hs Hm HS Hj Hs2.
  destruct freed_fits as (_ & _ & _ & Hn). destruct Hm as [M1 M2 M3 M4 M5 M6 M7]. pose proof Hs as [Db Du Dh Dc Ds Dd Di Dz Dt Dl Df Dm].
  destruct (space_regs_in _ _ _ _ (iStart, iSize) Hs ltac:(left)) as (R1 & R2 & R3). cbn [fst snd] in *. rewrite total_cons in Dm. cbn [snd] in Dm.
  pose proof (get2_value d j Db) as [_ Hv]. rewrite (free_chain_hd _ _ _ Hj) in Hv. pose proof (proj1 Hs2).
  split_and!; try lia. apply Forall_forall. intros r Hr. by apply (sorted_elem _ _ _ M2).
Qed.

Lemma freed_kept mods d' : same_outside mods d d' ->
  Forall (fun m => part_of m (hdr + 1, 2) \/ part_of m (hdr + 5, 3) \/ part_of m (S, E - S) \/ exists b, b ∈ l ++ k /\ part_of m b) mods -> kept hdr lo u regs d d'.
Proof using Hs Hm.
  intros Hd Hmods. apply (kept_mods d ((iStart, iSize) :: regs) regs (l ++ k) top mods [(S, E - S)] d' Hs); [intros; by right|done| |].
  - eapply Forall_impl; [exact Hmods|]. intros m [?|[?|[?|(b & ? & ?)]]]; [by left|right; by left|right; right|right; right].
    + exists (S, E - S). split; [right; left|done].
    + exists b. auto.
  - pose proof (mg_cover _ _ _ _ _ _ _ _ _ _ _ Hm). each. split; [unfold inside; cbn [fst snd]; lia|apply Hm].
Qed.

(** The block borders on the gap, and joins it. *)
Lemma free_joins_gap : l = [] -> l' = [] -> S = top ->
  let d' := put2byte (put2byte d2 (hdr + 1) (hd_addr k')) (hdr + 5) E in space u hdr lo d' regs k' E /\ kept hdr lo u regs d d'.
Proof using All.
  intros El El' ES d'. destruct freed_fits as (Hd & Hi & Hz & _). pose proof freed_bounds as (B1 & B2 & B3 & B4 & B5 & B6 & B7 & B8 & B9 & B10 & B11 & B12).
  pose proof (mg_regs _ _ _ _ _ _ _ _ _ _ _ Hm) as M4. pose proof (mg_sorted_k _ _ _ _ _ _ _ _ _ _ _ Hm) as M2. rewrite El' in Hd, Hi, Hz, B12. cbn [app] in Hd, Hi, Hz. change (total []) with 0 in B12.
  set (d3 := put2byte d2 (hdr + 1) (hd_addr k')) in *.
  assert (Hsame : same_outside [(hdr + 7, 1); (S, E - S); (hdr + 1, 2); (hdr + 5, 2)] d d').
  { exact (same_trans _ _ _ _ _ (same_trans _ _ _ _ _ Hs2 (same_put2 d2 _ _)) (same_put2 d3 _ _)). }
  assert (H7 : d'.[hdr + 7] = d2.[hdr + 7]).
  { apply (same_byte _ _ _ _ (same_trans _ _ _ _ _ (same_put2 d2 (hdr + 1) _) (same_put2 d3 (hdr + 5) _))). each; solve_apart. }
  split; [|apply (freed_kept _ _ Hsame); each; [right; left; solve_apart|right; right; left; solve_apart|left; solve_apart|right; left; solve_apart]].
  split; try done; try lia.
  - by apply bytes_put2, bytes_put2.
  - rewrite (proj1 Hsame). apply Hs.
  - apply (chain_move _ d d' j (hdr + 1) k' Hj Hsame).
    + rewrite (free_chain_hd _ _ _ Hj). unfold d'. rewrite (same_get2 _ _ _ (hdr + 1) (same_put2 d3 (hdr + 5) E)) by (each; solve_apart).
      unfold d3. rewrite get2_put2 by lia. by apply Z.mod_small.
    + eapply Forall_impl; [exact B9|]. intros r Hr. cbn beta in Hr. each; solve_apart.
  - eapply sorted_weaken; [|exact M2]. lia.
  - apply disjoint_app in Hd as (Hd1 & [_ Hd2] & Hd3). apply disjoint_app. split_and!; [done|done|].
    eapply Forall_impl; [exact Hd3|]. by intros r [_ ?]%Forall_cons.
  - apply Forall_app in Hi as [Hi1 [_ Hi2]%Forall_cons]. apply Forall_app in Hz as [Hz _]. apply Forall_app. split.
    + apply Forall_forall. intros r Hr. rewrite Forall_forall in Hi1, M4, Hz. specialize (Hi1 r Hr). specialize (M4 r Hr). specialize (Hz r Hr).
      unfold inside, apart in *. cbn [fst snd] in *. lia.
    + apply Forall_forall. intros r Hr. rewrite Forall_forall in Hi2, B9. specialize (Hi2 r Hr). specialize (B9 r Hr). unfold inside in *. lia.
  - apply Forall_app in Hz as [Hz1 [_ Hz2]%Forall_cons]. by apply Forall_app.
  - unfold d'. rewrite get2_put2 by (unfold d3; rewrite ?zlen_put2; lia). done.
Qed.

(** The block is linked into the list. *)
Lemma free_in_list : next_from top l' < S ->
  let d' := put2byte (put2byte (put2byte d2 (chain_end (hdr + 1) l) S) S (hd_addr k')) (S + 2) (u16 (E - S)) in
  space u hdr lo d' regs (l' ++ (S, E - S) :: k') top /\ kept hdr lo u regs d d'.
Proof using All.
  intros HS' d'. destruct freed_fits as (Hd & Hi & Hz & _). pose proof freed_bounds as (B1 & B2 & B3 & B4 & B5 & B6 & B7 & B8 & B9 & B10 & B11 & B12).
  pose proof (mg_sorted_k _ _ _ _ _ _ _ _ _ _ _ Hm) as M2. pose proof (mg_sorted_l _ _ _ _ _ _ _ _ _ _ _ Hm) as M1. pose proof (next_from_ge _ _ M1).
  set (ce := chain_end (hdr + 1) l) in *. set (d3 := put2byte d2 ce S) in *. set (d4 := put2byte d3 S (hd_addr k')) in *.
  assert (Hsame : same_outside [(hdr + 7, 1); (S, E - S); (ce, 2)] d d').
  { eapply same_weaken; [exact (same_trans _ _ _ _ _ (same_trans _ _ _ _ _ (same_trans _ _ _ _ _ Hs2 (same_put2 d2 ce S)) (same_put2 d3 S _)) (same_put2 d4 (S + 2) _))|].
    intros x Hx. rewrite !Forall_cons in Hx. cbn [fst snd app] in *. each; lia. }
  assert (Hce : ce = hdr + 1 \/ exists r, r ∈ l ++ k /\ ce = r.1 /\ top < r.1 /\ 4 <= r.2).
  { destruct (chain_end_in (hdr + 1) l) as [?|(r & Hr & ?)]; [by left|right]. exists r. pose proof (space_frees_in _ _ _ _ r Hs ltac:(set_solver)). split_and!; try done; [set_solver|lia..]. }
  assert (Hce2 : ce = S \/ ce + 2 <= S).
  { unfold ce. destruct Hll as [[-> _]|[s ->]]; [right|left; by rewrite chain_end_snoc]. pose proof (chain_end_gap top (hdr + 1) l' M1). lia. }
  assert (Hce7 : apart (hdr + 5, 3) (ce, 2)) by (destruct Hce as [->|(r & _ & -> & ? & _)]; solve_apart).
  split; [|apply (freed_kept _ _ Hsame); each; [right; left; solve_apart|right; right; left; solve_apart|]].
  2: { destruct Hce as [->|(r & Hr & -> & ?)]; [left; solve_apart|right; right; right]. exists r. split; [done|solve_apart]. }
  unfold apart in Hce7. cbn [fst snd] in Hce7.
  pose proof (sp_chain _ _ _ _ _ _ _ Hs) as Dc. pose proof (sp_sorted _ _ _ _ _ _ _ Hs) as Ds.
  split; try done; try lia.
  - by repeat apply bytes_put2.
  - rewrite (proj1 Hsame). apply Hs.
  - apply (linked_chain d d' _ l k l' k' j top S E iStart Dc Hj Ds M2 ltac:(lia) HS' ltac:(lia) Hll Hsame eq_refl).
    + intros El. fold ce. assert (ce + 2 <= S) by (pose proof (chain_end_gap top (hdr + 1) l' M1 ltac:(lia)); unfold ce; rewrite El; lia). unfold d', d4. rewrite (same_get2 _ _ _ ce (same_trans _ _ _ _ _ (same_put2 d3 S _) (same_put2 d4 (S + 2) _))).
      * unfold d3. rewrite get2_put2 by (rewrite ?B7; destruct Hce as [->|(r & _ & -> & ? & _)]; lia). apply Z.mod_small. lia.
      * each; solve_apart.
    + unfold d'. rewrite (same_get2 _ _ _ S (same_put2 d4 (S + 2) _)) by (each; solve_apart). unfold d4, d3. rewrite get2_put2 by (rewrite ?zlen_put2; lia). by apply Z.mod_small.
    + assert (Eu : u16 (E - S) = E - S) by (apply Z.mod_small; lia). unfold d'. rewrite Eu, get2_put2 by (unfold d4, d3; rewrite ?zlen_put2; lia). apply Z.mod_small. lia.
  - apply sorted_app. split; [done|]. cbn [sorted_from]. split_and!; [done|lia|]. eapply sorted_weaken; [|exact M2]. lia.
  - rewrite (same_get2 _ _ _ (hdr + 5) Hsame) by (each; solve_apart). apply Hs.
  - replace d'.[hdr + 7] with d2.[hdr + 7]; [lia|]. symmetry.
    apply (same_byte _ _ _ _ (same_trans _ _ _ _ _ (same_trans _ _ _ _ _ (same_put2 d2 ce S) (same_put2 d3 S _)) (same_put2 d4 (S + 2) _))). each; solve_apart.
  - replace d'.[hdr + 7] with d2.[hdr + 7]; [rewrite total_app, total_cons; cbn [snd]; lia|]. symmetry.
    apply (same_byte _ _ _ _ (same_trans _ _ _ _ _ (same_trans _ _ _ _ _ (same_put2 d2 ce S) (same_put2 d3 S _)) (same_put2 d4 (S + 2) _))). each; solve_apart.
Qed.
End freeing.

Lemma free_space_ok p regs iStart iSize frees top : usable p = u -> hdrOffset p = hdr ->
  space u hdr lo (aData p) ((iStart, iSize) :: regs) frees top ->
  exists d' frees' top', freeSpace p iStart iSize = (SQLITE_OK, set_nFree (set_aData p d') (nFree p + iSize)) /\
    space u hdr lo d' regs frees' top' /\ kept hdr lo u regs (aData p) d'.
Proof.
  intros Hu Hh Hs. destruct (free_found_ok p regs iStart iSize frees top Hu Hh Hs) as (l & k & l' & k' & S & E & n & j & d1 & -> & Ef & Hm & HS & Hll & Hj & Hb1 & Hs1 & H71).
  unfold freeSpace. rewrite Ef. set (d := aData p) in *. clear Ef. pose proof (mg_cover _ _ _ _ _ _ _ _ _ _ _ Hm) as Hc.
  pose proof Hs as [Db Du Dh Dc Ds Dd Di Dz Dt Dl Df Dm].
  destruct (space_regs_in _ _ _ _ (iStart, iSize) Hs ltac:(left)) as (R1 & R2 & R3). cbn [fst snd] in *.
  unfold free_link. rewrite Hh. cbv zeta. rewrite (same_get2 _ _ _ (hdr + 5) Hs1), Dt, (Z.mod_small top) by (try lia; each; solve_apart).
  destruct (cleared_ok p d d1 S E n Hb1 Hs1 H71) as (Hb2 & Hs2 & H72); [lia..|]. cbv zeta in Hb2, Hs2, H72.
  set (d2 := if truthy _ then _ else _) in *. clearbody d2. clear Hs1 H71 Hb1 d1.
  destruct (Z.leb_spec S top) as [HT|HT].
  - assert (Hl : l' = [] /\ S = top) by (destruct HS as [HS|?]; [pose proof (next_from_ge _ _ (mg_sorted_l _ _ _ _ _ _ _ _ _ _ _ Hm)); lia|done]). destruct Hl as [El' ES].
    assert (El : l = []).
    { subst l' S. destruct Hll as [[-> _]|[s ->]]; [done|]. rewrite <- app_assoc in Ds. cbn in Ds. lia. }
    destruct (free_joins_gap d d2 regs l k l' k' iStart iSize top S E n j Hs Hm HS Hll Hj Hb2 Hs2 H72 El El' ES) as [G1 G2].
    subst l l' S. cbn [chain_end]. rewrite Z.ltb_irrefl, Z.eqb_refl. cbn [orb negb truthy]. eauto 6.
  - assert (HS' : next_from top l' < S) by (destruct HS as [?|[_ ?]]; [done|lia]).
    destruct (free_in_list d d2 regs l k l' k' iStart iSize top S E n j Hs Hm HS Hll Hj Hb2 Hs2 H72 HS') as [G1 G2]. eauto 6.
Qed.
End space.
