(* ===== verification/BtreeFit.v ===== *)
(** Cells in the space of a b-tree page: defragmentation by either method keeps every cell,
    and an allocation succeeds whenever the free space suffices. *)

From S2P Require Import Prelude Bits Varint Regions BtreeCell BtreePage BtreeSpace.

(** ** Cells on a page *)

Abbreviation cell := (Z * list Z)%type.
Definition cell_region (c : cell) : region := (c.1, zlen c.2).
Definition regions (cs : list cell) : list region := cell_region <$> cs.
Definition sizes (l : list (list Z)) : Z := foldr (fun c t => zlen c + t) 0 l.

Fixpoint ptrs_at (d : list Z) (ptr : Z) (l : list Z) : Prop :=
  match l with [] => True | pc :: l => get2byte d ptr = pc /\ ptrs_at d (ptr + 2) l end.
Definition contents_at (d : list Z) (cs : list cell) : Prop := Forall (fun c => slice d c.1 (zlen c.2) = c.2) cs.

(** A cell says how long it is, whatever follows it. *)
Definition wf_cell (bt : BtShared) (t : PageType) (c : list Z) : Prop :=
  4 <= zlen c /\ (leaf t = false -> 5 <= zlen c) /\ bytes_ok c /\
  forall rest, bytes_ok rest -> run_xCellSize bt t (c ++ rest) = zlen c.

Lemma sizes_nonneg l : 0 <= sizes l.
Proof. induction l as [|c l IH]; cbn [sizes foldr]; [done|]. change (foldr _ 0 l) with (sizes l). pose proof (zlen_nonneg c). lia. Qed.
Lemma total_regions cs : total (regions cs) = sizes cs.*2.
Proof. induction cs as [|[pc c] cs IH]; [done|]. change (regions ((pc, c) :: cs)) with ((pc, zlen c) :: regions cs). rewrite total_cons, IH. done. Qed.

Lemma slice_drop (d : list Z) i n : 0 <= i -> 0 <= n -> drop (Z.to_nat i) d = slice d i n ++ drop (Z.to_nat (i + n)) d.
Proof. intros. unfold slice. rewrite <- (take_drop (Z.to_nat n) (drop (Z.to_nat i) d)) at 1. f_equal. rewrite drop_drop. f_equal. lia. Qed.

Lemma cell_size_at bt t d pc c : wf_cell bt t c -> bytes_ok d -> 0 <= pc -> slice d pc (zlen c) = c ->
  run_xCellSize bt t (drop (Z.to_nat pc) d) = zlen c.
Proof.
  intros (_ & _ & _ & Hc) Hd Hpc E. rewrite (slice_drop d pc (zlen c)), E by (try done; apply zlen_nonneg). apply Hc. by apply Forall_drop.
Qed.

Lemma ptrs_frame mods d d' ptr l : same_outside mods d d' -> Forall (apart (ptr, 2 * zlen l)) mods -> ptrs_at d ptr l -> ptrs_at d' ptr l.
Proof.
  intros Hs. revert ptr. induction l as [|pc l IH]; intros ptr Hm; [done|]. rewrite zlen_cons in Hm. pose proof (zlen_nonneg l). intros [E Hl]. split.
  - rewrite <- E. apply (same_get2 _ _ _ _ Hs). eapply Forall_impl; [exact Hm|]. intros r Hr. unfold apart in *. cbn [fst snd] in *. lia.
  - apply IH; [|done]. eapply Forall_impl; [exact Hm|]. intros r Hr. unfold apart in *. cbn [fst snd] in *. lia.
Qed.
Lemma cells_frame mods d d' cs : same_outside mods d d' -> Forall (fun c => 0 <= c.1 /\ c.1 + zlen c.2 <= zlen d) cs ->
  Forall (fun c => Forall (apart (cell_region c)) mods) cs -> contents_at d cs -> contents_at d' cs.
Proof.
  intros Hs Hb Hm Hc. unfold contents_at in *. rewrite Forall_forall in *. intros c Hin. rewrite <- (Hc c Hin) at 2. destruct (Hb c Hin).
  apply (same_slice mods); try done; [apply zlen_nonneg|]. by apply Hm.
Qed.

(** Cells laid out from [hi] downwards. *)
Fixpoint packed (hi : Z) (l : list (list Z)) : list cell :=
  match l with [] => [] | c :: l => (hi - zlen c, c) :: packed (hi - zlen c) l end.

Lemma packed_contents hi l : (packed hi l).*2 = l.
Proof. revert hi. induction l as [|c l IH]; intros hi; [done|]. cbn [packed fmap list_fmap snd]. f_equal. apply IH. Qed.
Lemma packed_all (P : list Z -> Prop) hi l : Forall P l -> Forall (fun c => P c.2) (packed hi l).
Proof. intros Hl. revert hi. induction Hl; intros hi; by constructor. Qed.
Lemma packed_zlen hi l : zlen (packed hi l) = zlen l.
Proof. unfold zlen. by rewrite <- (length_fmap snd (packed hi l)), packed_contents. Qed.
Lemma packed_inside hi l : Forall (inside (hi - sizes l) hi) (regions (packed hi l)).
Proof.
  revert hi. induction l as [|c l IH]; intros hi; [constructor|]. cbn [packed]. pose proof (zlen_nonneg c). pose proof (sizes_nonneg l).
  change (sizes (c :: l)) with (zlen c + sizes l). apply List.Forall_cons.
  - unfold inside, cell_region. cbn [fst snd]. lia.
  - eapply Forall_impl; [apply IH|]. intros r. unfold inside. lia.
Qed.
Lemma packed_disjoint hi l : disjoint_regions (regions (packed hi l)).
Proof.
  revert hi. induction l as [|c l IH]; intros hi; [done|]. cbn [packed]. split; [|apply IH].
  eapply Forall_impl; [apply packed_inside|]. intros r. unfold inside, apart, cell_region. cbn [fst snd]. lia.
Qed.

Section page_proofs.
Variable tempSpace : list Z.

Lemma pack_cells_ok p src start cs : bytes_ok src -> usable p <= zlen src -> usable p <= 65536 ->
  Forall (fun c => wf_cell (pBt p) (ptype p) c.2) cs -> contents_at src cs -> Forall (fun c => 0 <= c.1 /\ c.1 + zlen c.2 <= usable p) cs ->
  forall data pAddr cbrk, bytes_ok data -> ptrs_at data pAddr cs.*1 -> 0 <= pAddr -> pAddr + 2 * zlen cs <= start -> start <= cbrk - sizes cs.*2 -> cbrk <= usable p <= zlen data ->
  exists data', pack_cells (length cs) p src data pAddr start cbrk = (SQLITE_OK, data', cbrk - sizes cs.*2) /\
    bytes_ok data' /\ same_outside [(pAddr, 2 * zlen cs); (cbrk - sizes cs.*2, sizes cs.*2)] data data' /\
    ptrs_at data' pAddr (packed cbrk cs.*2).*1 /\ contents_at data' (packed cbrk cs.*2).
Proof.
  intros Hb Hu Hu2 Hw Hc Hin. induction cs as [|[pc c] cs IH]; intros data pAddr cbrk Hd Hp H0 H1 H2 H3.
  - exists data. cbn [length pack_cells fmap list_fmap packed]. change (sizes []) with 0. rewrite Z.sub_0_r. split_and!; try done. constructor.
  - apply Forall_cons in Hw as [Hw Hws]. apply Forall_cons in Hc as [Hc Hcs]. apply Forall_cons in Hin as [Hi Hin]. cbn [fst snd] in *.
    cbn [fmap list_fmap fst snd] in *. destruct Hp as [Ep Hp]. rewrite zlen_cons in *. change (sizes (c :: cs.*2)) with (zlen c + sizes cs.*2) in *.
    pose proof (sizes_nonneg cs.*2). pose proof (zlen_nonneg cs). pose proof (proj1 Hw).
    cbn [length pack_cells]. cbv zeta. rewrite Ep, (cell_size_at _ _ src pc c Hw Hb ltac:(lia) Hc), Hc.
    rewrite !(proj2 (Z.ltb_ge _ _)) by lia. cbn [orb].
    set (d1 := put2byte data pAddr (cbrk - zlen c)). set (d2 := splice d1 (cbrk - zlen c) c).
    assert (L1 : zlen d1 = zlen data) by apply zlen_put2.
    assert (S1 : same_outside [(cbrk - zlen c, zlen c)] d1 d2) by (apply same_splice; lia).
    pose proof (same_trans _ _ _ _ _ (same_put2 data pAddr (cbrk - zlen c)) S1) as S2. fold d1 in S2.
    destruct (IH Hws Hcs Hin d2 (pAddr + 2) (cbrk - zlen c)) as (d' & E & G1 & G2 & G3 & G4); [..|].
    + apply bytes_spliced; [by apply bytes_put2|apply Hw].
    + eapply ptrs_frame; [exact S2| |exact Hp]. replace (zlen cs.*1) with (zlen cs) by (unfold zlen; by rewrite length_fmap). each; solve_apart.
    + lia.
    + lia.
    + lia.
    + rewrite (proj1 S2). lia.
    + exists d'. rewrite E. split; [f_equal; lia|]. split; [done|]. split; [|split].
      * eapply same_weaken; [exact (same_trans _ _ _ _ _ S2 G2)|]. intros j Hj. rewrite !Forall_cons in Hj. cbn [fst snd] in Hj. each; lia.
      * cbn [packed fmap list_fmap fst]. split; [|done]. rewrite (same_get2 _ _ _ pAddr (same_trans _ _ _ _ _ S1 G2)) by (each; solve_apart).
        unfold d1. rewrite get2_put2 by lia. apply Z.mod_small. lia.
      * cbn [packed]. apply List.Forall_cons; [|done]. cbn [fst snd].
        rewrite (same_slice _ _ _ (cbrk - zlen c) (zlen c) G2) by (try (each; solve_apart); try lia; rewrite (proj1 S2); lia).
        apply zlist_ext; [apply zlen_slice; rewrite ?(proj1 S2); lia|]. rewrite zlen_slice by (rewrite ?(proj1 S2); lia). intros j Hj.
        rewrite zget_slice by lia. unfold d2. rewrite zget_splice_in by lia. f_equal. lia.
Qed.

(** A page that holds the cells [cs]: their places and contents. *)
Record page_cells (p : MemPage) (cs : list cell) (frees : list region) (top : Z) : Prop := {
  pc_space : space (usable p) (hdrOffset p) (cellOffset p + 2 * zlen cs) (aData p) (regions cs) frees top;
  pc_ptrs : ptrs_at (aData p) (cellOffset p) cs.*1;
  pc_contents : contents_at (aData p) cs;
  pc_wf : Forall (fun c => wf_cell (pBt p) (ptype p) c.2) cs;
  pc_nCell : nCell p = zlen cs;
  pc_offset : cellOffset p = hdrOffset p + 8 + childPtrSize (ptype p) /\ 0 <= childPtrSize (ptype p);
  pc_nFree : nFree p = usable p - (cellOffset p + 2 * zlen cs) - sizes cs.*2 }.

Lemma space_total u hdr lo d regs frees top : space u hdr lo d regs frees top -> total frees + d.[hdr + 7] + (top - lo) = u - lo - total regs.
Proof. intros []. lia. Qed.

(** The space after a defragmentation. *)
Lemma defragment_out_ok p data cs cbrk : let u := usable p in let hdr := hdrOffset p in let lo := cellOffset p + 2 * zlen cs in
  bytes_ok data -> 480 <= u <= 65536 /\ u <= zlen data -> 0 <= hdr /\ hdr + 8 <= cellOffset p -> nCell p = zlen cs ->
  disjoint_regions (regions cs) -> Forall (inside cbrk u) (regions cs) -> Forall (fun c => 4 <= zlen c.2) cs ->
  lo <= cbrk <= u -> 0 <= data.[hdr + 7] <= 60 -> nFree p = u - lo - sizes cs.*2 -> sizes cs.*2 + data.[hdr + 7] = u - cbrk ->
  ptrs_at data (cellOffset p) cs.*1 -> contents_at data cs ->
  exists d', defragment_out p data cbrk = (SQLITE_OK, set_aData p d') /\ space u hdr lo d' (regions cs) [] cbrk /\
    ptrs_at d' (cellOffset p) cs.*1 /\ contents_at d' cs /\ same_header hdr (cellOffset p) u data d' /\ d'.[hdr + 7] = data.[hdr + 7].
Proof.
  cbv zeta. intros Hb Hu Hh Hn Hd Hin Hz Hlo Hf HnF Hsum Hp Hc. unfold defragment_out. rewrite Hn.
  set (u := usable p) in *. set (hdr := hdrOffset p) in *. set (co := cellOffset p) in *. pose proof (zlen_nonneg cs). cbv zeta.
  replace (_ =? nFree p) with true by (symmetry; apply Z.eqb_eq; lia). cbn [negb].
  set (d1 := put2byte data (hdr + 5) cbrk). set (d2 := d1.[hdr + 1 <- 0]). set (d3 := d2.[hdr + 2 <- 0]). set (d' := memzero d3 (co + 2 * zlen cs) (cbrk - (co + 2 * zlen cs))).
  assert (S1 : same_outside [(hdr + 5, 2)] data d1) by apply same_put2.
  assert (S3 : same_outside [(hdr + 5, 2); (hdr + 1, 1); (hdr + 2, 1)] data d3) by (exact (same_trans _ _ _ _ _ (same_trans _ _ _ _ _ S1 (same_zput d1 (hdr + 1) 0)) (same_zput d2 (hdr + 2) 0))).
  assert (L3 : zlen d3 = zlen data) by apply S3.
  assert (S4 : same_outside [(co + 2 * zlen cs, cbrk - (co + 2 * zlen cs))] d3 d').
  { pose proof (same_splice d3 (co + 2 * zlen cs) (replicate (Z.to_nat (cbrk - (co + 2 * zlen cs))) 0)) as G. rewrite zlen_zeroed in G by lia. apply G; lia. }
  pose proof (same_trans _ _ _ _ _ S3 S4) as S5. cbn [app] in S5.
  assert (H7 : d'.[hdr + 7] = data.[hdr + 7]) by (apply (same_byte _ _ _ _ S5); each; solve_apart).
  assert (Hcb : Forall (fun c => cbrk <= c.1 /\ c.1 + zlen c.2 <= u) cs).
  { apply Forall_forall. intros c Hin'. rewrite Forall_forall in Hin. apply (Hin (cell_region c)). by apply list_elem_of_fmap_2. }
  exists d'. split; [done|]. split; [|split_and!].
  - split; try done; try lia.
    + apply bytes_spliced; [|apply bytes_zeroed]. apply bytes_zput; [apply bytes_zput; [by apply bytes_put2|]|]; unfold is_u8; lia.
    + by rewrite (proj1 S5).
    + cbn [free_chain]. rewrite (same_get2 _ _ _ (hdr + 1) S4) by (each; solve_apart). unfold get2byte.
      assert (L1 : zlen d1 = zlen data) by apply S1. assert (L2 : zlen d2 = zlen data) by (unfold d2; by rewrite zlen_zput).
      unfold d3. rewrite (zget_zput_ne d2), (zget_zput_eq d2 (hdr + 2)) || idtac.
      replace (hdr + 1 + 1) with (hdr + 2) by lia. rewrite zget_zput_ne, zget_zput_eq by lia. unfold d2. rewrite zget_zput_eq by lia. done.
    + by rewrite app_nil_r.
    + by rewrite app_nil_r.
    + rewrite app_nil_r. apply Forall_fmap. exact Hz.
    + rewrite (same_get2 _ _ _ _ (same_trans _ _ _ _ _ (same_trans _ _ _ _ _ (same_zput d1 (hdr + 1) 0) (same_zput d2 (hdr + 2) 0)) S4)) by (each; solve_apart).
      unfold d1. rewrite get2_put2 by lia. done.
    + rewrite total_regions. change (total []) with 0. lia.
  - eapply ptrs_frame; [exact S5| |done]. unfold zlen in *. rewrite length_fmap. each; solve_apart.
  - eapply cells_frame; [exact S5| | |done]; (eapply Forall_impl; [exact Hcb|]); intros c Hc'; cbn beta in Hc'; [lia|]. unfold cell_region. each; solve_apart.
  - eapply same_weaken; [exact S5|]. intros j Hj. rewrite !Forall_cons in Hj. cbn [fst snd] in Hj. each; lia.
  - done.
Qed.

Lemma space_data_bounds u hdr lo d regs frees top : space u hdr lo d regs frees top ->
  bytes_ok d /\ (480 <= u <= 65536 /\ u <= zlen d) /\ 0 <= hdr /\ hdr + 8 <= lo <= top /\ top <= u /\ 0 <= d.[hdr + 7] <= 60 /\ total regs <= u - top /\ 0 <= total frees.
Proof.
  intros [Db Du Dh Dc Ds Dd Di Dz Dt Dl Df Dm]. assert (0 <= total frees).
  { apply Forall_app in Dz as [_ Hz]. clear - Hz. induction Hz as [|r l Hr _ IH]; [done|]. rewrite total_cons. lia. }
  split_and!; try done; lia.
Qed.

Lemma defragment_slow_ok p cs frees top : page_cells p cs frees top -> bytes_ok tempSpace -> usable p <= zlen tempSpace ->
  exists d' top', defragment_slow tempSpace p = (SQLITE_OK, set_aData p d') /\ page_cells (set_aData p d') (packed (usable p) cs.*2) [] top' /\
    same_header (hdrOffset p) (cellOffset p) (usable p) (aData p) d' /\ d'.[hdrOffset p + 7] = 0.
Proof.
  intros [Hs Hp Hc Hw Hn Ho HnF] Ht Hl. destruct (space_data_bounds _ _ _ _ _ _ _ Hs) as (Db & Du & Dh & Dl & Dt & Df & Dr & _).
  unfold defragment_slow. cbv zeta. set (u := usable p) in *. set (hdr := hdrOffset p) in *. set (co := cellOffset p) in *. set (d := aData p) in *.
  rewrite total_regions in Dr. pose proof (sizes_nonneg cs.*2). pose proof (zlen_nonneg cs).
  assert (Hcb : Forall (fun c => top <= c.1 /\ c.1 + zlen c.2 <= u) cs).
  { apply Forall_forall. intros c Hin. destruct (space_regs_in _ _ _ _ _ _ _ (cell_region c) Hs ltac:(by apply list_elem_of_fmap_2)) as (G1 & _ & G2). done. }
  assert (Hpk : Forall (fun c => 4 <= zlen c.2) (packed u cs.*2)).
  { apply (packed_all (fun c => 4 <= zlen c)), Forall_fmap. eapply Forall_impl; [exact Hw|]. intros c Hc'. apply Hc'. }
  assert (Hlen : zlen (packed u cs.*2) = zlen cs) by (rewrite packed_zlen; unfold zlen; by rewrite length_fmap).
  set (src := splice tempSpace 0 (take (Z.to_nat u) d)).
  assert (Ltk : zlen (take (Z.to_nat u) d) = u) by (apply zlen_take; unfold zlen in *; lia).
  assert (Hsrc : forall i n, 0 <= i -> 0 <= n -> i + n <= u -> slice src i n = slice d i n).
  { intros i n Hi Hn' Hin. apply zlist_ext; [rewrite !zlen_slice; unfold src; rewrite ?zlen_splice; lia|].
    rewrite zlen_slice by (unfold src; rewrite ?zlen_splice; lia). intros j Hj. rewrite !zget_slice by lia. unfold src. rewrite zget_splice_in, zget_taken by lia. f_equal. lia. }
  assert (Hpack : exists data', (if 0 <? nCell p then pack_cells (Z.to_nat (nCell p)) p src d co (get2byte d (hdr + 5)) u else (SQLITE_OK, d, u))
      = (SQLITE_OK, data', u - sizes cs.*2) /\ bytes_ok data' /\ same_outside [(co, 2 * zlen cs); (u - sizes cs.*2, sizes cs.*2)] d data' /\
      ptrs_at data' co (packed u cs.*2).*1 /\ contents_at data' (packed u cs.*2)).
  { destruct cs as [|c0 cs].
    - rewrite Hn. cbn. exists d. rewrite Z.sub_0_r. split_and!; first [done|constructor].
    - rewrite Hn, (proj2 (Z.ltb_lt _ _)) by (rewrite zlen_cons; pose proof (zlen_nonneg cs); lia).
      replace (Z.to_nat (zlen (c0 :: cs))) with (length (c0 :: cs)) by (unfold zlen; lia).
      assert (top < 65536) by (apply Forall_cons in Hcb as [? _]; apply Forall_cons in Hw as [Hw0 _]; pose proof (proj1 Hw0); lia).
      rewrite (sp_top _ _ _ _ _ _ _ Hs), Z.mod_small by lia.
      apply pack_cells_ok; try done; fold u; try lia.
      + apply bytes_spliced; [done|by apply Forall_take].
      + unfold src. rewrite zlen_splice; lia.
      + unfold contents_at in *. rewrite Forall_forall in *. intros c Hin. specialize (Hcb c Hin). rewrite Hsrc; [by apply Hc|lia|apply zlen_nonneg|lia].
      + eapply Forall_impl; [exact Hcb|]. intros c Hc'. cbn beta in Hc'. lia. }
  destruct Hpack as (data' & -> & Hb' & Hs' & Hp' & Hc'). cbn [truthy negb]. change (negb (SQLITE_OK =? 0)) with false. cbv iota.
  set (d7 := data'.[hdr + 7 <- 0]).
  assert (S7 : same_outside [(hdr + 7, 1)] data' d7) by apply same_zput.
  assert (E7 : d7.[hdr + 7] = 0) by (apply zget_zput_eq; rewrite (proj1 Hs'); lia).
  destruct (defragment_out_ok p d7 (packed u cs.*2) (u - sizes cs.*2)) as (d' & E & G1 & G2 & G3 & G4 & G5); fold u hdr co; rewrite ?Hlen, ?packed_contents, ?E7; try done; try lia.
  - apply bytes_zput; [done|unfold is_u8; lia].
  - rewrite (proj1 S7), (proj1 Hs'). done.
  - apply packed_disjoint.
  - apply packed_inside.
  - eapply ptrs_frame; [exact S7| |done]. unfold zlen. rewrite length_fmap. change (Z.of_nat (length ?l)) with (zlen l). rewrite Hlen. each. solve_apart.
  - eapply cells_frame; [exact S7| | |exact Hc'].
    + apply Forall_forall. intros c Hin. pose proof (packed_inside u cs.*2) as G. rewrite Forall_forall in G. specialize (G (cell_region c) ltac:(by apply list_elem_of_fmap_2)).
      rewrite (proj1 Hs'). unfold inside, cell_region in G. cbn [fst snd] in G. lia.
    + apply Forall_forall. intros c Hin. pose proof (packed_inside u cs.*2) as G. rewrite Forall_forall in G. specialize (G (cell_region c) ltac:(by apply list_elem_of_fmap_2)).
      unfold inside, cell_region in *. cbn [fst snd] in G. each. solve_apart.
  - fold u hdr co in E. rewrite Hlen in *. exists d', (u - sizes cs.*2). split; [done|]. split; [|split].
    + split; cbn [usable hdrOffset cellOffset aData set_aData pBt ptype nCell nFree]; fold hdr co; rewrite ?Hlen, ?packed_contents; try done.
      apply packed_all. by apply Forall_fmap.
    + eapply same_weaken; [exact (same_trans _ _ _ _ _ (same_trans _ _ _ _ _ Hs' S7) G4)|]. intros j Hj. rewrite !Forall_cons in Hj. cbn [fst snd app] in *. each; lia.
    + exact (eq_trans G5 E7).
Qed.

(** *** Moving the cells before the free blocks *)

Lemma memmove_same d x y n : 0 <= x -> x + n <= zlen d -> 0 <= y -> y + n <= zlen d -> 0 <= n -> same_outside [(x, n)] d (memmove d x y n).
Proof. intros. pose proof (same_splice d x (slice d y n)) as G. rewrite zlen_slice in G by lia. apply G; lia. Qed.
Lemma slice_spliced (d s : list Z) i : 0 <= i -> i + zlen s <= zlen d -> slice (splice d i s) i (zlen s) = s.
Proof.
  intros. pose proof (zlen_nonneg s). apply zlist_ext; rewrite zlen_slice by (rewrite ?zlen_splice; lia); [done|]. intros j Hj.
  rewrite zget_slice, zget_splice_in by lia. f_equal. lia.
Qed.
Lemma memmove_slice d x y n k m : 0 <= x -> x + n <= zlen d -> 0 <= y -> y + n <= zlen d -> 0 <= k -> 0 <= m -> k + m <= n ->
  slice (memmove d x y n) (x + k) m = slice d (y + k) m.
Proof.
  intros. assert (L : zlen (slice d y n) = n) by (apply zlen_slice; lia).
  apply zlist_ext; [unfold memmove; rewrite !zlen_slice by (rewrite ?zlen_splice; lia); done|].
  rewrite zlen_slice by (unfold memmove; rewrite ?zlen_splice; lia). intros j Hj. unfold memmove. rewrite !zget_slice, zget_splice_in by lia.
  rewrite zget_slice by lia. f_equal. lia.
Qed.
Lemma bytes_memmove d x y n : bytes_ok d -> bytes_ok (memmove d x y n).
Proof. intros. by apply bytes_spliced, bytes_slice. Qed.

Definition shifted (iFree iFree2 sz sz2 pc : Z) : Z := if pc <? iFree then pc + sz else if pc <? iFree2 then pc + sz2 else pc.

Lemma shift_pointers_ok iFree iFree2 sz sz2 l : 0 <= sz -> 0 <= sz2 -> Forall (fun pc => 0 <= pc /\ shifted iFree iFree2 sz sz2 pc < 65536) l -> forall d ptr,
  bytes_ok d -> 0 <= ptr -> ptr + 2 * zlen l <= zlen d -> ptrs_at d ptr l ->
  let d' := shift_pointers (length l) d ptr iFree iFree2 sz sz2 in
  bytes_ok d' /\ same_outside [(ptr, 2 * zlen l)] d d' /\ ptrs_at d' ptr (shifted iFree iFree2 sz sz2 <$> l).
Proof.
  intros Hz Hz2. induction l as [|pc l IH]; intros Hl d ptr Hb H0 Hlen Hp; [done|]. apply Forall_cons in Hl as [[Hpc Hsh] Hl]. destruct Hp as [E Hp].
  rewrite zlen_cons in *. pose proof (zlen_nonneg l). cbn [length shift_pointers]. cbv zeta. rewrite E.
  set (d1 := if pc <? iFree then _ else _).
  assert (G : bytes_ok d1 /\ same_outside [(ptr, 2)] d d1 /\ get2byte d1 ptr = shifted iFree iFree2 sz sz2 pc).
  { unfold d1, shifted in *. destruct (pc <? iFree); [|destruct (pc <? iFree2)].
    - split_and!; [by apply bytes_put2|apply same_put2|rewrite get2_put2 by lia; apply Z.mod_small; lia].
    - split_and!; [by apply bytes_put2|apply same_put2|rewrite get2_put2 by lia; apply Z.mod_small; lia].
    - split_and!; try done. }
  destruct G as (G1 & G2 & G3). clearbody d1.
  destruct (IH Hl d1 (ptr + 2) G1) as (I1 & I2 & I3); [lia|rewrite (proj1 G2); lia| |].
  { eapply ptrs_frame; [exact G2| |done]. each. solve_apart. }
  split; [done|]. split.
  - eapply same_weaken; [exact (same_trans _ _ _ _ _ G2 I2)|]. intros j Hj. rewrite !Forall_cons in Hj. cbn [fst snd] in Hj. each; lia.
  - cbn [fmap list_fmap]. split; [|exact I3]. rewrite <- G3. apply (same_get2 _ _ _ _ I2). each. solve_apart.
Qed.

(** Disjoint regions that are moved without meeting. *)
Lemma disjoint_moved {A} (r r' : A -> region) l : (forall x y, x ∈ l -> y ∈ l -> apart (r x) (r y) -> apart (r' x) (r' y)) ->
  disjoint_regions (r <$> l) -> disjoint_regions (r' <$> l).
Proof.
  induction l as [|x l IH]; [done|]. intros H [H1 H2]. split.
  - apply Forall_forall. intros z (y & -> & Hy)%list_elem_of_fmap. rewrite Forall_forall in H1. apply H; [left|by right|]. apply H1. by apply list_elem_of_fmap_2.
  - apply IH; [|done]. intros. apply H; auto; by right.
Qed.

Lemma fast_moved_ok p cs frees top a s b t d1 iFree2 sz2 : page_cells p cs frees top -> top < a -> 4 <= s -> a + s <= b -> 0 <= t -> b + t <= usable p -> total frees = s + t ->
  Forall (fun c => c.1 + zlen c.2 <= a \/ (a + s <= c.1 /\ c.1 + zlen c.2 <= b) \/ b + t <= c.1) cs ->
  bytes_ok d1 -> same_outside [(a + s + t, b - (a + s))] (aData p) d1 ->
  (forall k m, 0 <= k -> 0 <= m -> k + m <= b - (a + s) -> slice d1 (a + s + t + k) m = slice (aData p) (a + s + k) m) ->
  0 <= sz2 -> (forall pc, pc < usable p -> shifted a iFree2 (s + t) sz2 pc = shifted a b (s + t) t pc) ->
  exists d', defragment_out p (shift_pointers (Z.to_nat (nCell p)) (memmove d1 (top + (s + t)) top (a - top)) (cellOffset p) a iFree2 (s + t) sz2) (top + (s + t)) = (SQLITE_OK, set_aData p d') /\
    page_cells (set_aData p d') ((fun c => (shifted a b (s + t) t c.1, c.2)) <$> cs) [] (top + (s + t)) /\
    same_header (hdrOffset p) (cellOffset p) (usable p) (aData p) d' /\ d'.[hdrOffset p + 7] = (aData p).[hdrOffset p + 7].
Proof.
  intros [Hs Hp Hc Hw Hn Ho HnF] Ha Hs4 Hab Ht Hbt Hft Hpl Hb1 Hs1 Hm1 Hz2 Hsh. destruct (space_data_bounds _ _ _ _ _ _ _ Hs) as (Db & Du & Dh & Dl & Dt & Df & Dr & _).
  pose proof (sp_sum _ _ _ _ _ _ _ Hs) as Hsum. rewrite total_regions, Hft in Hsum.
  set (u := usable p) in *. set (hdr := hdrOffset p) in *. set (co := cellOffset p) in *. set (d := aData p) in *.
  pose proof (zlen_nonneg cs). set (f := shifted a b (s + t) t) in *. set (cs' := (fun c => (f c.1, c.2)) <$> cs).
  assert (Hcb : Forall (fun c => top <= c.1 /\ 4 <= zlen c.2 /\ c.1 + zlen c.2 <= u) cs).
  { apply Forall_forall. intros c Hin. exact (space_regs_in _ _ _ _ _ _ _ (cell_region c) Hs ltac:(by apply list_elem_of_fmap_2)). }
  assert (Hf : Forall (fun c => (c.1 + zlen c.2 <= a /\ f c.1 = c.1 + (s + t)) \/ ((a + s <= c.1 /\ c.1 + zlen c.2 <= b) /\ f c.1 = c.1 + t) \/ (b + t <= c.1 /\ f c.1 = c.1)) cs).
  { apply Forall_forall. intros c Hin. rewrite Forall_forall in Hpl, Hcb. specialize (Hpl c Hin). specialize (Hcb c Hin). unfold f, shifted.
    destruct (Z.ltb_spec c.1 a); [left; lia|right]. destruct (Z.ltb_spec c.1 b); [left; lia|right; lia]. }
  assert (Hcs' : cs'.*1 = f <$> cs.*1) by (unfold cs'; rewrite <- !list_fmap_compose; done).
  assert (Hcs2 : cs'.*2 = cs.*2) by (unfold cs'; rewrite <- !list_fmap_compose; done).
  assert (Hl1 : zlen cs.*1 = zlen cs) by (unfold zlen; by rewrite length_fmap). assert (Hl' : zlen cs' = zlen cs) by (unfold zlen, cs'; by rewrite length_fmap).
  set (d2 := memmove d1 (top + (s + t)) top (a - top)).
  assert (S2 : same_outside [(top + (s + t), a - top)] d1 d2) by (apply memmove_same; rewrite ?(proj1 Hs1); lia).
  pose proof (same_trans _ _ _ _ _ Hs1 S2) as S12. cbn [app] in S12.
  assert (Ec : Forall (fun c => slice d2 (f c.1) (zlen c.2) = c.2) cs).
  { apply Forall_forall. intros c Hin. unfold contents_at in Hc. rewrite Forall_forall in Hf, Hc, Hcb. specialize (Hf c Hin). specialize (Hcb c Hin). rewrite <- (Hc c Hin) at 2.
    assert (L1 : zlen d1 = zlen d) by apply Hs1.
    destruct Hf as [[H1 ->]|[[H1 ->]|[H1 ->]]].
    - replace (c.1 + (s + t)) with (top + (s + t) + (c.1 - top)) by lia. unfold d2. rewrite memmove_slice by lia.
      replace (top + (c.1 - top)) with c.1 by lia. apply (same_slice _ _ _ _ _ Hs1); [lia..|each; solve_apart].
    - rewrite (same_slice _ _ _ _ _ S2) by (try lia; each; solve_apart). replace (c.1 + t) with (a + s + t + (c.1 - (a + s))) by lia. rewrite Hm1 by lia. f_equal. lia.
    - apply (same_slice _ _ _ _ _ S12); [lia..|each; solve_apart]. }
  destruct (shift_pointers_ok a iFree2 (s + t) sz2 cs.*1 ltac:(lia) ltac:(lia)) with (d := d2) (ptr := co) as (I1 & I2 & I3); rewrite ?Hl1; try lia.
  - apply Forall_fmap. apply Forall_forall. intros c Hin. rewrite Forall_forall in Hf, Hcb. specialize (Hf c Hin). specialize (Hcb c Hin). cbn [compose]. rewrite Hsh by lia. fold f. lia.
  - by apply bytes_memmove.
  - rewrite (proj1 S12). lia.
  - eapply ptrs_frame; [exact S12| |done]. rewrite Hl1. each; solve_apart.
  - replace (Z.to_nat (nCell p)) with (length cs.*1) by (rewrite length_fmap, Hn; unfold zlen; lia).
    set (d3 := shift_pointers _ _ _ _ _ _ _) in *. rewrite Hl1 in I2. pose proof (same_trans _ _ _ _ _ S12 I2) as S123. cbn [app] in S123.
    assert (I3' : ptrs_at d3 co cs'.*1).
    { rewrite Hcs'. replace (f <$> cs.*1) with (shifted a iFree2 (s + t) sz2 <$> cs.*1); [done|]. apply list_fmap_ext. intros i pc Hi. apply Hsh.
      apply list_lookup_fmap_Some in Hi as (c & -> & Hi%list_elem_of_lookup_2). rewrite Forall_forall in Hcb. specialize (Hcb c Hi). lia. }
    assert (E7 : d3.[hdr + 7] = d.[hdr + 7]) by (apply (same_byte _ _ _ _ S123); each; solve_apart).
    destruct (defragment_out_ok p d3 cs' (top + (s + t))) as (d' & E & G1 & G2 & G3 & G4 & G5); fold u hdr co; rewrite ?Hl', ?Hcs2, ?E7; try done; try lia.
    + by rewrite (proj1 S123).
    + pose proof (sp_disjoint _ _ _ _ _ _ _ Hs) as Hd. apply disjoint_app in Hd as (Hd & _). unfold cs', regions. rewrite <- list_fmap_compose.
      apply (disjoint_moved cell_region); [|exact Hd]. intros x y Hx Hy. rewrite Forall_forall in Hf, Hcb. pose proof (Hf x Hx). pose proof (Hf y Hy). pose proof (Hcb x Hx). pose proof (Hcb y Hy).
      unfold apart, cell_region. cbn [compose fst snd]. lia.
    + unfold regions, cs'. rewrite <- list_fmap_compose. apply Forall_fmap, Forall_forall. intros c Hin. rewrite Forall_forall in Hf, Hcb. specialize (Hf c Hin). specialize (Hcb c Hin).
      unfold inside, cell_region. cbn [compose fst snd]. lia.
    + apply Forall_fmap. eapply Forall_impl; [exact Hw|]. intros c Hc'. apply Hc'.
    + unfold contents_at, cs'. apply Forall_fmap, Forall_forall. intros c Hin. rewrite Forall_forall in Ec, Hf, Hcb. cbn [compose fst snd]. rewrite <- (Ec c Hin) at 2.
      specialize (Hf c Hin). specialize (Hcb c Hin). apply (same_slice _ _ _ _ _ I2); rewrite ?(proj1 S12); [lia..|each; solve_apart].
    + fold u hdr co in E. exists d'. split; [done|]. split; [|split].
      * split; cbn [usable hdrOffset cellOffset aData set_aData pBt ptype nCell nFree]; fold hdr co; rewrite ?Hl', ?Hcs2; try done.
        { fold cs'. by rewrite Hl' in G1. }
        apply Forall_fmap. exact Hw.
      * eapply same_weaken; [exact (same_trans _ _ _ _ _ S123 G4)|]. intros j Hj. rewrite !Forall_cons in Hj. cbn [fst snd app] in *. each; lia.
      * exact (eq_trans G5 E7).
Qed.

Lemma set_aData_same p : set_aData p (aData p) = p.
Proof. by destruct p. Qed.

Lemma defragmentPage_ok p cs frees top nMaxFrag : page_cells p cs frees top -> bytes_ok tempSpace -> usable p <= zlen tempSpace -> 0 <= nMaxFrag ->
  exists d' cs' top', defragmentPage tempSpace p nMaxFrag = (SQLITE_OK, set_aData p d') /\ page_cells (set_aData p d') cs' [] top' /\ cs'.*2 = cs.*2 /\
    same_header (hdrOffset p) (cellOffset p) (usable p) (aData p) d' /\ d'.[hdrOffset p + 7] <= nMaxFrag.
Proof.
  intros Hpc Ht Hl HM.
  assert (Hslow : exists d' cs' top', defragment_slow tempSpace p = (SQLITE_OK, set_aData p d') /\ page_cells (set_aData p d') cs' [] top' /\ cs'.*2 = cs.*2 /\
    same_header (hdrOffset p) (cellOffset p) (usable p) (aData p) d' /\ d'.[hdrOffset p + 7] <= nMaxFrag).
  { destruct (defragment_slow_ok p cs frees top Hpc Ht Hl) as (d' & top' & E & G1 & G2 & G3). exists d', (packed (usable p) cs.*2), top'.
    rewrite packed_contents. split_and!; try done. lia. }
  unfold defragmentPage. cbv zeta. destruct (Z.leb_spec (aData p).[hdrOffset p + 7] nMaxFrag) as [Hfr|]; [|done].
  pose proof Hpc as [Hs _ _ _ _ _ _]. pose proof (sp_chain _ _ _ _ _ _ _ Hs) as Dc. pose proof (sp_sorted _ _ _ _ _ _ _ Hs) as Ds.
  destruct (space_data_bounds _ _ _ _ _ _ _ Hs) as (Db & Du & Dh & Dl & Dt & Df & Dr & _).
  pose proof (sp_top _ _ _ _ _ _ _ Hs) as Etop.
  assert (Hcb : Forall (fun c => c.1 + zlen c.2 <= usable p) cs).
  { apply Forall_forall. intros c Hc. apply (space_regs_in _ _ _ _ _ _ _ (cell_region c) Hs). by apply list_elem_of_fmap_2. }
  assert (Hap : forall r, r ∈ frees -> Forall (fun c => c.1 + zlen c.2 <= r.1 \/ r.1 + r.2 <= c.1) cs).
  { intros r Hr. apply Forall_forall. intros c Hc. exact (space_apart _ _ _ _ _ _ _ (cell_region c) r Hs ltac:(by apply list_elem_of_fmap_2) Hr). }
  destruct frees as [|[a s] frees]; cbn [free_chain] in Dc.
  { rewrite Dc. rewrite (proj2 (Z.ltb_ge _ _)) by lia. exact Hslow. }
  destruct Dc as (E1 & E2 & Dc). destruct Ds as (S1 & S2 & Ds). pose proof (space_frees_in _ _ _ _ _ _ _ (a, s) Hs ltac:(left)) as (F1 & F2 & F3). cbn [fst snd] in *.
  rewrite E1, (proj2 (Z.ltb_ge _ _)) by lia. replace (truthy a) with true by (unfold truthy; rewrite (proj2 (Z.eqb_neq _ _)) by lia; done).
  assert (Etop' : get2byte (aData p) (hdrOffset p + 5) = top) by (rewrite Etop; apply Z.mod_small; lia).
  assert (Ha := Hap (a, s) ltac:(left)). cbn [fst snd] in Ha.
  destruct frees as [|[b t] frees]; cbn [free_chain] in Dc.
  - rewrite Dc. rewrite (proj2 (Z.ltb_ge _ _)) by lia. cbn [Z.eqb orb]. unfold defragment_fast. cbv zeta. rewrite E2, Etop', (proj2 (Z.leb_gt _ _)) by lia.
    change (truthy 0) with false. cbv iota. rewrite (proj2 (Z.ltb_ge _ _)) by lia.
    destruct (fast_moved_ok p cs _ top a s (usable p) 0 (aData p) 0 0 Hpc) as (d' & E & G1 & G2 & G3); try done; try lia.
    + rewrite Forall_forall in *. intros c Hc. specialize (Ha c Hc). specialize (Hcb c Hc). lia.
    + intros k m Hk Hm Hkm. f_equal. lia.
    + intros pc Hpc'. unfold shifted. destruct (pc <? a); [done|]. destruct (Z.ltb_spec pc 0), (Z.ltb_spec pc (usable p)); lia.
    + rewrite !Z.add_0_r in E. rewrite E. exists d', ((fun c => (shifted a (usable p) (s + 0) 0 c.1, c.2)) <$> cs), (top + (s + 0)).
      split_and!; try done; [|lia]. rewrite <- list_fmap_compose. done.
  - destruct Dc as (E3 & E4 & Dc). destruct Ds as (S3 & S4 & Ds). pose proof (space_frees_in _ _ _ _ _ _ _ (b, t) Hs ltac:(right; left)) as (F4 & F5 & F6). cbn [fst snd] in *.
    assert (Hb := Hap (b, t) ltac:(right; left)). cbn [fst snd] in Hb.
    rewrite E3, (proj2 (Z.ltb_ge _ _)) by lia. destruct ((b =? 0) || _) eqn:Eb; [|exact Hslow].
    destruct frees as [|[b' t'] frees]; cbn [free_chain] in Dc.
    2: { exfalso. destruct (get2_value (aData p) b Db) as [Ev _]. destruct Dc as [Dc _]. destruct Ds as [Ds _]. apply orb_true_iff in Eb as [Eb%Z.eqb_eq|Eb]; [lia|].
         apply andb_true_iff in Eb as [Eb1%Z.eqb_eq Eb2%Z.eqb_eq]. lia. }
    unfold defragment_fast. cbv zeta. rewrite E2, Etop', E4, (proj2 (Z.leb_gt _ _)) by lia.
    replace (truthy b) with true by (unfold truthy; rewrite (proj2 (Z.eqb_neq _ _)) by lia; done). cbv iota. rewrite !(proj2 (Z.ltb_ge _ _)) by lia.
    destruct (fast_moved_ok p cs _ top a s b t (memmove (aData p) (a + s + t) (a + s) (b - (a + s))) b t Hpc) as (d' & E & G1 & G2 & G3); try done; try lia.
    + rewrite !total_cons. change (total []) with 0. cbn [snd]. lia.
    + rewrite Forall_forall in *. intros c Hc. specialize (Ha c Hc). specialize (Hb c Hc). lia.
    + by apply bytes_memmove.
    + apply memmove_same; lia.
    + intros k m Hk Hm Hkm. apply memmove_slice; lia.
    + rewrite E. exists d', ((fun c => (shifted a b (s + t) t c.1, c.2)) <$> cs), (top + (s + t)).
      split_and!; try done; [|lia]. rewrite <- list_fmap_compose. done.
Qed.

(** *** Allocation *)

Lemma space_lo u hdr lo lo' d regs frees top : space u hdr lo d regs frees top -> hdr + 8 <= lo' <= top -> space u hdr lo' d regs frees top.
Proof. intros [] Hlo. split; try done; lia. Qed.

Lemma gap_space u hdr lo d regs frees top nByte : space u hdr lo d regs frees top -> 4 <= nByte -> lo + 2 + nByte <= top ->
  let d' := put2byte d (hdr + 5) (top - nByte) in
  space u hdr (lo + 2) d' ((top - nByte, nByte) :: regs) frees (top - nByte) /\ kept hdr lo u regs d d'.
Proof.
  intros Hs Hn Hlo d'. pose proof (same_put2 d (hdr + 5) (top - nByte)) as Hsame. fold d' in Hsame.
  pose proof Hs as [Db Du Dh Dc Ds Dd Di Dz Dt Dl Df Dm].
  assert (Hb : Forall (fun r => top <= r.1 /\ r.1 + r.2 <= u) (regs ++ frees)) by (eapply Forall_impl; [exact Di|]; intros r [? ?]; done).
  assert (H7 : d'.[hdr + 7] = d.[hdr + 7]) by (apply (same_byte _ _ _ _ Hsame); each; solve_apart).
  split.
  - split; try done; try lia.
    + by apply bytes_put2.
    + by rewrite (proj1 Hsame).
    + apply (chain_frame _ d d' (hdr + 1) frees Hsame); [each; solve_apart| |done]. apply Forall_app in Hb as [_ Hb].
      eapply Forall_impl; [exact Hb|]. intros r Hr. cbn beta in Hr. each. solve_apart.
    + eapply sorted_weaken; [|exact Ds]. lia.
    + cbn [app disjoint_regions]. split; [|done]. eapply Forall_impl; [exact Hb|]. intros r Hr. cbn beta in Hr. solve_apart.
    + cbn [app]. apply List.Forall_cons; [unfold inside; cbn [fst snd]; lia|]. eapply Forall_impl; [exact Hb|]. intros r Hr. cbn beta in Hr. unfold inside. lia.
    + cbn [app]. by apply List.Forall_cons.
    + unfold d'. apply get2_put2; lia.
    + rewrite total_cons. cbn [snd]. lia.
  - apply (kept_mods _ _ _ d regs regs frees top [(hdr + 5, 2)] [] d' Hs (fun _ H => H) Hsame); [|constructor]. each. right; left. solve_apart.
Qed.

(** What is kept holds the cells. *)
Lemma kept_ptrs hdr lo u regs d d' co l : kept hdr lo u regs d d' -> 0 <= hdr -> hdr + 8 <= co -> co + 2 * zlen l <= lo -> lo <= zlen d ->
  ptrs_at d co l -> ptrs_at d' co l.
Proof.
  intros Hk H0 Hco Hlo Hd. assert (G : forall l ptr, co <= ptr -> ptr + 2 * zlen l <= lo -> ptrs_at d ptr l -> ptrs_at d' ptr l).
  { clear l Hlo. induction l as [|pc l IH]; intros ptr G1 G2; [done|]. rewrite zlen_cons in G2. pose proof (zlen_nonneg l). intros [E G]. split; [|apply IH; [lia|lia|done]].
    rewrite <- E. apply (kept_get2 hdr lo u regs); [done| |lia]. split_and!; cbn [fst snd]; try lia. left. split_and!; [lia|solve_apart..]. }
  apply G; lia.
Qed.
Lemma kept_contents hdr lo u regs d d' cs : kept hdr lo u regs d d' -> (forall c, c ∈ cs -> cell_region c ∈ regs) ->
  Forall (fun c => 0 <= c.1 /\ c.1 + zlen c.2 <= zlen d) cs -> contents_at d cs -> contents_at d' cs.
Proof.
  intros [L Hk] Hr Hb Hc. unfold contents_at in *. rewrite Forall_forall in *. intros c Hin. rewrite <- (Hc c Hin) at 2. destruct (Hb c Hin).
  apply (Hk (cell_region c)); [|done]. split_and!; [done|apply zlen_nonneg|]. right; left. auto.
Qed.

Lemma page_cells_bounds p cs frees top : page_cells p cs frees top ->
  Forall (fun c => top <= c.1 /\ 4 <= zlen c.2 /\ c.1 + zlen c.2 <= usable p) cs /\
  bytes_ok (aData p) /\ (480 <= usable p <= 65536 /\ usable p <= zlen (aData p)) /\ 0 <= hdrOffset p /\ hdrOffset p + 8 <= cellOffset p /\ cellOffset p + 2 * zlen cs <= top /\ top <= usable p /\ 0 <= zlen cs.
Proof.
  intros [Hs Hp Hc Hw Hn Ho HnF]. destruct (space_data_bounds _ _ _ _ _ _ _ Hs) as (Db & Du & Dh & Dl & Dt & _). pose proof (zlen_nonneg cs). split_and!; try done; try lia.
  apply Forall_forall. intros c Hin. exact (space_regs_in _ _ _ _ _ _ _ (cell_region c) Hs ltac:(by apply list_elem_of_fmap_2)).
Qed.

(** The outcome of an allocation: a region beside the cells, that leaves room for a pointer. *)
Definition allocated (p : MemPage) (contents : list (list Z)) (nByte idx : Z) (d' : list Z) : Prop := exists cs' frees' top',
  cs'.*2 = contents /\ space (usable p) (hdrOffset p) (cellOffset p + 2 * zlen cs' + 2) d' ((idx, nByte) :: regions cs') frees' top' /\
  ptrs_at d' (cellOffset p) cs'.*1 /\ contents_at d' cs' /\ same_header (hdrOffset p) (cellOffset p) (usable p) (aData p) d'.

Lemma allocated_kept p cs frees top nByte idx d' frees' top' : page_cells p cs frees top -> kept (hdrOffset p) (cellOffset p + 2 * zlen cs) (usable p) (regions cs) (aData p) d' ->
  space (usable p) (hdrOffset p) (cellOffset p + 2 * zlen cs + 2) d' ((idx, nByte) :: regions cs) frees' top' -> allocated p cs.*2 nByte idx d'.
Proof.
  intros Hpc Hk Hs'. destruct (page_cells_bounds _ _ _ _ Hpc) as (Hcb & Db & Du & Dh & Do & Dl & Dt & Dn). destruct Hpc as [Hs Hp Hc Hw Hn Ho HnF].
  exists cs, frees', top'. split; [done|]. split; [done|]. split; [|split].
  - apply (kept_ptrs _ _ _ _ _ _ _ _ Hk); try done; try lia. unfold zlen in *. rewrite length_fmap. lia.
  - apply (kept_contents _ _ _ _ _ _ _ Hk); try done; [intros; by apply list_elem_of_fmap_2|]. eapply Forall_impl; [exact Hcb|]. intros c Hc'. cbn beta in Hc'. lia.
  - apply (header_weaken _ (cellOffset p + 2 * zlen cs)); [lia..|]. apply (kept_header _ _ _ (regions cs)); (done || lia).
Qed.

Lemma allocate_gap_ok p cs frees top nByte : page_cells p cs frees top -> bytes_ok tempSpace -> usable p <= zlen tempSpace -> 4 <= nByte -> nByte + 2 <= nFree p ->
  exists idx d', allocate_gap tempSpace p nByte (cellOffset p + 2 * nCell p) top = (SQLITE_OK, idx, set_aData p d') /\ allocated p cs.*2 nByte idx d'.
Proof.
  intros Hpc Ht Hl Hn HnF. destruct (page_cells_bounds _ _ _ _ Hpc) as (Hcb & Db & Du & Dh & Do & Dl & Dt & Dn).
  unfold allocate_gap. cbv zeta. rewrite (pc_nCell _ _ _ _ Hpc). destruct (Z.ltb_spec top (cellOffset p + 2 * zlen cs + 2 + nByte)) as [Hlt|Hge].
  - destruct (defragmentPage_ok p cs frees top (Z.min 4 (nFree p - (2 + nByte))) Hpc Ht Hl ltac:(lia)) as (d' & cs' & top' & -> & Hpc' & Ecs & Hsame & Hfr).
    cbn [truthy]. change (truthy SQLITE_OK) with false. cbv iota. cbn [aData set_aData].
    destruct (page_cells_bounds _ _ _ _ Hpc') as (Hcb' & Db' & Du' & Dh' & Do' & Dl' & Dt' & Dn'). cbn [usable hdrOffset cellOffset aData set_aData pBt] in *. fold (usable p) in *.
    assert (Elen : zlen cs' = zlen cs) by (unfold zlen; by rewrite <- (length_fmap snd cs'), Ecs, length_fmap).
    pose proof (pc_space _ _ _ _ Hpc') as Hs'. cbn [hdrOffset cellOffset aData set_aData] in Hs'. change (usable (set_aData p d')) with (usable p) in Hs'.
    assert (Etop : get2byteNotZero d' (hdrOffset p + 5) = top').
    { unfold get2byteNotZero. rewrite (sp_top _ _ _ _ _ _ _ Hs'). change 0xffff with (Z.ones 16). rewrite Z.land_ones by lia. Z.div_mod_to_equations. lia. }
    pose proof (space_total _ _ _ _ _ _ _ Hs') as Htot. rewrite total_regions, Ecs, Elen in Htot. change (total []) with 0 in Htot. pose proof (pc_nFree _ _ _ _ Hpc).
    rewrite Etop. destruct (gap_space _ _ _ _ _ _ _ nByte Hs' Hn ltac:(lia)) as [G1 G2].
    exists (top' - nByte), (put2byte d' (hdrOffset p + 5) (top' - nByte)). split; [done|]. rewrite <- Ecs.
    destruct (allocated_kept (set_aData p d') cs' [] top' nByte (top' - nByte) _ _ _ Hpc' G2 G1) as (cs'' & fr & tp & A1 & A2 & A3 & A4 & A5).
    exists cs'', fr, tp. split_and!; try done. eapply same_weaken; [exact (same_trans _ _ _ _ _ Hsame A5)|].
    intros j Hj. apply Forall_app. split; exact Hj.
  - change (truthy SQLITE_OK) with false. cbv iota. destruct (gap_space _ _ _ _ _ _ _ nByte (pc_space _ _ _ _ Hpc) Hn ltac:(lia)) as [G1 G2].
    eexists _, _. split; [done|]. by eapply allocated_kept.
Qed.

Lemma pageFindSlot_ok p cs frees top nByte : page_cells p cs frees top -> 4 <= nByte <= usable p -> get2byte (aData p) (hdrOffset p + 1) <> 0 ->
  exists r, slot (hdrOffset p) (aData p) nByte (hdrOffset p + 1) frees r /\ pageFindSlot p nByte = (r.1.1, r.1.2, set_aData p r.2).
Proof.
  intros Hpc Hn Hz. destruct (page_cells_bounds _ _ _ _ Hpc) as (_ & Db & Du & Dh & Do & Dl & Dt & Dn). pose proof (pc_space _ _ _ _ Hpc) as Hs.
  assert (Hf : Forall (fun r => r.1 + r.2 <= usable p) frees) by (apply Forall_forall; intros r Hr; apply (space_frees_in _ _ _ _ _ _ _ r Hs Hr)).
  pose proof (frees_few (usable p) top frees (sp_sorted _ _ _ _ _ _ _ Hs) ltac:(lia) Hf).
  pose proof (slot_loop_ok (usable p) (hdrOffset p) (aData p) nByte frees (S (Z.to_nat (usable p))) (hdrOffset p + 1) top (sp_chain _ _ _ _ _ _ _ Hs) (sp_sorted _ _ _ _ _ _ _ Hs) ltac:(lia) Hf ltac:(lia) Hn Hz) as G.
  unfold pageFindSlot. cbv zeta. destruct (slot_loop _ _ _ _ _ _ _) as [[r rc] d']. by exists (r, rc, d').
Qed.

(** Allocation succeeds whenever the free space suffices. *)
Lemma allocateSpace_ok p cs frees top nByte : page_cells p cs frees top -> bytes_ok tempSpace -> usable p <= zlen tempSpace -> 4 <= nByte -> nByte + 2 <= nFree p ->
  exists idx d', allocateSpace tempSpace p nByte = (SQLITE_OK, idx, set_aData p d') /\ allocated p cs.*2 nByte idx d'.
Proof.
  intros Hpc Ht Hl Hn HnF. destruct (page_cells_bounds _ _ _ _ Hpc) as (Hcb & Db & Du & Dh & Do & Dl & Dt & Dn). pose proof (pc_space _ _ _ _ Hpc) as Hs.
  pose proof (pc_nFree _ _ _ _ Hpc) as EnF. pose proof (sizes_nonneg cs.*2).
  unfold allocateSpace. cbv zeta. rewrite (sp_top _ _ _ _ _ _ _ Hs).
  assert (Etop : (if top mod 65536 <? cellOffset p + 2 * nCell p then if (top mod 65536 =? 0) && (usable p =? 65536) then Some 65536 else None
      else if usable p <? top mod 65536 then None else Some (top mod 65536)) = Some top).
  { rewrite (pc_nCell _ _ _ _ Hpc). destruct (decide (top = 65536)) as [->|].
    - change (65536 mod 65536) with 0. rewrite (proj2 (Z.ltb_lt _ _)), Z.eqb_refl, (proj2 (Z.eqb_eq (usable p) _)) by lia. done.
    - rewrite Z.mod_small, !(proj2 (Z.ltb_ge _ _)) by lia. done. }
  rewrite Etop. clear Etop. pose proof (allocate_gap_ok p cs frees top nByte Hpc Ht Hl Hn HnF) as Hgap.
  destruct (truthy _ || truthy _) eqn:Eb; [|exact Hgap]. cbn [andb]. destruct (Z.leb_spec (cellOffset p + 2 * nCell p + 2) top) as [Hlo|]; [|exact Hgap].
  assert (Hz : get2byte (aData p) (hdrOffset p + 1) <> 0).
  { destruct (get2_value (aData p) (hdrOffset p + 1) Db) as [Ev _]. pose proof (zget_byte (aData p) (hdrOffset p + 1) Db) as B0. pose proof (zget_byte (aData p) (hdrOffset p + 1 + 1) Db) as B1.
    unfold is_u8 in *. rewrite Ev. replace (hdrOffset p + 2) with (hdrOffset p + 1 + 1) in Eb by lia. unfold truthy in Eb.
    apply orb_true_iff in Eb as [Eb|Eb]; apply negb_true_iff, Z.eqb_neq in Eb; lia. }
  destruct (pageFindSlot_ok p cs frees top nByte Hpc ltac:(lia) Hz) as ([[o rc] d'] & Hslot & ->). cbn [fst snd].
  rewrite (pc_nCell _ _ _ _ Hpc) in *. destruct o as [g|].
  - destruct (slot_space (usable p) (hdrOffset p) _ _ nByte _ _ top g rc d' Hs Hn Hslot) as (frees' & G1 & G2 & G3). rewrite (proj2 (Z.leb_gt _ _)) by lia.
    exists g, d'. split; [done|]. eapply allocated_kept; [done|exact G2|]. eapply space_lo; [exact G1|lia].
  - assert (Hr : rc = SQLITE_OK /\ d' = aData p) by (inversion Hslot; done). destruct Hr as [-> ->]. rewrite set_aData_same. exact Hgap.
Qed.
End page_proofs.
