(* ===== verification/BtreeOps.v ===== *)
(** A b-tree page as a list of cells: [zeroPage] makes the empty list, the two insertion
    routines and [dropCell] are insertion into and deletion from it, and reading the page
    again from its bytes gives the same page.  [page_refines_list] puts them together for
    any sequence of operations. *)

From S2P Require Import Prelude Bits Varint Regions BtreeCell BtreePage BtreeSpace BtreeFit.

(** ** The array of pointers *)

Lemma ptrs_app d ptr l k : ptrs_at d ptr (l ++ k) <-> ptrs_at d ptr l /\ ptrs_at d (ptr + 2 * zlen l) k.
Proof.
  revert ptr. induction l as [|pc l IH]; intros ptr; cbn [app ptrs_at].
  - change (zlen []) with 0. rewrite Z.add_0_r. tauto.
  - rewrite IH. replace (ptr + 2 * zlen (pc :: l)) with (ptr + 2 + 2 * zlen l) by (rewrite zlen_cons; lia). tauto.
Qed.
Lemma ptrs_bytes d d' x y l : (forall j, 0 <= j < 2 * zlen l -> d'.[x + j] = d.[y + j]) -> ptrs_at d y l -> ptrs_at d' x l.
Proof.
  revert x y. induction l as [|pc l IH]; intros x y Hj; [done|]. rewrite zlen_cons in Hj. pose proof (zlen_nonneg l). intros [E Hl]. split.
  - rewrite <- E. unfold get2byte. pose proof (Hj 0 ltac:(lia)) as E0. rewrite !Z.add_0_r in E0. by rewrite E0, (Hj 1) by lia.
  - apply (IH _ (y + 2)); [|done]. intros j Hj'. rewrite <- !Z.add_assoc. apply Hj. lia.
Qed.
Lemma memmove_zget d x y n j : 0 <= x -> x + n <= zlen d -> 0 <= y -> y + n <= zlen d -> 0 <= j < n -> (memmove d x y n).[x + j] = d.[y + j].
Proof.
  intros. assert (L : zlen (slice d y n) = n) by (apply zlen_slice; lia). unfold memmove. rewrite zget_splice_in, zget_slice by lia. f_equal. lia.
Qed.

Lemma zlen_split {A} (l : list A) i : 0 <= i <= zlen l -> zlen (take (Z.to_nat i) l) = i /\ zlen (drop (Z.to_nat i) l) = zlen l - i.
Proof. intros. unfold zlen in *. rewrite length_take, length_drop. lia. Qed.

Lemma ptrs_insert d co l i idx : bytes_ok d -> 0 <= co -> 0 <= i <= zlen l -> co + 2 * zlen l + 2 <= zlen d -> 0 <= idx < 65536 -> ptrs_at d co l ->
  let d' := put2byte (memmove d (co + i * 2 + 2) (co + i * 2) (2 * (zlen l - i))) (co + i * 2) idx in
  ptrs_at d' co (take (Z.to_nat i) l ++ idx :: drop (Z.to_nat i) l) /\ same_outside [(co + i * 2, 2 * (zlen l - i) + 2)] d d' /\ bytes_ok d'.
Proof.
  intros Hb H0 Hi Hl Hx Hp d'. set (pIns := co + i * 2) in *. set (d2 := memmove d (pIns + 2) pIns (2 * (zlen l - i))) in *.
  destruct (zlen_split l i Hi) as [Lt Ld]. rewrite <- (take_drop (Z.to_nat i) l) in Hp. apply ptrs_app in Hp as [Hp1 Hp2]. rewrite Lt in Hp2.
  assert (S2 : same_outside [(pIns + 2, 2 * (zlen l - i))] d d2) by (apply memmove_same; lia).
  pose proof (same_trans _ _ _ _ _ S2 (same_put2 d2 pIns idx)) as S3. fold d' in S3. cbn [app] in S3.
  split; [|split].
  - apply ptrs_app. rewrite Lt. split; [eapply ptrs_frame; [exact S3| |done]; rewrite Lt; each; solve_apart|]. cbn [ptrs_at]. replace (co + 2 * i) with pIns in * by lia. split.
    + unfold d'. rewrite get2_put2 by (rewrite ?(proj1 S2); lia). apply Z.mod_small. lia.
    + eapply (ptrs_frame [(pIns, 2)] d2); [apply same_put2|each; solve_apart|]. apply (ptrs_bytes d d2 _ pIns); [|done]. intros j Hj. rewrite Ld in Hj.
      apply memmove_zget; lia.
  - eapply same_weaken; [exact S3|]. intros j Hj. rewrite Forall_singleton in Hj. cbn [fst snd] in Hj. each; lia.
  - by apply bytes_put2, bytes_memmove.
Qed.

Lemma ptrs_delete d co l i : bytes_ok d -> 0 <= co -> 0 <= i < zlen l -> co + 2 * zlen l <= zlen d -> ptrs_at d co l ->
  let d' := memmove d (co + 2 * i) (co + 2 * i + 2) (2 * (zlen l - 1 - i)) in
  ptrs_at d' co (delete (Z.to_nat i) l) /\ same_outside [(co + 2 * i, 2 * (zlen l - 1 - i))] d d' /\ bytes_ok d'.
Proof.
  intros Hb H0 Hi Hl Hp d'. destruct (zlen_split l i ltac:(lia)) as [Lt Ld].
  assert (S2 : same_outside [(co + 2 * i, 2 * (zlen l - 1 - i))] d d') by (apply memmove_same; lia).
  split; [|split; [done|by apply bytes_memmove]]. rewrite delete_take_drop.
  rewrite <- (take_drop (Z.to_nat i) l) in Hp. apply ptrs_app in Hp as [Hp1 Hp2]. rewrite Lt in Hp2.
  apply ptrs_app. rewrite Lt. split; [eapply ptrs_frame; [exact S2| |done]; rewrite Lt; each; solve_apart|].
  destruct (drop (Z.to_nat i) l) as [|pc k] eqn:Ek; [unfold zlen in *; cbn in Ld; lia|].
  assert (Ek' : drop (S (Z.to_nat i)) l = k) by (replace (S (Z.to_nat i)) with (Z.to_nat i + 1)%nat by lia; rewrite <- drop_drop, Ek; done).
  rewrite Ek'. rewrite zlen_cons in Ld. destruct Hp2 as [_ Hp2]. apply (ptrs_bytes d _ _ (co + 2 * i + 2)); [|done]. intros j Hj. apply memmove_zget; lia.
Qed.

(** The count of cells is kept as two bytes with a carry. *)
Lemma count_incr d c n : bytes_ok d -> 1 <= c -> c + 1 <= zlen d -> get2byte d (c - 1) = n -> n + 1 < 65536 ->
  let d1 := d.[c <- u8 (d.[c] + 1)] in let d' := if d1.[c] =? 0 then d1.[c - 1 <- u8 (d1.[c - 1] + 1)] else d1 in
  get2byte d' (c - 1) = n + 1 /\ same_outside [(c - 1, 2)] d d' /\ bytes_ok d'.
Proof.
  intros Hb Hc Hl Hn H1. cbv zeta. destruct (get2_value d (c - 1) Hb) as [E _]. pose proof (zget_byte d (c - 1) Hb) as B0. pose proof (zget_byte d c Hb) as B1. unfold is_u8 in *.
  replace (c - 1 + 1) with c in E by lia. rewrite zget_zput_eq by lia.
  assert (S1 : same_outside [(c, 1)] d (d.[c <- u8 (d.[c] + 1)])) by apply same_zput.
  assert (Hb1 : bytes_ok (d.[c <- u8 (d.[c] + 1)])) by auto with sqlite.
  destruct (Z.eqb_spec (u8 (d.[c] + 1)) 0) as [H|H].
  - assert (d.[c] = 255) by (unfold u8 in H; Z.div_mod_to_equations; lia).
    assert (Hb2 : bytes_ok (d.[c <- u8 (d.[c] + 1)].[c - 1 <- u8 (d.[c <- u8 (d.[c] + 1)].[c - 1] + 1)])) by auto with sqlite.
    split_and!; [| |done].
    + destruct (get2_value _ (c - 1) Hb2) as [-> _]. rewrite zget_zput_eq by (rewrite zlen_zput; lia). replace (c - 1 + 1) with c by lia.
      rewrite !zget_zput_ne by lia. rewrite zget_zput_eq by lia. rewrite H. unfold u8. rewrite Z.mod_small by lia. lia.
    + eapply same_weaken; [exact (same_trans _ _ _ _ _ S1 (same_zput _ (c - 1) _))|]. intros j Hj. rewrite Forall_singleton in Hj. cbn [fst snd] in Hj. each; lia.
  - split_and!; [| |done].
    + destruct (get2_value _ (c - 1) Hb1) as [-> _]. replace (c - 1 + 1) with c by lia. rewrite zget_zput_ne, zget_zput_eq by lia.
      unfold u8 in *. Z.div_mod_to_equations; lia.
    + eapply same_weaken; [exact S1|]. intros j Hj. rewrite Forall_singleton in Hj. cbn [fst snd] in Hj. each; lia.
Qed.

(** Writes beside the lists of free blocks and the fields for free space. *)
Lemma space_frame mods u hdr lo d d' regs frees top : space u hdr lo d regs frees top -> same_outside mods d d' -> bytes_ok d' ->
  Forall (fun m => apart (hdr + 1, 2) m /\ apart (hdr + 5, 3) m /\ (m.1 + m.2 <= top \/ exists r, r ∈ regs /\ part_of m r)) mods -> space u hdr lo d' regs frees top.
Proof.
  intros Hs Hsame Hb Hm. pose proof (fun r s => space_apart u hdr lo d regs frees top r s Hs) as Hap. pose proof (fun r => space_frees_in u hdr lo d regs frees top r Hs) as Hfr. destruct Hs as [Db Du Dh Dc Ds Dd Di Dz Dt Dl Df Dm].
  assert (H7 : d'.[hdr + 7] = d.[hdr + 7]).
  { apply (same_byte _ _ _ _ Hsame). eapply Forall_impl; [exact Hm|]. intros r (_ & Hr & _). unfold apart in *. cbn [fst snd] in *. lia. }
  split; try done; try (rewrite H7; done).
  - by rewrite (proj1 Hsame).
  - apply (chain_frame mods d d' (hdr + 1) frees Hsame); [eapply Forall_impl; [exact Hm|]; by intros r (? & _)| |done].
    apply Forall_forall. intros f Hf. eapply Forall_impl; [exact Hm|]. intros m (_ & _ & Hm'). pose proof (Hfr f Hf). destruct Hm' as [Hm'|(r & Hr & Hm')]; [solve_apart|].
    pose proof (Hap r f Hr Hf). unfold apart, part_of in *. cbn [fst snd] in *. lia.
  - rewrite (same_get2 _ _ _ _ Hsame); [done|]. eapply Forall_impl; [exact Hm|]. intros r (_ & Hr & _). unfold apart in *. cbn [fst snd] in *. lia.
Qed.

Section page_proofs.
Variable tempSpace : list Z.

(** ** Pages as lists of cells *)

Record page_rep (p : MemPage) (L : list (list Z)) : Prop := {
  pr_cells : exists cs frees top, cs.*2 = L /\ page_cells p cs frees top;
  pr_count : get2byte (aData p) (hdrOffset p + 3) = nCell p;
  pr_flags : decodeFlags (pBt p) (ptype p) (aData p).[hdrOffset p] = (SQLITE_OK, ptype p);
  pr_bt : wf_bt (pBt p);
  pr_mask : maskPage p = pageSize (pBt p) - 1;
  pr_init : isInit p = true;
  pr_ovfl : aiOvfl p = [] /\ apOvfl p = [];
  pr_hdr : 0 <= hdrOffset p <= 100 }.

(** What no operation on the cells of a page changes: everything but the fields for free
    space, the count of cells, the pointers and the content area. *)
Definition page_frame (p p' : MemPage) : Prop :=
  pgno p' = pgno p /\ hdrOffset p' = hdrOffset p /\ ptype p' = ptype p /\ cellOffset p' = cellOffset p /\ pBt p' = pBt p /\
  same_outside [(hdrOffset p + 1, 7); (cellOffset p, usable p - cellOffset p)] (aData p) (aData p').

Lemma page_frame_refl p : page_frame p p.
Proof. by repeat split. Qed.
Lemma page_frame_trans p q r : page_frame p q -> page_frame q r -> page_frame p r.
Proof.
  intros (H1 & H2 & H3 & H4 & H5 & H6) (G1 & G2 & G3 & G4 & G5 & G6). unfold usable in *. rewrite H2, H4, H5 in G6. repeat (split; [congruence|]).
  eapply same_weaken; [exact (same_trans _ _ _ _ _ H6 G6)|]. intros j Hj. by apply Forall_app.
Qed.

Lemma page_rep_sizes p L : page_rep p L -> nFree p = usable p - (cellOffset p + 2 * zlen L) - sizes L /\ nCell p = zlen L /\
  Forall (wf_cell (pBt p) (ptype p)) L /\ 4 * zlen L + sizes L <= 2 * sizes L /\ cellOffset p + 2 * zlen L + sizes L <= usable p <= 65536 /\
  0 <= zlen L /\ hdrOffset p + 8 <= cellOffset p /\ 0 <= hdrOffset p /\ bytes_ok (aData p) /\ usable p <= zlen (aData p).
Proof.
  intros [(cs & frees & top & <- & Hpc) _ _ _ _ _ _ _]. destruct (page_cells_bounds _ _ _ _ Hpc) as (Hcb & Db & Du & Dh & Do & Dl & Dt & Dn). destruct Hpc as [Hs _ _ Hw Hn _ HnF].
  assert (El : zlen cs.*2 = zlen cs) by (unfold zlen; by rewrite length_fmap). rewrite El.
  destruct (space_data_bounds _ _ _ _ _ _ _ Hs) as (_ & _ & _ & _ & _ & _ & Hr & _). rewrite total_regions in Hr.
  assert (H4 : 4 * zlen cs <= sizes cs.*2).
  { clear - Hw. induction Hw as [|[pc c] cs [Hc _] _ IH]; [done|]. rewrite zlen_cons. change (sizes ((pc, c) :: cs).*2) with (zlen c + sizes cs.*2). cbn [snd] in Hc. lia. }
  split_and!; try done; try lia. by apply Forall_fmap.
Qed.

Lemma sizes_app l k : sizes (l ++ k) = sizes l + sizes k.
Proof. induction l as [|c l IH]; [done|]. change (zlen c + sizes (l ++ k) = zlen c + sizes l + sizes k). lia. Qed.
Lemma sizes_insert l i c : sizes (take i l ++ c :: drop i l) = sizes l + zlen c.
Proof. rewrite <- (take_drop i l) at 3. rewrite !sizes_app. change (sizes (c :: drop i l)) with (zlen c + sizes (drop i l)). lia. Qed.
Lemma zlen_insert {A} (l : list A) i c : zlen (take i l ++ c :: drop i l) = zlen l + 1.
Proof. rewrite <- (take_drop i l) at 3. rewrite !zlen_app, zlen_cons. lia. Qed.

Lemma insert_perm {A} (l : list A) i c : take i l ++ c :: drop i l ≡ₚ c :: l.
Proof. rewrite <- Permutation_middle, take_drop. done. Qed.

(** A page is what its cells, counts and header make of it. *)
Lemma page_rep_update p L cs frees top d nF nC : page_rep p L ->
  space (usable p) (hdrOffset p) (cellOffset p + 2 * zlen cs) d (regions cs) frees top -> ptrs_at d (cellOffset p) cs.*1 -> contents_at d cs ->
  Forall (fun c : cell => wf_cell (pBt p) (ptype p) c.2) cs -> nC = zlen cs -> nF = usable p - (cellOffset p + 2 * zlen cs) - sizes cs.*2 ->
  get2byte d (hdrOffset p + 3) = nC -> same_outside [(hdrOffset p + 1, 7); (cellOffset p, usable p - cellOffset p)] (aData p) d ->
  let p' := mkPage (isInit p) (pgno p) (hdrOffset p) (ptype p) (aiOvfl p) (apOvfl p) (cellOffset p) nF nC (maskPage p) (pBt p) d in
  page_rep p' cs.*2 /\ page_frame p p'.
Proof.
  intros Hrep Hs Hp Hc Hw HnC HnF Hcnt Hfr p'. destruct (page_rep_sizes _ _ Hrep) as (_ & _ & _ & _ & _ & _ & R7 & _). pose proof Hrep as [(cs0 & fr0 & tp0 & _ & Hpc0) _ Hfl Hbt Hmk Hin Hov Hhd].
  assert (E7 : d.[hdrOffset p] = (aData p).[hdrOffset p]) by (apply (same_byte _ _ _ _ Hfr); each; solve_apart).
  split; [|by repeat (split; [done|])].
  split; cbn [p' aData hdrOffset nCell pBt ptype maskPage isInit aiOvfl apOvfl]; try done; [|by rewrite E7].
  exists cs, frees, top. split; [done|]. split; cbn [p' aData hdrOffset nCell pBt ptype cellOffset nFree]; try done. exact (pc_offset _ _ _ _ Hpc0).
Qed.

Lemma place_data_ok u hdr co d cs frees top i idx content : space u hdr (co + 2 * zlen cs + 2) d ((idx, zlen content) :: regions cs) frees top -> hdr + 8 <= co ->
  0 <= i <= zlen cs -> ptrs_at d co cs.*1 -> contents_at d cs -> bytes_ok content -> get2byte d (hdr + 3) = zlen cs ->
  let d' := place_data d hdr co (zlen cs) i idx content in let cs' := take (Z.to_nat i) cs ++ (idx, content) :: drop (Z.to_nat i) cs in
  space u hdr (co + 2 * zlen cs') d' (regions cs') frees top /\ ptrs_at d' co cs'.*1 /\ contents_at d' cs' /\ get2byte d' (hdr + 3) = zlen cs' /\
  same_outside [(hdr + 3, 2); (co, u - co)] d d'.
Proof.
  intros Hs Hco Hi Hp Hc Hbc Hcnt d' cs'. assert (El1 : zlen cs.*1 = zlen cs) by (unfold zlen; by rewrite length_fmap).
  destruct (space_data_bounds _ _ _ _ _ _ _ Hs) as (Db & Du & Dh & Dl & Dt & _). assert (Elen : zlen cs' = zlen cs + 1) by apply zlen_insert.
  pose proof (space_regs_in _ _ _ _ _ _ _ (idx, zlen content) Hs ltac:(left)) as (X1 & X2 & X3). cbn [fst snd] in *.
  assert (Hcb : Forall (fun c => top <= c.1 /\ c.1 + zlen c.2 <= u /\ apart (cell_region c) (idx, zlen content)) cs).
  { apply Forall_forall. intros c Hc'. assert (Hr : cell_region c ∈ regions cs) by (by apply list_elem_of_fmap_2).
    pose proof (space_regs_in _ _ _ _ _ _ _ (cell_region c) Hs ltac:(by right)) as (? & ? & ?). split_and!; [done|done|].
    pose proof (sp_disjoint _ _ _ _ _ _ _ Hs) as [Hd _]. apply Forall_app in Hd as [Hd _]. rewrite Forall_forall in Hd. apply apart_comm. auto. }
  unfold place_data in d'. set (d1 := splice d idx content) in *. assert (S1 : same_outside [(idx, zlen content)] d d1) by (apply same_splice; lia).
  assert (B1 : bytes_ok d1) by (by apply bytes_spliced).
  assert (Hp1 : ptrs_at d1 co cs.*1) by (eapply ptrs_frame; [exact S1| |done]; rewrite El1; each; solve_apart).
  destruct (ptrs_insert d1 co cs.*1 i idx B1) as (G1 & G2 & G3); [lia|lia|rewrite (proj1 S1), El1; lia|lia|done|]. rewrite El1 in G1, G2, G3.
  set (d3 := put2byte (memmove d1 _ _ _) _ _) in *. pose proof (same_trans _ _ _ _ _ S1 G2) as S3. cbn [app] in S3.
  assert (Hcn : get2byte d3 (hdr + 4 - 1) = zlen cs).
  { replace (hdr + 4 - 1) with (hdr + 3) by lia. rewrite <- Hcnt. apply (same_get2 _ _ _ _ S3). each; solve_apart. }
  destruct (count_incr d3 (hdr + 4) (zlen cs) G3 ltac:(lia) ltac:(rewrite (proj1 S3); lia) Hcn ltac:(lia)) as (C1 & C2 & C3). fold d' in C1, C2, C3. replace (hdr + 4 - 1) with (hdr + 3) in * by lia.
  clearbody d'. clearbody d3. pose proof (same_trans _ _ _ _ _ S3 C2) as S4. cbn [app] in S4.
  split; [|split; [|split; [|split; [lia|]]]].
  - apply (space_perm _ _ _ _ ((idx, zlen content) :: regions cs)); [unfold regions, cs'; by rewrite insert_perm|].
    replace (co + 2 * zlen cs') with (co + 2 * zlen cs + 2) by lia. apply (space_frame _ _ _ _ d d' _ _ _ Hs S4 C3).
    each; split_and!; try solve_apart; try (left; cbn [fst snd]; lia). right. exists (idx, zlen content). split; [left|solve_apart].
  - unfold cs'. rewrite fmap_app, fmap_cons, fmap_take, fmap_drop. eapply ptrs_frame; [exact C2| |exact G1]. rewrite zlen_insert, El1. each; solve_apart.
  - assert (Hold : contents_at d' cs).
    { eapply cells_frame; [exact S4| | |done]; (eapply Forall_impl; [exact Hcb|]); intros c Hc'; cbn beta in Hc'; [lia|]. pose proof (zlen_nonneg c.2). unfold cell_region in *. each; [tauto|solve_apart..]. }
    unfold contents_at in *. unfold cs'. rewrite <- (take_drop (Z.to_nat i) cs) in Hold. apply Forall_app in Hold as [Ho1 Ho2]. apply Forall_app. split; [done|]. apply List.Forall_cons; [|done].
    cbn [fst snd]. rewrite (same_slice _ _ _ idx (zlen content) (same_trans _ _ _ _ _ G2 C2)) by (rewrite ?(proj1 S1); try lia; each; solve_apart). apply slice_spliced; lia.
  - eapply same_weaken; [exact S4|]. intros j Hj. rewrite !Forall_cons in Hj. cbn [fst snd] in Hj. each; lia.
Qed.

Section insertion.
Context {W : Type} (sqlite3PagerWrite : W -> MemPage -> Z * W) (ptrmapPutOvflPtr : W -> MemPage -> list Z -> Z * W).

(** Where an error may come from. *)
Definition outside_error (rc : Z) : Prop := (exists w p, fst (sqlite3PagerWrite w p) = rc) \/ (exists w p c, fst (ptrmapPutOvflPtr w p c) = rc).

Lemma place_cell_ok w p L i sz idx d' content pCell : page_rep p L -> allocated p L sz idx d' -> zlen content = sz -> wf_cell (pBt p) (ptype p) content ->
  0 <= i <= zlen L -> sz + 2 <= nFree p ->
  exists rc p' w', place_cell ptrmapPutOvflPtr w (set_aData p d') i sz idx content pCell = (rc, p', w') /\
    page_rep p' (take (Z.to_nat i) L ++ content :: drop (Z.to_nat i) L) /\ page_frame p p' /\ (rc = SQLITE_OK \/ outside_error rc).
Proof.
  intros Hrep (cs & frees & top & <- & Hs & Hp & Hc & Hh) <- Hwc Hi HnF.
  destruct (page_rep_sizes _ _ Hrep) as (R1 & R2 & R3 & R4 & R5 & R6 & R7 & R8 & R9 & R10). assert (El : zlen cs.*2 = zlen cs) by (unfold zlen; by rewrite length_fmap). rewrite El in *.
  pose proof (sizes_nonneg cs.*2). pose proof (proj1 Hwc). pose proof (proj1 Hh) as Lh.
  assert (Hcnt : get2byte d' (hdrOffset p + 3) = zlen cs).
  { rewrite <- R2, <- (pr_count _ _ Hrep). apply (same_get2 _ _ _ _ Hh). each; solve_apart. }
  destruct (place_data_ok _ _ _ _ _ _ _ i idx content Hs R7 Hi Hp Hc ltac:(apply Hwc) Hcnt) as (G1 & G2 & G3 & G4 & G5). cbv zeta in *.
  set (d4 := place_data _ _ _ _ _ _ _) in *. set (cs' := take (Z.to_nat i) cs ++ _ :: _) in *.
  assert (Elen : zlen cs' = zlen cs + 1) by apply zlen_insert.
  assert (Ecs2 : cs'.*2 = take (Z.to_nat i) cs.*2 ++ content :: drop (Z.to_nat i) cs.*2) by (unfold cs'; by rewrite fmap_app, fmap_cons, fmap_take, fmap_drop).
  assert (Hw' : Forall (fun c : cell => wf_cell (pBt p) (ptype p) c.2) cs').
  { assert (G : Forall (wf_cell (pBt p) (ptype p)) cs'.*2); [|exact (proj1 (Forall_fmap snd (wf_cell (pBt p) (ptype p)) cs') G)].
    rewrite Ecs2. rewrite <- (take_drop (Z.to_nat i) cs.*2) in R3. apply Forall_app in R3 as [R31 R32]. apply Forall_app. split; [done|by apply List.Forall_cons]. }
  assert (Hp' : page_rep (set_aData (set_nCell (set_nFree p (nFree p - u16 (2 + zlen content))) (u16 (zlen cs + 1))) d4) cs'.*2 /\
    page_frame p (set_aData (set_nCell (set_nFree p (nFree p - u16 (2 + zlen content))) (u16 (zlen cs + 1))) d4)).
  { apply (page_rep_update p cs.*2 cs' frees top d4 _ _ Hrep G1 G2 G3 Hw').
    - cbn [nCell set_nCell set_nFree]. unfold u16. rewrite Z.mod_small; lia.
    - cbn [nFree set_nCell set_nFree]. rewrite Ecs2, sizes_insert, Elen. unfold u16. rewrite Z.mod_small by lia. lia.
    - cbn [nCell set_nCell set_nFree]. unfold u16. rewrite Z.mod_small by lia. lia.
    - eapply same_weaken; [exact (same_trans _ _ _ _ _ Hh G5)|]. intros j Hj. rewrite !Forall_cons in Hj. cbn [fst snd] in Hj. each; lia. }
  rewrite Ecs2 in Hp'. unfold place_cell. cbn [set_nFree set_aData set_nCell hdrOffset cellOffset aData nCell pBt nFree]. rewrite R2. fold d4.
  change (mkPage _ _ _ _ _ _ _ _ _ _ _ d4) with (set_aData (set_nCell (set_nFree p (nFree p - u16 (2 + zlen content))) (u16 (zlen cs + 1))) d4).
  set (p' := set_aData _ d4) in *. destruct (autoVacuum (pBt p)).
  - destruct (ptrmapPutOvflPtr w p' pCell) as [rc2 w'] eqn:Ep. exists (if truthy rc2 then rc2 else SQLITE_OK), p', w'. split; [done|]. split; [apply Hp'|]. split; [apply Hp'|].
    destruct (truthy rc2); [right; right; exists w, p', pCell; by rewrite Ep|by left].
  - exists SQLITE_OK, p', w. split; [done|]. split; [apply Hp'|]. split; [apply Hp'|by left].
Qed.

Lemma insertCellFast_ok w p L i pCell sz : page_rep p L -> bytes_ok tempSpace -> usable p <= zlen tempSpace -> 0 <= i <= zlen L ->
  zlen (take (Z.to_nat sz) pCell) = sz -> wf_cell (pBt p) (ptype p) (take (Z.to_nat sz) pCell) ->
  exists rc p' w', insertCellFast tempSpace sqlite3PagerWrite ptrmapPutOvflPtr w p i pCell sz = (rc, p', w') /\
    if nFree p <? sz + 2 then rc = SQLITE_OK /\ p' = add_ovfl p i pCell
    else (rc = SQLITE_OK \/ outside_error rc) /\ page_frame p p' /\
      ((p' = p /\ rc <> SQLITE_OK) \/ page_rep p' (take (Z.to_nat i) L ++ take (Z.to_nat sz) pCell :: drop (Z.to_nat i) L)).
Proof.
  intros Hrep Ht Hl Hi Hsz Hw. unfold insertCellFast. destruct (Z.ltb_spec (nFree p) (sz + 2)) as [Hf|Hf]; [by eexists _, _, _|].
  destruct (sqlite3PagerWrite w p) as [rc w'] eqn:Ew. destruct (truthy rc) eqn:Erc.
  { exists rc, p, w'. split; [done|]. split; [right; left; exists w, p; by rewrite Ew|]. split; [apply page_frame_refl|]. left. split; [done|]. intros ->. done. }
  destruct (pr_cells _ _ Hrep) as (cs & frees & top & EL & Hpc).
  destruct (allocateSpace_ok tempSpace p cs frees top sz Hpc Ht Hl) as (idx & d' & -> & Hal); [rewrite <- Hsz; apply Hw|lia|]. change (truthy SQLITE_OK) with false. cbv iota. rewrite EL in Hal.
  destruct (place_cell_ok w' p L i sz idx d' (take (Z.to_nat sz) pCell) pCell Hrep Hal Hsz Hw Hi ltac:(lia)) as (rc' & p' & w'' & E & G1 & G2 & G3).
  exists rc', p', w''. split; [exact E|]. split; [done|]. split; [done|]. by right.
Qed.

Lemma insertCell_ok w p L i pCell sz iChild : page_rep p L -> bytes_ok tempSpace -> usable p <= zlen tempSpace -> 0 <= i <= zlen L ->
  let c := sqlite3Put4byte (take (Z.to_nat sz) pCell) iChild in zlen c = sz -> wf_cell (pBt p) (ptype p) c ->
  exists rc p' w', insertCell tempSpace sqlite3PagerWrite ptrmapPutOvflPtr w p i pCell sz iChild = (rc, p', w') /\
    if nFree p <? sz + 2 then rc = SQLITE_OK /\ p' = add_ovfl p i c
    else (rc = SQLITE_OK \/ outside_error rc) /\ page_frame p p' /\
      ((p' = p /\ rc <> SQLITE_OK) \/ page_rep p' (take (Z.to_nat i) L ++ c :: drop (Z.to_nat i) L)).
Proof.
  cbv zeta. intros Hrep Ht Hl Hi Hsz Hw. unfold insertCell. cbv zeta. rewrite (proj1 (pr_ovfl _ _ Hrep)). cbn [length Nat.eqb negb orb].
  destruct (Z.ltb_spec (nFree p) (sz + 2)) as [Hf|Hf]; [by eexists _, _, _|].
  destruct (sqlite3PagerWrite w p) as [rc w'] eqn:Ew. destruct (truthy rc) eqn:Erc.
  { exists rc, p, w'. split; [done|]. split; [right; left; exists w, p; by rewrite Ew|]. split; [apply page_frame_refl|]. left. split; [done|]. intros ->. done. }
  destruct (pr_cells _ _ Hrep) as (cs & frees & top & EL & Hpc).
  destruct (allocateSpace_ok tempSpace p cs frees top sz Hpc Ht Hl) as (idx & d' & -> & Hal); [rewrite <- Hsz; apply Hw|lia|]. change (truthy SQLITE_OK) with false. cbv iota. rewrite EL in Hal.
  destruct (place_cell_ok w' p L i sz idx d' (sqlite3Put4byte (take (Z.to_nat sz) pCell) iChild) pCell Hrep Hal Hsz Hw Hi ltac:(lia)) as (rc' & p' & w'' & E & G1 & G2 & G3).
  exists rc', p', w''. split; [exact E|]. split; [done|]. split; [done|]. by right.
Qed.
End insertion.

(** *** An empty page *)

Lemma empty_space u hdr lo d : bytes_ok d -> 480 <= u <= 65536 /\ u <= zlen d -> 0 <= hdr -> hdr + 8 <= lo <= u ->
  get2byte d (hdr + 1) = 0 -> get2byte d (hdr + 5) = u mod 65536 -> d.[hdr + 7] = 0 -> space u hdr lo d [] [] u.
Proof. intros Hb Hu Hh Hlo H1 H5 H7. split; try done; try lia; try (constructor); try (rewrite H7; cbn; lia); lia. Qed.

(** [memset(&data[hdr+1], 0, 4); data[hdr+7] = 0; put2byte(&data[hdr+5], usableSize)] *)
Lemma cleared_header u hdr lo d : bytes_ok d -> 480 <= u <= 65536 /\ u <= zlen d -> 0 <= hdr -> hdr + 8 <= lo <= u ->
  let d1 := memzero d (hdr + 1) 4 in let d' := put2byte (d1.[hdr + 7 <- 0]) (hdr + 5) u in
  space u hdr lo d' [] [] u /\ same_outside [(hdr + 1, 7)] d d' /\ get2byte d' (hdr + 3) = 0.
Proof.
  intros Hb Hu Hh Hlo. cbv zeta. set (d1 := memzero d (hdr + 1) 4). set (d2 := d1.[hdr + 7 <- 0]). set (d' := put2byte d2 (hdr + 5) u).
  assert (Z4 : zlen (replicate (Z.to_nat 4) 0) = 4) by done.
  assert (S1 : same_outside [(hdr + 1, 4)] d d1) by (apply (same_splice d (hdr + 1) (replicate (Z.to_nat 4) 0)); lia).
  assert (B1 : bytes_ok d1) by (apply bytes_spliced; [done|apply bytes_zeroed]).
  pose proof (same_trans _ _ _ _ _ (same_zput d1 (hdr + 7) 0) (same_put2 d2 (hdr + 5) u)) as S2. cbn [app] in S2. fold d2 d' in S2.
  assert (L2 : zlen d2 = zlen d) by (unfold d2; rewrite zlen_zput; apply S1).
  assert (Hz : forall j, hdr + 1 <= j < hdr + 5 -> d'.[j] = 0).
  { intros j Hj. rewrite (same_byte _ _ _ _ S2) by (each; solve_apart). unfold d1, memzero. rewrite zget_splice_in by lia.
    unfold zget, zlookup. rewrite (proj2 (Z.leb_le _ _)) by lia. rewrite lookup_replicate_2 by lia. done. }
  split; [|split].
  - apply empty_space; try done.
    + apply bytes_put2, bytes_zput; [done|unfold is_u8; lia].
    + unfold d'. by rewrite zlen_put2, L2.
    + unfold get2byte. rewrite !Hz by lia. done.
    + apply get2_put2; lia.
    + rewrite (same_byte _ _ _ _ (same_put2 d2 (hdr + 5) u)) by (each; solve_apart). apply zget_zput_eq. rewrite (proj1 S1). lia.
  - eapply same_weaken; [exact (same_trans _ _ _ _ _ S1 S2)|]. intros j Hj. rewrite Forall_singleton in Hj. cbn [fst snd] in Hj. each; lia.
  - unfold get2byte. rewrite !Hz by lia. done.
Qed.

Lemma wf_bt_bounds bt : wf_bt bt -> 512 <= pageSize bt <= 65536 /\ u16 (pageSize bt - 1) = pageSize bt - 1.
Proof.
  intros H. pose proof (wf_bt_sizes bt H). split; [lia|]. unfold u16. apply Z.mod_small. change (2 ^ 16) with 65536. lia.
Qed.

Lemma decodeFlags_type bt t0 t1 f t : decodeFlags bt t0 f = (SQLITE_OK, t) -> decodeFlags bt t1 f = (SQLITE_OK, t) /\
  0 <= f < 256 /\ 0 <= childPtrSize t <= 4 /\ childPtrSize t = (if Z.land f PTF_LEAF =? 0 then 4 else 0) /\ childPtrSize t = (if leaf t then 0 else 4).
Proof.
  unfold decodeFlags. intros H.
  repeat match type of H with context [if ?b then _ else _] => destruct b eqn:? end; try discriminate H; injection H as <-;
    match goal with E : (f =? _) = true |- _ => apply Z.eqb_eq in E; subst f end; split_and!; cbn; (done || lia).
Qed.

Lemma zeroPage_ok p flags t : wf_bt (pBt p) -> decodeFlags (pBt p) (ptype p) flags = (SQLITE_OK, t) -> bytes_ok (aData p) -> usable p <= zlen (aData p) -> 0 <= hdrOffset p <= 100 ->
  page_rep (zeroPage p flags) [] /\ ptype (zeroPage p flags) = t /\ pBt (zeroPage p flags) = pBt p /\ hdrOffset (zeroPage p flags) = hdrOffset p /\ zlen (aData (zeroPage p flags)) = zlen (aData p).
Proof.
  intros Hbt Hfl Hb Hu Hh. destruct (decodeFlags_type _ _ (ptype p) _ _ Hfl) as (_ & F1 & F2 & F3 & _). destruct (wf_bt_bounds _ Hbt) as [P1 P2]. pose proof (proj2 Hbt) as Hus. fold (usable p) in Hus.
  unfold zeroPage. cbv zeta. rewrite Hfl. set (d0 := if truthy _ then _ else _).
  assert (G0 : bytes_ok d0 /\ zlen d0 = zlen (aData p)).
  { unfold d0. destruct (truthy _); [|done]. split; [apply bytes_spliced; [done|apply bytes_zeroed]|]. apply zlen_splice; [lia|]. rewrite zlen_zeroed; lia. }
  destruct G0 as [B0 L0]. clearbody d0.
  set (d1 := d0.[hdrOffset p <- u8 flags]). set (first := hdrOffset p + (if Z.land flags PTF_LEAF =? 0 then 12 else 8)).
  assert (Ef : first = hdrOffset p + 8 + childPtrSize t) by (unfold first; rewrite F3; destruct (_ =? 0); lia).
  assert (Ec : u16 first = first) by (unfold u16; apply Z.mod_small; lia).
  destruct (cleared_header (usable p) (hdrOffset p) first d1) as (G1 & G2 & G3); [apply bytes_zput; [done|apply u8_range]|unfold d1; rewrite zlen_zput; lia|lia|lia|]. cbv zeta in G1, G2, G3.
  set (d' := put2byte _ (hdrOffset p + 5) (usable p)) in *. clearbody d'.
  assert (L' : zlen d' = zlen (aData p)) by (rewrite (proj1 G2); unfold d1; by rewrite zlen_zput).
  assert (E0 : d'.[hdrOffset p] = flags).
  { rewrite (same_byte _ _ _ _ G2) by (each; solve_apart). unfold d1. rewrite zget_zput_eq by lia. apply Z.mod_small. lia. }
  split; [|by rewrite ?L'].
  split; cbn [aData hdrOffset pBt ptype nCell maskPage isInit aiOvfl apOvfl]; try done.
  - exists [], [], (usable p). split; [done|]. split; cbn [aData hdrOffset pBt ptype nCell nFree cellOffset]; rewrite ?Ec; try done.
    + change (zlen []) with 0. rewrite Z.add_0_r. exact G1.
    + constructor.
    + split; [exact Ef|lia].
    + change (zlen []) with 0. change (sizes _) with 0. unfold u16. rewrite Z.mod_small by lia. unfold usable. cbn [pBt]. lia.
  - rewrite E0. by destruct (decodeFlags_type _ _ t _ _ Hfl) as (-> & _).
Qed.

(** *** Removing a cell *)

Lemma ptrs_lookup d ptr (cs : list cell) i c : ptrs_at d ptr cs.*1 -> cs !! i = Some c -> get2byte d (ptr + 2 * Z.of_nat i) = c.1.
Proof.
  revert ptr i. induction cs as [|x cs IH]; intros ptr i Hp Hi; [done|]. destruct Hp as [E Hp]. destruct i as [|i].
  - injection Hi as ->. rewrite <- E. f_equal. lia.
  - rewrite <- (IH _ _ Hp Hi). f_equal. lia.
Qed.
Lemma sizes_delete l i c : l !! i = Some c -> sizes (delete i l) = sizes l - zlen c.
Proof. intros Hi. pose proof (take_drop_middle l i c Hi) as E. rewrite delete_take_drop. rewrite <- E at 3. rewrite !sizes_app. change (sizes (c :: ?k)) with (zlen c + sizes k). lia. Qed.
Lemma zlen_delete {A} (l : list A) i c : l !! i = Some c -> zlen (delete i l) = zlen l - 1.
Proof. intros Hi. pose proof (lookup_lt_Some _ _ _ Hi). unfold zlen. rewrite length_delete by eauto. lia. Qed.

(** Freeing the space of a cell. *)
Lemma drop_space p L idx c : page_rep p L -> L !! idx = Some c ->
  exists pc d1 l cs' frees top, get2byte (aData p) (cellOffset p + 2 * Z.of_nat idx) = pc /\ 0 <= pc /\ pc + zlen c <= usable p /\
    freeSpace p pc (zlen c) = (SQLITE_OK, set_nFree (set_aData p d1) (nFree p + zlen c)) /\
    cs'.*2 = delete idx L /\ zlen l = zlen L /\ cs'.*1 = delete idx l /\ ptrs_at d1 (cellOffset p) l /\ contents_at d1 cs' /\
    space (usable p) (hdrOffset p) (cellOffset p + 2 * zlen L) d1 (regions cs') frees top /\
    Forall (fun c : cell => wf_cell (pBt p) (ptype p) c.2) cs' /\
    same_outside [(hdrOffset p + 1, 7); (cellOffset p, usable p - cellOffset p)] (aData p) d1.
Proof.
  intros Hrep HL. destruct (page_rep_sizes _ _ Hrep) as (R1 & R2 & R3 & R4 & R5 & R6 & R7 & R8 & R9 & R10). destruct (pr_cells _ _ Hrep) as (cs & frees & top & <- & Hpc).
  destruct (page_cells_bounds _ _ _ _ Hpc) as (Hcb & _ & _ & _ & _ & Dl & Dt & _). destruct Hpc as [Hs Hp Hc Hw Hn Ho HnF].
  apply list_lookup_fmap_Some in HL as ([pc c'] & -> & Hi). cbn [snd] in *.
  assert (El : zlen cs.*2 = zlen cs) by (unfold zlen; by rewrite length_fmap). assert (El1 : zlen cs.*1 = zlen cs) by (unfold zlen; by rewrite length_fmap). rewrite El in *.
  assert (Hb : top <= pc /\ 4 <= zlen c' /\ pc + zlen c' <= usable p) by (rewrite Forall_forall in Hcb; exact (Hcb _ (list_elem_of_lookup_2 _ _ _ Hi))).
  set (cs' := delete idx cs). assert (Hperm : regions cs ≡ₚ (pc, zlen c') :: regions cs').
  { unfold regions, cs'. rewrite delete_take_drop. rewrite <- (take_drop_middle cs idx (pc, c') Hi) at 1. by rewrite <- Permutation_middle. }
  destruct (free_space_ok (usable p) (hdrOffset p) (cellOffset p + 2 * zlen cs) p (regions cs') pc (zlen c') frees top eq_refl eq_refl (space_perm _ _ _ _ _ _ _ _ Hperm Hs)) as (d1 & frees' & top' & E & Hs1 & Hk1).
  exists pc, d1, cs.*1, cs', frees', top'.
  split; [exact (ptrs_lookup _ _ _ _ _ Hp Hi)|]. split; [lia|]. split; [lia|]. split; [done|]. split; [apply list_fmap_delete|]. split; [lia|]. split; [apply list_fmap_delete|].
  split; [apply (kept_ptrs _ _ _ _ _ _ _ _ Hk1); rewrite ?El1; (done || lia)|]. split; [|split; [done|split; [by apply Forall_delete|]]].
  - apply (kept_contents _ _ _ _ _ _ _ Hk1); [intros; by apply list_elem_of_fmap_2|apply Forall_delete; eapply Forall_impl; [exact Hcb|]; intros x Hx; cbn beta in Hx; lia|by apply Forall_delete].
  - eapply same_weaken; [apply (kept_header (hdrOffset p) (cellOffset p + 2 * zlen cs) (usable p) (regions cs') (aData p) d1); (lia || done)|].
    intros j Hj. rewrite !Forall_cons in Hj. cbn [fst snd] in Hj. each; lia.
Qed.

Lemma dropCell_ok p L idx c : page_rep p L -> L !! idx = Some c ->
  exists p', dropCell p (Z.of_nat idx) (zlen c) SQLITE_OK = (SQLITE_OK, p') /\ page_rep p' (delete idx L) /\ page_frame p p'.
Proof.
  intros Hrep HL. destruct (page_rep_sizes _ _ Hrep) as (R1 & R2 & R3 & R4 & R5 & R6 & R7 & R8 & R9 & R10). pose proof (wf_bt_bounds _ (pr_bt _ _ Hrep)) as [P1 _]. pose proof (pr_hdr _ _ Hrep). pose proof (zlen_nonneg c).
  destruct (drop_space p L idx c Hrep HL) as (pc & d1 & l & cs' & frees & top & Eptr & Hpc & Hpcu & Efree & Ecs2 & El & Ecs1 & Hp1 & Hc1 & Hs1 & Hw1 & Hfr1).
  assert (Hiz : 0 <= Z.of_nat idx < zlen L) by (pose proof (lookup_lt_Some _ _ _ HL); unfold zlen; lia).
  assert (Elen : zlen cs' = zlen L - 1) by (rewrite <- (zlen_delete _ _ _ HL), <- Ecs2; unfold zlen; by rewrite length_fmap).
  assert (Hsz : sizes cs'.*2 = sizes L - zlen c) by (rewrite Ecs2; by apply sizes_delete).
  assert (Hoff : cellOffset p = hdrOffset p + 8 + childPtrSize (ptype p)) by (destruct (pr_cells _ _ Hrep) as (? & ? & ? & _ & G); apply (pc_offset _ _ _ _ G)).
  destruct (space_data_bounds _ _ _ _ _ _ _ Hs1) as (Db1 & Du1 & _ & Dl1 & Dt1 & _).
  unfold dropCell. change (truthy SQLITE_OK) with false. cbv iota zeta. rewrite Eptr. unfold u32. rewrite Z.mod_small, (proj2 (Z.ltb_ge _ _)) by lia. rewrite Efree.
  change (truthy SQLITE_OK) with false. cbv iota. cbn [set_nFree set_aData set_nCell nCell aData hdrOffset cellOffset ptype nFree]. change (usable (set_nCell _ _)) with (usable p).
  assert (En : u16 (nCell p - 1) = zlen cs') by (rewrite R2, Elen; apply Z.mod_small; lia). rewrite En, <- Ecs2.
  destruct (Z.eqb_spec (zlen cs') 0) as [Hz|Hz].
  - assert (Ecs : cs' = []) by (destruct cs'; [done|]; rewrite zlen_cons in Hz; pose proof (zlen_nonneg cs'); lia).
    destruct (cleared_header (usable p) (hdrOffset p) (cellOffset p) d1) as (G1 & G2 & G3); [done|lia|lia|lia|]. cbv zeta in G1, G2, G3. set (d' := put2byte _ _ _) in *. clearbody d'.
    eexists. split; [done|]. rewrite Ecs. apply (page_rep_update p L [] [] (usable p) d' _ _ Hrep); cbn [set_nFree set_aData set_nCell nFree nCell]; try first [done|by constructor].
    + change (zlen []) with 0. replace (cellOffset p + 2 * 0) with (cellOffset p) by lia. exact G1.
    + change (zlen []) with 0. change (sizes _) with 0. lia.
    + eapply same_weaken; [exact (same_trans _ _ _ _ _ Hfr1 G2)|]. intros j Hj. rewrite !Forall_cons in Hj. cbn [fst snd] in Hj. each; lia.
  - destruct (ptrs_delete d1 (cellOffset p) l (Z.of_nat idx) Db1) as (G1 & G2 & G3); rewrite ?El; try (lia || done). rewrite El, Nat2Z.id, <- Ecs1, <- Elen in *.
    set (d2 := memmove d1 _ _ _) in *. clearbody d2. set (d' := put2byte d2 (hdrOffset p + 3) (zlen cs')).
    pose proof (same_trans _ _ _ _ _ G2 (same_put2 d2 (hdrOffset p + 3) (zlen cs'))) as S2. cbn [app] in S2. fold d' in S2.
    assert (Hs1' : space (usable p) (hdrOffset p) (cellOffset p + 2 * zlen cs') d1 (regions cs') frees top) by (eapply space_lo; [exact Hs1|lia]).
    assert (Hb : Forall (fun x : cell => top <= x.1 /\ x.1 + zlen x.2 <= usable p) cs').
    { apply Forall_forall. intros x Hx. destruct (space_regs_in _ _ _ _ _ _ _ (cell_region x) Hs1 ltac:(by apply list_elem_of_fmap_2)) as (? & _ & ?). done. }
    eexists. split; [done|]. apply (page_rep_update p L cs' frees top d' _ _ Hrep); cbn [set_nFree set_aData set_nCell nFree nCell]; try done.
    + apply (space_frame _ _ _ _ d1 d' _ _ _ Hs1' S2); [by apply bytes_put2|]. each; split_and!; try solve_apart; left; cbn [fst snd]; lia.
    + eapply (ptrs_frame [(hdrOffset p + 3, 2)] d2); [apply same_put2| |done]. each. solve_apart.
    + eapply cells_frame; [exact S2| | |done]; (eapply Forall_impl; [exact Hb|]); intros x Hx; cbn beta in Hx; [lia|]. pose proof (zlen_nonneg x.2). unfold cell_region. each; solve_apart.
    + lia.
    + unfold d'. rewrite get2_put2 by (rewrite ?(proj1 G2); lia). apply Z.mod_small. lia.
    + eapply same_weaken; [exact (same_trans _ _ _ _ _ Hfr1 S2)|]. intros j Hj. rewrite !Forall_cons in Hj. cbn [fst snd] in Hj. each; lia.
Qed.

(** *** Reading a page back *)

Lemma sum_free_ok u d frees : forall fuel i bound n, free_chain d i frees -> sorted_from bound frees -> frees <> [] -> (length frees <= fuel)%nat ->
  Forall (fun r => r.1 + r.2 <= u) frees -> 0 <= bound -> sum_free fuel u d (get2byte d i) n = Some (n + total frees).
Proof.
  induction frees as [|[a s] frees IH]; intros fuel i bound n Hc Hs Hn Hf Hu Hb; [done|]. destruct Hc as (-> & E2 & Hc). destruct Hs as (H1 & H2 & Hs). apply Forall_cons in Hu as [Ha Hu].
  cbn [fst snd] in Ha. destruct fuel as [|fuel]; [cbn in Hf; lia|]. cbn [sum_free]. cbv zeta. rewrite E2, (proj2 (Z.ltb_ge _ _)) by lia. rewrite total_cons. cbn [snd].
  destruct frees as [|[b t] frees].
  - cbn [free_chain] in Hc. rewrite Hc, (proj2 (Z.leb_le _ _)), (proj2 (Z.ltb_ge u _)) by lia. change (total []) with 0. cbn. f_equal. lia.
  - assert (Eb : get2byte d a = b) by apply Hc. pose proof (proj1 Hs). rewrite Eb at 1. rewrite (proj2 (Z.leb_gt _ _)) by lia.
    rewrite (IH fuel a (a + s + 3) (n + s) Hc Hs ltac:(done) ltac:(cbn [length] in *; lia) Hu ltac:(lia)). f_equal. lia.
Qed.

Lemma check_cells_ok p first last cs : bytes_ok (aData p) -> Forall (fun c => wf_cell (pBt p) (ptype p) c.2) cs -> contents_at (aData p) cs ->
  Forall (fun c => 0 <= c.1 /\ first <= c.1 <= last /\ c.1 + zlen c.2 <= usable p) cs -> forall ptr, ptrs_at (aData p) ptr cs.*1 ->
  check_cells (length cs) p ptr first last = SQLITE_OK.
Proof.
  intros Hb Hw Hc Hin. induction cs as [|[pc c] cs IH]; intros ptr Hp; [done|]. apply Forall_cons in Hw as [Hw Hws]. apply Forall_cons in Hc as [Hc Hcs]. apply Forall_cons in Hin as [Hi Hin].
  destruct Hp as [Ep Hp]. cbn [fst snd] in *. cbn [length check_cells]. cbv zeta. rewrite Ep, !(proj2 (Z.ltb_ge _ _)) by lia. cbn [orb].
  rewrite (cell_size_at _ _ _ _ _ Hw Hb) by (lia || done). rewrite (proj2 (Z.ltb_ge _ _)) by lia. by apply IH.
Qed.

(** The fields of a page that are not on disk do not matter to [btreeInitPage]. *)
Lemma btreeInitPage_ok cellSizeCk p L i0 t0 ai ap co0 nf0 nc0 mask0 : page_rep p L ->
  let p0 := mkPage i0 (pgno p) (hdrOffset p) t0 ai ap co0 nf0 nc0 mask0 (pBt p) (aData p) in
  exists p1, btreeInitPage cellSizeCk p0 = (SQLITE_OK, p1) /\ btreeComputeFreeSpace p1 = (SQLITE_OK, p).
Proof.
  intros Hrep p0. destruct (page_rep_sizes _ _ Hrep) as (R1 & R2 & R3 & R4 & R5 & R6 & R7 & R8 & R9 & R10). pose proof Hrep as [(cs & frees & top & <- & Hpc) Hcnt Hfl Hbt Hmk Hin [Hov1 Hov2] Hhd].
  destruct (page_cells_bounds _ _ _ _ Hpc) as (Hcb & _ & _ & _ & _ & Dl & Dt & _). destruct Hpc as [Hs Hp Hc Hw Hn Ho HnF]. pose proof (wf_bt_bounds _ Hbt) as [P1 P2]. pose proof (proj2 Hbt) as Hus. fold (usable p) in Hus.
  assert (El : zlen cs.*2 = zlen cs) by (unfold zlen; by rewrite length_fmap). rewrite El in *. pose proof (sizes_nonneg cs.*2).
  destruct (decodeFlags_type _ _ t0 _ _ Hfl) as (Hfl0 & _ & F2 & _ & F4).
  unfold btreeInitPage, p0. cbv zeta. cbn [hdrOffset pBt ptype aData pgno isInit]. rewrite Hfl0. change (truthy SQLITE_OK) with false. cbv iota. rewrite Hcnt, Hn.
  rewrite (proj2 (Z.ltb_ge (MX_CELL _) _)) by (unfold MX_CELL; apply Z.div_le_lower_bound; lia).
  assert (Ec : u16 (hdrOffset p + 8 + childPtrSize (ptype p)) = cellOffset p) by (rewrite <- (proj1 Ho); apply Z.mod_small; lia). rewrite Ec, P2, <- Hmk.
  assert (Ep : mkPage true (pgno p) (hdrOffset p) (ptype p) [] [] (cellOffset p) (-1) (zlen cs) (maskPage p) (pBt p) (aData p) = set_nFree p (-1)).
  { rewrite <- Hn. destruct p; cbn in *. by subst. }
  rewrite Ep. exists (set_nFree p (-1)). split.
  - f_equal. destruct cellSizeCk; [|done]. unfold btreeCellSizeCheck. cbn [set_nFree nCell usable ptype leaf cellOffset pBt]. rewrite Hn. unfold zlen at 1. rewrite Nat2Z.id.
    apply check_cells_ok; try done. apply Forall_forall. intros c Hc'. unfold contents_at in *. rewrite Forall_forall in *. specialize (Hcb c Hc'). specialize (Hw c Hc').
    change (usable (set_nFree p (-1))) with (usable p). destruct Hw as (_ & H5 & _). unfold usable in *. destruct (leaf (ptype p)); cbn [negb]; [lia|]. specialize (H5 eq_refl). lia.
  - unfold btreeComputeFreeSpace. cbn [set_nFree hdrOffset aData ptype nCell]. cbv zeta. change (usable (set_nFree p (-1))) with (usable p).
    assert (Etop : get2byteNotZero (aData p) (hdrOffset p + 5) = top).
    { unfold get2byteNotZero. rewrite (sp_top _ _ _ _ _ _ _ Hs). change 0xffff with (Z.ones 16). rewrite Z.land_ones by lia. Z.div_mod_to_equations. lia. }
    rewrite Etop. pose proof (space_total _ _ _ _ _ _ _ Hs) as Htot. rewrite total_regions in Htot.
    assert (Hfr : Forall (fun r => r.1 + r.2 <= usable p) frees) by (apply Forall_forall; intros r Hr; apply (space_frees_in _ _ _ _ _ _ _ r Hs Hr)).
    assert (Esum : (if 0 <? get2byte (aData p) (hdrOffset p + 1) then if get2byte (aData p) (hdrOffset p + 1) <? top then None
        else sum_free (S (Z.to_nat (usable p))) (usable p) (aData p) (get2byte (aData p) (hdrOffset p + 1)) ((aData p).[hdrOffset p + 7] + top)
        else Some ((aData p).[hdrOffset p + 7] + top)) = Some ((aData p).[hdrOffset p + 7] + top + total frees)).
    { pose proof (sp_chain _ _ _ _ _ _ _ Hs) as Dc. pose proof (sp_sorted _ _ _ _ _ _ _ Hs) as Ds. destruct frees as [|[a s] frees].
      - cbn in Dc. rewrite Dc. change (total []) with 0. cbn. f_equal. lia.
      - assert (Ea : get2byte (aData p) (hdrOffset p + 1) = a) by apply Dc. pose proof (proj1 Ds).
        rewrite (sum_free_ok (usable p) (aData p) ((a, s) :: frees) _ (hdrOffset p + 1) top); try done; try lia.
        + rewrite Ea, (proj2 (Z.ltb_lt _ _)), (proj2 (Z.ltb_ge _ _)) by lia. done.
        + pose proof (frees_few (usable p) top _ Ds ltac:(lia) Hfr). lia. }
    rewrite Esum. rewrite <- (proj1 Ho). rewrite Hn. rewrite !(proj2 (Z.ltb_ge _ _)) by lia. cbn [orb]. f_equal.
    replace (u16 _) with (nFree p) by (unfold u16; rewrite Z.mod_small by lia; lia). by destruct p.
Qed.

Lemma findCell_ok p L i c : page_rep p L -> L !! i = Some c -> exists rest, findCell p (Z.of_nat i) = c ++ rest /\ bytes_ok rest /\ run_xCellSize (pBt p) (ptype p) (findCell p (Z.of_nat i)) = zlen c.
Proof.
  intros Hrep HL. pose proof Hrep as [(cs & frees & top & <- & Hpc) _ _ Hbt Hmk _ _ _]. destruct (page_cells_bounds _ _ _ _ Hpc) as (Hcb & Db & Du & Dh & Do & Dl & Dt & Dn). destruct Hpc as [Hs Hp Hc Hw Hn Ho HnF].
  apply list_lookup_fmap_Some in HL as ([pc c'] & -> & Hi). cbn [snd] in *. pose proof (list_elem_of_lookup_2 _ _ _ Hi) as Hel. unfold contents_at in Hc. rewrite Forall_forall in Hc, Hcb, Hw.
  specialize (Hc _ Hel). specialize (Hcb _ Hel). specialize (Hw _ Hel). cbn [fst snd] in *. pose proof (lookup_lt_Some _ _ _ Hi) as Hlt.
  assert (Eptr : get2byte (aData p) (cellOffset p + 2 * Z.of_nat i) = pc) by exact (ptrs_lookup _ _ _ _ _ Hp Hi).
  destruct Hbt as [(k & Hk & Ek) Hus]. fold (usable p) in Hus.
  assert (Em : Z.land (maskPage p) pc = pc).
  { rewrite Hmk, Ek, Z.land_comm. replace (2 ^ k - 1) with (Z.ones k) by (rewrite Z.ones_equiv; lia). rewrite Z.land_ones by lia. apply Z.mod_small. lia. }
  unfold findCell. rewrite Eptr, Em. rewrite (slice_drop _ pc (zlen c')), Hc by lia. eexists. split; [done|]. split; [by apply Forall_drop|]. apply Hw. by apply Forall_drop.
Qed.

(** ** Sequences of operations *)

Inductive page_op :=
| InsertFast (i : Z) (c : list Z)
| InsertChild (i : Z) (c : list Z) (iChild : Z)
| DropAt (i : nat)
| ReadBack (cellSizeCk : bool).

(** The page is dropped from memory, read again, and its free space is computed. *)
Definition read_back (cellSizeCk : bool) (p : MemPage) : Z * MemPage :=
  let '(rc, p) := btreeInitPage cellSizeCk (mkPage false (pgno p) (hdrOffset p) (ptype p) [] [] 0 0 0 0 (pBt p) (aData p)) in
  if truthy rc then (rc, p) else btreeComputeFreeSpace p.

(** The operations on a list of cells.  [room] is the space for pointers and cells. *)
Definition op_list (op : page_op) (L : list (list Z)) : list (list Z) :=
  match op with
  | InsertFast i c => take (Z.to_nat i) L ++ c :: drop (Z.to_nat i) L
  | InsertChild i c iChild => take (Z.to_nat i) L ++ sqlite3Put4byte c iChild :: drop (Z.to_nat i) L
  | DropAt i => delete i L
  | ReadBack _ => L
  end.
Definition op_overflow (room : Z) (op : page_op) (L : list (list Z)) : option (Z * list Z) :=
  let full c := room <? sizes L + 2 * zlen L + (zlen c + 2) in
  match op with
  | InsertFast i c => if full c then Some (i, c) else None
  | InsertChild i c iChild => if full c then Some (i, sqlite3Put4byte c iChild) else None
  | _ => None
  end.
Definition op_valid (bt : BtShared) (t : PageType) (op : page_op) (L : list (list Z)) : Prop :=
  match op with
  | InsertFast i c => 0 <= i <= zlen L /\ wf_cell bt t c
  | InsertChild i c iChild => 0 <= i <= zlen L /\ zlen (sqlite3Put4byte c iChild) = zlen c /\ wf_cell bt t (sqlite3Put4byte c iChild)
  | DropAt i => (i < length L)%nat
  | ReadBack _ => True
  end.

(** The run ends early when a cell does not fit: the page is then to be balanced. *)
Fixpoint list_ops (room : Z) (L : list (list Z)) (ops : list page_op) : list (list Z) * option (Z * list Z) :=
  match ops with
  | [] => (L, None)
  | op :: ops => match op_overflow room op L with Some o => (L, Some o) | None => list_ops room (op_list op L) ops end
  end.
Fixpoint ops_valid (bt : BtShared) (t : PageType) (L : list (list Z)) (ops : list page_op) : Prop :=
  match ops with [] => True | op :: ops => op_valid bt t op L /\ ops_valid bt t (op_list op L) ops end.

Section runs.
Context {W : Type} (sqlite3PagerWrite : W -> MemPage -> Z * W) (ptrmapPutOvflPtr : W -> MemPage -> list Z -> Z * W).

Definition page_step (w : W) (p : MemPage) (op : page_op) : Z * MemPage * W :=
  match op with
  | InsertFast i c => insertCellFast tempSpace sqlite3PagerWrite ptrmapPutOvflPtr w p i c (zlen c)
  | InsertChild i c iChild => insertCell tempSpace sqlite3PagerWrite ptrmapPutOvflPtr w p i c (zlen c) iChild
  | DropAt i => (dropCell p (Z.of_nat i) (run_xCellSize (pBt p) (ptype p) (findCell p (Z.of_nat i))) SQLITE_OK, w)
  | ReadBack ck => (read_back ck p, w)
  end.
Fixpoint page_ops (w : W) (p : MemPage) (ops : list page_op) : Z * MemPage * W :=
  match ops with
  | [] => (SQLITE_OK, p, w)
  | op :: ops =>
      let '(rc, p, w) := page_step w p op in
      if truthy rc then (rc, p, w) else if negb (Nat.eqb (length (aiOvfl p)) 0) then (SQLITE_OK, p, w) else page_ops w p ops
  end.

Definition with_overflow (p : MemPage) (o : option (Z * list Z)) : MemPage := match o with None => p | Some (i, c) => add_ovfl p i c end.

Lemma page_room p L (Hrep : page_rep p L) sz : (nFree p <? sz + 2) = (usable p - cellOffset p <? sizes L + 2 * zlen L + (sz + 2)).
Proof.
  destruct (page_rep_sizes _ _ Hrep) as (R1 & _). destruct (Z.ltb_spec (nFree p) (sz + 2)), (Z.ltb_spec (usable p - cellOffset p) (sizes L + 2 * zlen L + (sz + 2))); lia.
Qed.

Lemma page_step_ok w p L op : page_rep p L -> bytes_ok tempSpace -> usable p <= zlen tempSpace -> op_valid (pBt p) (ptype p) op L ->
  exists rc p' w', page_step w p op = (rc, p', w') /\ (rc = SQLITE_OK \/ outside_error sqlite3PagerWrite ptrmapPutOvflPtr rc) /\
    match op_overflow (usable p - cellOffset p) op L with
    | Some o => rc = SQLITE_OK /\ p' = with_overflow p (Some o)
    | None => page_frame p p' /\ (page_rep p' (op_list op L) \/ rc <> SQLITE_OK /\ p' = p)
    end.
Proof.
  intros Hrep Ht Hl Hv. destruct op as [i c|i c iChild|i|ck]; cbn [page_step op_valid op_list op_overflow] in *.
  - destruct Hv as [Hi Hw]. assert (Et : take (Z.to_nat (zlen c)) c = c) by (apply take_ge; unfold zlen; lia).
    destruct (insertCellFast_ok sqlite3PagerWrite ptrmapPutOvflPtr w p L i c (zlen c) Hrep Ht Hl Hi) as (rc & p' & w' & E & G); rewrite ?Et in *; [done|done|].
    rewrite (page_room _ _ Hrep) in G. exists rc, p', w'. split; [done|]. destruct (_ <? _).
    + destruct G as [-> ->]. split_and!; auto.
    + destruct G as (G1 & G2 & [[-> G3]|G3]); split_and!; auto.
  - destruct Hv as (Hi & Hz & Hw). assert (Et : take (Z.to_nat (zlen c)) c = c) by (apply take_ge; unfold zlen; lia).
    destruct (insertCell_ok sqlite3PagerWrite ptrmapPutOvflPtr w p L i c (zlen c) iChild Hrep Ht Hl Hi) as (rc & p' & w' & E & G); rewrite ?Et in *; [done|done|].
    rewrite (page_room _ _ Hrep) in G. exists rc, p', w'. split; [done|]. destruct (_ <? _).
    + destruct G as [-> ->]. split_and!; auto.
    + destruct G as (G1 & G2 & [[-> G3]|G3]); split_and!; auto.
  - destruct (lookup_lt_is_Some_2 L i Hv) as [c Hc]. destruct (findCell_ok p L i c Hrep Hc) as (rest & _ & _ & ->).
    destruct (dropCell_ok p L i c Hrep Hc) as (p' & -> & G1 & G2). eexists _, _, _. split; [done|]. split_and!; auto.
  - unfold read_back. destruct (btreeInitPage_ok ck p L false (ptype p) [] [] 0 0 0 0 Hrep) as (p1 & -> & E). change (truthy SQLITE_OK) with false. cbv iota. rewrite E.
    eexists _, _, _. split; [done|]. split_and!; auto using page_frame_refl.
Qed.

Lemma page_ops_ok ops : forall w p L, page_rep p L -> bytes_ok tempSpace -> usable p <= zlen tempSpace -> ops_valid (pBt p) (ptype p) L ops ->
  exists rc p' w', page_ops w p ops = (rc, p', w') /\
    ((rc = SQLITE_OK /\ let '(L', o) := list_ops (usable p - cellOffset p) L ops in exists q, page_rep q L' /\ page_frame p q /\ p' = with_overflow q o) \/
     (rc <> SQLITE_OK /\ outside_error sqlite3PagerWrite ptrmapPutOvflPtr rc /\ exists before after L', ops = before ++ after /\
        list_ops (usable p - cellOffset p) L before = (L', None) /\ page_rep p' L' /\ page_frame p p')).
Proof.
  induction ops as [|op ops IH]; intros w p L Hrep Ht Hl Hv.
  { exists SQLITE_OK, p, w. split; [done|]. left. split; [done|]. exists p. split_and!; auto using page_frame_refl. }
  destruct Hv as [Hv Hvs]. destruct (page_step_ok w p L op Hrep Ht Hl Hv) as (rc & p' & w' & E & Hrc & G). cbn [page_ops list_ops]. rewrite E.
  destruct (op_overflow _ op L) as [[i c]|] eqn:Eo.
  { destruct G as [-> ->]. change (truthy SQLITE_OK) with false. cbv iota. cbn [with_overflow add_ovfl aiOvfl].
    replace (Nat.eqb _ 0) with false by (symmetry; apply Nat.eqb_neq; rewrite length_app; cbn; lia). eexists _, _, _. split; [done|]. left. split; [done|]. exists p. split_and!; auto using page_frame_refl. }
  destruct G as [Hf G]. destruct (truthy rc) eqn:Erc.
  { exists rc, p', w'. split; [done|]. right. assert (rc <> SQLITE_OK) by (intros ->; done). split; [done|]. split; [destruct Hrc; done|].
    destruct G as [G|[_ ->]].
    - exists [op], ops, (op_list op L). split; [done|]. split; [|done]. cbn [list_ops]. by rewrite Eo.
    - exists [], (op :: ops), L. by split_and!. }
  assert (Erc' : rc = SQLITE_OK) by (unfold truthy in Erc; apply negb_false_iff, Z.eqb_eq in Erc; done).
  destruct G as [G|[G _]]; [|done]. rewrite (proj1 (pr_ovfl _ _ G)). cbn [length Nat.eqb negb].
  pose proof Hf as (_ & F2 & F3 & F4 & F5 & _). assert (Eu : usable p' = usable p) by (unfold usable; by rewrite F5).
  destruct (IH w' p' (op_list op L) G Ht ltac:(lia) ltac:(rewrite F3, F5; done)) as (rc2 & p2 & w2 & E2 & H). rewrite Eu, F4 in H. exists rc2, p2, w2. split; [done|].
  destruct H as [[H1 H2]|(H1 & H2 & before & after & L' & H3 & H4 & H5 & H6)].
  - left. split; [done|]. destruct (list_ops _ _ _) as [L' o]. destruct H2 as (q & Q1 & Q2 & Q3). exists q. split_and!; try done. by eapply page_frame_trans.
  - right. split; [done|]. split; [done|]. exists (op :: before), after, L'. rewrite H3. split; [done|]. cbn [list_ops]. rewrite Eo. split_and!; try done. by eapply page_frame_trans.
Qed.
End runs.
End page_proofs.

(** ** Cells that say how long they are *)

Lemma table_cell_wf pBt t0 t n key body : decodeFlags pBt t0 (Z.lor PTF_LEAFDATA (Z.lor PTF_INTKEY PTF_LEAF)) = (SQLITE_OK, t) -> limits_ok pBt t ->
  0 <= n < 2 ^ 31 -> is_i64 key -> bytes_ok body -> let head := varint_enc n ++ varint_enc (u64 key) in
  zlen (head ++ body) = (if n <=? maxLocal t then Z.max 4 (n + zlen head) else zlen head + local_bytes pBt t n + 4) -> wf_cell pBt t (head ++ body).
Proof.
  intros Hd Hl Hn Hk Hb head Hz. assert (U : is_u64 (u64 key)) by (unfold is_u64, u64; apply Z.mod_pos_bound; lia).
  assert (Hh : bytes_ok head) by (unfold head; auto with sqlite).
  assert (Hlen : 2 <= zlen head <= 18).
  { pose proof (varint_enc_len n ltac:(unfold is_u64; lia)). pose proof (varint_enc_len _ U). unfold head. rewrite zlen_app. lia. }
  pose proof (local_bytes_range pBt t n Hl ltac:(lia)).
  assert (Ht : leaf t = true /\ xParseCell t = ParseCellPtr) by (cbn in Hd; by injection Hd as <-).
  split_and!; [destruct (n <=? maxLocal t); lia|by rewrite (proj1 Ht)|auto with sqlite|].
  intros rest Hr. rewrite (cell_sizes_agree_ok pBt t0 _ t _ Hd Hl) by auto with sqlite. unfold run_xParseCell. rewrite (proj2 Ht), <- app_assoc.
  unfold head. rewrite parse_table_cell by auto with sqlite. fold head. rewrite local_size_ok by (done || lia). cbn [nSize]. by rewrite Hz.
Qed.

(** ** Properties *)

(** What a page shows: its count, its free space and its cells. *)
Definition page_shows (p : MemPage) (L : list (list Z)) : Prop :=
  nCell p = zlen L /\ nFree p = usable p - (cellOffset p + 2 * zlen L) - sizes L /\
  forall i c, L !! i = Some c -> exists rest, findCell p (Z.of_nat i) = c ++ rest.
Definition overflowed (p : MemPage) (o : option (Z * list Z)) : Prop :=
  match o with None => aiOvfl p = [] | Some (i, c) => aiOvfl p = [u16 i] /\ apOvfl p = [c] end.

Lemma page_rep_shows p L o : page_rep p L -> page_shows (with_overflow p o) L /\ overflowed (with_overflow p o) o.
Proof.
  intros Hrep. destruct (page_rep_sizes _ _ Hrep) as (R1 & R2 & _). pose proof (pr_ovfl _ _ Hrep) as [O1 O2].
  assert (Hs : page_shows p L) by (split; [done|split; [done|]]; intros i c Hi; destruct (findCell_ok p L i c Hrep Hi) as (rest & E & _); by exists rest).
  destruct o as [[i c]|]; [|done]. split; [exact Hs|]. cbn [with_overflow add_ovfl overflowed aiOvfl apOvfl]. by rewrite O1, O2.
Qed.
Lemma frame_overflow p q o : page_frame p q -> page_frame p (with_overflow q o).
Proof. by destruct o as [[i c]|]. Qed.

(** C14. Take a page emptied by [zeroPage] and any run of insertions (by either routine),
    removals and readings back from its bytes, each at a valid index and with a well-formed
    cell.  The page then holds exactly the cells of the list on which the same insertions and
    deletions are made, in order; [nFree] is exactly what they leave; the first cell that does
    not fit is set aside with its index and the page is left alone; nothing outside the space
    of the cells changes.  No operation ever finds the page corrupt: an error can only be one
    reported by the pager or the pointer map, and the page then holds the cells of the
    operations before it.  So the free list, fragments and defragmentation lose no byte. *)
Theorem page_refines_list {W : Type} (tempSpace : list Z) (sqlite3PagerWrite : W -> MemPage -> Z * W) (ptrmapPutOvflPtr : W -> MemPage -> list Z -> Z * W)
  (p0 : MemPage) (flags : Z) (t : PageType) (w : W) (ops : list page_op) :
  wf_bt (pBt p0) -> decodeFlags (pBt p0) (ptype p0) flags = (SQLITE_OK, t) -> 0 <= hdrOffset p0 <= 100 ->
  bytes_ok (aData p0) -> usable p0 <= zlen (aData p0) -> bytes_ok tempSpace -> usable p0 <= zlen tempSpace ->
  ops_valid (pBt p0) t [] ops ->
  let room := usable p0 - (hdrOffset p0 + 8 + childPtrSize t) in
  exists rc p w', page_ops tempSpace sqlite3PagerWrite ptrmapPutOvflPtr w (zeroPage p0 flags) ops = (rc, p, w') /\
    page_frame (zeroPage p0 flags) p /\
    ((rc = SQLITE_OK /\ page_shows p (fst (list_ops room [] ops)) /\ overflowed p (snd (list_ops room [] ops))) \/
     (rc <> SQLITE_OK /\ outside_error sqlite3PagerWrite ptrmapPutOvflPtr rc /\
      exists before after L, ops = before ++ after /\ list_ops room [] before = (L, None) /\ page_shows p L)).
Proof.
  intros Hbt Hfl Hh Hb Hu Ht Hl Hv room. destruct (zeroPage_ok p0 flags t Hbt Hfl Hb Hu Hh) as (Hrep & E1 & E2 & E3 & E4).
  assert (Eu : usable (zeroPage p0 flags) = usable p0) by (unfold usable; by rewrite E2).
  assert (Eo : usable (zeroPage p0 flags) - cellOffset (zeroPage p0 flags) = room).
  { destruct (pr_cells _ _ Hrep) as (cs & fr & tp & _ & Hpc). pose proof (proj1 (pc_offset _ _ _ _ Hpc)) as E. rewrite E1, E3 in E. rewrite Eu, E. done. }
  destruct (page_ops_ok tempSpace sqlite3PagerWrite ptrmapPutOvflPtr ops w _ [] Hrep Ht ltac:(lia) ltac:(by rewrite E1, E2)) as (rc & p & w' & E & H). rewrite Eo in H.
  exists rc, p, w'. split; [done|]. destruct H as [[H1 H2]|(H1 & H2 & before & after & L' & H3 & H4 & H5 & H6)].
  - destruct (list_ops room [] ops) as [L' o]. destruct H2 as (q & Q1 & Q2 & ->). split; [by apply frame_overflow|]. left. cbn [fst snd]. split; [done|]. by apply page_rep_shows.
  - split; [done|]. right. split; [done|]. split; [done|]. exists before, after, L'. split_and!; try done. exact (proj1 (page_rep_shows p L' None H5)).
Qed.

Definition example_bt : BtShared := lockBtree_limits false 0 512 512.
Definition example_page : MemPage := mkPage false 2 0 no_type [] [] 0 0 0 0 example_bt (replicate 512 7).
Definition example_ops : list page_op :=
  [InsertFast 0 (varint_enc 3 ++ varint_enc (u64 10) ++ [1; 2; 3]); InsertFast 1 (varint_enc 200 ++ varint_enc (u64 11) ++ replicate 200 4);
   InsertFast 0 (varint_enc 150 ++ varint_enc (u64 5) ++ replicate 150 5); DropAt 1; ReadBack true; DropAt 1;
   InsertFast 1 (varint_enc 300 ++ varint_enc (u64 12) ++ replicate 300 6); ReadBack false; InsertFast 0 (varint_enc 200 ++ varint_enc (u64 1) ++ replicate 200 9)].

Lemma example_cell n key body : 0 <= n <= 477 -> is_i64 key -> bytes_ok body -> zlen body = n -> 4 <= n + zlen (varint_enc n ++ varint_enc (u64 key)) ->
  wf_cell example_bt (snd (decodeFlags example_bt no_type 13)) (varint_enc n ++ varint_enc (u64 key) ++ body).
Proof.
  intros Hn Hk Hb Hz H4. rewrite app_assoc. apply (table_cell_wf _ no_type); [reflexivity| |lia|done|done|].
  - eapply (lockBtree_limits_ok _ _ _ _ no_type 13); [lia|reflexivity].
  - change (maxLocal _) with 477. rewrite (proj2 (Z.leb_le _ _)), zlen_app, Hz by lia. lia.
Qed.

Lemma page_refines_list_witness : exists p,
  page_ops (replicate 512 0) (fun (w : unit) _ => (SQLITE_OK, w)) (fun w _ _ => (SQLITE_OK, w)) tt (zeroPage example_page 13) example_ops = (SQLITE_OK, p, tt) /\
  nCell p = 2 /\ aiOvfl p = [0].
Proof.
  destruct (page_refines_list (replicate 512 0) (fun (w : unit) _ => (SQLITE_OK, w)) (fun w _ _ => (SQLITE_OK, w)) example_page 13 (snd (decodeFlags example_bt no_type 13)) tt example_ops)
    as (rc & p & [] & E & _ & H).
  - split; [exists 9; split; [lia|reflexivity]|cbn; lia].
  - reflexivity.
  - cbn. lia.
  - apply Forall_replicate. unfold is_u8. lia.
  - cbn. unfold zlen. cbn. lia.
  - apply Forall_replicate. unfold is_u8. lia.
  - unfold zlen. cbn. lia.
  - unfold example_ops. cbn [ops_valid op_valid]. repeat match goal with |- _ /\ _ => split end;
      first [exact I|apply example_cell; [lia|unfold is_i64; lia|by_compute|reflexivity|by_compute]|by_compute|vm_compute; lia].
  - exists p. destruct H as [(-> & (Hn & _) & Ho)|(Hrc & Ho & _)].
    2: { exfalso. apply Hrc. symmetry. destruct Ho as [(? & ? & Ho)|(? & ? & ? & Ho)]; exact Ho. }
    split; [exact E|]. split; [rewrite Hn; by_compute|]. destruct Ho as [Ho _]. rewrite Ho. reflexivity.
Defined.
