(* ===== verification/BtreeFile.v ===== *)
(** The pages that a b-tree file gives away and takes back (btree.c section of sqlite3.c): the
    pointer map, the list of free pages with its trunks and leaves, [allocateBtreePage] and
    [freePage2].

    The file is a finite map from page numbers to page images, as the pager shows them to
    this connection; a call of the pager takes the next of its [answers], which are any
    result codes.  This file holds the definitions and the rules for reasoning about a
    computation ([ends]); BtreeFree and BtreeAlloc prove them right. *)

From S2P Require Import Prelude Bits Varint Numeric Regions BtreeCell BtreePage BtreeSpace.

(** ** The file *)

(** [pinned] are the pages to which other code holds references; page 1 is always held. *)
Record Db := mkDb {
  bt : BtShared; nPage : Z; bDoTruncate : bool; pages : gmap Z (list Z);
  hasContent : option (Z * gset Z); inited : gset Z; dontWrite : gset Z; pinned : gset Z; answers : list Z }.

Definition set_pages (db : Db) (m : gmap Z (list Z)) : Db :=
  mkDb (bt db) (nPage db) (bDoTruncate db) m (hasContent db) (inited db) (dontWrite db) (pinned db) (answers db).
Definition set_nPage (db : Db) (n : Z) : Db :=
  mkDb (bt db) n (bDoTruncate db) (pages db) (hasContent db) (inited db) (dontWrite db) (pinned db) (answers db).
Definition set_hasContent (db : Db) (h : option (Z * gset Z)) : Db :=
  mkDb (bt db) (nPage db) (bDoTruncate db) (pages db) h (inited db) (dontWrite db) (pinned db) (answers db).
Definition clear_init (db : Db) (pgno : Z) : Db :=
  mkDb (bt db) (nPage db) (bDoTruncate db) (pages db) (hasContent db) (inited db ∖ {[pgno]}) (dontWrite db) (pinned db) (answers db).
Definition dont_write (db : Db) (pgno : Z) : Db :=
  mkDb (bt db) (nPage db) (bDoTruncate db) (pages db) (hasContent db) (inited db) ({[pgno]} ∪ dontWrite db) (pinned db) (answers db).
Definition set_answers (db : Db) (l : list Z) : Db :=
  mkDb (bt db) (nPage db) (bDoTruncate db) (pages db) (hasContent db) (inited db) (dontWrite db) (pinned db) l.

(** A computation ends with a result code that is not [SQLITE_OK], or with a value. *)
Definition btm (A : Type) : Type := Db -> (Z + A) * Db.
#[global] Instance btm_ret : MRet btm := fun A x db => (inr x, db).
#[global] Instance btm_bind : MBind btm := fun A B k m db =>
  match m db with (inr x, db) => k x db | (inl rc, db) => (inl rc, db) end.
Definition fail {A} (rc : Z) : btm A := fun db => (inl rc, db).
Definition get_db : btm Db := fun db => (inr db, db).
Definition upd (f : Db -> Db) : btm unit := fun db => (inr tt, f db).

(** The next answer of the pager: [true] for success or found. *)
Definition answer : btm Z := fun db =>
  match answers db with [] => (inr SQLITE_OK, db) | rc :: l => (inr rc, set_answers db l) end.
Definition pager_call : btm unit := rc ← answer; if truthy rc then fail rc else mret tt.
Definition found : btm bool := rc ← answer; mret (negb (truthy rc)).

Definition page (pgno : Z) : btm (list Z) :=
  db ← get_db; mret (default (replicate (Z.to_nat (pageSize (bt db))) 0) (pages db !! pgno)).
Definition set_page (pgno : Z) (d : list Z) : btm unit := upd (fun db => set_pages db (<[pgno := d]> (pages db))).

Definition get4byte (d : list Z) (i : Z) : Z := sqlite3Get4byte (slice d i 4).
Definition put4byte (d : list Z) (i v : Z) : list Z := splice d i (sqlite3Put4byte (slice d i 4) v).
Definition get4 (pgno i : Z) : btm Z := d ← page pgno; mret (get4byte d i).
Definition put4 (pgno i v : Z) : btm unit := d ← page pgno; set_page pgno (put4byte d i v).

Definition PENDING_BYTE_PAGE (b : BtShared) : Z := 0x40000000 / pageSize b + 1.

(** [sqlite3PagerWrite] and [btreeGetPage], with what they check of the number. *)
Definition sqlite3PagerWrite (pgno : Z) : btm unit := pager_call.
Definition btreeGetPage (pgno : Z) (noContent : bool) : btm unit :=
  if pgno =? 0 then fail SQLITE_CORRUPT
  else
    pager_call;;
    db ← get_db;
    if pgno =? PENDING_BYTE_PAGE (bt db) then fail SQLITE_CORRUPT
    else if noContent then set_page pgno (replicate (Z.to_nat (pageSize (bt db))) 0) else mret tt.

(** [held] are the pages to which the caller has references. *)
Definition btreeGetUnusedPage (held : list Z) (pgno : Z) (noContent : bool) : btm unit :=
  btreeGetPage pgno noContent;;
  db ← get_db;
  if bool_decide (pgno ∈ held) || bool_decide (pgno ∈ pinned db) then fail SQLITE_CORRUPT
  else upd (fun db => clear_init db pgno).

(** ** The pointer map *)

Definition PTRMAP_FREEPAGE : Z := 2.
Definition PTRMAP_OVERFLOW1 : Z := 3.
Definition PTRMAP_OVERFLOW2 : Z := 4.

Definition ptrmapPageno (b : BtShared) (pgno : Z) : Z :=
  if pgno <? 2 then 0
  else
    let nPagesPerMapPage := usableSize b / 5 + 1 in
    let iPtrMap := (pgno - 2) / nPagesPerMapPage in
    let ret := iPtrMap * nPagesPerMapPage + 2 in
    if ret =? PENDING_BYTE_PAGE b then ret + 1 else ret.
Definition PTRMAP_PTROFFSET (pgptrmap pgno : Z) : Z := i32 (5 * (pgno - pgptrmap - 1)).
Definition PTRMAP_ISPAGE (b : BtShared) (pgno : Z) : bool := ptrmapPageno b pgno =? pgno.

Definition ptrmapPut (key eType parent : Z) : btm unit :=
  db ← get_db;
  if key =? 0 then fail SQLITE_CORRUPT
  else
    let iPtrmap := ptrmapPageno (bt db) key in
    btreeGetPage iPtrmap false;;
    db ← get_db;
    if bool_decide (iPtrmap ∈ inited db) then fail SQLITE_CORRUPT
    else
      let offset := PTRMAP_PTROFFSET iPtrmap key in
      if offset <? 0 then fail SQLITE_CORRUPT
      else
        pPtrmap ← page iPtrmap;
        if negb (eType =? pPtrmap.[offset]) || negb (get4byte pPtrmap (offset + 1) =? parent) then
          sqlite3PagerWrite iPtrmap;;
          set_page iPtrmap (put4byte (pPtrmap.[offset <- eType]) (offset + 1) parent)
        else mret tt.

Definition ptrmapGet (key : Z) : btm (Z * Z) :=
  db ← get_db;
  let iPtrmap := ptrmapPageno (bt db) key in
  btreeGetPage iPtrmap false;;
  let offset := PTRMAP_PTROFFSET iPtrmap key in
  if offset <? 0 then fail SQLITE_CORRUPT
  else
    pPtrmap ← page iPtrmap;
    let eType := pPtrmap.[offset] in
    if (eType <? 1) || (5 <? eType) then fail SQLITE_CORRUPT
    else mret (eType, get4byte pPtrmap (offset + 1)).

(** ** Which freed pages have content to be rolled back *)

Definition btreeSetHasContent (pgno : Z) : btm unit :=
  db ← get_db;
  (match hasContent db with
   | None => pager_call;; upd (fun db => set_hasContent db (Some (nPage db, ∅)))
   | Some _ => mret tt
   end);;
  db ← get_db;
  match hasContent db with
  | Some (size, s) => if pgno <=? size then pager_call;; upd (fun db => set_hasContent db (Some (size, {[pgno]} ∪ s))) else mret tt
  | None => mret tt
  end.
Definition btreeGetHasContent (db : Db) (pgno : Z) : bool :=
  match hasContent db with Some (size, s) => (size <? pgno) || bool_decide (pgno ∈ s) | None => false end.

(** ** Allocation *)

Inductive alloc_mode := BTALLOC_ANY | BTALLOC_EXACT | BTALLOC_LE.
#[global] Instance alloc_mode_eq : EqDecision alloc_mode.
Proof. solve_decision. Defined.

(** Where the link to the trunk after [pPrevTrunk] is: in page 1 if there is none before. *)
Definition trunk_link (pPrevTrunk : Z) : Z * Z := if pPrevTrunk =? 0 then (1, 32) else (pPrevTrunk, 0).

(** [memcpy(&pPage1->aData[32], &pTrunk->aData[0], 4)] *)
Definition copy4 (dst i src j : Z) : btm unit := s ← page src; d ← page dst; set_page dst (splice d i (slice s j 4)).

(** The trunk has no leaves and is the page. *)
Definition take_trunk (iTrunk : Z) : btm Z :=
  sqlite3PagerWrite iTrunk;; copy4 1 32 iTrunk 0;; mret iTrunk.

(** A leaf becomes a trunk with the leaves after the first. *)
Definition make_trunk (iNewTrunk iTrunk k : Z) : btm unit :=
  sqlite3PagerWrite iNewTrunk;;
  copy4 iNewTrunk 0 iTrunk 0;;
  put4 iNewTrunk 4 (k - 1);;
  t ← page iTrunk;
  d ← page iNewTrunk;
  set_page iNewTrunk (splice d 8 (slice t 12 ((k - 1) * 4))).

(** The trunk is the page that was searched for. *)
Definition take_searched_trunk (pPrevTrunk iTrunk k mxPage : Z) : btm Z :=
  sqlite3PagerWrite iTrunk;;
  let '(pg, off) := trunk_link pPrevTrunk in
  if k =? 0 then
    (if pPrevTrunk =? 0 then mret tt else sqlite3PagerWrite pPrevTrunk);;
    copy4 pg off iTrunk 0;; mret iTrunk
  else
    iNewTrunk ← get4 iTrunk 8;
    if mxPage <? iNewTrunk then fail SQLITE_CORRUPT
    else
      btreeGetUnusedPage [1; pPrevTrunk; iTrunk] iNewTrunk false;;
      make_trunk iNewTrunk iTrunk k;;
      (if pPrevTrunk =? 0 then mret tt else sqlite3PagerWrite pPrevTrunk);;
      put4 pg off iNewTrunk;; mret iTrunk.

(** The leaf to take: the nearest, or the first that is not above [nearby]. *)
Fixpoint first_below (n : nat) (t : list Z) (nearby i : Z) : Z :=
  match n with
  | O => 0
  | S n => if get4byte t (8 + i * 4) <=? nearby then i else first_below n t nearby (i + 1)
  end.
Definition dist_to (t : list Z) (nearby i : Z) : Z := sqlite3AbsInt32 (i32 (get4byte t (8 + i * 4) - nearby)).
Fixpoint nearest (n : nat) (t : list Z) (nearby i closest dist : Z) : Z :=
  match n with
  | O => closest
  | S n =>
      let d2 := dist_to t nearby i in
      if d2 <? dist then nearest n t nearby (i + 1) i d2 else nearest n t nearby (i + 1) closest dist
  end.
Definition closest_leaf (t : list Z) (k nearby : Z) (eMode : alloc_mode) : Z :=
  if 0 <? nearby then
    if bool_decide (eMode = BTALLOC_LE) then first_below (Z.to_nat k) t nearby 0
    else nearest (Z.to_nat (k - 1)) t nearby 1 0 (dist_to t nearby 0)
  else 0.

Definition take_leaf (held : list Z) (iTrunk k closest iPage : Z) : btm Z :=
  sqlite3PagerWrite iTrunk;;
  (if closest <? k - 1 then copy4 iTrunk (8 + closest * 4) iTrunk (4 + k * 4) else mret tt);;
  put4 iTrunk 4 (k - 1);;
  db ← get_db;
  btreeGetUnusedPage held iPage (negb (btreeGetHasContent db iPage));;
  sqlite3PagerWrite iPage;; mret iPage.

(** [do ... while( searchList )] *)
Fixpoint search_trunks (fuel : nat) (eMode : alloc_mode) (nearby n mxPage : Z) (searchList : bool) (pPrevTrunk nSearch : Z) : btm Z :=
  match fuel with
  | O => fail SQLITE_CORRUPT
  | S fuel =>
      let '(pg, off) := trunk_link pPrevTrunk in
      iTrunk ← get4 pg off;
      if (mxPage <? iTrunk) || (n <? nSearch) then fail SQLITE_CORRUPT
      else
        btreeGetUnusedPage [1; pPrevTrunk] iTrunk false;;
        t ← page iTrunk;
        let k := get4byte t 4 in
        let wanted i := (nearby =? i) || ((i <? nearby) && bool_decide (eMode = BTALLOC_LE)) in
        db ← get_db;
        if (k =? 0) && negb searchList then take_trunk iTrunk
        else if u32 (usableSize (bt db) / 4 - 2) <? k then fail SQLITE_CORRUPT
        else if searchList && wanted iTrunk then take_searched_trunk pPrevTrunk iTrunk k mxPage
        else if 0 <? k then
          let closest := closest_leaf t k nearby eMode in
          let iPage := get4byte t (8 + closest * 4) in
          if (mxPage <? iPage) || (iPage <? 2) then fail SQLITE_CORRUPT
          else if negb searchList || wanted iPage then take_leaf [1; pPrevTrunk; iTrunk] iTrunk k closest iPage
          else search_trunks fuel eMode nearby n mxPage true iTrunk (nSearch + 1)
        else search_trunks fuel eMode nearby n mxPage searchList iTrunk (nSearch + 1)
  end.

(** [pBt->nPage++], past the page that holds the locks. *)
Definition next_page (b : BtShared) (n : Z) : Z :=
  let n := u32 (n + 1) in if n =? PENDING_BYTE_PAGE b then u32 (n + 1) else n.

Definition extend_file : btm Z :=
  db ← get_db;
  let noContent := negb (bDoTruncate db) in
  sqlite3PagerWrite 1;;
  upd (fun db => set_nPage db (next_page (bt db) (nPage db)));;
  db ← get_db;
  (if autoVacuum (bt db) && PTRMAP_ISPAGE (bt db) (nPage db) then
     btreeGetUnusedPage [1] (nPage db) noContent;;
     sqlite3PagerWrite (nPage db);;
     upd (fun db => set_nPage db (next_page (bt db) (nPage db)))
   else mret tt);;
  db ← get_db;
  put4 1 28 (nPage db);;
  btreeGetUnusedPage [1] (nPage db) noContent;;
  sqlite3PagerWrite (nPage db);;
  mret (nPage db).

Definition allocateBtreePage (nearby : Z) (eMode : alloc_mode) : btm Z :=
  db ← get_db;
  let mxPage := nPage db in
  n ← get4 1 36;
  if mxPage <=? n then fail SQLITE_CORRUPT
  else if 0 <? n then
    searchList ←
      (if bool_decide (eMode = BTALLOC_EXACT) then
         if nearby <=? mxPage then '(eType, _) ← ptrmapGet nearby; mret (eType =? PTRMAP_FREEPAGE) else mret false
       else mret (bool_decide (eMode = BTALLOC_LE)));
    sqlite3PagerWrite 1;;
    put4 1 36 (n - 1);;
    search_trunks (Z.to_nat n + 3) eMode nearby n mxPage searchList 0 0
  else extend_file.

(** ** Freeing *)

Definition BTS_SECURE_DELETE : Z := 0x0004.

(** The label [freepage_out]: the page is no longer a b-tree page. *)
Definition freepage_out {A} (present : bool) (iPage : Z) (m : btm A) : btm A := fun db =>
  let '(r, db) := m db in (r, if present then clear_init db iPage else db).

(** The page becomes the first trunk. *)
Definition free_new_trunk (present : bool) (iPage iTrunk : Z) : btm unit :=
  (if present then mret tt else btreeGetPage iPage false);;
  freepage_out true iPage (
    sqlite3PagerWrite iPage;;
    put4 iPage 0 iTrunk;;
    put4 iPage 4 0;;
    put4 1 32 iPage).

Definition free_add (present : bool) (iPage nFree : Z) : btm unit :=
  if nFree =? 0 then free_new_trunk present iPage 0
  else
    iTrunk ← get4 1 32;
    db ← get_db;
    if nPage db <? iTrunk then fail SQLITE_CORRUPT
    else
      btreeGetPage iTrunk false;;
      nLeaf ← get4 iTrunk 4;
      let full := u32 (usableSize (bt db)) / 4 in
      if full - 2 <? nLeaf then fail SQLITE_CORRUPT
      else if nLeaf <? full - 8 then
        sqlite3PagerWrite iTrunk;;
        put4 iTrunk 4 (nLeaf + 1);;
        put4 iTrunk (8 + nLeaf * 4) iPage;;
        (if present && negb (truthy (Z.land (btsFlags (bt db)) BTS_SECURE_DELETE)) then upd (fun db => dont_write db iPage) else mret tt);;
        btreeSetHasContent iPage
      else free_new_trunk present iPage iTrunk.

(** [pMemPage] tells whether the caller has the page. *)
Definition freePage2 (pMemPage : bool) (iPage : Z) : btm unit :=
  db ← get_db;
  if (iPage <? 2) || (nPage db <? iPage) then fail SQLITE_CORRUPT
  else
    present ← (if pMemPage then mret true else found);
    freepage_out present iPage (
      sqlite3PagerWrite 1;;
      nFree ← get4 1 36;
      put4 1 36 (nFree + 1);;
      present ←
        (if truthy (Z.land (btsFlags (bt db)) BTS_SECURE_DELETE) then
           (if present then mret tt else btreeGetPage iPage false);;
           freepage_out true iPage (
             sqlite3PagerWrite iPage;;
             set_page iPage (replicate (Z.to_nat (pageSize (bt db))) 0));;
           mret true
         else mret present);
      freepage_out present iPage (
        (if autoVacuum (bt db) then ptrmapPut iPage PTRMAP_FREEPAGE 0 else mret tt);;
        free_add present iPage nFree)).

(** ** Reasoning about computations *)

Definition pg (db : Db) (i : Z) : list Z := default (replicate (Z.to_nat (pageSize (bt db))) 0) (pages db !! i).

(** Errors are answers of the pager, and answers are used up in order. *)
Definition ends {A} (m : btm A) (db : Db) (Q : A -> Db -> Prop) : Prop :=
  match m db with
  | (inr x, db') => Q x db' /\ answers db' `suffix_of` answers db
  | (inl rc, db') => rc ∈ answers db /\ rc <> SQLITE_OK
  end.

Lemma ends_weaken {A} (m : btm A) db (Q Q' : A -> Db -> Prop) : ends m db Q -> (forall x db', Q x db' -> Q' x db') -> ends m db Q'.
Proof. unfold ends. destruct (m db) as [[rc|x] db']; [done|]. intros [H1 H2] H. auto. Qed.
Lemma ends_bind {A B} (m : btm A) (k : A -> btm B) db Q : ends m db (fun x db' => ends (k x) db' Q) -> ends (m ≫= k) db Q.
Proof.
  unfold ends, mbind, btm_bind. destruct (m db) as [[rc|x] db']; [done|]. destruct (k x db') as [[rc|y] db'']; intros [H1 H2].
  - destruct H1. split; [|done]. destruct H2 as [l E]. rewrite E. apply elem_of_app. by right.
  - destruct H1 as [H1 H3]. split; [done|]. by etrans.
Qed.
Lemma ends_ret {A} (x : A) db (Q : A -> Db -> Prop) : Q x db -> ends (mret x) db Q.
Proof. by split. Qed.
Lemma ends_get_db db (Q : Db -> Db -> Prop) : Q db db -> ends get_db db Q.
Proof. by split. Qed.
Lemma ends_upd f db (Q : unit -> Db -> Prop) : answers (f db) = answers db -> Q tt (f db) -> ends (upd f) db Q.
Proof. unfold ends, upd. intros E H. split; [done|by rewrite E]. Qed.
Lemma ends_answer db (Q : Z -> Db -> Prop) : (forall rc l, l `suffix_of` answers db -> (rc = SQLITE_OK \/ rc ∈ answers db) -> Q rc (set_answers db l)) -> ends answer db Q.
Proof.
  unfold ends, answer. intros H. destruct (answers db) as [|rc l] eqn:E.
  - split; [|by rewrite E]. specialize (H SQLITE_OK [] ltac:(done) ltac:(by left)). by rewrite <- E in H; destruct db.
  - split; [|by exists [rc]]. apply H; [by exists [rc]|right; left].
Qed.
Lemma ends_pager_call db (Q : unit -> Db -> Prop) : (forall l, l `suffix_of` answers db -> Q tt (set_answers db l)) -> ends pager_call db Q.
Proof.
  unfold ends, pager_call, mbind, btm_bind, answer. intros H. destruct (answers db) as [|rc l] eqn:E; cbn.
  - split; [|by rewrite E]. specialize (H [] ltac:(done)). by rewrite <- E in H; destruct db.
  - destruct (truthy rc) eqn:Er; cbn.
    + split; [left|]. intros ->. done.
    + split; [|by exists [rc]]. apply H. by exists [rc].
Qed.
Lemma ends_found db (Q : bool -> Db -> Prop) : (forall b l, l `suffix_of` answers db -> Q b (set_answers db l)) -> ends found db Q.
Proof. intros H. apply ends_bind, ends_answer. intros rc l Hl _. apply ends_ret. auto. Qed.
Lemma ends_page i db (Q : list Z -> Db -> Prop) : Q (pg db i) db -> ends (page i) db Q.
Proof. intros H. apply ends_bind, ends_get_db, ends_ret. exact H. Qed.
Lemma ends_set_page i d db (Q : unit -> Db -> Prop) : Q tt (set_pages db (<[i := d]> (pages db))) -> ends (set_page i d) db Q.
Proof. intros H. by apply ends_upd. Qed.
Lemma ends_get4 i j db (Q : Z -> Db -> Prop) : Q (get4byte (pg db i) j) db -> ends (get4 i j) db Q.
Proof. intros H. by apply ends_bind, ends_page, ends_ret. Qed.
Lemma ends_put4 i j v db (Q : unit -> Db -> Prop) : Q tt (set_pages db (<[i := put4byte (pg db i) j v]> (pages db))) -> ends (put4 i j v) db Q.
Proof. intros H. by apply ends_bind, ends_page, ends_set_page. Qed.
Lemma ends_copy4 dst i src j db (Q : unit -> Db -> Prop) :
  Q tt (set_pages db (<[dst := splice (pg db dst) i (slice (pg db src) j 4)]> (pages db))) -> ends (copy4 dst i src j) db Q.
Proof. intros H. by apply ends_bind, ends_page, ends_bind, ends_page, ends_set_page. Qed.
Lemma ends_if {A} (b : bool) (m m' : btm A) db Q : (b = true -> ends m db Q) -> (b = false -> ends m' db Q) -> ends (if b then m else m') db Q.
Proof. destruct b; auto. Qed.
Lemma ends_out {A} (present : bool) (i : Z) (m : btm A) db (Q : A -> Db -> Prop) :
  ends m db (fun x db' => Q x (if present then clear_init db' i else db')) -> ends (freepage_out present i m) db Q.
Proof. unfold ends, freepage_out. destruct (m db) as [[rc|x] db']; [done|]. by destruct present. Qed.

(** One step of a computation. *)
Ltac step :=
  lazymatch goal with
  | |- ends (_ ≫= _) _ _ => apply ends_bind
  | |- ends (mret _) _ _ => apply ends_ret
  | |- ends get_db _ _ => apply ends_get_db
  | |- ends (upd _) _ _ => apply ends_upd; [done|]
  | |- ends (page _) _ _ => apply ends_page
  | |- ends (set_page _ _) _ _ => apply ends_set_page
  | |- ends (get4 _ _) _ _ => apply ends_get4
  | |- ends (put4 _ _ _) _ _ => apply ends_put4
  | |- ends (copy4 _ _ _ _) _ _ => apply ends_copy4
  | |- ends pager_call _ _ => apply ends_pager_call; let l := fresh "l" in let H := fresh "Hl" in intros l H
  | |- ends (sqlite3PagerWrite _) _ _ => unfold sqlite3PagerWrite at 1
  | |- ends (freepage_out _ _ _) _ _ => apply ends_out
  end.

(** ** Four-byte fields *)

Lemma slice4 (d : list Z) i : 0 <= i -> i + 4 <= zlen d -> exists a b c e, slice d i 4 = [a; b; c; e].
Proof.
  intros Hi Hl. assert (L : zlen (slice d i 4) = 4) by (apply zlen_slice; lia).
  destruct (slice d i 4) as [|a [|b [|c [|e [|]]]]]; try (unfold zlen in L; cbn in L; lia). by exists a, b, c, e.
Qed.
Lemma get4_range d i : bytes_ok d -> 0 <= i -> i + 4 <= zlen d -> is_u32 (get4byte d i).
Proof.
  intros Hd Hi Hl. unfold get4byte. destruct (slice4 d i Hi Hl) as (a & b & c & e & E). pose proof (bytes_slice d i 4 Hd) as Hb. rewrite E in *.
  apply Forall_cons in Hb as [Ha Hb]. apply Forall_cons in Hb as [Hb Hc]. apply Forall_cons in Hc as [Hc He]. apply Forall_cons in He as [He _].
  rewrite get4_sum by done. unfold is_u8, is_u32 in *. lia.
Qed.
Lemma put4_slice d i v : 0 <= i -> i + 4 <= zlen d -> zlen (sqlite3Put4byte (slice d i 4) v) = 4 /\ bytes_ok (sqlite3Put4byte (slice d i 4) v).
Proof.
  intros Hi Hl. destruct (slice4 d i Hi Hl) as (a & b & c & e & ->). rewrite put4_splice, splice_0 by done. split; [done|]. cbn [drop app]. repeat constructor; apply u8_range.
Qed.
Lemma same_put4 d i v : 0 <= i -> i + 4 <= zlen d -> same_outside [(i, 4)] d (put4byte d i v).
Proof. intros Hi Hl. destruct (put4_slice d i v Hi Hl) as [L _]. pose proof (same_splice d i (sqlite3Put4byte (slice d i 4) v)) as G. rewrite L in G. by apply G. Qed.
Lemma bytes_put4 d i v : bytes_ok d -> 0 <= i -> i + 4 <= zlen d -> bytes_ok (put4byte d i v).
Proof. intros. apply bytes_spliced; [done|by apply put4_slice]. Qed.
Lemma zlen_put4 d i v : 0 <= i -> i + 4 <= zlen d -> zlen (put4byte d i v) = zlen d.
Proof. intros. by apply (same_put4 d i v). Qed.
Lemma get4byte_put4byte d i v : 0 <= i -> i + 4 <= zlen d -> is_u32 v -> get4byte (put4byte d i v) i = v.
Proof.
  intros Hi Hl Hv. unfold get4byte, put4byte. destruct (put4_slice d i v Hi Hl) as [L _].
  assert (E : slice (splice d i (sqlite3Put4byte (slice d i 4) v)) i 4 = sqlite3Put4byte (slice d i 4) v).
  { apply zlist_ext; [rewrite zlen_slice by (rewrite ?zlen_splice; lia); lia|]. rewrite zlen_slice by (rewrite ?zlen_splice; lia). intros j Hj.
    rewrite zget_slice, zget_splice_in by lia. f_equal. lia. }
  rewrite E. apply get4_of_put4; [done|]. rewrite zlen_slice; lia.
Qed.
Lemma same_get4 mods a b i : same_outside mods a b -> 0 <= i -> i + 4 <= zlen a -> Forall (apart (i, 4)) mods -> get4byte b i = get4byte a i.
Proof. intros Hs Hi Hl Hm. unfold get4byte. by rewrite (same_slice _ _ _ _ _ Hs) by (done || lia). Qed.
#[export] Hint Resolve bytes_put4 : sqlite.
