(* ===== verification/BtreeFree.v ===== *)
(** The list of free pages of a b-tree file: [free_rep] says which pages are on it.  Taking a
    page, by any of the three modes of allocation, and adding one keep the list and touch no
    page that is not on it; the only errors are those of the pager. *)

From S2P Require Import Prelude Bits Varint Numeric Regions BtreeCell BtreePage BtreeSpace BtreeFile.

(** ** The list of free pages *)

Fixpoint words_at (d : list Z) (off : Z) (l : list Z) : Prop :=
  match l with [] => True | x :: l => get4byte d off = x /\ words_at d (off + 4) l end.
Fixpoint trunks_at (f : Z -> list Z) (i : Z) (ts : list (Z * list Z)) : Prop :=
  match ts with
  | [] => i = 0
  | (t, leaves) :: ts => i = t /\ get4byte (f t) 4 = zlen leaves /\ words_at (f t) 8 leaves /\ trunks_at f (get4byte (f t) 0) ts
  end.
Definition free_pages (ts : list (Z * list Z)) : list Z := mjoin ((fun t => t.1 :: t.2) <$> ts).

(** [f] are the images of the pages. *)
Record free_view (b : BtShared) (n : Z) (pin : gset Z) (f : Z -> list Z) (ts : list (Z * list Z)) : Prop := {
  fv_bt : wf_bt b;
  fv_pages : forall i, zlen (f i) = pageSize b /\ bytes_ok (f i);
  fv_chain : trunks_at f (get4byte (f 1) 32) ts;
  fv_count : get4byte (f 1) 36 = zlen (free_pages ts);
  fv_nodup : NoDup (free_pages ts);
  fv_range : Forall (fun i => 2 <= i <= n /\ i ∉ pin /\ i <> PENDING_BYTE_PAGE b) (free_pages ts);
  fv_cap : Forall (fun t => zlen t.2 <= usableSize b / 4 - 2) ts;
  fv_size : 1 <= n < 2 ^ 32 }.
Definition free_rep (db : Db) (ts : list (Z * list Z)) : Prop := free_view (bt db) (nPage db) (pinned db) (pg db) ts.

Lemma free_pages_cons t l ts : free_pages ((t, l) :: ts) = t :: l ++ free_pages ts.
Proof. done. Qed.

Lemma words_frame mods d d' off l : same_outside mods d d' -> Forall (apart (off, 4 * zlen l)) mods -> 0 <= off -> off + 4 * zlen l <= zlen d -> words_at d off l -> words_at d' off l.
Proof.
  intros Hs. revert off. induction l as [|x l IH]; intros off Hm H0 Hl; [done|]. rewrite zlen_cons in *. pose proof (zlen_nonneg l). intros [E Hw]. split.
  - rewrite <- E. apply (same_get4 _ _ _ _ Hs); [lia|lia|]. eapply Forall_impl; [exact Hm|]. intros r Hr. unfold apart in *. cbn [fst snd] in *. lia.
  - apply IH; [|lia|lia|done]. eapply Forall_impl; [exact Hm|]. intros r Hr. unfold apart in *. cbn [fst snd] in *. lia.
Qed.
Lemma words_lookup d off l j x : words_at d off l -> l !! j = Some x -> get4byte d (off + 4 * Z.of_nat j) = x.
Proof.
  revert off j. induction l as [|y l IH]; intros off j Hw Hj; [done|]. destruct Hw as [E Hw]. destruct j as [|j].
  - injection Hj as <-. rewrite <- E. f_equal. lia.
  - rewrite <- (IH _ _ Hw Hj). f_equal. lia.
Qed.
Lemma words_of_lookup d off l : (forall j x, l !! j = Some x -> get4byte d (off + 4 * Z.of_nat j) = x) -> words_at d off l.
Proof.
  revert off. induction l as [|y l IH]; intros off H; [done|]. split.
  - rewrite <- (H 0%nat y eq_refl). f_equal. lia.
  - apply IH. intros j x Hj. rewrite <- (H (S j) x Hj). f_equal. lia.
Qed.

Lemma trunks_frame f f' i ts : (forall t, t ∈ ts.*1 -> f' t = f t) -> trunks_at f i ts -> trunks_at f' i ts.
Proof.
  revert i. induction ts as [|[t l] ts IH]; intros i H; [done|]. intros (E & H1 & H2 & H3).
  rewrite <- (H t ltac:(left)) in H1, H2, H3. split_and!; try done. apply IH; [|done]. intros s Hs. apply H. by right.
Qed.
Lemma trunks_in ts t : t ∈ ts.*1 -> t ∈ free_pages ts.
Proof.
  induction ts as [|[s l] ts IH]; [by intros ?%not_elem_of_nil|]. rewrite free_pages_cons. intros [->|Ht]%elem_of_cons; [left|]. right. apply elem_of_app. auto.
Qed.

(** Fewer pages are free than there are. *)
Lemma free_count_lt b n pin f ts : free_view b n pin f ts -> 0 <= zlen (free_pages ts) < n.
Proof.
  intros Hv. pose proof (fv_size _ _ _ _ _ Hv). split; [apply zlen_nonneg|].
  assert (Hs : free_pages ts ⊆+ seqZ 2 (n - 1)).
  { apply NoDup_submseteq; [apply Hv|]. intros i Hi. pose proof (fv_range _ _ _ _ _ Hv) as Hr. rewrite Forall_forall in Hr. destruct (Hr i Hi). apply elem_of_seqZ. lia. }
  apply submseteq_length in Hs. rewrite length_seqZ in Hs. unfold zlen. lia.
Qed.

Lemma same_splice4 (d : list Z) i l : zlen l = 4 -> 0 <= i -> i + 4 <= zlen d -> same_outside [(i, 4)] d (splice d i l).
Proof. intros L Hi Hl. pose proof (same_splice d i l) as G. rewrite L in G. by apply G. Qed.
Lemma get4_splice (d : list Z) i l : zlen l = 4 -> 0 <= i -> i + 4 <= zlen d -> get4byte (splice d i l) i = sqlite3Get4byte l.
Proof. intros L Hi Hl. unfold get4byte. pose proof (slice_splice d i l) as G. rewrite L in G. by rewrite G. Qed.

(** *** Taking the first trunk, when it has no leaves *)

Lemma view_take_trunk b n pin f t ts f' : free_view b n pin f ((t, []) :: ts) ->
  f' 1 = splice (put4byte (f 1) 36 (zlen (free_pages ts))) 32 (slice (f t) 0 4) -> (forall i, i <> 1 -> f' i = f i) -> free_view b n pin f' ts.
Proof.
  intros Hv E1 Ef. pose proof (free_count_lt _ _ _ _ _ Hv) as Hcl. destruct Hv as [Hb Hp Hc Hn Hd Hr Hk Hs]. destruct (wf_bt_sizes _ Hb) as [P1 P2]. destruct (Hp 1) as [L1 B1]. destruct (Hp t) as [Lt Bt].
  rewrite free_pages_cons in *. cbn [app] in *. rewrite zlen_cons in Hcl. apply Forall_cons in Hr as [Ht Hr]. apply NoDup_cons in Hd as [Hnt Hd]. apply Forall_cons in Hk as [_ Hk].
  assert (L4 : zlen (slice (f t) 0 4) = 4) by (apply zlen_slice; lia).
  set (d1 := put4byte (f 1) 36 _) in *. assert (S1 : same_outside [(36, 4)] (f 1) d1) by (apply same_put4; lia).
  assert (Ld1 : zlen d1 = zlen (f 1)) by apply S1.
  assert (S2 : same_outside [(32, 4)] d1 (f' 1)) by (rewrite E1; apply same_splice4; lia).
  assert (E32 : get4byte (f' 1) 32 = get4byte (f t) 0).
  { rewrite E1, get4_splice by lia. done. }
  split; try done.
  - intros i. destruct (decide (i = 1)) as [->|Hi]; [|by rewrite Ef]. split; [rewrite (proj1 S2); lia|]. rewrite E1. apply bytes_spliced; [apply bytes_put4; (done || lia)|by apply bytes_slice].
  - destruct Hc as (_ & _ & _ & Hc). rewrite E32. apply (trunks_frame f); [|done]. intros s Hs'. apply Ef. intros ->. apply trunks_in in Hs'. rewrite Forall_forall in Hr. destruct (Hr 1 Hs'). lia.
  - rewrite (same_get4 _ _ _ 36 S2) by (try lia; each; solve_apart). unfold d1. pose proof (zlen_nonneg (free_pages ts)). apply get4byte_put4byte; [lia|lia|]. unfold is_u32. lia.
Qed.

(** *** Taking a leaf *)

Definition without_leaf (leaves : list Z) (c : nat) : list Z := take (length leaves - 1) (<[c := default 0 (last leaves)]> leaves).

Lemma without_leaf_perm leaves c x : leaves !! c = Some x -> leaves ≡ₚ x :: without_leaf leaves c.
Proof.
  intros Hc. destruct leaves as [|y l' _] using rev_ind; [done|]. unfold without_leaf. rewrite last_snoc, length_app. cbn [default length].
  replace (length l' + 1 - 1)%nat with (length l') by lia. destruct (decide (c < length l')%nat) as [Hlt|Hge].
  - rewrite insert_app_l by done. rewrite take_app_length' by (by rewrite length_insert). rewrite lookup_app_l in Hc by done.
    pose proof (take_drop_middle l' c x Hc) as E. rewrite insert_take_drop by done. rewrite <- E at 1. rewrite <- (Permutation_cons_append _ y), <- !Permutation_middle. apply Permutation_swap.
  - rewrite lookup_app_r in Hc by lia. destruct (c - length l')%nat as [|m] eqn:Em; [|done]. injection Hc as ->. replace c with (length l' + 0)%nat by lia. rewrite insert_app_r. cbn [insert list_insert app].
    rewrite take_app_length. by rewrite <- Permutation_cons_append.
Qed.

(** *** Changing one trunk *)

Lemma trunks_after f i ts1 p l ts2 : trunks_at f i (ts1 ++ (p, l) :: ts2) ->
  get4byte (f p) 4 = zlen l /\ words_at (f p) 8 l /\ trunks_at f (get4byte (f p) 0) ts2.
Proof. revert i. induction ts1 as [|[s ls] ts1 IH]; intros i; cbn [app trunks_at]; [by intros (_ & H)|]. intros (_ & _ & _ & H). by eapply IH. Qed.
Lemma trunks_replace f f' i ts1 p l l' ts2 ts2' : trunks_at f i (ts1 ++ (p, l) :: ts2) -> (forall t, t ∈ ts1.*1 -> f' t = f t) ->
  get4byte (f' p) 4 = zlen l' -> words_at (f' p) 8 l' -> trunks_at f' (get4byte (f' p) 0) ts2' -> trunks_at f' i (ts1 ++ (p, l') :: ts2').
Proof.
  intros H Hf H4 Hw Ht. revert i H. induction ts1 as [|[s ls] ts1 IH]; intros i; cbn [app trunks_at]; [by intros (E & _)|]. intros (E & H1 & H2 & H3).
  rewrite <- (Hf s ltac:(left)) in H1, H2, H3. split_and!; try done. apply IH; [|done]. intros u Hu. apply Hf. by right.
Qed.
Lemma free_pages_app ts1 ts2 : free_pages (ts1 ++ ts2) = free_pages ts1 ++ free_pages ts2.
Proof. induction ts1 as [|[s l] ts1 IH]; [done|]. cbn [app]. rewrite !free_pages_cons, IH. cbn [app]. by rewrite app_assoc. Qed.

Definition pages_ok (b : BtShared) (f : Z -> list Z) : Prop := forall i, zlen (f i) = pageSize b /\ bytes_ok (f i).
Definition usable_page (b : BtShared) (n : Z) (pin : gset Z) (x : Z) : Prop := 2 <= x <= n /\ x ∉ pin /\ x <> PENDING_BYTE_PAGE b.

Section views.
Context (b : BtShared) (n : Z) (pin : gset Z) (f f' : Z -> list Z) (ts ts' : list (Z * list Z)) (x : Z).
Hypothesis Hv : free_view b n pin f ts.
Hypothesis Hp : pages_ok b f'.
Hypothesis Hc : trunks_at f' (get4byte (f' 1) 32) ts'.
Hypothesis Hn : get4byte (f' 1) 36 = zlen (free_pages ts').
Hypothesis Hk : Forall (fun t => zlen t.2 <= usableSize b / 4 - 2) ts'.

Lemma view_taken : free_pages ts ≡ₚ x :: free_pages ts' -> free_view b n pin f' ts' /\ x ∉ free_pages ts' /\ usable_page b n pin x.
Proof.
  destruct Hv as [Vb Vp Vc Vn Vd Vr Vk Vs]. intros E. rewrite E in Vd, Vr. apply NoDup_cons in Vd as [V1 Vd]. apply Forall_cons in Vr as [V2 Vr]. done.
Qed.
Lemma view_added : free_pages ts' ≡ₚ x :: free_pages ts -> x ∉ free_pages ts -> usable_page b n pin x -> free_view b n pin f' ts'.
Proof.
  destruct Hv as [Vb Vp Vc Vn Vd Vr Vk Vs]. intros E Hx Hu. split; try done; rewrite E; [by apply NoDup_cons|by apply Forall_cons].
Qed.
End views.

(** A page on the list is not page 1, and the trunks are different. *)
Lemma view_split b n pin f ts1 t l ts2 : free_view b n pin f (ts1 ++ (t, l) :: ts2) ->
  t <> 1 /\ 1 ∉ l /\ (forall s, s ∈ ts1.*1 -> s <> t /\ s <> 1 /\ s ∉ l) /\ (forall s, s ∈ ts2.*1 -> s <> t /\ s <> 1 /\ s ∉ l) /\ t ∉ l /\
  zlen l <= usableSize b / 4 - 2 /\ usable_page b n pin t /\ Forall (usable_page b n pin) l.
Proof.
  intros [Vb Vp Vc Vn Vd Vr Vk Vs]. rewrite free_pages_app, free_pages_cons in *. apply Forall_app in Vr as [R1 R2]. apply Forall_cons in R2 as [Rt R2]. apply Forall_app in R2 as [Rl R2].
  apply NoDup_app in Vd as (D1 & D12 & D2). apply NoDup_cons in D2 as [Dt D2]. apply NoDup_app in D2 as (Dl & Dl2 & D2). apply Forall_app in Vk as [_ Vk]. apply Forall_cons in Vk as [Vk _].
  rewrite Forall_forall in R1, R2. assert (H1 : 1 ∉ l) by (intros H; rewrite Forall_forall in Rl; destruct (Rl 1 H); lia).
  split_and!; try done; try lia.
  - intros s Hs%trunks_in. specialize (R1 s Hs). specialize (D12 s Hs). rewrite not_elem_of_cons, not_elem_of_app in D12. destruct D12 as (? & ? & ?). split_and!; try done. lia.
  - intros s Hs%trunks_in. specialize (R2 s Hs). rewrite not_elem_of_app in Dt. destruct Dt as [_ Dt]. split_and!; [by intros ->|lia|]. intros Hl. by apply (Dl2 s).
  - rewrite not_elem_of_app in Dt. by destruct Dt.
Qed.

(** *** Taking a leaf *)

Definition trunk_without (d : list Z) (k c : Z) : list Z :=
  put4byte (if c <? k - 1 then splice d (8 + c * 4) (slice d (4 + k * 4) 4) else d) 4 (k - 1).

Lemma zlen_without (l : list Z) (c : nat) : (c < length l)%nat -> zlen (without_leaf l c) = zlen l - 1.
Proof. intros Hc. unfold zlen, without_leaf. rewrite length_take, length_insert. lia. Qed.

Lemma trunk_without_ok d (l : list Z) (c : nat) : bytes_ok d -> (c < length l)%nat -> 8 + 4 * zlen l <= zlen d -> zlen d <= 65536 -> words_at d 8 l ->
  let d' := trunk_without d (zlen l) (Z.of_nat c) in
  zlen d' = zlen d /\ bytes_ok d' /\ get4byte d' 0 = get4byte d 0 /\ get4byte d' 4 = zlen l - 1 /\ words_at d' 8 (without_leaf l c).
Proof.
  intros Hb Hc Hl H6 Hw d'. assert (Hz : zlen l = Z.of_nat (length l)) by done.
  set (d1 := if Z.of_nat c <? zlen l - 1 then splice d (8 + Z.of_nat c * 4) (slice d (4 + zlen l * 4) 4) else d) in *.
  assert (S1 : same_outside [(8 + Z.of_nat c * 4, 4)] d d1).
  { unfold d1. destruct (Z.of_nat c <? zlen l - 1) eqn:E; [|done]. apply same_splice4; [apply zlen_slice; lia|lia|lia]. }
  assert (L1 : zlen d1 = zlen d) by apply S1. assert (S2 : same_outside [(4, 4)] d1 d') by (apply (same_put4 d1); lia). assert (L2 : zlen d' = zlen d) by (rewrite (proj1 S2); lia).
  split_and!; [done| | | |].
  - apply (bytes_put4 d1); [|lia|lia]. unfold d1. destruct (_ <? _); [|done]. apply bytes_spliced; [done|by apply bytes_slice].
  - rewrite (same_get4 _ _ _ 0 S2), (same_get4 _ _ _ 0 S1) by (try lia; each; solve_apart). done.
  - apply (get4byte_put4byte d1); [lia|lia|]. unfold is_u32. lia.
  - apply words_of_lookup. intros j y Hj. unfold without_leaf in Hj. apply lookup_take_Some in Hj as [Hj Hjk].
    rewrite (same_get4 _ _ _ _ S2) by (try lia; each; solve_apart).
    destruct (decide (j = c)) as [->|Hne].
    + rewrite list_lookup_insert in Hj. destruct (decide _) as [_|[]]; [|lia]. injection Hj as <-. unfold d1. replace (Z.of_nat c <? zlen l - 1) with true by lia.
      replace (8 + 4 * Z.of_nat c) with (8 + Z.of_nat c * 4) by lia. rewrite get4_splice by (try apply zlen_slice; lia).
      destruct (last l) as [z|] eqn:El; [|apply last_None in El; subst l; cbn in Hc; lia]. rewrite last_lookup in El. rewrite <- (words_lookup _ _ _ _ _ Hw El). unfold get4byte. cbn [from_option id]. do 2 f_equal. lia.
    + rewrite list_lookup_insert_ne in Hj by done. rewrite (same_get4 _ _ _ _ S1) by (try lia; each; solve_apart). by apply words_lookup with (l := l).
Qed.

(** ** Allocation *)

Definition same_file (db db' : Db) : Prop := bt db' = bt db /\ nPage db' = nPage db /\ pinned db' = pinned db.
Definition zeros (b : BtShared) : list Z := replicate (Z.to_nat (pageSize b)) 0.

Lemma pg_set db i d j : pg (set_pages db (<[i := d]> (pages db))) j = if decide (j = i) then d else pg db j.
Proof. unfold pg. cbn [pages bt set_pages]. destruct (decide (j = i)) as [->|Hj]; [by rewrite lookup_insert_eq|by rewrite lookup_insert_ne]. Qed.
Lemma zeros_ok b : wf_bt b -> zlen (zeros b) = pageSize b /\ bytes_ok (zeros b).
Proof.
  intros Hb. destruct (wf_bt_sizes _ Hb). unfold zeros. split; [unfold zlen; rewrite length_replicate; lia|]. apply Forall_replicate. done.
Qed.
Lemma ends_use {A B} (m : btm A) (k : A -> btm B) db (P : A -> Db -> Prop) (Q : B -> Db -> Prop) :
  ends m db P -> (forall x db', P x db' -> ends (k x) db' Q) -> ends (m ≫= k) db Q.
Proof. intros H1 H2. by apply ends_bind, (ends_weaken _ _ P). Qed.

(** The page that is asked for is shown, with its content or with zeros. *)
Definition shown (db db' : Db) (x : Z) : Prop :=
  same_file db db' /\ (forall i, i <> x -> pg db' i = pg db i) /\ (pg db' x = pg db x \/ pg db' x = zeros (bt db)).

Lemma getUnused_ok held x nc db : usable_page (bt db) (nPage db) (pinned db) x -> x ∉ held ->
  ends (btreeGetUnusedPage held x nc) db (fun _ db' => shown db db' x /\ inited db' = inited db ∖ {[x]} /\ (nc = false -> pg db' x = pg db x) /\ hasContent db' = hasContent db).
Proof.
  intros (H1 & H2 & H3) Hh. unfold btreeGetUnusedPage, btreeGetPage. replace (x =? 0) with false by lia.
  repeat step. cbn [bt set_answers]. replace (x =? PENDING_BYTE_PAGE (bt db)) with false by lia. destruct nc; repeat step; cbn [pinned set_answers set_pages];
    rewrite !bool_decide_eq_false_2 by done; cbn [orb]; repeat step; cbn [clear_init inited set_answers set_pages hasContent]; (split_and!; [|done|done|done]).
  - pose proof (pg_set (set_answers db l) x (zeros (bt db))) as E. split; [done|]. split; [intros i Hi|right].
    + etrans; [apply E|]. by destruct (decide _).
    + etrans; [apply E|]. by destruct (decide _).
  - split; [done|]. split; [done|by left].
Qed.

Lemma take_leaf_ok held t k c x db : usable_page (bt db) (nPage db) (pinned db) x -> x ∉ held -> x <> t ->
  ends (take_leaf held t k c x) db (fun r db' => r = x /\ same_file db db' /\ x ∉ inited db' /\ pg db' t = trunk_without (pg db t) k c /\
    (forall i, i <> t -> i <> x -> pg db' i = pg db i) /\ (pg db' x = pg db x \/ pg db' x = zeros (bt db))).
Proof.
  intros Hx Hh Hxt. unfold take_leaf.
  apply (ends_use _ _ _ (fun _ db1 => same_file db db1 /\ forall i, pg db1 i = pg db i)); [by repeat step|].
  intros [] db1 [(F1 & F2 & F3) P1].
  apply (ends_use _ _ _ (fun _ db2 => same_file db1 db2 /\ pg db2 t = (if c <? k - 1 then splice (pg db1 t) (8 + c * 4) (slice (pg db1 t) (4 + k * 4) 4) else pg db1 t) /\ forall i, i <> t -> pg db2 i = pg db1 i)).
  { destruct (c <? k - 1); repeat step; (split; [done|]); [|done]. split; [|intros i Hi]; rewrite pg_set; by destruct (decide _). }
  intros [] db2 [(G1 & G2 & G3) [P2 Q2]].
  apply (ends_use _ _ _ (fun _ db3 => same_file db2 db3 /\ pg db3 t = put4byte (pg db2 t) 4 (k - 1) /\ forall i, i <> t -> pg db3 i = pg db2 i)).
  { repeat step. split; [done|]. split; [|intros i Hi]; rewrite pg_set; by destruct (decide _). }
  intros [] db3 [(I1 & I2 & I3) [P3 Q3]]. repeat step. eapply ends_weaken; [apply getUnused_ok; [by rewrite I1, I2, I3, G1, G2, G3, F1, F2, F3|done]|].
  intros [] db4 [((J1 & J2 & J3) & J4 & J5) [J6 _]]. repeat step. split_and!; [done| |cbn [inited set_answers]; rewrite J6; set_solver| | |].
  - split_and!; cbn [bt nPage pinned set_answers]; congruence.
  - change (pg db4 t = trunk_without (pg db t) k c). rewrite J4 by done. rewrite P3, P2, !P1. done.
  - intros i Hi Hi'. change (pg db4 i = pg db i). by rewrite J4, Q3, Q2, P1.
  - change (pg db4 x = pg db x \/ pg db4 x = zeros (bt db)). rewrite Q3, Q2, P1 in J5 by done. rewrite I1, G1, F1 in J5. done.
Qed.

(** *** The leaf that is nearest *)

(** Whether a search ends with a page. *)
Definition wanted (eMode : alloc_mode) (nearby i : Z) : bool := (nearby =? i) || ((i <? nearby) && bool_decide (eMode = BTALLOC_LE)).

Lemma first_below_spec m t nearby i : let c := first_below m t nearby i in
  (i <= c < i + Z.of_nat m \/ c = 0) /\ ((exists j, i <= j < i + Z.of_nat m /\ get4byte t (8 + j * 4) <= nearby) -> i <= c < i + Z.of_nat m /\ get4byte t (8 + c * 4) <= nearby).
Proof.
  revert i. induction m as [|m IH]; intros i; cbn [first_below]; [split; [by right|]; intros (j & Hj & _); lia|].
  destruct (get4byte t (8 + i * 4) <=? nearby) eqn:E.
  - split; [left; lia|]. intros _. split; lia.
  - destruct (IH (i + 1)) as [H1 H2]. split; [destruct H1; [left; lia|by right]|]. intros (j & Hj & Hle).
    destruct H2 as [H2 H3]; [|split; [lia|done]]. exists j. split; [|done]. destruct (decide (j = i)) as [->|]; lia.
Qed.

Lemma nearest_spec m t nearby i c : 0 <= c < i -> let r := nearest m t nearby i c (dist_to t nearby c) in
  0 <= r < i + Z.of_nat m /\ dist_to t nearby r <= dist_to t nearby c /\ forall j, i <= j < i + Z.of_nat m -> dist_to t nearby r <= dist_to t nearby j.
Proof.
  revert i c. induction m as [|m IH]; intros i c Hc; cbn [nearest]; [split_and!; [lia|lia|lia|]; intros j Hj; lia|].
  destruct (dist_to t nearby i <? dist_to t nearby c) eqn:E; cbn zeta.
  - destruct (IH (i + 1) i ltac:(lia)) as (H1 & H2 & H3). split_and!; try lia. intros j Hj. destruct (decide (j = i)) as [->|]; [lia|]. apply H3. lia.
  - destruct (IH (i + 1) c ltac:(lia)) as (H1 & H2 & H3). split_and!; try lia. intros j Hj. destruct (decide (j = i)) as [->|]; [lia|]. apply H3. lia.
Qed.
Lemma dist_nonneg t nearby j : 0 <= dist_to t nearby j.
Proof. unfold dist_to, sqlite3AbsInt32. destruct (0 <=? _) eqn:E; [lia|]. destruct (_ =? _) eqn:E'; [lia|]. lia. Qed.
Lemma dist_zero t nearby j : is_u32 (get4byte t (8 + j * 4)) -> is_u32 nearby -> (dist_to t nearby j = 0 <-> get4byte t (8 + j * 4) = nearby).
Proof.
  unfold is_u32, dist_to. intros H1 H2. split.
  - intros E. assert (E0 : i32 (get4byte t (8 + j * 4) - nearby) = 0).
    { unfold sqlite3AbsInt32 in E. destruct (0 <=? _) eqn:E1; [done|]. destruct (_ =? _) eqn:E2; lia. }
    unfold i32 in E0. change (2 ^ 32) with 4294967296 in *. change (2 ^ 31) with 2147483648 in *. Z.to_euclidean_division_equations. lia.
  - intros ->. by rewrite Z.sub_diag.
Qed.

(** If a leaf is wanted, the one that is chosen is. *)
Lemma closest_leaf_ok t (l : list Z) nearby eMode : bytes_ok t -> 8 + 4 * zlen l <= zlen t -> words_at t 8 l -> l <> [] -> is_u32 nearby ->
  exists c x, closest_leaf t (zlen l) nearby eMode = Z.of_nat c /\ l !! c = Some x /\ (0 < nearby -> (exists y, y ∈ l /\ wanted eMode nearby y = true) -> wanted eMode nearby x = true).
Proof.
  intros Hb Hl Hw Hne Hnb. assert (Hk : zlen l = Z.of_nat (length l)) by done. assert (Hpos : (0 < length l)%nat) by (destruct l; [done|cbn; lia]).
  assert (Hget : forall j x, l !! j = Some x -> get4byte t (8 + Z.of_nat j * 4) = x) by (intros j x Hj; rewrite <- (words_lookup _ _ _ _ _ Hw Hj); f_equal; lia).
  assert (Hin : forall r, 0 <= r < zlen l -> exists x, l !! Z.to_nat r = Some x /\ get4byte t (8 + r * 4) = x).
  { intros r Hr. destruct (lookup_lt_is_Some_2 l (Z.to_nat r)) as [x Hx]; [lia|]. exists x. split; [done|]. rewrite <- (Hget _ _ Hx). f_equal. lia. }
  set (r := closest_leaf t (zlen l) nearby eMode). enough (H : 0 <= r < zlen l /\ (0 < nearby -> (exists y, y ∈ l /\ wanted eMode nearby y = true) -> wanted eMode nearby (get4byte t (8 + r * 4)) = true)).
  { destruct H as [H1 H2]. destruct (Hin r H1) as (x & Hx & E). exists (Z.to_nat r), x. rewrite E in H2. split_and!; [lia|done|done]. }
  unfold r, closest_leaf. destruct (0 <? nearby) eqn:Epos; [|split; lia]. destruct (decide (eMode = BTALLOC_LE)) as [->|HLE].
  - rewrite bool_decide_eq_true_2 by done. destruct (first_below_spec (Z.to_nat (zlen l)) t nearby 0) as [H1 H2]. split; [lia|]. intros _ (y & Hy & Hwy).
    apply list_elem_of_lookup in Hy as [j Hj]. pose proof (lookup_lt_Some _ _ _ Hj). unfold wanted in *. rewrite bool_decide_eq_true_2 in * by done. destruct H2 as [_ H2]; [|lia].
    exists (Z.of_nat j). rewrite (Hget _ _ Hj). lia.
  - rewrite bool_decide_eq_false_2 by done.
    destruct (nearest_spec (Z.to_nat (zlen l - 1)) t nearby 1 0 ltac:(lia)) as (H1 & H2 & H3). set (c := nearest _ _ _ _ _ _) in *. split; [lia|]. intros _ (y & Hy & Hwy).
    unfold wanted in *. rewrite bool_decide_eq_false_2, andb_false_r, orb_false_r in * by done. apply Z.eqb_eq in Hwy as <-.
    apply list_elem_of_lookup in Hy as [j Hj]. pose proof (lookup_lt_Some _ _ _ Hj). assert (E : dist_to t nearby (Z.of_nat j) = 0).
    { apply dist_zero; rewrite ?(Hget _ _ Hj); done. }
    assert (Ec : dist_to t nearby c = 0). { pose proof (dist_nonneg t nearby c). destruct (decide (j = 0%nat)) as [->|]; [change (Z.of_nat 0) with 0 in E; lia|]. specialize (H3 (Z.of_nat j) ltac:(lia)). lia. }
    apply dist_zero in Ec; [lia| |done]. apply get4_range; [done|lia|lia].
Qed.

(** *** Searching the trunks *)

Definition prev_of (ts : list (Z * list Z)) : Z := default 0 (last ts.*1).
Lemma prev_of_snoc ts t l : prev_of (ts ++ [(t, l)]) = t.
Proof. unfold prev_of. rewrite fmap_app. change (fst <$> [(t, l)]) with [t]. by rewrite last_snoc. Qed.
Abbreviation link_page ts := (trunk_link (prev_of ts)).1.
Abbreviation link_at ts := (trunk_link (prev_of ts)).2.
Lemma trunk_link_pos p : 0 < p -> trunk_link p = (p, 0).
Proof. intros H. unfold trunk_link. by replace (p =? 0) with false by lia. Qed.

(** The list after some trunks hangs on the last of them, or on page 1. *)
Lemma link_get f ts1 ts2 : Forall (fun t => 0 < t) ts1.*1 -> trunks_at f (get4byte (f 1) 32) (ts1 ++ ts2) -> trunks_at f (get4byte (f (link_page ts1)) (link_at ts1)) ts2.
Proof.
  destruct ts1 as [|[p l] ts1' _] using rev_ind; [done|]. rewrite prev_of_snoc, fmap_app. intros [_ [Hp _]%Forall_cons]%Forall_app H. cbn [fst] in Hp. rewrite (trunk_link_pos _ Hp).
  rewrite <- app_assoc in H. by apply trunks_after in H as (_ & _ & H).
Qed.
Lemma cap_fits b k : wf_bt b -> k <= usableSize b / 4 - 2 -> 8 + 4 * k <= usableSize b /\ 8 + 4 * k <= pageSize b.
Proof. intros Hb Hk. destruct (wf_bt_sizes _ Hb). pose proof (Z.mul_div_le (usableSize b) 4 ltac:(lia)). lia. Qed.
Lemma link_put b n pin f f' ts1 ts2 ts2' : free_view b n pin f (ts1 ++ ts2) ->
  (ts1 <> [] -> get4byte (f' 1) 32 = get4byte (f 1) 32 /\ same_outside [(0, 4)] (f (prev_of ts1)) (f' (prev_of ts1))) ->
  (forall t, t ∈ ts1.*1 -> t <> prev_of ts1 -> f' t = f t) ->
  trunks_at f' (get4byte (f' (link_page ts1)) (link_at ts1)) ts2' -> trunks_at f' (get4byte (f' 1) 32) (ts1 ++ ts2').
Proof.
  intros Hv. destruct ts1 as [|[p l] ts1' _] using rev_ind; [done|]. rewrite prev_of_snoc. intros H Hf Ht. destruct H as [E Hs]; [by destruct ts1'|]. rewrite <- app_assoc in *. cbn [app] in *.
  destruct (view_split _ _ _ _ _ _ _ _ Hv) as (_ & _ & Hne & _ & _ & Hl & Hp & _). pose proof (fv_chain _ _ _ _ _ Hv) as Hc. pose proof (fv_pages _ _ _ _ _ Hv p) as [Lp _]. destruct (cap_fits _ _ (fv_bt _ _ _ _ _ Hv) Hl) as [_ Hl2].
  destruct (trunks_after _ _ _ _ _ _ Hc) as (H4 & Hw & _). pose proof (zlen_nonneg l). destruct Hp as [Hp _].
  rewrite E. eapply trunks_replace; [exact Hc| | | |].
  - intros t Ht'. destruct (Hne t Ht'). apply Hf; [|done]. rewrite fmap_app. apply elem_of_app. by left.
  - rewrite <- H4. rewrite (same_get4 _ _ _ 4 Hs); [done|lia|lia|]. each. solve_apart.
  - eapply words_frame; [exact Hs| |lia|lia|exact Hw]. each. solve_apart.
  - by rewrite trunk_link_pos in Ht by lia.
Qed.

(** The list is as the trunks say, and the count on page 1 is already one less. *)
Definition counted (db0 : Db) (ts : list (Z * list Z)) (db : Db) : Prop :=
  same_file db0 db /\ pg db 1 = put4byte (pg db0 1) 36 (zlen (free_pages ts) - 1) /\ forall i, i <> 1 -> pg db i = pg db0 i.

(** The page is taken from the list: no other page is lost, and none that is in use is touched. *)
Definition taken (db0 : Db) (ts : list (Z * list Z)) (x : Z) (db' : Db) : Prop :=
  same_file db0 db' /\ x ∉ inited db' /\
  (exists ts', free_pages ts ≡ₚ x :: free_pages ts' /\ free_rep db' ts') /\
  (forall i, i <> 1 -> i ∉ free_pages ts -> pg db' i = pg db0 i) /\ same_outside [(32, 4); (36, 4)] (pg db0 1) (pg db' 1).

Lemma taken_intro db0 db db' ts ts' x : free_rep db0 ts -> counted db0 ts db -> same_file db db' -> x ∉ inited db' -> pages_ok (bt db0) (pg db') ->
  same_outside [(32, 4)] (pg db 1) (pg db' 1) -> (forall i, i <> 1 -> i ∉ free_pages ts -> pg db' i = pg db i) ->
  trunks_at (pg db') (get4byte (pg db' 1) 32) ts' -> free_pages ts ≡ₚ x :: free_pages ts' -> Forall (fun t => zlen t.2 <= usableSize (bt db0) / 4 - 2) ts' -> taken db0 ts x db'.
Proof.
  intros Hv ((F1 & F2 & F3) & E1 & Ei) (G1 & G2 & G3) Hin Hp Hs Hf Hc Hperm Hk. pose proof (fv_pages _ _ _ _ _ Hv 1) as [L1 B1]. destruct (wf_bt_sizes _ (fv_bt _ _ _ _ _ Hv)). pose proof (free_count_lt _ _ _ _ _ Hv). pose proof (fv_size _ _ _ _ _ Hv).
  assert (En : zlen (free_pages ts') = zlen (free_pages ts) - 1) by (unfold zlen; rewrite Hperm; cbn [length]; lia).
  assert (S1 : same_outside [(36, 4)] (pg db0 1) (pg db 1)) by (rewrite E1; apply same_put4; lia).
  assert (Hn : get4byte (pg db' 1) 36 = zlen (free_pages ts')).
  { rewrite (same_get4 _ _ _ 36 Hs), E1 by (rewrite ?(proj1 S1); try lia; each; solve_apart). rewrite get4byte_put4byte, En; [done|lia|lia|]. pose proof (zlen_nonneg (free_pages ts')). unfold is_u32. lia. }
  split_and!; [by split_and!; congruence|done| | |].
  - exists ts'. split; [done|]. unfold free_rep. rewrite G1, G2, G3, F1, F2, F3. by destruct (view_taken _ _ _ _ _ _ _ x Hv Hp Hc Hn Hk Hperm).
  - intros i Hi Hi'. rewrite Hf, Ei; done.
  - eapply same_weaken; [exact (same_trans _ _ _ _ _ S1 Hs)|]. intros j Hj. rewrite !List.Forall_cons_iff in *. cbn [app]. naive_solver.
Qed.

Lemma prev_of_in ts : prev_of ts = 0 \/ prev_of ts ∈ ts.*1.
Proof.
  destruct ts as [|[p l] ts' _] using rev_ind; [by left|right]. rewrite prev_of_snoc, fmap_app. apply elem_of_app. right. left.
Qed.
Lemma caps_replace b ts1 t l l' (ts2 : list (Z * list Z)) : Forall (fun t => zlen t.2 <= usableSize b / 4 - 2) (ts1 ++ (t, l) :: ts2) -> zlen l' <= zlen l ->
  forall t', Forall (fun t => zlen t.2 <= usableSize b / 4 - 2) (ts1 ++ (t', l') :: ts2).
Proof. intros [H1 [H2 H3]%Forall_cons]%Forall_app Hl t'. apply Forall_app. split; [done|]. apply Forall_cons. cbn [snd] in *. split; [lia|done]. Qed.

Lemma view_trunk_pos b n pin f ts t : free_view b n pin f ts -> t ∈ ts.*1 -> 0 < t.
Proof. intros Hv Ht%trunks_in. pose proof (fv_range _ _ _ _ _ Hv) as Hr. rewrite Forall_forall in Hr. destruct (Hr t Ht). lia. Qed.

Section taking.
Context (db0 db : Db) (ts1 ts2 : list (Z * list Z)) (t : Z) (l : list Z).
Hypothesis Hv : free_rep db0 (ts1 ++ (t, l) :: ts2).
Hypothesis Hcnt : counted db0 (ts1 ++ (t, l) :: ts2) db.
Hypothesis Hin : t ∉ inited db.

Lemma counted_pages : pages_ok (bt db0) (pg db).
Proof.
  intros i. pose proof (fv_pages _ _ _ _ _ Hv) as Hp. destruct Hcnt as (_ & E1 & Ei). destruct (wf_bt_sizes _ (fv_bt _ _ _ _ _ Hv)). destruct (decide (i = 1)) as [->|Hi]; [|by rewrite Ei].
  rewrite E1. destruct (Hp 1) as [L B]. rewrite zlen_put4 by lia. split; [done|]. apply bytes_put4; (done || lia).
Qed.

Lemma take_leaf_taken c x : l !! c = Some x ->
  ends (take_leaf [1; prev_of ts1; t] t (zlen l) (Z.of_nat c) x) db (fun r db' => r = x /\ taken db0 (ts1 ++ (t, l) :: ts2) x db').
Proof.
  intros Hx. destruct (view_split _ _ _ _ _ _ _ _ Hv) as (V1 & V2 & V3 & V4 & V5 & V6 & V7 & V8). pose proof (list_elem_of_lookup_2 _ _ _ Hx) as Hxl. assert (Hux := V8). rewrite Forall_forall in Hux. specialize (Hux x Hxl).
  assert (Hxt : x <> t) by (by intros ->). assert (Hxp : x <> prev_of ts1). { intros ->. destruct (prev_of_in ts1) as [E|E]; [rewrite E in Hux; destruct Hux; lia|]. by destruct (V3 _ E) as (_ & _ & []). }
  destruct Hcnt as ((F1 & F2 & F3) & E1 & Ei). pose proof (fv_bt _ _ _ _ _ Hv) as Hb. destruct (cap_fits _ _ Hb V6) as [_ L8]. pose proof (fv_pages _ _ _ _ _ Hv t) as [Lt Bt]. destruct (wf_bt_sizes _ Hb).
  pose proof (fv_chain _ _ _ _ _ Hv) as Hc. destruct (trunks_after _ _ _ _ _ _ Hc) as (_ & Hw & Ht2). pose proof (lookup_lt_Some _ _ _ Hx) as Hlt.
  destruct (trunk_without_ok (pg db0 t) l c Bt Hlt ltac:(lia) ltac:(lia) Hw) as (W1 & W2 & W3 & W4 & W5).
  eapply ends_weaken; [apply take_leaf_ok; [by rewrite F1, F2, F3| |done]|].
  { rewrite !not_elem_of_cons. destruct Hux. split_and!; [lia|done|done|apply not_elem_of_nil]. }
  intros r db' (-> & Hsf & Hni & Et & Eo & Ex). split; [done|]. rewrite Ei in Et by done. assert (E1' : pg db' 1 = pg db 1) by (apply Eo; [done|]; destruct Hux; lia).
  assert (Eo' : forall i, i <> 1 -> i <> t -> i <> x -> pg db' i = pg db0 i) by (intros; by rewrite Eo, Ei). assert (E32 : get4byte (pg db' 1) 32 = get4byte (pg db0 1) 32).
  { rewrite E1', E1. pose proof (fv_pages _ _ _ _ _ Hv 1) as [L1 _]. assert (S1 : same_outside [(36, 4)] (pg db0 1) (put4byte (pg db0 1) 36 (zlen (free_pages (ts1 ++ (t, l) :: ts2)) - 1))) by (apply same_put4; lia).
    apply (same_get4 _ _ _ 32 S1); [lia|lia|]. each. solve_apart. }
  apply (taken_intro _ db _ (ts1 ++ (t, l) :: ts2) (ts1 ++ (t, without_leaf l c) :: ts2)); try done.
  - intros i. destruct (decide (i = t)) as [->|]; [rewrite Et, W1; done|]. destruct (decide (i = x)) as [->|]; [|rewrite Eo by done; apply counted_pages].
    destruct Ex as [-> | ->]; [apply counted_pages|]. rewrite F1. by apply zeros_ok.
  - by rewrite E1'.
  - intros i Hi1 Hi. rewrite free_pages_app, free_pages_cons, not_elem_of_app, not_elem_of_cons, not_elem_of_app in Hi. destruct Hi as (_ & ? & Hil & _). apply Eo; [done|]. by intros ->.
  - rewrite E32. eapply trunks_replace; [exact Hc| | | |].
    + intros s Hs. destruct (V3 s Hs) as (? & ? & Hsl). apply Eo'; [done|done|]. by intros ->.
    + by rewrite Et, W4, zlen_without.
    + by rewrite Et.
    + rewrite Et, W3. eapply trunks_frame; [|exact Ht2]. intros s Hs. destruct (V4 s Hs) as (? & ? & Hsl). apply Eo'; [done|done|]. by intros ->.
  - rewrite !free_pages_app, !free_pages_cons. rewrite (without_leaf_perm l c x Hx) at 1. cbn [app]. rewrite <- !Permutation_middle. apply Permutation_swap.
  - eapply caps_replace; [apply Hv|]. rewrite zlen_without by done. lia.
Qed.

Lemma relink_taken db' ts2' : same_file db db' -> t ∉ inited db' -> pages_ok (bt db0) (pg db') -> same_outside [(link_at ts1, 4)] (pg db (link_page ts1)) (pg db' (link_page ts1)) ->
  (forall i, i <> link_page ts1 -> i ∉ l -> pg db' i = pg db i) -> trunks_at (pg db') (get4byte (pg db' (link_page ts1)) (link_at ts1)) ts2' ->
  l ++ free_pages ts2 ≡ₚ free_pages ts2' -> Forall (fun t => zlen t.2 <= usableSize (bt db0) / 4 - 2) ts2' -> taken db0 (ts1 ++ (t, l) :: ts2) t db'.
Proof.
  intros Hsf Hni Hpo Hs Ho Hc Hperm Hcap. destruct (view_split _ _ _ _ _ _ _ _ Hv) as (V1 & V2 & V3 & V4 & V5 & V6 & V7 & V8). destruct Hcnt as ((F1 & F2 & F3) & E1 & Ei). pose proof (fv_pages _ _ _ _ _ Hv 1) as [L1 _]. destruct (wf_bt_sizes _ (fv_bt _ _ _ _ _ Hv)).
  assert (S1 : same_outside [(36, 4)] (pg db0 1) (pg db 1)) by (rewrite E1; apply same_put4; lia).
  assert (Hlp : (ts1 = [] /\ link_page ts1 = 1 /\ link_at ts1 = 32) \/ (ts1 <> [] /\ link_page ts1 = prev_of ts1 /\ link_at ts1 = 0 /\ prev_of ts1 ∈ ts1.*1)).
  { destruct ts1 as [|[p lp] ts0 _] using rev_ind; [by left|right]. assert (Hpin : prev_of (ts0 ++ [(p, lp)]) ∈ (ts0 ++ [(p, lp)]).*1) by (rewrite prev_of_snoc, fmap_app; apply elem_of_app; right; left).
    destruct (V3 _ Hpin) as (_ & Hp1 & _). split; [by destruct ts0|]. split_and!; [| |done]; rewrite trunk_link_pos; try done; apply view_trunk_pos with (1 := Hv); rewrite fmap_app; apply elem_of_app; by left. }
  apply (taken_intro _ db _ (ts1 ++ (t, l) :: ts2) (ts1 ++ ts2')); try done.
  - destruct Hlp as [(-> & E & E')|(Hne & E & E' & Hpin)]; [by rewrite E, E' in Hs|]. destruct (V3 _ Hpin) as (_ & Hp1 & _). rewrite Ho; [done|by rewrite E|done].
  - intros i Hi1 Hi. rewrite free_pages_app, free_pages_cons, not_elem_of_app, not_elem_of_cons, not_elem_of_app in Hi. destruct Hi as (Hi & _ & Hil & _). apply Ho; [|done].
    destruct Hlp as [(-> & E & E')|(Hne & E & E' & Hpin)]; [by rewrite E|]. rewrite E. intros ->. by apply Hi, trunks_in.
  - apply (link_put _ _ _ (pg db0) (pg db') ts1 ((t, l) :: ts2) ts2' Hv); [| |done].
    + intros Hne. destruct Hlp as [(-> & _)|(_ & E & E' & Hpin)]; [done|]. destruct (V3 _ Hpin) as (_ & Hp1 & _). split; [|rewrite E, E' in Hs; by rewrite Ei in Hs].
      rewrite Ho by (rewrite ?E; done). apply (same_get4 _ _ _ 32 S1); [lia|lia|]. each. solve_apart.
    + intros s Hs1 Hs2. destruct (V3 s Hs1) as (_ & ? & ?). rewrite Ho, Ei; [done|done| |done]. destruct Hlp as [(-> & _)|(_ & E & _)]; [by apply not_elem_of_nil in Hs1|by rewrite E].
  - rewrite !free_pages_app, free_pages_cons, Hperm. by rewrite <- Permutation_middle.
  - pose proof (fv_cap _ _ _ _ _ Hv) as Hk. apply Forall_app in Hk as [Hk _]. by apply Forall_app.
Qed.
End taking.

Lemma view_link_fresh b n pin f ts1 p ts2 : free_view b n pin f (ts1 ++ p :: ts2) -> link_page ts1 ∉ free_pages ts2.
Proof.
  intros Hv Hs. unfold trunk_link in Hs. pose proof (fv_range _ _ _ _ _ Hv) as Hr. pose proof (fv_nodup _ _ _ _ _ Hv) as Hd. destruct p as [p l]. rewrite free_pages_app, free_pages_cons in *.
  destruct (prev_of ts1 =? 0) eqn:E; cbn [fst] in Hs.
  - apply Forall_app in Hr as [_ Hr]. rewrite Forall_forall in Hr. destruct (Hr 1); [right; apply elem_of_app; by right|]. lia.
  - destruct (prev_of_in ts1) as [E0|Hin%trunks_in]; [lia|]. apply NoDup_app in Hd as (_ & Hd & _). apply (Hd _ Hin). right. apply elem_of_app. by right.
Qed.

Lemma link_ne db0 ts1 t l ts2 : free_rep db0 (ts1 ++ (t, l) :: ts2) -> link_page ts1 <> t /\ link_page ts1 ∉ l /\ (link_at ts1 = 32 \/ link_at ts1 = 0) /\ (prev_of ts1 <> 0 -> link_page ts1 = prev_of ts1).
Proof.
  intros Hv. destruct (view_split _ _ _ _ _ _ _ _ Hv) as (V1 & V2 & V3 & V4 & V5 & V6 & V7 & V8). unfold trunk_link. destruct (prev_of ts1 =? 0) eqn:E; cbn [fst snd]; [split_and!; (done || lia || auto)|].
  destruct (prev_of_in ts1) as [E'|Hin]; [lia|]. destruct (V3 _ Hin) as (? & ? & ?). auto.
Qed.

Lemma unlink_trunk_ok db0 ts1 t ts2 db : free_rep db0 (ts1 ++ (t, []) :: ts2) -> counted db0 (ts1 ++ (t, []) :: ts2) db -> t ∉ inited db ->
  ends (copy4 (link_page ts1) (link_at ts1) t 0;; mret t) db (fun r db' => r = t /\ taken db0 (ts1 ++ (t, []) :: ts2) t db').
Proof.
  intros Hv Hcnt Hin. destruct (link_ne _ _ _ _ _ Hv) as (N1 & _ & N3 & _). assert (Hpo := counted_pages _ _ _ _ _ _ Hv Hcnt). destruct (wf_bt_sizes _ (fv_bt _ _ _ _ _ Hv)). destruct (Hpo t) as [Lt Bt], (Hpo (link_page ts1)) as [Ll Bl].
  assert (L4 : zlen (slice (pg db t) 0 4) = 4) by (apply zlen_slice; lia). pose proof (fv_chain _ _ _ _ _ Hv) as Hc. destruct (trunks_after _ _ _ _ _ _ Hc) as (_ & _ & Ht2).
  destruct (view_split _ _ _ _ _ _ _ _ Hv) as (V1 & _ & _ & V4 & _). destruct Hcnt as (Hsf & E1 & Ei). assert (Ho : forall i, i <> link_page ts1 -> pg (set_pages db (<[link_page ts1 := splice (pg db (link_page ts1)) (link_at ts1) (slice (pg db t) 0 4)]> (pages db))) i = pg db i).
  { intros i Hi. rewrite pg_set. by destruct (decide _). }
  assert (El : pg (set_pages db (<[link_page ts1 := splice (pg db (link_page ts1)) (link_at ts1) (slice (pg db t) 0 4)]> (pages db))) (link_page ts1) = splice (pg db (link_page ts1)) (link_at ts1) (slice (pg db t) 0 4)).
  { rewrite pg_set. by destruct (decide _). }
  repeat step. split; [done|]. apply (relink_taken _ db ts1 ts2 t [] Hv) with (ts2' := ts2); try done.
  - intros i. destruct (decide (i = link_page ts1)) as [->|Hi]; [|by rewrite Ho]. rewrite El. split; [rewrite zlen_splice; lia|]. apply bytes_spliced; [done|by apply bytes_slice].
  - rewrite El. apply same_splice4; lia.
  - intros i Hi _. by apply Ho.
  - rewrite El, get4_splice by lia. change (sqlite3Get4byte (slice (pg db t) 0 4)) with (get4byte (pg db t) 0). rewrite <- (Ei t) in Ht2 by done. eapply trunks_frame; [|exact Ht2].
    intros s Hs. destruct (V4 s Hs) as (? & ? & _). assert (Hsl : s <> link_page ts1). { intros ->. apply trunks_in in Hs. exact (view_link_fresh _ _ _ _ _ _ _ Hv Hs). } by rewrite Ho, Ei.
  - pose proof (fv_cap _ _ _ _ _ Hv) as Hk. by apply Forall_app in Hk as [_ [_ Hk]%Forall_cons].
Qed.

Lemma take_trunk_ok db0 t ts2 db : free_rep db0 ((t, []) :: ts2) -> counted db0 ((t, []) :: ts2) db -> t ∉ inited db ->
  ends (take_trunk t) db (fun r db' => r = t /\ taken db0 ((t, []) :: ts2) t db').
Proof.
  intros Hv Hcnt Hin. apply ends_bind. unfold sqlite3PagerWrite. apply ends_pager_call. intros a _. by apply (unlink_trunk_ok db0 [] t ts2 (set_answers db a)).
Qed.

(** The first leaf becomes a trunk with the other leaves. *)
Definition next_trunk (t d : list Z) (k : Z) : list Z :=
  let d := splice d 0 (slice t 0 4) in let d := put4byte d 4 (k - 1) in splice d 8 (slice t 12 ((k - 1) * 4)).

Lemma next_trunk_ok t d x l : bytes_ok t -> bytes_ok d -> zlen d = zlen t -> 8 + 4 * zlen (x :: l) <= zlen t -> zlen t <= 65536 -> words_at t 8 (x :: l) ->
  let d' := next_trunk t d (zlen (x :: l)) in
  zlen d' = zlen t /\ bytes_ok d' /\ get4byte d' 0 = get4byte t 0 /\ get4byte d' 4 = zlen l /\ words_at d' 8 l.
Proof.
  intros Bt Bd Hd Hl H6 [_ Hw]. rewrite zlen_cons in *. replace (1 + zlen l - 1) with (zlen l) by lia. pose proof (zlen_nonneg l). cbn zeta. unfold next_trunk. replace (1 + zlen l - 1) with (zlen l) by lia.
  assert (L0 : zlen (slice t 0 4) = 4) by (apply zlen_slice; lia). set (d1 := splice d 0 (slice t 0 4)). assert (S1 : same_outside [(0, 4)] d d1) by (apply same_splice4; lia). assert (Z1 := proj1 S1).
  set (d2 := put4byte d1 4 (zlen l)). assert (S2 : same_outside [(4, 4)] d1 d2) by (apply (same_put4 d1); lia). assert (Z2 := proj1 S2).
  assert (L3 : zlen (slice t 12 (zlen l * 4)) = zlen l * 4) by (apply zlen_slice; lia). pose proof (same_splice d2 8 (slice t 12 (zlen l * 4)) ltac:(lia) ltac:(lia)) as S3. rewrite L3 in S3. set (d3 := splice d2 8 _) in *. assert (Z3 := proj1 S3).
  split_and!; [lia| | | |].
  - apply bytes_spliced; [|by apply bytes_slice]. apply (bytes_put4 d1); [|lia|lia]. apply bytes_spliced; [done|by apply bytes_slice].
  - rewrite (same_get4 _ _ _ 0 S3), (same_get4 _ _ _ 0 S2) by (try lia; each; solve_apart). unfold d1. by rewrite get4_splice by lia.
  - rewrite (same_get4 _ _ _ 4 S3) by (try lia; each; solve_apart). apply (get4byte_put4byte d1); [lia|lia|]. unfold is_u32. lia.
  - apply words_of_lookup. intros j y Hj. rewrite <- (words_lookup _ _ _ _ _ Hw Hj). pose proof (lookup_lt_Some _ _ _ Hj). assert (Hz : zlen l = Z.of_nat (length l)) by done. unfold get4byte. f_equal.
    apply zlist_ext; [rewrite !zlen_slice; lia|]. rewrite zlen_slice by lia. intros i Hi. rewrite !zget_slice by lia. unfold d3. rewrite zget_splice_in by lia. rewrite zget_slice by lia. f_equal. lia.
Qed.

Lemma counted_shown db0 ts db db' : counted db0 ts db -> same_file db db' -> (forall i, pg db' i = pg db i) -> counted db0 ts db'.
Proof. intros ((F1 & F2 & F3) & E1 & Ei) (G1 & G2 & G3) H. split; [split_and!; congruence|]. split; [by rewrite H|]. intros i Hi. rewrite H. auto. Qed.

Lemma pg_set_eq db i d : pg (set_pages db (<[i := d]> (pages db))) i = d.
Proof. rewrite pg_set. by destruct (decide _). Qed.
Lemma pg_set_ne db i d j : j <> i -> pg (set_pages db (<[i := d]> (pages db))) j = pg db j.
Proof. intros H. rewrite pg_set. by destruct (decide _). Qed.

Lemma make_trunk_ok x t k db : x <> t ->
  ends (make_trunk x t k) db (fun _ db' => same_file db db' /\ inited db' = inited db /\ pg db' x = next_trunk (pg db t) (pg db x) k /\ forall i, i <> x -> pg db' i = pg db i).
Proof.
  intros H. unfold make_trunk. repeat step. split_and!; [done|done| |].
  - rewrite !pg_set_eq, !pg_set_ne by done. done.
  - intros i Hi. by rewrite !pg_set_ne.
Qed.

Lemma take_searched_trunk_ok db0 ts1 t l ts2 db n : free_rep db0 (ts1 ++ (t, l) :: ts2) -> counted db0 (ts1 ++ (t, l) :: ts2) db -> t ∉ inited db -> n = nPage db0 ->
  ends (take_searched_trunk (prev_of ts1) t (zlen l) n) db (fun r db' => r = t /\ taken db0 (ts1 ++ (t, l) :: ts2) t db').
Proof.
  intros Hv Hcnt Hin ->. unfold take_searched_trunk. apply ends_bind. unfold sqlite3PagerWrite at 1. apply ends_pager_call. intros a _. rewrite (surjective_pairing (trunk_link (prev_of ts1))).
  destruct l as [|x l].
  { change (zlen [] =? 0) with true. cbv iota. apply ends_bind. apply (ends_weaken _ _ (fun _ db1 => counted db0 (ts1 ++ (t, []) :: ts2) db1 /\ t ∉ inited db1)).
    - destruct (prev_of ts1 =? 0); [by apply ends_ret|]. apply ends_pager_call. by intros.
    - intros [] db1 [H1 H2]. by apply unlink_trunk_ok. }
  pose proof (zlen_nonneg l). rewrite zlen_cons. replace (1 + zlen l =? 0) with false by lia. replace (1 + zlen l - 1) with (zlen l) by lia.
  destruct (view_split _ _ _ _ _ _ _ _ Hv) as (V1 & V2 & V3 & V4 & V5 & V6 & V7 & V8). destruct (link_ne _ _ _ _ _ Hv) as (N1 & N2 & N3 & _). apply Forall_cons in V8 as [Hx _]. rewrite not_elem_of_cons in N2, V5. destruct N2 as [N2 N2'], V5 as [V5 V5'].
  pose proof (fv_chain _ _ _ _ _ Hv) as Hc. destruct (trunks_after _ _ _ _ _ _ Hc) as (_ & Hw & Ht2). pose proof (fv_bt _ _ _ _ _ Hv) as Hb. destruct (cap_fits _ _ Hb V6) as [_ L8]. destruct (wf_bt_sizes _ Hb).
  assert (Hcnt' := Hcnt). destruct Hcnt as ((F1 & F2 & F3) & E1 & Ei). assert (Hpo := counted_pages _ _ _ _ _ _ Hv Hcnt'). destruct (Hpo t) as [Lt Bt]. pose proof (fv_pages _ _ _ _ _ Hv t) as [Lt0 Bt0].
  apply ends_bind, ends_get4. change (pg (set_answers db a) t) with (pg db t). rewrite (Ei t) by done. destruct Hw as [Ex Hw]. rewrite Ex. replace (nPage db0 <? x) with false by (destruct Hx; lia).
  eapply ends_use; [apply (getUnused_ok _ x false (set_answers db a)); [cbn [bt nPage pinned set_answers]; by rewrite F1, F2, F3|]|].
  { rewrite !not_elem_of_cons. destruct Hx. split_and!; [lia| |congruence|apply not_elem_of_nil]. intros ->. destruct (prev_of_in ts1) as [E|E]; [lia|]. destruct (V3 _ E) as (_ & _ & []). left. }
  intros [] db1 [(G & G2 & _) (G3 & G4 & _)]. specialize (G4 eq_refl). assert (Hp1 : forall i, pg db1 i = pg db i) by (intros i; destruct (decide (i = x)) as [->|]; [done|by apply G2]). assert (Hin1 : t ∉ inited db1) by (rewrite G3; set_solver).
  eapply ends_use; [by apply (make_trunk_ok x t (1 + zlen l) db1)|]. intros [] db2 [(I1 & I2 & I3) (J1 & J2 & J3)]. rewrite !Hp1 in J2.
  apply (ends_use _ _ _ (fun _ db3 => same_file db2 db3 /\ inited db3 = inited db2 /\ forall i, pg db3 i = pg db2 i)).
  { destruct (prev_of ts1 =? 0); [by apply ends_ret|]. unfold sqlite3PagerWrite. by repeat step. }
  intros [] db3 [(K1 & K2 & K3) (K4 & K5)]. repeat step. split; [done|].
  assert (Hxl : x <> link_page ts1) by congruence. assert (Hd : forall i, i <> x -> i <> link_page ts1 -> pg (set_pages db3 (<[link_page ts1 := put4byte (pg db3 (link_page ts1)) (link_at ts1) x]> (pages db3))) i = pg db i).
  { intros i Hi Hi'. by rewrite pg_set_ne, K5, J3, Hp1. }
  assert (Hdx : pg (set_pages db3 (<[link_page ts1 := put4byte (pg db3 (link_page ts1)) (link_at ts1) x]> (pages db3))) x = next_trunk (pg db0 t) (pg db x) (zlen (x :: l))) by (rewrite pg_set_ne, K5, J2, Ei, zlen_cons; done).
  assert (Hdl : pg (set_pages db3 (<[link_page ts1 := put4byte (pg db3 (link_page ts1)) (link_at ts1) x]> (pages db3))) (link_page ts1) = put4byte (pg db (link_page ts1)) (link_at ts1) x) by (rewrite pg_set_eq, K5, J3, Hp1; done).
  destruct (Hpo x) as [Lx Bx], (Hpo (link_page ts1)) as [Ll Bl]. destruct (next_trunk_ok (pg db0 t) (pg db x) x l Bt0 Bx ltac:(lia) ltac:(lia) ltac:(lia) (conj Ex Hw)) as (W1 & W2 & W3 & W4 & W5).
  apply (relink_taken _ db ts1 ts2 t (x :: l) Hv) with (ts2' := (x, l) :: ts2); try done.
  - destruct G as (G5 & G6 & G7). split_and!; cbn [bt nPage pinned set_pages]; rewrite ?K1, ?K2, ?K3, ?I1, ?I2, ?I3, ?G5, ?G6, ?G7; done.
  - cbn [inited set_pages]. by rewrite K4, J1.
  - intros i. destruct (decide (i = x)) as [->|Hix]; [rewrite Hdx, W1; done|]. destruct (decide (i = link_page ts1)) as [->|Hil]; [|rewrite Hd by done; apply Hpo]. rewrite Hdl. rewrite zlen_put4 by lia. split; [done|]. apply bytes_put4; (done || lia).
  - rewrite Hdl. apply same_put4; lia.
  - intros i Hi1 Hi2. rewrite not_elem_of_cons in Hi2. destruct Hi2. by apply Hd.
  - rewrite Hdl, get4byte_put4byte by (try lia; destruct Hx; pose proof (fv_size _ _ _ _ _ Hv); unfold is_u32; lia). cbn [trunks_at]. rewrite Hdx. split_and!; [done|done|done|]. rewrite W3. eapply trunks_frame; [|exact Ht2].
    intros s Hs. destruct (V4 s Hs) as (? & ? & Hsl). rewrite not_elem_of_cons in Hsl. destruct Hsl. assert (s <> link_page ts1). { intros ->. apply trunks_in in Hs. exact (view_link_fresh _ _ _ _ _ _ _ Hv Hs). } by rewrite Hd, Ei.
  - pose proof (fv_cap _ _ _ _ _ Hv) as Hk. apply Forall_app in Hk as [_ [Hk1 Hk]%Forall_cons]. apply Forall_cons. cbn [snd] in *. rewrite zlen_cons in Hk1. split; [lia|done].
Qed.

Lemma wanted_trunks mode nearby t l ts : (exists y, y ∈ free_pages ((t, l) :: ts) /\ wanted mode nearby y = true) -> wanted mode nearby t = false ->
  (exists y, y ∈ l /\ wanted mode nearby y = true) \/ exists y, y ∈ free_pages ts /\ wanted mode nearby y = true.
Proof. rewrite free_pages_cons. intros (y & [-> | [Hy | Hy]%elem_of_app]%elem_of_cons & Hw) Ht; [congruence|left|right]; eauto. Qed.

Lemma count_trunks (ts : list (Z * list Z)) : zlen ts <= zlen (free_pages ts).
Proof. induction ts as [|[t l] ts IH]; [done|]. rewrite free_pages_cons, !zlen_cons, zlen_app. pose proof (zlen_nonneg l). lia. Qed.

Lemma counted_link db0 ts1 ts2 db : free_rep db0 (ts1 ++ ts2) -> counted db0 (ts1 ++ ts2) db -> trunks_at (pg db0) (get4byte (pg db (link_page ts1)) (link_at ts1)) ts2.
Proof.
  intros Hv (_ & E1 & Ei). assert (Hpos : Forall (fun t => 0 < t) ts1.*1). { apply Forall_forall. intros s Hs. apply view_trunk_pos with (1 := Hv). rewrite fmap_app. apply elem_of_app. by left. }
  pose proof (link_get _ _ _ Hpos (fv_chain _ _ _ _ _ Hv)) as H. unfold trunk_link in *. pose proof (fv_pages _ _ _ _ _ Hv 1) as [L1 _]. destruct (wf_bt_sizes _ (fv_bt _ _ _ _ _ Hv)).
  destruct (prev_of ts1 =? 0) eqn:E; cbn [fst snd] in *.
  - assert (S1 : same_outside [(36, 4)] (pg db0 1) (pg db 1)) by (rewrite E1; apply same_put4; lia). rewrite (same_get4 _ _ _ 32 S1); [done|lia|lia|]. each. solve_apart.
  - rewrite Ei; [done|]. intros Ep. destruct (prev_of_in ts1) as [E0|Hin%trunks_in]; [lia|]. pose proof (fv_range _ _ _ _ _ Hv) as Hr. rewrite free_pages_app in Hr. apply Forall_app in Hr as [Hr _].
    rewrite Forall_forall in Hr. destruct (Hr _ Hin). lia.
Qed.

(** The loop over the trunks, from any of them. *)
Lemma search_trunks_ok db0 mode nearby fuel ts1 ts2 (search : bool) db : free_rep db0 (ts1 ++ ts2) -> counted db0 (ts1 ++ ts2) db -> is_u32 nearby ->
  (if search then 0 < nearby /\ exists y, y ∈ free_pages ts2 /\ wanted mode nearby y = true else ts1 = [] /\ ts2 <> []) -> (length ts2 < fuel)%nat ->
  ends (search_trunks fuel mode nearby (zlen (free_pages (ts1 ++ ts2))) (nPage db0) search (prev_of ts1) (zlen ts1)) db
    (fun x db' => taken db0 (ts1 ++ ts2) x db' /\ (search = true -> wanted mode nearby x = true)).
Proof.
  revert ts1 ts2 db. induction fuel as [|fuel IH]; intros ts1 ts2 db Hv Hcnt Hnb Hs Hf; [lia|].
  destruct ts2 as [|[t l] ts2]. { destruct search; [|by destruct Hs]. destruct Hs as (_ & y & Hy & _). by apply elem_of_nil in Hy. }
  destruct (view_split _ _ _ _ _ _ _ _ Hv) as (V1 & V2 & V3 & V4 & V5 & V6 & V7 & V8). assert (Hc := fv_chain _ _ _ _ _ Hv). destruct (trunks_after _ _ _ _ _ _ Hc) as (H4 & Hw & _). assert (Hb := fv_bt _ _ _ _ _ Hv). destruct (wf_bt_sizes _ Hb).
  destruct (cap_fits _ _ Hb V6) as [_ L8]. destruct (fv_pages _ _ _ _ _ Hv t) as [Lt Bt]. assert (Hcnt' := Hcnt). destruct Hcnt' as ((F1 & F2 & F3) & E1 & Ei). pose proof (count_trunks (ts1 ++ (t, l) :: ts2)) as Hct.
  cbn [search_trunks]. rewrite (surjective_pairing (trunk_link (prev_of ts1))). apply ends_bind, ends_get4.
  assert (El : get4byte (pg db (link_page ts1)) (link_at ts1) = t) by (pose proof (counted_link _ _ _ _ Hv Hcnt) as (El & _); exact El). rewrite El. clear El.
  replace (nPage db0 <? t) with false by (destruct V7; lia). replace (zlen (free_pages (ts1 ++ (t, l) :: ts2)) <? zlen ts1) with false by (rewrite zlen_app in Hct; pose proof (zlen_nonneg ((t, l) :: ts2)); lia). cbn [orb].
  eapply ends_use; [apply (getUnused_ok _ t false db); [by rewrite F1, F2, F3|]|].
  { rewrite !not_elem_of_cons. split_and!; [done| |apply not_elem_of_nil]. intros ->. destruct (prev_of_in ts1) as [E|E]; [destruct V7; lia|]. by destruct (V3 _ E). }
  intros [] db1 [(G & G2 & _) (G3 & G4 & _)]. specialize (G4 eq_refl). assert (Hp1 : forall i, pg db1 i = pg db i) by (intros i; destruct (decide (i = t)) as [->|]; [done|by apply G2]). assert (Hin1 : t ∉ inited db1) by (rewrite G3; set_solver).
  assert (Hcnt1 := counted_shown _ _ _ _ Hcnt G Hp1). clear Hcnt. destruct Hcnt1 as ((I1 & I2 & I3) & J1 & J2).
  assert (Hcnt1 : counted db0 (ts1 ++ (t, l) :: ts2) db1) by done.
  apply ends_bind, ends_page. rewrite (J2 t) by done. apply ends_bind, ends_get_db. rewrite H4. cbn zeta beta. fold (wanted mode nearby t).
  destruct ((zlen l =? 0) && negb search) eqn:E0.
  { destruct search; [by rewrite andb_false_r in E0|]. destruct Hs as [-> _]. destruct l; [|rewrite zlen_cons in E0; pose proof (zlen_nonneg l); lia]. eapply ends_weaken; [by apply take_trunk_ok|]. by intros x db' [-> H']. }
  replace (u32 (usableSize (bt db1) / 4 - 2) <? zlen l) with false by (rewrite I1; unfold u32; rewrite Z.mod_small by (change (2 ^ 32) with 4294967296; Z.to_euclidean_division_equations; lia); lia).
  destruct (search && wanted mode nearby t) eqn:E1t.
  { eapply ends_weaken; [by apply take_searched_trunk_ok|]. intros x db' [-> H']. split; [done|]. intros ->. done. }
  assert (Hnext : search = true -> (forall y, y ∈ l -> wanted mode nearby y = false) ->
    ends (search_trunks fuel mode nearby (zlen (free_pages (ts1 ++ (t, l) :: ts2))) (nPage db0) true t (zlen ts1 + 1)) db1 (fun x db' => taken db0 (ts1 ++ (t, l) :: ts2) x db' /\ (search = true -> wanted mode nearby x = true))).
  { intros -> Hl. destruct Hs as (Hn0 & Hex). cbn [andb] in E1t. pose proof (IH (ts1 ++ [(t, l)]) ts2 db1) as IH'. rewrite prev_of_snoc, zlen_app, <- app_assoc in IH'.
    apply IH'; [done|done|done| |cbn [length] in Hf; lia]. split; [done|].
    destruct (wanted_trunks _ _ _ _ _ Hex E1t) as [(y & Hy & Hwy)|Hex']; [|done]. by rewrite (Hl y Hy) in Hwy. }
  destruct (0 <? zlen l) eqn:E2.
  - assert (Hne : l <> []) by (by intros ->). destruct (closest_leaf_ok (pg db0 t) l nearby mode Bt ltac:(lia) Hw Hne Hnb) as (c & x & Ec & Hx & Hbest). rewrite Ec.
    assert (Eg : get4byte (pg db0 t) (8 + Z.of_nat c * 4) = x) by (rewrite <- (words_lookup _ _ _ _ _ Hw Hx); f_equal; lia). rewrite Eg. rewrite Forall_forall in V8. destruct (V8 x (list_elem_of_lookup_2 _ _ _ Hx)) as (X1 & _).
    replace ((nPage db0 <? x) || (x <? 2)) with false by lia. fold (wanted mode nearby x). destruct (negb search || wanted mode nearby x) eqn:E3.
    + eapply ends_weaken; [by apply (take_leaf_taken db0 db1 ts1 ts2 t l Hv Hcnt1 c x)|]. intros r db' [-> H']. split; [done|]. intros ->. done.
    + destruct search; [|done]. apply Hnext; [done|]. intros y Hy. destruct (wanted mode nearby y) eqn:Ey; [|done]. destruct Hs as [Hn0 _]. rewrite Hbest in E3; [done|done|eauto].
  - assert (l = []) as -> by (destruct l; [done|rewrite zlen_cons in E2; pose proof (zlen_nonneg l); lia]). destruct search; [|done]. apply Hnext; [done|]. by intros y Hy%elem_of_nil.
Qed.

(** The pages that the end of the file passes over. *)
Definition skipped (b : BtShared) (i : Z) : Prop := i = PENDING_BYTE_PAGE b \/ autoVacuum b = true /\ PTRMAP_ISPAGE b i = true.

(** A page is added at the end of the file. *)
Definition extended (db0 : Db) (x : Z) (db' : Db) : Prop :=
  bt db' = bt db0 /\ pinned db' = pinned db0 /\ nPage db' = x /\ nPage db0 < x <= nPage db0 + 4 /\ (forall i, nPage db0 < i < x -> skipped (bt db0) i) /\ x <> PENDING_BYTE_PAGE (bt db0) /\ x ∉ inited db' /\
  free_rep db' [] /\ (forall i, 1 < i <= nPage db0 -> pg db' i = pg db0 i) /\ same_outside [(28, 4)] (pg db0 1) (pg db' 1) /\ get4byte (pg db' 1) 28 = x.

Lemma next_page_spec b n : 0 <= n -> n + 2 < 2 ^ 32 -> n < next_page b n <= n + 2 /\ next_page b n <> PENDING_BYTE_PAGE b /\ forall i, n < i < next_page b n -> i = PENDING_BYTE_PAGE b.
Proof.
  intros H0 Hn. unfold next_page, u32. rewrite (Z.mod_small (n + 1)) by lia. destruct (n + 1 =? PENDING_BYTE_PAGE b) eqn:E; [|split; [lia|split; [lia|]]; intros; lia]. rewrite Z.mod_small by lia. split; [lia|split; [lia|]]. intros. lia.
Qed.

(** What a step may do while the file grows: the pages that were there stay. *)
Definition growing (db0 db : Db) : Prop :=
  bt db = bt db0 /\ pinned db = pinned db0 /\ pages_ok (bt db0) (pg db) /\ (forall i, 1 <= i <= nPage db0 -> pg db i = pg db0 i).

Lemma growing_shown db0 db db' x : wf_bt (bt db0) -> growing db0 db -> shown db db' x -> nPage db0 < x -> growing db0 db'.
Proof.
  intros Hb (E1 & E2 & E3 & E4) [(F1 & F2 & F3) [H1 H2]] Hx. split_and!; [congruence|congruence| |].
  - intros i. destruct (decide (i = x)) as [->|Hi]; [|rewrite H1 by done; apply E3]. destruct H2 as [-> | ->]; [apply E3|]. rewrite E1. by apply zeros_ok.
  - intros i Hi. rewrite H1 by lia. auto.
Qed.

Lemma extend_file_ok db0 : free_rep db0 [] -> nPage db0 + 4 < 2 ^ 32 -> (forall i, nPage db0 < i -> i ∉ pinned db0) -> ends extend_file db0 (fun x db' => extended db0 x db').
Proof.
  intros Hv Hn Hpin. assert (Hb := fv_bt _ _ _ _ _ Hv). assert (Hs := fv_size _ _ _ _ _ Hv). destruct (wf_bt_sizes _ Hb). destruct (fv_pages _ _ _ _ _ Hv 1) as [L1 B1]. destruct (next_page_spec (bt db0) (nPage db0) ltac:(lia) ltac:(lia)) as (N1 & N1' & N1s).
  destruct (next_page_spec (bt db0) (next_page (bt db0) (nPage db0)) ltac:(lia) ltac:(lia)) as (N2 & N2' & N2s).
  unfold extend_file. repeat step. cbn [bt nPage set_nPage set_answers]. set (nc := negb (bDoTruncate db0)).
  apply (ends_weaken _ _ (fun _ db1 => growing db0 db1 /\ nPage db0 < nPage db1 <= nPage db0 + 4 /\ nPage db1 <> PENDING_BYTE_PAGE (bt db0) /\ forall i, nPage db0 < i < nPage db1 -> skipped (bt db0) i)).
  - destruct (autoVacuum (bt db0) && PTRMAP_ISPAGE (bt db0) (next_page (bt db0) (nPage db0))) eqn:Eav.
    + eapply ends_use; [apply (getUnused_ok [1]); cbn [bt nPage pinned set_nPage set_answers]|].
      * split; [lia|split; [apply Hpin; lia|done]].
      * rewrite not_elem_of_cons. split; [lia|apply not_elem_of_nil].
      * intros [] db1 [Hsh _]. assert (G1 : bt db1 = bt db0) by apply Hsh. assert (G2 : nPage db1 = next_page (bt db0) (nPage db0)) by apply Hsh.
        repeat step. cbn [bt nPage set_nPage set_answers]. rewrite G1, G2. split; [|split; [lia|split; [lia|]]; intros i Hi; destruct (decide (i = next_page (bt db0) (nPage db0))) as [->|]; [right; by apply andb_true_iff in Eav|left; destruct (decide (i < next_page (bt db0) (nPage db0))); [apply N1s; lia|apply N2s; lia]]]. change (growing db0 db1). apply (growing_shown db0 (set_nPage (set_answers db0 l) (next_page (bt db0) (nPage db0))) db1 (next_page (bt db0) (nPage db0))); [done| |done|lia].
        split_and!; [done|done|exact (fv_pages _ _ _ _ _ Hv)|done].
    + repeat step. cbn [nPage set_nPage]. split; [|split; [lia|split; [lia|]]; intros i Hi; left; by apply N1s]. split_and!; [done|done|exact (fv_pages _ _ _ _ _ Hv)|done].
  - intros [] db1 [(G1 & G2 & G3 & G4) (Hn1 & Hn1' & Hsk)]. repeat step.
    set (db2 := set_pages db1 _). assert (E2 : pg db2 1 = put4byte (pg db0 1) 28 (nPage db1)) by (unfold db2; rewrite pg_set_eq, G4 by lia; done).
    eapply ends_weaken; [apply (getUnused_ok [1])|].
    + cbn [db2 bt nPage pinned set_pages]. rewrite G1, G2. split; [lia|split; [apply Hpin; lia|done]].
    + rewrite not_elem_of_cons. split; [lia|apply not_elem_of_nil].
    + intros [] db3 [[(I1 & I2 & I3) [K1 K2]] [J1 _]]. repeat step. cbn [db2 bt nPage pinned set_pages] in I1, I2, I3.
      assert (Hp1 : pg db3 1 = put4byte (pg db0 1) 28 (nPage db1)) by (rewrite K1 by lia; exact E2). assert (Ho : forall i, 1 < i <= nPage db0 -> pg db3 i = pg db0 i).
      { intros i Hi. rewrite K1 by lia. unfold db2. by rewrite pg_set_ne, G4 by lia. }
      assert (Hpo : pages_ok (bt db0) (pg db3)).
      { intros i. destruct (decide (i = 1)) as [->|Hi1]; [rewrite Hp1, zlen_put4 by lia; split; [done|]; apply bytes_put4; (done || lia)|].
        assert (P2 : forall j, j <> 1 -> pg db2 j = pg db1 j) by (intros j Hj; unfold db2; by rewrite pg_set_ne). destruct (decide (i = nPage db1)) as [->|Hix]; [|rewrite K1, P2 by done; apply G3].
        destruct K2 as [-> | ->]; [rewrite P2 by lia; apply G3|]. cbn [db2 bt set_pages]. rewrite G1. by apply zeros_ok. }
      assert (S1 : same_outside [(28, 4)] (pg db0 1) (pg db3 1)) by (rewrite Hp1; apply same_put4; lia).
      change (extended db0 (nPage db1) db3). pose proof (fv_chain _ _ _ _ _ Hv) as Hc. pose proof (fv_count _ _ _ _ _ Hv) as Hcount.
      split_and!; [congruence|congruence|done|lia|lia|done|lia|rewrite J1; set_solver| |done|done|].
      * unfold free_rep. rewrite I1, I2, I3, G1, G2. split; [done|exact Hpo| | |constructor|constructor|constructor|lia]; rewrite (same_get4 _ _ _ _ S1) by (try lia; each; solve_apart); done.
      * rewrite Hp1. apply get4byte_put4byte; [lia|lia|]. unfold is_u32. lia.
Qed.

(** What the caller knows of the page it asks for.  With [BTALLOC_EXACT] the pointer map says whether it is free. *)
Definition ptrmap_tells (db : Db) (ts : list (Z * list Z)) (nearby : Z) : Prop :=
  let p := ptrmapPageno (bt db) nearby in
  let offset := PTRMAP_PTROFFSET p nearby in
  p <> 0 /\ p <> PENDING_BYTE_PAGE (bt db) /\ 0 <= offset /\ 1 <= (pg db p).[offset] <= 5 /\ ((pg db p).[offset] = PTRMAP_FREEPAGE <-> nearby ∈ free_pages ts).
Definition alloc_pre (db : Db) (ts : list (Z * list Z)) (nearby : Z) (mode : alloc_mode) : Prop :=
  is_u32 nearby /\
  match mode with
  | BTALLOC_ANY => True
  | BTALLOC_EXACT => 0 < nearby /\ (nearby <= nPage db -> ptrmap_tells db ts nearby)
  | BTALLOC_LE => 0 < nearby /\ exists y, y ∈ free_pages ts /\ y <= nearby
  end.
Definition alloc_post (ts : list (Z * list Z)) (nearby : Z) (mode : alloc_mode) (x : Z) : Prop :=
  match mode with BTALLOC_ANY => True | BTALLOC_EXACT => nearby ∈ free_pages ts -> x = nearby | BTALLOC_LE => x <= nearby end.

Lemma getPage_ok x db : x <> 0 -> x <> PENDING_BYTE_PAGE (bt db) -> ends (btreeGetPage x false) db (fun _ db' => exists l, db' = set_answers db l).
Proof.
  intros H0 H1. unfold btreeGetPage. replace (x =? 0) with false by lia. repeat step. cbn [bt set_answers]. replace (x =? _) with false by lia. apply ends_ret. eauto.
Qed.

Lemma allocate_taken db0 ts nearby mode : free_rep db0 ts -> ts <> [] -> alloc_pre db0 ts nearby mode ->
  ends (allocateBtreePage nearby mode) db0 (fun x db' => taken db0 ts x db' /\ alloc_post ts nearby mode x).
Proof.
  intros Hv Hne [Hnb Hpre]. pose proof (free_count_lt _ _ _ _ _ Hv) as Hlt. pose proof (count_trunks ts) as Hct. assert (Hc := fv_count _ _ _ _ _ Hv). unfold allocateBtreePage.
  assert (Hn0 : 0 < zlen (free_pages ts)) by (destruct ts as [|[t l] ts]; [done|]; rewrite free_pages_cons, zlen_cons; pose proof (zlen_nonneg (l ++ free_pages ts)); lia).
  apply ends_bind, ends_get_db, ends_bind, ends_get4. rewrite Hc. replace (nPage db0 <=? zlen (free_pages ts)) with false by lia. replace (0 <? zlen (free_pages ts)) with true by lia.
  apply (ends_use _ _ _ (fun search db1 => same_file db0 db1 /\ (forall i, pg db1 i = pg db0 i) /\ (if search : bool then mode <> BTALLOC_ANY /\ 0 < nearby /\ exists y, y ∈ free_pages ts /\ wanted mode nearby y = true else mode <> BTALLOC_LE /\ (mode = BTALLOC_EXACT -> nearby ∉ free_pages ts)))).
  - unfold wanted. destruct mode; cbn [bool_decide decide]; [apply ends_ret; split_and!; done| |].
    + rewrite bool_decide_eq_true_2 by done. destruct Hpre as [Hp Htell]. destruct (nearby <=? nPage db0) eqn:E.
      * destruct (Htell ltac:(lia)) as (T1 & T2 & T3 & T4 & T5). unfold ptrmapGet. apply ends_bind, ends_bind, ends_get_db. eapply ends_use; [by apply getPage_ok|]. intros [] db1 [a ->].
        replace (PTRMAP_PTROFFSET _ _ <? 0) with false by lia. apply ends_bind, ends_page. change (pg (set_answers db0 a)) with (pg db0). replace (_ || _) with false by lia. apply ends_ret, ends_ret. split; [done|]. split; [done|].
        destruct (_ =? PTRMAP_FREEPAGE) eqn:Ef.
        -- split; [done|]. split; [done|]. exists nearby. split; [apply T5; lia|]. lia.
        -- split; [done|]. intros _ Hin%T5. lia.
      * apply ends_ret. split; [done|]. split; [done|]. split; [done|]. intros _ Hin. pose proof (fv_range _ _ _ _ _ Hv) as Hr. rewrite Forall_forall in Hr. destruct (Hr _ Hin). lia.
    + rewrite (bool_decide_eq_false_2 (BTALLOC_LE = BTALLOC_EXACT)), bool_decide_eq_true_2 by done. apply ends_ret. destruct Hpre as (Hp & y & Hy & Hle). split_and!; try done. exists y. split; [done|]. lia.
  - intros search db1 (F & P & Hs). repeat step. set (db2 := set_pages _ _).
    assert (Hcnt : counted db0 ([] ++ ts) db2).
    { split; [done|]. unfold db2. split; [rewrite pg_set_eq|intros i Hi; rewrite pg_set_ne by done]; change (pg (set_answers db1 l)) with (pg db1); by rewrite P. }
    eapply ends_weaken; [apply (search_trunks_ok db0 mode nearby _ [] ts search db2 Hv Hcnt Hnb); [|unfold zlen in *; lia]|].
    + destruct search; [by destruct Hs|done].
    + cbn [app]. intros x db' [Ht Hw]. split; [done|]. unfold alloc_post. destruct mode; [done| |].
      * intros Hin. destruct search; [|destruct Hs as [_ Hs]; by destruct (Hs eq_refl)]. specialize (Hw eq_refl). unfold wanted in Hw. rewrite bool_decide_eq_false_2, andb_false_r, orb_false_r in Hw by done. lia.
      * destruct search; [|by destruct Hs]. specialize (Hw eq_refl). unfold wanted in Hw. destruct (nearby =? x) eqn:E; [lia|]. cbn [orb] in Hw. lia.
Qed.

Lemma allocate_extended db0 nearby : free_rep db0 [] -> nPage db0 + 4 < 2 ^ 32 -> (forall i, nPage db0 < i -> i ∉ pinned db0) -> forall mode,
  ends (allocateBtreePage nearby mode) db0 (fun x db' => extended db0 x db').
Proof.
  intros Hv Hn Hp mode. unfold allocateBtreePage. pose proof (free_count_lt _ _ _ _ _ Hv). apply ends_bind, ends_get_db, ends_bind, ends_get4. rewrite (fv_count _ _ _ _ _ Hv).
  change (zlen (free_pages [])) with 0 in *. replace (nPage db0 <=? 0) with false by lia. by apply extend_file_ok.
Qed.

(** ** Freeing *)

(** The page joins the list: the others on it stay, and no page that is in use is touched. *)
Definition freed (db0 : Db) (ts : list (Z * list Z)) (x : Z) (db' : Db) : Prop :=
  same_file db0 db' /\ (exists ts', free_pages ts' ≡ₚ x :: free_pages ts /\ free_rep db' ts') /\
  (forall i, i <> 1 -> i <> x -> i ∉ free_pages ts -> pg db' i = pg db0 i) /\ same_outside [(32, 4); (36, 4)] (pg db0 1) (pg db' 1).

(** The count is one more, and the page may have been cleared. *)
Definition marked (db0 : Db) (ts : list (Z * list Z)) (x : Z) (db : Db) : Prop :=
  same_file db0 db /\ pg db 1 = put4byte (pg db0 1) 36 (zlen (free_pages ts) + 1) /\ pages_ok (bt db0) (pg db) /\ forall i, i <> 1 -> i <> x -> pg db i = pg db0 i.

Lemma freed_intro db0 ts x db db' ts' : free_rep db0 ts -> x ∉ free_pages ts -> usable_page (bt db0) (nPage db0) (pinned db0) x -> marked db0 ts x db ->
  same_file db db' -> pages_ok (bt db0) (pg db') -> same_outside [(32, 4)] (pg db 1) (pg db' 1) -> (forall i, i <> 1 -> i <> x -> i ∉ free_pages ts -> pg db' i = pg db i) ->
  trunks_at (pg db') (get4byte (pg db' 1) 32) ts' -> free_pages ts' ≡ₚ x :: free_pages ts -> Forall (fun t => zlen t.2 <= usableSize (bt db0) / 4 - 2) ts' -> freed db0 ts x db'.
Proof.
  intros Hv Hx Hu ((F1 & F2 & F3) & E1 & Ep & Ei) (G1 & G2 & G3) Hp Hs Hf Hc Hperm Hk. pose proof (fv_pages _ _ _ _ _ Hv 1) as [L1 B1]. destruct (wf_bt_sizes _ (fv_bt _ _ _ _ _ Hv)). pose proof (free_count_lt _ _ _ _ _ Hv). pose proof (fv_size _ _ _ _ _ Hv).
  assert (En : zlen (free_pages ts') = zlen (free_pages ts) + 1) by (unfold zlen; rewrite Hperm; cbn [length]; lia).
  assert (S1 : same_outside [(36, 4)] (pg db0 1) (pg db 1)) by (rewrite E1; apply same_put4; lia).
  assert (Hn : get4byte (pg db' 1) 36 = zlen (free_pages ts')).
  { rewrite (same_get4 _ _ _ 36 Hs), E1 by (rewrite ?(proj1 S1); try lia; each; solve_apart). rewrite get4byte_put4byte, En; [done|lia|lia|]. unfold is_u32. lia. }
  split_and!; [by split_and!; congruence| | |].
  - exists ts'. split; [done|]. unfold free_rep. rewrite G1, G2, G3, F1, F2, F3. by apply (view_added _ _ _ _ _ _ _ x Hv Hp Hc Hn Hk Hperm).
  - intros i Hi Hi' Hi2. rewrite Hf, Ei; done.
  - eapply same_weaken; [exact (same_trans _ _ _ _ _ S1 Hs)|]. intros j Hj. rewrite !List.Forall_cons_iff in *. cbn [app]. naive_solver.
Qed.

Section freeing.
Context (db0 : Db) (ts : list (Z * list Z)) (x : Z).
Hypothesis Hv : free_rep db0 ts.
Hypothesis Hx : x ∉ free_pages ts.
Hypothesis Hu : usable_page (bt db0) (nPage db0) (pinned db0) x.

Lemma free_new_trunk_ok present db : marked db0 ts x db -> ends (free_new_trunk present x (get4byte (pg db0 1) 32)) db (fun _ db' => freed db0 ts x db').
Proof.
  intros Hm. unfold free_new_trunk. destruct Hu as (U1 & U2 & U3). pose proof (fv_pages _ _ _ _ _ Hv 1) as [L1 B1]. destruct (wf_bt_sizes _ (fv_bt _ _ _ _ _ Hv)).
  apply (ends_use _ _ _ (fun _ db1 => marked db0 ts x db1)).
  { destruct present; [by apply ends_ret|]. eapply ends_weaken; [apply getPage_ok; [lia|by rewrite (proj1 (proj1 Hm))]|]. by intros [] db1 [l ->]. }
  clear db Hm. intros [] db Hm. assert (Hm' := Hm). destruct Hm' as (Hsf & E1 & Ep & Ei). destruct (Ep x) as [Lx Bx]. destruct (Ep 1) as [L1' B1']. repeat step.
  set (d' := put4byte (put4byte (pg db x) 0 (get4byte (pg db0 1) 32)) 4 0).
  match goal with |- freed _ _ _ (clear_init ?d _) => set (db' := d) end.
  assert (Z0 : zlen (put4byte (pg db x) 0 (get4byte (pg db0 1) 32)) = pageSize (bt db0)) by (rewrite zlen_put4; lia).
  assert (Z1 : zlen d' = pageSize (bt db0)) by (unfold d'; rewrite zlen_put4; lia).
  assert (Dx : pg db' x = d') by (unfold db'; rewrite pg_set_ne, !pg_set_eq by lia; done). assert (D1 : pg db' 1 = put4byte (pg db 1) 32 x) by (unfold db'; rewrite pg_set_eq, !pg_set_ne by lia; done).
  assert (Do : forall i, i <> 1 -> i <> x -> pg db' i = pg db i) by (intros i Hi1 Hi2; unfold db'; rewrite !pg_set_ne by done; done).
  assert (S4 : same_outside [(4, 4)] (put4byte (pg db x) 0 (get4byte (pg db0 1) 32)) d') by (apply same_put4; lia). pose proof (get4_range _ 32 B1 ltac:(lia) ltac:(lia)) as R32. pose proof (fv_size _ _ _ _ _ Hv).
  apply (freed_intro _ _ _ db _ ((x, []) :: ts) Hv Hx Hu Hm); [done| | | | | |].
  - change (pages_ok (bt db0) (pg db')). intros i. destruct (decide (i = 1)) as [->|Hi1]; [rewrite D1, zlen_put4 by lia; split; [done|]; apply bytes_put4; (done || lia)|]. destruct (decide (i = x)) as [->|Hi2]; [|rewrite Do by done; apply Ep].
    rewrite Dx. split; [done|]. apply bytes_put4; [|lia|lia]. apply bytes_put4; (done || lia).
  - change (same_outside [(32, 4)] (pg db 1) (pg db' 1)). rewrite D1. apply same_put4; lia.
  - intros i Hi1 Hi2 _. by apply Do.
  - change (trunks_at (pg db') (get4byte (pg db' 1) 32) ((x, []) :: ts)). rewrite D1, get4byte_put4byte by (try lia; unfold is_u32; lia). cbn [trunks_at]. rewrite Dx. split_and!; [done|apply get4byte_put4byte; [lia|lia|done]|done|].
    rewrite (same_get4 _ _ _ 0 S4) by (try lia; each; solve_apart). rewrite get4byte_put4byte by (done || lia). eapply trunks_frame; [|apply (fv_chain _ _ _ _ _ Hv)].
    intros s Hs%trunks_in. pose proof (fv_range _ _ _ _ _ Hv) as Hr. rewrite Forall_forall in Hr. destruct (Hr s Hs). assert (s <> x) by (by intros ->). rewrite Do, Ei by (done || lia). done.
  - done.
  - apply Forall_cons. split; [|apply Hv]. cbn [snd]. change (zlen []) with 0. Z.to_euclidean_division_equations. lia.
Qed.

End freeing.

Lemma setHasContent_ok x db : ends (btreeSetHasContent x) db (fun _ db' => same_file db db' /\ forall i, pg db' i = pg db i).
Proof.
  unfold btreeSetHasContent. apply ends_bind, ends_get_db. apply (ends_use _ _ _ (fun _ db1 => same_file db db1 /\ forall i, pg db1 i = pg db i)).
  - destruct (hasContent db); by repeat step.
  - intros [] db1 [F P]. repeat step. destruct (hasContent db1) as [[size s]|]; [|by apply ends_ret]. destruct (x <=? size); by repeat step.
Qed.

(** A trunk with room gets another leaf. *)
Definition trunk_with (d : list Z) (k y : Z) : list Z := put4byte (put4byte d 4 (k + 1)) (8 + k * 4) y.
Lemma trunk_with_ok d l y : bytes_ok d -> 12 + 4 * zlen l <= zlen d -> zlen d <= 65536 -> is_u32 y -> words_at d 8 l ->
  zlen (trunk_with d (zlen l) y) = zlen d /\ bytes_ok (trunk_with d (zlen l) y) /\ get4byte (trunk_with d (zlen l) y) 0 = get4byte d 0 /\
  get4byte (trunk_with d (zlen l) y) 4 = zlen (l ++ [y]) /\ words_at (trunk_with d (zlen l) y) 8 (l ++ [y]).
Proof.
  intros Bd Hl H6 Hy Hw. pose proof (zlen_nonneg l). unfold trunk_with. set (d1 := put4byte d 4 (zlen l + 1)). assert (S1 : same_outside [(4, 4)] d d1) by (apply (same_put4 d); lia). assert (Z1 := proj1 S1).
  assert (B1 : bytes_ok d1) by (apply bytes_put4; (done || lia)). assert (S2 : same_outside [(8 + zlen l * 4, 4)] d1 (put4byte d1 (8 + zlen l * 4) y)) by (apply (same_put4 d1); lia). set (d2 := put4byte d1 _ y) in *. assert (Z2 := proj1 S2).
  split_and!; [lia|apply (bytes_put4 d1); (done || lia)| | |].
  - rewrite (same_get4 _ _ _ 0 S2), (same_get4 _ _ _ 0 S1) by (try lia; each; solve_apart). done.
  - rewrite (same_get4 _ _ _ 4 S2) by (try lia; each; solve_apart). rewrite zlen_app. change (zlen [y]) with 1. apply (get4byte_put4byte d); [lia|lia|]. unfold is_u32. lia.
  - apply words_of_lookup. intros j z [Hj|[Hj Hj2]]%lookup_app_Some.
    + pose proof (lookup_lt_Some _ _ _ Hj). assert (zlen l = Z.of_nat (length l)) by done. rewrite (same_get4 _ _ _ _ S2), (same_get4 _ _ _ _ S1) by (try lia; each; solve_apart). by apply words_lookup with (l := l).
    + apply list_lookup_singleton_Some in Hj2 as [Hj2 <-]. replace (8 + 4 * Z.of_nat j) with (8 + zlen l * 4) by (unfold zlen; lia). apply (get4byte_put4byte d1); [lia|lia|done].
Qed.

Lemma add_leaf_freed db0 t l ts2 x db db' : free_rep db0 ((t, l) :: ts2) -> x ∉ free_pages ((t, l) :: ts2) -> usable_page (bt db0) (nPage db0) (pinned db0) x ->
  marked db0 ((t, l) :: ts2) x db -> zlen l < usableSize (bt db0) / 4 - 8 -> same_file db db' -> pg db' t = trunk_with (pg db t) (zlen l) x -> (forall i, i <> t -> pg db' i = pg db i) ->
  freed db0 ((t, l) :: ts2) x db'.
Proof.
  intros Hv Hx Hu Hm Hroom Hsf Et Eo. assert (Hm' := Hm). destruct Hm' as (_ & E1 & Ep & Ei). destruct (fv_chain _ _ _ _ _ Hv) as (E32 & H4 & Hw & Ht2). assert (Hb := fv_bt _ _ _ _ _ Hv). destruct (wf_bt_sizes _ Hb).
  destruct (view_split _ _ _ _ [] _ _ _ Hv) as (V1 & V2 & _ & V4 & V5 & V6 & V7 & V8). assert (Hx' := Hx). rewrite free_pages_cons, not_elem_of_cons, not_elem_of_app in Hx'. destruct Hx' as (Hxt & Hxl & Hx2).
  pose proof (fv_pages _ _ _ _ _ Hv 1) as [L1 _]. assert (S1 : same_outside [(36, 4)] (pg db0 1) (pg db 1)) by (rewrite E1; apply same_put4; lia).
  assert (Etd : pg db t = pg db0 t) by (by apply Ei). destruct (fv_pages _ _ _ _ _ Hv t) as [Lt Bt]. rewrite Etd in Et. pose proof (fv_size _ _ _ _ _ Hv). pose proof (Z.mul_div_le (usableSize (bt db0)) 4 ltac:(lia)).
  destruct (trunk_with_ok (pg db0 t) l x Bt ltac:(lia) ltac:(lia) ltac:(destruct Hu; unfold is_u32; lia) Hw) as (W1 & W2 & W3 & W4 & W5).
  apply (freed_intro _ _ _ db _ ((t, l ++ [x]) :: ts2) Hv Hx Hu Hm); [done| | | | | |].
  - intros i. destruct (decide (i = t)) as [->|Hi]; [rewrite Et, W1; done|]. rewrite Eo by done. apply Ep.
  - by rewrite Eo by done.
  - intros i Hi1 Hix Hi. rewrite free_pages_cons, not_elem_of_cons in Hi. destruct Hi. by apply Eo.
  - rewrite Eo by done. rewrite (same_get4 _ _ _ 32 S1) by (try lia; each; solve_apart). rewrite E32. cbn [trunks_at]. rewrite Et. split_and!; [done|done|done|]. rewrite W3. eapply trunks_frame; [|exact Ht2].
    intros s Hs. destruct (V4 s Hs) as (Hst & Hs1 & _). rewrite Eo, Ei; [done|done| |done]. intros ->. by apply Hx2, trunks_in.
  - rewrite !free_pages_cons, <- app_assoc. cbn [app]. rewrite <- Permutation_middle. apply Permutation_swap.
  - pose proof (fv_cap _ _ _ _ _ Hv) as Hk. apply Forall_cons in Hk as [_ Hk]. apply Forall_cons. split; [|done]. cbn [snd]. rewrite zlen_app. change (zlen [x]) with 1. lia.
Qed.

Lemma free_add_ok db0 ts x present db : free_rep db0 ts -> x ∉ free_pages ts -> usable_page (bt db0) (nPage db0) (pinned db0) x -> marked db0 ts x db ->
  ends (free_add present x (zlen (free_pages ts))) db (fun _ db' => freed db0 ts x db').
Proof.
  intros Hv Hx Hu Hm. unfold free_add. assert (Hc := fv_chain _ _ _ _ _ Hv). destruct ts as [|[t l] ts2].
  { change (zlen (free_pages []) =? 0) with true. cbv iota. cbn [trunks_at] in Hc. rewrite <- Hc. by apply free_new_trunk_ok. }
  assert (Hm' := Hm). destruct Hm' as ((F1 & F2 & F3) & E1 & Ep & Ei). destruct Hc as (E32 & H4 & Hw & Ht2). assert (Hb := fv_bt _ _ _ _ _ Hv). destruct (wf_bt_sizes _ Hb).
  destruct (view_split _ _ _ _ [] _ _ _ Hv) as (V1 & V2 & _ & V4 & V5 & V6 & V7 & V8). assert (Hxt : x <> t) by (rewrite free_pages_cons, not_elem_of_cons in Hx; by destruct Hx).
  pose proof (fv_pages _ _ _ _ _ Hv 1) as [L1 _]. assert (S1 : same_outside [(36, 4)] (pg db0 1) (pg db 1)) by (rewrite E1; apply same_put4; lia). assert (E32' : get4byte (pg db 1) 32 = t) by (rewrite (same_get4 _ _ _ 32 S1) by (try lia; each; solve_apart); done).
  replace (zlen (free_pages ((t, l) :: ts2)) =? 0) with false by (rewrite free_pages_cons, zlen_cons; pose proof (zlen_nonneg (l ++ free_pages ts2)); lia).
  apply ends_bind, ends_get4. rewrite E32'. apply ends_bind, ends_get_db. rewrite F2. replace (nPage db0 <? t) with false by (destruct V7; lia).
  eapply ends_use; [apply getPage_ok; [destruct V7; lia|rewrite F1; by destruct V7 as (_ & _ & ?)]|]. intros [] db1 [a ->]. apply ends_bind, ends_get4. change (pg (set_answers db a) t) with (pg db t). rewrite Ei, H4 by congruence.
  assert (Efull : u32 (usableSize (bt db)) / 4 = usableSize (bt db0) / 4) by (rewrite F1; unfold u32; rewrite Z.mod_small by lia; done). cbn zeta. rewrite Efull. replace (usableSize (bt db0) / 4 - 2 <? zlen l) with false by lia.
  destruct (zlen l <? usableSize (bt db0) / 4 - 8) eqn:Eroom; [|pose proof (free_new_trunk_ok _ _ _ Hv Hx Hu present (set_answers db a) Hm) as G; by rewrite E32 in G].
  repeat step. apply (ends_weaken _ _ (fun _ db2 => same_file db db2 /\ pg db2 t = trunk_with (pg db t) (zlen l) x /\ forall i, i <> t -> pg db2 i = pg db i)).
  - match goal with |- context [set_pages (set_pages ?d1 ?m1) ?m2] => set (db2 := set_pages (set_pages d1 m1) m2) end. assert (Hd : same_file db db2 /\ pg db2 t = trunk_with (pg db t) (zlen l) x /\ forall i, i <> t -> pg db2 i = pg db i).
    { split; [done|]. split; [unfold db2; by rewrite !pg_set_eq|]. intros i Hi. unfold db2. by rewrite !pg_set_ne. }
    destruct (present && _); by repeat step.
  - intros [] db2 (G & Gt & Go). eapply ends_weaken; [apply setHasContent_ok|]. intros [] db3 [(I1 & I2 & I3) I4]. destruct G as (G1 & G2 & G3).
    apply (add_leaf_freed db0 t l ts2 x db db3 Hv Hx Hu Hm); [lia|split_and!; congruence|by rewrite I4|]. intros i Hi. by rewrite I4, Go.
Qed.

(** The page joins the list whatever the caller holds, with and without secure deletion. *)
Lemma freePage2_freed db0 ts x pMemPage : free_rep db0 ts -> autoVacuum (bt db0) = false -> x ∉ free_pages ts -> usable_page (bt db0) (nPage db0) (pinned db0) x ->
  ends (freePage2 pMemPage x) db0 (fun _ db' => freed db0 ts x db').
Proof.
  intros Hv Hav Hx Hu. assert (Hu' := Hu). destruct Hu' as (U1 & U2 & U3). assert (Hb := fv_bt _ _ _ _ _ Hv). destruct (wf_bt_sizes _ Hb). pose proof (fv_pages _ _ _ _ _ Hv 1) as [L1 B1].
  unfold freePage2. apply ends_bind, ends_get_db. replace ((x <? 2) || (nPage db0 <? x)) with false by lia.
  apply (ends_use _ _ _ (fun _ db1 => exists a, db1 = set_answers db0 a)).
  { destruct pMemPage; [apply ends_ret; exists (answers db0); by destruct db0|]. apply ends_found. eauto. }
  intros present db1 [a ->]. repeat step. rewrite (fv_count _ _ _ _ _ Hv : get4byte (pg (set_answers (set_answers db0 a) l) 1) 36 = _).
  match goal with |- context [set_pages ?d1 ?m1] => set (db2 := set_pages d1 m1) end.
  assert (Hm : marked db0 ts x db2).
  { split; [done|]. assert (E1 : pg db2 1 = put4byte (pg db0 1) 36 (zlen (free_pages ts) + 1)) by (unfold db2; by rewrite pg_set_eq). assert (Eo : forall i, i <> 1 -> pg db2 i = pg db0 i) by (intros i Hi; unfold db2; by rewrite pg_set_ne).
    split; [done|]. split; [|intros i Hi _; by apply Eo]. intros i. destruct (decide (i = 1)) as [->|Hi]; [|rewrite Eo by done; apply Hv]. rewrite E1, zlen_put4 by lia. split; [done|]. apply bytes_put4; (done || lia). }
  apply (ends_weaken _ _ (fun _ db3 => marked db0 ts x db3)).
  - destruct (truthy _); [|by repeat step]. apply (ends_use _ _ _ (fun _ db3 => marked db0 ts x db3)).
    { destruct present; [by apply ends_ret|]. eapply ends_weaken; [apply getPage_ok; [lia|done]|]. by intros [] db3 [b ->]. }
    intros [] db3 (F & E1 & Ep & Ei). repeat step. split; [done|].
    match goal with |- context [set_pages ?d1 ?m1] => set (db4 := set_pages d1 m1) end. assert (E4 : pg db4 x = zeros (bt db0)) by (unfold db4; by rewrite pg_set_eq). assert (O4 : forall i, i <> x -> pg db4 i = pg db3 i) by (intros i Hi; unfold db4; by rewrite pg_set_ne).
    change (pg db4 1 = put4byte (pg db0 1) 36 (zlen (free_pages ts) + 1) /\ pages_ok (bt db0) (pg db4) /\ forall i, i <> 1 -> i <> x -> pg db4 i = pg db0 i). split; [rewrite O4 by lia; done|]. split.
    + intros i. destruct (decide (i = x)) as [->|Hi]; [rewrite E4; by apply zeros_ok|]. rewrite O4 by done. apply Ep.
    + intros i Hi Hi'. rewrite O4 by done. by apply Ei.
  - intros present' db3 Hm3. repeat step. rewrite Hav. repeat step.
    eapply ends_weaken; [by apply (free_add_ok db0 ts x present' db3)|]. intros [] db4 H4. by destruct present, present'.
Qed.
