(* ===== verification/BtreeAlloc.v ===== *)
(** A b-tree file as an allocator of pages ([allocator]): a client that allocates, frees and
    writes never gets a page it holds, and its pages keep what it wrote.  The entries of the
    pointer map are independent of each other. *)

From S2P Require Import Prelude Bits Varint Numeric Regions BtreeCell BtreePage BtreeSpace BtreeFile BtreeFree.

(** ** The file as an allocator of pages *)

(** A client holds pages with contents; the others that are not page 1 or the pending byte's are free. *)
Record allocator (db : Db) (used : gmap Z (list Z)) : Prop := {
  al_free : exists ts, free_rep db ts /\ (forall i, 2 <= i <= nPage db -> i <> PENDING_BYTE_PAGE (bt db) -> i ∈ free_pages ts \/ is_Some (used !! i)) /\ (forall i, is_Some (used !! i) -> i ∉ free_pages ts);
  al_used : forall i d, used !! i = Some d -> usable_page (bt db) (nPage db) (pinned db) i /\ pg db i = d;
  al_pins : forall i, i ∈ pinned db -> i = 1;
  al_vacuum : autoVacuum (bt db) = false }.

(** A client decides on its next operation by the pages it was given. *)
Inductive client :=
| Done
| Alloc (nearby : Z) (k : Z -> client)
| Free (pMemPage : bool) (i : Z) (k : client)
| Write (i : Z) (d : list Z) (k : client).

Fixpoint run (c : client) : btm unit :=
  match c with
  | Done => mret tt
  | Alloc nearby k => x ← allocateBtreePage nearby BTALLOC_ANY; run (k x)
  | Free b i k => freePage2 b i;; run k
  | Write i d k => sqlite3PagerWrite i;; set_page i d;; run k
  end.

(** What the client does to the pages it holds: it is given any page that it does not hold, with any content. *)
Inductive does (b : BtShared) : client -> gmap Z (list Z) -> gmap Z (list Z) -> Prop :=
| does_done used : does b Done used used
| does_alloc nearby k used x d used' : used !! x = None -> does b (k x) (<[x := d]> used) used' -> does b (Alloc nearby k) used used'
| does_free p i k used used' : does b k (delete i used) used' -> does b (Free p i k) used used'
| does_write i d k used used' : does b k (<[i := d]> used) used' -> does b (Write i d k) used used'.

(** A client that frees and writes the pages it holds, and does not fill the file. *)
Inductive fair (b : BtShared) : client -> gmap Z (list Z) -> Prop :=
| fair_done used : fair b Done used
| fair_alloc nearby k used : is_u32 nearby -> Z.of_nat (size used) + 8 < 2 ^ 32 ->
    (forall x d, used !! x = None -> zlen d = pageSize b -> bytes_ok d -> fair b (k x) (<[x := d]> used)) -> fair b (Alloc nearby k) used
| fair_free p i k used : is_Some (used !! i) -> fair b k (delete i used) -> fair b (Free p i k) used
| fair_write i d k used : is_Some (used !! i) -> zlen d = pageSize b -> bytes_ok d -> fair b k (<[i := d]> used) -> fair b (Write i d k) used.

(** With nothing free, the client holds nearly all pages. *)
Lemma allocator_full db used : allocator db used -> free_rep db [] -> nPage db <= Z.of_nat (size used) + 2.
Proof.
  intros [(ts & Hv & Hall & Hdisj) Hused _ _] Hv0. assert (Ets : ts = []).
  { destruct ts as [|[t l] ts]; [done|]. pose proof (fv_count _ _ _ _ _ Hv) as E. rewrite (fv_count _ _ _ _ _ Hv0), free_pages_cons, zlen_cons in E. change (zlen (free_pages [])) with 0 in E. pose proof (zlen_nonneg (l ++ free_pages ts)). lia. }
  subst ts. assert (Hs : seqZ 2 (nPage db - 1) ⊆+ PENDING_BYTE_PAGE (bt db) :: elements (dom used)).
  { apply NoDup_submseteq; [apply NoDup_seqZ|]. intros i [Hi1 Hi2]%elem_of_seqZ. destruct (decide (i = PENDING_BYTE_PAGE (bt db))) as [->|Hi]; [left|right]. apply elem_of_elements, elem_of_dom.
    destruct (Hall i ltac:(lia) Hi) as [Hin|]; [by apply elem_of_nil in Hin|done]. }
  apply submseteq_length in Hs. rewrite length_seqZ in Hs. cbn [length] in Hs. pose proof (size_dom used). unfold size, set_size in *. cbn in *. pose proof (fv_size _ _ _ _ _ Hv). lia.
Qed.

(** The client's other pages are as they were. *)
Lemma used_kept db db' (used : gmap Z (list Z)) (ts : list (Z * list Z)) x d : (forall i e, used !! i = Some e -> usable_page (bt db) (nPage db) (pinned db) i /\ pg db i = e) ->
  bt db' = bt db -> pinned db' = pinned db -> nPage db <= nPage db' -> (forall i, is_Some (used !! i) -> i ∉ free_pages ts) ->
  (forall i, 1 < i <= nPage db -> i <> x -> i ∉ free_pages ts -> pg db' i = pg db i) -> usable_page (bt db') (nPage db') (pinned db') x -> pg db' x = d ->
  forall i e, <[x := d]> used !! i = Some e -> usable_page (bt db') (nPage db') (pinned db') i /\ pg db' i = e.
Proof.
  intros Hu Hb Hp Hn Hd Ho Hx Ex i e [(<- & <-)|(Hi & Hie)]%lookup_insert_Some; [done|]. destruct (Hu i e Hie) as [(U1 & U2 & U3) Ee]. split.
  - unfold usable_page. rewrite Hb, Hp. split; [lia|done].
  - rewrite Ho; [done|lia|congruence|]. apply Hd. eauto.
Qed.

Lemma alloc_step db used nearby : allocator db used -> is_u32 nearby -> Z.of_nat (size used) + 8 < 2 ^ 32 ->
  ends (allocateBtreePage nearby BTALLOC_ANY) db (fun x db' => bt db' = bt db /\ used !! x = None /\
    zlen (pg db' x) = pageSize (bt db) /\ bytes_ok (pg db' x) /\ allocator db' (<[x := pg db' x]> used)).
Proof.
  intros Ha Hnb Hsz. assert (Ha' := Ha). destruct Ha' as [(ts & Hv & Hall & Hdisj) Hused Hpins Hav]. destruct (decide (ts = [])) as [->|Hne].
  - pose proof (allocator_full _ _ Ha Hv) as Hfull. assert (Hs := fv_size _ _ _ _ _ Hv).
    eapply ends_weaken; [apply (allocate_extended db nearby Hv ltac:(lia)); intros i Hi Hpi%Hpins; lia|].
    intros x db' (E1 & E2 & E3 & E4 & E5 & E6 & E7 & E8 & E9 & _). destruct (fv_pages _ _ _ _ _ E8 x) as [Lx Bx]. rewrite E1 in Lx.
    assert (Hfresh : used !! x = None). { destruct (used !! x) as [e|] eqn:Ee; [|done]. destruct (Hused x e Ee) as [[? _] _]. lia. }
    assert (Hxu : usable_page (bt db') (nPage db') (pinned db') x). { split; [lia|]. rewrite E1, E2. split; [|done]. intros Hpi%Hpins. lia. }
    split_and!; try done. split; [| |by rewrite E2|by rewrite E1].
    + exists []. split; [done|]. split; [|intros i _; apply not_elem_of_nil]. intros i Hi Hip. rewrite E1 in Hip. right. destruct (decide (i = x)) as [->|Hix]; [rewrite lookup_insert_eq; eauto|]. rewrite lookup_insert_ne by done.
      destruct (decide (i <= nPage db)) as [Hle|]; [destruct (Hall i ltac:(lia) Hip) as [Hin|]; [by apply elem_of_nil in Hin|done]|]. destruct (E5 i ltac:(lia)) as [|[Hav' _]]; [done|]. by rewrite Hav in Hav'.
    + eapply (used_kept db db' used [] x); try done; [lia|]. intros i Hi _ _. by apply E9.
  - eapply ends_weaken; [by apply (allocate_taken db ts nearby BTALLOC_ANY Hv Hne)|]. intros x db' [((E1 & E2 & E3) & E4 & (ts' & Hperm & Hv') & Ho & _) _].
    destruct (fv_pages _ _ _ _ _ Hv' x) as [Lx Bx]. rewrite E1 in Lx. assert (Hxin : x ∈ free_pages ts) by (rewrite Hperm; left).
    assert (Hfresh : used !! x = None). { destruct (used !! x) as [e|] eqn:Ee; [|done]. by destruct (Hdisj x). }
    assert (Hxu : usable_page (bt db') (nPage db') (pinned db') x). { rewrite E1, E2, E3. pose proof (fv_range _ _ _ _ _ Hv) as Hr. rewrite Forall_forall in Hr. by apply Hr. }
    assert (Hnd : x ∉ free_pages ts'). { pose proof (fv_nodup _ _ _ _ _ Hv) as Hd. rewrite Hperm in Hd. by apply NoDup_cons in Hd as [? _]. }
    split_and!; try done. split; [| |by rewrite E3|by rewrite E1].
    + exists ts'. split; [done|]. split.
      * intros i Hi Hip. rewrite E1, E2 in *. destruct (Hall i Hi Hip) as [Hin|Hin].
        -- rewrite Hperm in Hin. apply elem_of_cons in Hin as [->|Hin]; [right; rewrite lookup_insert_eq; eauto|by left].
        -- right. destruct (decide (i = x)) as [->|]; [by rewrite lookup_insert_eq|by rewrite lookup_insert_ne].
      * intros i [e He]. apply lookup_insert_Some in He as [[<- _]|[Hne' He]]; [done|]. intros Hin. apply (Hdisj i); [eauto|]. rewrite Hperm. by right.
    + eapply (used_kept db db' used ts x); try done; [lia|]. intros i Hi _ Hif. apply Ho; [lia|done].
Qed.

Lemma free_step db used p x : allocator db used -> is_Some (used !! x) -> ends (freePage2 p x) db (fun _ db' => bt db' = bt db /\ allocator db' (delete x used)).
Proof.
  intros [(ts & Hv & Hall & Hdisj) Hused Hpins Hav] Hx. assert (Hx' := Hx). destruct Hx' as [e He]. destruct (Hused x e He) as [Hxu _].
  eapply ends_weaken; [by apply (freePage2_freed db ts x p Hv Hav); [apply Hdisj|]|]. intros _ db' ((E1 & E2 & E3) & (ts' & Hperm & Hv') & Ho & _). split; [done|]. split; [| |by rewrite E3|by rewrite E1].
  - exists ts'. split; [done|]. rewrite E1, E2. split.
    + intros i Hi Hip. destruct (decide (i = x)) as [->|Hix]; [left; rewrite Hperm; left|]. rewrite lookup_delete_ne by done. destruct (Hall i Hi Hip); [left; rewrite Hperm; by right|by right].
    + intros i [e' He']. apply lookup_delete_Some in He' as [Hix He']. rewrite Hperm, not_elem_of_cons. split; [done|]. apply Hdisj. eauto.
  - intros i e' He'. apply lookup_delete_Some in He' as [Hix He']. destruct (Hused i e' He') as [Hu Hpg]. rewrite E1, E2, E3. split; [done|]. rewrite Ho; [done| |done|apply Hdisj; eauto]. destruct Hu. lia.
Qed.

Lemma view_frame b n pin f f' ts : free_view b n pin f ts -> pages_ok b f' -> f' 1 = f 1 -> (forall t, t ∈ free_pages ts -> f' t = f t) -> free_view b n pin f' ts.
Proof.
  intros [Hb Hp Hc Hn Hd Hr Hk Hs] Hp' E1 Ef. split; try done; [|by rewrite E1]. rewrite E1. eapply trunks_frame; [|exact Hc]. intros t Ht. by apply Ef, trunks_in.
Qed.
(** Any change of the file that shows in one of the client's pages alone. *)
Lemma allocator_write db used x d db' : allocator db used -> is_Some (used !! x) -> zlen d = pageSize (bt db) -> bytes_ok d -> same_file db db' -> pg db' x = d -> (forall i, i <> x -> pg db' i = pg db i) ->
  allocator db' (<[x := d]> used).
Proof.
  intros [(ts & Hv & Hall & Hdisj) Hused Hpins Hav] Hx Ld Bd (E1 & E2 & E3) Ex Eo. assert (Hx' := Hx). destruct Hx' as [e He]. destruct (Hused x e He) as [Hxu _]. split; [| |by rewrite E3|by rewrite E1].
  - exists ts. split; [|rewrite E1, E2; split].
    + unfold free_rep. rewrite E1, E2, E3. eapply view_frame; [exact Hv| | |].
      * intros i. destruct (decide (i = x)) as [->|]; [by rewrite Ex|]. rewrite Eo by done. apply (fv_pages _ _ _ _ _ Hv).
      * apply Eo. destruct Hxu. lia.
      * intros t Ht. apply Eo. intros ->. by apply (Hdisj x).
    + intros i Hi Hip. destruct (Hall i Hi Hip); [by left|right]. destruct (decide (i = x)) as [->|]; [rewrite lookup_insert_eq; eauto|by rewrite lookup_insert_ne].
    + intros i [e' He']. apply lookup_insert_Some in He' as [[<- _]|[_ He']]; apply Hdisj; eauto.
  - eapply (used_kept db db' used [] x); try done; [lia|intros; apply not_elem_of_nil| |by rewrite E1, E2, E3]. intros i _ Hi _. by apply Eo.
Qed.

Lemma write_step db used x d : allocator db used -> is_Some (used !! x) -> zlen d = pageSize (bt db) -> bytes_ok d ->
  ends (set_page x d) db (fun _ db' => bt db' = bt db /\ allocator db' (<[x := d]> used)).
Proof.
  intros Ha Hx Ld Bd. step. split; [done|]. apply (allocator_write db); try done; [apply pg_set_eq|intros i Hi; by apply pg_set_ne].
Qed.
Lemma allocator_answers db used a : allocator db used -> allocator (set_answers db a) used.
Proof. by intros [H1 H2 H3 H4]. Qed.

Lemma client_ok b c used : fair b c used -> forall db, bt db = b -> allocator db used ->
  ends (run c) db (fun _ db' => exists used', does b c used used' /\ allocator db' used').
Proof.
  induction 1 as [used|nearby k used Hnb Hsz _ IH|p i k used Hi _ IH|i d k used Hi Ld Bd _ IH]; intros db Hb Ha; cbn [run].
  - apply ends_ret. exists used. split; [constructor|done].
  - eapply ends_use; [by apply alloc_step|]. intros x db1 (E & Hx & Lx & Bx & Ha1). rewrite Hb in *. eapply ends_weaken; [by apply (IH x _ Hx Lx Bx)|]. intros _ db2 (used' & Hd & Ha2). exists used'. split; [|done]. by eapply does_alloc.
  - eapply ends_use; [by apply free_step|]. intros [] db1 (E & Ha1). rewrite Hb in *. eapply ends_weaken; [by apply IH|]. intros _ db2 (used' & Hd & Ha2). exists used'. split; [|done]. by constructor.
  - apply ends_bind, ends_pager_call. intros a _. eapply ends_use; [apply write_step; [by apply allocator_answers|done|by rewrite <- Hb in Ld|done]|]. intros [] db1 (E & Ha1). cbn [bt set_answers] in E. rewrite Hb in E.
    eapply ends_weaken; [by apply IH|]. intros _ db2 (used' & Hd & Ha2). exists used'. split; [|done]. by constructor.
Qed.

(** ** The pointer map *)

(** A page that has an entry. *)
Definition mapped (b : BtShared) (key : Z) : Prop := 2 <= key < 2 ^ 31 /\ PTRMAP_ISPAGE b key = false /\ key <> PENDING_BYTE_PAGE b.
Definition ptrmap_entry (db : Db) (key : Z) : Z * Z :=
  let p := ptrmapPageno (bt db) key in let d := pg db p in
  (d.[PTRMAP_PTROFFSET p key], get4byte d (PTRMAP_PTROFFSET p key + 1)).

(** Entries fit on their page. *)
Lemma ptrmap_fits b key : wf_bt b -> mapped b key -> let p := ptrmapPageno b key in
  2 <= p < key /\ p <> PENDING_BYTE_PAGE b /\ PTRMAP_PTROFFSET p key = 5 * (key - p - 1) /\ 5 * (key - p - 1) + 5 <= usableSize b.
Proof.
  intros Hb (Hk & Hi & Hp). destruct (wf_bt_sizes _ Hb). unfold PTRMAP_ISPAGE, ptrmapPageno in *. replace (key <? 2) with false in * by lia. set (n := usableSize b / 5 + 1) in *.
  assert (Hn : 5 * (n - 1) <= usableSize b /\ 97 <= n) by (unfold n; pose proof (Z.div_mod (usableSize b) 5 ltac:(lia)); pose proof (Z.mod_pos_bound (usableSize b) 5 ltac:(lia)); lia). clearbody n. set (r := (key - 2) / n * n + 2) in *.
  assert (Hr : 2 <= r <= key /\ key < r + n) by (unfold r; pose proof (Z.mul_nonneg_nonneg ((key - 2) / n) n (Z.div_pos (key - 2) n ltac:(lia) ltac:(lia)) ltac:(lia)); pose proof (Z.div_mod (key - 2) n ltac:(lia)); pose proof (Z.mod_pos_bound (key - 2) n ltac:(lia)); lia). cbn zeta. unfold PTRMAP_PTROFFSET, i32.
  destruct (r =? PENDING_BYTE_PAGE b) eqn:E; (split; [lia|]; split; [lia|]; rewrite Z.mod_small by lia; split; lia).
Qed.

(** Two entries are the same only if the pages are. *)
Lemma ptrmap_apart b k1 k2 : wf_bt b -> mapped b k1 -> mapped b k2 -> k1 <> k2 -> ptrmapPageno b k1 = ptrmapPageno b k2 ->
  apart (PTRMAP_PTROFFSET (ptrmapPageno b k1) k1, 5) (PTRMAP_PTROFFSET (ptrmapPageno b k2) k2, 5).
Proof.
  intros Hb H1 H2 Hne E. destruct (ptrmap_fits b k1 Hb H1) as (_ & _ & E1 & _), (ptrmap_fits b k2 Hb H2) as (_ & _ & E2 & _). rewrite E1, E2, E. unfold apart. cbn [fst snd]. lia.
Qed.

Lemma ptrmap_put_get db key eType parent : wf_bt (bt db) -> pages_ok (bt db) (pg db) -> mapped (bt db) key -> ptrmapPageno (bt db) key ∉ inited db -> 1 <= eType <= 5 -> is_u32 parent ->
  ends (ptrmapPut key eType parent) db (fun _ db' => same_file db db' /\ pages_ok (bt db) (pg db') /\
    ptrmap_entry db' key = (eType, parent) /\ (forall k, mapped (bt db) k -> k <> key -> ptrmap_entry db' k = ptrmap_entry db k) /\
    (forall i, i <> ptrmapPageno (bt db) key -> pg db' i = pg db i)).
Proof.
  intros Hb Hpo Hk Hin He Hpar. destruct (ptrmap_fits _ _ Hb Hk) as (P1 & P2 & P3 & P4). destruct (wf_bt_sizes _ Hb). unfold ptrmapPut. apply ends_bind, ends_get_db. replace (key =? 0) with false by (destruct Hk; lia).
  eapply ends_use; [apply getPage_ok; [lia|done]|]. intros [] db1 [a ->]. apply ends_bind, ends_get_db. cbn [inited set_answers]. rewrite bool_decide_eq_false_2 by done.
  set (p := ptrmapPageno (bt db) key) in *. set (off := PTRMAP_PTROFFSET p key) in *. replace (off <? 0) with false by lia. apply ends_bind, ends_page. change (pg (set_answers db a) p) with (pg db p).
  destruct (Hpo p) as [Lp Bp]. destruct (negb (eType =? (pg db p).[off]) || negb (get4byte (pg db p) (off + 1) =? parent)) eqn:E.
  - apply ends_bind, ends_pager_call. intros a2 _. step. set (d1 := (pg db p).[off <- eType]). assert (S1 : same_outside [(off, 1)] (pg db p) d1) by apply same_zput. assert (L1 : zlen d1 = zlen (pg db p)) by apply S1.
    set (d2 := put4byte d1 (off + 1) parent). assert (S2 : same_outside [(off + 1, 4)] d1 d2) by (apply (same_put4 d1); lia). assert (L2 := proj1 S2). set (db' := set_pages _ _).
    assert (Dp : pg db' p = d2) by (unfold db'; by rewrite pg_set_eq). assert (Do : forall i, i <> p -> pg db' i = pg db i) by (intros i Hi; unfold db'; by rewrite pg_set_ne).
    assert (B1 : bytes_ok d1) by (apply bytes_zput; [done|unfold is_u8; lia]). split; [done|]. split; [|split; [|split; [|done]]].
    + intros i. destruct (decide (i = p)) as [->|Hi]; [|rewrite Do by done; apply Hpo]. rewrite Dp. split; [lia|]. apply (bytes_put4 d1); (done || lia).
    + unfold ptrmap_entry. change (bt db') with (bt db). fold p. fold off. rewrite Dp. f_equal; [|apply (get4byte_put4byte d1); [lia|lia|done]].
      rewrite (same_byte _ _ _ off S2) by (each; solve_apart). unfold d1. apply zget_zput_eq. lia.
    + intros k Hmk Hne. unfold ptrmap_entry. change (bt db') with (bt db). destruct (decide (ptrmapPageno (bt db) k = p)) as [Ep|Ep]; [|by rewrite Do].
      destruct (ptrmap_fits _ _ Hb Hmk) as (K1 & _ & K3 & K4). pose proof (ptrmap_apart _ k key Hb Hmk Hk Hne Ep) as Ha. rewrite Ep in *. fold p in Ha. fold off in Ha. rewrite Dp. unfold apart in Ha. cbn [fst snd] in Ha.
      set (o := PTRMAP_PTROFFSET p k) in *. f_equal.
      * rewrite (same_byte _ _ _ o S2), (same_byte _ _ _ o S1) by (each; solve_apart). done.
      * rewrite (same_get4 _ _ _ (o + 1) S2), (same_get4 _ _ _ (o + 1) S1) by (try lia; each; solve_apart). done.
  - apply ends_ret. split; [done|]. split; [done|]. split; [|done]. unfold ptrmap_entry. change (bt (set_answers db a)) with (bt db). fold p. fold off. change (pg (set_answers db a)) with (pg db). f_equal; lia.
Qed.

Lemma ptrmap_get db key : wf_bt (bt db) -> mapped (bt db) key -> 1 <= (ptrmap_entry db key).1 <= 5 ->
  ends (ptrmapGet key) db (fun r db' => r = ptrmap_entry db key /\ exists a, db' = set_answers db a).
Proof.
  intros Hb Hk He. destruct (ptrmap_fits _ _ Hb Hk) as (P1 & P2 & P3 & P4). unfold ptrmapGet. apply ends_bind, ends_get_db. eapply ends_use; [apply getPage_ok; [lia|done]|]. intros [] db1 [a ->].
  unfold ptrmap_entry in *. cbn [fst] in He. replace (PTRMAP_PTROFFSET (ptrmapPageno (bt db) key) key <? 0) with false by lia. apply ends_bind, ends_page. change (pg (set_answers db a)) with (pg db). replace (_ || _) with false by lia. apply ends_ret. eauto.
Qed.

(** ** What the client relies on *)

(** C15. A b-tree file without auto-vacuum, whose free list is sound, is an allocator of pages.  A
    client that allocates without a preference, frees and overwrites pages in any order,
    deciding each step by the pages it was given, is never given a page it holds already, nor
    page 1, nor the page of the lock bytes, nor one past the end of the file; each page it holds
    keeps what the client wrote last; each page it gave back is on the free list, so none is
    lost; and it is never told that the file is corrupt: an error is one that the pager
    reported. *)
Theorem file_refines_allocator (db : Db) (used : gmap Z (list Z)) (c : client) :
  allocator db used -> fair (bt db) c used ->
  match run c db with
  | (inr _, db') => exists used', does (bt db) c used used' /\ allocator db' used'
  | (inl rc, _) => rc ∈ answers db /\ rc <> SQLITE_OK
  end.
Proof.
  intros Ha Hf. pose proof (client_ok _ _ _ Hf db eq_refl Ha) as H. unfold ends in H. by destruct (run c db) as [[rc|x] db']; [|destruct H].
Qed.

Definition new_bt : BtShared := lockBtree_limits false 0 512 512.
Definition new_file : Db := mkDb new_bt 1 false ∅ None ∅ ∅ {[1]} [].
Definition client_page : list Z := replicate 512 7.
(** Two pages are taken; the first is freed and taken again by the third allocation. *)
Definition example_client : client := Alloc 0 (fun x => Write x client_page (Alloc 0 (fun y => Free true x (Alloc 0 (fun z => Write z (replicate 512 9) Done))))).

Lemma new_bt_wf : wf_bt new_bt.
Proof. split; [exists 9; split; [lia|reflexivity]|cbn; lia]. Qed.
Lemma new_file_free : free_rep new_file [].
Proof.
  assert (E : forall i, pg new_file i = replicate 512 0) by (intros i; unfold pg; cbn [pages new_file]; by rewrite lookup_empty).
  split; [exact new_bt_wf| | | |constructor|constructor|constructor|cbn; lia].
  - intros i. rewrite E. split; [reflexivity|]. apply Forall_replicate. unfold is_u8. lia.
  - rewrite E. reflexivity.
  - rewrite E. reflexivity.
Qed.
Lemma new_file_allocator : allocator new_file ∅.
Proof.
  split.
  - exists []. split; [apply new_file_free|]. split; [cbn; lia|]. intros i [d Hd]. by rewrite lookup_empty in Hd.
  - intros i d Hd. by rewrite lookup_empty in Hd.
  - intros i Hi. cbn in Hi. set_solver.
  - reflexivity.
Qed.
Lemma page_filled n v : n = 512%nat -> is_u8 v -> zlen (replicate n v) = pageSize new_bt /\ bytes_ok (replicate n v).
Proof. intros -> Hv. split; [by unfold zlen; rewrite length_replicate|by apply Forall_replicate]. Qed.

Lemma size_insert_le (m : gmap Z (list Z)) i d : (size (<[i := d]> m) <= S (size m))%nat.
Proof. rewrite map_size_insert. destruct (m !! i); cbn; lia. Qed.
Lemma size_delete_le (m : gmap Z (list Z)) i : (size (delete i m) <= size m)%nat.
Proof. rewrite map_size_delete. destruct (m !! i); cbn; lia. Qed.
Lemma example_client_fair : fair new_bt example_client ∅.
Proof.
  destruct (page_filled 512 7 eq_refl ltac:(unfold is_u8; lia)) as [L7 B7], (page_filled 512 9 eq_refl ltac:(unfold is_u8; lia)) as [L9 B9].
  assert (H0 : is_u32 0) by (unfold is_u32; lia). pose proof size_insert_le as Hi. pose proof size_delete_le as Hd.
  constructor; [done|rewrite map_size_empty; lia|]. intros x d _ Ld Bd. constructor; [rewrite lookup_insert_eq; eauto|exact L7|exact B7|]. rewrite insert_insert_eq.
  pose proof (Hi ∅ x client_page) as S1. rewrite map_size_empty in S1. set (m1 := <[x := client_page]> ∅) in *. constructor; [done|lia|]. intros y e Hy Le Be.
  pose proof (Hi m1 y e) as S2. constructor.
  { destruct (decide (y = x)) as [->|Hxy]; [rewrite lookup_insert_eq; eauto|]. rewrite lookup_insert_ne by done. unfold m1. rewrite lookup_insert_eq. eauto. }
  pose proof (Hd (<[y := e]> m1) x) as S3. constructor; [done|lia|]. intros z f _ Lf Bf. constructor; [rewrite lookup_insert_eq; eauto|exact L9|exact B9|constructor].
Qed.

Lemma file_refines_allocator_witness : exists db' used', run example_client new_file = (inr tt, db') /\
  does new_bt example_client ∅ used' /\ allocator db' used' /\ nPage db' = 3 /\ pg db' 2 = replicate 512 9.
Proof.
  pose proof (file_refines_allocator new_file ∅ example_client new_file_allocator example_client_fair) as H.
  destruct (run example_client new_file) as [[rc|[]] db'] eqn:E.
  - exfalso. destruct H as [H _]. by apply elem_of_nil in H.
  - destruct H as (used' & H1 & H2). exists db', used'. split; [done|]. split; [done|]. split; [done|].
    replace db' with (snd (run example_client new_file)) by (rewrite E; done). split; by_compute.
Defined.


(** A file with auto-vacuum: page 2 is the pointer map, page 4 a trunk with the leaf 5. *)
Definition vacuum_bt : BtShared := lockBtree_limits true 0 512 512.
Definition vacuum_file : Db := mkDb vacuum_bt 5 false
  {[ 1 := put4byte (put4byte (replicate 512 0) 32 4) 36 2; 2 := ((replicate 512 0).[5 <- 2]).[10 <- 2];
     4 := put4byte (put4byte (replicate 512 0) 4 1) 8 5 ]} None ∅ ∅ {[1]} [].

Lemma vacuum_bt_wf : wf_bt vacuum_bt.
Proof. split; [exists 9; split; [lia|reflexivity]|cbn; lia]. Qed.
Lemma vacuum_pages_ok i : zlen (pg vacuum_file i) = 512 /\ bytes_ok (pg vacuum_file i).
Proof.
  unfold pg. destruct (pages vacuum_file !! i) as [d|] eqn:E; cbn [default].
  - cbn [pages vacuum_file] in E. repeat (apply lookup_insert_Some in E as [[_ <-]|[_ E]]; [split; [reflexivity|by_compute]|]). apply lookup_singleton_Some in E as [_ <-]. split; [reflexivity|by_compute].
  - split; [reflexivity|]. apply Forall_replicate. unfold is_u8. lia.
Qed.
Lemma vacuum_file_free : free_rep vacuum_file [(4, [5])].
Proof.
  split; [exact vacuum_bt_wf|exact vacuum_pages_ok| | | | | |].
  - vm_compute. done.
  - by_compute.
  - apply (bool_decide_unpack _). by vm_compute.
  - change (Forall (usable_page vacuum_bt 5 {[1]}) [4; 5]). apply Forall_forall. intros i Hi. assert (i = 4 \/ i = 5) as [-> | ->] by set_solver; (split; [lia|]; split; [set_solver by lia|]; by vm_compute).
  - apply Forall_singleton. by vm_compute.
  - by_compute.
Qed.


(** The comment above [allocateBtreePage] leaves open what [BTALLOC_LE] gives when no free page
    is low enough: it gives none, and the file is said to be corrupt. *)
Lemma no_page_below_is_corrupt : free_rep vacuum_file [(4, [5])] /\ fst (allocateBtreePage 3 BTALLOC_LE vacuum_file) = inl SQLITE_CORRUPT.
Proof. split; [exact vacuum_file_free|by_compute]. Qed.

(** What [ptrmapPut] records for a page, of any of the kinds of pages, [ptrmapGet] reads back,
    on whatever page of the map the entry lies, also next to the page of the lock bytes; the
    entries of all other pages read as before, and no page but that one of the map changes.
    No call finds the map corrupt. *)
Theorem ptrmap_roundtrip (db : Db) (key eType parent : Z) :
  wf_bt (bt db) -> pages_ok (bt db) (pg db) -> mapped (bt db) key -> ptrmapPageno (bt db) key ∉ inited db -> 1 <= eType <= 5 -> is_u32 parent ->
  match ptrmapPut key eType parent db with
  | (inr _, db') =>
      (forall k, mapped (bt db) k -> let e := if k =? key then (eType, parent) else ptrmap_entry db k in 1 <= e.1 <= 5 ->
        match ptrmapGet k db' with (inr r, _) => r = e | (inl rc, _) => rc ∈ answers db /\ rc <> SQLITE_OK end) /\
      (forall i, i <> ptrmapPageno (bt db) key -> pg db' i = pg db i)
  | (inl rc, _) => rc ∈ answers db /\ rc <> SQLITE_OK
  end.
Proof.
  intros Hb Hp Hk Hi He Hpar. pose proof (ptrmap_put_get db key eType parent Hb Hp Hk Hi He Hpar) as H. unfold ends in H.
  destruct (ptrmapPut key eType parent db) as [[rc|[]] db']; [done|]. destruct H as [((E1 & _) & _ & Ek & Eo & Ei) [l Hl]]. split; [|done].
  intros k Hm e Hrange. assert (Ee : ptrmap_entry db' k = e) by (unfold e; destruct (k =? key) eqn:E; [by replace k with key by lia|apply Eo; [done|lia]]).
  pose proof (ptrmap_get db' k ltac:(by rewrite E1) ltac:(by rewrite E1) ltac:(by rewrite Ee)) as G. unfold ends in G. destruct (ptrmapGet k db') as [[rc|r] db'']; [|destruct G as [[-> _] _]; done].
  destruct G as [G1 G2]. split; [|done]. rewrite Hl. apply elem_of_app. by right.
Qed.

Lemma ptrmap_roundtrip_witness : exists db', ptrmapPut 4 PTRMAP_OVERFLOW2 3 vacuum_file = (inr tt, db') /\ fst (ptrmapGet 4 db') = inr (PTRMAP_OVERFLOW2, 3) /\ fst (ptrmapGet 5 db') = inr (PTRMAP_FREEPAGE, 0) /\ pg db' 4 = pg vacuum_file 4.
Proof.
  assert (M : forall k, 4 <= k <= 5 -> mapped vacuum_bt k) by (intros k Hk; split; [lia|]; assert (k = 4 \/ k = 5) as [-> | ->] by lia; (split; [by_compute|by vm_compute])).
  pose proof (ptrmap_roundtrip vacuum_file 4 PTRMAP_OVERFLOW2 3 vacuum_bt_wf vacuum_pages_ok (M 4 ltac:(lia)) ltac:(set_solver) ltac:(unfold PTRMAP_OVERFLOW2; lia) ltac:(unfold is_u32; lia)) as H.
  assert (E : fst (ptrmapPut 4 PTRMAP_OVERFLOW2 3 vacuum_file) = inr tt) by by_compute. destruct (ptrmapPut 4 PTRMAP_OVERFLOW2 3 vacuum_file) as [r db'] eqn:Edb. cbn [fst] in E. subst r. exists db'. split; [done|].
  destruct H as [H1 H2]. assert (N : forall rc, ~ (rc ∈ answers vacuum_file /\ rc <> SQLITE_OK)) by (intros rc [Hin _]; by apply not_elem_of_nil in Hin). split; [|split].
  - specialize (H1 4 (M 4 ltac:(lia)) ltac:(by vm_compute)). destruct (ptrmapGet 4 db') as [[rc|x] db'']; [by destruct (N rc)|]. cbn [fst]. f_equal. exact H1.
  - specialize (H1 5 (M 5 ltac:(lia)) ltac:(by vm_compute)). destruct (ptrmapGet 5 db') as [[rc|x] db'']; [by destruct (N rc)|]. cbn [fst]. f_equal. rewrite H1. by_compute.
  - apply H2. by vm_compute.
Defined.
