(* ===== verification/BtreePayload.v ===== *)
(** Payloads of cells and their overflow pages (btree.c section of sqlite3.c): [fillInCell]
    spills what does not fit into a chain of pages, [accessPayload] reads and overwrites any
    part of it through the cursor's cache of the chain, [clearCellOverflow] gives the chain
    back.  This file holds their definitions and the proof for [accessPayload]; BtreeOverflow
    has the other two and the life of a cell.

    The page of the cursor is a [MemPage] whose bytes are those the file shows now.  An error
    ends a computation with the file as it is then; what the buffer and the cache of the
    cursor hold after one is not modelled. *)

From S2P Require Import Prelude Bits Varint Numeric Regions BtreeCell BtreePage BtreeSpace BtreeFile BtreeFree BtreeAlloc.

(** ** The chain of overflow pages *)

(** [while( PTRMAP_ISPAGE(pBt, iGuess) || iGuess==PENDING_BYTE_PAGE(pBt) ) iGuess++]; there are at most two such pages in a row. *)
Fixpoint skip_maps (fuel : nat) (b : BtShared) (iGuess : Z) : Z :=
  match fuel with
  | O => iGuess
  | S fuel => if PTRMAP_ISPAGE b iGuess || (iGuess =? PENDING_BYTE_PAGE b) then skip_maps fuel b (u32 (iGuess + 1)) else iGuess
  end.

(** The next page, and whether the page [ovfl] was loaded for it. *)
Definition getOverflowPage (ovfl : Z) : btm (bool * Z) :=
  db ← get_db;
  next ←
    (if autoVacuum (bt db) then
       let iGuess := skip_maps 3 (bt db) (u32 (ovfl + 1)) in
       if iGuess <=? nPage db then
         '(eType, pgno) ← ptrmapGet iGuess;
         mret (if (eType =? PTRMAP_OVERFLOW2) && (pgno =? ovfl) then iGuess else 0)
       else mret 0
     else mret 0);
  if next =? 0 then btreeGetPage ovfl false;; next ← get4 ovfl 0; mret (true, next) else mret (false, next).

(** The answer is [SQLITE_OK] or [SQLITE_NOMEM]. *)
Definition sqlite3Realloc : btm unit := pager_call.

(** ** Cursors *)

Definition BTCF_ValidNKey : Z := 0x02.
Definition BTCF_ValidOvfl : Z := 0x04.

(** [info] is the offset of the cell and what was parsed, or none if [info.nSize] is 0.
    [aOverflow] holds the entries of the allocation. *)
Record BtCursor := mkCur { curPage : MemPage; ix : Z; info : option (Z * CellInfo); curFlags : Z; aOverflow : option (list Z) }.
Definition set_cache (c : BtCursor) (l : list Z) : BtCursor := mkCur (curPage c) (ix c) (info c) (curFlags c) (Some l).
Definition the_cache (c : BtCursor) : list Z := default [] (aOverflow c).

Definition cellOffsetOf (p : MemPage) (i : Z) : Z := Z.land (maskPage p) (get2byte (aData p) (cellOffset p + 2 * i)).

(** The cell, and the cursor that knows it. *)
Definition getCellInfo (c : BtCursor) (d : list Z) : Z * CellInfo * BtCursor :=
  match info c with
  | Some i => (i.1, i.2, c)
  | None =>
      let p := set_aData (curPage c) d in
      let off := cellOffsetOf p (ix c) in
      let i := run_xParseCell (pBt p) (ptype p) (drop (Z.to_nat off) (aData p)) in
      (off, i, mkCur (curPage c) (ix c) (Some (off, i)) (Z.lor (curFlags c) BTCF_ValidNKey) (aOverflow c))
  end.

(** ** Reading and overwriting *)

(** The bytes at [i] of the page are copied to or from the buffer at [pb]. *)
Definition copyPayload (pgno i : Z) (pBuf : list Z) (pb nByte : Z) (eOp : bool) : btm (list Z) :=
  if eOp then
    sqlite3PagerWrite pgno;; d ← page pgno; set_page pgno (splice d i (slice pBuf pb nByte));; mret pBuf
  else d ← page pgno; mret (splice pBuf pb (slice d i nByte)).

(** The page is read from the file, past the page cache, if the pager says that the file has it
    as the cache would; the four bytes before the buffer are saved and restored. *)
Definition overflow_page (nextPage offset a : Z) (pBuf : list Z) (pb : Z) (eOp : bool) : btm (Z * list Z) :=
  direct ← (if negb eOp && (offset =? 0) then (ok ← found; mret (ok && (4 <=? pb))) else mret false);
  if direct : bool then
    pager_call;; next ← get4 nextPage 0; d ← page nextPage; mret (next, splice pBuf pb (slice d 4 a))
  else
    btreeGetPage nextPage false;;
    next ← get4 nextPage 0;
    pBuf ← copyPayload nextPage (offset + 4) pBuf pb a eOp;
    mret (next, pBuf).

(** [while( nextPage )]: the cursor and the buffer.  Each round passes over [ovflSize] bytes of the chain. *)
Fixpoint access_chain (fuel : nat) (c : BtCursor) (ovflSize nextPage offset amt : Z) (pBuf : list Z) (pb iIdx : Z) (eOp : bool) : btm (BtCursor * list Z) :=
  match fuel with
  | O => fail SQLITE_CORRUPT
  | S fuel =>
      if nextPage =? 0 then fail SQLITE_CORRUPT
      else
        db ← get_db;
        if nPage db <? nextPage then fail SQLITE_CORRUPT
        else
          let c := set_cache c ((the_cache c).[iIdx <- nextPage]) in
          if ovflSize <=? offset then
            next ←
              (let known := (the_cache c).[iIdx + 1] in
               if truthy known then mret known else '(_, next) ← getOverflowPage nextPage; mret next);
            access_chain fuel c ovflSize next (offset - ovflSize) amt pBuf pb (iIdx + 1) eOp
          else
            let a := if ovflSize <? amt + offset then ovflSize - offset else amt in
            '(next, pBuf) ← overflow_page nextPage offset a pBuf pb eOp;
            if amt - a =? 0 then mret (c, pBuf)
            else access_chain fuel c ovflSize next 0 (amt - a) pBuf (pb + a) (iIdx + 1) eOp
  end.

(** The cache with at least [nOvfl] entries, all unknown: allocated for twice as many if there is no room. *)
Definition fresh_cache (c : BtCursor) (nOvfl : Z) : btm BtCursor :=
  let have := match aOverflow c with Some l => zlen l | None => 0 end in
  l ← (if bool_decide (aOverflow c = None) || (have <? nOvfl) then sqlite3Realloc;; mret (replicate (Z.to_nat (nOvfl * 2)) 0) else mret (the_cache c));
  mret (mkCur (curPage c) (ix c) (info c) (Z.lor (curFlags c) BTCF_ValidOvfl) (Some (splice l 0 (replicate (Z.to_nat nOvfl) 0)))).

(** The part of the payload that is in overflow pages, where [amt] is not 0. *)
Definition access_overflow (c : BtCursor) (nextPage nOver offset amt : Z) (pBuf : list Z) (pb : Z) (eOp : bool) : btm (BtCursor * list Z) :=
  db ← get_db;
  let ovflSize := usableSize (bt db) - 4 in
  let fuel := S (S (Z.to_nat ((offset + amt) / ovflSize))) in
  if negb (truthy (Z.land (curFlags c) BTCF_ValidOvfl)) then
    c ← fresh_cache c (i32 (u32 (nOver + ovflSize - 1) / ovflSize));
    access_chain fuel c ovflSize nextPage offset amt pBuf pb 0 eOp
  else
    let iIdx := offset / ovflSize in
    if truthy (the_cache c).[iIdx] then access_chain fuel c ovflSize (the_cache c).[iIdx] (offset mod ovflSize) amt pBuf pb iIdx eOp
    else access_chain fuel c ovflSize nextPage offset amt pBuf pb 0 eOp.

(** The cursor and the buffer. *)
Definition accessPayload (c : BtCursor) (offset amt : Z) (pBuf : list Z) (eOp : bool) : btm (BtCursor * list Z) :=
  let p := curPage c in
  if nCell p <=? ix c then fail SQLITE_CORRUPT
  else
    db ← get_db;
    d ← page (pgno p);
    let '(off, i, c) := getCellInfo c d in
    let aPayload := off + pPayload i in
    if u32 (usableSize (bt db) - nLocal i) <? aPayload then fail SQLITE_CORRUPT
    else
      let inPage := offset <? nLocal i in
      let a := if inPage then (if nLocal i <? amt + offset then nLocal i - offset else amt) else 0 in
      pBuf ← (if inPage then copyPayload (pgno p) (aPayload + offset) pBuf 0 a eOp else mret pBuf);
      if 0 <? amt - a then
        nextPage ← get4 (pgno p) (aPayload + nLocal i);
        access_overflow c nextPage (u32 (nPayload i - nLocal i)) (if inPage then 0 else offset - nLocal i) (amt - a) pBuf a eOp
      else mret (c, pBuf).

Definition sqlite3BtreePayload (c : BtCursor) (offset amt : Z) (pBuf : list Z) : btm (BtCursor * list Z) := accessPayload c offset amt pBuf false.

(** ** Giving the chain back *)

(** [while( nOvfl-- )] *)
Fixpoint clear_chain (nOvfl : nat) (ovflPgno : Z) : btm unit :=
  match nOvfl with
  | O => mret tt
  | S nOvfl =>
      db ← get_db;
      if (ovflPgno <? 2) || (nPage db <? ovflPgno) then fail SQLITE_CORRUPT
      else
        '(loaded, iNext) ← (if negb (Nat.eqb nOvfl 0) then getOverflowPage ovflPgno else mret (false, 0));
        pOvfl ← (if loaded : bool then mret true else found);
        db ← get_db;
        (if pOvfl && bool_decide (ovflPgno ∈ pinned db) then fail SQLITE_CORRUPT else freePage2 pOvfl ovflPgno);;
        clear_chain nOvfl iNext
  end.

(** The cell is at [off] of the page [pgno]. *)
Definition clearCellOverflow (pgno off : Z) (pInfo : CellInfo) : btm unit :=
  db ← get_db;
  if pageSize (bt db) <? off + nSize pInfo then fail SQLITE_CORRUPT
  else
    ovflPgno ← get4 pgno (off + nSize pInfo - 4);
    let ovflPageSize := usableSize (bt db) - 4 in
    let nOvfl := i32 (u32 (u32 (nPayload pInfo - nLocal pInfo) + ovflPageSize - 1) / ovflPageSize) in
    clear_chain (Z.to_nat nOvfl) ovflPgno.

(** [BTREE_CLEAR_CELL] *)
Definition BTREE_CLEAR_CELL (p : MemPage) (off : Z) : btm CellInfo :=
  d ← page (pgno p);
  let sInfo := run_xParseCell (pBt p) (ptype p) (drop (Z.to_nat off) d) in
  (if negb (nLocal sInfo =? nPayload sInfo) then clearCellOverflow (pgno p) off sInfo else mret tt);;
  mret sInfo.

(** ** Making a cell *)

Record BtreePayload := mkPayload { pKey : list Z; pX_nKey : Z; pData : list Z; nData : Z; nZero : Z }.

Definition putVarint32 (p : list Z) (v : Z) : list Z * Z := if u32 v <? 0x80 then (p.[0 <- u8 v], 1) else sqlite3PutVarint p v.
(** A varint at an offset. *)
Definition put_at (p : list Z) (i : Z) (put : list Z -> list Z * Z) : list Z * Z :=
  let '(q, n) := put (drop (Z.to_nat i) p) in (take (Z.to_nat i) p ++ q, n).

(** Where the next bytes of the payload go: the cell in memory, or an overflow page. *)
Definition store (pCell : list Z) (dst : option Z) (i : Z) (s : list Z) : btm (list Z) :=
  match dst with
  | None => mret (splice pCell i s)
  | Some pgno => d ← page pgno; set_page pgno (splice d i s);; mret pCell
  end.

(** [do{ pgnoOvfl++; }while( PTRMAP_ISPAGE(pBt, pgnoOvfl) || pgnoOvfl==PENDING_BYTE_PAGE(pBt) )] *)
Definition next_guess (b : BtShared) (pgnoOvfl : Z) : Z := if autoVacuum b then skip_maps 3 b (u32 (pgnoOvfl + 1)) else pgnoOvfl.

(** The next page of the chain, with its entry in the pointer map. *)
Definition overflow_alloc (pgnoOvfl : Z) : btm Z :=
  db ← get_db;
  pgno ← allocateBtreePage (next_guess (bt db) pgnoOvfl) BTALLOC_ANY;
  (if autoVacuum (bt db) then ptrmapPut pgno (if pgnoOvfl =? 0 then PTRMAP_OVERFLOW1 else PTRMAP_OVERFLOW2) pgnoOvfl else mret tt);;
  mret pgno.

(** The next page, whose number goes where the page before it or the cell ends. *)
Definition link_overflow (pCell : list Z) (pPrior : option Z * Z) (pgnoOvfl : Z) : btm (list Z * Z) :=
  pgno ← overflow_alloc pgnoOvfl;
  pCell ← store pCell pPrior.1 pPrior.2 (sqlite3Put4byte [0; 0; 0; 0] pgno);
  put4 pgno 0 0;;
  mret (pCell, pgno).

(** [while( 1 )]: [pSrc] is what is left of the source. *)
Fixpoint fill_loop (fuel : nat) (pCell : list Z) (dst : option Z) (pPayload : Z) (pPrior : option Z * Z) (pSrc : list Z) (nSrc nPayload spaceLeft pgnoOvfl : Z) : btm (list Z) :=
  match fuel with
  | O => mret pCell
  | S fuel =>
      let n := if spaceLeft <? nPayload then spaceLeft else nPayload in
      let n := if n <=? nSrc then n else if 0 <? nSrc then nSrc else n in
      pCell ← store pCell dst pPayload (if 0 <? nSrc then take (Z.to_nat n) pSrc else replicate (Z.to_nat n) 0);
      let nPayload := nPayload - n in
      if nPayload <=? 0 then mret pCell
      else
        let pSrc := drop (Z.to_nat n) pSrc in
        let nSrc := nSrc - n in
        let spaceLeft := spaceLeft - n in
        if spaceLeft =? 0 then
          db ← get_db;
          '(pCell, pgno) ← link_overflow pCell pPrior pgnoOvfl;
          fill_loop fuel pCell (Some pgno) 4 (Some pgno, 0) pSrc nSrc nPayload (usableSize (bt db) - 4) pgno
        else fill_loop fuel pCell dst (pPayload + n) pPrior pSrc nSrc nPayload spaceLeft pgnoOvfl
  end.

(** The cell and its size; [pCell] is the memory for it, with the child pointer if there is one. *)
Definition fillInCell (t : PageType) (pCell : list Z) (pX : BtreePayload) : btm (list Z * Z) :=
  db ← get_db;
  let nHeader := childPtrSize t in
  let '(nPayload, pSrc, nSrc, pCell, nHeader) :=
    if intKey t then
      let nPayload := nData pX + nZero pX in
      let '(pCell, n1) := put_at pCell nHeader (fun p => putVarint32 p nPayload) in
      let '(pCell, n2) := put_at pCell (nHeader + n1) (fun p => sqlite3PutVarint p (u64 (pX_nKey pX))) in
      (nPayload, pData pX, nData pX, pCell, nHeader + n1 + n2)
    else
      let '(pCell, n1) := put_at pCell nHeader (fun p => putVarint32 p (pX_nKey pX)) in
      (pX_nKey pX, pKey pX, pX_nKey pX, pCell, nHeader + n1) in
  if nPayload <=? maxLocal t then
    let n := nHeader + nPayload in
    let '(pCell, n) := if n <? 4 then (pCell.[nHeader + nPayload <- 0], 4) else (pCell, n) in
    let pCell := splice pCell nHeader (take (Z.to_nat nSrc) pSrc) in
    mret (splice pCell (nHeader + nSrc) (replicate (Z.to_nat (nPayload - nSrc)) 0), n)
  else
    let mn := minLocal t in
    let n := mn + (nPayload - mn) mod (usableSize (bt db) - 4) in
    let n := if maxLocal t <? n then mn else n in
    pCell ← fill_loop (Z.to_nat nPayload) pCell None nHeader (None, nHeader + n) pSrc nSrc nPayload n 0;
    mret (pCell, n + nHeader + 4).

(** ** Strings of bytes *)

Lemma slice_app_l (a b : list Z) i n : 0 <= i -> 0 <= n -> i + n <= zlen a -> slice (a ++ b) i n = slice a i n.
Proof.
  intros Hi Hn Hl. pose proof (zlen_nonneg b). apply zlist_ext; [rewrite !zlen_slice; rewrite ?zlen_app; lia|]. rewrite zlen_slice by (rewrite ?zlen_app; lia). intros j Hj.
  rewrite !zget_slice by lia. apply zget_app_l. lia.
Qed.
Lemma slice_app_r (a b : list Z) i n : zlen a <= i -> 0 <= n -> i + n <= zlen a + zlen b -> slice (a ++ b) i n = slice b (i - zlen a) n.
Proof.
  intros Hi Hn Hl. pose proof (zlen_nonneg a). apply zlist_ext; [rewrite !zlen_slice; rewrite ?zlen_app; lia|]. rewrite zlen_slice by (rewrite ?zlen_app; lia). intros j Hj.
  rewrite !zget_slice by lia. rewrite zget_app_r by lia. f_equal. lia.
Qed.
Lemma slice_add (l : list Z) i n m : 0 <= i -> 0 <= n -> 0 <= m -> i + n + m <= zlen l -> slice l i (n + m) = slice l i n ++ slice l (i + n) m.
Proof.
  intros Hi Hn Hm Hl. assert (L1 : zlen (slice l i n) = n) by (apply zlen_slice; lia). apply zlist_ext; [rewrite zlen_app, !zlen_slice; lia|]. rewrite zlen_slice by lia. intros j Hj.
  rewrite zget_slice by lia. destruct (Z.ltb_spec j n); [rewrite zget_app_l, zget_slice by lia; done|]. rewrite zget_app_r, L1, zget_slice by lia. f_equal. lia.
Qed.
Lemma slice_app_mid (a b : list Z) i n : 0 <= i <= zlen a -> zlen a <= i + n -> i + n <= zlen a + zlen b -> slice (a ++ b) i n = slice a i (zlen a - i) ++ slice b 0 (n - (zlen a - i)).
Proof.
  intros Hi Hn Hl. replace n with ((zlen a - i) + (n - (zlen a - i))) at 1 by lia. pose proof (zlen_nonneg b). rewrite slice_add by (rewrite ?zlen_app; lia). rewrite slice_app_l, slice_app_r by lia. do 2 f_equal. lia.
Qed.
Lemma splice_app_l (a b s : list Z) i : 0 <= i -> i + zlen s <= zlen a -> splice (a ++ b) i s = splice a i s ++ b.
Proof.
  intros Hi Hl. unfold splice. unfold zlen in Hl. rewrite take_app_le, drop_app_le by lia. by rewrite <- !app_assoc.
Qed.
Lemma splice_app_r (a b s : list Z) i : zlen a <= i -> splice (a ++ b) i s = a ++ splice b (i - zlen a) s.
Proof.
  intros Hi. unfold splice, zlen in *. rewrite take_app_ge, drop_app_ge by lia. rewrite <- !app_assoc. repeat f_equal; lia.
Qed.
Lemma splice_app_mid (a b s1 s2 : list Z) i : 0 <= i -> i + zlen s1 = zlen a -> splice (a ++ b) i (s1 ++ s2) = splice a i s1 ++ splice b 0 s2.
Proof.
  intros Hi Hl. unfold splice, zlen in *. rewrite take_app_le by lia. rewrite length_app, drop_app_ge by lia. rewrite (drop_ge a) by lia. cbn [Z.to_nat take app]. rewrite app_nil_r, <- !app_assoc. replace (Z.to_nat i + (length s1 + length s2) - length a)%nat with (0 + length s2)%nat by lia. done.
Qed.



Lemma slice_whole (l : list Z) : slice l 0 (zlen l) = l.
Proof. unfold slice. cbn [Z.to_nat drop]. unfold zlen. rewrite Nat2Z.id. apply firstn_all. Qed.

(** What reading and overwriting a string does to it and to the buffer. *)
Definition str_after (eOp : bool) (s : list Z) (offset : Z) (buf : list Z) (pb amt : Z) : list Z := if eOp then splice s offset (slice buf pb amt) else s.
Definition buf_after (eOp : bool) (s : list Z) (offset : Z) (buf : list Z) (pb amt : Z) : list Z := if eOp then buf else splice buf pb (slice s offset amt).

Lemma zlen_str_after eOp s offset buf pb amt : 0 <= offset -> 0 <= pb -> 0 <= amt -> offset + amt <= zlen s -> pb + amt <= zlen buf -> zlen (str_after eOp s offset buf pb amt) = zlen s.
Proof. intros. destruct eOp; [|done]. cbn [str_after]. rewrite zlen_splice; rewrite ?zlen_slice; lia. Qed.
Lemma zlen_buf_after eOp s offset buf pb amt : 0 <= offset -> 0 <= pb -> 0 <= amt -> offset + amt <= zlen s -> pb + amt <= zlen buf -> zlen (buf_after eOp s offset buf pb amt) = zlen buf.
Proof. intros. destruct eOp; [done|]. cbn [buf_after]. rewrite zlen_splice; rewrite ?zlen_slice; lia. Qed.

(** Access to a string in two parts. *)
Lemma str_after_r eOp a b offset buf pb amt : zlen a <= offset -> str_after eOp (a ++ b) offset buf pb amt = a ++ str_after eOp b (offset - zlen a) buf pb amt.
Proof. intros. destruct eOp; [|done]. cbn [str_after]. by apply splice_app_r. Qed.
Lemma buf_after_r eOp a b offset buf pb amt : zlen a <= offset -> 0 <= amt -> offset + amt <= zlen a + zlen b -> buf_after eOp (a ++ b) offset buf pb amt = buf_after eOp b (offset - zlen a) buf pb amt.
Proof. intros. destruct eOp; [done|]. cbn [buf_after]. by rewrite slice_app_r. Qed.
Lemma str_after_l eOp a b offset buf pb amt : 0 <= offset -> 0 <= pb -> 0 <= amt -> offset + amt <= zlen a -> pb + amt <= zlen buf -> str_after eOp (a ++ b) offset buf pb amt = str_after eOp a offset buf pb amt ++ b.
Proof. intros. destruct eOp; [|done]. cbn [str_after]. apply splice_app_l; [lia|]. rewrite zlen_slice; lia. Qed.
Lemma buf_after_l eOp a b offset buf pb amt : 0 <= offset -> 0 <= amt -> offset + amt <= zlen a -> buf_after eOp (a ++ b) offset buf pb amt = buf_after eOp a offset buf pb amt.
Proof. intros. destruct eOp; [done|]. cbn [buf_after]. by rewrite slice_app_l. Qed.
(** ... that crosses from one to the other. *)
Lemma str_after_mid eOp a b offset buf pb a1 amt : 0 <= offset -> a1 = zlen a - offset -> 0 <= a1 <= amt -> 0 <= pb -> pb + amt <= zlen buf -> offset + amt <= zlen a + zlen b ->
  str_after eOp (a ++ b) offset buf pb amt = str_after eOp a offset buf pb a1 ++ str_after eOp b 0 (buf_after eOp a offset buf pb a1) (pb + a1) (amt - a1).
Proof.
  intros H0 -> H1 H2 H3 H4. destruct eOp; [|done]. cbn [str_after buf_after]. replace amt with ((zlen a - offset) + (amt - (zlen a - offset))) at 1 by lia.
  rewrite slice_add by lia. apply splice_app_mid; [lia|]. rewrite zlen_slice; lia.
Qed.
Lemma buf_after_mid eOp a b offset buf pb a1 amt : 0 <= offset -> a1 = zlen a - offset -> 0 <= a1 <= amt -> 0 <= pb -> pb + amt <= zlen buf -> offset + amt <= zlen a + zlen b ->
  buf_after eOp (a ++ b) offset buf pb amt = buf_after eOp b 0 (buf_after eOp a offset buf pb a1) (pb + a1) (amt - a1).
Proof.
  intros H0 -> H1 H2 H3 H4. destruct eOp; [done|]. cbn [buf_after]. rewrite slice_app_mid by lia. assert (L1 : zlen (slice a offset (zlen a - offset)) = zlen a - offset) by (apply zlen_slice; lia).
  assert (L2 : zlen (slice b 0 (amt - (zlen a - offset))) = amt - (zlen a - offset)) by (apply zlen_slice; lia). pose proof (splice_app buf pb (slice a offset (zlen a - offset)) (slice b 0 (amt - (zlen a - offset))) H2 ltac:(lia)) as G. by rewrite L1 in G.
Qed.

(** ** Chains *)

Fixpoint links (f : Z -> list Z) (i : Z) (pgs : list Z) : Prop :=
  match pgs with [] => i = 0 | p :: pgs => i = p /\ links f (get4byte (f p) 0) pgs end.
(** All that the pages of the chain can hold. *)
Definition body (f : Z -> list Z) (u : Z) (pgs : list Z) : list Z := mjoin ((fun p => slice (f p) 4 u) <$> pgs).
Definition chain_page (b : BtShared) (n p : Z) : Prop := 2 <= p <= n /\ p <> PENDING_BYTE_PAGE b.
Definition cache_ok (l pgs : list Z) : Prop := zlen pgs <= zlen l /\ forall k, 0 <= k < zlen pgs -> l.[k] = 0 \/ l.[k] = pgs.[k].

Lemma body_cons f u p pgs : body f u (p :: pgs) = slice (f p) 4 u ++ body f u pgs.
Proof. done. Qed.
Lemma body_frame f f' u pgs : (forall p, p ∈ pgs -> f' p = f p) -> body f' u pgs = body f u pgs.
Proof.
  induction pgs as [|p pgs IH]; intros H; [done|]. rewrite !body_cons, (H p) by left. f_equal. apply IH. intros q Hq. apply H. by right.
Qed.
Lemma links_frame f f' i pgs : (forall p, p ∈ pgs -> get4byte (f' p) 0 = get4byte (f p) 0) -> links f i pgs -> links f' i pgs.
Proof.
  revert i. induction pgs as [|p pgs IH]; intros i H; [done|]. intros [E Hl]. split; [done|]. rewrite (H p) by left. apply IH; [|done]. intros q Hq. apply H. by right.
Qed.
Lemma zlen_body b f u pgs : pages_ok b f -> 0 <= u -> u + 4 <= pageSize b -> zlen (body f u pgs) = u * zlen pgs.
Proof.
  intros Hp H0 Hu. induction pgs as [|p pgs IH]; [rewrite Z.mul_comm; done|]. destruct (Hp p) as [Lp _]. rewrite body_cons, zlen_app, zlen_cons, IH, zlen_slice by lia. lia.
Qed.

(** ** Calls on one page *)

Lemma getOverflowPage_ok db p : autoVacuum (bt db) = false -> 2 <= p -> p <> PENDING_BYTE_PAGE (bt db) ->
  ends (getOverflowPage p) db (fun r db' => r = (true, get4byte (pg db p) 0) /\ exists a, db' = set_answers db a).
Proof.
  intros Hav H2 Hp. unfold getOverflowPage. apply ends_bind, ends_get_db. rewrite Hav. apply ends_bind, ends_ret. change (0 =? 0) with true. cbv iota.
  eapply ends_use; [apply getPage_ok; [lia|done]|]. intros [] db' [a ->]. repeat step. eauto.
Qed.

(** [eOp] tells whether the page is written. *)
Definition touched (eOp : bool) (p : Z) (db db' : Db) : Prop := same_file db db' /\ (forall i, i <> p -> pg db' i = pg db i) /\ (eOp = false -> forall i, pg db' i = pg db i).

Lemma copyPayload_ok db p i buf pb n eOp : ends (copyPayload p i buf pb n eOp) db
  (fun r db' => r = buf_after eOp (pg db p) i buf pb n /\ touched eOp p db db' /\ pg db' p = str_after eOp (pg db p) i buf pb n).
Proof.
  unfold copyPayload. destruct eOp; unfold sqlite3PagerWrite; repeat step; [|done]. split; [done|]. split; [split; [done|]; split; [intros j Hj; exact (pg_set_ne (set_answers db l) _ _ _ Hj)|done]|]. exact (pg_set_eq (set_answers db l) _ _).
Qed.

Lemma overflow_page_ok db p offset a buf pb eOp : 2 <= p -> p <> PENDING_BYTE_PAGE (bt db) -> ends (overflow_page p offset a buf pb eOp) db
  (fun r db' => r = (get4byte (pg db p) 0, buf_after eOp (pg db p) (offset + 4) buf pb a) /\ touched eOp p db db' /\ pg db' p = str_after eOp (pg db p) (offset + 4) buf pb a).
Proof.
  intros H2 Hp. unfold overflow_page.
  apply (ends_use _ _ _ (fun (direct : bool) db1 => (exists a, db1 = set_answers db a) /\ (direct = true -> eOp = false /\ offset = 0))).
  - destruct (negb eOp && (offset =? 0)) eqn:E; [|apply ends_ret; split; [exists (answers db); by destruct db|done]]. apply ends_bind, ends_found. intros ok a' _. apply ends_ret. split; [eauto|]. intros _. destruct eOp; [done|]. split; [done|lia].
  - intros direct db1 [[a1 ->] Hd]. destruct direct.
    + destruct (Hd eq_refl) as [-> ->]. repeat step. done.
    + eapply ends_use; [apply getPage_ok; [lia|done]|]. intros [] db2 [a2 ->]. apply ends_bind, ends_get4. eapply ends_use; [apply copyPayload_ok|]. intros buf' db3 (-> & Ht & Hpg). apply ends_ret. done.
Qed.

(** An access to a region of a page is an access to the string there, and the rest of the page stays. *)
Lemma region_written eOp d o n offset buf pb a : bytes_ok d -> bytes_ok buf -> 0 <= o -> 0 <= offset -> 0 <= a -> offset + a <= n -> o + n <= zlen d -> 0 <= pb -> pb + a <= zlen buf ->
  let d' := str_after eOp d (o + offset) buf pb a in
  same_outside [(o, n)] d d' /\ bytes_ok d' /\ slice d' o n = str_after eOp (slice d o n) offset buf pb a /\ buf_after eOp d (o + offset) buf pb a = buf_after eOp (slice d o n) offset buf pb a.
Proof.
  intros Bd Bb Ho H0 Ha Hn Hl Hpb Hb. destruct eOp; cbn [str_after buf_after].
  - assert (L1 : zlen (slice buf pb a) = a) by (apply zlen_slice; lia). assert (S1 : same_outside [(o + offset, a)] d (splice d (o + offset) (slice buf pb a))) by (rewrite <- L1 at 1; apply same_splice; lia).
    assert (Z1 := proj1 S1). split_and!; [|by apply bytes_spliced; [|apply bytes_slice]| |done].
    + apply (same_weaken _ _ _ _ S1). intros j Hj. rewrite Forall_singleton in *. cbn [fst snd] in *. lia.
    + assert (L4 : zlen (slice d o n) = n) by (apply zlen_slice; lia). apply zlist_ext; [rewrite zlen_splice, !zlen_slice; lia|]. rewrite zlen_slice by lia. intros j Hj. rewrite zget_slice by lia.
      destruct (decide (offset <= j < offset + a)); [rewrite !zget_splice_in by lia; f_equal; lia|]. rewrite !zget_splice_out by lia. rewrite zget_slice by lia. done.
  - split_and!; [done|done|done|]. f_equal. apply zlist_ext; [rewrite !zlen_slice; rewrite ?zlen_slice; lia|]. rewrite zlen_slice by lia. intros j Hj. rewrite !zget_slice by lia. f_equal. lia.
Qed.
(** A page of a chain keeps its link. *)
Lemma page_written eOp d offset buf pb a u : bytes_ok d -> bytes_ok buf -> 0 <= offset -> 0 <= a -> offset + a <= u -> u + 4 <= zlen d -> 0 <= pb -> pb + a <= zlen buf ->
  let d' := str_after eOp d (offset + 4) buf pb a in
  zlen d' = zlen d /\ bytes_ok d' /\ get4byte d' 0 = get4byte d 0 /\ slice d' 4 u = str_after eOp (slice d 4 u) offset buf pb a /\ buf_after eOp d (offset + 4) buf pb a = buf_after eOp (slice d 4 u) offset buf pb a.
Proof.
  intros Bd Bb H0 Ha Hu Hl Hpb Hb. rewrite (Z.add_comm offset 4). destruct (region_written eOp d 4 u offset buf pb a Bd Bb ltac:(lia) H0 Ha Hu ltac:(lia) Hpb Hb) as (S & B & W1 & W2).
  split_and!; [apply S|done| |done|done]. apply (same_get4 _ _ _ 0 S); [lia|lia|]. each. solve_apart.
Qed.
Lemma bytes_buf_after eOp s offset buf pb amt : bytes_ok s -> bytes_ok buf -> bytes_ok (buf_after eOp s offset buf pb amt).
Proof. intros. destruct eOp; [done|]. apply bytes_spliced; [done|by apply bytes_slice]. Qed.
Lemma cache_put l pgs k p : cache_ok l pgs -> 0 <= k < zlen pgs -> pgs.[k] = p -> cache_ok (l.[k <- p]) pgs.
Proof.
  intros [L H] Hk E. split; [by rewrite zlen_zput|]. intros j Hj. destruct (decide (j = k)) as [->|Hne]; [right; rewrite zget_zput_eq by lia; done|]. rewrite zget_zput_ne by done. auto.
Qed.

(** ** Access to the chain *)

(** After an access to the pages [suf] of the chain [pgs], which starts at [i]. *)
Record accessed (eOp : bool) (u : Z) (pgs suf : list Z) (i offset amt : Z) (buf : list Z) (pb : Z) (db : Db) (c : BtCursor) (r : BtCursor * list Z) (db' : Db) : Prop := {
  ac_buf : r.2 = buf_after eOp (body (pg db) u suf) offset buf pb amt;
  ac_body : body (pg db') u suf = str_after eOp (body (pg db) u suf) offset buf pb amt;
  ac_cache : cache_ok (the_cache r.1) pgs;
  ac_cursor : r.1 = mkCur (curPage c) (ix c) (info c) (curFlags c) (Some (the_cache r.1));
  ac_file : same_file db db';
  ac_pages : pages_ok (bt db) (pg db');
  ac_read : eOp = false -> forall q, pg db' q = pg db q;
  ac_else : forall q, q ∉ suf -> pg db' q = pg db q;
  ac_links : links (pg db') i suf }.

Lemma zget_mid (pre : list Z) p post : (pre ++ p :: post).[zlen pre] = p.
Proof. rewrite zget_app_r by lia. by rewrite Z.sub_diag. Qed.

Lemma body_one f u p : body f u [p] = slice (f p) 4 u.
Proof. unfold body. cbn. apply app_nil_r. Qed.

Section chains.
Context (eOp : bool) (pgs : list Z) (u : Z).
Hypothesis Hnd : NoDup pgs.

(** All of the access is on the first page. *)
Lemma accessed_here post p db c l offset amt buf pb db' : p ∉ post -> pages_ok (bt db) (pg db) -> u + 4 <= pageSize (bt db) -> links (pg db) p (p :: post) -> cache_ok l pgs -> bytes_ok buf ->
  0 <= offset -> 0 <= amt -> offset + amt <= u -> 0 <= pb -> pb + amt <= zlen buf -> touched eOp p db db' -> pg db' p = str_after eOp (pg db p) (offset + 4) buf pb amt ->
  accessed eOp u pgs (p :: post) p offset amt buf pb db c (set_cache c l, buf_after eOp (pg db p) (offset + 4) buf pb amt) db'.
Proof.
  intros Hp Hpo Hu [_ Hln] Hca Bb H0 Ha Hle Hpb Hbl (Hsf & Ho & Hrd) Epg. destruct (Hpo p) as [Lp Bp].
  destruct (page_written eOp (pg db p) offset buf pb amt u Bp Bb H0 ltac:(lia) ltac:(lia) ltac:(lia) Hpb Hbl) as (W1 & W2 & W3 & W4 & W5). assert (Ls : zlen (slice (pg db p) 4 u) = u) by (apply zlen_slice; lia).
  assert (Hpost : forall q, q ∈ post -> pg db' q = pg db q) by (intros q Hq; apply Ho; by intros ->).
  split; cbn [fst snd]; try done.
  - rewrite W5, body_cons. symmetry. apply buf_after_l; lia.
  - rewrite !body_cons, Epg, W4, (body_frame _ _ _ _ Hpost). symmetry. apply str_after_l; lia.
  - intros i. destruct (decide (i = p)) as [->|Hi]; [rewrite Epg; split; [lia|done]|]. rewrite Ho by done. apply Hpo.
  - intros i Hi. apply Ho. intros ->. apply Hi. left.
  - split; [done|]. rewrite Epg, W3. eapply links_frame; [|exact Hln]. intros q Hq. by rewrite Hpost.
Qed.

(** None of it is. *)
Lemma accessed_later post p q db db1 c c1 offset amt buf pb r db' : p ∉ q :: post -> pages_ok (bt db) (pg db) -> 0 <= u -> u + 4 <= pageSize (bt db) -> get4byte (pg db p) 0 = q -> (exists a, db1 = set_answers db a) ->
  c1 = set_cache c (the_cache c1) -> u <= offset -> 0 <= amt -> offset + amt <= u * zlen (p :: q :: post) ->
  accessed eOp u pgs (q :: post) q (offset - u) amt buf pb db1 c1 r db' -> accessed eOp u pgs (p :: q :: post) p offset amt buf pb db c r db'.
Proof.
  intros Hp Hpo Hu0 Hu El [a ->] Ec Ho Ha Hle [A1 A2 A3 A4 A5 A6 A9 A7 A8]. change (pg (set_answers db a)) with (pg db) in *. change (bt (set_answers db a)) with (bt db) in *. assert (Ep : pg db' p = pg db p) by (by apply A7).
  destruct (Hpo p) as [Lp Bp]. assert (Ls : zlen (slice (pg db p) 4 u) = u) by (apply zlen_slice; lia). pose proof (zlen_body _ _ u (q :: post) Hpo Hu0 Hu) as Lb. rewrite (zlen_cons p) in Hle.
  rewrite Ec in A4. split; try done.
  - rewrite A1, (body_cons (pg db) u p), buf_after_r; rewrite ?Ls, ?Lb; (done || lia).
  - rewrite (body_cons (pg db') u p), A2, Ep, (body_cons (pg db) u p), str_after_r by lia. by rewrite Ls.
  - intros i Hi. apply A7. intros Hin. apply Hi. by right.
  - split; [done|]. by rewrite Ep, El.
Qed.

(** It begins on the first page and goes on. *)
Lemma accessed_across post p q db db1 c c1 l offset a amt buf pb r db' : p ∉ q :: post -> pages_ok (bt db) (pg db) -> u + 4 <= pageSize (bt db) -> links (pg db) p (p :: q :: post) -> cache_ok l pgs -> bytes_ok buf ->
  0 <= offset -> a = u - offset -> 0 <= a <= amt -> offset + amt <= u * zlen (p :: q :: post) -> 0 <= pb -> pb + amt <= zlen buf -> touched eOp p db db1 -> pg db1 p = str_after eOp (pg db p) (offset + 4) buf pb a ->
  c1 = set_cache c l -> accessed eOp u pgs (q :: post) q 0 (amt - a) (buf_after eOp (pg db p) (offset + 4) buf pb a) (pb + a) db1 c1 r db' ->
  accessed eOp u pgs (p :: q :: post) p offset amt buf pb db c r db'.
Proof.
  intros Hp Hpo Hu Hln Hca Bb H0 -> Ha Hle Hpb Hbl Ht Epg -> [A1 A2 A3 A4 A5 A6 A9 A7 A8].
  destruct (accessed_here (q :: post) p db c l offset (u - offset) buf pb db1 Hp Hpo Hu Hln Hca Bb H0 ltac:(lia) ltac:(lia) Hpb ltac:(lia) Ht Epg) as [B1 B2 B3 B4 B5 B6 B9 B7 B8]. cbn [fst snd] in *.
  destruct Ht as ((S1 & S2 & S3) & Hto & Hrd). assert (Ep : pg db' p = pg db1 p) by (by apply A7). destruct (Hpo p) as [Lp Bp]. assert (Ls : zlen (slice (pg db p) 4 u) = u) by (apply zlen_slice; lia). pose proof (zlen_body _ _ u (q :: post) Hpo ltac:(lia) Hu) as Lb.
  rewrite (zlen_cons p) in Hle.
  destruct (page_written eOp (pg db p) offset buf pb (u - offset) u Bp Bb H0 ltac:(lia) ltac:(lia) ltac:(lia) Hpb ltac:(lia)) as (W1 & W2 & W3 & W4 & W5).
  assert (Eb : body (pg db1) u (q :: post) = body (pg db) u (q :: post)) by (apply body_frame; intros i Hi; apply Hto; by intros ->). rewrite Eb, W5 in *.
  split; try done.
  - rewrite A1, (body_cons (pg db) u p). symmetry. apply buf_after_mid; rewrite ?Ls, ?Lb; (done || lia).
  - rewrite (body_cons (pg db') u p), A2, Ep, Epg, W4, (body_cons (pg db) u p). symmetry. apply str_after_mid; rewrite ?Ls, ?Lb; (done || lia).
  - destruct A5 as (T1 & T2 & T3). split_and!; congruence.
  - by rewrite <- S1.
  - intros E i. rewrite A9, Hrd; done.
  - intros i Hi. rewrite not_elem_of_cons in Hi. destruct Hi as [Hi Hi']. rewrite A7, Hto; done.
  - split; [done|]. rewrite Ep, Epg, W3. destruct Hln as [_ [E _]]. by rewrite E in *.
Qed.

Lemma access_chain_ok post : forall pre p db c offset amt buf pb fuel,
  pgs = pre ++ p :: post -> wf_bt (bt db) -> autoVacuum (bt db) = false -> u = usableSize (bt db) - 4 -> pages_ok (bt db) (pg db) -> Forall (chain_page (bt db) (nPage db)) (p :: post) ->
  links (pg db) p (p :: post) -> cache_ok (the_cache c) pgs -> bytes_ok buf -> 0 <= offset -> 0 < amt -> offset + amt <= u * zlen (p :: post) -> 0 <= pb -> pb + amt <= zlen buf -> offset + amt <= u * Z.of_nat fuel ->
  ends (access_chain fuel c u p offset amt buf pb (zlen pre) eOp) db (accessed eOp u pgs (p :: post) p offset amt buf pb db c).
Proof.
  induction post as [|q post IH]; intros pre p db c offset amt buf pb fuel Epgs Hb Hav Hu Hpo Hch Hln Hca Bb H0 Ha Hle Hpb Hbl Hf; destruct (wf_bt_sizes _ Hb);
    (destruct fuel as [|fuel]; [lia|]); apply Forall_cons in Hch as [[Hp1 Hp2] Hch]; destruct (Hpo p) as [Lp Bp].
  all: assert (Hzp : zlen pre < zlen pgs) by (rewrite Epgs, zlen_app, zlen_cons; match goal with |- context [1 + zlen ?l] => pose proof (zlen_nonneg l) end; lia).
  all: pose proof (zlen_nonneg pre) as Hz0; assert (Hnpost := Hnd); rewrite Epgs in Hnpost; apply NoDup_app in Hnpost as (_ & _ & Hnpost); apply NoDup_cons in Hnpost as [Hnpost _].
  all: assert (Hca' : cache_ok (the_cache c).[zlen pre <- p] pgs) by (apply cache_put; [done|lia|]; rewrite Epgs; apply zget_mid).
  all: cbn [access_chain]; replace (p =? 0) with false by lia; apply ends_bind, ends_get_db; replace (nPage db <? p) with false by lia; cbn zeta; change (the_cache (set_cache c ?l)) with l.
  - rewrite zlen_cons in Hle. change (zlen []) with 0 in Hle. replace (u <=? offset) with false by lia. replace (u <? amt + offset) with false by lia.
    eapply ends_use; [apply overflow_page_ok; [lia|done]|]. intros [next buf'] db1 (Er & Ht & Epg). injection Er as -> ->. replace (amt - amt =? 0) with true by lia. apply ends_ret.
    apply accessed_here; (done || lia).
  - assert (El : get4byte (pg db p) 0 = q) by apply Hln. destruct (u <=? offset) eqn:Eu.
    + apply (ends_use _ _ _ (fun next db1 => next = q /\ exists a, db1 = set_answers db a)).
      { destruct (truthy _) eqn:Et; [apply ends_ret|].
        - split; [|exists (answers db); by destruct db]. destruct Hca' as [_ Hca']. destruct (Hca' (zlen pre + 1)) as [E|E]; [rewrite Epgs, zlen_app, !zlen_cons; pose proof (zlen_nonneg post); lia|unfold truthy in Et; lia|].
          rewrite E, Epgs. replace (pre ++ p :: q :: post) with ((pre ++ [p]) ++ q :: post) by (by rewrite <- app_assoc). replace (zlen pre + 1) with (zlen (pre ++ [p])) by (rewrite zlen_app; done). apply zget_mid.
        - eapply ends_use; [apply getOverflowPage_ok; [done|lia|done]|]. intros [ld nx] db1 [E [a ->]]. injection E as -> ->. apply ends_ret. eauto. }
      intros next db1 [-> Hdb1]. assert (Hdb1' := Hdb1). destruct Hdb1' as [a ->].
      eapply ends_weaken; [pose proof (IH (pre ++ [p]) q (set_answers db a) (set_cache c (the_cache c).[zlen pre <- p]) (offset - u) amt buf pb fuel) as G; rewrite zlen_snoc in G; apply G|].
      all: try done; try lia.
      * rewrite Epgs, <- app_assoc. done.
      * destruct Hln as [_ Hln]. by rewrite El in Hln.
      * rewrite (zlen_cons p) in Hle. lia.
      * intros r db' Hr. apply (accessed_later post p q db (set_answers db a) c (set_cache c (the_cache c).[zlen pre <- p]) offset amt buf pb r db'); try done; try lia; eauto.
    + set (a := if u <? amt + offset then u - offset else amt). assert (Ha1 : (u < amt + offset /\ a = u - offset) \/ (amt + offset <= u /\ a = amt)) by (unfold a; destruct (u <? amt + offset) eqn:E; lia). clearbody a.
      eapply ends_use; [apply overflow_page_ok; [lia|done]|]. intros [next buf'] db1 (Er & Ht & Epg). injection Er as -> ->. rewrite El. destruct (amt - a =? 0) eqn:E0.
      * assert (a = amt) as -> by lia. apply ends_ret. apply accessed_here; (done || lia).
      * destruct Ha1 as [[Ha1 Ea]|]; [|lia]. assert (Hpo1 : pages_ok (bt db) (pg db1)).
        { eapply (ac_pages eOp u pgs); apply (accessed_here (q :: post) p db c (the_cache c).[zlen pre <- p] offset a buf pb db1); (done || lia). }
        assert (Hbuf : bytes_ok (buf_after eOp (pg db p) (offset + 4) buf pb a)) by (by apply bytes_buf_after). assert (Lbuf : zlen (buf_after eOp (pg db p) (offset + 4) buf pb a) = zlen buf) by (apply zlen_buf_after; lia).
        assert (Ht' := Ht). destruct Ht' as ((S1 & S2 & S3) & Hto & Hrd).
        eapply ends_weaken; [pose proof (IH (pre ++ [p]) q db1 (set_cache c (the_cache c).[zlen pre <- p]) 0 (amt - a) (buf_after eOp (pg db p) (offset + 4) buf pb a) (pb + a) fuel) as G; rewrite zlen_snoc in G; apply G|].
        all: try (by rewrite S1); try done; try lia.
        -- rewrite Epgs, <- app_assoc. done.
        -- by rewrite S1, S2.
        -- destruct Hln as [_ Hln]. rewrite El in Hln. eapply links_frame; [|exact Hln]. intros i Hi. rewrite Hto; [done|]. by intros ->.
        -- rewrite (zlen_cons p) in Hle. lia.
        -- intros r db' Hr. apply (accessed_across post p q db db1 c (set_cache c (the_cache c).[zlen pre <- p]) (the_cache c).[zlen pre <- p] offset a amt buf pb r db'); try done; lia.
Qed.
End chains.

(** *** Starting in the middle *)

Lemma links_suffix f i pre q post : links f i (pre ++ q :: post) -> links f q (q :: post).
Proof. revert i. induction pre as [|p pre IH]; intros i; cbn [app links]; [by intros [-> H]|]. intros [_ H]. by eapply IH. Qed.
Lemma links_join f f' i pre q post : links f i (pre ++ q :: post) -> (forall p, p ∈ pre -> f' p = f p) -> links f' q (q :: post) -> links f' i (pre ++ q :: post).
Proof.
  intros H Hf Hq. revert i H. induction pre as [|p pre IH]; intros i; cbn [app links]; [intros [-> _]; exact Hq|]. intros [-> H]. split; [done|]. rewrite Hf by left. apply IH; [|done]. intros x Hx. apply Hf. by right.
Qed.
Lemma body_app f u l k : body f u (l ++ k) = body f u l ++ body f u k.
Proof. unfold body. by rewrite fmap_app, join_app. Qed.

Lemma accessed_from eOp u pre q post i offset amt buf pb db c r db' : NoDup (pre ++ q :: post) -> pages_ok (bt db) (pg db) -> 0 <= u -> u + 4 <= pageSize (bt db) -> links (pg db) i (pre ++ q :: post) ->
  u * zlen pre <= offset -> 0 <= amt -> offset + amt <= u * zlen (pre ++ q :: post) ->
  accessed eOp u (pre ++ q :: post) (q :: post) q (offset - u * zlen pre) amt buf pb db c r db' -> accessed eOp u (pre ++ q :: post) (pre ++ q :: post) i offset amt buf pb db c r db'.
Proof.
  intros Hnd Hpo Hu0 Hu Hln Ho Ha Hle [A1 A2 A3 A4 A5 A6 A9 A7 A8]. apply NoDup_app in Hnd as (_ & Hnd & _). pose proof (zlen_body _ _ u pre Hpo Hu0 Hu) as Lp. pose proof (zlen_body _ _ u (q :: post) Hpo Hu0 Hu) as Lq.
  assert (Hpre : forall p, p ∈ pre -> pg db' p = pg db p) by (intros p Hp; apply A7; by apply Hnd). rewrite zlen_app in Hle. split; try done.
  - rewrite A1, (body_app (pg db) u pre), buf_after_r; rewrite ?Lp, ?Lq; (done || lia).
  - rewrite (body_app (pg db') u pre), A2, (body_frame _ _ _ _ Hpre), (body_app (pg db) u pre), str_after_r by lia. by rewrite Lp.
  - intros x Hx. apply A7. intros Hin. apply Hx. apply elem_of_app. by right.
  - by eapply links_join.
Qed.

(** *** The cache *)

Lemma cache_fresh l pgs : zlen pgs <= zlen l -> cache_ok (splice l 0 (replicate (Z.to_nat (zlen pgs)) 0)) pgs.
Proof.
  intros Hl. pose proof (zlen_nonneg pgs). assert (Lr : zlen (replicate (Z.to_nat (zlen pgs)) 0) = zlen pgs) by (unfold zlen; rewrite length_replicate; lia).
  split; [rewrite zlen_splice; lia|]. intros k Hk. left. rewrite zget_splice_in by lia. unfold zget, zlookup. rewrite (proj2 (Z.leb_le _ _)) by lia. rewrite lookup_replicate_2; [done|]. unfold zlen in *. lia.
Qed.
Definition cached (c : BtCursor) (pgs : list Z) : Prop := truthy (Z.land (curFlags c) BTCF_ValidOvfl) = true -> cache_ok (the_cache c) pgs.
(** The same cell on the same page. *)
Definition same_cell (c c' : BtCursor) : Prop := curPage c' = curPage c /\ ix c' = ix c /\ info c' = info c.

Lemma fresh_cache_ok c db pgs : ends (fresh_cache c (zlen pgs)) db (fun c' db' => (exists a, db' = set_answers db a) /\ same_cell c c' /\ cache_ok (the_cache c') pgs).
Proof.
  unfold fresh_cache. pose proof (zlen_nonneg pgs). apply (ends_use _ _ _ (fun l db1 => (exists a, db1 = set_answers db a) /\ zlen pgs <= zlen l)).
  - destruct (_ || _) eqn:E; [unfold sqlite3Realloc; repeat step; split; [eauto|]; unfold zlen; rewrite length_replicate; unfold zlen in *; lia|]. apply ends_ret. split; [exists (answers db); by destruct db|].
    apply orb_false_iff in E as [_ E]. unfold the_cache. destruct (aOverflow c); cbn [default]; [unfold zlen in *; cbn; lia|]. unfold zlen in *; cbn; lia.
  - intros l db1 [Hdb Hl]. apply ends_ret. split; [done|]. split; [done|]. by apply cache_fresh.
Qed.

(** The part of the payload in overflow pages: [N] bytes of the chain. *)
Definition chain_of (db : Db) (u N i : Z) (pgs : list Z) : Prop :=
  pages_ok (bt db) (pg db) /\ NoDup pgs /\ Forall (chain_page (bt db) (nPage db)) pgs /\ links (pg db) i pgs /\ u * (zlen pgs - 1) < N <= u * zlen pgs.

Lemma novfl_exact u N k : 0 < u -> 0 < N < 2 ^ 31 -> u <= 65536 -> u * (k - 1) < N <= u * k -> i32 (u32 (u32 N + u - 1) / u) = k.
Proof.
  intros Hu HN Hu2 Hk. unfold u32. rewrite (Z.mod_small N) by lia. rewrite Z.mod_small by lia. assert (E : (N + u - 1) / u = k). { symmetry. apply (Z.div_unique_pos _ _ _ (N + u - 1 - u * k)); lia. }
  rewrite E. unfold i32. rewrite Z.mod_small; nia.
Qed.

Lemma access_overflow_ok eOp c db u N i pgs offset amt buf pb : wf_bt (bt db) -> autoVacuum (bt db) = false -> u = usableSize (bt db) - 4 -> chain_of db u N i pgs -> 0 < N < 2 ^ 31 -> cached c pgs -> bytes_ok buf ->
  0 <= offset -> 0 < amt -> offset + amt <= N -> 0 <= pb -> pb + amt <= zlen buf ->
  ends (access_overflow c i (u32 N) offset amt buf pb eOp) db (fun r db' => exists c1, same_cell c c1 /\ accessed eOp u pgs pgs i offset amt buf pb db c1 r db').
Proof.
  intros Hb Hav Eu (Hpo & Hnd & Hch & Hln & HN) HN2 Hca Bb H0 Ha Hle Hpb Hbl. destruct (wf_bt_sizes _ Hb). unfold access_overflow. apply ends_bind, ends_get_db. rewrite <- Eu. cbn zeta.
  assert (Hpos : 0 < zlen pgs) by nia. assert (Hfuel : offset + amt <= u * Z.of_nat (S (S (Z.to_nat ((offset + amt) / u))))).
  { pose proof (Z.div_mod (offset + amt) u ltac:(lia)). pose proof (Z.mod_pos_bound (offset + amt) u ltac:(lia)). pose proof (Z.div_pos (offset + amt) u ltac:(lia) ltac:(lia)). nia. }
  assert (Hstart : forall c1 db1, (exists a, db1 = set_answers db a) -> same_cell c c1 -> cache_ok (the_cache c1) pgs ->
    ends (access_chain (S (S (Z.to_nat ((offset + amt) / u)))) c1 u i offset amt buf pb 0 eOp) db1 (fun r db' => exists c1, same_cell c c1 /\ accessed eOp u pgs pgs i offset amt buf pb db c1 r db')).
  { intros c1 db1 [a ->] Hsc Hc1. destruct pgs as [|p post] eqn:Ep; [unfold zlen in Hpos; cbn in Hpos; lia|]. assert (i = p) as -> by apply Hln.
    eapply ends_weaken; [apply (access_chain_ok eOp (p :: post) u Hnd post [] p (set_answers db a) c1); try done; lia|]. intros r db' [A1 A2 A3 A4 A5 A6 A9 A7 A8]. exists c1. done. }
  destruct (truthy (Z.land (curFlags c) BTCF_ValidOvfl)) eqn:Ev; cbn [negb].
  - specialize (Hca eq_refl) || specialize (Hca Ev). destruct (truthy (the_cache c).[offset / u]) eqn:Et; [|apply Hstart; [exists (answers db); by destruct db|done|done]].
    pose proof (Z.div_mod offset u ltac:(lia)) as Hdm. pose proof (Z.mod_pos_bound offset u ltac:(lia)) as Hmod. pose proof (Z.div_pos offset u ltac:(lia) ltac:(lia)) as Hd0. set (k := offset / u) in *. assert (Hk : k < zlen pgs) by nia.
    assert (Hlk : (Z.to_nat k < length pgs)%nat) by (unfold zlen in *; lia). destruct (lookup_lt_is_Some_2 pgs _ Hlk) as [q Hq]. pose proof (take_drop_middle _ _ _ Hq) as Esplit. set (pre := take (Z.to_nat k) pgs) in *. set (post := drop (S (Z.to_nat k)) pgs) in *.
    assert (Lpre : zlen pre = k) by (unfold pre; apply zlen_take; lia). assert (Eq : (the_cache c).[k] = q).
    { destruct Hca as [_ Hca]. destruct (Hca k) as [E|E]; [lia|unfold truthy in Et; lia|]. rewrite E, <- Esplit, <- Lpre. apply zget_mid. }
    rewrite Eq. rewrite <- Esplit in *. rewrite zlen_app in HN. eapply ends_weaken; [pose proof (access_chain_ok eOp (pre ++ q :: post) u Hnd post pre q db c (offset mod u) amt buf pb) as G; rewrite Lpre in G; apply G|].
    all: try done; try lia.
    + by apply Forall_app in Hch as [_ Hch].
    + by eapply links_suffix.
    + nia.
    + intros r db' Hr. exists c. split; [done|]. apply accessed_from; try done; try lia. all: rewrite ?Lpre, ?zlen_app; try lia. all: replace (offset - u * k) with (offset mod u) by lia; done.
  - rewrite (novfl_exact u N (zlen pgs)) by lia. eapply ends_use; [apply fresh_cache_ok|]. intros c1 db1 (Hdb & Hsc & Hc1). by apply Hstart.
Qed.

(** ** A payload on its pages *)

(** The bytes before a payload of [n] bytes. *)
Definition cell_header (t : PageType) (h : list Z) (key n : Z) : Prop :=
  (xParseCell t = ParseCellPtr /\ is_i64 key /\ h = varint_enc n ++ varint_enc (u64 key)) \/
  (xParseCell t = ParseCellPtrIndex /\ key = n /\ 0 <= childPtrSize t <= 4 /\ exists child, zlen child = childPtrSize t /\ bytes_ok child /\ h = child ++ varint_enc n).

Definition info_of (b : BtShared) (t : PageType) (h : list Z) (key n : Z) : CellInfo :=
  mkInfo key (zlen h) n (local_bytes b t n) (if n <=? maxLocal t then Z.max 4 (n + zlen h) else zlen h + local_bytes b t n + 4).

Lemma header_parse b t h key n rest : limits_ok b t -> cell_header t h key n -> 0 <= n < 2 ^ 31 -> bytes_ok rest -> run_xParseCell b t (h ++ rest) = info_of b t h key n /\ 0 < zlen h <= 22.
Proof.
  intros Hl Hh Hn Hr. pose proof (varint_enc_len n ltac:(unfold is_u64; lia)) as Ln. destruct Hh as [(E & Hk & ->)|(E & -> & Hc & child & Lc & Bc & ->)]; unfold run_xParseCell; rewrite E.
  - assert (U : is_u64 (u64 key)) by (unfold is_u64, u64; apply Z.mod_pos_bound; lia). pose proof (varint_enc_len _ U). assert (H22 : 0 < zlen (varint_enc n ++ varint_enc (u64 key)) <= 22) by (rewrite zlen_app; lia). split; [|done].
    rewrite parse_table_cell by done. by rewrite local_size_ok by done.
  - assert (H22 : 0 < zlen (child ++ varint_enc n) <= 22) by (rewrite zlen_app; pose proof (zlen_nonneg child); lia). split; [|done]. rewrite parse_index_cell by done. by rewrite local_size_ok by done.
Qed.

(** The cell at [off] of page [q] has the header [h] and the payload [P], which goes on in [pgs]. *)
Record holds (db : Db) (t : PageType) (q off : Z) (h : list Z) (key : Z) (P pgs : list Z) (local := local_bytes (bt db) t (zlen P)) : Prop := {
  ho_pages : pages_ok (bt db) (pg db);
  ho_header : cell_header t h key (zlen P);
  ho_at : slice (pg db q) off (zlen h) = h;
  ho_fits : 0 <= off /\ off + zlen h + local + (if local <? zlen P then 4 else 0) <= usableSize (bt db);
  ho_local : slice (pg db q) (off + zlen h) local = slice P 0 local;
  ho_chain : if local <? zlen P then
      chain_of db (usableSize (bt db) - 4) (zlen P - local) (get4byte (pg db q) (off + zlen h + local)) pgs /\
      slice (body (pg db) (usableSize (bt db) - 4) pgs) 0 (zlen P - local) = slice P local (zlen P - local)
    else pgs = [];
  ho_apart : q ∉ pgs }.

Definition cell_info (db : Db) (t : PageType) (h : list Z) (key : Z) (P : list Z) : CellInfo := info_of (bt db) t h key (zlen P).

Lemma holds_parse db t q off h key P pgs : limits_ok (bt db) t -> wf_bt (bt db) -> zlen P < 2 ^ 31 -> holds db t q off h key P pgs ->
  run_xParseCell (bt db) t (drop (Z.to_nat off) (pg db q)) = cell_info db t h key P /\ 0 < zlen h <= 22.
Proof.
  intros Hl Hb HP [H1 H2 H3 H4 H5 H6 H7]. destruct (wf_bt_sizes _ Hb). destruct (H1 q) as [Lq Bq]. pose proof (zlen_nonneg P). pose proof (zlen_nonneg h). destruct (local_bytes_range (bt db) t (zlen P) Hl ltac:(lia)) as [R1 R2].
  assert (E : drop (Z.to_nat off) (pg db q) = h ++ drop (Z.to_nat (zlen h)) (drop (Z.to_nat off) (pg db q))). { rewrite <- H3 at 1. unfold slice. by rewrite take_drop. }
  rewrite E. apply header_parse; [done|done|lia|]. by apply Forall_drop, Forall_drop.
Qed.

(** An access to a string in two parts, the second of which goes on. *)
Lemma access_parts eOp A B offset buf amt (inPage := offset <? zlen A) (a := if inPage then (if zlen A <? amt + offset then zlen A - offset else amt) else 0) (offset' := if inPage then 0 else offset - zlen A) :
  0 <= offset -> 0 <= amt -> offset + amt <= zlen A + zlen B -> amt <= zlen buf ->
  (inPage = false -> a = 0) /\ 0 <= a <= amt /\ (inPage = true -> offset + a <= zlen A) /\ 0 <= offset' /\ offset' + (amt - a) <= zlen B /\
  str_after eOp (A ++ B) offset buf 0 amt = (if inPage then str_after eOp A offset buf 0 a else A) ++ (if 0 <? amt - a then str_after eOp B offset' (if inPage then buf_after eOp A offset buf 0 a else buf) a (amt - a) else B) /\
  buf_after eOp (A ++ B) offset buf 0 amt = (if 0 <? amt - a then buf_after eOp B offset' (if inPage then buf_after eOp A offset buf 0 a else buf) a (amt - a) else (if inPage then buf_after eOp A offset buf 0 a else buf)).
Proof.
  intros H0 Ha Hle Hb. pose proof (zlen_nonneg A). pose proof (zlen_nonneg B). subst a offset' inPage. destruct (offset <? zlen A) eqn:E1; [destruct (zlen A <? amt + offset) eqn:E2|].
  - replace (0 <? amt - (zlen A - offset)) with true by lia. split_and!; try lia; try done; [apply str_after_mid; lia|apply buf_after_mid; lia].
  - replace (0 <? amt - amt) with false by lia. split_and!; try lia; try done; [apply str_after_l; lia|apply buf_after_l; lia].
  - rewrite Z.sub_0_r. destruct (0 <? amt) eqn:E2; (split_and!; try lia; try done).
    + apply str_after_r; lia.
    + rewrite buf_after_r by lia. done.
    + assert (amt = 0) as -> by lia. destruct eOp; [|done]. cbn [str_after]. change (slice buf 0 0) with (take 0 (drop 0 buf)). by rewrite take_0, splice_nil.
    + assert (amt = 0) as -> by lia. destruct eOp; [done|]. cbn [buf_after]. unfold slice. by rewrite take_0, splice_nil.
Qed.

Record on_cell (c : BtCursor) (db : Db) (t : PageType) (q off : Z) (h : list Z) (key : Z) (P pgs : list Z) : Prop := {
  oc_page : pgno (curPage c) = q /\ ptype (curPage c) = t /\ pBt (curPage c) = bt db /\ ix c < nCell (curPage c);
  oc_info : info c = Some (off, cell_info db t h key P) \/ (info c = None /\ cellOffsetOf (set_aData (curPage c) (pg db q)) (ix c) = off);
  oc_cache : cached c pgs }.

Lemma getCellInfo_ok c db t q off h key P pgs : limits_ok (bt db) t -> wf_bt (bt db) -> zlen P < 2 ^ 31 -> holds db t q off h key P pgs -> on_cell c db t q off h key P pgs ->
  exists c1, getCellInfo c (pg db q) = (off, cell_info db t h key P, c1) /\ curPage c1 = curPage c /\ ix c1 = ix c /\ info c1 = Some (off, cell_info db t h key P) /\ cached c1 pgs.
Proof.
  intros Hl Hb HP Hh [(O1 & O2 & O3 & O4) O5 O6]. unfold getCellInfo. destruct O5 as [E|[E Eo]]; rewrite E; [exists c; done|]. destruct (holds_parse _ _ _ _ _ _ _ _ Hl Hb HP Hh) as [Hp _].
  assert (Ei : run_xParseCell (pBt (set_aData (curPage c) (pg db q))) (ptype (set_aData (curPage c) (pg db q))) (drop (Z.to_nat off) (aData (set_aData (curPage c) (pg db q)))) = cell_info db t h key P).
  { rewrite <- Hp, <- O2, <- O3. done. }
  cbv zeta. rewrite Eo, Ei. eexists. split; [reflexivity|]. split_and!; try done.
  intros Hv. apply O6. cbn [curFlags] in Hv. rewrite Z.land_lor_distr_l in Hv. change (Z.land BTCF_ValidNKey BTCF_ValidOvfl) with 0 in Hv. by rewrite Z.lor_0_r in Hv.
Qed.

(** What an access does: to the payload, to the buffer, and to the file. *)
Record access_done (eOp : bool) (db : Db) (t : PageType) (q off : Z) (h : list Z) (key : Z) (P pgs : list Z) (offset amt : Z) (buf : list Z) (r : BtCursor * list Z) (db' : Db) : Prop := {
  ad_buf : r.2 = buf_after eOp P offset buf 0 amt;
  ad_holds : holds db' t q off h key (str_after eOp P offset buf 0 amt) pgs;
  ad_cell : on_cell r.1 db' t q off h key (str_after eOp P offset buf 0 amt) pgs;
  ad_file : same_file db db';
  ad_page : same_outside [(off + zlen h, local_bytes (bt db) t (zlen P))] (pg db q) (pg db' q);
  ad_else : forall x, x <> q -> x ∉ pgs -> pg db' x = pg db x;
  ad_read : eOp = false -> forall x, pg db' x = pg db x }.

(** The first part of the payload. *)
Lemma access_local eOp db t q off h key P pgs (local := local_bytes (bt db) t (zlen P)) offset a buf (inPage := offset <? local) db' : wf_bt (bt db) -> limits_ok (bt db) t -> holds db t q off h key P pgs -> bytes_ok buf ->
  0 <= offset -> 0 <= a -> (inPage = true -> offset + a <= local) -> a <= zlen buf ->
  (if inPage then touched eOp q db db' /\ pg db' q = str_after eOp (pg db q) (off + zlen h + offset) buf 0 a else exists l, db' = set_answers db l) ->
  touched eOp q db db' /\ same_outside [(off + zlen h, local)] (pg db q) (pg db' q) /\ bytes_ok (pg db' q) /\
  slice (pg db' q) (off + zlen h) local = (if inPage then str_after eOp (slice P 0 local) offset buf 0 a else slice P 0 local) /\
  (inPage = true -> buf_after eOp (pg db q) (off + zlen h + offset) buf 0 a = buf_after eOp (slice P 0 local) offset buf 0 a).
Proof.
  intros Hb Hl [H1 H2 H3 H4 H5 H6 H7] Bb H0 Ha Hin Hbl Hdb. subst local inPage. set (local := local_bytes (bt db) t (zlen P)) in *. destruct (wf_bt_sizes _ Hb). destruct (H1 q) as [Lq Bq]. pose proof (zlen_nonneg h). destruct (local_bytes_range (bt db) t (zlen P) Hl (zlen_nonneg P)) as [R1 R2]. fold local in R1, R2.
  assert (Hfit : off + zlen h + local <= usableSize (bt db)) by (destruct H4 as [_ H4]; destruct (local <? zlen P); lia).
  destruct (offset <? local) eqn:E.
  - destruct Hdb as [Ht Epg]. destruct (region_written eOp (pg db q) (off + zlen h) local offset buf 0 a Bq Bb ltac:(lia) H0 Ha (Hin eq_refl) ltac:(lia) ltac:(lia) ltac:(lia)) as (S & B & W1 & W2). rewrite <- Epg in *. rewrite H5 in W1, W2. done.
  - destruct Hdb as [l ->]. split; [split; [done|]; split; done|]. split_and!; done.
Qed.

Lemma two_parts (A B P junk : list Z) : A ++ B = P ++ junk -> zlen A <= zlen P -> A = slice P 0 (zlen A) /\ slice B 0 (zlen P - zlen A) = slice P (zlen A) (zlen P - zlen A).
Proof.
  intros E Hl. pose proof (zlen_nonneg A). pose proof (zlen_nonneg junk). assert (Hz : zlen A + zlen B = zlen P + zlen junk) by (rewrite <- !zlen_app; by rewrite E). split.
  - rewrite <- (slice_app_l P junk), <- E, slice_app_l by lia. symmetry. apply slice_whole.
  - rewrite <- (slice_app_l P junk), <- E, slice_app_r by lia. f_equal. lia.
Qed.

(** The payload is the part on the page and the beginning of what the chain holds. *)
Lemma holds_split db t q off h key P pgs (local := local_bytes (bt db) t (zlen P)) : limits_ok (bt db) t -> wf_bt (bt db) -> holds db t q off h key P pgs ->
  exists B junk, slice P 0 local ++ B = P ++ junk /\ zlen (slice P 0 local) = local /\ 0 <= local <= zlen P /\ B = (if local <? zlen P then body (pg db) (usableSize (bt db) - 4) pgs else []).
Proof.
  intros Hl Hb [H1 H2 H3 H4 H5 H6 H7]. subst local. set (local := local_bytes (bt db) t (zlen P)) in *. destruct (local_bytes_range (bt db) t (zlen P) Hl (zlen_nonneg P)) as [R1 R2]. fold local in R1, R2. destruct (wf_bt_sizes _ Hb).
  assert (LA : zlen (slice P 0 local) = local) by (apply zlen_slice; lia). destruct (local <? zlen P) eqn:E.
  - destruct H6 as [(_ & _ & _ & _ & HN) H6]. set (B := body _ _ _) in *. assert (LB : zlen B = (usableSize (bt db) - 4) * zlen pgs) by (apply (zlen_body (bt db)); [done|lia|lia]).
    exists B, (drop (Z.to_nat (zlen P - local)) B). split_and!; try done; try lia. assert (EB : B = slice P local (zlen P - local) ++ drop (Z.to_nat (zlen P - local)) B).
    { rewrite <- H6. unfold slice. cbn [Z.to_nat drop]. by rewrite take_drop. }
    rewrite EB at 1. rewrite app_assoc. f_equal. replace local with (0 + local) at 2 by lia. rewrite <- slice_add by lia. replace (local + (zlen P - local)) with (zlen P) by lia. apply slice_whole.
  - assert (Elocal : local = zlen P) by lia. exists [], []. rewrite !app_nil_r. split_and!; try done; try lia. rewrite Elocal. apply slice_whole.
Qed.

(** After both parts were accessed. *)
Lemma access_joined eOp db t q off h key P pgs offset amt buf c c' db' (local := local_bytes (bt db) t (zlen P)) B' buf' : limits_ok (bt db) t -> wf_bt (bt db) -> zlen P < 2 ^ 31 -> holds db t q off h key P pgs ->
  0 <= offset -> 0 <= amt -> offset + amt <= zlen P -> amt <= zlen buf ->
  on_cell c db t q off h key P pgs -> curPage c' = curPage c -> ix c' = ix c -> info c' = Some (off, cell_info db t h key P) -> cached c' pgs ->
  same_file db db' -> pages_ok (bt db) (pg db') -> same_outside [(off + zlen h, local)] (pg db q) (pg db' q) -> (forall x, x <> q -> x ∉ pgs -> pg db' x = pg db x) -> (eOp = false -> forall x, pg db' x = pg db x) ->
  (local < zlen P -> links (pg db') (get4byte (pg db q) (off + zlen h + local)) pgs) ->
  B' = (if local <? zlen P then body (pg db') (usableSize (bt db) - 4) pgs else []) ->
  (forall B junk, slice P 0 local ++ B = P ++ junk -> B = (if local <? zlen P then body (pg db) (usableSize (bt db) - 4) pgs else []) ->
     slice (pg db' q) (off + zlen h) local ++ B' = str_after eOp (slice P 0 local ++ B) offset buf 0 amt /\ buf' = buf_after eOp (slice P 0 local ++ B) offset buf 0 amt) ->
  access_done eOp db t q off h key P pgs offset amt buf (c', buf') db'.
Proof.
  intros Hl Hb HP Hh H0 Ha Hle Hbl Hoc Ec1 Ec2 Ec3 Hca Hsf Hpo Hso Ho Hrd Hln EB' Hboth. destruct (holds_split _ _ _ _ _ _ _ _ Hl Hb Hh) as (B & junk & E & LA & R & EB). fold local in E, LA, R, EB. destruct (Hboth B junk E EB) as [W1 W2]. clear Hboth. rewrite E in W1, W2. pose proof (zlen_nonneg junk).
  assert (Lst : zlen (str_after eOp P offset buf 0 amt) = zlen P) by (apply zlen_str_after; lia). rewrite str_after_l in W1 by lia. rewrite buf_after_l in W2 by lia. destruct Hsf as (F1 & F2 & F3). destruct (wf_bt_sizes _ Hb). destruct Hh as [H1' H2' H3' H4' H5' H6' H7']. fold local in H4', H5', H6'. destruct (H1' q) as [Lq Bq]. pose proof (zlen_nonneg h).
  assert (Hfit : off + zlen h + local <= usableSize (bt db)) by (destruct H4' as [_ H4']; destruct (local <? zlen P); lia).
  assert (LA' : zlen (slice (pg db' q) (off + zlen h) local) = local) by (destruct (Hpo q); apply zlen_slice; lia). destruct (two_parts _ _ _ _ W1) as [V1 V2]; [lia|]. rewrite LA' in V1, V2. rewrite Lst in V2.
  assert (Hinfo : cell_info db' t h key (str_after eOp P offset buf 0 amt) = cell_info db t h key P) by (unfold cell_info; by rewrite F1, Lst).
  split; cbn [fst snd]; try done.
  - split; rewrite ?F1, ?Lst; fold local; try done.
    + rewrite (same_slice _ _ _ off (zlen h) Hso); [done|lia|lia|lia|]. each. solve_apart.
    + destruct (local <? zlen P) eqn:El; [|done]. destruct H6' as [(_ & C2 & C3 & C4 & C5) _]. rewrite EB' in V2. split; [|done]. unfold chain_of. rewrite F1, F2. split; [done|]. split; [done|]. split; [done|]. split; [|done].
      rewrite (same_get4 _ _ _ _ Hso) by (try lia; each; solve_apart). apply Hln. lia.
  - destruct Hoc as [(O1 & O2 & O3 & O4) _ _]. split; [rewrite Ec1, Ec2, F1; done|left; by rewrite Ec3, Hinfo|done].
Qed.

Lemma copy_or_not eOp (inPage : bool) db q i buf a : ends (if inPage then copyPayload q i buf 0 a eOp else mret buf) db
  (fun buf' db' => buf' = (if inPage then buf_after eOp (pg db q) i buf 0 a else buf) /\ (if inPage then touched eOp q db db' /\ pg db' q = str_after eOp (pg db q) i buf 0 a else exists l, db' = set_answers db l)).
Proof.
  destruct inPage; [eapply ends_weaken; [apply copyPayload_ok|]; intros b' db' (-> & Ht & Hp); done|]. apply ends_ret. split; [done|]. exists (answers db). by destruct db.
Qed.

Lemma accessPayload_ok eOp c db t q off h key P pgs offset amt buf : wf_bt (bt db) -> autoVacuum (bt db) = false -> limits_ok (bt db) t -> zlen P < 2 ^ 31 -> holds db t q off h key P pgs -> on_cell c db t q off h key P pgs ->
  bytes_ok P -> bytes_ok buf -> 0 <= offset -> 0 <= amt -> offset + amt <= zlen P -> amt <= zlen buf ->
  ends (accessPayload c offset amt buf eOp) db (access_done eOp db t q off h key P pgs offset amt buf).
Proof.
  intros Hb Hav Hl HP Hh Hoc BP Bb H0 Ha Hle Hbl. assert (Hh' := Hh). destruct Hh' as [H1 H2 H3 H4 H5 H6 H7]. assert (Hoc' := Hoc). destruct Hoc' as [(O1 & O2 & O3 & O4) O5 O6]. destruct (wf_bt_sizes _ Hb). destruct (holds_parse _ _ _ _ _ _ _ _ Hl Hb HP Hh) as [_ H22].
  destruct (getCellInfo_ok c db t q off h key P pgs Hl Hb HP Hh Hoc) as (c1 & Ec & E1 & E2 & E3 & E4). destruct (holds_split _ _ _ _ _ _ _ _ Hl Hb Hh) as (B0 & junk0 & Ej & LA & R & EB0). set (local := local_bytes (bt db) t (zlen P)) in *.
  assert (Hfit : off + zlen h + local <= usableSize (bt db)) by (destruct H4 as [_ H4]; destruct (local <? zlen P); lia).
  unfold accessPayload. replace (nCell (curPage c) <=? ix c) with false by lia. apply ends_bind, ends_get_db, ends_bind, ends_page. rewrite O1, Ec. cbv beta iota zeta. change (nLocal (cell_info db t h key P)) with local. change (pPayload (cell_info db t h key P)) with (zlen h). change (nPayload (cell_info db t h key P)) with (zlen P).
  replace (u32 (usableSize (bt db) - local) <? off + zlen h) with false by (unfold u32; rewrite Z.mod_small by lia; lia).
  assert (Hparts := fun B => access_parts eOp (slice P 0 local) B offset buf amt H0 Ha). rewrite LA in Hparts. set (inPage := offset <? local) in *. set (a := if inPage then (if local <? amt + offset then local - offset else amt) else 0) in *. set (offset' := if inPage then 0 else offset - local) in *.
  eapply ends_use; [apply copy_or_not|]. intros buf1 db1 [Ebuf1 Hdb1].
  assert (Hlen0 : zlen (slice P 0 local) + zlen B0 = zlen P + zlen junk0) by (rewrite <- !zlen_app; by rewrite Ej). pose proof (zlen_nonneg junk0).
  destruct (Hparts B0 ltac:(lia) Hbl) as (P1 & P2 & P3 & P4 & P5 & _ & _).
  destruct (access_local eOp db t q off h key P pgs offset a buf db1 Hb Hl Hh Bb H0 ltac:(lia) P3 ltac:(lia) Hdb1) as (Ht & Hso & Bq1 & Hsl & Hbf). fold local in Hso, Hsl. fold inPage in Hsl, Hbf.
  assert (Ebuf : buf1 = (if inPage then buf_after eOp (slice P 0 local) offset buf 0 a else buf)) by (rewrite Ebuf1; destruct inPage eqn:Ei; [exact (Hbf eq_refl) || exact (Hbf Ei)|done]). clear Ebuf1 Hbf.
  assert (Ht' := Ht). destruct Ht' as ((F1 & F2 & F3) & Fo & Frd). assert (Hpo1 : pages_ok (bt db) (pg db1)). { intros x. destruct (decide (x = q)) as [->|Hx]; [split; [rewrite (proj1 Hso); apply H1|done]|]. rewrite Fo by done. apply H1. }
  assert (Hpgs : forall x, x ∈ pgs -> pg db1 x = pg db x) by (intros x Hx; apply Fo; by intros ->).
  assert (HA : zlen (if inPage then str_after eOp (slice P 0 local) offset buf 0 a else slice P 0 local) = local) by (destruct inPage eqn:Ei; [(specialize (P3 eq_refl) || specialize (P3 Ei)); rewrite zlen_str_after; lia|done]).
  destruct (0 <? amt - a) eqn:Emore.
  - assert (Elt : (local <? zlen P) = true). { destruct (local <? zlen P) eqn:E; [done|]. assert (L0 : zlen B0 = 0) by (by rewrite EB0). lia. } rewrite Elt in *. destruct H6 as [(C1 & C2 & C3 & C4 & C5) C6]. clear Hlen0.
    destruct H4 as [H40 H4]. destruct (H1 q) as [Lq Bq]. apply ends_bind, ends_get4. rewrite (same_get4 _ _ _ _ Hso) by (try lia; each; solve_apart). set (u := usableSize (bt db) - 4) in *.
    assert (Bbuf1 : bytes_ok buf1) by (rewrite Ebuf; destruct inPage; [apply bytes_buf_after; [by apply bytes_slice|done]|done]). assert (Lbuf1 : zlen buf1 = zlen buf) by (rewrite Ebuf; destruct inPage eqn:Ei; [(specialize (P3 eq_refl) || specialize (P3 Ei)); apply zlen_buf_after; lia|done]).
    assert (Hch1 : chain_of db1 u (zlen P - local) (get4byte (pg db q) (off + zlen h + local)) pgs). { unfold chain_of. rewrite F1, F2. split; [done|]. split; [done|]. split; [done|]. split; [|done]. eapply links_frame; [|exact C4]. intros x Hx. by rewrite Hpgs. }
    assert (LBle : offset' + (amt - a) <= zlen P - local) by (subst offset' a; destruct inPage eqn:Ei; [destruct (local <? amt + offset); lia|lia]).
    eapply ends_weaken; [apply (access_overflow_ok eOp c1 db1 u (zlen P - local) _ pgs); [by rewrite F1|by rewrite F1|by rewrite F1|exact Hch1|lia|done|done|lia|lia|lia|lia|lia]|].
    intros [c' buf'] db' (c2 & (S1 & S2 & S3) & [A1 A2 A3 A4 A5 A6 A9 A7 A8]). cbn [fst snd] in *. destruct A5 as (G1 & G2 & G3). rewrite A4 in *. cbn [the_cache aOverflow default] in A3.
    assert (Eq' : pg db' q = pg db1 q) by (by apply A7). assert (Ebody : body (pg db1) u pgs = body (pg db) u pgs) by (by apply body_frame).
    apply (access_joined eOp db t q off h key P pgs offset amt buf c _ db' (body (pg db') u pgs)); try done; cbn [curPage ix info].
    + by rewrite S1, E1.
    + by rewrite S2, E2.
    + by rewrite S3, E3.
    + intros _. exact A3.
    + split_and!; congruence.
    + by rewrite <- F1.
    + by rewrite Eq'.
    + intros x Hx Hx'. rewrite A7, Fo; done.
    + intros E x. rewrite A9, Frd; done.
    + fold local. rewrite Elt. done.
    + fold local. intros B junk E EB. rewrite Elt in EB. fold u in EB. assert (LBB : zlen B = zlen P + zlen junk - local) by (apply (f_equal zlen) in E; rewrite !zlen_app, LA in E; lia). pose proof (zlen_nonneg junk). destruct (Hparts B ltac:(lia) Hbl) as (_ & _ & _ & _ & _ & Q1 & Q2). rewrite Q1, Q2, Eq', Hsl, A2, A1, Ebody, Ebuf, EB. done.
  - apply ends_ret. assert (Eq0 : forall B, zlen B = zlen B0 -> str_after eOp (slice P 0 local ++ B) offset buf 0 amt = (if inPage then str_after eOp (slice P 0 local) offset buf 0 a else slice P 0 local) ++ B /\ buf_after eOp (slice P 0 local ++ B) offset buf 0 amt = buf1).
    { intros B HB. destruct (Hparts B ltac:(lia) Hbl) as (_ & _ & _ & _ & _ & Q1 & Q2). by rewrite Q1, Q2, Ebuf. }
    apply (access_joined eOp db t q off h key P pgs offset amt buf c c1 db1 (if local <? zlen P then body (pg db1) (usableSize (bt db) - 4) pgs else [])); try done.
    + intros x Hx _. by apply Fo.
    + fold local. intros E. replace (local <? zlen P) with true in H6 by lia. destruct H6 as [(C1 & C2 & C3 & C4 & C5) C6]. eapply links_frame; [|exact C4]. intros x Hx. by rewrite Hpgs.
    + fold local. intros B junk E EB. rewrite (body_frame (pg db) (pg db1)) by done. destruct (Eq0 B) as [Q1 Q2]; [by rewrite EB, EB0|]. rewrite Q1, Q2, Hsl, EB. done.
Qed.
