(* ===== verification/BtreeOverflow.v ===== *)
(** The life of a payload (btree.c section of sqlite3.c): clearing a cell gives the pages of its
    chain back, [fillInCell] makes a chain that holds the payload, and what it makes can be put on
    a page, read and overwritten through a cursor, and cleared. *)

From S2P Require Import Prelude Bits Varint Numeric Regions BtreeCell BtreePage BtreeSpace BtreeFile BtreeFree BtreeAlloc BtreePayload.

(** ** Giving the chain back *)

Definition without_pages (used : gmap Z (list Z)) (pgs : list Z) : gmap Z (list Z) := foldl (fun m p => delete p m) used pgs.

Lemma clear_chain_ok pgs i db used : allocator db used -> links (pg db) i pgs -> NoDup pgs -> (forall x, x ∈ pgs -> is_Some (used !! x)) ->
  ends (clear_chain (length pgs) i) db (fun _ db' => bt db' = bt db /\ allocator db' (without_pages used pgs)).
Proof.
  revert i db used. induction pgs as [|p pgs IH]; intros i db used Ha Hl Hnd Hu; cbn [length clear_chain]; [by apply ends_ret|].
  destruct Hl as [-> Hl]. apply NoDup_cons in Hnd as [Hp Hnd]. destruct (Hu p ltac:(left)) as [d Hd]. destruct (al_used _ _ Ha p d Hd) as [(U1 & U2 & U3) _]. apply ends_bind, ends_get_db. replace ((p <? 2) || (nPage db <? p)) with false by lia.
  apply (ends_use _ _ _ (fun r db1 => (pgs = [] \/ r.2 = get4byte (pg db p) 0) /\ exists a, db1 = set_answers db a)).
  { destruct pgs; cbn [length Nat.eqb negb]; [apply ends_ret; split; [by left|exists (answers db); by destruct db]|]. eapply ends_weaken; [apply getOverflowPage_ok; [apply Ha|lia|done]|]. intros r db1 [-> Hdb]. split; [by right|done]. }
  intros [loaded iNext] db1 [Hn [a ->]]. apply (ends_use _ _ _ (fun _ db2 => exists a, db2 = set_answers db a)).
  { destruct loaded; [apply ends_ret; eauto|]. apply ends_found. intros b l _. exists l. done. }
  clear a. intros pOvfl db2 [a ->]. apply ends_bind, ends_get_db. cbn [pinned set_answers]. rewrite bool_decide_eq_false_2 by done. rewrite andb_false_r.
  eapply ends_use; [apply free_step; [by apply allocator_answers|exact (Hu p ltac:(left))]|]. intros [] db3 [E3 Ha3]. cbn [bt set_answers] in E3.
  assert (Hkeep : forall x, x ∈ pgs -> is_Some (delete p used !! x) /\ pg db3 x = pg db x).
  { intros x Hx. destruct (Hu x ltac:(by right)) as [e He]. assert (He' : delete p used !! x = Some e) by (rewrite lookup_delete_ne; [done|]; by intros ->). split; [eauto|]. destruct (al_used _ _ Ha3 x e He') as [_ ->]. by destruct (al_used _ _ Ha x e He) as [_ ->]. }
  destruct pgs as [|q pgs]; [cbn [length clear_chain]; by apply ends_ret|]. destruct Hn as [Hn|Hn]; [done|]. cbn [snd] in Hn. subst iNext.
  eapply ends_weaken; [apply (IH _ db3 (delete p used) Ha3); [|done|]|].
  - eapply links_frame; [|exact Hl]. intros x Hx. by destruct (Hkeep x Hx) as [_ ->].
  - intros x Hx. by apply Hkeep.
  - intros [] db4 [E4 Ha4]. split; [congruence|done].
Qed.

Lemma clear_cell_ok p db used t off h key P pgs : wf_bt (bt db) -> limits_ok (bt db) t -> zlen P < 2 ^ 31 -> allocator db used -> holds db t (pgno p) off h key P pgs -> pBt p = bt db -> ptype p = t ->
  (forall x, x ∈ pgs -> is_Some (used !! x)) -> ends (BTREE_CLEAR_CELL p off) db (fun i db' => i = cell_info db t h key P /\ bt db' = bt db /\ allocator db' (without_pages used pgs)).
Proof.
  intros Hb Hl HP Ha Hh Ep Et Hu. unfold BTREE_CLEAR_CELL. apply ends_bind, ends_page. rewrite Ep, Et. destruct (holds_parse _ _ _ _ _ _ _ _ Hl Hb HP Hh) as [Hpar H22]. rewrite Hpar. cbv zeta.
  destruct Hh as [H1 H2 H3 H4 H5 H6 H7]. set (local := local_bytes (bt db) t (zlen P)) in *. destruct (wf_bt_sizes _ Hb). pose proof (zlen_nonneg P). destruct (local_bytes_range (bt db) t (zlen P) Hl ltac:(lia)) as [R1 R2]. fold local in R1, R2.
  change (nLocal (cell_info db t h key P)) with local. change (nPayload (cell_info db t h key P)) with (zlen P). assert (Hmax : (zlen P <=? maxLocal t) = negb (local <? zlen P)).
  { unfold local in *. unfold local_bytes in *. destruct (zlen P <=? maxLocal t) eqn:E; [lia|]. assert (Hx : (if minLocal t + (zlen P - minLocal t) mod (usableSize (bt db) - 4) <=? maxLocal t then minLocal t + (zlen P - minLocal t) mod (usableSize (bt db) - 4) else minLocal t) <= maxLocal t) by (destruct (_ <=? _) eqn:E2; destruct Hl; lia). lia. }
  apply (ends_use _ _ _ (fun _ db' => bt db' = bt db /\ allocator db' (without_pages used pgs))); [|intros [] db' [E H']; apply ends_ret; done].
  destruct (local <? zlen P) eqn:El.
  - replace (negb (local =? zlen P)) with true by lia. destruct H6 as [(C1 & C2 & C3 & C4 & C5) _]. assert (Es : nSize (cell_info db t h key P) = zlen h + local + 4). { unfold cell_info, info_of. cbn [nSize]. rewrite Hmax. done. }
    unfold clearCellOverflow. apply ends_bind, ends_get_db. rewrite Es. replace (pageSize (bt db) <? off + (zlen h + local + 4)) with false by lia. apply ends_bind, ends_get4. replace (off + (zlen h + local + 4) - 4) with (off + zlen h + local) by lia.
    change (nPayload (cell_info db t h key P)) with (zlen P). change (nLocal (cell_info db t h key P)) with local. cbv zeta. rewrite (novfl_exact (usableSize (bt db) - 4) (zlen P - local) (zlen pgs)) by lia.
    replace (Z.to_nat (zlen pgs)) with (length pgs) by (unfold zlen; lia). by apply clear_chain_ok.
  - replace (negb (local =? zlen P)) with false by lia. subst pgs. apply ends_ret. done.
Qed.

(** ** Making a cell *)

(** What is left of the payload when [nSrc] bytes of the source and [n] of the payload are left. *)
Definition rest_of (pSrc : list Z) (nSrc n : Z) : list Z := if 0 <? nSrc then take (Z.to_nat nSrc) pSrc ++ replicate (Z.to_nat (n - nSrc)) 0 else replicate (Z.to_nat n) 0.

Lemma rest_step pSrc nSrc nPayload space (n0 := if space <? nPayload then space else nPayload) (n := if n0 <=? nSrc then n0 else if 0 <? nSrc then nSrc else n0) : nSrc <= zlen pSrc -> nSrc <= nPayload -> 0 < nPayload -> 0 < space ->
  0 < n <= nPayload /\ n <= space /\ rest_of pSrc nSrc nPayload = (if 0 <? nSrc then take (Z.to_nat n) pSrc else replicate (Z.to_nat n) 0) ++ rest_of (drop (Z.to_nat n) pSrc) (nSrc - n) (nPayload - n) /\
  nSrc - n <= zlen (drop (Z.to_nat n) pSrc) /\ nSrc - n <= nPayload - n /\ zlen (if 0 <? nSrc then take (Z.to_nat n) pSrc else replicate (Z.to_nat n) 0) = n.
Proof.
  intros H1 H2 H3 H4. assert (Hn0 : 0 < n0 <= nPayload /\ n0 <= space) by (subst n0; destruct (space <? nPayload) eqn:E; lia). assert (Hn : 0 < n <= n0 /\ (0 < nSrc -> n <= nSrc)) by (subst n; destruct (n0 <=? nSrc) eqn:E1; [lia|destruct (0 <? nSrc) eqn:E2; lia]). clearbody n0 n.
  split; [lia|]. split; [lia|]. split; [|split; [unfold zlen in *; rewrite length_drop; lia|split; [lia|]]].
  - unfold rest_of. destruct (0 <? nSrc) eqn:E.
    + destruct (0 <? nSrc - n) eqn:E2.
      * rewrite app_assoc. f_equal; [|f_equal; lia]. replace (Z.to_nat nSrc) with (Z.to_nat n + Z.to_nat (nSrc - n))%nat by lia. by rewrite take_take_drop.
      * replace n with nSrc in * by lia. done.
    + replace (0 <? nSrc - n) with false by lia. rewrite <- replicate_add. f_equal. lia.
  - destruct (0 <? nSrc) eqn:E; [apply zlen_take; lia|unfold zlen; rewrite length_replicate; lia].
Qed.
Lemma zlen_rest pSrc nSrc n : nSrc <= zlen pSrc -> nSrc <= n -> 0 <= n -> zlen (rest_of pSrc nSrc n) = n.
Proof. intros. unfold rest_of. destruct (0 <? nSrc) eqn:E; [rewrite zlen_app, zlen_take by lia|]; unfold zlen; rewrite length_replicate; lia. Qed.
Lemma bytes_rest pSrc nSrc n : bytes_ok pSrc -> bytes_ok (rest_of pSrc nSrc n).
Proof. intros. unfold rest_of. destruct (0 <? nSrc); [apply Forall_app; split; [by apply Forall_take|]|]; apply bytes_zeroed. Qed.

Section filling.
Context (b : BtShared) (used0 : gmap Z (list Z)) (local nHeader : Z) (H : list Z) (L : Z).
Abbreviation u := (usableSize b - 4).

(** [W] has been written to the cell and to the chain [pgs]. *)
Record filling (cell : list Z) (db : Db) (used : gmap Z (list Z)) (W pgs : list Z) : Prop := {
  fi_bt : bt db = b;
  fi_alloc : allocator db used;
  fi_cell : zlen cell = L /\ bytes_ok cell /\ take (Z.to_nat nHeader) cell = H;
  fi_new : NoDup pgs /\ forall x, x ∈ pgs -> used0 !! x = None /\ is_Some (used !! x);
  fi_old : forall x, x ∉ pgs -> used !! x = used0 !! x;
  fi_size : size used = (size used0 + length pgs)%nat;
  fi_links : links (pg db) (match pgs with [] => 0 | _ => get4byte cell (nHeader + local) end) pgs;
  fi_data : slice (slice cell nHeader local ++ body (pg db) u pgs) 0 (zlen W) = W;
  fi_cap : zlen W <= local + u * zlen pgs;
  fi_low : pgs = [] \/ local + u * (zlen pgs - 1) <= zlen W }.

Definition dst_of (pgs : list Z) : option Z := last pgs.
Definition pos_of (W pgs : list Z) : Z := match last pgs with None => nHeader + zlen W | Some _ => 4 + (zlen W - local - u * (zlen pgs - 1)) end.

Hypothesis Hb : wf_bt b.
Hypothesis Hnh : 0 <= nHeader.
Hypothesis Hlo : 0 <= local.
Hypothesis HL : nHeader + local + 4 <= L.

(** Storing at a place of the string that the cell and the chain make. *)
Lemma data_splice (S W w : list Z) : slice S 0 (zlen W) = W -> zlen W + zlen w <= zlen S -> slice (splice S (zlen W) w) 0 (zlen (W ++ w)) = W ++ w.
Proof.
  intros E Hl. pose proof (zlen_nonneg W). pose proof (zlen_nonneg w). rewrite zlen_app, slice_add by (rewrite ?zlen_splice; lia). rewrite Z.add_0_l, slice_splice by lia. f_equal. rewrite <- E at 3.
  apply zlist_ext; [rewrite !zlen_slice; rewrite ?zlen_splice; lia|]. rewrite zlen_slice by (rewrite ?zlen_splice; lia). intros j Hj. rewrite !zget_slice by lia. apply zget_splice_out; lia.
Qed.
Lemma body_snoc f pre p : body f u (pre ++ [p]) = body f u pre ++ slice (f p) 4 u.
Proof. by rewrite body_app, body_one. Qed.

Lemma splice_region (d w : list Z) o n k : bytes_ok d -> bytes_ok w -> 0 <= o -> 0 <= k -> k + zlen w <= n -> o + n <= zlen d ->
  same_outside [(o, n)] d (splice d (o + k) w) /\ bytes_ok (splice d (o + k) w) /\ slice (splice d (o + k) w) o n = splice (slice d o n) k w.
Proof.
  intros Bd Bw Ho Hk Hn Hl. pose proof (zlen_nonneg w). destruct (region_written true d o n k w 0 (zlen w) Bd Bw Ho Hk ltac:(lia) Hn Hl ltac:(lia) ltac:(lia)) as (S & B & E & _). cbn [str_after] in *.
  by rewrite slice_whole in *.
Qed.

Lemma store_ok cell db used W pgs w : filling cell db used W pgs -> bytes_ok w -> zlen W + zlen w <= local + u * zlen pgs ->
  ends (store cell (dst_of pgs) (pos_of W pgs) w) db (fun cell' db' => exists used', filling cell' db' used' (W ++ w) pgs).
Proof.
  intros [F1 F2 (F3 & F4 & F5) (F6 & F6') F7 F8 F9 F10 F11 F12] Bw Hw. pose proof (zlen_nonneg W). pose proof (zlen_nonneg w). destruct (wf_bt_sizes _ Hb). unfold dst_of, pos_of.
  destruct pgs as [|p pre _] using rev_ind.
  - cbn [last store]. change (zlen []) with 0 in *. apply ends_ret. exists used. destruct (splice_region cell w nHeader local (zlen W) F4 Bw Hnh ltac:(lia) ltac:(lia) ltac:(lia)) as (S & B & E). assert (Zs := proj1 S).
    split; try done; [| |rewrite zlen_app; change (zlen []) with 0; lia|by left].
    + split_and!; [lia|done|]. rewrite <- F5. apply zlist_ext; [rewrite !zlen_take; lia|]. rewrite zlen_take by lia. intros j Hj. rewrite !zget_taken by lia. apply zget_splice_out; lia.
    + rewrite E. change (body (pg db) u []) with (@nil Z) in *. rewrite app_nil_r in *. apply data_splice; [done|]. rewrite zlen_slice by lia. lia.
  - rewrite last_snoc. cbn [store]. rewrite zlen_snoc in *. destruct (F6' p) as [F6n [d Hd]]; [apply elem_of_app; right; left|]. destruct (al_used _ _ F2 p d Hd) as [Hup Epd]. destruct F12 as [F12|F12]; [by destruct pre|].
    replace (zlen pre + 1 - 1) with (zlen pre) in * by lia. set (k := zlen W - local - u * zlen pre) in *. apply ends_bind, ends_page.
    assert (Hpo : pages_ok b (pg db)). { destruct F2 as [(ts & Hv & _) _ _ _]. rewrite <- F1. exact (fv_pages _ _ _ _ _ Hv). } destruct (Hpo p) as [Lp Bp].
    destruct (splice_region (pg db p) w 4 u k Bp Bw ltac:(lia) ltac:(lia) ltac:(lia) ltac:(lia)) as (S & B & E). assert (Zs := proj1 S).
    set (d' := splice (pg db p) (4 + k) w) in *. apply ends_bind, ends_set_page, ends_ret. set (db' := set_pages db _).
    assert (Dp : pg db' p = d') by (unfold db'; by rewrite pg_set_eq). assert (Do : forall x, x <> p -> pg db' x = pg db x) by (intros x Hx; unfold db'; by rewrite pg_set_ne).
    assert (Hpre : forall x, x ∈ pre -> pg db' x = pg db x). { intros x Hx. apply Do. intros ->. apply NoDup_app in F6 as (_ & F6 & _). apply (F6 p Hx). left. }
    assert (Hlk : get4byte d' 0 = get4byte (pg db p) 0) by (apply (same_get4 _ _ _ 0 S); [lia|lia|each; solve_apart]).
    exists (<[p := d']> used). split; try done.
    + apply (allocator_write db); try done. rewrite F1, Zs; lia.
    + split; [done|]. intros x Hx. split; [by apply F6'|]. destruct (decide (x = p)) as [->|Hne]; [rewrite lookup_insert_eq; eauto|rewrite lookup_insert_ne by done; by apply F6'].
    + intros x Hx. rewrite lookup_insert_ne; [by apply F7|]. intros <-. apply Hx, elem_of_app. right. left.
    + rewrite map_size_insert_Some; [done|eauto].
    + eapply links_frame; [|destruct pre; exact F9]. intros x Hx. destruct (decide (x = p)) as [->|Hne]; [by rewrite Dp|by rewrite Do].
    + rewrite body_snoc in F10 |- *. rewrite (body_frame _ _ _ _ Hpre), Dp, E. assert (LA : zlen (slice cell nHeader local) = local) by (apply zlen_slice; lia). assert (Lb : zlen (body (pg db) u pre) = u * zlen pre) by (apply (zlen_body b); [done|lia|lia]).
      assert (Lq : zlen (slice (pg db p) 4 u) = u) by (apply zlen_slice; lia).
      assert (EE : slice cell nHeader local ++ body (pg db) u pre ++ splice (slice (pg db p) 4 u) k w = splice (slice cell nHeader local ++ body (pg db) u pre ++ slice (pg db p) 4 u) (zlen W) w).
      { rewrite !app_assoc. rewrite splice_app_r by (rewrite zlen_app; lia). do 2 f_equal. rewrite zlen_app. lia. }
      rewrite EE. apply data_splice; [done|]. rewrite !zlen_app. lia.
    + rewrite !zlen_app. change (zlen [p]) with 1. lia.
    + right. rewrite !zlen_app. change (zlen [p]) with 1. lia.
Qed.

Definition prior_of (pgs : list Z) : option Z * Z := match last pgs with None => (None, nHeader + local) | Some p => (Some p, 0) end.

Lemma links_snoc f f' i pre p x : links f i (pre ++ [p]) -> NoDup (pre ++ [p]) -> (forall y, y ∈ pre -> f' y = f y) -> get4byte (f' p) 0 = x -> get4byte (f' x) 0 = 0 -> links f' i (pre ++ [p; x]).
Proof.
  intros Hl Hnd Hf Hp Hx. revert i Hl. induction pre as [|y pre IH]; intros i; cbn [app links]; [intros [-> _]; done|]. intros [-> Hl]. split; [done|]. rewrite (Hf y) by left. cbn [app] in Hnd. apply NoDup_cons in Hnd as [_ Hnd]. apply IH; [done| |done].
  intros z Hz. apply Hf. by right.
Qed.

Lemma word_ok x : zlen (sqlite3Put4byte [0; 0; 0; 0] x) = 4 /\ bytes_ok (sqlite3Put4byte [0; 0; 0; 0] x).
Proof. rewrite put4_splice, splice_0 by done. split; [done|]. cbn [drop app]. repeat constructor; apply u8_range. Qed.

Lemma overflow_alloc_ok db used pgnoOvfl : allocator db used -> is_u32 pgnoOvfl -> Z.of_nat (size used) + 8 < 2 ^ 32 ->
  ends (overflow_alloc pgnoOvfl) db (fun x db' => bt db' = bt db /\ used !! x = None /\ allocator db' (<[x := pg db' x]> used)).
Proof.
  intros Ha Hn Hs. assert (Hav := al_vacuum _ _ Ha). unfold overflow_alloc, next_guess. apply ends_bind, ends_get_db. rewrite Hav. eapply ends_use; [by apply alloc_step|]. intros x db1 (E & Hx & _ & _ & Ha1). apply ends_bind, ends_ret, ends_ret. done.
Qed.

(** The pages a client had before. *)
Lemma kept_pages db db' used used' x : allocator db used -> allocator db' used' -> is_Some (used !! x) -> used' !! x = used !! x -> pg db' x = pg db x.
Proof. intros H1 H2 [d Hd] E. destruct (al_used _ _ H1 x d Hd) as [_ ->]. rewrite Hd in E. by destruct (al_used _ _ H2 x d E) as [_ ->]. Qed.

Lemma link_filling cell db used W pgs cell' db' used' x : filling cell db used W pgs -> zlen W = local + u * zlen pgs -> bt db' = b -> allocator db' used' ->
  zlen cell' = L /\ bytes_ok cell' /\ take (Z.to_nat nHeader) cell' = H -> slice cell' nHeader local = slice cell nHeader local -> x ∉ pgs -> used0 !! x = None ->
  (forall y, y ∈ pgs -> is_Some (used' !! y)) -> is_Some (used' !! x) -> (forall y, y ∉ pgs -> y <> x -> used' !! y = used !! y) -> size used' = S (size used) ->
  (forall y, y ∈ pgs -> slice (pg db' y) 4 u = slice (pg db y) 4 u) -> links (pg db') (get4byte cell' (nHeader + local)) (pgs ++ [x]) -> filling cell' db' used' W (pgs ++ [x]).
Proof.
  intros [F1 F2 (F3 & F4 & F5) (F6 & F6') F7 F8 F9 F10 F11 F12] HW Ebt Ha Hc Ed Hx Hx0 Hin Hinx Hout Hs Hbody Hl. destruct (wf_bt_sizes _ Hb).
  assert (Hpo : pages_ok b (pg db')). { destruct Ha as [(ts & Hv & _) _ _ _]. rewrite <- Ebt. exact (fv_pages _ _ _ _ _ Hv). } split; try done.
  - split; [apply NoDup_app; split; [done|split; [|apply NoDup_singleton]]; by intros y Hy ->%list_elem_of_singleton|]. intros y [Hy|Hy]%elem_of_app; [split; [by apply F6'|auto]|]. apply list_elem_of_singleton in Hy as ->. done.
  - intros y Hy. rewrite not_elem_of_app, not_elem_of_cons in Hy. destruct Hy as (Hy & Hyx & _). rewrite Hout by done. by apply F7.
  - rewrite Hs, F8, length_app. cbn [length]. lia.
  - by destruct pgs.
  - rewrite body_snoc, Ed, app_assoc. assert (Ebody : body (pg db') u pgs = body (pg db) u pgs). { clear -Hbody. induction pgs as [|y pgs IH]; [done|]. rewrite !body_cons, (Hbody y) by left. f_equal. apply IH. intros z Hz. apply Hbody. by right. }
    rewrite Ebody, slice_app_l; [done|lia|apply zlen_nonneg|]. rewrite zlen_app. assert (LA : zlen (slice cell nHeader local) = local) by (apply zlen_slice; lia). rewrite LA, <- Ebody. rewrite (zlen_body b (pg db') u pgs Hpo) by lia. lia.
  - rewrite zlen_app. change (zlen [x]) with 1. lia.
  - right. rewrite zlen_app. change (zlen [x]) with 1. lia.
Qed.

Lemma link_ok cell db used W pgs : filling cell db used W pgs -> zlen W = local + u * zlen pgs -> Z.of_nat (size used0) + zlen pgs + 8 < 2 ^ 32 ->
  ends (link_overflow cell (prior_of pgs) (default 0 (last pgs))) db (fun r db' => exists used', filling r.1 db' used' W (pgs ++ [r.2])).
Proof.
  intros [F1 F2 (F3 & F4 & F5) (F6 & F6') F7 F8 F9 F10 F11 F12] HW Hsz. destruct (wf_bt_sizes _ Hb). unfold link_overflow. assert (Hav := al_vacuum _ _ F2). assert (Hpo : pages_ok b (pg db)). { destruct F2 as [(ts & Hv & _) _ _ _]. rewrite <- F1. exact (fv_pages _ _ _ _ _ Hv). }
  assert (Hlast : is_u32 (default 0 (last pgs))). { destruct (last pgs) as [p|] eqn:El; [|done]. cbn [default]. destruct (F6' p) as [_ [d Hd]]; [by apply last_Some_elem_of|]. destruct (al_used _ _ F2 p d Hd) as [[Hp _] _]. destruct F2 as [(ts & Hv & _) _ _ _]. pose proof (fv_size _ _ _ _ _ Hv). unfold is_u32. cbn. lia. }
  eapply ends_use; [apply (overflow_alloc_ok db used); [done|done|unfold zlen in Hsz; lia]|]. intros x db1 (E1 & Hx & Ha1).
  assert (Hxp : x ∉ pgs) by (intros Hin; destruct (F6' x Hin) as [_ [d Hd]]; congruence). assert (Hx0 : used0 !! x = None) by (by rewrite <- F7).
  assert (Hk1 : forall y, y ∈ pgs -> pg db1 y = pg db y). { intros y Hy. destruct (F6' y Hy) as [_ Hd]. eapply kept_pages; [exact F2|exact Ha1|done|]. apply lookup_insert_ne. by intros ->. }
  destruct (word_ok x) as [Lw Bw]. assert (Hpo1 : pages_ok b (pg db1)). { destruct Ha1 as [(ts & Hv & _) _ _ _]. rewrite <- F1, <- E1. exact (fv_pages _ _ _ _ _ Hv). } destruct (Hpo1 x) as [Lx Bx].
  assert (Hxu : is_u32 x). { destruct (al_used _ _ Ha1 x (pg db1 x)) as [[Hr _] _]; [by rewrite lookup_insert_eq|]. destruct Ha1 as [(ts & Hv & _) _ _ _]. pose proof (fv_size _ _ _ _ _ Hv). unfold is_u32. lia. }
  assert (Gw : sqlite3Get4byte (sqlite3Put4byte [0; 0; 0; 0] x) = x) by (apply get4_of_put4; done).
  assert (Hfill : filling cell db used W pgs) by done. set (x4 := put4byte (pg db1 x) 0 0). assert (Lx4 : zlen x4 = pageSize b) by (unfold x4; rewrite zlen_put4; lia). assert (Bx4 : bytes_ok x4) by (apply bytes_put4; (done || lia)).
  assert (Gx4 : get4byte x4 0 = 0) by (apply get4byte_put4byte; [lia|lia|done]).
  destruct pgs as [|p pre _] using rev_ind.
  - unfold prior_of. cbn [last store fst snd]. apply ends_bind, ends_ret, ends_bind, ends_put4, ends_ret. cbn [fst snd]. fold x4. set (db3 := set_pages db1 _). exists (<[x := x4]> (<[x := pg db1 x]> used)).
    pose proof (same_splice4 cell (nHeader + local) _ Lw ltac:(lia) ltac:(lia)) as S. assert (D3 : pg db3 x = x4) by (unfold db3; by rewrite pg_set_eq).
    apply (link_filling cell db used W [] _ db3 _ x Hfill HW); try done; [change (bt db1 = b); congruence| | | | | | | | |].
    + apply (allocator_write db1); try done; [rewrite lookup_insert_eq; eauto|by rewrite E1, F1|intros i Hi; unfold db3; by rewrite pg_set_ne].
    + split_and!; [rewrite (proj1 S); done|by apply bytes_spliced|]. rewrite <- F5. apply zlist_ext; [rewrite !zlen_take; rewrite ?(proj1 S); lia|]. rewrite zlen_take by (rewrite (proj1 S); lia). intros j Hj. rewrite !zget_taken by lia. apply (same_byte _ _ _ _ S). each. solve_apart.
    + apply (same_slice _ _ _ _ _ S); [lia|lia|lia|]. each. solve_apart.
    + by intros y Hy%elem_of_nil.
    + rewrite lookup_insert_eq. eauto.
    + intros y _ Hy. by rewrite !lookup_insert_ne by done.
    + rewrite insert_insert_eq. by rewrite map_size_insert_None.
    + by intros y Hy%elem_of_nil.
    + cbn [app links]. rewrite get4_splice, Gw by lia. rewrite D3. done.
  - unfold prior_of. rewrite last_snoc. cbn [store fst snd]. assert (Hpin : p ∈ pre ++ [p]) by (apply elem_of_app; right; left). destruct (F6' p Hpin) as [_ [dp Hdp]]. assert (Hpx : p <> x) by congruence. destruct (Hpo1 p) as [Lp Bp].
    set (p4 := splice (pg db1 p) 0 (sqlite3Put4byte [0; 0; 0; 0] x)). assert (S : same_outside [(0, 4)] (pg db1 p) p4) by (apply same_splice4; lia).
    apply ends_bind, ends_bind, ends_page, ends_bind, ends_set_page, ends_ret, ends_bind, ends_put4, ends_ret. cbn [fst snd]. set (db2 := set_pages db1 _). set (db3 := set_pages db2 _).
    assert (D2 : pg db2 p = p4) by (unfold db2; by rewrite pg_set_eq). assert (O2 : forall y, y <> p -> pg db2 y = pg db1 y) by (intros y Hy; unfold db2; by rewrite pg_set_ne).
    assert (D3 : pg db3 x = x4) by (unfold db3; rewrite pg_set_eq, O2 by done; done). assert (O3 : forall y, y <> x -> pg db3 y = pg db2 y) by (intros y Hy; unfold db3; by rewrite pg_set_ne).
    assert (Ha2 : allocator db2 (<[p := p4]> (<[x := pg db1 x]> used))). { apply (allocator_write db1); try done; [rewrite lookup_insert_ne by done; eauto|rewrite (proj1 S), E1, F1; done|by apply bytes_spliced]. }
    assert (Ha3 : allocator db3 (<[x := x4]> (<[p := p4]> (<[x := pg db1 x]> used)))). { apply (allocator_write db2); try done; [rewrite lookup_insert_ne, lookup_insert_eq by done; eauto|change (bt db2) with (bt db1); by rewrite E1, F1]. }
    exists (<[x := x4]> (<[p := p4]> (<[x := pg db1 x]> used))). apply (link_filling cell db used W (pre ++ [p]) _ db3 _ x Hfill HW); try done; [change (bt db1 = b); congruence| | | | | |].
    + intros y Hy. destruct (decide (y = p)) as [->|Hyp]; [rewrite lookup_insert_ne, lookup_insert_eq by done; eauto|]. rewrite !lookup_insert_ne by (try done; intros ->; done). by apply F6'.
    + rewrite lookup_insert_eq. eauto.
    + intros y Hy Hyx. rewrite !lookup_insert_ne; [done|done| |done]. by intros ->.
    + rewrite map_size_insert_Some by (rewrite lookup_insert_ne, lookup_insert_eq by done; eauto). rewrite map_size_insert_Some by (rewrite lookup_insert_ne by done; eauto). by apply map_size_insert_None.
    + intros y Hy. assert (Hyx : y <> x) by (by intros ->). rewrite O3 by done. destruct (decide (y = p)) as [->|Hyp]; [|by rewrite O2, Hk1 by done]. rewrite D2, <- (Hk1 p) by done. apply (same_slice _ _ _ _ _ S); [lia|lia|lia|]. each. solve_apart.
    + rewrite <- app_assoc. cbn [app]. assert (Hl9 : links (pg db) (get4byte cell (nHeader + local)) (pre ++ [p])) by (by destruct pre). apply (links_snoc (pg db)); [done|done| | |].
      * intros y Hy. assert (Hyp : y <> p). { intros ->. apply NoDup_app in F6 as (_ & F6 & _). apply (F6 p Hy). left. } assert (Hyx : y <> x) by (intros ->; apply Hxp, elem_of_app; by left). rewrite O3, O2, Hk1 by (try done; apply elem_of_app; by left). done.
      * rewrite O3, D2 by done. unfold p4. rewrite get4_splice by lia. done.
      * by rewrite D3.
Qed.

Definition space_of (W pgs : list Z) : Z := local + u * zlen pgs - zlen W.

Lemma pos_of_app (W w pgs : list Z) : pos_of (W ++ w) pgs = pos_of W pgs + zlen w.
Proof. unfold pos_of. rewrite zlen_app. destruct (last pgs); lia. Qed.

Lemma pgs_le (W pgs : list Z) : zlen W <= local + u * zlen pgs -> pgs = [] \/ local + u * (zlen pgs - 1) <= zlen W -> zlen pgs <= zlen W + 1.
Proof.
  intros _ H0. destruct (wf_bt_sizes _ Hb). pose proof (zlen_nonneg pgs). pose proof (zlen_nonneg W). destruct H0 as [->|Hl]; [rewrite zlen_nil; lia|]. destruct (Z.le_gt_cases (zlen pgs) 1); [lia|]. pose proof (Z.mul_le_mono_nonneg_r 1 u (zlen pgs - 1) ltac:(lia) ltac:(lia)). lia.
Qed.

(** The loop stores what is left of the payload, on new pages when the last one is full. *)
Lemma fill_loop_ok fuel : forall cell db used W pgs pSrc nSrc nPayload, filling cell db used W pgs -> nSrc <= zlen pSrc -> nSrc <= nPayload -> 0 < nPayload -> bytes_ok pSrc -> 0 < space_of W pgs ->
  Z.of_nat (size used0) + zlen W + nPayload + 10 < 2 ^ 32 -> nPayload <= Z.of_nat fuel ->
  ends (fill_loop fuel cell (dst_of pgs) (pos_of W pgs) (prior_of pgs) pSrc nSrc nPayload (space_of W pgs) (default 0 (last pgs))) db
    (fun cell' db' => exists used' pgs', filling cell' db' used' (W ++ rest_of pSrc nSrc nPayload) pgs' /\ (pgs' = [] \/ local + u * (zlen pgs' - 1) < zlen W + nPayload)).
Proof.
  induction fuel as [|fuel IH]; intros cell db used W pgs pSrc nSrc nPayload Hf H1 H2 H3 Bs Hsp Hsz Hfu; [lia|]. destruct (wf_bt_sizes _ Hb). pose proof (zlen_nonneg W).
  cbn [fill_loop]. destruct (rest_step pSrc nSrc nPayload (space_of W pgs) H1 H2 H3 Hsp) as (N1 & N2 & N3 & N4 & N5 & N6). cbv zeta.
  set (n := if _ <=? nSrc then _ else _) in *. set (w := if 0 <? nSrc then take (Z.to_nat n) pSrc else _) in *. clearbody n.
  assert (Bw : bytes_ok w) by (unfold w; destruct (0 <? nSrc); [by apply Forall_take|apply bytes_zeroed]).
  eapply ends_use; [apply (store_ok cell db used W pgs w); [done|done|unfold space_of in N2; lia]|]. intros cell1 db1 [used1 Hf1].
  destruct (nPayload - n <=? 0) eqn:E0.
  { apply ends_ret. exists used1, pgs. rewrite N3. assert (E : rest_of (drop (Z.to_nat n) pSrc) (nSrc - n) (nPayload - n) = []).
    { apply length_zero_iff_nil. pose proof (zlen_rest (drop (Z.to_nat n) pSrc) (nSrc - n) (nPayload - n) ltac:(lia) ltac:(lia) ltac:(lia)) as L0. unfold zlen in L0. lia. }
    rewrite E, app_nil_r. split; [done|]. destruct (fi_low _ _ _ _ _ Hf) as [|Hl]; [by left|right]. lia. }
  assert (Hcap1 := fi_cap _ _ _ _ _ Hf1). assert (Hsp1 : space_of (W ++ w) pgs = space_of W pgs - n) by (unfold space_of; rewrite zlen_app; lia). rewrite <- Hsp1. assert (Bs' : bytes_ok (drop (Z.to_nat n) pSrc)) by (by apply Forall_drop).
  destruct (space_of (W ++ w) pgs =? 0) eqn:E1.
  - apply ends_bind, ends_get_db. rewrite (fi_bt _ _ _ _ _ Hf1). assert (Hp : zlen pgs <= zlen W + 1) by (apply pgs_le; [apply Hf|apply Hf]).
    eapply ends_use; [apply (link_ok cell1 db1 used1 (W ++ w) pgs); [done|unfold space_of in E1; lia|lia]|]. intros [cell2 x] db2 [used2 Hf2]. cbn [fst snd] in Hf2.
    assert (Esp : space_of (W ++ w) (pgs ++ [x]) = u) by (unfold space_of in *; rewrite zlen_app; change (zlen [x]) with 1; lia).
    assert (Epos : pos_of (W ++ w) (pgs ++ [x]) = 4) by (unfold pos_of, space_of in *; rewrite last_snoc; rewrite (zlen_app pgs); change (zlen [x]) with 1; lia).
    pose proof (IH cell2 db2 used2 (W ++ w) (pgs ++ [x]) (drop (Z.to_nat n) pSrc) (nSrc - n) (nPayload - n) Hf2 ltac:(lia) ltac:(lia) ltac:(lia) Bs') as G. rewrite Esp, Epos in G. unfold dst_of, prior_of in G. rewrite last_snoc in G. cbn [default] in G. rewrite zlen_app, N6 in G.
    eapply ends_weaken; [apply G; lia|]. intros cell3 db3 (used3 & pgs3 & Hf3 & Hlow). exists used3, pgs3. rewrite N3, app_assoc. split; [done|]. destruct Hlow; [by left|right; lia].
  - pose proof (IH cell1 db1 used1 (W ++ w) pgs (drop (Z.to_nat n) pSrc) (nSrc - n) (nPayload - n) Hf1 ltac:(lia) ltac:(lia) ltac:(lia) Bs' ltac:(lia)) as G. rewrite pos_of_app, N6 in G. rewrite zlen_app, N6 in G.
    eapply ends_weaken; [apply G; lia|]. intros cell3 db3 (used3 & pgs3 & Hf3 & Hlow). exists used3, pgs3. rewrite N3, app_assoc. split; [done|]. destruct Hlow; [by left|right; lia].
Qed.
End filling.

(** Kinds of pages whose cells have a payload that [fillInCell] makes, and sources that are as long as they say. *)
Definition payload_type (t : PageType) : Prop :=
  (intKey t = true /\ xParseCell t = ParseCellPtr /\ childPtrSize t = 0) \/ (intKey t = false /\ xParseCell t = ParseCellPtrIndex /\ 0 <= childPtrSize t <= 4).
Definition payload_ok (t : PageType) (pX : BtreePayload) : Prop :=
  if intKey t then 0 <= nData pX <= zlen (pData pX) /\ 0 <= nZero pX /\ nData pX + nZero pX < 2 ^ 31 /\ bytes_ok (pData pX) /\ is_i64 (pX_nKey pX)
  else 0 <= pX_nKey pX <= zlen (pKey pX) /\ pX_nKey pX < 2 ^ 31 /\ bytes_ok (pKey pX).
Definition payload_of (t : PageType) (pX : BtreePayload) : list Z :=
  if intKey t then rest_of (pData pX) (nData pX) (nData pX + nZero pX) else rest_of (pKey pX) (pX_nKey pX) (pX_nKey pX).
Definition payload_header (t : PageType) (pCell : list Z) (pX : BtreePayload) : list Z :=
  take (Z.to_nat (childPtrSize t)) pCell ++
  (if intKey t then varint_enc (nData pX + nZero pX) ++ varint_enc (u64 (pX_nKey pX)) else varint_enc (pX_nKey pX)).

Lemma put_at_enc p i v : is_u64 v -> 0 <= i -> i + 9 <= zlen p -> put_at p i (fun q => sqlite3PutVarint q v) = (splice p i (varint_enc v), zlen (varint_enc v)).
Proof.
  intros Hv Hi Hl. pose proof (varint_enc_len v Hv). unfold put_at. rewrite putvarint_enc by (try done; unfold zlen in *; rewrite length_drop; lia). f_equal. unfold splice. cbn [Z.to_nat take app]. by rewrite drop_drop.
Qed.
Lemma putVarint32_put p v : 0 <= v < 2 ^ 31 -> putVarint32 p v = sqlite3PutVarint p v.
Proof.
  intros Hv. unfold putVarint32, u32. rewrite Z.mod_small by lia. destruct (v <? 128) eqn:E; [|done]. unfold sqlite3PutVarint. replace (v <=? 127) with true by lia. rewrite land_127, Z.mod_small by lia. done.
Qed.

(** The header is written, and nothing else changes. *)
Lemma header_written pCell c E : 0 <= c -> c + zlen E <= zlen pCell -> bytes_ok pCell -> bytes_ok E ->
  zlen (splice pCell c E) = zlen pCell /\ bytes_ok (splice pCell c E) /\ take (Z.to_nat (c + zlen E)) (splice pCell c E) = take (Z.to_nat c) pCell ++ E /\ zlen (take (Z.to_nat c) pCell ++ E) = c + zlen E.
Proof.
  intros Hc Hl Bp BE. pose proof (zlen_nonneg E). assert (Lt : zlen (take (Z.to_nat c) pCell) = c) by (apply zlen_take; lia). split_and!; [apply zlen_splice; lia|by apply bytes_spliced| |rewrite zlen_app; lia].
  unfold splice. rewrite app_assoc. apply take_app_length'. rewrite length_app. unfold zlen in *. lia.
Qed.

(** All of the payload on the page. *)
Lemma local_written cell nh src k n (cell' := splice (splice cell nh (take (Z.to_nat k) src)) (nh + k) (replicate (Z.to_nat (n - k)) 0)) : 0 <= nh -> 0 <= k <= n -> k <= zlen src -> nh + n <= zlen cell -> bytes_ok cell -> bytes_ok src ->
  zlen cell' = zlen cell /\ bytes_ok cell' /\ take (Z.to_nat nh) cell' = take (Z.to_nat nh) cell /\ slice cell' nh n = rest_of src k n.
Proof.
  intros Hnh Hk Hs Hl Bc Bs. assert (Lk : zlen (take (Z.to_nat k) src) = k) by (apply zlen_take; lia). assert (Lz : zlen (replicate (Z.to_nat (n - k)) 0) = n - k) by (unfold zlen; rewrite length_replicate; lia).
  assert (E : cell' = splice cell nh (rest_of src k n)).
  { subst cell'. pose proof (splice_app cell nh (take (Z.to_nat k) src) (replicate (Z.to_nat (n - k)) 0) Hnh ltac:(lia)) as G. rewrite Lk in G. rewrite G. f_equal. unfold rest_of. destruct (0 <? k) eqn:E; [done|]. assert (k = 0) as -> by lia. by rewrite Z.sub_0_r. }
  assert (Lr : zlen (rest_of src k n) = n) by (apply zlen_rest; lia). rewrite E. split_and!; [apply zlen_splice; lia|apply bytes_spliced; [done|by apply bytes_rest]| |].
  - apply zlist_ext; [rewrite !zlen_take; rewrite ?zlen_splice; lia|]. rewrite zlen_take by (rewrite zlen_splice; lia). intros j Hj. rewrite !zget_taken by lia. apply zget_splice_out; lia.
  - pose proof (slice_splice cell nh (rest_of src k n)) as G. rewrite Lr in G. apply G; lia.
Qed.

(** What [fillInCell] has done. *)
Record made (db : Db) (used : gmap Z (list Z)) (t : PageType) (h P : list Z) (L : Z) (r : list Z * Z) (db' : Db) (used' : gmap Z (list Z)) (pgs : list Z) : Prop := {
  md_size : r.2 = (if zlen P <=? maxLocal t then Z.max 4 (zlen P + zlen h) else zlen h + local_bytes (bt db) t (zlen P) + 4);
  md_fill : filling (bt db) used (local_bytes (bt db) t (zlen P)) (zlen h) h L r.1 db' used' P pgs;
  md_low : pgs = [] \/ local_bytes (bt db) t (zlen P) + (usableSize (bt db) - 4) * (zlen pgs - 1) < zlen P }.

(** The body of [fillInCell], after the header of [nh] bytes. *)
Lemma fill_body_ok db used t h cell src nSrc n : allocator db used -> wf_bt (bt db) -> limits_ok (bt db) t -> 0 <= nSrc <= n -> nSrc <= zlen src -> bytes_ok src -> n < 2 ^ 31 -> bytes_ok cell -> take (Z.to_nat (zlen h)) cell = h -> zlen h <= 22 ->
  usableSize (bt db) <= zlen cell -> Z.of_nat (size used) + n + 10 < 2 ^ 32 ->
  ends (if n <=? maxLocal t then
      let m := zlen h + n in
      let '(cell, m) := if m <? 4 then (cell.[zlen h + n <- 0], 4) else (cell, m) in
      let cell := splice cell (zlen h) (take (Z.to_nat nSrc) src) in
      mret (splice cell (zlen h + nSrc) (replicate (Z.to_nat (n - nSrc)) 0), m)
    else
      let mn := minLocal t in
      let m := mn + (n - mn) mod (usableSize (bt db) - 4) in
      let m := if maxLocal t <? m then mn else m in
      cell ← fill_loop (Z.to_nat n) cell None (zlen h) (None, zlen h + m) src nSrc n m 0;
      mret (cell, m + zlen h + 4)) db
    (fun r db' => exists used' pgs, made db used t h (rest_of src nSrc n) (zlen cell) r db' used' pgs).
Proof.
  intros Ha Hb Hl Hn Hs Bs Hn31 Bc Hh Hh22 Hlen Hsz. destruct (wf_bt_sizes _ Hb). pose proof (zlen_nonneg h). assert (LP : zlen (rest_of src nSrc n) = n) by (apply zlen_rest; lia). destruct (local_bytes_range (bt db) t n Hl ltac:(lia)) as [R1 R2]. destruct Hl as [Hl1 Hl2 Hl3].
  destruct (n <=? maxLocal t) eqn:E.
  - assert (Eloc : local_bytes (bt db) t n = n) by (unfold local_bytes; by rewrite E).
    assert (Hcell0 : forall cell0 m, zlen cell0 = zlen cell -> bytes_ok cell0 -> take (Z.to_nat (zlen h)) cell0 = h -> m = Z.max 4 (n + zlen h) ->
      ends (mret (splice (splice cell0 (zlen h) (take (Z.to_nat nSrc) src)) (zlen h + nSrc) (replicate (Z.to_nat (n - nSrc)) 0), m)) db (fun r db' => exists used' pgs, made db used t h (rest_of src nSrc n) (zlen cell) r db' used' pgs)).
    { intros cell0 m Lc Bc0 Hh0 Em. destruct (local_written cell0 (zlen h) src nSrc n ltac:(lia) Hn Hs ltac:(lia) Bc0 Bs) as (W1 & W2 & W3 & W4). apply ends_ret. exists used, []. split; cbn [fst snd]; rewrite ?LP, ?E, ?Eloc; [done| |by left].
      split; try done; [split_and!; [lia|done|by rewrite W3]|split; [apply NoDup_nil_2|intros x Hx; by apply elem_of_nil in Hx]| |rewrite LP, zlen_nil; lia|by left].
      rewrite W4. change (body (pg db) (usableSize (bt db) - 4) []) with (@nil Z). rewrite app_nil_r. apply slice_whole. }
    cbv zeta. destruct (zlen h + n <? 4) eqn:E4; (apply Hcell0; [| | |lia]); try done; [apply zlen_zput|by apply bytes_zput|].
    etrans; [|exact Hh]. apply zlist_ext; [rewrite !zlen_take; rewrite ?zlen_zput; lia|]. rewrite zlen_take by (rewrite zlen_zput; lia). intros j Hj. rewrite !zget_taken by lia. apply zget_zput_ne. lia.
  - cbv zeta. assert (Eloc : local_bytes (bt db) t n = (if maxLocal t <? minLocal t + (n - minLocal t) mod (usableSize (bt db) - 4) then minLocal t else minLocal t + (n - minLocal t) mod (usableSize (bt db) - 4))).
    { unfold local_bytes. rewrite E. destruct (Z.leb_spec (minLocal t + (n - minLocal t) mod (usableSize (bt db) - 4)) (maxLocal t)); [replace (maxLocal t <? _) with false by lia; done|replace (maxLocal t <? _) with true by lia; done]. }
    rewrite <- Eloc. set (local := local_bytes (bt db) t n) in *. assert (Hlpos : 0 < local) by (rewrite Eloc; pose proof (Z.mod_pos_bound (n - minLocal t) (usableSize (bt db) - 4) ltac:(lia)); destruct (_ <? _); lia).
    pose proof (fill_loop_ok (bt db) used local (zlen h) h (zlen cell) Hb ltac:(lia) ltac:(lia) ltac:(lia) (Z.to_nat n) cell db used [] [] src nSrc n) as G. unfold dst_of, pos_of, prior_of, space_of in G. cbn [last default] in G. change (zlen (@nil Z)) with 0 in G. rewrite ?Z.mul_0_r, ?Z.add_0_r, ?Z.sub_0_r in G.
    eapply ends_use; [apply G; try done; try lia|].
    + split; try done; [split; [apply NoDup_nil_2|intros x Hx; by apply elem_of_nil in Hx]|change (zlen (@nil Z)) with 0; lia|by left].
    + intros cell1 db1 (used1 & pgs1 & Hf & Hlow). apply ends_ret. exists used1, pgs1. split; cbn [fst snd]; rewrite ?LP, ?E; fold local; [lia|exact Hf|]. destruct Hlow; [by left|right; lia].
Qed.

Lemma payload_facts t pX : payload_ok t pX -> 0 <= zlen (payload_of t pX) < 2 ^ 31 /\ bytes_ok (payload_of t pX).
Proof.
  unfold payload_ok, payload_of. destruct (intKey t); [intros (H1 & H2 & H3 & H4 & H5)|intros (H1 & H2 & H3)]; (split; [rewrite zlen_rest by lia; lia|by apply bytes_rest]).
Qed.

(** The header names the key and the length of the payload. *)
Definition payload_key (t : PageType) (pX : BtreePayload) : Z := pX_nKey pX.
Lemma payload_cell_header t pCell pX : payload_type t -> payload_ok t pX -> bytes_ok pCell -> childPtrSize t <= zlen pCell ->
  cell_header t (payload_header t pCell pX) (payload_key t pX) (zlen (payload_of t pX)).
Proof.
  unfold payload_ok, payload_of, payload_header, payload_key. intros [(E & Ep & Ec)|(E & Ep & Hc)]; rewrite E; intros H Bc Hl.
  - left. destruct H as (H1 & H2 & H3 & H4 & H5). split; [done|]. split; [done|]. rewrite zlen_rest by lia. by rewrite Ec.
  - right. destruct H as (H1 & H2 & H3). split; [done|]. rewrite zlen_rest by lia. split; [done|]. split; [done|]. eexists. split; [|split; [|reflexivity]]; [apply zlen_take; lia|by apply Forall_take].
Qed.

Lemma fillInCell_ok db used t pCell pX : allocator db used -> wf_bt (bt db) -> limits_ok (bt db) t -> payload_type t -> payload_ok t pX -> bytes_ok pCell -> usableSize (bt db) <= zlen pCell ->
  Z.of_nat (size used) + zlen (payload_of t pX) + 10 < 2 ^ 32 ->
  ends (fillInCell t pCell pX) db (fun r db' => exists used' pgs, made db used t (payload_header t pCell pX) (payload_of t pX) (zlen pCell) r db' used' pgs).
Proof.
  intros Ha Hb Hl Ht Hp Bc Hlen Hsz. destruct (wf_bt_sizes _ Hb). destruct (payload_facts t pX Hp) as [LP BP]. unfold fillInCell. apply ends_bind, ends_get_db.
  unfold payload_ok, payload_of, payload_header in *. destruct Ht as [(E & Ep & Ec)|(E & Ep & Hc)]; rewrite E in *.
  - destruct Hp as (H1 & H2 & H3 & H4 & H5). rewrite Ec in *. set (n := nData pX + nZero pX) in *. cbn [Z.to_nat take app].
    assert (U1 : is_u64 n) by (unfold is_u64; lia). assert (U2 : is_u64 (u64 (pX_nKey pX))) by (unfold is_u64, u64; apply Z.mod_pos_bound; lia). destruct (varint_enc_len n U1), (varint_enc_len _ U2).
    assert (P1 : put_at pCell 0 (fun p => putVarint32 p n) = (splice pCell 0 (varint_enc n), zlen (varint_enc n))) by (etrans; [|apply put_at_enc; [done|lia|lia]]; unfold put_at; by rewrite putVarint32_put by lia).
    rewrite P1. cbv beta iota zeta. rewrite Z.add_0_l, put_at_enc by (try done; rewrite ?zlen_splice; lia). cbv beta iota zeta.
    pose proof (splice_app pCell 0 (varint_enc n) (varint_enc (u64 (pX_nKey pX))) ltac:(lia) ltac:(lia)) as Es. rewrite Z.add_0_l in Es. rewrite Es.
    set (h := varint_enc n ++ varint_enc (u64 (pX_nKey pX))) in *. assert (Lh : zlen h = zlen (varint_enc n) + zlen (varint_enc (u64 (pX_nKey pX)))) by (unfold h; by rewrite zlen_app). rewrite <- Lh.
    destruct (header_written pCell 0 h ltac:(lia) ltac:(lia) Bc) as (W1 & W2 & W3 & W4); [unfold h; apply Forall_app; split; by apply varint_enc_bytes|]. rewrite Z.add_0_l in W3. cbn [Z.to_nat take app] in W3.
    rewrite <- W1. apply fill_body_ok; try done; try lia. rewrite zlen_rest in Hsz by lia. done.
  - destruct Hp as (H1 & H2 & H3). set (n := pX_nKey pX) in *. set (c := childPtrSize t) in *. assert (U1 : is_u64 n) by (unfold is_u64; lia). destruct (varint_enc_len n U1).
    assert (P1 : put_at pCell c (fun p => putVarint32 p n) = (splice pCell c (varint_enc n), zlen (varint_enc n))) by (etrans; [|apply put_at_enc; [done|lia|lia]]; unfold put_at; by rewrite putVarint32_put by lia).
    rewrite P1. cbv beta iota zeta. destruct (header_written pCell c (varint_enc n) ltac:(lia) ltac:(lia) Bc (varint_enc_bytes n)) as (W1 & W2 & W3 & W4). rewrite <- W4 in W3 |- *.
    rewrite <- W1. apply fill_body_ok; try done; try lia. rewrite zlen_rest in Hsz by lia. done.
Qed.

(** ** A payload from its making to its end *)

Lemma made_size db used t h P L r db' used' pgs : limits_ok (bt db) t -> made db used t h P L r db' used' pgs -> 0 < zlen h <= 22 ->
  zlen h + local_bytes (bt db) t (zlen P) + (if local_bytes (bt db) t (zlen P) <? zlen P then 4 else 0) <= r.2 <= usableSize (bt db).
Proof.
  intros Hl [Hs _ _] Hh. pose proof (zlen_nonneg P). destruct (local_bytes_range (bt db) t (zlen P) Hl ltac:(lia)) as [R1 R2]. destruct Hl as [Hl1 Hl2 Hl3]. rewrite Hs. destruct (zlen P <=? maxLocal t) eqn:E; destruct (local_bytes (bt db) t (zlen P) <? zlen P) eqn:E2; try lia.
  unfold local_bytes in E2. rewrite E in E2. lia.
Qed.

Lemma slice_splice_part (d s : list Z) o i n : 0 <= o -> 0 <= i -> 0 <= n -> i + n <= zlen s -> o + zlen s <= zlen d -> slice (splice d o s) (o + i) n = slice s i n.
Proof.
  intros. apply zlist_ext; [rewrite !zlen_slice; rewrite ?zlen_splice; lia|]. rewrite zlen_slice by (rewrite ?zlen_splice; lia). intros j Hj. rewrite !zget_slice by lia. rewrite zget_splice_in by lia. f_equal. lia.
Qed.
Lemma slice_take (s : list Z) n i k : 0 <= i -> 0 <= k -> i + k <= n -> n <= zlen s -> slice (take (Z.to_nat n) s) i k = slice s i k.
Proof.
  intros. apply zlist_ext; [rewrite !zlen_slice; rewrite ?zlen_take; lia|]. rewrite zlen_slice by (rewrite ?zlen_take; lia). intros j Hj. rewrite !zget_slice by lia. apply zget_taken; lia.
Qed.

(** The cell that was made is put on a page of the client. *)
Lemma placed db used t h key P L cell n db1 used1 pgs q off (d := pg db1 q) (d2 := splice d off (take (Z.to_nat n) cell)) (db2 := set_pages db1 (<[q := d2]> (pages db1))) :
  wf_bt (bt db) -> limits_ok (bt db) t -> made db used t h P L (cell, n) db1 used1 pgs -> cell_header t h key (zlen P) -> 0 < zlen h <= 22 -> zlen P < 2 ^ 31 -> is_Some (used !! q) -> usableSize (bt db) <= L -> 0 <= off -> off + n <= usableSize (bt db) ->
  holds db2 t q off h key P pgs /\ allocator db2 (<[q := d2]> used1) /\ same_outside [(off, n)] d d2 /\ bt db2 = bt db /\ q ∉ pgs /\
  zlen pgs = (if local_bytes (bt db) t (zlen P) <? zlen P then zlen pgs else 0) /\ (forall x, x <> q -> pg db2 x = pg db1 x).
Proof.
  intros Hb Hl Hm Hh H22 HP Hq HL H0 Hfit. pose proof (made_size _ _ _ _ _ _ _ _ _ _ Hl Hm H22) as Hs. cbn [snd] in Hs. destruct Hm as [Hsz [F1 F2 (F3 & F4 & F5) (F6 & F6') F7 F8 F9 F10 F11 F12] Hlow]. cbn [fst snd] in *.
  pose proof (zlen_nonneg P). destruct (local_bytes_range (bt db) t (zlen P) Hl ltac:(lia)) as [R1 R2]. set (local := local_bytes (bt db) t (zlen P)) in *. destruct (wf_bt_sizes _ Hb).
  assert (Hn : zlen h + local <= n /\ n <= usableSize (bt db) /\ (local < zlen P -> zlen h + local + 4 <= n)) by (destruct (local <? zlen P) eqn:E; lia). clear Hs.
  assert (Hqp : q ∉ pgs) by (intros Hin; destruct (F6' q Hin) as [E _]; destruct Hq; congruence). assert (Hq1 : is_Some (used1 !! q)) by (by rewrite F7).
  assert (Hpo : pages_ok (bt db) (pg db1)). { destruct F2 as [(ts & Hv & _) _ _ _]. rewrite <- F1. exact (fv_pages _ _ _ _ _ Hv). } destruct (Hpo q) as [Lq Bq]. fold d in Lq, Bq.
  assert (Lc : zlen (take (Z.to_nat n) cell) = n) by (apply zlen_take; lia). assert (Bd2 : bytes_ok d2) by (apply bytes_spliced; [done|by apply Forall_take]).
  assert (S : same_outside [(off, n)] d d2). { pose proof (same_splice d off (take (Z.to_nat n) cell)) as G. rewrite Lc in G. apply G; lia. } assert (L2 := proj1 S).
  assert (Dq : pg db2 q = d2) by (unfold db2; by rewrite pg_set_eq). assert (Do : forall x, x <> q -> pg db2 x = pg db1 x) by (intros x Hx; unfold db2; by rewrite pg_set_ne).
  assert (Ein : forall i k, 0 <= i -> 0 <= k -> i + k <= n -> slice d2 (off + i) k = slice cell i k) by (intros i k Hi Hk Hik; unfold d2; rewrite slice_splice_part by lia; apply slice_take; lia).
  assert (Ha2 : allocator db2 (<[q := d2]> used1)) by (apply (allocator_write db1); try done; rewrite F1; lia).
  assert (Hf : forall x, x ∈ pgs -> pg db2 x = pg db1 x) by (intros x Hx; apply Do; by intros ->).
  assert (LA : zlen (slice cell (zlen h) local) = local) by (apply zlen_slice; lia). set (B := body (pg db1) (usableSize (bt db) - 4) pgs) in *.
  assert (LB : zlen B = (usableSize (bt db) - 4) * zlen pgs) by (apply (zlen_body (bt db)); [done|lia|lia]).
  assert (Epgs : zlen pgs = (if local <? zlen P then zlen pgs else 0)). { destruct (local <? zlen P) eqn:E; [done|]. destruct Hlow as [->|Hlow]; [done|]. pose proof (zlen_nonneg pgs). nia. }
  destruct (two_parts (slice cell (zlen h) local) B P (drop (Z.to_nat (zlen P)) (slice cell (zlen h) local ++ B))) as [V1 V2]; [rewrite <- F10 at 1; unfold slice at 2; cbn [Z.to_nat drop]; by rewrite take_drop|lia|]. rewrite LA in V1, V2.
  split; [|done]. split; change (bt db2) with (bt db1); rewrite ?F1; fold local.
  - intros x. destruct (decide (x = q)) as [->|Hx]; [rewrite Dq; split; [lia|done]|rewrite Do by done; apply Hpo].
  - done.
  - rewrite Dq. replace off with (off + 0) by lia. rewrite Ein by lia. rewrite <- F5 at 2. unfold slice. done.
  - split; [lia|]. destruct (local <? zlen P) eqn:E; lia.
  - rewrite Dq, Ein by lia. done.
  - destruct (local <? zlen P) eqn:E; [|destruct pgs as [|p pgs]; [done|rewrite zlen_cons in Epgs; pose proof (zlen_nonneg pgs); lia]].
    assert (Hne : pgs <> []) by (intros ->; change (zlen (@nil Z)) with 0 in *; lia). destruct Hlow as [?|Hlow]; [done|]. split.
    + split; [|split; [done|split; [|split; [|lia]]]].
      * change (bt db2) with (bt db1). rewrite F1. intros x. destruct (decide (x = q)) as [->|Hx]; [rewrite Dq; split; [lia|done]|rewrite Do by done; apply Hpo].
      * apply Forall_forall. intros x Hx. destruct (F6' x Hx) as [_ [e He]]. destruct (al_used _ _ F2 x e He) as [(U1 & U2 & U3) _]. split; [exact U1|exact U3].
      * rewrite Dq. unfold get4byte. rewrite <- Z.add_assoc, Ein by lia. eapply links_frame; [intros x Hx; by rewrite (Hf x Hx)|]. destruct pgs; [done|]. exact F9.
    + rewrite (body_frame _ _ _ _ Hf). exact V2.
  - done.
Qed.

(** An access: whether it writes, where, how many bytes, and the buffer. *)
Record access := mkAccess { ac_write : bool; ac_offset : Z; ac_amt : Z; ac_buf : list Z }.
Definition access_valid (n : Z) (a : access) : Prop :=
  0 <= ac_offset a /\ 0 <= ac_amt a /\ ac_offset a + ac_amt a <= n /\ ac_amt a <= zlen (ac_buf a) /\ bytes_ok (ac_buf a).

(** Accesses through one cursor, with the buffers they leave. *)
Fixpoint accesses (c : BtCursor) (l : list access) : btm (BtCursor * list (list Z)) :=
  match l with
  | [] => mret (c, [])
  | a :: l =>
      '(c, buf) ← accessPayload c (ac_offset a) (ac_amt a) (ac_buf a) (ac_write a);
      '(c, out) ← accesses c l;
      mret (c, buf :: out)
  end.
(** The same accesses to a string of bytes. *)
Fixpoint string_accesses (P : list Z) (l : list access) : list Z * list (list Z) :=
  match l with
  | [] => (P, [])
  | a :: l =>
      let '(P', out) := string_accesses (str_after (ac_write a) P (ac_offset a) (ac_buf a) 0 (ac_amt a)) l in
      (P', buf_after (ac_write a) P (ac_offset a) (ac_buf a) 0 (ac_amt a) :: out)
  end.

(** What accesses leave of the file. *)
Record accessed (db : Db) (t : PageType) (q off : Z) (h : list Z) (key : Z) (P pgs : list Z) (c' : BtCursor) (P' : list Z) (db' : Db) : Prop := {
  as_len : zlen P' = zlen P;
  as_holds : holds db' t q off h key P' pgs;
  as_cell : on_cell c' db' t q off h key P' pgs;
  as_file : same_file db db';
  as_page : same_outside [(off + zlen h, local_bytes (bt db) t (zlen P))] (pg db q) (pg db' q);
  as_else : forall x, x <> q -> x ∉ pgs -> pg db' x = pg db x }.

Lemma accesses_ok l : forall c db t q off h key P pgs, wf_bt (bt db) -> autoVacuum (bt db) = false -> limits_ok (bt db) t -> zlen P < 2 ^ 31 -> bytes_ok P ->
  holds db t q off h key P pgs -> on_cell c db t q off h key P pgs -> Forall (access_valid (zlen P)) l ->
  ends (accesses c l) db (fun r db' => r.2 = (string_accesses P l).2 /\ accessed db t q off h key P pgs r.1 (string_accesses P l).1 db').
Proof.
  induction l as [|a l IH]; intros c db t q off h key P pgs Hb Hav Hl HP BP Hh Hc Hv; cbn [accesses string_accesses].
  - apply ends_ret. split; [done|]. split; done.
  - apply Forall_cons in Hv as [(V1 & V2 & V3 & V4 & V5) Hv]. eapply ends_use; [by apply (accessPayload_ok (ac_write a) c db t q off h key P pgs)|].
    intros [c1 buf1] db1 [A1 A2 A3 A4 A5 A6 A7]. cbn [fst snd] in *. set (P1 := str_after _ _ _ _ _ _) in *. assert (L1 : zlen P1 = zlen P) by (apply zlen_str_after; lia).
    assert (B1 : bytes_ok P1) by (unfold P1, str_after; destruct (ac_write a); [apply bytes_spliced; [done|by apply bytes_slice]|done]). destruct A4 as (E1 & E2 & E3).
    eapply ends_use; [apply (IH c1 db1 t q off h key P1 pgs); rewrite ?E1, ?L1; done|]. intros [c2 out] db2 [W1 W2]. cbn [fst snd] in W1, W2. apply ends_ret.
    destruct (string_accesses P1 l) as [P2 out2]. cbn [fst snd] in *. split; [by rewrite A1, W1|]. destruct W2 as [Z1 Z2 Z3 (Z4 & Z5 & Z6) Z7 Z8]. split; try done.
    + congruence.
    + split; [congruence|split; congruence].
    + rewrite E1, L1 in Z7. eapply same_weaken; [eapply same_trans; [exact A5|exact Z7]|]. intros j Hj. apply Forall_app. done.
    + intros x Hx Hp. rewrite Z8, A6 by done. done.
Qed.

(** The client's pages after a change of some of them. *)
Definition refresh (db : Db) (used : gmap Z (list Z)) : gmap Z (list Z) := map_imap (fun i _ => Some (pg db i)) used.
Lemma refresh_lookup db used i : refresh db used !! i = match used !! i with Some _ => Some (pg db i) | None => None end.
Proof. unfold refresh. rewrite map_lookup_imap. by destruct (used !! i). Qed.
Lemma allocator_refresh db db' used : allocator db used -> same_file db db' -> pages_ok (bt db) (pg db') -> (forall i, used !! i = None -> pg db' i = pg db i) -> allocator db' (refresh db' used).
Proof.
  intros [(ts & Hv & Hall & Hdisj) Hused Hpins Hav] (E1 & E2 & E3) Hp Ho. assert (Hr : forall i, is_Some (refresh db' used !! i) <-> is_Some (used !! i)).
  { intros i. rewrite refresh_lookup. destruct (used !! i); split; intros [? ?]; eauto; done. }
  assert (Hn : forall i, ~ is_Some (used !! i) -> used !! i = None) by (intros i H; destruct (used !! i) eqn:E; [exfalso; eauto|done]). split; [| |by rewrite E3|by rewrite E1].
  - exists ts. split; [|rewrite E1, E2; split].
    + unfold free_rep. rewrite E1, E2, E3. eapply view_frame; [exact Hv|done| |].
      * apply Ho, Hn. intros [e He]. destruct (Hused _ _ He) as [[? _] _]. lia.
      * intros t Ht. apply Ho, Hn. intros H. by destruct (Hdisj _ H).
    + intros i Hi Hip. destruct (Hall i Hi Hip); [by left|right; by apply Hr].
    + intros i H. by apply Hdisj, Hr.
  - intros i d Hd. rewrite refresh_lookup in Hd. destruct (used !! i) as [e|] eqn:E; [|done]. injection Hd as <-. rewrite E1, E2, E3. split; [|done]. by apply (Hused _ _ E).
Qed.

Lemma without_lookup used pgs i : without_pages used pgs !! i = (if bool_decide (i ∈ pgs) then None else used !! i).
Proof.
  revert used. induction pgs as [|p pgs IH]; intros used; [done|]. cbn [without_pages foldl]. fold (without_pages (delete p used) pgs). rewrite IH. destruct (decide (i = p)) as [->|Hne].
  - rewrite lookup_delete_eq, (bool_decide_eq_true_2 (p ∈ p :: pgs)) by left. by destruct (bool_decide _).
  - rewrite lookup_delete_ne by done. by rewrite (bool_decide_ext (i ∈ p :: pgs) (i ∈ pgs)) by (rewrite elem_of_cons; naive_solver).
Qed.

(** A cell is made, put on a page, read and overwritten in place, and cleared. *)
Definition cell_life (t : PageType) (pCell : list Z) (pX : BtreePayload) (c : BtCursor) (off : Z) (l : list access) : btm (CellInfo * list (list Z)) :=
  '(cell, n) ← fillInCell t pCell pX;
  d ← page (pgno (curPage c));
  set_page (pgno (curPage c)) (splice d off (take (Z.to_nat n) cell));;
  '(c, out) ← accesses c l;
  i ← BTREE_CLEAR_CELL (curPage c) off;
  mret (i, out).

(** The cursor is on a cell of which it knows nothing yet, at [off]. *)
Definition new_on (c : BtCursor) (db : Db) (t : PageType) (off : Z) : Prop :=
  let p := curPage c in
  ptype p = t /\ pBt p = bt db /\ ix c < nCell p /\ info c = None /\ truthy (Z.land (curFlags c) BTCF_ValidOvfl) = false /\
  cellOffsetOf (set_aData p (pg db (pgno p))) (ix c) = off /\ 0 <= cellOffset p + 2 * ix c /\ cellOffset p + 2 * ix c + 2 <= off.

Lemma on_new_cell c db db2 t off h key P pgs n : new_on c db t off -> bt db2 = bt db -> same_outside [(off, n)] (pg db (pgno (curPage c))) (pg db2 (pgno (curPage c))) ->
  on_cell c db2 t (pgno (curPage c)) off h key P pgs.
Proof.
  intros (H1 & H2 & H3 & H4 & H5 & H6 & H7 & H8) Eb Hs. split; [by rewrite Eb|right; split; [done|]|intros Hv; congruence]. etrans; [|exact H6]. unfold cellOffsetOf. cbn [maskPage aData set_aData cellOffset].
  f_equal. apply (same_get2 _ _ _ _ Hs). each. solve_apart.
Qed.

(** Everything is given back. *)
Lemma back_again db db3 (used used1 : gmap Z (list Z)) d2 q pgs : allocator db used -> is_Some (used !! q) -> q ∉ pgs -> (forall x, x ∈ pgs -> used !! x = None /\ is_Some (used1 !! x)) -> (forall x, x ∉ pgs -> used1 !! x = used !! x) ->
  (forall x, is_Some (used !! x) -> x <> q -> pg db3 x = pg db x) -> without_pages (refresh db3 (<[q := d2]> used1)) pgs = <[q := pg db3 q]> used.
Proof.
  intros Ha Hq Hqp Hin Hout Hpg. apply map_eq. intros i. rewrite without_lookup, refresh_lookup. destruct (decide (i = q)) as [->|Hi]; [rewrite bool_decide_eq_false_2, !lookup_insert_eq by done; done|]. rewrite !lookup_insert_ne by done.
  destruct (decide (i ∈ pgs)) as [Hp|Hp]; [rewrite bool_decide_eq_true_2 by done; by destruct (Hin i Hp) as [-> _]|]. rewrite bool_decide_eq_false_2, Hout by done. destruct (used !! i) as [e|] eqn:E; [|done]. rewrite Hpg by (eauto || done). by destruct (al_used _ _ Ha i e E) as [_ ->].
Qed.

Lemma cell_life_ok db used t pCell pX c off l (q := pgno (curPage c)) (P := payload_of t pX) (i := info_of (bt db) t (payload_header t pCell pX) (payload_key t pX) (zlen P)) :
  allocator db used -> limits_ok (bt db) t -> payload_type t -> payload_ok t pX -> bytes_ok pCell -> usableSize (bt db) <= zlen pCell ->
  Z.of_nat (size used) + zlen P + 10 < 2 ^ 32 -> new_on c db t off -> is_Some (used !! q) -> 0 <= off -> off + nSize i <= usableSize (bt db) -> Forall (access_valid (zlen P)) l ->
  ends (cell_life t pCell pX c off l) db (fun r db' => r = (i, (string_accesses P l).2) /\ exists d, allocator db' (<[q := d]> used) /\ same_outside [(off, nSize i)] (pg db q) d).
Proof.
  intros Ha Hl Ht Hp Bc Lc Hsz Hn Hq H0 Hfit Hv. assert (Hb : wf_bt (bt db)) by (destruct Ha as [(ts & Hf & _) _ _ _]; exact (fv_bt _ _ _ _ _ Hf)). assert (Hav := al_vacuum _ _ Ha). destruct (wf_bt_sizes _ Hb). destruct (payload_facts t pX Hp) as [LP BP]. fold P in LP, BP.
  set (h := payload_header t pCell pX) in *. set (key := payload_key t pX) in *. assert (Hh : cell_header t h key (zlen P)) by (apply payload_cell_header; try done; destruct Ht as [(_ & _ & ->)|(_ & _ & ?)]; lia).
  destruct (header_parse (bt db) t h key (zlen P) [] Hl Hh LP ltac:(constructor)) as [_ H22]. unfold cell_life. eapply ends_use; [by apply (fillInCell_ok db used)|]. intros [cell n] db1 (used1 & pgs & Hm). fold h P in Hm.
  assert (En : nSize i = n) by (destruct Hm as [Es _ _]; cbn [snd] in Es; by rewrite Es). rewrite En in *. apply ends_bind, ends_page, ends_bind, ends_set_page. fold q.
  destruct (placed db used t h key (P) (zlen pCell) cell n db1 used1 pgs q off Hb Hl Hm Hh H22 ltac:(lia) Hq Lc H0 Hfit) as (Hh2 & Ha2 & S2 & Eb2 & Hqp & _ & Do). set (d2 := splice (pg db1 q) off (take (Z.to_nat n) cell)) in *. set (db2 := set_pages db1 _) in *.
  pose proof (made_size _ _ _ _ _ _ _ _ _ _ Hl Hm H22) as Hms. cbn [snd] in Hms. destruct Hm as [_ [F1 F2 _ (_ & F6') F7 _ _ _ _ _] _]. assert (Eq1 : pg db1 q = pg db q) by (eapply kept_pages; [exact Ha|exact F2|done|by apply F7]). assert (Dq : pg db2 q = d2) by (unfold db2; by rewrite pg_set_eq). rewrite Eq1, <- Dq in S2.
  eapply ends_use; [apply (accesses_ok l c db2 t q off h key P pgs); rewrite ?Eb2; try done; [lia|by eapply on_new_cell]|]. intros [c3 out] db3 [W1 [W2 W3 W4 (W5 & W6 & W7) W8 W9]]. cbn [fst snd] in *. destruct (string_accesses P l) as [P3 out3]. cbn [fst snd] in *. subst out3. rewrite Eb2 in *.
  set (used2 := <[q := d2]> used1) in *. assert (Hold : forall x, used2 !! x = None -> x <> q /\ x ∉ pgs).
  { intros x Hx. unfold used2 in Hx. apply lookup_insert_None in Hx as [Hx ?]. split; [done|]. intros Hin. destruct (F6' x Hin) as [_ [e He]]. congruence. }
  assert (Ha3 : allocator db3 (refresh db3 used2)) by (apply (allocator_refresh db2); [done|by rewrite <- Eb2 in W5|rewrite Eb2, <- W5; apply W3|intros x [? ?]%Hold; by apply W9]).
  destruct (oc_page _ _ _ _ _ _ _ _ _ W4) as (Q1 & Q2 & Q3 & _). apply (ends_use _ _ _ (fun r db4 => r = cell_info db3 t h key P3 /\ bt db4 = bt db3 /\ allocator db4 (without_pages (refresh db3 used2) pgs))).
  - apply clear_cell_ok; rewrite ?W5, ?Q1; try done; [by rewrite W2; lia|by rewrite Q3|]. intros x Hx. rewrite refresh_lookup. destruct (F6' x Hx) as [_ [e He]]. unfold used2. rewrite lookup_insert_ne by (by intros ->). rewrite He. eauto.
  - intros r db4 (-> & _ & Ha4). apply ends_ret. split; [unfold cell_info, i; by rewrite W5, W2|]. exists (pg db3 q). split.
    + unfold used2 in Ha4. rewrite (back_again db db3 used used1 d2 q pgs) in Ha4; try done. intros x Hx Hxq. assert (Hxp : x ∉ pgs) by (intros Hin; destruct (F6' x Hin) as [E _]; destruct Hx; congruence). rewrite W9, Do by done. eapply kept_pages; [exact Ha|exact F2|done|by apply F7].
    + eapply same_weaken; [eapply same_trans; [exact S2|exact W8]|]. intros j Hj. apply Forall_app. split; [done|]. apply Forall_singleton. rewrite Forall_singleton in Hj. cbn [fst snd] in *. destruct (local_bytes (bt db) t (zlen P) <? zlen P); lia.
Qed.

(** C16. In a file without auto-vacuum, what [fillInCell] makes of any payload, of a table or an
    index, [accessPayload] reads and overwrites as one string of bytes, in any order and at any place, across the part on the
    page and any number of overflow pages, whatever the cache of the cursor has learned, and
    whether or not pages are read past the cache of pages; and [BTREE_CLEAR_CELL] finds the
    cell's key, length and size again and gives all its overflow pages back: the client of the
    file then holds the pages it held before, with the content they had, and on the page of
    the cell only the bytes of the cell are different.  The file is never found corrupt; an
    error is one that the pager or an allocation reported. *)
Theorem payload_is_string (db : Db) (used : gmap Z (list Z)) (t : PageType) (pCell : list Z) (pX : BtreePayload) (c : BtCursor) (off : Z) (l : list access) :
  let q := pgno (curPage c) in let P := payload_of t pX in
  let i := info_of (bt db) t (payload_header t pCell pX) (payload_key t pX) (zlen P) in
  allocator db used -> limits_ok (bt db) t -> payload_type t -> payload_ok t pX -> bytes_ok pCell -> usableSize (bt db) <= zlen pCell ->
  Z.of_nat (size used) + zlen P + 10 < 2 ^ 32 -> new_on c db t off -> is_Some (used !! q) -> 0 <= off -> off + nSize i <= usableSize (bt db) -> Forall (access_valid (zlen P)) l ->
  match cell_life t pCell pX c off l db with
  | (inr (info, out), db') =>
      info = i /\ out = (string_accesses P l).2 /\ exists d, allocator db' (<[q := d]> used) /\ same_outside [(off, nSize i)] (pg db q) d
  | (inl rc, _) => rc ∈ answers db /\ rc <> SQLITE_OK
  end.
Proof.
  intros q P i Ha Hl Ht Hp Bc Lc Hsz Hn Hq H0 Hfit Hv. pose proof (cell_life_ok db used t pCell pX c off l Ha Hl Ht Hp Bc Lc Hsz Hn Hq H0 Hfit Hv) as H. unfold ends in H.
  destruct (cell_life t pCell pX c off l db) as [[rc|[info out]] db']; [done|]. destruct H as [[[= -> ->] H] _]. done.
Qed.

(** A file of two pages; page 2 is a table leaf with one cell pointer. *)
Definition leaf_type : PageType := snd (decodeFlags new_bt no_type 13).
Definition leaf_page : list Z := (replicate 512 0).[8 <- 1].[9 <- 44].
Definition leaf_file : Db := mkDb new_bt 2 false {[ 2 := leaf_page ]} None ∅ ∅ {[1]} [].
Definition leaf_cursor : BtCursor := mkCur (mkPage true 2 0 leaf_type [] [] 8 0 1 511 new_bt leaf_page) 0 None 0 None.
Definition leaf_payload : BtreePayload := mkPayload [] 42 (replicate 900 7) 900 300.
Definition leaf_accesses : list access :=
  [mkAccess false 150 100 (replicate 100 0); mkAccess true 160 700 (replicate 700 9); mkAccess false 0 1200 (replicate 1200 0)].

Lemma leaf_file_allocator : allocator leaf_file {[ 2 := leaf_page ]}.
Proof.
  assert (Hp : forall i, zlen (pg leaf_file i) = 512 /\ bytes_ok (pg leaf_file i)).
  { intros i. unfold pg. cbn [pages leaf_file]. destruct (decide (i = 2)) as [->|Hi]; [rewrite lookup_singleton_eq; split; [reflexivity|by_compute]|]. rewrite lookup_singleton_ne by done. split; [reflexivity|]. apply Forall_replicate. unfold is_u8. lia. }
  split.
  - exists []. split; [|split; [|intros i _; apply not_elem_of_nil]].
    + split; [exact new_bt_wf|exact Hp|by vm_compute|by_compute|constructor|constructor|constructor|cbn; lia].
    + intros i Hi _. cbn in Hi. right. replace i with 2 by lia. rewrite lookup_singleton_eq. eauto.
  - intros i d [<- <-]%lookup_singleton_Some. split; [|by_compute]. split; [cbn; lia|]. split; [cbn; set_solver by lia|]. by vm_compute.
  - intros i Hi. cbn in Hi. set_solver.
  - reflexivity.
Qed.

Lemma payload_is_string_witness : exists i out db' d, cell_life leaf_type (replicate 512 0) leaf_payload leaf_cursor 300 leaf_accesses leaf_file = (inr (i, out), db') /\
  nSize i = 191 /\ nLocal i = 184 /\ out = [replicate 100 7; replicate 700 9; replicate 160 7 ++ replicate 700 9 ++ replicate 40 7 ++ replicate 300 0] /\ allocator db' {[ 2 := d ]}.
Proof.
  assert (Hl : limits_ok new_bt leaf_type) by (eapply (lockBtree_limits_ok _ _ _ _ no_type 13); [lia|reflexivity]).
  assert (Hn : new_on leaf_cursor leaf_file leaf_type 300) by (split_and!; try reflexivity; by vm_compute).
  assert (Hp : payload_ok leaf_type leaf_payload) by (unfold payload_ok; change (intKey leaf_type) with true; cbv iota; split_and!; first [by vm_compute|apply Forall_replicate; unfold is_u8; lia]).
  assert (Hv : Forall (access_valid (zlen (payload_of leaf_type leaf_payload))) leaf_accesses).
  { change (zlen (payload_of leaf_type leaf_payload)) with 1200. unfold leaf_accesses. repeat (apply Forall_cons_2; [unfold access_valid; split_and!; first [by vm_compute|apply Forall_replicate; unfold is_u8; lia]|]). constructor. }
  pose proof (payload_is_string leaf_file {[ 2 := leaf_page ]} leaf_type (replicate 512 0) leaf_payload leaf_cursor 300 leaf_accesses leaf_file_allocator Hl ltac:(left; done) Hp ltac:(apply Forall_replicate; unfold is_u8; lia) ltac:(by vm_compute) ltac:(by vm_compute) Hn ltac:(eauto) ltac:(lia) ltac:(by vm_compute) Hv) as H.
  destruct (cell_life leaf_type (replicate 512 0) leaf_payload leaf_cursor 300 leaf_accesses leaf_file) as [[rc|[i out]] db'].
  - exfalso. destruct H as [H _]. by apply not_elem_of_nil in H.
  - destruct H as (-> & -> & d & Hd & _). do 2 eexists. exists db', d. split; [reflexivity|]. split; [by_compute|]. split; [by_compute|]. split; [by_compute|]. by rewrite insert_singleton_eq in Hd.
Defined.
