(* ===== verification/BtreeCursor.v ===== *)
(** Cursors on b-trees (btree.c section of sqlite3.c): moving up and down the tree, to the first
    and the last entry, to the next and the previous one and, in a table, to a rowid; saving
    the position of a cursor when its tree is about to change, and finding it again.

    A page in memory is what [btreeInitPage] makes of its bytes; pages do not change while a
    cursor holds them.  An error ends a computation: the cursor after one is not modelled.
    This file holds the definitions; BtreeTree and BtreeTable prove them right. *)

From S2P Require Import Prelude Bits Varint Numeric Regions BtreeCell BtreePage BtreeSpace BtreeFile BtreeFree BtreeAlloc BtreePayload.

Definition SQLITE_EMPTY : Z := 16.
Definition SQLITE_CONSTRAINT_PINNED : Z := Z.lor 19 (11 * 2 ^ 8).
Definition BTCF_WriteFlag : Z := 0x01.
Definition BTCF_AtLast : Z := 0x08.
Definition BTCF_Multiple : Z := 0x20.
Definition BTCF_Pinned : Z := 0x40.
Definition BTCURSOR_MAX_DEPTH : Z := 20.

Inductive cursor_state := CURSOR_VALID | CURSOR_INVALID | CURSOR_SKIPNEXT | CURSOR_REQUIRESEEK | CURSOR_FAULT.
#[global] Instance cursor_state_eq : EqDecision cursor_state.
Proof. solve_decision. Defined.

(** The fields of a cursor that [BtCursor] leaves out.  [held] is [iPage>=0], and [parents] are
    [apPage] and [aiIdx] below [iPage], the parent of the page first.  [info_nKey] is
    [info.nKey] where [info.nSize] is 0. *)
Record Cursor := mkCursor {
  eState : cursor_state; skipNext : Z; pKey : option (list Z); savedKey : Z; pgnoRoot : Z; held : bool; curIntKey : bool;
  hasKeyInfo : bool; parents : list (MemPage * Z); info_nKey : Z; cur : BtCursor }.

Definition set_state (c : Cursor) (s : cursor_state) : Cursor :=
  mkCursor s (skipNext c) (pKey c) (savedKey c) (pgnoRoot c) (held c) (curIntKey c) (hasKeyInfo c) (parents c) (info_nKey c) (cur c).
Definition set_skip (c : Cursor) (v : Z) : Cursor :=
  mkCursor (eState c) v (pKey c) (savedKey c) (pgnoRoot c) (held c) (curIntKey c) (hasKeyInfo c) (parents c) (info_nKey c) (cur c).
Definition set_saved (c : Cursor) (k : option (list Z)) (n : Z) : Cursor :=
  mkCursor (eState c) (skipNext c) k n (pgnoRoot c) (held c) (curIntKey c) (hasKeyInfo c) (parents c) (info_nKey c) (cur c).
Definition set_cur (c : Cursor) (b : BtCursor) : Cursor :=
  mkCursor (eState c) (skipNext c) (pKey c) (savedKey c) (pgnoRoot c) (held c) (curIntKey c) (hasKeyInfo c) (parents c) (info_nKey c) b.
Definition set_nKey (c : Cursor) (k : Z) : Cursor :=
  mkCursor (eState c) (skipNext c) (pKey c) (savedKey c) (pgnoRoot c) (held c) (curIntKey c) (hasKeyInfo c) (parents c) k (cur c).
(** The pages of the cursor: the stack and the page on top of it, with the index there. *)
Definition at_page (c : Cursor) (h : bool) (l : list (MemPage * Z)) (p : MemPage) (i : Z) : Cursor :=
  mkCursor (eState c) (skipNext c) (pKey c) (savedKey c) (pgnoRoot c) h (curIntKey c) (hasKeyInfo c) l (info_nKey c)
    (mkCur p i (info (cur c)) (curFlags (cur c)) (aOverflow (cur c))).
Definition set_intKey (c : Cursor) (b : bool) : Cursor :=
  mkCursor (eState c) (skipNext c) (pKey c) (savedKey c) (pgnoRoot c) (held c) b (hasKeyInfo c) (parents c) (info_nKey c) (cur c).

Definition pPage (c : Cursor) : MemPage := curPage (cur c).
Definition cix (c : Cursor) : Z := ix (cur c).
Definition iPage (c : Cursor) : Z := if held c then zlen (parents c) else -1.
Definition flags (c : Cursor) : Z := curFlags (cur c).
Definition set_ix (c : Cursor) (i : Z) : Cursor := at_page c (held c) (parents c) (pPage c) i.
Definition clear_flags (c : Cursor) (m : Z) : Cursor :=
  set_cur c (mkCur (curPage (cur c)) (ix (cur c)) (info (cur c)) (Z.ldiff (curFlags (cur c)) m) (aOverflow (cur c))).
Definition add_flags (c : Cursor) (m : Z) : Cursor :=
  set_cur c (mkCur (curPage (cur c)) (ix (cur c)) (info (cur c)) (Z.lor (curFlags (cur c)) m) (aOverflow (cur c))).
Definition cursor_nKey (c : Cursor) : Z := match info (cur c) with Some i => nKey i.2 | None => info_nKey c end.
(** [pCur->info.nSize = 0] *)
Definition forget_info (c : Cursor) : Cursor :=
  let c := set_nKey c (cursor_nKey c) in
  set_cur c (mkCur (curPage (cur c)) (ix (cur c)) None (curFlags (cur c)) (aOverflow (cur c))).
Definition is_leaf (p : MemPage) : bool := leaf (ptype p).
(** The right child of an interior page. *)
Definition right_child (p : MemPage) : Z := get4byte (aData p) (hdrOffset p + 8).
Definition left_child (p : MemPage) (i : Z) : Z := get4byte (findCell p i) 0.

(** ** Opening *)

Definition sqlite3BtreeCursorZero (c : Cursor) : Cursor :=
  mkCursor CURSOR_VALID 0 None (savedKey c) (pgnoRoot c) (held c) (curIntKey c) (hasKeyInfo c) (parents c) (info_nKey c)
    (mkCur (curPage (cur c)) (ix (cur c)) (info (cur c)) 0 None).

(** [others]: the list of cursors has one on the same b-tree; those are not changed here.  The
    answer to [allocateTempSpace], if there is no space yet, is [SQLITE_OK] or [SQLITE_NOMEM]. *)
Definition btreeCursor (iTable : Z) (wrFlag pKeyInfo others : bool) (c : Cursor) : btm Cursor :=
  db ← get_db;
  if iTable <? 1 then fail SQLITE_CORRUPT
  else
    let iTable := if (iTable =? 1) && (nPage db =? 0) then 0 else iTable in
    let curFlags := Z.lor (if others then BTCF_Multiple else 0) (if wrFlag then BTCF_WriteFlag else 0) in
    (if wrFlag then pager_call else mret tt);;
    mret (mkCursor CURSOR_INVALID (skipNext c) (pKey c) (savedKey c) iTable false (curIntKey c) pKeyInfo (parents c) (info_nKey c)
      (mkCur (curPage (cur c)) (ix (cur c)) (info (cur c)) curFlags (aOverflow (cur c)))).

Section cursors.
(** The flag [SQLITE_CellSizeCk], and the search of an index for a saved key: its result and the cursor. *)
Variable cellSizeCk : bool.
Variable index_moveto : Cursor -> list Z -> btm (Z * Cursor).

(** ** Pages *)

Definition btreePageFromDbPage (b : BtShared) (pgno : Z) (d : list Z) : MemPage :=
  mkPage false pgno (if pgno =? 1 then 100 else 0) no_type [] [] 0 0 0 0 b d.

(** A page that is initialized already is as [btreeInitPage] would make it. *)
Definition getAndInitPage (pgno : Z) : btm MemPage :=
  db ← get_db;
  if nPage db <? pgno then fail SQLITE_CORRUPT
  else
    btreeGetPage pgno false;;
    d ← page pgno;
    let '(rc, p) := btreeInitPage cellSizeCk (btreePageFromDbPage (bt db) pgno d) in
    if truthy rc then fail rc else mret p.

Definition moveToChild (c : Cursor) (newPgno : Z) : btm Cursor :=
  if BTCURSOR_MAX_DEPTH - 1 <=? iPage c then fail SQLITE_CORRUPT
  else
    let c := clear_flags (forget_info c) (Z.lor BTCF_ValidNKey BTCF_ValidOvfl) in
    p ← getAndInitPage newPgno;
    if (nCell p <? 1) || negb (eqb (intKey (ptype p)) (curIntKey c)) then fail SQLITE_CORRUPT
    else mret (at_page c true ((pPage c, cix c) :: parents c) p 0).

Definition moveToParent (c : Cursor) : Cursor :=
  let c := clear_flags (forget_info c) (Z.lor BTCF_ValidNKey BTCF_ValidOvfl) in
  match parents c with
  | [] => c
  | (p, i) :: l => at_page c true l p i
  end.

(** The label [skip_init]: [SQLITE_OK] or [SQLITE_EMPTY], and the cursor. *)
Definition skip_init (c : Cursor) : btm (Z * Cursor) :=
  let pRoot := pPage c in
  let c := clear_flags (forget_info (set_ix c 0)) (Z.lor BTCF_AtLast (Z.lor BTCF_ValidNKey BTCF_ValidOvfl)) in
  if 0 <? nCell pRoot then mret (SQLITE_OK, set_state c CURSOR_VALID)
  else if negb (is_leaf pRoot) then
    if negb (pgno pRoot =? 1) then fail SQLITE_CORRUPT
    else c ← moveToChild (set_state c CURSOR_VALID) (right_child pRoot); mret (SQLITE_OK, c)
  else mret (SQLITE_EMPTY, set_state c CURSOR_INVALID).

Definition check_root (c : Cursor) : btm (Z * Cursor) :=
  let pRoot := pPage c in
  if negb (isInit pRoot) || negb (eqb (negb (hasKeyInfo c)) (intKey (ptype pRoot))) then fail SQLITE_CORRUPT else skip_init c.

Definition sqlite3BtreeClearCursor (c : Cursor) : Cursor := set_state (set_saved c None (savedKey c)) CURSOR_INVALID.

Definition moveToRoot (c : Cursor) : btm (Z * Cursor) :=
  if 0 <=? iPage c then
    match last (parents c) with
    | Some (pRoot, _) => skip_init (at_page c true [] pRoot (cix c))
    | None => check_root c
    end
  else if pgnoRoot c =? 0 then mret (SQLITE_EMPTY, set_state c CURSOR_INVALID)
  else if bool_decide (eState c = CURSOR_FAULT) then fail (skipNext c)
  else
    let c := if bool_decide (eState c = CURSOR_REQUIRESEEK) then sqlite3BtreeClearCursor c else c in
    p ← getAndInitPage (pgnoRoot c);
    check_root (set_intKey (at_page c true [] p (cix c)) (intKey (ptype p))).

(** [while( rc==SQLITE_OK && !pPage->leaf )] *)
Fixpoint leftmost_loop (fuel : nat) (c : Cursor) : btm Cursor :=
  if is_leaf (pPage c) then mret c
  else match fuel with
  | O => fail SQLITE_CORRUPT
  | S fuel => c ← moveToChild c (left_child (pPage c) (cix c)); leftmost_loop fuel c
  end.
Definition moveToLeftmost (c : Cursor) : btm Cursor := leftmost_loop (Z.to_nat BTCURSOR_MAX_DEPTH) c.

Fixpoint rightmost_loop (fuel : nat) (c : Cursor) : btm Cursor :=
  if is_leaf (pPage c) then mret (set_ix c (u16 (nCell (pPage c) - 1)))
  else match fuel with
  | O => fail SQLITE_CORRUPT
  | S fuel => c ← moveToChild (set_ix c (nCell (pPage c))) (right_child (pPage c)); rightmost_loop fuel c
  end.
Definition moveToRightmost (c : Cursor) : btm Cursor := rightmost_loop (Z.to_nat BTCURSOR_MAX_DEPTH) c.

(** ** The first and the last entry *)

(** [*pRes] and the cursor. *)
Definition sqlite3BtreeFirst (c : Cursor) : btm (Z * Cursor) :=
  '(rc, c) ← moveToRoot c;
  if rc =? SQLITE_OK then c ← moveToLeftmost c; mret (0, c) else mret (1, c).

Definition btreeLast (c : Cursor) : btm (Z * Cursor) :=
  '(rc, c) ← moveToRoot c;
  if rc =? SQLITE_OK then c ← moveToRightmost c; mret (0, add_flags c BTCF_AtLast) else mret (1, c).
Definition has_flag (c : Cursor) (m : Z) : bool := truthy (Z.land (flags c) m).
Definition sqlite3BtreeLast (c : Cursor) : btm (Z * Cursor) :=
  if bool_decide (eState c = CURSOR_VALID) && has_flag c BTCF_AtLast then mret (0, c) else btreeLast c.

(** ** The entry under the cursor *)

Definition read_info (c : Cursor) : btm (CellInfo * Cursor) :=
  d ← page (pgno (pPage c));
  let '(_, i, b) := getCellInfo (cur c) d in
  mret (i, set_cur c b).
Definition sqlite3BtreeIntegerKey (c : Cursor) : btm (Z * Cursor) := '(i, c) ← read_info c; mret (nKey i, c).
Definition sqlite3BtreePayloadSize (c : Cursor) : btm (Z * Cursor) := '(i, c) ← read_info c; mret (nPayload i, c).
Definition read_payload (c : Cursor) (offset amt : Z) (pBuf : list Z) : btm (list Z * Cursor) :=
  '(b, pBuf) ← sqlite3BtreePayload (cur c) offset amt pBuf; mret (pBuf, set_cur c b).

(** ** Searching a table *)

(** [while( 0x80 <= *(pCell++) )]: the key after the size of the payload, or none at the end of the page. *)
Fixpoint skip_size (pCell : list Z) : option (list Z) :=
  match pCell with
  | [] => None
  | x :: pCell => if 0x80 <=? x then match pCell with [] => None | _ => skip_size pCell end else Some pCell
  end.
Definition findCellPastPtr (p : MemPage) (i : Z) : list Z := drop (Z.to_nat (childPtrSize (ptype p))) (findCell p i).
Definition cell_key (p : MemPage) (idx : Z) : option Z :=
  (fun pCell => i64 (snd (sqlite3GetVarint pCell))) <$>
    (if intKeyLeaf (ptype p) then skip_size (findCellPastPtr p idx) else Some (findCellPastPtr p idx)).

(** Where a search on one page ends: at the key itself, or between cells with the last comparison. *)
Inductive search_end := Found (idx : Z) | Between (lwr idx c : Z) | BadPage.
Fixpoint page_search (fuel : nat) (p : MemPage) (intKey lwr upr idx : Z) : search_end :=
  match fuel with
  | O => BadPage
  | S fuel =>
      match cell_key p idx with
      | None => BadPage
      | Some nCellKey =>
          if nCellKey <? intKey then
            let lwr := idx + 1 in
            if upr <? lwr then Between lwr idx (-1) else page_search fuel p intKey lwr upr (Z.shiftr (lwr + upr) 1)
          else if intKey <? nCellKey then
            let upr := idx - 1 in
            if upr <? lwr then Between lwr idx 1 else page_search fuel p intKey lwr upr (Z.shiftr (lwr + upr) 1)
          else Found idx
      end
  end.

(** [for(;;)]: [*pRes] and the cursor. *)
Fixpoint search_loop (fuel : nat) (c : Cursor) (intKey : Z) (biasRight : bool) : btm (Z * Cursor) :=
  match fuel with
  | O => fail SQLITE_CORRUPT
  | S fuel =>
      let p := pPage c in
      let upr := nCell p - 1 in
      let next_layer c lwr :=
        let chldPg := if nCell p <=? lwr then right_child p else left_child p lwr in
        c ← moveToChild (set_ix c (u16 lwr)) chldPg;
        search_loop fuel c intKey biasRight in
      match page_search (S (Z.to_nat (nCell p))) p intKey 0 upr (Z.shiftr upr (if biasRight then 0 else 1)) with
      | BadPage => fail SQLITE_CORRUPT
      | Found idx =>
          let c := set_ix c (u16 idx) in
          if is_leaf p then mret (0, set_nKey (forget_info (add_flags c BTCF_ValidNKey)) intKey)
          else next_layer c idx
      | Between lwr idx r =>
          if is_leaf p then mret (r, forget_info (set_ix c (u16 idx)))
          else next_layer c lwr
      end
  end.

(** The search from the root. *)
Definition table_search (c : Cursor) (intKey : Z) (biasRight : bool) : btm (Z * Cursor) :=
  '(rc, c) ← moveToRoot c;
  if rc =? SQLITE_OK then search_loop (S (Z.to_nat BTCURSOR_MAX_DEPTH)) c intKey biasRight else mret (-1, c).

(** ** Saving and restoring a position *)

Definition btreeReleaseAllCursorPages (c : Cursor) : Cursor := at_page c false [] (pPage c) (cix c).

(** The call of [sqlite3Malloc] answers [SQLITE_OK] or [SQLITE_NOMEM]. *)
Definition saveCursorKey (c : Cursor) : btm Cursor :=
  if curIntKey c then '(k, c) ← sqlite3BtreeIntegerKey c; mret (set_saved c (pKey c) k)
  else
    '(n, c) ← sqlite3BtreePayloadSize c;
    pager_call;;
    '(key, c) ← read_payload c 0 n (replicate (Z.to_nat (n + 17)) 0);
    mret (set_saved c (Some (take (Z.to_nat n) key ++ replicate 17 0)) n).

Definition saveCursorPosition (c : Cursor) : btm Cursor :=
  if has_flag c BTCF_Pinned then fail SQLITE_CONSTRAINT_PINNED
  else
    let c := if bool_decide (eState c = CURSOR_SKIPNEXT) then set_state c CURSOR_VALID else set_skip c 0 in
    c ← saveCursorKey c;
    let c := set_state (btreeReleaseAllCursorPages c) CURSOR_REQUIRESEEK in
    mret (clear_flags c (Z.lor BTCF_ValidNKey (Z.lor BTCF_ValidOvfl BTCF_AtLast))).

(** What [saveCursorsOnList] does to each cursor on the tree. *)
Definition save_cursor (c : Cursor) : btm Cursor :=
  if bool_decide (eState c = CURSOR_VALID) || bool_decide (eState c = CURSOR_SKIPNEXT) then saveCursorPosition c
  else mret (btreeReleaseAllCursorPages c).

(** The state is [CURSOR_INVALID] when [btreeMoveto] is called, so [sqlite3BtreeTableMoveto] searches from the root. *)
Definition btreeRestoreCursorPosition (c : Cursor) : btm Cursor :=
  if bool_decide (eState c = CURSOR_FAULT) then fail (skipNext c)
  else
    let c := set_state c CURSOR_INVALID in
    '(r, c) ← match pKey c with Some k => index_moveto c k | None => table_search c (savedKey c) false end;
    let c := set_saved c None (savedKey c) in
    let c := if r =? 0 then c else set_skip c r in
    mret (if negb (skipNext c =? 0) && bool_decide (eState c = CURSOR_VALID) then set_state c CURSOR_SKIPNEXT else c).
Definition restoreCursorPosition (c : Cursor) : btm Cursor :=
  if bool_decide (eState c = CURSOR_REQUIRESEEK) || bool_decide (eState c = CURSOR_FAULT) then btreeRestoreCursorPosition c else mret c.

(** [*pDifferentRow] and the cursor. *)
Definition sqlite3BtreeCursorRestore (c : Cursor) : btm (bool * Cursor) :=
  c ← restoreCursorPosition c;
  mret (negb (bool_decide (eState c = CURSOR_VALID)), c).

(** ** The next and the previous entry *)

(** [do{ ... }while( pCur->ix>=pPage->nCell )]: false at the root. *)
Fixpoint up_next (l : list (MemPage * Z)) (c : Cursor) : bool * Cursor :=
  match l with
  | [] => (false, set_state c CURSOR_INVALID)
  | _ :: l =>
      let c := moveToParent c in
      if nCell (pPage c) <=? cix c then up_next l c else (true, c)
  end.

(** The result code and the cursor, once the position is restored; [next] is [sqlite3BtreeNext]. *)
Definition next_entry (next : Cursor -> btm (Z * Cursor)) (c : Cursor) : btm (Z * Cursor) :=
  if bool_decide (eState c = CURSOR_INVALID) then mret (SQLITE_DONE, c)
  else if bool_decide (eState c = CURSOR_SKIPNEXT) && (0 <? skipNext c) then mret (SQLITE_OK, set_state c CURSOR_VALID)
  else
    let c := set_ix (set_state c CURSOR_VALID) (u16 (cix c + 1)) in
    let p := pPage c in
    if negb (isInit p) then fail SQLITE_CORRUPT
    else if nCell p <=? cix c then
      if negb (is_leaf p) then c ← moveToChild c (right_child p); c ← moveToLeftmost c; mret (SQLITE_OK, c)
      else
        let '(more, c) := up_next (parents c) c in
        if negb more then mret (SQLITE_DONE, c)
        else if intKey (ptype (pPage c)) then next c
        else mret (SQLITE_OK, c)
    else if is_leaf p then mret (SQLITE_OK, c)
    else c ← moveToLeftmost c; mret (SQLITE_OK, c).
Definition btreeNext (next : Cursor -> btm (Z * Cursor)) (c : Cursor) : btm (Z * Cursor) := c ← restoreCursorPosition c; next_entry next c.

(** From a leaf [btreeNext] calls [sqlite3BtreeNext] on an interior page, where it goes down: two levels of calls. *)
Fixpoint next_fuel (fuel : nat) (c : Cursor) : btm (Z * Cursor) :=
  match fuel with
  | O => fail SQLITE_CORRUPT
  | S fuel =>
      let c := clear_flags (forget_info c) (Z.lor BTCF_ValidNKey BTCF_ValidOvfl) in
      if negb (bool_decide (eState c = CURSOR_VALID)) then btreeNext (next_fuel fuel) c
      else
        let p := pPage c in
        if nCell p <=? u16 (cix c + 1) then btreeNext (next_fuel fuel) c
        else
          let c := set_ix c (u16 (cix c + 1)) in
          if is_leaf p then mret (SQLITE_OK, c) else c ← moveToLeftmost c; mret (SQLITE_OK, c)
  end.
Definition sqlite3BtreeNext (c : Cursor) : btm (Z * Cursor) := next_fuel 3 c.

(** [while( pCur->ix==0 )]: false at the root. *)
Fixpoint up_previous (l : list (MemPage * Z)) (c : Cursor) : bool * Cursor :=
  if negb (cix c =? 0) then (true, c)
  else match l with
  | [] => (false, set_state c CURSOR_INVALID)
  | _ :: l => up_previous l (moveToParent c)
  end.

Definition previous_entry (previous : Cursor -> btm (Z * Cursor)) (c : Cursor) : btm (Z * Cursor) :=
  if bool_decide (eState c = CURSOR_INVALID) then mret (SQLITE_DONE, c)
  else if bool_decide (eState c = CURSOR_SKIPNEXT) && (skipNext c <? 0) then mret (SQLITE_OK, set_state c CURSOR_VALID)
  else
    let c := set_state c CURSOR_VALID in
    let p := pPage c in
    if negb (isInit p) then fail SQLITE_CORRUPT
    else if negb (is_leaf p) then c ← moveToChild c (left_child p (cix c)); c ← moveToRightmost c; mret (SQLITE_OK, c)
    else
      let '(more, c) := up_previous (parents c) c in
      if negb more then mret (SQLITE_DONE, c)
      else
        let c := set_ix c (u16 (cix c - 1)) in
        if intKey (ptype (pPage c)) && negb (is_leaf (pPage c)) then previous c else mret (SQLITE_OK, c).
Definition btreePrevious (previous : Cursor -> btm (Z * Cursor)) (c : Cursor) : btm (Z * Cursor) := c ← restoreCursorPosition c; previous_entry previous c.

Fixpoint previous_fuel (fuel : nat) (c : Cursor) : btm (Z * Cursor) :=
  match fuel with
  | O => fail SQLITE_CORRUPT
  | S fuel =>
      let c := forget_info (clear_flags c (Z.lor BTCF_AtLast (Z.lor BTCF_ValidOvfl BTCF_ValidNKey))) in
      if negb (bool_decide (eState c = CURSOR_VALID)) || (cix c =? 0) || negb (is_leaf (pPage c)) then btreePrevious (previous_fuel fuel) c
      else mret (SQLITE_OK, set_ix c (u16 (cix c - 1)))
  end.
Definition sqlite3BtreePrevious (c : Cursor) : btm (Z * Cursor) := previous_fuel 3 c.

(** ** Moving to a rowid *)

Definition sqlite3BtreeTableMoveto (c : Cursor) (intKey : Z) (biasRight : bool) : btm (Z * Cursor) :=
  if bool_decide (eState c = CURSOR_VALID) && has_flag c BTCF_ValidNKey then
    let k := cursor_nKey c in
    if k =? intKey then mret (0, c)
    else if (k <? intKey) && has_flag c BTCF_AtLast then mret (-1, c)
    else if (k <? intKey) && (k + 1 =? intKey) then
      '(rc, c) ← sqlite3BtreeNext c;
      if rc =? SQLITE_OK then
        '(i, c) ← read_info c;
        if nKey i =? intKey then mret (0, c) else table_search c intKey biasRight
      else table_search c intKey biasRight
    else table_search c intKey biasRight
  else table_search c intKey biasRight.

End cursors.
