(* ===== verification/BtreeTree.v ===== *)
(** A table as a tree of pages: what the pages of a tree hold, where in the tree a cursor is,
    and the moves of a cursor that go up and down. *)

From stdpp Require Import sorting.
From S2P Require Import Prelude Bits Varint Numeric Regions BtreeCell BtreePage BtreeSpace BtreeFile BtreeFree BtreeAlloc BtreePayload BtreeCursor.

(** ** Computations that read *)

(** The same file, to whoever only reads. *)
Definition sees (db db' : Db) : Prop := bt db' = bt db /\ nPage db' = nPage db /\ pinned db' = pinned db /\ forall x, pg db' x = pg db x.
#[global] Instance sees_preorder : PreOrder sees.
Proof. split; [done|]. intros d1 d2 d3 (A1 & A2 & A3 & A4) (B1 & B2 & B3 & B4). split_and!; [congruence..|]. intros x. by rewrite B4. Qed.
Lemma sees_answers db a : sees db (set_answers db a).
Proof. done. Qed.
#[export] Hint Resolve sees_answers : sqlite.

(** [m] ends, from the file [db] with any answers of the pager, with a result that satisfies [Q] and leaves the file alone. *)
Definition reads {A} (db : Db) (m : btm A) (Q : A -> Prop) : Prop :=
  forall db0, sees db db0 -> ends m db0 (fun x db' => sees db db' /\ Q x).

Lemma reads_ret {A} db (x : A) Q : Q x -> reads db (mret x) Q.
Proof. intros H db0 Hs. by apply ends_ret. Qed.
Lemma reads_bind {A B} db (m : btm A) (k : A -> btm B) P Q : reads db m P -> (forall x, P x -> reads db (k x) Q) -> reads db (m ≫= k) Q.
Proof. intros Hm Hk db0 Hs. apply ends_bind. eapply ends_weaken; [by apply Hm|]. intros x db' [Hs' HP]. by apply Hk. Qed.
Lemma reads_weaken {A} db (m : btm A) (P Q : A -> Prop) : reads db m P -> (forall x, P x -> Q x) -> reads db m Q.
Proof. intros Hm H db0 Hs. eapply ends_weaken; [by apply Hm|]. intros x db' [? ?]. auto. Qed.
Lemma reads_db {A} db (k : Db -> btm A) Q : (forall db0, sees db db0 -> reads db (k db0) Q) -> reads db (get_db ≫= k) Q.
Proof. intros H db0 Hs. apply ends_bind, ends_get_db. by apply H. Qed.
Lemma reads_page {A} db i (k : list Z -> btm A) Q : reads db (k (pg db i)) Q -> reads db (page i ≫= k) Q.
Proof. intros H db0 Hs. apply ends_bind, ends_page. assert (E := Hs). destruct E as (_ & _ & _ & ->). by apply H. Qed.
Lemma reads_getPage {A} db x (k : unit -> btm A) Q : x <> 0 -> x <> PENDING_BYTE_PAGE (bt db) -> reads db (k tt) Q -> reads db (btreeGetPage x false ≫= k) Q.
Proof.
  intros H0 Hp H db0 Hs. assert (E := Hs). destruct E as (E & _). rewrite <- E in Hp. apply ends_bind. eapply ends_weaken; [by apply getPage_ok|]. intros [] db' [l ->]. apply H. etrans; [exact Hs|apply sees_answers].
Qed.

(** ** Rows in the order of their keys *)

Definition keys_of (l : list (Z * list Z)) : list Z := l.*1.
Lemma sorted_lt ks i j a b : StronglySorted Z.lt ks -> ks !! i = Some a -> ks !! j = Some b -> (i < j)%nat -> a < b.
Proof.
  intros H Ha Hc Hij. rewrite <- (take_drop j ks) in H. eapply (StronglySorted_app_1_elem_of Z.lt _ _ _ _ H).
  - apply (list_elem_of_lookup_2 _ i). by rewrite lookup_take_lt.
  - apply (list_elem_of_lookup_2 _ 0). rewrite lookup_drop, Nat.add_0_r. done.
Qed.
Lemma rows_order l i j ri rj : StronglySorted Z.lt (keys_of l) -> l !! i = Some ri -> l !! j = Some rj -> ri.1 < rj.1 <-> (i < j)%nat.
Proof.
  intros Hs Hi Hj. assert (Ki : keys_of l !! i = Some ri.1) by (unfold keys_of; by rewrite list_lookup_fmap, Hi). assert (Kj : keys_of l !! j = Some rj.1) by (unfold keys_of; by rewrite list_lookup_fmap, Hj). split; [|by apply (sorted_lt _ _ _ _ _ Hs)].
  intros Hlt. destruct (decide (i < j)%nat); [done|]. destruct (decide (i = j)) as [->|]; [rewrite Hi in Hj; injection Hj as ->; lia|]. pose proof (sorted_lt _ j i _ _ Hs Kj Ki ltac:(lia)). lia.
Qed.
Lemma filter_suffix (P : Z * list Z -> Prop) {HP : forall r, Decision (P r)} l : forall i, (forall j r, l !! j = Some r -> P r <-> (i <= j)%nat) -> filter P l = drop i l.
Proof.
  induction l as [|x l IH]; intros i H; [by rewrite drop_nil|]. destruct i as [|i].
  - rewrite filter_cons_True by (apply (H 0%nat x); [done|lia]). cbn [drop]. f_equal. rewrite (IH 0%nat), drop_0; [done|]. intros j r Hj. rewrite (H (S j) r Hj). lia.
  - rewrite filter_cons_False by (rewrite (H 0%nat x) by done; lia). cbn [drop]. apply IH. intros j r Hj. rewrite (H (S j) r Hj). lia.
Qed.
Lemma filter_prefix (P : Z * list Z -> Prop) {HP : forall r, Decision (P r)} l : forall i, (forall j r, l !! j = Some r -> P r <-> (j < i)%nat) -> filter P l = take i l.
Proof.
  induction l as [|x l IH]; intros i H; [by rewrite take_nil|]. destruct i as [|i].
  - rewrite filter_cons_False by (rewrite (H 0%nat x) by done; lia). cbn [take]. rewrite (IH 0%nat), take_0; [done|]. intros j r Hj. rewrite (H (S j) r Hj). lia.
  - rewrite filter_cons_True by (apply (H 0%nat x); [done|lia]). cbn [take]. f_equal. apply IH. intros j r Hj. rewrite (H (S j) r Hj). lia.
Qed.
(** The first row after a place and the last row before it. *)
Definition is_after (k s : Z) (r : Z * list Z) : bool := if 0 <? s then k <=? r.1 else k <? r.1.
Definition is_before (k s : Z) (r : Z * list Z) : bool := if s <? 0 then r.1 <=? k else r.1 <? k.
Definition row_after (l : list (Z * list Z)) (k s : Z) : option (Z * list Z) := head (filter (fun r => is_after k s r = true) l).
Definition row_before (l : list (Z * list Z)) (k s : Z) : option (Z * list Z) := last (filter (fun r => is_before k s r = true) l).
Lemma is_after_iff k s r : is_after k s r = true <-> (if decide (0 < s) then k <= r.1 else k < r.1).
Proof. unfold is_after. destruct (Z.ltb_spec 0 s); destruct (decide (0 < s)); lia. Qed.
Lemma is_before_iff k s r : is_before k s r = true <-> (if decide (s < 0) then r.1 <= k else r.1 < k).
Proof. unfold is_before. destruct (Z.ltb_spec s 0); destruct (decide (s < 0)); lia. Qed.

Lemma rows_after_at l i row s : StronglySorted Z.lt (keys_of l) -> l !! i = Some row -> row_after l row.1 s = l !! (if decide (0 < s) then i else S i).
Proof.
  intros Hs Hi. unfold row_after. rewrite (filter_suffix _ l (if decide (0 < s) then i else S i)); [by rewrite head_lookup, lookup_drop, Nat.add_0_r|].
  intros j r Hj. pose proof (rows_order l i j row r Hs Hi Hj). pose proof (rows_order l j i r row Hs Hj Hi). rewrite is_after_iff. destruct (decide (0 < s)); lia.
Qed.
Lemma rows_before_at l i row s : StronglySorted Z.lt (keys_of l) -> l !! i = Some row -> row_before l row.1 s = match (if decide (s < 0) then S i else i) with O => None | S j => l !! j end.
Proof.
  intros Hs Hi. unfold row_before. pose proof (lookup_lt_Some _ _ _ Hi). rewrite (filter_prefix _ l (if decide (s < 0) then S i else i)).
  - rewrite last_lookup, length_take. destruct (if decide (s < 0) then S i else i) as [|n] eqn:E; [by rewrite take_0|]. assert (Hn : (n < length l)%nat) by (destruct (decide (s < 0)); lia). rewrite Nat.min_l by lia. cbn [pred]. by rewrite lookup_take_lt by lia.
  - intros j r Hj. pose proof (rows_order l i j row r Hs Hi Hj). pose proof (rows_order l j i r row Hs Hj Hi). rewrite is_before_iff. destruct (decide (s < 0)); lia.
Qed.

(** ** Trees *)

(** A leaf has rows, an interior page has one child more than it has keys. *)
Inductive tree :=
| Leaf (p : Z) (rows : list (Z * list Z))
| Node (p : Z) (kids : list tree) (seps : list Z).

Definition root_of (t : tree) : Z := match t with Leaf p _ => p | Node p _ _ => p end.
Fixpoint rows_of (t : tree) : list (Z * list Z) :=
  match t with Leaf _ rows => rows | Node _ kids _ => mjoin (map rows_of kids) end.
Fixpoint depth (t : tree) : nat :=
  match t with Leaf _ _ => O | Node _ kids _ => S (max_list (map depth kids)) end.

Section tree_ind.
Variable P : tree -> Prop.
Hypothesis leaf_case : forall p rows, P (Leaf p rows).
Hypothesis node_case : forall p kids seps, Forall P kids -> P (Node p kids seps).
Fixpoint tree_ind' (t : tree) : P t :=
  match t with
  | Leaf p rows => leaf_case p rows
  | Node p kids seps => node_case p kids seps ((fix go l : Forall P l := match l with [] => Forall_nil_2 P | t :: l => Forall_cons_2 P t l (tree_ind' t) (go l) end) kids)
  end.
End tree_ind.

Lemma depth_kid p kids seps j t : kids !! j = Some t -> (depth t < depth (Node p kids seps))%nat.
Proof.
  intros Hj. cbn [depth]. apply Nat.lt_succ_r. revert j Hj. induction kids as [|k kids IH]; [done|]. change (max_list (map depth (k :: kids))) with (Nat.max (depth k) (max_list (map depth kids))).
  intros [|j] H; [injection H as ->; lia|]. specialize (IH j H). lia.
Qed.

Section file.
Context (cellSizeCk : bool) (db : Db).

(** A page of the tree in memory. *)
Definition mem (p : Z) : MemPage := snd (btreeInitPage cellSizeCk (btreePageFromDbPage (bt db) p (pg db p))).
Definition page_ok (p : Z) : Prop :=
  1 <= p <= nPage db /\ p <> PENDING_BYTE_PAGE (bt db) /\ fst (btreeInitPage cellSizeCk (btreePageFromDbPage (bt db) p (pg db p))) = SQLITE_OK.

Lemma mem_facts p : page_ok p -> wf_bt (bt db) -> isInit (mem p) = true /\ pgno (mem p) = p /\ pBt (mem p) = bt db /\ aData (mem p) = pg db p /\
  hdrOffset (mem p) = (if p =? 1 then 100 else 0) /\ nCell (mem p) = get2byte (pg db p) (hdrOffset (mem p) + 3) /\ nCell (mem p) <= MX_CELL (bt db) /\
  ptype (mem p) = snd (decodeFlags (bt db) no_type (pg db p).[hdrOffset (mem p)]) /\ fst (decodeFlags (bt db) no_type (pg db p).[hdrOffset (mem p)]) = SQLITE_OK /\
  maskPage (mem p) = u16 (pageSize (bt db) - 1) /\ cellOffset (mem p) = u16 (hdrOffset (mem p) + 8 + childPtrSize (ptype (mem p))).
Proof.
  intros (H1 & H2 & H3) Hb. unfold mem, btreeInitPage, btreePageFromDbPage in *. cbn [hdrOffset pBt ptype aData isInit aiOvfl apOvfl cellOffset nFree nCell maskPage pgno] in *.
  set (hdr := if p =? 1 then 100 else 0) in *. destruct (decodeFlags (bt db) no_type (pg db p).[hdr]) as [rc t] eqn:E. destruct (truthy rc) eqn:Er; [by cbn in H3|].
  assert (rc = SQLITE_OK) as -> by (unfold truthy in Er; destruct (rc =? 0) eqn:E0; [unfold SQLITE_OK; lia|done]). destruct (MX_CELL (bt db) <? _) eqn:Em; [by cbn in H3|]. cbn. rewrite E. split_and!; try done. lia.
Qed.

Lemma getAndInitPage_ok p : page_ok p -> reads db (getAndInitPage cellSizeCk p) (fun x => x = mem p).
Proof.
  intros (H1 & H2 & H3). unfold getAndInitPage. apply reads_db. intros db0 (E1 & E2 & _). rewrite E2. replace (nPage db <? p) with false by lia.
  apply reads_getPage; [lia|done|]. apply reads_page. rewrite E1. unfold mem. destruct (btreeInitPage _ _) as [rc m]. cbn [fst snd] in *. subst rc. by apply reads_ret.
Qed.


(** ** What the pages of a table hold *)

(** A row is a cell of a leaf with the rowid for its key; a separator is a child and a rowid. *)
Definition row_at (p i : Z) (r : Z * list Z) : Prop :=
  zlen r.2 < 2 ^ 31 /\ bytes_ok r.2 /\ exists h pgs, holds db (ptype (mem p)) p (cellOffsetOf (mem p) i) h r.1 r.2 pgs.
Definition sep_at (p i child s : Z) : Prop :=
  is_i64 s /\ is_u32 child /\ exists rest, bytes_ok rest /\ findCell (mem p) i = sqlite3Put4byte [0; 0; 0; 0] child ++ varint_enc (u64 s) ++ rest.

(** Below the root every page has cells; the root of the schema, on page 1, may have a right child only. *)
Inductive shaped : bool -> tree -> Prop :=
| shaped_leaf root p rows : page_ok p -> ptype (mem p) = snd (decodeFlags (bt db) no_type 13) -> nCell (mem p) = zlen rows -> (root = true \/ rows <> []) ->
    (forall i r, rows !! i = Some r -> row_at p (Z.of_nat i) r) -> shaped root (Leaf p rows)
| shaped_node root p kids seps : page_ok p -> ptype (mem p) = snd (decodeFlags (bt db) no_type 5) -> nCell (mem p) = zlen seps -> (root = true /\ p = 1 \/ seps <> []) ->
    length kids = S (length seps) -> (forall t, last kids = Some t -> right_child (mem p) = root_of t) ->
    (forall i s t, seps !! i = Some s -> kids !! i = Some t -> sep_at p (Z.of_nat i) (root_of t) s) ->
    StronglySorted Z.lt seps ->
    (forall i s j t, seps !! i = Some s -> kids !! j = Some t -> Forall (fun r => if decide (j <= i)%nat then r.1 <= s else s < r.1) (rows_of t)) ->
    Forall (shaped false) kids -> shaped root (Node p kids seps).

Lemma shaped_leaf_inv b p rows : shaped b (Leaf p rows) -> page_ok p /\ ptype (mem p) = snd (decodeFlags (bt db) no_type 13) /\ nCell (mem p) = zlen rows /\ (b = true \/ rows <> []) /\
  (forall i r, rows !! i = Some r -> row_at p (Z.of_nat i) r).
Proof. intros H. by inversion H. Qed.
Lemma shaped_node_inv b p kids seps : shaped b (Node p kids seps) -> page_ok p /\ ptype (mem p) = snd (decodeFlags (bt db) no_type 5) /\ nCell (mem p) = zlen seps /\ (b = true /\ p = 1 \/ seps <> []) /\
  length kids = S (length seps) /\ (forall t, last kids = Some t -> right_child (mem p) = root_of t) /\
  (forall i s t, seps !! i = Some s -> kids !! i = Some t -> sep_at p (Z.of_nat i) (root_of t) s) /\ StronglySorted Z.lt seps /\
  (forall i s j t, seps !! i = Some s -> kids !! j = Some t -> Forall (fun r => if decide (j <= i)%nat then r.1 <= s else s < r.1) (rows_of t)) /\ Forall (shaped false) kids.
Proof. intros H. by inversion H. Qed.

(** The table with this root is this tree. *)
Record table_at (root : Z) (t : tree) : Prop := {
  ta_shaped : shaped true t;
  ta_root : root_of t = root;
  ta_sorted : StronglySorted Z.lt (keys_of (rows_of t));
  ta_depth : (depth t < Z.to_nat BTCURSOR_MAX_DEPTH)%nat }.

(** ** A page of the tree in its surroundings *)

(** The way down to a page, the parent first: the pages with the child that was taken. *)
Definition frame : Type := Z * list tree * list Z * nat.
Inductive focus (root : tree) : tree -> list frame -> Prop :=
| focus_root : focus root root []
| focus_kid p kids seps j t fs : focus root (Node p kids seps) fs -> kids !! j = Some t -> focus root t ((p, kids, seps, j) :: fs).

Definition rows_in (l : list tree) : list (Z * list Z) := mjoin (map rows_of l).
Fixpoint before (fs : list frame) : list (Z * list Z) :=
  match fs with [] => [] | (_, kids, _, j) :: fs => before fs ++ rows_in (take j kids) end.
Fixpoint after (fs : list frame) : list (Z * list Z) :=
  match fs with [] => [] | (_, kids, _, j) :: fs => rows_in (drop (S j) kids) ++ after fs end.
Definition stack_of (fs : list frame) : list (MemPage * Z) := map (fun f : frame => let '(p, _, _, j) := f in (mem p, Z.of_nat j)) fs.

Lemma rows_in_app l1 l2 : rows_in (l1 ++ l2) = rows_in l1 ++ rows_in l2.
Proof. unfold rows_in. by rewrite map_app, join_app. Qed.
Lemma rows_in_split l j t : l !! j = Some t -> rows_in l = rows_in (take j l) ++ rows_of t ++ rows_in (drop (S j) l).
Proof. intros H. rewrite <- (take_drop_middle l j t H) at 1. rewrite rows_in_app. done. Qed.
Lemma rows_in_next l j t : l !! j = Some t -> rows_in (take (S j) l) = rows_in (take j l) ++ rows_of t.
Proof. intros H. rewrite (take_S_r l j t H), rows_in_app. unfold rows_in at 2. cbn. by rewrite app_nil_r. Qed.

Lemma focus_rows root t fs : focus root t fs -> rows_of root = before fs ++ rows_of t ++ after fs.
Proof.
  induction 1 as [|p kids seps j t fs _ IH Hj]; cbn [before after]; [by rewrite app_nil_r|]. rewrite IH. cbn [rows_of]. fold (rows_in kids). rewrite (rows_in_split kids j t Hj). by rewrite <- !app_assoc.
Qed.
Lemma focus_shaped root t fs : shaped true root -> focus root t fs -> shaped (bool_decide (fs = [])) t.
Proof.
  intros Hr. induction 1 as [|p kids seps j t fs _ IH Hj]; [done|]. destruct (shaped_node_inv _ _ _ _ IH) as (_ & _ & _ & _ & _ & _ & _ & _ & _ & Hk). rewrite bool_decide_eq_false_2 by done. rewrite Forall_forall in Hk. eapply Hk, list_elem_of_lookup_2, Hj.
Qed.
Lemma focus_depth root t fs : focus root t fs -> (depth t + length fs <= depth root)%nat.
Proof. induction 1 as [|p kids seps j t fs _ IH Hj]; [cbn; lia|]. pose proof (depth_kid p kids seps j t Hj). cbn [length]. lia. Qed.

(** Pages below the root have rows under them. *)
Lemma shaped_rows t : shaped false t -> rows_of t <> [].
Proof.
  induction t as [p rows|p kids seps IH] using tree_ind'; intros H.
  - destruct (shaped_leaf_inv _ _ _ H) as (_ & _ & _ & [?|?] & _); done.
  - destruct (shaped_node_inv _ _ _ _ H) as (_ & _ & _ & _ & Hlen & _ & _ & _ & _ & Hk). destruct kids as [|t kids]; [done|]. apply Forall_cons in IH as [IH _], Hk as [Hk _]. cbn [rows_of map]. intros E. change (mjoin (rows_of t :: map rows_of kids)) with (rows_of t ++ mjoin (map rows_of kids)) in E. apply app_eq_nil in E as [E _]. by apply IH.
Qed.

Lemma node_facts root t fs p kids seps : shaped true root -> focus root t fs -> t = Node p kids seps ->
  page_ok p /\ is_leaf (mem p) = false /\ intKey (ptype (mem p)) = true /\ intKeyLeaf (ptype (mem p)) = false /\ childPtrSize (ptype (mem p)) = 4 /\ nCell (mem p) = zlen seps /\ length kids = S (length seps).
Proof. intros Hr Hf ->. pose proof (focus_shaped _ _ _ Hr Hf) as H. destruct (shaped_node_inv _ _ _ _ H) as (H1 & H2 & H3 & H4 & H5 & _). unfold is_leaf. rewrite H2. done. Qed.
Lemma leaf_facts root t fs p rows : shaped true root -> focus root t fs -> t = Leaf p rows ->
  page_ok p /\ is_leaf (mem p) = true /\ intKey (ptype (mem p)) = true /\ intKeyLeaf (ptype (mem p)) = true /\ childPtrSize (ptype (mem p)) = 0 /\ nCell (mem p) = zlen rows /\ (forall i r, rows !! i = Some r -> row_at p (Z.of_nat i) r).
Proof. intros Hr Hf ->. pose proof (focus_shaped _ _ _ Hr Hf) as H. destruct (shaped_leaf_inv _ _ _ H) as (H1 & H2 & H3 & H4 & H5). unfold is_leaf. rewrite H2. done. Qed.

(** The number of a child is in the cell before it, or at the end of the header. *)
Definition child_ptr (p : MemPage) (j : Z) : Z := if nCell p <=? j then right_child p else left_child p j.
Lemma child_ptr_ok root p kids seps fs j t : shaped true root -> focus root (Node p kids seps) fs -> kids !! j = Some t -> child_ptr (mem p) (Z.of_nat j) = root_of t.
Proof.
  intros Hr Hf Hj. pose proof (focus_shaped _ _ _ Hr Hf) as H. destruct (shaped_node_inv _ _ _ _ H) as (H1 & H2 & H3 & H4 & H5 & H6 & H7 & _). unfold child_ptr. rewrite H3. pose proof (lookup_lt_Some _ _ _ Hj). unfold zlen. destruct (_ <=? _) eqn:E.
  - apply H6. rewrite last_lookup. by replace (pred (length kids)) with j by lia.
  - destruct (lookup_lt_is_Some_2 seps j ltac:(lia)) as [s Hs]. destruct (H7 j s t Hs Hj) as (_ & Hu & rest & _ & E2). unfold left_child. rewrite E2. unfold get4byte.
    assert (L : zlen (sqlite3Put4byte [0; 0; 0; 0] (root_of t)) = 4) by (rewrite put4_splice, splice_0 by done; done).
    replace (slice (_ ++ _) 0 4) with (sqlite3Put4byte [0; 0; 0; 0] (root_of t)); [by apply get4_of_put4|]. rewrite slice_app_l by lia. symmetry. rewrite <- L. apply slice_whole.
Qed.

(** ** A cursor in the tree *)

(** What moves up and down leave alone. *)
Record kept (c c' : Cursor) : Prop := {
  kp_state : eState c' = eState c; kp_skip : skipNext c' = skipNext c; kp_key : pKey c' = pKey c; kp_saved : savedKey c' = savedKey c;
  kp_root : pgnoRoot c' = pgnoRoot c; kp_int : curIntKey c' = curIntKey c; kp_info : hasKeyInfo c' = hasKeyInfo c;
  kp_last : has_flag c' BTCF_AtLast = has_flag c BTCF_AtLast; kp_pin : has_flag c' BTCF_Pinned = has_flag c BTCF_Pinned }.
#[local] Instance kept_refl : Reflexive kept.
Proof. by split. Qed.
#[local] Instance kept_trans : Transitive kept.
Proof. intros c1 c2 c3 [] []. split; congruence. Qed.

(** Nothing is known of the entry under the cursor. *)
Definition clean (c : Cursor) : Prop := info (cur c) = None /\ has_flag c BTCF_ValidNKey = false /\ has_flag c BTCF_ValidOvfl = false.

(** Nothing is known of it but that, if the flag says so, the key is one of these. *)
Definition tidy (ok : Z -> Prop) (c : Cursor) : Prop := info (cur c) = None /\ has_flag c BTCF_ValidOvfl = false /\ (has_flag c BTCF_ValidNKey = true -> ok (info_nKey c)).
Lemma clean_tidy ok c : clean c -> tidy ok c.
Proof. intros (C1 & C2 & C3). split_and!; try done. by rewrite C2. Qed.
Lemma tidy_clean c : tidy (fun _ => False) c -> clean c.
Proof. intros (C1 & C2 & C3). split_and!; try done. destruct (has_flag c BTCF_ValidNKey); [by destruct C3|done]. Qed.

Lemma flag_cleared (f m x : Z) : Z.land m x = x -> truthy (Z.land (Z.ldiff f m) x) = false.
Proof.
  intros E. replace (Z.land (Z.ldiff f m) x) with 0; [done|]. symmetry. apply Z.bits_inj. intros n. rewrite Z.land_spec, Z.ldiff_spec, Z.bits_0, <- E, Z.land_spec. by destruct (Z.testbit f n), (Z.testbit m n), (Z.testbit x n).
Qed.
Lemma flag_kept (f m x : Z) : Z.land m x = 0 -> Z.land (Z.ldiff f m) x = Z.land f x.
Proof.
  intros E. apply Z.bits_inj. intros n. rewrite !Z.land_spec, Z.ldiff_spec. pose proof (f_equal (fun z => Z.testbit z n) E) as En. cbn beta in En. rewrite Z.land_spec, Z.bits_0 in En. by destruct (Z.testbit f n), (Z.testbit m n), (Z.testbit x n).
Qed.
Lemma flag_added (f m x : Z) : Z.land m x = 0 -> Z.land (Z.lor f m) x = Z.land f x.
Proof. intros E. by rewrite Z.land_lor_distr_l, E, Z.lor_0_r. Qed.

(** The cursor is on a page of the tree, with an index. *)
Record on_node (c : Cursor) (t : tree) (fs : list frame) (i : Z) : Prop := {
  on_page : pPage c = mem (root_of t); on_ix : cix c = i; on_stack : parents c = stack_of fs; on_held : held c = true; on_int : curIntKey c = true }.

(** Forgetting the entry. *)
Definition fresh (c : Cursor) : Cursor := clear_flags (forget_info c) (Z.lor BTCF_ValidNKey BTCF_ValidOvfl).
Lemma fresh_ok c : clean (fresh c) /\ kept c (fresh c) /\ pPage (fresh c) = pPage c /\ cix (fresh c) = cix c /\ parents (fresh c) = parents c /\ held (fresh c) = held c /\ aOverflow (cur (fresh c)) = aOverflow (cur c).
Proof.
  unfold clean, has_flag, flags, fresh, clear_flags, forget_info, set_cur, set_nKey. cbn. split_and!; try done; try (by apply flag_cleared).
  split; try done; unfold has_flag, flags; cbn; by rewrite flag_kept.
Qed.
Lemma on_fresh c t fs i : on_node c t fs i -> on_node (fresh c) t fs i.
Proof. intros [H1 H2 H3 H4 H5]. by split. Qed.

(** Other pages, or another index. *)
Lemma at_page_ok c h l p i : kept c (at_page c h l p i) /\ (clean c -> clean (at_page c h l p i)) /\ pPage (at_page c h l p i) = p /\ cix (at_page c h l p i) = i.
Proof. by split_and!; [split| |..]. Qed.
Lemma on_set_ix c t fs i j : on_node c t fs i -> on_node (set_ix c j) t fs j.
Proof. intros [H1 H2 H3 H4 H5]. by split. Qed.
Lemma set_ix_ok c j : kept c (set_ix c j) /\ (clean c -> clean (set_ix c j)).
Proof. split; [apply at_page_ok|apply at_page_ok]. Qed.
Lemma set_ix_tidy ok c j : tidy ok c -> tidy ok (set_ix c j).
Proof. done. Qed.
Lemma set_state_ok c s : (clean c -> clean (set_state c s)) /\ has_flag (set_state c s) BTCF_AtLast = has_flag c BTCF_AtLast.
Proof. done. Qed.

Section moves.
Context (root : tree).
Hypothesis Hr : shaped true root.
Hypothesis Hd : (depth root < Z.to_nat BTCURSOR_MAX_DEPTH)%nat.

Lemma iPage_frames c t fs i : on_node c t fs i -> iPage c = Z.of_nat (length fs).
Proof. intros [H1 H2 H3 H4 H5]. unfold iPage. rewrite H4, H3. unfold stack_of, zlen. by rewrite length_map. Qed.

(** A page below the root has cells. *)
Lemma below_root t fs : focus root t fs -> fs <> [] -> page_ok (root_of t) /\ intKey (ptype (mem (root_of t))) = true /\ 1 <= nCell (mem (root_of t)).
Proof.
  intros Hft Hne. pose proof (focus_shaped _ _ _ Hr Hft) as Hs. rewrite bool_decide_eq_false_2 in Hs by done. pose proof (shaped_rows _ Hs). destruct t as [q rows|q kids' seps'].
  - destruct (leaf_facts _ _ _ _ _ Hr Hft eq_refl) as (L1 & L2 & L3 & L4 & L5 & L6 & _). cbn [root_of]. rewrite L6. destruct rows; [done|]. rewrite zlen_cons. pose proof (zlen_nonneg rows). split_and!; [done|done|lia].
  - destruct (node_facts _ _ _ _ _ _ Hr Hft eq_refl) as (L1 & L2 & L3 & L4 & L5 & L6 & _). destruct (shaped_node_inv _ _ _ _ Hs) as (_ & _ & _ & [[? _]|Hnn] & _); [done|]. cbn [root_of]. rewrite L6. destruct seps'; [done|]. rewrite zlen_cons. pose proof (zlen_nonneg seps'). split_and!; [done|done|lia].
Qed.

(** Down to a child. *)
Lemma moveToChild_ok c p kids seps fs j t : focus root (Node p kids seps) fs -> on_node c (Node p kids seps) fs (Z.of_nat j) -> kids !! j = Some t ->
  reads db (moveToChild cellSizeCk c (root_of t)) (fun c' => on_node c' t ((p, kids, seps, j) :: fs) 0 /\ kept c c' /\ clean c').
Proof.
  intros Hf Hon Hj. assert (Hft : focus root t ((p, kids, seps, j) :: fs)) by by econstructor. pose proof (focus_depth _ _ _ Hft) as Hdep. cbn [length] in Hdep. unfold moveToChild. rewrite (iPage_frames _ _ _ _ Hon).
  replace (BTCURSOR_MAX_DEPTH - 1 <=? Z.of_nat (length fs)) with false by (unfold BTCURSOR_MAX_DEPTH in *; lia). fold (fresh c). destruct (fresh_ok c) as (F1 & F2 & F3 & F4 & F5 & _). destruct Hon as [O1 O2 O3 O4 O5].
  pose proof (below_root _ _ Hft ltac:(done)) as Hpg.
  destruct Hpg as (G1 & G2 & G3). eapply reads_bind; [by apply getAndInitPage_ok|]. intros m ->. replace (nCell _ <? 1) with false by lia. rewrite G2, (kp_int _ _ F2), O5. cbn [orb negb eqb].
  apply reads_ret. destruct (at_page_ok (fresh c) true ((pPage (fresh c), cix (fresh c)) :: parents (fresh c)) (mem (root_of t)) 0) as (A1 & A2 & A3 & A4). split; [|split; [by etrans|by apply A2]]. split; try done.
  cbn [parents at_page stack_of map]. by rewrite F3, F4, F5, O1, O2, O3.
Qed.

(** The first entry under a page. *)
Lemma leftmost_ok fuel : forall c t fs, focus root t fs -> 1 <= nCell (mem (root_of t)) -> on_node c t fs 0 -> clean c -> (depth t <= fuel)%nat ->
  reads db (leftmost_loop cellSizeCk fuel c) (fun c' => exists p rows fs', focus root (Leaf p rows) fs' /\ on_node c' (Leaf p rows) fs' 0 /\ before fs' = before fs /\ (fs <> [] -> fs' <> []) /\ kept c c' /\ clean c').
Proof.
  induction fuel as [|fuel IH]; intros c t fs Hf Hn1 Hon Hc Hfu; destruct t as [p rows|p kids seps]; try (cbn in Hfu; lia); cbn [leftmost_loop]; rewrite (on_page _ _ _ _ Hon); cbn [root_of] in *.
  1,2: destruct (leaf_facts _ _ _ _ _ Hr Hf eq_refl) as (_ & -> & _); apply reads_ret; by exists p, rows, fs.
  destruct (node_facts _ _ _ _ _ _ Hr Hf eq_refl) as (_ & -> & _ & _ & _ & Hn & Hlen). destruct (lookup_lt_is_Some_2 kids 0 ltac:(lia)) as [t Hj]. assert (Hft : focus root t ((p, kids, seps, 0%nat) :: fs)) by by econstructor.
  replace (left_child (mem p) (cix c)) with (root_of t). 2: { rewrite <- (child_ptr_ok root p kids seps fs 0 t Hr Hf Hj), (on_ix _ _ _ _ Hon). unfold child_ptr. destruct (Z.leb_spec (nCell (mem p)) (Z.of_nat 0)); [|done]. clear -H Hn1. lia. }
  eapply reads_bind; [by apply (moveToChild_ok c p kids seps fs 0)|]. intros c1 (H1 & H2 & H3). pose proof (depth_kid p kids seps 0 t Hj). destruct (below_root t _ Hft ltac:(done)) as (_ & _ & Hc1). eapply reads_weaken; [apply (IH c1 t _ Hft Hc1 H1 H3); lia|].
  intros c' (q & rows & fs' & G1 & G2 & G3 & G6 & G4 & G5). exists q, rows, fs'. split_and!; try done; [|intros _; by apply G6|by etrans]. rewrite G3. cbn [before take]. by rewrite app_nil_r.
Qed.

(** The last entry under a page. *)
Lemma rightmost_ok fuel : forall c t fs, focus root t fs -> (exists i, on_node c t fs i) -> clean c -> (depth t <= fuel)%nat ->
  reads db (rightmost_loop cellSizeCk fuel c) (fun c' => exists p rows fs', focus root (Leaf p rows) fs' /\ on_node c' (Leaf p rows) fs' (u16 (zlen rows - 1)) /\ after fs' = after fs /\ (fs <> [] -> fs' <> []) /\ kept c c' /\ clean c').
Proof.
  induction fuel as [|fuel IH]; intros c t fs Hf [i Hon] Hc Hfu; destruct t as [p rows|p kids seps]; try (cbn in Hfu; lia); cbn [rightmost_loop]; rewrite (on_page _ _ _ _ Hon); cbn [root_of] in *.
  1,2: destruct (leaf_facts _ _ _ _ _ Hr Hf eq_refl) as (_ & -> & _ & _ & _ & Hn & _); apply reads_ret; exists p, rows, fs; rewrite Hn; split_and!; [done|by eapply on_set_ix|done|done|apply set_ix_ok|by apply set_ix_ok].
  destruct (node_facts _ _ _ _ _ _ Hr Hf eq_refl) as (_ & -> & _ & _ & _ & Hn & Hlen). destruct (lookup_lt_is_Some_2 kids (length seps) ltac:(lia)) as [t Hj]. assert (Hft : focus root t ((p, kids, seps, length seps) :: fs)) by by econstructor.
  assert (Hn' : nCell (mem p) = Z.of_nat (length seps)) by exact Hn. replace (right_child (mem p)) with (root_of t). 2: { rewrite <- (child_ptr_ok root p kids seps fs _ t Hr Hf Hj). unfold child_ptr. by replace (nCell (mem p) <=? _) with true by lia. }
  destruct (set_ix_ok c (nCell (mem p))) as [S1 S2]. eapply reads_bind; [apply (moveToChild_ok _ p kids seps fs (length seps)); [done|rewrite <- Hn'; by eapply on_set_ix|done]|]. intros c1 (H1 & H2 & H3). pose proof (depth_kid p kids seps _ t Hj). eapply reads_weaken; [apply (IH c1 t _ Hft ltac:(eauto) H3); lia|].
  intros c' (q & rows & fs' & G1 & G2 & G3 & G6 & G4 & G5). exists q, rows, fs'. split_and!; try done; [|intros _; by apply G6|by do 2 etrans]. rewrite G3. cbn [after]. rewrite drop_ge by lia. done.
Qed.

Hypothesis Hb : wf_bt (bt db).
Abbreviation L := (rows_of root).

(** The cursor is on the [i]th row of the table. *)
Definition at_row (c : Cursor) (i : nat) : Prop :=
  exists p rows fs k, focus root (Leaf p rows) fs /\ on_node c (Leaf p rows) fs (Z.of_nat k) /\ (k < length rows)%nat /\ i = (length (before fs) + k)%nat.
(** The cursor holds pages of the tree. *)
Definition in_tree (c : Cursor) : Prop := exists t fs i, focus root t fs /\ on_node c t fs i.

Lemma at_row_lt c i : at_row c i -> (i < length L)%nat.
Proof. intros (p & rows & fs & k & Hf & _ & Hk & ->). rewrite (focus_rows _ _ _ Hf), !length_app. cbn [rows_of]. lia. Qed.
Lemma at_row_in c i : at_row c i -> in_tree c.
Proof. intros (p & rows & fs & k & Hf & Ho & _). by exists (Leaf p rows), fs, (Z.of_nat k). Qed.

Lemma nCell_small t fs : focus root t fs -> 0 <= nCell (mem (root_of t)) < 2 ^ 15.
Proof.
  intros Hf. destruct (wf_bt_sizes _ Hb) as [B1 B2]. assert (Hm : MX_CELL (bt db) < 2 ^ 15) by (unfold MX_CELL; apply Z.div_lt_upper_bound; lia). destruct t as [p rows|p kids seps]; cbn [root_of].
  - destruct (leaf_facts _ _ _ _ _ Hr Hf eq_refl) as (G1 & _ & _ & _ & _ & G6 & _). destruct (mem_facts _ G1 Hb) as (_ & _ & _ & _ & _ & _ & M & _). pose proof (zlen_nonneg rows). lia.
  - destruct (node_facts _ _ _ _ _ _ Hr Hf eq_refl) as (G1 & _ & _ & _ & _ & G6 & _). destruct (mem_facts _ G1 Hb) as (_ & _ & _ & _ & _ & _ & M & _). pose proof (zlen_nonneg seps). lia.
Qed.
Lemma u16_small x : 0 <= x < 2 ^ 16 -> u16 x = x.
Proof. intros. by apply Z.mod_small. Qed.

Lemma moveToParent_ok c t p kids seps j fs i : on_node c t ((p, kids, seps, j) :: fs) i ->
  on_node (moveToParent c) (Node p kids seps) fs (Z.of_nat j) /\ kept c (moveToParent c) /\ clean (moveToParent c).
Proof.
  intros [H1 H2 H3 H4 H5]. unfold moveToParent. fold (fresh c). destruct (fresh_ok c) as (F1 & F2 & F3 & F4 & F5 & F6 & _). cbn zeta. rewrite F5, H3. cbn [stack_of map].
  destruct (at_page_ok (fresh c) true (stack_of fs) (mem p) (Z.of_nat j)) as (A1 & A2 & A3 & A4). split; [|split; [by etrans|by apply A2]]. by split.
Qed.

(** Up to the first page with a child further on. *)
Lemma up_next_ok fs : forall c t i, focus root t fs -> on_node c t fs i ->
  let '(more, c') := up_next (parents c) c in
  if more then exists p kids seps fs' j, focus root (Node p kids seps) fs' /\ on_node c' (Node p kids seps) fs' (Z.of_nat j) /\ (j < length seps)%nat /\
      before fs' ++ rows_in (take (S j) kids) = before fs ++ rows_of t /\ kept c c' /\ clean c'
  else after fs = [] /\ exists c1 i', c' = set_state c1 CURSOR_INVALID /\ on_node c1 root [] i' /\ kept c c1.
Proof.
  induction fs as [|[[[p kids] seps] j] fs IH]; intros c t i Hf Hon; rewrite (on_stack _ _ _ _ Hon); cbn [stack_of map up_next].
  - split; [done|]. exists c, i. inversion Hf; subst. done.
  - destruct (moveToParent_ok _ _ _ _ _ _ _ _ Hon) as (M1 & M2 & M3). inversion Hf as [|? ? ? ? ? ? Hfn Hj]; subst. destruct (node_facts _ _ _ _ _ _ Hr Hfn eq_refl) as (_ & _ & _ & _ & _ & Hn & Hlen).
    rewrite (on_page _ _ _ _ M1), (on_ix _ _ _ _ M1). cbn [root_of]. rewrite Hn. unfold zlen. pose proof (lookup_lt_Some _ _ _ Hj). destruct (Z.leb_spec (Z.of_nat (length seps)) (Z.of_nat j)) as [Hle|Hlt].
    + specialize (IH _ _ _ Hfn M1). rewrite (on_stack _ _ _ _ M1) in IH. fold (stack_of fs). destruct (up_next (stack_of fs) (moveToParent c)) as [more c'].
      assert (Elast : drop (S j) kids = []) by (apply drop_ge; lia). assert (Erows : rows_in kids = rows_in (take j kids) ++ rows_of t) by (rewrite (rows_in_split _ _ _ Hj), Elast; cbn; by rewrite app_nil_r). destruct more.
      * destruct IH as (q & kids' & seps' & fs' & j' & G1 & G2 & G3 & G4 & G5 & G6). exists q, kids', seps', fs', j'. split_and!; try done; [|by etrans]. rewrite G4. cbn [before rows_of]. fold (rows_in kids). by rewrite Erows, app_assoc.
      * destruct IH as (G1 & c1 & i' & G2 & G3 & G4). split; [cbn [after]; by rewrite Elast, G1|]. exists c1, i'. split_and!; try done. by etrans.
    + exists p, kids, seps, fs, j. split_and!; try done; [lia|]. cbn [before]. by rewrite (rows_in_next _ _ _ Hj), app_assoc.
Qed.

(** Down to the first or the last entry under a child. *)
Lemma leftmost_child c p kids seps fs j : focus root (Node p kids seps) fs -> on_node c (Node p kids seps) fs (Z.of_nat j) -> (j < length seps)%nat ->
  reads db (moveToLeftmost cellSizeCk c) (fun c' => at_row c' (length (before fs ++ rows_in (take j kids))) /\ kept c c' /\ clean c').
Proof.
  intros Hf Hon Hlt. pose proof (focus_depth _ _ _ Hf) as Hdep. destruct (node_facts _ _ _ _ _ _ Hr Hf eq_refl) as (_ & Hnl & _ & _ & _ & Hn & Hlen). destruct (lookup_lt_is_Some_2 kids j ltac:(lia)) as [t Hj].
  assert (Hft : focus root t ((p, kids, seps, j) :: fs)) by by econstructor. assert (Hd' : (depth root < 20)%nat) by exact Hd. change (moveToLeftmost cellSizeCk c) with (leftmost_loop cellSizeCk (S 19) c). set (fuel := 19%nat) in *. assert (Ef : fuel = 19%nat) by done. clearbody fuel. cbn [leftmost_loop]. rewrite (on_page _ _ _ _ Hon). cbn [root_of]. rewrite Hnl.
  replace (left_child (mem p) (cix c)) with (root_of t). 2: { rewrite <- (child_ptr_ok root p kids seps fs j t Hr Hf Hj), (on_ix _ _ _ _ Hon). unfold child_ptr. rewrite Hn. unfold zlen. destruct (Z.leb_spec (Z.of_nat (length seps)) (Z.of_nat j)); [lia|done]. }
  eapply reads_bind; [by apply (moveToChild_ok c p kids seps fs j)|]. intros c1 (H1 & H2 & H3). pose proof (depth_kid p kids seps j t Hj). destruct (below_root t _ Hft ltac:(done)) as (_ & _ & Hc1). eapply reads_weaken; [apply (leftmost_ok fuel c1 t _ Hft Hc1 H1 H3); lia|].
  intros c' (q & rows & fs' & G1 & G2 & G3 & G6 & G4 & G5). split; [|split; [by etrans|done]]. exists q, rows, fs', 0%nat. split_and!; try done.
  - pose proof (focus_shaped _ _ _ Hr G1) as Hs. rewrite bool_decide_eq_false_2 in Hs by (by apply G6). destruct (shaped_leaf_inv _ _ _ Hs) as (_ & _ & _ & [?|?] & _); [done|]. destruct rows; [done|cbn; lia].
  - rewrite G3. cbn [before]. lia.
Qed.

Lemma rightmost_child c p kids seps fs j t : focus root (Node p kids seps) fs -> kids !! j = Some t -> on_node c t ((p, kids, seps, j) :: fs) 0 -> clean c ->
  reads db (moveToRightmost cellSizeCk c) (fun c' => exists i, at_row c' i /\ S i = length (before fs ++ rows_in (take (S j) kids)) /\ kept c c' /\ clean c').
Proof.
  intros Hf Hj Hon Hc. assert (Hft : focus root t ((p, kids, seps, j) :: fs)) by by econstructor. pose proof (focus_depth _ _ _ Hft) as Hdep. unfold moveToRightmost. eapply reads_weaken; [apply (rightmost_ok _ c t _ Hft ltac:(eauto) Hc); lia|].
  intros c' (q & rows & fs' & G1 & G2 & G3 & G6 & G4 & G5). pose proof (focus_shaped _ _ _ Hr G1) as Hs. rewrite bool_decide_eq_false_2 in Hs by (by apply G6). destruct (shaped_leaf_inv _ _ _ Hs) as (_ & _ & Hn & [?|Hne] & _); [done|].
  assert (Hl : (0 < length rows)%nat) by (destruct rows; [done|cbn; lia]). pose proof (nCell_small _ _ G1) as Hsm. cbn [root_of] in Hsm. rewrite Hn in Hsm. unfold zlen in *. rewrite u16_small in G2 by lia.
  exists (length (before fs') + (length rows - 1))%nat. split; [|split; [|done]]. { exists q, rows, fs', (length rows - 1)%nat. split_and!; try done; [|lia]. by replace (Z.of_nat (length rows - 1)) with (Z.of_nat (length rows) - 1) by lia. }
  pose proof (focus_rows _ _ _ G1) as E1. rewrite (focus_rows _ _ _ Hf), G3 in E1. cbn [rows_of after] in E1. fold (rows_in kids) in E1. rewrite (rows_in_split kids j t Hj) in E1. apply (f_equal length) in E1. rewrite (rows_in_next kids j t Hj). rewrite !length_app in *. lia.
Qed.

(** ** The next and the previous entry *)

Context (index_moveto : Cursor -> list Z -> btm (Z * Cursor)).

Lemma restore_none c : eState c <> CURSOR_REQUIRESEEK -> eState c <> CURSOR_FAULT -> restoreCursorPosition cellSizeCk index_moveto c = mret c.
Proof. intros H1 H2. unfold restoreCursorPosition. by rewrite !bool_decide_eq_false_2. Qed.
Lemma kept_valid c : eState c = CURSOR_VALID -> set_state c CURSOR_VALID = c.
Proof. destruct c. cbn. by intros ->. Qed.
Lemma kept_state c c' s : kept c c' -> kept (set_state c s) (set_state c' s).
Proof. intros []. by split. Qed.

(** From a page above: to the first entry under the next child. *)
Lemma next_interior fuel c p kids seps fs j : focus root (Node p kids seps) fs -> on_node c (Node p kids seps) fs (Z.of_nat j) -> (j < length seps)%nat -> eState c = CURSOR_VALID ->
  reads db (next_fuel cellSizeCk index_moveto (S (S fuel)) c) (fun r => r.1 = SQLITE_OK /\ at_row r.2 (length (before fs ++ rows_in (take (S j) kids))) /\ kept c r.2 /\ clean r.2).
Proof.
  intros Hf Hon Hlt Hst. destruct (fresh_ok c) as (F1 & F2 & _). pose proof (on_fresh _ _ _ _ Hon) as Hon1. destruct (node_facts _ _ _ _ _ _ Hr Hf eq_refl) as (Hp & Hnl & _ & _ & _ & Hn & Hlen). pose proof (nCell_small _ _ Hf) as Hsm. cbn [root_of] in Hsm. rewrite Hn in Hsm. unfold zlen in *.
  cbn [next_fuel]. cbv zeta. fold (fresh c). set (c1 := fresh c) in *. assert (Hst1 : eState c1 = CURSOR_VALID) by exact Hst. rewrite Hst1, (on_page _ _ _ _ Hon1), (on_ix _ _ _ _ Hon1). cbn [root_of bool_decide decide_rel negb]. rewrite (bool_decide_eq_true_2 (CURSOR_VALID = CURSOR_VALID)) by done. cbn [negb].
  rewrite u16_small by lia. rewrite Hn, Hnl. assert (Esuc : Z.of_nat j + 1 = Z.of_nat (S j)) by lia. rewrite Esuc. destruct (Z.leb_spec (Z.of_nat (length seps)) (Z.of_nat (S j))) as [Hle|Hlt'].
  - unfold btreeNext. rewrite restore_none by (rewrite Hst1; done). change (mret c1 ≫= ?k) with (k c1). unfold next_entry. rewrite Hst1, !(bool_decide_eq_false_2 (CURSOR_VALID = _)) by done. cbn [andb]. rewrite (kept_valid c1) by done. cbv zeta.
    change (pPage (set_ix c1 (u16 (cix c1 + 1)))) with (pPage c1). change (cix (set_ix c1 (u16 (cix c1 + 1)))) with (u16 (cix c1 + 1)). rewrite (on_page _ _ _ _ Hon1), (on_ix _ _ _ _ Hon1). cbn [root_of]. destruct (mem_facts _ Hp Hb) as (-> & _). cbn [negb].
    rewrite u16_small, Hn, Hnl, Esuc by lia. rewrite (proj2 (Z.leb_le _ _) Hle). cbn [negb]. destruct (lookup_lt_is_Some_2 kids (S j) ltac:(lia)) as [t Hj]. assert (Hft : focus root t ((p, kids, seps, S j) :: fs)) by by econstructor.
    replace (right_child (mem p)) with (root_of t). 2: { rewrite <- (child_ptr_ok root p kids seps fs (S j) t Hr Hf Hj). unfold child_ptr. rewrite Hn. unfold zlen. by rewrite (proj2 (Z.leb_le _ _) Hle). }
    eapply reads_bind; [apply (moveToChild_ok _ p kids seps fs (S j)); [done|by eapply on_set_ix|done]|]. intros c2 (H1 & H2 & H3). destruct (below_root t _ Hft ltac:(done)) as (_ & _ & Hc1). pose proof (focus_depth _ _ _ Hft) as Hdep. cbn [length] in Hdep.
    eapply reads_bind; [apply (leftmost_ok _ c2 t _ Hft Hc1 H1 H3); lia|]. intros c3 (q & rows & fs' & G1 & G2 & G3 & G6 & G4 & G5). apply reads_ret. cbn [fst snd]. split; [done|]. split; [|split; [|done]].
    + exists q, rows, fs', 0%nat. split_and!; try done; [|rewrite G3; cbn [before]; lia]. pose proof (focus_shaped _ _ _ Hr G1) as Hs. rewrite bool_decide_eq_false_2 in Hs by (by apply G6). destruct (shaped_leaf_inv _ _ _ Hs) as (_ & _ & _ & [?|?] & _); [done|]. destruct rows; [done|cbn; lia].
    + etrans; [exact F2|]. etrans; [|exact G4]. etrans; [|exact H2]. apply set_ix_ok.
  - cbv zeta. eapply reads_bind; [apply (leftmost_child _ p kids seps fs (S j)); [done|by eapply on_set_ix|lia]|]. intros c2 (H1 & H2 & H3). apply reads_ret. cbn [fst snd]. split; [done|]. split; [done|]. split; [|done]. etrans; [exact F2|]. etrans; [|exact H2]. apply set_ix_ok.
Qed.

(** The cursor is on another row, or past the last. *)
Definition went (ok : Z -> Prop) (c : Cursor) (o : option nat) (r : Z * Cursor) : Prop :=
  match o with
  | Some j => r.1 = SQLITE_OK /\ at_row r.2 j /\ tidy ok r.2 /\ kept (set_state c CURSOR_VALID) r.2
  | None => r.1 = SQLITE_DONE /\ in_tree r.2 /\ kept (set_state c CURSOR_INVALID) r.2
  end.
Definition no_key (k : Z) : Prop := False.
Definition next_row (i : nat) : option nat := if decide (S i < length L)%nat then Some (S i) else None.
Definition prev_row (i : nat) : option nat := match i with O => None | S i => Some i end.

Lemma went_kept ok c c' o r : kept c c' -> went ok c' o r -> went ok c o r.
Proof. intros K. destruct o; [intros (W1 & W2 & W3 & W4)|intros (W1 & W2 & W4)]; (split_and!; try done); (etrans; [|exact W4]); by apply kept_state. Qed.

Lemma next_entry_row fuel ok c i : at_row c i -> tidy ok c -> eState c = CURSOR_VALID \/ eState c = CURSOR_SKIPNEXT /\ skipNext c <= 0 ->
  reads db (next_entry cellSizeCk (next_fuel cellSizeCk index_moveto (S (S fuel))) c) (went ok c (next_row i)).
Proof.
  intros (p & rows & fs & k & Hf & Hon & Hk & ->) Hc Hst. destruct (leaf_facts _ _ _ _ _ Hr Hf eq_refl) as (Hp & Hlf & _ & _ & _ & Hn & _). pose proof (nCell_small _ _ Hf) as Hsm. cbn [root_of] in Hsm. rewrite Hn in Hsm. unfold zlen in *. pose proof (focus_rows _ _ _ Hf) as EL. cbn [rows_of] in EL.
  unfold next_entry. rewrite (bool_decide_eq_false_2 (eState c = CURSOR_INVALID)) by (destruct Hst as [-> |[-> _]]; done). replace (bool_decide (eState c = CURSOR_SKIPNEXT) && (0 <? skipNext c)) with false by (destruct Hst as [-> |[-> ?]]; [done|]; destruct (Z.ltb_spec 0 (skipNext c)); [lia|by rewrite andb_false_r]).
  set (c1 := set_state c CURSOR_VALID). assert (Hon1 : on_node c1 (Leaf p rows) fs (Z.of_nat k)) by (destruct Hon; by split). assert (Hc1 : tidy ok c1) by exact Hc. cbv zeta. set (c2 := set_ix c1 (u16 (cix c + 1))).
  assert (Hon2 : on_node c2 (Leaf p rows) fs (Z.of_nat (S k))) by (unfold c2; rewrite (on_ix _ _ _ _ Hon), u16_small by lia; replace (Z.of_nat k + 1) with (Z.of_nat (S k)) by lia; by eapply on_set_ix). destruct (set_ix_ok c1 (u16 (cix c + 1))) as [K1 _]. pose proof (set_ix_tidy ok c1 (u16 (cix c + 1)) Hc1) as K2. fold c2 in K1, K2.
  rewrite (on_page _ _ _ _ Hon2), (on_ix _ _ _ _ Hon2). cbn [root_of]. destruct (mem_facts _ Hp Hb) as (-> & _). rewrite Hn, Hlf. cbn [negb]. unfold next_row. rewrite EL, !length_app.
  destruct (Z.leb_spec (Z.of_nat (length rows)) (Z.of_nat (S k))) as [Hle|Hlt].
  - pose proof (up_next_ok fs c2 _ _ Hf Hon2) as Hup. destruct (up_next (parents c2) c2) as [more c3]. destruct more; cbn [negb].
    + destruct Hup as (q & kids & seps & fs' & j & G1 & G2 & G3 & G4 & G5 & G6). destruct (node_facts _ _ _ _ _ _ Hr G1 eq_refl) as (_ & _ & Hik & _ & _ & _ & Hlen). rewrite (on_page _ _ _ _ G2). cbn [root_of]. rewrite Hik.
      assert (Hst3 : eState c3 = CURSOR_VALID) by (by rewrite (kp_state _ _ G5)). eapply reads_weaken; [by apply (next_interior fuel c3 q kids seps fs' j)|]. intros [rc c4] (N1 & N2 & N3 & N4). cbn [fst snd] in *.
      apply (f_equal length) in G4. rewrite !length_app in *. cbn [rows_of] in G4. destruct (decide _) as [_|Hno].
      * split; [done|]. split; [by replace (S (length (before fs) + k)) with (length (before fs') + length (rows_in (take (S j) kids)))%nat by lia|]. split; [by apply clean_tidy|]. etrans; [exact K1|]. by etrans.
      * exfalso. pose proof (at_row_lt _ _ N2) as Hlt2. rewrite EL, !length_app in Hlt2. lia.
    + destruct Hup as (G1 & c4 & i' & -> & G3 & G4). rewrite decide_False by (rewrite G1; cbn; lia). apply reads_ret. split; [done|]. split; [|cbn [snd]; etrans; [exact (kept_state c1 c2 CURSOR_INVALID K1)|exact (kept_state c2 c4 CURSOR_INVALID G4)]].
      exists root, [], i'. split; [constructor|]. destruct G3. by split.
  - rewrite decide_True by lia. apply reads_ret. split; [done|]. split; [|split; [exact K2|exact K1]]. exists p, rows, fs, (S k). split_and!; try done; lia.
Qed.

Lemma next_ok c i : at_row c i -> eState c = CURSOR_VALID -> reads db (sqlite3BtreeNext cellSizeCk index_moveto c) (went no_key c (next_row i)).
Proof.
  intros Hrow Hst. destruct (fresh_ok c) as (F1 & F2 & F3 & F4 & F5 & F6 & _). assert (Hrow1 : at_row (fresh c) i) by (destruct Hrow as (p & rows & fs & k & Hf & Hon & ? & ?); exists p, rows, fs, k; split_and!; try done; by apply on_fresh).
  unfold sqlite3BtreeNext. change 3%nat with (S 2). cbn [next_fuel]. cbv zeta. fold (fresh c). set (c1 := fresh c) in *. assert (Hst1 : eState c1 = CURSOR_VALID) by exact Hst. rewrite (bool_decide_eq_true_2 (eState c1 = CURSOR_VALID)) by done. cbn [negb].
  assert (Hw : forall o r, went no_key c1 o r -> went no_key c o r) by (intros o r; by apply went_kept).
  destruct (_ <=? _) eqn:E.
  - unfold btreeNext. rewrite restore_none by (rewrite Hst1; done). change (mret c1 ≫= ?k) with (k c1). eapply reads_weaken; [apply (next_entry_row 0 no_key c1 i Hrow1); [by apply clean_tidy|by left]|apply Hw].
  - destruct Hrow1 as (p & rows & fs & k & Hf & Hon & Hk & ->). destruct (leaf_facts _ _ _ _ _ Hr Hf eq_refl) as (Hp & Hlf & _ & _ & _ & Hn & _). pose proof (nCell_small _ _ Hf) as Hsm. cbn [root_of] in Hsm. rewrite (on_page _ _ _ _ Hon), (on_ix _ _ _ _ Hon) in *. cbn [root_of] in *. rewrite Hn in *. unfold zlen in *. rewrite Hlf. rewrite u16_small in * by lia.
    apply reads_ret, Hw. pose proof (focus_rows _ _ _ Hf) as EL. cbn [rows_of] in EL. unfold next_row. rewrite EL, !length_app. apply Z.leb_gt in E. rewrite decide_True by lia. destruct (set_ix_ok c1 (Z.of_nat k + 1)) as [K1 K2]. split; [done|]. split; [|split; [by apply clean_tidy, K2|by rewrite (kept_valid c1)]].
    exists p, rows, fs, (S k). split_and!; try done; [|lia..]. replace (Z.of_nat (S k)) with (Z.of_nat k + 1) by lia. by eapply on_set_ix.
Qed.

(** Up to the first page with a child before. *)
Lemma up_previous_ok fs : forall c t i, focus root t fs -> on_node c t fs i ->
  let '(more, c') := up_previous (parents c) c in
  if more then i <> 0 /\ c' = c \/ i = 0 /\ exists p kids seps fs' j, focus root (Node p kids seps) fs' /\ on_node c' (Node p kids seps) fs' (Z.of_nat (S j)) /\ (S j < length kids)%nat /\
      before fs' ++ rows_in (take (S j) kids) = before fs /\ kept c c' /\ clean c'
  else i = 0 /\ before fs = [] /\ exists c1, c' = set_state c1 CURSOR_INVALID /\ on_node c1 root [] 0 /\ kept c c1.
Proof.
  induction fs as [|[[[p kids] seps] j] fs IH]; intros c t i Hf Hon; rewrite (on_stack _ _ _ _ Hon); cbn [stack_of map up_previous]; rewrite (on_ix _ _ _ _ Hon); (destruct (Z.eqb_spec i 0) as [->|Hne]; cbn [negb]; [|by left]).
  - split; [done|]. split; [done|]. exists c. inversion Hf; subst. done.
  - destruct (moveToParent_ok _ _ _ _ _ _ _ _ Hon) as (M1 & M2 & M3). inversion Hf as [|? ? ? ? ? ? Hfn Hj]; subst. pose proof (lookup_lt_Some _ _ _ Hj) as Hlt. specialize (IH _ _ _ Hfn M1). rewrite (on_stack _ _ _ _ M1) in IH. fold (stack_of fs). destruct j as [|j].
    + destruct (up_previous (stack_of fs) (moveToParent c)) as [more c']. cbn [before take]. change (rows_in []) with (@nil (Z * list Z)). rewrite app_nil_r. destruct more.
      * right. split; [done|]. cbv beta in IH. destruct IH as [[? _]|(_ & q & kids' & seps' & fs' & j' & G1 & G2 & G3 & G4 & G5 & G6)]; [done|]. exists q, kids', seps', fs', j'. split_and!; try done. by etrans.
      * destruct IH as (_ & G1 & c1 & G2 & G3 & G4). split; [done|]. split; [done|]. exists c1. split_and!; try done. by etrans.
    + clear IH. assert (E : up_previous (stack_of fs) (moveToParent c) = (true, moveToParent c)) by (destruct (stack_of fs); cbn [up_previous]; by rewrite (on_ix _ _ _ _ M1)).
      rewrite E. right. split; [done|]. by exists p, kids, seps, fs, j.
Qed.

Lemma set_ix_node c t fs i j : on_node c t fs i -> 0 <= j < 2 ^ 16 -> on_node (set_ix c (u16 j)) t fs j.
Proof. intros H Hj. rewrite u16_small by done. by eapply on_set_ix. Qed.

(** From a page above: to the last entry under the child. *)
Lemma previous_interior fuel c p kids seps fs j : focus root (Node p kids seps) fs -> on_node c (Node p kids seps) fs (Z.of_nat j) -> (j < length seps)%nat -> eState c = CURSOR_VALID ->
  reads db (previous_fuel cellSizeCk index_moveto (S fuel) c) (fun r => r.1 = SQLITE_OK /\ exists i, at_row r.2 i /\ S i = length (before fs ++ rows_in (take (S j) kids)) /\ clean r.2 /\ kept (clear_flags c BTCF_AtLast) r.2).
Proof.
  intros Hf Hon Hlt Hst. destruct (node_facts _ _ _ _ _ _ Hr Hf eq_refl) as (Hp & Hnl & _ & _ & _ & Hn & Hlen).
  cbn [previous_fuel]. cbv zeta. set (c1 := forget_info (clear_flags c _)). assert (Hon1 : on_node c1 (Node p kids seps) fs (Z.of_nat j)) by (destruct Hon; by split). assert (Hst1 : eState c1 = CURSOR_VALID) by exact Hst.
  rewrite (on_page _ _ _ _ Hon1). cbn [root_of]. rewrite Hnl. cbn [negb]. rewrite orb_true_r. unfold btreePrevious. rewrite restore_none by (rewrite Hst1; done). change (mret c1 ≫= ?k) with (k c1). unfold previous_entry.
  rewrite Hst1, !(bool_decide_eq_false_2 (CURSOR_VALID = _)) by done. cbn [andb]. rewrite (kept_valid c1) by done. cbv zeta. rewrite (on_page _ _ _ _ Hon1), (on_ix _ _ _ _ Hon1). cbn [root_of]. destruct (mem_facts _ Hp Hb) as (-> & _). rewrite Hnl. cbn [negb].
  destruct (lookup_lt_is_Some_2 kids j ltac:(lia)) as [t Hj]. replace (left_child (mem p) (Z.of_nat j)) with (root_of t). 2: { rewrite <- (child_ptr_ok root p kids seps fs j t Hr Hf Hj). unfold child_ptr. rewrite Hn. unfold zlen. destruct (Z.leb_spec (Z.of_nat (length seps)) (Z.of_nat j)); [lia|done]. }
  eapply reads_bind; [by apply (moveToChild_ok _ p kids seps fs j)|]. intros c2 (H1 & H2 & H3). eapply reads_bind; [by apply (rightmost_child c2 p kids seps fs j t)|]. intros c3 (i & G1 & G2 & G3 & G4). apply reads_ret. cbn [fst snd]. split; [done|]. exists i. split; [done|]. split; [done|]. split; [done|].
  etrans; [|exact G3]. etrans; [|exact H2]. split; try done; unfold c1, has_flag, flags; cbn; [by rewrite !flag_cleared|by rewrite !flag_kept].
Qed.

Definition back (c : Cursor) (o : option nat) (r : Z * Cursor) : Prop := went no_key (clear_flags c BTCF_AtLast) o r.

Lemma previous_entry_row fuel ok c i : at_row c i -> tidy ok c -> has_flag c BTCF_AtLast = false -> eState c = CURSOR_VALID \/ eState c = CURSOR_SKIPNEXT /\ 0 <= skipNext c ->
  reads db (previous_entry cellSizeCk (previous_fuel cellSizeCk index_moveto (S fuel)) c) (went ok c (prev_row i)).
Proof.
  intros (p & rows & fs & k & Hf & Hon & Hk & ->) Hc Hal Hst. destruct (leaf_facts _ _ _ _ _ Hr Hf eq_refl) as (Hp & Hlf & _ & _ & _ & Hn & _). pose proof (nCell_small _ _ Hf) as Hsm. cbn [root_of] in Hsm. rewrite Hn in Hsm. unfold zlen in *. pose proof (focus_rows _ _ _ Hf) as EL. cbn [rows_of] in EL.
  unfold previous_entry. rewrite (bool_decide_eq_false_2 (eState c = CURSOR_INVALID)) by (destruct Hst as [-> |[-> _]]; done). replace (bool_decide (eState c = CURSOR_SKIPNEXT) && (skipNext c <? 0)) with false by (destruct Hst as [-> |[-> ?]]; [done|]; destruct (Z.ltb_spec (skipNext c) 0); [lia|by rewrite andb_false_r]).
  set (c1 := set_state c CURSOR_VALID). assert (Hon1 : on_node c1 (Leaf p rows) fs (Z.of_nat k)) by (destruct Hon; by split). assert (Hc1 : tidy ok c1) by exact Hc. cbv zeta. rewrite (on_page _ _ _ _ Hon1). cbn [root_of]. destruct (mem_facts _ Hp Hb) as (-> & _). rewrite Hlf. cbn [negb].
  pose proof (up_previous_ok fs c1 _ _ Hf Hon1) as Hup. destruct (up_previous (parents c1) c1) as [more c2]. destruct more; cbn [negb].
  - destruct Hup as [[Hk0 ->]|(Hk0 & q & kids & seps & fs' & j & G1 & G2 & G3 & G4 & G5 & G6)].
    + rewrite (on_ix _ _ _ _ Hon1). change (pPage (set_ix c1 ?j)) with (pPage c1). rewrite (on_page _ _ _ _ Hon1). cbn [root_of]. rewrite Hlf, andb_false_r. destruct k as [|k]; [lia|]. replace (Z.of_nat (S k) - 1) with (Z.of_nat k) by lia. rewrite Nat.add_succ_r. cbn [prev_row].
      destruct (set_ix_ok c1 (u16 (Z.of_nat k))) as [K1 _]. apply reads_ret. split; [done|]. split; [|split; [by apply set_ix_tidy|exact K1]]. exists p, rows, fs, k. split_and!; try done; [|lia]. apply (set_ix_node _ _ _ (Z.of_nat (S k))); [done|lia].
    + assert (k = 0%nat) as -> by lia. destruct (node_facts _ _ _ _ _ _ Hr G1 eq_refl) as (_ & Hnl & Hik & _ & _ & Hn2 & Hlen). pose proof (nCell_small _ _ G1) as Hsm2. cbn [root_of] in Hsm2. rewrite Hn2 in Hsm2. unfold zlen in Hsm2.
      rewrite (on_ix _ _ _ _ G2). set (c3 := set_ix c2 _). assert (Hon3 : on_node c3 (Node q kids seps) fs' (Z.of_nat j)) by (unfold c3; replace (Z.of_nat (S j) - 1) with (Z.of_nat j) by lia; apply (set_ix_node _ _ _ (Z.of_nat (S j))); [done|lia]).
      rewrite (on_page _ _ _ _ Hon3). cbn [root_of]. rewrite Hik, Hnl. cbn [negb andb]. assert (Hst3 : eState c3 = CURSOR_VALID) by exact (kp_state _ _ G5). eapply reads_weaken; [apply (previous_interior fuel c3 q kids seps fs' j G1 Hon3 ltac:(lia) Hst3)|].
      intros [rc c4] (N1 & i & N2 & N3 & N4 & N5). cbn [fst snd] in *. rewrite G4 in N3. rewrite Nat.add_0_r, <- N3. cbn [prev_row]. split; [done|]. split; [done|]. split; [by apply clean_tidy|]. etrans; [exact G5|]. etrans; [|exact N5].
      destruct G5 as []. split; try done; unfold has_flag, flags in *; cbn; [|by rewrite flag_kept]. rewrite flag_cleared by done. rewrite kp_last0. symmetry. exact Hal.
  - destruct Hup as (Hk0 & Hbf & c3 & -> & G3 & G4). assert (k = 0%nat) as -> by lia. rewrite Hbf. cbn [length Nat.add prev_row]. apply reads_ret. split; [done|]. split; [|exact (kept_state c1 c3 CURSOR_INVALID G4)]. exists root, [], 0. split; [constructor|]. destruct G3. by split.
Qed.

Lemma previous_ok c i : at_row c i -> eState c = CURSOR_VALID -> reads db (sqlite3BtreePrevious cellSizeCk index_moveto c) (back c (prev_row i)).
Proof.
  intros Hrow Hst. unfold sqlite3BtreePrevious. change 3%nat with (S 2). cbn [previous_fuel]. cbv zeta. set (c1 := forget_info (clear_flags c _)). assert (Hst1 : eState c1 = CURSOR_VALID) by exact Hst. rewrite (bool_decide_eq_true_2 (eState c1 = CURSOR_VALID)) by done. cbn [negb orb].
  assert (Hc1 : clean c1) by (unfold clean, c1, has_flag, flags; cbn; split_and!; [done|by apply flag_cleared|by apply flag_cleared]). assert (Hal : has_flag c1 BTCF_AtLast = false) by (unfold c1, has_flag, flags; cbn; by apply flag_cleared).
  assert (K : kept (clear_flags c BTCF_AtLast) c1) by (split; try done; unfold c1, has_flag, flags; cbn; [by rewrite !flag_cleared|by rewrite !flag_kept]).
  assert (Hrow1 : at_row c1 i) by (destruct Hrow as (p & rows & fs & k & Hf & Hon & ? & ?); exists p, rows, fs, k; split_and!; try done; destruct Hon; by split).
  assert (Hw : forall o r, went no_key c1 o r -> back c o r) by (intros o r; by apply went_kept).
  destruct (_ || _) eqn:E.
  - unfold btreePrevious. rewrite restore_none by (rewrite Hst1; done). change (mret c1 ≫= ?k) with (k c1). eapply reads_weaken; [apply (previous_entry_row 1 no_key c1 i Hrow1); [by apply clean_tidy|done|by left]|apply Hw].
  - destruct Hrow1 as (p & rows & fs & k & Hf & Hon & Hk & ->). pose proof (nCell_small _ _ Hf) as Hsm. destruct (leaf_facts _ _ _ _ _ Hr Hf eq_refl) as (Hp & Hlf & _ & _ & _ & Hn & _). cbn [root_of] in Hsm. rewrite Hn in Hsm. unfold zlen in *. rewrite (on_ix _ _ _ _ Hon) in *. destruct k as [|k]; [done|].
    apply reads_ret, Hw. rewrite Nat.add_succ_r. cbn [prev_row]. destruct (set_ix_ok c1 (u16 (Z.of_nat (S k) - 1))) as [K1 K2]. split; [done|]. split; [|split; [by apply clean_tidy, K2|by rewrite (kept_valid c1)]]. exists p, rows, fs, k. split_and!; try done; [|lia]. replace (Z.of_nat (S k) - 1) with (Z.of_nat k) by lia. apply (set_ix_node _ _ _ (Z.of_nat (S k))); [done|lia].
Qed.

(** ** The root *)

(** A cursor on this table. *)
Record base (c : Cursor) : Prop := {
  bs_root : pgnoRoot c = root_of root; bs_info : hasKeyInfo c = false; bs_key : pKey c = None; bs_pin : has_flag c BTCF_Pinned = false; bs_fault : eState c <> CURSOR_FAULT }.
(** At the root of the tree, with entries below. *)
Definition at_start (c : Cursor) : Prop := exists t fs, focus root t fs /\ on_node c t fs 0 /\ before fs = [] /\ after fs = [] /\ 1 <= nCell (mem (root_of t)).

Record rooted (c : Cursor) (r : Z * Cursor) : Prop := {
  rt_end : (L <> [] /\ r.1 = SQLITE_OK /\ at_start r.2 /\ eState r.2 = CURSOR_VALID) \/ (L = [] /\ r.1 = SQLITE_EMPTY /\ in_tree r.2 /\ eState r.2 = CURSOR_INVALID);
  rt_base : base r.2;
  rt_clean : clean r.2;
  rt_last : has_flag r.2 BTCF_AtLast = false;
  rt_skip : skipNext r.2 = skipNext c;
  rt_saved : savedKey r.2 = savedKey c }.

Lemma tree_cases t : (exists p rows, t = Leaf p rows) \/ (exists p kids seps, t = Node p kids seps).
Proof. destruct t; [left|right]; eauto. Qed.
Lemma base_kept c c' : kept c c' -> base c -> base c'.
Proof. intros [] []. split; congruence. Qed.

Lemma stack_root t fs : focus root t fs -> match last (stack_of fs) with Some (p, _) => p = mem (root_of root) | None => t = root /\ fs = [] end.
Proof.
  induction 1 as [|p kids seps j t fs Hf IH Hj]; [done|]. cbn [stack_of map]. fold (stack_of fs). destruct fs as [|f fs].
  - inversion Hf; subst. done.
  - rewrite last_cons. destruct (last (stack_of (f :: fs))) as [[q i]|] eqn:E; [done|]. apply last_None in E. destruct f as [[[? ?] ?] ?]. done.
Qed.

Lemma skip_init_ok c i : base c -> on_node c root [] i -> reads db (skip_init cellSizeCk c) (rooted c).
Proof.
  intros Hbs Hon. unfold skip_init. cbv zeta. set (c1 := clear_flags (forget_info (set_ix c 0)) _). assert (Hon1 : on_node c1 root [] 0) by (destruct Hon; by split).
  assert (Hc1 : clean c1) by (unfold clean, c1, has_flag, flags; cbn; split_and!; [done|by apply flag_cleared|by apply flag_cleared]). assert (Hal : has_flag c1 BTCF_AtLast = false) by (unfold c1, has_flag, flags; cbn; by apply flag_cleared).
  assert (Hpin : has_flag c1 BTCF_Pinned = false) by (unfold c1, has_flag, flags; cbn; rewrite flag_kept by done; apply Hbs). assert (Hb1 : forall s, s <> CURSOR_FAULT -> base (set_state c1 s)) by (intros s Hs; destruct Hbs; by split).
  rewrite (on_page _ _ _ _ Hon). destruct (tree_cases root) as [(p & rows & Er)|(p & kids & seps & Er)].
  - pose proof Hr as Hs. rewrite Er in Hs. destruct (shaped_leaf_inv _ _ _ Hs) as (S1 & S2 & S3 & _ & S5). assert (Elf : is_leaf (mem (root_of root)) = true) by (unfold is_leaf; rewrite Er; cbn [root_of]; by rewrite S2). rewrite Elf. cbn [negb].
    assert (En : nCell (mem (root_of root)) = zlen L) by (rewrite Er; exact S3). destruct (0 <? nCell (mem (root_of root))) eqn:E0; apply reads_ret; (split; cbn [fst snd]; [|by apply Hb1|done..]).
    + left. split; [intros E; rewrite En, E in E0; done|]. split; [done|]. split; [|done]. exists root, []. split_and!; try done; [constructor|destruct Hon1; by split|lia].
    + right. pose proof (zlen_nonneg L). split; [apply nil_length_inv; unfold zlen in *; lia|]. split; [done|]. split; [|done]. exists root, [], 0. split; [constructor|destruct Hon1; by split].
  - pose proof Hr as Hs. rewrite Er in Hs. destruct (shaped_node_inv _ _ _ _ Hs) as (S1 & S2 & S3 & S4 & S5 & S6 & _ & _ & _ & Sk). assert (Elf : is_leaf (mem (root_of root)) = false) by (unfold is_leaf; rewrite Er; cbn [root_of]; by rewrite S2). rewrite Elf. cbn [negb].
    assert (HL : L <> []). { rewrite Er. cbn [rows_of]. fold (rows_in kids). destruct kids as [|t kids]; [done|]. apply Forall_cons in Sk as [Sk _]. intros E. apply (app_eq_nil (rows_of t)) in E as [E _]. by apply (shaped_rows _ Sk). }
    destruct (0 <? nCell (mem (root_of root))) eqn:E0.
    + apply reads_ret. split; cbn [fst snd]; [|by apply Hb1|done..]. left. split; [done|]. split; [done|]. split; [|done]. exists root, []. split_and!; try done; [constructor|destruct Hon1; by split|lia].
    + assert (En : nCell (mem (root_of root)) = zlen seps) by (rewrite Er; exact S3). pose proof (zlen_nonneg seps). assert (Eseps : seps = []) by (apply nil_length_inv; unfold zlen in *; lia). destruct S4 as [[_ ->]|?]; [|done].
      destruct (mem_facts _ S1 Hb) as (_ & Epg & _). rewrite Er. cbn [root_of]. rewrite Epg. change (negb (1 =? 1)) with false. cbv iota. rewrite Eseps in S5. destruct kids as [|t [|]]; [done| |done]. rewrite (S6 t eq_refl).
      assert (Hj : [t] !! 0%nat = Some t) by done. assert (Hfr : focus root (Node 1 [t] seps) []) by (rewrite <- Er; constructor). assert (Hft : focus root t [(1, [t], seps, 0%nat)]) by by econstructor.
      eapply reads_bind; [apply (moveToChild_ok (set_state c1 CURSOR_VALID) 1 [t] seps [] 0); [done|rewrite <- Er; destruct Hon1; by split|done]|]. intros c2 (H1 & H2 & H3). apply reads_ret. pose proof (base_kept _ _ H2 (Hb1 CURSOR_VALID ltac:(done))). destruct H2. split; cbn [fst snd]; try done; [|by rewrite kp_last0].
      left. split; [done|]. split; [done|]. split; [|done]. exists t, [(1, [t], seps, 0%nat)]. split_and!; try done. by apply (below_root t _ Hft).
Qed.

Lemma moveToRoot_ok c : base c -> (held c = true -> in_tree c) -> reads db (moveToRoot cellSizeCk c) (rooted c).
Proof.
  intros Hbs Hin. assert (Hpr : page_ok (root_of root) /\ intKey (ptype (mem (root_of root))) = true).
  { assert (Hf : focus root root []) by constructor. destruct (tree_cases root) as [(p & rows & Er)|(p & kids & seps & Er)]; [destruct (leaf_facts _ _ _ _ _ Hr Hf Er) as (G1 & _ & G2 & _)|destruct (node_facts _ _ _ _ _ _ Hr Hf Er) as (G1 & _ & G2 & _)]; by rewrite Er. }
  destruct Hpr as [Hp Hik]. assert (Hchk : forall c', base c' -> (exists i, on_node c' root [] i) -> reads db (check_root cellSizeCk c') (rooted c')).
  { intros c' Hbs' [i Hon]. unfold check_root. rewrite (on_page _ _ _ _ Hon), (bs_info _ Hbs'), Hik. destruct (mem_facts _ Hp Hb) as (-> & _). by eapply skip_init_ok. }
  unfold moveToRoot, iPage. destruct (held c) eqn:Eh.
  - pose proof (zlen_nonneg (parents c)). replace (0 <=? zlen (parents c)) with true by lia. destruct (Hin eq_refl) as (t & fs & i & Hf & Hon). pose proof (stack_root _ _ Hf) as Hsr. rewrite (on_stack _ _ _ _ Hon). destruct (last (stack_of fs)) as [[q j]|].
    + subst q. eapply reads_weaken; [apply (skip_init_ok (at_page c true [] (mem (root_of root)) (cix c)) (cix c)); [destruct Hbs; by split|destruct Hon; by split]|]. intros r []. by split.
    + destruct Hsr as [-> ->]. apply Hchk; eauto.
  - cbn [Z.leb]. change (0 <=? -1) with false. cbv iota. rewrite (bs_root _ Hbs). replace (root_of root =? 0) with false by (destruct Hp as [? _]; lia). rewrite bool_decide_eq_false_2 by apply Hbs.
    set (c1 := if bool_decide (eState c = CURSOR_REQUIRESEEK) then _ else c). assert (Hc1 : base c1 /\ pgnoRoot c1 = root_of root /\ skipNext c1 = skipNext c /\ savedKey c1 = savedKey c /\ parents c1 = parents c) by (unfold c1; destruct (bool_decide _); (split_and!; [destruct Hbs; split; done|exact (bs_root _ Hbs)|done|done|done])).
    destruct Hc1 as (B1 & B2 & B3 & B4 & B5). eapply reads_bind; [rewrite B2; by apply getAndInitPage_ok|]. intros m ->.
    eapply reads_weaken; [apply (Hchk (set_intKey (at_page c1 true [] (mem (root_of root)) (cix c)) (intKey (ptype (mem (root_of root))))))|].
    + destruct B1. by split.
    + exists (cix c). by split.
    + intros r []. split; try done; cbn in *; congruence.
Qed.

(** ** The entry under the cursor *)

Hypothesis Hav : autoVacuum (bt db) = false.
Hypothesis Hlim : limits_ok (bt db) (snd (decodeFlags (bt db) no_type 13)).

(** What the cursor may have parsed of its entry is right. *)
Definition on_entry (c : Cursor) (i : nat) : Prop := exists r off h pgs,
  L !! i = Some r /\ zlen r.2 < 2 ^ 31 /\ bytes_ok r.2 /\ ptype (pPage c) = snd (decodeFlags (bt db) no_type 13) /\ pgno (pPage c) <> 0 /\
  holds db (ptype (pPage c)) (pgno (pPage c)) off h r.1 r.2 pgs /\ on_cell (cur c) db (ptype (pPage c)) (pgno (pPage c)) off h r.1 r.2 pgs.
(** If the flag says so, the cursor knows the key of its entry. *)
Definition knows (c : Cursor) (k : Z) : Prop := has_flag c BTCF_ValidNKey = true -> cursor_nKey c = k.

Lemma row_lookup p rows fs k : focus root (Leaf p rows) fs -> (k < length rows)%nat -> L !! (length (before fs) + k)%nat = rows !! k.
Proof. intros Hf Hk. rewrite (focus_rows _ _ _ Hf), lookup_app_r by lia. cbn [rows_of]. rewrite lookup_app_l by lia. f_equal. lia. Qed.

Lemma tidy_entry ok c i : at_row c i -> tidy ok c -> on_entry c i.
Proof.
  intros (p & rows & fs & k & Hf & Hon & Hk & ->) (Hi & Hov & _). destruct (leaf_facts _ _ _ _ _ Hr Hf eq_refl) as (Hp & _ & _ & _ & _ & Hn & Hrows). pose proof (focus_shaped _ _ _ Hr Hf) as Hs. destruct (shaped_leaf_inv _ _ _ Hs) as (_ & Hty & _).
  destruct (lookup_lt_is_Some_2 rows k Hk) as [r Hrk]. destruct (Hrows k r Hrk) as (R1 & R2 & h & pgs & R3). destruct (mem_facts _ Hp Hb) as (M1 & M2 & M3 & M4 & M5 & M6 & M7 & _). pose proof (on_page _ _ _ _ Hon) as Epg. cbn [root_of] in Epg.
  exists r, (cellOffsetOf (mem p) (Z.of_nat k)), h, pgs. rewrite (row_lookup p rows fs k Hf Hk), Epg, M2. split_and!; try done; [destruct Hp; lia|]. split.
    + change (curPage (cur c)) with (pPage c). change (ix (cur c)) with (cix c). rewrite Epg, (on_ix _ _ _ _ Hon), M2, M3, Hn. unfold zlen. split_and!; try done. lia.
    + right. split; [done|]. change (curPage (cur c)) with (pPage c). change (ix (cur c)) with (cix c). rewrite Epg, (on_ix _ _ _ _ Hon), <- M4. by destruct (mem p).
    + intros Hv. unfold has_flag, flags in Hov. congruence.
Qed.

Lemma kept_flags c c' m : flags c' = Z.lor (flags c) m -> Z.land m BTCF_AtLast = 0 -> Z.land m BTCF_Pinned = 0 -> eState c' = eState c -> skipNext c' = skipNext c -> pKey c' = pKey c -> savedKey c' = savedKey c -> pgnoRoot c' = pgnoRoot c -> curIntKey c' = curIntKey c -> hasKeyInfo c' = hasKeyInfo c -> kept c c'.
Proof. intros E H1 H2. intros. split; try done; unfold has_flag; rewrite E, flag_added; done. Qed.

Lemma same_place c c' i : at_row c i -> pPage c' = pPage c -> cix c' = cix c -> parents c' = parents c -> held c' = held c -> curIntKey c' = curIntKey c -> at_row c' i.
Proof. intros (p & rows & fs & k & Hf & [O1 O2 O3 O4 O5] & Hk & ->) E1 E2 E3 E4 E5. exists p, rows, fs, k. split_and!; try done. split; congruence. Qed.

(** What [getCellInfo] leaves of the flags. *)
Lemma getCellInfo_flags b d : exists m, curFlags (getCellInfo b d).2 = Z.lor (curFlags b) m /\ (m = 0 \/ m = BTCF_ValidNKey).
Proof. unfold getCellInfo. destruct (info b) as [x|]; cbn; [exists 0; rewrite Z.lor_0_r; auto|exists BTCF_ValidNKey; auto]. Qed.

Lemma read_info_ok c i : at_row c i -> on_entry c i ->
  reads db (read_info c) (fun r => exists row, L !! i = Some row /\ nKey r.1 = row.1 /\ nPayload r.1 = zlen row.2 /\ at_row r.2 i /\ on_entry r.2 i /\ kept c r.2 /\ cursor_nKey r.2 = row.1).
Proof.
  intros Hrow (r & off & h & pgs & E1 & E2 & E3 & E4 & E5 & Hh & Hc). unfold read_info. apply reads_page. change (pgno (curPage (cur c))) with (pgno (pPage c)) in *. rewrite E4 in *.
  destruct (getCellInfo_ok (cur c) db _ _ off h r.1 r.2 pgs Hlim Hb E2 Hh Hc) as (b1 & Eg & B1 & B2 & B3 & B4). destruct (getCellInfo_flags (cur c) (pg db (pgno (pPage c)))) as (m & Em & Hm). rewrite Eg in Em |- *. cbn [snd] in Em. apply reads_ret. cbn [fst snd]. exists r.
  assert (Hpl : pPage (set_cur c b1) = pPage c) by exact B1.
  split; [done|]. split; [done|]. split; [done|]. split; [by eapply same_place|]. split; [|split].
  - exists r, off, h, pgs. rewrite Hpl, E4. split_and!; try done. destruct Hc as [(O1 & O2 & O3 & O4) _ _]. split; [cbn [cur set_cur]; by rewrite B1, B2|by left|done].
  - apply (kept_flags _ _ m); try done; by destruct Hm as [-> | ->].
  - unfold cursor_nKey. cbn. by rewrite B3.
Qed.

(** ** Reading the payload *)

(** A result of [m], wherever it starts. *)
Definition gives {A} (m : btm A) (Q : A -> Prop) : Prop := forall db0 x db1, m db0 = (inr x, db1) -> Q x.
Lemma gives_ret {A} (x : A) (Q : A -> Prop) : Q x -> gives (mret x) Q.
Proof. intros H db0 y db1 [= <- <-]. done. Qed.
Lemma gives_fail {A} rc (Q : A -> Prop) : gives (fail rc) Q.
Proof. intros db0 y db1 [=]. Qed.
Lemma gives_bind {A B} (m : btm A) (k : A -> btm B) Q : (forall x, gives (k x) Q) -> gives (m ≫= k) Q.
Proof. intros H db0 y db1 E. unfold mbind, btm_bind in E. destruct (m db0) as [[rc|x] db2]; [done|]. by eapply H. Qed.
Lemma gives_through {A B} (m : btm A) (k : A -> btm B) P Q : gives m P -> (forall x, P x -> gives (k x) Q) -> gives (m ≫= k) Q.
Proof. intros Hm H db0 y db1 E. unfold mbind, btm_bind in E. destruct (m db0) as [[rc|x] db2] eqn:Em; [done|]. apply Hm in Em. by eapply H. Qed.
Lemma ends_gives {A} (m : btm A) db0 P (Q : A -> Prop) : ends m db0 P -> gives m Q -> ends m db0 (fun x db1 => P x db1 /\ Q x).
Proof. unfold ends, gives. intros H HQ. specialize (HQ db0). destruct (m db0) as [[rc|x] db1]; [done|]. destruct H. split; [|done]. split; [done|]. by eapply HQ. Qed.

(** The cursor stays on its entry and may have learned of it. *)
Record learned (c c' : BtCursor) : Prop := {
  ln_page : curPage c' = curPage c; ln_ix : ix c' = ix c; ln_info : info c <> None -> info c' = info c;
  ln_flags : exists m, curFlags c' = Z.lor (curFlags c) m /\ (m = 0 \/ m = BTCF_ValidNKey \/ m = BTCF_ValidOvfl \/ m = Z.lor BTCF_ValidNKey BTCF_ValidOvfl) }.
Lemma learned_cache c l : learned c (set_cache c l).
Proof. split; [done..|]. exists 0. rewrite Z.lor_0_r. auto. Qed.
#[local] Instance learned_refl : Reflexive learned.
Proof. intros c. split; [done..|]. exists 0. rewrite Z.lor_0_r. auto. Qed.
#[local] Instance learned_trans : Transitive learned.
Proof.
  intros c1 c2 c3 [P1 I1 N1 (m1 & F1 & M1)] [P2 I2 N2 (m2 & F2 & M2)]. split; [congruence..| |].
  - intros H. rewrite N2; [auto|]. by rewrite N1.
  - exists (Z.lor m1 m2). rewrite F2, F1, Z.lor_assoc. split; [done|]. destruct M1 as [-> |[-> |[-> | ->]]], M2 as [-> |[-> |[-> | ->]]]; cbn; auto.
Qed.

Lemma chain_learned fuel : forall c u next offset amt buf pb i eOp, gives (access_chain fuel c u next offset amt buf pb i eOp) (fun r => learned c r.1).
Proof.
  induction fuel as [|fuel IH]; intros; cbn [access_chain]; [apply gives_fail|]. destruct (_ =? 0); [apply gives_fail|]. apply gives_bind. intros db0. destruct (_ <? _); [apply gives_fail|]. cbv zeta.
  assert (H : forall r, learned (set_cache c ((the_cache c).[i <- next])) r -> learned c r) by (intros r Hl; etrans; [|exact Hl]; apply learned_cache).
  destruct (_ <=? _).
  - apply gives_bind. intros n db1 r db2 E. apply H. by eapply IH.
  - apply gives_bind. intros [n buf']. destruct (_ =? 0); [apply gives_ret; by apply H|]. intros db1 r db2 E. apply H. by eapply IH.
Qed.
Lemma overflow_learned c next nOver offset amt buf pb eOp : gives (access_overflow c next nOver offset amt buf pb eOp) (fun r => learned c r.1).
Proof.
  unfold access_overflow. apply gives_bind. intros db0. cbv zeta. destruct (negb _).
  - apply (gives_through _ _ (learned c)).
    + unfold fresh_cache. cbv zeta. apply gives_bind. intros l. apply gives_ret. split; [done..|]. exists BTCF_ValidOvfl. auto.
    + intros c1 H db1 r db2 E. etrans; [exact H|]. by eapply chain_learned.
  - destruct (truthy _); apply chain_learned.
Qed.
Lemma access_learned c offset amt buf eOp : gives (accessPayload c offset amt buf eOp) (fun r => learned c r.1 /\ info r.1 <> None).
Proof.
  unfold accessPayload. cbv zeta. destruct (_ <=? _); [apply gives_fail|]. apply gives_bind. intros db0. apply gives_bind. intros d. destruct (getCellInfo c d) as [[off i] c1] eqn:E.
  assert (H : learned c c1 /\ info c1 <> None). { unfold getCellInfo in E. destruct (info c) as [x|] eqn:Ei; injection E as _ _ <-; [split; [done|by rewrite Ei]|]. split; [|done]. split; [done..|by rewrite Ei|]. exists BTCF_ValidNKey. auto. } destruct H as [H H'].
  destruct (_ <? _); [apply gives_fail|]. apply gives_bind. intros buf'. destruct (0 <? _); [|by apply gives_ret]. apply gives_bind. intros n db1 r db2 Er. apply overflow_learned in Er. split; [by etrans|]. by rewrite (ln_info _ _ Er).
Qed.

(** A file seen by a reader holds the same rows. *)
Lemma holds_sees db0 t q off h key P pgs : sees db db0 -> holds db t q off h key P pgs -> holds db0 t q off h key P pgs.
Proof.
  intros (E1 & E2 & E3 & E4) [H1 H2 H3 H4 H5 H6 H7]. assert (Hp : pages_ok (bt db) (pg db0)) by (intros x; rewrite E4; apply H1). split; rewrite ?E1; try done; [by rewrite E4|by rewrite E4|].
  cbv zeta in *. destruct (local_bytes (bt db) t (zlen P) <? zlen P); [|exact H6]. destruct H6 as [(C1 & C2 & C3 & C4 & C5) C6]. rewrite E4. split; [|by rewrite (body_frame (pg db) (pg db0))]. unfold chain_of. rewrite E1, E2. split; [done|]. split; [done|]. split; [done|]. split; [|done]. eapply links_frame; [|exact C4]. intros x _. by rewrite E4.
Qed.
Lemma on_cell_sees db1 db0 c t q off h key P pgs : sees db1 db0 -> on_cell c db1 t q off h key P pgs -> on_cell c db0 t q off h key P pgs.
Proof.
  intros (E1 & E2 & E3 & E4) [H1 H2 H3]. split; [by rewrite E1| |exact H3]. unfold cell_info. rewrite E1, E4. exact H2.
Qed.
Lemma sees_sym db1 db2 : sees db1 db2 -> sees db2 db1.
Proof. intros (E1 & E2 & E3 & E4). by split_and!. Qed.

Lemma learned_kept c b : learned (cur c) b -> kept c (set_cur c b).
Proof. intros [P I N (m & F & M)]. apply (kept_flags _ _ m); try done; by destruct M as [-> |[-> |[-> | ->]]]. Qed.
Lemma learned_place c b i : learned (cur c) b -> at_row c i -> at_row (set_cur c b) i.
Proof. intros [P I N _] H. by eapply same_place. Qed.

Lemma read_payload_ok c i offset amt buf row : at_row c i -> on_entry c i -> L !! i = Some row -> bytes_ok buf -> 0 <= offset -> 0 <= amt -> offset + amt <= zlen row.2 -> amt <= zlen buf ->
  reads db (read_payload c offset amt buf) (fun r => r.1 = splice buf 0 (slice row.2 offset amt) /\ at_row r.2 i /\ on_entry r.2 i /\ kept c r.2 /\ knows r.2 row.1).
Proof.
  intros Hrow (r & off & h & pgs & E1 & E2 & E3 & E4 & E5 & Hh & Hc) Er Bb H0 Ha Hle Hlb. rewrite E1 in Er. injection Er as <-. intros db0 Hs. unfold read_payload, sqlite3BtreePayload. assert (Hs' := Hs). destruct Hs' as (S1 & S2 & S3 & S4). rewrite E4 in *.
  eapply ends_use; [apply ends_gives; [apply (accessPayload_ok false (cur c) db0 (snd (decodeFlags (bt db) no_type 13)) (pgno (pPage c)) off h r.1 r.2 pgs); rewrite ?S1; try done; [by eapply holds_sees|by eapply on_cell_sees]|apply access_learned]|].
  intros [b buf'] db1 [[A1 A2 A3 A4 A5 A6 A7] [Hln Hni]]. cbn [fst snd str_after buf_after] in *. assert (Hs1 : sees db db1) by (destruct A4 as (F1 & F2 & F3); split_and!; [congruence..|]; intros x; by rewrite A7, S4).
  apply ends_ret. split; [done|]. cbn [fst snd]. split; [done|]. split; [by apply learned_place|]. apply sees_sym in Hs1. assert (Ep : pPage (set_cur c b) = pPage c) by apply Hln.
  assert (Hon : on_cell b db (snd (decodeFlags (bt db) no_type 13)) (pgno (pPage c)) off h r.1 r.2 pgs).
  { by eapply on_cell_sees. }
  split; [|split; [by apply learned_kept|]].
  - exists r, off, h, pgs. rewrite Ep, E4. by split_and!.
  - intros _. unfold cursor_nKey. cbn [cur set_cur]. destruct Hon as [_ [O|[O _]] _]; [by rewrite O|done].
Qed.

(** ** Searching one page *)

(** The keys of a page are where the search looks for them. *)
Definition page_keys (p : MemPage) (ks : list Z) : Prop := nCell p = zlen ks /\ forall i k, ks !! i = Some k -> cell_key p (Z.of_nat i) = Some k.

Lemma skip_cont gs x r : Forall (fun g => 0 <= g < 128) gs -> 0 <= x < 128 -> skip_size (map cont gs ++ x :: r) = Some r.
Proof.
  intros Hg Hx. induction gs as [|g gs IH]; cbn [map app skip_size]; [by replace (0x80 <=? x) with false by lia|].
  apply Forall_cons in Hg as [Hg Hgs]. replace (0x80 <=? cont g) with true by (unfold cont; lia). destruct gs; cbn [map app] in *; by apply IH.
Qed.
Lemma skip_size_ok n r : 0 <= n < 2 ^ 56 -> skip_size (varint_enc n ++ r) = Some r.
Proof.
  intros Hn. unfold varint_enc. replace (n <? 2 ^ 56) with true by lia. rewrite <- app_assoc. apply skip_cont; [apply groups_range|apply Z.mod_pos_bound; lia].
Qed.
Lemma key_decoded k r : is_i64 k -> bytes_ok r -> i64 (snd (sqlite3GetVarint (varint_enc (u64 k) ++ r))) = k.
Proof.
  intros Hk Hrr. rewrite getvarint_varint by (apply Forall_app; split; [apply varint_enc_bytes|done]). rewrite varint_enc_dec by (unfold is_u64, u64; apply Z.mod_pos_bound; lia). cbn [snd]. unfold i64, u64, is_i64 in *. Z.div_mod_to_equations. lia.
Qed.

Lemma leaf_keys t fs p rows : focus root t fs -> t = Leaf p rows -> page_keys (mem p) (keys_of rows).
Proof.
  intros Hf E. destruct (leaf_facts _ _ _ _ _ Hr Hf E) as (Hp & _ & _ & Hil & Hcp & Hn & Hrows). split; [unfold keys_of, zlen in *; by rewrite length_fmap|]. intros i k Hk. unfold keys_of in Hk. rewrite list_lookup_fmap in Hk. destruct (rows !! i) as [r|] eqn:Er; [|done]. injection Hk as <-.
  destruct (Hrows i r Er) as (R1 & R2 & h & pgs & [H1 H2 H3 H4 H5 H6 H7]). destruct H2 as [(_ & H2 & Eh)|(Ex & _)]; [|exfalso; rewrite E in Hf; pose proof (focus_shaped _ _ _ Hr Hf) as Hs; destruct (shaped_leaf_inv _ _ _ Hs) as (_ & Hty & _); by rewrite Hty in Ex].
  unfold cell_key. rewrite Hil. unfold findCellPastPtr. rewrite Hcp. change (Z.to_nat 0) with 0%nat. rewrite drop_0. destruct (mem_facts _ Hp Hb) as (_ & _ & _ & M4 & _). set (off := cellOffsetOf (mem p) (Z.of_nat i)) in *.
  assert (Ec : findCell (mem p) (Z.of_nat i) = varint_enc (zlen r.2) ++ varint_enc (u64 r.1) ++ drop (Z.to_nat (zlen h)) (drop (Z.to_nat off) (pg db p))).
  { rewrite app_assoc, <- Eh. rewrite <- H3 at 1. unfold slice. rewrite take_drop. unfold findCell. rewrite M4. unfold off, cellOffsetOf. by rewrite M4. }
  rewrite Ec. pose proof (zlen_nonneg r.2). rewrite skip_size_ok by lia. cbn [fmap option_fmap option_map]. f_equal. apply key_decoded; [done|]. by apply Forall_drop, Forall_drop, H1.
Qed.
Lemma node_keys t fs p kids seps : focus root t fs -> t = Node p kids seps -> page_keys (mem p) seps.
Proof.
  intros Hf E. destruct (node_facts _ _ _ _ _ _ Hr Hf E) as (Hp & _ & _ & Hil & Hcp & Hn & Hlen). split; [done|]. intros i k Hk. rewrite E in Hf. pose proof (focus_shaped _ _ _ Hr Hf) as Hs. destruct (shaped_node_inv _ _ _ _ Hs) as (_ & _ & _ & _ & _ & _ & H7 & _).
  destruct (lookup_lt_is_Some_2 kids i ltac:(apply lookup_lt_Some in Hk; lia)) as [t' Ht]. destruct (H7 i k t' Hk Ht) as (K1 & K2 & rest & K3 & K4). unfold cell_key. rewrite Hil. unfold findCellPastPtr. rewrite Hcp, K4. cbn [fmap option_fmap option_map].
  rewrite drop_app_length'; [f_equal; by apply key_decoded|]. assert (Ez : zlen (sqlite3Put4byte [0; 0; 0; 0] (root_of t')) = 4) by (rewrite put4_splice, splice_0 by done; done). unfold zlen in Ez. lia.
Qed.

(** All keys up to here are smaller, all keys from here on are greater. *)
Definition split_at (ks : list Z) (K : Z) (a b : Z) : Prop := forall j k, ks !! j = Some k -> (Z.of_nat j < a -> k < K) /\ (b <= Z.of_nat j -> K < k).

Lemma page_search_ok p ks K : page_keys p ks -> StronglySorted Z.lt ks -> forall fuel lwr upr idx,
  0 <= lwr <= idx -> idx <= upr < zlen ks -> split_at ks K lwr (upr + 1) -> (Z.to_nat (upr - lwr) < fuel)%nat ->
  match page_search fuel p K lwr upr idx with
  | Found i => 0 <= i /\ ks !! Z.to_nat i = Some K
  | Between lwr idx c => 0 <= lwr <= zlen ks /\ split_at ks K lwr lwr /\ (c = -1 /\ idx = lwr - 1 /\ 0 <= idx \/ c = 1 /\ idx = lwr /\ idx < zlen ks)
  | BadPage => False
  end.
Proof.
  intros [Hn Hks] Hso. induction fuel as [|fuel IH]; intros lwr upr idx H1 H2 Hsp Hfu; [lia|]. cbn [page_search]. unfold zlen in *. destruct (lookup_lt_is_Some_2 ks (Z.to_nat idx) ltac:(lia)) as [k Hk]. pose proof (Hks _ _ Hk) as Ek. rewrite Z2Nat.id in Ek by lia. rewrite Ek.
  assert (Hshift : forall x, 0 <= x -> Z.shiftr x 1 = x / 2) by (intros; by rewrite Z.shiftr_div_pow2).
  destruct (Z.ltb_spec k K) as [Hlt|Hge].
  - assert (Hsp' : split_at ks K (idx + 1) (upr + 1)). { intros j kj Hj. destruct (Hsp j kj Hj) as [_ ?]. split; [|done]. intros Hji. destruct (decide (j = Z.to_nat idx)) as [->|]; [congruence|]. pose proof (sorted_lt ks j (Z.to_nat idx) kj k Hso Hj Hk ltac:(lia)). lia. }
    cbv zeta. destruct (Z.ltb_spec upr (idx + 1)).
    + split; [lia|]. split; [|left; lia]. by replace (upr + 1) with (idx + 1) in Hsp' by lia.
    + apply IH; [|rewrite Hshift by lia; Z.div_mod_to_equations; lia|done|lia]. rewrite Hshift by lia. Z.div_mod_to_equations. lia.
  - destruct (Z.ltb_spec K k) as [Hgt|Hle].
    + assert (Hsp' : split_at ks K lwr (idx - 1 + 1)). { intros j kj Hj. destruct (Hsp j kj Hj) as [? _]. split; [done|]. intros Hji. destruct (decide (j = Z.to_nat idx)) as [->|]; [congruence|]. pose proof (sorted_lt ks (Z.to_nat idx) j k kj Hso Hk Hj ltac:(lia)). lia. }
      cbv zeta. destruct (Z.ltb_spec (idx - 1) lwr).
      * split; [lia|]. split; [|right; lia]. by replace (idx - 1 + 1) with lwr in Hsp' by lia.
      * apply IH; [|rewrite Hshift by lia; Z.div_mod_to_equations; lia|done|lia]. rewrite Hshift by lia. Z.div_mod_to_equations. lia.
    + split; [lia|]. rewrite Hk. f_equal. lia.
Qed.

(** ** Searching the tree *)

Hypothesis Hso : StronglySorted Z.lt (keys_of L).

(** Where a search ends: at the key, or next to where it would be. *)
Record landed (K : Z) (r : Z * Cursor) (i : nat) (row : Z * list Z) : Prop := {
  ld_row : L !! i = Some row;
  ld_at : at_row r.2 i;
  ld_entry : on_entry r.2 i;
  ld_knows : knows r.2 row.1;
  ld_res : r.1 = 0 /\ row.1 = K \/
    r.1 = -1 /\ row.1 < K /\ (forall j rj, L !! j = Some rj -> (i < j)%nat -> K < rj.1) \/
    r.1 = 1 /\ K < row.1 /\ (forall j rj, L !! j = Some rj -> (j < i)%nat -> rj.1 < K) }.

(** All rows of a list on one side of the key. *)
Definition below (K : Z) (l : list (Z * list Z)) : Prop := Forall (fun r => r.1 < K) l.
Definition above (K : Z) (l : list (Z * list Z)) : Prop := Forall (fun r => K < r.1) l.

Lemma rows_in_elem l r : r ∈ rows_in l -> exists i t, l !! i = Some t /\ r ∈ rows_of t.
Proof. intros [k [Hrk Hk]]%list_elem_of_join. apply list_elem_of_fmap in Hk as (t & -> & Ht). apply list_elem_of_lookup in Ht as [i Hi]. eauto. Qed.

(** The child to go to: what is before it is smaller, what is after it is greater. *)
Lemma child_sides p kids seps fs K j : focus root (Node p kids seps) fs -> (j <= length seps)%nat ->
  (forall i s, seps !! i = Some s -> (i < j)%nat -> s < K) -> (forall i s, seps !! i = Some s -> (j <= i)%nat -> K <= s) ->
  below K (rows_in (take j kids)) /\ above K (rows_in (drop (S j) kids)).
Proof.
  intros Hf Hj Hlo Hhi. pose proof (focus_shaped _ _ _ Hr Hf) as Hs. destruct (shaped_node_inv _ _ _ _ Hs) as (_ & _ & _ & _ & Hlen & _ & _ & _ & Hsp & _).
  split; apply Forall_forall; intros r (a & t & Ha & Hrt)%rows_in_elem.
  - apply lookup_take_Some in Ha as [Ha Haj]. destruct (lookup_lt_is_Some_2 seps a ltac:(lia)) as [s Hsa]. pose proof (Hsp a s a t Hsa Ha) as F. rewrite Forall_forall in F. specialize (F r Hrt). rewrite decide_True in F by lia. specialize (Hlo a s Hsa Haj). lia.
  - rewrite lookup_drop in Ha. pose proof (lookup_lt_Some _ _ _ Ha). destruct (lookup_lt_is_Some_2 seps j ltac:(lia)) as [s Hsa]. pose proof (Hsp j s _ t Hsa Ha) as F. rewrite Forall_forall in F. specialize (F r Hrt). rewrite decide_False in F by lia. specialize (Hhi j s Hsa ltac:(lia)). lia.
Qed.

(** A row of the table is before a leaf, on it, or after it. *)
Lemma row_cases p rows fs j r : focus root (Leaf p rows) fs -> L !! j = Some r ->
  (j < length (before fs))%nat /\ r ∈ before fs \/ (exists a, j = (length (before fs) + a)%nat /\ rows !! a = Some r) \/ (length (before fs) + length rows <= j)%nat /\ r ∈ after fs.
Proof.
  intros Hf Hj. rewrite (focus_rows _ _ _ Hf) in Hj. cbn [rows_of] in Hj. apply lookup_app_Some in Hj as [Hj|[H1 Hj]]; [left; split; [by eapply lookup_lt_Some|by eapply list_elem_of_lookup_2]|].
  apply lookup_app_Some in Hj as [Hj|[H2 Hj]]; right; [left; exists (j - length (before fs))%nat; split; [lia|done]|right]. split; [lia|by eapply list_elem_of_lookup_2].
Qed.

Lemma landed_leaf c p rows fs K res (idx : Z) lwr : focus root (Leaf p rows) fs -> (exists i, on_node c (Leaf p rows) fs i) -> clean c -> below K (before fs) -> above K (after fs) ->
  0 <= lwr <= zlen rows -> split_at (keys_of rows) K lwr lwr -> (res = -1 /\ idx = lwr - 1 /\ 0 <= idx \/ res = 1 /\ idx = lwr /\ idx < zlen rows) ->
  exists i row, landed K (res, forget_info (set_ix c (u16 idx))) i row.
Proof.
  intros Hf [i0 Hon] Hc Hbe Haf Hlw Hsp Hidx. unfold zlen in *. pose proof (nCell_small _ _ Hf) as Hsm. destruct (leaf_facts _ _ _ _ _ Hr Hf eq_refl) as (_ & _ & _ & _ & _ & Hn & _). cbn [root_of] in Hsm. rewrite Hn in Hsm. unfold zlen in Hsm. unfold below, above in *. rewrite Forall_forall in Hbe, Haf.
  set (k := Z.to_nat idx). assert (Ek : idx = Z.of_nat k /\ (k < length rows)%nat) by lia. destruct Ek as [Ek Hk]. clearbody k. destruct (lookup_lt_is_Some_2 rows k Hk) as [row Hrow].
  assert (Hkey : forall a r, rows !! a = Some r -> (Z.of_nat a < lwr -> r.1 < K) /\ (lwr <= Z.of_nat a -> K < r.1)) by (intros a r Ha; apply (Hsp a); unfold keys_of; rewrite list_lookup_fmap, Ha; done).
  assert (Hat : at_row (forget_info (set_ix c (u16 idx))) (length (before fs) + k)). { exists p, rows, fs, k. split_and!; try done. rewrite Ek, u16_small by lia. destruct Hon. by split. }
  exists (length (before fs) + k)%nat, row. split; cbn [fst snd]; [by rewrite (row_lookup p rows fs k Hf Hk)|done|apply (tidy_entry no_key); [done|apply clean_tidy; split; [done|apply Hc]]|intros Hv; destruct Hc as (_ & C2 & _); change (has_flag c BTCF_ValidNKey = true) in Hv; congruence|]. right. destruct (Hkey k row Hrow) as [K1 K2].
  destruct Hidx as [(-> & E & _)|(-> & E & _)]; [left|right]; (split; [done|]); (split; [first [apply K1; lia|apply K2; lia]|]); intros j rj Hj Hij; destruct (row_cases p rows fs j rj Hf Hj) as [[? ?]|[(a & -> & Ha)|[? ?]]]; try lia; auto; destruct (Hkey a rj Ha); auto with lia.
Qed.

(** What the search keeps of the cursor. *)
Definition searched (K : Z) (c c' : Cursor) : Prop := kept c c' /\ tidy (fun k => k = K) c'.

Lemma landed_found c p rows fs K (idx : nat) : focus root (Leaf p rows) fs -> (exists i, on_node c (Leaf p rows) fs i) -> clean c -> keys_of rows !! idx = Some K ->
  let c' := set_nKey (forget_info (add_flags (set_ix c (u16 (Z.of_nat idx))) BTCF_ValidNKey)) K in
  (exists i row, landed K (0, c') i row) /\ searched K c c'.
Proof.
  intros Hf [i0 Hon] (C1 & C2 & C3) HK c'. unfold keys_of in HK. rewrite list_lookup_fmap in HK. destruct (rows !! idx) as [row|] eqn:Erow; [|done]. injection HK as HK. pose proof (lookup_lt_Some _ _ _ Erow) as Hk. pose proof (nCell_small _ _ Hf) as Hsm. destruct (leaf_facts _ _ _ _ _ Hr Hf eq_refl) as (_ & _ & _ & _ & _ & Hn & _). cbn [root_of] in Hsm. rewrite Hn in Hsm. unfold zlen in Hsm.
  assert (Hrow : L !! (length (before fs) + idx)%nat = Some row) by (by rewrite (row_lookup p rows fs idx Hf Hk)). assert (Hat : at_row c' (length (before fs) + idx)). { exists p, rows, fs, idx. split_and!; try done. unfold c'. rewrite u16_small by lia. destruct Hon. by split. }
  assert (Hov : has_flag c' BTCF_ValidOvfl = false) by (unfold c', has_flag, flags; cbn; rewrite flag_added by done; exact C3). assert (Hti : tidy (fun k => k = K) c') by by split_and!. split.
  - exists (length (before fs) + idx)%nat, row. split; cbn [fst snd]; [done|done|by apply (tidy_entry _ _ _ Hat Hti)|intros _; symmetry; exact HK|by left].
  - split; [|done]. by apply (kept_flags _ _ BTCF_ValidNKey).
Qed.

Lemma searched_ix K c i : clean c -> searched K c (forget_info (set_ix c i)).
Proof. intros (C1 & C2 & C3). split; [by split|]. by apply clean_tidy; split. Qed.

Lemma search_loop_ok K bias fuel : forall c t fs, focus root t fs -> 1 <= nCell (mem (root_of t)) -> (exists i, on_node c t fs i) -> clean c -> below K (before fs) -> above K (after fs) -> (depth t < fuel)%nat ->
  reads db (search_loop cellSizeCk fuel c K bias) (fun r => (exists i row, landed K r i row) /\ searched K c r.2).
Proof.
  induction fuel as [|fuel IH]; intros c t fs Hf Hn1 [i0 Hon] Hc Hbe Haf Hfu; [lia|]. cbn [search_loop]. cbv zeta. rewrite (on_page _ _ _ _ Hon). set (p := mem (root_of t)) in *.
  assert (Hks : exists ks, page_keys p ks /\ StronglySorted Z.lt ks /\ (forall q rows, t = Leaf q rows -> ks = keys_of rows) /\ (forall q kids seps, t = Node q kids seps -> ks = seps)).
  { destruct t as [q rows|q kids seps].
    - exists (keys_of rows). split_and!; [by eapply leaf_keys| |by intros ? ? [= _ ->]|done]. pose proof Hso as Hs. rewrite (focus_rows _ _ _ Hf) in Hs. unfold keys_of in Hs. rewrite !fmap_app in Hs. by apply StronglySorted_app_1_r, StronglySorted_app_1_l in Hs.
    - exists seps. split_and!; [by eapply node_keys| |done|by intros ? ? ? [= _ _ ->]]. pose proof (focus_shaped _ _ _ Hr Hf) as Hs. by destruct (shaped_node_inv _ _ _ _ Hs) as (_ & _ & _ & _ & _ & _ & _ & ? & _). }
  destruct Hks as (ks & Hpk & Hsort & Hleaf & Hnode). assert (Hnk := proj1 Hpk). pose proof (page_search_ok p ks K Hpk Hsort (S (Z.to_nat (nCell p))) 0 (nCell p - 1) (Z.shiftr (nCell p - 1) (if bias then 0 else 1))) as Hps.
  assert (Hmid : 0 <= Z.shiftr (nCell p - 1) (if bias then 0 else 1) <= nCell p - 1) by (destruct bias; [rewrite Z.shiftr_0_r; lia|rewrite Z.shiftr_div_pow2 by lia; Z.div_mod_to_equations; lia]).
  specialize (Hps ltac:(lia) ltac:(lia)). assert (Hs0 : split_at ks K 0 (nCell p - 1 + 1)) by (intros j kj Hj; apply lookup_lt_Some in Hj; unfold zlen in Hnk; lia). specialize (Hps Hs0 ltac:(lia)).
  assert (Hdown : forall j q kids seps, t = Node q kids seps -> (j <= length seps)%nat -> (forall i s, seps !! i = Some s -> (i < j)%nat -> s < K) -> (forall i s, seps !! i = Some s -> (j <= i)%nat -> K <= s) ->
    reads db (moveToChild cellSizeCk (set_ix c (u16 (Z.of_nat j))) (if nCell p <=? Z.of_nat j then right_child p else left_child p (Z.of_nat j)) ≫= (fun c => search_loop cellSizeCk fuel c K bias)) (fun r => (exists i row, landed K r i row) /\ searched K c r.2)).
  { intros j q kids seps Et Hj Hlo Hhi. subst t. cbn [root_of] in p. destruct (node_facts _ _ _ _ _ _ Hr Hf eq_refl) as (_ & _ & _ & _ & _ & Hn & Hlen). pose proof (nCell_small _ _ Hf) as Hsm. cbn [root_of] in Hsm. rewrite Hn in Hsm. unfold zlen in Hsm. destruct (lookup_lt_is_Some_2 kids j ltac:(lia)) as [t Ht].
    assert (Hft : focus root t ((q, kids, seps, j) :: fs)) by by econstructor. fold (child_ptr p (Z.of_nat j)). unfold p. rewrite (child_ptr_ok root q kids seps fs j t Hr Hf Ht). destruct (child_sides q kids seps fs K j Hf Hj Hlo Hhi) as [S1 S2]. rewrite u16_small by lia.
    eapply reads_bind; [apply (moveToChild_ok _ q kids seps fs j t); [done|by eapply on_set_ix|done]|]. intros c1 (H1 & H2 & H3). destruct (below_root t _ Hft ltac:(done)) as (_ & _ & Hc1). pose proof (depth_kid q kids seps j t Ht).
    eapply reads_weaken; [apply (IH c1 t _ Hft Hc1 ltac:(eauto) H3); [apply Forall_app; done|apply Forall_app; done|lia]|]. intros r [Hl [G1 G2]]. split; [done|]. split; [|done]. etrans; [|exact G1]. etrans; [|exact H2]. apply set_ix_ok. }
  destruct (page_search _ p K 0 (nCell p - 1) _) as [idx|lwr idx res|]; [| |done].
  - destruct Hps as [P1 P2]. set (j := Z.to_nat idx) in *. assert (Ej : idx = Z.of_nat j) by lia. rewrite Ej. destruct t as [q rows|q kids seps].
    + destruct (leaf_facts _ _ _ _ _ Hr Hf eq_refl) as (_ & Hlf & _). unfold p. cbn [root_of]. rewrite Hlf. rewrite (Hleaf q rows eq_refl) in P2. apply reads_ret. by apply (landed_found c q rows fs K j Hf ltac:(eauto) Hc).
    + destruct (node_facts _ _ _ _ _ _ Hr Hf eq_refl) as (_ & Hlf & _). unfold p at 1. cbn [root_of]. rewrite Hlf. rewrite (Hnode q kids seps eq_refl) in *. pose proof (lookup_lt_Some _ _ _ P2). apply (Hdown j q kids seps eq_refl ltac:(lia)).
      * intros i s Hi Hij. by apply (sorted_lt seps i j).
      * intros i s Hi Hij. destruct (decide (i = j)) as [->|]; [rewrite P2 in Hi; injection Hi as <-; lia|]. pose proof (sorted_lt seps j i K s Hsort P2 Hi ltac:(lia)). lia.
  - destruct Hps as (P1 & P2 & P3). destruct t as [q rows|q kids seps].
    + destruct (leaf_facts _ _ _ _ _ Hr Hf eq_refl) as (_ & Hlf & _ & _ & _ & Hn & _). unfold p. cbn [root_of]. rewrite Hlf. apply reads_ret. split; [|by apply searched_ix]. rewrite (Hleaf q rows eq_refl) in *. unfold p in Hnk. cbn [root_of] in Hnk. apply (landed_leaf c q rows fs K res idx lwr); try done; [eauto|lia|]. rewrite <- Hn, Hnk. exact P3.
    + destruct (node_facts _ _ _ _ _ _ Hr Hf eq_refl) as (_ & Hlf & _). unfold p at 1. cbn [root_of]. rewrite Hlf. rewrite (Hnode q kids seps eq_refl) in *. unfold zlen in P1. replace lwr with (Z.of_nat (Z.to_nat lwr)) by lia. apply (Hdown (Z.to_nat lwr) q kids seps eq_refl ltac:(lia)).
      * intros i s Hi Hij. apply (P2 i s Hi). lia.
      * intros i s Hi Hij. apply Z.lt_le_incl, (P2 i s Hi). lia.
Qed.

(** The search from the root. *)
Record arrived (K : Z) (c : Cursor) (r : Z * Cursor) : Prop := {
  ar_end : (L = [] /\ r.1 = -1 /\ eState r.2 = CURSOR_INVALID /\ in_tree r.2) \/ (eState r.2 = CURSOR_VALID /\ exists i row, landed K r i row);
  ar_base : base r.2;
  ar_tidy : tidy (fun k => k = K) r.2;
  ar_last : has_flag r.2 BTCF_AtLast = false;
  ar_skip : skipNext r.2 = skipNext c }.

Lemma table_search_ok c K bias : base c -> (held c = true -> in_tree c) -> reads db (table_search cellSizeCk c K bias) (arrived K c).
Proof.
  intros Hbs Hin. unfold table_search. eapply reads_bind; [by apply moveToRoot_ok|]. intros [rc c1] [[(R1 & R2 & (t & fs & Hf & Hon & Hbe & Haf & Hn) & R4)|(R1 & R2 & R3 & R4)] B C A Sk _]; cbn [fst snd] in *; rewrite R2.
  - change (SQLITE_OK =? SQLITE_OK) with true. cbv iota. pose proof (focus_depth _ _ _ Hf). eapply reads_weaken; [apply (search_loop_ok K bias _ c1 t fs Hf Hn ltac:(eauto) C); [by rewrite Hbe; constructor|by rewrite Haf; constructor|lia]|].
    intros r [Hl [G1 G2]]. pose proof (base_kept _ _ G1 B). destruct G1. split; try done; [right; split; [congruence|done]|congruence..].
  - change (SQLITE_EMPTY =? SQLITE_OK) with false. cbv iota. apply reads_ret. split; cbn [fst snd]; try done; [by left|by apply clean_tidy].
Qed.

(** ** The position of a cursor *)

(** Nowhere, on a row or saved: at the key, before it if the second number is positive, after
    it if it is negative.  The cursor may take [old] for the key of its row. *)
Inductive place := Nowhere | At (k s : Z) (old : option Z) | Saved (k s : Z).

Definition on_row (c : Cursor) (k s : Z) (old : option Z) : Prop := exists i row,
  L !! i = Some row /\ row.1 = k /\ at_row c i /\ on_entry c i /\ (has_flag c BTCF_ValidNKey = true -> cursor_nKey c = k \/ old = Some (cursor_nKey c)) /\
  (eState c = CURSOR_VALID /\ s = 0 /\ (has_flag c BTCF_AtLast = true -> S i = length L) /\ (old <> None -> has_flag c BTCF_AtLast = false) \/
   eState c = CURSOR_SKIPNEXT /\ skipNext c = s /\ s <> 0 /\ old = None /\ has_flag c BTCF_AtLast = false).
Definition is_saved (c : Cursor) (k s : Z) : Prop :=
  eState c = CURSOR_REQUIRESEEK /\ savedKey c = k /\ skipNext c = s /\ held c = false /\ has_flag c BTCF_AtLast = false.
Definition stands (c : Cursor) (o : place) : Prop :=
  base c /\ match o with
  | Nowhere => eState c = CURSOR_INVALID /\ (held c = true -> in_tree c)
  | At k s old => on_row c k s old
  | Saved k s => is_saved c k s
  end.

Lemma stands_pages c o : stands c o -> held c = true -> in_tree c.
Proof. intros [_ H] Hh. destruct o as [|k s old|k s]; [by apply H| |by destruct H as (_ & _ & _ & Hn & _); congruence]. destruct H as (i & row & _ & _ & Hat & _). by eapply at_row_in. Qed.

(** A position as a number among the rows. *)
Lemma valid_on c i row : base c -> L !! i = Some row -> at_row c i -> on_entry c i -> knows c row.1 -> eState c = CURSOR_VALID -> (has_flag c BTCF_AtLast = true -> S i = length L) -> stands c (At row.1 0 None).
Proof. intros. split; [done|]. exists i, row. split_and!; try done; [by left; auto|]. by left. Qed.

(** *** The first and the last entry *)

Definition near (o : option (Z * list Z)) : place := match o with Some r => At r.1 0 None | None => Nowhere end.

Lemma leaf_nonempty p rows fs : focus root (Leaf p rows) fs -> L <> [] -> (0 < length rows)%nat.
Proof.
  intros Hf HL. destruct (decide (fs = [])) as [->|Hne].
  - rewrite (focus_rows _ _ _ Hf) in HL. cbn [before after app rows_of] in HL. rewrite app_nil_r in HL. destruct rows; [done|cbn; lia].
  - pose proof (focus_shaped _ _ _ Hr Hf) as Hs. rewrite bool_decide_eq_false_2 in Hs by done. destruct (shaped_leaf_inv _ _ _ Hs) as (_ & _ & _ & [?|?] & _); [done|]. destruct rows; [done|cbn; lia].
Qed.
Lemma clean_on c i row : base c -> L !! i = Some row -> at_row c i -> clean c -> eState c = CURSOR_VALID -> (has_flag c BTCF_AtLast = true -> S i = length L) -> stands c (At row.1 0 None).
Proof. intros H1 H2 H3 H4 H5 H6. apply (valid_on c i row); try done; [apply (tidy_entry no_key); [done|by apply clean_tidy]|]. destruct H4 as (_ & H4 & _). intros Hv. congruence. Qed.

Lemma first_ok c o : stands c o -> reads db (sqlite3BtreeFirst cellSizeCk c) (fun r => r.1 = (if decide (L = []) then 1 else 0) /\ stands r.2 (near (head L))).
Proof.
  intros Hst. unfold sqlite3BtreeFirst. eapply reads_bind; [apply moveToRoot_ok; [apply Hst|by eapply stands_pages]|]. intros [rc c1] [[(R1 & R2 & (t & fs & Hf & Hon & Hbe & Haf & Hn) & R4)|(R1 & R2 & R3 & R4)] B C A Sk _]; cbn [fst snd] in *; rewrite R2.
  - change (SQLITE_OK =? SQLITE_OK) with true. cbv iota. pose proof (focus_depth _ _ _ Hf). eapply reads_bind; [apply (leftmost_ok _ c1 t fs Hf Hn Hon C); unfold BTCURSOR_MAX_DEPTH in *; lia|].
    intros c2 (p & rows & fs' & G1 & G2 & G3 & _ & G4 & G5). apply reads_ret. cbn [fst snd]. rewrite decide_False by done. split; [done|]. pose proof (leaf_nonempty _ _ _ G1 R1) as Hk. assert (Hat : at_row c2 0) by (exists p, rows, fs', 0%nat; rewrite G3, Hbe; by split_and!).
    pose proof (at_row_lt _ _ Hat) as Hlt. destruct (lookup_lt_is_Some_2 _ _ Hlt) as [row Hrow]. rewrite head_lookup, Hrow. cbn [near]. apply (clean_on c2 0); try done; [by eapply base_kept|by rewrite (kp_state _ _ G4)|]. rewrite (kp_last _ _ G4), A. done.
  - change (SQLITE_EMPTY =? SQLITE_OK) with false. cbv iota. apply reads_ret. cbn [fst snd]. rewrite decide_True by done. split; [done|]. rewrite R1. split; [done|]. split; [done|]. by intros _.
Qed.

Lemma at_last_flags c m : Z.land BTCF_AtLast m = 0 -> has_flag (add_flags c BTCF_AtLast) m = has_flag c m.
Proof. intros H. unfold has_flag, flags. cbn. by rewrite flag_added. Qed.

Lemma last_ok c o : stands c o -> reads db (sqlite3BtreeLast cellSizeCk c) (fun r => r.1 = (if decide (L = []) then 1 else 0) /\ stands r.2 (near (last L))).
Proof.
  intros Hst. unfold sqlite3BtreeLast. destruct (_ && _) eqn:E.
  - apply andb_true_iff in E as [Ev El]. apply bool_decide_eq_true in Ev. apply reads_ret. cbn [fst snd]. destruct Hst as [Hbs Hst]. destruct o as [|k s old|k s]; [destruct Hst; congruence| |destruct Hst; congruence]. destruct Hst as (i & row & H1 & H2 & H3 & H4 & H5 & H6). destruct H6 as [(_ & -> & H6 & H7)|(H6 & _)]; [|congruence].
    destruct old; [rewrite H7 in El; done|]. specialize (H6 El). rewrite last_lookup. replace (pred (length L)) with i by lia. rewrite H1. rewrite decide_False by (intros HL; rewrite HL in H1; done). split; [done|]. split; [done|]. exists i, row. split_and!; try done; [by rewrite H2|]. by left.
  - unfold btreeLast. eapply reads_bind; [apply moveToRoot_ok; [apply Hst|by eapply stands_pages]|]. intros [rc c1] [[(R1 & R2 & (t & fs & Hf & Hon & Hbe & Haf & Hn) & R4)|(R1 & R2 & R3 & R4)] B C A Sk _]; cbn [fst snd] in *; rewrite R2.
    + change (SQLITE_OK =? SQLITE_OK) with true. cbv iota. pose proof (focus_depth _ _ _ Hf). eapply reads_bind; [apply (rightmost_ok _ c1 t fs Hf ltac:(eauto) C); unfold BTCURSOR_MAX_DEPTH in *; lia|].
      intros c2 (p & rows & fs' & G1 & G2 & G3 & _ & G4 & G5). apply reads_ret. cbn [fst snd]. rewrite decide_False by done. split; [done|]. pose proof (leaf_nonempty _ _ _ G1 R1) as Hk. pose proof (nCell_small _ _ G1) as Hsm. destruct (leaf_facts _ _ _ _ _ Hr G1 eq_refl) as (_ & _ & _ & _ & _ & Hnn & _). cbn [root_of] in Hsm. rewrite Hnn in Hsm. unfold zlen in *. rewrite u16_small in G2 by lia.
      set (i := (length (before fs') + (length rows - 1))%nat). assert (Hat : at_row (add_flags c2 BTCF_AtLast) i). { exists p, rows, fs', (length rows - 1)%nat. split_and!; try done; [|lia]. replace (Z.of_nat (length rows - 1)) with (Z.of_nat (length rows) - 1) by lia. destruct G2. by split. }
      assert (Hi : S i = length L) by (rewrite (focus_rows _ _ _ G1), G3, Haf, !length_app; cbn [rows_of length]; lia). pose proof (at_row_lt _ _ Hat) as Hlt. destruct (lookup_lt_is_Some_2 _ _ Hlt) as [row Hrow]. rewrite last_lookup. replace (pred (length L)) with i by lia. rewrite Hrow.
      apply (clean_on _ i); try done.
      * pose proof (base_kept _ _ G4 B) as []. split; try done. by rewrite at_last_flags.
      * destruct G5 as (C1 & C2 & C3). split_and!; [done|by rewrite at_last_flags..].
      * cbn. by rewrite (kp_state _ _ G4).
    + change (SQLITE_EMPTY =? SQLITE_OK) with false. cbv iota. apply reads_ret. cbn [fst snd]. rewrite decide_True by done. split; [done|]. rewrite R1. split; [done|]. split; [done|]. by intros _.
Qed.

(** *** Keys in order *)

Lemma row_order i j ri rj : L !! i = Some ri -> L !! j = Some rj -> ri.1 < rj.1 <-> (i < j)%nat.
Proof. by apply rows_order. Qed.
Lemma row_after_at i row s : L !! i = Some row -> row_after L row.1 s = L !! (if decide (0 < s) then i else S i).
Proof. by apply rows_after_at. Qed.
Lemma row_before_at i row s : L !! i = Some row -> row_before L row.1 s = match (if decide (s < 0) then S i else i) with O => None | S j => L !! j end.
Proof. by apply rows_before_at. Qed.

(** From a key that is not there, as from the row next to it. *)
Lemma landed_after K r i row s s' : landed K r i row -> r.1 <> 0 -> (0 < s' <-> 0 < r.1) -> row_after L K s = row_after L row.1 s'.
Proof.
  intros [H1 H2 H3 H4 H5] Hr0 Hs. rewrite (row_after_at i row s' H1). unfold row_after. rewrite (filter_suffix _ L (if decide (0 < s') then i else S i)); [by rewrite head_lookup, lookup_drop, Nat.add_0_r|].
  destruct H5 as [[? _]|[(E & H5 & H6)|(E & H5 & H6)]]; [done| |]; intros j rj Hj; specialize (H6 j rj Hj); pose proof (row_order i j row rj H1 Hj); pose proof (row_order j i rj row Hj H1); rewrite is_after_iff; destruct (decide (0 < s')), (decide (0 < s)); try lia.
Qed.
Lemma landed_before K r i row s s' : landed K r i row -> r.1 <> 0 -> (s' < 0 <-> r.1 < 0) -> row_before L K s = row_before L row.1 s'.
Proof.
  intros [H1 H2 H3 H4 H5] Hr0 Hs. rewrite (row_before_at i row s' H1). pose proof (lookup_lt_Some _ _ _ H1). unfold row_before. rewrite (filter_prefix _ L (if decide (s' < 0) then S i else i)).
  - rewrite last_lookup, length_take. destruct (if decide (s' < 0) then S i else i) as [|n] eqn:E; [by rewrite take_0|]. assert (Hn : (n < length L)%nat) by (destruct (decide (s' < 0)); lia). rewrite Nat.min_l by lia. cbn [pred]. by rewrite lookup_take_lt by lia.
  - destruct H5 as [[? _]|[(E & H5 & H6)|(E & H5 & H6)]]; [done| |]; intros j rj Hj; specialize (H6 j rj Hj); pose proof (row_order i j row rj H1 Hj); pose proof (row_order j i rj row Hj H1); rewrite is_before_iff; destruct (decide (s' < 0)), (decide (s < 0)); try lia.
Qed.

(** *** Restoring *)

(** The cursor after a search for the saved key. *)
Record restored (k s : Z) (c : Cursor) (i : nat) (row : Z * list Z) (r : Z) : Prop := {
  rs_land : landed k (r, c) i row;
  rs_base : base c;
  rs_tidy : tidy (fun k' => k' = k) c;
  rs_last : has_flag c BTCF_AtLast = false;
  rs_state : let s' := if decide (r = 0) then s else r in if decide (s' = 0) then eState c = CURSOR_VALID else eState c = CURSOR_SKIPNEXT /\ skipNext c = s' }.

Lemma restore_saved c k s : base c -> is_saved c k s ->
  reads db (restoreCursorPosition cellSizeCk index_moveto c) (fun c' => L = [] /\ stands c' Nowhere \/ exists i row r, restored k s c' i row r).
Proof.
  intros Hbs (S1 & S2 & S3 & S4 & S5). unfold restoreCursorPosition, btreeRestoreCursorPosition. rewrite S1, (bool_decide_eq_true_2 (CURSOR_REQUIRESEEK = CURSOR_REQUIRESEEK)), (bool_decide_eq_false_2 (CURSOR_REQUIRESEEK = CURSOR_FAULT)) by done. cbn [orb]. cbv zeta.
  change (pKey (set_state c CURSOR_INVALID)) with (pKey c). rewrite (bs_key _ Hbs). change (savedKey (set_state c CURSOR_INVALID)) with (savedKey c). rewrite S2.
  eapply reads_bind; [apply table_search_ok; [destruct Hbs; by split|cbn; congruence]|]. intros [r c1] [Hend B T A Sk]. cbn [fst snd] in *. change (skipNext (set_state c CURSOR_INVALID)) with (skipNext c) in Sk. apply reads_ret.
  assert (HB : forall s, s <> CURSOR_FAULT -> forall z, base (set_state (set_skip (set_saved c1 None (savedKey c1)) z) s)) by (intros st Hst z; destruct B; by split).
  destruct Hend as [(E1 & -> & E3 & E4)|(E1 & i & row & Hl)].
  - left. split; [done|]. cbn [Z.eqb]. change (-1 =? 0) with false. cbv iota. change (eState (set_skip (set_saved c1 None (savedKey c1)) (-1))) with (eState c1). rewrite E3, (bool_decide_eq_false_2 (CURSOR_INVALID = CURSOR_VALID)), andb_false_r by done. cbv iota. split; [destruct B; by split|]. split; [done|]. intros _. destruct E4 as (t & fs & j & Hf & Hon). exists t, fs, j. split; [done|]. destruct Hon. by split.
  - right. exists i, row, r. set (c2 := set_saved c1 None (savedKey c1)). set (c3 := if r =? 0 then c2 else set_skip c2 r). assert (E3 : eState c3 = CURSOR_VALID) by (unfold c3; by destruct (r =? 0)). assert (Esk : skipNext c3 = if decide (r = 0) then s else r) by (unfold c3; destruct (decide (r = 0)); [replace (r =? 0) with true by lia; cbn; congruence|replace (r =? 0) with false by lia; done]).
    rewrite E3, Esk, (bool_decide_eq_true_2 (CURSOR_VALID = CURSOR_VALID)), andb_true_r by done. set (s' := if decide (r = 0) then s else r) in *.
    assert (Hc3 : forall st, cur (set_state c3 st) = cur c1 /\ info_nKey (set_state c3 st) = info_nKey c1 /\ parents (set_state c3 st) = parents c1 /\ held (set_state c3 st) = held c1 /\ curIntKey (set_state c3 st) = curIntKey c1 /\ skipNext (set_state c3 st) = s') by (intros st; rewrite <- Esk; unfold c3; by destruct (r =? 0)).
    assert (Hall : forall st, st <> CURSOR_FAULT -> landed k (r, set_state c3 st) i row /\ base (set_state c3 st) /\ tidy (fun k' => k' = k) (set_state c3 st) /\ has_flag (set_state c3 st) BTCF_AtLast = false).
    { intros st Hst. destruct (Hc3 st) as (H1 & H2 & H3 & H4 & H5 & H6). split_and!.
      - destruct Hl as [L1 L2 L3 L4 L5]. split; cbn [fst snd] in *; [done| | | |done].
        + apply (same_place c1); unfold pPage, cix; try done; by rewrite H1.
        + unfold on_entry, pPage. rewrite H1. exact L3.
        + unfold knows, has_flag, flags, cursor_nKey. rewrite H1, H2. exact L4.
      - unfold c3. destruct (r =? 0); [exact (HB st Hst (skipNext c1))|exact (HB st Hst r)].
      - unfold tidy, has_flag, flags. rewrite H1, H2. exact T.
      - unfold has_flag, flags. rewrite H1. exact A. }
    destruct (Z.eqb_spec s' 0) as [E0|E0]; cbn [negb].
    + destruct (Hall CURSOR_VALID ltac:(done)) as (G1 & G2 & G3 & G4). rewrite (kept_valid c3 E3) in *. split; try done. cbv zeta. fold s'. by rewrite decide_True.
    + destruct (Hall CURSOR_SKIPNEXT ltac:(done)) as (G1 & G2 & G3 & G4). split; try done. cbv zeta. fold s'. by rewrite decide_False.
Qed.

(** *** The next and the previous entry *)

Lemma went_row ok c j r old : base c -> has_flag c BTCF_AtLast = false -> (forall k, ok k -> old = Some k) -> went ok c (Some j) r -> exists row, L !! j = Some row /\ r.1 = SQLITE_OK /\ stands r.2 (At row.1 0 old).
Proof.
  intros Hbs Hal Hok (W1 & W2 & W3 & W4). pose proof (at_row_lt _ _ W2) as Hlt. destruct (lookup_lt_is_Some_2 _ _ Hlt) as [row Hrow]. exists row. split; [done|]. split; [done|]. assert (Hb2 : base (set_state c CURSOR_VALID)) by (destruct Hbs; by split). split; [by eapply base_kept|].
  exists j, row. split_and!; try done; [by eapply tidy_entry| |].
  - intros Hv. right. unfold cursor_nKey. destruct W3 as (E1 & _ & E3). rewrite E1. auto.
  - left. destruct W4 as [K1 _ _ _ _ _ _ K8 _]. change (has_flag (set_state c CURSOR_VALID) BTCF_AtLast) with (has_flag c BTCF_AtLast) in K8. split_and!; [done|done|congruence|congruence].
Qed.
Lemma went_nowhere ok c r : base c -> went ok c None r -> r.1 = SQLITE_DONE /\ stands r.2 Nowhere.
Proof. intros Hbs (W1 & W2 & W3). assert (Hb2 : base (set_state c CURSOR_INVALID)) by (destruct Hbs; by split). split; [done|]. split; [by eapply base_kept|]. split; [by rewrite (kp_state _ _ W3)|done]. Qed.

(** What [old] may be after a move. *)
Definition old_ok (l : list (Z * list Z)) (o : place) (old : option Z) : Prop := old = None \/ exists k s, o = Saved k s /\ k ∈ keys_of l /\ old = Some k.
Definition moved (o : place) (to : option (Z * list Z)) (r : Z * Cursor) : Prop :=
  match to with Some row => r.1 = SQLITE_OK /\ exists old, old_ok L o old /\ stands r.2 (At row.1 0 old) | None => r.1 = SQLITE_DONE /\ stands r.2 Nowhere end.
Definition side (o : place) : option (Z * Z) := match o with Nowhere => None | At k s _ => Some (k, s) | Saved k s => Some (k, s) end.

Lemma stay_row ok c i row old : base c -> L !! i = Some row -> at_row c i -> tidy ok c -> has_flag c BTCF_AtLast = false -> (forall k, ok k -> old = Some k) -> stands (set_state c CURSOR_VALID) (At row.1 0 old).
Proof.
  intros Hbs Hrow Hat Ht Hal Hok. split; [destruct Hbs; by split|]. exists i, row. assert (Hat2 : at_row (set_state c CURSOR_VALID) i) by by eapply same_place. split_and!; try done; [by apply (tidy_entry ok)| |].
  - intros Hv. right. destruct Ht as (E1 & _ & E3). unfold cursor_nKey. cbn [cur set_state info_nKey]. rewrite E1. auto.
  - left. change (has_flag (set_state c CURSOR_VALID) BTCF_AtLast) with (has_flag c BTCF_AtLast). rewrite Hal. done.
Qed.

(** A cursor on a row, in the state that goes with the side. *)
Definition sided (c : Cursor) (s : Z) : Prop := if decide (s = 0) then eState c = CURSOR_VALID else eState c = CURSOR_SKIPNEXT /\ skipNext c = s.
Definition arrives (to : option (Z * list Z)) (old : option Z) (r : Z * Cursor) : Prop :=
  match to with Some row => r.1 = SQLITE_OK /\ stands r.2 (At row.1 0 old) | None => r.1 = SQLITE_DONE /\ stands r.2 Nowhere end.

Lemma entry_next fuel ok c i row s old : base c -> L !! i = Some row -> at_row c i -> tidy ok c -> has_flag c BTCF_AtLast = false -> (forall k, ok k -> old = Some k) -> sided c s ->
  reads db (next_entry cellSizeCk (next_fuel cellSizeCk index_moveto (S (S fuel))) c) (arrives (row_after L row.1 s) old).
Proof.
  intros Hbs Hrow Hat Ht Hal Hok Hsd. rewrite (row_after_at i row s Hrow). unfold sided in Hsd. destruct (decide (0 < s)) as [Hs|Hs].
  - rewrite decide_False in Hsd by lia. destruct Hsd as [E1 E2]. unfold next_entry. rewrite E1, E2. rewrite (bool_decide_eq_false_2 (CURSOR_SKIPNEXT = CURSOR_INVALID)), (bool_decide_eq_true_2 (CURSOR_SKIPNEXT = CURSOR_SKIPNEXT)) by done. replace (0 <? s) with true by lia. cbn [andb].
    apply reads_ret. rewrite Hrow. split; [done|]. by eapply stay_row.
  - eapply reads_weaken; [apply (next_entry_row fuel ok c i Hat Ht); destruct (decide (s = 0)); [by left|right; destruct Hsd; split; [done|lia]]|]. intros r. unfold next_row. destruct (decide (S i < length L)%nat) as [Hlt|Hge]; intros Hw.
    + destruct (went_row ok c (S i) r old Hbs Hal Hok Hw) as (row' & H1 & H2 & H3). by rewrite H1.
    + rewrite lookup_ge_None_2 by lia. by eapply went_nowhere.
Qed.
Lemma entry_previous fuel ok c i row s old : base c -> L !! i = Some row -> at_row c i -> tidy ok c -> has_flag c BTCF_AtLast = false -> (forall k, ok k -> old = Some k) -> sided c s ->
  reads db (previous_entry cellSizeCk (previous_fuel cellSizeCk index_moveto (S fuel)) c) (arrives (row_before L row.1 s) old).
Proof.
  intros Hbs Hrow Hat Ht Hal Hok Hsd. rewrite (row_before_at i row s Hrow). unfold sided in Hsd. destruct (decide (s < 0)) as [Hs|Hs].
  - rewrite decide_False in Hsd by lia. destruct Hsd as [E1 E2]. unfold previous_entry. rewrite E1, E2. rewrite (bool_decide_eq_false_2 (CURSOR_SKIPNEXT = CURSOR_INVALID)), (bool_decide_eq_true_2 (CURSOR_SKIPNEXT = CURSOR_SKIPNEXT)) by done. replace (s <? 0) with true by lia. cbn [andb].
    apply reads_ret. rewrite Hrow. split; [done|]. by eapply stay_row.
  - eapply reads_weaken; [apply (previous_entry_row fuel ok c i Hat Ht Hal); destruct (decide (s = 0)); [by left|right; destruct Hsd; split; [done|lia]]|]. intros r. unfold prev_row. destruct i as [|i]; intros Hw.
    + by eapply went_nowhere.
    + destruct (went_row ok c i r old Hbs Hal Hok Hw) as (row' & H1 & H2 & H3). by rewrite H1.
Qed.

Lemma restored_old k s c i row r : restored k s c i row r -> exists s' old ok, sided c s' /\ tidy ok c /\ (forall k, ok k -> old = Some k) /\ (old = None \/ k ∈ keys_of L /\ old = Some k) /\ row_after L k s = row_after L row.1 s' /\ row_before L k s = row_before L row.1 s'.
Proof.
  intros [Hl Hbs Ht Ha Hs]. cbv zeta in Hs. destruct (decide (r = 0)) as [E|E].
  - exists s, (Some k), (fun k' => k' = k). destruct Hl as [H1 _ _ _ H5]. assert (E2 : row.1 = k) by (cbn [fst] in H5; lia). split_and!; try done; [by intros ? ->| |by rewrite E2|by rewrite E2]. right. split; [|done]. unfold keys_of. rewrite <- E2. apply list_elem_of_fmap_2. by eapply list_elem_of_lookup_2.
  - exists r, None, no_key. split_and!; try done; [|by left|by apply (landed_after k (r, c) i)|by apply (landed_before k (r, c) i)]. destruct Ht as (T1 & T2 & T3). split_and!; try done. intros Hv. specialize (T3 Hv). destruct Hl as [_ _ _ H4 H5]. cbn [fst snd] in *. specialize (H4 Hv). unfold cursor_nKey in H4. rewrite T1 in H4. exfalso. lia.
Qed.

Lemma arrives_moved o to old r : old_ok L o old -> arrives to old r -> moved o to r.
Proof. intros Ho. unfold arrives, moved. destruct to; [|done]. intros [? ?]. eauto. Qed.
Definition target (l : list (Z * list Z)) (f : list (Z * list Z) -> Z -> Z -> option (Z * list Z)) (o : place) : option (Z * list Z) := match side o with Some (k, s) => f l k s | None => None end.

Lemma next_step c o : stands c o -> reads db (sqlite3BtreeNext cellSizeCk index_moveto c) (moved o (target L row_after o)).
Proof.
  intros [Hbs Hst]. destruct (fresh_ok c) as (F1 & F2 & F3 & F4 & F5 & F6 & _). pose proof (base_kept _ _ F2 Hbs) as Hbs1. assert (Hal1 := kp_last _ _ F2).
  assert (Hnv : eState c <> CURSOR_VALID -> sqlite3BtreeNext cellSizeCk index_moveto c = btreeNext cellSizeCk index_moveto (next_fuel cellSizeCk index_moveto 2) (fresh c)).
  { intros Hs. unfold sqlite3BtreeNext. change 3%nat with (S 2). cbn [next_fuel]. cbv zeta. fold (fresh c). rewrite bool_decide_eq_false_2; [done|exact Hs]. }
  destruct o as [|k s old|k s]; cbn [target side].
  - destruct Hst as [E Hin]. rewrite Hnv by (by rewrite E). unfold btreeNext. rewrite restore_none by (cbn; rewrite E; done). change (mret (fresh c) ≫= ?f) with (f (fresh c)). unfold next_entry. change (eState (fresh c)) with (eState c). rewrite E, bool_decide_eq_true_2 by done. apply reads_ret. split; [done|]. split; [done|]. split; [exact E|].
    intros Hh. destruct (Hin ltac:(by rewrite <- F6)) as (t & fs & j & Hf & Hon). exists t, fs, j. split; [done|by apply on_fresh].
  - destruct Hst as (i & row & H1 & <- & H3 & H4 & H5 & [(E & -> & H6 & _)|(E & E2 & E3 & -> & H6)]).
    + rewrite (row_after_at i row 0 H1), decide_False by lia. eapply reads_weaken; [by apply (next_ok c i)|]. intros r. unfold next_row. destruct (decide (S i < length L)%nat) as [Hlt|Hge]; intros Hw.
      * assert (Hal : has_flag c BTCF_AtLast = false) by (destruct (has_flag c BTCF_AtLast); [specialize (H6 eq_refl); lia|done]). destruct (went_row no_key c (S i) r None Hbs Hal ltac:(done) Hw) as (row' & W1 & W2 & W3). rewrite W1. split; [done|]. exists None. split; [by left|done].
      * rewrite lookup_ge_None_2 by lia. by apply (went_nowhere no_key c).
    + rewrite Hnv by (by rewrite E). unfold btreeNext. rewrite restore_none by (cbn; rewrite E; done). change (mret (fresh c) ≫= ?f) with (f (fresh c)).
      eapply reads_weaken; [apply (entry_next 0 no_key (fresh c) i row s None Hbs1 H1); [by apply (same_place c)|by apply clean_tidy|by rewrite Hal1|done|unfold sided; by rewrite decide_False]|]. intros r. apply arrives_moved. by left.
  - assert (Hsv : is_saved (fresh c) k s) by (destruct Hst as (S1 & S2 & S3 & S4 & S5); split_and!; try done; by rewrite Hal1). rewrite Hnv by (destruct Hst as [-> _]; done). unfold btreeNext. eapply reads_bind; [by apply restore_saved|]. intros c1 [[HL [Hb1 [E Hin]]]|(i & row & r & Hrs)].
    + unfold next_entry. rewrite E, bool_decide_eq_true_2 by done. apply reads_ret. rewrite HL. by split.
    + destruct (restored_old _ _ _ _ _ _ Hrs) as (s' & old & ok & G1 & G2 & G3 & G4 & G5 & _). rewrite G5. destruct Hrs as [[R1 R2 _ _ _] R6 _ R7 _]. eapply reads_weaken; [by apply (entry_next 0 ok c1 i row s' old)|]. intros r'. apply arrives_moved. destruct G4 as [->|[? ->]]; [by left|right; eauto].
Qed.

Lemma previous_step c o : stands c o -> reads db (sqlite3BtreePrevious cellSizeCk index_moveto c) (moved o (target L row_before o)).
Proof.
  intros [Hbs Hst]. set (c1 := forget_info (clear_flags c (Z.lor BTCF_AtLast (Z.lor BTCF_ValidOvfl BTCF_ValidNKey)))).
  assert (Hc1 : clean c1) by (unfold clean, c1, has_flag, flags; cbn; split_and!; [done|by apply flag_cleared|by apply flag_cleared]). assert (Hal1 : has_flag c1 BTCF_AtLast = false) by (unfold c1, has_flag, flags; cbn; by apply flag_cleared).
  assert (Hbs1 : base c1) by (destruct Hbs as [? ? ? Hp ?]; split; try done; revert Hp; unfold c1, has_flag, flags; cbn; by rewrite flag_kept).
  assert (Hnv : eState c <> CURSOR_VALID -> sqlite3BtreePrevious cellSizeCk index_moveto c = btreePrevious cellSizeCk index_moveto (previous_fuel cellSizeCk index_moveto 2) c1).
  { intros Hs. unfold sqlite3BtreePrevious. change 3%nat with (S 2). cbn [previous_fuel]. cbv zeta. fold c1. rewrite bool_decide_eq_false_2; [done|exact Hs]. }
  destruct o as [|k s old|k s]; cbn [target side].
  - destruct Hst as [E Hin]. rewrite Hnv by (by rewrite E). unfold btreePrevious. rewrite restore_none by (cbn; rewrite E; done). change (mret c1 ≫= ?f) with (f c1). unfold previous_entry. change (eState c1) with (eState c). rewrite E, bool_decide_eq_true_2 by done. apply reads_ret. split; [done|]. split; [done|]. split; [exact E|].
    intros Hh. destruct (Hin Hh) as (t & fs & j & Hf & Hon). exists t, fs, j. split; [done|]. destruct Hon. by split.
  - destruct Hst as (i & row & H1 & <- & H3 & H4 & H5 & [(E & -> & H6 & _)|(E & E2 & E3 & -> & H6)]).
    + rewrite (row_before_at i row 0 H1), decide_False by lia. eapply reads_weaken; [by apply (previous_ok c i)|]. intros r. unfold prev_row. set (c2 := clear_flags c BTCF_AtLast). assert (Hbs2 : base c2) by (destruct Hbs as [? ? ? Hp ?]; split; try done; revert Hp; unfold c2, has_flag, flags; cbn; by rewrite flag_kept).
      assert (Hal2 : has_flag c2 BTCF_AtLast = false) by (unfold c2, has_flag, flags; cbn; by apply flag_cleared). destruct i as [|i]; intros Hw; [by apply (went_nowhere no_key c2)|]. destruct (went_row no_key c2 i r None Hbs2 Hal2 ltac:(done) Hw) as (row' & W1 & W2 & W3). rewrite W1. split; [done|]. exists None. split; [by left|done].
    + rewrite Hnv by (by rewrite E). unfold btreePrevious. rewrite restore_none by (cbn; rewrite E; done). change (mret c1 ≫= ?f) with (f c1).
      eapply reads_weaken; [apply (entry_previous 1 no_key c1 i row s None Hbs1 H1); [by apply (same_place c)|by apply clean_tidy|done|done|unfold sided; by rewrite decide_False]|]. intros r. apply arrives_moved. by left.
  - assert (Hsv : is_saved c1 k s) by (destruct Hst as (S1 & S2 & S3 & S4 & S5); by split_and!). rewrite Hnv by (destruct Hst as [-> _]; done). unfold btreePrevious. eapply reads_bind; [by apply restore_saved|]. intros c2 [[HL [Hb1 [E Hin]]]|(i & row & r & Hrs)].
    + unfold previous_entry. rewrite E, bool_decide_eq_true_2 by done. apply reads_ret. rewrite HL. by split.
    + destruct (restored_old _ _ _ _ _ _ Hrs) as (s' & old & ok & G1 & G2 & G3 & G4 & _ & G5). rewrite G5. destruct Hrs as [[R1 R2 _ _ _] R6 _ R7 _]. eapply reads_weaken; [by apply (entry_previous 1 ok c2 i row s' old)|]. intros r'. apply arrives_moved. destruct G4 as [->|[? ->]]; [by left|right; eauto].
Qed.

(** *** Restoring, reading and saving *)

(** The result of a comparison with the key next to the one that is searched. *)
Definition next_to (l : list (Z * list Z)) (K k r : Z) : Prop := k ∈ keys_of l /\
  (r = 0 /\ k = K \/ r = -1 /\ k < K /\ (forall x, x ∈ keys_of l -> k < x -> K < x) \/ r = 1 /\ K < k /\ (forall x, x ∈ keys_of l -> x < k -> x < K)).
Definition settled (l : list (Z * list Z)) (o o' : place) : Prop :=
  match o with
  | Saved k s => l = [] /\ o' = Nowhere \/ exists k' r, next_to l k k' r /\ o' = At k' (if decide (r = 0) then s else r) None
  | _ => o' = o
  end.
Definition on_its_row (o : place) : bool := match o with At _ s _ => s =? 0 | _ => false end.

Lemma key_row x : x ∈ keys_of L -> exists j r, L !! j = Some r /\ r.1 = x.
Proof. intros (r & -> & Hr')%list_elem_of_fmap. apply list_elem_of_lookup in Hr' as [j Hj]. eauto. Qed.
Lemma row_key i row : L !! i = Some row -> row.1 ∈ keys_of L.
Proof. intros H. unfold keys_of. apply list_elem_of_fmap_2. by eapply list_elem_of_lookup_2. Qed.
Lemma landed_next K r i row : landed K r i row -> next_to L K row.1 r.1.
Proof.
  intros [H1 H2 H3 H4 H5]. split; [by eapply row_key|]. destruct H5 as [H5|[(E & H5 & H6)|(E & H5 & H6)]]; [by left|right; left|right; right]; (split; [done|]); (split; [done|]); intros x (j & rj & Hj & <-)%key_row Hx; apply (H6 j rj Hj).
  - by apply (row_order i j row rj).
  - by apply (row_order j i rj row).
Qed.

Lemma restored_stands k s c i row r : restored k s c i row r -> next_to L k row.1 r /\ stands c (At row.1 (if decide (r = 0) then s else r) None).
Proof.
  intros [Hl Hbs Ht Ha Hs]. split; [exact (landed_next _ _ _ _ Hl)|]. split; [done|]. destruct Hl as [H1 H2 H3 H4 H5]. cbn [fst snd] in *. exists i, row. split_and!; try done; [by left; auto|]. cbv zeta in Hs. set (s' := if decide (r = 0) then s else r) in *. destruct (decide (s' = 0)); [left|right; destruct Hs]; rewrite Ha; by split_and!.
Qed.

Lemma restore_step c o : stands c o -> reads db (sqlite3BtreeCursorRestore cellSizeCk index_moveto c) (fun r => exists o', settled L o o' /\ r.1 = negb (on_its_row o') /\ stands r.2 o').
Proof.
  intros Hst. unfold sqlite3BtreeCursorRestore. assert (Hrow : forall c k s old, stands c (At k s old) -> bool_decide (eState c = CURSOR_VALID) = on_its_row (At k s old)).
  { intros c' k s old [_ (i & row & _ & _ & _ & _ & _ & [(E & -> & _)|(E & _ & Hs & _)])]; rewrite E; cbn [on_its_row]; [done|]. rewrite bool_decide_eq_false_2 by done. lia. }
  assert (Hnw : forall c, stands c Nowhere -> bool_decide (eState c = CURSOR_VALID) = false) by (intros c' [_ [E _]]; by rewrite E).
  destruct o as [|k s old|k s].
  - rewrite restore_none by (destruct Hst as [_ [-> _]]; done). apply reads_ret. exists Nowhere. cbn [fst snd]. by rewrite Hnw.
  - rewrite restore_none by (destruct Hst as [_ (i & row & _ & _ & _ & _ & _ & [(E & _)|(E & _)])]; by rewrite E). apply reads_ret. exists (At k s old). cbn [fst snd]. by rewrite (Hrow c k s old).
  - destruct Hst as [Hbs Hst]. eapply reads_bind; [by apply restore_saved|]. intros c1 [[HL H1]|(i & row & r & Hrs)]; apply reads_ret; cbn [fst snd].
    + exists Nowhere. rewrite Hnw by done. split; [by left|done].
    + destruct (restored_stands _ _ _ _ _ _ Hrs) as [G1 G2]. exists (At row.1 (if decide (r = 0) then s else r) None). rewrite (Hrow _ _ _ _ G2). split; [right; eauto|done].
Qed.

(** A row with its key. *)
Definition row_with (l : list (Z * list Z)) (k : Z) (P : list Z) : Prop := (k, P) ∈ l.

Lemma known_stands c c' k s old i row : base c -> L !! i = Some row -> row.1 = k -> at_row c' i -> on_entry c' i -> kept c c' -> knows c' row.1 -> on_row c k s old -> at_row c i -> stands c' (At k s None).
Proof.
  intros Hbs H1 H2 H3 H4 H5 H6 (i' & row' & G1 & G2 & G3 & G4 & G5 & G6) H7. split; [by eapply base_kept|]. assert (i' = i) as ->.
  { pose proof (row_order i i' row row' H1 G1). pose proof (row_order i' i row' row G1 H1). lia. }
  exists i, row. split_and!; try done; [by rewrite <- H2; auto|]. destruct H5 as [K1 K2 _ _ _ _ _ K8 _]. rewrite K1, K2, K8. destruct G6 as [(? & ? & ? & ?)|(? & ? & ? & ? & ?)]; [left|right]; split_and!; done.
Qed.

Lemma info_step c k s old : stands c (At k s old) -> reads db (read_info c) (fun r => exists P, row_with L k P /\ nKey r.1 = k /\ nPayload r.1 = zlen P /\ stands r.2 (At k s None) /\ kept c r.2).
Proof.
  intros [Hbs Hst]. assert (Hst' := Hst). destruct Hst' as (i & row & H1 & H2 & H3 & H4 & _). eapply reads_weaken; [by apply (read_info_ok c i)|]. intros [inf c'] (row' & G1 & G2 & G3 & G4 & G5 & G6 & G7). cbn [fst snd] in *. rewrite H1 in G1. injection G1 as <-. exists row.2. split; [|split; [congruence|split; [done|split; [|done]]]].
  - unfold row_with. rewrite <- H2, <- surjective_pairing. by eapply list_elem_of_lookup_2.
  - apply (known_stands c c' k s old i row); try done. by intros _.
Qed.
Lemma payload_step c k s old P offset amt buf : stands c (At k s old) -> row_with L k P -> bytes_ok buf -> 0 <= offset -> 0 <= amt -> offset + amt <= zlen P -> amt <= zlen buf ->
  reads db (read_payload c offset amt buf) (fun r => r.1 = splice buf 0 (slice P offset amt) /\ stands r.2 (At k s None)).
Proof.
  intros [Hbs Hst] HP Bb H0 Ha Hle Hlb. assert (Hst' := Hst). destruct Hst' as (i & row & H1 & H2 & H3 & H4 & _). apply list_elem_of_lookup in HP as [j Hj]. assert (j = i) as ->. { pose proof (row_order i j row (k, P) H1 Hj). pose proof (row_order j i (k, P) row Hj H1). cbn [fst] in *. lia. }
  rewrite H1 in Hj. injection Hj as Erow. subst row. cbn [fst snd] in *. eapply reads_weaken; [by apply (read_payload_ok c i offset amt buf (k, P))|]. intros [b c'] (G1 & G2 & G3 & G4 & G5). split; [done|]. cbn [fst snd] in *. by apply (known_stands c c' k s old i (k, P)).
Qed.

Definition saved (o : place) : place := match o with At k s _ => Saved k s | o => o end.
(** What a cursor without pages stands for does not depend on the tree. *)
Definition let_go (c : Cursor) (o : place) : Prop := held c = false /\ base c /\ match o with Nowhere => eState c = CURSOR_INVALID | At _ _ _ => False | Saved k s => is_saved c k s end.

Lemma save_step c o : stands c o -> reads db (save_cursor c) (fun c' => let_go c' (saved o)).
Proof.
  intros [Hbs Hst]. unfold save_cursor. destruct o as [|k s old|k s].
  - destruct Hst as [E _]. rewrite E, !bool_decide_eq_false_2 by done. apply reads_ret. split; [done|]. split; [destruct Hbs; by split|exact E].
  - assert (E0 : bool_decide (eState c = CURSOR_VALID) || bool_decide (eState c = CURSOR_SKIPNEXT) = true) by (destruct Hst as (i & row & _ & _ & _ & _ & _ & [(E & _)|(E & _)]); by rewrite E). rewrite E0. unfold saveCursorPosition. rewrite (bs_pin _ Hbs). cbv zeta.
    set (c1 := if bool_decide (eState c = CURSOR_SKIPNEXT) then _ else _). assert (H1 : stands c1 (At k 0 old) /\ skipNext c1 = s /\ curIntKey c1 = true /\ pKey c1 = None).
    { destruct Hst as (i & row & G1 & G2 & G3 & G4 & G5 & G6). assert (Hint : curIntKey c = true) by (by destruct G3 as (p & rows & fs & j & _ & [] & _)). assert (Hp := bs_key _ Hbs). destruct G6 as [(E & -> & G6 & G7)|(E & E2 & E3 & E4 & G6)].
      - unfold c1. rewrite E, bool_decide_eq_false_2 by done. split; [|done]. split; [destruct Hbs; by split|]. exists i, row. split_and!; try done; [by eapply same_place|]. by left.
      - unfold c1. rewrite E, bool_decide_eq_true_2 by done. split; [|done]. split; [destruct Hbs; by split|]. exists i, row. split_and!; try done; [by eapply same_place|]. left. split_and!; try done. intros Hv. change (has_flag c BTCF_AtLast = true) in Hv. congruence. }
    destruct H1 as (H1 & H2 & H3 & H4). unfold saveCursorKey. rewrite H3.
    eapply reads_bind; [apply (reads_bind db (sqlite3BtreeIntegerKey c1) _ (fun r => r.1 = k /\ stands r.2 (At k 0 None) /\ kept c1 r.2) (fun c2 => exists c3, c2 = set_saved c3 None k /\ stands c3 (At k 0 None) /\ skipNext c3 = s))|].
    + unfold sqlite3BtreeIntegerKey. eapply reads_bind; [by apply (info_step c1 k 0 old)|]. intros [inf c2] (P & _ & K1 & _ & K3 & K4). by apply reads_ret.
    + intros [k' c2] (K0 & K1 & K2). cbn [fst snd] in *. subst k'. apply reads_ret. exists c2. rewrite (kp_key _ _ K2), H4, (kp_skip _ _ K2). done.
    + intros c2 (c3 & -> & [Hb3 _] & Hs3). apply reads_ret. unfold let_go. cbn [saved]. set (m := Z.lor _ _).
      assert (Hal : has_flag (clear_flags (set_state (btreeReleaseAllCursorPages (set_saved c3 None k)) CURSOR_REQUIRESEEK) m) BTCF_AtLast = false) by (unfold has_flag, flags; cbn; by apply flag_cleared).
      split; [done|]. split; [|by split_and!]. destruct Hb3 as [? ? ? Hp ?]. split; try done. revert Hp. unfold has_flag, flags. cbn. by rewrite flag_kept.
  - destruct Hst as (E & H2 & H3 & H4 & H5). rewrite E, !bool_decide_eq_false_2 by done. apply reads_ret. split; [done|]. split; [destruct Hbs; by split|]. by split_and!.
Qed.

(** *** Moving to a rowid *)

(** Where [sqlite3BtreeTableMoveto] ends, or that it did not look because of the key the cursor was taken for. *)
Definition sought (l : list (Z * list Z)) (o : place) (K r : Z) (o' : place) : Prop :=
  l = [] /\ r = -1 /\ o' = Nowhere \/ (exists k, next_to l K k r /\ o' = At k 0 None) \/ (exists k, o = At k 0 (Some K) /\ r = 0 /\ o' = o).

Lemma search_step c o o0 K bias : stands c o -> reads db (table_search cellSizeCk c K bias) (fun r => exists o', sought L o0 K r.1 o' /\ stands r.2 o').
Proof.
  intros Hst. eapply reads_weaken; [apply table_search_ok; [apply Hst|by eapply stands_pages]|]. intros [r c1] [[(E1 & -> & E3 & E4)|(E1 & i & row & Hl)] B T A Sk]; cbn [fst snd] in *.
  - exists Nowhere. split; [by left|]. split; [done|]. split; [done|]. by intros _.
  - exists (At row.1 0 None). split; [right; left; exists row.1; split; [exact (landed_next _ _ _ _ Hl)|done]|]. destruct Hl as [H1 H2 H3 H4 H5]. cbn [snd] in *. apply (valid_on c1 i row); try done. rewrite A. done.
Qed.

Lemma moveto_step c o K bias : stands c o -> reads db (sqlite3BtreeTableMoveto cellSizeCk index_moveto c K bias) (fun r => exists o', sought L o K r.1 o' /\ stands r.2 o').
Proof.
  intros Hst. unfold sqlite3BtreeTableMoveto. destruct (_ && _) eqn:E; [|by eapply search_step]. apply andb_true_iff in E as [Ev Ek]. apply bool_decide_eq_true in Ev. cbv zeta.
  destruct o as [|k s old|k s]; [destruct Hst as [_ [? _]]; congruence| |destruct Hst as [_ [? _]]; congruence]. assert (Hst' := Hst). destruct Hst' as [Hbs (i & row & H1 & H2 & H3 & H4 & H5 & [(_ & -> & H6 & H7)|(E & _)])]; [|congruence]. specialize (H5 Ek).
  destruct (Z.eqb_spec (cursor_nKey c) K) as [EK|NK].
  - apply reads_ret. cbn [fst snd]. destruct H5 as [H5|H5].
    + exists (At k 0 None). split; [right; left; exists k; split; [split; [rewrite <- H2; by eapply row_key|left; split; [done|congruence]]|done]|]. apply (known_stands c c k 0 old i row); try done; [intros _; congruence|]. exists i, row. split_and!; try done; [by left|]. by left.
    + exists (At k 0 old). split; [right; right; exists k; rewrite H5, EK; done|done].
  - destruct ((_ <? K) && has_flag c BTCF_AtLast) eqn:EL.
    + apply andb_true_iff in EL as [Hlt El]. apply Z.ltb_lt in Hlt. specialize (H6 El). destruct old as [x|]; [rewrite H7 in El; done|]. destruct H5 as [H5|H5]; [|done]. apply reads_ret. cbn [fst snd]. exists (At k 0 None). split; [|done]. right. left. exists k. split; [|done]. split; [rewrite <- H2; by eapply row_key|]. right. left.
      split; [done|]. split; [lia|]. intros x (j & rj & Hj & <-)%key_row Hx. rewrite <- H2 in Hx. apply (row_order i j row rj H1 Hj) in Hx. apply lookup_lt_Some in Hj. lia.
    + destruct ((cursor_nKey c <? K) && (cursor_nKey c + 1 =? K)) eqn:En; [|by eapply search_step]. apply andb_true_iff in En as [_ En]. eapply reads_bind; [by apply next_step|]. intros [rc c1] Hm. cbn [target side] in Hm. unfold moved in Hm. cbn [fst snd] in Hm. destruct (row_after L k 0) as [row'|].
      * destruct Hm as [-> (old' & _ & Hst1)]. change (SQLITE_OK =? SQLITE_OK) with true. cbv iota. eapply reads_bind; [by eapply info_step|]. intros [inf c2] (P & G1 & G2 & _ & G3 & _). cbn [fst snd] in *. destruct (Z.eqb_spec (nKey inf) K) as [EK|_]; [|by eapply search_step].
        apply reads_ret. cbn [fst snd]. exists (At row'.1 0 None). split; [|done]. right. left. exists row'.1. split; [|done]. split; [|left; split; [done|congruence]]. unfold row_with in G1. unfold keys_of. apply list_elem_of_fmap. by exists (row'.1, P).
      * destruct Hm as [-> Hst1]. change (SQLITE_DONE =? SQLITE_OK) with false. cbv iota. by eapply search_step.
Qed.

End moves.
End file.
