(* ===== verification/BtreeTable.v ===== *)
(** A table behind a cursor: a cursor that is opened on a table and then moved, read, saved and
    restored in any order, while the table is written in between, behaves as a place among rows
    that are sorted by rowid. *)

From stdpp Require Import sorting.
From S2P Require Import Prelude Bits Varint Numeric Regions BtreeCell BtreePage BtreeSpace BtreeFile BtreeFree BtreeAlloc BtreePayload BtreeCursor BtreeTree.

(** The file has a table with this root and these rows. *)
Definition table (cellSizeCk : bool) (root : Z) (db : Db) (l : list (Z * list Z)) : Prop :=
  wf_bt (bt db) /\ autoVacuum (bt db) = false /\ limits_ok (bt db) (snd (decodeFlags (bt db) no_type 13)) /\ exists t, table_at cellSizeCk db root t /\ rows_of t = l.

(** ** What a client does *)

(** [Look] is what a column of the current row takes: the position is restored and, if that is
    the row the cursor was on, its key, the size of its payload and a part of that are read.
    [WriteTable] is a change of the table by another cursor, which begins with [saveAllCursors]. *)
Inductive action := GoFirst | GoLast | GoNext | GoPrevious | GoTo (key : Z) (biasRight : bool) | Restored | Look (offset amt : Z) | WriteTable (db' : Db).
Inductive outcome := Code (rc : Z) | Different (row : bool) | Entry (e : option (Z * Z * list Z)) | Written.

(** The bytes there are of those that are asked for. *)
Definition clamp (offset amt n : Z) : Z := Z.max 0 (Z.min amt (n - offset)).

Section client.
Context (cellSizeCk : bool) (index_moveto : Cursor -> list Z -> btm (Z * Cursor)).

Definition look (c : Cursor) (offset amt : Z) : btm (outcome * Cursor) :=
  '(different, c) ← sqlite3BtreeCursorRestore cellSizeCk index_moveto c;
  if different : bool then mret (Entry None, c)
  else
    '(k, c) ← sqlite3BtreeIntegerKey c;
    '(n, c) ← sqlite3BtreePayloadSize c;
    if clamp offset amt n =? 0 then mret (Entry (Some (k, n, [])), c)
    else
      '(b, c) ← read_payload c offset (clamp offset amt n) (replicate (Z.to_nat (clamp offset amt n)) 0);
      mret (Entry (Some (k, n, b)), c).

Definition coded (m : btm (Z * Cursor)) : btm (outcome * Cursor) := '(rc, c) ← m; mret (Code rc, c).
Definition act (a : action) (c : Cursor) : btm (outcome * Cursor) :=
  match a with
  | GoFirst => coded (sqlite3BtreeFirst cellSizeCk c)
  | GoLast => coded (sqlite3BtreeLast cellSizeCk c)
  | GoNext => coded (sqlite3BtreeNext cellSizeCk index_moveto c)
  | GoPrevious => coded (sqlite3BtreePrevious cellSizeCk index_moveto c)
  | GoTo key biasRight => coded (sqlite3BtreeTableMoveto cellSizeCk index_moveto c key biasRight)
  | Restored => '(b, c) ← sqlite3BtreeCursorRestore cellSizeCk index_moveto c; mret (Different b, c)
  | Look offset amt => look c offset amt
  | WriteTable db' => c ← save_cursor c; upd (fun db => set_answers db' (answers db));; mret (Written, c)
  end.
Fixpoint session (l : list action) (c : Cursor) : btm (list outcome) :=
  match l with
  | [] => mret []
  | a :: l => '(out, c) ← act a c; outs ← session l c; mret (out :: outs)
  end.

(** A cursor in memory of any content is opened and used. *)
Definition open_session (root : Z) (wrFlag others : bool) (l : list action) (c : Cursor) : btm (list outcome) :=
  c ← btreeCursor root wrFlag false others (sqlite3BtreeCursorZero c); session l c.
End client.

(** ** What it can expect *)

(** From the rows and the place before an action to those after it. *)
Definition goes (rc : Z) (l : list (Z * list Z)) (o : place) (to : option (Z * list Z)) (o' : place) : Prop :=
  match to with
  | Some row => rc = SQLITE_OK /\ exists old, old_ok l o old /\ o' = At row.1 0 old
  | None => rc = SQLITE_DONE /\ o' = Nowhere
  end.
Definition entry_of (l : list (Z * list Z)) (offset amt : Z) (o o' : place) (e : option (Z * Z * list Z)) : Prop :=
  if on_its_row o then exists k old P, o = At k 0 old /\ (k, P) ∈ l /\ e = Some (k, zlen P, slice P offset (clamp offset amt (zlen P))) /\ o' = At k 0 None else e = None /\ o' = o.
Definition expected (cellSizeCk : bool) (root : Z) (l : list (Z * list Z)) (o : place) (a : action) (out : outcome) (l' : list (Z * list Z)) (o' : place) : Prop :=
  match a, out with
  | GoFirst, Code rc => l' = l /\ rc = (if decide (l = []) then 1 else 0) /\ o' = near (head l)
  | GoLast, Code rc => l' = l /\ rc = (if decide (l = []) then 1 else 0) /\ o' = near (last l)
  | GoNext, Code rc => l' = l /\ goes rc l o (target l row_after o) o'
  | GoPrevious, Code rc => l' = l /\ goes rc l o (target l row_before o) o'
  | GoTo key _, Code rc => l' = l /\ sought l o key rc o'
  | Restored, Different b => l' = l /\ settled l o o' /\ b = negb (on_its_row o')
  | Look offset amt, Entry e => l' = l /\ exists o1, settled l o o1 /\ entry_of l offset amt o1 o' e
  | WriteTable db', Written => table cellSizeCk root db' l' /\ o' = saved o
  | _, _ => False
  end.
Fixpoint follows (cellSizeCk : bool) (root : Z) (l : list (Z * list Z)) (o : place) (acts : list action) (outs : list outcome) : Prop :=
  match acts, outs with
  | [], [] => True
  | a :: acts, out :: outs => exists l' o', expected cellSizeCk root l o a out l' o' /\ follows cellSizeCk root l' o' acts outs
  | _, _ => False
  end.
(** Offsets are not negative, and what is written is a table. *)
Definition action_ok (cellSizeCk : bool) (root : Z) (a : action) : Prop :=
  match a with Look offset amt => 0 <= offset | WriteTable db' => exists l, table cellSizeCk root db' l | _ => True end.

(** ** It does *)

Section proofs.
Context (cellSizeCk : bool) (index_moveto : Cursor -> list Z -> btm (Z * Cursor)) (root : Z).

Definition stands_in (db : Db) (l : list (Z * list Z)) (c : Cursor) (o : place) : Prop :=
  wf_bt (bt db) /\ autoVacuum (bt db) = false /\ limits_ok (bt db) (snd (decodeFlags (bt db) no_type 13)) /\ exists t, table_at cellSizeCk db root t /\ rows_of t = l /\ stands cellSizeCk db t c o.

(** After an action that only reads. *)
Definition done_by (db : Db) (l : list (Z * list Z)) (o : place) (a : action) (r : outcome * Cursor) : Prop :=
  exists o', expected cellSizeCk root l o a r.1 l o' /\ stands_in db l r.2 o'.

Lemma coded_ok db l o a m (P : Z * Cursor -> Prop) : reads db m P -> (forall r, P r -> done_by db l o a (Code r.1, r.2)) -> reads db (coded m) (done_by db l o a).
Proof. intros H HP. unfold coded. eapply reads_bind; [exact H|]. intros [rc c] Hr. apply reads_ret. by apply (HP (rc, c)). Qed.

Lemma moved_by db t o to r : moved cellSizeCk db t o to r -> exists o', goes r.1 (rows_of t) o to o' /\ stands cellSizeCk db t r.2 o'.
Proof. unfold moved, goes. destruct to as [row|]; [intros [E (old & Ho & Hs)]|intros [E Hs]]; eexists; (split; [|exact Hs]); eauto. Qed.

Lemma look_ok db l c o offset amt : 0 <= offset -> stands_in db l c o -> reads db (look cellSizeCk index_moveto c offset amt) (done_by db l o (Look offset amt)).
Proof.
  intros H0 (Hb & Hav & Hl & t & [T1 T2 T3 T4] & <- & Hs). assert (Hp : forall c o, stands cellSizeCk db t c o -> stands_in db (rows_of t) c o) by (intros; split_and!; try done; exists t; by split_and!).
  unfold look. eapply reads_bind; [by eapply restore_step|]. intros [b c1] (o1 & S1 & S2 & S3). cbn [fst snd] in *. subst b. destruct (on_its_row o1) eqn:E; cbn [negb].
  - destruct o1 as [|k s old|k s]; try done. cbn [on_its_row] in E. apply Z.eqb_eq in E as ->. unfold sqlite3BtreeIntegerKey, sqlite3BtreePayloadSize.
    eapply reads_bind; [eapply (reads_bind db _ _ _ (fun r => r.1 = k /\ stands cellSizeCk db t r.2 (At k 0 None))); [by eapply info_step|]|].
    { intros [i c2] (P & _ & G2 & _ & G4 & _). by apply reads_ret. }
    intros [k' c2] [K1 K2]. cbn [fst snd] in *. subst k'.
    eapply reads_bind; [eapply (reads_bind db _ _ _ (fun r => exists P, row_with (rows_of t) k P /\ r.1 = zlen P /\ stands cellSizeCk db t r.2 (At k 0 None))); [by eapply info_step|]|].
    { intros [i c3] (P & G1 & _ & G3 & G4 & _). apply reads_ret. eauto. }
    intros [n c3] (P & N1 & N2 & N3). cbn [fst snd] in *. subst n. set (m := clamp offset amt (zlen P)). assert (Hdone : forall b c4, b = slice P offset m -> stands cellSizeCk db t c4 (At k 0 None) -> done_by db (rows_of t) o (Look offset amt) (Entry (Some (k, zlen P, b)), c4)).
    { intros b c4 -> Hc4. exists (At k 0 None). split; [|by apply Hp]. split; [done|]. exists (At k 0 old). split; [done|]. unfold entry_of. cbn [on_its_row]. exists k, old, P. done. }
    destruct (Z.eqb_spec m 0) as [E|E]; [apply reads_ret, Hdone; [by rewrite E|done]|]. assert (Hm : 0 < m /\ offset + m <= zlen P) by (unfold m, clamp in *; lia).
    eapply reads_bind; [eapply (payload_step cellSizeCk db t); try done; [apply Forall_replicate; unfold is_u8; lia|lia|lia|unfold zlen; rewrite length_replicate; lia]|].
    intros [b c4] [B1 B2]. cbn [fst snd] in *. apply reads_ret, Hdone; [|done]. rewrite B1. assert (Ls : zlen (slice P offset m) = m) by (apply zlen_slice; lia). unfold splice. cbn [Z.to_nat take app]. rewrite drop_ge; [by rewrite app_nil_r|]. rewrite length_replicate. unfold zlen in Ls. lia.
  - apply reads_ret. exists o1. split; [|by apply Hp]. split; [done|]. exists o1. split; [done|]. unfold entry_of. by rewrite E.
Qed.

(** An action, and the file and the rows after it. *)
Lemma act_ok db l c o a : stands_in db l c o -> action_ok cellSizeCk root a -> forall db0, sees db db0 ->
  ends (act cellSizeCk index_moveto a c) db0 (fun r db1 => exists db' l' o', sees db' db1 /\ expected cellSizeCk root l o a r.1 l' o' /\ stands_in db' l' r.2 o').
Proof.
  intros Hpl Ha db0 Hs. assert (Hpl' := Hpl). destruct Hpl' as (Hb & Hav & Hl & t & [T1 T2 T3 T4] & El & Hst). assert (Hp : forall c o, stands cellSizeCk db t c o -> stands_in db l c o) by (intros; split_and!; try done; exists t; by split_and!).
  assert (Hread : reads db (act cellSizeCk index_moveto a c) (done_by db l o a) -> ends (act cellSizeCk index_moveto a c) db0 (fun r db1 => exists db' l' o', sees db' db1 /\ expected cellSizeCk root l o a r.1 l' o' /\ stands_in db' l' r.2 o')).
  { intros H. eapply ends_weaken; [by apply H|]. intros r db1 [Hs1 (o' & H1 & H2)]. exists db, l, o'. done. }
  destruct a as [| | | |key bias| |offset amt|dbn]; cbn [act action_ok] in *.
  - apply Hread. eapply coded_ok; [by eapply first_ok|]. intros r [R1 R2]. eexists. split; [|by apply Hp]. cbn [fst expected]. by rewrite <- El.
  - apply Hread. eapply coded_ok; [by eapply last_ok|]. intros r [R1 R2]. eexists. split; [|by apply Hp]. cbn [fst expected]. by rewrite <- El.
  - apply Hread. eapply coded_ok; [by eapply next_step|]. intros r Hr. destruct (moved_by _ _ _ _ _ Hr) as (o' & G1 & G2). exists o'. split; [|by apply Hp]. cbn [fst expected]. by rewrite <- El.
  - apply Hread. eapply coded_ok; [by eapply previous_step|]. intros r Hr. destruct (moved_by _ _ _ _ _ Hr) as (o' & G1 & G2). exists o'. split; [|by apply Hp]. cbn [fst expected]. by rewrite <- El.
  - apply Hread. eapply coded_ok; [by eapply moveto_step|]. intros r (o' & G1 & G2). exists o'. split; [|by apply Hp]. cbn [fst expected]. by rewrite <- El.
  - apply Hread. eapply reads_bind; [by eapply restore_step|]. intros [b c1] (o' & G1 & G2 & G3). apply reads_ret. exists o'. split; [|by apply Hp]. cbn [fst snd expected] in *. by rewrite <- El.
  - apply Hread. by apply look_ok.
  - destruct Ha as (ln & Hbn & Havn & Hln & tn & Htn & En). eapply ends_use; [by eapply save_step|]. intros c1 db1 [_ (L1 & L2 & L3)]. eapply ends_use; [by apply (ends_upd _ _ (fun _ db2 => sees dbn db2))|]. intros [] db2 Hs2. apply ends_ret. exists dbn, ln, (saved o). cbn [fst snd expected].
    split; [done|]. split; [split; [|done]; split_and!; try done; by exists tn|]. split_and!; try done. exists tn. split; [done|]. split; [done|]. split; [destruct L2 as [B1 B2 B3 B4 B5]; split; try done; destruct Htn; congruence|]. destruct (saved o); [|done|done]. split; [done|]. congruence.
Qed.

Lemma cursor_session_ok acts : Forall (action_ok cellSizeCk root) acts -> forall db l c o, stands_in db l c o -> forall db0, sees db db0 ->
  ends (session cellSizeCk index_moveto acts c) db0 (fun outs _ => follows cellSizeCk root l o acts outs).
Proof.
  induction 1 as [|a acts Ha _ IH]; intros db l c o Hp db0 Hs; cbn [session]; [by apply ends_ret|]. eapply ends_use; [by apply (act_ok db l c o a)|]. intros [out c1] db1 (db' & l' & o' & S1 & S2 & S3). cbn [fst snd] in *.
  eapply ends_use; [by eapply IH|]. intros outs db2 Hf. apply ends_ret. cbn [follows]. eauto.
Qed.

Lemma opened_ok db l wrFlag others c : table cellSizeCk root db l -> forall db0, sees db db0 ->
  ends (btreeCursor root wrFlag false others (sqlite3BtreeCursorZero c)) db0 (fun c1 db1 => sees db db1 /\ stands_in db l c1 Nowhere).
Proof.
  intros (Hb & Hav & Hl & t & Ht & El) db0 Hs. assert (Hpg : page_ok cellSizeCk db root). { destruct Ht as [T1 <- _ _]. destruct t; [by destruct (shaped_leaf_inv _ _ _ _ _ T1)|by destruct (shaped_node_inv _ _ _ _ _ _ T1)]. } destruct Hpg as [Hpg _].
  unfold btreeCursor. apply ends_bind, ends_get_db. replace (root <? 1) with false by lia. assert (E := Hs). destruct E as (E1 & E2 & _). rewrite E2. replace ((root =? 1) && (nPage db =? 0)) with false by lia. cbv zeta.
  set (f := Z.lor _ _). assert (Hf : Z.land f BTCF_Pinned = 0) by (unfold f; by destruct others, wrFlag). apply (ends_use _ _ _ (fun _ db1 => sees db db1)).
  - destruct wrFlag; [|by apply ends_ret]. apply ends_pager_call. intros a _. etrans; [exact Hs|apply sees_answers].
  - intros [] db1 Hs1. apply ends_ret. split; [done|]. split_and!; try done. exists t. split; [done|]. split; [done|]. split; [|by split]. split; try done; [symmetry; apply Ht|]. unfold has_flag, flags. cbn. by rewrite Hf.
Qed.
End proofs.

Lemma open_session_ok cellSizeCk index_moveto root db rows wrFlag others acts c : table cellSizeCk root db rows -> Forall (action_ok cellSizeCk root) acts ->
  ends (open_session cellSizeCk index_moveto root wrFlag others acts c) db (fun outs _ => follows cellSizeCk root rows Nowhere acts outs).
Proof.
  intros Ht Ha. unfold open_session. eapply ends_use; [by apply (opened_ok cellSizeCk root db rows)|]. intros c1 db1 [Hs Hp]. by eapply cursor_session_ok.
Qed.

(** ** A scan *)

Definition scan_from (n : nat) (amt : Z) : list action := mjoin (replicate n [Look 0 amt; GoNext]).
(** What a scan reads: every row, and the code of the step after it. *)
Fixpoint scanned (l : list (Z * list Z)) : list outcome :=
  match l with [] => [] | r :: l => Entry (Some (r.1, zlen r.2, r.2)) :: Code (match l with [] => SQLITE_DONE | _ => SQLITE_OK end) :: scanned l end.

Lemma table_sorted cellSizeCk root db l : table cellSizeCk root db l -> exists t, rows_of t = l /\ StronglySorted Z.lt (keys_of (rows_of t)).
Proof. intros (_ & _ & _ & t & [_ _ H _] & E). eauto. Qed.

Lemma scan_follows cellSizeCk root amt l : StronglySorted Z.lt (keys_of l) -> Forall (fun r => zlen r.2 <= amt) l -> forall post pre row outs, l = pre ++ row :: post ->
  follows cellSizeCk root l (At row.1 0 None) (scan_from (S (length post)) amt) outs -> outs = scanned (row :: post).
Proof.
  intros Hso Ha. assert (Huniq : forall i j r r', l !! i = Some r -> l !! j = Some r' -> r.1 = r'.1 -> r = r').
  { intros i j r r' Hi Hj E. pose proof (rows_order l i j r r' Hso Hi Hj). pose proof (rows_order l j i r' r Hso Hj Hi). assert (i = j) as -> by lia. congruence. }
  induction post as [|row2 post IH]; intros pre row outs E Hf; assert (Hrow : l !! length pre = Some row) by (by rewrite E, list_lookup_middle); cbn [scan_from replicate length mjoin list_join app follows] in Hf;
    (destruct outs as [|out1 [|out2 outs]]; [done|by destruct Hf as (? & ? & _ & [])|]); destruct Hf as (l1 & o1 & H1 & l2 & o2 & H2 & Hf).
  all: destruct out1 as [| |e|]; try done; destruct H1 as [-> (o' & -> & H1)]; unfold entry_of in H1; cbn [on_its_row Z.eqb] in H1; destruct H1 as (k & old & P & [= <- <-] & HP & -> & ->).
  all: apply list_elem_of_lookup in HP as [j HP]; pose proof (Huniq _ _ _ _ Hrow HP eq_refl) as Er; destruct row as [k' P']; injection Er as <-; cbn [fst snd] in *.
  all: assert (Hc : clamp 0 amt (zlen P') = zlen P') by (rewrite Forall_forall in Ha; specialize (Ha (k', P') ltac:(by eapply list_elem_of_lookup_2)); cbn [snd] in Ha; pose proof (zlen_nonneg P'); unfold clamp; lia); rewrite Hc, slice_whole.
  all: destruct out2 as [rc| | |]; try done; destruct H2 as [-> H2]; cbn [target side] in H2; pose proof (rows_after_at l (length pre) (k', P') 0 Hso Hrow) as Hra; cbn [fst] in Hra; rewrite Hra, decide_False in H2 by lia.
  - rewrite lookup_ge_None_2 in H2 by (rewrite E, length_app; cbn; lia). destruct H2 as [-> ->]. destruct outs; [done|done].
  - assert (Hnext : l !! S (length pre) = Some row2) by (rewrite E, lookup_app_r by lia; by replace (S (length pre) - length pre)%nat with 1%nat by lia). rewrite Hnext in H2. destruct H2 as [-> (old & [->|(? & ? & [=] & _)] & ->)]. cbn [scanned fst snd].
    do 2 f_equal. apply (IH (pre ++ [(k', P')])); [by rewrite <- app_assoc|exact Hf].
Qed.

(** ** Theorems *)

(** C17. A cursor that is opened on a table, in memory of any content, and then moved to the
    first and the last row, to the next and the previous one and to rowids, restored and read,
    in any order, while the table is rewritten in between by another cursor, which saves the
    position first, is a place among rows that are sorted by rowid.  [sqlite3BtreeNext] goes
    to the row with the least rowid after the place, [sqlite3BtreePrevious] to the greatest
    before it, also when the row it was on is no longer there; [sqlite3BtreeTableMoveto] ends
    at the rowid, or at a neighbour and says on which side; a restored cursor knows if its row
    is gone; what is read is the rowid, the size and the bytes of the row, from overflow pages
    too.  No depth of the tree, no short cut and no cache of the cursor makes a difference,
    but one: after a step from a position that had to be restored the cursor may take the old
    rowid for that of its row, and a search for that rowid does not move it.  The file is never
    found corrupt; an error is one that the pager or an allocation reported. *)
Theorem cursor_refines_rows (cellSizeCk : bool) (index_moveto : Cursor -> list Z -> btm (Z * Cursor)) (root : Z) (db : Db) (rows : list (Z * list Z)) (wrFlag others : bool) (acts : list action) (c : Cursor) :
  table cellSizeCk root db rows -> Forall (action_ok cellSizeCk root) acts ->
  match open_session cellSizeCk index_moveto root wrFlag others acts c db with
  | (inr outs, _) => follows cellSizeCk root rows Nowhere acts outs
  | (inl rc, _) => rc ∈ answers db /\ rc <> SQLITE_OK
  end.
Proof.
  intros Ht Ha. pose proof (open_session_ok cellSizeCk index_moveto root db rows wrFlag others acts c Ht Ha) as H. unfold ends in H. by destruct (open_session _ _ _ _ _ _ _ _) as [[rc|outs] db1]; [|destruct H].
Qed.

(** C18. A scan ends after as many steps as the table has rows, with [SQLITE_DONE], and has read
    every row once, in the order of the rowids, with its whole payload. *)
Theorem scan_lists_table (cellSizeCk : bool) (index_moveto : Cursor -> list Z -> btm (Z * Cursor)) (root : Z) (db : Db) (rows : list (Z * list Z)) (wrFlag others : bool) (amt : Z) (c : Cursor) :
  table cellSizeCk root db rows -> Forall (fun r => zlen r.2 <= amt) rows ->
  match open_session cellSizeCk index_moveto root wrFlag others (GoFirst :: scan_from (length rows) amt) c db with
  | (inr outs, _) => outs = Code (if decide (rows = []) then 1 else 0) :: scanned rows
  | (inl rc, _) => rc ∈ answers db /\ rc <> SQLITE_OK
  end.
Proof.
  intros Ht Ha. assert (Hok : Forall (action_ok cellSizeCk root) (GoFirst :: scan_from (length rows) amt)).
  { apply Forall_cons_2; [done|]. unfold scan_from. generalize (length rows). intros n. induction n as [|n IH]; [constructor|]. cbn [replicate mjoin list_join app]. by repeat apply Forall_cons_2. }
  pose proof (open_session_ok cellSizeCk index_moveto root db rows wrFlag others _ c Ht Hok) as H. unfold ends in H. destruct (open_session _ _ _ _ _ _ _ _) as [[rc|outs] db1]; [done|]. destruct H as [H _].
  destruct (table_sorted _ _ _ _ Ht) as (t & El & Hso). rewrite El in Hso. cbn [follows] in H. destruct outs as [|out outs]; [done|]. destruct H as (l' & o' & H1 & H2). destruct out as [rc| | |]; try done. destruct H1 as (-> & -> & ->). f_equal.
  destruct rows as [|row post]; [by destruct outs|]. by apply (scan_follows cellSizeCk root amt (row :: post) Hso Ha post []).
Qed.

(** *** Two files with a table on page 2 *)

Definition be16 (x : Z) : list Z := [x / 256; x mod 256].
Definition be32 (x : Z) : list Z := sqlite3Put4byte [0; 0; 0; 0] x.
(** A page of 512 bytes with its cells at the end. *)
Definition page_with (flag : Z) (right : list Z) (cells : list (list Z)) : list Z :=
  let total := zlen (mjoin cells) in
  let head := [flag; 0; 0] ++ be16 (zlen cells) ++ be16 (512 - total) ++ [0] ++ right ++ snd (foldl (fun acc c => (acc.1 + zlen c, acc.2 ++ be16 acc.1)) (512 - total, []) cells) in
  head ++ replicate (Z.to_nat (512 - zlen head - total)) 0 ++ mjoin cells.
Definition row_cell (r : Z * list Z) (local : Z) (ovfl : list Z) : list Z := varint_enc (zlen r.2) ++ varint_enc (u64 r.1) ++ take (Z.to_nat local) r.2 ++ ovfl.

Definition row1 : Z * list Z := (10, [1; 2; 3]).
Definition row2 : Z * list Z := (20, replicate 300 8 ++ replicate 300 9).
Definition row3 : Z * list Z := (30, [7]).
Definition row4 : Z * list Z := (31, []).
Definition local2 : Z := local_bytes new_bt (snd (decodeFlags new_bt no_type 13)) 600.

Definition node_page : list Z := page_with 5 (be32 4) [be32 3 ++ varint_enc 20].
Definition file1 : Db := mkDb new_bt 5 false {[ 2 := node_page; 3 := page_with 13 [] [row_cell row1 3 []; row_cell row2 local2 (be32 5)];
  4 := page_with 13 [] [row_cell row3 1 []]; 5 := be32 0 ++ drop (Z.to_nat local2) row2.2 ++ replicate (Z.to_nat (508 - (600 - local2))) 0 ]} None ∅ ∅ {[1]} [].
Definition tree1 : tree := Node 2 [Leaf 3 [row1; row2]; Leaf 4 [row3]] [20].
(** The second row is gone and there is a fourth. *)
Definition file2 : Db := mkDb new_bt 5 false {[ 2 := node_page; 3 := page_with 13 [] [row_cell row1 3 []]; 4 := page_with 13 [] [row_cell row3 1 []; row_cell row4 0 []] ]} None ∅ ∅ {[1]} [].
Definition tree2 : tree := Node 2 [Leaf 3 [row1]; Leaf 4 [row3; row4]] [20].

Lemma pages_file (m : gmap Z (list Z)) : map_Forall (fun _ d => zlen d = 512 /\ bytes_ok d) m -> forall i, zlen (default (replicate 512 0) (m !! i)) = 512 /\ bytes_ok (default (replicate 512 0) (m !! i)).
Proof.
  intros H i. destruct (m !! i) as [d|] eqn:E; [exact (H i d E)|]. split; [reflexivity|]. apply Forall_replicate. unfold is_u8. lia.
Qed.

Ltac concrete := split_and!; first [by vm_compute|by_compute|done].
Lemma file1_pages : pages_ok new_bt (pg file1).
Proof. intros i. apply (pages_file (pages file1)). by_compute. Qed.
Lemma file2_pages : pages_ok new_bt (pg file2).
Proof. intros i. apply (pages_file (pages file2)). by_compute. Qed.

Ltac row_on h pgs pages_lemma :=
  split; [by vm_compute|split; [by_compute|]]; exists h, pgs; split; [exact pages_lemma|left; concrete|by vm_compute|concrete|by vm_compute| |by_compute].
Definition header_of (r : Z * list Z) : list Z := varint_enc (zlen r.2) ++ varint_enc (u64 r.1).

Lemma file1_leaf3 : shaped false file1 false (Leaf 3 [row1; row2]).
Proof.
  apply shaped_leaf; [concrete|by vm_compute|by vm_compute|by right|]. intros [|[|i]] r Hi; [| |done]; injection Hi as <-.
  - row_on (header_of row1) (@nil Z) file1_pages. by vm_compute.
  - row_on (header_of row2) [5] file1_pages. change (local_bytes _ _ _ <? _) with true. cbv iota. split; [|by vm_compute]. split; [exact file1_pages|]. split; [by_compute|]. split; [by_compute|]. split; by vm_compute.
Qed.
Lemma file1_leaf4 : shaped false file1 false (Leaf 4 [row3]).
Proof. apply shaped_leaf; [concrete|by vm_compute|by vm_compute|by right|]. intros [|i] r Hi; [|done]. injection Hi as <-. row_on (header_of row3) (@nil Z) file1_pages. by vm_compute. Qed.
Lemma file2_leaf3 : shaped false file2 false (Leaf 3 [row1]).
Proof. apply shaped_leaf; [concrete|by vm_compute|by vm_compute|by right|]. intros [|i] r Hi; [|done]. injection Hi as <-. row_on (header_of row1) (@nil Z) file2_pages. by vm_compute. Qed.
Lemma file2_leaf4 : shaped false file2 false (Leaf 4 [row3; row4]).
Proof.
  apply shaped_leaf; [concrete|by vm_compute|by vm_compute|by right|]. intros [|[|i]] r Hi; [| |done]; injection Hi as <-.
  - row_on (header_of row3) (@nil Z) file2_pages. by vm_compute.
  - row_on (header_of row4) (@nil Z) file2_pages. by vm_compute.
Qed.

Ltac sorted_list := vm_compute; repeat (apply SSorted_nil || apply SSorted_cons || apply Forall_nil_2 || apply Forall_cons_2 || reflexivity).
Ltac node_on l kid1 kid2 :=
  apply shaped_node; [concrete|by vm_compute|by vm_compute|by right|done|by intros ? [= <-]| | | |by apply Forall_cons_2; [exact kid1|apply Forall_cons_2; [exact kid2|apply Forall_nil_2]]];
  [intros [|i] s t Hs; [|done]; injection Hs as <-; intros [= <-]; split; [concrete|split; [concrete|]]; exists l; split; [by_compute|by vm_compute]
  |sorted_list
  |intros [|i] s j t Hs; [|done]; injection Hs as <-; intros Ht; destruct j as [|[|j]]; [| |done]; injection Ht as <-; by_compute].

Lemma file1_table : table false 2 file1 (rows_of tree1).
Proof.
  split; [exact new_bt_wf|]. split; [done|]. split; [eapply (lockBtree_limits_ok _ _ _ _ no_type 13); [lia|reflexivity]|]. exists tree1. split; [|done]. split; [|done|sorted_list|by apply Nat.ltb_lt].
  node_on (@nil Z) file1_leaf3 file1_leaf4.
Qed.
Lemma file2_table : table false 2 file2 (rows_of tree2).
Proof.
  split; [exact new_bt_wf|]. split; [done|]. split; [eapply (lockBtree_limits_ok _ _ _ _ no_type 13); [lia|reflexivity]|]. exists tree2. split; [|done]. split; [|done|sorted_list|by apply Nat.ltb_lt].
  node_on (@nil Z) file2_leaf3 file2_leaf4.
Qed.

Definition blank_cursor : Cursor := mkCursor CURSOR_FAULT 1 None 0 0 false false false [] 0 (mkCur (mem false file1 2) 0 None 255 None).
Definition no_index (c : Cursor) (key : list Z) : btm (Z * Cursor) := fail SQLITE_CORRUPT.
Definition example_acts : list action :=
  [GoFirst; Look 0 100; GoTo 20 false; Look 298 4; WriteTable file2; GoNext; Look 0 9; GoPrevious; Look 1 9; GoTo 25 true; GoLast; GoNext; GoPrevious; GoTo 31 false].
Definition example_outs : list outcome :=
  [Code 0; Entry (Some (10, 3, [1; 2; 3])); Code 0; Entry (Some (20, 600, [8; 8; 9; 9])); Written; Code 0; Entry (Some (30, 1, [7])); Code 0; Entry (Some (10, 3, [2; 3])); Code 1; Code 0; Code 101; Code 101; Code 0].

Lemma cursor_refines_rows_witness : exists outs db', open_session false no_index 2 true false example_acts blank_cursor file1 = (inr outs, db') /\
  outs = example_outs /\
  follows false 2 (rows_of tree1) Nowhere example_acts outs.
Proof.
  assert (Ha : Forall (action_ok false 2) example_acts) by (unfold example_acts; repeat (apply Forall_cons_2; [first [exact I|by vm_compute|exists (rows_of tree2); exact file2_table]|]); apply Forall_nil_2).
  pose proof (cursor_refines_rows false no_index 2 file1 (rows_of tree1) true false example_acts blank_cursor file1_table Ha) as H.
  assert (E : fst (open_session false no_index 2 true false example_acts blank_cursor file1) = inr example_outs) by (vm_compute; reflexivity).
  destruct (open_session false no_index 2 true false example_acts blank_cursor file1) as [r db']. cbn [fst] in E. subst r. exists example_outs, db'. split; [reflexivity|]. split; [reflexivity|exact H].
Defined.
Lemma scan_lists_table_witness : exists db', open_session false no_index 2 false true (GoFirst :: scan_from 3 1000) blank_cursor file1 =
  (inr [Code 0; Entry (Some (10, 3, [1; 2; 3])); Code 0; Entry (Some (20, 600, row2.2)); Code 0; Entry (Some (30, 1, [7])); Code 101], db').
Proof.
  pose proof (scan_lists_table false no_index 2 file1 (rows_of tree1) false true 1000 blank_cursor file1_table ltac:(by_compute)) as H. change (length (rows_of tree1)) with 3%nat in H.
  destruct (open_session false no_index 2 false true (GoFirst :: scan_from 3 1000) blank_cursor file1) as [[rc|outs] db']; [destruct H as [H _]; by apply not_elem_of_nil in H|]. exists db'. by rewrite H.
Defined.

(** The step from row 30 restores the position, which marks the key 30 as known, and moves on; then
    a search for 30 finds the cursor there already, though it is on row 31. *)
Lemma key_of_another_row : fst (open_session false no_index 2 true false [GoTo 30 false; WriteTable file2; GoNext; GoTo 30 false; Look 0 9] blank_cursor file1) =
  inr [Code 0; Written; Code 0; Code 0; Entry (Some (31, 0, []))].
Proof. by vm_compute. Qed.
