(* ===== verification/Utf.v ===== *)
(** UTF-8 (utf.c): reading, writing, skipping and counting characters.

    A string is the list of its bytes before the terminating NUL, so reading at the
    end of the list reads the NUL. *)

From S2P Require Import Prelude.

(** ** Operations *)

Definition sqlite3Utf8Trans1 : list Z :=
  [ 0x00; 0x01; 0x02; 0x03; 0x04; 0x05; 0x06; 0x07;
    0x08; 0x09; 0x0a; 0x0b; 0x0c; 0x0d; 0x0e; 0x0f;
    0x10; 0x11; 0x12; 0x13; 0x14; 0x15; 0x16; 0x17;
    0x18; 0x19; 0x1a; 0x1b; 0x1c; 0x1d; 0x1e; 0x1f;
    0x00; 0x01; 0x02; 0x03; 0x04; 0x05; 0x06; 0x07;
    0x08; 0x09; 0x0a; 0x0b; 0x0c; 0x0d; 0x0e; 0x0f;
    0x00; 0x01; 0x02; 0x03; 0x04; 0x05; 0x06; 0x07;
    0x00; 0x01; 0x02; 0x03; 0x00; 0x01; 0x00; 0x00 ].

(** The bytes written, as many as the return value. *)
Definition sqlite3AppendOneUtf8Character (v : Z) : list Z :=
  if v <? 0x00080 then [u8 (Z.land v 0xff)]
  else if v <? 0x00800 then
    [u8 (0xc0 + u8 (Z.land (Z.shiftr v 6) 0x1f)); u8 (0x80 + u8 (Z.land v 0x3f))]
  else if v <? 0x10000 then
    [u8 (0xe0 + u8 (Z.land (Z.shiftr v 12) 0x0f)); u8 (0x80 + u8 (Z.land (Z.shiftr v 6) 0x3f));
     u8 (0x80 + u8 (Z.land v 0x3f))]
  else
    [u8 (0xf0 + u8 (Z.land (Z.shiftr v 18) 0x07)); u8 (0x80 + u8 (Z.land (Z.shiftr v 12) 0x3f));
     u8 (0x80 + u8 (Z.land (Z.shiftr v 6) 0x3f)); u8 (0x80 + u8 (Z.land v 0x3f))].

Definition is_cont (b : Z) : bool := Z.land b 0xc0 =? 0x80.

(** The loop over the continuation bytes; [c] is unsigned. *)
Fixpoint read_cont (c : Z) (z : list Z) : Z * list Z :=
  match z with
  | b :: z' => if is_cont b then read_cont (u32 (u32 (Z.shiftl c 6) + Z.land 0x3f b)) z' else (c, z)
  | [] => (c, [])
  end.
(** Values that no multi-byte character may encode. *)
Definition bad_char (c : Z) : bool :=
  (c <? 0x80) || (Z.land c 0xFFFFF800 =? 0xD800) || (Z.land c 0xFFFFFFFE =? 0xFFFE).

(** The character and the rest of the string; at the end, the NUL. *)
Definition sqlite3Utf8Read (z : list Z) : Z * list Z :=
  match z with
  | [] => (0, [])
  | c :: z' =>
      if 0xc0 <=? c then
        let '(c, z') := read_cont (sqlite3Utf8Trans1.[c - 0xc0]) z' in
        (if bad_char c then 0xFFFD else c, z')
      else (c, z')
  end.

(** At most [n] bytes of [z], and never more than four; the value and the count. *)
Fixpoint read_limited (n : nat) (c i : Z) (z : list Z) : Z * Z :=
  match n, z with
  | S n', b :: z' => if is_cont b then read_limited n' (u32 (u32 (Z.shiftl c 6) + Z.land 0x3f b)) (i + 1) z' else (c, i)
  | _, _ => (c, i)
  end.
Definition sqlite3Utf8ReadLimited (z : list Z) (n : Z) : Z * Z :=
  let c := z.[0] in
  if 0xc0 <=? c then
    let n := if 4 <? n then 4 else n in
    read_limited (Z.to_nat (n - 1)) (sqlite3Utf8Trans1.[c - 0xc0]) 1 (drop 1 z)
  else (c, 1).

Fixpoint skip_cont (z : list Z) : list Z :=
  match z with
  | b :: z' => if is_cont b then skip_cont z' else z
  | [] => []
  end.
Definition SQLITE_SKIP_UTF8 (z : list Z) : list Z :=
  match z with
  | [] => []
  | c :: z' => if 0xc0 <=? c then skip_cont z' else z'
  end.

(** Characters that start in the first [nByte] bytes, all of them when negative. *)
Fixpoint charlen_loop (fuel : nat) (z : list Z) (left r : Z) (limited : bool) : Z :=
  match fuel with
  | O => r
  | S fuel' =>
      match z with
      | [] => r
      | _ => if limited && (left <=? 0) then r else
             let z' := SQLITE_SKIP_UTF8 z in
             charlen_loop fuel' z' (left - (zlen z - zlen z')) (r + 1) limited
      end
  end.
Definition sqlite3Utf8CharLen (z : list Z) (nByte : Z) : Z :=
  charlen_loop (S (length z)) z nByte 0 (0 <=? nByte).

(** ** Decoding a whole string *)

(** The characters of a string, read one after the other. *)
Fixpoint chars_loop (fuel : nat) (z : list Z) : list Z :=
  match fuel with
  | O => []
  | S fuel' => match z with
               | [] => []
               | _ => let '(c, z') := sqlite3Utf8Read z in c :: chars_loop fuel' z'
               end
  end.
Definition chars (z : list Z) : list Z := chars_loop (length z) z.

Lemma read_cont_skip c z : snd (read_cont c z) = skip_cont z.
Proof. revert c. induction z as [|b z IH]; intros c; [done|]. cbn. destruct (is_cont b); [apply IH|done]. Qed.
Lemma skip_cont_length z : (length (skip_cont z) <= length z)%nat.
Proof. induction z as [|b z IH]; [done|]. cbn. destruct (is_cont b); cbn; lia. Qed.
Lemma skip_is_read z : SQLITE_SKIP_UTF8 z = snd (sqlite3Utf8Read z).
Proof.
  destruct z as [|c z]; [done|]. cbn. destruct (0xc0 <=? c); [|done].
  pose proof (read_cont_skip (sqlite3Utf8Trans1.[c - 0xc0]) z) as H. by destruct (read_cont _ z).
Qed.
Lemma read_length z : z <> [] -> (length (snd (sqlite3Utf8Read z)) < length z)%nat.
Proof.
  intros Hz. rewrite <- skip_is_read. destruct z as [|c z]; [done|]. cbn.
  destruct (0xc0 <=? c); [|cbn; lia]. pose proof (skip_cont_length z). lia.
Qed.
Lemma chars_loop_enough n m z : (length z <= n)%nat -> (length z <= m)%nat -> chars_loop n z = chars_loop m z.
Proof.
  revert m z. induction n as [|n IH]; intros [|m] z Hn Hm; try (destruct z; [done|cbn in *; lia]).
  cbn [chars_loop]. destruct z as [|b z]; [done|]. pose proof (read_length (b :: z) ltac:(done)) as Hl.
  destruct (sqlite3Utf8Read (b :: z)) as [c z']. cbn [snd] in Hl. f_equal. apply IH; lia.
Qed.
Lemma chars_nil : chars [] = [].
Proof. done. Qed.
Lemma chars_read z : z <> [] -> chars z = fst (sqlite3Utf8Read z) :: chars (snd (sqlite3Utf8Read z)).
Proof.
  intros Hz. pose proof (read_length z Hz) as Hl. destruct z as [|b z]; [done|]. unfold chars at 1.
  change (length (b :: z)) with (S (length z)). cbn [chars_loop].
  destruct (sqlite3Utf8Read (b :: z)) as [c z']. cbn [fst snd] in *. f_equal.
  cbn [length] in Hl. apply chars_loop_enough; lia.
Qed.

(** A character read from a string without NULs is not NUL. *)
Lemma read_nonzero z : z <> [] -> Forall (fun b => b <> 0) z -> fst (sqlite3Utf8Read z) <> 0.
Proof.
  intros Hz Hn. destruct z as [|c z]; [done|]. cbn. inversion_clear Hn.
  destruct (0xc0 <=? c); [|done]. destruct (read_cont _ z) as [c' z']. cbn.
  destruct (bad_char c') eqn:E; [done|]. intros ->. by vm_compute in E.
Qed.
Lemma read_forall (P : Z -> Prop) z : Forall P z -> Forall P (snd (sqlite3Utf8Read z)).
Proof.
  intros H. rewrite <- skip_is_read. destruct H as [|c z Hc Hz]; [constructor|]. cbn.
  destruct (0xc0 <=? c); [|done]. clear Hc. induction Hz as [|b z Hb Hz IH]; [constructor|]. cbn.
  destruct (is_cont b); [done|by constructor].
Qed.
(** ASCII bytes are characters; other characters are not in the ASCII range. *)
Lemma read_ascii b z : b < 0x80 -> sqlite3Utf8Read (b :: z) = (b, z).
Proof. intros H. cbn. by rewrite (proj2 (Z.leb_gt _ _)) by lia. Qed.
Lemma read_not_ascii b z : 0x80 <= b -> 0x80 <= fst (sqlite3Utf8Read (b :: z)).
Proof.
  intros H. cbn. destruct (0xc0 <=? b); [|done]. destruct (read_cont _ z) as [c z']. cbn.
  destruct (bad_char c) eqn:E; [lia|]. unfold bad_char in E. rewrite !orb_false_iff, Z.ltb_ge in E. tauto.
Qed.

(** Counting characters is decoding. *)
Lemma charlen_loop_all fuel z left r : (length z < fuel)%nat ->
  charlen_loop fuel z left r false = r + zlen (chars z).
Proof.
  revert z left r. induction fuel as [|fuel IH]; intros z left r Hf; [lia|]. cbn [charlen_loop andb].
  destruct z as [|b z]; [rewrite chars_nil; change (zlen (@nil Z)) with 0; lia|].
  pose proof (read_length (b :: z) ltac:(done)) as Hl. rewrite <- skip_is_read in Hl.
  rewrite IH by lia. rewrite (chars_read (b :: z)), zlen_cons, <- skip_is_read by done. lia.
Qed.

(** ** Reading back what was written *)

(** What a code point reads back as: surrogates, FFFE and FFFF are no characters. *)
Definition utf8_value (c : Z) : Z :=
  if ((0xD800 <=? c) && (c <=? 0xDFFF)) || (c =? 0xFFFE) || (c =? 0xFFFF) then 0xFFFD else c.

(** The masks of the reader keep the high bits. *)
Lemma land_high c k m : 0 <= c < 2 ^ 32 -> 0 <= k <= 32 -> m = Z.shiftl (Z.ones (32 - k)) k ->
  Z.land c m = 2 ^ k * (c / 2 ^ k).
Proof.
  intros Hc Hk ->. rewrite Z.mul_comm, <- Z.shiftl_mul_pow2, <- Z.shiftr_div_pow2 by lia.
  apply Z.bits_inj'. intros n Hn. rewrite Z.land_spec, !Z.shiftl_spec by lia.
  destruct (Z.lt_ge_cases n k) as [Hlt|Hge]; [by rewrite !(Z.testbit_neg_r _ (n - k)), andb_false_r by lia|].
  rewrite Z.shiftr_spec, Z.testbit_ones by lia. replace (n - k + k) with n by lia.
  rewrite (proj2 (Z.leb_le 0 _)) by lia. cbn [andb].
  destruct (Z.ltb_spec (n - k) (32 - k)); [by rewrite andb_true_r|].
  rewrite andb_false_r. symmetry. apply Z.testbit_false; [lia|].
  rewrite Z.div_small; [done|]. split; [lia|]. eapply Z.lt_le_trans; [apply Hc|]. apply Z.pow_le_mono_r; lia.
Qed.
Lemma bad_char_value c : 0x80 <= c < 2 ^ 32 -> (if bad_char c then 0xFFFD else c) = utf8_value c.
Proof.
  intros Hc. unfold bad_char, utf8_value. rewrite (proj2 (Z.ltb_ge _ _)) by lia. cbn [orb].
  rewrite (land_high c 11 0xFFFFF800), (land_high c 1 0xFFFFFFFE) by (done || lia).
  change (2 ^ 11) with 2048. change (2 ^ 1) with 2. pose proof (Z.div_mod c 2048 ltac:(done)). pose proof (Z.mod_pos_bound c 2048 ltac:(done)).
  pose proof (Z.div_mod c 2 ltac:(done)). pose proof (Z.mod_pos_bound c 2 ltac:(done)).
  replace ((2048 * (c / 2048) =? 0xD800) || (2 * (c / 2) =? 0xFFFE)) with
    ((0xD800 <=? c) && (c <=? 0xDFFF) || (c =? 0xFFFE) || (c =? 0xFFFF)); [done|]. zbool; try done; lia.
Qed.

Lemma utf8_cont_byte x : 0 <= x < 64 -> u8 (0x80 + x) = 0x80 + x /\ is_cont (0x80 + x) = true /\ Z.land 0x3f (0x80 + x) = x.
Proof.
  intros Hx. unfold u8. rewrite Z.mod_small by lia. split; [done|].
  assert (H : forallb (fun x => is_cont (0x80 + x) && (Z.land 0x3f (0x80 + x) =? x)) (seqZ 0 64) = true) by (by vm_compute).
  rewrite forallb_forall in H. specialize (H x ltac:(apply list_elem_of_In, elem_of_seqZ; lia)).
  apply andb_prop in H as [H1 H2]. apply Z.eqb_eq in H2. done.
Qed.
Lemma lead_byte b n x : (b, n) ∈ [(0xc0, 32); (0xe0, 16); (0xf0, 8)] -> 0 <= x < n ->
  u8 (b + x) = b + x /\ 0xc0 <= b + x /\ sqlite3Utf8Trans1.[b + x - 0xc0] = x.
Proof.
  intros Hb Hx. assert (H : forallb (fun '(b, n) => forallb (fun x =>
      (u8 (b + x) =? b + x) && (0xc0 <=? b + x) && (sqlite3Utf8Trans1.[b + x - 0xc0] =? x)) (seqZ 0 n))
      [(0xc0, 32); (0xe0, 16); (0xf0, 8)] = true) by (by vm_compute).
  rewrite forallb_forall in H. specialize (H (b, n) ltac:(by apply list_elem_of_In)). cbn beta iota in H.
  rewrite forallb_forall in H. specialize (H x ltac:(apply list_elem_of_In, elem_of_seqZ; lia)).
  rewrite !andb_true_iff in H. destruct H as [[H1 H2] H3]. apply Z.eqb_eq in H1, H3. apply Z.leb_le in H2. done.
Qed.

Lemma land_ones_mod v k m : 0 <= k -> m = 2 ^ k - 1 -> Z.land v m = v mod 2 ^ k.
Proof. intros Hk ->. rewrite <- Z.land_ones by done. f_equal. rewrite Z.ones_equiv. lia. Qed.
Lemma cont_step c v k rest : 0 <= c -> c * 64 + v / 2 ^ k mod 64 < 2 ^ 32 -> 0 <= k ->
  read_cont c (u8 (0x80 + u8 (Z.land (Z.shiftr v k) 0x3f)) :: rest) = read_cont (c * 64 + v / 2 ^ k mod 64) rest.
Proof.
  intros Hc Hlt Hk. rewrite (land_ones_mod _ 6 0x3f), Z.shiftr_div_pow2 by done. change (2 ^ 6) with 64.
  set (x := v / 2 ^ k mod 64) in *. assert (Hx : 0 <= x < 64) by (apply Z.mod_pos_bound; lia).
  replace (u8 x) with x by (unfold u8; rewrite Z.mod_small; lia).
  destruct (utf8_cont_byte x Hx) as (-> & H1 & H2). cbn [read_cont]. rewrite H1, H2. f_equal.
  unfold u32. rewrite Z.shiftl_mul_pow2 by lia. change (2 ^ 6) with 64.
  rewrite (Z.mod_small (c * 64)), Z.mod_small by lia. done.
Qed.
Lemma read_cont_end c rest : match rest with b :: _ => is_cont b = false | [] => True end ->
  read_cont c rest = (c, rest).
Proof. destruct rest as [|b rest]; [done|]. cbn. by intros ->. Qed.

(** C35. UTF-8 round trip: for every code point up to 10FFFF, reading the bytes that
    were written, followed by text that does not start with a continuation byte,
    consumes exactly them and yields the code point, except that the surrogates D800 to
    DFFF, and FFFE and FFFF, read as FFFD. *)
Theorem utf8_roundtrip (v : Z) (rest : list Z) (Hv : 0 < v < 0x110000)
  (Hrest : match rest with b :: _ => is_cont b = false | [] => True end) :
  sqlite3Utf8Read (sqlite3AppendOneUtf8Character v ++ rest) = (utf8_value v, rest).
Proof.
  unfold sqlite3AppendOneUtf8Character.
  destruct (Z.ltb_spec v 0x80) as [H0|H0].
  { rewrite (land_ones_mod v 8 0xff) by done. unfold u8. rewrite Zmod_mod, Z.mod_small by lia. cbn [app].
    rewrite read_ascii by lia. unfold utf8_value. rewrite (proj2 (Z.leb_gt _ v)) by lia.
    by rewrite !(proj2 (Z.eqb_neq v _)) by lia. }
  rewrite <- bad_char_value by lia.
  assert (E0 : Z.land v 0x3f = Z.land (Z.shiftr v 0) 0x3f) by (by rewrite Z.shiftr_0_r).
  assert (Hlead : forall b n sh m, (b, n) ∈ [(0xc0, 32); (0xe0, 16); (0xf0, 8)] -> 0 <= sh -> m = n - 1 -> v / 2 ^ sh < n ->
      exists c0, u8 (b + u8 (Z.land (Z.shiftr v sh) m)) = c0 /\ 0xc0 <= c0 /\ sqlite3Utf8Trans1.[c0 - 0xc0] = v / 2 ^ sh).
  { intros b n sh m Hb Hsh -> Hlt. assert (Hp : 0 <= v / 2 ^ sh) by (apply Z.div_pos; lia).
    assert (En : Z.land (Z.shiftr v sh) (n - 1) = v / 2 ^ sh).
    { rewrite Z.shiftr_div_pow2 by done. set_unfold in Hb. destruct Hb as [Hb|[Hb|[Hb|[]]]]; simplify_eq.
      - rewrite (land_ones_mod _ 5) by done. rewrite Z.mod_small; lia.
      - rewrite (land_ones_mod _ 4) by done. rewrite Z.mod_small; lia.
      - rewrite (land_ones_mod _ 3) by done. rewrite Z.mod_small; lia. }
    rewrite En. assert (Hn : n <= 32) by (set_unfold in Hb; destruct Hb as [Hb|[Hb|[Hb|[]]]]; simplify_eq; lia).
    replace (u8 (v / 2 ^ sh)) with (v / 2 ^ sh) by (unfold u8; rewrite Z.mod_small; lia).
    destruct (lead_byte b n (v / 2 ^ sh) Hb ltac:(lia)) as (H1 & H2 & H3). exists (b + v / 2 ^ sh). done. }
  rewrite E0.
  destruct (Z.ltb_spec v 0x800) as [H1|H1]; [|destruct (Z.ltb_spec v 0x10000) as [H2|H2]].
  - destruct (Hlead 0xc0 32 6 0x1f) as (c0 & Ec & Hc & Et); [set_solver|lia|done|apply Z.div_lt_upper_bound; lia|].
    rewrite Ec. cbn [app sqlite3Utf8Read]. rewrite (proj2 (Z.leb_le _ _)), Et by lia.
    rewrite cont_step by (Z.div_mod_to_equations; lia). rewrite read_cont_end by done.
    replace (v / 2 ^ 6 * 64 + v / 2 ^ 0 mod 64) with v by (Z.div_mod_to_equations; lia). done.
  - destruct (Hlead 0xe0 16 12 0x0f) as (c0 & Ec & Hc & Et); [set_solver|lia|done|apply Z.div_lt_upper_bound; lia|].
    rewrite Ec. cbn [app sqlite3Utf8Read]. rewrite (proj2 (Z.leb_le _ _)), Et by lia.
    rewrite !cont_step by (Z.div_mod_to_equations; lia). rewrite read_cont_end by done.
    replace ((v / 2 ^ 12 * 64 + v / 2 ^ 6 mod 64) * 64 + v / 2 ^ 0 mod 64) with v by (Z.div_mod_to_equations; lia). done.
  - destruct (Hlead 0xf0 8 18 0x07) as (c0 & Ec & Hc & Et); [set_solver|lia|done|apply Z.div_lt_upper_bound; lia|].
    rewrite Ec. cbn [app sqlite3Utf8Read]. rewrite (proj2 (Z.leb_le _ _)), Et by lia.
    rewrite !cont_step by (Z.div_mod_to_equations; lia). rewrite read_cont_end by done.
    replace (((v / 2 ^ 18 * 64 + v / 2 ^ 12 mod 64) * 64 + v / 2 ^ 6 mod 64) * 64 + v / 2 ^ 0 mod 64) with v
      by (Z.div_mod_to_equations; lia). done.
Qed.
Lemma utf8_roundtrip_witness :
  sqlite3Utf8Read (sqlite3AppendOneUtf8Character 0x20AC ++ [65]) = (0x20AC, [65]) /\
  sqlite3Utf8Read (sqlite3AppendOneUtf8Character 0xDABC ++ [65]) = (0xFFFD, [65]).
Proof. split; [apply (utf8_roundtrip 0x20AC [65])|apply (utf8_roundtrip 0xDABC [65])]; (lia || done). Defined.
