(* ===== verification/Like.v ===== *)
(** The LIKE and GLOB operators (func.c): the pattern matcher over UTF-8 strings.

    Strings are the bytes before the NUL, as in [Utf].  The reference reads the
    pattern as a list of elements (any sequence, any one character, a literal, a set)
    and says which character sequences they denote; the matcher scans for the next
    candidate character and gives up early when a wildcard cannot be matched any
    more.  The theorem shows that its answer is that of the reference. *)

From S2P Require Import Prelude Ctype Utf.

(** ** The matcher *)

Record compareInfo := mkInfo { matchAll : Z; matchOne : Z; matchSet : Z; noCase : bool }.
Definition globInfo : compareInfo := mkInfo 42 63 91 false.
Definition likeInfoNorm : compareInfo := mkInfo 37 95 0 true.
Definition likeInfoAlt : compareInfo := mkInfo 37 95 0 false.

Definition SQLITE_MATCH : Z := 0.
Definition SQLITE_NOMATCH : Z := 1.
Definition SQLITE_NOWILDCARDMATCH : Z := 2.

(** The macro that reads ASCII characters in line. *)
Definition Utf8Read (z : list Z) : Z * list Z :=
  match z with
  | [] => (0, [])
  | b :: z' => if b <? 0x80 then (b, z') else sqlite3Utf8Read z
  end.

(** [zString += strcspn(zString, zStop)] *)
Fixpoint strcspn_skip (stop : list Z) (z : list Z) : list Z :=
  match z with
  | [] => []
  | b :: z' => if existsb (Z.eqb b) stop then z else strcspn_skip stop z'
  end.

Section pattern.
Context (pInfo : compareInfo) (matchOther : Z).

(** The loop over "*" and "?" after a "*"; [None] when the string is too short. *)
Fixpoint skip_wild (fuel : nat) (zPattern zString : list Z) : option (Z * list Z * list Z) :=
  match fuel with
  | O => None
  | S fuel' =>
      let '(c, zPattern) := Utf8Read zPattern in
      if (c =? matchAll pInfo) || ((c =? matchOne pInfo) && truthy (matchOne pInfo)) then
        if c =? matchOne pInfo then
          let '(x, zString) := sqlite3Utf8Read zString in
          if x =? 0 then None else skip_wild fuel' zPattern zString
        else skip_wild fuel' zPattern zString
      else Some (c, zPattern, zString)
  end.

(** The searches for a place to continue; [pc] is the comparison of the rest. *)
Fixpoint set_search (fuel : nat) (pc : list Z -> Z) (zString : list Z) : Z :=
  match fuel with
  | O => SQLITE_NOWILDCARDMATCH
  | S fuel' =>
      match zString with
      | [] => SQLITE_NOWILDCARDMATCH
      | _ => let bMatch := pc zString in
             if negb (bMatch =? SQLITE_NOMATCH) then bMatch
             else set_search fuel' pc (SQLITE_SKIP_UTF8 zString)
      end
  end.
Fixpoint ascii_search (fuel : nat) (pc : list Z -> Z) (zStop zString : list Z) : Z :=
  match fuel with
  | O => SQLITE_NOWILDCARDMATCH
  | S fuel' =>
      match strcspn_skip zStop zString with
      | [] => SQLITE_NOWILDCARDMATCH
      | _ :: zString => let bMatch := pc zString in
                        if negb (bMatch =? SQLITE_NOMATCH) then bMatch
                        else ascii_search fuel' pc zStop zString
      end
  end.
Fixpoint char_search (fuel : nat) (pc : list Z -> Z) (c : Z) (zString : list Z) : Z :=
  match fuel with
  | O => SQLITE_NOWILDCARDMATCH
  | S fuel' =>
      let '(c2, zString) := Utf8Read zString in
      if c2 =? 0 then SQLITE_NOWILDCARDMATCH
      else if negb (c2 =? c) then char_search fuel' pc c zString
      else let bMatch := pc zString in
           if negb (bMatch =? SQLITE_NOMATCH) then bMatch else char_search fuel' pc c zString
  end.
Definition zStop (c : Z) : list Z :=
  if noCase pInfo then [sqlite3Toupper c; sqlite3Tolower c] else [c].
Definition search_char (pc : list Z -> Z) (c : Z) (zString : list Z) : Z :=
  if c <? 0x80 then ascii_search (S (length zString)) pc (zStop c) zString
  else char_search (S (length zString)) pc c zString.

(** The loop over the members of a set: the last character read, whether [c] was
    seen, and the rest of the pattern. *)
Fixpoint set_loop (fuel : nat) (c c2 : Z) (zPattern : list Z) (prior_c : Z) (seen : bool) : Z * bool * list Z :=
  match fuel with
  | O => (0, seen, zPattern)
  | S fuel' =>
      if (c2 =? 0) || (c2 =? 93) then (c2, seen, zPattern) else
      let next := match zPattern with [] => 0 | b :: _ => b end in
      if (c2 =? 45) && negb (next =? 93) && negb (next =? 0) && (0 <? prior_c) then
        let '(c2, zPattern) := sqlite3Utf8Read zPattern in
        let seen := seen || ((prior_c <=? c) && (c <=? c2)) in
        let '(c2, zPattern) := sqlite3Utf8Read zPattern in
        set_loop fuel' c c2 zPattern 0 seen
      else
        let seen := seen || (c =? c2) in
        let prior_c := c2 in
        let '(c2, zPattern) := sqlite3Utf8Read zPattern in
        set_loop fuel' c c2 zPattern prior_c seen
  end.
(** [Some] rest of the pattern when the set matches [c]. *)
Definition set_match (c : Z) (zPattern : list Z) : option (list Z) :=
  let fuel := S (length zPattern) in
  let '(c2, zPattern) := sqlite3Utf8Read zPattern in
  let invert := c2 =? 94 in
  let '(c2, zPattern) := if invert then sqlite3Utf8Read zPattern else (c2, zPattern) in
  let seen := (c2 =? 93) && (c =? 93) in
  let '(c2, zPattern) := if c2 =? 93 then sqlite3Utf8Read zPattern else (c2, zPattern) in
  let '(c2, seen, zPattern) := set_loop fuel c c2 zPattern 0 seen in
  if (c2 =? 0) || negb (xorb seen invert) then None else Some zPattern.

(** What follows a "*"; [pc] is the recursive call. *)
Definition after_star (pc : list Z -> list Z -> Z) (zPattern zString : list Z) : Z :=
  match skip_wild (S (length zPattern)) zPattern zString with
  | None => SQLITE_NOWILDCARDMATCH
  | Some (c, zPattern, zString) =>
      if c =? 0 then SQLITE_MATCH
      else if c =? matchOther then
        if matchSet pInfo =? 0 then
          let '(c, zPattern) := sqlite3Utf8Read zPattern in
          if c =? 0 then SQLITE_NOWILDCARDMATCH else search_char (pc zPattern) c zString
        else set_search (S (length zString)) (pc (matchOther :: zPattern)) zString
      else search_char (pc zPattern) c zString
  end.
(** The end of the loop body; [zEscaped] equals [zPattern] only right after an escaped
    character was read. *)
Definition one_char (c : Z) (escaped : bool) (k : list Z -> Z) (zString : list Z) : Z :=
  let '(c2, zString) := Utf8Read zString in
  if (c =? c2)
     || (noCase pInfo && (sqlite3Tolower (u8 c) =? sqlite3Tolower (u8 c2)) && (c <? 0x80) && (c2 <? 0x80))
     || ((c =? matchOne pInfo) && negb escaped && truthy c2)
  then k zString else SQLITE_NOMATCH.

Fixpoint patternCompare_loop (fuel : nat) (zPattern zString : list Z) : Z :=
  match fuel with
  | O => SQLITE_NOMATCH
  | S fuel' =>
      let '(c, zPattern) := Utf8Read zPattern in
      if c =? 0 then match zString with [] => SQLITE_MATCH | _ => SQLITE_NOMATCH end
      else if c =? matchAll pInfo then after_star (patternCompare_loop fuel') zPattern zString
      else if c =? matchOther then
        if matchSet pInfo =? 0 then
          let '(c, zPattern) := sqlite3Utf8Read zPattern in
          if c =? 0 then SQLITE_NOMATCH else one_char c true (patternCompare_loop fuel' zPattern) zString
        else
          let '(c, zString) := sqlite3Utf8Read zString in
          if c =? 0 then SQLITE_NOMATCH else
          match set_match c zPattern with
          | None => SQLITE_NOMATCH
          | Some zPattern => patternCompare_loop fuel' zPattern zString
          end
      else one_char c false (patternCompare_loop fuel' zPattern) zString
  end.
Definition patternCompare (zPattern zString : list Z) : Z :=
  patternCompare_loop (S (length zPattern)) zPattern zString.
End pattern.

(** [None] stands for a null pointer. *)
Definition sqlite3_strglob (zGlobPattern zString : option (list Z)) : Z :=
  match zString, zGlobPattern with
  | None, p => b2z (match p with None => false | Some _ => true end)
  | Some _, None => 1
  | Some s, Some p => patternCompare globInfo 91 p s
  end.
Definition sqlite3_strlike (zPattern zStr : option (list Z)) (esc : Z) : Z :=
  match zStr, zPattern with
  | None, p => b2z (match p with None => false | Some _ => true end)
  | Some _, None => 1
  | Some s, Some p => patternCompare likeInfoNorm esc p s
  end.

(** ** The reference *)

(** The elements of a pattern; [Bad] is what no string matches: an escape or a set
    that is not complete. *)
Inductive elem := Any | One | Lit (c : Z) | Set_ (invert : bool) (items : list (Z * Z)) | Bad.

Section reference.
Context (pInfo : compareInfo) (matchOther : Z).

(** The members of a set up to its "]". *)
Fixpoint parse_items (cs : list Z) (prior : Z) : option (list (Z * Z) * list Z) :=
  match cs with
  | [] => None
  | c :: cs' =>
      if c =? 93 then Some ([], cs') else
      let single := match parse_items cs' c with Some (l, r) => Some ((c, c) :: l, r) | None => None end in
      match cs' with
      | hi :: cs'' =>
          if (c =? 45) && (0 <? prior) && negb (hi =? 93)
          then match parse_items cs'' 0 with Some (l, r) => Some ((prior, hi) :: l, r) | None => None end
          else single
      | [] => single
      end
  end.
(** A caret inverts the set; a "]" that comes first is a member. *)
Definition split_caret (cs : list Z) : bool * list Z :=
  match cs with c :: cs' => if c =? 94 then (true, cs') else (false, cs) | [] => (false, cs) end.
Definition split_bracket (cs : list Z) : list (Z * Z) * list Z :=
  match cs with c :: cs' => if c =? 93 then ([(93, 93)], cs') else ([], cs) | [] => ([], cs) end.
Definition parse_set (cs : list Z) : option (bool * list (Z * Z) * list Z) :=
  let '(invert, cs) := split_caret cs in
  let '(first, cs) := split_bracket cs in
  match parse_items cs 0 with Some (l, r) => Some (invert, first ++ l, r) | None => None end.

Fixpoint parse (fuel : nat) (cs : list Z) : list elem :=
  match fuel with
  | O => []
  | S fuel' =>
      match cs with
      | [] => []
      | c :: cs' =>
          if c =? matchAll pInfo then Any :: parse fuel' cs'
          else if c =? matchOther then
            if matchSet pInfo =? 0 then
              match cs' with [] => [Bad] | e :: cs'' => Lit e :: parse fuel' cs'' end
            else match parse_set cs' with
                 | None => [Bad]
                 | Some (i, items, r) => Set_ i items :: parse fuel' r
                 end
          else if c =? matchOne pInfo then One :: parse fuel' cs'
          else Lit c :: parse fuel' cs'
      end
  end.

(** Equal characters, up to ASCII case when [noCase]. *)
Definition same_char (c x : Z) : bool :=
  (c =? x) || (noCase pInfo && (c <? 0x80) && (x <? 0x80) && (sqlite3Tolower c =? sqlite3Tolower x)).
Definition in_set (invert : bool) (items : list (Z * Z)) (x : Z) : bool :=
  xorb invert (existsb (fun '(lo, hi) => (lo <=? x) && (x <=? hi)) items).

Fixpoint denotes (es : list elem) (s : list Z) : Prop :=
  match es with
  | [] => s = []
  | Any :: es' => exists s1 s2, s = s1 ++ s2 /\ denotes es' s2
  | One :: es' => exists x s', s = x :: s' /\ denotes es' s'
  | Lit c :: es' => exists x s', s = x :: s' /\ same_char c x = true /\ denotes es' s'
  | Set_ i l :: es' => exists x s', s = x :: s' /\ in_set i l x = true /\ denotes es' s'
  | Bad :: _ => False
  end.

(** Do the elements before the first "*" match the beginning of the string?  The
    matcher then has entered the wildcard. *)
Fixpoint reaches (es : list elem) (s : list Z) : bool :=
  match es, s with
  | Any :: _, _ => true
  | One :: es', _ :: s' => reaches es' s'
  | Lit c :: es', x :: s' => same_char c x && reaches es' s'
  | Set_ i l :: es', x :: s' => in_set i l x && reaches es' s'
  | _, _ => false
  end.
End reference.

Example like_ex1 : sqlite3_strlike (Some [37; 97; 95]) (Some [88; 65; 98]) 0 = SQLITE_MATCH.
Proof. reflexivity. Qed.
Example glob_ex1 : sqlite3_strglob (Some [42; 91; 97; 45; 99; 93; 63]) (Some [120; 98; 121]) = SQLITE_MATCH.
Proof. reflexivity. Qed.

(** ** Strings and their characters *)

Definition text_bytes (z : list Z) : Prop := Forall (fun b => 0 < b < 256) z.

Lemma Utf8Read_eq z : Utf8Read z = sqlite3Utf8Read z.
Proof. destruct z as [|b z]; [done|]. cbn [Utf8Read]. destruct (Z.ltb_spec b 0x80); [by rewrite read_ascii|done]. Qed.

Lemma read_pos b z : 0 < b -> 0 < fst (sqlite3Utf8Read (b :: z)).
Proof.
  intros Hb. destruct (Z.lt_ge_cases b 0x80); [by rewrite read_ascii|].
  pose proof (read_not_ascii b z ltac:(lia)). lia.
Qed.

(** Reading a character: at the end, or one character and the rest. *)
Lemma read_cases z : text_bytes z ->
  (z = [] /\ sqlite3Utf8Read z = (0, [])) \/
  (exists c z', z <> [] /\ sqlite3Utf8Read z = (c, z') /\ 0 < c /\ chars z = c :: chars z' /\ text_bytes z' /\
     (length z' < length z)%nat).
Proof.
  intros Ht. destruct z as [|b z]; [by left|right].
  pose proof (chars_read (b :: z) ltac:(done)) as Hc. pose proof (read_length (b :: z) ltac:(done)) as Hl.
  pose proof (read_forall _ _ Ht) as Hf. inversion_clear Ht as [|? ? Hb Hz].
  pose proof (read_pos b z ltac:(lia)) as Hp.
  destruct (sqlite3Utf8Read (b :: z)) as [c z']. exists c, z'. done.
Qed.
Lemma cont_high b : 0 < b < 256 -> is_cont b = true -> 0x80 <= b.
Proof.
  intros Hb Hc. destruct (Z.lt_ge_cases b 0x80) as [Hlt|]; [|done].
  assert (H : forallb (fun b => negb (is_cont b)) (seqZ 0 128) = true) by (by vm_compute).
  rewrite forallb_forall in H. specialize (H b ltac:(apply list_elem_of_In, elem_of_seqZ; lia)).
  by rewrite Hc in H.
Qed.

Definition is_stop (stop : list Z) (b : Z) : bool := existsb (Z.eqb b) stop.

Section stops.
Context (stop : list Z) (Hstop : forall b, is_stop stop b = true -> b < 0x80).

Lemma strcspn_cont z : text_bytes z -> strcspn_skip stop z = strcspn_skip stop (skip_cont z).
Proof.
  induction 1 as [|b z Hb Hz IH]; [done|]. cbn [skip_cont]. destruct (is_cont b) eqn:E; [|done].
  cbn [strcspn_skip]. destruct (existsb (Z.eqb b) stop) eqn:Es; [|done].
  pose proof (cont_high b Hb E). specialize (Hstop b Es). lia.
Qed.

(** Skipping bytes skips whole characters. *)
Lemma strcspn_chars n s : (length s <= n)%nat -> text_bytes s ->
  (strcspn_skip stop s = [] /\ Forall (fun x => is_stop stop x = false) (chars s)) \/
  (exists b z pre, strcspn_skip stop s = b :: z /\ is_stop stop b = true /\ chars s = pre ++ b :: chars z /\
     Forall (fun x => is_stop stop x = false) pre /\ text_bytes z /\ (length z < length s)%nat).
Proof.
  revert s. induction n as [|n IH]; intros s Hn Hs.
  { destruct s; [|cbn in Hn; lia]. left. split; [done|constructor]. }
  destruct s as [|b s]; [left; split; [done|constructor]|]. inversion_clear Hs as [|? ? Hb Hs'].
  cbn [length] in *.
  assert (Hskip : forall s', is_stop stop b = false -> (length s' <= length s)%nat -> text_bytes s' ->
      strcspn_skip stop s = strcspn_skip stop s' ->
      forall x, is_stop stop x = false -> chars (b :: s) = x :: chars s' ->
      (strcspn_skip stop (b :: s) = [] /\ Forall (fun x => is_stop stop x = false) (chars (b :: s))) \/
      (exists b0 z pre, strcspn_skip stop (b :: s) = b0 :: z /\ is_stop stop b0 = true /\
         chars (b :: s) = pre ++ b0 :: chars z /\ Forall (fun x => is_stop stop x = false) pre /\ text_bytes z /\
         (length z < S (length s))%nat)).
  { intros s' Hb0 Hl Ht Es x Hx Ec. cbn [strcspn_skip]. unfold is_stop in Hb0. rewrite Hb0, Es, Ec.
    destruct (IH s' ltac:(lia) Ht) as [[E1 E2]|(b1 & z & pre & E1 & E2 & E3 & E4 & E5 & E6)].
    - left. split; [done|]. by constructor.
    - right. exists b1, z, (x :: pre). rewrite E3. split; [done|]. split; [done|]. split; [done|].
      split; [by constructor|]. split; [done|lia]. }
  destruct (Z.lt_ge_cases b 0x80) as [Ha|Ha].
  - pose proof (chars_read (b :: s) ltac:(done)) as Ec. rewrite read_ascii in Ec by lia. cbn [fst snd] in Ec.
    destruct (is_stop stop b) eqn:Eb; [|by eapply (Hskip s)].
    right. exists b, s, []. cbn [strcspn_skip]. unfold is_stop in Eb. rewrite Eb, Ec.
    split; [done|]. split; [done|]. split; [done|]. split; [constructor|]. split; [done|lia].
  - pose proof (chars_read (b :: s) ltac:(done)) as Ec. pose proof (read_not_ascii b s Ha) as Hc.
    assert (Hb0 : forall x, 0x80 <= x -> is_stop stop x = false).
    { intros x Hx. destruct (is_stop stop x) eqn:E; [|done]. specialize (Hstop x E). lia. }
    rewrite <- skip_is_read in Ec. cbn [SQLITE_SKIP_UTF8] in Ec.
    destruct (0xc0 <=? b).
    + eapply (Hskip (skip_cont s)); [by apply Hb0|apply skip_cont_length| |by apply strcspn_cont|by apply Hb0|exact Ec].
      clear - Hs'. induction Hs' as [|x z Hx Hz IH]; [constructor|]. cbn. destruct (is_cont x); [done|by constructor].
    + by eapply (Hskip s); [apply Hb0| | | |apply Hb0|exact Ec].
Qed.
End stops.

(** ** Verdicts *)

Section verdicts.
Context (pInfo : compareInfo).
#[local] Abbreviation den := (denotes pInfo).

(** No suffix of the string is denoted by the pattern. *)
Definition nowhere (es : list elem) (s : list Z) : Prop := forall s1 s2, s = s1 ++ s2 -> ~ den es s2.
Definition verdict (r : Z) (es : list elem) (s : list Z) : Prop :=
  (r = SQLITE_MATCH /\ den es s) \/
  (r = SQLITE_NOMATCH /\ ~ den es s /\ reaches pInfo es s = false) \/
  (r = SQLITE_NOWILDCARDMATCH /\ nowhere es s /\ reaches pInfo es s = true).
(** The outcome of a search for a place where [es] continues. *)
Definition found (r : Z) (es : list elem) (s : list Z) : Prop :=
  (r = SQLITE_MATCH /\ den (Any :: es) s) \/ (r = SQLITE_NOWILDCARDMATCH /\ nowhere es s).

Lemma nowhere_here es s : nowhere es s -> ~ den es s.
Proof. intros H. by apply (H [] s). Qed.
Lemma nowhere_app es s1 s2 : nowhere es (s1 ++ s2) -> nowhere es s2.
Proof. intros H t1 t2 ->. apply (H (s1 ++ t1) t2). by rewrite app_assoc. Qed.
Lemma nowhere_cons es x s : ~ den es (x :: s) -> nowhere es s -> nowhere es (x :: s).
Proof. intros H1 H2 [|y t1] t2 E; cbn in E; simplify_eq; [done|]. by apply (H2 t1). Qed.
Lemma nowhere_nil es : ~ den es [] -> nowhere es [].
Proof. intros H [|? ?] [|? ?] E; cbn in E; simplify_eq. done. Qed.
Lemma nowhere_any es s : nowhere es s -> nowhere (Any :: es) s.
Proof. intros H t1 t2 -> (u1 & u2 & -> & Hd). apply (H (t1 ++ u1) u2); [by rewrite app_assoc|done]. Qed.
Lemma any_cons es x s : den (Any :: es) s -> den (Any :: es) (x :: s).
Proof. intros (s1 & s2 & -> & H). by exists (x :: s1), s2. Qed.
Lemma any_app es s1 s2 : den (Any :: es) s2 -> den (Any :: es) (s1 ++ s2).
Proof. intros H. induction s1 as [|x s1 IH]; [done|]. by apply any_cons. Qed.
Lemma any_here es s : den es s -> den (Any :: es) s.
Proof. intros H. by exists [], s. Qed.
Lemma found_verdict r es s : found r es s -> verdict r (Any :: es) s.
Proof. intros [H|[-> H]]; [by left|]. right. right. split; [done|]. split; [by apply nowhere_any|done]. Qed.

Lemma lit_cons c es x s : den (Lit c :: es) (x :: s) <-> same_char pInfo c x = true /\ den es s.
Proof. cbn. split; [intros (? & ? & ? & ?); by simplify_eq|intros []; eauto]. Qed.

Lemma lit_pre c es pre s : Forall (fun x => same_char pInfo c x = false) pre -> nowhere (Lit c :: es) s ->
  nowhere (Lit c :: es) (pre ++ s).
Proof.
  intros H Hs. induction H as [|x pre Hx _ IH]; [done|]. cbn [app]. apply nowhere_cons; [|done].
  rewrite lit_cons, Hx. by intros [].
Qed.

(** One candidate: the rest of the pattern was compared after character [b]. *)
Lemma lit_candidate c es b s r : same_char pInfo c b = true -> verdict r es s -> r <> SQLITE_NOMATCH ->
  found r (Lit c :: es) (b :: s).
Proof.
  intros Hb [[-> H]|[[-> _]|[-> [H _]]]] Hr; [left|done|right]; (split; [done|]).
  - apply any_here, lit_cons. done.
  - apply nowhere_cons; [rewrite lit_cons; intros [_ Hd]; by apply (nowhere_here _ _ H)|].
    intros t1 [|x t2] ->; [cbn; intros (? & ? & ? & _); done|]. rewrite lit_cons. intros [_ Hd].
    apply (H (t1 ++ [x]) t2); [by rewrite <- app_assoc|done].
Qed.
Lemma lit_next c es b s r : verdict SQLITE_NOMATCH es s -> found r (Lit c :: es) s -> found r (Lit c :: es) (b :: s).
Proof.
  intros Hv [[-> H]|[-> H]]; [left|right]; (split; [done|]); [by apply any_cons|]. apply nowhere_cons; [|done].
  rewrite lit_cons. intros [_ Hd]. destruct Hv as [[Hv _]|[[_ [Hn _]]|[Hv _]]]; done.
Qed.

Section searches.
Context (es : list elem) (pc : list Z -> Z) (Hpc : forall z, text_bytes z -> verdict (pc z) es (chars z)).

Lemma pc_nomatch z : text_bytes z -> (pc z =? SQLITE_NOMATCH) = true -> verdict SQLITE_NOMATCH es (chars z).
Proof. intros Hz E. apply Z.eqb_eq in E. rewrite <- E. by apply Hpc. Qed.

Lemma char_search_spec fuel c s : (length s < fuel)%nat -> text_bytes s ->
  (forall x, same_char pInfo c x = (c =? x)) -> found (char_search fuel pc c s) (Lit c :: es) (chars s).
Proof.
  intros Hf Hs Hsame. revert s Hf Hs. induction fuel as [|fuel IH]; intros s Hf Hs; [lia|]. cbn [char_search].
  rewrite Utf8Read_eq. destruct (read_cases s Hs) as [[-> E]|(c0 & z & _ & E & Hpos & Hchars & Htext & Hlen)]; rewrite E.
  - right. split; [done|]. apply nowhere_nil. cbn. intros (? & ? & ? & _). done.
  - rewrite (proj2 (Z.eqb_neq _ _)) by lia. rewrite Hchars. specialize (IH z ltac:(lia) Htext).
    destruct (Z.eqb_spec c0 c) as [->|Hne]; cbn [negb].
    + destruct (pc z =? SQLITE_NOMATCH) eqn:Er; cbn [negb].
      * apply lit_next; [by apply pc_nomatch|done].
      * apply lit_candidate; [by rewrite Hsame, Z.eqb_refl|by apply Hpc|by apply Z.eqb_neq].
    + destruct IH as [[-> H]|[-> H]]; [left|right]; (split; [done|]); [by apply any_cons|].
      apply (lit_pre c es [c0]); [|done]. constructor; [|constructor]. rewrite Hsame. apply Z.eqb_neq. congruence.
Qed.

Lemma ascii_search_spec fuel c stop s : (length s < fuel)%nat -> text_bytes s ->
  (forall x, is_stop stop x = true -> x < 0x80) -> (forall x, 0 < x -> same_char pInfo c x = is_stop stop x) ->
  Forall (fun x => 0 < x) (chars s) ->
  found (ascii_search fuel pc stop s) (Lit c :: es) (chars s).
Proof.
  intros Hf Hs Hst Hsame. revert s Hf Hs. induction fuel as [|fuel IH]; intros s Hf Hs Hpos; [lia|]. cbn [ascii_search].
  destruct (strcspn_chars stop Hst (length s) s ltac:(lia) Hs)
    as [[-> Hno]|(b & z & pre & -> & Hb & Ec & Hpre & Hz & Hl)].
  - right. split; [done|]. rewrite <- (app_nil_r (chars s)). apply lit_pre.
    + rewrite Forall_forall in *. intros x Hx. rewrite Hsame by (by apply Hpos). by apply Hno.
    + apply nowhere_nil. cbn. intros (? & ? & ? & _). done.
  - rewrite Ec in *. apply Forall_app in Hpos as [Hp1 Hp2]. inversion_clear Hp2 as [|? ? Hb0 Hp3].
    assert (Hx : found (if negb (pc z =? SQLITE_NOMATCH) then pc z else ascii_search fuel pc stop z)
                   (Lit c :: es) (b :: chars z)).
    { destruct (pc z =? SQLITE_NOMATCH) eqn:Er; cbn [negb].
      - apply lit_next; [by apply pc_nomatch|]. apply IH; [lia|done|done].
      - apply lit_candidate; [by rewrite Hsame|by apply Hpc|by apply Z.eqb_neq]. }
    cbn zeta. destruct Hx as [[-> H]|[-> H]]; [left|right]; (split; [done|]); [by apply any_app|].
    apply lit_pre; [|done]. rewrite Forall_forall in *. intros x Hx. rewrite Hsame by (by apply Hp1). by apply Hpre.
Qed.

Lemma set_search_spec fuel s : (length s < fuel)%nat -> text_bytes s -> ~ den es [] ->
  found (set_search fuel pc s) es (chars s).
Proof.
  intros Hf Hs Hnil. revert s Hf Hs. induction fuel as [|fuel IH]; intros s Hf Hs; [lia|]. cbn [set_search].
  destruct (read_cases s Hs) as [[-> E]|(c & z & Hne & E & Hpos & Ec & Hz & Hl)].
  - right. split; [done|]. by apply nowhere_nil.
  - destruct s as [|b s]; [done|]. rewrite skip_is_read, E. cbn [snd].
    destruct (pc (b :: s) =? SQLITE_NOMATCH) eqn:Er; cbn [negb].
    + pose proof (pc_nomatch _ Hs Er) as Hv. rewrite Ec in *. specialize (IH z ltac:(lia) Hz).
      destruct IH as [[-> H]|[-> H]]; [left|right]; (split; [done|]); [by apply any_cons|].
      apply nowhere_cons; [|done]. destruct Hv as [[Hv _]|[[_ [Hn _]]|[Hv _]]]; done.
    + apply Z.eqb_neq in Er. destruct (Hpc _ Hs) as [[E1 H]|[[E1 _]|[E1 [H _]]]]; rewrite ?E1; [left|done|right];
        (split; [done|]); [by apply any_here|done].
Qed.
End searches.
End verdicts.

(** ** The pattern, read once *)

Lemma parse_items_shorter n cs prior l r : (length cs <= n)%nat ->
  parse_items cs prior = Some (l, r) -> (length r < length cs)%nat.
Proof.
  revert cs prior l r. induction n as [|n IH]; intros [|c cs] prior l r Hn E; cbn in Hn; [done|lia|done|].
  cbn [parse_items] in E. cbn [length]. destruct (c =? 93); [simplify_eq; lia|].
  assert (Hs : forall cs' p l' r', parse_items cs' p = Some (l', r') -> (length cs' <= length cs)%nat ->
            (length r' < S (length cs))%nat).
  { intros cs' p l' r' E' Hl. pose proof (IH cs' p l' r' ltac:(lia) E'). lia. }
  destruct cs as [|hi cs].
  { by cbn in E. }
  destruct ((c =? 45) && (0 <? prior) && negb (hi =? 93)).
  - destruct (parse_items cs 0) as [[l' r']|] eqn:E'; [|done]. simplify_eq. eapply Hs; [done|cbn; lia].
  - destruct (parse_items (hi :: cs) c) as [[l' r']|] eqn:E'; [|done]. simplify_eq. by eapply Hs.
Qed.

Lemma parse_set_shorter cs i l r : parse_set cs = Some (i, l, r) -> (length r < length cs)%nat.
Proof.
  unfold parse_set. intros E.
  assert (H1 : (length (split_caret cs).2 <= length cs)%nat) by (destruct cs; cbn; repeat case_match; cbn; lia).
  destruct (split_caret cs) as [inv cs1]. cbn in H1.
  assert (H2 : (length (split_bracket cs1).2 <= length cs1)%nat) by (destruct cs1; cbn; repeat case_match; cbn; lia).
  destruct (split_bracket cs1) as [fi cs2]. cbn in H2.
  destruct (parse_items cs2 0) as [[l' r']|] eqn:E'; [|done]. simplify_eq.
  pose proof (parse_items_shorter _ _ _ _ _ (le_n _) E'). lia.
Qed.

Section parsing.
Context (pInfo : compareInfo) (matchOther : Z).
Lemma parse_enough n m cs : (length cs < n)%nat -> (length cs < m)%nat ->
  parse pInfo matchOther n cs = parse pInfo matchOther m cs.
Proof.
  revert m cs. induction n as [|n IH]; intros [|m] cs Hn Hm; [lia..|]. cbn [parse].
  destruct cs as [|c cs]; [done|]. cbn [length] in *.
  destruct (c =? matchAll pInfo); [f_equal; apply IH; lia|].
  destruct (c =? matchOther); [|destruct (c =? matchOne pInfo); f_equal; apply IH; lia].
  destruct (matchSet pInfo =? 0).
  - destruct cs as [|e cs]; [done|]. cbn [length] in *. f_equal. apply IH; lia.
  - destruct (parse_set cs) as [[[i l] r]|] eqn:E; [|done]. pose proof (parse_set_shorter _ _ _ _ E).
    f_equal. apply IH; lia.
Qed.

(** The elements of a whole pattern. *)
Definition elements (cs : list Z) : list elem := parse pInfo matchOther (S (length cs)) cs.

Lemma elements_cons c cs : elements (c :: cs) =
  if c =? matchAll pInfo then Any :: elements cs
  else if c =? matchOther then
    if matchSet pInfo =? 0 then
      match cs with [] => [Bad] | e :: cs' => Lit e :: elements cs' end
    else match parse_set cs with
         | None => [Bad]
         | Some (i, items, r) => Set_ i items :: elements r
         end
  else if c =? matchOne pInfo then One :: elements cs
  else Lit c :: elements cs.
Proof.
  unfold elements at 1. cbn [length]. remember (S (length cs)) as n eqn:En. cbn [parse].
  assert (Hp : forall cs', (length cs' <= length cs)%nat -> parse pInfo matchOther n cs' = elements cs')
    by (intros; apply parse_enough; lia).
  rewrite Hp by lia. destruct (c =? matchAll pInfo); [done|]. destruct (c =? matchOther); [|done].
  destruct (matchSet pInfo =? 0).
  - destruct cs as [|e cs]; [done|]. f_equal. apply Hp. cbn. lia.
  - destruct (parse_set cs) as [[[i l] r]|] eqn:E; [|done]. pose proof (parse_set_shorter _ _ _ _ E).
    f_equal. apply Hp. lia.
Qed.
End parsing.

(** ** Sets *)

Definition items_mem (items : list (Z * Z)) (x : Z) : bool :=
  existsb (fun '(lo, hi) => (lo <=? x) && (x <=? hi)) items.

Lemma single_mem c x : (c <=? x) && (x <=? c) = (x =? c).
Proof. destruct (Z.eqb_spec x c); [subst; by rewrite Z.leb_refl|]. apply andb_false_iff. rewrite !Z.leb_gt. lia. Qed.

(** The byte that follows says whether the next character is "]". *)
Lemma next_byte z : text_bytes z ->
  (z = [] /\ chars z = []) \/
  (exists b z' hi cs, z = b :: z' /\ b <> 0 /\ chars z = hi :: cs /\ (b =? 93) = (hi =? 93)).
Proof.
  intros Hz. destruct z as [|b z]; [by left|right]. inversion_clear Hz as [|? ? Hb Hz'].
  pose proof (chars_read (b :: z) ltac:(done)) as Ec. do 4 eexists. split; [done|]. split; [lia|]. split; [exact Ec|].
  destruct (Z.lt_ge_cases b 0x80) as [H|H]; [by rewrite read_ascii|].
  pose proof (read_not_ascii b z H). rewrite !(proj2 (Z.eqb_neq _ _)) by lia. done.
Qed.

Lemma set_loop_spec fuel x z0 prior seen : (length z0 < fuel)%nat -> text_bytes z0 ->
  let '(c2, z) := sqlite3Utf8Read z0 in
  match parse_items (chars z0) prior with
  | None => (set_loop fuel x c2 z prior seen).1.1 = 0
  | Some (l, r) => exists z', set_loop fuel x c2 z prior seen = (93, seen || items_mem l x, z') /\
                              chars z' = r /\ text_bytes z' /\ (length z' < length z0)%nat
  end.
Proof.
  revert z0 prior seen. induction fuel as [|fuel IH]; intros z0 prior seen Hf Hz0; [lia|].
  destruct (read_cases z0 Hz0) as [[-> E]|(c & z & _ & E & Hpos & Ec & Hz & Hl)]; rewrite E; [done|].
  rewrite Ec. cbn [set_loop parse_items]. rewrite (proj2 (Z.eqb_neq c 0)) by lia. cbn [orb].
  destruct (Z.eqb_spec c 93) as [->|H93].
  { exists z. by rewrite orb_false_r. }
  assert (Hsingle : match (match parse_items (chars z) c with Some (l, r) => Some ((c, c) :: l, r) | None => None end) with
     | None => (let '(c2, zp) := sqlite3Utf8Read z in set_loop fuel x c2 zp c (seen || (x =? c))).1.1 = 0
     | Some (l, r) => exists z', (let '(c2, zp) := sqlite3Utf8Read z in set_loop fuel x c2 zp c (seen || (x =? c))) =
            (93, seen || items_mem l x, z') /\ chars z' = r /\ text_bytes z' /\ (length z' < length z0)%nat
     end).
  { specialize (IH z c (seen || (x =? c)) ltac:(lia) Hz). destruct (sqlite3Utf8Read z) as [c2 zp].
    destruct (parse_items (chars z) c) as [[l r]|]; [|done]. destruct IH as (z' & E1 & E2 & E3 & E4).
    exists z'. rewrite E1. unfold items_mem. cbn [existsb]. rewrite single_mem, orb_assoc. split_and!; [done..|lia]. }
  destruct (next_byte z Hz) as [[-> Ecz]|(b & z1 & hi & cs & -> & Hb & Ecz & E93)].
  - rewrite Ecz in *. rewrite andb_false_r, andb_false_l. exact Hsingle.
  - rewrite Ecz in *. rewrite (proj2 (Z.eqb_neq b 0) Hb), E93, andb_true_r.
    replace ((c =? 45) && negb (hi =? 93) && (0 <? prior)) with ((c =? 45) && (0 <? prior) && negb (hi =? 93)) 
      by (by rewrite <- !andb_assoc, (andb_comm (0 <? prior))).
    destruct ((c =? 45) && (0 <? prior) && negb (hi =? 93)); [|exact Hsingle].
    destruct (read_cases _ Hz) as [[? _]|(c' & z' & _ & E' & _ & Ec' & Hz' & Hl')]; [done|].
    rewrite E'. rewrite Ec' in Ecz. simplify_eq.
    specialize (IH z' 0 (seen || (prior <=? x) && (x <=? hi)) ltac:(lia) Hz').
    destruct (sqlite3Utf8Read z') as [c2 zp]. destruct (parse_items (chars z') 0) as [[l r]|]; [|done].
    destruct IH as (z2 & E1 & E2 & E3 & E4). exists z2. rewrite E1. unfold items_mem. cbn [existsb].
    rewrite orb_assoc. split_and!; [done..|lia].
Qed.

Lemma set_match_spec x z : text_bytes z ->
  match parse_set (chars z) with
  | None => set_match x z = None
  | Some (i, l, r) => if in_set i l x then exists z', set_match x z = Some z' /\ chars z' = r /\ text_bytes z' /\
                                                     (length z' < length z)%nat
                      else set_match x z = None
  end.
Proof.
  intros Hz. unfold parse_set, set_match.
  (* the caret *)
  assert (H1 : exists z1 i, split_caret (chars z) = (i, chars z1) /\ text_bytes z1 /\ (length z1 <= length z)%nat /\
     (let '(c2, zp) := sqlite3Utf8Read z in ((c2 =? 94), if c2 =? 94 then sqlite3Utf8Read zp else (c2, zp)))
       = (i, sqlite3Utf8Read z1)).
  { destruct (read_cases z Hz) as [[-> E]|(c & z' & _ & E & Hpos & Ec & Hz' & Hl)]; rewrite E; [by exists [], false|].
    rewrite Ec. unfold split_caret. destruct (c =? 94); [exists z', true|exists z, false]; rewrite ?Ec, ?E; split_and!; auto; lia. }
  destruct H1 as (z1 & i & -> & Hz1 & Hl1 & E1). destruct (sqlite3Utf8Read z) as [c2 zp]. injection E1 as -> E1. rewrite E1.
  (* the bracket *)
  assert (H2 : exists z2 fi, split_bracket (chars z1) = (fi, chars z2) /\ text_bytes z2 /\ (length z2 <= length z1)%nat /\
     (let '(c2, zp) := sqlite3Utf8Read z1 in ((c2 =? 93) && (x =? 93), if c2 =? 93 then sqlite3Utf8Read zp else (c2, zp)))
       = (items_mem fi x, sqlite3Utf8Read z2)).
  { destruct (read_cases z1 Hz1) as [[-> E]|(c & z' & _ & E & Hpos & Ec & Hz' & Hl)]; rewrite E; [by exists [], []|].
    rewrite Ec. unfold split_bracket. destruct (c =? 93); [exists z', [(93, 93)]|exists z1, []];
      rewrite ?Ec, ?E; unfold items_mem; cbn [existsb]; rewrite ?single_mem, ?orb_false_r; split_and!; auto; lia. }
  destruct H2 as (z2 & fi & -> & Hz2 & Hl2 & E2). destruct (sqlite3Utf8Read z1) as [c3 zp2]. injection E2 as -> E2. rewrite E2.
  pose proof (set_loop_spec (S (length z)) x z2 0 (items_mem fi x) ltac:(lia) Hz2) as Hloop.
  destruct (sqlite3Utf8Read z2) as [c4 zp3]. destruct (parse_items (chars z2) 0) as [[l r]|].
  - destruct Hloop as (z3 & -> & E3 & E4 & E5). change (93 =? 0) with false. cbn [orb].
    unfold in_set. fold (items_mem (fi ++ l) x). unfold items_mem. rewrite existsb_app. rewrite xorb_comm.
    destruct (xorb _ _); cbn [negb]; [exists z3; split_and!; [done..|lia]|done].
  - destruct (set_loop _ _ _ _ _ _) as [[c5 s5] z5]. cbn in Hloop. by subst.
Qed.

(** ** The matcher gives the verdict of the reference *)

(** The wildcards differ from each other and from the escape, unless switched off by a
    zero; the character that opens a set is ASCII. *)
Record info_ok (pInfo : compareInfo) (matchOther : Z) : Prop := {
  one_other : matchOne pInfo = 0 \/ (matchOne pInfo <> matchOther /\ matchOne pInfo <> matchAll pInfo);
  set_ascii : matchSet pInfo = 0 \/ 0 < matchOther < 0x80
}.

Lemma chars_pos n z : (length z <= n)%nat -> text_bytes z -> Forall (fun c => 0 < c) (chars z).
Proof.
  revert z. induction n as [|n IH]; intros z Hn Hz;
    (destruct (read_cases z Hz) as [[-> _]|(c & z' & Hne & _ & Hp & -> & Hz' & Hl)]; [constructor|]).
  - destruct z; [done|]. cbn in Hn. lia.
  - constructor; [done|]. apply IH; [lia|done].
Qed.
Lemma ascii_table (P : Z -> bool) c : forallb P (seqZ 0 128) = true -> 0 <= c < 0x80 -> P c = true.
Proof. intros H Hc. rewrite forallb_forall in H. apply H, list_elem_of_In, elem_of_seqZ. lia. Qed.

Section matcher.
Context (pInfo : compareInfo) (matchOther : Z) (Hok : info_ok pInfo matchOther).
#[local] Abbreviation elements := (elements pInfo matchOther).
#[local] Abbreviation den := (denotes pInfo).

(** The two stop characters are the two cases of the character. *)
Lemma zStop_same c x : 0 < c < 0x80 -> 0 < x -> same_char pInfo c x = is_stop (zStop pInfo c) x.
Proof.
  intros Hc Hx. unfold same_char, zStop, is_stop. destruct (noCase pInfo); cbn [andb].
  - destruct (Z.lt_ge_cases x 0x80) as [Hlt|Hge].
    + assert (T : forallb (fun c => forallb (fun x => Bool.eqb
          ((c =? x) || ((c <? 0x80) && (x <? 0x80) && (sqlite3Tolower c =? sqlite3Tolower x)))
          (existsb (Z.eqb x) [sqlite3Toupper c; sqlite3Tolower c])) (seqZ 0 128)) (seqZ 0 128) = true) by (by vm_compute).
      pose proof (ascii_table _ c T ltac:(lia)) as T1. cbn beta in T1.
      pose proof (ascii_table _ x T1 ltac:(lia)) as T2. by apply Bool.eqb_prop in T2.
    + assert (T : forallb (fun c => (sqlite3Toupper c <? 0x80) && (sqlite3Tolower c <? 0x80)) (seqZ 0 128) = true) by (by vm_compute).
      pose proof (ascii_table _ c T ltac:(lia)) as T1. cbn beta in T1. rewrite andb_true_iff, !Z.ltb_lt in T1.
      cbn [existsb]. rewrite (proj2 (Z.ltb_ge x 0x80)) by lia. 
      rewrite (proj2 (Z.eqb_neq c x)), !(proj2 (Z.eqb_neq x _)), andb_false_r by lia. done.
  - cbn [existsb]. by rewrite !orb_false_r, Z.eqb_sym.
Qed.
Lemma zStop_ascii c x : 0 < c < 0x80 -> is_stop (zStop pInfo c) x = true -> x < 0x80.
Proof.
  intros Hc. unfold zStop, is_stop. destruct (noCase pInfo); cbn [existsb];
    rewrite ?orb_true_iff, !Z.eqb_eq; [|intros [|]; [lia|done]].
  assert (T : forallb (fun c => (sqlite3Toupper c <? 0x80) && (sqlite3Tolower c <? 0x80)) (seqZ 0 128) = true) by (by vm_compute).
  pose proof (ascii_table _ c T ltac:(lia)) as T1. cbn beta in T1. rewrite andb_true_iff, !Z.ltb_lt in T1.
  intros [|[|]]; [lia|lia|done].
Qed.

Lemma search_char_spec es pc c s : (forall z, text_bytes z -> verdict pInfo (pc z) es (chars z)) ->
  0 < c -> text_bytes s -> found pInfo (search_char pInfo pc c s) (Lit c :: es) (chars s).
Proof.
  intros Hpc Hc Hs. unfold search_char. destruct (Z.ltb_spec c 0x80) as [H|H].
  - apply ascii_search_spec; [done|lia|done| | |by eapply chars_pos].
    + intros x. apply zStop_ascii. lia.
    + intros x Hx. apply zStop_same; lia.
  - apply char_search_spec; [done|lia|done|]. intros x. unfold same_char.
    rewrite (proj2 (Z.ltb_ge c 0x80)) by lia. by rewrite andb_false_r, !andb_false_l, orb_false_r.
Qed.

Lemma found_one r es x s : found pInfo r es s -> found pInfo r (One :: es) (x :: s).
Proof.
  intros [[-> (s1 & s2 & -> & H)]|[-> H]]; [left|right]; (split; [done|]).
  - destruct (exists_last (l := x :: s1) ltac:(done)) as (t & y & E).
    exists t, (y :: s2). split; [|by exists y, s2]. change (x :: s1 ++ s2) with ((x :: s1) ++ s2).
    by rewrite E, <- app_assoc.
  - intros t1 t2 E (y & t3 & -> & Hd). destruct t1 as [|z t1]; cbn in E; simplify_eq.
    + by apply (H [] t3).
    + apply (H (t1 ++ [y]) t3); [by rewrite <- app_assoc|done].
Qed.
Lemma found_any r es s : found pInfo r es s -> found pInfo r (Any :: es) s.
Proof.
  intros [[-> H]|[-> H]]; [left|right]; (split; [done|]); [by apply any_here|by apply nowhere_any].
Qed.

(** Skipping wildcards: what is found for the rest is found for the whole. *)
Lemma skip_wild_spec fuel p s : matchAll pInfo <> 0 -> (length p < fuel)%nat -> text_bytes p -> text_bytes s ->
  match skip_wild pInfo fuel p s with
  | None => found pInfo SQLITE_NOWILDCARDMATCH (elements (chars p)) (chars s)
  | Some (c, p', s') => exists p0, sqlite3Utf8Read p0 = (c, p') /\ text_bytes p0 /\ text_bytes s' /\
      (length p0 <= length p)%nat /\ (c <> 0 -> c <> matchAll pInfo /\ c <> matchOne pInfo) /\
      (forall r, found pInfo r (elements (chars p0)) (chars s') -> found pInfo r (elements (chars p)) (chars s))
  end.
Proof.
  intros Hall. revert p s. induction fuel as [|fuel IH]; intros p s Hf Hp Hs; [lia|]. cbn [skip_wild]. rewrite Utf8Read_eq.
  destruct (sqlite3Utf8Read p) as [c p'] eqn:E.
  destruct (_ || _) eqn:Ew.
  2: { exists p. split_and!; auto. intros Hc0. rewrite orb_false_iff, andb_false_iff in Ew. destruct Ew as [E1 E2].
       apply Z.eqb_neq in E1. split; [done|]. destruct E2 as [E2|E2]; [by apply Z.eqb_neq|].
       unfold truthy in E2. apply negb_false_iff, Z.eqb_eq in E2. congruence. }
  destruct (read_cases p Hp) as [[-> E']|(c' & z & _ & E' & Hpos & Ec & Hz & Hl)];
    rewrite E in E'; [simplify_eq|injection E' as <- <-].
  { exfalso. rewrite orb_true_iff, andb_true_iff, !Z.eqb_eq in Ew. destruct Ew as [Ew|[Ew1 Ew2]]; [congruence|].
    by rewrite <- Ew1 in Ew2. }
  rewrite Ec, elements_cons. destruct Hok as [H1 _]. destruct (Z.eqb_spec c (matchOne pInfo)) as [->|Hne].
  - destruct H1 as [?|[Ho Ha]]; [lia|]. rewrite !(proj2 (Z.eqb_neq _ _)) by done.
    destruct (read_cases s Hs) as [[-> Es]|(x & s' & _ & Es & Hx & Ecs & Hs' & _)]; rewrite Es.
    + right. split; [done|]. apply nowhere_nil. cbn. intros (? & ? & ? & _). done.
    + rewrite (proj2 (Z.eqb_neq x 0)) by lia. rewrite Ecs. specialize (IH p' s' ltac:(lia) Hz Hs').
      destruct (skip_wild pInfo fuel p' s') as [[[c2 p2] s2]|]; [|by apply found_one].
      destruct IH as (p0 & ? & ? & ? & ? & ? & Hr). exists p0. split_and!; auto; [lia|]. intros r Hfr. apply found_one. auto.
  - rewrite andb_false_l, orb_false_r in Ew. rewrite Ew. specialize (IH p' s ltac:(lia) Hz Hs).
    destruct (skip_wild pInfo fuel p' s) as [[[c2 p2] s2]|]; [|by apply found_any].
    destruct IH as (p0 & ? & ? & ? & ? & ? & Hr). exists p0. split_and!; auto; [lia|]. intros r Hfr. apply found_any. auto.
Qed.

(** One step over a character of each side. *)
Definition accepts (e : elem) (x : Z) : bool :=
  match e with One => true | Lit c => same_char pInfo c x | Set_ i l => in_set i l x | _ => false end.
Definition single (e : elem) : bool := match e with One | Lit _ | Set_ _ _ => true | _ => false end.

Lemma den_single e es s : single e = true ->
  den (e :: es) s <-> exists x s', s = x :: s' /\ accepts e x = true /\ den es s'.
Proof. destruct e; try done; cbn; intros _; firstorder. Qed.
Lemma reaches_single e es x s : single e = true ->
  reaches pInfo (e :: es) (x :: s) = accepts e x && reaches pInfo es s.
Proof. by destruct e. Qed.
Lemma verdict_nil e es : single e = true -> verdict pInfo SQLITE_NOMATCH (e :: es) [].
Proof.
  intros He. right. left. split; [done|]. split; [|by destruct e].
  rewrite den_single by done. intros (? & ? & ? & _). done.
Qed.
Lemma verdict_step r es e x s : single e = true -> verdict pInfo r es s ->
  verdict pInfo (if accepts e x then r else SQLITE_NOMATCH) (e :: es) (x :: s).
Proof.
  intros He Hv. assert (Hd : den (e :: es) (x :: s) <-> accepts e x = true /\ den es s).
  { rewrite den_single by done. split; [intros (? & ? & ? & ?); by simplify_eq|intros []; eauto]. }
  pose proof (reaches_single e es x s He) as Hreach.
  destruct (accepts e x); cbn [andb] in Hreach.
  2: { right. left. split; [done|]. split; [rewrite Hd; by intros []|done]. }
  destruct Hv as [[-> H]|[[-> [H Hr]]|[-> [H Hr]]]]; [left|right; left|right; right]; (split; [done|]).
  - by apply Hd.
  - split; [rewrite Hd; by intros []|congruence].
  - split; [|congruence]. intros t1 t2 E (y & t3 & -> & _ & Hy)%den_single; [|done].
    destruct t1 as [|z t1]; cbn in E; simplify_eq; [by apply (H [] t3)|].
    apply (H (t1 ++ [y]) t3); [by rewrite <- app_assoc|done].
Qed.
Lemma verdict_bad es s : verdict pInfo SQLITE_NOMATCH (Bad :: es) s.
Proof. right. left. split; [done|]. split; [intros []|done]. Qed.

Lemma tolower_nonzero c : 0 < c < 0x80 -> sqlite3Tolower c <> sqlite3Tolower 0.
Proof.
  intros Hc. assert (T : forallb (fun c => (c =? 0) || negb (sqlite3Tolower c =? sqlite3Tolower 0)) (seqZ 0 128) = true) by (by vm_compute).
  pose proof (ascii_table _ c T ltac:(lia)) as T1. cbn beta in T1. apply orb_true_iff in T1 as [T1|T1].
  - apply Z.eqb_eq in T1. lia.
  - by apply negb_true_iff, Z.eqb_neq in T1.
Qed.
Lemma one_char_spec c escaped k es s : 0 < c -> text_bytes s ->
  (forall z, text_bytes z -> verdict pInfo (k z) es (chars z)) ->
  verdict pInfo (one_char pInfo c escaped k s)
    ((if (c =? matchOne pInfo) && negb escaped then One else Lit c) :: es) (chars s).
Proof.
  intros Hc Hs Hk. unfold one_char. rewrite Utf8Read_eq.
  destruct (read_cases s Hs) as [[-> E]|(x & s' & _ & E & Hx & Ec & Hs' & _)]; rewrite E.
  - rewrite (proj2 (Z.eqb_neq c 0)) by lia. change (truthy 0) with false. rewrite andb_false_r, orb_false_r.
    assert (Hz : noCase pInfo && (sqlite3Tolower (u8 c) =? sqlite3Tolower (u8 0)) && (c <? 0x80) && (0 <? 0x80) = false).
    { destruct (Z.ltb_spec c 0x80); [|by rewrite !andb_false_r]. unfold u8. rewrite Z.mod_small by lia.
      rewrite (proj2 (Z.eqb_neq _ _)) by (apply tolower_nonzero; lia). by rewrite andb_false_r. }
    rewrite Hz. apply verdict_nil. by case_match.
  - rewrite Ec.
    set (e := if (c =? matchOne pInfo) && negb escaped then One else Lit c).
    assert (Ea : ((c =? x) || (noCase pInfo && (sqlite3Tolower (u8 c) =? sqlite3Tolower (u8 x)) && (c <? 0x80) && (x <? 0x80))
                  || ((c =? matchOne pInfo) && negb escaped && truthy x)) = accepts e x).
    { assert (Ht : truthy x = true) by (unfold truthy; rewrite (proj2 (Z.eqb_neq x 0)) by lia; done).
      rewrite Ht, andb_true_r. unfold e. destruct (_ && negb escaped); [by rewrite orb_true_r|].
      rewrite orb_false_r. cbn [accepts]. unfold same_char.
      destruct (Z.ltb_spec c 0x80); [|by rewrite !andb_false_r, ?andb_false_l].
      destruct (Z.ltb_spec x 0x80); [|by rewrite !andb_false_r, ?andb_false_l].
      unfold u8. rewrite !Z.mod_small, !andb_true_r by lia. done. }
    rewrite Ea. apply verdict_step; [unfold e; by case_match|by apply Hk].
Qed.

Lemma after_star_spec pc p s : matchAll pInfo <> 0 ->
  (forall q, text_bytes q -> (length q <= length p)%nat -> forall z, text_bytes z ->
     verdict pInfo (pc q z) (elements (chars q)) (chars z)) ->
  text_bytes p -> text_bytes s -> found pInfo (after_star pInfo matchOther pc p s) (elements (chars p)) (chars s).
Proof.
  intros Hall Hrec Hp Hs. unfold after_star.
  pose proof (skip_wild_spec (S (length p)) p s Hall ltac:(lia) Hp Hs) as Hskip.
  destruct (skip_wild pInfo _ p s) as [[[c1 p1] s1]|]; [|done].
  destruct Hskip as (p0 & E0 & Hp0 & Hs1 & Hl0 & Hnw & Htrans).
  apply Htrans. clear Htrans.
  destruct (read_cases p0 Hp0) as [[-> E1]|(c' & p1' & _ & E1 & Hc1 & Ec1 & Hp1 & Hl1)]; rewrite E0 in E1; simplify_eq.
  { left. split; [done|]. exists (chars s1), []. by rewrite app_nil_r. }
  destruct (Hnw ltac:(lia)) as [Hna Hno]. rewrite (proj2 (Z.eqb_neq c' 0)), Ec1, elements_cons by lia.
  rewrite (proj2 (Z.eqb_neq _ _) Hna), (proj2 (Z.eqb_neq _ _) Hno).
  destruct (Z.eqb_spec c' matchOther) as [Eo|_]; [|apply search_char_spec; [apply Hrec; [done|lia]|lia|done]].
  destruct (Z.eqb_spec (matchSet pInfo) 0) as [Eset|Hset].
  + destruct (read_cases p1' Hp1) as [[-> E2]|(c2 & p2 & _ & E2 & Hc2 & -> & Hp2 & Hl2)]; rewrite E2.
    * right. split; [done|]. intros t1 t2 _ [].
    * rewrite (proj2 (Z.eqb_neq c2 0)) by lia. apply search_char_spec; [apply Hrec; [done|lia]|lia|done].
  + destruct Hok as [_ [?|Ha]]; [done|]. destruct p0 as [|b p0]; [by cbn in Ec1|].
    assert (Eb : b < 0x80).
    { destruct (Z.lt_ge_cases b 0x80) as [|Hb]; [done|]. pose proof (read_not_ascii b p0 Hb) as Hr. rewrite E0 in Hr. cbn in Hr. lia. }
    rewrite read_ascii in E0 by done. injection E0 as -> ->. subst c'.
    pose proof (Hrec (matchOther :: p1') Hp0 ltac:(cbn [length] in *; lia)) as Hpc. rewrite Ec1, elements_cons in Hpc.
    rewrite (proj2 (Z.eqb_neq _ _) Hna), Z.eqb_refl, (proj2 (Z.eqb_neq _ _) Hset) in Hpc.
    apply set_search_spec; [exact Hpc|lia|done|].
    destruct (parse_set (chars p1')) as [[[i l] r]|]; cbn; [|tauto]. intros (? & ? & ? & _). done.
Qed.

Lemma patternCompare_verdict fuel p s : (length p < fuel)%nat -> text_bytes p -> text_bytes s ->
  verdict pInfo (patternCompare_loop pInfo matchOther fuel p s) (elements (chars p)) (chars s).
Proof.
  revert p s. induction fuel as [|fuel IH]; intros p s Hf Hp Hs; [lia|]. cbn [patternCompare_loop]. rewrite Utf8Read_eq.
  destruct (read_cases p Hp) as [[-> E]|(c & p' & _ & E & Hc & Ec & Hp' & Hl)]; rewrite E.
  { destruct s as [|b s]; [by left|]. right. left. split; [done|]. rewrite (chars_read (b :: s)) by done. split; done. }
  rewrite (proj2 (Z.eqb_neq c 0)), Ec, elements_cons by lia.
  assert (Hrec : forall q, text_bytes q -> (length q < fuel)%nat -> forall z, text_bytes z ->
     verdict pInfo (patternCompare_loop pInfo matchOther fuel q z) (elements (chars q)) (chars z)) by auto.
  destruct (Z.eqb_spec c (matchAll pInfo)) as [Eall|Hall].
  - apply found_verdict, after_star_spec; [lia|intros q Hq Hlq; apply Hrec; [done|lia]|done|done].
  - destruct (Z.eqb_spec c matchOther) as [Eo|Ho].
    + destruct (Z.eqb_spec (matchSet pInfo) 0) as [Eset|Hset].
      * destruct (read_cases p' Hp') as [[-> E2]|(c2 & p2 & _ & E2 & Hc2 & -> & Hp2 & Hl2)]; rewrite E2.
        { apply verdict_bad. }
        rewrite (proj2 (Z.eqb_neq c2 0)) by lia.
        pose proof (one_char_spec c2 true _ _ s Hc2 Hs (Hrec p2 Hp2 ltac:(lia))) as H.
        rewrite andb_false_r in H. exact H.
      * pose proof (set_match_spec) as Hset_match.
        destruct (read_cases s Hs) as [[-> E2]|(x & s' & _ & E2 & Hx & Ecs & Hs' & Hls)]; rewrite E2.
        { change (0 =? 0) with true. cbn iota.
          destruct (parse_set (chars p')) as [[[i l] r]|]; [by apply verdict_nil|apply verdict_bad]. }
        rewrite (proj2 (Z.eqb_neq x 0)), Ecs by lia. specialize (Hset_match x p' Hp').
        destruct (parse_set (chars p')) as [[[i l] r]|]; [|rewrite Hset_match; apply verdict_bad].
        destruct (in_set i l x) eqn:Ein.
        -- destruct Hset_match as (z' & -> & <- & Hz' & Hlz).
           pose proof (verdict_step _ _ (Set_ i l) x _ eq_refl (Hrec z' Hz' ltac:(lia) s' Hs')) as H.
           cbn [accepts] in H. by rewrite Ein in H.
        -- rewrite Hset_match. right. left. split; [done|]. split; [|cbn; by rewrite Ein].
           cbn. intros (? & ? & ? & Hi & _). simplify_eq. congruence.
    + pose proof (one_char_spec c false _ _ s Hc Hs (Hrec p' Hp' ltac:(lia))) as H. rewrite andb_true_r in H.
      assert (Ee : forall (b : bool) es, (if b then One :: es else Lit c :: es) = (if b then One else Lit c) :: es) by (by intros []).
      rewrite Ee. exact H.
Qed.
End matcher.

(** C25. The matcher decides the pattern language, with all three result codes: for every
    pattern and string without NULs, it returns the match code exactly when the pattern,
    read as a list of elements, denotes the characters of the string.  Without a match it
    returns SQLITE_NOWILDCARDMATCH exactly when the elements before the first "*" match
    the beginning of the string, so that the wildcard was tried, and SQLITE_NOMATCH
    otherwise.  So the search for the next candidate character and the early answer that
    a wildcard cannot match change no result. *)
Theorem patternCompare_exact (pInfo : compareInfo) (matchOther : Z) (zPattern zString : list Z)
  (Hinfo : info_ok pInfo matchOther) (Hp : text_bytes zPattern) (Hs : text_bytes zString) :
  let r := patternCompare pInfo matchOther zPattern zString in
  let es := elements pInfo matchOther (chars zPattern) in
  let s := chars zString in
  (r = SQLITE_MATCH <-> denotes pInfo es s) /\
  (r = SQLITE_NOWILDCARDMATCH <-> ~ denotes pInfo es s /\ reaches pInfo es s = true) /\
  (r = SQLITE_NOMATCH <-> ~ denotes pInfo es s /\ reaches pInfo es s = false).
Proof.
  intros r es s. unfold r, patternCompare.
  destruct (patternCompare_verdict pInfo matchOther Hinfo (S (length zPattern)) zPattern zString ltac:(lia) Hp Hs)
    as [[-> H]|[[-> [H Hr]]|[-> [H%nowhere_here Hr]]]]; fold es s in H; try fold es s in Hr;
    rewrite ?Hr; naive_solver.
Qed.
Lemma patternCompare_exact_witness :
  (patternCompare likeInfoNorm 92 [37; 92; 37; 97; 37] [0xc3; 0xa9; 37; 65] = SQLITE_MATCH /\
   denotes likeInfoNorm (elements likeInfoNorm 92 (chars [37; 92; 37; 97; 37])) (chars [0xc3; 0xa9; 37; 65])) /\
  (patternCompare likeInfoNorm 92 [97; 37; 98] [97; 99; 99] = SQLITE_NOWILDCARDMATCH /\
   ~ denotes likeInfoNorm (elements likeInfoNorm 92 (chars [97; 37; 98])) (chars [97; 99; 99]) /\
   reaches likeInfoNorm (elements likeInfoNorm 92 (chars [97; 37; 98])) (chars [97; 99; 99]) = true).
Proof.
  assert (Hinfo : info_ok likeInfoNorm 92) by (split; [right; split; discriminate|by left]).
  split; (split; [reflexivity|]).
  - apply (patternCompare_exact likeInfoNorm 92 [37; 92; 37; 97; 37] [0xc3; 0xa9; 37; 65] Hinfo);
      [repeat constructor..|reflexivity].
  - apply (patternCompare_exact likeInfoNorm 92 [97; 37; 98] [97; 99; 99] Hinfo);
      [repeat constructor..|reflexivity].
Defined.

(** ** The SQL functions like() and glob() *)

(** An argument is its text, [None] for NULL; texts hold no NUL character. *)
Inductive sql_result := ResultNull | ResultInt (v : Z) | ResultError (msg : string).

Definition escape_info (pInfo : compareInfo) (escape : Z) : compareInfo :=
  mkInfo (if escape =? matchAll pInfo then 0 else matchAll pInfo)
         (if escape =? matchOne pInfo then 0 else matchOne pInfo) (matchSet pInfo) (noCase pInfo).

(** [zEsc]: the optional third argument; [limit]: SQLITE_LIMIT_LIKE_PATTERN_LENGTH. *)
Definition likeFunc (limit : Z) (pInfo : compareInfo) (pattern text : option (list Z))
  (zEsc : option (option (list Z))) : sql_result :=
  let nPat := match pattern with Some p => zlen p | None => 0 end in
  if limit <? nPat then ResultError "LIKE or GLOB pattern too complex" else
  let compare pInfo escape :=
    match text, pattern with
    | Some zA, Some zB => ResultInt (b2z (patternCompare pInfo escape zB zA =? SQLITE_MATCH))
    | _, _ => ResultNull
    end in
  match zEsc with
  | None => compare pInfo (matchSet pInfo)
  | Some None => ResultNull
  | Some (Some z) =>
      if negb (sqlite3Utf8CharLen z (-1) =? 1) then ResultError "ESCAPE expression must be a single character"
      else let '(escape, _) := sqlite3Utf8Read z in compare (escape_info pInfo escape) escape
  end.

(** The three tables and the escapes that they are used with. *)
Lemma builtin_info_ok pInfo : pInfo ∈ [globInfo; likeInfoNorm; likeInfoAlt] -> info_ok pInfo (matchSet pInfo).
Proof.
  rewrite !elem_of_cons, elem_of_nil. intros [->|[->|[->|[]]]]; (split; [right; split; discriminate|]);
    [by right|by left..].
Qed.
Lemma escape_info_ok pInfo e : pInfo ∈ [likeInfoNorm; likeInfoAlt] -> info_ok (escape_info pInfo e) e.
Proof.
  rewrite !elem_of_cons, elem_of_nil. intros [->|[->|[]]]; (split; [|by left]); unfold escape_info; cbn;
    (destruct (Z.eqb_spec e 95); [by left|right; split; [congruence|case_match; lia]]).
Qed.
Lemma charlen_chars z : sqlite3Utf8CharLen z (-1) = zlen (chars z).
Proof. unfold sqlite3Utf8CharLen. change (0 <=? -1) with false. rewrite charlen_loop_all; lia. Qed.

(** How like() must answer: the errors first, then NULL, then the match. *)
Definition like_answer (pInfo : compareInfo) (matchOther : Z) (p s : list Z) (r : sql_result) : Prop :=
  (r = ResultInt 1 /\ denotes pInfo (elements pInfo matchOther (chars p)) (chars s)) \/
  (r = ResultInt 0 /\ ~ denotes pInfo (elements pInfo matchOther (chars p)) (chars s)).

Lemma compare_answer pInfo matchOther p s : info_ok pInfo matchOther -> text_bytes p -> text_bytes s ->
  like_answer pInfo matchOther p s (ResultInt (b2z (patternCompare pInfo matchOther p s =? SQLITE_MATCH))).
Proof.
  intros Hi Hp Hs. unfold patternCompare.
  destruct (patternCompare_verdict pInfo matchOther Hi (S (length p)) p s ltac:(lia) Hp Hs)
    as [[-> H]|[[-> [H _]]|[-> [H _]]]]; [by left|right..]; (split; [done|]); [done|by apply nowhere_here].
Qed.

(** like(P,S) and glob(P,S): a pattern over the length limit is an error whatever the
    other arguments are; otherwise a NULL pattern or text gives NULL, and two texts give
    1 exactly when the pattern denotes the text and 0 when it does not. *)
Theorem likeFunc_two (limit : Z) (pInfo : compareInfo) (pattern text : option (list Z))
  (Hinfo : pInfo ∈ [globInfo; likeInfoNorm; likeInfoAlt])
  (Hp : forall p, pattern = Some p -> text_bytes p) (Hs : forall s, text = Some s -> text_bytes s) :
  let r := likeFunc limit pInfo pattern text None in
  match pattern, text with
  | Some p, _ => if limit <? zlen p then exists msg, r = ResultError msg else
                 match text with Some s => like_answer pInfo (matchSet pInfo) p s r | None => r = ResultNull end
  | None, _ => if limit <? 0 then exists msg, r = ResultError msg else r = ResultNull
  end.
Proof.
  unfold likeFunc. destruct pattern as [p|]; (destruct (_ <? _); [eauto|]); destruct text as [s|]; try done.
  apply compare_answer; [by apply builtin_info_ok|by apply Hp|by apply Hs].
Qed.
Lemma likeFunc_two_witness :
  like_answer globInfo 91 [42; 91; 97; 45; 99; 93] [120; 98]
    (likeFunc 50000 globInfo (Some [42; 91; 97; 45; 99; 93]) (Some [120; 98]) None).
Proof.
  apply (likeFunc_two 50000 globInfo (Some [42; 91; 97; 45; 99; 93]) (Some [120; 98])).
  - rewrite !elem_of_cons. by left.
  - intros p [= <-]. repeat constructor.
  - intros s [= <-]. repeat constructor.
Defined.

(** like(P,S,E): with an escape that is not exactly one character the call is an
    error, with a NULL escape it is NULL; otherwise the answer is that of the pattern
    language in which the escape character makes the next one literal, even when it is
    one of the wildcards, which then loses its meaning. *)
Theorem likeFunc_escape (limit : Z) (pInfo : compareInfo) (p s : list Z) (esc : option (list Z))
  (Hinfo : pInfo ∈ [likeInfoNorm; likeInfoAlt]) (Hlim : zlen p <= limit) (Hp : text_bytes p) (Hs : text_bytes s) :
  let r := likeFunc limit pInfo (Some p) (Some s) (Some esc) in
  match esc with
  | None => r = ResultNull
  | Some z => match chars z with
              | [e] => like_answer (escape_info pInfo e) e p s r
              | _ => exists msg, r = ResultError msg
              end
  end.
Proof.
  unfold likeFunc. rewrite (proj2 (Z.ltb_ge _ _)) by lia. destruct esc as [z|]; [|done]. rewrite charlen_chars.
  destruct z as [|b z]; [cbn; eauto|]. rewrite (chars_read (b :: z)) by done.
  destruct (sqlite3Utf8Read (b :: z)) as [e z']. cbn [fst snd].
  destruct (chars z') as [|e2 l]; [|rewrite !zlen_cons, (proj2 (Z.eqb_neq _ _)) by (pose proof (zlen_nonneg l); lia); cbn; eauto].
  change (zlen [e] =? 1) with true. cbn [negb]. apply compare_answer; [by apply escape_info_ok|done|done].
Qed.
Lemma likeFunc_escape_witness :
  like_answer (escape_info likeInfoNorm 37) 37 [97; 37; 37] [65; 37]
    (likeFunc 50000 likeInfoNorm (Some [97; 37; 37]) (Some [65; 37]) (Some (Some [37]))).
Proof.
  apply (likeFunc_escape 50000 likeInfoNorm [97; 37; 37] [65; 37] (Some [37])); [|done|repeat constructor..].
  rewrite !elem_of_cons. by left.
Defined.
