(* ===== verification/Bitvec.v ===== *)
(** Sparse bit vectors (bitvec.c): which pages were journalled, as a bitmap, a hash
    table of at most 124 values, or an array of 125 smaller bit vectors.

    The three forms of the union are three constructors: [iDivisor] is nonzero
    exactly in the third, and the size tells the first two apart.  Sizes are those
    of a 32-bit target.  The theorems show that setting, clearing and testing bits
    implement a finite set in every form, through the conversion of a hash table
    into smaller vectors. *)

From S2P Require Import Prelude.

(** ** Data *)

Definition BITVEC_SZ : Z := 512.
Definition BITVEC_USIZE : Z := (BITVEC_SZ - 3 * 4) / 4 * 4.
Definition BITVEC_SZELEM : Z := 8.
Definition BITVEC_NELEM : Z := BITVEC_USIZE / 1.
Definition BITVEC_NBIT : Z := BITVEC_NELEM * BITVEC_SZELEM.
Definition BITVEC_NINT : Z := BITVEC_USIZE / 4.
Definition BITVEC_MXHASH : Z := BITVEC_NINT / 2.
Definition BITVEC_HASH (X : Z) : Z := X * 1 mod BITVEC_NINT.
Definition BITVEC_NPTR : Z := BITVEC_USIZE / 4.

Inductive Bitvec :=
  | aBitmap (iSize : Z) (a : list Z)
  | aHash (iSize nSet : Z) (a : list Z)
  | apSub (iSize nSet iDivisor : Z) (a : list (option Bitvec)).

Definition bv_iSize (p : Bitvec) : Z :=
  match p with aBitmap s _ => s | aHash s _ _ => s | apSub s _ _ _ => s end.

(** ** Operations *)

(** A zeroed structure reads as an empty bitmap or as an empty hash table. *)
Definition sqlite3BitvecCreate (iSize : Z) (oom : list bool) : option Bitvec * list bool :=
  let '(fail, oom) := alloc oom in
  if fail then (None, oom)
  else (Some (if iSize <=? BITVEC_NBIT then aBitmap iSize (replicate (Z.to_nat BITVEC_NELEM) 0)
              else aHash iSize 0 (replicate (Z.to_nat BITVEC_NINT) 0)), oom).

Fixpoint hash_test (fuel : nat) (a : list Z) (h i : Z) : bool :=
  match fuel with
  | O => false
  | S fuel' => if a.[h] =? 0 then false
               else if a.[h] =? i then true
               else hash_test fuel' a ((h + 1) mod BITVEC_NINT) i
  end.

(** After [i--] and the range check; one level of sub-vectors per call. *)
Fixpoint bitvec_test (p : Bitvec) (i : Z) : bool :=
  match p with
  | apSub _ _ iDivisor a =>
      let bin := i / iDivisor in
      let i := i mod iDivisor in
      (fix at_bin (l : list (option Bitvec)) (n : nat) : bool :=
         match l, n with
         | Some q :: _, O => bitvec_test q i
         | None :: _, O => false
         | _ :: l', S n' => at_bin l' n'
         | [], _ => false
         end) a (Z.to_nat bin)
  | aBitmap _ a => truthy (Z.land a.[i / BITVEC_SZELEM] (Z.shiftl 1 (Z.land i (BITVEC_SZELEM - 1))))
  | aHash _ _ a => hash_test (Z.to_nat BITVEC_NINT) a (BITVEC_HASH i) (i + 1)
  end.
Definition sqlite3BitvecTestNotNull (p : Bitvec) (i : Z) : bool :=
  let i := u32 (i - 1) in
  if bv_iSize p <=? i then false else bitvec_test p i.
Definition sqlite3BitvecTest (p : option Bitvec) (i : Z) : bool :=
  match p with None => false | Some p => sqlite3BitvecTestNotNull p i end.

(** The probing loop of [sqlite3BitvecSet]: [None] when [i] is in the table, else
    the free slot. *)
Fixpoint set_probe (fuel : nat) (a : list Z) (h i : Z) : option Z :=
  match fuel with
  | O => Some h
  | S fuel' =>
      if a.[h] =? i then None else
      let h := h + 1 in
      let h := if BITVEC_NINT <=? h then 0 else h in
      if a.[h] =? 0 then Some h else set_probe fuel' a h i
  end.

(** The size of the sub-vectors of a vector of [iSize] bits. *)
Definition divisor (iSize : Z) : Z :=
  let iDivisor := iSize / BITVEC_NPTR in
  let iDivisor := if truthy (iSize mod BITVEC_NPTR) then iDivisor + 1 else iDivisor in
  if iDivisor <? BITVEC_NBIT then BITVEC_NBIT else iDivisor.

(** [i] counts from 1; the result code, the vector and the allocations left. *)
Fixpoint bitvec_set (fuel : nat) (p : Bitvec) (i : Z) (oom : list bool) : Z * Bitvec * list bool :=
  match fuel with
  | O => (SQLITE_NOMEM, p, oom)
  | S fuel' =>
      let i := i - 1 in
      match p with
      | apSub iSize nSet iDivisor a =>
          let bin := i / iDivisor in
          let i := i mod iDivisor in
          let '(q, oom) := match a.[bin] with
                           | None => sqlite3BitvecCreate iDivisor oom
                           | Some q => (Some q, oom)
                           end in
          match q with
          | None => (SQLITE_NOMEM, p, oom)
          | Some q =>
              let '(rc, q, oom) := bitvec_set fuel' q (i + 1) oom in
              (rc, apSub iSize nSet iDivisor (a.[bin <- Some q]), oom)
          end
      | aBitmap iSize a =>
          let k := i / BITVEC_SZELEM in
          (SQLITE_OK, aBitmap iSize (a.[k <- Z.lor a.[k] (Z.shiftl 1 (Z.land i (BITVEC_SZELEM - 1)))]), oom)
      | aHash iSize nSet a =>
          let h := BITVEC_HASH i in
          let i := i + 1 in
          let set_end h := (SQLITE_OK, aHash iSize (nSet + 1) (a.[h <- i]), oom) in
          let rehash h :=
            if BITVEC_MXHASH <=? nSet then
              let '(fail, oom) := alloc oom in
              if fail then (SQLITE_NOMEM, p, oom) else
              let p := apSub iSize nSet (divisor iSize) (replicate (Z.to_nat BITVEC_NPTR) None) in
              fold_left (fun '(rc, p, oom) v =>
                           if truthy v then
                             let '(rc', p, oom) := bitvec_set fuel' p v oom in (Z.lor rc rc', p, oom)
                           else (rc, p, oom))
                a (bitvec_set fuel' p i oom)
            else set_end h in
          if a.[h] =? 0 then
            if nSet <? BITVEC_NINT - 1 then set_end h else rehash h
          else match set_probe (Z.to_nat BITVEC_NINT) a h i with
               | None => (SQLITE_OK, p, oom)
               | Some h => rehash h
               end
      end
  end.

(** Enough for three levels of sub-vectors, each with one conversion. *)
Definition SET_FUEL : nat := 8.
Definition sqlite3BitvecSet (p : option Bitvec) (i : Z) (oom : list bool) : Z * option Bitvec * list bool :=
  match p with
  | None => (SQLITE_OK, None, oom)
  | Some p => let '(rc, p, oom) := bitvec_set SET_FUEL p i oom in (rc, Some p, oom)
  end.

(** The first free slot at or after [h]. *)
Fixpoint free_from (fuel : nat) (a : list Z) (h : Z) : Z :=
  match fuel with
  | O => h
  | S fuel' =>
      if a.[h] =? 0 then h else
      let h := h + 1 in
      free_from fuel' a (if BITVEC_NINT <=? h then 0 else h)
  end.
Definition reinsert (i : Z) (st : Z * list Z) (v : Z) : Z * list Z :=
  let '(nSet, a) := st in
  if truthy v && negb (v =? i + 1)
  then (nSet + 1, a.[free_from (Z.to_nat BITVEC_NINT) a (BITVEC_HASH (v - 1)) <- v]) else (nSet, a).

Fixpoint bitvec_clear (p : Bitvec) (i : Z) : Bitvec :=
  match p with
  | apSub iSize nSet iDivisor a =>
      let bin := i / iDivisor in
      let i := i mod iDivisor in
      apSub iSize nSet iDivisor
        ((fix at_bin (l : list (option Bitvec)) (n : nat) : list (option Bitvec) :=
            match l, n with
            | Some q :: l', O => Some (bitvec_clear q i) :: l'
            | None :: l', O => None :: l'
            | x :: l', S n' => x :: at_bin l' n'
            | [], _ => []
            end) a (Z.to_nat bin))
  | aBitmap iSize a =>
      let k := i / BITVEC_SZELEM in
      aBitmap iSize (a.[k <- Z.land a.[k] (Z.lnot (u8 (Z.shiftl 1 (Z.land i (BITVEC_SZELEM - 1)))))])
  | aHash iSize nSet a =>
      let '(nSet, a) := fold_left (reinsert i) a (0, replicate (Z.to_nat BITVEC_NINT) 0) in
      aHash iSize nSet a
  end.
Definition sqlite3BitvecClear (p : option Bitvec) (i : Z) : option Bitvec :=
  match p with None => None | Some p => Some (bitvec_clear p (i - 1)) end.
Definition sqlite3BitvecSize (p : Bitvec) : Z := bv_iSize p.

(** ** The hash table *)

#[local] Abbreviation slot h d := ((h + d) mod 125).

Lemma nint : BITVEC_NINT = 125.
Proof. done. Qed.
Lemma bslot_range h d : 0 <= slot h d < 125.
Proof. apply Z.mod_pos_bound. lia. Qed.
Lemma hash_range v : 0 <= BITVEC_HASH v < 125.
Proof. apply Z.mod_pos_bound. done. Qed.
Lemma bslot_0 h : 0 <= h < 125 -> slot h 0 = h.
Proof. intros. rewrite Z.add_0_r. by apply Z.mod_small. Qed.
Lemma slot_next h d : (slot h d + 1) mod 125 = slot h (d + 1).
Proof. rewrite Z.add_mod_idemp_l by lia. by rewrite Z.add_assoc. Qed.
Lemma slot_wrap h d : (if BITVEC_NINT <=? slot h d + 1 then 0 else slot h d + 1) = slot h (d + 1).
Proof.
  rewrite nint. pose proof (bslot_range h d) as Hr. rewrite <- (slot_next h d).
  set (x := slot h d) in *. clearbody x. destruct (Z.leb_spec 125 (x + 1)).
  - by replace (x + 1) with 125 by lia.
  - by rewrite Z.mod_small by lia.
Qed.
Lemma slot_of h s : 0 <= s < 125 -> exists d, 0 <= d < 125 /\ slot h d = s.
Proof.
  intros Hs. exists ((s - h) mod 125). split; [apply Z.mod_pos_bound; lia|].
  rewrite Z.add_mod_idemp_r by lia. replace (h + (s - h)) with s by lia. by apply Z.mod_small.
Qed.

Definition count (a : list Z) : Z := zlen (filter (fun v => v <> 0) a).

Lemma filter_nonzero (a : list Z) : Forall (fun v => v <> 0) a -> filter (fun v => v <> 0) a = a.
Proof. induction 1 as [|v a Hv _ IH]; [done|]. rewrite filter_cons, decide_True by done. by rewrite IH. Qed.

(** Values are distinct, and each is reached from its hash over used slots. *)
Record hash_ok (a : list Z) : Prop := {
  ho_len : zlen a = 125;
  ho_inj : forall s s', 0 <= s < 125 -> 0 <= s' < 125 -> a.[s] <> 0 -> a.[s] = a.[s'] -> s = s';
  ho_path : forall s, 0 <= s < 125 -> a.[s] <> 0 -> exists d, 0 <= d < 125 /\
    s = slot (BITVEC_HASH (a.[s] - 1)) d /\
    forall d', 0 <= d' < d -> a.[slot (BITVEC_HASH (a.[s] - 1)) d'] <> 0 }.

(** [D] is the distance from [h] to the first free slot. *)
Definition first_free (a : list Z) (h D : Z) : Prop :=
  0 <= D < 125 /\ a.[slot h D] = 0 /\ forall d, 0 <= d < D -> a.[slot h d] <> 0.

Lemma first_free_ex a h : hash_ok a -> count a < 125 -> exists D, first_free a h D.
Proof.
  intros Hok Hc. pose proof (ho_len a Hok) as Hl.
  assert (Hex : exists s, 0 <= s < 125 /\ a.[s] = 0).
  { destruct (decide (Forall (fun v => v <> 0) a)) as [Hf|Hf].
    - exfalso. unfold count in Hc. rewrite (filter_nonzero a Hf) in Hc. lia.
    - apply not_Forall_Exists, Exists_exists in Hf as (v & Hv & Hz); [|solve_decision].
      apply elem_zget in Hv as (s & Hs & <-). exists s. split; [lia|].
      destruct (Z.eq_dec a.[s] 0); [done|]. by destruct Hz. }
  destruct Hex as (s & Hs & E). destruct (slot_of h s Hs) as (d & Hd & <-).
  destruct (first_distance (fun d => a.[slot h d] =? 0) 124) as (D & HD & E0 & Hb).
  { exists d. split; [lia|]. by apply Z.eqb_eq. }
  exists D. split; [lia|]. split; [by apply Z.eqb_eq|]. intros d' Hd'. specialize (Hb d' Hd').
  by apply Z.eqb_neq.
Qed.

(** A value of the table is before the first free slot of its chain. *)
Lemma elem_chain a v D : hash_ok a -> v <> 0 -> first_free a (BITVEC_HASH (v - 1)) D ->
  v ∈ a <-> exists d, 0 <= d < D /\ a.[slot (BITVEC_HASH (v - 1)) d] = v.
Proof.
  intros Hok Hv (HD & E0 & Hb). rewrite elem_zget, (ho_len a Hok). split.
  - intros (s & Hs & <-). destruct (ho_path a Hok s Hs Hv) as (d & Hd & Es & Hbd).
    exists d. rewrite <- Es. split; [|done]. destruct (Z.lt_trichotomy d D) as [|[->|]]; [lia| |].
    + by rewrite <- Es in E0.
    + by destruct (Hbd D ltac:(lia)).
  - intros (d & Hd & <-). exists (slot (BITVEC_HASH (v - 1)) d). split; [apply bslot_range|done].
Qed.

Lemma hash_test_spec a h D v n d0 : first_free a h D -> v <> 0 -> 0 <= d0 <= D -> D - d0 < Z.of_nat n ->
  hash_test n a (slot h d0) v = true <-> exists d, d0 <= d < D /\ a.[slot h d] = v.
Proof.
  intros (HD & E0 & Hb) Hv. revert d0. induction n as [|n IH]; intros d0 H0 Hn; [lia|]. cbn [hash_test].
  destruct (decide (d0 = D)) as [->|Hne].
  { rewrite E0, Z.eqb_refl. split; [done|]. intros (d & Hd & _). lia. }
  rewrite (proj2 (Z.eqb_neq _ _)) by (apply Hb; lia). destruct (Z.eqb_spec a.[slot h d0] v) as [E|E].
  - split; [|done]. intros _. exists d0. split; [lia|done].
  - rewrite nint, slot_next, IH by lia. split; intros (d & Hd & Ed); exists d; (split; [|done]); [lia|].
    destruct (decide (d = d0)) as [->|]; [done|lia].
Qed.
Lemma set_probe_spec a h D v n d0 : first_free a h D -> v <> 0 -> 0 <= d0 < D -> D - d0 <= Z.of_nat n ->
  (set_probe n a (slot h d0) v = None /\ exists d, d0 <= d < D /\ a.[slot h d] = v) \/
  (set_probe n a (slot h d0) v = Some (slot h D) /\ forall d, d0 <= d < D -> a.[slot h d] <> v).
Proof.
  intros (HD & E0 & Hb) Hv. revert d0. induction n as [|n IH]; intros d0 H0 Hn; [lia|]. cbn [set_probe].
  destruct (Z.eqb_spec a.[slot h d0] v) as [E|E].
  { left. split; [done|]. exists d0. split; [lia|done]. }
  rewrite slot_wrap. destruct (decide (d0 + 1 = D)) as [<-|Hne].
  - rewrite E0, Z.eqb_refl. right. split; [done|]. intros d Hd. by replace d with d0 by lia.
  - rewrite (proj2 (Z.eqb_neq _ _)) by (apply Hb; lia).
    destruct (IH (d0 + 1)) as [[E1 (d & Hd & Ed)]|[E1 Hno]]; [lia|lia| |].
    + left. split; [done|]. exists d. split; [lia|done].
    + right. split; [done|]. intros d Hd. destruct (decide (d = d0)) as [->|]; [done|]. apply Hno. lia.
Qed.
Lemma free_from_spec a h D n d0 : first_free a h D -> 0 <= d0 <= D -> D - d0 < Z.of_nat n ->
  free_from n a (slot h d0) = slot h D.
Proof.
  intros (HD & E0 & Hb). revert d0. induction n as [|n IH]; intros d0 H0 Hn; [lia|]. cbn [free_from].
  destruct (decide (d0 = D)) as [->|Hne]; [by rewrite E0, Z.eqb_refl|].
  rewrite (proj2 (Z.eqb_neq _ _)), slot_wrap by (apply Hb; lia). apply IH; lia.
Qed.

Lemma count_put a s v : 0 <= s < zlen a -> a.[s] = 0 -> v <> 0 -> count (a.[s <- v]) = count a + 1.
Proof.
  intros Hs E Hv. unfold count, zlen in *. unfold zput. rewrite (proj2 (Z.leb_le 0 s)) by lia.
  assert (El : a !! Z.to_nat s = Some 0).
  { pose proof (zlookup_zget a s Hs) as H. unfold zlookup in H. rewrite (proj2 (Z.leb_le 0 s)) in H by lia.
    by rewrite H, E. }
  apply take_drop_middle in El. set (i := Z.to_nat s) in *.
  rewrite insert_take_drop by (unfold i; lia). rewrite <- El at 3.
  rewrite !filter_app, !filter_cons. rewrite decide_True, decide_False by (done || auto).
  rewrite !length_app. cbn [length]. lia.
Qed.
Lemma elem_put a s v w : 0 <= s < zlen a -> a.[s] = 0 -> w <> 0 -> w ∈ a.[s <- v] <-> w = v \/ w ∈ a.
Proof.
  intros Hs E Hw. rewrite !elem_zget, zlen_zput. split.
  - intros (i & Hi & <-). destruct (decide (i = s)) as [->|Hne].
    + left. by apply zget_zput_eq.
    + right. rewrite zget_zput_ne in * by done. eauto.
  - intros [->|(i & Hi & <-)].
    + exists s. split; [done|]. by apply zget_zput_eq.
    + exists i. split; [done|]. apply zget_zput_ne. congruence.
Qed.

Lemma hash_ok_put a v D : hash_ok a -> v <> 0 -> v ∉ a -> first_free a (BITVEC_HASH (v - 1)) D ->
  hash_ok (a.[slot (BITVEC_HASH (v - 1)) D <- v]).
Proof.
  intros Hok Hv Hni (HD & E0 & Hb). pose proof (ho_len a Hok) as Hl. set (p := slot (BITVEC_HASH (v - 1)) D) in *.
  pose proof (bslot_range (BITVEC_HASH (v - 1)) D) as Hp. fold p in Hp.
  assert (Hnew : a.[p <- v].[p] = v) by (apply zget_zput_eq; lia).
  assert (Hold : forall s, s <> p -> a.[p <- v].[s] = a.[s]) by (intros; apply zget_zput_ne; congruence).
  assert (Hnv : forall s, 0 <= s < 125 -> a.[s] <> v).
  { intros s Hs Es. apply Hni, elem_zget. exists s. rewrite Hl. done. }
  split.
  - by rewrite zlen_zput.
  - intros s s' Hs Hs'. destruct (decide (s = p)) as [->|N1], (decide (s' = p)) as [->|N2]; [done| | |].
    + rewrite Hnew, Hold by done. intros _ Es. by destruct (Hnv s' Hs').
    + rewrite Hnew, Hold by done. intros _ Es. by destruct (Hnv s Hs).
    + rewrite !Hold by done. by apply (ho_inj a Hok).
  - intros s Hs. destruct (decide (s = p)) as [->|N1].
    + rewrite Hnew. intros _. exists D. split; [done|]. split; [done|]. intros d Hd.
      destruct (decide (slot (BITVEC_HASH (v - 1)) d = p)) as [->|N]; [by rewrite Hnew|].
      rewrite Hold by done. by apply Hb.
    + rewrite Hold by done. intros Hne. destruct (ho_path a Hok s Hs Hne) as (d & Hd & Es & Hbd).
      exists d. split; [done|]. split; [done|]. intros d' Hd'.
      destruct (decide (slot (BITVEC_HASH (a.[s] - 1)) d' = p)) as [->|N]; [by rewrite Hnew|].
      rewrite Hold by done. by apply Hbd.
Qed.

Lemma zget_zeros n s : 0 <= s < Z.of_nat n -> (replicate n 0).[s] = 0.
Proof.
  intros Hs. unfold zget, zlookup. rewrite (proj2 (Z.leb_le 0 s)) by lia.
  by rewrite lookup_replicate_2 by lia.
Qed.
Lemma hash_ok_empty : hash_ok (replicate 125 0).
Proof. split; [done| |]; intros s; intros; rewrite zget_zeros in * by lia; done. Qed.
Lemma count_empty : count (replicate 125 0) = 0.
Proof. done. Qed.

(** ** The whole vector *)

Lemma test_sub s n div a i : 0 <= i / div ->
  bitvec_test (apSub s n div a) i = match a.[i / div] with Some q => bitvec_test q (i mod div) | None => false end.
Proof.
  intros Hb. cbn [bitvec_test]. unfold zget, zlookup. rewrite (proj2 (Z.leb_le 0 _)) by lia.
  generalize (Z.to_nat (i / div)). intros k. revert k. induction a as [|[q|] a IH]; intros [|k]; try done; apply IH.
Qed.
Lemma clear_sub s n div a i : 0 <= i / div ->
  bitvec_clear (apSub s n div a) i =
  apSub s n div (match a.[i / div] with
                 | Some q => a.[i / div <- Some (bitvec_clear q (i mod div))]
                 | None => a end).
Proof.
  intros Hb. cbn [bitvec_clear]. unfold zget, zlookup, zput. rewrite (proj2 (Z.leb_le 0 _)) by lia.
  f_equal. generalize (Z.to_nat (i / div)). intros k. revert k.
  induction a as [|o a IH]; intros [|k]; try done; try (by destruct o).
  cbn. destruct o; rewrite IH; by destruct (default _ (a !! k)).
Qed.

(** [d] levels of sub-vectors are enough for [s] bits. *)
Fixpoint fits (d : nat) (s : Z) : Prop :=
  match d with O => s <= 4000 | S d' => fits d' (divisor s) end.

Lemma divisor_spec s : 0 <= s -> let d := divisor s in
  4000 <= d /\ s <= 125 * d /\ d <= Z.max 4000 (s / 125 + 1).
Proof.
  intros Hs. unfold divisor. change BITVEC_NPTR with 125. change BITVEC_NBIT with 4000. unfold truthy.
  cbn zeta. pose proof (Z.div_mod s 125 ltac:(lia)). pose proof (Z.mod_pos_bound s 125 ltac:(lia)).
  destruct (Z.eqb_spec (s mod 125) 0); cbn [negb]; zbool; lia.
Qed.
Lemma fits_u32 s : 0 <= s < 2 ^ 32 -> fits 3 s.
Proof.
  intros Hs. cbn [fits]. pose proof (divisor_spec s ltac:(lia)) as (H1 & _ & H2).
  pose proof (divisor_spec (divisor s) ltac:(lia)) as (H3 & _ & H4).
  pose proof (divisor_spec (divisor (divisor s)) ltac:(lia)) as (_ & _ & H6).
  set (x := divisor s) in *. set (y := divisor x) in *. set (z := divisor y) in *. clearbody x y z.
  Z.div_mod_to_equations. lia.
Qed.

(** Well-formed vectors of at most [d] levels. *)
Fixpoint bv_ok (d : nat) (p : Bitvec) : Prop :=
  match p with
  | aBitmap s a => 0 <= s <= 4000 /\ zlen a = 500
  | aHash s n a => 4000 < s /\ fits d s /\ hash_ok a /\ n = count a /\ count a <= 124 /\
                   (forall v, v ∈ a -> 0 <= v <= s)
  | apSub s n div a =>
      4000 < s /\ div = divisor s /\ zlen a = 125 /\
      match d with
      | O => False
      | S d' => fits d' (divisor s) /\
                forall k q, a.[k] = Some q -> 0 <= k < 125 -> bv_iSize q = div /\ bv_ok d' q
      end
  end.
Lemma bv_ok_bitmap d s a : bv_ok d (aBitmap s a) <-> 0 <= s <= 4000 /\ zlen a = 500.
Proof. by destruct d. Qed.
Lemma bv_ok_hash d s n a : bv_ok d (aHash s n a) <->
  4000 < s /\ fits d s /\ hash_ok a /\ n = count a /\ count a <= 124 /\ (forall v, v ∈ a -> 0 <= v <= s).
Proof. by destruct d. Qed.
Definition is_sub (p : Bitvec) : Prop := match p with apSub _ _ _ _ => True | _ => False end.

Lemma create_ok d s : 0 <= s -> fits d s ->
  exists p, sqlite3BitvecCreate s [] = (Some p, []) /\ bv_ok d p /\ bv_iSize p = s /\
    forall j, 0 <= j < s -> bitvec_test p j = false.
Proof.
  intros Hs Hf. unfold sqlite3BitvecCreate. cbn [alloc]. eexists. split; [reflexivity|].
  change BITVEC_NBIT with 4000. destruct (Z.leb_spec s 4000) as [Hle|Hgt].
  - split; [by apply bv_ok_bitmap|]. split; [done|]. intros j Hj. cbn [bitvec_test]. change BITVEC_SZELEM with 8.
    change (8 - 1) with 7. rewrite land_bit by (apply Z.land_nonneg; lia).
    change (Z.to_nat BITVEC_NELEM) with 500%nat.
    rewrite zget_zeros; [apply Z.bits_0|]. Z.div_mod_to_equations. lia.
  - change (Z.to_nat BITVEC_NINT) with 125%nat. split.
    + apply bv_ok_hash. split; [lia|]. split; [done|]. split; [apply hash_ok_empty|]. split; [done|].
      rewrite count_empty. split; [lia|]. intros v Hv. apply elem_of_replicate in Hv as [-> _]. lia.
    + split; [done|]. intros j Hj. cbn [bitvec_test]. pose proof (hash_range j).
      change (Z.to_nat BITVEC_NINT) with (S 124). cbn [hash_test]. by rewrite zget_zeros by lia.
Qed.

(** A hash table tests membership. *)
Lemma test_hash d s n a j : bv_ok d (aHash s n a) -> 0 <= j ->
  bitvec_test (aHash s n a) j = true <-> j + 1 ∈ a.
Proof.
  intros (_ & _ & Hok & _ & Hc & _)%bv_ok_hash Hj. cbn [bitvec_test].
  replace (BITVEC_HASH j) with (BITVEC_HASH (j + 1 - 1)) by (f_equal; lia).
  destruct (first_free_ex a (BITVEC_HASH (j + 1 - 1)) Hok ltac:(lia)) as (D & HD).
  rewrite (elem_chain a (j + 1) D Hok ltac:(lia) HD).
  pose proof (hash_test_spec a _ D (j + 1) (Z.to_nat BITVEC_NINT) 0 HD ltac:(lia)) as H.
  rewrite bslot_0 in H by apply hash_range. apply H; [|rewrite nint]; destruct HD; lia.
Qed.

Lemma land_7 i : Z.land i 7 = i mod 8.
Proof. change 7 with (Z.ones 3). by rewrite Z.land_ones by lia. Qed.
Lemma byte_pos i j : i <> j -> i / 8 = j / 8 -> i mod 8 <> j mod 8.
Proof. intros H E E2. apply H. rewrite (Z.div_mod i 8), (Z.div_mod j 8) by lia. congruence. Qed.

(** Changing one bit of a bitmap. *)
Lemma bitmap_update s a i j x : 0 <= i < 4000 -> 0 <= j < 4000 -> zlen a = 500 ->
  (forall k, 0 <= k < 8 -> k <> i mod 8 -> Z.testbit x k = Z.testbit a.[i / 8] k) ->
  bitvec_test (aBitmap s (a.[i / 8 <- x])) j =
  if j =? i then Z.testbit x (i mod 8) else bitvec_test (aBitmap s a) j.
Proof.
  intros Hi Hj Ha Hx. cbn [bitvec_test]. change BITVEC_SZELEM with 8. change (8 - 1) with 7. rewrite land_7.
  pose proof (Z.mod_pos_bound j 8 ltac:(lia)). pose proof (Z.mod_pos_bound i 8 ltac:(lia)).
  rewrite !land_bit by lia. assert (Hr : 0 <= i / 8 < zlen a) by (Z.div_mod_to_equations; lia).
  destruct (Z.eqb_spec j i) as [->|Hne]; [by rewrite zget_zput_eq|].
  destruct (decide (j / 8 = i / 8)) as [E|E]; [|by rewrite zget_zput_ne by congruence].
  rewrite E, zget_zput_eq by done. apply Hx; [done|]. by apply byte_pos.
Qed.

Lemma testbit_pow1 k m : 0 <= k -> 0 <= m -> Z.testbit (Z.shiftl 1 m) k = (k =? m).
Proof.
  intros Hk Hm. rewrite Z.shiftl_spec by done. destruct (Z.eqb_spec k m) as [->|Hne].
  - by rewrite Z.sub_diag.
  - destruct (decide (k < m)); [apply Z.testbit_neg_r; lia|]. apply Z.bits_above_log2; cbn; lia.
Qed.

(** *** Setting a bit *)

Definition set_post (d : nat) (p p' : Bitvec) (i : Z) : Prop :=
  bv_ok d p' /\ bv_iSize p' = bv_iSize p /\
  forall j, 0 <= j < bv_iSize p -> bitvec_test p' j = (j =? i) || bitvec_test p j.

Definition set_works (d : nat) : Prop := forall fuel p i, bv_ok d p -> 0 <= i < bv_iSize p ->
  (2 * d < fuel)%nat -> exists p', bitvec_set fuel p (i + 1) [] = (SQLITE_OK, p', []) /\ set_post d p p' i.

Lemma set_bitmap d fuel s a i : bv_ok d (aBitmap s a) -> 0 <= i < s ->
  exists p', bitvec_set (S fuel) (aBitmap s a) (i + 1) [] = (SQLITE_OK, p', []) /\ set_post d (aBitmap s a) p' i.
Proof.
  intros [Hs Ha]%bv_ok_bitmap Hi. cbn [bitvec_set]. replace (i + 1 - 1) with i by lia. eexists. split; [reflexivity|].
  change BITVEC_SZELEM with 8. change (8 - 1) with 7. rewrite land_7.
  pose proof (Z.mod_pos_bound i 8 ltac:(lia)).
  split; [apply bv_ok_bitmap; by rewrite zlen_zput|]. split; [done|]. cbn [bv_iSize]. intros j Hj.
  rewrite bitmap_update; [|lia|lia|done|].
  - destruct (j =? i); [|done]. rewrite Z.lor_spec, testbit_pow1, Z.eqb_refl by lia. by rewrite orb_true_r.
  - intros k Hk Hne. rewrite Z.lor_spec, testbit_pow1, (proj2 (Z.eqb_neq _ _)) by lia. by rewrite orb_false_r.
Qed.

Lemma div_eq_cases i j c : 0 < c -> (j =? i) = (j / c =? i / c) && (j mod c =? i mod c).
Proof.
  intros Hc. destruct (Z.eqb_spec j i) as [->|Hne]; [by rewrite !Z.eqb_refl|]. symmetry.
  apply andb_false_iff. destruct (Z.eqb_spec (j / c) (i / c)) as [E|]; [|by left]. right.
  apply Z.eqb_neq. intros E2. apply Hne. rewrite (Z.div_mod i c), (Z.div_mod j c) by lia. congruence.
Qed.

Lemma set_sub d fuel p i : set_works d -> bv_ok (S d) p -> is_sub p -> 0 <= i < bv_iSize p ->
  (2 * S d <= fuel)%nat ->
  exists p', bitvec_set fuel p (i + 1) [] = (SQLITE_OK, p', []) /\ set_post (S d) p p' i /\ is_sub p'.
Proof.
  intros IH Hok Hsub Hi Hf. destruct p as [| |s n div a]; try done. cbn [bv_iSize] in Hi.
  destruct Hok as (Hs & -> & Ha & Hfit & Hch). destruct fuel as [|fuel]; [lia|].
  pose proof (divisor_spec s ltac:(lia)) as (Hd1 & Hd2 & _). set (c := divisor s) in *.
  cbn [bitvec_set]. replace (i + 1 - 1) with i by lia.
  assert (Hbin : 0 <= i / c < 125) by (split; [apply Z.div_pos; lia|apply Z.div_lt_upper_bound; lia]).
  pose proof (Z.mod_pos_bound i c ltac:(lia)) as Hm.
  (* the sub-vector, created if need be *)
  assert (Hq : exists q, (match a.[i / c] with None => sqlite3BitvecCreate c [] | Some q => (Some q, []) end) = (Some q, []) /\
      bv_ok d q /\ bv_iSize q = c /\
      forall j, 0 <= j < c -> bitvec_test q j = match a.[i / c] with Some q' => bitvec_test q' j | None => false end).
  { destruct (a.[i / c]) as [q|] eqn:Eq.
    - destruct (Hch _ _ Eq Hbin) as [E1 E2]. exists q. split; [done|]. split; [done|]. split; [done|]. done.
    - destruct (create_ok d c ltac:(lia) Hfit) as (q & E & H1 & H2 & H3). exists q. done. }
  destruct Hq as (q & -> & Hqok & Hqs & Hqt).
  destruct (IH fuel q (i mod c) Hqok ltac:(lia) ltac:(lia)) as (q' & -> & Hq'ok & Hq's & Hq't).
  eexists. split; [reflexivity|]. split; [|done]. split; [|split; [done|]].
  - split; [done|]. split; [done|]. split; [by rewrite zlen_zput|]. split; [done|].
    intros k r Er Hk. destruct (decide (k = i / c)) as [->|Hne].
    + rewrite zget_zput_eq in Er by lia. simplify_eq. split; [lia|done].
    + rewrite zget_zput_ne in Er by congruence. by apply (Hch k).
  - cbn [bv_iSize]. intros j Hj. assert (0 <= j / c) by (apply Z.div_pos; lia).
    pose proof (Z.mod_pos_bound j c ltac:(lia)) as Hjm.
    rewrite !test_sub by done. rewrite (div_eq_cases i j c) by lia.
    destruct (Z.eqb_spec (j / c) (i / c)) as [E|E]; cbn [andb orb].
    + rewrite E, zget_zput_eq by lia. rewrite Hq't, Hqt by lia. done.
    + by rewrite zget_zput_ne by congruence.
Qed.

(** Setting all values of a list, as the conversion does. *)
Lemma set_fold d fuel l p rc : set_works d -> bv_ok (S d) p -> is_sub p -> rc = SQLITE_OK ->
  (forall v, v ∈ l -> 0 <= v <= bv_iSize p) -> (2 * S d <= fuel)%nat ->
  exists p', fold_left (fun '(rc, p, oom) v =>
      if truthy v then let '(rc', p, oom) := bitvec_set fuel p v oom in (Z.lor rc rc', p, oom) else (rc, p, oom))
    l (rc, p, []) = (SQLITE_OK, p', []) /\ bv_ok (S d) p' /\ bv_iSize p' = bv_iSize p /\
  forall j, 0 <= j < bv_iSize p -> bitvec_test p' j = true <-> j + 1 ∈ l \/ bitvec_test p j = true.
Proof.
  intros IH Hok Hsub -> Hl Hf. revert p Hok Hsub Hl. induction l as [|v l IHl]; intros p Hok Hsub Hl.
  { exists p. split; [done|]. split; [done|]. split; [done|]. intros j Hj. set_solver. }
  cbn [fold_left]. destruct (decide (v = 0)) as [->|Hv].
  - change (truthy 0) with false. cbn iota.
    destruct (IHl p Hok Hsub) as (p' & -> & H1 & H2 & H3); [intros; apply Hl; set_solver|].
    exists p'. split; [done|]. split; [done|]. split; [done|]. intros j Hj. rewrite H3 by done.
    rewrite elem_of_cons. split; [tauto|]. intros [[?|]|]; [lia|tauto|tauto].
  - assert (Et : truthy v = true) by (unfold truthy; by rewrite (proj2 (Z.eqb_neq _ _))). rewrite Et.
    pose proof (Hl v ltac:(set_solver)) as Hvr.
    destruct (set_sub d fuel p (v - 1) IH Hok Hsub ltac:(lia) Hf) as (p1 & E & (Q1 & Q2 & Q3) & Q4).
    replace (v - 1 + 1) with v in E by lia. rewrite E. change (Z.lor SQLITE_OK SQLITE_OK) with SQLITE_OK.
    destruct (IHl p1 Q1 Q4) as (p' & -> & H1 & H2 & H3); [intros; rewrite Q2; apply Hl; set_solver|].
    exists p'. split; [done|]. split; [done|]. split; [congruence|]. intros j Hj.
    rewrite H3, Q3, elem_of_cons, orb_true_iff, Z.eqb_eq by lia. intuition lia.
Qed.

Lemma set_hash d fuel s n a i : set_works d -> bv_ok (S d) (aHash s n a) -> 0 <= i < s -> (2 * S d < fuel)%nat ->
  exists p', bitvec_set fuel (aHash s n a) (i + 1) [] = (SQLITE_OK, p', []) /\ set_post (S d) (aHash s n a) p' i.
Proof.
  intros IH Hok Hi Hf. pose proof Hok as (Hs & Hfit & Hho & Hn & Hc & Hv)%bv_ok_hash.
  destruct fuel as [|fuel]; [lia|]. cbn [bitvec_set]. replace (i + 1 - 1) with i by lia.
  set (v := i + 1). replace (BITVEC_HASH i) with (BITVEC_HASH (v - 1)) by (unfold v; f_equal; lia).
  destruct (first_free_ex a (BITVEC_HASH (v - 1)) Hho ltac:(lia)) as (D & HD). pose proof HD as (HD1 & HD2 & HD3).
  pose proof (elem_chain a v D Hho ltac:(unfold v; lia) HD) as Hin.
  pose proof (bslot_range (BITVEC_HASH (v - 1)) D) as Hsr. pose proof (ho_len a Hho) as Hlen.
  (* storing the value *)
  assert (Hput : n < 124 -> v ∉ a ->
      set_post (S d) (aHash s n a) (aHash s (n + 1) (a.[slot (BITVEC_HASH (v - 1)) D <- v])) i).
  { intros Hlt Hni.
    assert (Hok' : bv_ok (S d) (aHash s (n + 1) (a.[slot (BITVEC_HASH (v - 1)) D <- v]))).
    { apply bv_ok_hash. split; [done|]. split; [done|]. rewrite count_put by (lia || unfold v; lia).
      split; [apply hash_ok_put; [done|unfold v; lia|done|done]|]. split; [lia|]. split; [lia|].
      intros w Hw. destruct (decide (w = 0)) as [->|Hw0]; [lia|].
      apply elem_put in Hw as [->|Hw]; [unfold v; lia|by apply Hv|lia|done|done]. }
    split; [done|]. split; [done|]. cbn [bv_iSize]. intros j Hj. apply eq_true_iff_eq.
    rewrite orb_true_iff, Z.eqb_eq, !(test_hash (S d)) by (done || lia).
    rewrite elem_put by (lia || done). unfold v. intuition lia. }
  (* converting the table *)
  assert (Hconv : v ∉ a -> exists p', fold_left (fun '(rc, p, oom) v =>
      if truthy v then let '(rc', p, oom) := bitvec_set fuel p v oom in (Z.lor rc rc', p, oom) else (rc, p, oom))
      a (bitvec_set fuel (apSub s n (divisor s) (replicate (Z.to_nat BITVEC_NPTR) None)) v []) =
      (SQLITE_OK, p', []) /\ set_post (S d) (aHash s n a) p' i).
  { intros Hni. set (p0 := apSub s n (divisor s) (replicate (Z.to_nat BITVEC_NPTR) None)).
    assert (Hnone : forall k, (replicate (Z.to_nat BITVEC_NPTR) (@None Bitvec)).[k] = None).
    { intros k. unfold zget, zlookup. destruct (0 <=? k); [|done].
      destruct (replicate _ _ !! Z.to_nat k) eqn:E; [|done]. by apply lookup_replicate in E as [-> _]. }
    assert (Hp0 : bv_ok (S d) p0).
    { cbn [bv_ok p0]. split; [done|]. split; [done|]. split; [done|]. split; [done|].
      intros k q E. by rewrite Hnone in E. }
    destruct (set_sub d fuel p0 i IH Hp0 I Hi ltac:(lia)) as (p1 & E1 & (Q1 & Q2 & Q3) & Q4).
    fold v in E1. rewrite E1.
    destruct (set_fold d fuel a p1 SQLITE_OK IH Q1 Q4 eq_refl) as (p' & E' & H1 & H2 & H3);
      [rewrite Q2; exact Hv|lia|]. rewrite E'. exists p'. split; [done|]. split; [done|].
    split; [by rewrite H2, Q2|]. cbn [bv_iSize]. intros j Hj. cbn [bv_iSize p0] in Q2, Q3. apply eq_true_iff_eq.
    rewrite H3, Q3, !orb_true_iff, Z.eqb_eq, (test_hash (S d)) by (done || lia).
    unfold p0. rewrite test_sub, Hnone by (apply Z.div_pos; [lia|]; pose proof (divisor_spec s ltac:(lia)) as (? & _); lia). intuition done. }
  change BITVEC_NINT with 125. change BITVEC_MXHASH with 62. change (125 - 1) with 124. cbn [alloc].
  destruct (Z.eqb_spec a.[BITVEC_HASH (v - 1)] 0) as [E0|E0].
  - assert (D = 0) as ->.
    { destruct (decide (D = 0)); [done|]. specialize (HD3 0 ltac:(lia)). rewrite bslot_0 in HD3 by apply hash_range. done. }
    rewrite bslot_0 in * by apply hash_range.
    assert (Hni : v ∉ a) by (rewrite Hin; intros (d' & ? & _); lia).
    destruct (Z.ltb_spec n 124); [eexists; split; [reflexivity|]; by apply Hput|].
    rewrite (proj2 (Z.leb_le 62 n)) by lia. by apply Hconv.
  - assert (HD0 : 0 < D).
    { destruct (decide (D = 0)) as [->|]; [|lia]. rewrite bslot_0 in HD2 by apply hash_range. done. }
    pose proof (set_probe_spec a _ D v (Z.to_nat 125) 0 HD ltac:(unfold v; lia) ltac:(lia) ltac:(lia)) as Hpr.
    rewrite bslot_0 in Hpr by apply hash_range. destruct Hpr as [[-> Hfound]|[-> Hno]].
    + eexists. split; [reflexivity|]. split; [done|]. split; [done|]. intros j Hj.
      destruct (Z.eqb_spec j i) as [->|]; [|done]. rewrite orb_true_l. apply (test_hash (S d)); [done|lia|]. by apply Hin.
    + assert (Hni : v ∉ a) by (rewrite Hin; intros (d' & Hd' & Ed'); by apply (Hno d')).
      destruct (Z.leb_spec 62 n); [by apply Hconv|]. eexists. split; [reflexivity|]. apply Hput; [lia|done].
Qed.

Lemma set_all d : set_works d.
Proof.
  induction d as [|d IH]; intros fuel p i Hok Hi Hf.
  - destruct fuel as [|fuel]; [lia|]. destruct p as [s a|s n a|s n c a]; [by apply set_bitmap| |].
    + apply bv_ok_hash in Hok as (H1 & H2 & _). cbn in H2. lia.
    + cbn in Hok. tauto.
  - destruct p as [s a|s n a|s n c a].
    + destruct fuel as [|fuel]; [lia|]. by apply set_bitmap.
    + by apply set_hash.
    + destruct (set_sub d fuel (apSub s n c a) i IH Hok I Hi ltac:(lia)) as (p' & E & Hp & _). eauto.
Qed.

(** *** Clearing a bit *)

Lemma reinsert_fold i l nS a : hash_ok a -> nS = count a -> count a + zlen (filter (fun v => v <> 0) l) <= 124 ->
  NoDup (filter (fun v => v <> 0) l) -> (forall v, v ∈ l -> v <> 0 -> v ∉ a) ->
  let '(nS', a') := fold_left (reinsert i) l (nS, a) in
  hash_ok a' /\ nS' = count a' /\ count a' <= count a + zlen (filter (fun v => v <> 0) l) /\
  forall v, v <> 0 -> v ∈ a' <-> v ∈ a \/ (v ∈ l /\ v <> i + 1).
Proof.
  revert nS a. induction l as [|w l IH]; intros nS a Hok Hn Hc Hnd Hfresh.
  { cbn [fold_left filter]. change (zlen (filter _ (@nil Z))) with 0. split; [done|]. split; [done|]. split; [lia|].
    intros v Hv. split; [by left|]. intros [|[Hnil _]]; [done|]. by apply not_elem_of_nil in Hnil. }
  cbn [fold_left]. rewrite filter_cons in Hc, Hnd |- *. unfold reinsert at 2.
  destruct (decide (w = 0)) as [->|Hw].
  { rewrite decide_False in * by (intros H; by apply H). change (truthy 0) with false. cbn [andb].
    specialize (IH nS a Hok Hn Hc Hnd ltac:(intros v Hv; apply Hfresh, elem_of_cons; by right)).
    destruct (fold_left (reinsert i) l (nS, a)) as [nS' a']. destruct IH as (I1 & I2 & I3 & I4).
    split; [done|]. split; [done|]. split; [done|]. intros v Hv. rewrite I4, elem_of_cons by done. intuition lia. }
  rewrite decide_True in * by done. rewrite zlen_cons in Hc |- *. apply NoDup_cons in Hnd as [Hwl Hnd].
  assert (Et : truthy w = true) by (unfold truthy; by rewrite (proj2 (Z.eqb_neq _ _))). rewrite Et. cbn [andb].
  pose proof (zlen_nonneg (filter (fun v => v <> 0) l)).
  destruct (Z.eqb_spec w (i + 1)) as [Ew|Ew]; cbn [negb].
  - specialize (IH nS a Hok Hn ltac:(lia) Hnd ltac:(intros v Hv; apply Hfresh, elem_of_cons; by right)).
    destruct (fold_left (reinsert i) l (nS, a)) as [nS' a']. destruct IH as (I1 & I2 & I3 & I4).
    split; [done|]. split; [done|]. split; [lia|]. intros v Hv. rewrite I4, elem_of_cons by done. intuition lia.
  - destruct (first_free_ex a (BITVEC_HASH (w - 1)) Hok ltac:(lia)) as (D & HD). pose proof HD as (HD1 & HD2 & HD3).
    pose proof (free_from_spec a _ D (Z.to_nat BITVEC_NINT) 0 HD ltac:(lia) ltac:(rewrite nint; lia)) as Ef.
    rewrite bslot_0 in Ef by apply hash_range. rewrite Ef.
    pose proof (bslot_range (BITVEC_HASH (w - 1)) D) as Hsr. pose proof (ho_len a Hok) as Hlen.
    assert (Hwa : w ∉ a) by (apply Hfresh; [apply elem_of_cons; by left|done]).
    assert (Hc' : count (a.[slot (BITVEC_HASH (w - 1)) D <- w]) = count a + 1) by (apply count_put; [lia|done|done]).
    specialize (IH (nS + 1) (a.[slot (BITVEC_HASH (w - 1)) D <- w])).
    destruct (fold_left (reinsert i) l _) as [nS' a']. rewrite Hc' in IH.
    destruct IH as (I1 & I2 & I3 & I4); [by apply hash_ok_put|lia|lia|done| |].
    { intros v Hv Hv0. rewrite elem_put by (done || lia). intros [->|Hva].
      - apply Hwl, list_elem_of_filter. done.
      - apply (Hfresh v); [apply elem_of_cons; by right|done|done]. }
    split; [done|]. split; [done|]. split; [lia|]. intros v Hv. rewrite I4, elem_put, elem_of_cons by (done || lia).
    intuition congruence.
Qed.

Lemma hash_ok_nodup a : hash_ok a -> NoDup (filter (fun v => v <> 0) a).
Proof.
  intros Hok. assert (H : forall l off, (forall k, 0 <= k < zlen l -> a.[off + k] = l.[k]) -> 0 <= off ->
      off + zlen l <= 125 -> NoDup (filter (fun v => v <> 0) l)).
  { induction l as [|x l IH]; intros off Hl H0 Hb; [constructor|]. rewrite zlen_cons in Hb, Hl.
    pose proof (zlen_nonneg l).
    assert (Hrest : NoDup (filter (fun v => v <> 0) l)).
    { apply (IH (off + 1)); [|lia|lia]. intros k Hk. replace (off + 1 + k) with (off + (1 + k)) by lia.
      rewrite Hl by lia. change (x :: l) with ([x] ++ l). rewrite zget_app_r by (change (zlen [x]) with 1; lia).
      f_equal. change (zlen [x]) with 1. lia. }
    rewrite filter_cons. destruct (decide (x <> 0)) as [Hx|]; [|done]. constructor; [|done].
    intros [_ Hin]%list_elem_of_filter. apply elem_zget in Hin as (k & Hk & Ek).
    assert (E1 : a.[off] = x) by (rewrite <- (Z.add_0_r off); by rewrite Hl by lia).
    assert (E2 : a.[off + (1 + k)] = x).
    { rewrite Hl by lia. change (x :: l) with ([x] ++ l). rewrite zget_app_r by (change (zlen [x]) with 1; lia).
      change (zlen [x]) with 1. by replace (1 + k - 1) with k by lia. }
    pose proof (ho_inj a Hok off (off + (1 + k)) ltac:(lia) ltac:(lia) ltac:(congruence) ltac:(congruence)). lia. }
  apply (H a 0); [intros; f_equal; lia|lia|]. pose proof (ho_len a Hok). lia.
Qed.

Lemma clear_ok d p i : bv_ok d p -> 0 <= i < bv_iSize p ->
  bv_ok d (bitvec_clear p i) /\ bv_iSize (bitvec_clear p i) = bv_iSize p /\
  forall j, 0 <= j < bv_iSize p -> bitvec_test (bitvec_clear p i) j = negb (j =? i) && bitvec_test p j.
Proof.
  revert p i. induction d as [d IH] using lt_wf_ind. intros p i Hok Hi. destruct p as [s a|s n a|s n c a].
  - pose proof Hok as [Hs Ha]%bv_ok_bitmap. cbn [bitvec_clear bv_iSize] in *. change BITVEC_SZELEM with 8 in *.
    change (8 - 1) with 7. rewrite land_7. pose proof (Z.mod_pos_bound i 8 ltac:(lia)) as Hm.
    split; [apply bv_ok_bitmap; by rewrite zlen_zput|]. split; [done|]. intros j Hj.
    assert (Hu8 : u8 (Z.shiftl 1 (i mod 8)) = Z.shiftl 1 (i mod 8)).
    { unfold u8. rewrite Z.shiftl_mul_pow2, Z.mul_1_l by lia. apply Z.mod_small. split; [lia|].
      apply Z.pow_lt_mono_r; lia. }
    rewrite bitmap_update; [|lia|lia|done|].
    + destruct (j =? i); [|done]. rewrite Hu8, Z.land_spec, Z.lnot_spec, testbit_pow1, Z.eqb_refl by lia.
      by rewrite andb_false_r.
    + intros k Hk Hne. rewrite Hu8, Z.land_spec, Z.lnot_spec, testbit_pow1, (proj2 (Z.eqb_neq _ _)) by lia.
      by rewrite andb_true_r.
  - pose proof Hok as (Hs & Hfit & Hho & Hn & Hc & Hv)%bv_ok_hash. cbn [bitvec_clear bv_iSize] in *.
    change (Z.to_nat BITVEC_NINT) with 125%nat.
    pose proof (reinsert_fold i a 0 (replicate 125 0) hash_ok_empty eq_refl) as H. rewrite count_empty in H.
    specialize (H Hc (hash_ok_nodup a Hho)).
    destruct (fold_left (reinsert i) a _) as [n' a'] eqn:Ef.
    destruct H as (H1 & H2 & H3 & H4). { intros v Hva Hv0 Hin. by apply elem_of_replicate in Hin as [-> _]. }
    assert (Hmem : forall v, v <> 0 -> v ∈ a' <-> v ∈ a /\ v <> i + 1).
    { intros v Hv0. rewrite H4 by done. split; [|tauto]. intros [Hin|]; [|done].
      by apply elem_of_replicate in Hin as [-> _]. }
    assert (Hok' : bv_ok d (aHash s n' a')).
    { apply bv_ok_hash. split; [done|]. split; [done|]. split; [done|]. split; [done|].
      split; [unfold count in *; lia|]. intros v Hva. destruct (decide (v = 0)) as [->|]; [lia|].
      apply Hmem in Hva as [Hva _]; [by apply Hv|done]. }
    split; [done|]. split; [done|]. intros j Hj. apply eq_true_iff_eq.
    rewrite andb_true_iff, negb_true_iff, Z.eqb_neq, !(test_hash d) by (done || lia).
    rewrite Hmem by lia. intuition lia.
  - destruct d as [|d]; [cbn in Hok; tauto|]. pose proof Hok as (Hs & -> & Ha & Hfit & Hch).
    pose proof (divisor_spec s ltac:(lia)) as (Hd1 & Hd2 & _). set (c := divisor s) in *. cbn [bv_iSize] in *.
    assert (Hbin : 0 <= i / c < 125) by (split; [apply Z.div_pos; lia|apply Z.div_lt_upper_bound; lia]).
    pose proof (Z.mod_pos_bound i c ltac:(lia)) as Hm. rewrite clear_sub by lia.
    destruct (a.[i / c]) as [q|] eqn:Eq.
    + destruct (Hch _ _ Eq Hbin) as [E1 E2].
      destruct (IH d ltac:(lia) q (i mod c) E2 ltac:(lia)) as (I1 & I2 & I3).
      split; [|split; [done|]].
      * split; [done|]. split; [done|]. split; [by rewrite zlen_zput|]. split; [done|]. intros k r Er Hk.
        destruct (decide (k = i / c)) as [->|Hne].
        -- rewrite zget_zput_eq in Er by lia. simplify_eq. split; [lia|done].
        -- rewrite zget_zput_ne in Er by congruence. by apply (Hch k).
      * intros j Hj. assert (0 <= j / c) by (apply Z.div_pos; lia).
        pose proof (Z.mod_pos_bound j c ltac:(lia)) as Hjm.
        rewrite !test_sub by done. rewrite (div_eq_cases i j c) by lia.
        destruct (Z.eqb_spec (j / c) (i / c)) as [E|E]; cbn [andb negb].
        -- rewrite E, zget_zput_eq, Eq by lia. by rewrite I3 by lia.
        -- by rewrite zget_zput_ne by congruence.
    + split; [done|]. split; [done|]. intros j Hj. assert (0 <= j / c) by (apply Z.div_pos; lia).
      destruct (Z.eqb_spec j i) as [->|]; [|done]. rewrite test_sub, Eq by lia. done.
Qed.

(** ** The properties *)

(** Setting a bit: with memory available, in a well-formed vector of any size
    and form, [sqlite3BitvecSet] succeeds, keeps the vector well formed and its size,
    and afterwards exactly that bit is set in addition to those that were. *)
Lemma bitvec_set_exact (p : Bitvec) (i : Z)
  (Hok : bv_ok 3 p) (Hsize : bv_iSize p < 2 ^ 32) (Hi : 1 <= i <= bv_iSize p) :
  exists p', sqlite3BitvecSet (Some p) i [] = (SQLITE_OK, Some p', []) /\ bv_ok 3 p' /\
    sqlite3BitvecSize p' = sqlite3BitvecSize p /\
    forall j, 1 <= j < 2 ^ 32 -> sqlite3BitvecTest (Some p') j = (j =? i) || sqlite3BitvecTest (Some p) j.
Proof.
  unfold sqlite3BitvecSet. destruct (set_all 3 SET_FUEL p (i - 1) Hok ltac:(lia)) as (p' & E & H1 & H2 & H3);
    [unfold SET_FUEL; lia|]. replace (i - 1 + 1) with i in E by lia. rewrite E. exists p'.
  split; [done|]. split; [done|]. split; [done|]. intros j Hj.
  unfold sqlite3BitvecTest, sqlite3BitvecTestNotNull, u32. rewrite Z.mod_small, H2 by lia.
  destruct (Z.leb_spec (bv_iSize p) (j - 1)).
  - by rewrite (proj2 (Z.eqb_neq j i)) by lia.
  - rewrite H3 by lia. f_equal. destruct (Z.eqb_spec (j - 1) (i - 1)), (Z.eqb_spec j i); done || lia.
Qed.
(** Clearing a bit: [sqlite3BitvecClear] keeps the vector well formed and
    clears exactly that bit. *)
Lemma bitvec_clear_exact (p : Bitvec) (i : Z)
  (Hok : bv_ok 3 p) (Hsize : bv_iSize p < 2 ^ 32) (Hi : 1 <= i <= bv_iSize p) :
  exists p', sqlite3BitvecClear (Some p) i = Some p' /\ bv_ok 3 p' /\
    sqlite3BitvecSize p' = sqlite3BitvecSize p /\
    forall j, 1 <= j < 2 ^ 32 -> sqlite3BitvecTest (Some p') j = negb (j =? i) && sqlite3BitvecTest (Some p) j.
Proof.
  destruct (clear_ok 3 p (i - 1) Hok ltac:(lia)) as (H1 & H2 & H3). eexists. split; [reflexivity|].
  split; [done|]. split; [done|]. intros j Hj.
  unfold sqlite3BitvecTest, sqlite3BitvecTestNotNull, u32. rewrite Z.mod_small, H2 by lia.
  destruct (Z.leb_spec (bv_iSize p) (j - 1)); [by rewrite andb_false_r|].
  rewrite H3 by lia. f_equal. f_equal. destruct (Z.eqb_spec (j - 1) (i - 1)), (Z.eqb_spec j i); done || lia.
Qed.

Lemma create_empty s : 0 <= s < 2 ^ 32 -> exists p, sqlite3BitvecCreate s [] = (Some p, []) /\ bv_ok 3 p /\
  bv_iSize p = s /\ forall j, 1 <= j < 2 ^ 32 -> sqlite3BitvecTest (Some p) j = false.
Proof.
  intros Hs. destruct (create_ok 3 s ltac:(lia) (fits_u32 s Hs)) as (p & E & H1 & H2 & H3).
  exists p. split; [done|]. split; [done|]. split; [done|]. intros j Hj.
  unfold sqlite3BitvecTest, sqlite3BitvecTestNotNull, u32. rewrite Z.mod_small, H2 by lia.
  destruct (Z.leb_spec s (j - 1)); [done|]. apply H3. lia.
Qed.

(** Operations of the pager on one vector. *)
Inductive bv_op := BvSet (i : Z) | BvClear (i : Z).
Definition bv_run (p : option Bitvec) (o : bv_op) : option Bitvec :=
  match o with
  | BvSet i => snd (fst (sqlite3BitvecSet p i []))
  | BvClear i => sqlite3BitvecClear p i
  end.
(** The set of numbers the operations denote. *)
Definition bv_spec (X : gset Z) (o : bv_op) : gset Z :=
  match o with BvSet i => {[ i ]} ∪ X | BvClear i => X ∖ {[ i ]} end.
Definition op_in (s : Z) (o : bv_op) : Prop := match o with BvSet i => 1 <= i <= s | BvClear i => 1 <= i <= s end.

(** C30. Bit vectors are finite sets: after any sequence of set and clear operations
    on a new vector of any 32-bit size, the test answers membership in the set the
    operations denote, through bitmaps, hash tables and nested vectors alike. *)
Theorem bitvec_refines_set (s : Z) (ops : list bv_op) (j : Z)
  (Hs : 0 <= s < 2 ^ 32) (Hops : Forall (op_in s) ops) (Hj : 1 <= j < 2 ^ 32) :
  exists p, sqlite3BitvecCreate s [] = (Some p, []) /\
  sqlite3BitvecTest (fold_left bv_run ops (Some p)) j = bool_decide (j ∈ fold_left bv_spec ops (∅ : gset Z)).
Proof.
  destruct (create_empty s Hs) as (p & E & Hok & Hsz & Ht). exists p. split; [done|]. clear E.
  assert (Hx : forall X : gset Z, (forall j, 1 <= j < 2 ^ 32 -> sqlite3BitvecTest (Some p) j = bool_decide (j ∈ X)) ->
    sqlite3BitvecTest (fold_left bv_run ops (Some p)) j = bool_decide (j ∈ fold_left bv_spec ops X)).
  2: { apply Hx. intros k Hk. rewrite Ht by done. symmetry. apply bool_decide_eq_false. set_solver. }
  clear Ht. revert p Hok Hsz. induction Hops as [|o ops Ho _ IH]; intros p Hok Hsz X HX; [by apply HX|].
  assert (Hstep : exists p', bv_run (Some p) o = Some p' /\ bv_ok 3 p' /\ bv_iSize p' = s /\
      forall k, 1 <= k < 2 ^ 32 -> sqlite3BitvecTest (Some p') k = bool_decide (k ∈ bv_spec X o)).
  { destruct o as [i|i]; cbn [bv_run bv_spec op_in] in *.
    - destruct (bitvec_set_exact p i Hok ltac:(lia) ltac:(lia)) as (p' & E & H1 & H2 & H3). rewrite E.
      exists p'. split; [done|]. split; [done|]. split; [by rewrite <- Hsz|]. intros k Hk. rewrite H3, HX by done.
      apply eq_true_iff_eq. rewrite orb_true_iff, Z.eqb_eq, !bool_decide_eq_true.
      by rewrite elem_of_union, elem_of_singleton.
    - destruct (bitvec_clear_exact p i Hok ltac:(lia) ltac:(lia)) as (p' & E & H1 & H2 & H3).
      exists p'. split; [done|]. split; [done|]. split; [by rewrite <- Hsz|]. intros k Hk. rewrite H3, HX by done.
      apply eq_true_iff_eq. rewrite andb_true_iff, negb_true_iff, Z.eqb_neq, !bool_decide_eq_true.
      rewrite elem_of_difference, elem_of_singleton. tauto. }
  destruct Hstep as (p' & Er & Hok' & Hsz' & HX'). cbn [fold_left]. rewrite Er. by apply IH.
Qed.
Lemma bitvec_refines_set_witness : exists p, sqlite3BitvecCreate 100000 [] = (Some p, []) /\
  sqlite3BitvecTest (fold_left bv_run (BvClear 7 :: map BvSet (seqZ 1 80)) (Some p)) 80 =
  bool_decide (80 ∈ fold_left bv_spec (BvClear 7 :: map BvSet (seqZ 1 80)) (∅ : gset Z)).
Proof.
  apply (bitvec_refines_set 100000 (BvClear 7 :: map BvSet (seqZ 1 80)) 80); [lia| |lia].
  constructor; [cbn; lia|]. apply Forall_map, Forall_forall. intros i Hi. apply elem_of_seqZ in Hi. cbn. lia.
Defined.
