(* ===== verification/RowSet.v ===== *)
(** Sets of rowids (rowset.c): values are inserted in any order and are either
    extracted in ascending order or tested for membership by batches.

    A list linked by [pRight] is a list of values; [pLast] is its last entry.  A
    tree is an inductive tree, the forest a list of trees, a null [pLeft] the empty
    tree.  Entries come from a pool of [nFresh] entries that is refilled by chunks.
    The theorems show that extraction sorts and removes duplicates, and that tests
    see exactly what was inserted before the last change of batch. *)

From Stdlib Require Import Sorted.
From S2P Require Import Prelude.

(** ** Data *)

Definition ROWSET_ALLOCATION_SIZE : Z := 1024.
(** An entry has a 64-bit value and two 32-bit pointers. *)
Definition sizeof_RowSetEntry : Z := 16.
Definition ROWSET_ENTRY_PER_CHUNK : Z := (ROWSET_ALLOCATION_SIZE - 8) / sizeof_RowSetEntry.
Definition sizeof_RowSet : Z := 32.
Definition ROWSET_SORTED : Z := 0x01.
Definition ROWSET_NEXT : Z := 0x02.

Inductive tree := Leaf | Node (pLeft : tree) (v : Z) (pRight : tree).

Record RowSet := mkRowSet {
  nChunk : Z; pEntry : list Z; pForest : list tree; nFresh : Z; rsFlags : Z; rs_iBatch : Z }.

(** ** Allocation *)

(** [N]: the usable size of the allocation for the object itself. *)
Definition sqlite3RowSetInit (N : Z) (oom : list bool) : option RowSet * list bool :=
  let '(fail, oom) := alloc oom in
  if fail then (None, oom)
  else (Some (mkRowSet 0 [] [] (u16 ((N - sizeof_RowSet) / sizeof_RowSetEntry)) ROWSET_SORTED 0), oom).

Definition sqlite3RowSetClear (p : RowSet) : RowSet :=
  mkRowSet 0 [] [] 0 ROWSET_SORTED (rs_iBatch p).

(** Whether an entry is available, and the pool afterwards. *)
Definition rowSetEntryAlloc (p : RowSet) (oom : list bool) : bool * RowSet * list bool :=
  if nFresh p =? 0 then
    let '(fail, oom) := alloc oom in
    if fail then (false, p, oom)
    else (true, mkRowSet (nChunk p + 1) (pEntry p) (pForest p) (u16 (ROWSET_ENTRY_PER_CHUNK - 1)) (rsFlags p)
                  (rs_iBatch p), oom)
  else (true, mkRowSet (nChunk p) (pEntry p) (pForest p) (u16 (nFresh p - 1)) (rsFlags p) (rs_iBatch p), oom).

(** ** Lists *)

Definition sqlite3RowSetInsert (p : RowSet) (rowid : Z) (oom : list bool) : RowSet * list bool :=
  let '(ok, p, oom) := rowSetEntryAlloc p oom in
  if negb ok then (p, oom) else
  let flags := match last (pEntry p) with
               | Some v => if rowid <=? v then Z.land (rsFlags p) (Z.lnot ROWSET_SORTED) else rsFlags p
               | None => rsFlags p
               end in
  (mkRowSet (nChunk p) (pEntry p ++ [rowid]) (pForest p) (nFresh p) flags (rs_iBatch p), oom).

(** Both lists are not empty in the calls of the code. *)
Fixpoint rowSetEntryMerge (pA : list Z) : list Z -> list Z :=
  fix merge_b (pB : list Z) : list Z :=
    match pA, pB with
    | [], _ => pB
    | _, [] => pA
    | a :: pA', b :: pB' =>
        if a <=? b then
          if a <? b then a :: rowSetEntryMerge pA' pB else rowSetEntryMerge pA' pB
        else b :: merge_b pB'
    end.

(** The loop over [aBucket] for one element: merge with the buckets in use, store in
    the first free one.  Past the end of the array the element is lost. *)
Fixpoint bucket_insert (aBucket : list (list Z)) (pIn : list Z) : list (list Z) :=
  match aBucket with
  | [] => []
  | [] :: bs => pIn :: bs
  | b :: bs => [] :: bucket_insert bs (rowSetEntryMerge b pIn)
  end.
Definition merge_bucket (pIn b : list Z) : list Z :=
  match b with
  | [] => pIn
  | _ => match pIn with [] => b | _ => rowSetEntryMerge pIn b end
  end.
Definition rowSetEntrySort (pIn : list Z) : list Z :=
  let aBucket := fold_left (fun bs v => bucket_insert bs [v]) pIn (replicate 40 []) in
  match aBucket with
  | [] => []
  | b0 :: bs => fold_left merge_bucket bs b0
  end.

(** ** Trees *)

Fixpoint rowSetTreeToList (pIn : tree) : list Z :=
  match pIn with
  | Leaf => []
  | Node l v r => rowSetTreeToList l ++ v :: rowSetTreeToList r
  end.

(** The tree, and what is left of the list. *)
Fixpoint rowSetNDeepTree (iDepth : nat) (ppList : list Z) : tree * list Z :=
  match ppList with
  | [] => (Leaf, [])
  | x :: rest =>
      match iDepth with
      | S (S _ as d) =>
          let '(pLeft, l) := rowSetNDeepTree d ppList in
          match l with
          | [] => (pLeft, [])
          | v :: l' => let '(r, l'') := rowSetNDeepTree d l' in (Node pLeft v r, l'')
          end
      | _ => (Node Leaf x Leaf, rest)
      end
  end.

Fixpoint listToTree_loop (fuel iDepth : nat) (p : tree) (pList : list Z) : tree :=
  match fuel with
  | O => p
  | S fuel' =>
      match pList with
      | [] => p
      | v :: l => let '(r, l') := rowSetNDeepTree iDepth l in
                  listToTree_loop fuel' (S iDepth) (Node p v r) l'
      end
  end.
Definition rowSetListToTree (pList : list Z) : tree :=
  match pList with
  | [] => Leaf
  | v :: l => listToTree_loop (length l) 1 (Node Leaf v Leaf) l
  end.

(** ** Extraction and test *)

(** [None] when the set is empty. *)
Definition sqlite3RowSetNext (p : RowSet) : option Z * RowSet :=
  let p :=
    if negb (truthy (Z.land (rsFlags p) ROWSET_NEXT)) then
      let l := if negb (truthy (Z.land (rsFlags p) ROWSET_SORTED)) then rowSetEntrySort (pEntry p) else pEntry p in
      mkRowSet (nChunk p) l (pForest p) (nFresh p)
        (Z.lor (rsFlags p) (Z.lor ROWSET_SORTED ROWSET_NEXT)) (rs_iBatch p)
    else p in
  match pEntry p with
  | [] => (None, p)
  | v :: l =>
      let p := mkRowSet (nChunk p) l (pForest p) (nFresh p) (rsFlags p) (rs_iBatch p) in
      (Some v, match l with [] => sqlite3RowSetClear p | _ => p end)
  end.

(** Merge the sorted list [p] into the forest; [None] when a new tree is needed, with
    the list it is to hold. *)
Fixpoint forest_add (f : list tree) (p : list Z) : list tree * option (list Z) :=
  match f with
  | [] => ([], Some p)
  | Leaf :: f' => (rowSetListToTree p :: f', None)
  | t :: f' => let '(f'', r) := forest_add f' (rowSetEntryMerge (rowSetTreeToList t) p) in (Leaf :: f'', r)
  end.

Definition new_batch (p : RowSet) (iBatch : Z) (oom : list bool) : RowSet * list bool :=
  if iBatch =? rs_iBatch p then (p, oom) else
  let '(p, oom) :=
    match pEntry p with
    | [] => (p, oom)
    | _ =>
        let l := if negb (truthy (Z.land (rsFlags p) ROWSET_SORTED)) then rowSetEntrySort (pEntry p) else pEntry p in
        let '(f, r) := forest_add (pForest p) l in
        let '(f, p, oom) :=
          match r with
          | None => (f, p, oom)
          | Some l => let '(ok, p, oom) := rowSetEntryAlloc p oom in
                      (if ok then f ++ [rowSetListToTree l] else f, p, oom)
          end in
        (mkRowSet (nChunk p) [] f (nFresh p) (Z.lor (rsFlags p) ROWSET_SORTED) (rs_iBatch p), oom)
    end in
  (mkRowSet (nChunk p) (pEntry p) (pForest p) (nFresh p) (rsFlags p) iBatch, oom).

Fixpoint tree_find (p : tree) (iRowid : Z) : bool :=
  match p with
  | Leaf => false
  | Node l v r => if v <? iRowid then tree_find r iRowid
                  else if iRowid <? v then tree_find l iRowid else true
  end.
Definition sqlite3RowSetTest (p : RowSet) (iBatch iRowid : Z) (oom : list bool) : bool * RowSet * list bool :=
  let '(p, oom) := new_batch p iBatch oom in
  (existsb (fun t => tree_find t iRowid) (pForest p), p, oom).

(** ** Sorting *)

#[local] Abbreviation sorted l := (StronglySorted Z.lt l).

Lemma sorted_cons_inv x l : sorted (x :: l) -> sorted l /\ forall y, y ∈ l -> x < y.
Proof. intros H. inversion_clear H as [|? ? H1 H2]. split; [done|]. by apply Forall_forall. Qed.
Lemma sorted_cons x l : sorted l -> (forall y, y ∈ l -> x < y) -> sorted (x :: l).
Proof. intros H1 H2. constructor; [done|]. by apply Forall_forall. Qed.

Lemma merge_nil_r a : rowSetEntryMerge a [] = a.
Proof. by destruct a. Qed.
Lemma merge_cons a pA b pB : rowSetEntryMerge (a :: pA) (b :: pB) =
  if a <=? b then if a <? b then a :: rowSetEntryMerge pA (b :: pB) else rowSetEntryMerge pA (b :: pB)
  else b :: rowSetEntryMerge (a :: pA) pB.
Proof. done. Qed.

Lemma merge_spec a b : sorted a -> sorted b ->
  sorted (rowSetEntryMerge a b) /\ (forall x, x ∈ rowSetEntryMerge a b <-> x ∈ a \/ x ∈ b).
Proof.
  revert b. induction a as [|x a IHa]; intros b Ha Hb.
  { destruct b as [|b0 b]; (split; [done|]); intros z; rewrite elem_of_nil; cbn [rowSetEntryMerge]; rewrite ?elem_of_nil; tauto. }
  induction b as [|y b IHb].
  { rewrite merge_nil_r. split; [done|]. intros z. rewrite elem_of_nil. tauto. }
  apply sorted_cons_inv in Ha as Ha'. destruct Ha' as [Ha1 Ha2].
  apply sorted_cons_inv in Hb as Hb'. destruct Hb' as [Hb1 Hb2]. rewrite merge_cons.
  destruct (Z.leb_spec x y) as [Hxy|Hxy].
  - destruct (IHa (y :: b) Ha1 Hb) as [I1 I2]. destruct (Z.ltb_spec x y) as [Hlt|Hge].
    + split.
      * apply sorted_cons; [done|]. intros z [Hz|Hz]%I2; [by apply Ha2|].
        apply elem_of_cons in Hz as [->|Hz]; [done|]. specialize (Hb2 z Hz). lia.
      * intros z. rewrite elem_of_cons, I2, (elem_of_cons a). tauto.
    + assert (x = y) as -> by lia. split; [done|]. intros z. rewrite I2, (elem_of_cons a).
      split; [tauto|]. rewrite elem_of_cons. tauto.
  - destruct (IHb Hb1) as [I1 I2]. split.
    + apply sorted_cons; [done|]. intros z [Hz|Hz]%I2; [|by apply Hb2].
      apply elem_of_cons in Hz as [->|Hz]; [done|]. specialize (Ha2 z Hz). lia.
    + intros z. rewrite elem_of_cons, I2, (elem_of_cons b). tauto.
Qed.

(** The buckets in use, as a binary number. *)
Fixpoint occ (bs : list (list Z)) : Z :=
  match bs with
  | [] => 0
  | [] :: bs' => 2 * occ bs'
  | _ :: bs' => 1 + 2 * occ bs'
  end.
Lemma occ_nonneg bs : 0 <= occ bs.
Proof. induction bs as [|[|? ?] bs IH]; cbn [occ]; lia. Qed.

Lemma bucket_insert_spec bs p : Forall (fun b => sorted b) bs -> sorted p -> p <> [] ->
  occ bs < 2 ^ zlen bs - 1 ->
  let bs' := bucket_insert bs p in
  Forall (fun b => sorted b) bs' /\ zlen bs' = zlen bs /\ occ bs' = occ bs + 1 /\
  (forall x, x ∈ concat bs' <-> x ∈ p \/ x ∈ concat bs).
Proof.
  intros Hb. revert p. induction Hb as [|b bs Hb Hbs IH]; intros p Hp Hne Ho; cbn zeta.
  { change (zlen (@nil (list Z))) with 0 in Ho. cbn in Ho. lia. }
  rewrite zlen_cons in *. pose proof (zlen_nonneg bs). rewrite Z.pow_add_r in Ho by lia.
  destruct b as [|x b]; cbn [bucket_insert occ concat] in *.
  - split; [by constructor|]. rewrite zlen_cons. split; [done|]. split; [destruct p; [done|lia]|].
    intros z. by rewrite elem_of_app.
  - destruct (merge_spec (x :: b) p Hb Hp) as [M1 M2].
    assert (Mne : rowSetEntryMerge (x :: b) p <> []).
    { intros E. assert (Hx : x ∈ rowSetEntryMerge (x :: b) p) by (apply M2; left; apply elem_of_cons; by left).
      rewrite E in Hx. by apply not_elem_of_nil in Hx. }
    destruct (IH _ M1 Mne) as (I1 & I2 & I3 & I4); [lia|].
    split; [constructor; [constructor|done]|]. rewrite zlen_cons, I2. split; [done|]. rewrite I3. split; [lia|].
    intros z. rewrite app_nil_l, I4, M2, elem_of_app. tauto.
Qed.

Lemma merge_bucket_spec p b : sorted p -> sorted b ->
  sorted (merge_bucket p b) /\ (forall x, x ∈ merge_bucket p b <-> x ∈ p \/ x ∈ b).
Proof.
  intros Hp Hb. unfold merge_bucket. destruct b as [|y b].
  { split; [done|]. intros x. rewrite elem_of_nil. tauto. }
  destruct p as [|x p]; [|by apply merge_spec]. split; [done|]. intros z. rewrite elem_of_nil. tauto.
Qed.

Lemma sort_spec l : zlen l < 2 ^ 40 ->
  sorted (rowSetEntrySort l) /\ (forall x, x ∈ rowSetEntrySort l <-> x ∈ l).
Proof.
  intros Hl. unfold rowSetEntrySort.
  assert (Hfold : forall bs, Forall (fun b => sorted b) bs -> zlen bs = 40 -> occ bs + zlen l < 2 ^ 40 ->
      let bs' := fold_left (fun bs v => bucket_insert bs [v]) l bs in
      Forall (fun b => sorted b) bs' /\ forall x, x ∈ concat bs' <-> x ∈ l \/ x ∈ concat bs).
  { clear. induction l as [|v l IH]; intros bs Hb Hz Ho; cbn zeta.
    { split; [done|]. intros x. cbn [fold_left]. rewrite elem_of_nil. tauto. }
    rewrite zlen_cons in Ho. pose proof (zlen_nonneg l). cbn [fold_left].
    destruct (bucket_insert_spec bs [v] Hb) as (I1 & I2 & I3 & I4); [by repeat constructor|done|rewrite Hz; lia|].
    destruct (IH (bucket_insert bs [v]) I1) as [J1 J2]; [lia|lia|]. split; [done|].
    intros x. rewrite J2, I4, list_elem_of_singleton, elem_of_cons. tauto. }
  destruct (Hfold (replicate 40 [])) as [H1 H2].
  { apply Forall_replicate. constructor. }
  { done. }
  { change (occ (replicate 40 [])) with 0. lia. }
  set (bs := fold_left (fun bs v => bucket_insert bs [v]) l (replicate 40 [])) in *. cbn zeta in H1, H2.
  assert (Hm : forall bs p, sorted p -> Forall (fun b => sorted b) bs ->
     sorted (fold_left merge_bucket bs p) /\ (forall x, x ∈ fold_left merge_bucket bs p <-> x ∈ p \/ x ∈ concat bs)).
  { clear. intros bs p Hp Hb. revert p Hp. induction Hb as [|b bs Hb _ IH]; intros p Hp.
    { split; [done|]. intros x. cbn. rewrite elem_of_nil. tauto. }
    cbn [fold_left concat]. destruct (merge_bucket_spec p b Hp Hb) as [M1 M2]. destruct (IH _ M1) as [I1 I2].
    split; [done|]. intros x. rewrite I2, M2, elem_of_app. tauto. }
  assert (Hnil : forall x, x ∉ concat (replicate 40 (@nil Z))) by (intros x; apply not_elem_of_nil).
  destruct bs as [|b0 bs].
  - split; [constructor|]. intros x. specialize (H2 x). cbn [concat] in H2. specialize (Hnil x). tauto.
  - inversion_clear H1 as [|? ? Hb0 Hbs]. destruct (Hm bs b0 Hb0 Hbs) as [I1 I2]. split; [done|].
    intros x. rewrite I2. specialize (H2 x). cbn [concat] in H2. rewrite elem_of_app in H2. specialize (Hnil x). tauto.
Qed.

(** ** Trees *)

Lemma deep_tree_spec d l : let '(t, r) := rowSetNDeepTree d l in rowSetTreeToList t ++ r = l.
Proof.
  revert l. induction d as [|d IH]; intros [|x l]; try done. cbn [rowSetNDeepTree].
  destruct d as [|d]; [done|]. pose proof (IH (x :: l)) as H1.
  destruct (rowSetNDeepTree (S d) (x :: l)) as [pL r]. destruct r as [|v r].
  - rewrite app_nil_r in *. done.
  - pose proof (IH r) as H2. destruct (rowSetNDeepTree (S d) r) as [pR r']. cbn [rowSetTreeToList].
    by rewrite <- app_assoc, <- app_comm_cons, H2.
Qed.
Lemma listToTree_loop_spec fuel d p l : (length l <= fuel)%nat ->
  rowSetTreeToList (listToTree_loop fuel d p l) = rowSetTreeToList p ++ l.
Proof.
  revert d p l. induction fuel as [|fuel IH]; intros d p [|v l] Hl; cbn [listToTree_loop length] in *;
    rewrite ?app_nil_r; try done; [lia|].
  pose proof (deep_tree_spec d l) as H. destruct (rowSetNDeepTree d l) as [r l'].
  rewrite IH by (rewrite <- H, length_app in Hl; lia). cbn [rowSetTreeToList].
  by rewrite <- app_assoc, <- app_comm_cons, H.
Qed.
Lemma listToTree_spec l : rowSetTreeToList (rowSetListToTree l) = l.
Proof. destruct l as [|v l]; [done|]. unfold rowSetListToTree. by rewrite listToTree_loop_spec. Qed.

Lemma sorted_app_inv l1 x l2 : sorted (l1 ++ x :: l2) ->
  sorted l1 /\ sorted l2 /\ (forall y, y ∈ l1 -> y < x) /\ (forall y, y ∈ l2 -> x < y).
Proof.
  induction l1 as [|z l1 IH]; cbn [app]; intros H.
  - apply sorted_cons_inv in H as [H1 H2]. split; [constructor|]. split; [done|]. split; [|done].
    intros y Hy. by apply not_elem_of_nil in Hy.
  - apply sorted_cons_inv in H as [H1 H2]. destruct (IH H1) as (I1 & I2 & I3 & I4).
    split; [apply sorted_cons; [done|]; intros y Hy; apply H2, elem_of_app; by left|]. split; [done|]. split; [|done].
    intros y [->|Hy]%elem_of_cons; [|by apply I3]. apply H2, elem_of_app. right. apply elem_of_cons. by left.
Qed.
Lemma tree_find_spec t x : sorted (rowSetTreeToList t) -> tree_find t x = true <-> x ∈ rowSetTreeToList t.
Proof.
  induction t as [|l IHl v r IHr]; cbn [tree_find rowSetTreeToList]; intros H.
  { split; [done|]. intros Hx. by apply not_elem_of_nil in Hx. }
  apply sorted_app_inv in H as (H1 & H2 & H3 & H4). rewrite elem_of_app, elem_of_cons.
  destruct (Z.ltb_spec v x) as [Hlt|Hge].
  - rewrite IHr by done. split; [tauto|]. intros [Hx|[->|Hx]]; [specialize (H3 x Hx); lia|lia|done].
  - destruct (Z.ltb_spec x v).
    + rewrite IHl by done. split; [tauto|]. intros [Hx|[->|Hx]]; [done|lia|specialize (H4 x Hx); lia].
    + split; [|done]. intros _. right. left. lia.
Qed.

(** ** Extraction *)

(** Values inserted so far, in order; the flag tells whether they are ascending. *)
Definition ins_ok (p : RowSet) (l : list Z) : Prop :=
  pEntry p = l /\ (rsFlags p = 0 \/ rsFlags p = 1 /\ sorted l).

Lemma entryAlloc_ok p : exists p', rowSetEntryAlloc p [] = (true, p', []) /\ pEntry p' = pEntry p /\
  pForest p' = pForest p /\ rsFlags p' = rsFlags p /\ rs_iBatch p' = rs_iBatch p.
Proof. unfold rowSetEntryAlloc. cbn [alloc]. destruct (nFresh p =? 0); eexists; split; reflexivity || done. Qed.

Lemma sorted_snoc l x : sorted l -> (forall y, last l = Some y -> y < x) -> sorted (l ++ [x]).
Proof.
  induction l as [|z l IH]; intros Hl Hx; [by repeat constructor|]. cbn [app].
  apply sorted_cons_inv in Hl as [H1 H2]. destruct l as [|z' l].
  - cbn. apply sorted_cons; [by repeat constructor|]. intros y Hy%list_elem_of_singleton. subst. by apply Hx.
  - assert (I : sorted ((z' :: l) ++ [x])) by (apply IH; [done|]; intros y Hy; by apply Hx).
    apply sorted_cons; [done|]. intros y Hy. apply elem_of_app in Hy as [Hy|Hy%list_elem_of_singleton]; [by apply H2|].
    subst y. cbn [app] in I. apply sorted_cons_inv in I as [_ I].
    specialize (H2 z' ltac:(apply elem_of_cons; by left)).
    specialize (I x ltac:(apply elem_of_app; right; by apply list_elem_of_singleton)). lia.
Qed.

Lemma insert_ok p l v : ins_ok p l -> exists p', sqlite3RowSetInsert p v [] = (p', []) /\ ins_ok p' (l ++ [v]) /\
  pForest p' = pForest p /\ rs_iBatch p' = rs_iBatch p.
Proof.
  intros [El Hf]. unfold sqlite3RowSetInsert. destruct (entryAlloc_ok p) as (q & -> & E1 & E2 & E3 & E4).
  cbn [negb]. eexists. split; [reflexivity|]. cbn [pForest rs_iBatch]. split; [|done]. split; [cbn; by rewrite E1, El|].
  cbn [rsFlags]. rewrite E1, E3, El. destruct Hf as [->|[-> Hs]].
  - left. destruct (last l); [|done]. by destruct (v <=? _).
  - destruct (last l) as [y|] eqn:Ey.
    + destruct (Z.leb_spec v y); [by left|]. right. split; [done|]. apply sorted_snoc; [done|].
      intros z Hz. rewrite Ey in Hz. by simplify_eq.
    + right. split; [done|]. apply sorted_snoc; [done|]. intros z Hz. by rewrite Ey in Hz.
Qed.

(** All values of the set, by repeated extraction. *)
Fixpoint drain (fuel : nat) (p : RowSet) : option (list Z) :=
  match fuel with
  | O => None
  | S fuel' => match sqlite3RowSetNext p with
               | (None, _) => Some []
               | (Some v, p) => match drain fuel' p with Some l => Some (v :: l) | None => None end
               end
  end.

Lemma drain_next p n : rsFlags p = 3 -> (length (pEntry p) < n)%nat -> drain n p = Some (pEntry p).
Proof.
  intros Hf. remember (pEntry p) as L eqn:EL. revert n p Hf EL. induction L as [|v L IH]; intros n p Hf EL Hn;
    (destruct n as [|n]; [cbn in Hn; lia|]); cbn [drain]; unfold sqlite3RowSetNext; rewrite Hf; cbn [truthy Z.land Z.eqb negb];
    change (truthy (Z.land 3 ROWSET_NEXT)) with true; cbn [negb]; rewrite <- EL; [done|].
  destruct L as [|w L].
  - cbn [length] in Hn. destruct n as [|n]; [lia|]. done.
  - rewrite (IH n); [done|done|done|cbn [length] in *; lia].
Qed.

Lemma drain_ok p l n : ins_ok p l -> zlen l < 2 ^ 40 -> (length l < n)%nat ->
  exists L, drain n p = Some L /\ sorted L /\ forall x, x ∈ L <-> x ∈ l.
Proof.
  intros [El Hf] Hl Hn. set (L := if negb (truthy (Z.land (rsFlags p) ROWSET_SORTED)) then rowSetEntrySort l else l).
  assert (HL : sorted L /\ forall x, x ∈ L <-> x ∈ l).
  { unfold L. destruct Hf as [->|[-> Hs]]; [by apply sort_spec|done]. }
  destruct HL as [HL1 HL2]. exists L. split; [|done].
  destruct n as [|n]; [lia|].
  set (q := mkRowSet (nChunk p) L (pForest p) (nFresh p) 3 (rs_iBatch p)).
  assert (Eq : drain (S n) p = drain (S n) q).
  { cbn [drain]. replace (sqlite3RowSetNext p) with (sqlite3RowSetNext q); [done|].
    subst q L. clear - El Hf. destruct p as [c e f k fl b]. cbn in *. subst e.
    destruct Hf as [->|[-> _]]; reflexivity. }
  rewrite Eq. apply drain_next; [done|]. cbn [pEntry q].
  (* no value is new, so the list is not longer *)
  assert (Hnd : NoDup L).
  { clear -HL1. induction HL1 as [|x L H IH Hx]; constructor; [|done]. intros Hin.
    rewrite Forall_forall in Hx. specialize (Hx x Hin). lia. }
  apply NoDup_submseteq with (k := l) in Hnd; [|by intros x Hx; apply HL2].
  apply submseteq_length in Hnd. lia.
Qed.

(** C33. Extraction: after any sequence of fewer than [2^40] insertions into a new
    set, repeated [sqlite3RowSetNext] returns the inserted values in ascending
    order, each once, and then reports the end. *)
Theorem rowset_extracts_sorted (N : Z) (vs : list Z) (Hlen : zlen vs < 2 ^ 40) :
  exists p L, sqlite3RowSetInit N [] = (Some p, []) /\
    drain (S (length vs)) (fst (fold_left (fun '(p, oom) v => sqlite3RowSetInsert p v oom) vs (p, []))) = Some L /\
    StronglySorted Z.lt L /\ forall x, x ∈ L <-> x ∈ vs.
Proof.
  eexists. enough (exists L, _) as [L H] by (exists L; split; [reflexivity|exact H]).
  set (p := mkRowSet _ _ _ _ _ _).
  assert (Hins : forall l p, ins_ok p l -> exists p',
      fold_left (fun '(p, oom) v => sqlite3RowSetInsert p v oom) vs (p, []) = (p', []) /\ ins_ok p' (l ++ vs)).
  { clear. induction vs as [|v vs IH]; intros l p Hp.
    - exists p. rewrite app_nil_r. done.
    - destruct (insert_ok p l v Hp) as (p' & E & H & _). cbn [fold_left]. rewrite E.
      destruct (IH (l ++ [v]) p' H) as (p'' & E' & H'). exists p''. split; [done|]. by rewrite <- app_assoc in H'. }
  destruct (Hins [] p) as (p' & -> & Hp'). { split; [done|]. right. split; [done|constructor]. }
  apply (drain_ok p' vs); [done|done|lia].
Qed.
Lemma rowset_extracts_sorted_witness : exists p L, sqlite3RowSetInit 64 [] = (Some p, []) /\
    drain 5 (fst (fold_left (fun '(p, oom) v => sqlite3RowSetInsert p v oom) [5; 3; 5; 1] (p, []))) = Some L /\
    StronglySorted Z.lt L /\ forall x, x ∈ L <-> x ∈ [5; 3; 5; 1].
Proof. apply (rowset_extracts_sorted 64 [5; 3; 5; 1]). by_compute. Defined.

(** ** Tests by batch *)

Definition forest_elems (f : list tree) : list Z := concat (map rowSetTreeToList f).

Lemma forest_add_spec f p : Forall (fun t => sorted (rowSetTreeToList t)) f -> sorted p ->
  let '(f', r) := forest_add f p in
  Forall (fun t => sorted (rowSetTreeToList t)) f' /\
  match r with
  | None => forall x, x ∈ forest_elems f' <-> x ∈ forest_elems f \/ x ∈ p
  | Some l => sorted l /\ forest_elems f' = [] /\ forall x, x ∈ l <-> x ∈ forest_elems f \/ x ∈ p
  end.
Proof.
  intros Hf. revert p. induction Hf as [|t f Ht Hf IH]; intros p Hp; cbn [forest_add].
  { split; [constructor|]. split; [done|]. split; [done|]. intros x. unfold forest_elems. cbn. rewrite elem_of_nil. tauto. }
  destruct t as [|l v r].
  { split; [constructor; [by rewrite listToTree_spec|done]|]. intros x. unfold forest_elems. cbn [map concat].
    rewrite listToTree_spec, elem_of_app. cbn [rowSetTreeToList app]. tauto. }
  destruct (merge_spec (rowSetTreeToList (Node l v r)) p Ht Hp) as [M1 M2]. specialize (IH _ M1).
  destruct (forest_add f _) as [f' res]. destruct IH as [I1 I2]. split; [constructor; [constructor|done]|].
  destruct res as [l'|].
  - destruct I2 as (J1 & J2 & J3). split; [done|]. split; [exact J2|]. intros x. rewrite J3, M2.
    unfold forest_elems. cbn [map concat]. rewrite elem_of_app. tauto.
  - intros x. unfold forest_elems in *. cbn [map concat rowSetTreeToList app]. rewrite I2, M2, elem_of_app. 
    cbn [rowSetTreeToList]. tauto.
Qed.

Lemma existsb_find f x : Forall (fun t => sorted (rowSetTreeToList t)) f ->
  existsb (fun t => tree_find t x) f = true <-> x ∈ forest_elems f.
Proof.
  induction 1 as [|t f Ht _ IH]; unfold forest_elems in *; cbn [existsb map concat].
  - rewrite elem_of_nil. done.
  - by rewrite orb_true_iff, elem_of_app, IH, tree_find_spec.
Qed.

(** What the set promises: the values a test sees, those of the current batch, and
    the batch number. *)
Record batches := mkBatches { visible : gset Z; pending : gset Z; batch : Z }.
Inductive rs_op := RsInsert (v : Z) | RsTest (iBatch v : Z).
Definition spec_op (s : batches) (o : rs_op) : batches * option bool :=
  match o with
  | RsInsert v => (mkBatches (visible s) ({[ v ]} ∪ pending s) (batch s), None)
  | RsTest b v =>
      let s := if b =? batch s then s else mkBatches (visible s ∪ pending s) ∅ b in
      (s, Some (bool_decide (v ∈ visible s)))
  end.
Definition rs_op_run (p : RowSet) (o : rs_op) : RowSet * option bool :=
  match o with
  | RsInsert v => (fst (sqlite3RowSetInsert p v []), None)
  | RsTest b v => let '(r, p, _) := sqlite3RowSetTest p b v [] in (p, Some r)
  end.
(** The answers to a sequence of operations. *)
Fixpoint answers {S} (step : S -> rs_op -> S * option bool) (s : S) (ops : list rs_op) : list (option bool) :=
  match ops with
  | [] => []
  | o :: ops' => let '(s, r) := step s o in r :: answers step s ops'
  end.

Definition rs_inv (n : Z) (p : RowSet) (s : batches) : Prop :=
  ins_ok p (pEntry p) /\ zlen (pEntry p) <= n /\
  Forall (fun t => sorted (rowSetTreeToList t)) (pForest p) /\ rs_iBatch p = batch s /\
  (forall x, x ∈ pEntry p <-> x ∈ pending s) /\ (forall x, x ∈ forest_elems (pForest p) <-> x ∈ visible s).

Lemma new_batch_ok n p s b : rs_inv n p s -> n < 2 ^ 40 -> b <> batch s ->
  exists p', new_batch p b [] = (p', []) /\ rs_inv n p' (mkBatches (visible s ∪ pending s) ∅ b).
Proof.
  intros ([_ Hfl] & Hn & Hf & Hb & Hp & Hv) Hlt Hne. unfold new_batch. rewrite Hb, (proj2 (Z.eqb_neq _ _)) by done.
  pose proof (zlen_nonneg (pEntry p)).
  destruct (pEntry p) as [|v0 l0] eqn:El.
  - eexists. split; [reflexivity|]. unfold rs_inv, ins_ok. cbn [pEntry rsFlags pForest rs_iBatch batch pending visible].
    rewrite El. split; [split; [done|]; destruct Hfl as [|[]]; auto using SSorted_nil|]. split; [done|]. split; [done|].
    split; [done|]. split; [intros x; rewrite elem_of_nil, elem_of_empty; done|].
    intros x. rewrite elem_of_union, Hv. rewrite <- Hp, elem_of_nil. tauto.
  - set (l := v0 :: l0) in *.
    set (L := if negb (truthy (Z.land (rsFlags p) ROWSET_SORTED)) then rowSetEntrySort l else l).
    assert (HL : sorted L /\ forall x, x ∈ L <-> x ∈ l).
    { unfold L. destruct Hfl as [->|[-> Hs]]; [apply sort_spec; lia|done]. }
    destruct HL as [HL1 HL2].
    assert (Eflag : forall q, rsFlags q = rsFlags p -> Z.lor (rsFlags q) ROWSET_SORTED = 1).
    { intros q ->. destruct Hfl as [->|[-> _]]; done. }
    pose proof (forest_add_spec (pForest p) L Hf HL1) as Ha. destruct (forest_add (pForest p) L) as [f r].
    destruct Ha as [Hf' Hr]. destruct r as [l'|].
    + destruct Hr as (Hs' & Hnil & Hm). destruct (entryAlloc_ok p) as (q & Ea & E1 & E2 & E3 & E4). rewrite Ea.
      eexists. split; [reflexivity|]. unfold rs_inv, ins_ok. cbn [pEntry rsFlags pForest rs_iBatch batch pending visible].
      rewrite (Eflag q E3). split; [split; [done|right; split; [done|constructor]]|].
      split; [change (zlen (@nil Z)) with 0; lia|]. split; [apply Forall_app; split; [done|]; constructor; [by rewrite listToTree_spec|constructor]|].
      split; [done|]. split; [intros x; rewrite elem_of_nil, elem_of_empty; done|].
      intros x. unfold forest_elems in *. rewrite map_app, concat_app, Hnil. cbn [map concat app].
      rewrite app_nil_r, listToTree_spec, Hm, Hv, HL2, Hp, elem_of_union. done.
    + eexists. split; [reflexivity|]. unfold rs_inv, ins_ok. cbn [pEntry rsFlags pForest rs_iBatch batch pending visible].
      rewrite (Eflag p eq_refl). split; [split; [done|right; split; [done|constructor]]|].
      split; [change (zlen (@nil Z)) with 0; lia|]. split; [done|]. split; [done|].
      split; [intros x; rewrite elem_of_nil, elem_of_empty; done|].
      intros x. by rewrite Hr, Hv, HL2, Hp, elem_of_union.
Qed.

Lemma rs_step n p s o : rs_inv n p s -> n < 2 ^ 40 ->
  let '(p', r) := rs_op_run p o in let '(s', r') := spec_op s o in r = r' /\ rs_inv (n + 1) p' s'.
Proof.
  intros Hinv Hn. destruct o as [v|b v]; cbn [rs_op_run spec_op].
  - destruct Hinv as (Hi & Hz & Hf & Hb & Hp & Hv). destruct (insert_ok p _ v Hi) as (p' & -> & [Hi1 Hi2] & E1 & E2).
    cbn [fst]. split; [done|]. split; [split; [done|by rewrite Hi1]|]. rewrite Hi1, zlen_snoc, E1, E2.
    cbn [pending visible batch]. split; [lia|]. split; [done|]. split; [done|]. split; [|done].
    intros x. rewrite elem_of_app, list_elem_of_singleton, elem_of_union, elem_of_singleton, Hp. tauto.
  - unfold sqlite3RowSetTest.
    assert (Hnb : exists p', new_batch p b [] = (p', []) /\
        rs_inv n p' (if b =? batch s then s else mkBatches (visible s ∪ pending s) ∅ b)).
    { destruct (Z.eqb_spec b (batch s)) as [Eb|Eb].
      - exists p. split; [|done]. destruct Hinv as (_ & _ & _ & Hb & _). unfold new_batch.
        by rewrite Hb, Eb, Z.eqb_refl.
      - by apply new_batch_ok. }
    destruct Hnb as (p' & -> & Hinv'). set (s' := if b =? batch s then _ else _) in *.
    pose proof Hinv' as (Hi & Hz & Hf & Hb & Hp & Hv). split.
    + f_equal. apply eq_true_iff_eq. by rewrite existsb_find, Hv, bool_decide_eq_true by done.
    + split; [done|]. split; [lia|]. done.
Qed.

(** C34. Membership by batches: on a new set, for any sequence of fewer than [2^40]
    insertions and tests, every test answers whether the value was inserted before
    the last change of batch number. *)
Theorem rowset_tests_batches (N : Z) (ops : list rs_op) (Hlen : zlen ops < 2 ^ 40) :
  exists p, sqlite3RowSetInit N [] = (Some p, []) /\
    answers rs_op_run p ops = answers spec_op (mkBatches ∅ ∅ 0) ops.
Proof.
  eexists. split; [reflexivity|]. set (p := mkRowSet _ _ _ _ _ _).
  assert (H0 : rs_inv 0 p (mkBatches ∅ ∅ 0)).
  { split; [split; [done|right; split; [done|constructor]]|]. split; [done|]. split; [constructor|]. split; [done|].
    unfold p, forest_elems. cbn [pEntry pForest map concat pending visible].
    split; intros x; rewrite elem_of_nil, elem_of_empty; done. }
  clearbody p. revert H0. generalize (mkBatches ∅ ∅ 0). intros s H0.
  assert (Hg : forall n p s, rs_inv n p s -> n + zlen ops < 2 ^ 40 -> answers rs_op_run p ops = answers spec_op s ops).
  2: { apply (Hg 0); [done|lia]. }
  clear. induction ops as [|o ops IH]; intros n p s Hinv Hn; [done|]. rewrite zlen_cons in Hn.
  pose proof (zlen_nonneg ops). cbn [answers]. pose proof (rs_step n p s o Hinv ltac:(lia)) as H1.
  destruct (rs_op_run p o) as [p' r]. destruct (spec_op s o) as [s' r']. destruct H1 as [-> H1].
  f_equal. apply (IH (n + 1)); [done|lia].
Qed.
Lemma rowset_tests_batches_witness : exists p, sqlite3RowSetInit 64 [] = (Some p, []) /\
  answers rs_op_run p [RsInsert 4; RsTest 1 4; RsInsert 9; RsTest 1 9; RsTest 2 9] =
  answers spec_op (mkBatches ∅ ∅ 0) [RsInsert 4; RsTest 1 4; RsInsert 9; RsTest 1 9; RsTest 2 9].
Proof. apply (rowset_tests_batches 64). by_compute. Defined.
