(* ===== verification/WalIndex.v ===== *)
(** The wal-index (wal.c): the shared-memory hash tables that map database pages to
    frames of the write-ahead log.

    A wal-index page holds an array of page numbers and a hash table of 8192 slots
    over it; page 0 is shorter because the wal-index header precedes its array.
    [walIndexAppend] adds the entry of one frame, [walCleanupHash] removes the
    entries after [mxFrame], [walFindFrame] finds the newest frame of a page in a
    reader's snapshot.  The theorems relate the tables to the plain list of page
    numbers, frame by frame. *)

From S2P Require Import Prelude.

(** ** Layout *)

Definition WALINDEX_HDR_SIZE : Z := 136.
Definition HASHTABLE_NPAGE : Z := 4096.
Definition HASHTABLE_HASH_1 : Z := 383.
Definition HASHTABLE_NSLOT : Z := HASHTABLE_NPAGE * 2.
Definition HASHTABLE_NPAGE_ONE : Z := HASHTABLE_NPAGE - WALINDEX_HDR_SIZE / 4.

(** One page of the wal-index: the part of [aPgno] after the header, and [aHash]. *)
Record WalHash := mkWalHash { aPgno : list Z; aHash : list Z }.

(** Entries of table [iHash], and one less than its first frame. *)
Definition table_size (iHash : Z) : Z :=
  if iHash =? 0 then HASHTABLE_NPAGE_ONE else HASHTABLE_NPAGE.
Definition iZero (iHash : Z) : Z :=
  if iHash =? 0 then 0 else HASHTABLE_NPAGE_ONE + (iHash - 1) * HASHTABLE_NPAGE.

(** A page that is mapped for the first time is zeroed by the VFS. *)
Definition zero_table (iHash : Z) : WalHash :=
  mkWalHash (replicate (Z.to_nat (table_size iHash)) 0)
            (replicate (Z.to_nat HASHTABLE_NSLOT) 0).

(** The mapped pages are a finite map from page index to [WalHash]. *)

(** ** Operations *)

Definition walHash (iPage : Z) : Z :=
  Z.land (u32 (iPage * HASHTABLE_HASH_1)) (HASHTABLE_NSLOT - 1).
Definition walNextHash (iPriorHash : Z) : Z := Z.land (iPriorHash + 1) (HASHTABLE_NSLOT - 1).

(** Frame numbers are [u32]; the quotient is of unsigned values. *)
Definition walFramePage (iFrame : Z) : Z :=
  u32 (iFrame + HASHTABLE_NPAGE - HASHTABLE_NPAGE_ONE - 1) / HASHTABLE_NPAGE.

Section index.
(** The result code of mapping a page of the wal-index ([sqlite3OsShmMap]). *)
Context (map_rc : Z -> Z).

Definition walHashGet (wi : gmap Z WalHash) (iHash : Z) : Z * WalHash :=
  (map_rc iHash, default (zero_table iHash) (wi !! iHash)).

Definition walFramePgno (wi : gmap Z WalHash) (iFrame : Z) : Z :=
  let iHash := walFramePage iFrame in
  let '(_, t) := walHashGet wi iHash in
  if iHash =? 0 then (aPgno t).[iFrame - 1]
  else (aPgno t).[(iFrame - 1 - HASHTABLE_NPAGE_ONE) mod HASHTABLE_NPAGE].

(** Zero the slots above [iLimit] and the page numbers from [iLimit] on. *)
Definition cleanup_table (t : WalHash) (iLimit : Z) : WalHash :=
  mkWalHash
    (take (Z.to_nat iLimit) (aPgno t) ++
       replicate (length (aPgno t) - Z.to_nat iLimit) 0)
    (map (fun h => if iLimit <? h then 0 else h) (aHash t)).
Definition walCleanupHash (mxFrame : Z) (wi : gmap Z WalHash) : gmap Z WalHash :=
  if mxFrame =? 0 then wi else
  let iHash := walFramePage mxFrame in
  let '(rc, t) := walHashGet wi iHash in
  if truthy rc then wi else
  <[iHash := cleanup_table t (mxFrame - iZero iHash)]> wi.

(** The first free slot from [iKey] on; [None] after more than [nCollide]
    collisions. *)
Fixpoint find_slot (nCollide : nat) (aHash : list Z) (iKey : Z) : option Z :=
  if aHash.[iKey] =? 0 then Some iKey else
  match nCollide with
  | O => None
  | S n => find_slot n aHash (walNextHash iKey)
  end.

Definition walIndexAppend (mxFrame : Z) (wi : gmap Z WalHash) (iFrame iPage : Z) : Z * gmap Z WalHash :=
  let iHash := walFramePage iFrame in
  let '(rc, t) := walHashGet wi iHash in
  if truthy rc then (rc, wi) else
  let idx := iFrame - iZero iHash in
  let wi := if idx =? 1 then <[iHash := zero_table iHash]> wi else wi in
  let '(_, t) := walHashGet wi iHash in
  let wi := if truthy ((aPgno t).[idx - 1]) then walCleanupHash mxFrame wi else wi in
  let '(_, t) := walHashGet wi iHash in
  match find_slot (Z.to_nat idx) (aHash t) (walHash iPage) with
  | None => (SQLITE_CORRUPT, wi)
  | Some iKey =>
      (SQLITE_OK,
       <[iHash := mkWalHash ((aPgno t).[Z.land (idx - 1) (HASHTABLE_NPAGE - 1) <- iPage])
                            ((aHash t).[iKey <- u16 idx])]> wi)
  end.

(** The inner loop of [walFindFrame]: the collision chain of [pgno] in one table.
    The match found last wins; [None] when the chain does not end. *)
Fixpoint find_chain (nCollide : nat) (t : WalHash) (zero iLast minFrame pgno iKey iRead : Z)
    : option Z :=
  let iH := (aHash t).[iKey] in
  if iH =? 0 then Some iRead else
  let iFrame := iH + zero in
  let iRead :=
    if (iFrame <=? iLast) && (minFrame <=? iFrame) &&
       ((aPgno t).[Z.land (iH - 1) (HASHTABLE_NPAGE - 1)] =? pgno)
    then iFrame else iRead in
  match nCollide with
  | O => None
  | S n => find_chain n t zero iLast minFrame pgno (walNextHash iKey) iRead
  end.

(** The outer loop, from table [iHash] down over [n] tables. *)
Fixpoint find_tables (n : nat) (wi : gmap Z WalHash) (iHash iLast minFrame pgno : Z) : Z * Z :=
  match n with
  | O => (SQLITE_OK, 0)
  | S n' =>
      let '(rc, t) := walHashGet wi iHash in
      if truthy rc then (rc, 0) else
      match find_chain (Z.to_nat HASHTABLE_NSLOT) t (iZero iHash) iLast minFrame pgno
              (walHash pgno) 0 with
      | None => (SQLITE_CORRUPT, 0)
      | Some iRead => if truthy iRead then (SQLITE_OK, iRead)
                      else find_tables n' wi (iHash - 1) iLast minFrame pgno
      end
  end.

(** [mxFrame], [readLock], [bShmUnreliable] and [minFrame] are those of the
    connection; the result code and [*piRead]. *)
Definition walFindFrame (mxFrame readLock minFrame : Z) (bShmUnreliable : bool)
    (wi : gmap Z WalHash) (pgno : Z) : Z * Z :=
  let iLast := mxFrame in
  if (iLast =? 0) || ((readLock =? 0) && negb bShmUnreliable) then (SQLITE_OK, 0) else
  let iMinHash := walFramePage minFrame in
  let iHash := walFramePage iLast in
  find_tables (Z.to_nat (iHash - iMinHash + 1)) wi iHash iLast minFrame pgno.

(** ** One hash table *)

(** The slot [d] steps after [h]. *)
Definition slot (h d : Z) : Z := (h + d) mod HASHTABLE_NSLOT.

Lemma land_nslot x : Z.land x (HASHTABLE_NSLOT - 1) = x mod HASHTABLE_NSLOT.
Proof. change (HASHTABLE_NSLOT - 1) with (Z.ones 13). by rewrite Z.land_ones by lia. Qed.
Lemma land_npage x : 0 <= x < HASHTABLE_NPAGE -> Z.land x (HASHTABLE_NPAGE - 1) = x.
Proof.
  change (HASHTABLE_NPAGE - 1) with (Z.ones 12). change HASHTABLE_NPAGE with (2 ^ 12).
  intros. rewrite Z.land_ones, Z.mod_small by lia. done.
Qed.
Lemma slot_range h d : 0 <= slot h d < HASHTABLE_NSLOT.
Proof. apply Z.mod_pos_bound. by vm_compute. Qed.
Lemma slot_0 h : 0 <= h < HASHTABLE_NSLOT -> slot h 0 = h.
Proof. intros. unfold slot. rewrite Z.add_0_r. by apply Z.mod_small. Qed.
Lemma walHash_range p : 0 <= walHash p < HASHTABLE_NSLOT.
Proof. unfold walHash. rewrite land_nslot. apply Z.mod_pos_bound. by vm_compute. Qed.
Lemma next_slot h d : walNextHash (slot h d) = slot h (d + 1).
Proof.
  unfold walNextHash, slot. rewrite land_nslot, Z.add_mod_idemp_l by (by vm_compute).
  by rewrite Z.add_assoc.
Qed.
Lemma slot_inj h d d' : 0 <= d < HASHTABLE_NSLOT -> 0 <= d' < HASHTABLE_NSLOT ->
  slot h d = slot h d' -> d = d'.
Proof.
  clear map_rc.
  unfold slot, HASHTABLE_NSLOT, HASHTABLE_NPAGE. cbn [Z.mul Pos.mul].
  intros. Z.div_mod_to_equations. lia.
Qed.
#[local] Opaque HASHTABLE_NSLOT.

(** The table holds exactly the entries of [P]: slot values are frame positions,
    no position occurs twice, and the position of each entry is reached from the
    hash of its page over positions that were filled before it. *)
Record table_ok (size : Z) (t : WalHash) (P : list Z) : Prop := {
  to_pgno : aPgno t = P ++ replicate (Z.to_nat (size - zlen P)) 0;
  to_size : zlen P <= size <= HASHTABLE_NPAGE;
  to_len : zlen (aHash t) = HASHTABLE_NSLOT;
  to_range : forall s, 0 <= s < HASHTABLE_NSLOT -> 0 <= (aHash t).[s] <= zlen P;
  to_inj : forall s s', 0 <= s < HASHTABLE_NSLOT -> 0 <= s' < HASHTABLE_NSLOT ->
    (aHash t).[s] = (aHash t).[s'] -> (aHash t).[s] <> 0 -> s = s';
  to_path : forall j, 1 <= j <= zlen P -> exists d, 0 <= d < HASHTABLE_NSLOT /\
    (aHash t).[slot (walHash (P.[j - 1])) d] = j /\
    forall d', 0 <= d' < d -> 0 < (aHash t).[slot (walHash (P.[j - 1])) d'] < j }.

Lemma nslot_npage : HASHTABLE_NPAGE < HASHTABLE_NSLOT.
Proof. by vm_compute. Qed.

(** There is a free slot within [zlen P] steps of any slot. *)
Lemma free_slot size t P h : table_ok size t P -> exists D, 0 <= D <= zlen P /\
  (aHash t).[slot h D] = 0 /\ forall d, 0 <= d < D -> 0 < (aHash t).[slot h d].
Proof.
  intros H. pose proof (to_size _ _ _ H). pose proof nslot_npage. pose proof (zlen_nonneg P).
  destruct (first_distance (fun d => (aHash t).[slot h d] =? 0) (zlen P)) as (D & HD & E & Hb).
  - destruct (decide (Exists (fun d => (aHash t).[slot h d] = 0) (seqZ 0 (zlen P + 1)))) as [He|He].
    { apply Exists_exists in He as (d & Hin & E). apply elem_of_seqZ in Hin.
      exists d. split; [lia|]. by apply Z.eqb_eq. }
    exfalso. apply not_Exists_Forall in He; [|solve_decision]. rewrite Forall_forall in He.
    assert (Hnd : NoDup ((fun d => (aHash t).[slot h d]) <$> seqZ 0 (zlen P + 1))).
    { apply NoDup_fmap_2_strong; [|apply NoDup_seqZ]. intros d d' Hd Hd' E. cbn in E.
      pose proof (He d Hd). apply elem_of_seqZ in Hd, Hd'.
      apply (slot_inj h); [lia|lia|].
      eapply to_inj; [exact H|apply slot_range|apply slot_range|done|done]. }
    apply NoDup_submseteq with (k := seqZ 1 (zlen P)) in Hnd.
    + apply submseteq_length in Hnd. rewrite length_fmap, !length_seqZ in Hnd. lia.
    + intros x Hx. apply list_elem_of_fmap in Hx as (d & -> & Hd). pose proof (He d Hd).
      pose proof (to_range _ _ _ H (slot h d) (slot_range h d)). apply elem_of_seqZ. cbn in *. lia.
  - apply Z.eqb_eq in E. exists D. split; [done|]. split; [done|]. intros d Hd.
    specialize (Hb d Hd). apply Z.eqb_neq in Hb.
    pose proof (to_range _ _ _ H (slot h d) (slot_range h d)). lia.
Qed.

Lemma find_slot_spec (hash : list Z) h D n d0 :
  hash.[slot h D] = 0 -> (forall d, 0 <= d < D -> 0 < hash.[slot h d]) ->
  0 <= d0 <= D -> D - d0 <= Z.of_nat n -> find_slot n hash (slot h d0) = Some (slot h D).
Proof.
  intros HD Hb. revert d0. induction n as [|n IH]; intros d0 H0 Hn; cbn [find_slot].
  - replace d0 with D by lia. by rewrite HD.
  - destruct (Z.eq_dec d0 D) as [->|Hne]; [by rewrite HD|].
    specialize (Hb d0 ltac:(lia)). rewrite (proj2 (Z.eqb_neq _ _)) by lia.
    rewrite next_slot. apply IH; lia.
Qed.

(** *** Preservation *)

Lemma table_ok_zero iHash : table_ok (table_size iHash) (zero_table iHash) [].
Proof.
  assert (Hz : forall s, (replicate (Z.to_nat HASHTABLE_NSLOT) 0).[s] = 0 \/ HASHTABLE_NSLOT <= s \/ s < 0).
  { intros s. unfold zget, zlookup. destruct (Z.leb_spec 0 s); [|lia].
    destruct (decide (s < HASHTABLE_NSLOT)); [left|lia].
    rewrite lookup_replicate_2 by lia. done. }
  split; cbn [aPgno aHash zero_table].
  - change (zlen (@nil Z)) with 0. by rewrite Z.sub_0_r.
  - change (zlen (@nil Z)) with 0. unfold table_size. destruct (iHash =? 0); by vm_compute.
  - unfold zlen. rewrite length_replicate. by vm_compute.
  - intros s Hs. destruct (Hz s); [|lia]. change (zlen (@nil Z)) with 0. lia.
  - intros s s' Hs Hs' _ Hne. destruct (Hz s); lia.
  - change (zlen (@nil Z)) with 0. lia.
Qed.

Lemma pgno_lookup size t P i : table_ok size t P -> 0 <= i < size ->
  (aPgno t).[i] = if i <? zlen P then P.[i] else 0.
Proof.
  intros H Hi. rewrite (to_pgno _ _ _ H). destruct (Z.ltb_spec i (zlen P)).
  - by rewrite zget_app_l.
  - rewrite zget_app_r by done. unfold zget, zlookup. rewrite (proj2 (Z.leb_le 0 _)) by lia.
    rewrite lookup_replicate_2 by lia. done.
Qed.

Lemma table_ok_insert size t P p D :
  table_ok size t P -> zlen P < size -> let h := walHash p in
  0 <= D <= zlen P -> (aHash t).[slot h D] = 0 -> (forall d, 0 <= d < D -> 0 < (aHash t).[slot h d]) ->
  table_ok size (mkWalHash ((aPgno t).[zlen P <- p]) ((aHash t).[slot h D <- zlen P + 1])) (P ++ [p]).
Proof.
  cbn zeta. intros H Hlt HD HD0 Hb. pose proof (zlen_nonneg P). pose proof nslot_npage.
  pose proof (to_size _ _ _ H) as Hsz. pose proof (to_len _ _ _ H) as Hlen.
  set (h := walHash p) in *. pose proof (slot_range h D) as HsD.
  assert (Hnew : (aHash t).[slot h D <- zlen P + 1].[slot h D] = zlen P + 1)
    by (apply zget_zput_eq; lia).
  assert (Hold : forall s, s <> slot h D -> (aHash t).[slot h D <- zlen P + 1].[s] = (aHash t).[s])
    by (intros; apply zget_zput_ne; congruence).
  split; cbn [aPgno aHash].
  - rewrite (to_pgno _ _ _ H), zlen_snoc. rewrite zput_app_r, Z.sub_diag by lia.
    replace (Z.to_nat (size - zlen P)) with (S (Z.to_nat (size - (zlen P + 1)))) by lia.
    rewrite <- app_assoc. done.
  - rewrite zlen_snoc. lia.
  - by rewrite zlen_zput.
  - intros s Hs. rewrite zlen_snoc. destruct (Z.eq_dec s (slot h D)) as [->|Hne]; [rewrite Hnew; lia|].
    rewrite Hold by done. pose proof (to_range _ _ _ H s Hs). lia.
  - intros s s' Hs Hs' E Hne.
    pose proof (to_range _ _ _ H s Hs). pose proof (to_range _ _ _ H s' Hs').
    destruct (Z.eq_dec s (slot h D)) as [->|N1], (Z.eq_dec s' (slot h D)) as [->|N2]; [done| | |].
    + rewrite Hnew, Hold in E by done. lia.
    + rewrite Hnew, Hold in E by done. lia.
    + rewrite !Hold in E by done. rewrite Hold in Hne by done. by eapply to_inj.
  - intros j. rewrite zlen_snoc. intros Hj. destruct (Z.eq_dec j (zlen P + 1)) as [->|Hjne].
    + replace (zlen P + 1 - 1) with (zlen P) by lia. rewrite zget_app_len. fold h.
      exists D. split; [lia|]. split; [done|]. intros d Hd. rewrite Hold.
      * pose proof (to_range _ _ _ H (slot h d) (slot_range h d)). specialize (Hb d Hd). lia.
      * intros E. apply slot_inj in E; lia.
    + rewrite zget_app_l by lia. destruct (to_path _ _ _ H j ltac:(lia)) as (d & Hd & Ed & Hbd).
      exists d. split; [done|]. rewrite Hold by (intros E; rewrite E in Ed; lia).
      split; [done|]. intros d' Hd'. specialize (Hbd d' Hd').
      rewrite Hold by (intros E; rewrite E in Hbd; lia). lia.
Qed.

Lemma zget_map0 (f : Z -> Z) (l : list Z) s : 0 <= s < zlen l -> (map f l).[s] = f (l.[s]).
Proof.
  intros Hs. unfold zget, zlookup. rewrite (proj2 (Z.leb_le 0 s)) by lia.
  destruct (lookup_lt_is_Some_2 l (Z.to_nat s)) as [x E]; [unfold zlen in Hs; lia|].
  change (map f l) with (f <$> l). by rewrite list_lookup_fmap, E.
Qed.
Lemma zget_take (l : list Z) n i : 0 <= i < Z.of_nat n -> (take n l).[i] = l.[i].
Proof.
  intros Hi. unfold zget, zlookup. rewrite (proj2 (Z.leb_le 0 i)) by lia.
  rewrite lookup_take_lt by lia. done.
Qed.

Lemma table_ok_cleanup size t P L : table_ok size t P -> 0 <= L <= zlen P ->
  table_ok size (cleanup_table t L) (take (Z.to_nat L) P).
Proof.
  intros H HL. pose proof (to_len _ _ _ H) as Hlen. pose proof (to_size _ _ _ H).
  assert (Hz : zlen (take (Z.to_nat L) P) = L) by (unfold zlen in *; rewrite length_take; lia).
  assert (Hg : forall s, 0 <= s < HASHTABLE_NSLOT ->
      (aHash (cleanup_table t L)).[s] = if L <? (aHash t).[s] then 0 else (aHash t).[s]).
  { intros s Hs. cbn [cleanup_table aHash]. rewrite zget_map0 by lia. done. }
  split.
  - cbn [cleanup_table aPgno]. rewrite Hz, (to_pgno _ _ _ H).
    rewrite take_app_le by (unfold zlen in *; lia). f_equal.
    rewrite length_app, length_replicate. f_equal. unfold zlen in *. lia.
  - rewrite Hz. lia.
  - cbn [cleanup_table aHash]. unfold zlen in *. by rewrite length_map.
  - intros s Hs. rewrite Hg, Hz by done. pose proof (to_range _ _ _ H s Hs). zbool; lia.
  - intros s s' Hs Hs'. rewrite !Hg by done. intros E Hne.
    apply (to_inj _ _ _ H); [done|done| |]; revert E Hne; zbool; lia.
  - rewrite Hz. intros j Hj. destruct (to_path _ _ _ H j ltac:(lia)) as (d & Hd & Ed & Hbd).
    rewrite zget_take by lia. exists d. split; [done|].
    rewrite Hg, Ed by apply slot_range. rewrite (proj2 (Z.ltb_ge L j)) by lia. split; [done|].
    intros d' Hd'. specialize (Hbd d' Hd'). rewrite Hg by apply slot_range.
    rewrite (proj2 (Z.ltb_ge _ _)) by lia. done.
Qed.

(** *** Searching one table *)

(** [r] is the newest frame of [pgno] between [lo] and [hi] in the log whose frame
    [f] holds page [F.[f-1]], or 0 if there is none. *)
Definition newest (F : list Z) (lo hi pgno r : Z) : Prop :=
  (r = 0 /\ forall f, lo <= f <= hi -> F.[f - 1] <> pgno) \/
  (lo <= r <= hi /\ r <> 0 /\ F.[r - 1] = pgno /\ forall f, r < f <= hi -> F.[f - 1] <> pgno).

Lemma newest_unique F lo hi pgno r r' : newest F lo hi pgno r -> newest F lo hi pgno r' -> r = r'.
Proof.
  intros [[-> H]|(H1 & H2 & H3 & H4)] [[-> H']|(H1' & H2' & H3' & H4')]; [done| | |].
  - destruct (H r'); [lia|done].
  - destruct (H' r); [lia|done].
  - destruct (Z.lt_trichotomy r r') as [Hl|[->|Hl]]; [|done|].
    + destruct (H4 r'); [lia|done].
    + destruct (H4' r); [lia|done].
Qed.

(** The entry of slot value [j] matches the reader's conditions. *)
Definition hit (P : list Z) (zero iLast minFrame pgno j : Z) : bool :=
  (j + zero <=? iLast) && (minFrame <=? j + zero) && (P.[j - 1] =? pgno).

Section chain.
Context (size zero iLast minFrame pgno : Z) (t : WalHash) (P : list Z) (Hok : table_ok size t P).
Context (D : Z) (HD : 0 <= D <= zlen P).
Let h := walHash pgno.
Context (HD0 : (aHash t).[slot h D] = 0).
Context (Hb : forall d, 0 <= d < D -> 0 < (aHash t).[slot h d]).

(** The chain visits distances [d0, ..., D-1] and keeps the last hit. *)
Lemma find_chain_spec n d0 acc : 0 <= d0 <= D -> D - d0 <= Z.of_nat n ->
  exists r, find_chain n t zero iLast minFrame pgno (slot h d0) acc = Some r /\
  ((r = acc /\ forall d, d0 <= d < D -> hit P zero iLast minFrame pgno ((aHash t).[slot h d]) = false) \/
   (exists d, d0 <= d < D /\ r = (aHash t).[slot h d] + zero /\
      hit P zero iLast minFrame pgno ((aHash t).[slot h d]) = true /\
      forall d', d < d' < D -> hit P zero iLast minFrame pgno ((aHash t).[slot h d']) = false)).
Proof.
  revert d0 acc. induction n as [|n IH]; intros d0 acc H0 Hn; cbn [find_chain].
  - replace d0 with D by lia. rewrite HD0. exists acc. split; [done|]. left. split; [done|lia].
  - destruct (Z.eq_dec d0 D) as [->|Hne].
    { rewrite HD0. exists acc. split; [done|]. left. split; [done|lia]. }
    pose proof (Hb d0 ltac:(lia)) as Hp. rewrite (proj2 (Z.eqb_neq _ _)) by lia.
    set (j := (aHash t).[slot h d0]) in *.
    pose proof (to_range _ _ _ Hok (slot h d0) (slot_range h d0)) as Hr. fold j in Hr.
    pose proof (to_size _ _ _ Hok).
    assert (Hpg : (aPgno t).[Z.land (j - 1) (HASHTABLE_NPAGE - 1)] = P.[j - 1]).
    { rewrite land_npage by lia. rewrite (pgno_lookup _ _ _ _ Hok) by lia.
      by rewrite (proj2 (Z.ltb_lt _ _)) by lia. }
    rewrite Hpg. fold (hit P zero iLast minFrame pgno j). rewrite next_slot.
    set (acc' := if hit P zero iLast minFrame pgno j then j + zero else acc).
    destruct (IH (d0 + 1) acc') as (r & Er & Hcase); [lia|lia|]. exists r. split; [exact Er|].
    destruct Hcase as [[-> Hno]|(d & Hd & -> & Hh & Hno)].
    + unfold acc'. destruct (hit P zero iLast minFrame pgno j) eqn:Eh.
      * right. exists d0. split; [lia|]. split; [done|]. split; [done|]. intros. apply Hno. lia.
      * left. split; [done|]. intros d Hd. destruct (Z.eq_dec d d0) as [->|]; [done|]. apply Hno. lia.
    + right. exists d. split; [lia|]. done.
Qed.

(** Every entry of the page is on the chain, and later entries come later. *)
Lemma entry_on_chain j : 1 <= j <= zlen P -> P.[j - 1] = pgno ->
  exists d, 0 <= d < D /\ (aHash t).[slot h d] = j /\
    forall d', 0 <= d' < d -> (aHash t).[slot h d'] < j.
Proof.
  intros Hj Ep. destruct (to_path _ _ _ Hok j Hj) as (d & Hd & Ed & Hbd). rewrite Ep in Ed, Hbd.
  fold h in Ed, Hbd. exists d. split; [|split; [done|intros; apply Hbd; lia]].
  destruct (Z.lt_trichotomy d D) as [|[->|]]; [lia|lia|].
  specialize (Hbd D ltac:(lia)). lia.
Qed.

Lemma find_chain_newest n : D <= Z.of_nat n ->
  exists r, find_chain n t zero iLast minFrame pgno h 0 = Some r /\
  ((r = 0 /\ forall j, 1 <= j <= zlen P -> minFrame <= j + zero <= iLast -> P.[j - 1] <> pgno) \/
   (exists j, 1 <= j <= zlen P /\ r = j + zero /\ minFrame <= j + zero <= iLast /\ P.[j - 1] = pgno /\
      forall j', j < j' <= zlen P -> j' + zero <= iLast -> P.[j' - 1] <> pgno)).
Proof.
  intros Hn. pose proof nslot_npage. pose proof (to_size _ _ _ Hok).
  destruct (find_chain_spec n 0 0) as (r & Er & Hcase); [lia|lia|].
  rewrite slot_0 in Er by apply walHash_range. exists r. split; [exact Er|].
  assert (Hhit : forall j, hit P zero iLast minFrame pgno j = true <->
            minFrame <= j + zero <= iLast /\ P.[j - 1] = pgno).
  { intros j. unfold hit. rewrite !andb_true_iff, !Z.leb_le, Z.eqb_eq. lia. }
  destruct Hcase as [[-> Hno]|(d & Hd & -> & Hh & Hno)].
  - left. split; [done|]. intros j Hj Hf Ep. destruct (entry_on_chain j Hj Ep) as (d & Hd & Ed & _).
    specialize (Hno d ltac:(lia)). rewrite Ed in Hno.
    by rewrite (proj2 (Hhit j)) in Hno.
  - right. set (j := (aHash t).[slot h d]) in *.
    pose proof (to_range _ _ _ Hok (slot h d) (slot_range h d)) as Hr. fold j in Hr.
    pose proof (Hb d ltac:(lia)) as Hp. fold j in Hp.
    apply Hhit in Hh as [Hf Ep]. exists j. split; [lia|]. split; [done|]. split; [done|].
    split; [done|]. intros j' Hj' Hf' Ep'.
    destruct (entry_on_chain j' ltac:(lia) Ep') as (d' & Hd' & Ed' & Hbd').
    destruct (Z.lt_trichotomy d d') as [Hlt|[->|Hlt]].
    + specialize (Hno d' ltac:(lia)). rewrite Ed' in Hno.
      rewrite (proj2 (Hhit j')) in Hno; [done|]. split; [lia|done].
    + unfold j in Hj'. lia.
    + (* the later entry would be before the earlier one on its path *)
      destruct (entry_on_chain j ltac:(lia) Ep) as (e & He & Ee & Hbe).
      assert (e = d) as ->.
      { apply (slot_inj h); [lia|lia|]. eapply (to_inj _ _ _ Hok); [apply slot_range|apply slot_range| |].
        - rewrite Ee. done.
        - rewrite Ee. lia. }
      specialize (Hbe d' ltac:(lia)). lia.
Qed.
End chain.

(** ** The whole wal-index *)

(** The page numbers of the frames of table [t]. *)
Definition chunk (t : Z) (F : list Z) : list Z := slice F (iZero t) (table_size t).

(** The tables in use hold the entries of [F]. *)
Definition wi_ok (wi : gmap Z WalHash) (F : list Z) : Prop :=
  forall t, 0 <= t -> iZero t < zlen F -> table_ok (table_size t) (snd (walHashGet wi t)) (chunk t F).

(** Frame numbers below this never wrap around. *)
Definition MAX_FRAMES : Z := 2 ^ 31.

Lemma table_size_range t : 0 < table_size t <= HASHTABLE_NPAGE.
Proof. unfold table_size. destruct (t =? 0); by vm_compute. Qed.
Lemma iZero_0 : iZero 0 = 0.
Proof. done. Qed.
Lemma iZero_succ t : 0 <= t -> iZero (t + 1) = iZero t + table_size t.
Proof.
  intros Ht. unfold iZero, table_size, HASHTABLE_NPAGE_ONE, HASHTABLE_NPAGE, WALINDEX_HDR_SIZE.
  destruct (Z.eqb_spec t 0) as [E|E], (Z.eqb_spec (t + 1) 0); try lia; by rewrite E.
Qed.
Lemma iZero_nonneg t : 0 <= t -> 0 <= iZero t.
Proof.
  intros Ht. unfold iZero, HASHTABLE_NPAGE_ONE, HASHTABLE_NPAGE, WALINDEX_HDR_SIZE.
  change (136 / 4) with 34. zbool; lia.
Qed.
Lemma walFramePage_spec f : 1 <= f <= MAX_FRAMES ->
  let t := walFramePage f in 0 <= t /\ iZero t < f <= iZero t + table_size t.
Proof.
  clear map_rc.
  unfold MAX_FRAMES, walFramePage, iZero, table_size, u32, HASHTABLE_NPAGE_ONE, HASHTABLE_NPAGE,
    WALINDEX_HDR_SIZE. change (136 / 4) with 34. cbn zeta. intros Hf.
  rewrite Z.mod_small by lia. zbool; Z.div_mod_to_equations; lia.
Qed.
Lemma iZero_lt t t' : 0 <= t < t' -> iZero t + table_size t <= iZero t'.
Proof.
  intros H. unfold iZero, table_size, HASHTABLE_NPAGE_ONE, HASHTABLE_NPAGE, WALINDEX_HDR_SIZE.
  change (136 / 4) with 34. zbool; lia.
Qed.
(** The table of a frame is determined by its range. *)
Lemma walFramePage_unique f t : 1 <= f <= MAX_FRAMES -> 0 <= t ->
  iZero t < f <= iZero t + table_size t -> walFramePage f = t.
Proof.
  intros Hf Ht H. destruct (walFramePage_spec f Hf) as [H0 H1]. cbn zeta in *.
  destruct (Z.lt_trichotomy (walFramePage f) t) as [Hl|[->|Hl]]; [|done|].
  - pose proof (iZero_lt (walFramePage f) t ltac:(lia)). lia.
  - pose proof (iZero_lt t (walFramePage f) ltac:(lia)). lia.
Qed.

Lemma zlen_chunk t F : 0 <= t -> iZero t <= zlen F ->
  zlen (chunk t F) = Z.min (table_size t) (zlen F - iZero t).
Proof.
  intros Ht Hz. pose proof (iZero_nonneg t Ht). pose proof (table_size_range t).
  unfold chunk, slice, zlen in *. rewrite length_take, length_drop. lia.
Qed.
Lemma chunk_get t F j : 0 <= t -> 1 <= j <= table_size t -> (chunk t F).[j - 1] = F.[iZero t + j - 1].
Proof.
  intros Ht Hj. pose proof (iZero_nonneg t Ht). unfold chunk, slice.
  rewrite zget_take by lia. unfold zget, zlookup.
  rewrite (proj2 (Z.leb_le 0 _)), (proj2 (Z.leb_le 0 (iZero t + j - 1))) by lia.
  rewrite lookup_drop. do 2 f_equal. lia.
Qed.

Lemma find_newest (wi : gmap Z WalHash) (F : list Z) (mxFrame readLock minFrame pgno : Z)
  (bShmUnreliable : bool)
  (Hmap : forall t, map_rc t = SQLITE_OK) (Hok : wi_ok wi F)
  (Hmx : 1 <= mxFrame <= zlen F) (Hlen : zlen F <= MAX_FRAMES)
  (Hlock : readLock <> 0) (Hmin : 1 <= minFrame <= mxFrame) :
  exists r, walFindFrame mxFrame readLock minFrame bShmUnreliable wi pgno = (SQLITE_OK, r) /\
    newest F minFrame mxFrame pgno r.
Proof.
  unfold walFindFrame. rewrite (proj2 (Z.eqb_neq mxFrame 0)), (proj2 (Z.eqb_neq readLock 0)) by lia.
  cbn [orb andb].
  destruct (walFramePage_spec mxFrame ltac:(lia)) as [Ht1 Hr1]. cbn zeta in *.
  destruct (walFramePage_spec minFrame ltac:(lia)) as [Ht0 Hr0]. cbn zeta in *.
  set (tmin := walFramePage minFrame) in *. set (t1 := walFramePage mxFrame) in *.
  (* generalise: nothing above table [t] matches *)
  assert (Hgen : forall n t, tmin - 1 <= t <= t1 -> Z.of_nat n = t - tmin + 1 ->
    (forall f, minFrame <= f <= mxFrame -> iZero (t + 1) < f -> F.[f - 1] <> pgno) ->
    exists r, find_tables n wi t mxFrame minFrame pgno = (SQLITE_OK, r) /\ newest F minFrame mxFrame pgno r).
  { induction n as [|n IH]; intros t Ht Hn Habove; cbn [find_tables].
    - exists 0. split; [done|]. left. split; [done|]. intros f Hf. apply Habove; [done|].
      replace (t + 1) with tmin by lia. lia.
    - unfold walHashGet at 1. rewrite Hmap. cbn [truthy Z.eqb negb SQLITE_OK].
      assert (Hz : iZero t < mxFrame).
      { destruct (Z.eq_dec t t1) as [->|]; [lia|]. pose proof (iZero_lt t t1 ltac:(lia)).
        pose proof (table_size_range t). lia. }
      pose proof (Hok t ltac:(lia) ltac:(lia)) as Htok. cbn [snd walHashGet] in Htok.
      set (tb := default (zero_table t) (wi !! t)) in *.
      destruct (free_slot _ _ _ (walHash pgno) Htok) as (D & HD & HD0 & Hb).
      pose proof (to_size _ _ _ Htok) as Hsz. pose proof nslot_npage.
      pose proof (iZero_succ t ltac:(lia)) as Hsucc. pose proof (iZero_nonneg t ltac:(lia)).
      destruct (find_chain_newest (table_size t) (iZero t) mxFrame minFrame pgno tb (chunk t F) Htok D HD HD0 Hb
                  (Z.to_nat HASHTABLE_NSLOT) ltac:(lia)) as (r & Er & Hcase).
      rewrite Er. rewrite zlen_chunk in Hcase by lia.
      destruct Hcase as [[-> Hno]|(j & Hj & -> & Hf & Ep & Hno)].
      + cbn [truthy Z.eqb negb]. apply IH; [lia|lia|]. replace (t - 1 + 1) with t by lia.
        intros f Hf Hzf. destruct (Z.le_gt_cases f (iZero (t + 1))) as [Hle|Hgt]; [|by apply Habove].
        specialize (Hno (f - iZero t) ltac:(lia) ltac:(lia)). rewrite chunk_get in Hno by lia.
        by replace (iZero t + (f - iZero t) - 1) with (f - 1) in Hno by lia.
      + unfold truthy. rewrite (proj2 (Z.eqb_neq (j + iZero t) 0)) by lia. cbn [negb].
        exists (j + iZero t). split; [done|]. right. split; [lia|]. split; [lia|].
        rewrite chunk_get in Ep by lia. replace (j + iZero t - 1) with (iZero t + j - 1) by lia.
        split; [done|]. intros f Hff.
        destruct (Z.le_gt_cases f (iZero (t + 1))) as [Hle|Hgt]; [|apply Habove; lia].
        specialize (Hno (f - iZero t) ltac:(lia) ltac:(lia)). rewrite chunk_get in Hno by lia.
        by replace (iZero t + (f - iZero t) - 1) with (f - 1) in Hno by lia. }
  assert (tmin <= t1).
  { destruct (Z.le_gt_cases tmin t1) as [|Hgt]; [done|]. pose proof (iZero_lt t1 tmin ltac:(lia)). lia. }
  apply Hgen; [lia|lia|]. intros f Hf Hz. rewrite iZero_succ in Hz by lia. lia.
Qed.

(** *** Updates *)

Lemma get_insert_eq (wi : gmap Z WalHash) t (x : WalHash) : snd (walHashGet (<[t := x]> wi) t) = x.
Proof. unfold walHashGet. cbn [snd]. by rewrite lookup_insert_eq. Qed.
Lemma get_insert_ne (wi : gmap Z WalHash) t t' (x : WalHash) : t <> t' ->
  snd (walHashGet (<[t := x]> wi) t') = snd (walHashGet wi t').
Proof. intros. unfold walHashGet. cbn [snd]. by rewrite lookup_insert_ne. Qed.

Lemma chunk_ext t F G : 0 <= t -> (forall i, iZero t <= i < iZero t + table_size t ->
  zlookup F i = zlookup G i) -> chunk t F = chunk t G.
Proof.
  intros Ht H. apply list_eq. intros i. unfold chunk, slice. pose proof (iZero_nonneg t Ht).
  destruct (decide (i < Z.to_nat (table_size t))%nat) as [Hi|Hi].
  - rewrite !lookup_take_lt, !lookup_drop by done.
    specialize (H (iZero t + Z.of_nat i) ltac:(lia)). unfold zlookup in H.
    rewrite (proj2 (Z.leb_le 0 _)) in H by lia. rewrite Z2Nat.inj_add, Nat2Z.id in H by lia. exact H.
  - rewrite !lookup_take_ge by lia. done.
Qed.

(** The log cut to its first [m] frames, with one more frame. *)
Lemma zlookup_take {A} (F : list A) m i : 0 <= i < m -> zlookup (take (Z.to_nat m) F) i = zlookup F i.
Proof.
  intros Hi. unfold zlookup. rewrite (proj2 (Z.leb_le 0 i)) by lia. apply lookup_take_lt. lia.
Qed.
Lemma chunk_last t F m : 0 <= t -> iZero t <= m <= iZero t + table_size t -> m <= zlen F ->
  chunk t (take (Z.to_nat m) F) = take (Z.to_nat (m - iZero t)) (chunk t F).
Proof.
  intros Ht Hm Hl. pose proof (iZero_nonneg t Ht). unfold chunk, slice.
  rewrite take_take.
  apply list_eq. intros i.
  destruct (decide (i < Z.to_nat (m - iZero t))%nat) as [Hi|Hi].
  - rewrite (lookup_take_lt _ (Z.to_nat (table_size t))) by lia.
    rewrite (lookup_take_lt _ (_ `min` _)%nat) by lia. rewrite !lookup_drop.
    rewrite lookup_take_lt by lia. done.
  - rewrite (lookup_take_ge _ (_ `min` _)%nat) by lia.
    destruct (decide (i < Z.to_nat (table_size t))%nat).
    + rewrite lookup_take_lt, lookup_drop by lia. rewrite lookup_take_ge by lia. done.
    + rewrite lookup_take_ge by lia. done.
Qed.

Lemma chunk_snoc t F p : 0 <= t -> iZero t <= zlen F < iZero t + table_size t ->
  chunk t (F ++ [p]) = chunk t F ++ [p].
Proof.
  intros Ht Hm. pose proof (iZero_nonneg t Ht). unfold chunk, slice, zlen in *.
  rewrite drop_app_le by lia. rewrite take_ge by (rewrite length_app, length_drop; cbn; lia).
  rewrite take_ge by (rewrite length_drop; lia). done.
Qed.

Lemma walCleanupHash_ok wi F mx : (forall t, map_rc t = SQLITE_OK) -> wi_ok wi F ->
  1 <= mx <= zlen F -> zlen F <= MAX_FRAMES ->
  wi_ok (walCleanupHash mx wi) (take (Z.to_nat mx) F) /\
  (forall t, t <> walFramePage mx -> snd (walHashGet (walCleanupHash mx wi) t) = snd (walHashGet wi t)).
Proof.
  intros Hmap Hok Hmx Hlen. destruct (walFramePage_spec mx ltac:(lia)) as [Ht0 Hr]. cbn zeta in *.
  unfold walCleanupHash. rewrite (proj2 (Z.eqb_neq mx 0)) by lia. set (t0 := walFramePage mx) in *.
  unfold walHashGet at 1 3. rewrite Hmap. cbn [truthy Z.eqb negb SQLITE_OK].
  split; [|intros t Ht; by apply get_insert_ne].
  intros t Ht Hz. rewrite zlen_take in Hz by lia. destruct (Z.eq_dec t t0) as [->|Hne].
  - rewrite get_insert_eq. rewrite chunk_last by lia.
    apply table_ok_cleanup; [apply Hok; lia|]. rewrite zlen_chunk by lia. lia.
  - rewrite get_insert_ne by done. pose proof (table_size_range t).
    assert (Hlt : t < t0).
    { destruct (Z.lt_trichotomy t t0) as [|[|Hgt]]; [done|done|].
      pose proof (iZero_lt t0 t ltac:(lia)). lia. }
    pose proof (iZero_lt t t0 ltac:(lia)). rewrite (chunk_ext t _ F); [apply Hok; lia|done|].
    intros i Hi. pose proof (iZero_nonneg t Ht). apply zlookup_take. lia.
Qed.

(** One entry added to a table that is ready for it. *)
Lemma append_ready wi G t p : (forall t, map_rc t = SQLITE_OK) -> 0 <= t ->
  iZero t <= zlen G < iZero t + table_size t ->
  (forall t', 0 <= t' < t -> table_ok (table_size t') (snd (walHashGet wi t')) (chunk t' G)) ->
  table_ok (table_size t) (snd (walHashGet wi t)) (chunk t G) ->
  let idx := zlen G + 1 - iZero t in
  let tb := snd (walHashGet wi t) in
  exists iKey, find_slot (Z.to_nat idx) (aHash tb) (walHash p) = Some iKey /\
  wi_ok (<[t := mkWalHash ((aPgno tb).[Z.land (idx - 1) (HASHTABLE_NPAGE - 1) <- p])
                          ((aHash tb).[iKey <- u16 idx])]> wi) (G ++ [p]).
Proof.
  intros Hmap Ht Hz Hbelow Htok idx tb. fold tb in Htok.
  assert (Hzc : zlen (chunk t G) = idx - 1) by (rewrite zlen_chunk by lia; unfold idx; lia).
  destruct (free_slot _ _ _ (walHash p) Htok) as (D & HD & HD0 & Hb). rewrite Hzc in HD.
  pose proof (table_size_range t). pose proof nslot_npage.
  exists (slot (walHash p) D). split.
  - rewrite <- (slot_0 (walHash p)) at 1 by apply walHash_range.
    apply find_slot_spec; [done|done|lia|lia].
  - assert (Hnp : HASHTABLE_NPAGE = 4096) by done.
    rewrite land_npage by lia. rewrite <- Hzc. replace (u16 idx) with (zlen (chunk t G) + 1).
    2: { unfold u16. rewrite Z.mod_small by lia. lia. }
    intros t' Ht' Hz'. rewrite zlen_snoc in Hz'. pose proof (table_size_range t').
    destruct (Z.eq_dec t' t) as [->|Hne].
    + rewrite get_insert_eq, chunk_snoc by lia. apply table_ok_insert; auto; lia.
    + rewrite get_insert_ne by done. assert (Hlt : t' < t).
      { destruct (Z.lt_trichotomy t' t) as [|[|Hgt]]; [done|done|].
        pose proof (iZero_lt t t' ltac:(lia)). lia. }
      pose proof (iZero_lt t' t ltac:(lia)).
      rewrite (chunk_ext t' _ G); [apply Hbelow; lia|done|].
      intros i Hi. apply zlookup_app_l. lia.
Qed.

Lemma append_ok (wi : gmap Z WalHash) (F : list Z) (m mxFrame p : Z)
  (Hmap : forall t, map_rc t = SQLITE_OK) (Hok : wi_ok wi F)
  (Hm : 0 <= m <= zlen F) (Hlen : zlen F < MAX_FRAMES)
  (Hstale : m = zlen F \/ mxFrame = m) (Hpos : Forall (fun x => 0 < x) F) :
  exists wi', walIndexAppend mxFrame wi (m + 1) p = (SQLITE_OK, wi') /\
    wi_ok wi' (take (Z.to_nat m) F ++ [p]).
Proof.
  destruct (walFramePage_spec (m + 1) ltac:(lia)) as [Ht Hr]. cbn zeta in *.
  set (G := take (Z.to_nat m) F). assert (HzG : zlen G = m) by (apply zlen_take; lia).
  unfold walIndexAppend. set (t := walFramePage (m + 1)) in *. unfold walHashGet at 1.
  rewrite Hmap. cbn [truthy Z.eqb negb SQLITE_OK].
  set (idx := m + 1 - iZero t). set (wi1 := if idx =? 1 then <[t := zero_table t]> wi else wi).
  set (tb1 := snd (walHashGet wi1 t)).
  assert (Etb1 : walHashGet wi1 t = (map_rc t, tb1)) by done. rewrite Etb1.
  set (wi2 := if truthy ((aPgno tb1).[idx - 1]) then walCleanupHash mxFrame wi1 else wi1).
  assert (HG : forall t', 0 <= t' < t -> chunk t' G = chunk t' F /\ iZero t' < zlen F).
  { intros t' Ht'. pose proof (iZero_lt t' t Ht'). pose proof (table_size_range t').
    pose proof (iZero_nonneg t' ltac:(lia)). split; [|lia].
    apply chunk_ext; [lia|]. intros i Hi. apply zlookup_take. lia. }
  (* the table is ready *)
  assert (Hready : (forall t', 0 <= t' < t -> table_ok (table_size t') (snd (walHashGet wi2 t')) (chunk t' G)) /\
                   table_ok (table_size t) (snd (walHashGet wi2 t)) (chunk t G)).
  { destruct (Z.eqb_spec idx 1) as [E1|E1].
    - (* first entry of its table: the table is zeroed *)
      assert (Htb1 : tb1 = zero_table t) by (unfold tb1, wi1; rewrite get_insert_eq; done).
      assert (Hz1 : (aPgno tb1).[idx - 1] = 0).
      { rewrite Htb1, (pgno_lookup _ _ [] _ (table_ok_zero t)) by (pose proof (table_size_range t); lia).
        change (zlen (@nil Z)) with 0. by rewrite E1. }
      unfold wi2. rewrite Hz1. cbn [truthy Z.eqb negb].
      assert (Ec : chunk t G = []).
      { apply nil_length_inv. assert (Hl : zlen (chunk t G) = 0) by (rewrite zlen_chunk; unfold idx in *; lia).
        unfold zlen in Hl. lia. }
      rewrite Ec. split.
      + intros t' Ht'. destruct (HG t' Ht') as [-> Hz']. unfold wi1. rewrite get_insert_ne by lia. apply Hok; lia.
      + fold tb1. rewrite Htb1. apply table_ok_zero.
    - unfold wi1 in *. cbn [snd walHashGet] in tb1.
      assert (Htok : table_ok (table_size t) tb1 (chunk t F)) by (apply Hok; unfold idx in *; lia).
      pose proof (table_size_range t).
      destruct (Z.eq_dec m (zlen F)) as [Em|Em].
      + (* nothing beyond the live frames *)
        assert (Hz1 : (aPgno tb1).[idx - 1] = 0).
        { rewrite (pgno_lookup _ _ _ _ Htok) by (unfold idx in *; lia).
          rewrite zlen_chunk by (unfold idx in *; lia). rewrite (proj2 (Z.ltb_ge _ _)); unfold idx; lia. }
        unfold wi2. rewrite Hz1. cbn [truthy Z.eqb negb].
        assert (EG : G = F) by (unfold G; rewrite take_ge; [done|unfold zlen in *; lia]).
        rewrite EG. split; [|done]. intros t' Ht'. destruct (HG t' Ht') as [_ Hz']. apply Hok; lia.
      + (* remains of a dead writer *)
        destruct Hstale as [| ->]; [done|].
        assert (Hnz : 0 < (aPgno tb1).[idx - 1]).
        { rewrite (pgno_lookup _ _ _ _ Htok) by (unfold idx in *; lia).
          rewrite zlen_chunk by (unfold idx in *; lia).
          rewrite (proj2 (Z.ltb_lt _ _)) by (unfold idx in *; lia).
          rewrite chunk_get by (unfold idx in *; lia).
          rewrite Forall_lookup in Hpos. apply (Hpos (Z.to_nat m)).
          replace (iZero t + idx - 1) with m by (unfold idx; lia).
          pose proof (zlookup_zget F m ltac:(lia)) as E. unfold zlookup in E.
          by rewrite (proj2 (Z.leb_le 0 m)) in E by lia. }
        unfold wi2, truthy. rewrite (proj2 (Z.eqb_neq _ 0)) by lia. cbn [negb].
        assert (Em1 : 1 <= m) by (pose proof (iZero_nonneg t Ht); unfold idx in *; lia).
        destruct (walCleanupHash_ok wi F m Hmap Hok ltac:(lia) ltac:(lia)) as [Hok2 _].
        fold G in Hok2. split.
        * intros t' Ht'. apply Hok2; [lia|]. rewrite HzG.
          pose proof (iZero_lt t' t Ht'). pose proof (table_size_range t'). lia.
        * apply Hok2; [lia|]. rewrite HzG. unfold idx in *. lia. }
  destruct Hready as [Hbelow Htok2].
  destruct (append_ready wi2 G t p Hmap Ht ltac:(lia) Hbelow Htok2) as (iKey & Ek & Hfin).
  rewrite HzG in Ek, Hfin. fold idx in Ek, Hfin.
  change (walHashGet wi2 t) with (map_rc t, snd (walHashGet wi2 t)). cbn iota beta.
  rewrite Ek. eexists. split; [reflexivity|exact Hfin].
Qed.

(** ** The theorems *)

(** C10. Lookup is a linear search: when the tables hold the frames [F], and the
    reader's [mxFrame] is one of them, [walFindFrame] returns the newest frame of the
    page between the reader's [minFrame] and [mxFrame], or 0 if there is none;
    frames appended after the reader's snapshot do not matter. *)
Theorem walFindFrame_newest (wi : gmap Z WalHash) (F : list Z) (mxFrame readLock minFrame pgno : Z)
  (bShmUnreliable : bool)
  (Hmap : forall t, map_rc t = SQLITE_OK) (Hok : wi_ok wi F)
  (Hmx : 1 <= mxFrame <= zlen F) (Hlen : zlen F <= MAX_FRAMES)
  (Hlock : readLock <> 0) (Hmin : 1 <= minFrame <= mxFrame) :
  exists r, walFindFrame mxFrame readLock minFrame bShmUnreliable wi pgno = (SQLITE_OK, r) /\
    newest F minFrame mxFrame pgno r.
Proof. by apply find_newest. Qed.

(** C11. Appending keeps the index: let the tables hold frames [F], of which the
    first [m] are live and the others, if any, are the remains of a writer that died
    (all with positive page numbers), with [mxFrame] equal to [m] in that case.  Then
    [walIndexAppend] of frame [m + 1] succeeds and the tables hold the live frames
    followed by the new one. *)
Theorem walIndexAppend_ok (wi : gmap Z WalHash) (F : list Z) (m mxFrame p : Z)
  (Hmap : forall t, map_rc t = SQLITE_OK) (Hok : wi_ok wi F)
  (Hm : 0 <= m <= zlen F) (Hlen : zlen F < MAX_FRAMES)
  (Hstale : m = zlen F \/ mxFrame = m) (Hpos : Forall (fun x => 0 < x) F) :
  exists wi', walIndexAppend mxFrame wi (m + 1) p = (SQLITE_OK, wi') /\
    wi_ok wi' (take (Z.to_nat m) F ++ [p]).
Proof. by apply append_ok. Qed.

(** Rolling back keeps the index: after [mxFrame] has been moved back to [mx],
    [walCleanupHash] leaves tables that hold exactly the first [mx] frames. *)
Theorem walCleanupHash_truncates (wi : gmap Z WalHash) (F : list Z) (mx : Z)
  (Hmap : forall t, map_rc t = SQLITE_OK) (Hok : wi_ok wi F)
  (Hmx : 1 <= mx <= zlen F) (Hlen : zlen F <= MAX_FRAMES) :
  wi_ok (walCleanupHash mx wi) (take (Z.to_nat mx) F).
Proof. by apply walCleanupHash_ok. Qed.

(** Nothing has been appended yet. *)
Lemma wi_ok_nil : wi_ok ∅ [].
Proof.
  intros t Ht Hz. change (zlen (@nil Z)) with 0 in Hz. pose proof (iZero_nonneg t Ht). lia.
Qed.

(** A failing map is reported and changes nothing. *)
Lemma walIndexAppend_map_error mx wi f p : map_rc (walFramePage f) <> SQLITE_OK ->
  walIndexAppend mx wi f p = (map_rc (walFramePage f), wi).
Proof.
  intros H. unfold walIndexAppend, walHashGet. unfold truthy.
  by rewrite (proj2 (Z.eqb_neq _ 0)).
Qed.
End index.

(** An index with the frames of pages 5, 7 and 5. *)
Lemma example_index : exists wi, wi_ok (fun _ => SQLITE_OK) wi [5; 7; 5].
Proof.
  destruct (append_ok (fun _ => SQLITE_OK) ∅ [] 0 0 5) as (wi1 & _ & H1);
    [done|apply wi_ok_nil|done|done|by left|constructor|].
  destruct (append_ok (fun _ => SQLITE_OK) wi1 [5] 1 0 7) as (wi2 & _ & H2);
    [done|exact H1|done|done|by left|by_compute|].
  destruct (append_ok (fun _ => SQLITE_OK) wi2 [5; 7] 2 0 5) as (wi3 & _ & H3);
    [done|exact H2|done|done|by left|by_compute|].
  by exists wi3.
Qed.

Lemma walFindFrame_newest_witness : exists wi r,
  walFindFrame (fun _ => SQLITE_OK) 2 1 1 false wi 5 = (SQLITE_OK, r) /\ newest [5; 7; 5] 1 2 5 r.
Proof.
  destruct example_index as [wi H]. exists wi.
  apply (walFindFrame_newest (fun _ => SQLITE_OK) wi [5; 7; 5] 2 1 1 5 false);
    [done|exact H|by vm_compute|by vm_compute|lia|lia].
Defined.
Lemma walIndexAppend_ok_witness : exists wi wi',
  walIndexAppend (fun _ => SQLITE_OK) 2 wi 3 9 = (SQLITE_OK, wi') /\
  wi_ok (fun _ => SQLITE_OK) wi' [5; 7; 9].
Proof.
  destruct example_index as [wi H]. exists wi.
  apply (walIndexAppend_ok (fun _ => SQLITE_OK) wi [5; 7; 5] 2 2 9);
    [done|exact H|by vm_compute|by vm_compute|by right|by_compute].
Defined.
Lemma walCleanupHash_truncates_witness : exists wi,
  wi_ok (fun _ => SQLITE_OK) (walCleanupHash (fun _ => SQLITE_OK) 1 wi) [5].
Proof.
  destruct example_index as [wi H]. exists wi.
  apply (walCleanupHash_truncates (fun _ => SQLITE_OK) wi [5; 7; 5] 1);
    [done|exact H|by vm_compute|by vm_compute].
Defined.
