(* ===== verification/WalLog.v ===== *)
(** The write-ahead log file (wal.c): checksums, frames, and recovery.

    The log is a 32-byte header followed by frames, each a 24-byte frame header and
    one database page.  The checksum of a frame extends that of the frame before it.
    Recovery reads the frames in order, stops at the first that is not valid, and
    takes the state as of the last commit frame before it, entering every valid
    frame into the wal-index.  The machine is little-endian (wasm), so checksums are
    native exactly when [bigEndCksum] is 0. *)

From S2P Require Import Prelude Bits Varint WalIndex.

(** ** Words *)

(** The 32-bit words of a byte array as the machine loads them. *)
Fixpoint words (a : list Z) : list Z :=
  match a with
  | b0 :: b1 :: b2 :: b3 :: r => (b0 + 2 ^ 8 * b1 + 2 ^ 16 * b2 + 2 ^ 24 * b3) :: words r
  | _ => []
  end.
Definition BYTESWAP32 (x : Z) : Z :=
  u32 (u32 (u32 (u32 (Z.shiftl (Z.land x 0x000000ff) 24) + u32 (Z.shiftl (Z.land x 0x0000ff00) 8))
       + Z.shiftr (Z.land x 0x00ff0000) 8) + Z.shiftr (Z.land x 0xff000000) 24).

(** [&p[i]] as an argument of the 4-byte accessors. *)
Definition get4_at (p : list Z) (i : Z) : Z := sqlite3Get4byte (drop (Z.to_nat i) p).
Definition put4_at (p : list Z) (i v : Z) : list Z :=
  take (Z.to_nat i) p ++ sqlite3Put4byte (drop (Z.to_nat i) p) v.

(** ** Checksums *)

(** One step: [s1 += x + s2; s2 += y + s1;] *)
Definition cksum_step (s : Z * Z) (x y : Z) : Z * Z :=
  let '(s1, s2) := s in
  let s1 := u32 (s1 + u32 (x + s2)) in
  let s2 := u32 (s2 + u32 (y + s1)) in (s1, s2).

(** The loops over pairs of words, of swapped words, and the unrolled loop over
    eight pairs. *)
Fixpoint cksum_swap (ws : list Z) (s : Z * Z) : Z * Z :=
  match ws with
  | x :: y :: r => cksum_swap r (cksum_step s (BYTESWAP32 x) (BYTESWAP32 y))
  | _ => s
  end.
Fixpoint cksum_pairs (ws : list Z) (s : Z * Z) : Z * Z :=
  match ws with
  | x :: y :: r => cksum_pairs r (cksum_step s x y)
  | _ => s
  end.
Fixpoint cksum_unrolled (ws : list Z) (s : Z * Z) : Z * Z :=
  match ws with
  | a0 :: a1 :: a2 :: a3 :: a4 :: a5 :: a6 :: a7 :: a8 :: a9 :: a10 :: a11 :: a12 :: a13 :: a14 :: a15 :: r =>
      let s := cksum_step s a0 a1 in
      let s := cksum_step s a2 a3 in
      let s := cksum_step s a4 a5 in
      let s := cksum_step s a6 a7 in
      let s := cksum_step s a8 a9 in
      let s := cksum_step s a10 a11 in
      let s := cksum_step s a12 a13 in
      let s := cksum_step s a14 a15 in
      cksum_unrolled r s
  | _ => s
  end.
(** [nByte] bytes of [a]; [aIn] is [(0, 0)] for a null pointer. *)
Definition walChecksumBytes (nativeCksum : bool) (a : list Z) (nByte : Z) (aIn : Z * Z) : Z * Z :=
  let aData := words (take (Z.to_nat nByte) a) in
  if negb nativeCksum then cksum_swap aData aIn
  else if nByte mod 64 =? 0 then cksum_unrolled aData aIn
  else cksum_pairs aData aIn.

(** ** The header of the log and of the wal-index *)

Definition WAL_MAX_VERSION : Z := 3007000.
Definition WALINDEX_MAX_VERSION : Z := 3007000.
Definition WAL_FRAME_HDRSIZE : Z := 24.
Definition WAL_HDRSIZE : Z := 32.
Definition WAL_MAGIC : Z := 0x377f0682.
Definition SQLITE_BIGENDIAN : Z := 0.
Definition SQLITE_MAX_PAGE_SIZE : Z := 65536.
Definition walFrameOffset (iFrame szPage : Z) : Z :=
  WAL_HDRSIZE + (iFrame - 1) * (szPage + WAL_FRAME_HDRSIZE).

(** [WalIndexHdr]; [h_aSalt] holds the eight bytes of [aSalt] as in the file. *)
Record WalIndexHdr := mkHdr {
  h_iVersion : Z; h_iChange : Z; h_isInit : Z; h_bigEndCksum : Z; h_szPage : Z;
  h_mxFrame : Z; h_nPage : Z; h_aFrameCksum : Z * Z; h_aSalt : list Z }.
(** [memset(&pWal->hdr, 0, sizeof(WalIndexHdr))] *)
Definition hdr_zero : WalIndexHdr := mkHdr 0 0 0 0 0 0 0 (0, 0) (replicate 8 0).

(** The part of [Wal] the log uses. *)
Record Wal := mkWal { hdr : WalIndexHdr; w_szPage : Z; w_nCkpt : Z; w_iReCksum : Z }.

Definition set_cksum (w : Wal) (c : Z * Z) : Wal :=
  let h := hdr w in
  mkWal (mkHdr (h_iVersion h) (h_iChange h) (h_isInit h) (h_bigEndCksum h) (h_szPage h)
           (h_mxFrame h) (h_nPage h) c (h_aSalt h)) (w_szPage w) (w_nCkpt w) (w_iReCksum w).

(** ** Frames *)

Definition native (w : Wal) : bool := h_bigEndCksum (hdr w) =? SQLITE_BIGENDIAN.

(** Encode a frame header into the 24 bytes at [aFrame]; returns it and the
    connection with its running checksum. *)
Definition walEncodeFrame (w : Wal) (iPage nTruncate : Z) (aData aFrame : list Z) : list Z * Wal :=
  let aFrame := put4_at aFrame 0 iPage in
  let aFrame := put4_at aFrame 4 nTruncate in
  if w_iReCksum w =? 0 then
    let aFrame := splice aFrame 8 (h_aSalt (hdr w)) in
    let c := h_aFrameCksum (hdr w) in
    let c := walChecksumBytes (native w) aFrame 8 c in
    let c := walChecksumBytes (native w) aData (w_szPage w) c in
    let aFrame := put4_at aFrame 16 (fst c) in
    let aFrame := put4_at aFrame 20 (snd c) in
    (aFrame, set_cksum w c)
  else (splice aFrame 8 (replicate 16 0), w).

(** [Some (pgno, nTruncate)] when the frame is valid; the running checksum advances
    unless the salt or the page number already rejects the frame. *)
Definition walDecodeFrame (w : Wal) (aData aFrame : list Z) : option (Z * Z) * Wal :=
  if negb (bool_decide (h_aSalt (hdr w) = slice aFrame 8 8)) then (None, w) else
  let pgno := get4_at aFrame 0 in
  if pgno =? 0 then (None, w) else
  let c := h_aFrameCksum (hdr w) in
  let c := walChecksumBytes (native w) aFrame 8 c in
  let c := walChecksumBytes (native w) aData (w_szPage w) c in
  let w := set_cksum w c in
  if negb (fst c =? get4_at aFrame 16) || negb (snd c =? get4_at aFrame 20) then (None, w)
  else (Some (pgno, get4_at aFrame 4), w).

(** The log header, as [walFrames] assembles it when the log is empty, and the
    connection ready to append its first frame. *)
Definition wal_header (w : Wal) (szPage : Z) : list Z * Wal :=
  let a := replicate 32 0 in
  let a := put4_at a 0 (Z.lor WAL_MAGIC SQLITE_BIGENDIAN) in
  let a := put4_at a 4 WAL_MAX_VERSION in
  let a := put4_at a 8 szPage in
  let a := put4_at a 12 (w_nCkpt w) in
  let a := splice a 16 (h_aSalt (hdr w)) in
  let c := walChecksumBytes true a (WAL_HDRSIZE - 2 * 4) (0, 0) in
  let a := put4_at a 24 (fst c) in
  let a := put4_at a 28 (snd c) in
  let h := hdr w in
  (a, mkWal (mkHdr (h_iVersion h) (h_iChange h) (h_isInit h) SQLITE_BIGENDIAN (h_szPage h)
               (h_mxFrame h) (h_nPage h) c (h_aSalt h)) szPage (w_nCkpt w) (w_iReCksum w)).

(** ** Writing *)

(** The log file as its bytes; a write past the end fills the gap with zeros. *)
Definition file_write (f : list Z) (off : Z) (data : list Z) : list Z :=
  take (Z.to_nat off) (f ++ replicate (Z.to_nat off) 0) ++ data
    ++ drop (Z.to_nat off + length data) f.

Section writing.
(** Result codes of [sqlite3OsWrite] (amount, offset) and [sqlite3OsSync]. *)
Context (write_rc : Z -> Z -> Z) (sync_rc : Z).

(** [WalWriter.iSyncPoint] is the only field of the writer that matters here. *)
Definition walWriteToLog (iSyncPoint : Z) (f content : list Z) (iAmt iOffset : Z) : Z * list Z :=
  if (iOffset <? iSyncPoint) && (iSyncPoint <=? iOffset + iAmt) then
    let iFirstAmt := iSyncPoint - iOffset in
    let rc := write_rc iFirstAmt iOffset in
    if truthy rc then (rc, f) else
    let f := file_write f iOffset (take (Z.to_nat iFirstAmt) content) in
    let iOffset := iOffset + iFirstAmt in
    let iAmt := iAmt - iFirstAmt in
    let content := drop (Z.to_nat iFirstAmt) content in
    if (iAmt =? 0) || truthy sync_rc then (sync_rc, f) else
    let rc := write_rc iAmt iOffset in
    if truthy rc then (rc, f) else (rc, file_write f iOffset (take (Z.to_nat iAmt) content))
  else
    let rc := write_rc iAmt iOffset in
    if truthy rc then (rc, f) else (rc, file_write f iOffset (take (Z.to_nat iAmt) content)).

(** [aFrame]: the contents of the stack buffer for the frame header. *)
Definition walWriteOneFrame (w : Wal) (iSyncPoint : Z) (f pData : list Z) (pgno nTruncate iOffset : Z)
    (aFrame : list Z) : Z * list Z * Wal :=
  let '(aFrame, w) := walEncodeFrame w pgno nTruncate pData aFrame in
  let '(rc, f) := walWriteToLog iSyncPoint f aFrame WAL_FRAME_HDRSIZE iOffset in
  if truthy rc then (rc, f, w) else
  let '(rc, f) := walWriteToLog iSyncPoint f pData (w_szPage w) (iOffset + WAL_FRAME_HDRSIZE) in
  (rc, f, w).
End writing.

(** ** Recovery *)

Definition WAL_NREADER : Z := 5.
Definition READMARK_NOT_USED : Z := 0xffffffff.

(** [WalCkptInfo] without the lock bytes. *)
Record WalCkptInfo := mkCkpt {
  nBackfill : Z; aReadMark : list Z; nBackfillAttempted : Z }.

(** [(u16)((szPage&0xff00) | (szPage>>16))] *)
Definition page_size_code (szPage : Z) : Z :=
  u16 (Z.lor (Z.land szPage 0xff00) (Z.shiftr szPage 16)).

(** A commit frame is recorded in the private header. *)
Definition set_commit (w : Wal) (iFrame nTruncate szPage : Z) : Wal :=
  let h := hdr w in
  mkWal (mkHdr (h_iVersion h) (h_iChange h) (h_isInit h) (h_bigEndCksum h) (page_size_code szPage)
           iFrame nTruncate (h_aFrameCksum h) (h_aSalt h)) (w_szPage w) (w_nCkpt w) (w_iReCksum w).

(** The connection, the wal-index and the checksum of the last commit frame. *)
Record rstate := mkRs { rs_w : Wal; rs_wi : gmap Z WalHash; rs_saved : Z * Z }.

Section recovery.
(** Result codes of mapping a wal-index page, of the exclusive lock on everything
    but the write lock, and of the exclusive lock on read mark [i]; the contents
    of the freshly allocated private copy of a wal-index page. *)
Context (map_rc : Z -> Z) (lock_rc : Z) (mark_rc : Z -> Z) (garbage : Z -> WalHash).
Context (file : list Z).

Definition frame_at (iFrame szPage : Z) : list Z :=
  slice file (walFrameOffset iFrame szPage) (szPage + WAL_FRAME_HDRSIZE).

(** One frame: [None] when it is not valid or cannot be indexed (with the code). *)
Definition recover_one (szPage iFrame : Z) (s : rstate) : option rstate * Z * rstate :=
  let aFrame := frame_at iFrame szPage in
  let '(r, w) := walDecodeFrame (rs_w s) (drop (Z.to_nat WAL_FRAME_HDRSIZE) aFrame) aFrame in
  let s := mkRs w (rs_wi s) (rs_saved s) in
  match r with
  | None => (None, SQLITE_OK, s)
  | Some (pgno, nTruncate) =>
      let '(rc, wi) := walIndexAppend map_rc (h_mxFrame (hdr w)) (rs_wi s) iFrame pgno in
      if truthy rc then (None, rc, mkRs w wi (rs_saved s)) else
      let s := if truthy nTruncate
               then mkRs (set_commit w iFrame nTruncate szPage) wi (h_aFrameCksum (hdr w))
               else mkRs w wi (rs_saved s) in
      (Some s, SQLITE_OK, s)
  end.

(** The frames [iFrame, ..., iFrame + n - 1]; the result code, the state and
    whether all of them were valid. *)
Fixpoint recover_frames (n : nat) (szPage iFrame : Z) (s : rstate) : Z * rstate * bool :=
  match n with
  | O => (SQLITE_OK, s, true)
  | S n' => match recover_one szPage iFrame s with
            | (Some s', _, _) => recover_frames n' szPage (iFrame + 1) s'
            | (None, rc, s') => (rc, s', false)
            end
  end.

(** The pages [iPg, ..., iPg + n - 1] of the wal-index. *)
Fixpoint recover_pages (n : nat) (szPage iLastFrame iPg : Z) (s : rstate) : Z * rstate :=
  match n with
  | O => (SQLITE_OK, s)
  | S n' =>
      let iLast := Z.min iLastFrame (HASHTABLE_NPAGE_ONE + iPg * HASHTABLE_NPAGE) in
      let iFirst := 1 + (if iPg =? 0 then 0 else HASHTABLE_NPAGE_ONE + (iPg - 1) * HASHTABLE_NPAGE) in
      let rc := map_rc iPg in
      if truthy rc then (rc, s) else
      let s := mkRs (rs_w s) (<[iPg := garbage iPg]> (rs_wi s)) (rs_saved s) in
      let '(rc, s, all) := recover_frames (Z.to_nat (iLast - iFirst + 1)) szPage iFirst s in
      if negb all then (rc, s) else recover_pages n' szPage iLastFrame (iPg + 1) s
  end.

(** From the header of the log to the last frame; [None] when the header is to be
    ignored. *)
Definition recover_log (wi : gmap Z WalHash) (w : Wal) : Z * rstate :=
  let s0 := mkRs (mkWal hdr_zero (w_szPage w) (w_nCkpt w) (w_iReCksum w)) wi (0, 0) in
  if zlen file <=? WAL_HDRSIZE then (SQLITE_OK, s0) else
  let aBuf := take (Z.to_nat WAL_HDRSIZE) file in
  let magic := get4_at aBuf 0 in
  let szPage := i32 (get4_at aBuf 8) in
  if negb (Z.land magic 0xfffffffe =? WAL_MAGIC) || truthy (Z.land szPage (szPage - 1))
     || (SQLITE_MAX_PAGE_SIZE <? szPage) || (szPage <? 512) then (SQLITE_OK, s0) else
  let bigEnd := Z.land magic 1 in
  let c := walChecksumBytes (bigEnd =? SQLITE_BIGENDIAN) aBuf (WAL_HDRSIZE - 2 * 4) (0, 0) in
  let w1 := mkWal (mkHdr 0 0 0 bigEnd 0 0 0 c (slice aBuf 16 8)) szPage (get4_at aBuf 12) (w_iReCksum w) in
  let s1 := mkRs w1 wi (0, 0) in
  if negb (fst c =? get4_at aBuf 24) || negb (snd c =? get4_at aBuf 28) then (SQLITE_OK, s1) else
  if negb (get4_at aBuf 4 =? WAL_MAX_VERSION) then (SQLITE_CANTOPEN, s1) else
  let iLastFrame := (zlen file - WAL_HDRSIZE) / (szPage + WAL_FRAME_HDRSIZE) in
  recover_pages (Z.to_nat (walFramePage iLastFrame + 1)) szPage iLastFrame 0 s1.

(** The read marks 1 to 4: those whose lock is free are reset. *)
Fixpoint recover_marks (n : nat) (i mxFrame : Z) (marks : list Z) : Z * list Z * bool :=
  match n with
  | O => (SQLITE_OK, marks, true)
  | S n' =>
      let rc := mark_rc i in
      let next := recover_marks n' (i + 1) mxFrame in
      if truthy rc then
        if negb (rc =? SQLITE_BUSY) then (rc, marks, false)
        else let '(rc', marks, ok) := next marks in
             (match n' with O => rc | _ => rc' end, marks, ok)
      else next (marks.[i <- if (i =? 1) && truthy mxFrame then mxFrame else READMARK_NOT_USED])
  end.

(** [walIndexRecover]: the result code, the connection, the wal-index, the
    checkpoint information and the header written to shared memory, if any.  The reads
    of the file and the allocation of the buffer succeed. *)
Definition walIndexRecover (w : Wal) (wi : gmap Z WalHash) (info : WalCkptInfo)
    : Z * Wal * gmap Z WalHash * WalCkptInfo * option WalIndexHdr :=
  if truthy lock_rc then (lock_rc, w, wi, info, None) else
  let '(rc, s) := recover_log wi w in
  let w := rs_w s in
  if truthy rc then (rc, w, rs_wi s, info, None) else
  let h := hdr w in
  let h := mkHdr WALINDEX_MAX_VERSION (h_iChange h) 1 (h_bigEndCksum h) (h_szPage h)
             (h_mxFrame h) (h_nPage h) (rs_saved s) (h_aSalt h) in
  let w := mkWal h (w_szPage w) (w_nCkpt w) (w_iReCksum w) in
  let '(rc, marks, _) := recover_marks 4 1 (h_mxFrame h) ((aReadMark info).[0 <- 0]) in
  (rc, w, rs_wi s, mkCkpt 0 marks (h_mxFrame h), Some h).

(** ** Reference semantics of the log *)

(** Validation of one frame, as a function of the values it depends on: salt, byte
    order, page size, and the running checksum. *)
Definition decode_core (salt : list Z) (nat_ : bool) (szPage : Z) (c : Z * Z) (aFrame : list Z)
    : option (Z * Z) * (Z * Z) :=
  if negb (bool_decide (salt = slice aFrame 8 8)) then (None, c) else
  let pgno := get4_at aFrame 0 in
  if pgno =? 0 then (None, c) else
  let c := walChecksumBytes nat_ aFrame 8 c in
  let c := walChecksumBytes nat_ (drop (Z.to_nat WAL_FRAME_HDRSIZE) aFrame) szPage c in
  if negb (fst c =? get4_at aFrame 16) || negb (snd c =? get4_at aFrame 20) then (None, c)
  else (Some (pgno, get4_at aFrame 4), c).

(** The longest prefix of valid frames, each with its page number, its commit
    mark and the checksum after it. *)
Fixpoint scan (salt : list Z) (nat_ : bool) (szPage : Z) (c : Z * Z) (frames : list (list Z))
    : list (Z * Z * (Z * Z)) :=
  match frames with
  | f :: frames' =>
      match decode_core salt nat_ szPage c f with
      | (Some (p, n), c') => (p, n, c') :: scan salt nat_ szPage c' frames'
      | (None, _) => []
      end
  | [] => []
  end.

(** Frame number, database size and checksum of the last commit. *)
Fixpoint last_commit (k : Z) (vs : list (Z * Z * (Z * Z))) (acc : Z * Z * (Z * Z)) : Z * Z * (Z * Z) :=
  match vs with
  | (_, n, c) :: vs' => last_commit (k + 1) vs' (if truthy n then (k, n, c) else acc)
  | [] => acc
  end.

Definition pages_of (vs : list (Z * Z * (Z * Z))) : list Z := map (fun v => fst (fst v)) vs.

Lemma set_cksum_id w : set_cksum w (h_aFrameCksum (hdr w)) = w.
Proof. by destruct w as [[] ? ? ?]. Qed.

Lemma decode_is_core w aFrame :
  walDecodeFrame w (drop (Z.to_nat WAL_FRAME_HDRSIZE) aFrame) aFrame =
  let '(r, c) := decode_core (h_aSalt (hdr w)) (native w) (w_szPage w) (h_aFrameCksum (hdr w)) aFrame in
  (r, set_cksum w c).
Proof.
  unfold walDecodeFrame, decode_core. destruct (bool_decide _); cbn [negb]; [|by rewrite set_cksum_id].
  destruct (get4_at aFrame 0 =? 0); [by rewrite set_cksum_id|]. by destruct (_ || _).
Qed.

(** The checksum after the frames of a fully valid list. *)
Definition end_cksum (c : Z * Z) (vs : list (Z * Z * (Z * Z))) : Z * Z :=
  match last vs with Some (_, _, c') => c' | None => c end.

Lemma end_cksum_cons c v vs : end_cksum c (v :: vs) = end_cksum (snd v) vs.
Proof.
  unfold end_cksum. destruct v as [[p n] c']. destruct vs as [|v2 vs]; [done|].
  change (last ((p, n, c') :: v2 :: vs)) with (last (v2 :: vs)).
  destruct (last (v2 :: vs)) as [[[? ?] ?]|] eqn:E; [done|]. by apply last_None in E.
Qed.

Lemma scan_length salt b sz c fs : (length (scan salt b sz c fs) <= length fs)%nat.
Proof.
  revert c. induction fs as [|f fs IH]; intros c; cbn; [lia|].
  destruct (decode_core salt b sz c f) as [[[p n]|] c']; cbn; [|lia]. specialize (IH c'). lia.
Qed.
Lemma scan_app salt b sz c fs1 fs2 :
  scan salt b sz c (fs1 ++ fs2) =
  let vs := scan salt b sz c fs1 in
  if (length vs =? length fs1)%nat then vs ++ scan salt b sz (end_cksum c vs) fs2 else vs.
Proof.
  revert c. induction fs1 as [|f fs1 IH]; intros c; [done|]. cbn [app scan].
  destruct (decode_core salt b sz c f) as [[[p n]|] c']; [|done]. rewrite IH. cbn [length Nat.eqb].
  destruct (Nat.eqb _ _); [|done]. by rewrite end_cksum_cons.
Qed.
Lemma last_commit_app k vs1 vs2 acc :
  last_commit k (vs1 ++ vs2) acc = last_commit (k + zlen vs1) vs2 (last_commit k vs1 acc).
Proof.
  revert k acc. induction vs1 as [|[[p n] c] vs1 IH]; intros k acc; cbn [app last_commit].
  - change (zlen []) with 0. by rewrite Z.add_0_r.
  - rewrite IH, zlen_cons. f_equal. lia.
Qed.

(** ** Recovery follows the reference *)

Definition commit_of (s : rstate) : Z * Z * (Z * Z) :=
  (h_mxFrame (hdr (rs_w s)), h_nPage (hdr (rs_w s)), rs_saved s).

(** The values validation depends on. *)
Definition like (salt : list Z) (b : bool) (sz : Z) (c : Z * Z) (w : Wal) : Prop :=
  h_aSalt (hdr w) = salt /\ native w = b /\ w_szPage w = sz /\ h_aFrameCksum (hdr w) = c.

(** What identifies the log. *)
Definition file_id (w : Wal) : Z * list Z * Z * Z :=
  (h_bigEndCksum (hdr w), h_aSalt (hdr w), w_szPage w, w_nCkpt w).

Lemma get4_nonneg p i : bytes_ok p -> 0 <= get4_at p i.
Proof.
  intros H. unfold get4_at, sqlite3Get4byte.
  assert (Hb : bytes_ok (drop (Z.to_nat i) p)) by (by apply Forall_drop).
  assert (Hn : forall k, 0 <= (drop (Z.to_nat i) p).[k]).
  { intros k. pose proof (zget_byte _ k Hb) as Hk. unfold is_u8 in Hk. lia. }
  rewrite !Z.lor_nonneg, !Z.shiftl_nonneg. repeat split; auto.
  unfold u32. apply Z.mod_pos_bound. lia.
Qed.

Lemma scan_pages_pos salt b sz c fs : Forall bytes_ok fs ->
  Forall (fun x => 0 < x) (pages_of (scan salt b sz c fs)).
Proof.
  intros H. revert c. induction H as [|f fs Hf _ IH]; intros c; cbn [scan]; [constructor|].
  unfold decode_core. destruct (negb _); [constructor|].
  destruct (Z.eqb_spec (get4_at f 0) 0); [constructor|]. destruct (_ || _); [constructor|].
  constructor; [|apply IH]. cbn. pose proof (get4_nonneg f 0 Hf). lia.
Qed.

Section scan_proof.
Context (Hmap : forall t, map_rc t = SQLITE_OK) (Hbytes : bytes_ok file).
Context (szPage : Z) (salt : list Z) (b : bool).
Definition frames_from (a n : Z) : list (list Z) := map (fun i => frame_at i szPage) (seqZ a n).

Lemma frames_bytes a n : Forall bytes_ok (frames_from a n).
Proof.
  unfold frames_from. apply Forall_map, Forall_true. intros i. unfold frame_at, slice.
  by apply Forall_take, Forall_drop.
Qed.
Lemma frames_cons a n : 0 <= n -> frames_from a (n + 1) = frame_at a szPage :: frames_from (a + 1) n.
Proof.
  intros. unfold frames_from. rewrite seqZ_cons by lia. cbn [map].
  by replace (Z.pred (n + 1)) with n by lia.
Qed.

Lemma recover_frames_spec n a s c F :
  like salt b szPage c (rs_w s) -> wi_ok map_rc (rs_wi s) F -> zlen F = a - 1 ->
  Forall (fun x => 0 < x) F -> a - 1 + Z.of_nat n < MAX_FRAMES ->
  let vs := scan salt b szPage c (frames_from a (Z.of_nat n)) in
  exists s', recover_frames n szPage a s = (SQLITE_OK, s', (length vs =? n)%nat) /\
    commit_of s' = last_commit a vs (commit_of s) /\
    wi_ok map_rc (rs_wi s') (F ++ pages_of vs) /\
    file_id (rs_w s') = file_id (rs_w s) /\
    (length vs = n -> like salt b szPage (end_cksum c vs) (rs_w s')).
Proof.
  revert a s c F. induction n as [|n IH]; intros a s c F Hl Hwi HF Hpos Hmax.
  - exists s. cbn. rewrite app_nil_r. auto.
  - replace (Z.of_nat (S n)) with (Z.of_nat n + 1) in * by lia. rewrite frames_cons by lia.
    cbn [recover_frames scan]. unfold recover_one. rewrite decode_is_core.
    destruct Hl as (E1 & E2 & E3 & E4). rewrite E1, E2, E3, E4.
    pose proof (scan_pages_pos salt b szPage c [frame_at a szPage]) as Hp.
    destruct (decode_core salt b szPage c (frame_at a szPage)) as [[[p nt]|] c'] eqn:Ed.
    + cbn [rs_wi rs_saved].
      assert (Hp0 : 0 < p).
      { cbn [scan] in Hp. rewrite Ed in Hp. specialize (Hp ltac:(constructor; [|constructor];
          unfold frame_at, slice; by apply Forall_take, Forall_drop)). cbn in Hp. by inversion Hp. }
      pose proof (zlen_nonneg F).
      destruct (append_ok map_rc (rs_wi s) F (zlen F) (h_mxFrame (hdr (set_cksum (rs_w s) c'))) p
                  Hmap Hwi ltac:(lia) ltac:(lia) ltac:(by left) Hpos) as (wi' & Ea & Hwi').
      rewrite take_ge in Hwi' by (unfold zlen; lia). replace (zlen F + 1) with a in Ea by lia.
      rewrite Ea. cbn [truthy Z.eqb negb SQLITE_OK].
      set (s1 := if truthy nt then _ else _).
      destruct (IH (a + 1) s1 c' (F ++ [p])) as (s' & Er & Hc & Hw & Hbe & Hlk).
      * unfold s1, like. destruct (truthy nt); done.
      * unfold s1. destruct (truthy nt); exact Hwi'.
      * rewrite zlen_snoc. lia.
      * apply Forall_app. auto.
      * lia.
      * exists s'. cbn [length Nat.eqb]. rewrite Er. split; [done|]. split.
        { rewrite Hc. cbn [last_commit]. unfold s1, commit_of. by destruct (truthy nt). }
        rewrite <- app_assoc in Hw. split; [exact Hw|]. split.
        { rewrite Hbe. unfold s1. by destruct (truthy nt). }
        intros El. rewrite end_cksum_cons. apply Hlk. lia.
    + exists (mkRs (set_cksum (rs_w s) c') (rs_wi s) (rs_saved s)). cbn.
      rewrite app_nil_r. split; [done|]. split; [done|]. split; [done|]. split; [done|lia].
Qed.

Lemma wi_ok_garbage wi F t g : 0 <= t -> zlen F = iZero t -> wi_ok map_rc wi F ->
  wi_ok map_rc (<[t := g]> wi) F.
Proof.
  intros Ht HF H t' Ht' Hz. rewrite get_insert_ne; [by apply H|]. intros <-. lia.
Qed.

Lemma frames_split a n1 n2 : 0 <= n1 -> 0 <= n2 ->
  frames_from a (n1 + n2) = frames_from a n1 ++ frames_from (a + n1) n2.
Proof. intros. unfold frames_from. by rewrite seqZ_app, map_app. Qed.
Lemma frames_length a n : 0 <= n -> length (frames_from a n) = Z.to_nat n.
Proof. intros. unfold frames_from. by rewrite length_map, length_seqZ. Qed.

Context (iLastFrame : Z) (Hlast : 0 <= iLastFrame < MAX_FRAMES).

Lemma recover_pages_S n iPg s : recover_pages (S n) szPage iLastFrame iPg s =
  let iLast := Z.min iLastFrame (HASHTABLE_NPAGE_ONE + iPg * HASHTABLE_NPAGE) in
  let iFirst := 1 + iZero iPg in
  if truthy (map_rc iPg) then (map_rc iPg, s) else
  let s := mkRs (rs_w s) (<[iPg := garbage iPg]> (rs_wi s)) (rs_saved s) in
  let '(rc, s, all) := recover_frames (Z.to_nat (iLast - iFirst + 1)) szPage iFirst s in
  if negb all then (rc, s) else recover_pages n szPage iLastFrame (iPg + 1) s.
Proof. done. Qed.

Lemma recover_pages_spec n iPg s c F :
  0 <= iPg -> Z.of_nat (S n) = walFramePage iLastFrame + 1 - iPg -> iZero iPg <= iLastFrame ->
  like salt b szPage c (rs_w s) -> wi_ok map_rc (rs_wi s) F -> zlen F = iZero iPg ->
  Forall (fun x => 0 < x) F ->
  let vs := scan salt b szPage c (frames_from (iZero iPg + 1) (iLastFrame - iZero iPg)) in
  exists s', recover_pages (S n) szPage iLastFrame iPg s = (SQLITE_OK, s') /\
    commit_of s' = last_commit (iZero iPg + 1) vs (commit_of s) /\
    wi_ok map_rc (rs_wi s') (F ++ pages_of vs) /\ file_id (rs_w s') = file_id (rs_w s).
Proof.
  revert iPg s c F. induction n as [|n IH]; intros iPg s c F HiPg Hn Hz Hl Hwi HF Hpos vs;
    rewrite recover_pages_S; cbn zeta; rewrite Hmap; cbn [truthy Z.eqb negb SQLITE_OK].
  all: replace (HASHTABLE_NPAGE_ONE + iPg * HASHTABLE_NPAGE) with (iZero (iPg + 1))
    by (unfold iZero; rewrite (proj2 (Z.eqb_neq (iPg + 1) 0)) by lia; f_equal; f_equal; lia).
  all: pose proof (iZero_succ iPg HiPg) as Hsucc; pose proof (table_size_range iPg) as Hts;
    pose proof (iZero_nonneg iPg HiPg) as Hz0.
  all: set (s1 := mkRs (rs_w s) (<[iPg := garbage iPg]> (rs_wi s)) (rs_saved s)).
  all: set (cnt := Z.min iLastFrame (iZero (iPg + 1)) - (1 + iZero iPg) + 1).
  all: assert (Hcnt : 0 <= cnt) by (unfold cnt; lia).
  all: destruct (recover_frames_spec (Z.to_nat cnt) (1 + iZero iPg) s1 c F) as (s2 & Er & Hc2 & Hw2 & Hid2 & Hl2);
    [exact Hl|by apply wi_ok_garbage|lia|done|unfold cnt; lia|].
  all: rewrite Z2Nat.id in Er, Hc2, Hw2, Hl2 by done; rewrite (Z.add_comm 1) in Er, Hc2, Hw2, Hl2.
  all: set (vs1 := scan salt b szPage c (frames_from (iZero iPg + 1) cnt)) in *.
  all: rewrite (Z.add_comm 1 (iZero iPg)), Er.
  - (* last page *)
    assert (Ecnt : cnt = iLastFrame - iZero iPg).
    { unfold cnt. assert (iLastFrame <= iZero (iPg + 1)); [|lia].
      destruct (Z.eq_dec iLastFrame 0) as [E0|]; [lia|].
      destruct (walFramePage_spec iLastFrame ltac:(lia)) as [_ Hr]. cbn zeta in Hr.
      replace (walFramePage iLastFrame) with iPg in Hr by lia. lia. }
    exists s2. split; [by destruct (_ =? _)%nat|]. unfold vs. rewrite <- Ecnt. done.
  - (* a full page, then the others *)
    assert (Hfull : iZero (iPg + 1) < iLastFrame).
    { destruct (Z.eq_dec iLastFrame 0) as [E0|].
      { rewrite E0 in Hn. change (walFramePage 0) with 0 in Hn. lia. }
      destruct (walFramePage_spec iLastFrame ltac:(lia)) as [_ Hr]. cbn zeta in Hr.
      destruct (Z.eq_dec (iPg + 1) (walFramePage iLastFrame)) as [E|]; [rewrite E; lia|].
      pose proof (iZero_lt (iPg + 1) (walFramePage iLastFrame) ltac:(lia)).
      pose proof (table_size_range (iPg + 1)). lia. }
    assert (Ecnt : cnt = table_size iPg) by (unfold cnt; lia).
    assert (Evs : vs = if (length vs1 =? Z.to_nat cnt)%nat
              then vs1 ++ scan salt b szPage (end_cksum c vs1)
                            (frames_from (iZero (iPg + 1) + 1) (iLastFrame - iZero (iPg + 1)))
              else vs1).
    { unfold vs. replace (iLastFrame - iZero iPg) with (cnt + (iLastFrame - iZero (iPg + 1))) by lia.
      rewrite frames_split by lia. rewrite scan_app. cbn zeta. fold vs1.
      rewrite frames_length by lia.
      by replace (iZero iPg + 1 + cnt) with (iZero (iPg + 1) + 1) by lia. }
    destruct (Nat.eqb_spec (length vs1) (Z.to_nat cnt)) as [El|El]; cbn [negb].
    + assert (Hzv : zlen vs1 = cnt) by (unfold zlen; lia).
      assert (Hzp : zlen (pages_of vs1) = cnt) by (unfold zlen, pages_of; rewrite length_map; lia).
      destruct (IH (iPg + 1) s2 (end_cksum c vs1) (F ++ pages_of vs1)) as (s' & Ep & Hc' & Hw' & Hid');
        [lia|lia|lia|by apply Hl2|done|rewrite zlen_app; lia| |].
      { apply Forall_app. split; [done|]. apply scan_pages_pos, frames_bytes. }
      exists s'. rewrite Ep. split; [done|]. rewrite Evs. split.
      { rewrite Hc', Hc2, last_commit_app. f_equal; lia. }
      split; [|by rewrite Hid', Hid2]. unfold pages_of in *. rewrite map_app, app_assoc. exact Hw'.
    + exists s2. split; [done|]. rewrite Evs. done.
Qed.
End scan_proof.

(** *** The whole recovery *)

(** The header fields of a log that recovery accepts. *)
Definition log_szPage : Z := i32 (get4_at (take 32 file) 8).
Definition log_salt : list Z := slice (take 32 file) 16 8.
Definition log_native : bool := Z.land (get4_at (take 32 file) 0) 1 =? SQLITE_BIGENDIAN.
Definition log_cksum : Z * Z := walChecksumBytes log_native (take 32 file) 24 (0, 0).
Definition header_ok : bool :=
  (WAL_HDRSIZE <? zlen file) &&
  (Z.land (get4_at (take 32 file) 0) 0xfffffffe =? WAL_MAGIC) &&
  negb (truthy (Z.land log_szPage (log_szPage - 1))) &&
  (log_szPage <=? SQLITE_MAX_PAGE_SIZE) && (512 <=? log_szPage) &&
  (fst log_cksum =? get4_at (take 32 file) 24) && (snd log_cksum =? get4_at (take 32 file) 28) &&
  (get4_at (take 32 file) 4 =? WAL_MAX_VERSION).
Definition log_frames : Z := (zlen file - WAL_HDRSIZE) / (log_szPage + WAL_FRAME_HDRSIZE).

(** The valid frames of the file. *)
Definition valid_frames : list (Z * Z * (Z * Z)) :=
  scan log_salt log_native log_szPage log_cksum (frames_from log_szPage 1 log_frames).

Lemma wi_ok_empty wi : wi_ok map_rc wi [].
Proof. intros t Ht Hz. change (zlen (@nil Z)) with 0 in Hz. pose proof (iZero_nonneg t Ht). lia. Qed.

Lemma recover_log_spec wi w : (forall t, map_rc t = SQLITE_OK) -> bytes_ok file ->
  header_ok = true -> log_frames < MAX_FRAMES ->
  exists s, recover_log wi w = (SQLITE_OK, s) /\
    commit_of s = last_commit 1 valid_frames (0, 0, (0, 0)) /\
    wi_ok map_rc (rs_wi s) (pages_of valid_frames) /\
    file_id (rs_w s) = (Z.land (get4_at (take 32 file) 0) 1, log_salt, log_szPage, get4_at (take 32 file) 12).
Proof.
  intros Hmap Hb Hh Hf. unfold header_ok in Hh. rewrite !andb_true_iff in Hh.
  destruct Hh as [[[[[[[H1 H2] H3] H4] H5] H6] H7] H8].
  apply Z.ltb_lt in H1. apply Z.leb_le in H4, H5. apply negb_true_iff in H3.
  unfold recover_log. rewrite (proj2 (Z.leb_gt _ _)) by lia.
  change (Z.to_nat WAL_HDRSIZE) with 32%nat. cbn zeta. fold log_szPage log_salt.
  rewrite H2, H3, (proj2 (Z.ltb_ge SQLITE_MAX_PAGE_SIZE _)), (proj2 (Z.ltb_ge log_szPage 512)) by lia.
  cbn [negb orb]. change (WAL_HDRSIZE - 2 * 4) with 24. fold log_native. fold log_cksum.
  rewrite H6, H7, H8. cbn [negb orb]. fold log_frames.
  assert (Hf0 : 0 <= log_frames).
  { unfold log_frames. apply Z.div_pos; unfold WAL_FRAME_HDRSIZE; lia. }
  set (s1 := mkRs _ wi (0, 0)).
  assert (Hwp : 0 <= walFramePage log_frames) by (apply Z.div_pos; [apply Z.mod_pos_bound; lia|done]).
  replace (Z.to_nat (walFramePage log_frames + 1)) with (S (Z.to_nat (walFramePage log_frames))) by lia.
  destruct (recover_pages_spec Hmap Hb log_szPage log_salt log_native log_frames ltac:(lia)
              (Z.to_nat (walFramePage log_frames)) 0 s1 log_cksum []) as (s' & Ep & Hc & Hw & Hid);
    [lia|lia|rewrite iZero_0; lia|done|apply wi_ok_empty|done|constructor|].
  exists s'. rewrite Ep. rewrite iZero_0, Z.sub_0_r in Hc, Hw. change (0 + 1) with 1 in Hc, Hw.
  fold valid_frames in Hc, Hw. split; [done|]. split; [by rewrite Hc|]. split; [exact Hw|].
  by rewrite Hid.
Qed.

(** C8. Crash recovery: on a log whose header is valid, whatever bytes follow it,
    [walIndexRecover] publishes exactly the last commit of the longest prefix of
    valid frames (frame number, database size and checksum), resets the checkpoint
    information, and builds a wal-index that holds the pages of those frames. *)
Theorem recovery_exact (w : Wal) (wi : gmap Z WalHash) (info : WalCkptInfo)
  (Hmap : forall t, map_rc t = SQLITE_OK) (Hlock : lock_rc = SQLITE_OK) (Hbytes : bytes_ok file)
  (Hheader : header_ok = true) (Hframes : log_frames < MAX_FRAMES) :
  exists rc w' wi' marks h,
    walIndexRecover w wi info = (rc, w', wi', mkCkpt 0 marks (h_mxFrame h), Some h) /\
    (h_mxFrame h, h_nPage h, h_aFrameCksum h) = last_commit 1 valid_frames (0, 0, (0, 0)) /\
    h_aSalt h = log_salt /\ h_isInit h = 1 /\ hdr w' = h /\ w_szPage w' = log_szPage /\
    wi_ok map_rc wi' (pages_of valid_frames).
Proof.
  unfold walIndexRecover. rewrite Hlock. cbn [truthy Z.eqb negb SQLITE_OK].
  destruct (recover_log_spec wi w Hmap Hbytes Hheader Hframes) as (s & E & Hc & Hw & Hid).
  rewrite E. cbn [truthy Z.eqb negb SQLITE_OK].
  destruct (recover_marks 4 1 _ _) as [[rc marks] ok] eqn:Em.
  do 5 eexists. split; [reflexivity|]. cbn [h_mxFrame h_nPage h_aFrameCksum h_aSalt h_isInit hdr w_szPage].
  unfold file_id in Hid. injection Hid as _ Hs Hz _. unfold commit_of in Hc. auto 8.
Qed.
End recovery.

(** ** Frames that were written are valid *)

(** The four bytes of a big-endian word. *)
Definition be4 (v : Z) : list Z := [u8 (Z.shiftr v 24); u8 (Z.shiftr v 16); u8 (Z.shiftr v 8); u8 v].

Lemma be4_len v : length (be4 v) = 4%nat.
Proof. done. Qed.
Lemma get4_be4 v r : is_u32 v -> sqlite3Get4byte (be4 v ++ r) = v.
Proof.
  intros Hv. unfold be4. cbn [app]. rewrite get4_sum by apply u8_range. rewrite !u8_div by lia.
  unfold u8, is_u32 in *. Z.div_mod_to_equations; lia.
Qed.
Lemma put4_at_app p q v i : i = zlen p -> 4 <= zlen q -> put4_at (p ++ q) i v = p ++ be4 v ++ drop 4 q.
Proof.
  intros -> Hq. unfold put4_at, zlen. rewrite Nat2Z.id, take_app_length, drop_app_length.
  by rewrite put4_splice, splice_0.
Qed.
Lemma get4_at_app p v r i : i = zlen p -> is_u32 v -> get4_at (p ++ be4 v ++ r) i = v.
Proof. intros -> Hv. unfold get4_at, zlen. rewrite Nat2Z.id, drop_app_length. by apply get4_be4. Qed.

Lemma cksum_u32 s x y : is_u32 (fst (cksum_step s x y)) /\ is_u32 (snd (cksum_step s x y)).
Proof. unfold cksum_step, is_u32. destruct s. cbn. split; apply Z.mod_pos_bound; lia. Qed.

(** Eight bytes or more make the checksum a pair of 32-bit numbers. *)
Definition cksum_ok (c : Z * Z) : Prop := is_u32 (fst c) /\ is_u32 (snd c).
Lemma cksum_swap_ok n ws c : (length ws <= n)%nat -> cksum_ok c -> cksum_ok (cksum_swap ws c).
Proof.
  revert ws c. induction n as [|n IH]; intros [|x [|y r]] c Hl Hc; cbn in Hl |- *; try done; try lia.
  apply IH; [lia|apply cksum_u32].
Qed.
Lemma cksum_pairs_ok n ws c : (length ws <= n)%nat -> cksum_ok c -> cksum_ok (cksum_pairs ws c).
Proof.
  revert ws c. induction n as [|n IH]; intros [|x [|y r]] c Hl Hc; cbn in Hl |- *; try done; try lia.
  apply IH; [lia|apply cksum_u32].
Qed.

(** The unrolled loop computes what the simple one does. *)
Lemma cksum_unroll n ws s : length ws = (16 * n)%nat -> cksum_unrolled ws s = cksum_pairs ws s.
Proof.
  revert ws s. induction n as [|n IH]; intros ws s Hl.
  { destruct ws; [done|discriminate Hl]. }
  do 16 (destruct ws as [|? ws]; [cbn in Hl; lia|]). cbn [cksum_unrolled cksum_pairs].
  apply IH. cbn [length] in Hl. lia.
Qed.
Lemma words_length n a : length a = (4 * n)%nat -> length (words a) = n.
Proof.
  revert a. induction n as [|n IH]; intros a Hl; [by destruct a|].
  do 4 (destruct a as [|? a]; [cbn in Hl; lia|]). cbn [words length]. f_equal. apply IH.
  cbn [length] in Hl. lia.
Qed.
Lemma swap_is_be b0 b1 b2 b3 : is_u8 b0 -> is_u8 b1 -> is_u8 b2 -> is_u8 b3 ->
  BYTESWAP32 (b0 + 2 ^ 8 * b1 + 2 ^ 16 * b2 + 2 ^ 24 * b3) = ((b0 * 256 + b1) * 256 + b2) * 256 + b3.
Proof.
  unfold is_u8, BYTESWAP32. intros H0 H1 H2 H3.
  set (x := b0 + 2 ^ 8 * b1 + 2 ^ 16 * b2 + 2 ^ 24 * b3).
  assert (Hm : forall k m, 0 <= k -> m = Z.shiftl 255 k -> Z.land x m = (x / 2 ^ k mod 256) * 2 ^ k).
  { intros k m Hk ->. rewrite <- Z.shiftl_mul_pow2 by done.
    replace (x / 2 ^ k mod 256) with (Z.land (Z.shiftr x k) 255)
      by (rewrite Z.shiftr_div_pow2 by done; change 255 with (Z.ones 8); by rewrite Z.land_ones by lia).
    apply Z.bits_inj'. intros n Hn. rewrite Z.land_spec, !Z.shiftl_spec, Z.land_spec by done.
    destruct (Z.le_gt_cases k n).
    - rewrite Z.shiftr_spec by lia. by replace (n - k + k) with n by lia.
    - rewrite !(Z.testbit_neg_r _ (n - k)) by lia. by rewrite andb_false_r. }
  rewrite (Hm 0 0xff), (Hm 8 0xff00), (Hm 16 0xff0000), (Hm 24 0xff000000) by (lia || done).
  assert (E0 : x / 2 ^ 0 mod 256 = b0) by (unfold x; Z.div_mod_to_equations; lia).
  assert (E1 : x / 2 ^ 8 mod 256 = b1) by (unfold x; Z.div_mod_to_equations; lia).
  assert (E2 : x / 2 ^ 16 mod 256 = b2) by (unfold x; Z.div_mod_to_equations; lia).
  assert (E3 : x / 2 ^ 24 mod 256 = b3) by (unfold x; Z.div_mod_to_equations; lia).
  rewrite E0, E1, E2, E3. rewrite !Z.shiftl_mul_pow2, !Z.shiftr_div_pow2 by lia.
  replace (b3 * 2 ^ 24 / 2 ^ 24) with b3 by (by rewrite Z.div_mul by lia).
  replace (b2 * 2 ^ 16 / 2 ^ 8) with (b2 * 2 ^ 8).
  2: { replace (b2 * 2 ^ 16) with (b2 * 2 ^ 8 * 2 ^ 8) by lia. by rewrite Z.div_mul by lia. }
  clear - H0 H1 H2 H3. unfold u32. rewrite Z.pow_0_r.
  rewrite (Z.mod_small (b0 * 1 * 2 ^ 24)), (Z.mod_small (b1 * 2 ^ 8 * 2 ^ 8)) by lia.
  rewrite (Z.mod_small (_ + b1 * 2 ^ 8 * 2 ^ 8)) by lia. rewrite (Z.mod_small (_ + b2 * 2 ^ 8)) by lia.
  rewrite Z.mod_small by lia. lia.
Qed.

(** The big-endian words of a byte array. *)
Fixpoint be_words (a : list Z) : list Z :=
  match a with
  | b0 :: b1 :: b2 :: b3 :: r => (((b0 * 256 + b1) * 256 + b2) * 256 + b3) :: be_words r
  | _ => []
  end.

Lemma cksum_swap_be n a c : length a = (8 * n)%nat -> bytes_ok a ->
  cksum_swap (words a) c = cksum_pairs (be_words a) c.
Proof.
  revert a c. induction n as [|n IH]; intros a c Hl Hb; [by destruct a|].
  do 8 (destruct a as [|? a]; [cbn in Hl; lia|]). unfold bytes_ok in Hb. rewrite !Forall_cons in Hb.
  destruct_and?. cbn [words be_words cksum_swap cksum_pairs]. rewrite !swap_is_be by done.
  apply IH; [cbn [length] in Hl; lia|done].
Qed.

Lemma len_multiple {A} (l : list A) k : (0 < k)%nat -> zlen l mod Z.of_nat k = 0 ->
  length l = (k * (length l / k))%nat.
Proof.
  unfold zlen. intros Hk H. rewrite <- Nat2Z.inj_mod in H. pose proof (Nat.div_mod_eq (length l) k). lia.
Qed.

(** The checksum routine: on a whole number of 8-byte groups, [walChecksumBytes]
    is the running sum over the 32-bit words of the data, big-endian or in machine
    order as asked; unrolling and byte swapping change nothing. *)
Theorem checksum_reference (nat_ : bool) (a : list Z) (c : Z * Z)
  (Hlen : zlen a mod 8 = 0) (Hbytes : bytes_ok a) :
  walChecksumBytes nat_ a (zlen a) c = cksum_pairs (if nat_ then words a else be_words a) c.
Proof.
  unfold walChecksumBytes. rewrite take_ge by (unfold zlen; lia).
  destruct nat_; cbn [negb]; [|eapply cksum_swap_be; [apply (len_multiple a 8); [lia|done]|done]].
  destruct (Z.eqb_spec (zlen a mod 64) 0) as [E|]; [|done].
  apply (len_multiple a 64) in E; [|lia]. apply (cksum_unroll (length a / 64)).
  apply words_length. lia.
Qed.
Lemma checksum_reference_witness :
  walChecksumBytes false [1; 2; 3; 4; 5; 6; 7; 8] 8 (0, 0) =
  cksum_pairs (be_words [1; 2; 3; 4; 5; 6; 7; 8]) (0, 0).
Proof. apply (checksum_reference false [1; 2; 3; 4; 5; 6; 7; 8]); by_compute. Defined.

Lemma walChecksum_ok b a n c : n <> 0 -> n mod 8 = 0 -> n <= zlen a -> 0 <= n -> cksum_ok c ->
  cksum_ok (walChecksumBytes b a n c).
Proof.
  intros Hn0 Hn Hl H0 Hc. unfold walChecksumBytes. destruct b; cbn [negb].
  - destruct (Z.eqb_spec (n mod 64) 0) as [E|]; [|by eapply cksum_pairs_ok].
    assert (Hz : zlen (take (Z.to_nat n) a) = n) by (apply zlen_take; lia).
    rewrite <- Hz in E. apply (len_multiple _ 64) in E; [|lia].
    rewrite (cksum_unroll (length (take (Z.to_nat n) a) / 64)); [by eapply cksum_pairs_ok|].
    apply words_length. lia.
  - by eapply cksum_swap_ok.
Qed.

(** The checksum of a frame: first eight bytes of its header, then the page. *)
Definition frame_cksum (w : Wal) (iPage nTruncate : Z) (aData : list Z) : Z * Z :=
  walChecksumBytes (native w) aData (w_szPage w)
    (walChecksumBytes (native w) (be4 iPage ++ be4 nTruncate) 8 (h_aFrameCksum (hdr w))).

Lemma take8_cksum b r p q c : length p = 4%nat -> length q = 4%nat ->
  walChecksumBytes b (p ++ q ++ r) 8 c = walChecksumBytes b (p ++ q) 8 c.
Proof.
  intros Hp Hq. unfold walChecksumBytes. change (Z.to_nat 8) with 8%nat.
  rewrite app_assoc, take_app_le by (rewrite length_app; lia). done.
Qed.

(** The bytes of an encoded frame header. *)
Lemma encode_bytes w iPage nTruncate aData aFrame : zlen aFrame = 24 -> zlen (h_aSalt (hdr w)) = 8 ->
  w_iReCksum w = 0 ->
  let c := frame_cksum w iPage nTruncate aData in
  walEncodeFrame w iPage nTruncate aData aFrame =
    (be4 iPage ++ be4 nTruncate ++ h_aSalt (hdr w) ++ be4 (fst c) ++ be4 (snd c), set_cksum w c).
Proof.
  intros Hf Hs Hr. unfold walEncodeFrame. rewrite Hr. cbn [Z.eqb].
  assert (Hf' : length aFrame = 24%nat) by (unfold zlen in Hf; lia).
  assert (Hs' : length (h_aSalt (hdr w)) = 8%nat) by (unfold zlen in Hs; lia).
  rewrite (put4_at_app [] aFrame) by (done || lia). cbn [app].
  rewrite (put4_at_app (be4 iPage)) by (done || (unfold zlen; rewrite length_drop; lia)).
  rewrite drop_drop. change (4 + 4)%nat with 8%nat.
  set (salt := h_aSalt (hdr w)) in *.
  assert (E8 : splice (be4 iPage ++ be4 nTruncate ++ drop 8 aFrame) 8 salt =
               be4 iPage ++ be4 nTruncate ++ salt ++ drop 16 aFrame).
  { unfold splice. change (Z.to_nat 8) with 8%nat.
    rewrite (app_assoc (be4 iPage) (be4 nTruncate) (drop 8 aFrame)).
    rewrite take_app_length' by reflexivity. rewrite drop_app_ge by (rewrite length_app, !be4_len; lia).
    rewrite drop_drop, length_app, !be4_len, Hs'. change (8 + (8 + 8 - (4 + 4)))%nat with 16%nat.
    by rewrite <- app_assoc. }
  rewrite E8, take8_cksum by done.
  fold (frame_cksum w iPage nTruncate aData). set (c := frame_cksum w iPage nTruncate aData).
  assert (E16 : put4_at (be4 iPage ++ be4 nTruncate ++ salt ++ drop 16 aFrame) 16 (fst c) =
                be4 iPage ++ be4 nTruncate ++ salt ++ be4 (fst c) ++ drop 20 aFrame).
  { rewrite !app_assoc, put4_at_app.
    - by rewrite drop_drop, <- !app_assoc.
    - unfold zlen. rewrite !length_app, !be4_len, Hs'. done.
    - unfold zlen. rewrite length_drop. lia. }
  rewrite E16.
  assert (E20 : put4_at (be4 iPage ++ be4 nTruncate ++ salt ++ be4 (fst c) ++ drop 20 aFrame) 20 (snd c) =
                be4 iPage ++ be4 nTruncate ++ salt ++ be4 (fst c) ++ be4 (snd c)).
  { rewrite !app_assoc, put4_at_app.
    - rewrite drop_drop, (drop_ge aFrame) by (rewrite Hf'; lia). by rewrite app_nil_r, <- !app_assoc.
    - unfold zlen. rewrite !length_app, !be4_len, Hs'. done.
    - unfold zlen. rewrite length_drop. lia. }
  by rewrite E20.
Qed.

(** What a writer needs of its state, and of a page. *)
Definition writer_ok (w : Wal) : Prop :=
  zlen (h_aSalt (hdr w)) = 8 /\ w_iReCksum w = 0 /\ cksum_ok (h_aFrameCksum (hdr w)) /\
  0 < w_szPage w /\ w_szPage w mod 8 = 0.

(** A frame that was encoded is accepted, with the same running checksum. *)
Lemma decode_encoded w iPage nTruncate aData aFrame :
  writer_ok w -> zlen aFrame = 24 -> zlen aData = w_szPage w -> is_u32 iPage -> iPage <> 0 ->
  is_u32 nTruncate ->
  let '(fr, w') := walEncodeFrame w iPage nTruncate aData aFrame in
  decode_core (h_aSalt (hdr w)) (native w) (w_szPage w) (h_aFrameCksum (hdr w)) (fr ++ aData) =
    (Some (iPage, nTruncate), h_aFrameCksum (hdr w')) /\ writer_ok w' /\ zlen fr = 24 /\
  h_aSalt (hdr w') = h_aSalt (hdr w) /\ native w' = native w /\ w_szPage w' = w_szPage w.
Proof.
  intros (Hs & Hr & Hc & Hz & Hm) Hf Hd Hp Hp0 Hn. rewrite encode_bytes by done.
  set (c := frame_cksum w iPage nTruncate aData).
  assert (Hcok : cksum_ok c).
  { apply walChecksum_ok; [lia|done|lia|lia|]. apply walChecksum_ok; [lia|done| |lia|done].
    unfold zlen. by rewrite length_app. }
  set (salt := h_aSalt (hdr w)) in *. assert (Hs' : length salt = 8%nat) by (unfold zlen in Hs; lia).
  split.
  - unfold decode_core. rewrite <- !app_assoc.
    assert (Esl : slice (be4 iPage ++ be4 nTruncate ++ salt ++ be4 (fst c) ++ be4 (snd c) ++ aData) 8 8 = salt).
    { unfold slice. change (Z.to_nat 8) with 8%nat. rewrite app_assoc, drop_app_length' by done.
      by rewrite take_app_length' by done. }
    rewrite Esl, bool_decide_eq_true_2 by done. cbn [negb].
    assert (E0 : get4_at (be4 iPage ++ be4 nTruncate ++ salt ++ be4 (fst c) ++ be4 (snd c) ++ aData) 0 = iPage)
      by (by apply (get4_at_app [])).
    rewrite E0, (proj2 (Z.eqb_neq _ _)) by done.
    assert (E4 : get4_at (be4 iPage ++ be4 nTruncate ++ salt ++ be4 (fst c) ++ be4 (snd c) ++ aData) 4 = nTruncate)
      by (by apply get4_at_app).
    assert (E16 : get4_at (be4 iPage ++ be4 nTruncate ++ salt ++ be4 (fst c) ++ be4 (snd c) ++ aData) 16 = fst c).
    { rewrite (app_assoc (be4 iPage)), (app_assoc _ salt). apply get4_at_app; [|apply Hcok].
      unfold zlen. rewrite !length_app, !be4_len, Hs'. done. }
    assert (E20 : get4_at (be4 iPage ++ be4 nTruncate ++ salt ++ be4 (fst c) ++ be4 (snd c) ++ aData) 20 = snd c).
    { rewrite (app_assoc (be4 iPage)), (app_assoc _ salt), (app_assoc _ (be4 (fst c))). apply get4_at_app; [|apply Hcok].
      unfold zlen. rewrite !length_app, !be4_len, Hs'. done. }
    assert (Ed : drop (Z.to_nat WAL_FRAME_HDRSIZE)
        (be4 iPage ++ be4 nTruncate ++ salt ++ be4 (fst c) ++ be4 (snd c) ++ aData) = aData).
    { rewrite !app_assoc. apply drop_app_length'. rewrite !length_app, !be4_len, Hs'. done. }
    rewrite E4, E16, E20, Ed, take8_cksum by done. cbn zeta. fold (frame_cksum w iPage nTruncate aData).
    fold c. rewrite !Z.eqb_refl. done.
  - split; [split; [done|]; split; [done|]; done|]. split; [|done].
    unfold zlen. rewrite !length_app, !be4_len, Hs'. done.
Qed.

(** ** A log that was written *)

(** Page number, commit mark and contents of the frames of a log. *)
Definition wframe : Type := Z * Z * list Z.
Definition wframe_ok (szPage : Z) (f : wframe) : Prop :=
  let '(p, n, d) := f in is_u32 p /\ p <> 0 /\ is_u32 n /\ zlen d = szPage /\ bytes_ok d.

(** The frames as they are written one after the other. *)
Fixpoint write_frames (w : Wal) (fs : list wframe) : list (list Z) :=
  match fs with
  | (p, n, d) :: fs' =>
      let '(fr, w') := walEncodeFrame w p n d (replicate 24 0) in (fr ++ d) :: write_frames w' fs'
  | [] => []
  end.

Lemma write_frames_scan w fs : writer_ok w -> Forall (wframe_ok (w_szPage w)) fs ->
  map fst (scan (h_aSalt (hdr w)) (native w) (w_szPage w) (h_aFrameCksum (hdr w)) (write_frames w fs)) =
    map fst fs /\
  Forall (fun l => zlen l = w_szPage w + 24) (write_frames w fs).
Proof.
  intros Hw Hf. revert w Hw Hf. induction fs as [|[[p n] d] fs IH]; intros w Hw Hf; [by split|].
  inversion_clear Hf as [|? ? Hf1 Hfs]. destruct Hf1 as (Hp & Hp0 & Hn & Hd & Hdb).
  cbn [write_frames].
  pose proof (decode_encoded w p n d (replicate 24 0) Hw eq_refl Hd Hp Hp0 Hn) as H.
  destruct (walEncodeFrame w p n d (replicate 24 0)) as [fr w'].
  destruct H as (Hdec & Hw' & Hfr & Es & En & Ez).
  destruct (IH w' Hw') as [IH1 IH2]; [by rewrite Ez|]. rewrite Es, En, Ez in *.
  cbn [scan]. rewrite Hdec. cbn [map fst]. split; [by rewrite IH1|].
  constructor; [|done]. rewrite zlen_app. lia.
Qed.

Lemma slice_concat (k : Z) (L : list (list Z)) (pre tail : list Z) (a : Z) : 0 <= k ->
  Forall (fun l => zlen l = k) L ->
  map (fun i => slice (pre ++ concat L ++ tail) (zlen pre + (i - a) * k) k) (seqZ a (zlen L)) = L.
Proof.
  intros Hk HL. revert pre a. induction HL as [|l L Hl HL IH]; intros pre a; [done|].
  rewrite zlen_cons, seqZ_cons by (pose proof (zlen_nonneg L); lia). cbn [map concat].
  replace (Z.pred (1 + zlen L)) with (zlen L) by lia. f_equal.
  - rewrite Z.sub_diag, Z.mul_0_l, Z.add_0_r. unfold slice, zlen in *.
    rewrite Nat2Z.id, <- app_assoc, drop_app_length. apply take_app_length'. lia.
  - rewrite <- (IH (pre ++ l) (Z.succ a)) at 2. apply map_ext. intros i.
    rewrite <- !app_assoc. f_equal. rewrite zlen_app. lia.
Qed.

Lemma header_bytes w szPage : zlen (h_aSalt (hdr w)) = 8 ->
  exists c, cksum_ok c /\
  c = walChecksumBytes true (be4 WAL_MAGIC ++ be4 WAL_MAX_VERSION ++ be4 szPage ++ be4 (w_nCkpt w) ++ h_aSalt (hdr w))
        24 (0, 0) /\
  fst (wal_header w szPage) =
    be4 WAL_MAGIC ++ be4 WAL_MAX_VERSION ++ be4 szPage ++ be4 (w_nCkpt w) ++ h_aSalt (hdr w)
      ++ be4 (fst c) ++ be4 (snd c) /\
  h_aFrameCksum (hdr (snd (wal_header w szPage))) = c.
Proof.
  intros Hs. set (salt := h_aSalt (hdr w)) in *.
  assert (Hs' : length salt = 8%nat) by (unfold zlen in Hs; lia).
  set (h := be4 WAL_MAGIC ++ be4 WAL_MAX_VERSION ++ be4 szPage ++ be4 (w_nCkpt w) ++ salt).
  assert (Hh : length h = 24%nat) by (unfold h; rewrite !length_app, !be4_len, Hs'; done).
  exists (walChecksumBytes true h 24 (0, 0)). set (c := walChecksumBytes true h 24 (0, 0)).
  split. { apply walChecksum_ok; [lia|done|unfold zlen; rewrite Hh; done|lia|by split]. }
  split; [done|]. unfold wal_header. fold salt.
  change (Z.lor WAL_MAGIC SQLITE_BIGENDIAN) with WAL_MAGIC.
  set (a4 := put4_at (put4_at (put4_at (put4_at (replicate 32 0) 0 WAL_MAGIC) 4 WAL_MAX_VERSION) 8 szPage) 12 (w_nCkpt w)).
  assert (E4 : a4 = (be4 WAL_MAGIC ++ be4 WAL_MAX_VERSION ++ be4 szPage ++ be4 (w_nCkpt w)) ++ replicate 16 0) by done.
  assert (E5 : splice a4 16 salt = h ++ replicate 8 0).
  { rewrite E4. unfold splice. change (Z.to_nat 16) with 16%nat. rewrite take_app_length' by done.
    rewrite drop_app_ge by (rewrite Hs'; cbn; lia). rewrite Hs'. unfold h. by rewrite <- !app_assoc. }
  rewrite E5. change (WAL_HDRSIZE - 2 * 4) with 24.
  assert (Ec : walChecksumBytes true (h ++ replicate 8 0) 24 (0, 0) = c).
  { unfold c, walChecksumBytes. change (Z.to_nat 24) with 24%nat.
    by rewrite take_app_le by lia. }
  rewrite Ec. cbn [fst snd hdr h_aFrameCksum]. split; [|done].
  rewrite (put4_at_app h) by (unfold zlen; rewrite ?Hh; done). change (drop 4 (replicate 8 0)) with (replicate 4 0).
  rewrite app_assoc, put4_at_app.
  - change (drop 4 (replicate 4 0)) with (@nil Z). rewrite app_nil_r. unfold h. by rewrite <- !app_assoc.
  - unfold zlen. rewrite length_app, Hh. done.
  - done.
Qed.

(** The last commit of a log: its frame number and database size. *)
Fixpoint committed (k : Z) (fs : list wframe) (acc : Z * Z) : Z * Z :=
  match fs with
  | (_, n, _) :: fs' => committed (k + 1) fs' (if truthy n then (k, n) else acc)
  | [] => acc
  end.

Lemma last_commit_committed k vs fs acc : map fst vs = map fst fs ->
  fst (last_commit k vs acc) = committed k fs (fst acc).
Proof.
  revert k fs acc. induction vs as [|[[p n] c] vs IH]; intros k [|[[p' n'] d] fs] acc H; try discriminate H.
  - done.
  - cbn in H. injection H as -> -> H. cbn [last_commit committed].
    rewrite (IH _ fs) by done. by destruct (truthy n').
Qed.

Definition page_size_ok (szPage : Z) : Prop :=
  512 <= szPage <= SQLITE_MAX_PAGE_SIZE /\ Z.land szPage (szPage - 1) = 0 /\ szPage mod 8 = 0.

Lemma write_frames_length w fs : length (write_frames w fs) = length fs.
Proof.
  revert w. induction fs as [|[[p n] d] fs IH]; intros w; cbn [write_frames]; [done|].
  destruct (walEncodeFrame w p n d (replicate 24 0)). cbn [length]. by rewrite IH.
Qed.

Section written.
Context (w : Wal) (szPage : Z) (fs : list wframe) (tail : list Z).
Context (Hsalt : zlen (h_aSalt (hdr w)) = 8) (Hsaltb : bytes_ok (h_aSalt (hdr w))).
Context (Hckpt : is_u32 (w_nCkpt w)) (Hre : w_iReCksum w = 0) (Hsz : page_size_ok szPage).
Context (Hfs : Forall (wframe_ok szPage) fs).
Context (Htail : zlen tail < szPage + WAL_FRAME_HDRSIZE) (Htailb : bytes_ok tail).

(** The file: header, frames, and what is left of a frame that was cut short. *)
Definition written_file : list Z :=
  fst (wal_header w szPage) ++ concat (write_frames (snd (wal_header w szPage)) fs) ++ tail.

Lemma written_header : (fs <> [] \/ tail <> []) ->
  header_ok written_file = true /\ log_szPage written_file = szPage /\
  log_salt written_file = h_aSalt (hdr w) /\ log_native written_file = true /\
  log_cksum written_file = h_aFrameCksum (hdr (snd (wal_header w szPage))) /\
  log_frames written_file = zlen fs.
Proof.
  intros Hne. destruct (header_bytes w szPage Hsalt) as (c & Hc & Ec & Eh & Ecc).
  destruct Hsz as ([Hz1 Hz2] & Hz3 & Hz4). unfold SQLITE_MAX_PAGE_SIZE in Hz2.
  set (salt := h_aSalt (hdr w)) in *. assert (Hs' : length salt = 8%nat) by (unfold zlen in Hsalt; lia).
  set (h := fst (wal_header w szPage)) in *. set (w1 := snd (wal_header w szPage)) in *.
  assert (Hh : length h = 32%nat) by (rewrite Eh, !length_app, !be4_len, Hs'; done).
  assert (Et : take 32 written_file = h) by (unfold written_file; fold h; by apply take_app_length').
  assert (Hw1 : writer_ok w1).
  { split; [done|]. split; [done|]. rewrite Ecc. split; [done|]. cbn. lia. }
  destruct (write_frames_scan w1 fs Hw1 Hfs) as [Hscan Hlens]. change (w_szPage w1) with szPage in *.
  assert (Hlf : length (write_frames w1 fs) = length fs).
  { apply write_frames_length. }
  assert (Hcl : zlen (concat (write_frames w1 fs)) = zlen fs * (szPage + 24)).
  { unfold zlen. rewrite <- Hlf. clear - Hlens. induction Hlens as [|l L Hl _ IH]; [done|].
    cbn [concat]. rewrite length_app. cbn [length]. unfold zlen in Hl. lia. }
  assert (Hfl : zlen written_file = 32 + zlen fs * (szPage + 24) + zlen tail).
  { unfold written_file. fold h w1. rewrite !zlen_app, Hcl. unfold zlen at 1. rewrite Hh. lia. }
  assert (G0 : get4_at h 0 = WAL_MAGIC) by (rewrite Eh; by apply (get4_at_app [])).
  assert (G4 : get4_at h 4 = WAL_MAX_VERSION) by (rewrite Eh; by apply get4_at_app).
  assert (G8 : get4_at h 8 = szPage).
  { rewrite Eh, (app_assoc (be4 WAL_MAGIC)). apply get4_at_app; [done|]. unfold is_u32. lia. }
  assert (G24 : get4_at h 24 = fst c).
  { rewrite Eh, (app_assoc (be4 WAL_MAGIC)), (app_assoc _ (be4 szPage)),
      (app_assoc _ (be4 (w_nCkpt w))), (app_assoc _ salt).
    apply get4_at_app; [|apply Hc]. unfold zlen. rewrite !length_app, !be4_len, Hs'. done. }
  assert (G28 : get4_at h 28 = snd c).
  { rewrite Eh, (app_assoc (be4 WAL_MAGIC)), (app_assoc _ (be4 szPage)),
      (app_assoc _ (be4 (w_nCkpt w))), (app_assoc _ salt), (app_assoc _ (be4 (fst c))).
    rewrite <- (app_nil_r (be4 (snd c))).
    apply get4_at_app; [|apply Hc]. unfold zlen. rewrite !length_app, !be4_len, Hs'. done. }
  assert (Esz : log_szPage written_file = szPage).
  { unfold log_szPage. rewrite Et, G8. unfold i32. rewrite Z.mod_small by lia. lia. }
  assert (Esalt : log_salt written_file = salt).
  { unfold log_salt. rewrite Et, Eh. unfold slice. change (Z.to_nat 16) with 16%nat.
    rewrite (app_assoc (be4 WAL_MAGIC)), (app_assoc _ (be4 szPage)), (app_assoc _ (be4 (w_nCkpt w))).
    rewrite drop_app_length' by done. by apply take_app_length'. }
  assert (Enat : log_native written_file = true) by (unfold log_native; by rewrite Et, G0).
  assert (Ecks : log_cksum written_file = c).
  { unfold log_cksum. rewrite Enat, Et, Ec, Eh. unfold walChecksumBytes. change (Z.to_nat 24) with 24%nat.
    rewrite (app_assoc (be4 WAL_MAGIC)), (app_assoc _ (be4 szPage)), (app_assoc _ (be4 (w_nCkpt w))), (app_assoc _ salt).
    rewrite take_app_le by (rewrite !length_app, !be4_len, Hs'; lia). by rewrite <- !app_assoc. }
  split; [|split; [done|split; [done|split; [done|split; [by rewrite Ecks|]]]]].
  - unfold header_ok. rewrite Esz, Ecks, Et, G0, G4, G24, G28, Hz3, !Z.eqb_refl.
    assert (Hl : WAL_HDRSIZE < zlen written_file).
    { rewrite Hfl. unfold WAL_HDRSIZE. pose proof (zlen_nonneg tail). pose proof (zlen_nonneg fs).
      destruct Hne as [Hne|Hne].
      - assert (0 < zlen fs) by (destruct fs; [done|rewrite zlen_cons; pose proof (zlen_nonneg l); lia]). nia.
      - assert (0 < zlen tail) by (destruct tail; [done|rewrite zlen_cons; pose proof (zlen_nonneg l); lia]). nia. }
    rewrite (proj2 (Z.ltb_lt _ _) Hl), (proj2 (Z.leb_le 512 szPage)), (proj2 (Z.leb_le szPage _)) by done. done.
  - unfold log_frames. rewrite Esz, Hfl. unfold WAL_HDRSIZE, WAL_FRAME_HDRSIZE in *.
    replace (32 + zlen fs * (szPage + 24) + zlen tail - 32) with (zlen tail + zlen fs * (szPage + 24)) by lia.
    rewrite Z.div_add by lia. rewrite Z.div_small; [lia|]. pose proof (zlen_nonneg tail). lia.
Qed.

Lemma be4_bytes v : bytes_ok (be4 v).
Proof. unfold bytes_ok, be4. rewrite !Forall_cons. repeat split; try apply u8_range; constructor. Qed.

Lemma write_frames_bytes w0 l : w_iReCksum w0 = 0 -> zlen (h_aSalt (hdr w0)) = 8 -> bytes_ok (h_aSalt (hdr w0)) ->
  Forall (wframe_ok szPage) l -> bytes_ok (concat (write_frames w0 l)).
Proof.
  intros Hr Hs Hb Hl. revert w0 Hr Hs Hb. induction Hl as [|[[p n] d] l Hf Hl IH]; intros w0 Hr Hs Hb;
    [constructor|]. cbn [write_frames]. rewrite encode_bytes by done. cbn [concat].
  destruct Hf as (_ & _ & _ & _ & Hd). unfold bytes_ok in *. rewrite !Forall_app.
  repeat split; try apply be4_bytes; try done. by apply IH.
Qed.

Lemma written_bytes : bytes_ok written_file.
Proof.
  unfold written_file. destruct (header_bytes w szPage Hsalt) as (c & _ & _ & -> & _).
  unfold bytes_ok. rewrite !Forall_app. repeat split; try apply be4_bytes; try done.
  by apply write_frames_bytes.
Qed.

Lemma written_frames : (fs <> [] \/ tail <> []) ->
  frames_from written_file szPage 1 (zlen fs) = write_frames (snd (wal_header w szPage)) fs.
Proof.
  intros Hne. destruct (header_bytes w szPage Hsalt) as (c & Hc & Ec & Eh & Ecc).
  destruct Hsz as ([Hz1 Hz2] & Hz3 & Hz4). unfold frames_from, frame_at, written_file.
  set (w1 := snd (wal_header w szPage)) in *.
  assert (Hw1 : writer_ok w1).
  { split; [done|]. split; [done|]. rewrite Ecc. split; [done|]. cbn. lia. }
  destruct (write_frames_scan w1 fs Hw1 Hfs) as [_ Hlens]. change (w_szPage w1) with szPage in *.
  set (h := fst (wal_header w szPage)) in *.
  assert (Hh : zlen h = 32).
  { unfold zlen in *. rewrite Eh, !length_app, !be4_len. lia. }
  replace (zlen fs) with (zlen (write_frames w1 fs)) by (unfold zlen; by rewrite write_frames_length).
  rewrite <- (slice_concat (szPage + 24) (write_frames w1 fs) h tail 1) at 2; [|lia|done].
  apply map_ext. intros i. unfold walFrameOffset, WAL_HDRSIZE, WAL_FRAME_HDRSIZE. by rewrite Hh.
Qed.

(** The valid frames of the file are those that were written. *)
Lemma written_valid : (fs <> [] \/ tail <> []) -> map fst (valid_frames written_file) = map fst fs.
Proof.
  intros Hne. destruct (written_header Hne) as (_ & Ez & Es & En & Ec & Ef).
  unfold valid_frames. rewrite Ez, Es, En, Ec, Ef, written_frames by done.
  destruct (header_bytes w szPage Hsalt) as (c & Hc & _ & _ & Ecc).
  destruct Hsz as ([Hz1 Hz2] & Hz3 & Hz4). set (w1 := snd (wal_header w szPage)) in *.
  assert (Hw1 : writer_ok w1).
  { split; [done|]. split; [done|]. rewrite Ecc. split; [done|]. cbn. lia. }
  by destruct (write_frames_scan w1 fs Hw1 Hfs) as [Hscan _].
Qed.
End written.

(** C9. Durability: a log that holds a header and frames as the writer produces
    them, followed by whatever is left of a frame that was cut short, is recovered
    as of its last commit frame, and the wal-index maps the pages of all its
    frames. *)
Theorem written_log_recovers (map_rc mark_rc : Z -> Z) (lock_rc : Z) (garbage : Z -> WalHash)
  (w w0 : Wal) (wi : gmap Z WalHash) (info : WalCkptInfo) (szPage : Z) (fs : list wframe) (tail : list Z)
  (Hmap : forall t, map_rc t = SQLITE_OK) (Hlock : lock_rc = SQLITE_OK)
  (Hsalt : zlen (h_aSalt (hdr w)) = 8) (Hsaltb : bytes_ok (h_aSalt (hdr w)))
  (Hckpt : is_u32 (w_nCkpt w)) (Hre : w_iReCksum w = 0) (Hsz : page_size_ok szPage)
  (Hfs : Forall (wframe_ok szPage) fs) (Hne : fs <> []) (Hmax : zlen fs < MAX_FRAMES)
  (Htail : zlen tail < szPage + WAL_FRAME_HDRSIZE) (Htailb : bytes_ok tail) :
  exists rc w' wi' marks h,
    walIndexRecover map_rc lock_rc mark_rc garbage (written_file w szPage fs tail) w0 wi info =
      (rc, w', wi', mkCkpt 0 marks (h_mxFrame h), Some h) /\
    (h_mxFrame h, h_nPage h) = committed 1 fs (0, 0) /\ h_aSalt h = h_aSalt (hdr w) /\
    wi_ok map_rc wi' (map (fun f => fst (fst f)) fs).
Proof.
  destruct (written_header w szPage fs tail) as (Hh & Ez & Es & En & Ec & Ef); eauto.
  assert (Hb : bytes_ok (written_file w szPage fs tail)) by (eapply written_bytes; eauto).
  assert (Hv : map fst (valid_frames (written_file w szPage fs tail)) = map fst fs)
    by (eapply written_valid; eauto).
  destruct (recover_log_spec map_rc garbage (written_file w szPage fs tail) wi w0 Hmap Hb Hh ltac:(by rewrite Ef))
    as (s & E & Hc & Hw & Hid).
  unfold walIndexRecover. rewrite Hlock. cbn [truthy Z.eqb negb SQLITE_OK].
  rewrite E. cbn [truthy Z.eqb negb SQLITE_OK].
  destruct (recover_marks _ 4 1 _ _) as [[rc marks] ok] eqn:Em.
  do 5 eexists. split; [reflexivity|]. cbn [h_mxFrame h_nPage h_aFrameCksum h_aSalt h_isInit hdr w_szPage].
  pose proof (last_commit_committed 1 _ fs (0, 0, (0, 0)) Hv) as Hlc. rewrite <- Hc in Hlc.
  unfold commit_of in Hlc. cbn [fst] in Hlc. split; [done|].
  unfold file_id in Hid. injection Hid as _ Hs _ _. split; [by rewrite Hs|].
  replace (map (fun f => fst (fst f)) fs) with (pages_of (valid_frames (written_file w szPage fs tail))); [done|].
  unfold pages_of. rewrite <- (map_map fst fst), Hv. by rewrite map_map.
Qed.

(** A log of two transactions on pages of 512 bytes, cut off in a third frame. *)
Definition ex_wal : Wal :=
  mkWal (mkHdr WALINDEX_MAX_VERSION 0 1 0 512 0 0 (0, 0) [1; 2; 3; 4; 5; 6; 7; 8]) 512 7 0.
Definition ex_frames : list wframe := [(1, 0, replicate 512 17); (2, 2, replicate 512 34)].
Definition ex_file : list Z := written_file ex_wal 512 ex_frames [0; 0; 0; 3].
Definition ex_garbage (_ : Z) : WalHash := mkWalHash [] [].

Lemma written_log_recovers_witness : exists rc w' wi' marks h,
  walIndexRecover (fun _ => 0) 0 (fun _ => 0) ex_garbage ex_file ex_wal ∅ (mkCkpt 0 [0; 0; 0; 0; 0] 0) =
    (rc, w', wi', mkCkpt 0 marks (h_mxFrame h), Some h) /\
  (h_mxFrame h, h_nPage h) = (2, 2) /\ h_aSalt h = [1; 2; 3; 4; 5; 6; 7; 8] /\ wi_ok (fun _ => 0) wi' [1; 2].
Proof.
  apply (written_log_recovers (fun _ => 0) (fun _ => 0) 0 ex_garbage ex_wal ex_wal ∅ _ 512 ex_frames [0; 0; 0; 3]);
    try done; try by_compute.
Defined.
Lemma recovery_exact_witness : exists rc w' wi' marks h,
  walIndexRecover (fun _ => 0) 0 (fun _ => 0) ex_garbage ex_file ex_wal ∅ (mkCkpt 0 [0; 0; 0; 0; 0] 0) =
    (rc, w', wi', mkCkpt 0 marks (h_mxFrame h), Some h) /\
  (h_mxFrame h, h_nPage h, h_aFrameCksum h) = last_commit 1 (valid_frames ex_file) (0, 0, (0, 0)) /\
  h_aSalt h = log_salt ex_file /\ h_isInit h = 1 /\ hdr w' = h /\ w_szPage w' = log_szPage ex_file /\
  wi_ok (fun _ => 0) wi' (pages_of (valid_frames ex_file)).
Proof.
  apply (recovery_exact (fun _ => 0) 0 (fun _ => 0) ex_garbage ex_file ex_wal ∅ (mkCkpt 0 [0; 0; 0; 0; 0] 0));
    try done; by_compute.
Defined.

(** ** Writing to the log *)

Lemma file_write_end f data : file_write f (zlen f) data = f ++ data.
Proof.
  unfold file_write, zlen. rewrite Nat2Z.id, take_app_length. rewrite drop_ge by lia.
  by rewrite app_nil_r.
Qed.
Lemma file_write_length f off data : 0 <= off -> zlen f <= off + zlen data ->
  zlen (file_write f off data) = off + zlen data.
Proof.
  intros H0 Hf. unfold file_write, zlen in *.
  rewrite !length_app, length_take, length_app, length_replicate, length_drop. lia.
Qed.
(** Two adjacent writes are one. *)
Lemma file_write_app f off d1 d2 : 0 <= off ->
  file_write (file_write f off d1) (off + zlen d1) d2 = file_write f off (d1 ++ d2).
Proof.
  intros Hoff. unfold file_write.
  set (p := take (Z.to_nat off) (f ++ replicate (Z.to_nat off) 0)).
  assert (Hp : length p = Z.to_nat off).
  { unfold p. rewrite length_take, length_app, length_replicate. lia. }
  replace (Z.to_nat (off + zlen d1)) with (length (p ++ d1))%nat by (rewrite length_app, Hp; unfold zlen; lia).
  rewrite !app_assoc, <- (app_assoc (p ++ d1)), take_app_length.
  rewrite <- !app_assoc. do 3 f_equal.
  rewrite (app_assoc p), drop_app_ge by lia. rewrite drop_drop. f_equal.
  rewrite !length_app, Hp. lia.
Qed.

(** The sync point splits a write in two; the bytes written are the same. *)
Lemma walWriteToLog_ok write_rc sync_rc iSyncPoint f content iAmt iOffset :
  (forall a o, write_rc a o = SQLITE_OK) -> sync_rc = SQLITE_OK ->
  zlen content = iAmt -> 0 <= iOffset ->
  walWriteToLog write_rc sync_rc iSyncPoint f content iAmt iOffset =
    (SQLITE_OK, file_write f iOffset content).
Proof.
  intros Hw Hs <- Ho. unfold walWriteToLog. rewrite !Hw, Hs.
  pose proof (zlen_nonneg content).
  change (truthy SQLITE_OK) with false. cbn iota.
  destruct ((iOffset <? iSyncPoint) && (iSyncPoint <=? iOffset + zlen content)) eqn:E;
    [|by rewrite take_ge by (unfold zlen; lia)].
  apply andb_prop in E as [E1 E2]. apply Z.ltb_lt in E1. apply Z.leb_le in E2.
  set (k := iSyncPoint - iOffset).
  assert (Hk : zlen (take (Z.to_nat k) content) = k) by (apply zlen_take; unfold k; lia).
  rewrite orb_false_r. destruct (Z.eqb_spec (zlen content - k) 0) as [E0|E0].
  - rewrite (take_ge content) by (unfold zlen in *; lia). done.
  - rewrite (take_ge (drop _ _)) by (rewrite length_drop; unfold zlen in *; lia).
    rewrite <- (take_drop (Z.to_nat k) content) at 3. by rewrite <- file_write_app, Hk by done.
Qed.

(** One frame: whatever the sync point, [walWriteOneFrame] leaves at its offset
    the encoded header followed by the page, and reading the frame back with the
    checksum the writer had yields the page number and commit mark it was given. *)
Theorem writeOneFrame_decodes (write_rc : Z -> Z -> Z) (sync_rc iSyncPoint : Z) (w : Wal)
  (f pData aFrame : list Z) (pgno nTruncate iOffset : Z)
  (Hrc : forall a o, write_rc a o = SQLITE_OK) (Hsync : sync_rc = SQLITE_OK) (Hw : writer_ok w)
  (Hbuf : zlen aFrame = 24) (Hdata : zlen pData = w_szPage w) (Hpg : is_u32 pgno) (Hpg0 : pgno <> 0)
  (Hnt : is_u32 nTruncate) (Hoff : 0 <= iOffset) :
  exists f' w', walWriteOneFrame write_rc sync_rc w iSyncPoint f pData pgno nTruncate iOffset aFrame =
    (SQLITE_OK, f', w') /\
  let fr := slice f' iOffset (w_szPage w + WAL_FRAME_HDRSIZE) in
  fst (walDecodeFrame w (drop (Z.to_nat WAL_FRAME_HDRSIZE) fr) fr) = Some (pgno, nTruncate) /\
  drop (Z.to_nat WAL_FRAME_HDRSIZE) fr = pData /\
  snd (walDecodeFrame w (drop (Z.to_nat WAL_FRAME_HDRSIZE) fr) fr) = w'.
Proof.
  pose proof (decode_encoded w pgno nTruncate pData aFrame Hw Hbuf Hdata Hpg Hpg0 Hnt) as H.
  assert (Hset : exists c, snd (walEncodeFrame w pgno nTruncate pData aFrame) = set_cksum w c).
  { destruct Hw as (Hs & Hr & _). rewrite encode_bytes by done. by eexists. }
  unfold walWriteOneFrame. destruct (walEncodeFrame w pgno nTruncate pData aFrame) as [fr w'].
  destruct H as (Hdec & _ & Hfr & _ & _ & Hz). destruct Hset as [c Hset]. cbn [snd] in Hset.
  rewrite !walWriteToLog_ok by (done || rewrite ?Hz; try done; unfold WAL_FRAME_HDRSIZE; lia).
  cbn [truthy Z.eqb negb SQLITE_OK]. do 2 eexists. split; [reflexivity|].
  replace (iOffset + WAL_FRAME_HDRSIZE) with (iOffset + zlen fr) by (unfold WAL_FRAME_HDRSIZE; lia).
  rewrite file_write_app by done.
  assert (Esl : slice (file_write f iOffset (fr ++ pData)) iOffset (w_szPage w + WAL_FRAME_HDRSIZE) = fr ++ pData).
  { unfold slice, file_write. rewrite drop_app_length'.
    - apply take_app_length'. rewrite length_app. unfold zlen, WAL_FRAME_HDRSIZE in *. lia.
    - rewrite length_take, length_app, length_replicate. lia. }
  cbn zeta. rewrite Esl, decode_is_core, Hdec. cbn [fst snd]. split; [done|]. split.
  - apply drop_app_length'. unfold zlen in Hfr. change (Z.to_nat WAL_FRAME_HDRSIZE) with 24%nat. lia.
  - rewrite Hset. done.
Qed.
Lemma writeOneFrame_decodes_witness : exists f' w',
  walWriteOneFrame (fun _ _ => 0) 0 ex_wal 100 [] (replicate 512 9) 5 0 32 (replicate 24 0) = (SQLITE_OK, f', w') /\
  let fr := slice f' 32 (512 + WAL_FRAME_HDRSIZE) in
  fst (walDecodeFrame ex_wal (drop (Z.to_nat WAL_FRAME_HDRSIZE) fr) fr) = Some (5, 0) /\
  drop (Z.to_nat WAL_FRAME_HDRSIZE) fr = replicate 512 9 /\
  snd (walDecodeFrame ex_wal (drop (Z.to_nat WAL_FRAME_HDRSIZE) fr) fr) = w'.
Proof.
  apply (writeOneFrame_decodes (fun _ _ => 0) 0 100 ex_wal [] (replicate 512 9) (replicate 24 0) 5 0 32);
    try done; try by_compute; repeat split; by_compute.
Defined.
