(* ===== verification/WalIter.v ===== *)
(** The checkpoint iterator (wal.c): the pages of the log in ascending order, each
    with the frame that last wrote it.

    Each page of the wal-index becomes a segment: the positions of its page array,
    sorted by page number with a bottom-up merge sort that drops all but the last
    position of a page.  [walIteratorNext] merges the segments on the fly. *)

From Stdlib Require Import Sorted.
From S2P Require Import Prelude WalIndex.

(** ** Sorting *)

(** [aList] and the sublists share one array; a pointer into it is an offset. *)
Section sort.
Context (aContent : list Z).

(** The loop of [walMerge]: the elements still to be read on both sides. *)
Fixpoint merge_loop (fuel : nat) (aLeft aRight : list Z) : list Z :=
  match fuel with
  | O => []
  | S fuel' =>
      let pick logpage aLeft aRight :=
        let dbpage := aContent.[logpage] in
        let aLeft := match aLeft with
                     | x :: l => if aContent.[x] =? dbpage then l else aLeft
                     | [] => []
                     end in
        logpage :: merge_loop fuel' aLeft aRight in
      match aLeft, aRight with
      | [], [] => []
      | x :: l, [] => pick x l []
      | [], y :: r => pick y [] r
      | x :: l, y :: r => if aContent.[x] <? aContent.[y] then pick x l aRight else pick y aLeft r
      end
  end.

(** The array, [*paRight] and [*pnRight] afterwards. *)
Definition walMerge (a : list Z) (aLeft nLeft aRight nRight : Z) : list Z * Z * Z :=
  let aTmp := merge_loop (Z.to_nat (nLeft + nRight)) (slice a aLeft nLeft) (slice a aRight nRight) in
  (splice a aLeft aTmp, aLeft, zlen aTmp).

(** [aSub]: number of elements and offset of each sublist. *)
Fixpoint merge_up (fuel : nat) (iList iSub : Z) (aSub : list (Z * Z)) (a : list Z) (aMerge nMerge : Z)
    : list Z * Z * Z * Z :=
  if truthy (Z.land iList (Z.shiftl 1 iSub)) then
    match fuel with
    | O => (a, aMerge, nMerge, iSub)
    | S fuel' =>
        let '(nList, aList) := aSub.[iSub] in
        let '(a, aMerge, nMerge) := walMerge a aList nList aMerge nMerge in
        merge_up fuel' iList (iSub + 1) aSub a aMerge nMerge
    end
  else (a, aMerge, nMerge, iSub).

Fixpoint sort_loop (n : nat) (iList : Z) (aSub : list (Z * Z)) (a : list Z) (aMerge nMerge iSub : Z)
    : list (Z * Z) * list Z * Z * Z * Z :=
  match n with
  | O => (aSub, a, aMerge, nMerge, iSub)
  | S n' =>
      let '(a, aMerge, nMerge, iSub) := merge_up 13 iList 0 aSub a iList 1 in
      sort_loop n' (iList + 1) (aSub.[iSub <- (nMerge, aMerge)]) a aMerge nMerge iSub
  end.

(** From [iSub] over the remaining [n] sublists. *)
Fixpoint sort_final (n : nat) (nList iSub : Z) (aSub : list (Z * Z)) (a : list Z) (aMerge nMerge : Z)
    : list Z * Z * Z :=
  match n with
  | O => (a, aMerge, nMerge)
  | S n' =>
      let '(a, aMerge, nMerge) :=
        if truthy (Z.land nList (Z.shiftl 1 iSub)) then
          let '(nL, aList) := aSub.[iSub] in walMerge a aList nL aMerge nMerge
        else (a, aMerge, nMerge) in
      sort_final n' nList (iSub + 1) aSub a aMerge nMerge
  end.

(** The array and [*pnList] afterwards. *)
Definition walMergesort (aList : list Z) (nList : Z) : list Z * Z :=
  let '(aSub, a, aMerge, nMerge, iSub) :=
    sort_loop (Z.to_nat nList) 0 (replicate 13 (0, 0)) aList 0 0 0 in
  let '(a, aMerge, nMerge) := sort_final (Z.to_nat (13 - (iSub + 1))) nList (iSub + 1) aSub a aMerge nMerge in
  (a, nMerge).
End sort.

(** ** The iterator *)

Record WalSegment := mkSeg { iNext : Z; aIndex : list Z; seg_aPgno : list Z; nEntry : Z; seg_iZero : Z }.
Record WalIterator := mkIter { iPrior : Z; aSegment : list WalSegment }.
#[export] Instance WalSegment_inhabited : Inhabited WalSegment := populate (mkSeg 0 [] [] 0 0).

Definition seg_page (s : WalSegment) : Z := (seg_aPgno s).[(aIndex s).[iNext s]].

(** Advance over the pages that were returned before. *)
Fixpoint seg_skip (fuel : nat) (iMin : Z) (s : WalSegment) : WalSegment :=
  match fuel with
  | O => s
  | S fuel' =>
      if iNext s <? nEntry s then
        if iMin <? seg_page s then s
        else seg_skip fuel' iMin (mkSeg (iNext s + 1) (aIndex s) (seg_aPgno s) (nEntry s) (seg_iZero s))
      else s
  end.

(** The loop over the segments, from the last to the first: the segments, [iRet]
    and [*piFrame]. *)
Fixpoint next_segs (iMin iFrame : Z) (segs : list WalSegment) : list WalSegment * (Z * Z) :=
  match segs with
  | [] => ([], (0xffffffff, iFrame))
  | s :: segs' =>
      let '(segs', (iRet, iFrame)) := next_segs iMin iFrame segs' in
      let s := seg_skip (Z.to_nat (nEntry s - iNext s)) iMin s in
      (s :: segs',
       if (iNext s <? nEntry s) && (seg_page s <? iRet)
       then (seg_page s, seg_iZero s + (aIndex s).[iNext s]) else (iRet, iFrame))
  end.

(** The return value, the iterator, [*piPage] and [*piFrame]. *)
Definition walIteratorNext (p : WalIterator) (iFrame : Z) : Z * WalIterator * Z * Z :=
  let '(segs, (iRet, iFrame)) := next_segs (iPrior p) iFrame (aSegment p) in
  (b2z (iRet =? 0xffffffff), mkIter iRet segs, iRet, iFrame).

Section init.
(** Result codes of mapping wal-index pages; whether [sqlite3_malloc64] fails. *)
Context (map_rc : Z -> Z) (oom : bool).

Fixpoint init_segs (n : nat) (wi : gmap Z WalHash) (iLast nSegment i : Z) (segs : list WalSegment)
    : Z * list WalSegment :=
  match n with
  | O => (SQLITE_OK, segs)
  | S n' =>
      let '(rc, t) := walHashGet map_rc wi i in
      if truthy rc then (rc, segs) else
      let nE := if i + 1 =? nSegment then iLast - iZero i else zlen (aPgno t) in
      let aIdx := seqZ 0 nE in
      let '(aIdx, nE) := walMergesort (aPgno t) aIdx nE in
      init_segs n' wi iLast nSegment (i + 1) (segs.[i <- mkSeg 0 aIdx (aPgno t) nE (iZero i + 1)])
  end.

Definition walIteratorInit (wi : gmap Z WalHash) (mxFrame nBackfill : Z) : Z * option WalIterator :=
  let iLast := mxFrame in
  let nSegment := walFramePage iLast + 1 in
  if oom then (SQLITE_NOMEM, None) else
  let first := walFramePage (u32 (nBackfill + 1)) in
  let '(rc, segs) :=
    init_segs (Z.to_nat (nSegment - first)) wi iLast nSegment first
      (replicate (Z.to_nat nSegment) (mkSeg 0 [] [] 0 0)) in
  if truthy rc then (rc, None) else (rc, Some (mkIter 0 segs)).
End init.

(** What the loop of a checkpoint sees: all pairs the iterator returns. *)
Fixpoint iterate (fuel : nat) (p : WalIterator) (iFrame : Z) : option (list (Z * Z)) :=
  match fuel with
  | O => None
  | S fuel' =>
      let '(rc, p, iPage, iFrame) := walIteratorNext p iFrame in
      if truthy rc then Some []
      else match iterate fuel' p iFrame with
           | Some l => Some ((iPage, iFrame) :: l)
           | None => None
           end
  end.

(** ** The sort is correct *)

Section sort_proof.
Context (C : list Z).
#[local] Abbreviation key i := (C.[i]).

(** [L] lists by ascending page the last position of every page in [lo, hi). *)
Definition idx_ok (lo hi : Z) (L : list Z) : Prop :=
  StronglySorted (fun i j => key i < key j) L /\
  forall i, i ∈ L <-> lo <= i < hi /\ forall j, i < j < hi -> key j <> key i.

Lemma idx_ok_one i : idx_ok i (i + 1) [i].
Proof.
  split; [by repeat constructor|]. intros j. rewrite list_elem_of_singleton.
  split; [intros ->; split; lia|lia].
Qed.

Lemma merge_loop_spec fuel l r : (length l + length r <= fuel)%nat ->
  StronglySorted (fun i j => key i < key j) l -> StronglySorted (fun i j => key i < key j) r ->
  StronglySorted (fun i j => key i < key j) (merge_loop C fuel l r) /\
  (forall i, i ∈ merge_loop C fuel l r <-> i ∈ r \/ i ∈ l /\ forall j, j ∈ r -> key j <> key i) /\
  (length (merge_loop C fuel l r) <= length l + length r)%nat.
Proof.
  revert l r. induction fuel as [|fuel IH]; intros l r Hf Hl Hr.
  { destruct l; [|cbn in Hf; lia]. destruct r; [|cbn in Hf; lia]. cbn.
    split; [constructor|]. split; [|lia]. intros i. set_solver. }
  destruct l as [|x l], r as [|y r]; cbn [merge_loop length] in *.
  - split; [constructor|]. split; [|lia]. intros i. set_solver.
  - inversion Hr as [|? ? Hr1 Hr2]; subst. destruct (IH [] r ltac:(cbn; lia) Hl Hr1) as (I1 & I2 & I3).
    cbn [length] in *. split; [|split; [|lia]].
    + constructor; [done|]. apply Forall_forall. intros i Hi. apply I2 in Hi as [Hi|[Hi _]]; [|set_solver].
      rewrite Forall_forall in Hr2. by apply Hr2.
    + intros i. rewrite elem_of_cons, I2. set_solver.
  - inversion Hl as [|? ? Hl1 Hl2]; subst.
    assert (E : match l with x0 :: l0 => if key x0 =? key x then l0 else l | [] => [] end = l).
    { destruct l as [|x0 l]; [done|]. inversion_clear Hl2 as [|? ? Hx _]. zbool; [lia|done]. }
    rewrite E. destruct (IH l [] ltac:(cbn; lia) Hl1 Hr) as (I1 & I2 & I3).
    cbn [length] in *. split; [|split; [|lia]].
    + constructor; [done|]. apply Forall_forall. intros i Hi. apply I2 in Hi as [Hi|[Hi _]]; [set_solver|].
      rewrite Forall_forall in Hl2. by apply Hl2.
    + intros i. rewrite elem_of_cons, I2. set_solver.
  - inversion Hl as [|? ? Hl1 Hl2]; subst. inversion Hr as [|? ? Hr1 Hr2]; subst.
    rewrite Forall_forall in Hl2, Hr2. destruct (Z.ltb_spec (key x) (key y)) as [Hxy|Hxy].
    + assert (E : match l with x0 :: l0 => if key x0 =? key x then l0 else l | [] => [] end = l).
      { destruct l as [|x0 l]; [done|]. pose proof (Hl2 x0 ltac:(set_solver)). zbool; [lia|done]. }
      rewrite E. destruct (IH l (y :: r) ltac:(cbn; lia) Hl1 Hr) as (I1 & I2 & I3).
      cbn [length] in *.
      assert (Hy : forall i, i ∈ y :: r -> key x < key i).
      { intros i [->|Hi]%elem_of_cons; [done|]. specialize (Hr2 i Hi). lia. }
      split; [|split; [|lia]].
      * constructor; [done|]. apply Forall_forall. intros i Hi.
        apply I2 in Hi as [Hi|[Hi _]]; [by apply Hy|by apply Hl2].
      * intros i. rewrite elem_of_cons, I2, (elem_of_cons l). split.
        { intros [->|[Hi|[Hi Hn]]]; [|by left|by right; auto].
          right. split; [by left|]. intros j Hj. pose proof (Hy j Hj). lia. }
        { intros [Hi|[[->|Hi] Hn]]; auto. }
    + set (l' := if key x =? key y then l else x :: l).
      assert (Hl' : StronglySorted (fun i j => key i < key j) l') by (unfold l'; by destruct (_ =? _)).
      assert (Hsub : forall i, i ∈ l' <-> i ∈ x :: l /\ key i <> key y).
      { intros i. unfold l'. destruct (Z.eqb_spec (key x) (key y)) as [E|E]; split.
        - intros Hi. split; [set_solver|]. specialize (Hl2 i Hi). lia.
        - intros [[->|Hi]%elem_of_cons Hn]; [done|done].
        - intros Hi. split; [done|]. apply elem_of_cons in Hi as [->|Hi]; [done|].
          specialize (Hl2 i Hi). lia.
        - by intros [Hi _]. }
      assert (Hlen : (length l' <= S (length l))%nat) by (unfold l'; destruct (_ =? _); cbn; lia).
      destruct (IH l' r ltac:(lia) Hl' Hr1) as (I1 & I2 & I3).
      cbn [length] in *. split; [|split; [|lia]].
      * constructor; [done|]. apply Forall_forall. intros i Hi. apply I2 in Hi as [Hi|[Hi _]]; [by apply Hr2|].
        apply Hsub in Hi as [[->|Hi]%elem_of_cons Hn]; [lia|]. specialize (Hl2 i Hi). lia.
      * intros i. rewrite elem_of_cons, I2, Hsub, (elem_of_cons r). split.
        { intros [->|[Hi|[[Hi Hn] Ha]]]; [by left; left|by left; right|].
          right. split; [done|]. intros j [->|Hj]%elem_of_cons; [congruence|by apply Ha]. }
        { intros [[->|Hi]|[Hi Hn]]; [by left|by right; left|].
          right. right. split; [split; [done|]|].
          - intros E. apply (Hn y); [set_solver|done].
          - intros j Hj. apply Hn. set_solver. }
Qed.

Lemma merge_idx_ok lo mid hi l r : lo <= mid <= hi -> idx_ok lo mid l -> idx_ok mid hi r ->
  idx_ok lo hi (merge_loop C (length l + length r) l r).
Proof.
  intros Hm [Sl Ml] [Sr Mr]. destruct (merge_loop_spec (length l + length r) l r) as (H1 & H2 & _); auto.
  split; [done|]. intros i. rewrite H2, Mr, Ml. split.
  - intros [[Hi Hn]|[[Hi Hn] Hr]]; (split; [lia|]); intros j Hj; [by apply Hn|].
    destruct (decide (j < mid)); [apply Hn; lia|]. intros E.
    (* the last position with this page is in [r] *)
    assert (Hlast : forall n j, j < hi -> (Z.to_nat (hi - j) <= n)%nat -> mid <= j -> key j = key i ->
        exists k, k ∈ r /\ key k = key i).
    { clear - Mr. induction n as [|n IH]; intros j Hj Hn Hmj E; [lia|].
      destruct (decide (Exists (fun k => key k = key i) (seqZ (j + 1) (hi - j - 1)))) as [He|He].
      - apply Exists_exists in He as (k & Hk & Ek). apply elem_of_seqZ in Hk. apply (IH k); try lia.
      - exists j. split; [|done]. apply Mr. split; [lia|]. intros k Hk Ek. apply He, Exists_exists.
        exists k. split; [apply elem_of_seqZ; lia|congruence]. }
    destruct (Hlast (Z.to_nat (hi - j)) j) as (k & Hk & Ek); [lia|lia|lia|done|]. by apply (Hr k).
  - intros [Hi Hn]. destruct (decide (i < mid)).
    + right. split; [split; [lia|]; intros j Hj; apply Hn; lia|].
      intros j Hj. apply Mr in Hj as [Hj _]. apply Hn. lia.
    + left. split; [lia|done].
Qed.

(** A sublist of the array: [n] elements at offset [off] that index [off, hi). *)
Definition run (a : list Z) (off n hi : Z) : Prop :=
  0 <= off /\ 0 <= n <= hi - off /\ hi <= zlen a /\ idx_ok off hi (slice a off n).

Lemma slice_splice_ne {A} (a : list A) lo T off n :
  0 <= lo -> 0 <= off -> 0 <= n -> lo + zlen T <= zlen a -> off + n <= lo \/ lo + zlen T <= off ->
  slice (splice a lo T) off n = slice a off n.
Proof.
  unfold slice, splice, zlen. intros H0 H1 H2 H3 [H|H].
  - apply list_eq. intros i. destruct (decide (i < Z.to_nat n)%nat).
    + rewrite !lookup_take_lt, !lookup_drop by lia. rewrite lookup_app_l by (rewrite length_take; lia).
      by rewrite lookup_take_lt by lia.
    + by rewrite !lookup_take_ge by lia.
  - f_equal. rewrite app_assoc, drop_app_ge by (rewrite length_app, length_take; lia).
    rewrite drop_drop. f_equal. rewrite length_app, length_take. lia.
Qed.

Lemma walMerge_run a lo nL mid nR hi : run a lo nL mid -> run a mid nR hi ->
  let '(a', p, n) := walMerge C a lo nL mid nR in
  p = lo /\ run a' lo n hi /\ zlen a' = zlen a /\
  forall off m h, run a off m h -> h <= lo \/ hi <= off -> run a' off m h.
Proof.
  intros (L0 & Ln & Lh & Lok) (R0 & Rn & Rh & Rok). unfold walMerge.
  assert (El : length (slice a lo nL) = Z.to_nat nL).
  { pose proof (zlen_slice a lo nL). unfold zlen in *. lia. }
  assert (Er : length (slice a mid nR) = Z.to_nat nR).
  { pose proof (zlen_slice a mid nR). unfold zlen in *. lia. }
  replace (Z.to_nat (nL + nR)) with (length (slice a lo nL) + length (slice a mid nR))%nat by lia.
  set (T := merge_loop C _ _ _).
  assert (HT : idx_ok lo hi T) by (apply (merge_idx_ok lo mid); [lia|done|done]).
  assert (HlT : zlen T <= nL + nR).
  { destruct (merge_loop_spec (length (slice a lo nL) + length (slice a mid nR))
      (slice a lo nL) (slice a mid nR)) as (_ & _ & H); [lia|apply Lok|apply Rok|].
    fold T in H. unfold zlen. lia. }
  assert (Hza : zlen (splice a lo T) = zlen a) by (apply zlen_splice; lia).
  split; [done|]. split; [|split; [done|]].
  - unfold run. rewrite slice_splice by lia. pose proof (zlen_nonneg T). split; [done|]. split; [lia|].
    split; [lia|done].
  - intros off m h (O0 & On & Oh & Ook) Hd. unfold run. rewrite slice_splice_ne by lia.
    split; [done|]. split; [lia|]. split; [lia|done].
Qed.
End sort_proof.

(** *** The binary counter of sublists *)

Lemma testbit_div m k : 0 <= k -> m / 2 ^ k = 2 * (m / 2 ^ (k + 1)) + b2z (Z.testbit m k).
Proof.
  intros Hk. rewrite Z.pow_add_r, Z.pow_1_r, <- Z.div_div by lia. rewrite Z.testbit_odd, Z.shiftr_div_pow2 by done.
  rewrite (Z.div_mod (m / 2 ^ k) 2) at 1 by lia. f_equal. rewrite Zmod_odd. by destruct (Z.odd _).
Qed.

(** The offset of sublist [k] when [m] elements were read. *)
Definition sub_off (m k : Z) : Z := m / 2 ^ (k + 1) * 2 ^ (k + 1).

Lemma pow_split k : 0 <= k -> 2 ^ (k + 1) = 2 * 2 ^ k.
Proof. intros. rewrite Z.pow_add_r by lia. lia. Qed.
(** With a set bit [k], sublist [k] ends where the lower bits begin. *)
Lemma sub_off_bit m k : 0 <= k -> Z.testbit m k = true -> sub_off m k + 2 ^ k = m / 2 ^ k * 2 ^ k.
Proof.
  intros Hk Hb. unfold sub_off. rewrite (testbit_div m k), Hb, pow_split by done. cbn [b2z]. ring.
Qed.
Lemma sub_off_nobit m k : 0 <= k -> Z.testbit m k = false -> sub_off m k = m / 2 ^ k * 2 ^ k.
Proof.
  intros Hk Hb. unfold sub_off. rewrite (testbit_div m k), Hb, pow_split by done. cbn [b2z]. ring.
Qed.
Lemma floor_mono m k k' : 0 <= m -> 0 <= k <= k' -> m / 2 ^ k' * 2 ^ k' <= m / 2 ^ k * 2 ^ k.
Proof.
  intros Hm Hk. replace k' with (k + (k' - k)) by lia. rewrite Z.pow_add_r, <- Z.div_div by lia.
  assert (0 < 2 ^ (k' - k)) by lia. assert (0 < 2 ^ k) by lia.
  pose proof (Z.mul_div_le (m / 2 ^ k) (2 ^ (k' - k)) ltac:(lia)). nia.
Qed.

Section counter.
Context (C : list Z) (N : Z) (HN : 0 < N <= 4096).

(** After [m] elements: every set bit of [m] has its sublist, and the elements
    from [m] on are untouched. *)
Definition subs_ok (m lowest : Z) (aSub : list (Z * Z)) (a : list Z) : Prop :=
  zlen a = N /\ zlen aSub = 13 /\
  (forall k, lowest <= k -> Z.testbit m k = true ->
     exists n, aSub.[k] = (n, sub_off m k) /\ run C a (sub_off m k) n (sub_off m k + 2 ^ k)) /\
  (forall j, m < j < N -> run C a j 1 (j + 1)).

Lemma subs_ok_merge m k aSub a nM : 0 <= m < N -> 0 <= k -> Z.testbit m k = true ->
  subs_ok m k aSub a -> run C a (m / 2 ^ k * 2 ^ k) nM (m + 1) ->
  let '(nL, aL) := aSub.[k] in
  let '(a', p, n) := walMerge C a aL nL (m / 2 ^ k * 2 ^ k) nM in
  p = sub_off m k /\ run C a' (sub_off m k) n (m + 1) /\ subs_ok m (k + 1) aSub a'.
Proof.
  intros Hm Hk Hb (Hza & Hzs & Hsub & Hrest) Hrun.
  destruct (Hsub k ltac:(lia) Hb) as (nL & -> & HL). rewrite sub_off_bit in HL by done.
  pose proof (walMerge_run C a _ _ _ _ _ HL Hrun) as H. destruct (walMerge _ _ _ _ _ _) as [[a' p] n].
  destruct H as (-> & Hr & Hz & Hd). split; [done|]. split; [done|].
  split; [lia|]. split; [done|]. split.
  - intros k' Hk' Hb'. destruct (Hsub k' ltac:(lia) Hb') as (n' & E' & H'). exists n'. split; [done|].
    apply Hd; [done|]. left. rewrite sub_off_bit by (lia || done). unfold sub_off. apply floor_mono; lia.
  - intros j Hj. apply Hd; [auto|lia].
Qed.

Lemma testbit_small m k : 0 <= m < 2 ^ 13 -> 13 <= k -> Z.testbit m k = false.
Proof.
  intros Hm Hk. destruct (Z.eq_dec m 0) as [->|]; [apply Z.bits_0|].
  apply Z.bits_above_log2; [lia|]. apply Z.log2_lt_pow2; [lia|].
  pose proof (Z.pow_le_mono_r 2 13 k). lia.
Qed.

Lemma merge_up_spec fuel m k aSub a nM : 0 <= m < N -> 0 <= k <= 13 -> 13 - k <= Z.of_nat fuel ->
  m mod 2 ^ k = 2 ^ k - 1 -> subs_ok m k aSub a -> run C a (m / 2 ^ k * 2 ^ k) nM (m + 1) ->
  let '(a', p, n, iSub) := merge_up C fuel m k aSub a (m / 2 ^ k * 2 ^ k) nM in
  0 <= iSub < 13 /\ Z.testbit m iSub = false /\ m mod 2 ^ iSub = 2 ^ iSub - 1 /\
  p = sub_off m iSub /\ run C a' p n (m + 1) /\ subs_ok m (iSub + 1) aSub a'.
Proof.
  revert k a nM. induction fuel as [|fuel IH]; intros k a nM Hm Hk Hf Hlow Hs Hr; cbn [merge_up];
    rewrite land_bit by lia.
  - rewrite testbit_small by lia. assert (k = 13) as -> by lia.
    rewrite Z.mod_small in Hlow by lia. lia.
  - destruct (Z.testbit m k) eqn:Hb.
    + assert (Hk13 : k < 13). { destruct (decide (k < 13)); [done|]. rewrite testbit_small in Hb; [done|lia|lia]. }
      pose proof (subs_ok_merge m k aSub a nM Hm ltac:(lia) Hb Hs Hr) as H. destruct (aSub.[k]) as [nL aL].
      destruct (walMerge _ _ _ _ _ _) as [[a' p] n]. destruct H as (-> & Hr' & Hs').
      apply (IH (k + 1)); try lia; try done.
      pose proof (testbit_div m k ltac:(lia)) as Hd. rewrite Hb in Hd. cbn [b2z] in Hd.
      rewrite pow_split by lia. assert (0 < 2 ^ k) by lia.
      rewrite Z.mod_eq in * by lia. rewrite pow_split in Hd by lia. nia.
    + assert (Hk13 : k < 13).
      { destruct (decide (k < 13)); [done|]. assert (k = 13) as -> by lia.
        rewrite Z.mod_small in Hlow by lia. lia. }
      split; [lia|]. split; [done|]. split; [done|]. rewrite sub_off_nobit by (lia || done).
      split; [done|]. split; [done|]. destruct Hs as (? & ? & Hs & ?). split; [done|]. split; [done|].
      split; [|done]. intros k' Hk' Hb'. apply Hs; [lia|done].
Qed.

(** Incrementing the counter. *)
Lemma incr_bits m t : 0 <= m -> 0 <= t -> Z.testbit m t = false -> m mod 2 ^ t = 2 ^ t - 1 ->
  (forall k, t < k -> Z.testbit (m + 1) k = Z.testbit m k /\ sub_off (m + 1) k = sub_off m k) /\
  Z.testbit (m + 1) t = true /\ sub_off (m + 1) t = sub_off m t /\
  (forall k, 0 <= k < t -> Z.testbit (m + 1) k = false) /\ (m + 1) mod 2 ^ t = 0 /\ sub_off m t + 2 ^ t = m + 1.
Proof.
  intros Hm Ht Hb Hlow. assert (Hp : 0 < 2 ^ t) by lia.
  pose proof (testbit_div m t Ht) as Hd. rewrite Hb in Hd. cbn [b2z] in Hd.
  set (q := m / 2 ^ (t + 1)) in *.
  assert (Em : m = 2 * q * 2 ^ t + (2 ^ t - 1)).
  { rewrite (Z.div_mod m (2 ^ t)) at 1 by lia. rewrite Hlow. nia. }
  assert (Em1 : m + 1 = (2 * q + 1) * 2 ^ t) by lia.
  assert (Hq : (m + 1) / 2 ^ (t + 1) = q).
  { rewrite Em1, pow_split by lia. symmetry. apply (Z.div_unique _ _ q (2 ^ t)); [left|]; nia. }
  assert (Hhi : forall k, t < k -> (m + 1) / 2 ^ k = m / 2 ^ k).
  { intros k Hk. replace k with (t + 1 + (k - t - 1)) by lia.
    rewrite (Z.pow_add_r 2 (t + 1)), <- !Z.div_div by lia. by rewrite Hq. }
  split; [|split; [|split; [|split; [|split]]]].
  - intros k Hk. split.
    + rewrite !Z.testbit_odd, !Z.shiftr_div_pow2 by lia. by rewrite Hhi.
    + unfold sub_off. by rewrite Hhi by lia.
  - rewrite Z.testbit_odd, Z.shiftr_div_pow2, Em1, Z.div_mul by lia.
    rewrite Z.odd_add, Z.odd_mul. done.
  - unfold sub_off. by rewrite Hq.
  - intros k Hk. rewrite Z.testbit_odd, Z.shiftr_div_pow2, Em1 by lia.
    replace (2 ^ t) with (2 ^ (t - k - 1) * 2 * 2 ^ k).
    { rewrite Z.mul_assoc, Z.div_mul by lia. rewrite Z.mul_assoc, Z.odd_mul. by rewrite andb_false_r. }
    rewrite <- (Z.pow_1_r 2) at 2. rewrite <- !Z.pow_add_r by lia. f_equal. lia.
  - rewrite Em1. apply Z.mod_mul. lia.
  - unfold sub_off. fold q. rewrite pow_split by lia. lia.
Qed.

Lemma sort_loop_spec n m aSub a p0 n0 t0 : Z.of_nat n = N - m -> 0 <= m -> (0 < n)%nat ->
  subs_ok m 0 aSub a -> (m < N -> run C a m 1 (m + 1)) ->
  let '(aSub', a', p, nM, t) := sort_loop C n m aSub a p0 n0 t0 in
  0 <= t < 13 /\ p = sub_off N t /\ sub_off N t + 2 ^ t = N /\ run C a' p nM N /\ subs_ok N (t + 1) aSub' a'.
Proof.
  revert m aSub a p0 n0 t0. induction n as [|n IH]; intros m aSub a p0 n0 t0 Hn Hm Hpos Hs Hr; [lia|].
  cbn [sort_loop]. pose proof (merge_up_spec 13 m 0 aSub a 1 ltac:(lia) ltac:(lia) ltac:(lia)) as H.
  rewrite Z.pow_0_r, Z.mod_1_r, Z.div_1_r, Z.mul_1_r in H. specialize (H eq_refl Hs ltac:(apply Hr; lia)).
  destruct (merge_up C 13 m 0 aSub a m 1) as [[[a' p] nM] t].
  destruct H as (Ht & Hb & Hlow & -> & Hrun & (Hza & Hzs & Hsub & Hrest)).
  destruct (incr_bits m t ltac:(lia) ltac:(lia) Hb Hlow) as (Hup & Hbt & Hoff & Hdown & _ & Hend).
  set (aSub' := aSub.[t <- (nM, sub_off m t)]).
  assert (Hs' : subs_ok (m + 1) 0 aSub' a').
  { split; [done|]. split; [unfold aSub'; by rewrite zlen_zput|]. split.
    - intros k Hk Hbk. destruct (Z.lt_trichotomy k t) as [Hlt|[->|Hgt]].
      + rewrite Hdown in Hbk by lia. done.
      + exists nM. unfold aSub'. rewrite zget_zput_eq, Hoff, Hend by lia. done.
      + destruct (Hup k Hgt) as [E1 E2]. rewrite E1 in Hbk. rewrite E2. unfold aSub'.
        rewrite zget_zput_ne by lia. apply Hsub; [lia|done].
    - intros j Hj. apply Hrest. lia. }
  destruct n as [|n].
  - cbn [sort_loop]. assert (N = m + 1) as EN by lia. rewrite EN in *. rewrite Hoff.
    split; [done|]. split; [done|]. split; [done|]. split; [done|].
    destruct Hs' as (? & ? & Hs' & ?). split; [done|]. split; [done|]. split; [|done].
    intros k Hk. apply Hs'. lia.
  - apply IH; try lia; [done|]. intros _. apply Hrest. lia.
Qed.

Lemma sort_final_spec n k aSub a nM : 0 <= k <= 13 -> Z.of_nat n = 13 - k ->
  subs_ok N k aSub a -> run C a (N / 2 ^ k * 2 ^ k) nM N ->
  let '(a', p, n') := sort_final C n N k aSub a (N / 2 ^ k * 2 ^ k) nM in
  p = 0 /\ run C a' 0 n' N.
Proof.
  revert k a nM. induction n as [|n IH]; intros k a nM Hk Hn Hs Hr; cbn [sort_final].
  - assert (k = 13) as -> by lia. rewrite Z.div_small, Z.mul_0_l in * by lia. done.
  - rewrite land_bit by lia. destruct (Z.testbit N k) eqn:Hb.
    + destruct Hs as (Hza & Hzs & Hsub & Hrest).
      destruct (Hsub k ltac:(lia) Hb) as (nL & -> & HL). rewrite sub_off_bit in HL by (lia || done).
      pose proof (walMerge_run C a _ _ _ _ _ HL Hr) as H. destruct (walMerge _ _ _ _ _ _) as [[a' p] n'].
      destruct H as (-> & Hr' & Hz & Hd). unfold sub_off at 1. apply IH; [lia|lia| |done].
      split; [lia|]. split; [done|]. split; [|lia].
      intros k' Hk' Hb'. destruct (Hsub k' ltac:(lia) Hb') as (n2 & E2 & H2). exists n2. split; [done|].
      apply Hd; [done|]. left. rewrite sub_off_bit by (lia || done). unfold sub_off. apply floor_mono; lia.
    + rewrite <- (sub_off_nobit N k) in * by (lia || done). unfold sub_off. apply IH; [lia|lia| |done].
      destruct Hs as (? & ? & Hs & ?). split; [done|]. split; [done|]. split; [|done].
      intros k' Hk'. apply Hs. lia.
Qed.

Lemma mergesort_run : let '(a, n) := walMergesort C (seqZ 0 N) N in run C a 0 n N.
Proof.
  assert (Hz : zlen (seqZ 0 N) = N) by (unfold zlen; rewrite length_seqZ; lia).
  assert (Hone : forall j, 0 <= j < N -> run C (seqZ 0 N) j 1 (j + 1)).
  { intros j Hj. split; [lia|]. split; [lia|]. split; [lia|].
    replace (slice (seqZ 0 N) j 1) with [j]; [apply idx_ok_one|].
    unfold slice. change (Z.to_nat 1) with 1%nat.
    rewrite (drop_S _ j) by (rewrite lookup_seqZ; lia). done. }
  unfold walMergesort.
  pose proof (sort_loop_spec (Z.to_nat N) 0 (replicate 13 (0, 0)) (seqZ 0 N) 0 0 0) as H.
  destruct (sort_loop _ _ _ _ _ _ _ _) as [[[[aSub a] p] nM] t].
  destruct H as (Ht & -> & He & Hr & Hs); [lia|lia|lia| |intros; apply Hone; lia|].
  { split; [done|]. split; [done|]. split; [|intros; apply Hone; lia].
    intros k _ Hb. by rewrite Z.bits_0 in Hb. }
  pose proof (sort_final_spec (Z.to_nat (13 - (t + 1))) (t + 1) aSub a nM ltac:(lia) ltac:(lia) Hs Hr) as H.
  change (N / 2 ^ (t + 1) * 2 ^ (t + 1)) with (sub_off N t) in H.
  destruct (sort_final _ _ _ _ _ _ _ _) as [[a' p] n']. apply H.
Qed.
End counter.

(** ** Merging the segments *)

(** The entries of a segment by ascending page. *)
Definition asc (A : list (Z * Z)) : Prop := forall i j, 0 <= i < j -> j < zlen A -> fst A.[i] < fst A.[j].

(** Segment [s] lists the entries [A], and has passed only pages up to [q]. *)
Definition seg_inv (q : Z) (s : WalSegment) (A : list (Z * Z)) : Prop :=
  0 <= iNext s <= nEntry s /\ nEntry s = zlen A /\
  (forall i, 0 <= i < zlen A -> A.[i] = ((seg_aPgno s).[(aIndex s).[i]], seg_iZero s + (aIndex s).[i])) /\
  (forall i, 0 <= i < iNext s -> fst A.[i] <= q) /\ asc A.

Lemma seg_inv_le q q' s A : q <= q' -> seg_inv q s A -> seg_inv q' s A.
Proof. intros Hq (H1 & H2 & H3 & H4 & H5). repeat split; try done; try lia. intros i Hi. specialize (H4 i Hi). lia. Qed.

Lemma seg_skip_spec n q s A : seg_inv q s A -> nEntry s - iNext s <= Z.of_nat n ->
  let s' := seg_skip n q s in seg_inv q s' A /\ (iNext s' < nEntry s' -> q < seg_page s').
Proof.
  revert s. induction n as [|n IH]; intros s Hs Hn; cbn [seg_skip].
  - split; [done|]. lia.
  - destruct Hs as (H1 & H2 & H3 & H4 & H5).
    destruct (Z.ltb_spec (iNext s) (nEntry s)); [|split; [done|lia]].
    destruct (Z.ltb_spec q (seg_page s)) as [Hp|Hp]; [split; [done|by intros _]|].
    apply IH; [|cbn [nEntry iNext]; lia]. split; [cbn [nEntry iNext]; lia|]. split; [done|].
    split; [exact H3|]. split; [|done]. cbn [iNext]. intros i Hi.
    destruct (decide (i < iNext s)); [apply H4; lia|]. assert (i = iNext s) as -> by lia.
    rewrite H3 by lia. exact Hp.
Qed.

(** [(p, f)] is an entry, and later segments have none for the page. *)
Fixpoint newest_in (As : list (list (Z * Z))) (p f : Z) : Prop :=
  match As with
  | [] => False
  | A :: As' => newest_in As' p f \/ ((p, f) ∈ A /\ Forall (fun A' => forall f', (p, f') ∉ A') As')
  end.

Lemma newest_in_elem As p f : newest_in As p f -> (p, f) ∈ concat As.
Proof. induction As as [|A As IH]; cbn; [done|]. rewrite elem_of_app. intros [H|[H _]]; auto. Qed.
Lemma elem_newest As p f : (p, f) ∈ concat As -> exists f', newest_in As p f'.
Proof.
  revert f. induction As as [|A As IH]; intros f; cbn [concat newest_in]; [set_solver|].
  rewrite elem_of_app. intros H. destruct (decide (Exists (fun e => fst e = p) (concat As))) as [He|He].
  - apply Exists_exists in He as ([p' g] & He & Ep). cbn in Ep. subst p'. destruct (IH g He); eauto.
  - destruct H as [H|H].
    + exists f. right. split; [done|]. apply Forall_forall. intros A' HA' g Hg. apply He, Exists_exists.
      exists (p, g). split; [|done]. apply list_elem_of_In, in_concat. exists A'.
      split; by apply list_elem_of_In.
    + exfalso. apply He, Exists_exists. by exists (p, f).
Qed.

Lemma next_segs_spec q f0 segs As : Forall2 (seg_inv q) segs As ->
  Forall (fun e => fst e < 0xffffffff) (concat As) ->
  let '(segs', (p, f)) := next_segs q f0 segs in
  Forall2 (seg_inv q) segs' As /\
  (forall e, e ∈ concat As -> q < fst e -> p <= fst e) /\
  (p = 0xffffffff \/ q < p < 0xffffffff /\ newest_in As p f).
Proof.
  induction 1 as [|s A segs As Hs Hrest IH]; intros Hlt; cbn [next_segs concat].
  { split; [constructor|]. split; [set_solver|by left]. }
  cbn [concat] in Hlt. apply Forall_app in Hlt as [HltA Hlt]. specialize (IH Hlt).
  destruct (next_segs q f0 segs) as [segs' [p f]]. destruct IH as (I1 & I2 & I3).
  destruct (seg_skip_spec (Z.to_nat (nEntry s - iNext s)) q s A Hs ltac:(lia)) as [Hs' Hq].
  set (s' := seg_skip _ q s) in *. cbn zeta in Hs', Hq. clearbody s'.
  pose proof Hs' as (H1 & H2 & H3 & H4 & H5).
  assert (HF : Forall2 (seg_inv q) (s' :: segs') (A :: As)) by (by constructor).
  (* entries of A above q are at or after iNext *)
  assert (Hmin : forall e, e ∈ A -> q < fst e -> iNext s' < nEntry s' /\ seg_page s' <= fst e).
  { intros e He Hqe. apply elem_zget in He as (i & Hi & <-).
    destruct (decide (i < iNext s')); [specialize (H4 i ltac:(lia)); lia|]. split; [lia|].
    unfold seg_page. pose proof (H3 (iNext s') ltac:(lia)) as E. apply (f_equal fst) in E. cbn [fst] in E.
    rewrite <- E. destruct (decide (i = iNext s')) as [->|]; [lia|].
    pose proof (H5 (iNext s') i ltac:(lia) ltac:(lia)). lia. }
  destruct (Z.ltb_spec (iNext s') (nEntry s')) as [Hn|Hn]; cbn [andb].
  - assert (Hin : (seg_page s', seg_iZero s' + (aIndex s').[iNext s']) ∈ A).
    { apply elem_zget. exists (iNext s'). split; [lia|]. apply H3. lia. }
    specialize (Hq Hn). rewrite Forall_forall in HltA. pose proof (HltA _ Hin) as Hpl. cbn [fst] in Hpl.
    destruct (Z.ltb_spec (seg_page s') p) as [Hlp|Hlp].
    + split; [exact HF|]. split.
      * intros e He Hqe. apply elem_of_app in He as [He|He]; [by apply Hmin|].
        specialize (I2 e He Hqe). lia.
      * right. split; [lia|]. cbn [newest_in]. right. split; [exact Hin|].
        apply Forall_forall. intros A' HA' f' Hf'.
        assert (He : (seg_page s', f') ∈ concat As).
        { apply list_elem_of_In, in_concat. exists A'. split; by apply list_elem_of_In. }
        specialize (I2 _ He Hq). cbn [fst] in I2. lia.
    + split; [exact HF|]. split.
      * intros e He Hqe. apply elem_of_app in He as [He|He]; [|by apply I2].
        destruct (Hmin e He Hqe). lia.
      * destruct I3 as [->|[Hp Hnew]]; [lia|]. right. split; [done|]. cbn [newest_in]. by left.
  - split; [exact HF|]. split.
    + intros e He Hqe. apply elem_of_app in He as [He|He]; [|by apply I2].
      destruct (Hmin e He Hqe). lia.
    + destruct I3 as [->|[Hp Hnew]]; [by left|]. right. split; [done|]. cbn [newest_in]. by left.
Qed.

(** Entries above [q]: the measure of the iteration. *)
Definition above (q : Z) (As : list (list (Z * Z))) : list (Z * Z) := filter (fun e => q < fst e) (concat As).

Lemma above_lt q p f As : q < p -> (p, f) ∈ concat As -> (length (above p As) < length (above q As))%nat.
Proof.
  unfold above. intros Hq H. apply list_elem_of_split in H as (l1 & l2 & ->).
  rewrite !filter_app, !length_app, !filter_cons. cbn [fst].
  rewrite decide_False, decide_True by lia. cbn [length].
  assert (Hle : forall l : list (Z * Z), (length (filter (fun e => (p < fst e)%Z) l) <= length (filter (fun e => (q < fst e)%Z) l))%nat).
  { induction l as [|e l IH]; [done|]. rewrite !filter_cons. repeat destruct (decide _); cbn [length]; lia. }
  pose proof (Hle l1). pose proof (Hle l2). lia.
Qed.

Lemma iterate_spec n q f0 segs As : Forall2 (seg_inv q) segs As ->
  Forall (fun e => fst e < 0xffffffff) (concat As) -> (length (above q As) < n)%nat ->
  (forall p f f', newest_in As p f -> newest_in As p f' -> f = f') ->
  exists L, iterate n (mkIter q segs) f0 = Some L /\
    StronglySorted (fun e e' => fst e < fst e') L /\
    forall p f, (p, f) ∈ L <-> q < p /\ newest_in As p f.
Proof.
  intros Hs Hlt Hn Huniq. revert q f0 segs Hs Hn. induction n as [|n IH]; intros q f0 segs Hs Hn; [lia|].
  cbn [iterate]. unfold walIteratorNext. cbn [iPrior aSegment].
  pose proof (next_segs_spec q f0 segs As Hs Hlt) as H.
  destruct (next_segs q f0 segs) as [segs' [p f]]. destruct H as (H1 & H2 & H3).
  destruct H3 as [->|[Hp Hnew]].
  - cbn. exists []. split; [done|]. split; [constructor|]. intros p f'. split; [set_solver|].
    intros [Hq Hnew]. apply newest_in_elem in Hnew. specialize (H2 _ Hnew Hq). cbn in H2.
    rewrite Forall_forall in Hlt. specialize (Hlt _ Hnew). cbn in Hlt. lia.
  - rewrite (proj2 (Z.eqb_neq _ _)) by lia. cbn [b2z truthy Z.eqb negb].
    destruct (IH p f segs') as (L & E & HL & HmL).
    { eapply Forall2_impl; [exact H1|]. intros s A. apply seg_inv_le. lia. }
    { pose proof (above_lt q p f As ltac:(lia) (newest_in_elem _ _ _ Hnew)). lia. }
    rewrite E. eexists. split; [reflexivity|]. split.
    { constructor; [done|]. apply Forall_forall. intros [p' f'] He. apply HmL in He. cbn. lia. }
    intros p' f'. rewrite elem_of_cons, HmL. split.
    + intros [E'|[Hp' Hnew']]; [simplify_eq; split; [lia|done]|split; [lia|done]].
    + intros [Hq Hnew']. destruct (decide (p' = p)) as [->|Hne].
      * left. f_equal. by eapply Huniq.
      * right. split; [|done]. apply newest_in_elem in Hnew'. specialize (H2 _ Hnew' Hq). cbn in H2. lia.
Qed.

(** ** From the wal-index to the segments *)

Lemma newest_in_map (g : Z -> list (Z * Z)) n a p f :
  newest_in (map g (seqZ a (Z.of_nat n))) p f <->
  exists t, a <= t < a + Z.of_nat n /\ (p, f) ∈ g t /\
    forall t', t < t' < a + Z.of_nat n -> forall f', (p, f') ∉ g t'.
Proof.
  revert a. induction n as [|n IH]; intros a.
  { cbn. split; [done|]. intros (t & Ht & _). lia. }
  rewrite seqZ_cons by lia. cbn [map newest_in].
  replace (Z.pred (Z.of_nat (S n))) with (Z.of_nat n) by lia. rewrite IH, Forall_map, Forall_forall. split.
  - intros [(t & Ht & Hin & Hno)|[Hin Hno]].
    + exists t. split; [lia|]. split; [done|]. intros t' Ht'. apply Hno. lia.
    + exists a. split; [lia|]. split; [done|]. intros t' Ht'. apply (Hno t'), elem_of_seqZ. lia.
  - intros (t & Ht & Hin & Hno). destruct (decide (t = a)) as [->|Hne].
    + right. split; [done|]. intros t' Ht'%elem_of_seqZ. apply Hno. lia.
    + left. exists t. split; [lia|]. split; [done|]. intros t' Ht'. apply Hno. lia.
Qed.

Lemma seg_inv_nil q : seg_inv q (mkSeg 0 [] [] 0 0) [].
Proof.
  unfold seg_inv, asc. change (zlen (@nil (Z * Z))) with 0. cbn [iNext nEntry].
  repeat split; intros; lia.
Qed.

Lemma sorted_lookup {A} (R : A -> A -> Prop) (l : list A) (i j : nat) x y :
  StronglySorted R l -> l !! i = Some x -> l !! j = Some y -> (i < j)%nat -> R x y.
Proof.
  intros Hs. revert i j. induction Hs as [|z l Hs IH Hz]; intros i j Hi Hj Hij; [done|].
  destruct j as [|j]; [lia|]. cbn in Hj. destruct i as [|i]; cbn in Hi.
  - simplify_eq. rewrite Forall_forall in Hz. apply Hz. by eapply list_elem_of_lookup_2.
  - apply (IH i j); [done|done|lia].
Qed.

(** The entries a sorted table gives. *)
Definition table_entries (C a : list Z) (n zero : Z) : list (Z * Z) :=
  map (fun j => (C.[j], zero + j)) (slice a 0 n).

Lemma table_entries_inv C a n N zero : run C a 0 n N ->
  seg_inv 0 (mkSeg 0 a C n zero) (table_entries C a n zero).
Proof.
  intros (_ & Hn & Hz & Hs & Hm).
  assert (Hl : zlen (slice a 0 n) = n) by (apply zlen_slice; lia).
  assert (Hl' : zlen (table_entries C a n zero) = n).
  { unfold table_entries, zlen in *. by rewrite length_map. }
  assert (Hg : forall i, 0 <= i < n -> (table_entries C a n zero).[i] = (C.[a.[i]], zero + a.[i])).
  { intros i Hi. unfold table_entries, zget, zlookup. rewrite (proj2 (Z.leb_le 0 i)) by lia.
    change (map ?f ?l) with (f <$> l). rewrite list_lookup_fmap. unfold slice.
    rewrite drop_0, lookup_take_lt by lia.
    destruct (lookup_lt_is_Some_2 a (Z.to_nat i)) as [x Ex]; [unfold zlen in Hz; lia|].
    rewrite Ex. done. }
  unfold seg_inv. cbn [iNext nEntry aIndex seg_aPgno seg_iZero]. rewrite Hl'.
  split; [lia|]. split; [done|]. split; [exact Hg|]. split; [lia|].
  intros i j Hij Hj. rewrite Hl' in Hj. rewrite !Hg by lia. cbn [fst].
  apply (sorted_lookup (fun i j => C.[i] < C.[j]) (slice a 0 n) (Z.to_nat i) (Z.to_nat j)); [done| | |lia].
  - unfold slice. rewrite drop_0, lookup_take_lt by lia. pose proof (zlookup_zget a i ltac:(lia)) as E.
    unfold zlookup in E. by rewrite (proj2 (Z.leb_le 0 i)) in E by lia.
  - unfold slice. rewrite drop_0, lookup_take_lt by lia. pose proof (zlookup_zget a j ltac:(lia)) as E.
    unfold zlookup in E. by rewrite (proj2 (Z.leb_le 0 j)) in E by lia.
Qed.

Lemma table_entries_elem C a n N zero p f : run C a 0 n N ->
  (p, f) ∈ table_entries C a n zero <->
  exists j, 0 <= j < N /\ f = zero + j /\ C.[j] = p /\ forall j', j < j' < N -> C.[j'] <> p.
Proof.
  intros (_ & Hn & Hz & Hs & Hm). unfold table_entries. rewrite list_elem_of_fmap. split.
  - intros (j & E & Hj). simplify_eq. apply Hm in Hj as [Hj Hl]. exists j. done.
  - intros (j & Hj & -> & <- & Hl). exists j. split; [done|]. by apply Hm.
Qed.

Section iterator.
Context (map_rc : Z -> Z) (Hmap : forall t, map_rc t = SQLITE_OK).
Context (wi : gmap Z WalHash) (F : list Z) (Hwi : wi_ok map_rc wi F).
Context (iLast : Z) (HiLast : 1 <= iLast <= zlen F) (Hmax : iLast < MAX_FRAMES).

(** The segment built for table [t], and the entries it lists. *)
Definition entry_count (t : Z) : Z :=
  if t + 1 =? walFramePage iLast + 1 then iLast - iZero t else zlen (aPgno (snd (walHashGet map_rc wi t))).
Definition seg_at (t : Z) : WalSegment :=
  let C := aPgno (snd (walHashGet map_rc wi t)) in
  let '(a, n) := walMergesort C (seqZ 0 (entry_count t)) (entry_count t) in mkSeg 0 a C n (iZero t + 1).
Definition entries_at (t : Z) : list (Z * Z) :=
  let C := aPgno (snd (walHashGet map_rc wi t)) in
  let '(a, n) := walMergesort C (seqZ 0 (entry_count t)) (entry_count t) in table_entries C a n (iZero t + 1).

Lemma seg_of_last t : 0 <= t <= walFramePage iLast ->
  iZero t < iLast /\ iZero t + entry_count t = Z.min iLast (iZero (t + 1)) /\ 0 < entry_count t <= 4096.
Proof.
  intros Ht. destruct (walFramePage_spec iLast ltac:(lia)) as [_ Hr]. cbn zeta in Hr.
  pose proof (table_size_range t) as Hts. unfold HASHTABLE_NPAGE in Hts.
  pose proof (iZero_succ t ltac:(lia)) as Hsucc. unfold entry_count.
  destruct (Z.eqb_spec (t + 1) (walFramePage iLast + 1)) as [E|E].
  - replace t with (walFramePage iLast) in * by lia. lia.
  - pose proof (iZero_lt t (walFramePage iLast) ltac:(lia)).
    assert (Hlt : iZero t < zlen F) by lia. pose proof (Hwi t ltac:(lia) Hlt) as Hok.
    assert (Hz : zlen (aPgno (snd (walHashGet map_rc wi t))) = table_size t).
    { rewrite (to_pgno _ _ _ Hok), zlen_app. unfold zlen at 2. rewrite length_replicate.
      pose proof (to_size _ _ _ Hok). lia. }
    rewrite Hz. lia.
Qed.

(** Page numbers in the table are those of the frames. *)
Lemma table_page t j : 0 <= t <= walFramePage iLast -> 0 <= j < entry_count t ->
  (aPgno (snd (walHashGet map_rc wi t))).[j] = F.[iZero t + j].
Proof.
  intros Ht Hj. destruct (seg_of_last t Ht) as (Hz & He & _). pose proof (iZero_nonneg t ltac:(lia)).
  pose proof (iZero_succ t ltac:(lia)) as Hsucc.
  pose proof (Hwi t ltac:(lia) ltac:(lia)) as Hok.
  assert (Hc : zlen (chunk t F) = Z.min (table_size t) (zlen F - iZero t)).
  { unfold chunk, slice, zlen. rewrite length_take, length_drop. unfold zlen in *. lia. }
  rewrite (pgno_lookup _ _ _ _ Hok) by lia. rewrite (proj2 (Z.ltb_lt _ _)) by lia.
  unfold chunk, slice, zget, zlookup. rewrite (proj2 (Z.leb_le 0 j)), (proj2 (Z.leb_le 0 (iZero t + j))) by lia.
  rewrite lookup_take_lt, lookup_drop by lia. do 2 f_equal. lia.
Qed.

Lemma entries_at_elem t p f : 0 <= t <= walFramePage iLast ->
  (p, f) ∈ entries_at t <->
  iZero t < f <= Z.min iLast (iZero (t + 1)) /\ F.[f - 1] = p /\
  forall f', f < f' <= Z.min iLast (iZero (t + 1)) -> F.[f' - 1] <> p.
Proof.
  intros Ht. destruct (seg_of_last t Ht) as (Hz & He & Hc). unfold entries_at.
  pose proof (mergesort_run (aPgno (snd (walHashGet map_rc wi t))) (entry_count t) Hc) as Hr.
  destruct (walMergesort _ _ _) as [a n]. rewrite (table_entries_elem _ _ _ _ _ _ _ Hr). split.
  - intros (j & Hj & -> & <- & Hl). rewrite table_page by done. split; [lia|].
    split; [f_equal; lia|]. intros f' Hf' E. apply (Hl (f' - 1 - iZero t)); [lia|].
    rewrite !table_page by lia. rewrite <- E. f_equal. lia.
  - intros (Hf & <- & Hl). exists (f - 1 - iZero t). split; [lia|]. split; [lia|].
    rewrite table_page by lia. split; [f_equal; lia|]. intros j' Hj'. rewrite table_page by lia.
    replace (iZero t + j') with (iZero t + j' + 1 - 1) by lia. apply Hl. lia.
Qed.

Lemma seg_at_inv t : 0 <= t <= walFramePage iLast -> seg_inv 0 (seg_at t) (entries_at t).
Proof.
  intros Ht. destruct (seg_of_last t Ht) as (_ & _ & Hc). unfold seg_at, entries_at.
  pose proof (mergesort_run (aPgno (snd (walHashGet map_rc wi t))) (entry_count t) Hc) as Hr.
  destruct (walMergesort _ _ _) as [a n]. by eapply table_entries_inv.
Qed.

Lemma init_segs_spec n i segs : 0 <= i -> i + Z.of_nat n = walFramePage iLast + 1 -> zlen segs = i + Z.of_nat n ->
  exists segs', init_segs map_rc n wi iLast (walFramePage iLast + 1) i segs = (SQLITE_OK, segs') /\
    zlen segs' = zlen segs /\ forall t, 0 <= t < zlen segs -> segs'.[t] = if i <=? t then seg_at t else segs.[t].
Proof.
  revert i segs. induction n as [|n IH]; intros i segs Hi Hn Hz.
  { exists segs. split; [done|]. split; [done|]. intros t Ht. by rewrite (proj2 (Z.leb_gt _ _)) by lia. }
  cbn [init_segs]. unfold walHashGet at 1. rewrite Hmap. cbn [truthy Z.eqb negb SQLITE_OK].
  fold (snd (walHashGet map_rc wi i)).
  change (default (zero_table i) (wi !! i)) with (snd (walHashGet map_rc wi i)).
  pose proof (eq_refl (seg_at i)) as Es. unfold seg_at at 2, entry_count in Es.
  destruct (walMergesort _ _ _) as [a nE]. rewrite <- Es.
  destruct (IH (i + 1) (segs.[i <- seg_at i])) as (segs' & E & Hz' & Hg); [lia|lia|rewrite zlen_zput; lia|].
  exists segs'. rewrite E. split; [done|]. rewrite zlen_zput in *. split; [done|]. intros t Ht. rewrite Hg by done.
  destruct (Z.leb_spec (i + 1) t), (Z.leb_spec i t); try lia; [done| |].
  - assert (t = i) as -> by lia. apply zget_zput_eq. lia.
  - apply zget_zput_ne. lia.
Qed.

(** The segments of an iterator that starts at table [first]. *)
Definition entries_from (first t : Z) : list (Z * Z) := if first <=? t then entries_at t else [].

Lemma entries_from_total first n a : 0 <= a -> a + Z.of_nat n = walFramePage iLast + 1 ->
  zlen (concat (map (entries_from first) (seqZ a (Z.of_nat n)))) <= Z.max 0 (iLast - iZero a).
Proof.
  revert a. induction n as [|n IH]; intros a Ha Hn.
  { change (concat _) with (@nil (Z * Z)). change (zlen (@nil (Z * Z))) with 0. lia. }
  rewrite seqZ_cons by lia. cbn [map concat]. replace (Z.pred (Z.of_nat (S n))) with (Z.of_nat n) by lia.
  rewrite zlen_app. specialize (IH (Z.succ a) ltac:(lia) ltac:(lia)). replace (Z.succ a) with (a + 1) in * by lia.
  destruct (seg_of_last a ltac:(lia)) as (Hz & He & Hc). pose proof (iZero_succ a Ha).
  pose proof (table_size_range a).
  assert (zlen (entries_from first a) <= entry_count a); [|lia].
  unfold entries_from. destruct (first <=? a); [|change (zlen (@nil (Z * Z))) with 0; lia]. unfold entries_at.
  pose proof (mergesort_run (aPgno (snd (walHashGet map_rc wi a))) (entry_count a) Hc) as Hr.
  destruct (walMergesort _ _ _) as [a' n']. destruct Hr as (_ & Hn' & Hz' & _).
  unfold table_entries, zlen in *. rewrite length_map. unfold slice. rewrite length_take. lia.
Qed.

(** The newest entries are the last frames of their pages. *)
Lemma entries_newest first p f : 0 <= first <= walFramePage iLast ->
  newest_in (map (entries_from first) (seqZ 0 (walFramePage iLast + 1))) p f <->
  iZero first < f <= iLast /\ F.[f - 1] = p /\ forall f', f < f' <= iLast -> F.[f' - 1] <> p.
Proof.
  intros Hfl. set (lastp := walFramePage iLast) in *. unfold MAX_FRAMES in *.
  destruct (walFramePage_spec iLast) as [Hl0 Hl1]; [unfold MAX_FRAMES; lia|]. fold lastp in Hl0, Hl1. cbn zeta in Hl1.
  replace (lastp + 1) with (Z.of_nat (Z.to_nat (lastp + 1))) by lia.
  rewrite newest_in_map, Z2Nat.id, Z.add_0_l by lia. split.
  - intros (t & Ht & Hin & Hno). unfold entries_from in Hin. destruct (Z.leb_spec first t) as [Hft|]; [|set_solver].
    apply entries_at_elem in Hin as (Hf & Ep & Hl); [|lia].
    split; [|split; [done|]].
    { destruct (decide (first = t)) as [->|]; [lia|]. pose proof (iZero_lt first t ltac:(lia)).
      pose proof (table_size_range first). lia. }
    intros f' Hf' Ep'. pose proof (iZero_nonneg t ltac:(lia)).
    destruct (walFramePage_spec f') as [Hq0 Hq1]; [unfold MAX_FRAMES; lia|].
    set (t' := walFramePage f') in *. cbn zeta in Hq0, Hq1.
    assert (Htt : t <= t').
    { destruct (decide (t <= t')); [done|]. pose proof (iZero_lt t' t ltac:(lia)). lia. }
    pose proof (iZero_succ t' Hq0).
    destruct (decide (t' = t)) as [->|Hne]; [apply (Hl f'); [lia|done]|].
    assert (Htl : t' <= lastp).
    { destruct (decide (t' <= lastp)); [done|]. pose proof (iZero_lt lastp t' ltac:(lia)). lia. }
    destruct (last_position (fun g => F.[g - 1] = p) f' (Z.min iLast (iZero (t' + 1)) + 1)) as (k & Hk & Ek & Hkl);
      [lia|done|].
    apply (Hno t' ltac:(lia) k). unfold entries_from. rewrite (proj2 (Z.leb_le _ _)) by lia.
    apply entries_at_elem; [lia|]. split; [lia|]. split; [done|]. intros g Hgk. apply Hkl. lia.
  - intros (Hf & Ep & Hl). destruct (walFramePage_spec f) as [Hq0 Hq1].
    { pose proof (iZero_nonneg first ltac:(lia)). unfold MAX_FRAMES. lia. }
    set (t := walFramePage f) in *. cbn zeta in Hq0, Hq1. pose proof (iZero_succ t Hq0).
    assert (Hft : first <= t).
    { destruct (decide (first <= t)); [done|]. pose proof (iZero_lt t first ltac:(lia)). lia. }
    assert (Htl : t <= lastp).
    { destruct (decide (t <= lastp)); [done|]. pose proof (iZero_lt lastp t ltac:(lia)). lia. }
    exists t. split; [lia|]. split.
    + unfold entries_from. rewrite (proj2 (Z.leb_le _ _)) by lia. apply entries_at_elem; [lia|].
      split; [lia|]. split; [done|]. intros f' Hf'. apply Hl. lia.
    + intros t' Ht' f' Hin. unfold entries_from in Hin. rewrite (proj2 (Z.leb_le _ _)) in Hin by lia.
      apply entries_at_elem in Hin as (Hf' & Ep' & _); [|lia]. pose proof (iZero_lt t t' ltac:(lia)).
      apply (Hl f'); [lia|done].
Qed.

Lemma iterator_core nBackfill : 0 <= nBackfill < iLast -> Forall (fun p => 0 < p < 0xffffffff) F ->
  exists it L, walIteratorInit map_rc false wi iLast nBackfill = (SQLITE_OK, Some it) /\
    iterate (S (length F)) it 0 = Some L /\ StronglySorted (fun e e' => fst e < fst e') L /\
    forall p f, (p, f) ∈ L <->
      iZero (walFramePage (nBackfill + 1)) < f <= iLast /\ F.[f - 1] = p /\
      forall f', f < f' <= iLast -> F.[f' - 1] <> p.
Proof.
  intros Hb HF. unfold walIteratorInit, MAX_FRAMES in *.
  replace (u32 (nBackfill + 1)) with (nBackfill + 1) by (unfold u32; rewrite Z.mod_small; lia).
  set (first := walFramePage (nBackfill + 1)). set (lastp := walFramePage iLast).
  destruct (walFramePage_spec (nBackfill + 1)) as [Hf0 Hf1]; [unfold MAX_FRAMES; lia|]. fold first in Hf0, Hf1.
  destruct (walFramePage_spec iLast) as [Hl0 Hl1]; [unfold MAX_FRAMES; lia|]. fold lastp in Hl0, Hl1.
  assert (Hfl : first <= lastp).
  { destruct (decide (first <= lastp)); [done|]. pose proof (iZero_lt lastp first ltac:(lia)). lia. }
  set (segs0 := replicate (Z.to_nat (lastp + 1)) (mkSeg 0 [] [] 0 0)).
  assert (Hz0 : zlen segs0 = lastp + 1) by (unfold segs0, zlen; rewrite length_replicate; lia).
  destruct (init_segs_spec (Z.to_nat (lastp + 1 - first)) first segs0) as (segs & E & Hz & Hg); [done|lia|lia|].
  fold lastp in E. rewrite E. cbn [truthy Z.eqb negb SQLITE_OK].
  set (As := map (entries_from first) (seqZ 0 (lastp + 1))).
  assert (Hinv : Forall2 (seg_inv 0) segs As).
  { apply Forall2_same_length_lookup_2.
    { unfold As. rewrite length_map, length_seqZ. unfold zlen in *. lia. }
    intros i s A Hs HA. unfold As in HA. change (map ?f ?l) with (f <$> l) in HA. rewrite list_lookup_fmap in HA.
    apply fmap_Some in HA as (t & Ht & ->). apply lookup_seqZ in Ht as [-> Ht]. rewrite Z.add_0_l in *.
    pose proof (Hg (Z.of_nat i) ltac:(lia)) as Hgi.
    assert (Es : segs.[Z.of_nat i] = s).
    { unfold zget, zlookup. by rewrite (proj2 (Z.leb_le 0 _)), Nat2Z.id, Hs by lia. }
    rewrite Es in Hgi. subst s.
    unfold entries_from. destruct (first <=? Z.of_nat i); [apply seg_at_inv; lia|].
    unfold segs0, zget, zlookup. rewrite (proj2 (Z.leb_le 0 _)), Nat2Z.id by lia.
    rewrite lookup_replicate_2 by lia. apply seg_inv_nil. }
  pose proof (fun p f => entries_newest first p f ltac:(lia)) as Hnew. fold lastp in Hnew. fold As in Hnew.
  assert (Hrange : Forall (fun e => 0 < fst e < 0xffffffff) (concat As)).
  { apply Forall_forall. intros [p f] He. apply elem_newest in He as [f' Hn]. apply Hnew in Hn as (Hf & Ep & _).
    pose proof (iZero_nonneg first Hf0). cbn. rewrite Forall_forall in HF. apply HF, elem_zget.
    exists (f' - 1). split; [lia|done]. }
  destruct (iterate_spec (S (length F)) 0 0 segs As) as (L & EL & HS & HmL).
  - done.
  - eapply Forall_impl; [exact Hrange|]. cbn. lia.
  - pose proof (entries_from_total first (Z.to_nat (lastp + 1)) 0 ltac:(lia) ltac:(lia)) as Ht.
    rewrite Z2Nat.id, iZero_0 in Ht by lia. fold As in Ht. unfold above.
    pose proof (length_filter (fun e : Z * Z => 0 < fst e) (concat As)). unfold zlen in *. lia.
  - intros p f f' Hn1 Hn2. apply Hnew in Hn1 as (A1 & B1 & C1), Hn2 as (A2 & B2 & C2).
    destruct (Z.lt_trichotomy f f') as [Hl|[->|Hl]]; [|done|].
    + destruct (C1 f'); [lia|done].
    + destruct (C2 f); [lia|done].
  - exists (mkIter 0 segs), L. split; [done|]. split; [done|]. split; [done|]. intros p f. rewrite HmL, Hnew.
    split; [tauto|]. intros (Hf & Ep & Hl). split; [|auto]. pose proof (iZero_nonneg first Hf0).
    rewrite Forall_forall in HF. apply HF, elem_zget. exists (f - 1). split; [lia|done].
Qed.
End iterator.

(** C12. The checkpoint iterator: on a wal-index that holds the frames [F], with
    memory available, iteration from [nBackfill] ends after at most one step per
    frame and returns, by ascending page number, exactly the pages with a frame in
    the tables from that of frame [nBackfill + 1] on, each once, with the last frame
    up to [iLast] that holds it. *)
Theorem walIterator_exact (map_rc : Z -> Z) (wi : gmap Z WalHash) (F : list Z) (iLast nBackfill : Z)
  (Hmap : forall t, map_rc t = SQLITE_OK) (Hwi : wi_ok map_rc wi F) (HiLast : 1 <= iLast <= zlen F)
  (Hmax : iLast < MAX_FRAMES) (Hback : 0 <= nBackfill < iLast)
  (HF : Forall (fun p => 0 < p < 0xffffffff) F) :
  exists it L, walIteratorInit map_rc false wi iLast nBackfill = (SQLITE_OK, Some it) /\
    iterate (S (length F)) it 0 = Some L /\ StronglySorted (fun e e' => fst e < fst e') L /\
    forall p f, (p, f) ∈ L <->
      iZero (walFramePage (nBackfill + 1)) < f <= iLast /\ F.[f - 1] = p /\
      forall f', f < f' <= iLast -> F.[f' - 1] <> p.
Proof. by apply iterator_core. Qed.
Lemma walIterator_exact_witness :
  exists it L, walIteratorInit (fun _ => 0) false
      (snd (walIndexAppend (fun _ => 0) 0 (snd (walIndexAppend (fun _ => 0) 0 ∅ 1 7)) 2 7)) 2 0 = (SQLITE_OK, Some it) /\
    iterate 3 it 0 = Some L /\ StronglySorted (fun e e' => fst e < fst e') L /\
    forall p f, (p, f) ∈ L <->
      iZero (walFramePage (0 + 1)) < f <= 2 /\ [7; 7].[f - 1] = p /\ forall f', f < f' <= 2 -> [7; 7].[f' - 1] <> p.
Proof.
  assert (H0 : wi_ok (fun _ => 0) ∅ []).
  { intros t Ht Hz. change (zlen (@nil Z)) with 0 in Hz. pose proof (iZero_nonneg t Ht). lia. }
  destruct (append_ok (fun _ => 0) ∅ [] 0 0 7 (fun _ => eq_refl) H0 ltac:(by_compute) ltac:(by_compute)
              (or_introl eq_refl) ltac:(constructor)) as (wi1 & E1 & H1).
  destruct (append_ok (fun _ => 0) wi1 [7] 1 0 7 (fun _ => eq_refl) H1 ltac:(by_compute) ltac:(by_compute)
              (or_introl eq_refl) ltac:(by_compute)) as (wi2 & E2 & H2).
  change (0 + 1) with 1 in E1. change (1 + 1) with 2 in E2. rewrite E1. cbn [snd]. rewrite E2. cbn [snd].
  apply (walIterator_exact (fun _ => 0) wi2 [7; 7] 2 0 (fun _ => eq_refl) H2); by_compute.
Defined.
