(* ===== verification/JvmLocks.v ===== *)
(** The in-memory lock manager that the host gives to the custom VFS
    (JvmVfsLocks.kt): the other side of the imports [vfs.lock], [vfs.unlock],
    [vfs.check_reserved], [vfs.shm_lock] and [vfs.shm_unmap] of os_jvm.c.
    The wal-index memory behind [vfs.shm_map] is in ShmArena.v.

    A Kotlin [HashMap<Int, Int>] is a [gmap Z Z], a [HashSet<Int>] a [gset Z].
    Every operation runs under the lock of its [FileState] / [ShmState], so it is
    one atomic step; the step relation [file_step] interleaves the steps of all
    connections. *)

From S2P Require Import Prelude.

(** ** File locks *)

Definition NONE : Z := 0.
Definition SHARED : Z := 1.
Definition RESERVED : Z := 2.
Definition PENDING : Z := 3.
Definition EXCLUSIVE : Z := 4.

(** [levels: HashMap<Int, Int>] of one file. *)
Abbreviation FileState := (gmap Z Z).

Definition level_of (st : FileState) (conn : Z) : Z := default NONE (st !! conn).

(** [st.levels.any { (c, l) -> c != conn && l >= level }] *)
Definition othersAtLeast (st : FileState) (conn level : Z) : bool :=
  existsb (fun '(c, l) => negb (c =? conn) && (level <=? l)) (map_to_list st).

Definition lock (st : FileState) (conn target : Z) : Z * FileState :=
  if target <=? level_of st conn then (SQLITE_OK, st) else
  let blocked :=
    if target =? SHARED then othersAtLeast st conn PENDING
    else if target =? RESERVED then othersAtLeast st conn RESERVED
    else if target =? PENDING then othersAtLeast st conn PENDING
    else if target =? EXCLUSIVE then othersAtLeast st conn SHARED
    else false in
  if blocked then (SQLITE_BUSY, st) else (SQLITE_OK, <[conn := target]> st).

Definition unlock (st : FileState) (conn target : Z) : Z * FileState :=
  if target <=? NONE then (SQLITE_OK, delete conn st)
  else (SQLITE_OK, <[conn := target]> st).

Definition checkReserved (st : FileState) (conn : Z) : Z :=
  if othersAtLeast st conn RESERVED then 1 else 0.

(** ** Shared-memory locks *)

Definition SHM_UNLOCK : Z := 1.
Definition SHM_LOCK : Z := 2.
Definition SHM_SHARED : Z := 4.
Definition SHM_EXCLUSIVE : Z := 8.
Definition SHM_NLOCK : Z := 8.

Record ShmState := mkShm { shared : list (gset Z); excl : list Z }.

Definition shm_init : ShmState :=
  mkShm (replicate (Z.to_nat SHM_NLOCK) ∅) (replicate (Z.to_nat SHM_NLOCK) (-1)).

(** [offset until (offset + n)] *)
Definition slots (offset n : Z) : list Z :=
  map (fun k => offset + Z.of_nat k) (seq 0 (Z.to_nat n)).

(** Array bounds are checked: an index outside [0..SHM_NLOCK-1] throws. *)
Definition in_array (s : Z) : bool := (0 <=? s) && (s <? SHM_NLOCK).

Definition clear_slot (st : ShmState) (conn s : Z) : ShmState :=
  mkShm (shared st).[s <- (shared st).[s] ∖ {[conn]}]
        (if (excl st).[s] =? conn then (excl st).[s <- -1] else excl st).
Definition set_excl (st : ShmState) (conn s : Z) : ShmState :=
  mkShm (shared st).[s <- (shared st).[s] ∖ {[conn]}] (excl st).[s <- conn].
Definition add_shared (st : ShmState) (conn s : Z) : ShmState :=
  mkShm (shared st).[s <- {[conn]} ∪ (shared st).[s]] (excl st).

Definition excl_blocked (st : ShmState) (conn s : Z) : bool :=
  negb ((excl st).[s] =? -1) && negb ((excl st).[s] =? conn).
Definition shared_by_other (st : ShmState) (conn s : Z) : bool :=
  existsb (fun c => negb (c =? conn)) (elements (shared st).[s]).

(** [for (s in slots) body], stopping with an exception at a bad index; the
    slots before it have been updated. *)
Fixpoint for_slots (f : ShmState -> Z -> ShmState) (st : ShmState) (ss : list Z)
  : bool * ShmState :=
  match ss with
  | [] => (true, st)
  | s :: ss' => if in_array s then for_slots f (f st s) ss' else (false, st)
  end.

(** The checking loops: [Some true] is [return BUSY], [None] an exception. *)
Fixpoint any_slot (p : Z -> bool) (ss : list Z) : option bool :=
  match ss with
  | [] => Some false
  | s :: ss' => if in_array s then if p s then Some true else any_slot p ss' else None
  end.

(** Result [None] is an exception thrown to the caller. *)
Definition shmLock (st : ShmState) (conn offset n flags : Z) : option Z * ShmState :=
  let ss := slots offset n in
  if truthy (Z.land flags SHM_UNLOCK) then
    let '(ok, st) := for_slots (fun st s => clear_slot st conn s) st ss in
    (if ok then Some SQLITE_OK else None, st)
  else if truthy (Z.land flags SHM_EXCLUSIVE) then
    match any_slot (fun s => excl_blocked st conn s || shared_by_other st conn s) ss with
    | None => (None, st)
    | Some true => (Some SQLITE_BUSY, st)
    | Some false =>
        let '(ok, st) := for_slots (fun st s => set_excl st conn s) st ss in
        (if ok then Some SQLITE_OK else None, st)
    end
  else
    match any_slot (excl_blocked st conn) ss with
    | None => (None, st)
    | Some true => (Some SQLITE_BUSY, st)
    | Some false =>
        let '(ok, st) := for_slots (fun st s => add_shared st conn s) st ss in
        (if ok then Some SQLITE_OK else None, st)
    end.

Definition shmUnmap (st : ShmState) (conn : Z) : Z * ShmState :=
  (SQLITE_OK, snd (for_slots (fun st s => clear_slot st conn s) st (slots 0 SHM_NLOCK))).

(** ** The lock manager: one state per file name *)

Record JvmVfsLocks := mkLocks { files : gmap string FileState; shms : gmap string ShmState }.

(** [files.getOrPut(name) { FileState() }] *)
Definition fileState (m : JvmVfsLocks) (name : string) : FileState :=
  default ∅ (files m !! name).
Definition shmState (m : JvmVfsLocks) (name : string) : ShmState :=
  default shm_init (shms m !! name).

Definition vfs_lock (m : JvmVfsLocks) (conn : Z) (name : string) (target : Z) : Z * JvmVfsLocks :=
  let '(rc, st) := lock (fileState m name) conn target in
  (rc, mkLocks (<[name := st]> (files m)) (shms m)).
Definition vfs_unlock (m : JvmVfsLocks) (conn : Z) (name : string) (target : Z) : Z * JvmVfsLocks :=
  let '(rc, st) := unlock (fileState m name) conn target in
  (rc, mkLocks (<[name := st]> (files m)) (shms m)).
Definition vfs_checkReserved (m : JvmVfsLocks) (conn : Z) (name : string) : Z * JvmVfsLocks :=
  (checkReserved (fileState m name) conn,
   mkLocks (<[name := fileState m name]> (files m)) (shms m)).
Definition vfs_shmLock (m : JvmVfsLocks) (conn : Z) (name : string) (offset n flags : Z)
  : option Z * JvmVfsLocks :=
  let '(rc, st) := shmLock (shmState m name) conn offset n flags in
  (rc, mkLocks (files m) (<[name := st]> (shms m))).
Definition vfs_shmUnmap (m : JvmVfsLocks) (conn : Z) (name : string) : Z * JvmVfsLocks :=
  let '(rc, st) := shmUnmap (shmState m name) conn in
  (rc, mkLocks (files m) (<[name := st]> (shms m))).

(** ** File locks: lemmas *)

Lemma othersAtLeast_spec st conn level : othersAtLeast st conn level = true <->
  exists c l, st !! c = Some l /\ c <> conn /\ level <= l.
Proof.
  unfold othersAtLeast. rewrite existsb_exists. split.
  - intros [[c l] [Hin Hb]]. exists c, l. rewrite <- elem_of_map_to_list, list_elem_of_In.
    split; [done|]. zbool; cbn in Hb; (done || lia).
  - intros (c & l & Hl & Hne & Hle). exists (c, l).
    rewrite <- list_elem_of_In, elem_of_map_to_list. split; [done|].
    zbool; cbn; (done || lia).
Qed.

Lemma othersAtLeast_false st conn level c l :
  othersAtLeast st conn level = false -> st !! c = Some l -> c <> conn -> l < level.
Proof.
  intros Hf Hl Hne. destruct (Z.lt_ge_cases l level); [done|].
  assert (othersAtLeast st conn level = true) by (apply othersAtLeast_spec; eauto).
  congruence.
Qed.

(** Two locks on one file that may be held at the same time by different
    connections. *)
Definition compatible (l1 l2 : Z) : Prop :=
  l1 < EXCLUSIVE /\ l2 < EXCLUSIVE /\ (l1 < RESERVED \/ l2 < RESERVED).

Record file_ok (st : FileState) : Prop := {
  fo_level : forall c l, st !! c = Some l -> SHARED <= l <= EXCLUSIVE;
  fo_compat : forall c1 c2 l1 l2,
    st !! c1 = Some l1 -> st !! c2 = Some l2 -> c1 <> c2 -> compatible l1 l2 }.

(** What a caller must respect for the locks of one file to exclude.  [xLock]
    takes a level from SHARED to EXCLUSIVE, and PENDING only from RESERVED on;
    [xUnlock] goes to NONE or SHARED, and not above the level that is held.  The
    pager asserts more (pagerLockDb and pagerUnlockDb of sqlite3.c: never PENDING,
    and [pPager->eLock >= eLock] before an unlock).  sqlite3.h demands neither the
    condition on PENDING nor the one on the held level: [pending_beside_reserved]
    and [unlock_can_acquire] show what happens without them. *)
Definition lock_rule (st : FileState) (conn target : Z) : bool :=
  (SHARED <=? target) && (target <=? EXCLUSIVE) &&
  (negb (target =? PENDING) || (RESERVED <=? level_of st conn)).
Definition unlock_rule (st : FileState) (conn target : Z) : bool :=
  ((target =? NONE) || (target =? SHARED)) && (target <=? level_of st conn).

(** The calls within the rule, by any connection. *)
Inductive file_step : FileState -> FileState -> Prop :=
| step_lock st conn target : lock_rule st conn target = true ->
    file_step st (snd (lock st conn target))
| step_unlock st conn target : unlock_rule st conn target = true ->
    file_step st (snd (unlock st conn target)).

Ltac levels := unfold compatible, NONE, SHARED, RESERVED, PENDING, EXCLUSIVE in *.

Lemma insert_file_ok st conn t : file_ok st -> SHARED <= t <= EXCLUSIVE ->
  (forall c l, st !! c = Some l -> c <> conn -> compatible l t) ->
  file_ok (<[conn := t]> st).
Proof.
  intros [Hl Hc] Ht Hn. split.
  - intros c l. rewrite lookup_insert_Some. naive_solver.
  - intros c1 c2 l1 l2. rewrite !lookup_insert_Some.
    intros [[<- <-]|[? H1]] [[<- <-]|[? H2]] Hne; [done| | |by eapply Hc].
    + destruct (Hn c2 l2); [done|done|]. levels. lia.
    + by apply (Hn c1 l1).
Qed.

Lemma delete_file_ok st conn : file_ok st -> file_ok (delete conn st).
Proof.
  intros [Hl Hc]. split.
  - intros c l. rewrite lookup_delete_Some. naive_solver.
  - intros c1 c2 l1 l2. rewrite !lookup_delete_Some. naive_solver.
Qed.

(** What the others hold beside a connection at level [level_of]. *)
Lemma level_compat st conn c l : file_ok st -> st !! c = Some l -> c <> conn ->
  level_of st conn = NONE \/ compatible l (level_of st conn).
Proof.
  intros Hok Hc Hne. unfold level_of. destruct (st !! conn) as [lc|] eqn:E; [|by left].
  right. exact (fo_compat _ Hok c conn l lc Hc E Hne).
Qed.

Lemma lock_file_ok st conn t : file_ok st -> lock_rule st conn t = true ->
  file_ok (snd (lock st conn t)).
Proof.
  intros Hok Ht. unfold lock_rule in Ht. unfold lock.
  destruct (Z.leb_spec t (level_of st conn)); [done|].
  cbn zeta. set (b := if t =? SHARED then _ else _).
  destruct b eqn:Eb; [done|]. cbn [snd]. apply insert_file_ok; [done|levels; lia|].
  intros c l Hc Hne. pose proof (fo_level _ Hok c l Hc).
  pose proof (level_compat st conn c l Hok Hc Hne) as Hcp.
  assert (t = SHARED \/ t = RESERVED \/ t = PENDING \/ t = EXCLUSIVE)
    as Hcase by (levels; lia). subst b.
  destruct Hcase as [->|[->|[->| ->]]]; cbn in Eb, Ht;
    pose proof (othersAtLeast_false _ _ _ _ _ Eb Hc Hne); levels; lia.
Qed.

Lemma unlock_file_ok st conn t : file_ok st -> unlock_rule st conn t = true ->
  file_ok (snd (unlock st conn t)).
Proof.
  intros Hok Ht. unfold unlock_rule in Ht. unfold unlock.
  destruct (Z.leb_spec t NONE); cbn [snd]; [by apply delete_file_ok|].
  assert (t = SHARED) as -> by (levels; lia).
  apply insert_file_ok; [done|levels; lia|]. intros c l Hc Hne.
  pose proof (level_compat st conn c l Hok Hc Hne). levels. lia.
Qed.

Lemma file_step_ok st st' : file_step st st' -> file_ok st -> file_ok st'.
Proof. destruct 1; auto using lock_file_ok, unlock_file_ok. Qed.

Lemma file_steps_ok st st' : rtc file_step st st' -> file_ok st -> file_ok st'.
Proof. induction 1; eauto using file_step_ok. Qed.

Lemma file_ok_empty : file_ok ∅.
Proof. by split; intros *; rewrite lookup_empty. Qed.

(** ** Shared-memory locks: lemmas *)

Definition slot (st : ShmState) (s : Z) : gset Z * Z := ((shared st).[s], (excl st).[s]).
Definition shm_wf (st : ShmState) : Prop :=
  zlen (shared st) = SHM_NLOCK /\ zlen (excl st) = SHM_NLOCK.

(** An update of a single slot. *)
Definition slot_update (f : ShmState -> Z -> ShmState) (g : gset Z * Z -> gset Z * Z) : Prop :=
  forall st s, shm_wf st -> in_array s = true ->
    shm_wf (f st s) /\ forall s', slot (f st s) s' = if s' =? s then g (slot st s) else slot st s'.

Lemma in_array_iff s : in_array s = true <-> 0 <= s < SHM_NLOCK.
Proof. unfold in_array. rewrite andb_true_iff, Z.leb_le, Z.ltb_lt. done. Qed.

Lemma slot_put (st : ShmState) X e s s' : shm_wf st -> 0 <= s < SHM_NLOCK ->
  slot (mkShm (shared st).[s <- X] (excl st).[s <- e]) s' =
  if s' =? s then (X, e) else slot st s'.
Proof.
  intros [H1 H2] Hs. unfold slot. cbn [shared excl].
  destruct (Z.eqb_spec s' s) as [->|Hne].
  - by rewrite !zget_zput_eq by (unfold SHM_NLOCK in *; lia).
  - by rewrite !zget_zput_ne by done.
Qed.

Lemma zput_same {A} `{Inhabited A} (l : list A) i : 0 <= i < zlen l -> l.[i <- l.[i]] = l.
Proof.
  intros Hi. pose proof (zlookup_zget l i Hi) as E. unfold zput. unfold zlookup in E.
  destruct (0 <=? i); [|done]. by apply list_insert_id.
Qed.

Lemma clear_slot_update conn : slot_update (fun st s => clear_slot st conn s)
  (fun '(sh, e) => (sh ∖ {[conn]}, if e =? conn then -1 else e)).
Proof.
  intros st s Hwf Hs. apply in_array_iff in Hs. pose proof Hwf as [H1 H2]. unfold clear_slot. split.
  - split; cbn [shared excl]; [by rewrite zlen_zput|].
    destruct (_ =? conn); by rewrite ?zlen_zput.
  - intros s'. replace (if (excl st).[s] =? conn then (excl st).[s <- -1] else excl st)
      with ((excl st).[s <- if (excl st).[s] =? conn then -1 else (excl st).[s]]).
    + by rewrite slot_put.
    + destruct (_ =? conn); [done|]. apply zput_same. unfold SHM_NLOCK in *; lia.
Qed.
Lemma set_excl_update conn : slot_update (fun st s => set_excl st conn s)
  (fun '(sh, e) => (sh ∖ {[conn]}, conn)).
Proof.
  intros st s Hwf Hs. apply in_array_iff in Hs. pose proof Hwf as [H1 H2]. unfold set_excl. split.
  - split; cbn [shared excl]; by rewrite zlen_zput.
  - intros s'. by rewrite slot_put.
Qed.
Lemma add_shared_update conn : slot_update (fun st s => add_shared st conn s)
  (fun '(sh, e) => ({[conn]} ∪ sh, e)).
Proof.
  intros st s Hwf Hs. apply in_array_iff in Hs. pose proof Hwf as [H1 H2]. unfold add_shared. split.
  - split; cbn [shared excl]; [by rewrite zlen_zput|done].
  - intros s'. pose proof (slot_put st ({[conn]} ∪ (shared st).[s]) (excl st).[s] s s' Hwf Hs) as E.
    rewrite (zput_same (excl st)) in E by (unfold SHM_NLOCK in *; lia). by rewrite E.
Qed.

Lemma for_slots_wf f g : slot_update f g -> forall ss st,
  shm_wf st -> shm_wf (snd (for_slots f st ss)).
Proof.
  intros Hf. induction ss as [|s ss IH]; intros st Hwf; cbn [for_slots]; [done|].
  destruct (in_array s) eqn:Es; [|done]. apply IH. by apply (Hf st s).
Qed.

(** Whatever the slots, each slot of the result is an old slot or an updated one. *)
Lemma for_slots_inv f g (P : Z -> gset Z * Z -> Prop) : slot_update f g ->
  (forall s x, P s x -> P s (g x)) -> forall ss st, shm_wf st ->
  (forall s, P s (slot st s)) -> forall s, P s (slot (snd (for_slots f st ss)) s).
Proof.
  intros Hf HP. induction ss as [|s ss IH]; intros st Hwf Hst; cbn [for_slots]; [done|].
  destruct (in_array s) eqn:Es; [|done]. destruct (Hf st s Hwf Es) as [Hwf' Hsl].
  apply IH; [done|]. intros s'. rewrite Hsl. destruct (Z.eqb_spec s' s) as [->|]; auto.
Qed.

(** Over distinct valid slots every slot is updated exactly once. *)
Lemma for_slots_map f g : slot_update f g -> forall ss st, shm_wf st ->
  NoDup ss -> Forall (fun s => in_array s = true) ss ->
  fst (for_slots f st ss) = true /\
  forall s, slot (snd (for_slots f st ss)) s =
    if bool_decide (s ∈ ss) then g (slot st s) else slot st s.
Proof.
  intros Hf. induction ss as [|s0 ss IH]; intros st Hwf Hnd Hv; cbn [for_slots].
  - split; [done|]. intros s. rewrite bool_decide_false; [done|]. apply not_elem_of_nil.
  - apply NoDup_cons in Hnd as [Hni Hnd]. apply Forall_cons in Hv as [Hv0 Hv].
    rewrite Hv0. destruct (Hf st s0 Hwf Hv0) as [Hwf' Hsl].
    destruct (IH (f st s0) Hwf' Hnd Hv) as [Hok Hmap]. split; [done|].
    intros s. rewrite Hmap, Hsl. destruct (Z.eqb_spec s s0) as [->|Hne].
    + rewrite bool_decide_false by done.
      rewrite bool_decide_true by (apply list_elem_of_here). done.
    + destruct (bool_decide_reflect (s ∈ ss)).
      * rewrite bool_decide_true by (by apply list_elem_of_further). done.
      * rewrite bool_decide_false; [done|]. intros [->|]%elem_of_cons; done.
Qed.

Lemma slots_elem offset n s : s ∈ slots offset n <-> offset <= s < offset + n.
Proof.
  unfold slots. rewrite list_elem_of_In, in_map_iff. setoid_rewrite in_seq. split.
  - intros (k & <- & Hk). lia.
  - intros Hs. exists (Z.to_nat (s - offset)). lia.
Qed.
Lemma slots_NoDup offset n : NoDup (slots offset n).
Proof.
  unfold slots. apply NoDup_fmap_2_strong; [intros; lia|].
  apply NoDup_ListNoDup, seq_NoDup.
Qed.
Lemma slots_valid offset n : 0 <= offset -> offset + n <= SHM_NLOCK ->
  Forall (fun s => in_array s = true) (slots offset n).
Proof.
  intros H1 H2. apply Forall_forall. intros s. rewrite slots_elem.
  intros Hs. apply in_array_iff. lia.
Qed.

Lemma any_slot_valid p ss : Forall (fun s => in_array s = true) ss ->
  any_slot p ss = Some (existsb p ss).
Proof.
  induction 1 as [|s ss Hs Hss IH]; cbn; [done|]. rewrite Hs, IH. by destruct (p s).
Qed.
Lemma any_slot_false p ss : any_slot p ss = Some false -> forall s, s ∈ ss -> p s = false.
Proof.
  induction ss as [|s0 ss IH]; cbn; [intros _ s; by rewrite elem_of_nil|].
  destruct (in_array s0); [|done]. destruct (p s0) eqn:E; [done|].
  intros H s [->|Hs]%elem_of_cons; auto.
Qed.

Lemma any_slot_in_array p ss : any_slot p ss = Some false ->
  Forall (fun s => in_array s = true) ss.
Proof.
  induction ss as [|s ss IH]; cbn; [constructor|].
  destruct (in_array s) eqn:E; [|done]. destruct (p s); [done|]. auto.
Qed.

(** A slot held exclusively is held by nobody else. *)
Definition slot_ok (x : gset Z * Z) : Prop := snd x <> -1 -> fst x ⊆ {[snd x]}.
Definition shm_ok (st : ShmState) : Prop := shm_wf st /\ forall s, slot_ok (slot st s).

(** Every call any connection can make on the wal-index locks of a file. *)
Inductive shm_step : ShmState -> ShmState -> Prop :=
| step_shmLock st conn offset n flags :
    shm_step st (snd (shmLock st conn offset n flags))
| step_shmUnmap st conn : shm_step st (snd (shmUnmap st conn)).

Lemma excl_blocked_false st conn s : excl_blocked st conn s = false ->
  snd (slot st s) = -1 \/ snd (slot st s) = conn.
Proof. unfold excl_blocked, slot. cbn. zbool; cbn; intros; (done || auto). Qed.

Lemma shared_by_other_spec st conn s : shared_by_other st conn s = true <->
  exists c, c ∈ fst (slot st s) /\ c <> conn.
Proof.
  unfold shared_by_other, slot. cbn [fst]. rewrite existsb_exists.
  setoid_rewrite <- list_elem_of_In. setoid_rewrite elem_of_elements.
  setoid_rewrite negb_true_iff. setoid_rewrite Z.eqb_neq. done.
Qed.
Lemma shared_by_other_false st conn s : shared_by_other st conn s = false ->
  fst (slot st s) ⊆ {[conn]}.
Proof.
  intros H c Hc. destruct (decide (c = conn)) as [->|Hne]; [set_solver|].
  assert (shared_by_other st conn s = true) by (apply shared_by_other_spec; eauto).
  congruence.
Qed.

Lemma clear_slots_ok conn ss st : shm_ok st ->
  shm_ok (snd (for_slots (fun st s => clear_slot st conn s) st ss)).
Proof.
  intros [Hwf Hs]. split; [eapply for_slots_wf; [apply clear_slot_update|done]|].
  apply (for_slots_inv _ _ (fun _ x => slot_ok x) (clear_slot_update conn)); [|done|done].
  intros _ [S e]. unfold slot_ok. cbn. destruct (Z.eqb_spec e conn); [done|set_solver].
Qed.

Lemma update_slots_ok f g ss st : slot_update f g -> shm_ok st ->
  Forall (fun s => in_array s = true) ss -> NoDup ss ->
  (forall s, s ∈ ss -> slot_ok (slot st s) -> slot_ok (g (slot st s))) ->
  shm_ok (snd (for_slots f st ss)).
Proof.
  intros Hf [Hwf Hs] Hv Hnd Hg. split; [by eapply for_slots_wf|].
  intros s. rewrite (proj2 (for_slots_map _ _ Hf _ _ Hwf Hnd Hv)).
  destruct (bool_decide_reflect (s ∈ ss)); auto.
Qed.

Lemma shm_step_ok st st' : shm_step st st' -> shm_ok st -> shm_ok st'.
Proof.
  intros Hstep Hok. destruct Hstep as [st conn offset n flags|st conn]; [|by apply clear_slots_ok].
  unfold shmLock. destruct (truthy (Z.land flags SHM_UNLOCK)).
  { pose proof (clear_slots_ok conn (slots offset n) st Hok) as H.
    by destruct (for_slots _ st _). }
  destruct (truthy (Z.land flags SHM_EXCLUSIVE)).
  - destruct (any_slot _ _) as [[]|] eqn:E; [done| |done].
    pose proof (update_slots_ok _ _ (slots offset n) st (set_excl_update conn) Hok
      (any_slot_in_array _ _ E) (slots_NoDup _ _)) as H.
    destruct (for_slots _ st _) as [ok st'] eqn:Ef. apply H. intros s Hin Hsl.
    pose proof (any_slot_false _ _ E s Hin) as Hp. apply orb_false_iff in Hp as [_ Hp].
    apply shared_by_other_false in Hp. destruct (slot st s). unfold slot_ok; cbn in *. set_solver.
  - destruct (any_slot _ _) as [[]|] eqn:E; [done| |done].
    pose proof (update_slots_ok _ _ (slots offset n) st (add_shared_update conn) Hok
      (any_slot_in_array _ _ E) (slots_NoDup _ _)) as H.
    destruct (for_slots _ st _) as [ok st'] eqn:Ef. apply H. intros s Hin Hsl.
    pose proof (excl_blocked_false _ _ _ (any_slot_false _ _ E s Hin)) as Hp.
    destruct (slot st s). unfold slot_ok in *; cbn in *. set_solver.
Qed.

Lemma shm_init_ok : shm_ok shm_init.
Proof.
  split; [done|]. intros s. unfold slot_ok, slot. cbn [fst snd shared excl shm_init].
  intros _. unfold zget at 1, zlookup. destruct (0 <=? s); [|set_solver].
  destruct (replicate _ _ !! Z.to_nat s) eqn:E; [|set_solver].
  apply lookup_replicate in E as [-> _]. cbn. set_solver.
Qed.

Lemma shm_steps_ok st st' : rtc shm_step st st' -> shm_ok st -> shm_ok st'.
Proof. induction 1; eauto using shm_step_ok. Qed.

(** Does connection [c] hold slot [s], in either mode? *)
Definition holds (st : ShmState) (c s : Z) : Prop :=
  c ∈ fst (slot st s) \/ (snd (slot st s) = c /\ c <> -1).

Lemma excl_conflict st conn s : (excl_blocked st conn s || shared_by_other st conn s) = true <->
  exists c, c <> conn /\ holds st c s.
Proof.
  rewrite orb_true_iff, shared_by_other_spec. unfold excl_blocked, holds.
  change (excl st).[s] with (snd (slot st s)). split.
  - intros [H|(c & Hc & Hne)]; [|eauto]. exists (snd (slot st s)). zbool; cbn in H; auto.
    all: done.
  - intros (c & Hne & [Hc|[<- Hm]]); [right; eauto|left]. zbool; cbn; congruence.
Qed.

(** ** Properties *)

(** File locks exclude: in every state reachable by calls within the rule,
    in any interleaving of any number of connections, two connections never hold
    RESERVED-or-higher together, and nobody holds any lock beside an EXCLUSIVE
    one. *)
Theorem file_locks_exclude st c1 c2 l1 l2 :
  rtc file_step ∅ st -> st !! c1 = Some l1 -> st !! c2 = Some l2 -> c1 <> c2 ->
  compatible l1 l2.
Proof.
  intros Hr. apply (fo_compat st). eapply file_steps_ok; [exact Hr|apply file_ok_empty].
Qed.

Lemma file_locks_exclude_witness : compatible RESERVED SHARED.
Proof.
  apply (file_locks_exclude (snd (lock (snd (lock (snd (lock ∅ 1 SHARED)) 2 SHARED)) 1 RESERVED)) 1 2).
  - eapply rtc_l; [by apply (step_lock ∅ 1 SHARED)|].
    eapply rtc_l; [by apply (step_lock _ 2 SHARED)|].
    eapply rtc_l; [by apply (step_lock _ 1 RESERVED)|]. apply rtc_refl.
  - vm_compute; reflexivity.
  - vm_compute; reflexivity.
  - discriminate.
Defined.

(** [unlock] assigns the requested level unconditionally.  Called with SHARED
    by a connection that holds nothing, while another connection holds EXCLUSIVE,
    it leaves the two incompatible locks side by side: it is not the no-op the
    [xUnlock] contract asks for when the lock is already below the target. *)
Theorem unlock_can_acquire st conn holder :
  st !! holder = Some EXCLUSIVE -> st !! conn = None ->
  fst (unlock st conn SHARED) = SQLITE_OK /\
  snd (unlock st conn SHARED) !! conn = Some SHARED /\
  snd (unlock st conn SHARED) !! holder = Some EXCLUSIVE /\
  ~ compatible SHARED EXCLUSIVE.
Proof.
  intros Hh Hc. assert (conn <> holder) by congruence. unfold unlock. cbn.
  split; [done|]. split; [apply lookup_insert_eq|].
  split; [by rewrite lookup_insert_ne|]. levels. lia.
Qed.

Lemma unlock_can_acquire_witness :
  snd (unlock {[7 := EXCLUSIVE]} 3 SHARED) !! 3 = Some SHARED.
Proof.
  apply (unlock_can_acquire {[7 := EXCLUSIVE]} 3 7); vm_compute; reflexivity.
Defined.

(** A PENDING lock asked for from below RESERVED is granted beside the RESERVED
    lock of another connection: only other PENDING or EXCLUSIVE locks are looked
    at.  Two connections then both believe they may become the writer. *)
Theorem pending_beside_reserved st conn holder :
  st !! holder = Some RESERVED -> st !! conn = Some SHARED ->
  (forall c l, st !! c = Some l -> l < PENDING) ->
  fst (lock st conn PENDING) = SQLITE_OK /\
  snd (lock st conn PENDING) !! conn = Some PENDING /\
  snd (lock st conn PENDING) !! holder = Some RESERVED /\
  ~ compatible PENDING RESERVED.
Proof.
  intros Hh Hc Hall.
  assert (conn <> holder) by (intros ->; rewrite Hh in Hc; done).
  assert (othersAtLeast st conn PENDING = false) as Ho.
  { apply not_true_is_false. intros (c & l & Hl & _ & Hle)%othersAtLeast_spec.
    specialize (Hall c l Hl). lia. }
  unfold lock, level_of. rewrite Hc. cbn. rewrite Ho. cbn.
  split; [done|]. split; [apply lookup_insert_eq|].
  split; [by rewrite lookup_insert_ne|]. levels. lia.
Qed.

Lemma pending_beside_reserved_witness :
  fst (lock (<[3 := SHARED]> {[7 := RESERVED]}) 3 PENDING) = SQLITE_OK.
Proof.
  apply (pending_beside_reserved _ 3 7); [by_compute|by_compute|].
  intros c l. rewrite lookup_insert_Some, lookup_singleton_Some.
  intros [[_ <-]|[_ [_ <-]]]; by_compute.
Defined.

(** The wal-index locks exclude: after any sequence of [xShmLock] and
    [xShmUnmap] calls by any connections, with any slots and flags, a slot that is
    held exclusively is held in shared mode by no other connection. *)
Theorem shm_locks_exclude st s c : rtc shm_step shm_init st ->
  (excl st).[s] <> -1 -> c ∈ (shared st).[s] -> c = (excl st).[s].
Proof.
  intros Hr He Hc. destruct (shm_steps_ok _ _ Hr shm_init_ok) as [_ Hs].
  specialize (Hs s He). cbn in Hs. set_solver.
Qed.

Lemma shm_locks_exclude_witness :
  5 = (excl (snd (shmLock (snd (shmLock shm_init 5 0 1 (SHM_LOCK + SHM_EXCLUSIVE)))
               5 0 1 (SHM_LOCK + SHM_SHARED)))).[0].
Proof.
  apply shm_locks_exclude.
  - eapply rtc_l; [apply (step_shmLock _ 5 0 1 (SHM_LOCK + SHM_EXCLUSIVE))|].
    eapply rtc_l; [apply (step_shmLock _ 5 0 1 (SHM_LOCK + SHM_SHARED))|]. apply rtc_refl.
  - vm_compute; discriminate.
  - by_compute.
Defined.

(** [xShmLock] in exclusive mode, on any slots of the array, answers BUSY
    without touching the state exactly when another connection holds one of
    them; otherwise it answers OK, the caller is then the only holder of every
    requested slot, and all other slots are unchanged. *)
Theorem shmLock_exclusive st conn offset n : shm_wf st -> conn <> -1 ->
  0 <= offset -> offset + n <= SHM_NLOCK ->
  let '(rc, st') := shmLock st conn offset n (SHM_LOCK + SHM_EXCLUSIVE) in
  ((exists c s, offset <= s < offset + n /\ c <> conn /\ holds st c s) /\
   rc = Some SQLITE_BUSY /\ st' = st) \/
  (rc = Some SQLITE_OK /\
   (forall s c, offset <= s < offset + n -> holds st' c s <-> c = conn) /\
   (forall s, ~ offset <= s < offset + n -> slot st' s = slot st s)).
Proof.
  intros Hwf Hc H1 H2. unfold shmLock. change (truthy (Z.land (SHM_LOCK + SHM_EXCLUSIVE) SHM_UNLOCK)) with false.
  change (truthy (Z.land (SHM_LOCK + SHM_EXCLUSIVE) SHM_EXCLUSIVE)) with true. cbn iota.
  pose proof (slots_valid offset n H1 H2) as Hv. rewrite any_slot_valid by done.
  destruct (existsb _ _) eqn:E.
  - left. apply existsb_exists in E as (s & Hs & Hb). apply list_elem_of_In, slots_elem in Hs.
    apply excl_conflict in Hb as (c & Hne & Hh). eauto 10.
  - destruct (for_slots_map _ _ (set_excl_update conn) _ st Hwf (slots_NoDup offset n) Hv)
      as [Hok Hmap]. destruct (for_slots _ st _) as [ok st']. cbn [fst snd] in *. rewrite Hok.
    right. split; [done|]. split; intros s.
    + intros c Hs. unfold holds. rewrite Hmap, bool_decide_true by (by apply slots_elem).
      pose proof (any_slot_false (fun s => excl_blocked st conn s || shared_by_other st conn s)
        (slots offset n)) as Hf. rewrite any_slot_valid, E in Hf by done.
      specialize (Hf eq_refl s (proj2 (slots_elem _ _ _) Hs)). apply orb_false_iff in Hf as [_ Hf].
      apply shared_by_other_false in Hf. destruct (slot st s). cbn in *. set_solver.
    + intros Hs. rewrite Hmap, bool_decide_false; [done|]. by rewrite slots_elem.
Qed.

Lemma shmLock_exclusive_witness :
  let '(rc, st') := shmLock shm_init 5 0 3 (SHM_LOCK + SHM_EXCLUSIVE) in
  ((exists c s, 0 <= s < 0 + 3 /\ c <> 5 /\ holds shm_init c s) /\
   rc = Some SQLITE_BUSY /\ st' = shm_init) \/
  (rc = Some SQLITE_OK /\
   (forall s c, 0 <= s < 0 + 3 -> holds st' c s <-> c = 5) /\
   (forall s, ~ 0 <= s < 0 + 3 -> slot st' s = slot shm_init s)).
Proof. apply (shmLock_exclusive shm_init 5 0 3); [split; reflexivity|lia|lia|by_compute]. Defined.
