(* ===== verification/WalLocks.v ===== *)
(** The locks of a wal-index: what the write-ahead log relies on, as an interface, and
    its implementation by the host's lock manager.

    [wal.c] takes and releases its locks only through [xShmLock]; [LockManager] is that
    method with the state behind it, [lk_mode] reads off what a connection holds, and
    [LockLaws] is what the method promises to calls that follow the rules of its
    documentation (lock what is not held, inside the eight slots).  [jvm_lock_laws]
    discharges the interface for [JvmVfsLocks]. *)

From S2P Require Import Prelude JvmLocks.

Inductive lock_mode := Free | Sh | Ex.
#[global] Instance lock_mode_eq_dec : EqDecision lock_mode.
Proof. solve_decision. Defined.

(** The four ways in which wal.c calls [sqlite3OsShmLock]. *)
Definition LOCK_SHARED : Z := Z.lor SHM_LOCK SHM_SHARED.
Definition LOCK_EXCLUSIVE : Z := Z.lor SHM_LOCK SHM_EXCLUSIVE.
Definition UNLOCK_SHARED : Z := Z.lor SHM_UNLOCK SHM_SHARED.
Definition UNLOCK_EXCLUSIVE : Z := Z.lor SHM_UNLOCK SHM_EXCLUSIVE.

Class LockManager (L : Type) := {
  lk_init : L;
  lk_conn : Z -> bool;                            (** the valid connection ids *)
  xShmLock : L -> Z -> Z -> Z -> Z -> Z * L;      (** connection, offset, n, flags *)
  lk_mode : L -> Z -> Z -> lock_mode              (** what a connection holds on a slot *)
}.

Definition in_range (s n i : Z) : bool := (s <=? i) && (i <? s + n).

(** The locks afterwards: connection [c] holds [m] on the [n] slots from [s], all else
    is as before. *)
Definition set_mode {L} {_ : LockManager L} (l : L) (c s n : Z) (m : lock_mode) (l' : L) : Prop :=
  forall c' i, lk_conn c' = true -> lk_mode l' c' i = if (c' =? c) && in_range s n i then m else lk_mode l c' i.

Class LockLaws (L : Type) `{LockManager L} := {
  lk_ok : L -> Prop;
  lk_init_ok : lk_ok lk_init;
  lk_init_free c i : lk_conn c = true -> lk_mode lk_init c i = Free;
  lk_exclusive l c c' i : lk_ok l -> lk_conn c = true -> lk_conn c' = true -> lk_mode l c i = Ex -> c' <> c -> lk_mode l c' i = Free;
  lk_lock_shared l c s : lk_ok l -> lk_conn c = true -> 0 <= s < 8 -> lk_mode l c s = Free ->
    let '(rc, l') := xShmLock l c s 1 LOCK_SHARED in
    (rc = SQLITE_OK /\ lk_ok l' /\ set_mode l c s 1 Sh l') \/ (rc = SQLITE_BUSY /\ l' = l);
  lk_lock_exclusive l c s n : lk_ok l -> lk_conn c = true -> 0 <= s -> s + n <= 8 ->
    (forall i, s <= i < s + n -> lk_mode l c i = Free) ->
    let '(rc, l') := xShmLock l c s n LOCK_EXCLUSIVE in
    (rc = SQLITE_OK /\ lk_ok l' /\ set_mode l c s n Ex l') \/ (rc = SQLITE_BUSY /\ l' = l);
  lk_unlock l c s n flags : lk_ok l -> lk_conn c = true -> 0 <= s -> s + n <= 8 ->
    flags = UNLOCK_SHARED \/ flags = UNLOCK_EXCLUSIVE ->
    let '(_, l') := xShmLock l c s n flags in lk_ok l' /\ set_mode l c s n Free l'
}.

(** ** The host's lock manager *)

(** An exception of the host stops the module; with slots inside the array there is
    none. *)
#[global] Instance jvm_lock_manager : LockManager ShmState := {
  lk_init := shm_init;
  lk_conn c := negb (c =? -1);
  xShmLock l c s n flags := let '(rc, l') := shmLock l c s n flags in (default SQLITE_ERROR rc, l');
  lk_mode l c s := if in_array s then
                     if (excl l).[s] =? c then Ex else if bool_decide (c ∈ (shared l).[s]) then Sh else Free
                   else Free
}.

Definition mode_of (x : gset Z * Z) (c : Z) : lock_mode :=
  if snd x =? c then Ex else if bool_decide (c ∈ fst x) then Sh else Free.
Lemma jvm_mode l c s : lk_mode (L := ShmState) l c s = if in_array s then mode_of (JvmLocks.slot l s) c else Free.
Proof. done. Qed.

Lemma jvm_conn c : lk_conn (L := ShmState) c = true <-> c <> -1.
Proof. cbn. by rewrite negb_true_iff, Z.eqb_neq. Qed.

(** Updating the requested slots alike. *)
Lemma for_slots_mode l c s n f g m : shm_wf l -> 0 <= s -> s + n <= 8 -> slot_update f g ->
  (forall i c', s <= i < s + n -> c' <> -1 ->
     mode_of (g (JvmLocks.slot l i)) c' = if c' =? c then m else mode_of (JvmLocks.slot l i) c') ->
  set_mode l c s n m (snd (for_slots f l (slots s n))).
Proof.
  intros Hwf H1 H2 Hup Hg c' i Hc'%jvm_conn. rewrite !jvm_mode. unfold in_range.
  destruct (for_slots_map f g Hup (slots s n) l Hwf (slots_NoDup s n) (slots_valid s n H1 H2)) as [_ ->].
  destruct (bool_decide_reflect (i ∈ slots s n)) as [Hi|Hi]; rewrite slots_elem in Hi.
  - rewrite (proj2 (in_array_iff i)) by (unfold SHM_NLOCK; lia). rewrite Hg by done.
    rewrite (proj2 (Z.leb_le s i)), (proj2 (Z.ltb_lt i (s + n))) by lia. by rewrite andb_true_r.
  - destruct (Z.leb_spec s i), (Z.ltb_spec i (s + n)); cbn [andb]; rewrite ?andb_false_r; try done. lia.
Qed.

Lemma jvm_lock_step l c s n flags : shm_ok l -> shm_ok (snd (shmLock l c s n flags)).
Proof. intros H. eapply shm_step_ok; [apply step_shmLock|done]. Qed.

Lemma jvm_free l c s n i : 0 <= s -> s + n <= 8 -> s <= i < s + n -> lk_mode (L := ShmState) l c i = Free ->
  snd (JvmLocks.slot l i) <> c /\ c ∉ fst (JvmLocks.slot l i).
Proof.
  intros H1 H2 Hi. rewrite jvm_mode, (proj2 (in_array_iff i)) by (unfold SHM_NLOCK; lia). unfold mode_of.
  destruct (Z.eqb_spec (snd (JvmLocks.slot l i)) c); [done|]. by case_bool_decide.
Qed.

(** The host's lock manager keeps the promises of the interface. *)
#[global] Instance jvm_lock_laws : LockLaws ShmState.
Proof.
  refine {| lk_ok := shm_ok |}.
  - exact shm_init_ok.
  - intros c i Hc%jvm_conn. change lk_init with shm_init. rewrite jvm_mode. destruct (in_array i) eqn:E; [|done]. apply in_array_iff in E.
    assert (Hall : forallb (fun i => (snd (JvmLocks.slot shm_init i) =? -1) && bool_decide (fst (JvmLocks.slot shm_init i) = ∅))
              (seqZ 0 8) = true) by (by vm_compute).
    rewrite forallb_forall in Hall. specialize (Hall i ltac:(apply list_elem_of_In, elem_of_seqZ; unfold SHM_NLOCK in E; lia)).
    apply andb_prop in Hall as [H1 H2]. apply Z.eqb_eq in H1. apply bool_decide_eq_true in H2. unfold mode_of.
    rewrite H1, H2, (proj2 (Z.eqb_neq _ _)) by congruence. by rewrite bool_decide_false by set_solver.
  - intros l c c' i [_ Hok] Hc%jvm_conn Hc'. rewrite !jvm_mode. destruct (in_array i); [|done]. specialize (Hok i).
    unfold slot_ok, mode_of in *. destruct (JvmLocks.slot l i) as [S e]. cbn [fst snd] in *.
    destruct (Z.eqb_spec e c) as [->|]; [|by case_bool_decide]. intros _ Hne. specialize (Hok Hc).
    rewrite (proj2 (Z.eqb_neq _ _)) by congruence. rewrite bool_decide_false; [done|]. set_solver.
  - intros l c s Hok Hc Hs Hfree. cbn [xShmLock jvm_lock_manager].
    pose proof (jvm_lock_step l c s 1 LOCK_SHARED Hok) as Hok'. unfold shmLock in *.
    change (truthy (Z.land LOCK_SHARED SHM_UNLOCK)) with false in *.
    change (truthy (Z.land LOCK_SHARED SHM_EXCLUSIVE)) with false in *. cbn iota in *.
    rewrite any_slot_valid in * by (apply slots_valid; unfold SHM_NLOCK; lia).
    destruct (existsb _ _); [cbn; by right|]. destruct Hok as [Hwf _].
    pose proof (proj1 (for_slots_map _ _ (add_shared_update c) (slots s 1) l Hwf (slots_NoDup s 1)
       (slots_valid s 1 ltac:(lia) ltac:(unfold SHM_NLOCK; lia)))) as Ef.
    pose proof (for_slots_mode l c s 1 _ _ Sh Hwf ltac:(lia) ltac:(lia) (add_shared_update c)) as Hm.
    destruct (for_slots _ l _) as [ok l']. cbn [fst snd] in *. subst ok. left. split; [done|]. split; [done|]. apply Hm.
    intros i c' Hi Hc'. replace i with s by lia. destruct (jvm_free l c s 1 s ltac:(lia) ltac:(lia) ltac:(lia) Hfree) as [Hf1 Hf2].
    unfold mode_of. destruct (JvmLocks.slot l s) as [S e]. cbn [fst snd] in *. destruct (Z.eqb_spec c' c) as [->|Hne].
    + rewrite (proj2 (Z.eqb_neq _ _)) by done. by rewrite bool_decide_true by set_solver.
    + destruct (e =? c'); [done|]. by rewrite (bool_decide_ext (c' ∈ {[c]} ∪ S) (c' ∈ S)) by set_solver.
  - intros l c s n Hok Hc Hs Hn Hfree. cbn [xShmLock jvm_lock_manager].
    pose proof (jvm_lock_step l c s n LOCK_EXCLUSIVE Hok) as Hok'. unfold shmLock in *.
    change (truthy (Z.land LOCK_EXCLUSIVE SHM_UNLOCK)) with false in *.
    change (truthy (Z.land LOCK_EXCLUSIVE SHM_EXCLUSIVE)) with true in *. cbn iota in *.
    rewrite any_slot_valid in * by (by apply slots_valid).
    destruct (existsb _ _) eqn:Eb; [cbn; by right|]. destruct Hok as [Hwf _].
    pose proof (proj1 (for_slots_map _ _ (set_excl_update c) (slots s n) l Hwf (slots_NoDup s n) (slots_valid s n Hs Hn))) as Ef.
    pose proof (for_slots_mode l c s n _ _ Ex Hwf Hs Hn (set_excl_update c)) as Hm.
    destruct (for_slots _ l _) as [ok l']. cbn [fst snd] in *. subst ok. left. split; [done|]. split; [done|]. apply Hm.
    intros i c' Hi Hc'. assert (Hb : excl_blocked l c i || shared_by_other l c i = false).
    { destruct (_ || _) eqn:E; [|done]. rewrite <- Eb. symmetry. apply existsb_exists. exists i.
      split; [by apply list_elem_of_In, slots_elem|done]. }
    apply orb_false_iff in Hb as [Hb1 Hb2]. apply excl_blocked_false in Hb1. apply shared_by_other_false in Hb2.
    destruct (jvm_free l c s n i Hs Hn Hi (Hfree i Hi)) as [Hf1 Hf2].
    unfold mode_of. destruct (JvmLocks.slot l i) as [S e]. cbn [fst snd] in *. destruct (Z.eqb_spec c' c) as [->|Hne].
    + by rewrite Z.eqb_refl.
    + destruct Hb1 as [->|]; [|done]. rewrite !(proj2 (Z.eqb_neq _ _)) by congruence. rewrite !bool_decide_false by set_solver. done.
  - intros l c s n flags Hok Hc%jvm_conn Hs Hn Hfl. cbn [xShmLock jvm_lock_manager].
    pose proof (jvm_lock_step l c s n flags Hok) as Hok'. unfold shmLock in *.
    assert (E : truthy (Z.land flags SHM_UNLOCK) = true) by (by destruct Hfl as [-> | ->]). rewrite E in *. destruct Hok as [Hwf _].
    pose proof (for_slots_mode l c s n _ _ Free Hwf Hs Hn (clear_slot_update c)) as Hm.
    destruct (for_slots _ l _) as [ok l']. cbn [fst snd] in *. split; [done|]. apply Hm.
    intros i c' Hi Hc'. unfold mode_of. destruct (JvmLocks.slot l i) as [S e]. cbn [fst snd] in *. destruct (Z.eqb_spec c' c) as [->|Hne].
    + destruct (Z.eqb_spec e c); rewrite (proj2 (Z.eqb_neq _ _)) by congruence; by rewrite bool_decide_false by set_solver.
    + rewrite (bool_decide_ext (c' ∈ S ∖ {[c]}) (c' ∈ S)) by set_solver.
      destruct (Z.eqb_spec e c) as [->|]; [|done]. rewrite !(proj2 (Z.eqb_neq _ _)) by congruence. done.
Qed.
