(* ===== verification/WalTxn.v ===== *)
(** Transactions on the write-ahead log (wal.c): readers, one writer and checkpoints.

    Any number of connections run concurrently on one database.  What they share is a
    [world]: the published wal-index header, the checkpoint information with its read
    marks, the locks, the frames of the log and the pages of the database file.  A
    routine of wal.c is a program whose atomic actions ([op]) are single accesses to
    that world; the programs follow the source statement by statement, and a schedule
    may interleave the actions of different connections in any way.

    The byte format of the log is the subject of [WalLog], the hash tables of
    [WalIndex] and the iterator of [WalIter]; here a frame is a record and a lookup
    returns what those files show the real lookup to return.  Numbers of frames are
    taken to stay below 2^32, where they are u32 in the source.  The header is read and
    written in one action (the two copies and the checksum of the real header make a
    torn read look like no header at all); recovery after a crash, exclusive locking
    mode, heap-memory and read-only wal-indexes are left out. *)

From stdpp Require Import sorting.
From S2P Require Import Prelude Varint WalIndex WalLog WalLocks.

Definition SQLITE_BUSY_SNAPSHOT : Z := Z.lor SQLITE_BUSY (2 * 2 ^ 8).
Definition SQLITE_INTERRUPT : Z := 9.
Definition SQLITE_CHECKPOINT_NOOP : Z := -1.
Definition SQLITE_CHECKPOINT_PASSIVE : Z := 0.
Definition SQLITE_CHECKPOINT_FULL : Z := 1.
Definition SQLITE_CHECKPOINT_RESTART : Z := 2.
Definition SQLITE_CHECKPOINT_TRUNCATE : Z := 3.
Definition WAL_RETRY : Z := -1.
Definition WAL_RETRY_PROTOCOL_LIMIT : Z := 100.
Definition WAL_WRITE_LOCK : Z := 0.
Definition WAL_CKPT_LOCK : Z := 1.
Definition WAL_READ_LOCK (i : Z) : Z := 3 + i.

(** ** The shared world *)

Definition page : Type := list Z.

(** A frame of the log: its page number and commit mark, the page and the bytes of the
    frame header. *)
Record frame := mkFrame { f_pgno : Z; f_nTrunc : Z; f_data : page; f_head : list Z }.
#[global] Instance frame_inhabited : Inhabited frame := populate (mkFrame 0 0 [] []).

(** The database as a transaction leaves it: a commit frame also cuts the file. *)
Definition apply_frame (img : gmap Z page) (f : frame) : gmap Z page :=
  let img := <[f_pgno f := f_data f]> img in
  if 0 <? f_nTrunc f then filter (fun e => fst e <= f_nTrunc f) img else img.
Definition apply_frames (img : gmap Z page) (fs : list frame) : gmap Z page := foldl apply_frame img fs.

(** What a connection saw: a page read while its snapshot was the given header. *)
Inductive event := EvRead (h : WalIndexHdr) (pgno : Z) (d : option page).

(** [w_hist] and [w_trace] only record what happened: the headers published so far, each
    with the database it stands for, and the pages read. *)
Record world (L : Type) := mkWorld {
  w_live : WalIndexHdr;                             (* walIndexHdr(pWal) *)
  w_info : WalCkptInfo;                             (* walCkptInfo(pWal) *)
  w_locks : L;
  w_head : list Z;                                  (* the header of the log file *)
  w_log : list frame;                               (* frame i is at index i-1 *)
  w_db : gmap Z page;
  w_hist : list (WalIndexHdr * gmap Z page);
  w_trace : list (Z * event)
}.
Arguments mkWorld {L}. Arguments w_live {L}. Arguments w_info {L}. Arguments w_locks {L}. Arguments w_head {L}.
Arguments w_log {L}. Arguments w_db {L}. Arguments w_hist {L}. Arguments w_trace {L}.

Section worlds.
Context {L : Type}.
Definition set_live (w : world L) x := mkWorld x (w_info w) (w_locks w) (w_head w) (w_log w) (w_db w) (w_hist w) (w_trace w).
Definition set_info (w : world L) x := mkWorld (w_live w) x (w_locks w) (w_head w) (w_log w) (w_db w) (w_hist w) (w_trace w).
Definition set_locks (w : world L) (x : L) : world L := mkWorld (w_live w) (w_info w) x (w_head w) (w_log w) (w_db w) (w_hist w) (w_trace w).
Definition set_head (w : world L) x := mkWorld (w_live w) (w_info w) (w_locks w) x (w_log w) (w_db w) (w_hist w) (w_trace w).
Definition set_log (w : world L) x := mkWorld (w_live w) (w_info w) (w_locks w) (w_head w) x (w_db w) (w_hist w) (w_trace w).
Definition set_db (w : world L) x := mkWorld (w_live w) (w_info w) (w_locks w) (w_head w) (w_log w) x (w_hist w) (w_trace w).
Definition set_hist (w : world L) x := mkWorld (w_live w) (w_info w) (w_locks w) (w_head w) (w_log w) (w_db w) x (w_trace w).
Definition set_trace (w : world L) x := mkWorld (w_live w) (w_info w) (w_locks w) (w_head w) (w_log w) (w_db w) (w_hist w) x.
End worlds.

Definition mxFrame {L} (w : world L) : Z := h_mxFrame (w_live w).
Definition log_frame (log : list frame) (i : Z) : frame := log.[i - 1].
Definition log_pages (log : list frame) : list Z := map f_pgno log.
Definition last_image {L} (w : world L) : gmap Z page := match last (w_hist w) with Some (_, img) => img | None => ∅ end.

(** A frame written at position [i]. *)
Definition log_put (log : list frame) (i : Z) (f : frame) : list frame :=
  let n := Z.to_nat (i - 1) in take n (log ++ replicate n inhabitant) ++ [f] ++ drop (S n) log.

(** The newest frame of a page from [lo] to [hi], or 0. *)
Fixpoint scan_down (n : nat) (F : list Z) (hi pgno : Z) : Z :=
  match n with
  | O => 0
  | S n' => if F.[hi - 1] =? pgno then hi else scan_down n' F (hi - 1) pgno
  end.
Definition newest_frame (log : list frame) (lo hi pgno : Z) : Z :=
  scan_down (Z.to_nat (hi - lo + 1)) (log_pages log) hi pgno.
(** The pages that the checkpoint iterator returns, with their newest frames. *)
Definition iter_pages (log : list frame) (nBackfill mx : Z) : list (Z * Z) :=
  filter (fun e => iZero (walFramePage (nBackfill + 1)) < snd e)
    (map (fun p => (p, newest_frame log 1 mx p)) (merge_sort Z.le (remove_dups (log_pages (take (Z.to_nat mx) log))))).

(** ** Atomic actions and programs *)

Inductive op : Type -> Type :=
| LockShared (s : Z) : op Z
| UnlockShared (s : Z) : op unit
| LockExclusive (s n : Z) : op Z
| UnlockExclusive (s n : Z) : op unit
| ReadHdr : op WalIndexHdr
| WriteHdr (h : WalIndexHdr) : op unit
| LoadBackfill : op Z
| StoreBackfill (v : Z) : op unit
| StoreAttempted (v : Z) : op unit
| LoadMark (i : Z) : op Z
| StoreMark (i v : Z) : op unit
| FindFrame (lo hi pgno : Z) : op Z
| IterPages (nBackfill mx : Z) : op (list (Z * Z))
| ReadFrame (i : Z) : op (Z * frame)
| WriteFrame (i : Z) (f : frame) : op Z
| WriteData (i : Z) (d : page) : op Z      (* only the page of a frame *)
| ReadLogHead : op (Z * list Z)
| WriteLogHead (a : list Z) : op Z
| TruncateLog : op Z
| ReadDb (pgno : Z) : op (option page)
| WriteDb (pgno : Z) (d : page) : op Z
| TruncateDb (nPage : Z) : op Z
| Io : op Z                                (* a call that only matters by its result: sync, file size *)
| Randomness (n : Z) : op (list Z)
| Ask : op bool                            (* the interrupt flag, the busy handler *)
| Emit (e : event) : op unit.

(** What the environment decides about one action: the result code of an I/O call, what
    a failed write leaves behind, random bytes, the interrupt flag or the busy handler. *)
Record oracle := mkOracle { o_rc : Z; o_frame : frame; o_page : option page; o_bytes : list Z; o_flag : bool }.
#[global] Instance oracle_inhabited : Inhabited oracle := populate (mkOracle 0 inhabitant None [] false).

Section exec.
Context {L : Type} `{LockManager L}.

Definition with_info (w : world L) (f : WalCkptInfo -> WalCkptInfo) : world L := set_info w (f (w_info w)).
Definition next_image (w : world L) (h : WalIndexHdr) : gmap Z page :=
  apply_frames (last_image w) (slice (w_log w) (mxFrame w) (h_mxFrame h - mxFrame w)).

Definition exec (o : oracle) (c : Z) {B : Type} (a : op B) (w : world L) : B * world L :=
  match a in op B return B * world L with
  | LockShared s => let '(rc, l) := xShmLock (w_locks w) c s 1 LOCK_SHARED in (rc, set_locks w l)
  | UnlockShared s => let '(_, l) := xShmLock (w_locks w) c s 1 UNLOCK_SHARED in (tt, set_locks w l)
  | LockExclusive s n => let '(rc, l) := xShmLock (w_locks w) c s n LOCK_EXCLUSIVE in (rc, set_locks w l)
  | UnlockExclusive s n => let '(_, l) := xShmLock (w_locks w) c s n UNLOCK_EXCLUSIVE in (tt, set_locks w l)
  | ReadHdr => (w_live w, w)
  | WriteHdr h => (tt, set_live (set_hist w (w_hist w ++ [(h, next_image w h)])) h)
  | LoadBackfill => (nBackfill (w_info w), w)
  | StoreBackfill v => (tt, with_info w (fun i => mkCkpt v (aReadMark i) (nBackfillAttempted i)))
  | StoreAttempted v => (tt, with_info w (fun i => mkCkpt (nBackfill i) (aReadMark i) v))
  | LoadMark i => ((aReadMark (w_info w)).[i], w)
  | StoreMark i v => (tt, with_info w (fun n => mkCkpt (nBackfill n) (aReadMark n).[i <- v] (nBackfillAttempted n)))
  | FindFrame lo hi pgno => (newest_frame (w_log w) lo hi pgno, w)
  | IterPages b mx => (iter_pages (w_log w) b mx, w)
  | ReadFrame i => (o_rc o, log_frame (w_log w) i, w)
  | WriteFrame i f => (o_rc o, set_log w (log_put (w_log w) i (if truthy (o_rc o) then o_frame o else f)))
  | WriteData i d =>
      let f := log_frame (w_log w) i in
      (o_rc o, set_log w (log_put (w_log w) i (mkFrame (f_pgno f) (f_nTrunc f) (if truthy (o_rc o) then f_data (o_frame o) else d) (f_head f))))
  | ReadLogHead => (o_rc o, w_head w, w)
  | WriteLogHead a => (o_rc o, set_head w (if truthy (o_rc o) then o_bytes o else a))
  | TruncateLog => (o_rc o, if truthy (o_rc o) then w else set_log w [])
  | ReadDb p => (w_db w !! p, w)
  | WriteDb p d => (o_rc o, set_db w (if truthy (o_rc o) then partial_alter (fun _ => o_page o) p (w_db w)
                                      else <[p := d]> (w_db w)))
  | TruncateDb n => (o_rc o, if truthy (o_rc o) then w else set_db w (filter (fun e => fst e <= n) (w_db w)))
  | Io => (o_rc o, w)
  | Randomness n => (take (Z.to_nat n) (o_bytes o ++ replicate (Z.to_nat n) 0), w)
  | Ask => (o_flag o, w)
  | Emit e => (tt, set_trace w (w_trace w ++ [(c, e)]))
  end.
End exec.

Inductive prog (A : Type) : Type :=
| Ret (a : A)
| Act {B : Type} (a : op B) (k : B -> prog A).
Arguments Ret {A}. Arguments Act {A B}.

Fixpoint bind {A C : Type} (m : prog A) (k : A -> prog C) : prog C :=
  match m with
  | Ret a => k a
  | Act a f => Act a (fun x => bind (f x) k)
  end.
Definition do_ {B : Type} (a : op B) : prog B := Act a Ret.

#[global] Instance prog_ret : MRet prog := @Ret.
#[global] Instance prog_bind : MBind prog := fun A C k m => bind m k.

(** ** The connection *)

(** The private part of [struct Wal]: the log state of [WalLog], the read lock (-1 when
    none), the first frame that a lookup considers, and the flags.  [w_sector] is the
    sector size to which commits are padded, 0 for no padding. *)
Record conn := mkConn {
  cw : Wal; readLock : Z; minFrame : Z; writeLock : bool; ckptLock : bool; readOnly : bool; w_sector : Z }.

Definition set_wal (k : conn) (w : Wal) := mkConn w (readLock k) (minFrame k) (writeLock k) (ckptLock k) (readOnly k) (w_sector k).
Definition set_read (k : conn) (i : Z) := mkConn (cw k) i (minFrame k) (writeLock k) (ckptLock k) (readOnly k) (w_sector k).
Definition set_min (k : conn) (m : Z) := mkConn (cw k) (readLock k) m (writeLock k) (ckptLock k) (readOnly k) (w_sector k).
Definition set_write (k : conn) (b : bool) := mkConn (cw k) (readLock k) (minFrame k) b (ckptLock k) (readOnly k) (w_sector k).
Definition set_ckpt (k : conn) (b : bool) := mkConn (cw k) (readLock k) (minFrame k) (writeLock k) b (readOnly k) (w_sector k).

Definition khdr (k : conn) : WalIndexHdr := hdr (cw k).
Definition set_hdr (w : Wal) (h : WalIndexHdr) : Wal := mkWal h (w_szPage w) (w_nCkpt w) (w_iReCksum w).
Definition set_khdr (k : conn) (h : WalIndexHdr) : conn := set_wal k (set_hdr (cw k) h).
Definition set_reck (k : conn) (i : Z) : conn := set_wal k (mkWal (khdr k) (w_szPage (cw k)) (w_nCkpt (cw k)) i).

Definition h_setmx (h : WalIndexHdr) (m : Z) : WalIndexHdr :=
  mkHdr (h_iVersion h) (h_iChange h) (h_isInit h) (h_bigEndCksum h) (h_szPage h) m (h_nPage h) (h_aFrameCksum h) (h_aSalt h).
Definition h_setsalt (h : WalIndexHdr) (s : list Z) : WalIndexHdr :=
  mkHdr (h_iVersion h) (h_iChange h) (h_isInit h) (h_bigEndCksum h) (h_szPage h) (h_mxFrame h) (h_nPage h) (h_aFrameCksum h) s.
(** [memcmp(&pWal->hdr, pLive, sizeof(WalIndexHdr))==0]; the checksum that ends the real
    header is a function of the rest. *)
#[global] Instance hdr_eq_dec : EqDecision WalIndexHdr.
Proof. solve_decision. Defined.
(** [walIndexWriteHdr] marks the header as initialized and sets its version. *)
Definition stamp (h : WalIndexHdr) : WalIndexHdr :=
  mkHdr WALINDEX_MAX_VERSION (h_iChange h) 1 (h_bigEndCksum h) (h_szPage h) (h_mxFrame h) (h_nPage h) (h_aFrameCksum h) (h_aSalt h).

(** ** Locks *)

Definition walLockShared (lockIdx : Z) : prog Z := do_ (LockShared lockIdx).
Definition walUnlockShared (lockIdx : Z) : prog unit := do_ (UnlockShared lockIdx).
Definition walLockExclusive (lockIdx n : Z) : prog Z := do_ (LockExclusive lockIdx n).
Definition walUnlockExclusive (lockIdx n : Z) : prog unit := do_ (UnlockExclusive lockIdx n).
(** The busy handler is asked at most [xBusy] times and may decline before. *)
Fixpoint walBusyLock (xBusy : nat) (lockIdx n : Z) : prog Z :=
  rc ← walLockExclusive lockIdx n;
  match xBusy with
  | S xBusy' =>
      if rc =? SQLITE_BUSY then
        again ← do_ Ask; if again : bool then walBusyLock xBusy' lockIdx n else Ret rc
      else Ret rc
  | O => Ret rc
  end.

Definition walIndexWriteHdr (k : conn) : prog conn :=
  let k := set_khdr k (stamp (khdr k)) in
  do_ (WriteHdr (khdr k));; Ret k.
Definition walPagesize (h : WalIndexHdr) : Z :=
  Z.land (h_szPage h) 0xfe00 + Z.shiftl (Z.land (h_szPage h) 0x0001) 16.
(** The wal-index header is present and valid (see above). *)
Definition walIndexReadHdr (k : conn) : prog (bool * conn) :=
  h ← do_ ReadHdr;
  Ret (if bool_decide (h = khdr k) then (false, k)
       else (true, set_wal k (mkWal h (walPagesize h) (w_nCkpt (cw k)) (w_iReCksum (cw k))))).

(** ** Read transactions *)

Definition reader_slots : list Z := seqZ 1 (WAL_NREADER - 1).

(** The largest mark not above [mx] among the slots [is], and its slot. *)
Fixpoint scan_marks (slots : list Z) (mx mxReadMark mxI : Z) : prog (Z * Z) :=
  match slots with
  | [] => Ret (mxReadMark, mxI)
  | i :: slots' =>
      thisMark ← do_ (LoadMark i);
      if (mxReadMark <=? thisMark) && (thisMark <=? mx) then scan_marks slots' mx thisMark i
      else scan_marks slots' mx mxReadMark mxI
  end.
(** Give the first slot that is free the mark [mx]; the result code is that of the last
    lock, and [true] says that the routine returns it at once. *)
Fixpoint claim_mark (slots : list Z) (mx mxReadMark mxI rc : Z) : prog (bool * Z * Z * Z) :=
  match slots with
  | [] => Ret (false, rc, mxReadMark, mxI)
  | i :: slots' =>
      rc ← walLockExclusive (WAL_READ_LOCK i) 1;
      if rc =? SQLITE_OK then
        do_ (StoreMark i mx);; walUnlockExclusive (WAL_READ_LOCK i) 1;; Ret (false, rc, mx, i)
      else if negb (rc =? SQLITE_BUSY) then Ret (true, rc, mxReadMark, mxI)
      else claim_mark slots' mx mxReadMark mxI rc
  end.

(** The part after the wal-index header is known: use the log through a read mark. *)
Definition begin_read_marks (k : conn) : prog (Z * conn) :=
  let mx := h_mxFrame (khdr k) in
  '(mxReadMark, mxI) ← scan_marks reader_slots mx 0 0;
  '(stop, rc, mxReadMark, mxI) ←
    (if (mxReadMark <? mx) || (mxI =? 0) then claim_mark reader_slots mx mxReadMark mxI SQLITE_OK
     else Ret (false, SQLITE_OK, mxReadMark, mxI));
  if stop : bool then Ret (rc, k) else
  if mxI =? 0 then Ret (if rc =? SQLITE_BUSY then WAL_RETRY else Z.lor SQLITE_READONLY (5 * 2 ^ 8), k) else
  rc ← walLockShared (WAL_READ_LOCK mxI);
  if truthy rc then Ret (if Z.land rc 0xFF =? SQLITE_BUSY then WAL_RETRY else rc, k) else
  b ← do_ LoadBackfill;
  let k := set_min k (b + 1) in
  mark ← do_ (LoadMark mxI);
  live ← (if mark =? mxReadMark then do_ ReadHdr else Ret (khdr k));
  if negb (mark =? mxReadMark) || negb (bool_decide (live = khdr k)) then
    walUnlockShared (WAL_READ_LOCK mxI);; Ret (WAL_RETRY, k)
  else Ret (SQLITE_OK, set_read k mxI).

(** [cnt]: the number of earlier calls that asked to retry. *)
Definition walTryBeginRead (k : conn) (pChanged useWal : bool) (cnt : Z) : prog (Z * conn * bool) :=
  let cnt := cnt + 1 in
  if (5 <? cnt) && (WAL_RETRY_PROTOCOL_LIMIT <? cnt) then Ret (SQLITE_PROTOCOL, k, pChanged) else
  '(k, pChanged) ← (if useWal then Ret (k, pChanged) else
                     '(chg, k) ← walIndexReadHdr k; Ret (k, pChanged || chg));
  ignore ← (if useWal then Ret false else
             b ← do_ LoadBackfill; Ret (b =? h_mxFrame (khdr k)));
  '(done, rc, k) ←
    (if ignore : bool then
       rc ← walLockShared (WAL_READ_LOCK 0);
       if rc =? SQLITE_OK then
         live ← do_ ReadHdr;
         if negb (bool_decide (live = khdr k)) then walUnlockShared (WAL_READ_LOCK 0);; Ret (true, WAL_RETRY, k)
         else Ret (true, SQLITE_OK, set_read k 0)
       else if negb (rc =? SQLITE_BUSY) then Ret (true, rc, k) else Ret (false, rc, k)
     else Ret (false, SQLITE_OK, k));
  if done : bool then Ret (rc, k, pChanged) else
  '(rc, k) ← begin_read_marks k; Ret (rc, k, pChanged).

(** The loops around it.  The call with [cnt] 100 never asks to retry, so 101 rounds are
    enough. *)
Fixpoint try_read_loop (fuel : nat) (k : conn) (pChanged useWal : bool) (cnt : Z) : prog (Z * conn * bool) :=
  match fuel with
  | O => Ret (SQLITE_PROTOCOL, k, pChanged)
  | S fuel' =>
      '(rc, k, pChanged) ← walTryBeginRead k pChanged useWal cnt;
      if rc =? WAL_RETRY then try_read_loop fuel' k pChanged useWal (cnt + 1) else Ret (rc, k, pChanged)
  end.
Definition walBeginReadTransaction (k : conn) (pChanged : bool) : prog (Z * conn * bool) :=
  try_read_loop 101 k pChanged false 0.

Definition sqlite3WalEndWriteTransaction (k : conn) : prog conn :=
  if writeLock k then
    walUnlockExclusive WAL_WRITE_LOCK 1;; Ret (set_reck (set_write k false) 0)
  else Ret k.
Definition sqlite3WalEndReadTransaction (k : conn) : prog conn :=
  if 0 <=? readLock k then
    k ← sqlite3WalEndWriteTransaction k;
    walUnlockShared (WAL_READ_LOCK (readLock k));; Ret (set_read k (-1))
  else Ret k.

(** The lookup of [WalIndex], by its result. *)
Definition walFindFrame' (k : conn) (pgno : Z) : prog Z :=
  if (h_mxFrame (khdr k) =? 0) || (readLock k =? 0) then Ret 0
  else do_ (FindFrame (minFrame k) (h_mxFrame (khdr k)) pgno).
(** Reading a page (pager.c); the page that was read is recorded unless the connection
    is writing. *)
Definition readDbPage (k : conn) (pgno : Z) : prog (Z * option page) :=
  iFrame ← walFindFrame' k pgno;
  '(rc, d) ← (if truthy iFrame then '(rc, f) ← do_ (ReadFrame iFrame); Ret (rc, Some (f_data f))
               else d ← do_ (ReadDb pgno); rc ← do_ Io; Ret (rc, d));
  (if negb (truthy rc) && negb (writeLock k) then do_ (Emit (EvRead (khdr k) pgno d)) else Ret tt);;
  Ret (rc, d).

(** ** Write transactions *)

Definition sqlite3WalBeginWriteTransaction (k : conn) : prog (Z * conn) :=
  if readOnly k then Ret (SQLITE_READONLY, k) else
  rc ← walLockExclusive WAL_WRITE_LOCK 1;
  if truthy rc then Ret (rc, k) else
  let k := set_write k true in
  live ← do_ ReadHdr;
  if negb (bool_decide (live = khdr k)) then
    walUnlockExclusive WAL_WRITE_LOCK 1;; Ret (SQLITE_BUSY_SNAPSHOT, set_write k false)
  else Ret (SQLITE_OK, k).

(** Rollback; [xUndo] only drops pages from the cache and cannot fail. *)
Definition sqlite3WalUndo (k : conn) : prog conn :=
  if writeLock k then
    h ← do_ ReadHdr; Ret (set_reck (set_khdr k h) 0)
  else Ret k.

(** The four words of a savepoint. *)
Record savepoint := mkSp { sp_mxFrame : Z; sp_cksum : Z * Z; sp_nCkpt : Z }.
Definition sqlite3WalSavepoint (k : conn) : savepoint :=
  mkSp (h_mxFrame (khdr k)) (h_aFrameCksum (khdr k)) (w_nCkpt (cw k)).
Definition sqlite3WalSavepointUndo (k : conn) (a : savepoint) : conn * savepoint :=
  let a := if negb (sp_nCkpt a =? w_nCkpt (cw k)) then mkSp 0 (sp_cksum a) (w_nCkpt (cw k)) else a in
  if sp_mxFrame a <? h_mxFrame (khdr k) then
    let k := set_khdr k (h_setmx (khdr k) (sp_mxFrame a)) in
    let k := set_wal k (set_cksum (cw k) (sp_cksum a)) in
    (if sp_mxFrame a <? w_iReCksum (cw k) then set_reck k 0 else k, a)
  else (k, a).

(** [salt1]: four random bytes. *)
Definition walRestartHdr (k : conn) (salt1 : list Z) : prog conn :=
  let w := cw k in
  let salt := h_aSalt (hdr w) in
  let salt := put4_at salt 0 (u32 (1 + get4_at salt 0)) in
  let salt := splice salt 4 salt1 in
  let k := set_wal k (mkWal (h_setsalt (h_setmx (hdr w) 0) salt) (w_szPage w) (u32 (w_nCkpt w + 1)) (w_iReCksum w)) in
  k ← walIndexWriteHdr k;
  do_ (StoreBackfill 0);;
  do_ (StoreAttempted 0);;
  do_ (StoreMark 1 0);;
  do_ (StoreMark 2 READMARK_NOT_USED);;
  do_ (StoreMark 3 READMARK_NOT_USED);;
  do_ (StoreMark 4 READMARK_NOT_USED);;
  Ret k.

Definition walRestartLog (k : conn) : prog (Z * conn) :=
  if readLock k =? 0 then
    b ← do_ LoadBackfill;
    '(stop, rc, k) ←
      (if 0 <? b then
         salt1 ← do_ (Randomness 4);
         rc ← walLockExclusive (WAL_READ_LOCK 1) (WAL_NREADER - 1);
         if rc =? SQLITE_OK then
           k ← walRestartHdr k salt1;
           walUnlockExclusive (WAL_READ_LOCK 1) (WAL_NREADER - 1);; Ret (false, rc, k)
         else Ret (negb (rc =? SQLITE_BUSY), rc, k)
       else Ret (false, SQLITE_OK, k));
    if stop : bool then Ret (rc, k) else
    walUnlockShared (WAL_READ_LOCK 0);;
    let k := set_read k (-1) in
    '(rc, k, _) ← try_read_loop 101 k false true 0; Ret (rc, k)
  else Ret (SQLITE_OK, k).

(** A page to write: its number and content. *)
Definition dirty : Type := Z * page.

Definition encode (k : conn) (pgno nTruncate : Z) (d : page) : frame * conn :=
  let '(head, w) := walEncodeFrame (cw k) pgno nTruncate d (replicate 24 0) in
  (mkFrame pgno nTruncate d head, set_wal k w).
Definition write_frame (k : conn) (i pgno nTruncate : Z) (d : page) : prog (Z * conn) :=
  let '(f, k) := encode k pgno nTruncate d in
  rc ← do_ (WriteFrame i f);
  Ret (rc, k).

(** Recompute the checksums from frame [iReCksum] on: [n] frames are left. *)
Fixpoint rewrite_loop (n : nat) (k : conn) (iRead : Z) : prog (Z * conn) :=
  match n with
  | O => Ret (SQLITE_OK, k)
  | S n' =>
      '(rc, f) ← do_ (ReadFrame iRead);
      if truthy rc then Ret (rc, k) else
      let '(f', k) := encode k (f_pgno f) (f_nTrunc f) (f_data f) in
      rc ← do_ (WriteFrame iRead f');
      if truthy rc then Ret (rc, k) else rewrite_loop n' k (iRead + 1)
  end.
Definition walRewriteChecksums (k : conn) (iLast : Z) : prog (Z * conn) :=
  let iReCksum := w_iReCksum (cw k) in
  '(rc, a) ← (if iReCksum =? 1 then '(rc, head) ← do_ ReadLogHead; Ret (rc, drop 24 head)
              else '(rc, f) ← do_ (ReadFrame (iReCksum - 1)); Ret (rc, drop 16 (f_head f)));
  let k := set_wal k (set_cksum (cw k) (get4_at a 0, get4_at a 4)) in
  let k := set_reck k 0 in
  if truthy rc then Ret (rc, k) else rewrite_loop (Z.to_nat (iLast - iReCksum + 1)) k iReCksum.

(** Write the pages; the counter is the last frame written.  A page that the
    transaction has already written is overwritten in place, except the last page of a
    commit. *)
Fixpoint frames_loop (k : conn) (pList : list dirty) (nTruncate iFirst iFrame : Z) (isCommit : bool)
  : prog (Z * conn * Z) :=
  match pList with
  | [] => Ret (SQLITE_OK, k, iFrame)
  | (pgno, d) :: pList' =>
      let pDirty := negb (bool_decide (pList' = [])) in
      iWrite ← (if truthy iFirst && (pDirty || negb isCommit) then walFindFrame' k pgno else Ret 0);
      if truthy iFirst && (pDirty || negb isCommit) && (iFirst <=? iWrite) then
        let k := if (w_iReCksum (cw k) =? 0) || (iWrite <? w_iReCksum (cw k)) then set_reck k iWrite else k in
        rc ← do_ (WriteData iWrite d);
        if truthy rc then Ret (rc, k, iFrame) else frames_loop k pList' nTruncate iFirst iFrame isCommit
      else
        let iFrame := iFrame + 1 in
        let nDbSize := if isCommit && negb pDirty then nTruncate else 0 in
        '(rc, k) ← write_frame k iFrame pgno nDbSize d;
        if truthy rc then Ret (rc, k, iFrame) else frames_loop k pList' nTruncate iFirst iFrame isCommit
  end.

(** Repeat the last page of a commit [n] times. *)
Fixpoint pad_loop (n : nat) (k : conn) (last_page : dirty) (nTruncate iFrame : Z) : prog (Z * conn * Z) :=
  match n with
  | O => Ret (SQLITE_OK, k, iFrame)
  | S n' =>
      '(rc, k) ← write_frame k (iFrame + 1) (fst last_page) nTruncate (snd last_page);
      if truthy rc then Ret (rc, k, iFrame) else pad_loop n' k last_page nTruncate (iFrame + 1)
  end.
(** How many copies fill the sector that contains the end of the log. *)
Definition pad_count (k : conn) (iFrame szPage : Z) : Z :=
  let iOffset := walFrameOffset (iFrame + 1) szPage in
  let iSyncPoint := (iOffset + w_sector k - 1) / w_sector k * w_sector k in
  (iSyncPoint - iOffset + szPage + WAL_FRAME_HDRSIZE - 1) / (szPage + WAL_FRAME_HDRSIZE).

(** The header of the log, written before its first frame. *)
Definition write_log_header (k : conn) (szPage : Z) : prog (Z * conn) :=
  salt ← (if w_nCkpt (cw k) =? 0 then do_ (Randomness 8) else Ret (h_aSalt (khdr k)));
  let k := set_khdr k (h_setsalt (khdr k) salt) in
  let '(aWalHdr, w) := wal_header (cw k) szPage in
  let k := set_wal k w in
  rc ← do_ (WriteLogHead aWalHdr);
  if truthy rc then Ret (rc, k) else
  rc ← do_ Io;
  Ret (rc, k).

(** The private header after the frames. *)
Definition commit_hdr (h : WalIndexHdr) (szPage iFrame nTruncate : Z) (isCommit : bool) : WalIndexHdr :=
  mkHdr (h_iVersion h) (if isCommit then u32 (h_iChange h + 1) else h_iChange h) (h_isInit h) (h_bigEndCksum h)
    (page_size_code szPage) iFrame (if isCommit then nTruncate else h_nPage h) (h_aFrameCksum h) (h_aSalt h).

(** After the pages: checksums, padding to a sector and sync for a commit, and the new
    header.  [sync]: the WAL_SYNC_FLAGS ask for a sync at commit. *)
Definition finish_frames (k : conn) (szPage : Z) (pList : list dirty) (nTruncate iFrame : Z) (isCommit sync : bool)
  : prog (Z * conn) :=
  '(rc, k) ← (if isCommit && truthy (w_iReCksum (cw k)) then walRewriteChecksums k iFrame else Ret (SQLITE_OK, k));
  if truthy rc then Ret (rc, k) else
  '(rc, k, iFrame) ←
    (if isCommit && sync then
       '(rc, k, iFrame) ←
         (if 0 <? w_sector k then pad_loop (Z.to_nat (pad_count k iFrame szPage)) k (List.last pList (0, [])) nTruncate iFrame
          else Ret (SQLITE_OK, k, iFrame));
       if truthy rc then Ret (rc, k, iFrame) else
       rc ← do_ Io; Ret (rc, k, iFrame)
     else Ret (SQLITE_OK, k, iFrame));
  if truthy rc then Ret (rc, k) else
  rc ← do_ Io;                                            (* walIndexAppend for each new frame *)
  if truthy rc then Ret (rc, k) else
  let k := set_khdr k (commit_hdr (khdr k) szPage iFrame nTruncate isCommit) in
  k ← (if isCommit then walIndexWriteHdr k else Ret k);
  Ret (SQLITE_OK, k).

Definition walFrames (k : conn) (szPage : Z) (pList : list dirty) (nTruncate : Z) (isCommit sync : bool)
  : prog (Z * conn) :=
  live ← do_ ReadHdr;
  let iFirst := if bool_decide (live = khdr k) then 0 else h_mxFrame live + 1 in
  '(rc, k) ← walRestartLog k;
  if truthy rc then Ret (rc, k) else
  let iFrame := h_mxFrame (khdr k) in
  '(rc, k) ← (if iFrame =? 0 then write_log_header k szPage else Ret (SQLITE_OK, k));
  if truthy rc then Ret (rc, k) else
  if negb (w_szPage (cw k) =? szPage) then Ret (SQLITE_CORRUPT, k) else
  '(rc, k, iFrame) ← frames_loop k pList nTruncate iFirst iFrame isCommit;
  if truthy rc then Ret (rc, k) else finish_frames k szPage pList nTruncate iFrame isCommit sync.

(** ** Checkpoints *)

(** The frame up to which it is safe to copy, and what is left of the busy handler. *)
Fixpoint safe_frame (slots : list Z) (mxSafeFrame : Z) (xBusy : nat) : prog (bool * Z * Z * nat) :=
  match slots with
  | [] => Ret (false, SQLITE_OK, mxSafeFrame, xBusy)
  | i :: slots' =>
      y ← do_ (LoadMark i);
      if y <? mxSafeFrame then
        rc ← walBusyLock xBusy (WAL_READ_LOCK i) 1;
        if rc =? SQLITE_OK then
          do_ (StoreMark i (if i =? 1 then mxSafeFrame else READMARK_NOT_USED));;
          walUnlockExclusive (WAL_READ_LOCK i) 1;;
          safe_frame slots' mxSafeFrame xBusy
        else if rc =? SQLITE_BUSY then safe_frame slots' y 0
        else Ret (true, rc, mxSafeFrame, xBusy)
      else safe_frame slots' mxSafeFrame xBusy
  end.

(** Copy pages from the log to the database file. *)
Fixpoint backfill_loop (todo : list (Z * Z)) (b mxSafeFrame mxPage : Z) : prog Z :=
  match todo with
  | [] => Ret SQLITE_OK
  | (iDbpage, iFrame) :: todo' =>
      stop ← do_ Ask;
      if stop : bool then Ret SQLITE_INTERRUPT else
      if (iFrame <=? b) || (mxSafeFrame <? iFrame) || (mxPage <? iDbpage) then backfill_loop todo' b mxSafeFrame mxPage
      else
        '(rc, f) ← do_ (ReadFrame iFrame);
        if truthy rc then Ret rc else
        rc ← do_ (WriteDb iDbpage (f_data f));
        if truthy rc then Ret rc else backfill_loop todo' b mxSafeFrame mxPage
  end.

(** With read-lock 0 held and the log not restarted since [k] read its header. *)
Definition backfill (k : conn) (todo : list (Z * Z)) (b mxSafeFrame : Z) : prog Z :=
  let h := khdr k in
  do_ (StoreAttempted mxSafeFrame);;
  rc ← do_ Io;                                            (* sync of the log, size of the database *)
  if truthy rc then Ret rc else
  rc ← backfill_loop todo b mxSafeFrame (h_nPage h);
  if truthy rc then Ret rc else
  live ← do_ ReadHdr;
  rc ← (if mxSafeFrame =? h_mxFrame live then
          rc ← do_ (TruncateDb (h_nPage h));
          if truthy rc then Ret rc else do_ Io
        else Ret SQLITE_OK);
  if truthy rc then Ret rc else
  do_ (StoreBackfill mxSafeFrame);; Ret SQLITE_OK.

(** The first half of a checkpoint: copy what no reader needs in the log.  SQLITE_BUSY is
    reset, for active readers are no failure; [true] says that the routine gives up. *)
Definition copy_safe_frames (k : conn) (xBusy : nat) : prog (bool * Z * nat) :=
  let h := khdr k in
  b ← do_ LoadBackfill;
  if b <? h_mxFrame h then
    '(stop, rc, mxSafeFrame, xBusy) ← safe_frame reader_slots (h_mxFrame h) xBusy;
    if stop : bool then Ret (true, rc, xBusy) else
    b ← do_ LoadBackfill;
    if b <? mxSafeFrame then
      b ← do_ LoadBackfill;
      todo ← do_ (IterPages b (h_mxFrame h));
      rc ← walBusyLock xBusy (WAL_READ_LOCK 0) 1;
      if rc =? SQLITE_OK then
        b ← do_ LoadBackfill;
        live ← do_ ReadHdr;
        rc ← (if bool_decide (h_aSalt live = h_aSalt h) then backfill k todo b mxSafeFrame else Ret SQLITE_OK);
        walUnlockExclusive (WAL_READ_LOCK 0) 1;;
        Ret (false, if rc =? SQLITE_BUSY then SQLITE_OK else rc, xBusy)
      else Ret (false, if rc =? SQLITE_BUSY then SQLITE_OK else rc, xBusy)
    else Ret (false, SQLITE_OK, xBusy)
  else Ret (false, SQLITE_OK, xBusy).

Definition walCheckpoint (k : conn) (eMode : Z) (xBusy : nat) : prog (Z * conn) :=
  let h := khdr k in
  '(stop, rc, xBusy) ← copy_safe_frames k xBusy;
  if stop : bool then Ret (rc, k) else
  if negb (truthy rc) && negb (eMode =? SQLITE_CHECKPOINT_PASSIVE) then
    b ← do_ LoadBackfill;
    if b <? h_mxFrame h then Ret (SQLITE_BUSY, k)
    else if SQLITE_CHECKPOINT_RESTART <=? eMode then
      salt1 ← do_ (Randomness 4);
      rc ← walBusyLock xBusy (WAL_READ_LOCK 1) (WAL_NREADER - 1);
      if rc =? SQLITE_OK then
        '(rc, k) ← (if eMode =? SQLITE_CHECKPOINT_TRUNCATE then
                      k ← walRestartHdr k salt1;
                      rc ← do_ TruncateLog; Ret (rc, k)
                    else Ret (rc, k));
        walUnlockExclusive (WAL_READ_LOCK 1) (WAL_NREADER - 1);;
        Ret (rc, k)
      else Ret (rc, k)
    else Ret (rc, k)
  else Ret (rc, k).

(** The locks of a checkpoint; without the write lock it becomes a passive one. *)
Definition ckpt_locks (k : conn) (eMode : Z) (xBusy : nat) : prog (Z * conn * Z * nat) :=
  if negb (eMode =? SQLITE_CHECKPOINT_NOOP) then
    rc ← walLockExclusive WAL_CKPT_LOCK 1;
    if rc =? SQLITE_OK then
      let k := set_ckpt k true in
      if negb (eMode =? SQLITE_CHECKPOINT_PASSIVE) then
        rc ← walBusyLock xBusy WAL_WRITE_LOCK 1;
        if rc =? SQLITE_OK then Ret (rc, set_write k true, eMode, xBusy)
        else if rc =? SQLITE_BUSY then Ret (SQLITE_OK, k, SQLITE_CHECKPOINT_PASSIVE, 0%nat)
        else Ret (rc, k, eMode, xBusy)
      else Ret (rc, k, eMode, xBusy)
    else Ret (rc, k, eMode, xBusy)
  else Ret (SQLITE_OK, k, eMode, xBusy).
(** Read the header, copy, and report the frames in the log and those copied. *)
Definition ckpt_work (k : conn) (eMode2 : Z) (xBusy2 : nat) (nBuf : Z) : prog (Z * conn * bool * option (Z * Z)) :=
  '(isChanged, k) ← walIndexReadHdr k;
  '(rc, k) ← (if truthy (h_mxFrame (khdr k)) && negb (walPagesize (khdr k) =? nBuf) then Ret (SQLITE_CORRUPT, k)
              else if negb (eMode2 =? SQLITE_CHECKPOINT_NOOP) then walCheckpoint k eMode2 xBusy2
              else Ret (SQLITE_OK, k));
  if (rc =? SQLITE_OK) || (rc =? SQLITE_BUSY) then
    b ← do_ LoadBackfill; Ret (rc, k, isChanged, Some (h_mxFrame (khdr k), b))
  else Ret (rc, k, isChanged, None).

(** [nBuf]: the page size of the caller.  Returns the result code, the frames in the log
    and those copied. *)
Definition sqlite3WalCheckpoint (k : conn) (eMode : Z) (xBusy : nat) (nBuf : Z) : prog (Z * conn * option (Z * Z)) :=
  if readOnly k then Ret (SQLITE_READONLY, k, None) else
  '(rc, k, eMode2, xBusy2) ← ckpt_locks k eMode xBusy;
  '(rc, k, isChanged, out) ← (if truthy rc then Ret (rc, k, false, None) else ckpt_work k eMode2 xBusy2 nBuf);
  let k := if isChanged : bool then set_khdr k hdr_zero else k in
  k ← sqlite3WalEndWriteTransaction k;
  k ← (if ckptLock k then walUnlockExclusive WAL_CKPT_LOCK 1;; Ret (set_ckpt k false) else Ret k);
  Ret (if (rc =? SQLITE_OK) && negb (eMode =? eMode2) then SQLITE_BUSY else rc, k, out).

(** ** Sessions and schedules *)

(** What a client of wal.c may ask for next. *)
Inductive call :=
| CBeginRead | CRead (pgno : Z) | CEndRead
| CBeginWrite | CFrames (szPage : Z) (pList : list dirty) (nTruncate : Z) (isCommit sync : bool)
| CUndo | CSavepoint | CSavepointUndo (n : nat) | CEndWrite
| CCheckpoint (eMode : Z) (xBusy : nat) (nBuf : Z).

(** The state of a client: the connection, the savepoints of the running write
    transaction, newest first, and whether it has frames that are neither committed nor
    undone. *)
Record client := mkClient { cl_conn : conn; cl_sps : list savepoint; cl_open : bool }.

(** The rules of use: what wal.c asserts, and that a write transaction is committed or
    undone before it ends. *)
Definition allowed (t : client) (a : call) : bool :=
  let k := cl_conn t in
  match a with
  | CBeginRead => (readLock k <? 0) && negb (writeLock k)
  | CRead _ => 0 <=? readLock k
  | CEndRead | CEndWrite => negb (writeLock k && cl_open t)
  | CBeginWrite => (0 <=? readLock k) && negb (writeLock k)
  | CFrames _ pList nTruncate isCommit _ =>
      writeLock k && (0 <=? readLock k) && negb (bool_decide (pList = [])) && Bool.eqb isCommit (0 <? nTruncate)
        && (0 <=? nTruncate)
  | CUndo | CSavepoint | CSavepointUndo _ => writeLock k
  | CCheckpoint _ _ _ => (readLock k <? 0) && negb (writeLock k)
  end.

Definition do_call (t : client) (a : call) : prog client :=
  let k := cl_conn t in
  match a with
  | CBeginRead => '(_, k, _) ← walBeginReadTransaction k false; Ret (mkClient k [] false)
  | CRead pgno => readDbPage k pgno;; Ret t
  | CEndRead => k ← sqlite3WalEndReadTransaction k; Ret (mkClient k [] false)
  | CBeginWrite => '(_, k) ← sqlite3WalBeginWriteTransaction k; Ret (mkClient k [] false)
  | CFrames szPage pList nTruncate isCommit sync =>
      '(rc, k) ← walFrames k szPage pList nTruncate isCommit sync;
      Ret (if isCommit && (rc =? SQLITE_OK) then mkClient k [] false else mkClient k (cl_sps t) true)
  | CUndo => k ← sqlite3WalUndo k; Ret (mkClient k [] false)
  | CSavepoint => Ret (mkClient k (sqlite3WalSavepoint k :: cl_sps t) (cl_open t))
  | CSavepointUndo n =>
      Ret (match cl_sps t !! n with
           | Some a => let '(k, a) := sqlite3WalSavepointUndo k a in mkClient k (a :: drop (S n) (cl_sps t)) (cl_open t)
           | None => t
           end)
  | CEndWrite => k ← sqlite3WalEndWriteTransaction k; Ret (mkClient k [] false)
  | CCheckpoint eMode xBusy nBuf => '(_, k, _) ← sqlite3WalCheckpoint k eMode xBusy nBuf; Ret (mkClient k [] false)
  end.
Fixpoint session (t : client) (calls : list call) : prog unit :=
  match calls with
  | [] => Ret tt
  | a :: calls' => if allowed t a then t ← do_call t a; session t calls' else session t calls'
  end.

Section schedules.
Context {L : Type} `{LockManager L}.

(** The random salts of a new log: a header is published either with the salts of the
    current one or with salts that no published header has had. *)
Definition salts_fresh {B : Type} (a : op B) (w : world L) : Prop :=
  match a with
  | WriteHdr h => h_aSalt h = h_aSalt (w_live w) \/ Forall (fun e => h_aSalt (fst e) <> h_aSalt h) (w_hist w)
  | _ => True
  end.

(** One action of one connection. *)
Inductive step : world L * gmap Z (prog unit) -> world L * gmap Z (prog unit) -> Prop :=
| step_act w ps c B (a : op B) k o :
    ps !! c = Some (Act a k) -> salts_fresh a w ->
    step (w, ps) (snd (exec o c a w), <[c := k (fst (exec o c a w))]> ps).
End schedules.

(** ** Running alone *)

Fixpoint run {L} `{LockManager L} {A} (c : Z) (p : prog A) (w : world L) : A * world L :=
  match p with
  | Ret a => (a, w)
  | Act a k => let '(x, w) := exec inhabitant c a w in run c (k x) w
  end.
Definition init_info : WalCkptInfo := mkCkpt 0 [0; 0xffffffff; 0xffffffff; 0xffffffff; 0xffffffff] 0.
(** A fresh log beside a database of [nPage] pages. *)
Definition init_hdr (nPage : Z) : WalIndexHdr := mkHdr WALINDEX_MAX_VERSION 0 1 0 0 0 nPage (0, 0) (replicate 8 0).
Definition init_world (L : Type) `{LockManager L} (nPage : Z) (db : gmap Z page) : world L :=
  let db0 := filter (fun e => fst e <= nPage) db in
  mkWorld (init_hdr nPage) init_info lk_init [] [] db [(init_hdr nPage, db0)] [].
(** A connection that has just been opened. *)
Definition open_conn (szPage nCkpt sector : Z) (rdonly : bool) : conn :=
  mkConn (mkWal hdr_zero szPage nCkpt 0) (-1) 0 false false rdonly sector.
Definition start (k : conn) (calls : list call) : prog unit := session (mkClient k [] false) calls.

