(* ===== verification/WalClaims.v ===== *)
(** The invariant of concurrent write-ahead log transactions.

    The proof about [WalTxn] gives each connection a [claim]: the locks it holds, the
    published header it has read, the snapshot it protects and how far a checkpoint has
    got.  An action may change the shared world and the claim of the connection that does
    it, and must keep the invariant that relates the world to the claims of all
    connections; the programs of wal.c are then checked one by one against the claims
    ([wp]), without looking at the others.  This file holds the images of the database
    that the frames of a log describe, the invariant and the locks. *)

From stdpp Require Import functions.
From S2P Require Import Prelude Varint WalIndex WalLog WalLocks WalTxn.

(** ** Frames and database images *)

Section frames.
Implicit Types (log : list frame) (p k m f r : Z).

(** No frame after [lo] up to [hi] holds page [p]. *)
Definition untouched log lo hi p : Prop := forall f, lo < f <= hi -> f_pgno (log_frame log f) <> p.
(** The database after the first [k] frames. *)
Definition view (base : gmap Z page) log k : gmap Z page := apply_frames base (take (Z.to_nat k) log).

Lemma untouched_sub log lo hi lo' hi' p : untouched log lo hi p -> lo <= lo' -> hi' <= hi -> untouched log lo' hi' p.
Proof. intros H H1 H2 f Hf. apply H. lia. Qed.

Lemma pages_frame log f : 1 <= f <= zlen log -> (log_pages log).[f - 1] = f_pgno (log_frame log f).
Proof.
  intros Hf. unfold log_pages, log_frame, zget, zlookup, zlen in *. rewrite (proj2 (Z.leb_le _ _)) by lia.
  change (map f_pgno log) with (f_pgno <$> log). rewrite list_lookup_fmap.
  destruct (lookup_lt_is_Some_2 log (Z.to_nat (f - 1)) ltac:(lia)) as [x ->]. done.
Qed.
Lemma newest_frame_cases log lo hi p : 0 <= lo <= hi -> hi <= zlen log ->
  (newest_frame log (lo + 1) hi p = 0 /\ untouched log lo hi p) \/
  (exists r, newest_frame log (lo + 1) hi p = r /\ lo < r <= hi /\ f_pgno (log_frame log r) = p /\ untouched log r hi p).
Proof.
  unfold newest_frame. replace (hi - (lo + 1) + 1) with (hi - lo) by lia. intros Hlo.
  remember (Z.to_nat (hi - lo)) as n eqn:En. revert hi En Hlo. induction n as [|n IH]; intros hi En Hlo Hhi.
  - left. split; [done|]. intros f Hf. lia.
  - cbn [scan_down]. rewrite pages_frame by lia. destruct (Z.eqb_spec (f_pgno (log_frame log hi)) p) as [E|E].
    + right. exists hi. split; [done|]. split; [lia|]. split; [done|]. intros f Hf. lia.
    + destruct (IH (hi - 1) ltac:(lia) ltac:(lia) ltac:(lia)) as [[-> Hu]|(r & -> & Hr & Ep & Hu)].
      * left. split; [done|]. intros f Hf. destruct (decide (f = hi)) as [->|]; [done|]. apply Hu. lia.
      * right. exists r. split; [done|]. split; [lia|]. split; [done|]. intros f Hf.
        destruct (decide (f = hi)) as [->|]; [done|]. apply Hu. lia.
Qed.
Lemma newest_frame_zero log lo hi p : 0 <= lo <= hi -> hi <= zlen log ->
  newest_frame log (lo + 1) hi p = 0 <-> untouched log lo hi p.
Proof.
  intros H1 H2. destruct (newest_frame_cases log lo hi p H1 H2) as [[-> H]|(r & -> & Hr & Ep & _)]; [done|].
  split; [lia|]. intros Hu. by destruct (Hu r).
Qed.

Lemma take_S_frame log k : 0 <= k < zlen log ->
  take (Z.to_nat (k + 1)) log = take (Z.to_nat k) log ++ [log_frame log (k + 1)].
Proof.
  intros Hk. unfold zlen in Hk. replace (Z.to_nat (k + 1)) with (S (Z.to_nat k)) by lia.
  destruct (lookup_lt_is_Some_2 log (Z.to_nat k) ltac:(lia)) as [x Ex]. rewrite (take_S_r _ _ _ Ex). f_equal. f_equal.
  unfold log_frame, zget, zlookup. replace (k + 1 - 1) with k by lia. rewrite (proj2 (Z.leb_le _ _)) by lia. by rewrite Ex.
Qed.
Lemma view_S base log k : 0 <= k < zlen log -> view base log (k + 1) = apply_frame (view base log k) (log_frame log (k + 1)).
Proof. intros Hk. unfold view, apply_frames. by rewrite take_S_frame, foldl_app by done. Qed.

Lemma apply_frame_ne img (f : frame) p d : f_pgno f <> p -> apply_frame img f !! p = Some d -> img !! p = Some d.
Proof.
  intros Hne. unfold apply_frame. case_match; [rewrite map_lookup_filter_Some; intros [H1 _]; revert H1|];
    by rewrite lookup_insert_ne by done.
Qed.
Lemma apply_frame_eq img (f : frame) d : apply_frame img f !! f_pgno f = Some d -> f_data f = d.
Proof.
  unfold apply_frame. case_match; [rewrite map_lookup_filter_Some; intros [H1 _]; revert H1|];
    rewrite lookup_insert_eq; congruence.
Qed.
Lemma apply_frame_dom img (f : frame) p d : 0 < f_nTrunc f -> apply_frame img f !! p = Some d -> p <= f_nTrunc f.
Proof.
  intros Hn. unfold apply_frame. rewrite (proj2 (Z.ltb_lt _ _)) by done. rewrite map_lookup_filter_Some. by intros [_ H].
Qed.

(** Pages that no later frame touches were there before. *)
Lemma view_back base log k m p d : 0 <= k <= m -> m <= zlen log -> untouched log k m p ->
  view base log m !! p = Some d -> view base log k !! p = Some d.
Proof.
  intros Hk. remember (Z.to_nat (m - k)) as n eqn:En. revert m En Hk. induction n as [|n IH]; intros m En Hk Hm Hu.
  - by replace m with k by lia.
  - replace m with (m - 1 + 1) by lia. rewrite view_S by lia. intros H. apply (IH (m - 1)); [lia|lia|lia| |].
    + eapply untouched_sub; [done|lia|lia].
    + eapply apply_frame_ne; [|done]. apply Hu. lia.
Qed.
Lemma view_newest base log m r d : 0 < r <= m -> m <= zlen log -> untouched log r m (f_pgno (log_frame log r)) ->
  view base log m !! f_pgno (log_frame log r) = Some d -> f_data (log_frame log r) = d.
Proof.
  intros Hr Hm Hu H. apply (view_back base log r m) in H; [|lia..|done].
  pose proof (view_S base log (r - 1) ltac:(lia)) as Ev. replace (r - 1 + 1) with r in Ev by lia. rewrite Ev in H.
  by apply apply_frame_eq in H.
Qed.
Lemma view_0 base log : view base log 0 = base.
Proof. done. Qed.
Lemma view_take base log log' k : take (Z.to_nat k) log = take (Z.to_nat k) log' -> view base log k = view base log' k.
Proof. unfold view. by intros ->. Qed.

(** Two logs that agree up to frame [k]. *)
Definition same_upto log log' k : Prop := take (Z.to_nat k) log = take (Z.to_nat k) log'.
Lemma same_upto_frame log log' k f : same_upto log log' k -> 1 <= f <= k -> log_frame log f = log_frame log' f.
Proof.
  intros H Hf. unfold log_frame, zget, zlookup. rewrite (proj2 (Z.leb_le _ _)) by lia.
  rewrite <- (lookup_take_lt log (Z.to_nat k)), <- (lookup_take_lt log' (Z.to_nat k)) by lia. by rewrite H.
Qed.
Lemma same_upto_le log log' k k' : same_upto log log' k -> k' <= k -> same_upto log log' k'.
Proof.
  unfold same_upto. intros H Hk.
  replace (Z.to_nat k') with (Nat.min (Z.to_nat k') (Z.to_nat k)) by lia. rewrite <- !take_take. by rewrite H.
Qed.
Lemma same_upto_untouched log log' k lo hi p : same_upto log log' k -> 0 <= lo -> hi <= k ->
  untouched log lo hi p <-> untouched log' lo hi p.
Proof.
  intros H Hlo Hhi. split; intros Hu f Hf; [rewrite <- (same_upto_frame log log' k) by (done || lia)|
    rewrite (same_upto_frame log log' k) by (done || lia)]; by apply Hu.
Qed.
Lemma same_upto_newest log log' k lo hi p : same_upto log log' k -> 0 <= lo <= hi -> hi <= k -> k <= zlen log -> k <= zlen log' ->
  newest_frame log (lo + 1) hi p = newest_frame log' (lo + 1) hi p.
Proof.
  intros Hs H1 H2 H3 H4.
  destruct (newest_frame_cases log lo hi p H1 ltac:(lia)) as [[-> Hu]|(r & -> & Hr & Ep & Hu)].
  - symmetry. apply newest_frame_zero; [lia|lia|]. apply (same_upto_untouched log log' k); [done|lia|lia|done].
  - destruct (newest_frame_cases log' lo hi p H1 ltac:(lia)) as [[-> Hu']|(r' & -> & Hr' & Ep' & Hu')].
    + apply (same_upto_untouched log log' k) in Hu'; [|done|lia|lia]. by destruct (Hu' r).
    + apply (same_upto_untouched log log' k) in Hu'; [|done|lia|lia]. rewrite <- (same_upto_frame log log' k) in Ep' by (done || lia).
      destruct (Z.lt_trichotomy r r') as [Hlt|[->|Hlt]]; [|done|].
      * by destruct (Hu r'); [lia|].
      * by destruct (Hu' r); [lia|].
Qed.

Lemma log_put_length log i (f : frame) : 1 <= i -> i <= zlen log + 1 -> zlen (log_put log i f) = Z.max (zlen log) i.
Proof.
  intros Hi Hl. unfold log_put, zlen in *. rewrite !length_app, length_take, length_drop, length_app, length_replicate. cbn. lia.
Qed.
Lemma log_put_same log i (f : frame) k : 0 <= k < i -> k <= zlen log -> i <= zlen log + 1 -> same_upto log (log_put log i f) k.
Proof.
  intros Hk Hl Hi. unfold same_upto, log_put, zlen in *.
  rewrite take_app_le by (rewrite length_take, length_app, length_replicate; lia).
  rewrite take_take, take_app_le by lia. f_equal. lia.
Qed.
Lemma log_put_frame log i (f : frame) j : 1 <= i <= zlen log + 1 -> 1 <= j -> j <= zlen log \/ j = i ->
  log_frame (log_put log i f) j = if j =? i then f else log_frame log j.
Proof.
  intros Hi Hj Hb. unfold log_frame, zget, zlookup, log_put, zlen in *. rewrite (proj2 (Z.leb_le _ _)) by lia.
  assert (El : length (take (Z.to_nat (i - 1)) (log ++ replicate (Z.to_nat (i - 1)) inhabitant)) = Z.to_nat (i - 1))
    by (rewrite length_take, length_app, length_replicate; lia).
  destruct (Z.eqb_spec j i) as [->|Hne].
  - rewrite lookup_app_r by lia. rewrite El, Nat.sub_diag. done.
  - destruct (Z.lt_ge_cases j i).
    + rewrite lookup_app_l by lia. rewrite lookup_take_lt, lookup_app_l by lia. done.
    + rewrite lookup_app_r by lia. rewrite El. cbn [app].
      replace (Z.to_nat (j - 1) - Z.to_nat (i - 1))%nat with (S (Z.to_nat (j - 1) - S (Z.to_nat (i - 1))))%nat by lia.
      rewrite lookup_cons. cbn iota. rewrite lookup_drop. do 2 f_equal. lia.
Qed.
End frames.

(** ** Claims *)

(** A published header: the generation of the log it belongs to (the number of restarts
    before it) and the database it stands for. *)
Record snap := mkSnap { s_hdr : WalIndexHdr; s_gen : Z; s_img : gmap Z page }.
Definition s_mx (s : snap) : Z := h_mxFrame (s_hdr s).

(** How a reader protects its snapshot: not at all, by read lock 0 (all pages come from
    the database file), or by read lock [j], with the frames up to [F0] known to be in
    the database file.  [RPend] is a reader that has lock [j] but has not yet found the
    header unchanged; [F0] and the mark of the slot were looked at or not. *)
Inductive reading := RNone | RZero | RPend (j : Z) (F0 : option Z) (mk : bool) | RLog (j F0 : Z).

(** How far a checkpoint has got: looking at the read marks from slot [i] on, with the
    mark of slot [i] if it was just loaded, the last frame copied when it is known that
    more are left, and the iterator; or copying the frames from [b] to [sf], with the pages left and the content
    of the first of them if it was read. *)
Inductive ckpt :=
| CNone
| CScan (sf i : Z) (y ob : option Z) (it : option (list (Z * Z)))
| CFill (sf b : Z) (todo : list (Z * Z)) (full : bool) (cur : option page).

(** The page number, commit mark and content of a frame. *)
Definition core (f : frame) : Z * Z * page := (f_pgno f, f_nTrunc f, f_data f).

Record claim := mkClaim {
  lk : Z -> lock_mode;                      (** the locks held *)
  sn : option snap;                         (** a header that was read *)
  bf : bool;                                (** all its frames were seen to be copied *)
  rd : reading;
  loc : option (Z * Z);                     (** a page and its frame, as looked up *)
  wr : option (list (Z * Z * page));        (** the frames of the write transaction *)
  rs : bool;                                (** the log is being restarted *)
  al : bool;                                (** the whole log was seen to be copied *)
  ck : ckpt
}.
Definition idle : claim := mkClaim (fun _ => Free) None false RNone None None false false CNone.

(** What the proof knows about the shared world: the generation of the log, the database
    at its start, the last frame copied and the last frame any checkpoint looked at. *)
Record ghost := mkGhost { g_gen : Z; g_base : gmap Z page; g_B : Z; g_A : Z }.

Definition READ0 : Z := WAL_READ_LOCK 0.
Definition log_slots_ex (k : claim) : Prop := forall j, 1 <= j <= 4 -> lk k (WAL_READ_LOCK j) = Ex.

Section invariant.
Context {L : Type} {LM : LockManager L} {LL : LockLaws L}.
Implicit Types (w : world L) (g : ghost) (k : claim) (cl : Z -> claim).

Definition gview w g (n : Z) : gmap Z page := view (g_base g) (w_log w) n.

(** The pages of [img] that no frame in [(lo, hi]] holds are in the database file. *)
Definition covered w (img : gmap Z page) (lo hi : Z) : Prop :=
  forall p d, untouched (w_log w) lo hi p -> img !! p = Some d -> w_db w !! p = Some d.

Definition sn_ok w g (s : snap) : Prop :=
  (s_hdr s, s_img s) ∈ w_hist w /\ 0 <= s_gen s <= g_gen g /\ 0 <= s_mx s /\
  (s_gen s = g_gen g -> s_mx s <= mxFrame w /\ s_img s = gview w g (s_mx s) /\ (s_mx s = mxFrame w -> s_hdr s = w_live w)) /\
  (s_gen s < g_gen g -> h_aSalt (s_hdr s) <> h_aSalt (w_live w)).

Definition rd_ok w g k (s : snap) : Prop :=
  match rd k with
  | RNone => True
  | RZero => lk k READ0 = Sh /\ covered w (s_img s) 0 0 /\ (s_gen s = g_gen g -> s_mx s <= g_B g)
  | RPend j F0 mk =>
      1 <= j <= 4 /\ lk k (WAL_READ_LOCK j) = Sh /\
      match F0 with Some f => 0 <= f /\ (s_gen s = g_gen g -> f <= g_B g) | None => True end /\
      (mk = true -> (aReadMark (w_info w)).[j] <= s_mx s)
  | RLog j F0 =>
      1 <= j <= 4 /\ lk k (WAL_READ_LOCK j) = Sh /\ s_gen s = g_gen g /\ 0 <= F0 <= g_B g /\
      F0 <= s_mx s /\ (aReadMark (w_info w)).[j] <= s_mx s /\ covered w (s_img s) F0 (s_mx s)
  end.
Definition loc_ok w k (s : snap) : Prop :=
  match loc k, rd k with
  | Some (p, f), RLog j F0 => newest_frame (w_log w) (F0 + 1) (s_mx s) p = f
  | _, _ => True
  end.
Definition wr_ok w g k (s : snap) : Prop :=
  match wr k with
  | None => True
  | Some fr => lk k WAL_WRITE_LOCK = Ex /\ s_hdr s = w_live w /\ s_gen s = g_gen g /\
      mxFrame w + zlen fr <= zlen (w_log w) /\ map core (slice (w_log w) (mxFrame w) (zlen fr)) = fr
  end.
Definition al_ok w g k : Prop := al k = true -> wr k <> None /\ lk k WAL_CKPT_LOCK = Ex /\ g_B g = mxFrame w.
Definition rs_ok w g k : Prop := rs k = true -> lk k WAL_WRITE_LOCK = Ex /\ log_slots_ex k /\
  (lk k READ0 = Sh \/ lk k WAL_CKPT_LOCK = Ex) /\ g_B g = 0 /\ mxFrame w = 0.

(** The iterator holds each page with its newest frame, and all those that may have to be
    copied. *)
Definition iter_ok w (m b : Z) (it : list (Z * Z)) : Prop :=
  (forall p f, (p, f) ∈ it -> f = newest_frame (w_log w) 1 m p /\ 0 < f) /\
  (forall p, b < newest_frame (w_log w) 1 m p -> (p, newest_frame (w_log w) 1 m p) ∈ it).
Definition ck_ok w g k (s : snap) : Prop :=
  match ck k with
  | CNone => True
  | CScan sf i y ob it => lk k WAL_CKPT_LOCK = Ex /\
      (s_gen s = g_gen g -> g_A g <= s_mx s /\ sf <= s_mx s /\
         match ob with Some b => g_B g = b /\ b < sf | None => True end /\
         match it with Some l => iter_ok w (s_mx s) (g_B g) l | None => True end)
  | CFill sf b todo full cur => lk k WAL_CKPT_LOCK = Ex /\ lk k READ0 = Ex /\ s_gen s = g_gen g /\ g_A g = s_mx s /\
      g_B g = b /\ b < sf <= s_mx s /\ (full = true -> sf = s_mx s) /\
      (forall p f, (p, f) ∈ todo -> f = newest_frame (w_log w) 1 (s_mx s) p /\ 0 < f) /\
      (forall p, let f := newest_frame (w_log w) 1 (s_mx s) p in b < f <= sf -> p <= h_nPage (s_hdr s) ->
         (p, f) ∈ todo \/ w_db w !! p = Some (f_data (log_frame (w_log w) f))) /\
      match cur, todo with Some d, (p, f) :: _ => d = f_data (log_frame (w_log w) f) | _, _ => True end
  end.

(** Everything but the locks is about a header that was read. *)
Definition conn_ok w g k : Prop :=
  match sn k with
  | None => bf k = false /\ rd k = RNone /\ wr k = None /\ al k = false /\ ck k = CNone
  | Some s => sn_ok w g s /\ (bf k = true -> s_gen s = g_gen g -> s_mx s <= g_B g) /\
      rd_ok w g k s /\ loc_ok w k s /\ wr_ok w g k s /\ ck_ok w g k s
  end /\ al_ok w g k /\ rs_ok w g k.

(** A checkpoint does not copy past what a reader of the log protects. *)
Definition ck_reader g k1 k2 : Prop :=
  forall s1 s2 j F0, sn k1 = Some s1 -> sn k2 = Some s2 -> rd k2 = RLog j F0 -> s_gen s1 = g_gen g ->
  match ck k1 with
  | CNone => True
  | CScan sf i y _ _ => s_mx s1 <= s_mx s2 \/ sf <= s_mx s2 \/ (i <= j /\ (j = i -> forall y', y = Some y' -> y' <= s_mx s2))
  | CFill sf _ _ _ _ => sf <= s_mx s2
  end.

Definition event_ok w (e : event) : Prop :=
  match e with
  | EvRead h p d => exists img, (h, img) ∈ w_hist w /\ forall d', img !! p = Some d' -> d = Some d'
  end.

Record inv_at w g cl : Prop := {
  i_locks : lk_ok (w_locks w);
  i_lk : forall c s, lk_conn c = true -> lk_mode (w_locks w) c s = lk (cl c) s;
  i_idle : forall c, lk_conn c = false -> cl c = idle;
  i_bounds : 0 <= g_B g <= g_A g /\ g_A g <= mxFrame w <= zlen (w_log w) /\ g_B g <= nBackfill (w_info w) /\ 0 <= g_gen g;
  i_marks : zlen (aReadMark (w_info w)) = 5;
  i_backfill : nBackfill (w_info w) = g_B g \/ exists c, rs (cl c) = true;
  i_last : last (w_hist w) = Some (w_live w, gview w g (mxFrame w));
  i_dom : forall h img p d, (h, img) ∈ w_hist w -> img !! p = Some d -> p <= h_nPage h;
  i_salt : forall h img, (h, img) ∈ w_hist w -> zlen (h_aSalt h) = 8;
  i_uniq : forall h img img', (h, img) ∈ w_hist w -> (h, img') ∈ w_hist w -> img = img';
  i_gen : forall h img, (h, img) ∈ w_hist w -> h_aSalt h = h_aSalt (w_live w) -> h_mxFrame h <= mxFrame w;
  i_db : covered w (gview w g (g_A g)) (g_B g) (g_A g);
  i_trace : forall c e, (c, e) ∈ w_trace w -> event_ok w e;
  i_conn : forall c, conn_ok w g (cl c);
  i_ck : forall c1 c2, ck_reader g (cl c1) (cl c2)
}.
Definition inv w cl : Prop := exists g, inv_at w g cl.

(** ** Programs against claims *)

Lemma inv_ext w cl cl' : (forall c, cl c = cl' c) -> inv w cl -> inv w cl'.
Proof.
  intros E [g []]. exists g. split; try done.
  - intros. rewrite <- E. auto.
  - intros. rewrite <- E. auto.
  - destruct i_backfill0 as [|[c ?]]; [by left|]. right. exists c. by rewrite <- E.
  - intros. rewrite <- E. auto.
  - intros. rewrite <- !E. auto.
Qed.

(** Connection [c] may replace its claim [k] by [k']. *)
Definition upd (c : Z) k k' : Prop := forall w cl, inv w cl -> cl c = k -> inv w (<[c := k']> cl).

(** From claim [k], every run of the program keeps the invariant, whatever the others do
    in between, and ends with a result and a claim in [Q]. *)
Fixpoint wp {A} (c : Z) (p : prog A) (Q : A -> claim -> Prop) (k : claim) : Prop :=
  match p with
  | Ret a => exists k', upd c k k' /\ Q a k'
  | Act a f => forall w cl o, inv w cl -> cl c = k -> salts_fresh a w ->
      exists k', inv (snd (exec o c a w)) (<[c := k']> cl) /\ wp c (f (fst (exec o c a w))) Q k'
  end.

Lemma upd_refl c k : upd c k k.
Proof.
  intros w cl Hi Hc. eapply inv_ext; [|done]. intros c'. destruct (decide (c' = c)) as [->|Hne].
  - by rewrite fn_lookup_insert.
  - by rewrite fn_lookup_insert_ne.
Qed.
Lemma upd_insert c k k' w cl : inv w (<[c := k']> (<[c := k]> cl)) -> inv w (<[c := k']> cl).
Proof.
  apply inv_ext. intros c'. destruct (decide (c' = c)) as [->|Hne].
  - by rewrite !fn_lookup_insert.
  - by rewrite !fn_lookup_insert_ne.
Qed.
Lemma wp_upd {A} c (p : prog A) Q k k' : upd c k k' -> wp c p Q k' -> wp c p Q k.
Proof.
  intros Hu. destruct p as [a|B a f]; cbn [wp].
  - intros (k2 & Hu2 & HQ). exists k2. split; [|done]. intros w cl Hi Hc. apply (upd_insert c k').
    apply Hu2; [by apply Hu|apply fn_lookup_insert].
  - intros H w cl o Hi Hc Hs. destruct (H w (<[c := k']> cl) o) as (k2 & Hi2 & Hw); [by apply Hu|apply fn_lookup_insert|done|].
    exists k2. split; [|done]. by apply upd_insert in Hi2.
Qed.
Lemma wp_ret {A} c (a : A) (Q : A -> claim -> Prop) k : Q a k -> wp c (Ret a) Q k.
Proof. intros H. exists k. split; [apply upd_refl|done]. Qed.
Lemma wp_mono {A} c (p : prog A) (Q Q' : A -> claim -> Prop) k :
  (forall a k', Q a k' -> Q' a k') -> wp c p Q k -> wp c p Q' k.
Proof.
  intros HQ. revert k. induction p as [a|B a f IH]; intros k; cbn [wp]; [intros (k' & ? & ?); eauto|].
  intros H w cl o Hi Hc Hs. destruct (H w cl o Hi Hc Hs) as (k' & Hi' & Hw). eauto.
Qed.
Lemma wp_bind {A C} c (p : prog A) (f : A -> prog C) Q k :
  wp c p (fun a k' => wp c (f a) Q k') k -> wp c (p ≫= f) Q k.
Proof.
  revert k. induction p as [a|B a g IH]; intros k.
  - intros (k' & Hu & Hw). by eapply wp_upd.
  - cbn [wp]. intros H w cl o Hi Hc Hs.
    destruct (H w cl o Hi Hc Hs) as (k' & Hi' & Hw). exists k'. split; [done|]. by apply IH.
Qed.

(** A single action. *)
Definition triple {B} (c : Z) (k : claim) (a : op B) (Q : B -> claim -> Prop) : Prop := wp c (do_ a) Q k.
Lemma triple_intro {B} c k (a : op B) (Q : B -> claim -> Prop) :
  (forall w cl o, inv w cl -> cl c = k -> salts_fresh a w ->
     exists k', inv (snd (exec o c a w)) (<[c := k']> cl) /\ Q (fst (exec o c a w)) k') -> triple c k a Q.
Proof.
  intros H w cl o Hi Hc Hs. destruct (H w cl o Hi Hc Hs) as (k' & Hi' & HQ). exists k'. split; [done|]. by apply wp_ret.
Qed.

(** Two connections never hold what excludes each other. *)
Lemma locks_apart w g cl c c' s : inv_at w g cl -> lk (cl c) s = Ex -> c' <> c -> lk (cl c') s = Free.
Proof.
  intros Hi He Hne. destruct (lk_conn c) eqn:Ec; [|by rewrite (i_idle _ _ _ Hi c Ec) in He].
  destruct (lk_conn c') eqn:Ec'; [|by rewrite (i_idle _ _ _ Hi c' Ec')].
  rewrite <- (i_lk _ _ _ Hi c') by done. rewrite <- (i_lk _ _ _ Hi c) in He by done.
  by apply (lk_exclusive _ c c' s (i_locks _ _ _ Hi)).
Qed.
Lemma one_holder w g cl c c' s : inv_at w g cl -> lk (cl c) s = Ex -> lk (cl c') s <> Free -> c' = c.
Proof. intros Hi He Hf. destruct (decide (c' = c)); [done|]. by destruct Hf; eapply locks_apart. Qed.
End invariant.

Section actions.
Context {L : Type} {LM : LockManager L} {LL : LockLaws L}.
Implicit Types (w : world L) (g : ghost) (k : claim) (cl : Z -> claim).

Lemma upd_eq cl c k : <[c := k]> cl c = k.
Proof. apply fn_lookup_insert. Qed.
Lemma upd_ne cl c k c' : c' <> c -> <[c := k]> cl c' = cl c'.
Proof. intros H. by apply fn_lookup_insert_ne. Qed.
Lemma upd_cases cl c k (P : Z -> claim -> Prop) :
  P c k -> (forall c', c' <> c -> P c' (cl c')) -> forall c', P c' (<[c := k]> cl c').
Proof.
  intros H1 H2 c'. destruct (decide (c' = c)) as [->|Hne]; [by rewrite upd_eq|]. rewrite upd_ne by done. auto.
Qed.
Lemma upd_pairs cl c k (P : claim -> claim -> Prop) :
  P k k -> (forall c', c' <> c -> P k (cl c') /\ P (cl c') k) -> (forall c1 c2, P (cl c1) (cl c2)) ->
  forall c1 c2, P (<[c := k]> cl c1) (<[c := k]> cl c2).
Proof.
  intros H1 H2 H3 c1 c2. destruct (decide (c1 = c)) as [->|E1], (decide (c2 = c)) as [->|E2];
    rewrite ?upd_eq, ?upd_ne by done; [done|by apply H2|by apply H2|auto].
Qed.

(** A reader of the log is bound by the copying of every checkpoint; a connection that
    copies is no reader. *)
Lemma ck_reader_none1 g k1 k2 : ck k1 = CNone -> ck_reader g k1 k2.
Proof. intros E s1 s2 j F0 _ _ _ _. by rewrite E. Qed.
Lemma ck_reader_none2 g k1 k2 : (forall j F0, rd k2 <> RLog j F0) -> ck_reader g k1 k2.
Proof. intros E s1 s2 j F0 _ _ Er _. by destruct (E j F0). Qed.
Lemma ck_reader_same1 g k1 k1' k2 : sn k1 = sn k1' -> ck k1 = ck k1' -> ck_reader g k1 k2 -> ck_reader g k1' k2.
Proof. unfold ck_reader. intros -> ->. done. Qed.
Lemma ck_reader_same2 g k1 k2 k2' : sn k2 = sn k2' -> rd k2 = rd k2' -> ck_reader g k1 k2 -> ck_reader g k1 k2'.
Proof. unfold ck_reader. intros -> ->. done. Qed.

(** Only the claim of connection [c] changes. *)
Lemma inv_claim w g cl c k' : inv_at w g cl -> lk_conn c = true ->
  (forall s, lk k' s = lk (cl c) s) -> rs k' = rs (cl c) -> conn_ok w g k' ->
  ck_reader g k' k' -> (forall c', c' <> c -> ck_reader g k' (cl c') /\ ck_reader g (cl c') k') ->
  inv_at w g (<[c := k']> cl).
Proof.
  intros [] Hc Hlk Hrs Hk Hs Ho. split; try done.
  - intros c' s. pattern c', (<[c := k']> cl c'). apply upd_cases; [rewrite Hlk; auto|auto].
  - intros c' Hc'. rewrite upd_ne; [auto|congruence].
  - destruct i_backfill0 as [|[c' Hr]]; [by left|right]. exists c'. destruct (decide (c' = c)) as [->|Hne].
    + by rewrite upd_eq, Hrs.
    + by rewrite upd_ne.
  - intros c'. pattern c', (<[c := k']> cl c'). apply upd_cases; [done|auto].
  - by apply upd_pairs.
Qed.

(** What a connection may forget or keep when it neither copies nor starts to read. *)
Lemma inv_claim_quiet w g cl c k' : inv_at w g cl -> lk_conn c = true ->
  (forall s, lk k' s = lk (cl c) s) -> rs k' = rs (cl c) -> conn_ok w g k' ->
  ck k' = CNone \/ (sn k' = sn (cl c) /\ ck k' = ck (cl c)) ->
  (forall j F0, rd k' <> RLog j F0) \/ (sn k' = sn (cl c) /\ rd k' = rd (cl c)) ->
  ck_reader g k' k' -> inv_at w g (<[c := k']> cl).
Proof.
  intros Hi Hc Hlk Hrs Hk Hck Hrd Hs. apply inv_claim; [done..|]. intros c' Hne. pose proof (i_ck _ _ _ Hi) as Hi'. split.
  - destruct Hck as [E|[E1 E2]]; [by apply ck_reader_none1|]. by apply (ck_reader_same1 g (cl c)).
  - destruct Hrd as [E|[E1 E2]]; [by apply ck_reader_none2|]. by apply (ck_reader_same2 g _ (cl c)).
Qed.

(** The header just published, as a snapshot. *)
Definition live_snap w g : snap := mkSnap (w_live w) (g_gen g) (gview w g (mxFrame w)).
Lemma live_snap_ok w g cl : inv_at w g cl -> sn_ok w g (live_snap w g).
Proof.
  intros []. unfold sn_ok, live_snap, s_mx. cbn. split; [|split; [lia|split; [unfold mxFrame in *; lia|split; [|lia]]]].
  - by apply last_Some_elem_of.
  - intros _. split; [reflexivity|]. done.
Qed.
Lemma sn_live w g s : sn_ok w g s -> s_hdr s = w_live w -> s_gen s = g_gen g.
Proof.
  intros (_ & Hg & _ & _ & Hlt) E. destruct (decide (s_gen s = g_gen g)); [done|]. destruct (Hlt ltac:(lia)). by rewrite E.
Qed.
Lemma sn_img w g s : sn_ok w g s -> s_gen s = g_gen g -> s_img s = gview w g (s_mx s).
Proof. intros (_ & _ & _ & H & _) E. by apply H. Qed.

(** *** Actions that only read *)

Lemma triple_read {B} c k (a : op B) (Q : B -> claim -> Prop) :
  (forall o w, snd (exec o c a w) = w) ->
  (forall w g cl o, inv_at w g cl -> cl c = k -> exists k', inv w (<[c := k']> cl) /\ Q (fst (exec o c a w)) k') ->
  triple c k a Q.
Proof.
  intros Hw H. apply triple_intro. intros w cl o [g Hi] Hc _. rewrite Hw. by apply (H w g).
Qed.
(** Nothing is learnt. *)
Lemma inv_same w g cl c : inv_at w g cl -> inv_at w g (<[c := cl c]> cl).
Proof.
  intros Hi. assert (E : forall c', <[c := cl c]> cl c' = cl c').
  { intros c'. destruct (decide (c' = c)) as [->|]; [by rewrite upd_eq|by rewrite upd_ne]. }
  destruct Hi. split; try done.
  - intros. rewrite E. auto.
  - intros. rewrite E. auto.
  - destruct i_backfill0 as [|[c' ?]]; [by left|right]. exists c'. by rewrite E.
  - intros. rewrite E. auto.
  - intros. rewrite !E. auto.
Qed.
Lemma triple_skip {B} c k (a : op B) (Q : B -> claim -> Prop) :
  (forall o w, snd (exec o c a w) = w) -> (forall x, Q x k) -> triple c k a Q.
Proof.
  intros Hw HQ. apply triple_read; [done|]. intros w g cl o Hi Hc. exists k. split; [|done]. exists g. rewrite <- Hc. by apply inv_same.
Qed.

(** *** Locks *)

Definition with_lk k (s n : Z) (m : lock_mode) : claim :=
  mkClaim (fun i => if in_range s n i then m else lk k i) (sn k) (bf k) (rd k) (loc k) (wr k) (rs k) (al k) (ck k).

Lemma in_range_true s n i : in_range s n i = true <-> s <= i < s + n.
Proof. unfold in_range. rewrite andb_true_iff, Z.leb_le, Z.ltb_lt. done. Qed.

Lemma inv_locks w g cl c k' s n m l' : inv_at w g cl -> lk_conn c = true -> lk_ok l' -> set_mode (w_locks w) c s n m l' ->
  (forall i, lk k' i = if in_range s n i then m else lk (cl c) i) -> rs k' = rs (cl c) -> conn_ok w g k' ->
  sn k' = sn (cl c) -> ck k' = ck (cl c) -> rd k' = rd (cl c) -> inv_at (set_locks w l') g (<[c := k']> cl).
Proof.
  intros Hi Hc Hok Hset Hlk Hrs Hk Esn Eck Erd. pose proof (i_ck _ _ _ Hi) as Hck. destruct Hi. split; try done.
  - cbn. intros c' i Hc'. rewrite (Hset c' i Hc'). destruct (Z.eqb_spec c' c) as [->|Hne]; cbn [andb].
    + rewrite upd_eq, Hlk. destruct (in_range s n i); [done|auto].
    + rewrite upd_ne by done. auto.
  - intros c' Hc'. rewrite upd_ne; [auto|congruence].
  - destruct i_backfill0 as [|[c' Hr]]; [by left|right]. exists c'. destruct (decide (c' = c)) as [->|Hne].
    + by rewrite upd_eq, Hrs.
    + by rewrite upd_ne.
  - intros c'. pattern c', (<[c := k']> cl c'). apply upd_cases; [done|]. intros c'' _. apply i_conn0.
  - apply upd_pairs; [| |done].
    + apply (ck_reader_same1 g (cl c)); [done..|]. by apply (ck_reader_same2 g _ (cl c)).
    + intros c' _. split; [by apply (ck_reader_same1 g (cl c))|by apply (ck_reader_same2 g _ (cl c))].
Qed.

(** A claim survives when the connection gains locks. *)
Lemma conn_ok_gain w g k s n m : (forall i, s <= i < s + n -> lk k i = Free) -> conn_ok w g k -> conn_ok w g (with_lk k s n m).
Proof.
  intros Hfree.
  assert (Hkeep : forall i x, x <> Free -> lk k i = x -> lk (with_lk k s n m) i = x).
  { intros i x Hx E. cbn. destruct (in_range s n i) eqn:Er; [|done]. apply in_range_true in Er. rewrite Hfree in E by done. congruence. }
  intros (Hsn & Hal & Hrs). split; [|split].
  - cbn [sn with_lk]. destruct (sn k) as [s0|]; [|done]. destruct Hsn as (H1 & H2 & H3 & H4 & H5 & H6). split; [done|]. split; [done|].
    split; [|split; [done|split]].
    + unfold rd_ok in *. cbn [rd with_lk]. destruct (rd k); [done|..].
      * destruct H3 as (? & ? & ?). split; [by apply Hkeep|done].
      * destruct H3 as (? & ? & ?). split; [done|]. split; [by apply Hkeep|done].
      * destruct H3 as (? & ? & ?). split; [done|]. split; [by apply Hkeep|done].
    + unfold wr_ok in *. cbn [wr with_lk]. destruct (wr k); [|done]. destruct H5 as (? & ?). split; [by apply Hkeep|done].
    + unfold ck_ok in *. cbn [ck with_lk]. destruct (ck k); [done|..].
      * destruct H6 as (? & ?). split; [by apply Hkeep|done].
      * destruct H6 as (? & ? & ?). split; [by apply Hkeep|]. split; [by apply Hkeep|done].
  - intros E. destruct (Hal E) as (? & ? & ?). split; [done|]. split; [by apply Hkeep|done].
  - intros E. destruct (Hrs E) as (? & H2 & H3 & ?). split; [by apply Hkeep|]. split; [intros j Hj; apply Hkeep; [done|by apply H2]|].
    split; [|done]. destruct H3; [left|right]; by apply Hkeep.
Qed.

Lemma t_lock_shared c k s (Q : Z -> claim -> Prop) : lk_conn c = true -> 0 <= s < 8 -> lk k s = Free ->
  Q SQLITE_OK (with_lk k s 1 Sh) -> Q SQLITE_BUSY k -> triple c k (LockShared s) Q.
Proof.
  intros Hc Hs Hf Q1 Q2. apply triple_intro. intros w cl o [g Hi] Ek _. cbn [exec].
  pose proof (lk_lock_shared (w_locks w) c s (i_locks _ _ _ Hi) Hc Hs) as Hl.
  rewrite (i_lk _ _ _ Hi), Ek in Hl by done. specialize (Hl Hf). destruct (xShmLock _ _ _ _ _) as [rc l'].
  destruct Hl as [(-> & Hok & Hset)|(-> & ->)]; cbn [fst snd].
  - exists (with_lk k s 1 Sh). split; [|done]. exists g. eapply inv_locks; try done; try (by rewrite Ek).
    apply conn_ok_gain; [intros i Hi'; by replace i with s by lia|]. rewrite <- Ek. apply (i_conn _ _ _ Hi).
  - exists k. split; [|done]. exists g. rewrite <- Ek. apply inv_same. by destruct w.
Qed.
Lemma t_lock_exclusive c k s n (Q : Z -> claim -> Prop) : lk_conn c = true -> 0 <= s -> s + n <= 8 ->
  (forall i, s <= i < s + n -> lk k i = Free) ->
  Q SQLITE_OK (with_lk k s n Ex) -> Q SQLITE_BUSY k -> triple c k (LockExclusive s n) Q.
Proof.
  intros Hc Hs Hn Hf Q1 Q2. apply triple_intro. intros w cl o [g Hi] Ek _. cbn [exec].
  pose proof (lk_lock_exclusive (w_locks w) c s n (i_locks _ _ _ Hi) Hc Hs Hn) as Hl.
  setoid_rewrite (i_lk _ _ _ Hi) in Hl; [|done]. rewrite Ek in Hl. specialize (Hl Hf). destruct (xShmLock _ _ _ _ _) as [rc l'].
  destruct Hl as [(-> & Hok & Hset)|(-> & ->)]; cbn [fst snd].
  - exists (with_lk k s n Ex). split; [|done]. exists g. eapply inv_locks; try done; try (by rewrite Ek).
    apply conn_ok_gain; [done|]. rewrite <- Ek. apply (i_conn _ _ _ Hi).
  - exists k. split; [|done]. exists g. rewrite <- Ek. apply inv_same. by destruct w.
Qed.

(** Unlocking: the claim must not need the lock any more. *)
Lemma unlock_triple c k s n flags w cl : lk_conn c = true -> 0 <= s -> s + n <= 8 ->
  flags = UNLOCK_SHARED \/ flags = UNLOCK_EXCLUSIVE -> inv w cl -> cl c = k ->
  (forall w g, conn_ok w g k -> conn_ok (L := L) w g (with_lk k s n Free)) ->
  inv (set_locks w (snd (xShmLock (w_locks w) c s n flags))) (<[c := with_lk k s n Free]> cl).
Proof.
  intros Hc Hs Hn Hfl [g Hi] Ek Hk. exists g. pose proof (lk_unlock (w_locks w) c s n flags (i_locks _ _ _ Hi) Hc Hs Hn Hfl) as Hl.
  destruct (xShmLock _ _ _ _ _) as [rc l']. destruct Hl as [Hok Hset]. cbn [snd].
  eapply inv_locks; try done; try (by rewrite Ek). apply Hk. rewrite <- Ek. apply (i_conn _ _ _ Hi).
Qed.
Lemma t_unlock_shared c k s (Q : unit -> claim -> Prop) : lk_conn c = true -> 0 <= s < 8 ->
  (forall w g, conn_ok w g k -> conn_ok (L := L) w g (with_lk k s 1 Free)) ->
  Q tt (with_lk k s 1 Free) -> triple c k (UnlockShared s) Q.
Proof.
  intros Hc Hs Hk HQ. apply triple_intro. intros w cl o Hi Ek _. exists (with_lk k s 1 Free).
  pose proof (unlock_triple c k s 1 UNLOCK_SHARED w cl Hc ltac:(lia) ltac:(lia) (or_introl eq_refl) Hi Ek Hk) as H.
  cbn [exec]. destruct (xShmLock _ _ _ _ _) as [rc l']. done.
Qed.
Lemma t_unlock_exclusive c k s n (Q : unit -> claim -> Prop) : lk_conn c = true -> 0 <= s -> s + n <= 8 ->
  (forall w g, conn_ok w g k -> conn_ok (L := L) w g (with_lk k s n Free)) ->
  Q tt (with_lk k s n Free) -> triple c k (UnlockExclusive s n) Q.
Proof.
  intros Hc Hs Hn Hk HQ. apply triple_intro. intros w cl o Hi Ek _. exists (with_lk k s n Free).
  pose proof (unlock_triple c k s n UNLOCK_EXCLUSIVE w cl Hc ltac:(lia) ltac:(lia) (or_intror eq_refl) Hi Ek Hk) as H.
  cbn [exec]. destruct (xShmLock _ _ _ _ _) as [rc l']. done.
Qed.
End actions.
