(* ===== verification/WalLink.v ===== *)
(** The shared tables behind two actions of [WalTxn].

    A transaction looks frames up with [FindFrame] and a checkpoint gets its work from
    [IterPages], both defined on the list of frames.  Here these answers are shown to be
    those of the hash tables of [WalIndex] and of the merging iterator of [WalIter]. *)

From Stdlib Require Import Sorted.
From stdpp Require Import sorting.
From S2P Require Import Prelude WalIndex WalLog WalIter WalLocks WalTxn WalClaims.

(** Sorted lists without duplicates are determined by their elements. *)
Lemma sorted_elements {A} (k : A -> Z) (l l' : list A) :
  StronglySorted (fun x y => k x < k y) l -> StronglySorted (fun x y => k x < k y) l' ->
  (forall x, x ∈ l <-> x ∈ l') -> l = l'.
Proof.
  intros Hl. revert l'. induction Hl as [|x l Hl IH Hx]; intros [|y l'] Hl' He.
  - done.
  - exfalso. apply (not_elem_of_nil y), He. by left.
  - exfalso. apply (not_elem_of_nil x), He. by left.
  - inversion Hl' as [|? ? Hl2 Hy]; subst. rewrite Forall_forall in Hx, Hy.
    assert (x = y) as ->.
    { pose proof (proj1 (He x) (list_elem_of_here _ _)) as [E|E]%elem_of_cons; [done|].
      pose proof (proj2 (He y) (list_elem_of_here _ _)) as [E'|E']%elem_of_cons; [done|]. specialize (Hx _ E'). specialize (Hy _ E). lia. }
    f_equal. apply IH; [done|]. intros z. specialize (He z). rewrite !elem_of_cons in He. split; intros Hz.
    + destruct (proj1 He (or_intror Hz)) as [->|]; [|done]. specialize (Hx _ Hz). lia.
    + destruct (proj2 He (or_intror Hz)) as [->|]; [|done]. specialize (Hy _ Hz). lia.
Qed.

Section link.
Implicit Types (log : list frame).

Lemma log_pages_len log : zlen (log_pages log) = zlen log.
Proof. unfold log_pages, zlen. by rewrite length_map. Qed.

(** The lookup on the list is the one of [WalIndex]. *)
Lemma newest_frame_newest log lo hi p : 1 <= lo <= hi -> hi <= zlen log -> newest (log_pages log) lo hi p (newest_frame log lo hi p).
Proof.
  intros Hlo Hhi. destruct (newest_frame_cases log (lo - 1) hi p ltac:(lia) Hhi) as [[E Hu]|(r & E & Hr & Ep & Hu)];
    replace (lo - 1 + 1) with lo in E by lia; rewrite E.
  - left. split; [done|]. intros f Hf. rewrite pages_frame by lia. apply Hu. lia.
  - right. split; [lia|]. split; [lia|]. split; [by rewrite pages_frame by lia|]. intros f Hf. rewrite pages_frame by lia. apply Hu. lia.
Qed.

Lemma elem_pages log m p : 0 <= m <= zlen log -> p ∈ log_pages (take (Z.to_nat m) log) <-> exists f, 1 <= f <= m /\ f_pgno (log_frame log f) = p.
Proof.
  intros Hm. unfold log_pages. change (map f_pgno ?l) with (f_pgno <$> l). rewrite list_elem_of_fmap. unfold log_frame, zget, zlookup, zlen in *. split.
  - intros (x & -> & [i Hi]%list_elem_of_lookup). pose proof (lookup_lt_Some _ _ _ Hi) as Hlt. rewrite length_take in Hlt.
    rewrite lookup_take_lt in Hi by lia. exists (Z.of_nat i + 1). split; [lia|]. rewrite (proj2 (Z.leb_le _ _)) by lia.
    replace (Z.to_nat (Z.of_nat i + 1 - 1)) with i by lia. by rewrite Hi.
  - intros (f & Hf & <-). rewrite (proj2 (Z.leb_le _ _)) by lia.
    destruct (lookup_lt_is_Some_2 log (Z.to_nat (f - 1)) ltac:(lia)) as [x Hx]. rewrite Hx. exists x. split; [done|].
    apply list_elem_of_lookup. exists (Z.to_nat (f - 1)). by rewrite lookup_take_lt by lia.
Qed.
Lemma iter_pages_elem log b m p f : 0 <= m <= zlen log -> 0 <= iZero (walFramePage (b + 1)) ->
  (p, f) ∈ iter_pages log b m <->
    iZero (walFramePage (b + 1)) < f <= m /\ (log_pages log).[f - 1] = p /\ forall f', f < f' <= m -> (log_pages log).[f' - 1] <> p.
Proof.
  intros Hm Hz. unfold iter_pages. rewrite list_elem_of_filter. cbn [snd]. change (map ?g ?l) with (g <$> l). rewrite list_elem_of_fmap.
  setoid_rewrite merge_sort_Permutation. setoid_rewrite elem_of_remove_dups. setoid_rewrite (elem_pages log m); [|done].
  destruct (newest_frame_cases log 0 m p ltac:(lia) ltac:(lia)) as [[E Hu]|(r & E & Hr & Ep & Hu)]; change (0 + 1) with 1 in E; split.
  - intros (H1 & p' & [= <- ->] & _). lia.
  - intros (H1 & H2 & _). rewrite pages_frame in H2 by lia. destruct (Hu f); [lia|done].
  - intros (H1 & p' & [= <- ->] & _). rewrite E in *. split; [lia|]. split; [by rewrite pages_frame by lia|].
    intros f' Hf'. rewrite pages_frame by lia. by apply Hu.
  - intros (H1 & H2 & H3). assert (f = r) as ->.
    { rewrite pages_frame in H2 by lia. destruct (Z.lt_trichotomy f r) as [Hl|[->|Hl]]; [|done|].
      - specialize (H3 r ltac:(lia)). rewrite pages_frame in H3 by lia. done.
      - destruct (Hu f); [lia|done]. }
    split; [lia|]. exists p. split; [by rewrite E|]. exists r. split; [lia|done].
Qed.
Lemma iter_pages_sorted log b m : StronglySorted (fun e e' => fst e < fst e') (iter_pages log b m).
Proof.
  unfold iter_pages. set (ps := merge_sort Z.le (remove_dups (log_pages (take (Z.to_nat m) log)))).
  assert (Hs : StronglySorted Z.le ps) by (apply StronglySorted_merge_sort; [intros ???; lia|intros x y; lia]).
  assert (Hd : NoDup ps) by (unfold ps; rewrite merge_sort_Permutation; apply NoDup_remove_dups).
  clearbody ps. induction ps as [|p ps IH]; cbn [map]; [constructor|]. inversion Hs as [|? ? Hs' Hp]; subst.
  apply NoDup_cons in Hd as [Hn Hd]. specialize (IH Hs' Hd). rewrite filter_cons. case_decide; [|done]. constructor; [done|].
  apply Forall_forall. intros [q f] [_ Hin]%list_elem_of_filter. change (map ?g ?l) with (g <$> l) in Hin.
  apply list_elem_of_fmap in Hin as (q' & [= -> ->] & Hq). cbn. rewrite Forall_forall in Hp. specialize (Hp _ Hq).
  assert (p <> q') by (by intros ->). lia.
Qed.

(** C13. The answers that transactions get are those of the shared tables: when the
    wal-index holds the pages of the log, [walFindFrame] returns what [FindFrame] does,
    and a checkpoint iterator yields exactly the list of [IterPages]. *)
Theorem shared_tables_answer (map_rc : Z -> Z) (wi : gmap Z WalHash) (log : list frame) (mx : Z)
  (Hmap : forall t, map_rc t = SQLITE_OK) (Hok : wi_ok map_rc wi (log_pages log))
  (Hmx : 1 <= mx <= zlen log) (Hmax : mx < MAX_FRAMES) (Hlen : zlen log <= MAX_FRAMES)
  (Hpages : Forall (fun f => 0 < f_pgno f < 0xffffffff) log) :
  (forall readLock minFrame pgno, readLock <> 0 -> 1 <= minFrame <= mx ->
     walFindFrame map_rc mx readLock minFrame false wi pgno = (SQLITE_OK, newest_frame log minFrame mx pgno)) /\
  (forall nBackfill, 0 <= nBackfill < mx -> exists it,
     walIteratorInit map_rc false wi mx nBackfill = (SQLITE_OK, Some it) /\
     iterate (S (length log)) it 0 = Some (iter_pages log nBackfill mx)).
Proof.
  split.
  - intros readLock minFrame pgno Hr Hm. destruct (find_newest map_rc wi (log_pages log) mx readLock minFrame pgno false Hmap Hok) as (r & -> & Hn);
      rewrite ?log_pages_len; try done. f_equal. eapply newest_unique; [exact Hn|]. by apply newest_frame_newest; lia.
  - intros b Hb. destruct (iterator_core map_rc Hmap wi (log_pages log) Hok mx) with (nBackfill := b) as (it & l & Hit & Hl & Hs & He); rewrite ?log_pages_len; try done.
    { apply Forall_forall. unfold log_pages. change (map ?g ?l) with (g <$> l). intros p (x & -> & Hx)%list_elem_of_fmap.
      rewrite Forall_forall in Hpages. by apply Hpages. }
    exists it. split; [done|]. unfold log_pages in Hl. rewrite length_map in Hl. rewrite Hl. f_equal.
    apply (sorted_elements fst); [done|apply iter_pages_sorted|]. intros [p f]. rewrite He. symmetry. apply iter_pages_elem; [lia|].
    apply iZero_nonneg. unfold walFramePage. apply Z.div_pos; [|done]. unfold u32. by apply Z.mod_pos_bound.
Qed.
End link.

Lemma shared_tables_answer_witness : exists wi,
  let log := [mkFrame 5 0 [] []; mkFrame 7 0 [] []; mkFrame 5 3 [] []] in
  (forall readLock minFrame pgno, readLock <> 0 -> 1 <= minFrame <= 3 ->
     walFindFrame (fun _ => SQLITE_OK) 3 readLock minFrame false wi pgno = (SQLITE_OK, newest_frame log minFrame 3 pgno)) /\
  (forall nBackfill, 0 <= nBackfill < 3 -> exists it,
     walIteratorInit (fun _ => SQLITE_OK) false wi 3 nBackfill = (SQLITE_OK, Some it) /\
     iterate 4 it 0 = Some (iter_pages log nBackfill 3)).
Proof.
  destruct example_index as [wi H]. exists wi.
  apply (shared_tables_answer (fun _ => SQLITE_OK) wi [mkFrame 5 0 [] []; mkFrame 7 0 [] []; mkFrame 5 3 [] []] 3);
    [done|exact H|by vm_compute|by vm_compute|by vm_compute|by_compute].
Defined.
