(* ===== verification/WalActions.v ===== *)
(** The atomic actions of write-ahead log transactions, one lemma per action and role:
    what a connection may learn from an access to the shared world, or do to it, with the
    claim it makes afterwards. *)

From stdpp Require Import functions sorting.
From S2P Require Import Prelude Varint WalIndex WalLog WalLocks WalTxn WalClaims.

Definition with_rd (k : claim) (r : reading) : claim := mkClaim (lk k) (sn k) (bf k) r None (wr k) (rs k) (al k) (ck k).
Definition with_bf (k : claim) (b : bool) : claim := mkClaim (lk k) (sn k) b (rd k) (loc k) (wr k) (rs k) (al k) (ck k).
Definition with_loc (k : claim) (x : option (Z * Z)) : claim := mkClaim (lk k) (sn k) (bf k) (rd k) x (wr k) (rs k) (al k) (ck k).
Definition with_wr (k : claim) (x : option (list (Z * Z * page))) : claim := mkClaim (lk k) (sn k) (bf k) (rd k) (loc k) x (rs k) false (ck k).
Definition with_al (k : claim) (b : bool) : claim := mkClaim (lk k) (sn k) (bf k) (rd k) (loc k) (wr k) (rs k) b (ck k).
Definition with_ck (k : claim) (x : ckpt) : claim := mkClaim (lk k) (sn k) (bf k) (rd k) (loc k) (wr k) (rs k) (al k) x.
(** Only the locks and a header. *)
Definition fresh (k : claim) (s : snap) : claim := mkClaim (lk k) (Some s) false RNone None None false false CNone.

Lemma conn_ok_some {L} {LM : LockManager L} (w : world L) (g : ghost) (k : claim) s : conn_ok w g k -> sn k = Some s ->
  sn_ok w g s /\ (bf k = true -> s_gen s = g_gen g -> s_mx s <= g_B g) /\
  rd_ok w g k s /\ loc_ok w k s /\ wr_ok w g k s /\ ck_ok w g k s.
Proof. intros [H _] E. by rewrite E in H. Qed.

(** What the claim of the acting connection says, and the bounds. *)
Ltac claims c Hi Ek Es :=
  let Hk := fresh "Hk" in
  pose proof (i_conn _ _ _ Hi c) as Hk; rewrite Ek in Hk;
  destruct (conn_ok_some _ _ _ _ Hk Es) as (Hsn & Hbf & Hrd & Hloc & Hwr & Hck);
  destruct Hk as (_ & Hal & Hrs); pose proof (i_bounds _ _ _ Hi) as Hb.
(** The claim after the action, with the header [s] kept. *)
Ltac conn_split Es := split; [cbn [sn with_rd with_bf with_loc with_wr with_al with_ck]; rewrite Es; split; [done|];
  split; [try done|split; [try done|split; [try done|split; [try done|try done]]]]|split; [try done|try done]].
(** Only the claim of the acting connection changes, and no reader or checkpoint is bound. *)
Ltac quiet Ek := apply inv_claim_quiet;
  [done|done|by rewrite Ek|by rewrite Ek| |first [by left|right; by rewrite Ek]|first [by left|right; by rewrite Ek]|
   first [by apply ck_reader_none1|by apply ck_reader_none2|idtac]].

Section reads.
Context {L : Type} {LM : LockManager L} {LL : LockLaws L}.
Implicit Types (w : world L) (g : ghost) (k : claim) (cl : Z -> claim).
Context (c : Z) (Hconn : lk_conn c = true).

(** No log is being restarted by another connection that would need lock [s]. *)
Lemma no_restart w g cl s c' : inv_at w g cl -> rs (cl c) = false -> lk (cl c) s <> Free -> rs (cl c') = true ->
  lk (cl c') s = Ex -> False.
Proof.
  intros Hi Hrs Hl Hr He. assert (c' <> c) by congruence. apply Hl. by eapply locks_apart.
Qed.
Lemma backfill_writer w g cl : inv_at w g cl -> rs (cl c) = false -> lk (cl c) WAL_WRITE_LOCK = Ex ->
  nBackfill (w_info w) = g_B g.
Proof.
  intros Hi Hrs Hl. destruct (i_backfill _ _ _ Hi) as [|[c' Hr]]; [done|]. exfalso.
  destruct (i_conn _ _ _ Hi c') as (_ & _ & H). destruct (H Hr) as (Hw & _). by eapply no_restart; [..|exact Hw]; rewrite ?Hl.
Qed.
Lemma backfill_reader w g cl j : inv_at w g cl -> rs (cl c) = false -> 1 <= j <= 4 -> lk (cl c) (WAL_READ_LOCK j) = Sh ->
  nBackfill (w_info w) = g_B g.
Proof.
  intros Hi Hrs Hj Hl. destruct (i_backfill _ _ _ Hi) as [|[c' Hr]]; [done|]. exfalso.
  destruct (i_conn _ _ _ Hi c') as (_ & _ & H). destruct (H Hr) as (_ & Hs & _).
  eapply no_restart; [done|done| |done|by apply Hs]. by rewrite Hl.
Qed.
Lemma backfill_ckpt w g cl : inv_at w g cl -> rs (cl c) = false -> lk (cl c) READ0 = Ex -> lk (cl c) WAL_CKPT_LOCK = Ex ->
  nBackfill (w_info w) = g_B g.
Proof.
  intros Hi Hrs H0 H1. destruct (i_backfill _ _ _ Hi) as [|[c' Hr]]; [done|]. exfalso.
  destruct (i_conn _ _ _ Hi c') as (_ & _ & H). destruct (H Hr) as (_ & _ & [Hs|Hs] & _).
  - assert (Hne : c' <> c) by congruence. by rewrite (locks_apart _ _ _ c c' READ0 Hi H0 Hne) in Hs.
  - eapply no_restart; [done|done| |done|exact Hs]. by rewrite H1.
Qed.


(** A checkpoint that learns something without changing what it lets readers keep. *)
Definition ck_bound (x : ckpt) : option (Z * option (Z * option Z)) :=
  match x with
  | CNone => None
  | CScan sf i y _ _ => Some (sf, Some (i, y))
  | CFill sf _ _ _ _ => Some (sf, None)
  end.
Lemma ck_reader_bound g k k' k2 : sn k = sn k' -> ck_bound (ck k) = ck_bound (ck k') -> ck_reader g k k2 -> ck_reader g k' k2.
Proof.
  unfold ck_reader. intros -> E H s1 s2 j F0 E1 E2 Er Eg. specialize (H s1 s2 j F0 E1 E2 Er Eg).
  destruct (ck k), (ck k'); cbn in E; simplify_eq; done.
Qed.
Lemma inv_claim_ck w g cl k x : inv_at w g cl -> cl c = k -> (forall j F0, rd k <> RLog j F0) -> ck_bound (ck k) = ck_bound x ->
  conn_ok w g (with_ck k x) -> inv_at w g (<[c := with_ck k x]> cl).
Proof.
  intros Hi Ek Erd Eb Hk. apply inv_claim; [done|done|by rewrite Ek|by rewrite Ek|done|by apply ck_reader_none2|].
  intros c' _. split; [|by apply ck_reader_none2]. apply (ck_reader_bound g k); [done|done|]. rewrite <- Ek. apply (i_ck _ _ _ Hi).
Qed.

(** *** Reading the header *)

Lemma t_read_hdr k (Q : WalIndexHdr -> claim -> Prop) : rs k = false ->
  (forall s, 0 <= s_mx s -> zlen (h_aSalt (s_hdr s)) = 8 -> Q (s_hdr s) (fresh k s)) -> triple (L := L) c k ReadHdr Q.
Proof.
  intros Hrs HQ. apply triple_read; [done|]. intros w g cl o Hi Ek. exists (fresh k (live_snap w g)). split.
  - exists g. quiet Ek.
    split; [|by split]. cbn. split; [by eapply live_snap_ok|]. done.
  - apply (HQ (live_snap w g)); [pose proof (i_bounds _ _ _ Hi); unfold s_mx, mxFrame in *; cbn; lia|].
    eapply (i_salt _ _ _ Hi), last_Some_elem_of, (i_last _ _ _ Hi).
Qed.

(** A checkpoint starts from the header it reads. *)
Definition scanning k (s : snap) (writer : bool) : claim :=
  mkClaim (lk k) (Some s) false RNone None (if writer then Some [] else None) false false (CScan (s_mx s) 1 None None None).
Lemma wr_ok_nil w g k s : wr k = Some [] -> lk k WAL_WRITE_LOCK = Ex -> s_hdr s = w_live w -> s_gen s = g_gen g ->
  mxFrame w <= zlen (w_log w) -> wr_ok w g k s.
Proof. intros E ? ? ? ?. unfold wr_ok. rewrite E. split; [done|]. split; [done|]. split; [done|]. split; [by rewrite zlen_nil, Z.add_0_r|done]. Qed.

Lemma t_ckpt_hdr k (writer : bool) (Q : WalIndexHdr -> claim -> Prop) : rs k = false ->
  lk k WAL_CKPT_LOCK = Ex -> (writer = true -> lk k WAL_WRITE_LOCK = Ex) ->
  (forall s, 0 <= s_mx s -> zlen (h_aSalt (s_hdr s)) = 8 -> Q (s_hdr s) (scanning k s writer)) -> triple (L := L) c k ReadHdr Q.
Proof.
  intros Hrs Hl Hw HQ. apply triple_read; [done|]. intros w g cl o Hi Ek. pose proof (i_bounds _ _ _ Hi) as Hb.
  exists (scanning k (live_snap w g) writer). split.
  - exists g. apply inv_claim; [done|done|by rewrite Ek|by rewrite Ek|..].
    + split; [|by split]. cbn. split; [by eapply live_snap_ok|]. split; [done|]. split; [done|]. split; [done|].
      split; [destruct writer; [|done]; apply wr_ok_nil; try done; [by apply Hw|lia]|].
      split; [done|]. intros _. unfold s_mx, mxFrame in *. cbn. lia.
    + by apply ck_reader_none2.
    + intros c' _. split; [|by apply ck_reader_none2]. intros s1 s2 j F0 E1 E2 Er Eg. cbn in *. simplify_eq.
      right. right. destruct (conn_ok_some _ _ _ _ (i_conn _ _ _ Hi c') E2) as (_ & _ & Hr & _).
      unfold rd_ok in Hr. rewrite Er in Hr. split; [lia|]. intros _ y' E. done.
  - apply (HQ (live_snap w g)); [unfold s_mx, mxFrame in *; cbn; lia|].
    eapply (i_salt _ _ _ Hi), last_Some_elem_of, (i_last _ _ _ Hi).
Qed.

(** Read lock 0 was taken after all frames were seen to be copied: if the header is
    still the same, the database file is the snapshot. *)
Lemma t_check_zero k s (Q : WalIndexHdr -> claim -> Prop) :
  sn k = Some s -> bf k = true -> rd k = RNone -> lk k READ0 = Sh -> ck k = CNone ->
  (forall h, h <> s_hdr s -> Q h k) -> Q (s_hdr s) (with_rd k RZero) -> triple (L := L) c k ReadHdr Q.
Proof.
  intros Es Ebf Erd Hl Eck Q1 Q2. apply triple_read; [done|]. intros w g cl o Hi Ek. cbn [exec fst].
  destruct (decide (w_live w = s_hdr s)) as [E|E].
  - exists (with_rd k RZero). rewrite E. split; [|done]. exists g.
    claims c Hi Ek Es. pose proof (sn_live _ _ _ Hsn (eq_sym E)) as Hg. specialize (Hbf Ebf Hg).
    assert (Hm : s_mx s = mxFrame w) by (unfold s_mx, mxFrame; by rewrite E).
    quiet Ek.
    conn_split Es. split; [done|]. split; [|done]. intros p d _ Hp. rewrite (sn_img _ _ _ Hsn Hg) in Hp. apply (i_db _ _ _ Hi).
    + intros f Hf. lia.
    + by replace (g_A g) with (s_mx s) by lia.
  - exists k. split; [|by apply Q1]. exists g. rewrite <- Ek. by apply inv_same.
Qed.

(** The read mark was taken and the header is still the same: the log can be read. *)
Lemma t_check_log k s j F0 (Q : WalIndexHdr -> claim -> Prop) :
  sn k = Some s -> rd k = RPend j (Some F0) true -> ck k = CNone ->
  (forall h, h <> s_hdr s -> Q h k) -> Q (s_hdr s) (with_rd k (RLog j F0)) -> triple (L := L) c k ReadHdr Q.
Proof.
  intros Es Erd Eck Q1 Q2. apply triple_read; [done|]. intros w g cl o Hi Ek. cbn [exec fst].
  destruct (decide (w_live w = s_hdr s)) as [E|E].
  - exists (with_rd k (RLog j F0)). rewrite E. split; [|done]. exists g. claims c Hi Ek Es.
    pose proof (sn_live _ _ _ Hsn (eq_sym E)) as Hg. unfold rd_ok in Hrd. rewrite Erd in Hrd.
    destruct Hrd as (Hj & Hl & [HF0 HF] & Hmk). specialize (HF Hg). specialize (Hmk eq_refl).
    assert (Hm : s_mx s = mxFrame w) by (unfold s_mx, mxFrame; by rewrite E).
    apply inv_claim; [done|done|by rewrite Ek|by rewrite Ek|..].
    + conn_split Es. cbn. split; [done|]. split; [done|]. split; [done|]. split; [lia|]. split; [lia|]. split; [done|].
      intros p d Hu Hp. rewrite (sn_img _ _ _ Hsn Hg) in Hp. apply (i_db _ _ _ Hi).
      * eapply untouched_sub; [done|lia|lia].
      * eapply (view_back _ _ _ (s_mx s)); [lia|lia| |done]. eapply untouched_sub; [done|lia|lia].
    + by apply ck_reader_none1.
    + intros c' _. split; [by apply ck_reader_none1|]. intros s1 s2 j' F0' E1 E2 _ Eg. cbn in E2. rewrite Es in E2. simplify_eq.
      destruct (conn_ok_some _ _ _ _ (i_conn _ _ _ Hi c') E1) as ((_ & _ & _ & Hs1 & _) & _ & _ & _ & _ & Hck1).
      destruct (Hs1 Eg) as [Hle _]. unfold ck_ok in Hck1. destruct (ck (cl c')) as [| |sf b todo full cur]; [done|left; lia|].
      destruct Hck1 as (_ & _ & _ & _ & _ & ? & _). lia.
  - exists k. split; [|by apply Q1]. exists g. rewrite <- Ek. by apply inv_same.
Qed.

(** The write lock was taken and the header is still the one that was read. *)
Lemma t_begin_write k s (Q : WalIndexHdr -> claim -> Prop) :
  sn k = Some s -> wr k = None -> lk k WAL_WRITE_LOCK = Ex -> al k = false -> ck k = CNone ->
  (forall h, h <> s_hdr s -> Q h k) -> Q (s_hdr s) (with_wr k (Some [])) -> triple (L := L) c k ReadHdr Q.
Proof.
  intros Es Ewr Hl Eal Eck Q1 Q2. apply triple_read; [done|]. intros w g cl o Hi Ek. cbn [exec fst].
  destruct (decide (w_live w = s_hdr s)) as [E|E].
  - exists (with_wr k (Some [])). rewrite E. split; [|done]. exists g. claims c Hi Ek Es.
    pose proof (sn_live _ _ _ Hsn (eq_sym E)) as Hg. quiet Ek. conn_split Es. apply wr_ok_nil; try done. lia.
  - exists k. split; [|by apply Q1]. exists g. rewrite <- Ek. by apply inv_same.
Qed.

(** A writer finds the header it knows. *)
Lemma t_writer_hdr k s fr (Q : WalIndexHdr -> claim -> Prop) : sn k = Some s -> wr k = Some fr ->
  Q (s_hdr s) k -> triple (L := L) c k ReadHdr Q.
Proof.
  intros Es Ewr HQ. apply triple_read; [done|]. intros w g cl o Hi Ek. exists k. split; [exists g; rewrite <- Ek; by apply inv_same|].
  claims c Hi Ek Es. unfold wr_ok in Hwr. rewrite Ewr in Hwr. destruct Hwr as (_ & E & _). cbn. by rewrite <- E.
Qed.
(** So does anybody who asks for no more. *)
Lemma t_any_hdr k (Q : WalIndexHdr -> claim -> Prop) : (forall h, Q h k) -> triple (L := L) c k ReadHdr Q.
Proof. intros. by apply triple_skip. Qed.

(** *** The checkpoint information *)

Lemma t_load_any k (Q : Z -> claim -> Prop) : (forall v, Q v k) -> triple (L := L) c k LoadBackfill Q.
Proof. intros. by apply triple_skip. Qed.

Lemma t_load_bf k s (Q : Z -> claim -> Prop) : sn k = Some s -> ck k = CNone ->
  (forall v, v <> s_mx s -> Q v k) -> Q (s_mx s) (with_bf k true) -> triple (L := L) c k LoadBackfill Q.
Proof.
  intros Es Eck Q1 Q2. apply triple_read; [done|]. intros w g cl o Hi Ek. cbn [exec fst].
  destruct (decide (nBackfill (w_info w) = s_mx s)) as [E|E].
  - exists (with_bf k true). rewrite E. split; [|done]. exists g. claims c Hi Ek Es. quiet Ek. conn_split Es.
    intros _ Hg. destruct (i_backfill _ _ _ Hi) as [|[c' Hr]]; [lia|].
    destruct (i_conn _ _ _ Hi c') as (_ & _ & H). destruct (H Hr) as (_ & _ & _ & HB & HL).
    destruct Hsn as (_ & _ & _ & Hs & _). destruct (Hs Hg) as [? _]. lia.
  - exists k. split; [|by apply Q1]. exists g. rewrite <- Ek. by apply inv_same.
Qed.

Lemma t_load_pend k s j (Q : Z -> claim -> Prop) : sn k = Some s -> rd k = RPend j None false -> rs k = false -> ck k = CNone ->
  (forall v, Q v (with_rd k (RPend j (Some v) false))) -> triple (L := L) c k LoadBackfill Q.
Proof.
  intros Es Erd Ers Eck HQ. apply triple_read; [done|]. intros w g cl o Hi Ek.
  exists (with_rd k (RPend j (Some (nBackfill (w_info w))) false)). split; [|apply HQ]. exists g. claims c Hi Ek Es.
  unfold rd_ok in Hrd. rewrite Erd in Hrd. destruct Hrd as (Hj & Hl & _).
  assert (HB : nBackfill (w_info w) = g_B g) by (eapply (backfill_reader w g cl j); rewrite ?Ek; done).
  quiet Ek. conn_split Es. cbn. split; [done|]. split; [done|]. split; [|done]. split; [lia|]. intros _. lia.
Qed.

Lemma t_load_mark_any k i (Q : Z -> claim -> Prop) : (forall v, Q v k) -> triple (L := L) c k (LoadMark i) Q.
Proof. intros. by apply triple_skip. Qed.
Lemma t_load_mark_pend k s j F0 (Q : Z -> claim -> Prop) : sn k = Some s -> rd k = RPend j F0 false -> ck k = CNone ->
  (forall v, s_mx s < v -> Q v k) -> (forall v, v <= s_mx s -> Q v (with_rd k (RPend j F0 true))) ->
  triple (L := L) c k (LoadMark j) Q.
Proof.
  intros Es Erd Eck Q1 Q2. apply triple_read; [done|]. intros w g cl o Hi Ek. cbn [exec fst].
  destruct (Z.le_gt_cases (aReadMark (w_info w)).[j] (s_mx s)) as [Hle|Hgt].
  - exists (with_rd k (RPend j F0 true)). split; [|by apply Q2]. exists g. claims c Hi Ek Es.
    unfold rd_ok in Hrd. rewrite Erd in Hrd. destruct Hrd as (? & ? & ? & _). quiet Ek. conn_split Es.
  - exists k. split; [|apply Q1; lia]. exists g. rewrite <- Ek. by apply inv_same.
Qed.

(** *** Looking up and reading pages *)

Lemma t_find k s j F0 p (Q : Z -> claim -> Prop) : sn k = Some s -> rd k = RLog j F0 ->
  (forall f, Q f (with_loc k (Some (p, f)))) -> triple (L := L) c k (FindFrame (F0 + 1) (s_mx s) p) Q.
Proof.
  intros Es Erd HQ. apply triple_read; [done|]. intros w g cl o Hi Ek.
  exists (with_loc k (Some (p, newest_frame (w_log w) (F0 + 1) (s_mx s) p))). split; [|apply HQ]. exists g. claims c Hi Ek Es.
  apply inv_claim_quiet; [done|done|by rewrite Ek|by rewrite Ek| |right; by rewrite Ek|right; by rewrite Ek|].
  - conn_split Es. unfold loc_ok. cbn. by rewrite Erd.
  - apply (ck_reader_same1 g k); [done..|]. apply (ck_reader_same2 g _ k); [done..|]. rewrite <- Ek. apply (i_ck _ _ _ Hi).
Qed.
Lemma t_find_any k lo hi p (Q : Z -> claim -> Prop) : (forall f, Q f k) -> triple (L := L) c k (FindFrame lo hi p) Q.
Proof. intros. by apply triple_skip. Qed.

Lemma t_read_frame_any k i (Q : Z * frame -> claim -> Prop) : (forall x, Q x k) -> triple (L := L) c k (ReadFrame i) Q.
Proof. intros. by apply triple_skip. Qed.
(** The frame that was looked up holds the page of the snapshot. *)
Lemma t_read_frame k s j F0 p f (Q : Z * frame -> claim -> Prop) :
  sn k = Some s -> rd k = RLog j F0 -> loc k = Some (p, f) -> f <> 0 ->
  (forall rc fr, (forall d, s_img s !! p = Some d -> f_data fr = d) -> Q (rc, fr) k) -> triple (L := L) c k (ReadFrame f) Q.
Proof.
  intros Es Erd Eloc Hf HQ. apply triple_read; [done|]. intros w g cl o Hi Ek. exists k. cbn [exec fst].
  split; [exists g; rewrite <- Ek; by apply inv_same|]. apply HQ. claims c Hi Ek Es. intros d Hd.
  unfold rd_ok in Hrd. rewrite Erd in Hrd. destruct Hrd as (Hj & Hl & Hg & HF & HFm & _).
  unfold loc_ok in Hloc. rewrite Eloc, Erd in Hloc. rewrite (sn_img _ _ _ Hsn Hg) in Hd.
  destruct Hsn as (_ & _ & _ & Hs & _). destruct (Hs Hg) as [Hle _].
  destruct (newest_frame_cases (w_log w) F0 (s_mx s) p ltac:(lia) ltac:(lia)) as [[? _]|(r & Er & Hr & Ep & Hu)]; [congruence|].
  assert (f = r) as -> by congruence. subst p. eapply view_newest; [|..|done|done]; lia.
Qed.
(** A page that the log does not hold is in the database file. *)
Lemma t_read_db k s p (Q : option page -> claim -> Prop) :
  sn k = Some s -> rd k = RZero \/ (exists j F0, rd k = RLog j F0 /\ (loc k = Some (p, 0) \/ s_mx s = 0)) ->
  (forall x, (forall d, s_img s !! p = Some d -> x = Some d) -> Q x k) -> triple (L := L) c k (ReadDb p) Q.
Proof.
  intros Es Erd HQ. apply triple_read; [done|]. intros w g cl o Hi Ek. exists k. cbn [exec fst].
  split; [exists g; rewrite <- Ek; by apply inv_same|]. apply HQ. claims c Hi Ek Es. intros d Hd. unfold rd_ok in Hrd.
  destruct Erd as [Erd|(j & F0 & Erd & Hl)]; rewrite Erd in Hrd.
  - destruct Hrd as (_ & Hc & _). apply Hc; [|done]. intros f Hf. lia.
  - destruct Hrd as (Hj & _ & Hg & HF & HFm & _ & Hc). apply Hc; [|done]. destruct Hsn as (_ & _ & _ & Hs & _).
    destruct (Hs Hg) as [Hle _]. destruct Hl as [Hl|Hl]; [|intros f Hf; lia].
    unfold loc_ok in Hloc. rewrite Hl, Erd in Hloc. apply newest_frame_zero in Hloc; [done|lia|lia].
Qed.
Lemma t_read_db_any k p (Q : option page -> claim -> Prop) : (forall x, Q x k) -> triple (L := L) c k (ReadDb p) Q.
Proof. intros. by apply triple_skip. Qed.
(** A writer reads back its own frames. *)
Lemma t_read_own k s fr i (Q : Z * frame -> claim -> Prop) :
  sn k = Some s -> wr k = Some fr -> s_mx s < i <= s_mx s + zlen fr ->
  (forall rc f, fr !! Z.to_nat (i - s_mx s - 1) = Some (core f) -> Q (rc, f) k) -> triple (L := L) c k (ReadFrame i) Q.
Proof.
  intros Es Ewr Hir HQ. apply triple_read; [done|]. intros w g cl o Hi Ek. exists k. cbn [exec fst].
  split; [exists g; rewrite <- Ek; by apply inv_same|]. apply HQ. claims c Hi Ek Es.
  unfold wr_ok in Hwr. rewrite Ewr in Hwr. destruct Hwr as (_ & E & _ & Hlen & Hfr).
  assert (Em : s_mx s = mxFrame w) by (unfold s_mx, mxFrame; by rewrite E). rewrite Em in *.
  rewrite <- Hfr. change (map core ?l) with (core <$> l). rewrite list_lookup_fmap. unfold slice, log_frame, zget, zlookup, zlen in *.
  rewrite (proj2 (Z.leb_le 0 (i - 1))) by lia. rewrite lookup_take_lt, lookup_drop by lia.
  replace (Z.to_nat (mxFrame w) + Z.to_nat (i - mxFrame w - 1))%nat with (Z.to_nat (i - 1)) by lia.
  destruct (lookup_lt_is_Some_2 (w_log w) (Z.to_nat (i - 1)) ltac:(lia)) as [x ->]. done.
Qed.

(** *** The steps of a checkpoint *)

Lemma t_ask k (Q : bool -> claim -> Prop) : (forall x, Q x k) -> triple (L := L) c k Ask Q.
Proof. intros. by apply triple_skip. Qed.
Lemma t_io k (Q : Z -> claim -> Prop) : (forall x, Q x k) -> triple (L := L) c k Io Q.
Proof. intros. by apply triple_skip. Qed.
Lemma t_random k n (Q : list Z -> claim -> Prop) : (forall x, length x = Z.to_nat n -> Q x k) -> triple (L := L) c k (Randomness n) Q.
Proof.
  intros HQ. apply triple_read; [done|]. intros w g cl o Hi Ek. exists k. split; [exists g; rewrite <- Ek; by apply inv_same|].
  apply HQ. cbn. rewrite length_take, length_app, length_replicate. lia.
Qed.
Lemma t_read_head k (Q : Z * list Z -> claim -> Prop) : (forall x, Q x k) -> triple (L := L) c k ReadLogHead Q.
Proof. intros. by apply triple_skip. Qed.

(** The mark of the slot that the checkpoint looks at next. *)
Lemma t_scan_mark k s sf i (Q : Z -> claim -> Prop) : sn k = Some s -> ck k = CScan sf i None None None -> (forall j F0, rd k <> RLog j F0) ->
  (forall y, Q y (with_ck k (CScan sf i (Some y) None None))) -> triple (L := L) c k (LoadMark i) Q.
Proof.
  intros Es Eck Erd HQ. apply triple_read; [done|]. intros w g cl o Hi Ek. cbn [exec fst].
  set (y := (aReadMark (w_info w)).[i]). exists (with_ck k (CScan sf i (Some y) None None)). split; [|apply HQ]. exists g.
  claims c Hi Ek Es. apply inv_claim; [done|done|by rewrite Ek|by rewrite Ek|..].
  - conn_split Es. unfold ck_ok in *. by rewrite Eck in Hck.
  - by apply ck_reader_none2.
  - intros c' _. split; [|by apply ck_reader_none2]. intros s1 s2 j F0 E1 E2 Er Eg. cbn in E1 |- *.
    pose proof (i_ck _ _ _ Hi c c' s1 s2 j F0) as H. rewrite Ek, Eck in H. specialize (H E1 E2 Er Eg).
    destruct H as [H|[H|[H _]]]; [by left|right; by left|right; right]. split; [done|]. intros -> y' [= <-].
    destruct (conn_ok_some _ _ _ _ (i_conn _ _ _ Hi c') E2) as (_ & _ & Hr & _). unfold rd_ok in Hr. rewrite Er in Hr.
    destruct Hr as (_ & _ & _ & _ & _ & Hm & _). done.
Qed.

(** Frames are left to copy. *)
Lemma t_scan_backfill k s sf i (Q : Z -> claim -> Prop) : sn k = Some s -> ck k = CScan sf i None None None -> (forall j F0, rd k <> RLog j F0) ->
  (forall v, sf <= v -> Q v k) -> (forall v, v < sf -> Q v (with_ck k (CScan sf i None (Some v) None))) ->
  triple (L := L) c k LoadBackfill Q.
Proof.
  intros Es Eck Erd Q1 Q2. apply triple_read; [done|]. intros w g cl o Hi Ek. cbn [exec fst].
  destruct (Z.lt_ge_cases (nBackfill (w_info w)) sf) as [Hlt|Hge].
  - set (v := nBackfill (w_info w)) in *. exists (with_ck k (CScan sf i None (Some v) None)). split; [|by apply Q2]. exists g.
    claims c Hi Ek Es. apply inv_claim_ck; [done|done|done|by rewrite Eck|].
    conn_split Es. unfold ck_ok in *. rewrite Eck in Hck. cbn. destruct Hck as [Hl Hck]. split; [done|].
      intros Hg. destruct (Hck Hg) as (H1 & H2 & _). split; [done|]. split; [done|]. split; [|done]. split; [|done].
      destruct (i_backfill _ _ _ Hi) as [E|[c' Hr]]; [done|].
      destruct (i_conn _ _ _ Hi c') as (_ & _ & H). destruct (H Hr) as (_ & _ & _ & HB & HL).
      destruct Hsn as (_ & _ & _ & Hs & _). destruct (Hs Hg) as [? _]. unfold v in *. lia.
  - exists k. split; [|by apply Q1]. exists g. rewrite <- Ek. by apply inv_same.
Qed.

(** *** The iterator *)

Lemma iZero_framePage x : 1 <= x -> iZero (walFramePage x) < x.
Proof.
  intros Hx. unfold walFramePage, iZero, u32, HASHTABLE_NPAGE_ONE, HASHTABLE_NPAGE, WALINDEX_HDR_SIZE. change (136 / 4) with 34.
  assert (H : 0 <= (x + 4096 - (4096 - 34) - 1) mod 2 ^ 32 <= x + 33).
  { split; [by apply Z.mod_pos_bound|]. etransitivity; [apply Z.mod_le; lia|lia]. }
  set (y := (x + 4096 - (4096 - 34) - 1) mod 2 ^ 32) in *. clearbody y. zbool; Z.div_mod_to_equations; lia.
Qed.
Lemma iter_pages_ok w m b : 0 <= b < m -> m <= zlen (w_log w) -> iter_ok w m b (iter_pages (w_log w) b m).
Proof.
  intros Hb Hm. unfold iter_pages. split.
  - intros p f. rewrite list_elem_of_filter, list_elem_of_In, in_map_iff. cbn. intros [Hf (p' & E & _)]. simplify_eq.
    split; [done|]. assert (0 <= iZero (walFramePage (b + 1))); [|lia].
    apply iZero_nonneg. unfold walFramePage. apply Z.div_pos; [|done]. unfold u32. by apply Z.mod_pos_bound.
  - intros p Hp. rewrite list_elem_of_filter, list_elem_of_In, in_map_iff. cbn. split.
    + pose proof (iZero_framePage (b + 1) ltac:(lia)). lia.
    + exists p. split; [done|]. apply list_elem_of_In. rewrite merge_sort_Permutation, elem_of_remove_dups.
      destruct (newest_frame_cases (w_log w) 0 m p ltac:(lia) Hm) as [[E _]|(r & E & Hr & Ep & _)]; change (0 + 1) with 1 in E; [lia|].
      unfold log_pages. rewrite list_elem_of_In, in_map_iff. exists (log_frame (w_log w) r). split; [done|].
      apply list_elem_of_In, list_elem_of_lookup. exists (Z.to_nat (r - 1)). unfold log_frame, zget, zlookup, zlen in *.
      rewrite lookup_take_lt, (proj2 (Z.leb_le _ _)) by lia.
      destruct (lookup_lt_is_Some_2 (w_log w) (Z.to_nat (r - 1)) ltac:(lia)) as [x ->]. done.
Qed.
Lemma t_iter k s sf i b (Q : list (Z * Z) -> claim -> Prop) : sn k = Some s -> ck k = CScan sf i None (Some b) None -> (forall j F0, rd k <> RLog j F0) ->
  (forall l, Q l (with_ck k (CScan sf i None (Some b) (Some l)))) -> triple (L := L) c k (IterPages b (s_mx s)) Q.
Proof.
  intros Es Eck Erd HQ. apply triple_read; [done|]. intros w g cl o Hi Ek. cbn [exec fst].
  set (l := iter_pages (w_log w) b (s_mx s)). exists (with_ck k (CScan sf i None (Some b) (Some l))). split; [|apply HQ]. exists g.
  claims c Hi Ek Es. apply inv_claim_ck; [done|done|done|by rewrite Eck|].
  conn_split Es. unfold ck_ok in *. rewrite Eck in Hck. cbn. destruct Hck as [Hl Hck]. split; [done|].
    intros Hg. destruct (Hck Hg) as (H1 & H2 & [HB Hlt] & _). split; [done|]. split; [done|]. split; [done|].
    destruct Hsn as (_ & _ & _ & Hs & _). destruct (Hs Hg) as [? _]. rewrite HB. apply iter_pages_ok; lia.
Qed.

(** Once more, for the iterator.  In the generation of the header nobody is restarting the
    log, for that log has no frames to copy. *)
Lemma t_scan_second k s sf i b0 (Q : Z -> claim -> Prop) : sn k = Some s -> ck k = CScan sf i None (Some b0) None -> (forall j F0, rd k <> RLog j F0) ->
  (forall v, Q v (with_ck k (CScan sf i None (Some v) None))) -> triple (L := L) c k LoadBackfill Q.
Proof.
  intros Es Eck Erd HQ. apply triple_read; [done|]. intros w g cl o Hi Ek. cbn [exec fst].
  set (v := nBackfill (w_info w)) in *. exists (with_ck k (CScan sf i None (Some v) None)). split; [|by apply HQ]. exists g.
  claims c Hi Ek Es. apply inv_claim_ck; [done|done|done|by rewrite Eck|].
  conn_split Es. unfold ck_ok in *. rewrite Eck in Hck. cbn. destruct Hck as [Hl Hck]. split; [done|].
    intros Hg. destruct (Hck Hg) as (H1 & H2 & [HB Hlt] & _). split; [done|]. split; [done|]. split; [|done].
    destruct (i_backfill _ _ _ Hi) as [E|[c' Hr]]; [unfold v; lia|].
    destruct (i_conn _ _ _ Hi c') as (_ & _ & H). destruct (H Hr) as (_ & _ & _ & HB0 & HL).
    destruct Hsn as (_ & _ & _ & Hs & _). destruct (Hs Hg) as [? _]. lia.
Qed.

(** Once more under read lock 0. *)
Lemma t_scan_again k s sf i b0 it (Q : Z -> claim -> Prop) : sn k = Some s -> ck k = CScan sf i None (Some b0) it -> (forall j F0, rd k <> RLog j F0) ->
  rs k = false -> lk k READ0 = Ex ->
  (forall v, Q v (with_ck k (CScan sf i None (Some v) it))) -> triple (L := L) c k LoadBackfill Q.
Proof.
  intros Es Eck Erd Ers Hl0 HQ. apply triple_read; [done|]. intros w g cl o Hi Ek. cbn [exec fst].
  set (v := nBackfill (w_info w)). exists (with_ck k (CScan sf i None (Some v) it)). split; [|apply HQ]. exists g.
  claims c Hi Ek Es. unfold ck_ok in Hck. rewrite Eck in Hck. destruct Hck as [Hl Hck].
  assert (HB : nBackfill (w_info w) = g_B g) by (eapply (backfill_ckpt w g cl); rewrite ?Ek; done).
  apply inv_claim_ck; [done|done|done|by rewrite Eck|].
  conn_split Es. unfold ck_ok. cbn. split; [done|]. intros Hg. destruct (Hck Hg) as (H1 & H2 & [HB' Hlt] & H4).
    split; [done|]. split; [done|]. split; [|done]. unfold v. lia.
Qed.

(** The log has the salts of the checkpoint's header: it was not restarted, and copying
    can begin. *)
Lemma t_check_salts k s sf b it (Q : WalIndexHdr -> claim -> Prop) : sn k = Some s -> ck k = CScan sf 5 None (Some b) (Some it) ->
  (forall j F0, rd k <> RLog j F0) -> lk k READ0 = Ex ->
  (forall h, h_aSalt h <> h_aSalt (s_hdr s) -> Q h k) ->
  (forall h, h_aSalt h = h_aSalt (s_hdr s) -> Q h (with_ck k (CFill sf b it false None))) -> triple (L := L) c k ReadHdr Q.
Proof.
  intros Es Eck Erd Hl0 Q1 Q2. apply triple_read; [done|]. intros w g cl o Hi Ek. cbn [exec fst].
  destruct (decide (h_aSalt (w_live w) = h_aSalt (s_hdr s))) as [E|E].
  2: { exists k. split; [|by apply Q1]. exists g. rewrite <- Ek. by apply inv_same. }
  exists (with_ck k (CFill sf b it false None)). split; [|by apply Q2]. claims c Hi Ek Es.
  assert (Hg : s_gen s = g_gen g).
  { destruct Hsn as (_ & ? & _ & _ & Hlt). destruct (decide (s_gen s = g_gen g)); [done|]. destruct (Hlt ltac:(lia)). congruence. }
  unfold ck_ok in Hck. rewrite Eck in Hck. destruct Hck as [Hl Hck]. destruct (Hck Hg) as (HA & Hsf & [HB Hlt] & Hit & Hit2).
  pose proof (sn_img _ _ _ Hsn Hg) as Himg. destruct Hsn as (Hh & Hs2 & Hs3 & Hs & Hs5). destruct (Hs Hg) as (Hmx & _ & _).
  (* the last frame looked at moves up to the header of this checkpoint *)
  set (g' := mkGhost (g_gen g) (g_base g) (g_B g) (s_mx s)). exists g'. pose proof (i_ck _ _ _ Hi) as Hi_ck. destruct Hi.
  split; try done; cbn [g' g_gen g_base g_B g_A].
  - intros c' s'. pattern c', (<[c := with_ck k (CFill sf b it false None)]> cl c'). apply upd_cases; [rewrite i_lk, Ek by done; done|auto].
  - intros c' Hc'. rewrite upd_ne; [auto|congruence].
  - lia.
  - destruct i_backfill as [|[c' Hr]]; [by left|right]. exists c'. destruct (decide (c' = c)) as [->|Hne].
    + rewrite upd_eq. by rewrite Ek in Hr.
    + by rewrite upd_ne.
  - intros p d Hu Hp. apply i_db; [eapply untouched_sub; [done|lia|lia]|].
    eapply (view_back _ _ _ (s_mx s)); [lia|lia| |done]. eapply untouched_sub; [done|lia|lia].
  - intros c'. pattern c', (<[c := with_ck k (CFill sf b it false None)]> cl c'). apply upd_cases.
    + conn_split Es. cbn. split; [done|]. split; [done|]. split; [done|]. split; [done|]. split; [done|]. split; [lia|].
      split; [done|]. split; [done|]. split; [|done]. intros p [Hp _] _. left. apply Hit2. lia.
    + intros c'' Hne. pose proof (i_conn c'') as (H1 & H2 & H3). split; [|done]. destruct (sn (cl c'')) as [s''|]; [|done].
      destruct H1 as (J1 & J2 & J3 & J4 & J5 & J6). split; [done|]. split; [done|]. split; [done|]. split; [done|]. split; [done|].
      unfold ck_ok in *. assert (Hf : lk (cl c'') WAL_CKPT_LOCK = Free).
      { eapply locks_apart; [by split| |exact Hne]. by rewrite Ek. }
      destruct (ck (cl c'')); [done|destruct J6 as [J6 _]; congruence|destruct J6 as [J6 _]; congruence].
  - apply upd_pairs; [by apply ck_reader_none2| |done]. intros c' Hne. split; [|by apply ck_reader_none2].
    intros s1 s2 j F0 E1 E2 Er Eg. cbn in E1 |- *. pose proof (Hi_ck c c' s1 s2 j F0) as H. rewrite Ek, Eck in H.
    specialize (H E1 E2 Er Eg). rewrite Es in E1. simplify_eq. destruct H as [H|[H|[H _]]]; [lia|lia|].
    destruct (conn_ok_some _ _ _ _ (i_conn c') E2) as (_ & _ & Hr & _). unfold rd_ok in Hr. rewrite Er in Hr. lia.
Qed.

(** The last frame of the log is the last one copied. *)
Lemma t_check_full k s sf b todo (Q : WalIndexHdr -> claim -> Prop) : sn k = Some s -> ck k = CFill sf b todo false None ->
  (forall j F0, rd k <> RLog j F0) ->
  (forall h, h_mxFrame h <> sf -> Q h k) -> (forall h, h_mxFrame h = sf -> Q h (with_ck k (CFill sf b todo true None))) ->
  triple (L := L) c k ReadHdr Q.
Proof.
  intros Es Eck Erd Q1 Q2. apply triple_read; [done|]. intros w g cl o Hi Ek. cbn [exec fst].
  destruct (decide (h_mxFrame (w_live w) = sf)) as [E|E].
  - exists (with_ck k (CFill sf b todo true None)). split; [|by apply Q2]. exists g. claims c Hi Ek Es.
    apply inv_claim_ck; [done|done|done|by rewrite Eck|].
    conn_split Es. unfold ck_ok in *. rewrite Eck in Hck. cbn. destruct Hck as (H1 & H2 & H3 & H4 & H5 & H6 & H7 & H8).
      split; [done|]. split; [done|]. split; [done|]. split; [done|]. split; [done|]. split; [done|]. split; [|done].
      intros _. destruct Hsn as (_ & _ & _ & Hs & _). destruct (Hs H3) as [? _]. unfold mxFrame in *. lia.
  - exists k. split; [|by apply Q1]. exists g. rewrite <- Ek. by apply inv_same.
Qed.

(** The content of the next page to copy. *)
Lemma t_read_fill k s sf b p f todo full (Q : Z * frame -> claim -> Prop) : sn k = Some s ->
  ck k = CFill sf b ((p, f) :: todo) full None -> (forall j F0, rd k <> RLog j F0) ->
  (forall rc fr, Q (rc, fr) (with_ck k (CFill sf b ((p, f) :: todo) full (Some (f_data fr))))) -> triple (L := L) c k (ReadFrame f) Q.
Proof.
  intros Es Eck Erd HQ. apply triple_read; [done|]. intros w g cl o Hi Ek. cbn [exec fst].
  set (fr := log_frame (w_log w) f). exists (with_ck k (CFill sf b ((p, f) :: todo) full (Some (f_data fr)))).
  split; [|apply HQ]. exists g. claims c Hi Ek Es. apply inv_claim_ck; [done|done|done|by rewrite Eck|].
  conn_split Es. unfold ck_ok in *. rewrite Eck in Hck. cbn. destruct Hck as (H1 & H2 & H3 & H4 & H5 & H6 & H7 & H8 & H9 & _). tauto.
Qed.

(** With the write lock and the checkpoint lock: the whole log is copied. *)
Lemma t_load_all k s fr (Q : Z -> claim -> Prop) : sn k = Some s -> wr k = Some fr -> lk k WAL_CKPT_LOCK = Ex -> rs k = false ->
  ck k = CNone -> (forall v, v < s_mx s -> Q v k) -> (forall v, s_mx s <= v -> Q v (with_al k true)) ->
  triple (L := L) c k LoadBackfill Q.
Proof.
  intros Es Ewr Hl Ers Eck Q1 Q2. apply triple_read; [done|]. intros w g cl o Hi Ek. cbn [exec fst].
  destruct (Z.le_gt_cases (s_mx s) (nBackfill (w_info w))) as [Hle|Hgt].
  - exists (with_al k true). split; [|by apply Q2]. exists g. claims c Hi Ek Es. unfold wr_ok in Hwr. rewrite Ewr in Hwr.
    destruct Hwr as (Hlw & E & Hwr).
    assert (HB : nBackfill (w_info w) = g_B g) by (eapply (backfill_writer w g cl); rewrite ?Ek; done).
    assert (Em : s_mx s = mxFrame w) by (unfold s_mx, mxFrame; by rewrite E).
    apply inv_claim_quiet; [done|done|by rewrite Ek|by rewrite Ek| |by left|right; by rewrite Ek|by apply ck_reader_none1].
    conn_split Es; [by unfold wr_ok; cbn; rewrite Ewr|]. intros _. split; [cbn; congruence|]. split; [done|]. lia.
  - exists k. split; [|apply Q1; lia]. exists g. rewrite <- Ek. by apply inv_same.
Qed.
End reads.

Section updates.
Context {L : Type} {LM : LockManager L} {LL : LockLaws L}.
Implicit Types (w : world L) (g : ghost) (k : claim) (cl : Z -> claim).
Context (c : Z) (Hconn : lk_conn c = true).


(** *** Weakening and advancing a claim without an action *)

(** Claims that only forget. *)
Lemma upd_forget k k' : (forall s, lk k' s = lk k s) -> rs k' = rs k ->
  (forall w g, conn_ok w g k -> conn_ok (L := L) w g k') ->
  ck k' = CNone \/ (sn k' = sn k /\ ck k' = ck k) -> (forall j F0, rd k' <> RLog j F0) \/ (sn k' = sn k /\ rd k' = rd k) ->
  upd (L := L) c k k'.
Proof.
  intros Hl Hr Hk Hck Hrd w cl [g Hi] Ek. exists g. apply inv_claim_quiet; [done|done|by rewrite Ek|by rewrite Ek| |by rewrite Ek|by rewrite Ek|].
  - apply Hk. rewrite <- Ek. apply (i_conn _ _ _ Hi).
  - destruct Hck as [E|[E1 E2]]; [by apply ck_reader_none1|]. destruct Hrd as [E|[E3 E4]]; [by apply ck_reader_none2|].
    apply (ck_reader_same1 g k); [done..|]. apply (ck_reader_same2 g _ k); [done..|]. rewrite <- Ek. apply (i_ck _ _ _ Hi).
Qed.
Lemma upd_no_read k : upd (L := L) c k (with_rd k RNone).
Proof.
  apply upd_forget; [done|done| |by right|by left]. intros w g (H1 & H2 & H3). split; [|done]. cbn [sn with_rd].
  destruct (sn k); [destruct H1 as (? & ? & ? & ? & ? & ?)|destruct H1 as (? & ? & ? & ? & ?)]; split_and!; done.
Qed.
Lemma upd_no_ck k : upd (L := L) c k (with_ck k CNone).
Proof.
  apply upd_forget; [done|done| |by left|by right]. intros w g (H1 & H2 & H3). split; [|done]. cbn [sn with_ck].
  destruct (sn k); [destruct H1 as (? & ? & ? & ? & ? & ?)|destruct H1 as (? & ? & ? & ? & ?)]; split_and!; done.
Qed.
(** Keep nothing but the locks. *)
Definition bare k : claim := mkClaim (lk k) None false RNone None None false false CNone.
Lemma upd_bare k : rs k = false -> upd (L := L) c k (bare k).
Proof. intros Hr. apply upd_forget; [done|done| |by left|by left]. by intros w g _. Qed.
Lemma upd_no_write k : upd (L := L) c k (with_wr k None).
Proof.
  apply upd_forget; [done|done| |by right|by right]. intros w g (H1 & H2 & H3). split; [|by split]. cbn [sn with_wr].
  destruct (sn k); [destruct H1 as (? & ? & ? & ? & ? & ?)|destruct H1 as (? & ? & ? & ? & ?)]; split_and!; done.
Qed.

(** A slot is done with: no reader holds it, or its mark is no bound, or it is the new
    bound. *)
Lemma upd_scan k s sf i y sf' : sn k = Some s -> ck k = CScan sf i y None None -> (forall j F0, rd k <> RLog j F0) ->
  (lk k (WAL_READ_LOCK i) = Ex /\ sf' = sf) \/ (exists y', y = Some y' /\ sf' = Z.min sf y') ->
  upd (L := L) c k (with_ck k (CScan sf' (i + 1) None None None)).
Proof.
  intros Es Eck Erd Hcase w cl [g Hi] Ek. exists g. claims c Hi Ek Es.
  assert (Hle : sf' <= sf) by (destruct Hcase as [[_ ->]|(y' & _ & ->)]; lia).
  apply inv_claim; [done|done|by rewrite Ek|by rewrite Ek| |by apply ck_reader_none2|].
  - split; [|done]. cbn [sn with_ck]. rewrite Es. split; [done|]. split; [done|]. split; [done|]. split; [done|]. split; [done|].
    unfold ck_ok in *. rewrite Eck in Hck. cbn. destruct Hck as [H1 H2]. split; [done|]. intros Hg. destruct (H2 Hg) as (? & ? & _).
    split; [done|]. split; [lia|done].
  - intros c' Hne. split; [|by apply ck_reader_none2]. intros s1 s2 j F0 E1 E2 Er Eg. cbn in E1 |- *.
    pose proof (i_ck _ _ _ Hi c c' s1 s2 j F0) as H. rewrite Ek, Eck in H. specialize (H E1 E2 Er Eg).
    destruct H as [H|[H|[H1 H2]]]; [by left|right; left; lia|].
    destruct (decide (j = i)) as [->|Hji]; [|right; right; split; [lia|done]].
    destruct Hcase as [[Hl _]|(y' & -> & ->)]; [|right; left; specialize (H2 eq_refl y' eq_refl); lia].
    destruct (conn_ok_some _ _ _ _ (i_conn _ _ _ Hi c') E2) as (_ & _ & Hr & _). unfold rd_ok in Hr. rewrite Er in Hr.
    destruct Hr as (_ & Hr & _). rewrite (locks_apart _ _ _ c c' (WAL_READ_LOCK i) Hi) in Hr by (done || by rewrite Ek). done.
Qed.

(** *** Actions on the checkpoint information *)

Lemma info_actions w g cl f : inv_at w g cl -> (forall x, nBackfill (f x) = nBackfill x /\ aReadMark (f x) = aReadMark x) ->
  inv_at (with_info w f) g cl.
Proof.
  intros Hi Hf. destruct (Hf (w_info w)) as [E1 E2]. destruct Hi. split; cbn; rewrite ?E1, ?E2; try done.
  intros c'. destruct (i_conn c') as (H1 & H2 & H3). split; [|done]. destruct (sn (cl c')); [|done].
  destruct H1 as (? & ? & H & ?). split; [done|]. split; [done|]. split; [|done]. unfold rd_ok in *. cbn. by rewrite E2.
Qed.
Lemma t_attempted k v (Q : unit -> claim -> Prop) : Q tt k -> triple (L := L) c k (StoreAttempted v) Q.
Proof.
  intros HQ. apply triple_intro. intros w cl o [g Hi] Ek _. exists k. split; [|done]. exists g. rewrite <- Ek.
  apply inv_same. by apply info_actions.
Qed.

Lemma t_store_mark k i v (Q : unit -> claim -> Prop) : lk k (WAL_READ_LOCK i) = Ex -> Q tt k -> triple (L := L) c k (StoreMark i v) Q.
Proof.
  intros Hl HQ. apply triple_intro. intros w cl o [g Hi] Ek _. exists k. split; [|done]. exists g. rewrite <- Ek.
  apply inv_same. cbn [exec snd].
  assert (Hns : forall c' j, lk (cl c') (WAL_READ_LOCK j) = Sh -> j <> i).
  { intros c' j Hj ->. destruct (decide (c' = c)) as [->|Hne]; [congruence|].
    rewrite (locks_apart _ _ _ c c' (WAL_READ_LOCK i) Hi) in Hj by (done || by rewrite Ek). done. }
  destruct Hi. split; try done; [by cbn; rewrite zlen_zput|].
  intros c'. destruct (i_conn c') as (H1 & H2 & H3). split; [|done]. destruct (sn (cl c')); [|done].
  destruct H1 as (? & ? & H & ?). split; [done|]. split; [done|]. split; [|done]. unfold rd_ok in *. cbn. destruct (rd (cl c')); [done|done|..].
  - destruct H as (J1 & J2 & J3 & J4). rewrite zget_zput_ne by (by apply Hns in J2). done.
  - destruct H as (J1 & J2 & J3). rewrite zget_zput_ne by (by apply Hns in J2). done.
Qed.

(** The restart of the log also forgets how much of it was copied. *)
Lemma t_store_zero k (Q : unit -> claim -> Prop) : rs k = true ->
  Q tt (mkClaim (lk k) (sn k) (bf k) (rd k) (loc k) (wr k) false (al k) (ck k)) -> triple (L := L) c k (StoreBackfill 0) Q.
Proof.
  intros Hr HQ. apply triple_intro. intros w cl o [g Hi] Ek _.
  set (k' := mkClaim (lk k) (sn k) (bf k) (rd k) (loc k) (wr k) false (al k) (ck k)). exists k'. split; [|done]. exists g. cbn [exec snd].
  pose proof (i_conn _ _ _ Hi c) as Hk. rewrite Ek in Hk. destruct Hk as (Hk1 & Hk2 & Hk3). destruct (Hk3 Hr) as (_ & _ & _ & HB & HL).
  pose proof (i_ck _ _ _ Hi) as Hck. destruct Hi. split; try done.
  - intros c' s'. pattern c', (<[c := k']> cl c'). apply upd_cases; [rewrite i_lk, Ek by done; done|auto].
  - intros c' Hc'. rewrite upd_ne; [auto|congruence].
  - unfold mxFrame in *. cbn. lia.
  - left. cbn. lia.
  - intros c'. pattern c', (<[c := k']> cl c'). apply upd_cases; [by split|]. intros c'' _. apply i_conn.
  - apply upd_pairs; [| |done].
    + apply (ck_reader_same1 g k); [done..|]. apply (ck_reader_same2 g _ k); [done..|]. rewrite <- Ek. apply Hck.
    + intros c' _. split; [apply (ck_reader_same1 g k)|apply (ck_reader_same2 g _ k)]; try done; rewrite <- Ek; apply Hck.
Qed.
End updates.

Section writes.
Context {L : Type} {LM : LockManager L} {LL : LockLaws L}.
Implicit Types (w : world L) (g : ghost) (k : claim) (cl : Z -> claim).
Context (c : Z) (Hconn : lk_conn c = true).


(** *** Writing frames beyond the published ones *)

(** Nobody but the writer looks beyond the published frames. *)
Lemma log_parts w g k s log' : 0 <= g_B g -> same_upto (w_log w) log' (mxFrame w) -> mxFrame w <= zlen (w_log w) -> mxFrame w <= zlen log' ->
  sn_ok w g s -> rd_ok w g k s -> loc_ok w k s -> ck_ok w g k s ->
  let w' := set_log w log' in sn_ok w' g s /\ rd_ok w' g k s /\ loc_ok w' k s /\ ck_ok w' g k s.
Proof.
  intros HB Hu Hl Hl' Hsn Hrd Hloc Hck w'. pose proof Hsn as (H1 & H2 & H3 & H4 & H5).
  assert (Hnew : s_gen s = g_gen g -> forall lo p, 0 <= lo <= s_mx s ->
            newest_frame (w_log w) (lo + 1) (s_mx s) p = newest_frame log' (lo + 1) (s_mx s) p).
  { intros Hg lo p Hlo. destruct (H4 Hg) as [Hle _]. by eapply same_upto_newest. }
  assert (Hnew1 : s_gen s = g_gen g -> forall p, newest_frame (w_log w) 1 (s_mx s) p = newest_frame log' 1 (s_mx s) p)
    by (intros Hg p; apply (Hnew Hg 0); lia).
  assert (Hfr : s_gen s = g_gen g -> forall f, 1 <= f <= s_mx s -> log_frame (w_log w) f = log_frame log' f).
  { intros Hg f Hf. destruct (H4 Hg) as [Hle _]. eapply same_upto_frame; [done|lia]. }
  split_and!.
  - split; [done|]. split; [done|]. split; [done|]. split; [|done]. intros Hg. destruct (H4 Hg) as (Hle & Himg & Heq).
    split; [done|]. split; [|done]. rewrite Himg. apply view_take, same_upto_le with (mxFrame w); done.
  - unfold rd_ok in *. destruct (rd k) as [| | |j F0]; [done| |done|].
    + destruct Hrd as (? & Hc & ?). split; [done|]. split; [|done]. intros p d _. apply Hc. intros f Hf. lia.
    + destruct Hrd as (R1 & R2 & R3 & R4 & R5 & R6 & Hc). split_and!; try done; try lia. intros p d Hp. apply Hc. destruct (H4 R3) as [Hle _].
      apply (same_upto_untouched (w_log w) log' (mxFrame w)); [done|lia|lia|done].
  - unfold loc_ok in *. destruct (loc k) as [[p f]|]; [|done]. unfold rd_ok in Hrd. destruct (rd k) as [| | |j F0]; try done.
    destruct Hrd as (R1 & R2 & R3 & R4 & R5 & _). cbn. rewrite <- Hnew by (done || lia). done.
  - unfold ck_ok in *. destruct (ck k) as [|sf i y ob it|sf b todo full cur]; [done|..].
    + destruct Hck as (? & Hck). split; [done|]. intros Hg. destruct (Hck Hg) as (? & ? & ? & Hit). split_and!; try done.
      destruct it as [l|]; [|done]. destruct Hit as [I1 I2]. unfold iter_ok. cbn.
      split; [intros p f; rewrite <- (Hnew1 Hg p); apply I1|intros p; rewrite <- (Hnew1 Hg p); apply I2].
    + destruct Hck as (C1 & C2 & C3 & C4 & C5 & C6 & C7 & C8 & C9 & C10). split_and!; try done; try lia.
      * intros p f. cbn. rewrite <- (Hnew1 C3 p). apply C8.
      * intros p. cbn. rewrite <- (Hnew1 C3 p). intros Hf Hp. rewrite <- Hfr by (done || lia). by apply C9.
      * destruct cur as [d|]; [|done]. destruct todo as [|[p f] todo]; [done|]. cbn. destruct (C8 p f) as [Ef Hf0]; [by left|].
        rewrite <- Hfr; [done|done|]. destruct (newest_frame_cases (w_log w) 0 (s_mx s) p) as [[E _]|(r & E & Hr & _)];
          [lia|destruct (H4 C3); lia|..]; change (0 + 1) with 1 in E; lia.
Qed.

Lemma inv_log w g cl k k' s log' : inv_at w g cl -> cl c = k -> sn k = Some s -> lk k WAL_WRITE_LOCK = Ex ->
  same_upto (w_log w) log' (mxFrame w) -> mxFrame w <= zlen log' ->
  k' = with_wr k (wr k') -> wr k' <> None -> wr_ok (set_log w log') g k' s -> inv_at (set_log w log') g (<[c := k']> cl).
Proof.
  intros Hi Ek Es Hl Hu Hl' E' Hsome Hwr'. rewrite E' in *. claims c Hi Ek Es. set (x := wr k') in *. clearbody x. clear k' E'.
  assert (Ho : forall c', c' <> c -> wr (cl c') = None).
  { intros c' Hne. destruct (wr (cl c')) as [fr|] eqn:E; [|done]. exfalso. destruct (i_conn _ _ _ Hi c') as [H _].
    destruct (sn (cl c')); [|destruct H as (_ & _ & H & _); congruence]. destruct H as (_ & _ & _ & _ & H & _).
    unfold wr_ok in H. rewrite E in H. destruct H as [H _].
    rewrite (locks_apart _ _ _ c c' WAL_WRITE_LOCK Hi) in H by (done || by rewrite Ek). done. }
  pose proof (i_ck _ _ _ Hi) as Hck0. destruct Hi. split; try done.
  - intros c' s'. pattern c', (<[c := with_wr k x]> cl c'). apply upd_cases; [rewrite i_lk, Ek by done; done|auto].
  - intros c' Hc'. rewrite upd_ne; [auto|congruence].
  - unfold mxFrame in *. cbn. lia.
  - destruct i_backfill as [|[c' Hr]]; [by left|right]. exists c'. destruct (decide (c' = c)) as [->|Hne].
    + rewrite upd_eq. by rewrite Ek in Hr.
    + by rewrite upd_ne.
  - cbn. rewrite i_last. do 2 f_equal. by apply view_take.
  - intros p d Hp Hd. apply i_db.
    + apply (same_upto_untouched (w_log w) log' (mxFrame w)); [done|lia|lia|done].
    + rewrite <- Hd. unfold gview. f_equal. apply view_take, same_upto_le with (mxFrame w); [done|lia].
  - intros c'. pattern c', (<[c := with_wr k x]> cl c'). apply upd_cases.
    + destruct (log_parts w g k s log' ltac:(lia) Hu ltac:(lia) Hl' Hsn Hrd Hloc Hck) as (P1 & P2 & P3 & P4).
      split; [|by split]. cbn [sn with_wr]. rewrite Es. by split_and!.
    + intros c'' Hne. specialize (Ho c'' Hne). destruct (i_conn c'') as (J1 & J2 & J3). split; [|by split].
      destruct (sn (cl c'')) as [s''|] eqn:E''; [|done]. destruct J1 as (J4 & J5 & J6 & J7 & J8 & J9).
      destruct (log_parts w g (cl c'') s'' log' ltac:(lia) Hu ltac:(lia) Hl' J4 J6 J7 J9) as (P1 & P2 & P3 & P4).
      split_and!; try done. unfold wr_ok. by rewrite Ho.
  - apply upd_pairs; [| |done].
    + apply (ck_reader_same1 g k); [done..|]. apply (ck_reader_same2 g _ k); [done..|]. rewrite <- Ek. apply Hck0.
    + intros c' _. split; [apply (ck_reader_same1 g k)|apply (ck_reader_same2 g _ k)]; try done; rewrite <- Ek; apply Hck0.
Qed.

(** The frames of the writer after one more write, at position [n] after the published
    ones; frames behind it are forgotten. *)
Lemma slice_put (log : list frame) (m n : Z) (fr : list (Z * Z * page)) (f : frame) :
  0 <= m -> 0 <= n <= zlen fr -> m + zlen fr <= zlen log -> map core (slice log m (zlen fr)) = fr ->
  map core (slice (log_put log (m + n + 1) f) m (n + 1)) = take (Z.to_nat n) fr ++ [core f].
Proof.
  intros Hm Hn Hlen Hfr. apply list_eq. intros i. change (map core ?l) with (core <$> l). rewrite list_lookup_fmap.
  rewrite <- Hfr. change (map core ?l) with (core <$> l). unfold slice.
  destruct (decide (Z.of_nat i < n + 1)) as [Hi|Hi].
  - rewrite lookup_take_lt, lookup_drop by lia.
    assert (E : log_put log (m + n + 1) f !! (Z.to_nat m + i)%nat = Some (log_frame (log_put log (m + n + 1) f) (m + Z.of_nat i + 1))).
    { pose proof (log_put_length log (m + n + 1) f ltac:(lia) ltac:(lia)) as Hll. unfold log_frame, zget, zlookup, zlen in *.
      rewrite (proj2 (Z.leb_le _ _)) by lia. replace (Z.to_nat (m + Z.of_nat i + 1 - 1)) with (Z.to_nat m + i)%nat by lia.
      destruct (lookup_lt_is_Some_2 (log_put log (m + n + 1) f) (Z.to_nat m + i) ltac:(lia)) as [x ->]. done. }
    rewrite E, log_put_frame by lia. cbn [fmap option_fmap option_map].
    destruct (Z.eqb_spec (m + Z.of_nat i + 1) (m + n + 1)) as [Eq|Hne].
    + replace i with (length (take (Z.to_nat n) (core <$> take (Z.to_nat (zlen fr)) (drop (Z.to_nat m) log))) + 0)%nat.
      * rewrite lookup_app_r by lia. by rewrite Nat.add_sub_swap, Nat.sub_diag by lia.
      * rewrite length_take, length_fmap, length_take, length_drop. unfold zlen in *. lia.
    + assert (Hlt : (i < length (take (Z.to_nat n) (core <$> take (Z.to_nat (zlen fr)) (drop (Z.to_nat m) log))))%nat).
      { rewrite length_take, length_fmap, length_take, length_drop. unfold zlen in *. lia. }
      rewrite lookup_app_l by done. rewrite lookup_take_lt, list_lookup_fmap, lookup_take_lt, lookup_drop by (unfold zlen in *; lia).
      unfold log_frame, zget, zlookup, zlen in *. rewrite (proj2 (Z.leb_le _ _)) by lia.
      replace (Z.to_nat (m + Z.of_nat i + 1 - 1)) with (Z.to_nat m + i)%nat by lia.
      destruct (lookup_lt_is_Some_2 log (Z.to_nat m + i) ltac:(lia)) as [x ->]. done.
  - rewrite lookup_take_ge by lia. cbn. symmetry. apply lookup_ge_None. rewrite length_app, length_take, length_fmap, length_take, length_drop.
    unfold zlen in *. cbn. lia.
Qed.
End writes.

Section commits.
Context {L : Type} {LM : LockManager L} {LL : LockLaws L}.
Implicit Types (w : world L) (g : ghost) (k : claim) (cl : Z -> claim).
Context (c : Z) (Hconn : lk_conn c = true).

Lemma writer_claim w g k s fr : wr_ok w g k s -> wr k = Some fr ->
  lk k WAL_WRITE_LOCK = Ex /\ s_hdr s = w_live w /\ s_gen s = g_gen g /\ s_mx s = mxFrame w /\
  mxFrame w + zlen fr <= zlen (w_log w) /\ map core (slice (w_log w) (mxFrame w) (zlen fr)) = fr.
Proof. unfold wr_ok. intros H E. rewrite E in H. destruct H as (? & E' & ?). unfold s_mx, mxFrame. rewrite E'. tauto. Qed.

Lemma t_write_frame k s fr n f (Q : Z -> claim -> Prop) : sn k = Some s -> wr k = Some fr -> 0 <= n <= zlen fr ->
  (forall rc x, (truthy rc = false -> x = core f) -> Q rc (with_wr k (Some (take (Z.to_nat n) fr ++ [x])))) ->
  triple (L := L) c k (WriteFrame (s_mx s + n + 1) f) Q.
Proof.
  intros Es Ewr Hn HQ. apply triple_intro. intros w cl o [g Hi] Ek _. cbn [exec fst snd]. claims c Hi Ek Es.
  destruct (writer_claim _ _ _ _ _ Hwr Ewr) as (Hl & E & Hg & Em & Hlen & Hfr). rewrite Em.
  set (f' := if truthy (o_rc o) then o_frame o else f). exists (with_wr k (Some (take (Z.to_nat n) fr ++ [core f']))).
  split; [|apply HQ; unfold f'; by intros ->]. exists g.
  pose proof (log_put_length (w_log w) (mxFrame w + n + 1) f' ltac:(lia) ltac:(lia)) as Hll.
  eapply (inv_log c Hconn w g cl k _ s); try done; [apply log_put_same; lia|lia|].
  unfold wr_ok. cbn. assert (Ez : zlen (take (Z.to_nat n) fr ++ [core f']) = n + 1).
  { rewrite zlen_snoc. unfold zlen in *. rewrite length_take. lia. }
  rewrite Ez. split; [done|]. split; [done|]. split; [done|]. change (mxFrame (set_log w ?x)) with (mxFrame w).
  split; [lia|]. apply slice_put; [lia|lia|lia|done].
Qed.

(** A frame of the transaction written again, in place. *)
Lemma inv_overwrite w g cl k s fr n f' : inv_at w g cl -> cl c = k -> sn k = Some s -> wr k = Some fr -> 0 <= n < zlen fr ->
  inv_at (set_log w (log_put (w_log w) (s_mx s + n + 1) f')) g (<[c := with_wr k (Some (<[Z.to_nat n := core f']> fr))]> cl).
Proof.
  intros Hi Ek Es Ewr Hn. claims c Hi Ek Es.
  destruct (writer_claim _ _ _ _ _ Hwr Ewr) as (Hl & E & Hg & Em & Hlen & Hfr). rewrite Em.
  assert (Ein : log_put (w_log w) (mxFrame w + n + 1) f' = <[(Z.to_nat (mxFrame w) + Z.to_nat n)%nat := f']> (w_log w)).
  { unfold log_put. replace (Z.to_nat (mxFrame w + n + 1 - 1)) with (Z.to_nat (mxFrame w) + Z.to_nat n)%nat by lia.
    rewrite take_app_le by (unfold zlen in *; lia). rewrite insert_take_drop by (unfold zlen in *; lia). done. }
  eapply (inv_log c Hconn w g cl k _ s); try done.
  - apply log_put_same; unfold zlen in *; lia.
  - rewrite log_put_length; unfold zlen in *; lia.
  - unfold wr_ok. cbn. unfold zlen. rewrite length_insert. fold (zlen fr). split; [done|]. split; [done|]. split; [done|].
    change (mxFrame (set_log w ?x)) with (mxFrame w). rewrite Ein, length_insert. split; [done|]. unfold slice.
    rewrite drop_insert_ge, take_insert_lt by (unfold zlen in *; lia). change (map core ?l) with (core <$> l).
    rewrite list_fmap_insert. change (core <$> ?l) with (map core l). unfold slice in Hfr. rewrite Hfr.
    by replace (Z.to_nat (mxFrame w) + Z.to_nat n - Z.to_nat (mxFrame w))%nat with (Z.to_nat n) by lia.
Qed.
(** The frames of the transaction are in the log. *)
Lemma own_frame w g k s fr n x : 0 <= mxFrame w -> wr_ok w g k s -> wr k = Some fr -> 0 <= n -> fr !! Z.to_nat n = Some x ->
  core (log_frame (w_log w) (s_mx s + n + 1)) = x.
Proof.
  intros Hm Hwr Ewr Hn Hlook. destruct (writer_claim _ _ _ _ _ Hwr Ewr) as (Hl & E & Hg & Em & Hlen & Hfr). rewrite Em.
  pose proof (lookup_lt_Some _ _ _ Hlook) as Hlt. rewrite <- Hfr in Hlook. change (map core ?l) with (core <$> l) in Hlook.
  rewrite list_lookup_fmap in Hlook. unfold slice in Hlook. rewrite lookup_take_lt, lookup_drop in Hlook by (unfold zlen; lia).
  unfold log_frame, zget, zlookup, zlen in *. rewrite (proj2 (Z.leb_le _ _)) by lia.
  replace (Z.to_nat (mxFrame w + n + 1 - 1)) with (Z.to_nat (mxFrame w) + Z.to_nat n)%nat by lia.
  destruct (w_log w !! _) as [f|]; cbn in *; [congruence|done].
Qed.

Lemma t_write_data k s fr n pg tr d0 d (Q : Z -> claim -> Prop) : sn k = Some s -> wr k = Some fr -> 0 <= n ->
  fr !! Z.to_nat n = Some (pg, tr, d0) ->
  (forall rc d', Q rc (with_wr k (Some (<[Z.to_nat n := (pg, tr, d')]> fr)))) ->
  triple (L := L) c k (WriteData (s_mx s + n + 1) d) Q.
Proof.
  intros Es Ewr Hn Hlook HQ. apply triple_intro. intros w cl o [g Hi] Ek _. cbn [exec fst snd]. claims c Hi Ek Es.
  pose proof (own_frame w g k s fr n _ ltac:(lia) Hwr Ewr Hn Hlook) as Ec. pose proof (lookup_lt_Some _ _ _ Hlook) as Hlt.
  set (d' := if truthy (o_rc o) then f_data (o_frame o) else d). exists (with_wr k (Some (<[Z.to_nat n := (pg, tr, d')]> fr))).
  split; [|apply HQ]. exists g. unfold core in Ec. injection Ec as <- <- _. by apply (inv_overwrite w g cl k s fr n); [..|unfold zlen; lia].
Qed.
Lemma t_rewrite_frame k s fr n f (Q : Z -> claim -> Prop) : sn k = Some s -> wr k = Some fr -> 0 <= n < zlen fr ->
  (forall rc x, (truthy rc = false -> x = core f) -> Q rc (with_wr k (Some (<[Z.to_nat n := x]> fr)))) ->
  triple (L := L) c k (WriteFrame (s_mx s + n + 1) f) Q.
Proof.
  intros Es Ewr Hn HQ. apply triple_intro. intros w cl o [g Hi] Ek _. cbn [exec fst snd].
  set (f' := if truthy (o_rc o) then o_frame o else f). exists (with_wr k (Some (<[Z.to_nat n := core f']> fr))).
  split; [exists g; by apply (inv_overwrite w g cl k s fr n)|]. apply HQ. unfold f'. by intros ->.
Qed.

Lemma t_log_head k a (Q : Z -> claim -> Prop) : (forall rc, Q rc k) -> triple (L := L) c k (WriteLogHead a) Q.
Proof.
  intros HQ. apply triple_intro. intros w cl o [g Hi] Ek _. exists k. split; [|apply HQ]. exists g. rewrite <- Ek.
  apply inv_same. by destruct Hi.
Qed.
(** An empty log may be cut. *)
Lemma t_truncate_log k s (Q : Z -> claim -> Prop) : sn k = Some s -> wr k = Some [] -> s_mx s = 0 ->
  (forall rc, Q rc (with_wr k (Some []))) -> triple (L := L) c k TruncateLog Q.
Proof.
  intros Es Ewr Hmx HQ. apply triple_intro. intros w cl o [g Hi] Ek _. exists (with_wr k (Some [])). split; [|apply HQ]. exists g.
  claims c Hi Ek Es. destruct (writer_claim _ _ _ _ _ Hwr Ewr) as (Hl & E & Hg & Em & Hlen & Hfr). cbn [exec snd].
  assert (Hfin : forall log', inv_at (set_log w log') g (<[c := with_wr k (Some [])]> cl)).
  { intros log'. eapply (inv_log c Hconn w g cl k _ s); try done.
    - unfold same_upto. by replace (mxFrame w) with 0 by lia.
    - unfold zlen. lia.
    - apply wr_ok_nil; try done. change (mxFrame (set_log w ?x)) with (mxFrame w). unfold zlen. lia. }
  destruct (truthy (o_rc o)); [|apply Hfin]. specialize (Hfin (w_log w)). by destruct w.
Qed.

Lemma t_emit k s p d (Q : unit -> claim -> Prop) : sn k = Some s -> (forall d', s_img s !! p = Some d' -> d = Some d') ->
  Q tt k -> triple (L := L) c k (Emit (EvRead (s_hdr s) p d)) Q.
Proof.
  intros Es Hd HQ. apply triple_intro. intros w cl o [g Hi] Ek _. exists k. split; [|done]. exists g. rewrite <- Ek.
  apply inv_same. claims c Hi Ek Es. destruct Hi. split; try done. cbn. intros c' e. rewrite elem_of_app, list_elem_of_singleton.
  intros [He|[= -> ->]]; [by eapply i_trace|]. exists (s_img s). split; [by destruct Hsn|done].
Qed.

(** *** Publishing a header *)

Lemma view_slice base log m n : 0 <= m -> 0 <= n -> m + n <= zlen log ->
  apply_frames (view base log m) (slice log m n) = view base log (m + n).
Proof.
  intros Hm Hn Hl. unfold view, apply_frames, slice. rewrite <- foldl_app. f_equal.
  replace (Z.to_nat (m + n)) with (Z.to_nat m + Z.to_nat n)%nat by lia. by rewrite take_take_drop.
Qed.
(** The others at a commit: they hold older headers and do not write. *)
Lemma commit_other w g k h hist' : mxFrame w < h_mxFrame h -> (forall e, e ∈ w_hist w -> e ∈ hist') ->
  h_aSalt h = h_aSalt (w_live w) \/ Forall (fun e => h_aSalt (fst e) <> h_aSalt h) (w_hist w) ->
  wr k = None -> lk k WAL_WRITE_LOCK <> Ex -> conn_ok w g k -> conn_ok (set_live (set_hist w hist') h) g k.
Proof.
  intros Hmx Hhist Hsalt Ewr Hl (H1 & H2 & H3). split; [|split].
  - destruct (sn k) as [s|]; [|done]. destruct H1 as ((S1 & S2 & S3 & S4 & S5) & J2 & J3 & J4 & J5 & J6). split_and!; try done.
    + split; [by apply Hhist|]. split; [done|]. split; [done|]. split.
      * intros Hg. destruct (S4 Hg) as (T1 & T2 & T3). split; [unfold mxFrame in *; cbn; lia|]. split; [done|].
        unfold mxFrame in *. cbn. intros E. lia.
      * intros Hg. cbn. destruct Hsalt as [->|Hf]; [by apply S5|]. rewrite Forall_forall in Hf.
        by apply (Hf (s_hdr s, s_img s)).
    + unfold wr_ok. by rewrite Ewr.
  - intros E. destruct (H2 E) as [H _]. done.
  - intros E. destruct (H3 E) as [H _]. done.
Qed.

(** Nobody else writes or restarts. *)
Lemma sole_writer w g cl c' : inv_at w g cl -> lk (cl c) WAL_WRITE_LOCK = Ex -> c' <> c ->
  wr (cl c') = None /\ lk (cl c') WAL_WRITE_LOCK = Free /\ rs (cl c') = false.
Proof.
  intros Hi Hl Hne. pose proof (locks_apart _ _ _ c c' WAL_WRITE_LOCK Hi Hl Hne) as Hf. destruct (i_conn _ _ _ Hi c') as (H1 & _ & H3).
  split_and!; [|done|].
  - destruct (wr (cl c')) as [fr|] eqn:E; [|done]. exfalso.
    destruct (sn (cl c')); [|destruct H1 as (_ & _ & H & _); congruence]. destruct H1 as (_ & _ & _ & _ & H & _).
    unfold wr_ok in H. rewrite E in H. destruct H as [H _]. congruence.
  - destruct (rs (cl c')) eqn:E; [|done]. destruct (H3 E) as [H _]. congruence.
Qed.

(** A header that is new: its salts are, or it ends the log further on. *)
Lemma hist_snoc w g cl h img0 : inv_at w g cl ->
  (h_aSalt h = h_aSalt (w_live w) /\ mxFrame w < h_mxFrame h) \/ Forall (fun e => h_aSalt (fst e) <> h_aSalt h) (w_hist w) ->
  (forall h' img img', (h', img) ∈ w_hist w ++ [(h, img0)] -> (h', img') ∈ w_hist w ++ [(h, img0)] -> img = img') /\
  (forall h' img, (h', img) ∈ w_hist w ++ [(h, img0)] -> h_aSalt h' = h_aSalt h -> h_mxFrame h' <= h_mxFrame h).
Proof.
  intros Hi Hnew.
  assert (Hold : forall img, (h, img) ∈ w_hist w -> False).
  { intros img Hin. destruct Hnew as [[Es Hm]|Hf].
    - pose proof (i_gen _ _ _ Hi h img Hin Es). lia.
    - rewrite Forall_forall in Hf. by destruct (Hf _ Hin). }
  split.
  - intros h' img img'. rewrite !elem_of_app, !list_elem_of_singleton. intros [H1|E1] [H2|E2]; simplify_eq; try done.
    + by eapply (i_uniq _ _ _ Hi).
    + by destruct (Hold img).
    + by destruct (Hold img').
  - intros h' img. rewrite elem_of_app, list_elem_of_singleton. intros [H1|[= -> ->]] Es; [|done]. destruct Hnew as [[E Hm]|Hf].
    + pose proof (i_gen _ _ _ Hi h' img H1 ltac:(congruence)). lia.
    + rewrite Forall_forall in Hf. by destruct (Hf _ H1).
Qed.

Definition committed k (s : snap) : claim := mkClaim (lk k) (Some s) false (rd k) None (Some []) false false CNone.
Lemma t_commit k s fr n h pg d (Q : unit -> claim -> Prop) :
  sn k = Some s -> wr k = Some fr -> rs k = false -> rd k <> RZero -> ck k = CNone ->
  0 < n <= zlen fr -> h_mxFrame h = s_mx s + n -> fr !! Z.to_nat (n - 1) = Some (pg, h_nPage h, d) -> 0 < h_nPage h ->
  zlen (h_aSalt h) = 8 -> (forall s', s_hdr s' = h -> Q tt (committed k s')) -> triple (L := L) c k (WriteHdr h) Q.
Proof.
  intros Es Ewr Ers Hnz Eck Hn Hh Hlast Hpos Hsz HQ. apply triple_intro. intros w cl o [g Hi] Ek Hfresh. cbn [exec fst snd].
  claims c Hi Ek Es. destruct (writer_claim _ _ _ _ _ Hwr Ewr) as (Hl & E & Hg & Em & Hlen & Hfr).
  set (s' := mkSnap h (g_gen g) (gview w g (h_mxFrame h))). exists (committed k s'). split; [|by apply HQ]. exists g.
  assert (Enext : next_image w h = gview w g (h_mxFrame h)).
  { unfold next_image, last_image. rewrite (i_last _ _ _ Hi). rewrite Hh, Em. replace (mxFrame w + n - mxFrame w) with n by lia.
    apply view_slice; lia. }
  rewrite Enext.
  assert (Hdom : forall p d', gview w g (h_mxFrame h) !! p = Some d' -> p <= h_nPage h).
  { intros p d' Hp. replace (h_mxFrame h) with (mxFrame w + (n - 1) + 1) in Hp by lia. unfold gview in Hp. rewrite view_S in Hp by lia.
    rewrite <- Hfr in Hlast. change (map core ?l) with (core <$> l) in Hlast. rewrite list_lookup_fmap in Hlast. unfold slice in Hlast.
    rewrite lookup_take_lt, lookup_drop in Hlast by (unfold zlen in *; lia).
    assert (Ef : w_log w !! (Z.to_nat (mxFrame w) + Z.to_nat (n - 1))%nat = Some (log_frame (w_log w) (mxFrame w + (n - 1) + 1))).
    { unfold log_frame, zget, zlookup, zlen in *. rewrite (proj2 (Z.leb_le _ _)) by lia.
      replace (Z.to_nat (mxFrame w + (n - 1) + 1 - 1)) with (Z.to_nat (mxFrame w) + Z.to_nat (n - 1))%nat by lia.
      destruct (lookup_lt_is_Some_2 (w_log w) (Z.to_nat (mxFrame w) + Z.to_nat (n - 1)) ltac:(lia)) as [x ->]. done. }
    rewrite Ef in Hlast. change (Some (core (log_frame (w_log w) (mxFrame w + (n - 1) + 1))) = Some (pg, h_nPage h, d)) in Hlast.
    unfold core in Hlast. injection Hlast as _ Et _. rewrite <- Et in *. by eapply apply_frame_dom. }
  destruct (hist_snoc w g cl h (gview w g (h_mxFrame h)) Hi) as [Huniq Hgen]; [destruct Hfresh as [Es'|]; [left; split; [done|lia]|by right]|].
  pose proof (sole_writer w g cl) as Hsole. pose proof Hi as Hi0. destruct Hi. split; try done.
  - intros c' s0. pattern c', (<[c := committed k s']> cl c'). apply upd_cases; [cbn; rewrite i_lk, Ek by done; done|auto].
  - intros c' Hc'. rewrite upd_ne; [auto|congruence].
  - unfold mxFrame in *. cbn. lia.
  - left. cbn. eapply (backfill_writer c Hconn w g cl); rewrite ?Ek; done.
  - cbn. by rewrite last_snoc.
  - cbn. intros h0 img p d0. rewrite elem_of_app, list_elem_of_singleton. intros [He|[= -> ->]]; [by eapply i_dom|apply Hdom].
  - cbn. intros h0 img. rewrite elem_of_app, list_elem_of_singleton. intros [He|[= -> ->]]; [by eapply i_salt|done].
  - cbn. intros c' [h0 p d0] He. destruct (i_trace c' _ He) as (img & H1 & H2). exists img. split; [|done]. apply elem_of_app. by left.
  - intros c'. pattern c', (<[c := committed k s']> cl c'). apply upd_cases.
    + split; [|split; [done|done]]. cbn [sn committed]. split_and!; try done.
      * unfold sn_ok, s', s_mx. cbn. split; [apply elem_of_app; right; by left|]. split; [lia|]. split; [lia|]. split; [|lia].
        intros _. unfold mxFrame. cbn. split; [lia|]. done.
      * unfold rd_ok in *. cbn [rd committed]. destruct (rd k) as [| |j F0 mk|j F0] eqn:Er; [done|done|..].
        -- destruct Hrd as (R1 & R2 & R3 & R4). cbn. split; [done|]. split; [done|]. split.
           ++ destruct F0 as [f0|]; [|done]. destruct R3 as [R3 R5]. split; [done|]. intros _. by apply R5.
           ++ intros Hmk. specialize (R4 Hmk). unfold s_mx, s'. cbn. lia.
        -- destruct Hrd as (R1 & R2 & R3 & R4 & R5 & R6 & R7). cbn. unfold s_mx, s'. cbn. split_and!; try done; try lia.
           intros p d' Hu Hp. apply R7; [eapply untouched_sub; [done|lia|lia]|]. rewrite (sn_img _ _ _ Hsn Hg).
           eapply (view_back _ _ _ (h_mxFrame h)); [lia|lia| |done]. eapply untouched_sub; [done|lia|lia].
      * apply wr_ok_nil; try done. unfold mxFrame in *. cbn. lia.
    + intros c'' Hne. destruct (Hsole c'' Hi0 ltac:(by rewrite Ek) Hne) as (T1 & T2 & T3).
      apply commit_other; [lia| |done|done|congruence|done]. intros e He. apply elem_of_app. by left.
  - apply upd_pairs; [by apply ck_reader_none1| |done]. intros c' Hne. split; [by apply ck_reader_none1|].
    intros s1 s2 j F0 E1 E2 Er Eg. cbn in E2, Er. injection E2 as <-. pose proof (i_ck c' c s1 s j F0) as H. rewrite Ek in H.
    specialize (H E1 Es Er Eg). assert (s_mx s <= s_mx s') by (unfold s_mx at 2, s'; cbn; lia).
    destruct (ck (cl c')); [done| |lia]. destruct H as [H|[H|[H1 H2]]]; [left; lia|right; left; lia|].
    right. right. split; [done|]. intros Ej y' Ey. specialize (H2 Ej y' Ey). lia.
Qed.
End commits.

Section restarts.
Context {L : Type} {LM : LockManager L} {LL : LockLaws L}.
Implicit Types (w : world L) (g : ghost) (k : claim) (cl : Z -> claim).
Context (c : Z) (Hconn : lk_conn c = true).

(** The others at a restart: none of them reads the log or copies it. *)
Lemma restart_other w g cl c' h hist' base : inv_at w g cl -> lk (cl c) WAL_WRITE_LOCK = Ex -> log_slots_ex (cl c) ->
  lk (cl c) READ0 = Sh \/ lk (cl c) WAL_CKPT_LOCK = Ex -> c' <> c ->
  (forall e, e ∈ w_hist w -> e ∈ hist') -> Forall (fun e => h_aSalt (fst e) <> h_aSalt h) (w_hist w) ->
  conn_ok (set_live (set_hist w hist') h) (mkGhost (g_gen g + 1) base 0 0) (cl c') /\
  (forall j F0, rd (cl c') <> RLog j F0) /\
  (forall sf b todo full cur, ck (cl c') <> CFill sf b todo full cur).
Proof.
  intros Hi Hl Hlog H0 Hne Hhist Hsalt. destruct (sole_writer c w g cl c' Hi Hl Hne) as (Ewr & Hlw & Ers).
  destruct (i_conn _ _ _ Hi c') as (H1 & H2 & H3).
  assert (Hread : forall j, 1 <= j <= 4 -> lk (cl c') (WAL_READ_LOCK j) = Free) by (intros j Hj; eapply locks_apart; [done|by apply Hlog|done]).
  assert (Hrd : rd (cl c') = RNone \/ rd (cl c') = RZero).
  { destruct (sn (cl c')); [|destruct H1 as (_ & ? & _); by left]. destruct H1 as (_ & _ & H & _). unfold rd_ok in H.
    destruct (rd (cl c')); [by left|by right|..]; destruct H as (J1 & J2 & _); rewrite Hread in J2 by done; done. }
  assert (Hck : forall sf b todo full cur, ck (cl c') <> CFill sf b todo full cur).
  { intros sf b todo full cur E. destruct (sn (cl c')); [|destruct H1 as (_ & _ & _ & _ & ?); congruence].
    destruct H1 as (_ & _ & _ & _ & _ & H). unfold ck_ok in H. rewrite E in H. destruct H as (J1 & J2 & _).
    destruct H0 as [H0|H0].
    - rewrite (locks_apart _ _ _ c' c READ0 Hi J2) in H0 by done. done.
    - rewrite (locks_apart _ _ _ c' c WAL_CKPT_LOCK Hi J1) in H0 by done. done. }
  split; [|split; [intros j F0; destruct Hrd as [-> | ->]; done|done]]. split; [|split].
  - destruct (sn (cl c')) as [s|]; [|done]. destruct H1 as ((S1 & S2 & S3 & S4 & S5) & J2 & J3 & J4 & J5 & J6).
    assert (Hgen : s_gen s <> g_gen g + 1) by lia. split_and!.
    + split; [by apply Hhist|]. cbn. split; [lia|]. split; [done|]. split; [lia|]. intros _. rewrite Forall_forall in Hsalt.
      by apply (Hsalt (s_hdr s, s_img s)).
    + cbn. lia.
    + unfold rd_ok in *. destruct Hrd as [E|E]; rewrite E in *; [done|]. cbn. destruct J3 as (? & ? & _). split; [done|]. split; [done|lia].
    + unfold loc_ok. destruct Hrd as [E|E]; rewrite E; by destruct (loc (cl c')) as [[]|].
    + unfold wr_ok. by rewrite Ewr.
    + unfold ck_ok in *. destruct (ck (cl c')) eqn:E; [done| |by destruct (Hck sf b todo full cur)]. destruct J6 as [J6 _]. split; [done|]. cbn. lia.
  - intros E. destruct (H2 E) as [H _]. done.
  - intros E. congruence.
Qed.

Definition restarting k (s : snap) : claim := mkClaim (lk k) (Some s) false (rd k) None (Some []) true false CNone.
Lemma t_restart k s fr h (Q : unit -> claim -> Prop) :
  sn k = Some s -> wr k = Some fr -> rs k = false -> ck k = CNone -> log_slots_ex k ->
  rd k = RZero \/ (rd k = RNone /\ al k = true) ->
  h_mxFrame h = 0 -> h_nPage h = h_nPage (s_hdr s) -> zlen (h_aSalt h) = 8 -> h_aSalt h <> h_aSalt (s_hdr s) ->
  (forall s', s_hdr s' = h -> Q tt (restarting k s')) -> triple (L := L) c k (WriteHdr h) Q.
Proof.
  intros Es Ewr Ers Eck Hlog Hcase Hh Hnp Hsz Hsalt HQ. apply triple_intro. intros w cl o [g Hi] Ek Hfresh. cbn [exec fst snd].
  claims c Hi Ek Es. destruct (writer_claim _ _ _ _ _ Hwr Ewr) as (Hl & E & Hg & Em & Hlen & Hfr).
  assert (HBL : g_B g = mxFrame w /\ (lk k READ0 = Sh \/ lk k WAL_CKPT_LOCK = Ex)).
  { destruct Hcase as [Er|[Er Ea]].
    - unfold rd_ok in Hrd. rewrite Er in Hrd. destruct Hrd as (? & _ & H). specialize (H Hg). split; [lia|by left].
    - destruct (Hal Ea) as (_ & ? & ?). split; [done|by right]. }
  destruct HBL as [HBL H0].
  assert (Hf : Forall (fun e => h_aSalt (fst e) <> h_aSalt h) (w_hist w)).
  { cbn in Hfresh. rewrite <- E in Hfresh. by destruct Hfresh. }
  set (base := gview w g (mxFrame w)). set (g' := mkGhost (g_gen g + 1) base 0 0).
  set (s' := mkSnap h (g_gen g + 1) base). exists (restarting k s'). split; [|by apply HQ]. exists g'.
  assert (Hslice : slice (w_log w) (mxFrame w) (h_mxFrame h - mxFrame w) = []).
  { unfold slice. by replace (Z.to_nat (h_mxFrame h - mxFrame w)) with 0%nat by lia. }
  assert (Enext : next_image w h = base).
  { unfold next_image, last_image. by rewrite (i_last _ _ _ Hi), Hslice. }
  rewrite Enext. assert (Hbase : forall p d, base !! p = Some d -> w_db w !! p = Some d).
  { intros p d Hp. apply (i_db _ _ _ Hi); [intros f Hff; lia|]. unfold base in Hp. by replace (g_A g) with (mxFrame w) by lia. }
  assert (Hdom : forall p d, base !! p = Some d -> p <= h_nPage h).
  { intros p d Hp. rewrite Hnp, E. eapply (i_dom _ _ _ Hi); [|exact Hp]. apply last_Some_elem_of. apply (i_last _ _ _ Hi). }
  pose proof (fun c' => restart_other w g cl c' h (w_hist w ++ [(h, base)]) base Hi) as Hother. rewrite Ek in Hother.
  specialize (fun c' Hne => Hother c' Hl Hlog H0 Hne). destruct (hist_snoc w g cl h base Hi (or_intror Hf)) as [Huniq Hgen].
  pose proof Hi as Hi0. destruct Hi. split; try done.
  - intros c' s0. pattern c', (<[c := restarting k s']> cl c'). apply upd_cases; [cbn; rewrite i_lk, Ek by done; done|auto].
  - intros c' Hc'. rewrite upd_ne; [auto|congruence].
  - unfold mxFrame in *. cbn. lia.
  - right. exists c. by rewrite upd_eq.
  - cbn. rewrite last_snoc. do 2 f_equal. unfold mxFrame. cbn. by rewrite Hh.
  - cbn. intros h0 img p d0. rewrite elem_of_app, list_elem_of_singleton. intros [He|[= -> ->]]; [by eapply i_dom|apply Hdom].
  - cbn. intros h0 img. rewrite elem_of_app, list_elem_of_singleton. intros [He|[= -> ->]]; [by eapply i_salt|done].
  - intros p d _. apply Hbase.
  - cbn. intros c' [h0 p d0] He. destruct (i_trace c' _ He) as (img & H1 & H2). exists img. split; [|done]. apply elem_of_app. by left.
  - intros c'. pattern c', (<[c := restarting k s']> cl c'). apply upd_cases.
    + split; [|split; [done|]].
      * cbn [sn restarting]. split_and!; try done.
        -- unfold sn_ok, s', s_mx, mxFrame. cbn. rewrite Hh. split; [apply elem_of_app; right; by left|]. split; [lia|]. split; [lia|].
           split; [done|lia].
        -- unfold rd_ok. cbn [rd restarting]. destruct Hcase as [Er|[Er _]]; rewrite Er; [|done].
           unfold rd_ok in Hrd. rewrite Er in Hrd. destruct Hrd as (? & _). split_and!; [done| |].
           ++ intros p d _. apply Hbase.
           ++ intros _. unfold s_mx, s'. cbn. lia.
        -- apply wr_ok_nil; try done. unfold mxFrame in *. cbn. lia.
      * intros _. by split_and!.
    + intros c'' Hne. apply Hother; [done| |done]. intros e He. apply elem_of_app. by left.
  - apply upd_pairs.
    + by apply ck_reader_none1.
    + intros c' Hne. split; [by apply ck_reader_none1|]. apply ck_reader_none2. cbn [rd restarting]. by destruct Hcase as [-> |[-> _]].
    + intros c1 c2. destruct (decide (c2 = c)) as [->|Hne].
      * apply ck_reader_none2. rewrite Ek. by destruct Hcase as [-> |[-> _]].
      * apply ck_reader_none2. refine (proj1 (proj2 (Hother c2 Hne _ Hf))). intros e He. apply elem_of_app. by left.
Qed.
End restarts.

Section copying.
Context {L : Type} {LM : LockManager L} {LL : LockLaws L}.
Implicit Types (w : world L) (g : ghost) (k : claim) (cl : Z -> claim).
Context (c : Z) (Hconn : lk_conn c = true).

(** A connection that copies pages excludes the readers of the database file, other
    checkpoints and restarts of the log. *)
Lemma copier_alone w g cl k s sf b todo full cur c' : inv_at w g cl -> cl c = k -> sn k = Some s ->
  ck k = CFill sf b todo full cur -> c' <> c ->
  rd (cl c') <> RZero /\ ck (cl c') = CNone /\ rs (cl c') = false /\ al (cl c') = false /\
  (forall s' j F0, sn (cl c') = Some s' -> rd (cl c') = RLog j F0 -> sf <= s_mx s').
Proof.
  intros Hi Ek Es Eck Hne. claims c Hi Ek Es. unfold ck_ok in Hck. rewrite Eck in Hck. destruct Hck as (C1 & C2 & C3 & _).
  pose proof (locks_apart _ _ _ c c' READ0 Hi ltac:(by rewrite Ek) Hne) as F0.
  pose proof (locks_apart _ _ _ c c' WAL_CKPT_LOCK Hi ltac:(by rewrite Ek) Hne) as F1.
  destruct (i_conn _ _ _ Hi c') as (H1 & H2 & H3). split_and!.
  - intros E. destruct (sn (cl c')); [|destruct H1 as (_ & ? & _); congruence]. destruct H1 as (_ & _ & H & _).
    unfold rd_ok in H. rewrite E in H. destruct H as [H _]. congruence.
  - destruct (sn (cl c')); [|tauto]. destruct H1 as (_ & _ & _ & _ & _ & H). unfold ck_ok in H.
    destruct (ck (cl c')); [done|destruct H as [H _]; congruence..].
  - destruct (rs (cl c')) eqn:E; [|done]. destruct (H3 E) as (_ & _ & [H|H] & _); congruence.
  - destruct (al (cl c')) eqn:E; [|done]. destruct (H2 E) as (_ & H & _). congruence.
  - intros s' j F Es' Er. pose proof (i_ck _ _ _ Hi c c' s s' j F) as H. rewrite Ek, Eck in H. by apply H.
Qed.

(** A change of the database file that keeps the pages nobody finds in the log. *)
Lemma inv_db w g cl k s sf b todo full cur x db' : inv_at w g cl -> cl c = k -> sn k = Some s ->
  ck k = CFill sf b todo full cur -> (forall j F0, rd k <> RLog j F0) -> rd k <> RZero ->
  (forall p d m img, untouched (w_log w) b m p -> sf <= m <= mxFrame w -> img = gview w g m -> img !! p = Some d ->
     w_db w !! p = Some d -> db' !! p = Some d) ->
  x = CNone \/ (exists cur' todo', x = CFill sf b todo' full cur') -> ck_ok (set_db w db') g (with_ck k x) s ->
  inv_at (set_db w db') g (<[c := with_ck k x]> cl).
Proof.
  intros Hi Ek Es Eck Hnl Hnz Hdb Hx Hck'. claims c Hi Ek Es. unfold ck_ok in Hck. rewrite Eck in Hck.
  destruct Hck as (C1 & C2 & C3 & C4 & C5 & C6 & _). pose proof (sn_img _ _ _ Hsn C3) as Himg.
  destruct Hsn as (S1 & S2 & S3 & S4 & S5). destruct (S4 C3) as [Hle _].
  pose proof (fun c' => copier_alone w g cl k s sf b todo full cur c' Hi Ek Es Eck) as Hal0.
  pose proof Hi as Hi0. destruct Hi. split; try done.
  - intros c' s0. pattern c', (<[c := with_ck k x]> cl c'). apply upd_cases; [cbn; rewrite i_lk, Ek by done; done|auto].
  - intros c' Hc'. rewrite upd_ne; [auto|congruence].
  - destruct i_backfill as [|[c' Hr]]; [by left|right]. exists c'. destruct (decide (c' = c)) as [->|Hne].
    + rewrite upd_eq. by rewrite Ek in Hr.
    + by rewrite upd_ne.
  - intros p d Hu Hp. cbn. rewrite C5 in Hu. eapply (Hdb p d (g_A g)); [done|lia|done|exact Hp|]. apply i_db; [by rewrite C5|done].
  - intros c'. pattern c', (<[c := with_ck k x]> cl c'). apply upd_cases.
    + split; [|by split]. cbn [sn with_ck]. rewrite Es. split_and!; try done. unfold rd_ok in *. cbn [rd with_ck].
      destruct (rd k) as [| | |j F0]; [done|done|done|]. by destruct (Hnl j F0).
    + intros c'' Hne. destruct (Hal0 c'' Hne) as (A1 & A2 & A3 & A4 & A5). destruct (i_conn c'') as (J1 & J2 & J3). split; [|by split].
      destruct (sn (cl c'')) as [s''|] eqn:E''; [|done]. destruct J1 as (K1 & K2 & K3 & K4 & K5 & K6). split_and!; try done.
      * unfold rd_ok in *. destruct (rd (cl c'')) as [| | |j F0] eqn:Er; [done|done|done|].
        destruct K3 as (R1 & R2 & R3 & R4 & R5 & R6 & R7). split_and!; try done; try lia. intros p d Hu Hp. specialize (A5 s'' j F0 eq_refl eq_refl).
        destruct K1 as (_ & _ & _ & T4 & _). destruct (T4 R3) as (T5 & T6 & _).
        apply (Hdb p d (s_mx s'') (s_img s'')); [eapply untouched_sub; [done|lia|lia]|lia|done|done|]. by apply R7.
      * unfold ck_ok. by rewrite A2.
  - apply upd_pairs; [by apply ck_reader_none2| |done]. intros c' Hne. split; [|by apply ck_reader_none2].
    destruct Hx as [-> |(cur' & todo' & ->)]; [by apply ck_reader_none1|].
    apply (ck_reader_bound g k); [done|by rewrite Eck|]. rewrite <- Ek. apply i_ck.
Qed.
End copying.

Section copying_steps.
Context {L : Type} {LM : LockManager L} {LL : LockLaws L}.
Implicit Types (w : world L) (g : ghost) (k : claim) (cl : Z -> claim).
Context (c : Z) (Hconn : lk_conn c = true).

Lemma newest_page w m p f : 0 <= m <= zlen (w_log w) -> f = newest_frame (w_log w) 1 m p -> 0 < f ->
  0 < f <= m /\ f_pgno (log_frame (w_log w) f) = p /\ untouched (w_log w) f m p.
Proof.
  intros Hm Ef Hf. destruct (newest_frame_cases (w_log w) 0 m p ltac:(lia) ltac:(lia)) as [[E _]|(r & E & Hr & Ep & Hu)];
    change (0 + 1) with 1 in E; [lia|]. replace f with r by congruence. done.
Qed.

(** Copying the next page; a failed write may leave anything in it. *)
Lemma t_write_db k s sf b p f todo full d (Q : Z -> claim -> Prop) : sn k = Some s ->
  ck k = CFill sf b ((p, f) :: todo) full (Some d) -> (forall j F0, rd k <> RLog j F0) -> rd k <> RZero ->
  b < f <= sf ->
  (forall rc, truthy rc = true -> Q rc (with_ck k CNone)) ->
  (forall rc, truthy rc = false -> Q rc (with_ck k (CFill sf b todo full None))) -> triple (L := L) c k (WriteDb p d) Q.
Proof.
  intros Es Eck Hnl Hnz Hbound Q1 Q2. apply triple_intro. intros w cl o [g Hi] Ek _. cbn [exec fst snd].
  claims c Hi Ek Es. unfold ck_ok in Hck. rewrite Eck in Hck. destruct Hck as (C1 & C2 & C3 & C4 & C5 & C6 & C7 & C8 & C9 & C10).
  destruct Hsn as (S1 & S2 & S3 & S4 & S5). destruct (S4 C3) as [Hle _].
  destruct (C8 p f ltac:(by left)) as [Ef Hf0]. destruct (newest_page w (s_mx s) p f ltac:(lia) Ef Hf0) as (N1 & N2 & N3).
  (* the page is in the log for everybody who might look for it *)
  assert (Hkeep : forall p' m, untouched (w_log w) b m p' -> sf <= m -> p' <> p).
  { intros p' m Hu Hm ->. destruct (Hu f ltac:(lia) N2). }
  destruct (truthy (o_rc o)) eqn:Erc.
  - exists (with_ck k CNone). split; [|by apply Q1]. exists g. eapply (inv_db c Hconn w g cl k s); try done; [|by left].
    intros p' d' m img Hu Hm _ _ Hd. rewrite lookup_partial_alter_ne; [done|]. apply not_eq_sym. eapply Hkeep; [done|lia].
  - exists (with_ck k (CFill sf b todo full None)). split; [|by apply Q2]. exists g. eapply (inv_db c Hconn w g cl k s); try done; [|right; eauto|].
    + intros p' d' m img Hu Hm _ _ Hd. rewrite lookup_insert_ne; [done|]. apply not_eq_sym. eapply Hkeep; [done|lia].
    + unfold ck_ok. cbn. split_and!; try done; try lia.
      * intros p' f' Hin. apply C8. by right.
      * intros p' Hf' Hp'. destruct (decide (p' = p)) as [->|Hne].
        -- right. rewrite lookup_insert_eq, <- Ef. by rewrite C10.
        -- rewrite lookup_insert_ne by done. destruct (C9 p' Hf' Hp') as [Hin|]; [|by right]. left. by set_unfold in Hin; destruct Hin as [Hin|Hin]; [simplify_eq|].
Qed.
(** A page that need not be copied. *)
Lemma upd_skip_page k s sf b p f todo full : sn k = Some s -> ck k = CFill sf b ((p, f) :: todo) full None ->
  (forall j F0, rd k <> RLog j F0) -> f <= b \/ sf < f \/ h_nPage (s_hdr s) < p ->
  upd (L := L) c k (with_ck k (CFill sf b todo full None)).
Proof.
  intros Es Eck Hnl Hskip w cl [g Hi] Ek. exists g. claims c Hi Ek Es. apply inv_claim_ck; [done|done|done|done|by rewrite Eck|].
  conn_split Es. unfold ck_ok in *. rewrite Eck in Hck. destruct Hck as (C1 & C2 & C3 & C4 & C5 & C6 & C7 & C8 & C9 & C10). cbn.
  split_and!; try done; try lia.
  - intros p' f' Hin. apply C8. by right.
  - intros p' Hf' Hp'. destruct (C9 p' Hf' Hp') as [Hin|]; [|by right]. left. apply elem_of_cons in Hin as [E|Hin]; [|done]. simplify_eq. lia.
Qed.

(** The database is cut to the size of the last transaction copied. *)
Lemma t_truncate_db k s sf b todo (Q : Z -> claim -> Prop) : sn k = Some s ->
  ck k = CFill sf b todo true None -> (forall j F0, rd k <> RLog j F0) -> rd k <> RZero ->
  (forall rc, Q rc (with_ck k (CFill sf b todo true None))) -> triple (L := L) c k (TruncateDb (h_nPage (s_hdr s))) Q.
Proof.
  intros Es Eck Hnl Hnz HQ. apply triple_intro. intros w cl o [g Hi] Ek _. cbn [exec fst snd].
  exists (with_ck k (CFill sf b todo true None)). split; [|apply HQ]. exists g. claims c Hi Ek Es.
  unfold ck_ok in Hck. rewrite Eck in Hck. destruct Hck as (C1 & C2 & C3 & C4 & C5 & C6 & C7 & C8 & C9 & C10).
  pose proof (sn_img _ _ _ Hsn C3) as Himg. destruct Hsn as (S1 & S2 & S3 & S4 & S5). destruct (S4 C3) as [Hle _]. specialize (C7 eq_refl).
  assert (Hfin : forall db', (forall p d, w_db w !! p = Some d -> p <= h_nPage (s_hdr s) -> db' !! p = Some d) ->
     inv_at (set_db w db') g (<[c := with_ck k (CFill sf b todo true None)]> cl)).
  { intros db' Hdb. eapply (inv_db c Hconn w g cl k s); try done; [|right; eauto|].
    - intros p d m img Hu Hm -> Hp Hd. apply Hdb; [done|]. eapply (i_dom _ _ _ Hi); [exact S1|]. rewrite Himg.
      eapply (view_back _ _ _ m); [lia|lia| |exact Hp]. eapply untouched_sub; [done|lia|lia].
    - unfold ck_ok. cbn. split_and!; try done; try lia. intros p' Hf' Hp'. destruct (C9 p' Hf' Hp') as [|Hd]; [by left|right]. by apply Hdb. }
  destruct (truthy (o_rc o)).
  - specialize (Hfin (w_db w) ltac:(done)). by destruct w.
  - apply Hfin. intros p d Hd Hp. by apply map_lookup_filter_Some.
Qed.

(** All pages are copied: the log up to [sf] is in the database file. *)
Lemma t_store_backfill k s sf b full (Q : unit -> claim -> Prop) : sn k = Some s ->
  ck k = CFill sf b [] full None -> (forall j F0, rd k <> RLog j F0) -> rd k <> RZero -> rs k = false -> al k = false ->
  Q tt (with_ck k CNone) -> triple (L := L) c k (StoreBackfill sf) Q.
Proof.
  intros Es Eck Hnl Hnz Ers Eal HQ. apply triple_intro. intros w cl o [g Hi] Ek _. cbn [exec fst snd].
  exists (with_ck k CNone). split; [|done]. claims c Hi Ek Es. set (g' := mkGhost (g_gen g) (g_base g) sf (g_A g)). exists g'.
  unfold ck_ok in Hck. rewrite Eck in Hck. destruct Hck as (C1 & C2 & C3 & C4 & C5 & C6 & C7 & C8 & C9 & C10).
  pose proof (sn_img _ _ _ Hsn C3) as Himg. pose proof Hsn as (S1 & S2 & S3 & S4 & S5). destruct (S4 C3) as [Hle _].
  pose proof (fun c' => copier_alone c w g cl k s sf b [] full None c' Hi Ek Es Eck) as Hal0.
  pose proof Hi as Hi0. destruct Hi. split; try done.
  - intros c' s0. pattern c', (<[c := with_ck k CNone]> cl c'). apply upd_cases; [cbn; rewrite i_lk, Ek by done; done|auto].
  - intros c' Hc'. rewrite upd_ne; [auto|congruence].
  - unfold mxFrame in *. cbn. lia.
  - by left.
  - cbn. intros p d Hu Hp. cbn in Hu. rewrite C4 in Hu, Hp.
    destruct (newest_frame_cases (w_log w) 0 (s_mx s) p ltac:(lia) ltac:(lia)) as [[E Hn]|(r & E & Hr & Ep & Hn)]; change (0 + 1) with 1 in E.
    + apply i_db; rewrite C4; [eapply untouched_sub; [exact Hn|lia|lia]|done].
    + destruct (Z.lt_ge_cases b r) as [Hbr|Hbr].
      * assert (Hrs' : r <= sf). { destruct (Z.le_gt_cases r sf); [done|]. by destruct (Hu r ltac:(lia)). }
        destruct (C9 p) as [Hin|Hd]; [rewrite E; lia| |by apply elem_of_nil in Hin|].
        -- eapply i_dom; [exact S1|]. rewrite Himg. exact Hp.
        -- rewrite E in Hd. etransitivity; [exact Hd|]. f_equal. subst p. eapply view_newest; [|..|exact Hp]; [lia|lia|done].
      * apply i_db; rewrite C4; [eapply untouched_sub; [exact Hn|lia|lia]|done].
  - intros c'. pattern c', (<[c := with_ck k CNone]> cl c'). apply upd_cases.
    + split; [|split; [|]].
      * cbn [sn with_ck]. rewrite Es. split_and!; try done.
        -- intros E Hg. specialize (Hbf E Hg). cbn. lia.
        -- unfold rd_ok in *. cbn [rd with_ck]. destruct (rd k) as [| |j F0 mk|j F0]; [done|done| |by destruct (Hnl j F0)].
           destruct Hrd as (R1 & R2 & R3 & R4). split; [done|]. split; [done|]. split; [|done]. destruct F0; [|done].
           destruct R3 as [R3 R5]. split; [done|]. intros Hg. specialize (R5 Hg). cbn. lia.
      * intros E. cbn in E. congruence.
      * intros E. cbn in E. congruence.
    + intros c'' Hne. destruct (Hal0 c'' Hne) as (A1 & A2 & A3 & A4 & A5). destruct (i_conn c'') as (J1 & J2 & J3). split; [|split].
      * destruct (sn (cl c'')) as [s''|] eqn:E''; [|done]. destruct J1 as (K1 & K2 & K3 & K4 & K5 & K6). split_and!; try done.
        -- intros E Hg. specialize (K2 E Hg). cbn. lia.
        -- unfold rd_ok in *. destruct (rd (cl c'')) as [| |j F0 mk|j F0] eqn:Er; [done|done|..].
           ++ destruct K3 as (R1 & R2 & R3 & R4). split; [done|]. split; [done|]. split; [|done]. destruct F0; [|done].
              destruct R3 as [R3 R5]. split; [done|]. intros Hg. specialize (R5 Hg). cbn. lia.
           ++ destruct K3 as (R1 & R2 & R3 & R4 & R5 & R6 & R7). cbn. split_and!; try done; lia.
        -- unfold ck_ok. by rewrite A2.
      * intros E. congruence.
      * intros E. congruence.
  - apply upd_pairs; [by apply ck_reader_none1| |].
    + intros c' Hne. split; [by apply ck_reader_none1|by apply ck_reader_none2].
    + intros c1 c2. exact (i_ck c1 c2).
Qed.
End copying_steps.
