(* ===== verification/WalPrograms.v ===== *)
(** The routines of wal.c against the claims of the connection that runs them: read
    transactions, write transactions and checkpoints.  Each lemma says which claims a
    routine may start from and which it ends with, on every path. *)

From stdpp Require Import functions sorting.
From S2P Require Import Prelude Varint WalIndex WalLog WalLocks WalTxn WalClaims WalActions.

(** The locks of a connection at rest: the write lock, the checkpoint lock and read lock
    [r], if any. *)
Definition locks_of (wl cl : bool) (r i : Z) : lock_mode :=
  if i =? WAL_WRITE_LOCK then if wl then Ex else Free
  else if i =? WAL_CKPT_LOCK then if cl then Ex else Free
  else if (0 <=? r) && (i =? WAL_READ_LOCK r) then Sh else Free.
Definition holds (t : claim) (wl cl : bool) (r : Z) : Prop := forall i, lk t i = locks_of wl cl r i.

Ltac zcases := repeat match goal with
  | |- context [?a =? ?b] => destruct (Z.eqb_spec a b)
  | |- context [?a <=? ?b] => destruct (Z.leb_spec a b)
  | |- context [?a <? ?b] => destruct (Z.ltb_spec a b)
  end; cbn [andb]; try done; try lia.
(** Lock tables, slot by slot. *)
Ltac locks := unfold holds; intros; cbn [lk with_lk with_rd with_bf with_loc with_wr with_al with_ck fresh bare scanning committed restarting];
  repeat match goal with H : holds _ _ _ _ |- _ => rewrite !H; clear H end;
  unfold locks_of, in_range, WAL_READ_LOCK, WAL_WRITE_LOCK, WAL_CKPT_LOCK, READ0, WAL_NREADER in *;
  zcases; repeat case_match; try done; try lia.

(** The locks that a claim needs. *)
Definition slot_of (r : reading) : option Z :=
  match r with RNone => None | RZero => Some 0 | RPend j _ _ => Some j | RLog j _ => Some j end.
Definition needs (t : claim) (i : Z) : Prop :=
  (i = WAL_WRITE_LOCK /\ wr t <> None) \/ (i = WAL_CKPT_LOCK /\ (al t = true \/ ck t <> CNone)) \/
  (exists j, slot_of (rd t) = Some j /\ i = WAL_READ_LOCK j) \/
  (i = READ0 /\ exists sf b todo full cur, ck t = CFill sf b todo full cur) \/ rs t = true.

Section base.
Context {L : Type} {LM : LockManager L} {LL : LockLaws L}.
Implicit Types (w : world L) (g : ghost) (t : claim).

Lemma conn_ok_drop w g t s n : (forall i, s <= i < s + n -> ~ needs t i) -> conn_ok w g t -> conn_ok w g (with_lk t s n Free).
Proof.
  intros Hn. assert (Hkeep : forall i x, needs t i -> lk t i = x -> lk (with_lk t s n Free) i = x).
  { intros i x Hi E. cbn. destruct (in_range s n i) eqn:Er; [|done]. apply in_range_true in Er. by destruct (Hn i Er). }
  intros (Hsn & Hal & Hrs). split; [|split].
  - cbn [sn with_lk]. destruct (sn t) as [s0|]; [|done]. destruct Hsn as (H1 & H2 & H3 & H4 & H5 & H6).
    split; [done|]. split; [done|]. split; [|split; [done|split]].
    + unfold rd_ok in *. cbn [rd with_lk]. destruct (rd t) eqn:E; [done|..].
      * destruct H3 as (? & ? & ?). split; [apply Hkeep; [right; right; left; rewrite E; by exists 0|done]|done].
      * destruct H3 as (? & ? & ?). split; [done|]. split; [apply Hkeep; [right; right; left; rewrite E; by exists j|done]|done].
      * destruct H3 as (? & ? & ?). split; [done|]. split; [apply Hkeep; [right; right; left; rewrite E; by exists j|done]|done].
    + unfold wr_ok in *. cbn [wr with_lk]. destruct (wr t) eqn:E; [|done]. destruct H5 as (? & ?).
      split; [apply Hkeep; [left; by rewrite E|done]|done].
    + unfold ck_ok in *. cbn [ck with_lk]. destruct (ck t) eqn:E; [done|..].
      * destruct H6 as (? & ?). split; [apply Hkeep; [right; left; rewrite E; by auto|done]|done].
      * destruct H6 as (? & ? & ?). split; [apply Hkeep; [right; left; rewrite E; by auto|done]|].
        split; [apply Hkeep; [right; right; right; left; rewrite E; by eauto 10|done]|done].
  - intros E. destruct (Hal E) as (? & ? & ?). split; [done|]. split; [apply Hkeep; [right; left; by auto|done]|done].
  - intros E. assert (Hall : forall i, needs t i) by (intros; by do 4 right). destruct (Hrs E) as (? & H2 & H3 & ?).
    split; [by apply Hkeep|]. split; [intros j Hj; apply Hkeep; [done|by apply H2]|].
    split; [|done]. destruct H3; [left|right]; by apply Hkeep.
Qed.

Context (c : Z) (Hconn : lk_conn c = true).

Lemma wp_do {A B} (a : op B) (f : B -> prog A) Q t : triple (L := L) c t a (fun x t' => wp (L := L) c (f x) Q t') -> wp (L := L) c (do_ a ≫= f) Q t.
Proof. apply wp_bind. Qed.
Lemma wp_end {A} (a : A) (Q : A -> claim -> Prop) t t' : upd (L := L) c t t' -> Q a t' -> wp (L := L) c (Ret a) Q t.
Proof. intros Hu HQ. by exists t'. Qed.
Lemma wp_seq {A B} (p : prog A) (f : A -> prog B) (R : A -> claim -> Prop) Q t :
  wp (L := L) c p R t -> (forall a t', R a t' -> wp (L := L) c (f a) Q t') -> wp (L := L) c (p ≫= f) Q t.
Proof. intros H HR. apply wp_bind. by eapply wp_mono. Qed.

Lemma t_find_le t lo hi p (Q : Z -> claim -> Prop) : 0 <= hi -> (forall f, f <= hi -> Q f t) -> triple (L := L) c t (FindFrame lo hi p) Q.
Proof.
  intros Hhi HQ. apply triple_read; [done|]. intros w g cl o Hi Ek. exists t. split; [exists g; rewrite <- Ek; by apply inv_same|].
  cbn. apply HQ. unfold newest_frame. generalize (Z.to_nat (hi - lo + 1)). intros n. clear Hi Ek HQ.
  assert (H : forall h, h <= hi -> scan_down n (log_pages (w_log w)) h p <= hi); [|by apply H].
  induction n as [|n IH]; intros h Hh; cbn [scan_down]; [done|]. case_match; [done|]. apply IH. lia.
Qed.

(** A reader that has a read lock on the log and knows nothing else yet. *)
Lemma upd_pend t j s : sn t = Some s -> 1 <= j <= 4 -> lk t (WAL_READ_LOCK j) = Sh -> ck t = CNone ->
  upd (L := L) c t (with_rd t (RPend j None false)).
Proof.
  intros Es Hj Hl Eck w cl [g Hi] Ek. exists g. claims c Hi Ek Es. quiet Ek. conn_split Es.
Qed.

(** The busy handler only repeats the lock. *)
Lemma wp_busy xBusy t s n (Q : Z -> claim -> Prop) : 0 <= s -> s + n <= 8 -> (forall i, s <= i < s + n -> lk t i = Free) ->
  Q SQLITE_OK (with_lk t s n Ex) -> Q SQLITE_BUSY t -> wp (L := L) c (walBusyLock xBusy s n) Q t.
Proof.
  intros H1 H2 Hf Q1 Q2. induction xBusy as [|x IH]; cbn [walBusyLock]; apply wp_do, t_lock_exclusive; try done.
  - by apply wp_ret.
  - by apply wp_ret.
  - by apply wp_ret.
  - change (SQLITE_BUSY =? SQLITE_BUSY) with true. cbn iota. apply wp_do, t_ask. intros []; [done|by apply wp_ret].
Qed.
Lemma wp_unlock_ex {A} t s n (f : unit -> prog A) Q : 0 <= s -> s + n <= 8 -> (forall i, s <= i < s + n -> ~ needs t i) ->
  wp (L := L) c (f tt) Q (with_lk t s n Free) -> wp (L := L) c (walUnlockExclusive s n ≫= f) Q t.
Proof. intros. apply wp_do, t_unlock_exclusive; try done. intros. by apply conn_ok_drop. Qed.
Lemma wp_unlock_sh {A} t s (f : unit -> prog A) Q : 0 <= s < 8 -> ~ needs t s ->
  wp (L := L) c (f tt) Q (with_lk t s 1 Free) -> wp (L := L) c (walUnlockShared s ≫= f) Q t.
Proof. intros. apply wp_do, t_unlock_shared; try done. intros. apply conn_ok_drop; [|done]. intros i Hi. by replace i with s by lia. Qed.
End base.

(** A claim between two actions that belong together: no log is being restarted and no
    checkpoint is under way. *)
Record rest (t : claim) (s : option snap) (W : option (list (Z * Z * page))) (r : reading) (wl cl : bool) (rl : Z) : Prop := {
  r_sn : sn t = s; r_wr : wr t = W; r_rd : rd t = r; r_rs : rs t = false; r_ck : ck t = CNone; r_al : al t = false;
  r_lk : holds t wl cl rl }.
Ltac rest_tac := match goal with H : rest _ _ _ _ _ _ _ |- _ => destruct H end; split; cbn; try done; locks.

(** The header a connection has read, with the bounds that go with it. *)
Definition known (s : snap) : Prop := 0 <= s_mx s /\ zlen (h_aSalt (s_hdr s)) = 8.

Section reading.
Context {L : Type} {LM : LockManager L} {LL : LockLaws L}.
Context (c : Z) (Hconn : lk_conn c = true).
Implicit Types (k : conn) (t : claim).

Lemma needs_read t i : rs t = false -> ck t = CNone -> rd t = RNone -> 3 <= i -> ~ needs t i.
Proof.
  intros E1 E2 E3 Hi [[E _]|[[E _]|[(j & E & _)|[(_ & ? & ? & ? & ? & ? & E)|E]]]]; unfold WAL_WRITE_LOCK, WAL_CKPT_LOCK in *; try lia; try congruence.
  by rewrite E3 in E.
Qed.

Lemma reader_slot_range i : i ∈ reader_slots <-> 1 <= i <= 4.
Proof. unfold reader_slots, WAL_NREADER. rewrite elem_of_seqZ. lia. Qed.

Lemma wp_scan_marks slots mx m i0 t (Q : Z * Z -> claim -> Prop) : m <= mx ->
  (forall m' i', m' <= mx -> i' = i0 \/ i' ∈ slots -> Q (m', i') t) -> wp (L := L) c (scan_marks slots mx m i0) Q t.
Proof.
  revert m i0. induction slots as [|i slots IH]; intros m i0 Hm HQ; cbn [scan_marks].
  - apply wp_ret, HQ; [done|by left].
  - apply wp_do, t_load_mark_any. intros v. destruct (_ && _) eqn:E; apply IH; try done; try lia; intros m' i' Hm' Hi'; apply HQ; try done; set_solver.
Qed.

Lemma wp_claim_mark slots mx m i0 rc0 t s W wl cl (Q : bool * Z * Z * Z -> claim -> Prop) :
  (forall i, i ∈ slots -> 1 <= i <= 4) -> m <= mx -> rest t s W RNone wl cl (-1) ->
  (forall st rc m' i' t', m' <= mx -> i' = i0 \/ i' ∈ slots -> rest t' s W RNone wl cl (-1) -> (st = true -> truthy rc = true) -> Q (st, rc, m', i') t') ->
  wp (L := L) c (claim_mark slots mx m i0 rc0) Q t.
Proof.
  intros Hsl Hm. revert rc0 t. induction slots as [|i slots IH]; intros rc0 t Ht HQ; cbn [claim_mark].
  - apply wp_ret, HQ; [done|by left|done|done].
  - assert (Hi : 1 <= i <= 4) by (apply Hsl; by left). apply wp_do, t_lock_exclusive; try done.
    + unfold WAL_READ_LOCK. lia.
    + unfold WAL_READ_LOCK. lia.
    + destruct Ht. locks.
    + change (SQLITE_OK =? SQLITE_OK) with true. cbn iota. apply wp_do, t_store_mark; [by locks|].
      apply wp_unlock_ex; [done|unfold WAL_READ_LOCK; lia|unfold WAL_READ_LOCK; lia| |].
      * intros i' Hi'. destruct Ht. apply needs_read; [done..|unfold WAL_READ_LOCK in *; lia].
      * apply wp_ret, HQ; [done|right; by left| |done]. rest_tac.
    + change (SQLITE_BUSY =? SQLITE_OK) with false. change (SQLITE_BUSY =? SQLITE_BUSY) with true. cbn iota beta delta [negb].
      apply IH; [intros ? ?; apply Hsl; by right|done|]. intros st rc m' i' t' ? Hi'. apply HQ; [done|]. set_solver.
Qed.

(** The routine gets read lock [j] and sees the log from the frame after those that are
    in the database file, or nothing has changed. *)
Definition read_log k k' t s W wl cl rc : Prop :=
  (rc = SQLITE_OK /\ exists j, 1 <= j <= 4 /\ k' = set_read (set_min k (minFrame k')) j /\ rest t (Some s) W (RLog j (minFrame k' - 1)) wl cl j) \/
  (rc <> SQLITE_OK /\ k' = set_min k (minFrame k') /\ rest t (Some s) W RNone wl cl (-1)).
Lemma set_min_id k : set_min k (minFrame k) = k.
Proof. by destruct k. Qed.

Lemma wp_begin_read_marks k t s W wl cl : khdr k = s_hdr s -> known s -> rest t (Some s) W RNone wl cl (-1) ->
  wp (L := L) c (begin_read_marks k) (fun x t' => read_log k (snd x) t' s W wl cl (fst x)) t.
Proof.
  intros Ek [Hs _] Ht. unfold begin_read_marks. rewrite Ek. fold (s_mx s). apply wp_bind, wp_scan_marks; [done|]. intros m i0 Hm Hi0.
  assert (Hr0 : i0 = 0 \/ 1 <= i0 <= 4) by (rewrite reader_slot_range in Hi0; lia). clear Hi0.
  apply (wp_seq c _ _ (fun x t' => let '(st, rc, m', i') := x in m' <= s_mx s /\ (i' = 0 \/ 1 <= i' <= 4) /\
     rest t' (Some s) W RNone wl cl (-1) /\ ((st : bool) = true -> truthy rc = true))).
  { destruct (_ || _); [|by apply wp_ret]. eapply wp_claim_mark; [apply reader_slot_range|done|done|].
    intros st rc m' i' t' ? Hi' ? ?. split; [done|]. split; [|done]. rewrite reader_slot_range in Hi'. lia. }
  clear Hm Hr0 Ht t. intros [[[st rc] m'] i'] t (Hm & Hi & Ht & Hst). destruct st.
  { apply wp_ret. right. specialize (Hst eq_refl). cbn [fst snd]. split; [by intros ->|]. by rewrite set_min_id. }
  destruct (Z.eqb_spec i' 0) as [->|Hne].
  { apply wp_ret. right. cbn [fst snd]. rewrite set_min_id. split; [|done]. by destruct (rc =? SQLITE_BUSY). }
  assert (Hj : 1 <= i' <= 4) by lia. apply wp_do, t_lock_shared; [done|unfold WAL_READ_LOCK; lia|destruct Ht; locks| |].
  2:{ apply wp_ret. right. cbn [fst snd]. by rewrite set_min_id. }
  change (truthy SQLITE_OK) with false. cbn iota.
  assert (Ht1 : rest (with_lk t (WAL_READ_LOCK i') 1 Sh) (Some s) W RNone wl cl i') by rest_tac.
  revert Ht1. generalize (with_lk t (WAL_READ_LOCK i') 1 Sh). clear t Ht. intros t Ht.
  apply (wp_upd c _ _ t (with_rd t (RPend i' None false))).
  { destruct Ht. apply (upd_pend c Hconn t i' s); [done|done| |done]. locks. }
  apply wp_do, (t_load_pend c Hconn _ s i'); [by destruct Ht|done|by destruct Ht|by destruct Ht|]. intros b.
  set (k1 := set_min k (b + 1)).
  assert (Hfail : forall t1, rest t1 (Some s) W (RPend i' (Some b) false) wl cl i' \/ rest t1 (Some s) W (RPend i' (Some b) true) wl cl i' ->
    wp (L := L) c (walUnlockShared (WAL_READ_LOCK i');; Ret (WAL_RETRY, k1)) (fun x t' => read_log k (snd x) t' s W wl cl (fst x)) t1).
  { intros t1 Ht1. apply (wp_upd c _ _ t1 (with_rd t1 RNone)); [by apply upd_no_read|]. apply wp_unlock_sh; [done|unfold WAL_READ_LOCK; lia| |].
    - apply needs_read; cbn; [by destruct Ht1 as [[]|[]]..|done|unfold WAL_READ_LOCK; lia].
    - apply wp_ret. right. cbn [fst snd]. split; [done|]. split; [done|]. destruct Ht1; rest_tac. }
  apply wp_do, (t_load_mark_pend c Hconn _ s _ (Some b)); [by destruct Ht|done|by destruct Ht|..].
  { intros v Hv. rewrite (proj2 (Z.eqb_neq v m')) by lia. change (khdr k1) with (khdr k). cbn [negb orb].
    apply wp_bind, wp_ret. apply Hfail. left. rest_tac. }
  intros v Hv. destruct (Z.eqb_spec v m') as [->|Hne']; cbn [negb orb].
  2:{ apply wp_bind, wp_ret. apply Hfail. right. rest_tac. }
  apply wp_do, (t_check_log c Hconn _ s i' b); [by destruct Ht|done|by destruct Ht|..].
  - intros h Hh. change (khdr k1) with (khdr k). rewrite bool_decide_false by congruence. apply Hfail. right. rest_tac.
  - change (khdr k1) with (khdr k). rewrite bool_decide_true by done. apply wp_ret. left. split; [done|]. exists i'. split; [done|].
    split; [done|]. cbn. replace (b + 1 - 1) with b by lia. rest_tac.
Qed.
End reading.

(** What the routines on read locks never change. *)
Definition same_flags (k k' : conn) : Prop :=
  writeLock k' = writeLock k /\ ckptLock k' = ckptLock k /\ readOnly k' = readOnly k /\ w_sector k' = w_sector k /\
  w_nCkpt (cw k') = w_nCkpt (cw k) /\ w_iReCksum (cw k') = w_iReCksum (cw k).
(** How a connection at rest reads. *)
Definition reading_of (k : conn) : reading :=
  if readLock k <? 0 then RNone else if readLock k =? 0 then RZero else RLog (readLock k) (minFrame k - 1).

Section read_transactions.
Context {L : Type} {LM : LockManager L} {LL : LockLaws L}.
Context (c : Z) (Hconn : lk_conn c = true).
Implicit Types (k : conn) (t : claim).

Lemma same_flags_trans k1 k2 k3 : same_flags k1 k2 -> same_flags k2 k3 -> same_flags k1 k3.
Proof. unfold same_flags. intuition congruence. Qed.

(** A reader that has found its snapshot, or a connection without one. *)
Definition began k k' t (rc : Z) : Prop := same_flags k k' /\
  ((rc = SQLITE_OK /\ 0 <= readLock k' <= 4 /\ exists s, known s /\ khdr k' = s_hdr s /\
      rest t (Some s) None (reading_of k') false false (readLock k')) \/
   (rc <> SQLITE_OK /\ readLock k' = readLock k /\ exists s, rest t s None RNone false false (-1))).

Lemma read_log_began k k' t s rc : khdr k = s_hdr s -> known s -> read_log k k' t s None false false rc -> began k k' t rc.
Proof.
  intros Eh Hs [(-> & j & Hj & E & Ht)|(Hrc & E & Ht)].
  - split; [by rewrite E|]. left. assert (Er : readLock k' = j) by (by rewrite E). rewrite Er. split; [done|]. split; [lia|].
    exists s. split; [done|]. split; [by rewrite E|]. unfold reading_of. rewrite Er, (proj2 (Z.ltb_ge _ _)), (proj2 (Z.eqb_neq _ _)) by lia. done.
  - split; [by rewrite E|]. right. split; [done|]. split; [by rewrite E|]. by exists (Some s).
Qed.

Lemma wp_index_read_hdr k t s0 W : rest t s0 W RNone false false (-1) -> W = None ->
  wp (L := L) c (walIndexReadHdr k) (fun x t' => exists s, known s /\ khdr (snd x) = s_hdr s /\ same_flags k (snd x) /\
     readLock (snd x) = readLock k /\ rest t' (Some s) None RNone false false (-1)) t.
Proof.
  intros Ht ->. apply wp_do, t_read_hdr; [done|by destruct Ht|]. intros s H1 H2. apply wp_ret. exists s. split; [done|].
  assert (Ht' : rest (fresh t s) (Some s) None RNone false false (-1)) by rest_tac. by destruct (bool_decide_reflect (s_hdr s = khdr k)).
Qed.

Lemma wp_try_begin k chg cnt t s0 : rest t s0 None RNone false false (-1) ->
  wp (L := L) c (walTryBeginRead k chg false cnt) (fun x t' => began k (snd (fst x)) t' (fst (fst x))) t.
Proof.
  intros Ht. unfold walTryBeginRead. destruct (_ && _).
  { apply wp_ret. cbn [fst snd]. split; [done|]. right. split; [done|]. split; [done|]. by exists s0. }
  apply wp_bind, wp_bind. eapply wp_mono; [|by apply (wp_index_read_hdr k t s0 None)]. clear Ht t. cbn beta.
  intros [chg' k1] t (s & Hs & Ek & Hfl & Hrl & Ht). cbn [fst snd] in *. apply wp_ret.
  assert (Hmarks : forall t1, rest t1 (Some s) None RNone false false (-1) -> wp (L := L) c ('(rc, k2) ← begin_read_marks k1; Ret (rc, k2, chg || chg'))
    (fun x t' => began k (snd (fst x)) t' (fst (fst x))) t1).
  { intros t1 Ht1. eapply wp_seq; [by apply (wp_begin_read_marks c Hconn k1 t1 s None false false)|]. cbn beta. intros [rc k2] t2 H2. apply wp_ret. cbn [fst snd] in *.
    destruct (read_log_began k1 k2 t2 s rc Ek Hs H2) as [F H]. split; [by eapply same_flags_trans|]. by rewrite Hrl in H. }
  apply wp_bind, wp_do, (t_load_bf c Hconn _ s); [by destruct Ht|by destruct Ht|..].
  { intros v Hv. apply wp_ret. unfold s_mx in Hv. rewrite Ek, (proj2 (Z.eqb_neq _ _)) by done. by apply wp_bind, wp_ret, Hmarks. }
  apply wp_ret. unfold s_mx. rewrite Ek, Z.eqb_refl. apply wp_bind.
  apply wp_do, t_lock_shared; [done|done|destruct Ht; locks| |].
  2:{ change (SQLITE_BUSY =? SQLITE_OK) with false. change (SQLITE_BUSY =? SQLITE_BUSY) with true. cbn iota beta delta [negb]. apply wp_ret, Hmarks. rest_tac. }
  change (SQLITE_OK =? SQLITE_OK) with true. cbn iota.
  apply wp_do, (t_check_zero c Hconn _ s); [by destruct Ht|done|by destruct Ht|destruct Ht; locks|by destruct Ht|..].
  - intros h Hh. rewrite bool_decide_false by congruence. cbn [negb]. apply wp_unlock_sh; [done|done|apply needs_read; by destruct Ht|].
    apply wp_ret. apply wp_ret. cbn [fst snd]. split; [done|]. right. split; [done|]. split; [done|]. exists (Some s). rest_tac.
  - rewrite bool_decide_true by done. cbn [negb]. apply wp_ret, wp_ret. cbn [fst snd]. split; [done|]. left. split; [done|]. split; [done|].
    exists s. split; [done|]. split; [done|]. change (reading_of (set_read k1 0)) with RZero. rest_tac.
Qed.

Lemma wp_try_loop fuel k chg cnt t s0 : rest t s0 None RNone false false (-1) ->
  wp (L := L) c (try_read_loop fuel k chg false cnt) (fun x t' => began k (snd (fst x)) t' (fst (fst x))) t.
Proof.
  revert k chg cnt t s0. induction fuel as [|fuel IH]; intros k chg cnt t s0 Ht; cbn [try_read_loop].
  - apply wp_ret. split; [done|]. right. split; [done|]. split; [done|]. by exists s0.
  - eapply wp_seq; [by eapply (wp_try_begin k chg cnt t s0)|]. cbn beta. intros [[rc k1] chg1] t1 [F H]. cbn [fst snd] in *.
    destruct (Z.eqb_spec rc WAL_RETRY) as [->|].
    + destruct H as [[E _]|(_ & Hr & s & Ht1)]; [done|]. eapply wp_mono; [|by eapply (IH k1)]. cbn beta.
      intros [[rc k2] chg2] t2 [F' H']. cbn [fst snd] in *. split; [by eapply same_flags_trans|]. by rewrite Hr in H'.
    + by apply wp_ret.
Qed.

(** With the wal-index header known and the write lock held. *)
Lemma wp_retry_log fuel k chg cnt t s W wl cl : khdr k = s_hdr s -> known s -> rest t (Some s) W RNone wl cl (-1) ->
  wp (L := L) c (try_read_loop fuel k chg true cnt) (fun x t' => read_log k (snd (fst x)) t' s W wl cl (fst (fst x))) t.
Proof.
  intros Ek Hs. revert k chg cnt t Ek. induction fuel as [|fuel IH]; intros k chg cnt t Ek Ht; cbn [try_read_loop].
  - apply wp_ret. right. cbn [fst snd]. by rewrite set_min_id.
  - eapply (wp_seq c _ _ (fun x t' => read_log k (snd (fst x)) t' s W wl cl (fst (fst x)))).
    + unfold walTryBeginRead. destruct (_ && _); [apply wp_ret; right; cbn [fst snd]; by rewrite set_min_id|].
      apply wp_bind, wp_ret, wp_bind, wp_ret, wp_bind, wp_ret. eapply wp_seq; [by apply (wp_begin_read_marks c Hconn k t s W wl cl)|].
      intros [rc k1] t1 H1. by apply wp_ret.
    + intros [[rc k1] chg1] t1 H. cbn [fst snd] in *. destruct (Z.eqb_spec rc WAL_RETRY) as [->|]; [|by apply wp_ret].
      destruct H as [[E _]|(_ & E & Ht1)]; [done|]. eapply wp_mono; [|apply (IH k1); [by rewrite E|done]]. cbn beta.
      intros [[rc k2] chg2] t2 H'. cbn [fst snd] in *. rewrite E in H'. destruct H' as [(-> & j & Hj & E2 & H')|(? & E2 & H')].
      * left. split; [done|]. exists j. split; [done|]. split; [exact E2|done].
      * right. split; [done|]. split; [exact E2|done].
Qed.
End read_transactions.

Section write_transactions.
Context {L : Type} {LM : LockManager L} {LL : LockLaws L}.
Context (c : Z) (Hconn : lk_conn c = true).
Implicit Types (k : conn) (t : claim).

(** The salts of a restarted log differ from those before. *)
Definition next_salt (salt salt1 : list Z) : list Z := splice (put4_at salt 0 (u32 (1 + get4_at salt 0))) 4 salt1.
Lemma u32_succ n : u32 (n + 1) <> n.
Proof.
  unfold u32. intros E. pose proof (Z.mod_pos_bound (n + 1) (2 ^ 32) ltac:(lia)) as Hb. rewrite E in Hb.
  destruct (Z.eq_dec n (2 ^ 32 - 1)) as [->|]; [done|]. rewrite Z.mod_small in E by lia. lia.
Qed.
Lemma next_salt_ok salt salt1 : zlen salt = 8 -> length salt1 = 4%nat -> zlen (next_salt salt salt1) = 8 /\ next_salt salt salt1 <> salt.
Proof.
  intros H1 H2. unfold next_salt. set (v := u32 (1 + get4_at salt 0)).
  assert (E : put4_at salt 0 v = be4 v ++ drop 4 salt) by (apply (put4_at_app [] salt v 0); [done|lia]).
  assert (El : zlen (be4 v) = 4) by done. assert (Es : splice (put4_at salt 0 v) 4 salt1 = be4 v ++ salt1).
  { rewrite E. unfold splice. change (Z.to_nat 4) with 4%nat. rewrite take_app_le by (cbn; lia). rewrite take_ge by (cbn; lia). f_equal.
    rewrite drop_ge; [by rewrite app_nil_r|]. rewrite length_app, length_drop. unfold zlen in *. cbn. lia. }
  rewrite Es. split; [rewrite zlen_app, El; unfold zlen; lia|]. intros Eq.
  assert (Hv : get4_at (be4 v ++ salt1) 0 = v).
  { apply (get4_at_app [] v salt1 0); [done|]. unfold v, u32, is_u32. apply Z.mod_pos_bound. lia. }
  rewrite Eq in Hv. unfold v in Hv. rewrite Z.add_comm in Hv. by apply (u32_succ (get4_at salt 0)).
Qed.

Lemma wp_restart_hdr k salt1 t s fr : sn t = Some s -> wr t = Some fr -> rs t = false -> ck t = CNone -> log_slots_ex t ->
  rd t = RZero \/ (rd t = RNone /\ al t = true) -> khdr k = s_hdr s -> known s -> length salt1 = 4%nat ->
  wp (L := L) c (walRestartHdr k salt1) (fun k' t' => exists s', known s' /\ s_mx s' = 0 /\ khdr k' = s_hdr s' /\
    t' = mkClaim (lk t) (Some s') false (rd t) None (Some []) false false CNone /\
    k' = set_wal k (cw k') /\ w_nCkpt (cw k') = u32 (w_nCkpt (cw k) + 1) /\ w_iReCksum (cw k') = w_iReCksum (cw k)) t.
Proof.
  intros Es Ew Ers Eck Hex Hrd Ek [Hm Hsalt] Hlen. unfold walRestartHdr.
  destruct (next_salt_ok (h_aSalt (khdr k)) salt1 ltac:(by rewrite Ek) Hlen) as [Hs1 Hs2].
  fold (khdr k). fold (next_salt (h_aSalt (khdr k)) salt1). unfold walIndexWriteHdr. apply wp_bind.
  apply wp_do, (t_restart c Hconn _ s fr); try done.
  - cbn. by rewrite Ek.
  - cbn. by rewrite <- Ek.
  - intros s' Eh. apply wp_ret. apply wp_do, t_store_zero; [done|done|].
    apply wp_do, t_attempted. apply wp_do, t_store_mark; [by apply Hex|].
    apply wp_do, t_store_mark; [by apply Hex|]. apply wp_do, t_store_mark; [by apply Hex|]. apply wp_do, t_store_mark; [by apply Hex|].
    apply wp_ret. exists s'. unfold known, s_mx. rewrite Eh. by split_and!.
Qed.
End write_transactions.

Section restart_log.
Context {L : Type} {LM : LockManager L} {LL : LockLaws L}.
Context (c : Z) (Hconn : lk_conn c = true).
Implicit Types (k : conn) (t : claim).

(** The log was started again, or the writer goes on behind the frames it knows. *)
Definition relogged k k' s (fr : list (Z * Z * page)) s' (fr' : list (Z * Z * page)) : Prop :=
  khdr k' = s_hdr s' /\ writeLock k' = writeLock k /\ ckptLock k' = ckptLock k /\ readOnly k' = readOnly k /\
  w_sector k' = w_sector k /\ w_iReCksum (cw k') = w_iReCksum (cw k) /\
  ((s' = s /\ fr' = fr /\ w_nCkpt (cw k') = w_nCkpt (cw k)) \/ (s_mx s' = 0 /\ fr' = [] /\ w_nCkpt (cw k') = u32 (w_nCkpt (cw k) + 1))).

Lemma needs_zero t : rs t = false -> ck t = CNone -> rd t = RZero -> forall i, 4 <= i -> ~ needs t i.
Proof.
  intros E1 E2 E3 i Hi [[E _]|[[E _]|[(j & E & Ej)|[(_ & ? & ? & ? & ? & ? & E)|E]]]]; unfold WAL_WRITE_LOCK, WAL_CKPT_LOCK, WAL_READ_LOCK in *; try lia; try congruence.
  rewrite E3 in E. cbn in E. simplify_eq. lia.
Qed.

Lemma wp_restart_log k t s fr : 0 <= readLock k <= 4 -> known s -> (readLock k = 0 -> khdr k = s_hdr s) ->
  rest t (Some s) (Some fr) (reading_of k) true false (readLock k) ->
  wp (L := L) c (walRestartLog k) (fun x t' => let '(rc, k') := x in exists s' fr', known s' /\
    rest t' (Some s') (Some fr') (reading_of k') true false (readLock k') /\
    (rc = SQLITE_OK -> 1 <= readLock k' <= 4) /\ (rc <> SQLITE_OK -> readLock k' = -1) /\
    ((readLock k <> 0 /\ rc = SQLITE_OK /\ k' = k /\ s' = s /\ fr' = fr) \/ (readLock k = 0 /\ relogged k k' s fr s' fr'))) t.
Proof.
  intros Hr Hs Eh Ht. unfold walRestartLog. destruct (Z.eqb_spec (readLock k) 0) as [E0|E0].
  2:{ apply wp_ret. exists s, fr. split_and!; try done; [lia|]. by left. }
  specialize (Eh E0). assert (ER : reading_of k = RZero) by (unfold reading_of; by rewrite E0). rewrite ER, E0 in Ht. clear ER.
  (* with the log restarted or not, go on with a read mark *)
  assert (Hgo : forall k1 t1 s1 fr1, known s1 -> readLock k1 = 0 -> relogged k k1 s fr s1 fr1 -> rest t1 (Some s1) (Some fr1) RZero true false 0 ->
    wp (L := L) c (walUnlockShared (WAL_READ_LOCK 0);; '(rc, k2, _) ← try_read_loop 101 (set_read k1 (-1)) false true 0; Ret (rc, k2))
     (fun x t' => let '(rc, k') := x in exists s' fr', known s' /\
      rest t' (Some s') (Some fr') (reading_of k') true false (readLock k') /\
      (rc = SQLITE_OK -> 1 <= readLock k' <= 4) /\ (rc <> SQLITE_OK -> readLock k' = -1) /\
      ((readLock k <> 0 /\ rc = SQLITE_OK /\ k' = k /\ s' = s /\ fr' = fr) \/ (readLock k = 0 /\ relogged k k' s fr s' fr'))) t1).
  { intros k1 t1 s1 fr1 Hs1 Hr1 Hre Ht1. apply (wp_upd c _ _ t1 (with_rd t1 RNone)); [by apply upd_no_read|].
    apply wp_unlock_sh; [done|done|apply needs_read; by destruct Ht1|].
    assert (Ht2 : rest (with_lk (with_rd t1 RNone) (WAL_READ_LOCK 0) 1 Free) (Some s1) (Some fr1) RNone true false (-1)) by rest_tac.
    pose proof Hre as (Ekh & _).
    eapply wp_seq; [apply (wp_retry_log c Hconn 101 (set_read k1 (-1)) false 0 _ s1 (Some fr1) true false); [done|done|exact Ht2]|].
    cbn beta. intros [[rc k2] chg] t2 Hl. cbn [fst snd] in *. apply wp_ret. exists s1, fr1. split; [done|].
    destruct Hl as [(-> & j & Hj & E & Hl)|(Hrc & E & Hl)].
    - assert (Er : readLock k2 = j) by (by rewrite E). split_and!; try done; [|by rewrite Er|].
      + unfold reading_of. by rewrite Er, (proj2 (Z.ltb_ge _ _)), (proj2 (Z.eqb_neq _ _)) by lia.
      + right. split; [done|]. by rewrite E.
    - assert (Er : readLock k2 = -1) by (by rewrite E). split_and!; try done.
      + unfold reading_of. by rewrite Er.
      + right. split; [done|]. by rewrite E. }
  apply wp_do, t_load_any. intros b. destruct (0 <? b).
  2:{ apply wp_bind, wp_ret. apply (Hgo k t s fr); try done. split_and!; try done. by left. }
  apply wp_bind, wp_do, t_random. intros salt Hsalt. apply wp_do, t_lock_exclusive; [done|done|done|destruct Ht; locks| |].
  2:{ change (SQLITE_BUSY =? SQLITE_OK) with false. change (SQLITE_BUSY =? SQLITE_BUSY) with true. cbn iota beta delta [negb].
      apply wp_ret. apply (Hgo k t s fr); try done. split_and!; try done. by left. }
  change (SQLITE_OK =? SQLITE_OK) with true. cbn iota.
  eapply wp_seq; [eapply (wp_restart_hdr c Hconn k salt _ s fr); [by destruct Ht|by destruct Ht|by destruct Ht|by destruct Ht| | |done|done|done]|].
  { intros j Hj. destruct Ht. locks. }
  { left. by destruct Ht. }
  cbn beta. intros k1 t1 (s1 & Hs1 & Hm & Ek1 & -> & Ew & En & Ei). apply wp_unlock_ex; [done|done|done| |].
  { intros i Hi. apply needs_zero; [by destruct Ht..|unfold WAL_READ_LOCK in Hi; lia]. }
  apply wp_ret. apply (Hgo k1 _ s1 []); [done|by rewrite Ew| |].
  - split; [done|]. rewrite Ew. cbn [set_wal writeLock ckptLock readOnly w_sector cw]. split_and!; try done. right. by split_and!.
  - rest_tac.
Qed.
End restart_log.

Section frames_written.
Context {L : Type} {LM : LockManager L} {LL : LockLaws L}.
Context (c : Z) (Hconn : lk_conn c = true).
Implicit Types (k : conn) (t : claim) (fr : list (Z * Z * page)).

(** Only the log state changes, and the header keeps its end of the log and its salts. *)
Definition same_log k k' : Prop := k' = set_wal k (cw k') /\ w_nCkpt (cw k') = w_nCkpt (cw k) /\
  h_mxFrame (khdr k') = h_mxFrame (khdr k) /\ h_aSalt (khdr k') = h_aSalt (khdr k).
Lemma same_log_refl k : same_log k k.
Proof. split_and!; try done. by destruct k. Qed.
Lemma same_log_trans k1 k2 k3 : same_log k1 k2 -> same_log k2 k3 -> same_log k1 k3.
Proof. intros (E1 & H1) (E2 & H2). split; [rewrite E2, E1; done|]. intuition congruence. Qed.
(** Only frames of the transaction have their checksums recomputed. *)
Definition reck_ok (s : snap) k : Prop := w_iReCksum (cw k) = 0 \/ s_mx s < w_iReCksum (cw k).

Lemma encode_spec k pgno nT d : core (fst (encode k pgno nT d)) = (pgno, nT, d) /\ same_log k (snd (encode k pgno nT d)) /\
  w_iReCksum (cw (snd (encode k pgno nT d))) = w_iReCksum (cw k).
Proof. unfold encode, walEncodeFrame. destruct (w_iReCksum (cw k) =? 0); cbn; split_and!; done. Qed.

Lemma rest_wr t s W W' r wl cl rl : rest t s W r wl cl rl -> rest (with_wr t W') s W' r wl cl rl.
Proof. intros []. by split. Qed.

(** One frame, directly behind the first [i - 1]. *)
Lemma wp_write_frame k i pgno nT d t s fr R rl : rest t (Some s) (Some fr) R true false rl -> s_mx s < i <= s_mx s + zlen fr + 1 ->
  wp (L := L) c (write_frame k i pgno nT d) (fun x t' => same_log k (snd x) /\ w_iReCksum (cw (snd x)) = w_iReCksum (cw k) /\
    exists y, rest t' (Some s) (Some (take (Z.to_nat (i - s_mx s - 1)) fr ++ [y])) R true false rl /\
      (truthy (fst x) = false -> y = (pgno, nT, d))) t.
Proof.
  intros Ht Hi. unfold write_frame. pose proof (encode_spec k pgno nT d) as (E1 & E2 & E3). destruct (encode k pgno nT d) as [f k']. cbn [fst snd] in *.
  apply wp_do. replace i with (s_mx s + (i - s_mx s - 1) + 1) at 1 by lia.
  eapply (t_write_frame c Hconn); [by destruct Ht|by destruct Ht|lia|]. intros rc x Hx. apply wp_ret. cbn [fst snd]. split; [done|]. split; [done|].
  exists x. split; [by eapply rest_wr|]. intros E. by rewrite Hx, E1.
Qed.
Lemma zlen_put fr n (y : Z * Z * page) : 0 <= n <= zlen fr -> zlen (take (Z.to_nat n) fr ++ [y]) = n + 1.
Proof. intros H. rewrite zlen_snoc. unfold zlen in *. rewrite length_take. lia. Qed.
Lemma last_put fr n (y : Z * Z * page) : 0 <= n <= zlen fr -> (take (Z.to_nat n) fr ++ [y]) !! Z.to_nat n = Some y.
Proof. intros H. unfold zlen in *. apply list_lookup_middle. rewrite length_take. lia. Qed.

(** The last frame of a commit. *)
Definition ends_commit (s : snap) fr (iFrame nTruncate : Z) : Prop :=
  s_mx s < iFrame /\ exists pg d, fr !! Z.to_nat (iFrame - s_mx s - 1) = Some (pg, nTruncate, d).

Lemma wp_frames_loop pList k nT iFirst iFrame isCommit t s fr R rl :
  rest t (Some s) (Some fr) R true false rl -> 0 <= s_mx s <= h_mxFrame (khdr k) -> h_mxFrame (khdr k) <= iFrame <= s_mx s + zlen fr ->
  iFirst = 0 \/ iFirst = s_mx s + 1 -> reck_ok s k ->
  wp (L := L) c (frames_loop k pList nT iFirst iFrame isCommit) (fun x t' => let '(rc, k', iFrame') := x in
    same_log k k' /\ reck_ok s k' /\ exists fr', rest t' (Some s) (Some fr') R true false rl /\ h_mxFrame (khdr k) <= s_mx s + zlen fr' /\
    (truthy rc = false -> iFrame <= iFrame' <= s_mx s + zlen fr' /\
       (isCommit = true -> pList <> [] -> ends_commit s fr' iFrame' nT))) t.
Proof.
  revert k iFrame t fr. induction pList as [|[pgno d] pList IH]; intros k iFrame t fr Ht Hmx HiF Hf Hre; cbn [frames_loop].
  { apply wp_ret. split; [apply same_log_refl|]. split; [done|]. exists fr. split; [done|]. split; [lia|]. intros _. split; [lia|done]. }
  set (pDirty := negb (bool_decide (pList = []))).
  (* the rest of the list *)
  assert (Hrest : forall k1 iFrame1 t1 fr1, same_log k k1 -> reck_ok s k1 -> rest t1 (Some s) (Some fr1) R true false rl ->
    h_mxFrame (khdr k) <= iFrame1 <= s_mx s + zlen fr1 -> iFrame <= iFrame1 ->
    (isCommit = true -> pList = [] -> ends_commit s fr1 iFrame1 nT) ->
    wp (L := L) c (frames_loop k1 pList nT iFirst iFrame1 isCommit) (fun x t' => let '(rc, k', iFrame') := x in
      same_log k k' /\ reck_ok s k' /\ exists fr', rest t' (Some s) (Some fr') R true false rl /\ h_mxFrame (khdr k) <= s_mx s + zlen fr' /\
      (truthy rc = false -> iFrame <= iFrame' <= s_mx s + zlen fr' /\
         (isCommit = true -> (pgno, d) :: pList <> [] -> ends_commit s fr' iFrame' nT))) t1).
  { intros k1 iFrame1 t1 fr1 Hk1 Hre1 Ht1 Hb1 Hle Hend. pose proof Hk1 as (_ & _ & Em & _). destruct pList as [|e pl'].
    - cbn [frames_loop]. apply wp_ret. split; [done|]. split; [done|]. exists fr1. split; [done|]. split; [lia|]. intros _. split; [lia|]. auto.
    - eapply wp_mono; [|eapply (IH k1 iFrame1 t1 fr1); [done|lia|lia|done|done]]. intros [[rc k2] iF2] t2 (A1 & A2 & fr2 & A3 & A4 & A5).
      split; [by eapply same_log_trans|]. split; [done|]. exists fr2. split; [done|]. split; [lia|]. intros Hrc. destruct (A5 Hrc) as [A6 A7].
      split; [lia|]. intros Hc _. by apply A7. }
  apply (wp_seq c _ _ (fun iW t' => rest t' (Some s) (Some fr) R true false rl /\ (truthy iFirst = true -> iW <= h_mxFrame (khdr k)))).
  { destruct (truthy iFirst && _) eqn:Eg.
    - unfold walFindFrame'. destruct ((h_mxFrame (khdr k) =? 0) || (readLock k =? 0)); [apply wp_ret; split; [done|]; intros; lia|].
      lazymatch goal with |- wp _ (do_ ?a) ?Q _ => change (triple (L := L) c t a Q) end. apply t_find_le; [lia|]. intros f Hle. by split.
    - apply wp_ret. split; [done|]. intros; lia. }
  intros iW t1 [Ht1 HiW]. destruct (truthy iFirst && _ && _) eqn:Eg.
  - (* overwritten in place *)
    apply andb_prop in Eg as [Eg Hge]. apply andb_prop in Eg as [Efst Eg]. specialize (HiW Efst).
    assert (EF : iFirst = s_mx s + 1) by (destruct Hf as [->|]; done). assert (Hw : s_mx s < iW <= s_mx s + zlen fr) by lia.
    set (k1 := if (w_iReCksum (cw k) =? 0) || (iW <? w_iReCksum (cw k)) then set_reck k iW else k). assert (Hk1 : same_log k k1 /\ reck_ok s k1).
    { unfold k1. case_match; [|split; [apply same_log_refl|done]]. split; [by split_and!|]. right. cbn. lia. }
    replace iW with (s_mx s + (iW - s_mx s - 1) + 1) by lia.
    destruct (lookup_lt_is_Some_2 fr (Z.to_nat (iW - s_mx s - 1))) as [[[pg tr] d0] El]; [unfold zlen in *; lia|].
    apply wp_do. eapply (t_write_data c Hconn); [by destruct Ht1|by destruct Ht1|lia|exact El|]. intros rc d'.
    set (fr1 := <[Z.to_nat (iW - s_mx s - 1) := (pg, tr, d')]> fr). assert (Ez : zlen fr1 = zlen fr) by (unfold zlen, fr1; by rewrite length_insert).
    assert (Ht2 : rest (with_wr t1 (Some fr1)) (Some s) (Some fr1) R true false rl) by (by eapply rest_wr).
    destruct (truthy rc) eqn:Erc.
    + apply wp_ret. destruct Hk1. split; [done|]. split; [done|]. exists fr1. split; [done|]. split; [lia|]. congruence.
    + destruct Hk1. apply Hrest with fr1; try done; try lia. intros Hc ->. exfalso. unfold pDirty in Eg. rewrite Hc in Eg. by cbn in Eg.
  - (* appended *)
    set (nDb := if isCommit && negb pDirty then nT else 0).
    eapply wp_seq; [eapply (wp_write_frame k (iFrame + 1) pgno nDb d t1 s fr); [done|lia]|]. cbn beta.
    intros [rc k1] t2 (Hk1 & Er1 & y & Ht2 & Hy). cbn [fst snd] in *. replace (iFrame + 1 - s_mx s - 1) with (iFrame - s_mx s) in Ht2 by lia.
    assert (Hre1 : reck_ok s k1) by (unfold reck_ok; by rewrite Er1). pose proof (zlen_put fr (iFrame - s_mx s) y ltac:(lia)) as Ez.
    destruct (truthy rc) eqn:Erc.
    + apply wp_ret. split; [done|]. split; [done|]. eexists. split; [exact Ht2|]. split; [lia|]. congruence.
    + eapply Hrest; try done; try lia. intros Hc ->. split; [lia|]. exists pgno, d.
      replace (iFrame + 1 - s_mx s - 1) with (iFrame - s_mx s) by lia. rewrite last_put by lia. rewrite Hy by done.
      unfold nDb, pDirty. by rewrite Hc, bool_decide_true by done.
Qed.

Lemma wp_pad_loop n k pg nT iFrame t s fr R rl : rest t (Some s) (Some fr) R true false rl -> iFrame <= s_mx s + zlen fr -> ends_commit s fr iFrame nT ->
  wp (L := L) c (pad_loop n k pg nT iFrame) (fun x t' => let '(rc, k', iFrame') := x in
    same_log k k' /\ w_iReCksum (cw k') = w_iReCksum (cw k) /\ exists fr', rest t' (Some s) (Some fr') R true false rl /\ iFrame <= s_mx s + zlen fr' /\
    (truthy rc = false -> iFrame <= iFrame' <= s_mx s + zlen fr' /\ ends_commit s fr' iFrame' nT)) t.
Proof.
  revert k iFrame t fr. induction n as [|n IH]; intros k iFrame t fr Ht Hb He; cbn [pad_loop].
  { apply wp_ret. split; [apply same_log_refl|]. split; [done|]. exists fr. split; [done|]. split; [done|]. done. }
  pose proof He as [He0 _].
  eapply wp_seq; [eapply (wp_write_frame k (iFrame + 1) (fst pg) nT (snd pg) t s fr); [done|lia]|]. cbn beta.
  intros [rc k1] t2 (Hk1 & Er1 & y & Ht2 & Hy). cbn [fst snd] in *. replace (iFrame + 1 - s_mx s - 1) with (iFrame - s_mx s) in Ht2 by lia.
  pose proof (zlen_put fr (iFrame - s_mx s) y ltac:(lia)) as Ez. destruct (truthy rc) eqn:Erc.
  - apply wp_ret. split; [done|]. split; [done|]. eexists. split; [exact Ht2|]. split; [lia|]. congruence.
  - eapply wp_mono; [|eapply IH; [exact Ht2|lia|]].
    + intros [[rc2 k2] iF2] t3 (A1 & A2 & fr2 & A3 & A4 & A5). split; [by eapply same_log_trans|]. split; [congruence|]. exists fr2. split; [done|].
      split; [lia|]. intros E. destruct (A5 E) as [? ?]. split; [lia|done].
    + split; [lia|]. exists (fst pg), (snd pg). replace (iFrame + 1 - s_mx s - 1) with (iFrame - s_mx s) by lia. rewrite last_put by lia. by rewrite Hy.
Qed.

Lemma wp_rewrite_loop n k i t s fr R rl : rest t (Some s) (Some fr) R true false rl -> s_mx s < i -> n = O \/ i + Z.of_nat n - 1 <= s_mx s + zlen fr ->
  wp (L := L) c (rewrite_loop n k i) (fun x t' => same_log k (snd x) /\ w_iReCksum (cw (snd x)) = w_iReCksum (cw k) /\
    exists fr', rest t' (Some s) (Some fr') R true false rl /\ zlen fr' = zlen fr /\ (truthy (fst x) = false -> fr' = fr)) t.
Proof.
  revert k i t fr. induction n as [|n IH]; intros k i t fr Ht Hi Hb; cbn [rewrite_loop].
  { apply wp_ret. split; [apply same_log_refl|]. split; [done|]. by exists fr. }
  apply wp_do, (t_read_own c _ s fr); [by destruct Ht|by destruct Ht|lia|]. intros rc f El.
  destruct (truthy rc) eqn:Erc. { apply wp_ret. split; [apply same_log_refl|]. split; [done|]. by exists fr. }
  pose proof (encode_spec k (f_pgno f) (f_nTrunc f) (f_data f)) as (E1 & E2 & E3).
  destruct (encode k (f_pgno f) (f_nTrunc f) (f_data f)) as [f' k1]. cbn [fst snd] in *.
  replace i with (s_mx s + (i - s_mx s - 1) + 1) at 1 by lia. apply wp_do, (t_rewrite_frame c Hconn _ s fr); [by destruct Ht|by destruct Ht|lia|].
  replace (i - s_mx s - 1) with (i - s_mx s - 1) in El by lia. intros rc' x Hx. destruct (truthy rc') eqn:Erc'.
  - apply wp_ret. cbn [fst snd]. split; [done|]. split; [done|]. eexists. split; [by eapply rest_wr|]. split; [unfold zlen; by rewrite length_insert|]. congruence.
  - rewrite (Hx eq_refl), E1. change (f_pgno f, f_nTrunc f, f_data f) with (core f). rewrite list_insert_id by done.
    eapply wp_mono; [|eapply (IH k1 (i + 1) _ fr); [by eapply rest_wr|lia|lia]]. intros [rc2 k2] t2 (A1 & A2 & fr2 & A3 & A4 & A5).
    cbn [fst snd] in *. split; [by eapply same_log_trans|]. split; [congruence|]. by exists fr2.
Qed.

Lemma wp_rewrite_checksums k iLast t s fr R rl : rest t (Some s) (Some fr) R true false rl -> 0 <= s_mx s -> s_mx s < w_iReCksum (cw k) -> iLast <= s_mx s + zlen fr ->
  wp (L := L) c (walRewriteChecksums k iLast) (fun x t' => same_log k (snd x) /\ w_iReCksum (cw (snd x)) = 0 /\
    exists fr', rest t' (Some s) (Some fr') R true false rl /\ zlen fr' = zlen fr /\ (truthy (fst x) = false -> fr' = fr)) t.
Proof.
  intros Ht Hs Hi Hb. unfold walRewriteChecksums.
  apply (wp_seq c _ _ (fun _ t' => rest t' (Some s) (Some fr) R true false rl)).
  { destruct (_ =? 1).
    - apply wp_do, t_read_head. intros [rc h]. by apply wp_ret.
    - apply wp_do, t_read_frame_any. intros [rc f]. by apply wp_ret. }
  intros [rc a] t1 Ht1. set (k1 := set_reck _ 0). assert (Hk1 : same_log k k1) by (by split_and!). destruct (truthy rc) eqn:Erc.
  { apply wp_ret. split; [done|]. split; [done|]. cbn [fst snd]. exists fr. by rewrite Erc. }
  eapply wp_mono; [|eapply (wp_rewrite_loop _ k1 _ t1 s fr); [done|done|]].
  - intros [rc2 k2] t2 (A1 & A2 & A3). split; [exact (same_log_trans _ _ _ Hk1 A1)|]. by split.
  - destruct (Z.le_gt_cases (w_iReCksum (cw k)) iLast); [right|left]; lia.
Qed.
End frames_written.
