(* ===== verification/WalCalls.v ===== *)
(** The calls of wal.c that write to the log or checkpoint it, against the claims of the
    connection that makes them: [walFrames] with its restart of the log, in-place
    rewriting, padding and commit; and [sqlite3WalCheckpoint] in all its modes. *)

From stdpp Require Import functions sorting.
From S2P Require Import Prelude Varint WalIndex WalLog WalLocks WalTxn WalClaims WalActions WalPrograms.

Section write_frames.
Context {L : Type} {LM : LockManager L} {LL : LockLaws L}.
Context (c : Z) (Hconn : lk_conn c = true).
Implicit Types (k : conn) (t : claim) (fr : list (Z * Z * page)).

(** A connection in a write transaction: the published header is the snapshot, and the
    private one is ahead of it by frames that are in the log. *)
Record writing k t (s : snap) fr : Prop := {
  w_known : known s;
  w_rest : rest t (Some s) (Some fr) (reading_of k) true false (readLock k);
  w_end : s_mx s <= h_mxFrame (khdr k) <= s_mx s + zlen fr;
  w_salt : zlen (h_aSalt (khdr k)) = 8;
  w_reck : reck_ok s k;
  w_zero : readLock k = 0 -> khdr k = s_hdr s;
  w_slot : -1 <= readLock k <= 4;
  w_flags : writeLock k = true /\ ckptLock k = false
}.

Lemma writing_log k k' t t' s fr fr' : writing k t s fr -> 1 <= readLock k -> same_log k k' -> reck_ok s k' ->
  rest t' (Some s) (Some fr') (reading_of k) true false (readLock k) -> h_mxFrame (khdr k) <= s_mx s + zlen fr' -> writing k' t' s fr'.
Proof.
  intros [] Hr (E & _ & Em & Es) Hre Ht Hb.
  assert (E1 : readLock k' = readLock k) by (by rewrite E). assert (E2 : minFrame k' = minFrame k) by (by rewrite E).
  split; try done.
  - unfold reading_of. by rewrite E1, E2.
  - lia.
  - by rewrite Es.
  - lia.
  - lia.
  - by rewrite E.
Qed.

(** What is left of the first half of the routine. *)
Definition origin k s k' s' : Prop := (w_nCkpt (cw k') = w_nCkpt (cw k) /\ s' = s) \/
  (readLock k = 0 /\ w_nCkpt (cw k') = u32 (w_nCkpt (cw k) + 1) /\ s_mx s' = 0).
Definition framed k s (isCommit : bool) (x : Z * conn) t' : Prop := let '(rc, k') := x in
  exists s' fr', writing k' t' s' fr' /\ readLock k' <> 0 /\
    if isCommit && (rc =? SQLITE_OK) then khdr k' = s_hdr s' else origin k s k' s'.

Lemma truthy_ok rc : truthy rc = negb (rc =? SQLITE_OK).
Proof. done. Qed.

Lemma truthy_false rc : truthy rc = false -> rc = SQLITE_OK.
Proof. rewrite truthy_ok. by intros ?%negb_false_iff%Z.eqb_eq. Qed.

Lemma framed_fail k s isCommit rc k1 k' t' s' fr' : truthy rc = true -> writing k' t' s' fr' -> readLock k' <> 0 ->
  origin k s k1 s' -> w_nCkpt (cw k') = w_nCkpt (cw k1) -> framed k s isCommit (rc, k') t'.
Proof.
  intros Hrc Hw Hr Ho En. exists s', fr'. split; [done|]. split; [done|]. rewrite truthy_ok in Hrc.
  apply negb_true_iff in Hrc. rewrite Hrc, andb_false_r. unfold origin. by rewrite En.
Qed.

Lemma wp_finish_frames k0 s0 k szPage pList nT iFrame isCommit sync t s fr :
  writing k t s fr -> 1 <= readLock k -> origin k0 s0 k s -> h_mxFrame (khdr k) <= iFrame <= s_mx s + zlen fr -> Bool.eqb isCommit (0 <? nT) = true ->
  (isCommit = true -> ends_commit s fr iFrame nT) ->
  wp (L := L) c (finish_frames k szPage pList nT iFrame isCommit sync) (framed k0 s0 isCommit) t.
Proof.
  intros Hw Hr Ho Hb HnT He. pose proof Hw as [[Hs Hsalt] Ht Hend Hks Hre Hz Hsl [Hwl Hcl]]. unfold finish_frames.
  (* the checksums *)
  apply (wp_seq c _ _ (fun x t' => let '(rc, k') := x in same_log k k' /\ reck_ok s k' /\ exists fr',
     rest t' (Some s) (Some fr') (reading_of k) true false (readLock k) /\ zlen fr' = zlen fr /\ (truthy rc = false -> fr' = fr /\ (isCommit = true -> w_iReCksum (cw k') = 0)))).
  { destruct (isCommit && truthy (w_iReCksum (cw k))) eqn:Ec.
    - apply andb_prop in Ec as [_ Ec]. destruct Hre as [Hre|Hre]; [by rewrite Hre in Ec|].
      eapply wp_mono; [|eapply (wp_rewrite_checksums c Hconn k iFrame t s fr); [done|done|done|lia]].
      intros [rc k'] t' (A1 & A2 & fr' & A3 & A4 & A5). cbn [fst snd] in *. split; [done|]. split; [by left|]. exists fr'. split_and!; auto.
    - apply wp_ret. split; [apply same_log_refl|]. split; [done|]. exists fr. split_and!; try done. intros _. split; [done|]. intros ->.
      cbn [andb] in Ec. unfold truthy in Ec. apply negb_false_iff, Z.eqb_eq in Ec. done. }
  intros [rc1 k1] t1 (A1 & A2 & fr1 & A3 & A4 & A5). destruct (truthy rc1) eqn:E1.
  { apply wp_ret. eapply framed_fail; [done|eapply (writing_log k k1); try done; lia| |exact Ho|by destruct A1 as (_ & ? & _)].
    destruct A1 as [-> _]. cbn. lia. }
  destruct (A5 eq_refl) as [-> A6]. clear A5 A4.
  (* padding and sync *)
  apply (wp_seq c _ _ (fun x t' => let '(rc, k', iFrame') := x in same_log k k' /\ w_iReCksum (cw k') = w_iReCksum (cw k1) /\ exists fr',
     rest t' (Some s) (Some fr') (reading_of k) true false (readLock k) /\ h_mxFrame (khdr k) <= s_mx s + zlen fr' /\
     (truthy rc = false -> iFrame <= iFrame' <= s_mx s + zlen fr' /\ (isCommit = true -> ends_commit s fr' iFrame' nT)))).
  { destruct (isCommit && sync) eqn:Ec; [|apply wp_ret; split; [done|]; split; [done|]; exists fr; split; [done|]; split; [lia|]; intros _; split; [lia|done]].
    apply andb_prop in Ec as [-> _]. specialize (He eq_refl).
    apply (wp_seq c _ _ (fun x t' => let '(rc, k', iFrame') := x in same_log k k' /\ w_iReCksum (cw k') = w_iReCksum (cw k1) /\ exists fr',
     rest t' (Some s) (Some fr') (reading_of k) true false (readLock k) /\ h_mxFrame (khdr k) <= s_mx s + zlen fr' /\
     (truthy rc = false -> iFrame <= iFrame' <= s_mx s + zlen fr' /\ (ends_commit s fr' iFrame' nT)))).
    - destruct (0 <? w_sector k1); [|apply wp_ret; split; [done|]; split; [done|]; exists fr; split; [done|]; split; [lia|]; intros _; split; [lia|done]].
      eapply wp_mono; [|eapply (wp_pad_loop c Hconn _ k1 _ nT iFrame t1 s fr); [done|lia|done]].
      intros [[rc k2] iF2] t2 (B1 & B2 & fr2 & B3 & B4 & B5). split; [by eapply same_log_trans|]. split; [done|].
      exists fr2. split; [done|]. split; [lia|]. done.
    - intros [[rc k2] iF2] t2 (B1 & B2 & fr2 & B3 & B4 & B5). destruct (truthy rc) eqn:E.
      + apply wp_ret. split; [done|]. split; [done|]. exists fr2. rewrite E. by split_and!.
      + apply wp_do, t_io. intros rc'. apply wp_ret. split; [done|]. split; [done|]. exists fr2. destruct (B5 eq_refl). by split_and!. }
  intros [[rc2 k2] iF2] t2 (B1 & B2 & fr2 & B3 & B4 & B5).
  assert (Hw2 : writing k2 t2 s fr2) by (eapply (writing_log k k2); try done; unfold reck_ok in *; by rewrite B2).
  assert (Hr2 : readLock k2 = readLock k) by (destruct B1 as [-> _]; done).
  assert (En2 : w_nCkpt (cw k2) = w_nCkpt (cw k)) by (by destruct B1 as (_ & ? & _)).
  destruct (truthy rc2) eqn:E2; [apply wp_ret; eapply framed_fail; try done; lia|]. specialize (B5 eq_refl).
  apply wp_do, t_io. intros rc3. destruct (truthy rc3) eqn:E3; [apply wp_ret; eapply framed_fail; try done; lia|].
  destruct Hw2 as [_ D2 _ D4 D5 D6 D7 [D8 D9]]. destruct B5 as [B5 B6]. destruct isCommit; cbn [andb] in *.
  - destruct (B6 eq_refl) as (He0 & pg & d & Hlast). unfold walIndexWriteHdr. apply wp_bind.
    apply wp_do, (t_commit c Hconn _ s fr2 (iF2 - s_mx s) _ pg d); try by destruct B3.
    + rewrite (r_rd _ _ _ _ _ _ _ B3). unfold reading_of. rewrite (proj2 (Z.ltb_ge _ _)), (proj2 (Z.eqb_neq _ _)) by lia. done.
    + lia.
    + cbn. lia.
    + cbn. destruct (0 <? nT) eqn:E; [lia|done].
    + intros s' Es'. apply wp_ret, wp_ret. assert (Em : s_mx s' = iF2) by (unfold s_mx; by rewrite Es').
      assert (Er : reading_of k2 = reading_of k) by (unfold reading_of; destruct B1 as [-> _]; done).
      exists s', []. split; [|split; [cbn; lia|cbn; by rewrite Es']]. split; try done; cbn.
      * split; [lia|]. by rewrite Es'.
      * change (rest (committed t2 s') (Some s') (Some []) (reading_of k2) true false (readLock k2)). rewrite Er, Hr2. destruct B3. by split.
      * change (s_mx s' <= iF2 <= s_mx s' + 0). lia.
      * left. cbn. rewrite B2. by apply A6.
  - apply wp_bind, wp_ret, wp_ret. exists s, fr2. split; [|split; [cbn; lia|]].
    + split; try done; cbn; lia.
    + cbn. unfold origin in *. cbn. by rewrite En2.
Qed.
End write_frames.

Section whole_frames.
Context {L : Type} {LM : LockManager L} {LL : LockLaws L}.
Context (c : Z) (Hconn : lk_conn c = true).
Implicit Types (k : conn) (t : claim) (fr : list (Z * Z * page)).

(** A new log keeps its place; its salts may be new. *)
Lemma wp_log_header k szPage t s fr : writing k t s fr -> 1 <= readLock k ->
  wp (L := L) c (write_log_header k szPage) (fun x t' => t' = t /\ writing (snd x) t s fr /\ readLock (snd x) = readLock k /\
    w_nCkpt (cw (snd x)) = w_nCkpt (cw k) /\ h_mxFrame (khdr (snd x)) = h_mxFrame (khdr k)) t.
Proof.
  intros Hw Hr. unfold write_log_header.
  apply (wp_seq c _ _ (fun salt t' => t' = t /\ zlen salt = 8)).
  { destruct (_ =? 0).
    - lazymatch goal with |- wp _ (do_ ?a) ?Q _ => change (triple (L := L) c t a Q) end.
      apply t_random. intros x Hx. split; [done|]. unfold zlen. by rewrite Hx.
    - apply wp_ret. by destruct Hw. }
  intros salt t' [-> Hsalt]. unfold wal_header. cbn [fst snd]. apply wp_do, t_log_head. intros rc.
  destruct Hw. destruct (truthy rc).
  - apply wp_ret. split; [done|]. split; [|done]. split; try done. cbn. lia.
  - apply wp_do, t_io. intros rc'. apply wp_ret. split; [done|]. split; [|done]. split; try done. cbn. lia.
Qed.

Lemma wp_frames k szPage pList nT isCommit sync t s fr : writing k t s fr -> 0 <= readLock k -> pList <> [] -> Bool.eqb isCommit (0 <? nT) = true ->
  wp (L := L) c (walFrames k szPage pList nT isCommit sync) (framed k s isCommit) t.
Proof.
  intros Hw Hr Hne HnT. unfold walFrames. apply wp_do, (t_writer_hdr c _ s fr); [apply Hw|apply Hw|].
  set (iFirst := if bool_decide (s_hdr s = khdr k) then 0 else h_mxFrame (s_hdr s) + 1).
  eapply wp_seq; [apply (wp_restart_log c Hconn k t s fr); destruct Hw; [lia|done..]|]. cbn beta.
  intros [rc k1] t1 (s1 & fr1 & Hs1 & Ht1 & Hok & Hfail & Hcase).
  assert (Hw1 : writing k1 t1 s1 fr1 /\ readLock k1 <> 0 /\ origin k s k1 s1 /\ (iFirst = 0 \/ iFirst = s_mx s1 + 1)).
  { assert (Hr1 : readLock k1 <> 0 /\ -1 <= readLock k1 <= 4).
    { destruct (decide (rc = SQLITE_OK)) as [E|E]; [specialize (Hok E); lia|rewrite (Hfail E); lia]. }
    destruct Hw as [V1 V2 V3 V4 V5 V6 V7 V8]. destruct Hcase as [(Hn & _ & -> & -> & ->)|(Hz & R1 & R2 & R3 & _ & _ & R4 & R5)].
    - split_and!; [by split|done|by left|]. unfold iFirst. case_bool_decide; [by left|by right].
    - split_and!; [|lia| |].
      + destruct Hs1 as [? Hsalt]. pose proof (zlen_nonneg fr1). split; try done; rewrite ?R1; try done; try lia.
        * unfold s_mx. lia.
        * unfold reck_ok in *. rewrite R4. destruct R5 as [(-> & _)|(-> & _)]; [done|]. destruct V1. lia.
        * rewrite R2, R3. done.
      + unfold origin. destruct R5 as [(-> & _ & ->)|(? & _ & ->)]; [by left|by right].
      + left. unfold iFirst. by rewrite bool_decide_true by (symmetry; auto). }
  clear Hcase. destruct Hw1 as (Hw1 & Hr1 & Ho1 & HF1). destruct (truthy rc) eqn:Erc.
  { apply wp_ret. by eapply framed_fail. }
  assert (Hr1' : 1 <= readLock k1) by (apply Hok, truthy_false, Erc).
  apply (wp_seq c _ _ (fun x t' => t' = t1 /\ writing (snd x) t1 s1 fr1 /\ readLock (snd x) = readLock k1 /\
    w_nCkpt (cw (snd x)) = w_nCkpt (cw k1) /\ h_mxFrame (khdr (snd x)) = h_mxFrame (khdr k1))).
  { destruct (_ =? 0); [by apply wp_log_header|by apply wp_ret]. }
  intros [rc2 k2] t2 (-> & Hw2 & Er2 & En2 & Em2). cbn [fst snd] in *.
  destruct (truthy rc2) eqn:Erc2. { apply wp_ret. eapply framed_fail; try done. lia. }
  destruct (negb _). { apply wp_ret. eapply framed_fail; try done. lia. }
  pose proof Hw2 as [[W1 _] W2 W3 _ W5 _ _ _].
  eapply wp_seq; [apply (wp_frames_loop c Hconn pList k2 nT iFirst (h_mxFrame (khdr k1)) isCommit t1 s1 fr1 (reading_of k2) (readLock k2)); try done; lia|].
  cbn beta. intros [[rc3 k3] iF3] t3 (A1 & A2 & fr3 & A3 & A4 & A5).
  assert (Hw3 : writing k3 t3 s1 fr3) by (eapply (writing_log k2 k3); try done; lia).
  assert (Er3 : readLock k3 = readLock k2) by (by destruct A1 as [-> _]). destruct A1 as (_ & En3 & Em3 & _).
  destruct (truthy rc3) eqn:Erc3. { apply wp_ret. eapply framed_fail; try done; [lia|congruence]. }
  destruct (A5 eq_refl) as [A6 A7]. eapply (wp_finish_frames c Hconn k s k3 szPage pList nT iF3 isCommit sync t3 s1 fr3); try done; try lia.
  - unfold origin in *. by rewrite En3, En2.
  - intros E. by apply A7.
Qed.
End whole_frames.

Section checkpoints.
Context {L : Type} {LM : LockManager L} {LL : LockLaws L}.
Context (c : Z) (Hconn : lk_conn c = true).
Implicit Types (k : conn) (t : claim).

(** A checkpoint that holds its lock and nothing that it could give up. *)
Record ckpting t (s : snap) (W : option (list (Z * Z * page))) (wl : bool) (x : ckpt) : Prop := {
  c_sn : sn t = Some s; c_wr : wr t = W; c_rd : rd t = RNone; c_rs : rs t = false; c_al : al t = false; c_ck : ck t = x;
  c_lk : holds t wl true (-1) }.
Ltac ckpt_tac := match goal with H : ckpting _ _ _ _ _ |- _ => destruct H end; split; cbn; try done; locks.

Lemma ckpt_idle_rd t s W wl x : ckpting t s W wl x -> forall j F0, rd t <> RLog j F0.
Proof. intros [] j F0. congruence. Qed.
Lemma needs_ckpt t i : rs t = false -> rd t = RNone -> 3 <= i -> (i <> READ0 \/ forall sf b todo full cur, ck t <> CFill sf b todo full cur) -> ~ needs t i.
Proof.
  intros E1 E2 Hi Hc [[E _]|[[E _]|[(j & E & Ej)|[(-> & ? & ? & ? & ? & ? & E)|E]]]]; unfold WAL_WRITE_LOCK, WAL_CKPT_LOCK in *; try lia; try congruence.
  - by rewrite E2 in E.
  - destruct Hc as [|Hc]; [done|]. by destruct (Hc _ _ _ _ _ E).
Qed.

Lemma wp_safe_frame n i sf xb t s W wl : 1 <= i -> i + Z.of_nat n = 5 -> ckpting t s W wl (CScan sf i None None None) ->
  wp (L := L) c (safe_frame (seqZ i (Z.of_nat n)) sf xb) (fun x t' => let '(stop, rc, sf', xb') := x in stop = false /\ rc = SQLITE_OK /\
    ckpting t' s W wl (CScan sf' 5 None None None)) t.
Proof.
  revert i sf xb t. induction n as [|n IH]; intros i sf xb t Hi Hn Ht.
  { change (seqZ i (Z.of_nat 0)) with (@nil Z). cbn [safe_frame]. apply wp_ret. split_and!; try done. by replace 5 with i by lia. }
  rewrite seqZ_cons by lia. cbn [safe_frame]. replace (Z.pred (Z.of_nat (S n))) with (Z.of_nat n) by lia.
  pose proof (ckpt_idle_rd _ _ _ _ _ Ht) as Hrd.
  apply wp_do, (t_scan_mark c Hconn t s sf i); [by destruct Ht|by destruct Ht|done|]. intros y.
  set (t1 := with_ck t (CScan sf i (Some y) None None)).
  assert (Hnext : forall sf', sf' = Z.min sf y -> forall xb', wp (L := L) c (safe_frame (seqZ (Z.succ i) (Z.of_nat n)) sf' xb')
    (fun x t' => let '(stop, rc, sf', xb') := x in stop = false /\ rc = SQLITE_OK /\ ckpting t' s W wl (CScan sf' 5 None None None)) t1).
  { intros sf' Esf xb'. apply (wp_upd c _ _ t1 (with_ck t1 (CScan sf' (i + 1) None None None))).
    - apply (upd_scan c Hconn t1 s sf i (Some y)); [by destruct Ht|done|done|]. right. by exists y.
    - replace (Z.succ i) with (i + 1) by lia. apply IH; [lia|lia|]. ckpt_tac. }
  destruct (Z.ltb_spec y sf) as [Hlt|Hge]; [|apply Hnext; lia].
  apply wp_bind, wp_busy; [done|unfold WAL_READ_LOCK; lia|unfold WAL_READ_LOCK; lia|unfold t1; destruct Ht; locks| |].
  - change (SQLITE_OK =? SQLITE_OK) with true. cbn iota. set (t2 := with_lk t1 (WAL_READ_LOCK i) 1 Ex).
    assert (Hl : lk t2 (WAL_READ_LOCK i) = Ex) by (unfold t2; locks).
    apply wp_do, t_store_mark; [done|].
    apply (wp_upd c _ _ t2 (with_ck t2 (CScan sf (i + 1) None None None))).
    { apply (upd_scan c Hconn t2 s sf i (Some y)); [by destruct Ht|done|done|]. by left. }
    apply wp_unlock_ex; [done|unfold WAL_READ_LOCK; lia|unfold WAL_READ_LOCK; lia| |].
    + intros i' Hi'. apply needs_ckpt; [by destruct Ht|by destruct Ht|unfold WAL_READ_LOCK in *; lia|by right].
    + replace (Z.succ i) with (i + 1) by lia. apply IH; [lia|lia|]. unfold t2, t1. ckpt_tac.
  - change (SQLITE_BUSY =? SQLITE_OK) with false. change (SQLITE_BUSY =? SQLITE_BUSY) with true. cbn iota. apply Hnext. lia.
Qed.

(** Copying: the pages left are those of the claim. *)
Lemma wp_backfill_loop todo b sf t s : sn t = Some s -> (forall j F0, rd t <> RLog j F0) -> rd t <> RZero ->
  wp (L := L) c (backfill_loop todo b sf (h_nPage (s_hdr s))) (fun rc t' => (exists x, t' = with_ck t x) /\
    (truthy rc = false -> t' = with_ck t (CFill sf b [] false None))) (with_ck t (CFill sf b todo false None)).
Proof.
  intros Es Hnl Hnz. induction todo as [|[p f] todo IH]; cbn [backfill_loop].
  { apply wp_ret. split; [by eexists|done]. }
  apply wp_do, t_ask. intros [].
  { apply wp_ret. split; [by eexists|done]. }
  destruct ((f <=? b) || (sf <? f) || (h_nPage (s_hdr s) <? p)) eqn:Eg.
  - eapply wp_upd; [|exact IH]. apply (upd_skip_page c Hconn (with_ck t (CFill sf b ((p, f) :: todo) false None)) s sf b p f todo false); [done|done|done|]. lia.
  - apply wp_do, (t_read_fill c Hconn _ s sf b p f todo false); [done|done|done|]. intros rc fr. destruct (truthy rc) eqn:Erc.
    { apply wp_ret. split; [by eexists|]. congruence. }
    apply wp_do, (t_write_db c Hconn _ s sf b p f todo false); try done; [lia| |].
    + intros rc' Erc'. rewrite Erc'. apply wp_ret. split; [by eexists|]. congruence.
    + intros rc' Erc'. rewrite Erc'. exact IH.
Qed.

Lemma wp_backfill k todo b sf t s : sn t = Some s -> rd t = RNone -> rs t = false -> al t = false -> khdr k = s_hdr s ->
  wp (L := L) c (backfill k todo b sf) (fun _ t' => t' = with_ck t CNone) (with_ck t (CFill sf b todo false None)).
Proof.
  intros Es Erd Ers Eal Ek. assert (Hnl : forall j F0, rd t <> RLog j F0) by (intros; congruence). assert (Hnz : rd t <> RZero) by congruence.
  assert (Hend : forall (rc : Z) x, wp (L := L) c (Ret rc) (fun _ t' => t' = with_ck t CNone) (with_ck t x)).
  { intros rc x. eapply wp_end; [by apply upd_no_ck|done]. }
  unfold backfill. rewrite Ek. apply wp_do, t_attempted. apply wp_do, t_io. intros rc. destruct (truthy rc); [apply Hend|].
  eapply wp_seq; [by apply (wp_backfill_loop todo b sf t s)|]. cbn beta. intros rc1 t1 [(x & ->) Hok].
  destruct (truthy rc1); [apply Hend|]. rewrite (Hok eq_refl). clear x Hok.
  assert (Hstore : forall full, wp (L := L) c (do_ (StoreBackfill sf);; Ret SQLITE_OK) (fun _ t' => t' = with_ck t CNone) (with_ck t (CFill sf b [] full None))).
  { intros full. apply wp_do, (t_store_backfill c Hconn _ s sf b full); try done. by apply wp_ret. }
  apply wp_do, (t_check_full c Hconn _ s sf b []); [done|done|done|..].
  - intros h Hh. rewrite (proj2 (Z.eqb_neq _ _)) by congruence. apply wp_bind, wp_ret. cbn [truthy]. apply Hstore.
  - intros h ->. rewrite Z.eqb_refl. apply wp_bind, wp_do, (t_truncate_db c Hconn _ s sf b []); [done|done|done|done|]. intros rc2. destruct (truthy rc2) eqn:E2.
    + apply wp_ret. rewrite E2. apply Hend.
    + lazymatch goal with |- wp _ (do_ ?a) ?Q ?t => change (triple (L := L) c t a Q) end.
      apply t_io. intros rc3. destruct (truthy rc3); [apply Hend|apply Hstore].
Qed.
End checkpoints.

Section checkpoint_calls.
Context {L : Type} {LM : LockManager L} {LL : LockLaws L}.
Context (c : Z) (Hconn : lk_conn c = true).
Implicit Types (k : conn) (t : claim).
Ltac ckpt_tac := match goal with H : ckpting _ _ _ _ _ |- _ => destruct H end; split; cbn; try done; locks.

Lemma wp_copy_safe k xb t s W wl : khdr k = s_hdr s -> ckpting t s W wl (CScan (s_mx s) 1 None None None) ->
  wp (L := L) c (copy_safe_frames k xb) (fun x t' => fst (fst x) = false /\ ckpting t' s W wl CNone) t.
Proof.
  intros Ek Ht. unfold copy_safe_frames. rewrite Ek. fold (s_mx s).
  assert (Hend : forall t1 x rc (xb' : nat), ckpting t1 s W wl x -> wp (L := L) c (Ret (false, rc, xb') : prog (bool * Z * nat))
     (fun x t' => fst (fst x) = false /\ ckpting t' s W wl CNone) t1).
  { intros t1 x rc xb' Ht1. eapply wp_end; [by apply upd_no_ck|]. split; [done|]. ckpt_tac. }
  apply wp_do, t_load_any. intros b0. destruct (b0 <? s_mx s); [|by eapply Hend].
  eapply wp_seq; [apply (wp_safe_frame c Hconn 4 1 (s_mx s) xb t s W wl); [done|done|exact Ht]|]. cbn beta.
  clear Ht t. intros [[[stop rc] sf] xb'] t (-> & -> & Ht). pose proof (ckpt_idle_rd _ _ _ _ _ Ht) as Hrd.
  apply wp_do, (t_scan_backfill c Hconn t s sf 5); [by destruct Ht|by destruct Ht|done|..].
  { intros v Hv. rewrite (proj2 (Z.ltb_ge _ _)) by done. by eapply Hend. }
  intros b0' Hb. rewrite (proj2 (Z.ltb_lt _ _)) by done.
  apply wp_do, (t_scan_second c Hconn (with_ck t (CScan sf 5 None (Some b0') None)) s sf 5 b0'); [by destruct Ht|done|done|].
  intros b. change (with_ck (with_ck t ?x) ?y) with (with_ck t y). set (t1 := with_ck t (CScan sf 5 None (Some b) None)).
  apply wp_do, (t_iter c Hconn t1 s sf 5 b); [by destruct Ht|done|done|]. intros it.
  set (t2 := with_ck t1 (CScan sf 5 None (Some b) (Some it))).
  apply wp_bind, wp_busy; [done|done|done|unfold t2, t1; destruct Ht; locks| |].
  2:{ eapply Hend. assert (ckpting t2 s W wl (CScan sf 5 None (Some b) (Some it))); [|done]. unfold t2, t1. ckpt_tac. }
  change (SQLITE_OK =? SQLITE_OK) with true. cbn iota. set (t3 := with_lk t2 (WAL_READ_LOCK 0) 1 Ex).
  assert (Hl : lk t3 READ0 = Ex) by done.
  apply wp_do, (t_scan_again c Hconn t3 s sf 5 b (Some it)); [by destruct Ht|done|done|by destruct Ht|done|]. intros b'.
  set (t4 := with_ck t3 (CScan sf 5 None (Some b') (Some it))).
  (* give up read lock 0 *)
  assert (Hout : forall t5 rc, (exists x, t5 = with_ck t4 x) -> wp (L := L) c (walUnlockExclusive (WAL_READ_LOCK 0) 1;; Ret (false, if rc =? SQLITE_BUSY then SQLITE_OK else rc, xb'))
     (fun x t' => fst (fst x) = false /\ ckpting t' s W wl CNone) t5).
  { intros t5 rc [x ->]. eapply wp_upd; [by apply upd_no_ck|]. apply wp_unlock_ex; [done|done|done| |].
    - intros i Hi. apply needs_ckpt; [by destruct Ht|by destruct Ht|unfold WAL_READ_LOCK in Hi; lia|by right].
    - eapply Hend. assert (Hc : ckpting (with_lk (with_ck (with_ck t4 x) CNone) (WAL_READ_LOCK 0) 1 Free) s W wl CNone); [|exact Hc].
      unfold t4, t3, t2, t1. ckpt_tac. }
  apply wp_do, (t_check_salts c Hconn t4 s sf b' it); [by destruct Ht|done|done|done|..].
  - intros h Hh. rewrite bool_decide_false by done. apply wp_bind, wp_ret. apply Hout. by exists (ck t4).
  - intros h Hh. rewrite bool_decide_true by done.
    eapply wp_seq; [eapply (wp_backfill c Hconn k it b' sf t4 s); by destruct Ht|]. cbn beta. intros rc t5 ->. apply Hout. by exists CNone.
Qed.

(** The locks of the checkpoint are still held, and nothing else. *)
Definition ckpt_done k (wl : bool) (x : Z * conn) t : Prop :=
  snd x = set_wal k (cw (snd x)) /\ w_iReCksum (cw (snd x)) = w_iReCksum (cw k) /\ exists s, rest t s None RNone wl true (-1).

Lemma wp_walCheckpoint k eMode xb t s wl : khdr k = s_hdr s -> known s -> (eMode <> SQLITE_CHECKPOINT_PASSIVE -> wl = true) ->
  ckpting t s (if wl then Some [] else None) wl (CScan (s_mx s) 1 None None None) ->
  wp (L := L) c (walCheckpoint k eMode xb) (ckpt_done k wl) t.
Proof.
  intros Ek Hs Hm Ht. unfold walCheckpoint.
  eapply wp_seq; [by eapply wp_copy_safe|]. cbn beta. clear Ht t. intros [[stop rc] xb'] t [E Ht]. cbn [fst] in E. subst stop.
  assert (Hset : k = set_wal k (cw k)) by (by destruct k).
  assert (Hend : forall t1 (rc1 : Z) k1, k1 = set_wal k (cw k1) -> w_iReCksum (cw k1) = w_iReCksum (cw k) -> (exists s1 W1 a, t1 = mkClaim (lk t1) s1 (bf t1) RNone (loc t1) W1 false a CNone) ->
    holds t1 wl true (-1) -> wp (L := L) c (Ret (rc1, k1)) (ckpt_done k wl) t1).
  { intros t1 rc1 k1 E1 E2 (s1 & W1 & a & E3) Hl. eapply wp_end; [by apply upd_no_write|]. split; [done|]. split; [done|].
    exists (sn t1). rewrite E3. split; cbn; done. }
  assert (Hend0 : forall rc1 : Z, wp (L := L) c (Ret (rc1, k)) (ckpt_done k wl) t).
  { intros rc1. apply Hend; [done|done| |by destruct Ht]. exists (sn t), (wr t), (al t). destruct Ht, t. cbn in *. congruence. }
  destruct (negb (truthy rc) && negb (eMode =? SQLITE_CHECKPOINT_PASSIVE)) eqn:Eg; [|apply Hend0].
  apply andb_prop in Eg as [_ Ep]. apply negb_true_iff, Z.eqb_neq in Ep. specialize (Hm Ep). subst wl. rewrite Ek. fold (s_mx s).
  apply wp_do, (t_load_all c Hconn t s []); [by destruct Ht|by destruct Ht|destruct Ht; locks|by destruct Ht|by destruct Ht|..].
  { intros v Hv. rewrite (proj2 (Z.ltb_lt _ _)) by done. apply Hend0. }
  intros v Hv. rewrite (proj2 (Z.ltb_ge _ _)) by done.
  assert (Hend1 : forall rc1 : Z, wp (L := L) c (Ret (rc1, k)) (ckpt_done k true) (with_al t true)).
  { intros rc1. apply Hend; [done|done| |by destruct Ht]. exists (sn t), (wr t), true. unfold with_al. destruct Ht, t. cbn in *. congruence. }
  destruct (SQLITE_CHECKPOINT_RESTART <=? eMode); [|apply Hend1].
  apply wp_do, t_random. intros salt Hsalt.
  apply wp_bind, wp_busy; [done|done|done|destruct Ht; locks| |apply Hend1].
  change (SQLITE_OK =? SQLITE_OK) with true. cbn iota. set (t2 := with_lk (with_al t true) (WAL_READ_LOCK 1) (WAL_NREADER - 1) Ex).
  (* give up the read locks *)
  assert (Hout : forall t1 (rc1 : Z) k1, k1 = set_wal k (cw k1) -> w_iReCksum (cw k1) = w_iReCksum (cw k) -> (exists s1 a, t1 = mkClaim (lk t2) s1 (bf t1) RNone (loc t1) (Some []) false a CNone) ->
    wp (L := L) c (walUnlockExclusive (WAL_READ_LOCK 1) (WAL_NREADER - 1);; Ret (rc1, k1)) (ckpt_done k true) t1).
  { intros t1 rc1 k1 E1 E2 (s1 & a & E3). apply wp_unlock_ex; [done|done|done| |].
    - intros i Hi. rewrite E3. apply needs_ckpt; [done|done|unfold WAL_READ_LOCK in Hi; lia|by right].
    - apply Hend; [done|done| |].
      + exists s1, (Some []), a. by rewrite E3.
      + rewrite E3. unfold t2. destruct Ht. locks. }
  destruct (eMode =? SQLITE_CHECKPOINT_TRUNCATE).
  - apply wp_bind. eapply wp_seq; [eapply (wp_restart_hdr c Hconn k salt t2 s []); try done; try by destruct Ht|].
    + intros j Hj. unfold t2. locks.
    + right. by destruct Ht.
    + cbn beta. intros k1 t3 (s' & Hs' & Hm' & Ek' & -> & Ew & En & Ei). apply wp_do, (t_truncate_log c Hconn _ s'); [done|done|done|]. intros rc1.
      apply wp_ret. apply Hout; [done|done|]. eexists _, _. cbn. by rewrite (c_rd _ _ _ _ _ Ht).
  - apply wp_bind, wp_ret. apply Hout; [done|done|]. exists (sn t), true. unfold t2, with_lk, with_al. destruct Ht, t. cbn in *. congruence.
Qed.
End checkpoint_calls.

Section calls.
Context {L : Type} {LM : LockManager L} {LL : LockLaws L}.
Context (c : Z) (Hconn : lk_conn c = true).
Implicit Types (k : conn) (t : claim).

(** The write lock is given up, whatever is claimed besides. *)
Lemma wp_end_write k t s W R cl rl : writeLock k = true -> rest t s W R true cl rl -> -1 <= rl ->
  slot_of R = (if 0 <=? rl then Some rl else None) ->
  wp (L := L) c (sqlite3WalEndWriteTransaction k) (fun k' t' => k' = set_reck (set_write k false) 0 /\ rest t' s None R false cl rl) t.
Proof.
  intros Hw Ht Hrl HR. unfold sqlite3WalEndWriteTransaction. rewrite Hw. apply (wp_upd c _ _ t (with_wr t None)); [by apply upd_no_write|].
  apply wp_unlock_ex; [done|done|done| |].
  - intros i Hi [[_ E]|[[E _]|[(j & E & Ej)|[(E & _)|E]]]]; unfold WAL_WRITE_LOCK, WAL_CKPT_LOCK, READ0, WAL_READ_LOCK in *; cbn in *; try lia; try congruence.
    + destruct Ht. rewrite r_rd, HR in E. destruct (Z.leb_spec 0 rl); [|done]. simplify_eq. lia.
    + destruct Ht. congruence.
  - apply wp_ret. split; [done|]. rest_tac.
Qed.

(** A connection at rest outside any transaction. *)
Definition off k t : Prop := writeLock k = false /\ ckptLock k = false /\ readLock k = -1 /\ w_iReCksum (cw k) = 0 /\
  exists s, rest t s None RNone false false (-1).

(** The locks that were taken, and what they allow. *)
Lemma wp_ckpt_locks k eMode xb t s0 : off k t -> rest t s0 None RNone false false (-1) ->
  wp (L := L) c (ckpt_locks k eMode xb) (fun x t' => let '(rc, k1, eMode2, _) := x in exists wl cl, k1 = set_ckpt (set_write k wl) cl /\
    rest t' s0 None RNone wl cl (-1) /\
    (truthy rc = false -> (eMode2 = SQLITE_CHECKPOINT_NOOP /\ cl = false) \/
       (eMode2 <> SQLITE_CHECKPOINT_NOOP /\ cl = true /\ (eMode2 <> SQLITE_CHECKPOINT_PASSIVE -> wl = true)))) t.
Proof.
  intros (Hw & Hc & Hr & Hi & _) Ht. unfold ckpt_locks.
  assert (Hk : forall b, set_ckpt k b = set_ckpt (set_write k false) b) by (unfold set_ckpt, set_write; destruct k; cbn in *; congruence).
  assert (Hk0 : k = set_ckpt k false) by (unfold set_ckpt; destruct k; cbn in *; congruence).
  destruct (Z.eqb_spec eMode SQLITE_CHECKPOINT_NOOP) as [->|Hno]; cbn [negb].
  { apply wp_ret. exists false, false. rewrite <- Hk. split; [done|]. split; [done|]. by left. }
  apply wp_do, t_lock_exclusive; [done|done|done|destruct Ht; locks| |].
  2:{ change (SQLITE_BUSY =? SQLITE_OK) with false. cbn iota. apply wp_ret. exists false, false. rewrite <- Hk. by split_and!. }
  change (SQLITE_OK =? SQLITE_OK) with true. cbn iota. set (t1 := with_lk t WAL_CKPT_LOCK 1 Ex).
  assert (Ht1 : rest t1 s0 None RNone false true (-1)) by (unfold t1; rest_tac).
  destruct (Z.eqb_spec eMode SQLITE_CHECKPOINT_PASSIVE) as [->|Hp]; cbn [negb].
  { apply wp_ret. exists false, true. split_and!; try done. intros _. right. by split_and!. }
  apply wp_bind, wp_busy; [done|done|done|unfold t1; destruct Ht; locks| |].
  - change (SQLITE_OK =? SQLITE_OK) with true. cbn iota. apply wp_ret. exists true, true. split; [done|]. split; [unfold t1; clear Ht1; rest_tac|].
    intros _. right. by split_and!.
  - change (SQLITE_BUSY =? SQLITE_OK) with false. change (SQLITE_BUSY =? SQLITE_BUSY) with true. cbn iota.
    apply wp_ret. exists false, true. split_and!; try done. intros _. right. by split_and!.
Qed.

(** Whatever the checkpoint did, only its locks are left. *)
Definition worked k (wl cl : bool) (x : Z * conn * bool * option (Z * Z)) t : Prop := let '(_, k', _, _) := x in
  k' = set_wal k (cw k') /\ w_iReCksum (cw k') = w_iReCksum (cw k) /\ exists s, rest t s None RNone wl cl (-1).
Lemma wp_report k wl cl rc k2 t isCh s : k2 = set_wal k (cw k2) -> w_iReCksum (cw k2) = w_iReCksum (cw k) -> rest t s None RNone wl cl (-1) ->
  wp (L := L) c (if (rc =? SQLITE_OK) || (rc =? SQLITE_BUSY) then b ← do_ LoadBackfill; Ret (rc, k2, isCh, Some (h_mxFrame (khdr k2), b)) else Ret (rc, k2, isCh, None))
    (worked k wl cl) t.
Proof.
  intros E1 E2 Ht. assert (Hd : forall out, worked k wl cl (rc, k2, isCh, out) t) by (intros out; split_and!; try done; by exists s). destruct (_ || _).
  - apply wp_do, t_load_any. intros b. by apply wp_ret.
  - by apply wp_ret.
Qed.
Lemma wp_ckpt_work k eMode2 xb nBuf t s0 wl cl : rest t s0 None RNone wl cl (-1) ->
  (eMode2 = SQLITE_CHECKPOINT_NOOP /\ cl = false) \/
    (eMode2 <> SQLITE_CHECKPOINT_NOOP /\ cl = true /\ (eMode2 <> SQLITE_CHECKPOINT_PASSIVE -> wl = true)) ->
  wp (L := L) c (ckpt_work k eMode2 xb nBuf) (worked k wl cl) t.
Proof.
  intros Ht Hcase. unfold ckpt_work, walIndexReadHdr. assert (Hk : k = set_wal k (cw k)) by (by destruct k). apply wp_bind.
  destruct Hcase as [[-> ->]|(Hno & -> & Hpas)].
  { apply wp_do, t_any_hdr. intros h. apply wp_ret. destruct (bool_decide (h = khdr k)).
    all: apply wp_bind; destruct (_ && _); apply wp_ret; eapply wp_report; done. }
  apply wp_do, (t_ckpt_hdr c Hconn t wl); [by destruct Ht|destruct Ht; locks|intros ->; destruct Ht; locks|]. intros s H1 H2. apply wp_ret.
  set (p := if bool_decide (s_hdr s = khdr k) then _ else _).
  assert (Hp : khdr (snd p) = s_hdr s /\ snd p = set_wal k (cw (snd p)) /\ w_iReCksum (cw (snd p)) = w_iReCksum (cw k)).
  { unfold p. by destruct (bool_decide_reflect (s_hdr s = khdr k)). }
  clearbody p. destruct p as [isCh k2]. cbn [snd] in Hp. destruct Hp as (E1 & E2 & E3).
  rewrite (proj2 (Z.eqb_neq _ _) Hno). cbn [negb]. destruct (truthy (h_mxFrame (khdr k2)) && negb (walPagesize (khdr k2) =? nBuf)).
  - apply wp_bind, wp_ret. eapply wp_upd; [apply (upd_bare c Hconn); done|]. apply (wp_report _ _ _ _ _ _ _ None); [done|done|]. rest_tac.
  - eapply wp_seq; [eapply (wp_walCheckpoint c Hconn k2 eMode2 xb _ s wl); try done|].
    + destruct Ht. by split.
    + cbn beta. intros [rc3 k3] t3 (F1 & F2 & s3 & F3). cbn [fst snd] in *. eapply wp_report; [|congruence|exact F3]. by rewrite F1, E2.
Qed.

Lemma wp_checkpoint k eMode xb nBuf t : off k t ->
  wp (L := L) c (sqlite3WalCheckpoint k eMode xb nBuf) (fun x t' => off (snd (fst x)) t') t.
Proof.
  intros Hoff. pose proof Hoff as (Hw & Hc & Hr & Hi & s0 & Ht). unfold sqlite3WalCheckpoint. destruct (readOnly k).
  { apply wp_ret. split_and!; try done. by exists s0. }
  eapply wp_seq; [by apply wp_ckpt_locks|]. cbn beta. clear Ht t Hoff. intros [[[rc k1] eMode2] xb2] t (wl & cl & Ek1 & Ht & Hcase).
  eapply (wp_seq c _ _ (worked k1 wl cl)).
  { destruct (truthy rc); [|by eapply wp_ckpt_work; [|apply Hcase]]. apply wp_ret. split_and!; [by destruct k1|done|by exists s0]. }
  clear Ht Hcase t. intros [[[rc2 k2] isCh] out] t (E2 & Ei2 & s2 & Ht).
  set (k3 := if isCh : bool then set_khdr k2 hdr_zero else k2).
  assert (Hk3 : writeLock k3 = wl /\ ckptLock k3 = cl /\ readLock k3 = -1 /\ w_iReCksum (cw k3) = 0).
  { assert (H : writeLock k2 = wl /\ ckptLock k2 = cl /\ readLock k2 = -1 /\ w_iReCksum (cw k2) = 0).
    { rewrite Ei2, E2, Ek1. by split_and!. } unfold k3. by destruct isCh. }
  clearbody k3. clear E2 Ei2 k2. destruct Hk3 as (H1 & H2 & H3 & H4).
  apply (wp_seq c _ _ (fun k' t' => writeLock k' = false /\ ckptLock k' = cl /\ readLock k' = -1 /\ w_iReCksum (cw k') = 0 /\ rest t' s2 None RNone false cl (-1))).
  { destruct wl.
    - eapply wp_mono; [|eapply (wp_end_write k3 t s2 None RNone cl (-1)); try done]. intros k' t' [-> Ht']. by split_and!.
    - unfold sqlite3WalEndWriteTransaction. rewrite H1. apply wp_ret. by split_and!. }
  clear Ht H1 H2 H3 H4 k3 t. intros k3 t (H1 & H2 & H3 & H4 & Ht). rewrite H2. destruct cl.
  - apply wp_bind, wp_unlock_ex; [done|done|done| |].
    + intros i Hi' [[E _]|[[_ E]|[(j & E & Ej)|[(E & _)|E]]]]; unfold WAL_WRITE_LOCK, WAL_CKPT_LOCK, READ0, WAL_READ_LOCK in *; try lia; try (destruct Ht; congruence).
      * destruct Ht. destruct E; congruence.
      * rewrite (r_rd _ _ _ _ _ _ _ Ht) in E. done.
    + apply wp_ret, wp_ret. cbn [fst snd]. split_and!; try done. exists s2. rest_tac.
  - apply wp_bind, wp_ret, wp_ret. cbn [fst snd]. split_and!; try done. by exists s2.
Qed.
End calls.
