(* ===== verification/WalIsolation.v ===== *)
(** Sessions on the write-ahead log: whatever a connection does within the rules of use,
    its claims hold.  From this and the invariant follow the properties of any schedule:
    readers see one transaction, and the log over the database file is the newest one. *)

From stdpp Require Import functions sorting.
From S2P Require Import Prelude Varint WalIndex WalLog JvmLocks WalLocks WalTxn WalClaims WalActions WalPrograms WalCalls.

Section clients.
Context {L : Type} {LM : LockManager L} {LL : LockLaws L}.
Context (c : Z) (Hconn : lk_conn c = true).
Implicit Types (k : conn) (t : claim) (x : client).

(** A savepoint marks a frame of the running transaction, or belongs to the log before
    it was restarted. *)
Definition sp_ok k (s : snap) (a : savepoint) : Prop :=
  (sp_nCkpt a = w_nCkpt (cw k) -> s_mx s <= sp_mxFrame a) /\ (sp_nCkpt a <> w_nCkpt (cw k) -> s_mx s = 0).

(** A client between two calls. *)
Inductive at_rest x t : Prop :=
| rest_off : off (cl_conn x) t -> at_rest x t
| rest_read s : let k := cl_conn x in writeLock k = false -> ckptLock k = false -> w_iReCksum (cw k) = 0 -> 0 <= readLock k <= 4 ->
    known s -> khdr k = s_hdr s -> rest t (Some s) None (reading_of k) false false (readLock k) -> at_rest x t
| rest_write s fr : let k := cl_conn x in writing k t s fr -> (cl_open x = false -> khdr k = s_hdr s) -> Forall (sp_ok k s) (cl_sps x) ->
    (readLock k = 0 -> Forall (fun a => sp_nCkpt a = w_nCkpt (cw k)) (cl_sps x)) -> at_rest x t.

Lemma slot_reading k : -1 <= readLock k -> slot_of (reading_of k) = if 0 <=? readLock k then Some (readLock k) else None.
Proof.
  intros H. unfold reading_of. destruct (Z.ltb_spec (readLock k) 0), (Z.leb_spec 0 (readLock k)); try lia; [done|].
  destruct (Z.eqb_spec (readLock k) 0) as [->|]; done.
Qed.

Lemma call_begin_read x t : allowed x CBeginRead = true -> at_rest x t -> wp (L := L) c (do_call x CBeginRead) at_rest t.
Proof.
  cbn [allowed do_call]. intros [Ha1 Ha2%negb_true_iff]%andb_prop Hx.
  destruct Hx as [(Hw & Hc & Hr & Hi & s & Ht)|s k ? ? ? ? ? ? ?|s fr k Hw]; [|subst k; lia|subst k; destruct Hw as [_ _ _ _ _ _ _ []]; congruence].
  eapply wp_seq; [by eapply (wp_try_loop c Hconn)|]. cbn beta. intros [[rc k'] chg] t' [(F1 & F2 & F3 & F4 & F5 & F6) H]. cbn [fst snd] in *. apply wp_ret.
  destruct H as [(_ & Hr' & s' & Hs' & Ek & Ht')|(_ & Hr' & Ht')].
  - eapply rest_read; cbn; try done; congruence.
  - apply rest_off. cbn. split_and!; congruence || done.
Qed.

Lemma call_read x t p : allowed x (CRead p) = true -> at_rest x t -> wp (L := L) c (do_call x (CRead p)) at_rest t.
Proof.
  cbn [allowed do_call]. intros Ha%Z.leb_le Hx.
  destruct Hx as [(Hw & Hc & Hr & Hi & s & Ht)|s k Hw Hc Hi Hr [Hs0 Hs8] Ek Ht|s fr k Hw Ho Hsp Hz]; [lia|..].
  - assert (Hback : forall t', (exists l, t' = with_loc t l) -> at_rest x t').
    { intros t' [l ->]. eapply (rest_read x _ s); try done. by destruct Ht. }
    assert (Hemit : forall rc d t', (exists l, t' = with_loc t l) -> (forall d', s_img s !! p = Some d' -> d = Some d') ->
      wp (L := L) c ((if negb (truthy rc) && negb (writeLock k) then do_ (Emit (EvRead (khdr k) p d)) else Ret tt);; Ret (rc, d)) (fun _ t' => at_rest x t') t').
    { intros rc d t' Ht' Hd. apply wp_bind. rewrite Hw. destruct (truthy rc); cbn [negb andb]; [by apply wp_ret, wp_ret, Hback|].
      lazymatch goal with |- wp _ (do_ ?a) ?Q _ => change (triple (L := L) c t' a Q) end. fold k in Ek. rewrite Ek.
      apply t_emit; [by destruct Ht' as [l ->]; destruct Ht|done|]. by apply wp_ret, Hback. }
    eapply wp_seq; [|intros a t' H; apply wp_ret; exact H]. unfold readDbPage, walFindFrame'. fold k. rewrite Ek. fold (s_mx s).
    assert (Hid : exists l, t = with_loc t l) by (exists (loc t); by destruct t).
    destruct ((s_mx s =? 0) || (readLock k =? 0)) eqn:Eg.
    + apply wp_bind, wp_ret. cbn [truthy]. apply wp_bind, wp_do, (t_read_db c _ s); [by destruct Ht| |].
      { destruct Ht. rewrite r_rd. unfold reading_of. rewrite (proj2 (Z.ltb_ge _ _)) by lia. destruct (Z.eqb_spec (readLock k) 0) as [E|E]; [by left|].
        right. exists (readLock k), (minFrame k - 1). split; [done|]. right. lia. }
      intros d Hd. apply wp_do, t_io. intros rc. apply wp_ret. rewrite <- Ek. by apply Hemit.
    + apply orb_false_iff in Eg as [Em E0]. apply Z.eqb_neq in E0.
      assert (Erd : rd t = RLog (readLock k) (minFrame k - 1)).
      { destruct Ht. rewrite r_rd. unfold reading_of. by rewrite (proj2 (Z.ltb_ge _ _)), (proj2 (Z.eqb_neq _ _)) by lia. }
      replace (minFrame k) with (minFrame k - 1 + 1) at 1 by lia.
      apply wp_do, (t_find c Hconn _ s (readLock k)); [by destruct Ht|done|]. intros f. apply wp_bind. destruct (truthy f) eqn:Ef.
      * apply wp_do, (t_read_frame c _ s (readLock k) (minFrame k - 1) p f); [by destruct Ht|done|done|by intros ->|]. intros rc fr Hfr.
        apply wp_ret. rewrite <- Ek. apply Hemit; [by eexists|]. intros d' Hd'. by rewrite (Hfr d').
      * unfold truthy in Ef. apply negb_false_iff, Z.eqb_eq in Ef. subst f.
        apply wp_do, (t_read_db c _ s); [by destruct Ht| |].
        -- right. exists (readLock k), (minFrame k - 1). split; [done|]. by left.
        -- intros d Hd. apply wp_do, t_io. intros rc. apply wp_ret. rewrite <- Ek. apply Hemit; [by eexists|done].
  - (* a writer: no record is made *)
    pose proof Hw as [_ _ _ _ _ _ _ [Hwl _]]. eapply (wp_seq c _ _ (fun _ t' => t' = t)); [|intros a t' ->; apply wp_ret; by eapply rest_write].
    unfold readDbPage. fold k. rewrite Hwl. apply (wp_seq c _ _ (fun _ t' => t' = t)).
    { unfold walFindFrame'. destruct (_ || _); [by apply wp_ret|].
      lazymatch goal with |- wp _ (do_ ?a) ?Q _ => change (triple (L := L) c t a Q) end. by apply t_find_any. }
    intros f t' ->. apply (wp_seq c _ _ (fun _ t' => t' = t)).
    { destruct (truthy f).
      - apply wp_do, t_read_frame_any. intros [rc fr']. by apply wp_ret.
      - apply wp_do, t_read_db_any. intros d. apply wp_do, t_io. intros rc. by apply wp_ret. }
    intros [rc d] t' ->. rewrite andb_false_r. by apply wp_bind, wp_ret, wp_ret.
Qed.
End clients.

Section writer_calls.
Context {L : Type} {LM : LockManager L} {LL : LockLaws L}.
Context (c : Z) (Hconn : lk_conn c = true).
Implicit Types (k : conn) (t : claim) (x : client).

(** Giving up the read lock, with the write lock gone. *)
Lemma wp_end_read k t s : 0 <= readLock k <= 4 -> rest t s None (reading_of k) false false (readLock k) ->
  wp (L := L) c (walUnlockShared (WAL_READ_LOCK (readLock k));; Ret (set_read k (-1))) (fun k' t' => k' = set_read k (-1) /\ rest t' s None RNone false false (-1)) t.
Proof.
  intros Hr Ht. apply (wp_upd c _ _ t (with_rd t RNone)); [by apply upd_no_read|].
  apply wp_unlock_sh; [done|unfold WAL_READ_LOCK; lia|apply needs_read; [by destruct Ht|by destruct Ht|done|unfold WAL_READ_LOCK; lia]|].
  apply wp_ret. split; [done|]. rest_tac.
Qed.

(** A write transaction that is committed or undone leaves a read transaction. *)
Lemma wp_finish_write k t s fr : writing k t s fr -> khdr k = s_hdr s ->
  wp (L := L) c (sqlite3WalEndWriteTransaction k) (fun k' t' => k' = set_reck (set_write k false) 0 /\
    rest t' (Some s) None (reading_of k) false false (readLock k)) t.
Proof.
  intros [] Ek. apply (wp_end_write c Hconn k t (Some s) (Some fr)); [by destruct w_flags|done|lia|]. apply slot_reading. lia.
Qed.

Lemma call_end_read x t : allowed x CEndRead = true -> at_rest x t -> wp (L := L) c (do_call x CEndRead) at_rest t.
Proof.
  cbn [allowed do_call]. intros Ha%negb_true_iff Hx. unfold sqlite3WalEndReadTransaction.
  destruct Hx as [(Hw & Hc & Hr & Hi & s & Ht)|s k Hw Hc Hi Hr Hs Ek Ht|s fr k Hw Ho Hsp Hz].
  - rewrite Hr. apply wp_bind, wp_ret, wp_ret, rest_off. split_and!; try done. by exists s.
  - fold k. rewrite (proj2 (Z.leb_le _ _)) by lia. unfold sqlite3WalEndWriteTransaction. rewrite Hw. apply wp_bind.
    apply wp_bind, wp_ret.
    eapply wp_mono; [|by apply (wp_end_read k t (Some s))]. intros k' t' [-> Ht']. apply wp_ret, rest_off. split_and!; try done. by exists (Some s).
  - fold k in Ha |- *. pose proof Hw as [_ _ _ _ _ _ Hrange [Hwl Hcl]]. rewrite Hwl in Ha. cbn [andb] in Ha. specialize (Ho Ha).
    destruct (Z.leb_spec 0 (readLock k)) as [Hr|Hr].
    + apply wp_bind. eapply wp_seq; [by apply (wp_finish_write k t s fr)|]. cbn beta. intros k' t' [-> Ht'].
      eapply wp_mono; [|eapply (wp_end_read (set_reck (set_write k false) 0) t' (Some s)); [cbn; lia|exact Ht']].
      intros k' t2 [-> Ht2]. apply wp_ret, rest_off. split_and!; try done. by exists (Some s).
    + apply wp_bind, wp_ret, wp_ret. eapply rest_write; try done.
Qed.

Lemma call_begin_write x t : allowed x CBeginWrite = true -> at_rest x t -> wp (L := L) c (do_call x CBeginWrite) at_rest t.
Proof.
  cbn [allowed do_call]. intros [Ha1%Z.leb_le Ha2%negb_true_iff]%andb_prop Hx.
  destruct Hx as [(Hw & Hc & Hr & Hi & s & Ht)|s k Hw Hc Hi Hr Hs Ek Ht|s fr k Hw Ho Hsp Hz];
    [lia| |subst k; destruct Hw as [_ _ _ _ _ _ _ []]; congruence].
  assert (Hback : forall t', rest t' (Some s) None (reading_of k) false false (readLock k) -> at_rest (mkClient k [] false) t').
  { intros t' Ht'. by eapply rest_read. }
  unfold sqlite3WalBeginWriteTransaction. fold k. apply wp_bind. destruct (readOnly k); [by apply wp_ret, wp_ret, Hback|].
  apply wp_do, t_lock_exclusive; [done|done|done|destruct Ht; locks| |by apply wp_ret, wp_ret, Hback].
  change (truthy SQLITE_OK) with false. cbn iota.
  apply wp_do, (t_begin_write c Hconn _ s); [by destruct Ht|by destruct Ht|done|by destruct Ht|by destruct Ht|..].
  - intros h Hh. change (khdr (set_write k true)) with (khdr k). rewrite bool_decide_false by congruence. cbn [negb].
    apply wp_unlock_ex; [done|done|done| |].
    + intros i Hi' [[_ E]|[[E _]|[(j & E & Ej)|[(E & _)|E]]]]; unfold WAL_WRITE_LOCK, WAL_CKPT_LOCK, READ0, WAL_READ_LOCK in *; cbn in *; try lia; try (destruct Ht; congruence).
      destruct Ht. rewrite r_rd, slot_reading in E by lia. destruct (Z.leb_spec 0 (readLock k)); [|done]. simplify_eq. lia.
    + apply wp_ret, wp_ret. eapply (rest_read _ _ s); cbn; try done. rest_tac.
  - change (khdr (set_write k true)) with (khdr k). rewrite bool_decide_true by done. cbn [negb]. apply wp_ret, wp_ret.
    apply (rest_write _ _ s []); try done. change (khdr _) with (khdr k). split; try done; try (change (khdr _) with (khdr k); rewrite Ek; by destruct Hs).
    + rest_tac.
    + change (khdr _) with (khdr k). rewrite Ek. fold (s_mx s). change (zlen []) with 0. lia.
    + by left.
    + cbn. lia.
Qed.

Lemma call_end_write x t : allowed x CEndWrite = true -> at_rest x t -> wp (L := L) c (do_call x CEndWrite) at_rest t.
Proof.
  cbn [allowed do_call]. intros Ha%negb_true_iff Hx.
  destruct Hx as [(Hw & Hc & Hr & Hi & s & Ht)|s k Hw Hc Hi Hr Hs Ek Ht|s fr k Hw Ho Hsp Hz].
  - unfold sqlite3WalEndWriteTransaction. rewrite Hw. apply wp_bind, wp_ret, wp_ret, rest_off. split_and!; try done. by exists s.
  - unfold sqlite3WalEndWriteTransaction. fold k. rewrite Hw. apply wp_bind, wp_ret, wp_ret. by eapply rest_read.
  - fold k in Ha |- *. pose proof Hw as [Hs _ _ _ _ _ Hrange [Hwl Hcl]]. rewrite Hwl in Ha. cbn [andb] in Ha. specialize (Ho Ha).
    eapply wp_seq; [by apply (wp_finish_write k t s fr)|]. cbn beta. intros k' t' [-> Ht']. apply wp_ret.
    destruct (Z.leb_spec 0 (readLock k)) as [Hr|Hr].
    + eapply (rest_read _ _ s); cbn; try done. lia.
    + apply rest_off. replace (readLock k) with (-1) in Ht' by lia. split_and!; cbn; try done; [lia|]. exists (Some s).
      unfold reading_of in Ht'. rewrite (proj2 (Z.ltb_lt _ _)) in Ht' by lia. done.
Qed.

Lemma call_undo x t : allowed x CUndo = true -> at_rest x t -> wp (L := L) c (do_call x CUndo) at_rest t.
Proof.
  cbn [allowed do_call]. intros Ha Hx.
  destruct Hx as [(Hw & _)|s k Hw|s fr k Hw Ho Hsp Hz]; [congruence|subst k; congruence|]. fold k in Ha |- *.
  unfold sqlite3WalUndo. rewrite Ha. apply wp_bind, wp_do, (t_writer_hdr c _ s fr); [apply Hw|apply Hw|]. apply wp_ret, wp_ret.
  pose proof (zlen_nonneg fr). destruct Hw as [[? Hsalt] ? ? ? ? ? ? ?]. eapply (rest_write _ _ s fr); cbn; try done.
  split; try done; cbn; [fold (s_mx s); lia|by left].
Qed.

Lemma call_frames x t sz pl nT isC sync : allowed x (CFrames sz pl nT isC sync) = true -> at_rest x t ->
  wp (L := L) c (do_call x (CFrames sz pl nT isC sync)) at_rest t.
Proof.
  cbn [allowed do_call]. intros ([[[Ha Hr]%andb_prop Hpl]%andb_prop Hn]%andb_prop & _)%andb_prop Hx.
  destruct Hx as [(Hw & _)|s k Hw|s fr k Hw Ho Hsp Hz]; [congruence|subst k; congruence|]. fold k in Ha, Hr |- *.
  eapply wp_seq; [apply (wp_frames c Hconn k sz pl nT isC sync t s fr); [done|lia| |done]|].
  { by apply negb_true_iff, bool_decide_eq_false in Hpl. }
  cbn beta. intros [rc k'] t' (s' & fr' & Hw' & Hr' & Hend). apply wp_ret. destruct (isC && (rc =? SQLITE_OK)).
  - by eapply rest_write.
  - eapply rest_write; [exact Hw'|done| |done]. cbn [cl_sps cl_conn].
    destruct Hend as [[En ->]|(H0 & En & Em)].
    + eapply Forall_impl; [exact Hsp|]. intros a. unfold sp_ok. by rewrite En.
    + eapply Forall_impl; [exact (Hz H0)|]. cbn. intros a Ea. split; [|done]. rewrite Ea, En. intros E. by destruct (u32_succ (w_nCkpt (cw k))).
Qed.

Lemma call_savepoint x t : allowed x CSavepoint = true -> at_rest x t -> wp (L := L) c (do_call x CSavepoint) at_rest t.
Proof.
  cbn [allowed do_call]. intros Ha Hx.
  destruct Hx as [(Hw & _)|s k Hw|s fr k Hw Ho Hsp Hz]; [congruence|subst k; congruence|]. apply wp_ret.
  eapply (rest_write _ _ s fr); cbn; try done; [|intros E; constructor; [done|by apply Hz]].
  constructor; [|done]. destruct Hw. split; [cbn; fold k; lia|done].
Qed.

Lemma call_savepoint_undo x t n : allowed x (CSavepointUndo n) = true -> at_rest x t -> wp (L := L) c (do_call x (CSavepointUndo n)) at_rest t.
Proof.
  cbn [allowed do_call]. intros Ha Hx. apply wp_ret. destruct (cl_sps x !! n) as [a|] eqn:Ea; [|done].
  destruct Hx as [(Hw & _)|s k Hw|s fr k Hw Ho Hsp Hz]; [congruence|subst k; congruence|]. fold k in Ha |- *.
  pose proof (proj1 (Forall_lookup _ _) Hsp n a Ea) as [Hsa1 Hsa2]. unfold sqlite3WalSavepointUndo.
  set (a' := if negb (sp_nCkpt a =? w_nCkpt (cw k)) then _ else _).
  assert (Ha' : sp_nCkpt a' = w_nCkpt (cw k) /\ s_mx s <= sp_mxFrame a').
  { unfold a'. destruct (Z.eqb_spec (sp_nCkpt a) (w_nCkpt (cw k))) as [E|E]; cbn [negb]; [auto|]. specialize (Hsa2 E). cbn. split; [done|lia]. }
  clearbody a'. destruct Ha' as [En Hm].
  assert (Hsps : forall k', w_nCkpt (cw k') = w_nCkpt (cw k) -> Forall (sp_ok k' s) (a' :: drop (S n) (cl_sps x)) /\
    (readLock k = 0 -> Forall (fun a => sp_nCkpt a = w_nCkpt (cw k')) (a' :: drop (S n) (cl_sps x)))).
  { intros k' E. split; [|intros E0]; (constructor; [|apply Forall_drop]).
    - unfold sp_ok. rewrite E. split; [done|congruence].
    - eapply Forall_impl; [exact Hsp|]. intros b. unfold sp_ok. by rewrite E.
    - congruence.
    - eapply Forall_impl; [by apply Hz|]. cbn. congruence. }
  destruct (Z.ltb_spec (sp_mxFrame a') (h_mxFrame (khdr k))) as [Hlt|Hge].
  - destruct Hw as [Hs Ht He Hsalt Hre H0 Hsl Hfl].
    assert (Hk0 : readLock k <> 0) by (intros E; rewrite (H0 E) in Hlt; fold (s_mx s) in Hlt; lia).
    set (k1 := set_wal _ _). assert (Hw1 : forall k2, k2 = k1 \/ k2 = set_reck k1 0 -> reck_ok s k2 -> writing k2 t s fr).
    { intros k2 Hk2 Hre2. assert (Eh : khdr k2 = khdr k1) by (by destruct Hk2 as [-> | ->]).
      assert (Er : readLock k2 = readLock k /\ minFrame k2 = minFrame k /\ writeLock k2 = writeLock k /\ ckptLock k2 = ckptLock k) by (by destruct Hk2 as [-> | ->]).
      destruct Er as (E1 & E2 & E3 & E4). split; try done; rewrite ?Eh, ?E1, ?E3, ?E4; try done.
      - unfold reading_of. by rewrite E1, E2.
      - cbn. lia. }
    assert (Hopen : cl_open x = false -> False).
    { intros E. specialize (Ho E). fold k in Ho. rewrite Ho in Hlt. fold (s_mx s) in Hlt. lia. }
    destruct (sp_mxFrame a' <? w_iReCksum (cw k1)) eqn:Er.
    + destruct (Hsps (set_reck k1 0) eq_refl) as [G1 G2]. eapply (rest_write _ _ s fr); try done. apply Hw1; [by right|by left].
    + destruct (Hsps k1 eq_refl) as [G1 G2]. eapply (rest_write _ _ s fr); try done. apply Hw1; [by left|exact Hre].
  - destruct (Hsps k eq_refl) as [G1 G2]. by eapply (rest_write _ _ s fr).
Qed.

Lemma call_ok x a t : allowed x a = true -> at_rest x t -> wp (L := L) c (do_call x a) at_rest t.
Proof.
  destruct a; [by apply call_begin_read|by apply call_read|by apply call_end_read|by apply call_begin_write|by apply call_frames
    |by apply call_undo|by apply call_savepoint|by apply call_savepoint_undo|by apply call_end_write|].
  cbn [allowed do_call]. intros [Ha1 Ha2%negb_true_iff]%andb_prop Hx.
  destruct Hx as [Hoff|s k ? ? ? ? ? ? ?|s fr k Hw]; [|subst k; lia|subst k; destruct Hw as [_ _ _ _ _ _ _ []]; congruence].
  eapply wp_seq; [by apply (wp_checkpoint c Hconn)|]. cbn beta. intros [[rc k'] out] t' H. by apply wp_ret, rest_off.
Qed.

(** Any sequence of calls. *)
Lemma session_ok calls x t : at_rest x t -> wp (L := L) c (session x calls) (fun _ _ => True) t.
Proof.
  revert x t. induction calls as [|a calls IH]; intros x t Hx; cbn [session]; [by apply wp_ret|].
  destruct (allowed x a) eqn:Ea; [|by apply IH]. eapply wp_seq; [by apply call_ok|]. intros x' t' Hx'. by apply IH.
Qed.
End writer_calls.

Section schedules_ok.
Context {L : Type} {LM : LockManager L} {LL : LockLaws L}.
Implicit Types (w : world L) (ps : gmap Z (prog unit)).

(** Every connection runs a session. *)
Definition sessions ps : Prop := forall c p, ps !! c = Some p ->
  lk_conn c = true /\ exists szPage nCkpt sector rdonly calls, p = start (open_conn szPage nCkpt sector rdonly) calls.
Definition reachable nPage db ps w ps' : Prop := rtc step (init_world L nPage db, ps) (w, ps').

Definition good (x : world L * gmap Z (prog unit)) : Prop := exists cl, inv (fst x) cl /\
  forall c p, snd x !! c = Some p -> lk_conn c = true /\ wp (L := L) c p (fun _ _ => True) (cl c).

Lemma good_step x y : good x -> step x y -> good y.
Proof.
  intros (cl & Hi & Hps) Hs. destruct Hs as [w ps c B a f o Hc Hf]. cbn [fst snd] in *.
  destruct (Hps c _ Hc) as [Hconn Hwp]. destruct (Hwp w cl o Hi eq_refl Hf) as (t' & Hi' & Hwp').
  exists (<[c := t']> cl). split; [done|]. intros c' p. cbn [snd]. destruct (decide (c' = c)) as [->|Hne].
  - rewrite lookup_insert_eq, upd_eq. by intros [= <-].
  - rewrite lookup_insert_ne, upd_ne by done. apply Hps.
Qed.

Lemma init_inv nPage db : inv (init_world L nPage db) (fun _ => idle).
Proof.
  set (base := filter (fun e => fst e <= nPage) db). exists (mkGhost 0 base 0 0). split; try done.
  - apply lk_init_ok.
  - intros c s Hc. by apply lk_init_free.
  - by left.
  - cbn. intros h img p d. rewrite list_elem_of_singleton. intros [= -> ->]. cbn. by intros [_ ?]%map_lookup_filter_Some.
  - cbn. intros h img. rewrite list_elem_of_singleton. by intros [= -> ->].
  - cbn. intros h img img'. rewrite !list_elem_of_singleton. congruence.
  - cbn. intros h img. rewrite list_elem_of_singleton. by intros [= -> ->].
  - intros p d _. cbn. by intros [? _]%map_lookup_filter_Some.
  - cbn. intros c e ?%elem_of_nil. done.
Qed.

Lemma init_good nPage db ps : sessions ps -> good (init_world L nPage db, ps).
Proof.
  intros Hps. exists (fun _ => idle). split; [apply init_inv|]. cbn [snd]. intros c p Hc.
  destruct (Hps c p Hc) as (Hconn & sz & n & sec & ro & calls & ->). split; [done|]. apply session_ok; [done|]. apply rest_off.
  split_and!; try done. exists None. split; try done. intros i. unfold locks_of. repeat case_match; done.
Qed.

(** The invariant holds in every state of every schedule. *)
Lemma reachable_inv nPage db ps w ps' : sessions ps -> reachable nPage db ps w ps' -> exists g cl, inv_at w g cl.
Proof.
  intros Hps Hr. assert (Hg : good (w, ps')).
  { eapply (rtc_ind_r good); [by apply init_good| |exact Hr]. intros y z _ Hs Hg. by eapply good_step. }
  destruct Hg as (cl & (g & Hi) & _). by exists g, cl.
Qed.

(** What the log over the database file says about a page. *)
Definition current w (p : Z) : option page :=
  let f := newest_frame (w_log w) 1 (mxFrame w) p in
  if f =? 0 then w_db w !! p else Some (f_data (log_frame (w_log w) f)).

Lemma inv_current w g cl p d : inv_at w g cl -> last_image w !! p = Some d -> current w p = Some d.
Proof.
  intros Hi Hp. pose proof (i_bounds _ _ _ Hi) as Hb. unfold last_image in Hp. rewrite (i_last _ _ _ Hi) in Hp. unfold current.
  destruct (newest_frame_cases (w_log w) 0 (mxFrame w) p ltac:(lia) ltac:(lia)) as [[E Hu]|(r & E & Hr & Ep & Hu)]; change (0 + 1) with 1 in E; rewrite E.
  - rewrite Z.eqb_refl. apply (i_db _ _ _ Hi).
    + eapply untouched_sub; [done|lia|lia].
    + eapply (view_back _ _ _ (mxFrame w)); [lia|lia| |exact Hp]. eapply untouched_sub; [done|lia|lia].
  - rewrite (proj2 (Z.eqb_neq _ _)) by lia. f_equal. subst p. eapply view_newest; [|..|exact Hp]; [lia|lia|done].
Qed.
End schedules_ok.

(** ** The properties *)

Section properties.
Context {L : Type} {LM : LockManager L} {LL : LockLaws L}.
Implicit Types (w : world L) (ps : gmap Z (prog unit)).

(** C1. Snapshot isolation.  Connections run any sessions of read and write transactions,
    savepoints and checkpoints, interleaved action by action in any order, with any
    failures of the I/O calls.  Every page that a reader ever saw is the one of a single
    published transaction: the database that its header stands for. *)
Theorem snapshot_isolation nPage db ps w ps' c h p d :
  sessions (LM := LM) ps -> reachable nPage db ps w ps' -> (c, EvRead h p d) ∈ w_trace w ->
  exists img, (h, img) ∈ w_hist w /\ (forall img', (h, img') ∈ w_hist w -> img' = img) /\
    forall d', img !! p = Some d' -> d = Some d'.
Proof.
  intros Hps Hr He. destruct (reachable_inv _ _ _ _ _ Hps Hr) as (g & cl & Hi).
  destruct (i_trace _ _ _ Hi c _ He) as (img & Hin & Hd). exists img. split; [done|]. split; [|done].
  intros img' Hin'. by eapply (i_uniq _ _ _ Hi).
Qed.

(** C2. No transaction is lost.  At every moment of every schedule, also in the middle of
    a checkpoint, a commit or a restart of the log and after any of them has failed, the
    published header is that of the newest transaction, and each of its pages is found by
    looking into the published part of the log first and into the database file next. *)
Theorem last_transaction_kept nPage db ps w ps' :
  sessions (LM := LM) ps -> reachable nPage db ps w ps' ->
  last (w_hist w) = Some (w_live w, last_image w) /\ forall p d, last_image w !! p = Some d -> current w p = Some d.
Proof.
  intros Hps Hr. destruct (reachable_inv _ _ _ _ _ Hps Hr) as (g & cl & Hi). split; [|intros p d; by eapply inv_current].
  unfold last_image. by rewrite (i_last _ _ _ Hi).
Qed.

(** C3. When the checkpoint information says that the whole log has been copied, the
    database file alone holds the newest transaction. *)
Theorem backfilled_database nPage db ps w ps' p d :
  sessions (LM := LM) ps -> reachable nPage db ps w ps' ->
  nBackfill (w_info w) = mxFrame w -> last_image w !! p = Some d -> w_db w !! p = Some d.
Proof.
  intros Hps Hr Hb Hp. destruct (reachable_inv _ _ _ _ _ Hps Hr) as (g & cl & Hi). pose proof (i_bounds _ _ _ Hi) as Hbd.
  assert (HB : g_B g = mxFrame w).
  { destruct (i_backfill _ _ _ Hi) as [|[c Hc]]; [lia|]. destruct (i_conn _ _ _ Hi c) as (_ & _ & Hrs). destruct (Hrs Hc) as (_ & _ & _ & ? & ?). lia. }
  unfold last_image in Hp. rewrite (i_last _ _ _ Hi) in Hp. apply (i_db _ _ _ Hi); [intros f Hf; lia|]. by replace (g_A g) with (mxFrame w) by lia.
Qed.

(** C26. A reader whose snapshot is out of date cannot write: the attempt to begin a write
    transaction ends with SQLITE_BUSY or SQLITE_BUSY_SNAPSHOT, without the write lock and
    with nothing else changed. *)
Theorem stale_reader_cannot_write c k w :
  lk_ok (w_locks w) -> lk_conn c = true -> writeLock k = false -> readOnly k = false ->
  lk_mode (w_locks w) c WAL_WRITE_LOCK = Free -> w_live w <> khdr k ->
  let '(rc, k', w') := run c (sqlite3WalBeginWriteTransaction k) w in
  (rc = SQLITE_BUSY \/ rc = SQLITE_BUSY_SNAPSHOT) /\ k' = k /\ w' = set_locks w (w_locks w') /\
  forall c' i, lk_conn c' = true -> lk_mode (w_locks w') c' i = lk_mode (w_locks w) c' i.
Proof.
  intros Hok Hc Hw Hro Hfree Hne. assert (Hk : set_write k false = k) by (unfold set_write; destruct k; cbn in *; congruence).
  unfold sqlite3WalBeginWriteTransaction. rewrite Hro. cbn [mbind prog_bind walLockExclusive do_ bind run exec].
  pose proof (lk_lock_exclusive (w_locks w) c WAL_WRITE_LOCK 1 Hok Hc ltac:(done) ltac:(done)) as Hl.
  specialize (Hl ltac:(intros i Hi; by replace i with WAL_WRITE_LOCK by (unfold WAL_WRITE_LOCK in *; lia))).
  destruct (xShmLock (w_locks w) c WAL_WRITE_LOCK 1 LOCK_EXCLUSIVE) as [rc l'].
  destruct Hl as [(-> & Hok' & Hset)|(-> & ->)].
  - change (truthy SQLITE_OK) with false. cbn [bind run exec]. change (w_live (set_locks w l')) with (w_live w).
    change (khdr (set_write k true)) with (khdr k). rewrite bool_decide_false by done.
    cbn [negb mbind prog_bind walUnlockExclusive do_ bind run exec]. change (w_locks (set_locks w l')) with l'.
    pose proof (lk_unlock l' c WAL_WRITE_LOCK 1 UNLOCK_EXCLUSIVE Hok' Hc ltac:(done) ltac:(done) ltac:(by right)) as Hu.
    destruct (xShmLock l' c WAL_WRITE_LOCK 1 UNLOCK_EXCLUSIVE) as [rc2 l2]. destruct Hu as [_ Hset2]. cbn [run].
    split; [by right|]. split; [exact Hk|]. split; [done|]. intros c' i Hc'. cbn [w_locks set_locks].
    rewrite (Hset2 c' i Hc'), (Hset c' i Hc'). destruct (Z.eqb_spec c' c) as [->|]; [|done]. cbn [andb].
    destruct (in_range WAL_WRITE_LOCK 1 i) eqn:Er; [|done]. apply in_range_true in Er.
    replace i with WAL_WRITE_LOCK by (unfold WAL_WRITE_LOCK in *; lia). by rewrite Hfree.
  - change (truthy SQLITE_BUSY) with true. cbn [bind run]. split; [by left|]. split; [done|]. split; [by destruct w|done].
Qed.
(** C27. The shared state stays well formed: five read marks, eight bytes of salt, a
    published log that is all there, and no page beyond the size in the header.  The count
    of copied frames is never negative and does not exceed the published log, with one
    exception: when the log is restarted the empty log is published before the count is
    reset.  In between, some connection holds the write lock and the locks of all the
    readers of the log: nobody reads through the log. *)
Theorem shared_state_wellformed nPage db ps w ps' :
  sessions (LM := LM) ps -> reachable nPage db ps w ps' ->
  zlen (aReadMark (w_info w)) = 5 /\ zlen (h_aSalt (w_live w)) = 8 /\ 0 <= mxFrame w <= zlen (w_log w) /\
  0 <= nBackfill (w_info w) /\
  (nBackfill (w_info w) <= mxFrame w \/
   mxFrame w = 0 /\ exists c, lk_conn c = true /\ lk_mode (w_locks w) c WAL_WRITE_LOCK = Ex /\
     forall j, 1 <= j <= 4 -> lk_mode (w_locks w) c (WAL_READ_LOCK j) = Ex) /\
  forall p d, last_image w !! p = Some d -> p <= h_nPage (w_live w).
Proof.
  intros Hps Hr. destruct (reachable_inv _ _ _ _ _ Hps Hr) as (g & cl & Hi). pose proof (i_bounds _ _ _ Hi) as Hb.
  pose proof (last_Some_elem_of _ _ (i_last _ _ _ Hi)) as Hin. split_and!; try lia.
  - apply (i_marks _ _ _ Hi).
  - by eapply (i_salt _ _ _ Hi).
  - destruct (i_backfill _ _ _ Hi) as [|[c Hc]]; [left; lia|right].
    destruct (i_conn _ _ _ Hi c) as (_ & _ & Hrs). destruct (Hrs Hc) as (Hw & Hsl & _ & _ & H0). split; [done|].
    exists c. destruct (lk_conn c) eqn:Ec; [|by rewrite (i_idle _ _ _ Hi c Ec) in Hc].
    rewrite (i_lk _ _ _ Hi) by done. split_and!; [done|done|]. intros j Hj. rewrite (i_lk _ _ _ Hi) by done. auto.
  - intros p d. unfold last_image. rewrite (i_last _ _ _ Hi). by eapply (i_dom _ _ _ Hi).
Qed.
End properties.

(** ** Runs of the host's lock manager *)

Section running.
Context {L : Type} {LM : LockManager L} {LL : LockLaws L}.
Implicit Types (w : world L) (ps : gmap Z (prog unit)).

(** The headers published by a run keep the salts. *)
Definition keeps_salts {B} (a : op B) w : bool :=
  match a with WriteHdr h => bool_decide (h_aSalt h = h_aSalt (w_live w)) | _ => true end.
Fixpoint run_keeps {A} (c : Z) (p : prog A) w : bool :=
  match p with
  | Ret _ => true
  | Act a f => keeps_salts a w && (let '(x, w) := exec inhabitant c a w in run_keeps c (f x) w)
  end.
(** A connection that runs alone is a schedule. *)
Lemma run_schedule c (p : prog unit) w ps : ps !! c = Some p -> run_keeps c p w = true ->
  exists ps', rtc step (w, ps) (snd (run c p w), ps') /\ forall c', c' <> c -> ps' !! c' = ps !! c'.
Proof.
  revert w ps. induction p as [a|B a f IH]; intros w ps Hp Hk.
  { exists ps. split; [apply rtc_refl|done]. }
  cbn [run_keeps] in Hk. apply andb_prop in Hk as [Hk1 Hk2]. cbn [run].
  assert (Hs : step (w, ps) (snd (exec inhabitant c a w), <[c := f (fst (exec inhabitant c a w))]> ps)).
  { apply step_act; [done|]. destruct a; try done. left. by apply bool_decide_eq_true in Hk1. }
  destruct (exec inhabitant c a w) as [x w'] eqn:Ex. cbn [fst snd] in *.
  destruct (IH x w' (<[c := f x]> ps)) as (ps' & Hr & Ho); [apply lookup_insert_eq|done|].
  exists ps'. split; [by eapply rtc_l|]. intros c' Hne. rewrite Ho by done. by apply lookup_insert_ne.
Qed.
End running.

Definition demo_calls : list call :=
  [CBeginRead; CBeginWrite; CFrames 512 [(1, [7]); (2, [8])] 2 true false; CEndWrite; CEndRead;
   CBeginRead; CRead 1; CRead 2; CEndRead; CCheckpoint SQLITE_CHECKPOINT_PASSIVE 0 512].
Definition demo_prog : prog unit := start (open_conn 512 0 0 false) demo_calls.
Definition demo_world : world ShmState := init_world ShmState 1 {[1 := [5]]}.
Definition demo_end : world ShmState := snd (run 1 demo_prog demo_world).
Lemma demo_sessions : sessions (L := ShmState) {[1 := demo_prog]}.
Proof. intros c p [<- <-]%lookup_singleton_Some. split; [done|]. by eexists 512, 0, 0, false, demo_calls. Qed.
Lemma demo_reachable : exists ps', reachable (L := ShmState) 1 {[1 := [5]]} {[1 := demo_prog]} demo_end ps'.
Proof.
  destruct (run_schedule 1 demo_prog demo_world {[1 := demo_prog]}) as (ps' & Hr & _); [done|by vm_compute|]. by exists ps'.
Qed.

Lemma demo_read : (1, EvRead (w_live demo_end) 1 (Some [7])) ∈ w_trace demo_end.
Proof. apply list_elem_of_In. vm_compute. by left. Qed.

Lemma snapshot_isolation_witness : exists img, (w_live demo_end, img) ∈ w_hist demo_end /\
  (forall img', (w_live demo_end, img') ∈ w_hist demo_end -> img' = img) /\ forall d', img !! 1 = Some d' -> Some [7] = Some d'.
Proof.
  destruct demo_reachable as [ps' Hr]. exact (snapshot_isolation (L := ShmState) _ _ _ _ _ 1 _ 1 _ demo_sessions Hr demo_read).
Defined.

Lemma last_transaction_kept_witness : last_image demo_end !! 2 = Some [8] /\ current demo_end 2 = Some [8].
Proof.
  assert (H : last_image demo_end !! 2 = Some [8]) by (by vm_compute). split; [exact H|].
  destruct demo_reachable as [ps' Hr].
  exact (proj2 (last_transaction_kept (L := ShmState) _ _ _ _ _ demo_sessions Hr) 2 [8] H).
Defined.

Lemma backfilled_database_witness : nBackfill (w_info demo_end) = 2 /\ w_db demo_end !! 2 = Some [8].
Proof.
  split; [by vm_compute|]. destruct demo_reachable as [ps' Hr].
  apply (backfilled_database (L := ShmState) _ _ _ _ _ 2 [8] demo_sessions Hr); by vm_compute.
Defined.

(** The connection has read a header that is not the published one. *)
Lemma stale_reader_cannot_write_witness :
  fst (fst (run 1 (sqlite3WalBeginWriteTransaction (open_conn 512 0 0 false)) demo_world)) = SQLITE_BUSY_SNAPSHOT /\
  let '(rc, k', w') := run 1 (sqlite3WalBeginWriteTransaction (open_conn 512 0 0 false)) demo_world in
  (rc = SQLITE_BUSY \/ rc = SQLITE_BUSY_SNAPSHOT) /\ k' = open_conn 512 0 0 false /\ w' = set_locks demo_world (w_locks w') /\
  forall c' i, lk_conn c' = true -> lk_mode (w_locks w') c' i = lk_mode (w_locks demo_world) c' i.
Proof.
  split; [by vm_compute|]. apply (stale_reader_cannot_write (L := ShmState) 1 (open_conn 512 0 0 false) demo_world); try done.
  exact (lk_init_ok (L := ShmState)).
Defined.

Lemma shared_state_wellformed_witness : zlen (w_log demo_end) = 2 /\ zlen (aReadMark (w_info demo_end)) = 5.
Proof.
  split; [by vm_compute|]. destruct demo_reachable as [ps' Hr].
  exact (proj1 (shared_state_wellformed (L := ShmState) _ _ _ _ _ demo_sessions Hr)).
Defined.
