(* ===== verification/ShmArena.v ===== *)
(** The wal-index arena of ShmArena.kt: where the bytes behind [xShmMap] live.

    [map] hands out zero-filled, 16-byte aligned regions of the shared linear
    memory, keyed by file name and region number; [dropFile] forgets the regions
    of a file when its last connection closes.  Addresses and the bump cursor are
    32-bit [Int]s.  The linear memory is taken to reach as far as the regions do: in the
    host a fill past its end throws. *)

From S2P Require Import Prelude.
From stdpp Require Import pretty.
#[local] Open Scope Z_scope.

(** [regions: HashMap<String, Int>]; [mem] is the linear memory. *)
Record ShmArena := mkArena {
  base : Z; cursor : Z; regions : gmap string Z; mem : Z -> Z }.

(** The key ["$name#$iRegion"]. *)
Definition region_key (name : string) (iRegion : Z) : string :=
  name +:+ "#" +:+ pretty iRegion.

(** [Memory.fill(value, fromIndex, toIndex)] *)
Definition fill (m : Z -> Z) (value from to : Z) : Z -> Z :=
  fun a => if (from <=? a) && (a <? to) then value else m a.

Definition arena_map (st : ShmArena) (name : string) (iRegion szRegion bExtend : Z)
  : Z * ShmArena :=
  let key := region_key name iRegion in
  match regions st !! key with
  | Some ptr => (ptr, st)
  | None =>
      if bExtend =? 0 then (0, st) else
      let ptr := i32 (base st + cursor st) in
      let cursor' := i32 (cursor st + Z.land (i32 (szRegion + 15)) (Z.lnot 15)) in
      (ptr, mkArena (base st) cursor' (<[key := ptr]> (regions st))
              (fill (mem st) 0 ptr (ptr + szRegion)))
  end.

Definition dropFile (st : ShmArena) (name : string) : ShmArena :=
  mkArena (base st) (cursor st)
    (filter (fun kv => String.prefix (name +:+ "#") (fst kv) = false) (regions st))
    (mem st).

(** ** Lemmas *)

(** Size of one wal-index page, the only size the WAL module asks for. *)
Definition region_bytes : Z := 32768.

Inductive arena_step : ShmArena -> ShmArena -> Prop :=
| step_map st name i ext :
    base st + cursor st + region_bytes < 2 ^ 31 ->
    arena_step st (snd (arena_map st name i region_bytes ext))
| step_drop st name : arena_step st (dropFile st name).

(** Regions lie between [base] and the cursor and do not overlap. *)
Record arena_ok (st : ShmArena) : Prop := {
  ao_base : 0 <= base st;
  ao_cursor : 0 <= cursor st /\ base st + cursor st < 2 ^ 31;
  ao_in : forall k p, regions st !! k = Some p ->
    base st <= p /\ p + region_bytes <= base st + cursor st;
  ao_disj : forall k1 k2 p1 p2, regions st !! k1 = Some p1 -> regions st !! k2 = Some p2 ->
    k1 <> k2 -> p1 + region_bytes <= p2 \/ p2 + region_bytes <= p1 }.

Lemma i32_small z : is_i32 z -> i32 z = z.
Proof. unfold is_i32, i32. intros. rewrite Z.mod_small; lia. Qed.

Lemma region_step : Z.land (i32 (region_bytes + 15)) (Z.lnot 15) = region_bytes.
Proof. reflexivity. Qed.

Lemma arena_step_ok st st' : arena_step st st' -> arena_ok st -> arena_ok st'.
Proof.
  intros Hs [Hb Hc Hin Hd]. destruct Hs as [st name i ext Hroom|st name].
  - unfold arena_map. destruct (regions st !! _) as [p|] eqn:E; [by split|].
    destruct (ext =? 0); [by split|]. cbn [snd]. rewrite region_step.
    unfold region_bytes in *. rewrite !i32_small by (unfold is_i32; lia).
    split; cbn [base cursor regions]; unfold region_bytes; [done|lia| |].
    + intros k p. rewrite lookup_insert_Some. intros [[<- <-]|[_ H]]; [lia|].
      apply Hin in H. lia.
    + intros k1 k2 p1 p2. rewrite !lookup_insert_Some.
      intros [[<- <-]|[? H1]] [[<- <-]|[? H2]] Hne; [done| | |by eapply Hd].
      * apply Hin in H2. lia.
      * apply Hin in H1. lia.
  - split; cbn [base cursor regions dropFile]; [done|done| |].
    + intros k p [H _]%map_lookup_filter_Some. by apply Hin in H.
    + intros k1 k2 p1 p2 [H1 _]%map_lookup_filter_Some [H2 _]%map_lookup_filter_Some.
      by eapply Hd.
Qed.

Lemma arena_steps_ok st st' : rtc arena_step st st' -> arena_ok st -> arena_ok st'.
Proof. induction 1; eauto using arena_step_ok. Qed.

Lemma arena_steps_base st st' : rtc arena_step st st' -> base st' = base st.
Proof.
  induction 1 as [|st1 st2 st3 Hs _ IH]; [done|]. rewrite IH.
  destruct Hs as [st name i ext _|st name]; [|done]. unfold arena_map.
  destruct (regions st !! _); [done|]. by destruct (ext =? 0).
Qed.

Definition arena_init (b : Z) (m : Z -> Z) : ShmArena := mkArena b 0 ∅ m.

Lemma arena_init_ok b m : 0 <= b < 2 ^ 31 -> arena_ok (arena_init b m).
Proof. intros Hb. split; cbn; [lia|lia| |]; intros *; rewrite lookup_empty; done. Qed.

Lemma append_prefix s t : String.prefix s (s +:+ t) = true.
Proof.
  induction s as [|c s IH]; [by destruct t|].
  change (String c s +:+ t) with (String c (s +:+ t)). cbn [String.prefix].
  by destruct (Ascii.ascii_dec c c).
Qed.

Lemma append_assoc (a b c : string) : (a +:+ b) +:+ c = a +:+ (b +:+ c).
Proof. induction a as [|x a IH]; [done|]. apply (f_equal (String x)), IH. Qed.

(** A session that maps region 0 of a file and drops it on close. *)
Definition session (name : string) (st : ShmArena) : ShmArena :=
  dropFile (snd (arena_map st name 0 region_bytes 1)) name.

Lemma session_cursor name st : regions st = ∅ ->
  0 <= cursor st -> cursor st + region_bytes < 2 ^ 31 ->
  regions (session name st) = ∅ /\ base (session name st) = base st /\
  cursor (session name st) = cursor st + region_bytes.
Proof.
  intros He H0 H1. unfold session, arena_map. rewrite He, lookup_empty. cbn [Z.eqb snd].
  cbn [dropFile regions base cursor]. rewrite region_step, (i32_small (cursor st + region_bytes))
    by (unfold is_i32, region_bytes in *; lia).
  split; [|done]. apply map_eq. intros k. rewrite lookup_empty.
  apply map_lookup_filter_None. right. intros x.
  rewrite lookup_insert_Some. intros [[<- <-]|[_ H]]; [|by rewrite lookup_empty in H].
  cbn. unfold region_key. rewrite <- append_assoc, append_prefix. done.
Qed.

Lemma sessions_cursor name st n : regions st = ∅ -> cursor st = 0 ->
  Z.of_nat n * region_bytes < 2 ^ 31 ->
  regions (Nat.iter n (session name) st) = ∅ /\
  base (Nat.iter n (session name) st) = base st /\
  cursor (Nat.iter n (session name) st) = Z.of_nat n * region_bytes.
Proof.
  intros He H0. unfold region_bytes in *. induction n as [|n IH]; intros Hn; [done|].
  destruct IH as (Er & Eb & Ec); [lia|]. 
  change (Nat.iter (S n) (session name) st) with (session name (Nat.iter n (session name) st)).
  destruct (session_cursor name (Nat.iter n (session name) st)) as (A & B & C);
    unfold region_bytes; [done|lia|lia|].
  split; [done|]. split; [by rewrite B|]. rewrite C. unfold region_bytes. lia.
Qed.

(** ** Properties *)

(** C36. The arena never hands out overlapping memory: as long as the bump cursor
    stays inside the address space, the wal-index regions of all files mapped at
    one time are pairwise disjoint and lie between the arena base and the
    cursor. *)
Theorem arena_regions_disjoint b m st k1 k2 p1 p2 :
  0 <= b < 2 ^ 31 -> rtc arena_step (arena_init b m) st ->
  regions st !! k1 = Some p1 -> regions st !! k2 = Some p2 -> k1 <> k2 ->
  b <= p1 /\ p1 + region_bytes <= base st + cursor st /\
  (p1 + region_bytes <= p2 \/ p2 + region_bytes <= p1).
Proof.
  intros Hb Hr H1 H2 Hne.
  pose proof (arena_steps_base _ _ Hr) as Hbase. cbn in Hbase.
  destruct (arena_steps_ok _ _ Hr (arena_init_ok b m Hb)) as [_ _ Hin Hd].
  pose proof (Hin _ _ H1). pose proof (Hd _ _ _ _ H1 H2 Hne). lia.
Qed.

Lemma arena_regions_disjoint_witness :
  4096 <= 4096 /\ 4096 + region_bytes <= 4096 + 65536 /\
  (4096 + region_bytes <= 36864 \/ 36864 + region_bytes <= 4096).
Proof.
  apply (arena_regions_disjoint 4096 (fun _ => 1)
    (snd (arena_map (snd (arena_map (arena_init 4096 (fun _ => 1)) "a.db" 0 region_bytes 1))
       "a.db" 1 region_bytes 1)) "a.db#0" "a.db#1").
  - lia.
  - eapply rtc_l; [apply (step_map _ "a.db" 0 1)|eapply rtc_l;
      [apply (step_map _ "a.db" 1 1)|apply rtc_refl]]; vm_compute; reflexivity.
  - vm_compute; reflexivity.
  - vm_compute; reflexivity.
  - discriminate.
Defined.

(** The cursor never moves back: after [n] open/close sessions of one file
    (each maps region 0 and drops it), the next session is given the address
    [base + n * 32768]; with the 8 MiB arena of JvmVfsRuntime the 257th session
    is placed just past the end of the arena. *)
Theorem arena_sessions_leak name st n : regions st = ∅ -> cursor st = 0 -> 0 <= base st ->
  base st + Z.of_nat n * region_bytes < 2 ^ 31 ->
  fst (arena_map (Nat.iter n (session name) st) name 0 region_bytes 1) =
  base st + Z.of_nat n * region_bytes.
Proof.
  intros He H0 Hb Hn.
  destruct (sessions_cursor name st n He H0) as (A & B & C); [unfold region_bytes in *; lia|].
  unfold arena_map. rewrite A, lookup_empty. cbn [Z.eqb fst]. rewrite B, C.
  apply i32_small. unfold is_i32, region_bytes in *. lia.
Qed.

Lemma arena_sessions_leak_witness :
  fst (arena_map (Nat.iter 256 (session "a.db") (arena_init 65536 (fun _ => 0))) "a.db" 0
         region_bytes 1) = 65536 + 8 * 1024 * 1024.
Proof.
  apply (arena_sessions_leak "a.db" (arena_init 65536 (fun _ => 0)) 256);
    [reflexivity|reflexivity|cbn; lia|vm_compute; reflexivity].
Defined.

(** [dropFile] matches keys by prefix only: dropping file [name] also forgets
    every region of any file whose name is [name] followed by a hash sign. *)
Theorem dropFile_drops_sibling st name rest i :
  regions (dropFile st name) !! region_key (name +:+ "#" +:+ rest) i = None.
Proof.
  cbn [dropFile regions]. apply map_lookup_filter_None. right. intros x _. cbn.
  unfold region_key. rewrite !append_assoc, <- (append_assoc name "#"), append_prefix. done.
Qed.
