(* ===== verification/OsJvm.v ===== *)
(** The VFS layer: the list of registered VFSes (os.c section of sqlite3.c) and
    the custom VFS of os_jvm.c, which delegates file I/O to the VFS it replaced
    and takes locks and shared memory from the host ([JvmLocks], [ShmArena]).

    [sqlite3_vfs] objects live in a heap indexed by address; [pNext] is an
    address, 0 is NULL.  The delegate VFS and the allocator are parameters. *)

From S2P Require Import Prelude JvmLocks ShmArena.

(** ** os.c: the list of VFSes *)

(** A function pointer for [xOpen]: a method of some other VFS or [jOpen]. *)
Inductive open_fn := OtherOpen (id : Z) | JOpen.

(** [zOther] stands for the members no operation here reads: iVersion,
    mxPathname, pAppData, xDelete, xAccess, ... *)
Record sqlite3_vfs := mkVfs {
  szOsFile : Z; zName : string; pNext : Z; xOpen : open_fn; zOther : Z }.

Record os := mkOs { vfsList : Z; vheap : gmap Z sqlite3_vfs }.

(** [for(pVfs = vfsList; pVfs; pVfs=pVfs->pNext)]; the fuel bounds the number of
    list cells, none of which repeats. *)
Fixpoint vfs_search (fuel : nat) (h : gmap Z sqlite3_vfs) (p : Z) (zVfs : option string) : Z :=
  match fuel with
  | O => 0
  | S f =>
      if p =? 0 then 0 else
      match h !! p with
      | None => 0
      | Some v =>
          match zVfs with
          | None => p
          | Some z => if String.eqb z (zName v) then p else vfs_search f h (pNext v) zVfs
          end
      end
  end.

(** [init_rc] is what [sqlite3_initialize] returns. *)
Definition sqlite3_vfs_find (init_rc : Z) (s : os) (zVfs : option string) : Z :=
  if truthy init_rc then 0
  else vfs_search (S (size (vheap s))) (vheap s) (vfsList s) zVfs.

Definition set_pNext (v : sqlite3_vfs) (p : Z) : sqlite3_vfs :=
  mkVfs (szOsFile v) (zName v) p (xOpen v) (zOther v).

(** [while( p->pNext && p->pNext!=pVfs ) p = p->pNext;] then the unlink. *)
Fixpoint vfs_unlink_from (fuel : nat) (h : gmap Z sqlite3_vfs) (p pVfs : Z) : gmap Z sqlite3_vfs :=
  match fuel with
  | O => h
  | S f =>
      match h !! p with
      | None => h
      | Some v =>
          if negb (pNext v =? 0) && negb (pNext v =? pVfs)
          then vfs_unlink_from f h (pNext v) pVfs
          else if pNext v =? pVfs
          then match h !! pVfs with
               | Some w => <[p := set_pNext v (pNext w)]> h
               | None => h
               end
          else h
      end
  end.

Definition vfsUnlink (s : os) (pVfs : Z) : os :=
  if pVfs =? 0 then s
  else if vfsList s =? pVfs then
    match vheap s !! pVfs with Some v => mkOs (pNext v) (vheap s) | None => s end
  else if truthy (vfsList s) then
    mkOs (vfsList s) (vfs_unlink_from (S (size (vheap s))) (vheap s) (vfsList s) pVfs)
  else s.

(** [p->pNext = q] *)
Definition write_pNext (h : gmap Z sqlite3_vfs) (p q : Z) : gmap Z sqlite3_vfs :=
  alter (fun v => set_pNext v q) p h.
Definition read_pNext (h : gmap Z sqlite3_vfs) (p : Z) : Z :=
  match h !! p with Some v => pNext v | None => 0 end.

(** The build defines SQLITE_ENABLE_API_ARMOR (wasm-lib/build.sh), hence the test of the
    null pointer. *)
Definition sqlite3_vfs_register (init_rc : Z) (s : os) (pVfs makeDflt : Z) : Z * os :=
  if truthy init_rc then (init_rc, s)
  else if pVfs =? 0 then (SQLITE_MISUSE, s)
  else
    let s := vfsUnlink s pVfs in
    if truthy makeDflt || (vfsList s =? 0) then
      (SQLITE_OK, mkOs pVfs (write_pNext (vheap s) pVfs (vfsList s)))
    else
      let h := write_pNext (vheap s) pVfs (read_pNext (vheap s) (vfsList s)) in
      (SQLITE_OK, mkOs (vfsList s) (write_pNext h (vfsList s) pVfs)).

Definition sqlite3_vfs_unregister (init_rc : Z) (s : os) (pVfs : Z) : Z * os :=
  if truthy init_rc then (init_rc, s) else (SQLITE_OK, vfsUnlink s pVfs).

(** ** os_jvm.c: installation *)

(** [gOrig] and the address of the static [gJvmVfs]. *)
Record jvm := mkJvm { j_os : os; gOrig : Z }.

Definition sizeof_JvmFile : Z := 1032.

Definition install_jvm_vfs (init_rc : Z) (gJvmVfs : Z) (j : jvm) : Z * jvm :=
  let g := sqlite3_vfs_find init_rc (j_os j) None in
  if g =? 0 then (1, mkJvm (j_os j) g) else
  match vheap (j_os j) !! g with
  | None => (1, mkJvm (j_os j) g)
  | Some o =>
      let v := mkVfs sizeof_JvmFile "jvmvfs" 0 JOpen (zOther o) in
      let s := mkOs (vfsList (j_os j)) (<[gJvmVfs := v]> (vheap (j_os j))) in
      let '(rc, s) := sqlite3_vfs_register init_rc s gJvmVfs 1 in
      (rc, mkJvm s g)
  end.

(** ** The specification: a list of addresses, the default first *)

Fixpoint chain (h : gmap Z sqlite3_vfs) (p : Z) (l : list Z) : Prop :=
  match l with
  | [] => p = 0
  | a :: l' => p = a /\ a <> 0 /\ exists v, h !! a = Some v /\ chain h (pNext v) l'
  end.
(** The state [s] holds the list [l]. *)
Definition vfs_repr (s : os) (l : list Z) : Prop := chain (vheap s) (vfsList s) l /\ NoDup l.

Definition remove_vfs (p : Z) (l : list Z) : list Z := filter (fun a => a <> p) l.
Definition register_spec (p : Z) (dflt : bool) (l : list Z) : list Z :=
  match dflt, remove_vfs p l with
  | false, d :: l' => d :: p :: l'
  | _, l' => p :: l'
  end.
Definition vfs_name (h : gmap Z sqlite3_vfs) (p : Z) : option string := zName <$> h !! p.
Fixpoint find_spec (h : gmap Z sqlite3_vfs) (l : list Z) (zVfs : option string) : Z :=
  match l with
  | [] => 0
  | a :: l' => match zVfs with
               | None => a
               | Some z => if bool_decide (vfs_name h a = Some z) then a else find_spec h l' zVfs
               end
  end.

(** ** Lemmas on chains *)

Lemma chain_elem h p l a : chain h p l -> a ∈ l -> a <> 0 /\ is_Some (h !! a).
Proof.
  revert p; induction l as [|b l IH]; intros p Hc; [by intros ?%elem_of_nil|].
  destruct Hc as (_ & Hb & v & Hv & Hc). intros [->|Ha]%elem_of_cons; [eauto|by eapply IH].
Qed.

Lemma chain_insert h p l q v : q ∉ l -> chain (<[q := v]> h) p l <-> chain h p l.
Proof.
  revert p; induction l as [|b l IH]; intros p Hq; cbn [chain]; [done|].
  apply not_elem_of_cons in Hq as [Hqb Hql]. rewrite lookup_insert_ne by done.
  by setoid_rewrite IH.
Qed.

Lemma chain_alter h p l q f : q ∉ l -> chain (alter f q h) p l <-> chain h p l.
Proof.
  revert p; induction l as [|b l IH]; intros p Hq; cbn [chain]; [done|].
  apply not_elem_of_cons in Hq as [Hqb Hql]. rewrite lookup_alter_ne by done.
  by setoid_rewrite IH.
Qed.

Lemma chain_length h p l : chain h p l -> NoDup l -> (length l <= size h)%nat.
Proof.
  intros Hc Hnd. rewrite <- (size_dom h). rewrite <- (size_list_to_set (C := gset Z) l) by done.
  apply subseteq_size. intros a Ha%elem_of_list_to_set.
  apply elem_of_dom. by eapply chain_elem.
Qed.

Lemma vfs_search_spec h l p z f : chain h p l -> (length l < f)%nat ->
  vfs_search f h p z = find_spec h l z.
Proof.
  revert p f; induction l as [|a l IH]; intros p f Hc Hf; (destruct f as [|f]; [cbn in Hf; lia|]);
    cbn [vfs_search find_spec].
  - cbn in Hc. by rewrite Hc.
  - destruct Hc as (-> & Ha & v & Hv & Hc). rewrite (proj2 (Z.eqb_neq a 0)) by done.
    rewrite Hv. destruct z as [z|]; [|done]. unfold vfs_name. rewrite Hv. cbn.
    destruct (String.eqb_spec z (zName v)) as [->|Hz].
    + by rewrite bool_decide_true.
    + rewrite bool_decide_false by congruence. cbn [length] in Hf. apply IH; [done|lia].
Qed.

(** The members the list operations never change. *)
Definition body (v : sqlite3_vfs) : Z * string * open_fn * Z :=
  (szOsFile v, zName v, xOpen v, zOther v).
Definition same_bodies (h h' : gmap Z sqlite3_vfs) : Prop :=
  forall a, body <$> h' !! a = body <$> h !! a.

#[export] Instance same_bodies_refl : Reflexive same_bodies.
Proof. by intros h a. Qed.
#[export] Instance same_bodies_trans : Transitive same_bodies.
Proof. intros h1 h2 h3 H1 H2 a. by rewrite H2. Qed.

Lemma same_bodies_write h p q : same_bodies h (write_pNext h p q).
Proof.
  intros a. unfold write_pNext. rewrite lookup_alter. case_decide; [|done].
  subst. by destruct (h !! a).
Qed.
Lemma same_bodies_set h p v q : h !! p = Some v -> same_bodies h (<[p := set_pNext v q]> h).
Proof.
  intros Hv a. rewrite lookup_insert. case_decide; [|done]. subst. by rewrite Hv.
Qed.
Lemma find_spec_bodies h h' l z : same_bodies h h' -> find_spec h' l z = find_spec h l z.
Proof.
  intros Hs. induction l as [|a l IH]; cbn; [done|]. destruct z as [z|]; [|done]. rewrite IH.
  assert (vfs_name h' a = vfs_name h a) as ->; [|done]. unfold vfs_name.
  pose proof (Hs a) as E. destruct (h' !! a), (h !! a); cbn in *; try done. unfold body in E. congruence.
Qed.

Lemma remove_vfs_eq p l : remove_vfs p (p :: l) = remove_vfs p l.
Proof. unfold remove_vfs. by rewrite filter_cons_False by (by intros []). Qed.
Lemma remove_vfs_ne p a l : a <> p -> remove_vfs p (a :: l) = a :: remove_vfs p l.
Proof. intros. unfold remove_vfs. by rewrite filter_cons_True. Qed.
Lemma remove_vfs_id p l : p ∉ l -> remove_vfs p l = l.
Proof.
  induction l as [|a l IH]; [done|]. intros [Hne Hni]%not_elem_of_cons.
  by rewrite remove_vfs_ne, IH.
Qed.

Lemma unlink_from_frame h l a p f x : chain h a (a :: l) -> x ∉ a :: l ->
  vfs_unlink_from f h a p !! x = h !! x.
Proof.
  revert a l; induction f as [|f IH]; intros a l Hc Hx; cbn [vfs_unlink_from]; [done|].
  destruct Hc as (_ & Ha & v & Hv & Hc). rewrite Hv.
  destruct l as [|b l]; [cbn in Hc; rewrite Hc, Z.eqb_refl; cbn [negb andb]|].
  - destruct (0 =? p); [|done]. destruct (h !! p); [|done].
    apply lookup_insert_ne. set_solver.
  - pose proof Hc as (Hb & Hb0 & _). rewrite Hb in Hc |- *. rewrite (proj2 (Z.eqb_neq b 0)) by done. cbn [negb andb].
    destruct (b =? p); cbn [negb].
    + destruct (h !! p); [|done]. apply lookup_insert_ne. set_solver.
    + apply (IH b l); [done|set_solver].
Qed.

(** The unlinking loop, started at a cell other than the one to remove. *)
Lemma unlink_from_spec h l a p f : chain h a (a :: l) -> NoDup (a :: l) -> a <> p -> p <> 0 ->
  (length l < f)%nat ->
  chain (vfs_unlink_from f h a p) a (a :: remove_vfs p l) /\
  same_bodies h (vfs_unlink_from f h a p).
Proof.
  revert a l; induction f as [|f IH]; intros a l Hc Hnd Hap Hp Hf; [lia|].
  destruct Hc as (_ & Ha & v & Hv & Hc). apply NoDup_cons in Hnd as [Hal Hnd].
  cbn [vfs_unlink_from]. rewrite Hv. destruct l as [|b l].
  - cbn in Hc. rewrite Hc, Z.eqb_refl. cbn [negb andb].
    destruct (Z.eqb_spec 0 p); [congruence|]. split; [cbn; eauto|done].
  - destruct Hc as (Hb & Hb0 & w & Hw & Hc). rewrite Hb, (proj2 (Z.eqb_neq b 0)) by done.
    cbn [negb andb]. destruct (Z.eqb_spec b p) as [->|Hbp]; cbn [negb].
    + rewrite Hw. apply NoDup_cons in Hnd as [Hpl Hnd].
      split; [|by apply same_bodies_set]. rewrite remove_vfs_eq, remove_vfs_id by done.
      cbn [chain]. split; [done|]. split; [done|]. eexists. split; [apply lookup_insert_eq|].
      cbn [pNext set_pNext]. apply chain_insert; [|done]. set_solver.
    + destruct (IH b l) as [IHc IHs]; [cbn; eauto|done|done|done|cbn in Hf; lia|].
      split; [|done]. rewrite remove_vfs_ne by done. cbn [chain]. split; [done|]. split; [done|].
      exists v. rewrite Hb. split; [|done].
      rewrite (unlink_from_frame h l); [done|cbn; eauto|done].
Qed.

Lemma not_elem_remove p l : p ∉ remove_vfs p l.
Proof. unfold remove_vfs. intros [H _]%list_elem_of_filter. done. Qed.

(** [vfsUnlink] removes the VFS from the list, wherever it is. *)
Lemma vfsUnlink_repr s l p : vfs_repr s l -> p <> 0 -> is_Some (vheap s !! p) ->
  vfs_repr (vfsUnlink s p) (remove_vfs p l) /\ same_bodies (vheap s) (vheap (vfsUnlink s p)).
Proof.
  intros [Hc Hnd] Hp Hin. unfold vfsUnlink. rewrite (proj2 (Z.eqb_neq p 0)) by done.
  destruct l as [|a l].
  - cbn in Hc. rewrite Hc. destruct (Z.eqb_spec 0 p); [congruence|]. cbn. done.
  - pose proof Hc as (Ha & Ha0 & v & Hv & Hc'). rewrite Ha. destruct (Z.eqb_spec a p) as [->|Hap].
    + rewrite Hv. apply NoDup_cons in Hnd as [Hpl Hnd]. split; [|done]. unfold vfs_repr. cbn [vfsList vheap].
      by rewrite remove_vfs_eq, remove_vfs_id.
    + unfold truthy. rewrite (proj2 (Z.eqb_neq a 0)) by done. cbn [negb].
      pose proof (chain_length _ _ _ Hc Hnd) as Hlen. rewrite Ha in Hc.
      destruct (unlink_from_spec (vheap s) l a p (S (size (vheap s))) Hc Hnd Hap Hp) as [H1 H2];
        [cbn in Hlen; lia|].
      rewrite remove_vfs_ne by done. split; [|done]. split; [exact H1|]. apply NoDup_cons in Hnd as [Hal Hnd]. apply NoDup_cons.
      split; [|by apply NoDup_filter]. intros [_ H]%list_elem_of_filter. done.
Qed.

Lemma NoDup_remove p l : NoDup l -> NoDup (remove_vfs p l).
Proof. apply NoDup_filter. Qed.

(** Registration refines the specification on lists. *)
Lemma register_repr s l p dflt : vfs_repr s l -> p <> 0 -> is_Some (vheap s !! p) ->
  fst (sqlite3_vfs_register 0 s p dflt) = SQLITE_OK /\
  vfs_repr (snd (sqlite3_vfs_register 0 s p dflt)) (register_spec p (truthy dflt) l) /\
  same_bodies (vheap s) (vheap (snd (sqlite3_vfs_register 0 s p dflt))).
Proof.
  intros Hr Hp Hin. unfold sqlite3_vfs_register. cbn [truthy Z.eqb negb].
  rewrite (proj2 (Z.eqb_neq p 0)) by done.
  destruct (vfsUnlink_repr s l p Hr Hp Hin) as [[Hc Hnd] Hsb].
  assert (Hin' : is_Some (vheap (vfsUnlink s p) !! p)).
  { pose proof (Hsb p) as E. destruct Hin as [w Hw]. rewrite Hw in E.
    destruct (vheap (vfsUnlink s p) !! p); [eauto|done]. }
  pose proof (not_elem_remove p l) as Hni. unfold register_spec.
  set (u := vfsUnlink s p) in *. destruct Hin' as [w Hw].
  destruct (truthy dflt) eqn:Ed; [|destruct (remove_vfs p l) as [|d l'] eqn:El].
  - cbn [orb fst snd vheap vfsList]. split; [done|]. split.
    + split; [|by apply NoDup_cons]. cbn [chain vheap vfsList]. split; [done|]. split; [done|].
      eexists. unfold write_pNext. rewrite lookup_alter_eq, Hw. cbn. split; [done|].
      by apply chain_alter.
    + etransitivity; [exact Hsb|apply same_bodies_write].
  - cbn in Hc. rewrite Hc. cbn [orb Z.eqb fst snd vheap vfsList]. split; [done|]. split.
    + split; [|by apply NoDup_cons]. cbn [chain vheap vfsList]. split; [done|]. split; [done|].
      eexists. unfold write_pNext. rewrite lookup_alter_eq, Hw. cbn. split; done.
    + etransitivity; [exact Hsb|apply same_bodies_write].
  - pose proof Hc as (Hd & Hd0 & v & Hv & Hc'). rewrite Hd, (proj2 (Z.eqb_neq d 0)) by done.
    cbn [orb fst snd vheap vfsList]. split; [done|].
    apply NoDup_cons in Hnd as [Hdl Hnd]. apply not_elem_of_cons in Hni as [Hpd Hpl].
    split; [|do 2 (etransitivity; [|apply same_bodies_write]); exact Hsb].
    split; [|apply NoDup_cons; split; [set_solver|by apply NoDup_cons]].
    unfold read_pNext. rewrite Hv. unfold write_pNext. cbn [chain vheap vfsList].
    split; [done|]. split; [done|]. eexists. rewrite lookup_alter_eq, lookup_alter_ne by done.
    rewrite Hv. cbn. split; [done|]. split; [done|]. split; [done|].
    eexists. rewrite lookup_alter_ne, lookup_alter_eq, Hw by done. cbn. split; [done|].
    apply chain_alter; [done|]. by apply chain_alter.
Qed.

Lemma find_repr s l z : vfs_repr s l -> sqlite3_vfs_find 0 s z = find_spec (vheap s) l z.
Proof.
  intros [Hc Hnd]. unfold sqlite3_vfs_find. cbn [truthy Z.eqb negb].
  apply vfs_search_spec; [done|]. pose proof (chain_length _ _ _ Hc Hnd). lia.
Qed.

(** ** Properties *)

(** C28. The pointer-based VFS list implements its list specification: on a
    well-formed list, [sqlite3_vfs_register] yields the list with the VFS moved to
    the front (or to second place when it is not to be the default),
    [sqlite3_vfs_unregister] the list without it, [sqlite3_vfs_find] the first VFS
    with the name; no other member of any VFS object changes. *)
Theorem vfs_list_refines s l p dflt z :
  vfs_repr s l -> p <> 0 -> is_Some (vheap s !! p) ->
  sqlite3_vfs_find 0 s z = find_spec (vheap s) l z /\
  vfs_repr (snd (sqlite3_vfs_register 0 s p dflt)) (register_spec p (truthy dflt) l) /\
  same_bodies (vheap s) (vheap (snd (sqlite3_vfs_register 0 s p dflt))) /\
  vfs_repr (snd (sqlite3_vfs_unregister 0 s p)) (remove_vfs p l) /\
  same_bodies (vheap s) (vheap (snd (sqlite3_vfs_unregister 0 s p))).
Proof.
  intros Hr Hp Hin. split; [by apply find_repr|].
  destruct (register_repr s l p dflt Hr Hp Hin) as (_ & H1 & H2).
  destruct (vfsUnlink_repr s l p Hr Hp Hin) as [H3 H4]. done.
Qed.

Definition example_os : os :=
  mkOs 8 (<[8 := mkVfs 64 "unix" 16 (OtherOpen 1) 1]>
         (<[16 := mkVfs 64 "memdb" 0 (OtherOpen 2) 2]>
         (<[24 := mkVfs 0 "" 0 (OtherOpen 0) 0]> ∅))).

Lemma example_os_repr : vfs_repr example_os [8; 16].
Proof.
  split; [|by_compute]. cbn. split; [done|]. split; [done|]. eexists. split; [reflexivity|].
  split; [done|]. split; [done|]. eexists. split; reflexivity.
Qed.

Lemma vfs_list_refines_witness :
  vfs_repr (snd (sqlite3_vfs_register 0 example_os 16 1)) [16; 8].
Proof.
  destruct (vfs_list_refines example_os [8; 16] 16 1 None) as (_ & H & _);
    [apply example_os_repr|done|vm_compute; eexists; reflexivity|exact H].
Defined.

(** [install_jvm_vfs], called once when some VFS is registered and [jvmvfs]
    is not: it returns OK, remembers the former default for delegation, puts
    [jvmvfs] in front of the unchanged list with its own [xOpen] and every other
    method copied from the former default, becomes what [sqlite3_vfs_find(0)]
    returns, and leaves every lookup of another name as it was. *)
Theorem install_makes_default j g d l o z :
  vfs_repr (j_os j) (d :: l) -> vheap (j_os j) !! d = Some o ->
  g <> 0 -> g ∉ d :: l -> z <> "jvmvfs"%string ->
  let '(rc, j') := install_jvm_vfs 0 g j in
  rc = SQLITE_OK /\ gOrig j' = d /\ vfs_repr (j_os j') (g :: d :: l) /\
  body <$> vheap (j_os j') !! g = Some (sizeof_JvmFile, "jvmvfs"%string, JOpen, zOther o) /\
  sqlite3_vfs_find 0 (j_os j') None = g /\
  sqlite3_vfs_find 0 (j_os j') (Some z) = sqlite3_vfs_find 0 (j_os j) (Some z).
Proof.
  intros Hr Ho Hg Hni Hz. unfold install_jvm_vfs.
  rewrite (find_repr _ _ None Hr). cbn [find_spec].
  assert (Hd0 : d <> 0) by (destruct Hr as [(_ & H & _) _]; done).
  rewrite (proj2 (Z.eqb_neq d 0)), Ho by done.
  set (v := mkVfs sizeof_JvmFile "jvmvfs" 0 JOpen (zOther o)).
  set (s := mkOs (vfsList (j_os j)) (<[g := v]> (vheap (j_os j)))).
  assert (Hs : vfs_repr s (d :: l)).
  { destruct Hr as [Hc Hnd]. split; [|done]. by apply chain_insert. }
  destruct (register_repr s (d :: l) g 1 Hs Hg) as (H1 & H2 & H3);
    [cbn; rewrite lookup_insert_eq; eauto|].
  destruct (sqlite3_vfs_register 0 s g 1) as [rc s']. cbn [fst snd j_os gOrig] in *.
  unfold register_spec in H2. change (truthy 1) with true in H2. cbn iota in H2.
  rewrite remove_vfs_id in H2 by done.
  split; [done|]. split; [done|]. split; [done|].
  pose proof (H3 g) as Hbg. cbn [s vheap] in Hbg. rewrite lookup_insert_eq in Hbg.
  split; [exact Hbg|]. rewrite !(find_repr _ _ _ H2), (find_repr _ _ _ Hr).
  split; [done|]. rewrite (find_spec_bodies _ _ _ _ H3).
  cbn [find_spec s vheap]. rewrite bool_decide_false.
  2: { unfold vfs_name. rewrite lookup_insert_eq. cbn. congruence. }
  change (find_spec (<[g := v]> (vheap (j_os j))) (d :: l) (Some z) =
          find_spec (vheap (j_os j)) (d :: l) (Some z)).
  clear -Hni. induction (d :: l) as [|a r IH]; [done|].
  apply not_elem_of_cons in Hni as [Hga Hni]. cbn. unfold vfs_name.
  rewrite lookup_insert_ne by done. by rewrite IH.
Qed.

Lemma install_makes_default_witness :
  fst (install_jvm_vfs 0 24 (mkJvm example_os 0)) = SQLITE_OK.
Proof.
  pose proof (install_makes_default (mkJvm example_os 0) 24 8 [16]
    (mkVfs 64 "unix" 16 (OtherOpen 1) 1) "memdb" example_os_repr eq_refl) as H.
  destruct (install_jvm_vfs 0 24 (mkJvm example_os 0)) as [rc j'].
  apply H; [discriminate|by_compute|discriminate].
Defined.
