(* ===== verification/JvmFile.v ===== *)
(** Open files of the custom VFS (os_jvm.c): [jOpen], [jClose] and the method
    table [JVM_IO].

    A [JvmFile] wraps a file handle [real] of the VFS that was the default before
    installation.  Reads, writes and the like go to [real]; locks go to the host
    lock manager keyed by the wrapper's address ([CONN]) and file name ([NAME]);
    wal-index pages come from the host arena.  The methods of the delegate are a
    record of functions over an arbitrary state [Wo]; the allocator is a function
    of the set of live blocks. *)

From S2P Require Import Prelude JvmLocks ShmArena.

(** ** State *)

(** [struct JvmFile]; [opened] is [base.pMethods != 0]. *)
Record JvmFile := mkFile { opened : bool; real : Z; zNameBuf : list Z }.

(** The process: the delegate's state, the host's locks and arena, the live heap
    blocks and the [JvmFile] at each address. *)
Record proc (Wo : Type) := mkProc {
  p_orig : Wo; p_locks : JvmVfsLocks; p_arena : ShmArena; p_live : gset Z;
  p_files : gmap Z JvmFile }.
Arguments mkProc {Wo}.
Arguments p_orig {Wo}.
Arguments p_locks {Wo}.
Arguments p_arena {Wo}.
Arguments p_live {Wo}.
Arguments p_files {Wo}.

(** [sqlite3_io_methods] of the delegate, on its own state; the last three may be
    null. *)
Record orig_methods (Wo : Type) := mkOrig {
  oOpen : Wo -> option (list Z) -> Z -> Z -> Z * Z * Wo;
  oClose : Wo -> Z -> Z * Wo;
  oRead : Wo -> Z -> Z -> Z -> Z * list Z * Wo;
  oWrite : Wo -> Z -> list Z -> Z -> Z * Wo;
  oTruncate : Wo -> Z -> Z -> Z * Wo;
  oSync : Wo -> Z -> Z -> Z * Wo;
  oFileSize : Wo -> Z -> Z * Z * Wo;
  oFileControl : option (Wo -> Z -> Z -> Z * Wo);
  oSectorSize : option (Wo -> Z -> Z);
  oDeviceChar : option (Wo -> Z -> Z) }.
Arguments oOpen {Wo}.
Arguments oClose {Wo}.
Arguments oRead {Wo}.
Arguments oWrite {Wo}.
Arguments oTruncate {Wo}.
Arguments oSync {Wo}.
Arguments oFileSize {Wo}.
Arguments oFileControl {Wo}.
Arguments oSectorSize {Wo}.
Arguments oDeviceChar {Wo}.

Section methods.
Context {Wo : Type} (om : orig_methods Wo).
(** [sqlite3_malloc(n)] given the live blocks; [None] is a null result. *)
Context (malloc : gset Z -> Z -> option Z).
(** [gOrig->szOsFile] *)
Context (szOrigFile : Z).
Implicit Types (p : proc Wo) (f : Z).

Definition set_orig (p : proc Wo) (w : Wo) : proc Wo :=
  mkProc w (p_locks p) (p_arena p) (p_live p) (p_files p).
Definition set_locks (p : proc Wo) (m : JvmVfsLocks) : proc Wo :=
  mkProc (p_orig p) m (p_arena p) (p_live p) (p_files p).
Definition set_arena (p : proc Wo) (a : ShmArena) : proc Wo :=
  mkProc (p_orig p) (p_locks p) a (p_live p) (p_files p).

Definition file_at (p : proc Wo) (f : Z) : JvmFile :=
  default (mkFile false 0 []) (p_files p !! f).
(** [REAL(f)], [NAME(f)], [CONN(f)] *)
Definition REAL (p : proc Wo) (f : Z) : Z := real (file_at p f).
Definition NAME (p : proc Wo) (f : Z) : string := string_of_bytes (cstr (zNameBuf (file_at p f))).
Definition CONN (f : Z) : Z := i32 f.

Definition jClose (p : proc Wo) (f : Z) : Z * proc Wo :=
  let '(rc, w) := oClose om (p_orig p) (REAL p f) in
  (rc, mkProc w (p_locks p) (p_arena p) (p_live p ∖ {[REAL p f]}) (p_files p)).
Definition jRead (p : proc Wo) (f n o : Z) : Z * list Z * proc Wo :=
  let '(rc, b, w) := oRead om (p_orig p) (REAL p f) n o in (rc, b, set_orig p w).
Definition jWrite (p : proc Wo) (f : Z) (b : list Z) (o : Z) : Z * proc Wo :=
  let '(rc, w) := oWrite om (p_orig p) (REAL p f) b o in (rc, set_orig p w).
Definition jTruncate (p : proc Wo) (f sz : Z) : Z * proc Wo :=
  let '(rc, w) := oTruncate om (p_orig p) (REAL p f) sz in (rc, set_orig p w).
Definition jSync (p : proc Wo) (f flags : Z) : Z * proc Wo :=
  let '(rc, w) := oSync om (p_orig p) (REAL p f) flags in (rc, set_orig p w).
Definition jFileSize (p : proc Wo) (f : Z) : Z * Z * proc Wo :=
  let '(rc, sz, w) := oFileSize om (p_orig p) (REAL p f) in (rc, sz, set_orig p w).
Definition jFileControl (p : proc Wo) (f op : Z) : Z * proc Wo :=
  match oFileControl om with
  | Some m => let '(rc, w) := m (p_orig p) (REAL p f) op in (rc, set_orig p w)
  | None => (SQLITE_NOTFOUND, p)
  end.
Definition jSectorSize (p : proc Wo) (f : Z) : Z :=
  match oSectorSize om with Some m => m (p_orig p) (REAL p f) | None => 4096 end.
Definition jDeviceChar (p : proc Wo) (f : Z) : Z :=
  match oDeviceChar om with Some m => m (p_orig p) (REAL p f) | None => 0 end.

Definition jLock (p : proc Wo) (f level : Z) : Z * proc Wo :=
  let '(rc, m) := vfs_lock (p_locks p) (CONN f) (NAME p f) level in (rc, set_locks p m).
Definition jUnlock (p : proc Wo) (f level : Z) : Z * proc Wo :=
  let '(rc, m) := vfs_unlock (p_locks p) (CONN f) (NAME p f) level in (rc, set_locks p m).
(** Returns the result code and [*pOut]. *)
Definition jCheckReserved (p : proc Wo) (f : Z) : Z * Z * proc Wo :=
  let '(r, m) := vfs_checkReserved (p_locks p) (CONN f) (NAME p f) in
  (SQLITE_OK, r, set_locks p m).

(** Returns the result code and [*pp]. *)
Definition jShmMap (p : proc Wo) (f iRegion szRegion bExtend : Z) : Z * Z * proc Wo :=
  let '(ptr, a) := arena_map (p_arena p) (NAME p f) iRegion szRegion bExtend in
  (if truthy ptr then SQLITE_OK
   else if truthy bExtend then SQLITE_IOERR_SHMMAP else SQLITE_OK, ptr, set_arena p a).
Definition jShmLock (p : proc Wo) (f offset n flags : Z) : option Z * proc Wo :=
  let '(rc, m) := vfs_shmLock (p_locks p) (CONN f) (NAME p f) offset n flags in
  (rc, set_locks p m).
(** The import [shm_unmap] releases the locks, then drops the regions. *)
Definition jShmUnmap (p : proc Wo) (f deleteFlag : Z) : Z * proc Wo :=
  let '(_, m) := vfs_shmUnmap (p_locks p) (CONN f) (NAME p f) in
  let p := set_locks p m in
  (SQLITE_OK, if truthy deleteFlag then set_arena p (dropFile (p_arena p) (NAME p f)) else p).

(** Returns the result code and [*pOut]. *)
Definition jOpen (p : proc Wo) (zName : option (list Z)) (pFile flags : Z) : Z * Z * proc Wo :=
  let blank := mkFile false 0 (replicate 1024 0) in
  let upd live w fl := mkProc w (p_locks p) (p_arena p) live (<[pFile := fl]> (p_files p)) in
  match malloc (p_live p) szOrigFile with
  | None => (SQLITE_NOMEM, 0, upd (p_live p) (p_orig p) blank)
  | Some r =>
      let '(rc, out, w) := oOpen om (p_orig p) zName r flags in
      if negb (rc =? SQLITE_OK) then
        (rc, out, upd (({[r]} ∪ p_live p) ∖ {[r]}) w (mkFile false r (replicate 1024 0)))
      else
        let buf := match zName with
                   | Some z => strncpy (replicate 1024 0) z 1023
                   | None => replicate 1024 0 end in
        (SQLITE_OK, out, upd ({[r]} ∪ p_live p) w (mkFile true r buf))
  end.

(** ** Interleavings *)

(** A call of any connection through the method table, with any argument. *)
Inductive io_call :=
| xOpen (zName : option (list Z)) (f flags : Z)
| xClose (f : Z)
| xRead (f n o : Z)
| xWrite (f : Z) (b : list Z) (o : Z)
| xTruncate (f sz : Z)
| xSync (f flags : Z)
| xFileSize (f : Z)
| xFileControl (f op : Z)
| xSectorSize (f : Z)
| xDeviceChar (f : Z)
| xLock (f level : Z)
| xUnlock (f level : Z)
| xCheckReserved (f : Z)
| xShmMap (f iRegion szRegion bExtend : Z)
| xShmLock (f offset n flags : Z)
| xShmBarrier (f : Z)
| xShmUnmap (f deleteFlag : Z).

Definition do_io_call p (c : io_call) : proc Wo :=
  match c with
  | xOpen z f flags => snd (jOpen p z f flags)
  | xClose f => snd (jClose p f)
  | xRead f n o => snd (jRead p f n o)
  | xWrite f b o => snd (jWrite p f b o)
  | xTruncate f sz => snd (jTruncate p f sz)
  | xSync f flags => snd (jSync p f flags)
  | xFileSize f => snd (jFileSize p f)
  | xFileControl f op => snd (jFileControl p f op)
  | xSectorSize _ | xDeviceChar _ | xShmBarrier _ => p
  | xLock f level => snd (jLock p f level)
  | xUnlock f level => snd (jUnlock p f level)
  | xCheckReserved f => snd (jCheckReserved p f)
  | xShmMap f i sz ext => snd (jShmMap p f i sz ext)
  | xShmLock f o n flags => snd (jShmLock p f o n flags)
  | xShmUnmap f del => snd (jShmUnmap p f del)
  end.
Definition do_io_calls p (cs : list io_call) : proc Wo := foldl do_io_call p cs.

(** Do the calls, made one after the other, keep the rule of the file locks
    ([lock_rule], [unlock_rule])?  All other calls are free. *)
Definition in_rule p (c : io_call) : bool :=
  match c with
  | xLock f level => lock_rule (fileState (p_locks p) (NAME p f)) (CONN f) level
  | xUnlock f level => unlock_rule (fileState (p_locks p) (NAME p f)) (CONN f) level
  | _ => true
  end.
Fixpoint by_rule p (cs : list io_call) : bool :=
  match cs with
  | [] => true
  | c :: cs => in_rule p c && by_rule (do_io_call p c) cs
  end.

(** The lock manager is sound for every file name. *)
Definition files_ok (m : JvmVfsLocks) : Prop := forall name, file_ok (fileState m name).
Definition shms_ok (m : JvmVfsLocks) : Prop := forall name, shm_ok (shmState m name).

Lemma fileState_insert m name st n :
  fileState (mkLocks (<[name := st]> (files m)) (shms m)) n =
  if decide (name = n) then st else fileState m n.
Proof. unfold fileState. cbn [files]. rewrite lookup_insert. by case_decide. Qed.
Lemma shmState_insert m name st n :
  shmState (mkLocks (files m) (<[name := st]> (shms m))) n =
  if decide (name = n) then st else shmState m n.
Proof. unfold shmState. cbn [shms]. rewrite lookup_insert. by case_decide. Qed.

Lemma files_ok_insert m name st : files_ok m -> file_ok st ->
  files_ok (mkLocks (<[name := st]> (files m)) (shms m)).
Proof. intros Hm Hst n. rewrite fileState_insert. by case_decide. Qed.
Lemma shms_ok_insert m name st : shms_ok m -> shm_ok st ->
  shms_ok (mkLocks (files m) (<[name := st]> (shms m))).
Proof. intros Hm Hst n. rewrite shmState_insert. by case_decide. Qed.

(** Only the five calls on locks change the lock manager. *)
Lemma do_io_call_locks p c :
  p_locks (do_io_call p c) =
  match c with
  | xLock f level => snd (vfs_lock (p_locks p) (CONN f) (NAME p f) level)
  | xUnlock f level => snd (vfs_unlock (p_locks p) (CONN f) (NAME p f) level)
  | xCheckReserved f => snd (vfs_checkReserved (p_locks p) (CONN f) (NAME p f))
  | xShmLock f o n flags => snd (vfs_shmLock (p_locks p) (CONN f) (NAME p f) o n flags)
  | xShmUnmap f _ => snd (vfs_shmUnmap (p_locks p) (CONN f) (NAME p f))
  | _ => p_locks p
  end.
Proof.
  destruct c as [z f flags|f|f n o|f b o|f sz|f flags|f|f op|f|f|f level|f level|f|f i sz ext
    |f o n flags|f|f del]; cbn [do_io_call]; try done.
  - unfold jOpen. destruct (malloc _ _); [|done]. destruct (oOpen _ _ _ _ _) as [[]].
    by destruct (negb _).
  - unfold jClose. by destruct (oClose _ _ _).
  - unfold jRead. by destruct (oRead _ _ _ _ _) as [[]].
  - unfold jWrite. by destruct (oWrite _ _ _ _ _).
  - unfold jTruncate. by destruct (oTruncate _ _ _ _).
  - unfold jSync. by destruct (oSync _ _ _ _).
  - unfold jFileSize. by destruct (oFileSize _ _ _) as [[]].
  - unfold jFileControl. destruct (oFileControl _) as [m|]; [|done]. by destruct (m _ _ _).
  - unfold jLock. by destruct (vfs_lock _ _ _ _).
  - unfold jUnlock. by destruct (vfs_unlock _ _ _ _).
  - unfold jShmMap. by destruct (arena_map _ _ _ _ _).
  - unfold jShmLock. by destruct (vfs_shmLock _ _ _ _ _ _).
  - unfold jShmUnmap. destruct (vfs_shmUnmap _ _ _). by destruct (truthy del).
Qed.

Lemma vfs_lock_files m conn name t : files_ok m ->
  lock_rule (fileState m name) conn t = true -> files_ok (snd (vfs_lock m conn name t)).
Proof.
  intros Hm Ht. unfold vfs_lock. pose proof (lock_file_ok _ _ _ (Hm name) Ht) as H.
  destruct (lock _ _ _). by apply files_ok_insert.
Qed.
Lemma vfs_unlock_files m conn name t : files_ok m ->
  unlock_rule (fileState m name) conn t = true -> files_ok (snd (vfs_unlock m conn name t)).
Proof.
  intros Hm Ht. unfold vfs_unlock. pose proof (unlock_file_ok _ _ _ (Hm name) Ht) as H.
  destruct (unlock _ _ _). by apply files_ok_insert.
Qed.
Lemma vfs_shmLock_shms m conn name o n flags : shms_ok m ->
  shms_ok (snd (vfs_shmLock m conn name o n flags)).
Proof.
  intros Hm. unfold vfs_shmLock.
  pose proof (shm_step_ok _ _ (step_shmLock (shmState m name) conn o n flags) (Hm name)) as H.
  destruct (shmLock _ _ _ _ _). by apply shms_ok_insert.
Qed.
Lemma vfs_shmUnmap_shms m conn name : shms_ok m -> shms_ok (snd (vfs_shmUnmap m conn name)).
Proof.
  intros Hm. unfold vfs_shmUnmap.
  pose proof (shm_step_ok _ _ (step_shmUnmap (shmState m name) conn) (Hm name)) as H.
  destruct (shmUnmap _ _). by apply shms_ok_insert.
Qed.

(** Wal-index locks stay sound under every call, file locks under the rule. *)
Lemma do_io_call_shms p c : shms_ok (p_locks p) -> shms_ok (p_locks (do_io_call p c)).
Proof.
  intros Hm. rewrite do_io_call_locks.
  destruct c; [done..| | |done|done| |done|by apply vfs_shmUnmap_shms].
  - unfold vfs_lock. by destruct (lock _ _ _).
  - unfold vfs_unlock. by destruct (unlock _ _ _).
  - by apply vfs_shmLock_shms.
Qed.
Lemma do_io_call_files p c : in_rule p c = true ->
  files_ok (p_locks p) -> files_ok (p_locks (do_io_call p c)).
Proof.
  intros Hr Hm. rewrite do_io_call_locks.
  destruct c; [done..|by apply vfs_lock_files|by apply vfs_unlock_files| |done| |done|].
  - apply files_ok_insert; [done|apply Hm].
  - unfold vfs_shmLock. by destruct (shmLock _ _ _ _ _).
  - unfold vfs_shmUnmap. by destruct (shmUnmap _ _).
Qed.

Lemma do_io_calls_shms cs p : shms_ok (p_locks p) -> shms_ok (p_locks (do_io_calls p cs)).
Proof.
  revert p. induction cs as [|c cs IH]; intros p Hm; [done|]. by apply IH, do_io_call_shms.
Qed.
Lemma do_io_calls_files cs p : by_rule p cs = true ->
  files_ok (p_locks p) -> files_ok (p_locks (do_io_calls p cs)).
Proof.
  revert p. induction cs as [|c cs IH]; intros p Hr Hm; [done|].
  apply andb_true_iff in Hr as [Hc Hr]. apply IH; [done|]. by apply do_io_call_files.
Qed.

Lemma no_locks_ok : files_ok (mkLocks ∅ ∅) /\ shms_ok (mkLocks ∅ ∅).
Proof. split; intros n; [apply file_ok_empty|apply shm_init_ok]. Qed.

Lemma live_add_remove (X : gset Z) r : r ∉ X -> ({[r]} ∪ X) ∖ {[r]} = X.
Proof. intros. set_solver. Qed.

Lemma strncpy_blank z : cstr (strncpy (replicate 1024 0) z 1023) = take 1023 (cstr z).
Proof. by apply (cstr_strncpy _ z 1023 []). Qed.

(** ** Properties *)

(** C29. Opening and closing are balanced.  When [xOpen] of the delegate or the
    allocation fails, [jOpen] returns that error, leaves [pMethods] null (so the
    core never calls [xClose]) and no block stays allocated; when it succeeds the
    file is open, exactly one new block is live, the lock key is the first 1023
    bytes of the name, and [jClose] frees that block and returns the delegate's
    code.  Neither touches the lock manager or the arena. *)
Theorem jOpen_jClose_balanced p zName f flags :
  (forall live n r, malloc live n = Some r -> r ∉ live) ->
  let '(rc, _, p') := jOpen p zName f flags in
  p_locks p' = p_locks p /\ p_arena p' = p_arena p /\
  (rc <> SQLITE_OK -> opened (file_at p' f) = false /\ p_live p' = p_live p) /\
  (rc = SQLITE_OK -> opened (file_at p' f) = true /\
     cstr (zNameBuf (file_at p' f)) =
       match zName with Some z => take 1023 (cstr z) | None => [] end /\
     (REAL p' f ∉ p_live p) /\ p_live p' = {[REAL p' f]} ∪ p_live p /\
     p_live (snd (jClose p' f)) = p_live p /\
     fst (jClose p' f) = fst (oClose om (p_orig p') (REAL p' f)) /\
     p_locks (snd (jClose p' f)) = p_locks p).
Proof.
  intros Hm. unfold jOpen. destruct (malloc (p_live p) szOrigFile) as [r|] eqn:Er.
  - pose proof (Hm _ _ _ Er) as Hr. destruct (oOpen om (p_orig p) zName r flags) as [[rc out] w].
    destruct (Z.eqb_spec rc SQLITE_OK) as [->|Hrc]; cbn [negb];
      unfold jClose, REAL, file_at; cbn [p_locks p_arena p_live p_files p_orig];
      rewrite lookup_insert_eq; cbn [default from_option id opened real zNameBuf].
    + split; [done|]. split; [done|]. split; [done|]. intros _.
      destruct (oClose om w r) as [rc' w']. cbn [fst snd p_live p_locks]. split; [done|].
      split; [destruct zName as [z|]; [apply strncpy_blank|done]|].
      split; [done|]. split; [done|]. split; [by apply live_add_remove|done].
    + split; [done|]. split; [done|]. split; [|congruence]. intros _. split; [done|]. by apply live_add_remove.
  - unfold file_at. cbn [p_locks p_arena p_live p_files]. rewrite lookup_insert_eq. done.
Qed.

(** C4. Through the custom VFS, starting without locks, after any list of opens,
    closes, I/O, lock, unlock and wal-index calls with any arguments by any number
    of connections: a wal-index slot held exclusively is shared by nobody else.
    And if the [xLock] and [xUnlock] calls among them keep the rule (no [xLock] to
    PENDING from below RESERVED, no [xUnlock] to a level above the one held or
    other than NONE and SHARED, which the pager asserts), then two different
    connections to one file name never hold incompatible file locks: beside an
    EXCLUSIVE lock there is no other, and at most one connection is at RESERVED
    or above.  Both clauses of the rule are needed, and sqlite3.h imposes neither:
    [pending_beside_reserved], [unlock_can_acquire]. *)
Theorem jvm_vfs_excludes p0 cs name c1 c2 :
  p_locks p0 = mkLocks ∅ ∅ ->
  let m := p_locks (do_io_calls p0 cs) in
  (forall s, (excl (shmState m name)).[s] <> -1 -> c1 ∈ (shared (shmState m name)).[s] ->
     c1 = (excl (shmState m name)).[s]) /\
  (by_rule p0 cs = true -> c1 <> c2 ->
     forall l1 l2, fileState m name !! c1 = Some l1 -> fileState m name !! c2 = Some l2 ->
       compatible l1 l2).
Proof.
  intros H0 m. destruct no_locks_ok as [Hf Hs]. rewrite <- H0 in Hf, Hs. split.
  - intros s He Hc. destruct (do_io_calls_shms cs _ Hs name) as [_ H]. specialize (H s He).
    cbn in H. unfold m. set_solver.
  - intros Hr Hne l1 l2 H1 H2.
    exact (fo_compat _ (do_io_calls_files cs _ Hr Hf name) _ _ _ _ H1 H2 Hne).
Qed.
End methods.

(** A delegate that accepts everything, to run the wrapper on. *)
Definition null_methods : orig_methods Z :=
  mkOrig Z (fun w _ _ _ => (SQLITE_OK, 0, w)) (fun w _ => (SQLITE_OK, w))
    (fun w _ n _ => (SQLITE_OK, replicate (Z.to_nat n) 0, w)) (fun w _ _ _ => (SQLITE_OK, w))
    (fun w _ _ => (SQLITE_OK, w)) (fun w _ _ => (SQLITE_OK, w)) (fun w _ => (SQLITE_OK, 0, w))
    None None None.
Definition bump_malloc (live : gset Z) (n : Z) : option Z :=
  Some (1 + foldr Z.max 0 (elements live)).
Definition null_proc : proc Z :=
  mkProc 0 (mkLocks ∅ ∅) (mkArena 4096 0 ∅ (fun _ => 0)) ∅ ∅.

Lemma bump_malloc_fresh live n r : bump_malloc live n = Some r -> r ∉ live.
Proof.
  intros [= <-] Hin. assert (forall l x, x ∈ l -> x <= foldr Z.max 0 l) as Hmax.
  { induction l as [|y l IH]; intros x; [by intros ?%elem_of_nil|].
    intros [->|H]%elem_of_cons; cbn; [lia|]. specialize (IH _ H). lia. }
  specialize (Hmax (elements live) _ (proj2 (elem_of_elements _ _) Hin)). lia.
Qed.

Lemma jOpen_jClose_balanced_witness :
  let '(rc, _, p') := jOpen null_methods bump_malloc 64 null_proc (Some [97; 46; 100]) 500 6 in
  rc = SQLITE_OK -> p_live (snd (jClose null_methods p' 500)) = p_live null_proc.
Proof.
  pose proof (jOpen_jClose_balanced null_methods bump_malloc 64 null_proc (Some [97; 46; 100])
    500 6 bump_malloc_fresh) as H.
  destruct (jOpen _ _ _ _ _ _ _) as [[rc o] p']. intros Hrc. by apply H.
Defined.

(** Two connections to one file become readers; the first reserves and goes on to PENDING,
    is refused EXCLUSIVE while the second reads, and takes a slot of the wal-index, which
    the second is refused. *)
Definition two_clients : list io_call :=
  let name := Some [97; 46; 100; 98] in
  [xOpen name 100 6; xOpen name 200 6; xLock 100 SHARED; xLock 200 SHARED;
   xLock 100 RESERVED; xLock 200 RESERVED; xLock 100 PENDING; xLock 100 EXCLUSIVE;
   xShmLock 100 0 1 (SHM_LOCK + SHM_EXCLUSIVE); xShmLock 200 0 1 (SHM_LOCK + SHM_SHARED)].
Definition after_two_clients : JvmVfsLocks :=
  p_locks (do_io_calls null_methods bump_malloc 64 null_proc two_clients).

Lemma jvm_vfs_excludes_witness :
  fileState after_two_clients "a.db" !! 100 = Some PENDING /\
  fileState after_two_clients "a.db" !! 200 = Some SHARED /\
  (excl (shmState after_two_clients "a.db")).[0] = 100 /\
  compatible PENDING SHARED.
Proof.
  split; [by_compute|]. split; [by_compute|]. split; [by_compute|].
  refine (proj2 (jvm_vfs_excludes null_methods bump_malloc 64 null_proc two_clients "a.db"
    100 200 _) _ _ PENDING SHARED _ _).
  - reflexivity.
  - by_compute.
  - discriminate.
  - by_compute.
  - by_compute.
Defined.
