(* ===== verification/ConnWorker.v ===== *)
(** Connection workers (extras/conn_worker.c): a thread inside the module owns a
    database connection and serves SQL submitted through a channel in shared
    memory; the threads synchronise with atomic loads and stores and the
    [memory.atomic.wait32] / [memory.atomic.notify] instructions.

    The database is abstract: a state type [DB] with the functions of the SQLite
    API the workers call.  Each thread is a deterministic program with an explicit
    program counter; one step performs one access to shared memory.  [step2]
    interleaves the worker of the two-address protocol with the client
    [SqliteWalPool.submitOnce]; [step1] does the same for the one-word protocol of
    [worker_main], [ch_request], [ch_await] and [ch_stop]. *)

From S2P Require Import Prelude.

(** ** atoll *)

Definition is_space (c : Z) : bool := (c =? 32) || ((9 <=? c) && (c <=? 13)).
Definition is_digit (c : Z) : bool := (48 <=? c) && (c <=? 57).

Fixpoint skip_space (s : list Z) : list Z :=
  match s with
  | c :: s' => if is_space c then skip_space s' else s
  | [] => []
  end.
(** The digits are accumulated in a [long long]. *)
Fixpoint atoll_digits (n : Z) (s : list Z) : Z :=
  match s with
  | c :: s' => if is_digit c then atoll_digits (i64 (10 * n + (c - 48))) s' else n
  | [] => n
  end.
Definition atoll (s : list Z) : Z :=
  match skip_space s with
  | c :: s' => if c =? 45 then i64 (- atoll_digits 0 s')
               else if c =? 43 then atoll_digits 0 s'
               else atoll_digits 0 (c :: s')
  | [] => 0
  end.

(** One result row as [sqlite3_exec] hands it to its callback: the text of each
    column, [None] for NULL. *)
Definition row : Type := list (option (list Z)).

(** ** Channels *)

(** [channel_t]: state 0 = idle, 1 = request, 2 = done, 3 = stop *)
Record channel_t := mkCh {
  c_state : Z; c_rc : Z; c_result : Z; c_sql : list Z; c_dbpath : list Z }.

(** [bchannel_t] *)
Record bchannel_t := mkBch {
  b_req : Z; b_done : Z; b_rc : Z; b_got : Z; b_result : Z;
  b_sql : list Z; b_dbpath : list Z; b_restext : list Z }.

Definition row_cb (ch : channel_t) (vals : row) : channel_t :=
  match vals with
  | Some v :: _ => mkCh (c_state ch) (c_rc ch) (atoll v) (c_sql ch) (c_dbpath ch)
  | _ => ch
  end.

Definition row_cb2 (c : bchannel_t) (vals : row) : bchannel_t :=
  match vals with
  | Some v :: _ =>
      if truthy (b_got c) then c else
      let t := strncpy (b_restext c) v 2047 in
      mkBch (b_req c) (b_done c) (b_rc c) 1 (atoll v) (b_sql c) (b_dbpath c) (t.[2047 <- 0])
  | _ => c
  end.

(** ** Opening the connection *)

Section opening.
(** The connection, and what the prologues use of the SQLite API.  [sqlite3_exec]
    returns the result code, the rows passed to the callback (which always
    returns 0, so none is skipped) and the new state. *)
Context {DB : Type}.
Context (sqlite3_open : list Z -> DB).
Context (sqlite3_exec : DB -> list Z -> Z * list row * DB).
Context (sqlite3_busy_timeout : DB -> Z -> DB).
Context (memory_name pragma_wal : list Z).

Definition open_wal (path : list Z) : DB :=
  let db := sqlite3_open path in
  let '(_, _, db) := sqlite3_exec db pragma_wal in
  sqlite3_busy_timeout db 5000.

(** The prologues of [worker_main], [worker_blocking_main], [worker_2addr_main] and
    [worker_file_2addr_main]. *)
Definition worker_main_open (ch : channel_t) : DB :=
  match c_dbpath ch with
  | b :: _ => if truthy b then open_wal (cstr (c_dbpath ch)) else sqlite3_open memory_name
  | [] => sqlite3_open memory_name
  end.
Definition worker_blocking_open : DB := sqlite3_open memory_name.
Definition worker_2addr_open : DB := sqlite3_open memory_name.
Definition worker_file_2addr_open (c : bchannel_t) : DB := open_wal (cstr (b_dbpath c)).

End opening.

(** The [start_*] exports: initialise the channel; [pthread_create] comes after. *)
Definition start_worker (ch : channel_t) : channel_t :=
  mkCh 0 (c_rc ch) (c_result ch) (c_sql ch) ((c_dbpath ch).[0 <- 0]).
Definition start_worker_file (ch : channel_t) (path : list Z) : channel_t :=
  mkCh 0 (c_rc ch) (c_result ch) (c_sql ch) ((strncpy (c_dbpath ch) path 511).[511 <- 0]).
Definition start_worker_blocking (ch : channel_t) : channel_t := start_worker ch.
Definition start_worker_2addr (c : bchannel_t) : bchannel_t :=
  mkBch 0 0 (b_rc c) (b_got c) (b_result c) (b_sql c) (b_dbpath c) (b_restext c).
Definition start_worker_file_2addr (c : bchannel_t) (path : list Z) : bchannel_t :=
  mkBch 0 0 (b_rc c) (b_got c) (b_result c) (b_sql c)
    ((strncpy (b_dbpath c) path 511).[511 <- 0]) (b_restext c).

Section workers.
(** The connection and [sqlite3_exec], as above. *)
Context {DB : Type}.
Context (sqlite3_exec : DB -> list Z -> Z * list row * DB).

(** *** Serving one request *)

(** [ch->result = 0; ch->rc = sqlite3_exec(db, ch->sql, row_cb, ch, 0)] *)
Definition serve1 (ch : channel_t) (db : DB) : channel_t * DB :=
  let ch := mkCh (c_state ch) (c_rc ch) 0 (c_sql ch) (c_dbpath ch) in
  let '(rc, rows, db) := sqlite3_exec db (cstr (c_sql ch)) in
  let ch := foldl row_cb ch rows in
  (mkCh (c_state ch) rc (c_result ch) (c_sql ch) (c_dbpath ch), db).

(** [c->result = 0; c->got = 0; c->restext[0] = 0; c->rc = sqlite3_exec(...)] *)
Definition serve2 (c : bchannel_t) (db : DB) : bchannel_t * DB :=
  let c := mkBch (b_req c) (b_done c) (b_rc c) 0 0 (b_sql c) (b_dbpath c)
             ((b_restext c).[0 <- 0]) in
  let '(rc, rows, db) := sqlite3_exec db (cstr (b_sql c)) in
  let c := foldl row_cb2 c rows in
  (mkBch (b_req c) (b_done c) rc (b_got c) (b_result c) (b_sql c) (b_dbpath c) (b_restext c), db).

(** *** The two-address protocol *)

(** Where the worker [worker_2addr_main] / [worker_file_2addr_main] is: about to
    load [req]; about to wait for a change of [req] from [r]; parked in that wait;
    about to store 0 into [req]; about to run the statement; about to publish
    [done]; about to notify; returned. *)
Inductive wpc2 :=
| WLoad | WWait (r : Z) | WParked | WTake | WExec | WDone | WNotify | WExit.

(** Where the client [submitOnce] is: outside; about to store 1 into [req] (the
    SQL is in place, [prev] is the value of [done] it read); about to notify;
    about to test [done]; about to wait; parked; about to read the reply; and the
    same for [close]: about to store 3, about to notify, closed. *)
Inductive dpc2 :=
| DIdle | DPost (prev : Z) | DPosted (prev : Z) | DCheck (prev : Z) | DWait (prev : Z)
| DParked (prev : Z) | DRead | DStop | DStopped | DClosed.

#[export] Instance dpc2_eq_dec : EqDecision dpc2.
Proof. solve_decision. Defined.

(** A reply: result code, captured integer, captured text. *)
Definition reply : Type := Z * Z * list Z.

(** [s_hist]: the requests completed so far with their replies. *)
Record sys2 := mkSys {
  s_ch : bchannel_t; s_db : DB; s_w : wpc2; s_d : dpc2; s_hist : list (list Z * reply) }.

Definition set_req (c : bchannel_t) (v : Z) : bchannel_t :=
  mkBch v (b_done c) (b_rc c) (b_got c) (b_result c) (b_sql c) (b_dbpath c) (b_restext c).
Definition set_done (c : bchannel_t) (v : Z) : bchannel_t :=
  mkBch (b_req c) v (b_rc c) (b_got c) (b_result c) (b_sql c) (b_dbpath c) (b_restext c).
Definition set_sql (c : bchannel_t) (sql : list Z) : bchannel_t :=
  mkBch (b_req c) (b_done c) (b_rc c) (b_got c) (b_result c) (splice (b_sql c) 0 (sql ++ [0]))
    (b_dbpath c) (b_restext c).

(** [notify(&done, 1)]: the only thread that waits on [done] is the client. *)
Definition wake_client (d : dpc2) : dpc2 :=
  match d with DParked prev => DCheck prev | _ => d end.
(** [notify(&req, 1)]: the only thread that waits on [req] is the worker. *)
Definition wake_worker (w : wpc2) : wpc2 :=
  match w with WParked => WLoad | _ => w end.

(** One step of the worker; [None] when it is parked or has returned. *)
Definition worker_2addr_step (s : sys2) : option sys2 :=
  let 'mkSys c db w d h := s in
  match w with
  | WLoad => let r := b_req c in
             if r =? 1 then Some (mkSys c db WTake d h)
             else if r =? 3 then Some (mkSys c db WExit d h)
             else Some (mkSys c db (WWait r) d h)
  | WWait r => if b_req c =? r then Some (mkSys c db WParked d h)
               else Some (mkSys c db WLoad d h)
  | WTake => Some (mkSys (set_req c 0) db WExec d h)
  | WExec => let '(c, db) := serve2 c db in Some (mkSys c db WDone d h)
  | WDone => Some (mkSys (set_done c (i32 (b_done c + 1))) db WNotify d h)
  | WNotify => Some (mkSys c db WLoad (wake_client d) h)
  | WParked | WExit => None
  end.

(** One step of a client that has begun [submitOnce] or [close]; [None] when it is
    outside, parked or closed. *)
Definition client_step (s : sys2) : option sys2 :=
  let 'mkSys c db w d h := s in
  match d with
  | DPost prev => Some (mkSys (set_req c 1) db w (DPosted prev) h)
  | DPosted prev => Some (mkSys c db (wake_worker w) (DCheck prev) h)
  | DCheck prev => if b_done c =? prev then Some (mkSys c db w (DWait prev) h)
                   else Some (mkSys c db w DRead h)
  | DWait prev => if b_done c =? prev then Some (mkSys c db w (DParked prev) h)
                  else Some (mkSys c db w (DCheck prev) h)
  | DRead => Some (mkSys c db w DIdle
               (h ++ [(cstr (b_sql c), (b_rc c, b_result c, cstr (b_restext c)))]))
  | DStop => Some (mkSys (set_req c 3) db w DStopped h)
  | DStopped => Some (mkSys c db (wake_worker w) DClosed h)
  | DIdle | DParked _ | DClosed => None
  end.

(** The client begins a call: it writes the SQL and reads [done]. *)
Definition submit_begin (s : sys2) (sql : list Z) : sys2 :=
  mkSys (set_sql (s_ch s) sql) (s_db s) (s_w s) (DPost (b_done (s_ch s))) (s_hist s).
Definition close_begin (s : sys2) : sys2 :=
  mkSys (s_ch s) (s_db s) (s_w s) DStop (s_hist s).

(** Both threads make progress independently. *)
Inductive run2 : sys2 -> sys2 -> Prop :=
| run_worker s s' : worker_2addr_step s = Some s' -> run2 s s'
| run_client s s' : client_step s = Some s' -> run2 s s'.

(** SQL text without NUL that fits the buffer with its terminator. *)
Definition sql_fits (sql : list Z) : Prop :=
  Forall (fun b => b <> 0) sql /\ zlen sql < 4072.

Inductive step2 : sys2 -> sys2 -> Prop :=
| step_run s s' : run2 s s' -> step2 s s'
| step_submit s sql : s_d s = DIdle -> sql_fits sql -> step2 s (submit_begin s sql)
| step_close s : s_d s = DIdle -> step2 s (close_begin s).

(** A schedule: [true] lets the worker take its next step, [false] the client; a
    thread that cannot move is passed over. *)
Fixpoint run_sched (sched : list bool) (s : sys2) : sys2 :=
  match sched with
  | [] => s
  | b :: sched =>
      run_sched sched (default s (if b then worker_2addr_step s else client_step s))
  end.

Lemma run_sched_reach sched s : rtc step2 s (run_sched sched s).
Proof.
  revert s. induction sched as [|b sched IH]; intros s; cbn; [apply rtc_refl|].
  destruct b.
  - destruct (worker_2addr_step s) as [s'|] eqn:E; cbn; [|apply IH].
    eapply rtc_l; [by apply step_run, run_worker|apply IH].
  - destruct (client_step s) as [s'|] eqn:E; cbn; [|apply IH].
    eapply rtc_l; [by apply step_run, run_client|apply IH].
Qed.

(** *** Sequential specification *)

(** The value captured from the rows: the first non-NULL first column. *)
Fixpoint capture (rows : list row) : option (list Z) :=
  match rows with
  | [] => None
  | (Some v :: _) :: _ => Some v
  | _ :: rows' => capture rows'
  end.
Definition reply_of (rc : Z) (rows : list row) : reply :=
  match capture rows with
  | Some v => (rc, atoll v, take 2047 (cstr v))
  | None => (rc, 0, [])
  end.
(** One request, executed at once. *)
Definition exec_spec (db : DB) (sql : list Z) : reply * DB :=
  let '(rc, rows, db') := sqlite3_exec db sql in (reply_of rc rows, db').
Fixpoint replay (db : DB) (sqls : list (list Z)) : list reply * DB :=
  match sqls with
  | [] => ([], db)
  | sql :: sqls' => let '(r, db1) := exec_spec db sql in
                    let '(rs, db2) := replay db1 sqls' in (r :: rs, db2)
  end.

Lemma replay_snoc db sqls sql : replay db (sqls ++ [sql]) =
  let '(rs, db1) := replay db sqls in
  let '(r, db2) := exec_spec db1 sql in (rs ++ [r], db2).
Proof.
  revert db; induction sqls as [|x sqls IH]; intros db; cbn [app replay].
  - by destruct (exec_spec db sql).
  - destruct (exec_spec db x) as [r1 db1]. rewrite IH.
    destruct (replay db1 sqls) as [rs db2]. by destruct (exec_spec db2 sql).
Qed.

(** *** What one served request leaves in the channel *)

Lemma foldl_got c rows : truthy (b_got c) = true -> foldl row_cb2 c rows = c.
Proof.
  intros Hg. induction rows as [|r rows IH]; cbn; [done|].
  assert (row_cb2 c r = c) as ->; [|done]. unfold row_cb2.
  destruct r as [|[v|] r]; [done| |done]. by rewrite Hg.
Qed.

Definition shape (c : bchannel_t) : Prop :=
  zlen (b_sql c) = 4072 /\ zlen (b_restext c) = 2048.
Definition same_link (c c' : bchannel_t) : Prop :=
  b_req c' = b_req c /\ b_done c' = b_done c /\ b_sql c' = b_sql c /\ b_dbpath c' = b_dbpath c.

Lemma cstr_head_0 (l : list Z) : 0 < zlen l -> cstr (l.[0 <- 0]) = [].
Proof. intros H. destruct l; [unfold zlen in H; cbn in H; lia|done]. Qed.

Lemma capture_restext (t v : list Z) : zlen t = 2048 ->
  cstr ((strncpy t v 2047).[2047 <- 0]) = take 2047 (cstr v) /\
  zlen ((strncpy t v 2047).[2047 <- 0]) = 2048.
Proof.
  intros Ht. rewrite zlen_zput, zlen_strncpy by lia. split; [|done].
  destruct (drop 2047 t) as [|x r] eqn:Ed.
  { apply (f_equal length) in Ed. rewrite length_drop in Ed. unfold zlen in Ht. cbn in Ed. lia. }
  assert (E : (strncpy t v 2047).[2047 <- 0] = strncpy (take 2047 t ++ 0 :: r) v 2047).
  { unfold strncpy. change (Z.to_nat 2047) with 2047%nat.
    assert (Hl : length (take 2047 t) = 2047%nat) by (rewrite length_take; unfold zlen in Ht; lia).
    rewrite drop_app_length' by done. rewrite Ed, zput_app_r.
    2: { unfold zlen. rewrite length_take, length_app, length_replicate. lia. }
    f_equal. unfold zlen. rewrite length_take, length_app, length_replicate.
    replace (2047 - _) with 0 by lia. done. }
  rewrite E. apply (cstr_strncpy _ v 2047 r). change (Z.to_nat 2047) with 2047%nat.
  rewrite drop_app_length'; [done|]. rewrite length_take. unfold zlen in Ht. lia.
Qed.

Lemma fold_rows c rows : b_got c = 0 -> b_result c = 0 -> cstr (b_restext c) = [] -> shape c ->
  let c' := foldl row_cb2 c rows in
  same_link c c' /\ shape c' /\
  (b_result c', cstr (b_restext c')) =
    match capture rows with Some v => (atoll v, take 2047 (cstr v)) | None => (0, []) end.
Proof.
  intros Hg Hr Ht Hs. induction rows as [|r rows IH]; cbn [foldl capture].
  - by rewrite Hr, Ht.
  - destruct r as [|[v|] r]; cbn [row_cb2]; [exact IH| |exact IH].
    rewrite Hg. cbn [truthy Z.eqb negb]. rewrite foldl_got by done.
    destruct Hs as [Hs1 Hs2]. destruct (capture_restext (b_restext c) v Hs2) as [H1 H2].
    unfold same_link, shape. cbn [b_req b_done b_sql b_dbpath b_restext b_result].
    by rewrite H1.
Qed.

Lemma serve2_spec c db : shape c ->
  let '(c', db') := serve2 c db in
  same_link c c' /\ shape c' /\
  exec_spec db (cstr (b_sql c)) = ((b_rc c', b_result c', cstr (b_restext c')), db').
Proof.
  intros [H1 H2]. unfold serve2, exec_spec. cbn [b_sql].
  destruct (sqlite3_exec db (cstr (b_sql c))) as [[rc rows] db'].
  set (c0 := mkBch _ _ _ 0 0 _ _ _).
  destruct (fold_rows c0 rows) as (Hl & Hs & Hv); [done|done| | |].
  - cbn [c0 b_restext]. apply cstr_head_0. lia.
  - split; cbn [c0 b_restext b_sql]; [done|]. by rewrite zlen_zput.
  - split; [exact Hl|]. split; [exact Hs|]. cbn [b_rc b_result b_restext]. unfold reply_of.
    destruct (capture rows); injection Hv as -> ->; done.
Qed.

(** *** The invariant *)

Definition quiet (w : wpc2) : Prop := w = WLoad \/ w = WWait 0 \/ w = WParked \/ w = WNotify.

(** The request is posted and not consumed / consumed and running / answered. *)
Definition posted (c : bchannel_t) (w : wpc2) (prev : Z) : Prop :=
  b_req c = 1 /\ b_done c = prev /\ (w = WLoad \/ w = WWait 0 \/ w = WNotify \/ w = WTake).
Definition running (c : bchannel_t) (w : wpc2) (prev : Z) : Prop :=
  b_req c = 0 /\ b_done c = prev /\ (w = WExec \/ w = WDone).
Definition answered (c : bchannel_t) (w : wpc2) (prev : Z) : Prop :=
  b_req c = 0 /\ b_done c = i32 (prev + 1) /\ quiet w.

Definition link_ok (c : bchannel_t) (w : wpc2) (d : dpc2) : Prop :=
  match d with
  | DIdle | DRead | DStop => b_req c = 0 /\ quiet w
  | DPost prev => b_req c = 0 /\ quiet w /\ b_done c = prev
  | DPosted prev => posted c w prev \/ (b_req c = 1 /\ b_done c = prev /\ w = WParked) \/
      running c w prev \/ answered c w prev
  | DCheck prev | DWait prev => posted c w prev \/ running c w prev \/ answered c w prev
  | DParked prev => posted c w prev \/ running c w prev \/ (answered c w prev /\ w = WNotify)
  | DStopped => b_req c = 3 /\ (quiet w \/ w = WExit)
  | DClosed => b_req c = 3 /\ (w = WLoad \/ w = WWait 0 \/ w = WNotify \/ w = WExit)
  end.

(** The statement has been executed and its reply is in the channel. *)
Definition executed (c : bchannel_t) (w : wpc2) (d : dpc2) : bool :=
  match d with
  | DRead => true
  | DPosted prev | DCheck prev | DWait prev | DParked prev =>
      match w with WDone => true | _ => negb (b_done c =? prev) end
  | _ => false
  end.

Definition chan_reply (c : bchannel_t) : reply := (b_rc c, b_result c, cstr (b_restext c)).

Record inv2 (db0 : DB) (s : sys2) : Prop := {
  i_shape : shape (s_ch s);
  i_done : is_i32 (b_done (s_ch s));
  i_link : link_ok (s_ch s) (s_w s) (s_d s);
  i_hist : exists dbh, replay db0 (map fst (s_hist s)) = (map snd (s_hist s), dbh) /\
    if executed (s_ch s) (s_w s) (s_d s)
    then exec_spec dbh (cstr (b_sql (s_ch s))) = (chan_reply (s_ch s), s_db s)
    else s_db s = dbh }.

Lemma i32_succ_ne z : is_i32 z -> i32 (z + 1) <> z.
Proof. unfold is_i32, i32. intros. Z.div_mod_to_equations. lia. Qed.
Lemma i32_range z : is_i32 (i32 z).
Proof. unfold is_i32, i32. Z.div_mod_to_equations. lia. Qed.

Ltac break_link :=
  repeat match goal with
  | H : _ \/ _ |- _ => destruct H
  | H : _ /\ _ |- _ => destruct H
  end.

Ltac link_defs := unfold posted, running, answered, quiet in *.
(** Split a link hypothesis, drop the impossible cases, rebuild the invariant. *)
Ltac link_cases d Hl He :=
  destruct d; cbn in Hl, He; link_defs; break_link; try discriminate; try congruence.
Ltac link_done := split; cbn; link_defs; eauto 12.

Lemma worker_step_inv db0 s s' :
  worker_2addr_step s = Some s' -> inv2 db0 s -> inv2 db0 s'.
Proof.
  destruct s as [c db w d h]. intros Hs [Hsh Hd Hl (dbh & Hr & He)].
  cbn [s_ch s_db s_w s_d s_hist] in *. pose proof (i32_succ_ne _ Hd) as Hne.
  destruct w as [|r| | | | | |]; cbn [worker_2addr_step] in Hs; try discriminate Hs.
  - (* load *)
    link_cases d Hl He;
      match goal with H : b_req c = _ |- _ => rewrite H in Hs; cbn in Hs end;
      injection Hs as <-; link_done.
  - (* wait *)
    link_cases d Hl He;
      match goal with H : WWait r = WWait 0 |- _ => injection H as -> end;
      match goal with H : b_req c = _ |- _ => rewrite H in Hs; cbn in Hs end;
      injection Hs as <-; link_done.
  - (* consume the request *)
    injection Hs as <-. link_cases d Hl He; link_done.
  - (* execute *)
    pose proof (serve2_spec c db Hsh) as Hsv. destruct (serve2 c db) as [c' db'].
    destruct Hsv as ((E1 & E2 & E3 & E4) & Hsh' & Hx). injection Hs as <-.
    link_cases d Hl He;
      match goal with H : b_done c = _ |- _ => rewrite H, Z.eqb_refl in He; cbn in He end;
      subst db; (split; cbn; [done|congruence|link_defs; rewrite E1, E2; eauto 12|]);
      exists dbh; rewrite E3; done.
  - (* publish done *)
    injection Hs as <-.
    link_cases d Hl He; (split; cbn; [done|apply i32_range|link_defs|]);
      match goal with H : b_done c = _ |- _ => rewrite H in Hne |- *; eauto 12 end;
      exists dbh; rewrite (proj2 (Z.eqb_neq _ _) Hne); done.
  - (* notify *)
    injection Hs as <-. link_cases d Hl He; link_done.
Qed.

Lemma client_step_inv db0 s s' : client_step s = Some s' -> inv2 db0 s -> inv2 db0 s'.
Proof.
  destruct s as [c db w d h]. intros Hs [Hsh Hd Hl (dbh & Hr & He)].
  cbn [s_ch s_db s_w s_d s_hist] in *. pose proof (i32_succ_ne _ Hd) as Hne.
  destruct d as [|prev|prev|prev|prev|prev| | | |]; cbn [client_step] in Hs; try discriminate Hs.
  - (* post *)
    injection Hs as <-. cbn in Hl, He. link_defs. break_link; subst w; subst prev;
      (split; cbn; link_defs; [done|done|eauto 12|]); exists dbh; by rewrite ?Z.eqb_refl.
  - (* notify the worker *)
    injection Hs as <-. cbn in Hl, He. link_defs. break_link; subst w; link_done.
  - (* test done *)
    cbn in Hl, He. link_defs. destruct (Z.eqb_spec (b_done c) prev) as [E|E];
      injection Hs as <-; break_link; subst w; try congruence.
    all: cbn in He; split; cbn; link_defs; eauto 12.
    all: exists dbh; rewrite ?E, ?Z.eqb_refl; done.
  - (* wait *)
    cbn in Hl, He. link_defs. destruct (Z.eqb_spec (b_done c) prev) as [E|E];
      injection Hs as <-; break_link; subst w; try congruence.
    all: cbn in He; split; cbn; link_defs; eauto 12.
    all: try (exists dbh; rewrite ?E, ?Z.eqb_refl; done).
    all: try (exists dbh; rewrite (proj2 (Z.eqb_neq _ _) E); done).
    all: exfalso; apply Hne; congruence.
  - (* read the reply *)
    injection Hs as <-. cbn in Hl, He. split; cbn; [done|done|done|].
    exists db. rewrite !map_app. cbn [map fst snd]. rewrite replay_snoc, Hr, He. done.
  - (* stop *)
    injection Hs as <-. cbn in Hl, He. link_defs. break_link; subst w; link_done.
  - injection Hs as <-. cbn in Hl, He. link_defs. break_link; subst w; link_done.
Qed.

Lemma run2_inv db0 s s' : run2 s s' -> inv2 db0 s -> inv2 db0 s'.
Proof. intros [? ? H|? ? H]; [eapply worker_step_inv|eapply client_step_inv]; exact H. Qed.

Lemma set_sql_cstr c sql : shape c -> sql_fits sql -> cstr (b_sql (set_sql c sql)) = sql.
Proof.
  intros _ [Hz _]. cbn [b_sql set_sql]. rewrite splice_0, <- app_assoc. cbn [app].
  by apply cstr_app_nul.
Qed.

Lemma submit_inv db0 s sql : s_d s = DIdle -> sql_fits sql -> inv2 db0 s ->
  inv2 db0 (submit_begin s sql).
Proof.
  intros Hi [Hz Hlen] [[Hsh1 Hsh2] Hd Hl (dbh & Hr & He)]. rewrite Hi in Hl, He. cbn in Hl, He.
  split; cbn; [|done|by destruct Hl|eauto]. split; [|done]. cbn [b_sql set_sql].
  rewrite zlen_splice; [done|lia|]. autorewrite with zlen. lia.
Qed.

Lemma close_inv db0 s : s_d s = DIdle -> inv2 db0 s -> inv2 db0 (close_begin s).
Proof.
  intros Hi [Hsh Hd Hl (dbh & Hr & He)]. rewrite Hi in Hl, He. cbn in Hl, He.
  split; cbn; eauto.
Qed.

Lemma step2_inv db0 s s' : step2 s s' -> inv2 db0 s -> inv2 db0 s'.
Proof.
  intros [? ? H|? ? Hi Hf|? Hi]; [by apply run2_inv|by apply submit_inv|by apply close_inv].
Qed.
Lemma steps2_inv db0 s s' : rtc step2 s s' -> inv2 db0 s -> inv2 db0 s'.
Proof. induction 1; eauto using step2_inv. Qed.
Lemma runs2_inv db0 s s' : rtc run2 s s' -> inv2 db0 s -> inv2 db0 s'.
Proof. induction 1; eauto using run2_inv. Qed.

(** A freshly started worker: [start_worker_2addr] or its file variant ran, the
    connection is open, nobody has submitted anything. *)
Definition started (c : bchannel_t) (db : DB) : sys2 := mkSys c db WLoad DIdle [].

Lemma started_inv c db : shape c -> b_req c = 0 -> b_done c = 0 -> inv2 db (started c db).
Proof.
  intros Hs Hr Hd. split; cbn; [done|rewrite Hd; unfold is_i32; lia| |eauto].
  split; [done|]. by left.
Qed.

(** *** Progress *)

(** A bound on the steps left until the client is served. *)
Definition wrank (c : bchannel_t) (w : wpc2) (d : dpc2) : nat :=
  let waiting := match w with
                 | WNotify => 23 | WWait _ | WParked => 22 | WLoad => 21 | WTake => 20
                 | WExit => 0 | _ => 24 end%nat in
  match d with
  | DPost _ | DStop =>
      match w with WNotify => 33 | WLoad => 32 | WWait _ => 31 | WParked => 30 | _ => 34 end
  | DStopped | DClosed => waiting
  | DIdle => 0
  | _ => if (b_req c =? 1)%Z then waiting else
         match w with
         | WExec => 10 | WDone => 9 | WNotify => 8 | WLoad => 7 | WWait _ => 6 | WParked => 5
         | _ => 11 end
  end%nat.
Definition drank (c : bchannel_t) (d : dpc2) : nat :=
  match d with
  | DPost _ | DStop => 41 | DPosted _ | DStopped => 40
  | DCheck prev => if (b_done c =? prev)%Z then 3 else 2
  | DWait prev => if (b_done c =? prev)%Z then 2 else 3
  | DParked prev => if (b_done c =? prev)%Z then 1 else 4
  | DRead => 1 | DIdle | DClosed => 0
  end%nat.
Definition rank (s : sys2) : nat :=
  (10 * wrank (s_ch s) (s_w s) (s_d s) + drank (s_ch s) (s_d s))%nat.

Lemma rank_bound s : (rank s <= 381)%nat.
Proof.
  unfold rank, wrank, drank. destruct (s_d s), (s_w s); cbn; try lia;
    repeat case_match; cbn; lia.
Qed.

Ltac rank_cases c d Hl :=
  unfold rank, wrank, drank; cbn [s_ch s_w s_d];
  destruct d; cbn in Hl |- *; link_defs; break_link; try congruence;
  try match goal with H : WWait _ = WWait 0 |- _ => injection H as -> end;
  try match goal with H : b_req c = Z0 |- _ => rewrite ?H; cbn
                    | H : b_req c = _ |- _ => rewrite ?H; cbn end;
  repeat case_match; try lia.

Lemma worker_rank db0 s s' : inv2 db0 s -> worker_2addr_step s = Some s' -> s_d s <> DIdle ->
  (rank s' < rank s)%nat.
Proof.
  destruct s as [c db w d h]. intros [Hsh Hd Hl _] Hs Hi.
  cbn [s_ch s_db s_w s_d s_hist] in *.
  destruct w as [|r| | | | | |]; cbn [worker_2addr_step] in Hs; try discriminate Hs.
  - destruct (Z.eqb_spec (b_req c) 1); [|destruct (Z.eqb_spec (b_req c) 3)];
      injection Hs as <-; rank_cases c d Hl.
  - destruct (Z.eqb_spec (b_req c) r); injection Hs as <-; rank_cases c d Hl.
  - injection Hs as <-; rank_cases c d Hl.
  - pose proof (serve2_spec c db Hsh) as Hsv. destruct (serve2 c db) as [c' db'].
    destruct Hsv as ((E1 & _) & _). injection Hs as <-.
    unfold rank; cbn [s_ch s_w s_d]. unfold wrank, drank. rewrite E1. rank_cases c d Hl.
  - injection Hs as <-; rank_cases c d Hl.
  - injection Hs as <-; rank_cases c d Hl.
Qed.

Ltac client_cases c w Hl :=
  unfold rank, wrank, drank; cbn [s_ch s_w s_d];
  cbn in Hl |- *; link_defs; break_link; subst w; try congruence;
  try match goal with H : b_req c = _ |- _ => rewrite ?H; cbn end;
  repeat case_match; zbool; try lia; try congruence.

Lemma client_rank db0 s s' : inv2 db0 s -> client_step s = Some s' -> s_d s' <> DIdle ->
  (rank s' < rank s)%nat.
Proof.
  destruct s as [c db w d h]. intros [Hsh Hd Hl _] Hs Hi.
  pose proof (i32_succ_ne _ Hd) as Hne. cbn [s_ch s_db s_w s_d s_hist] in *.
  destruct d as [|prev|prev|prev|prev|prev| | | |]; cbn [client_step] in Hs; try discriminate Hs.
  - injection Hs as <-. client_cases c w Hl.
  - injection Hs as <-. client_cases c w Hl.
  - destruct (Z.eqb_spec (b_done c) prev); injection Hs as <-; client_cases c w Hl.
  - destruct (Z.eqb_spec (b_done c) prev); injection Hs as <-; client_cases c w Hl.
  - injection Hs as <-. done.
  - injection Hs as <-. client_cases c w Hl.
  - injection Hs as <-. client_cases c w Hl.
Qed.

Lemma rank_decreases db0 s s' : inv2 db0 s -> run2 s s' -> s_d s <> DIdle -> s_d s' <> DIdle ->
  (rank s' < rank s)%nat.
Proof. intros Hinv Hr Hi Hi'. destruct Hr; eauto using worker_rank, client_rank. Qed.

(** Unless the client is idle, or has closed and the worker has returned, some
    thread can move. *)
Lemma run2_progress db0 s : inv2 db0 s -> s_d s <> DIdle ->
  ~ (s_d s = DClosed /\ s_w s = WExit) -> exists s', run2 s s'.
Proof.
  destruct s as [c db w d h]. intros [Hsh Hd Hl _] Hi Hc. cbn [s_ch s_db s_w s_d s_hist] in *.
  assert (Hcl : is_Some (client_step (mkSys c db w d h)) \/
                is_Some (worker_2addr_step (mkSys c db w d h))).
  { destruct d; cbn in Hl |- *; link_defs; break_link; subst; try done; eauto.
    all: try (left; destruct (_ =? _); by eauto).
    all: right; cbn; repeat case_match; eauto. all: exfalso; by apply Hc. }
  destruct Hcl as [[s' E]|[s' E]]; exists s'; [by apply run_client|by apply run_worker].
Qed.

(** *** One call, under every schedule *)

(** A step taken while the client is inside a call. *)
Definition busy (s s' : sys2) : Prop := run2 s s' /\ s_d s <> DIdle.

(** What the client is inside of: a submitted statement, or [close]. *)
Definition in_submit (d : dpc2) : bool :=
  match d with
  | DPost _ | DPosted _ | DCheck _ | DWait _ | DParked _ | DRead => true
  | DIdle | DStop | DStopped | DClosed => false
  end.
Definition in_close (d : dpc2) : bool :=
  match d with DStop | DStopped | DClosed => true | _ => false end.

Definition serving (h : list (list Z * reply)) (sql : list Z) (s : sys2) : Prop :=
  (in_submit (s_d s) = true /\ s_hist s = h /\ cstr (b_sql (s_ch s)) = sql) \/
  (s_d s = DIdle /\ exists r, s_hist s = h ++ [(sql, r)]).

Lemma worker_step_frame s s' : shape (s_ch s) -> worker_2addr_step s = Some s' ->
  b_sql (s_ch s') = b_sql (s_ch s) /\ s_hist s' = s_hist s /\
  (s_d s' = s_d s \/ s_d s' = wake_client (s_d s)).
Proof.
  destruct s as [c db w d h]. intros Hsh Hs. cbn [s_ch] in Hsh.
  pose proof (serve2_spec c db Hsh) as Hsv.
  destruct w; cbn [worker_2addr_step] in Hs; try discriminate Hs;
    try (destruct (serve2 c db) as [c' db']; destruct Hsv as ((_ & _ & E & _) & _));
    repeat case_match; simplify_eq; cbn; auto.
Qed.

Lemma serving_step db0 h sql s s' : inv2 db0 s -> busy s s' -> serving h sql s -> serving h sql s'.
Proof.
  intros Hinv [Hr Hb] [(Hp & Hh & Hq)|[Hd _]]; [|done]. destruct Hr as [s s' Hs|s s' Hs].
  - destruct (worker_step_frame _ _ (i_shape _ _ Hinv) Hs) as (E1 & E2 & E3).
    left. rewrite E1, E2. split; [|done]. destruct E3 as [->| ->]; [done|].
    by destruct (s_d s).
  - destruct s as [c db w d hh]. cbn in Hp, Hh, Hq. subst.
    destruct d; try discriminate Hp; cbn in Hs; repeat case_match; simplify_eq;
      try (left; done). right. split; [done|]. cbn. eauto.
Qed.

Lemma serving_steps db0 h sql s s' : rtc busy s s' -> inv2 db0 s -> serving h sql s ->
  serving h sql s' /\ inv2 db0 s'.
Proof.
  induction 1 as [s|s s1 s' Hb _ IH]; intros Hinv Hs; [done|].
  apply IH; [by eapply run2_inv, Hinv; apply Hb|by eapply serving_step].
Qed.

Lemma closing_step s s' : busy s s' -> in_close (s_d s) = true -> in_close (s_d s') = true.
Proof.
  intros [[? ? Hs|? ? Hs] _] Hc; destruct s0 as [c db w d h]; cbn in Hc;
    destruct d; try discriminate Hc.
  all: cbn in Hs; repeat case_match; simplify_eq; done.
Qed.

Lemma closing_steps db0 s s' : rtc busy s s' -> inv2 db0 s -> in_close (s_d s) = true ->
  inv2 db0 s' /\ in_close (s_d s') = true.
Proof.
  induction 1 as [s|s s1 s' Hb _ IH]; intros Hinv Hc; [done|].
  apply IH; [by eapply run2_inv, Hinv; apply Hb|by eapply closing_step].
Qed.

(** No schedule takes more than 382 steps inside one call. *)
Lemma busy_bounded db0 n s s' : nsteps busy n s s' -> inv2 db0 s ->
  (n <= S (rank s))%nat /\ (s_d s' <> DIdle -> (n <= rank s)%nat).
Proof.
  induction 1 as [s|n s s1 s' Hb Hn IH]; intros Hinv; [lia|]. destruct Hb as [Hr Hi].
  destruct (IH (run2_inv _ _ _ Hr Hinv)) as [IH1 IH2].
  destruct (decide (s_d s1 = DIdle)) as [E|E].
  - inversion Hn as [|? ? s2 ? [_ Hb] ?]; subst; [|done]. split; [lia|done].
  - pose proof (rank_decreases _ _ _ Hinv Hr Hi E). split; [lia|]. intros Hd. specialize (IH2 Hd). lia.
Qed.

Lemma idle_hist db0 s : inv2 db0 s -> s_d s = DIdle ->
  replay db0 (map fst (s_hist s)) = (map snd (s_hist s), s_db s).
Proof. intros [_ _ _ (dbh & Hr & He)] Hi. rewrite Hi in He. cbn in He. by rewrite Hr, He. Qed.

(** A statement submitted to an idle worker. *)
Lemma served db0 s sql s' : inv2 db0 s -> s_d s = DIdle -> sql_fits sql ->
  rtc busy (submit_begin s sql) s' -> s_d s' = DIdle ->
  exists r, s_hist s' = s_hist s ++ [(sql, r)] /\ exec_spec (s_db s) sql = (r, s_db s').
Proof.
  intros Hinv Hi Hf Hr Hi'. pose proof (submit_inv _ _ _ Hi Hf Hinv) as Hinv1.
  destruct (serving_steps db0 (s_hist s) sql _ _ Hr Hinv1) as [Hsv Hinv'].
  { left. split; [done|]. split; [done|]. apply set_sql_cstr; [apply Hinv|done]. }
  destruct Hsv as [(Hp & _)|[_ [r Hh]]]; [by rewrite Hi' in Hp|]. exists r. split; [done|].
  pose proof (idle_hist _ _ Hinv Hi) as H1. pose proof (idle_hist _ _ Hinv' Hi') as H2.
  rewrite Hh, !map_app in H2. cbn [map fst snd] in H2. rewrite replay_snoc, H1 in H2.
  destruct (exec_spec (s_db s) sql) as [r' db']. injection H2 as E ->.
  apply app_inj_tail in E as [_ ->]. done.
Qed.

(** *** The theorems of the two-address protocol *)

(** C6. Serializability: whatever the schedule, when the client is outside a call
    the replies it has received and the state of the connection are those of
    running the submitted statements one after another, in order, each exactly
    once. *)
Theorem worker_serializes (c : bchannel_t) (db : DB) (s : sys2)
  (Hshape : shape c) (Hreach : rtc step2 (started (start_worker_2addr c) db) s)
  (Hidle : s_d s = DIdle) :
  replay db (map fst (s_hist s)) = (map snd (s_hist s), s_db s).
Proof.
  apply idle_hist; [|done]. eapply steps2_inv; [exact Hreach|]. by apply started_inv.
Qed.

(** C5. Every statement is answered, with its own result: once the client has
    submitted [sql] to an idle worker, every schedule reaches the end of the call
    in at most 382 steps, some thread can move until then (so no wakeup is lost),
    and at the end the reply is that of executing [sql] on the connection. *)
Theorem submit_completes (c : bchannel_t) (db : DB) (s : sys2) (sql : list Z)
  (Hshape : shape c) (Hreach : rtc step2 (started (start_worker_2addr c) db) s)
  (Hidle : s_d s = DIdle) (Hsql : sql_fits sql) :
  (forall n s', nsteps busy n (submit_begin s sql) s' -> (n <= 382)%nat) /\
  (forall s', rtc busy (submit_begin s sql) s' ->
     (exists s'', busy s' s'') \/
     (exists r, s_d s' = DIdle /\ s_hist s' = s_hist s ++ [(sql, r)] /\
        exec_spec (s_db s) sql = (r, s_db s'))).
Proof.
  assert (Hinv : inv2 db s) by (eapply steps2_inv; [exact Hreach|by apply started_inv]).
  pose proof (submit_inv _ _ _ Hidle Hsql Hinv) as Hinv1. split.
  - intros n s' Hn. pose proof (busy_bounded _ _ _ _ Hn Hinv1) as [H _].
    pose proof (rank_bound (submit_begin s sql)). lia.
  - intros s' Hr. destruct (decide (s_d s' = DIdle)) as [E|E].
    + right. destruct (served _ _ _ _ Hinv Hidle Hsql Hr E) as (r & ? & ?). eauto.
    + left. destruct (serving_steps db (s_hist s) sql _ _ Hr Hinv1) as [Hsv Hinv'].
      { left. split; [done|]. split; [done|]. apply set_sql_cstr; [apply Hinv|done]. }
      destruct (run2_progress _ _ Hinv' E) as [s'' Hs'']; [|by exists s''].
      intros [Hc _]. destruct Hsv as [(Hp & _)|[? _]]; [by rewrite Hc in Hp|done].
Qed.

(** C7. Closing stops the worker: after the client starts [close] on an idle
    worker, every schedule ends, within 382 steps, with the worker returned. *)
Theorem close_stops_worker (c : bchannel_t) (db : DB) (s : sys2)
  (Hshape : shape c) (Hreach : rtc step2 (started (start_worker_2addr c) db) s)
  (Hidle : s_d s = DIdle) :
  (forall n s', nsteps busy n (close_begin s) s' -> (n <= 382)%nat) /\
  (forall s', rtc busy (close_begin s) s' ->
     (exists s'', busy s' s'') \/ (s_w s' = WExit /\ s_d s' = DClosed)).
Proof.
  assert (Hinv : inv2 db s) by (eapply steps2_inv; [exact Hreach|by apply started_inv]).
  pose proof (close_inv _ _ Hidle Hinv) as Hinv1. split.
  - intros n s' Hn. pose proof (busy_bounded _ _ _ _ Hn Hinv1) as [H _].
    pose proof (rank_bound (close_begin s)). lia.
  - intros s' Hr. destruct (closing_steps _ _ _ Hr Hinv1 eq_refl) as [Hinv' Hc].
    assert (Hi : s_d s' <> DIdle) by (intros E; by rewrite E in Hc).
    assert (Hw : (s_d s' = DClosed /\ s_w s' = WExit) \/ ~ (s_d s' = DClosed /\ s_w s' = WExit)).
    { destruct (s_d s'), (s_w s'); (by left) || (right; intros [? ?]; discriminate). }
    destruct Hw as [[? ?]|Hn]; [by right|]. left.
    destruct (run2_progress _ _ Hinv' Hi Hn) as [s'' Hs'']. by exists s''.
Qed.

(** *** The one-word protocol *)

(** The loop of [worker_main] / [worker_blocking_main]: about to load [state]; about
    to wait while it is [s]; parked; about to execute; about to store 2; about to
    notify; returned. *)
Inductive wpc1 := VLoad | VWait (s : Z) | VParked | VExec | VDone | VNotify | VExit.

Definition set_state (ch : channel_t) (v : Z) : channel_t :=
  mkCh v (c_rc ch) (c_result ch) (c_sql ch) (c_dbpath ch).

(** One step; a parked [worker_main] resumes when its 5 ms timeout expires. *)
Definition worker_main_step (ch : channel_t) (db : DB) (w : wpc1) : option (channel_t * DB * wpc1) :=
  match w with
  | VLoad => let s := c_state ch in
             if s =? 1 then Some (ch, db, VExec)
             else if s =? 3 then Some (ch, db, VExit) else Some (ch, db, VWait s)
  | VWait s => if c_state ch =? s then Some (ch, db, VParked) else Some (ch, db, VLoad)
  | VParked => Some (ch, db, VLoad)
  | VExec => let '(ch, db) := serve1 ch db in Some (ch, db, VDone)
  | VDone => Some (set_state ch 2, db, VNotify)
  | VNotify => Some (ch, db, VLoad)
  | VExit => None
  end.
(** [worker_blocking_main] waits without a timeout: only a notify resumes it. *)
Definition worker_blocking_step (ch : channel_t) (db : DB) (w : wpc1)
    : option (channel_t * DB * wpc1) :=
  match w with VParked => None | _ => worker_main_step ch db w end.

Definition notify_state (w : wpc1) : wpc1 := match w with VParked => VLoad | _ => w end.
Definition ch_request (ch : channel_t) (w : wpc1) : channel_t * wpc1 :=
  (set_state ch 1, notify_state w).
Definition ch_stop (ch : channel_t) (w : wpc1) : channel_t * wpc1 :=
  (set_state ch 3, notify_state w).
(** [ch_await] returns as soon as it sees state 2, and acknowledges with 0. *)
Definition ch_await (ch : channel_t) : option channel_t :=
  if c_state ch =? 2 then Some (set_state ch 0) else None.

Fixpoint worker_main_run (n : nat) (ch : channel_t) (db : DB) (w : wpc1)
    : option (channel_t * DB * wpc1) :=
  match n with
  | O => Some (ch, db, w)
  | S n' => match worker_main_step ch db w with
            | Some (ch, db, w) => worker_main_run n' ch db w
            | None => None
            end
  end.

(** The worker is finishing a statement, or has published its reply. *)
Definition finishing (ch : channel_t) (w : wpc1) : bool :=
  match w with
  | VExec | VDone => true
  | VNotify | VLoad | VParked => c_state ch =? 2
  | VWait s => (c_state ch =? 2) && (s =? 2)
  | VExit => false
  end.

Lemma finishing_step ch db w : finishing ch w = true ->
  exists ch' db' w', worker_main_step ch db w = Some (ch', db', w') /\ finishing ch' w' = true.
Proof.
  destruct w; cbn; intros H; try discriminate H;
    rewrite ?andb_true_iff, ?Z.eqb_eq in H; try match type of H with _ /\ _ => destruct H as [H ->] end; rewrite ?H; cbn;
    try destruct (serve1 ch db); eauto 6; do 3 eexists; (split; [done|]); cbn; by rewrite H.
Qed.

(** C40. A stop is lost while a statement runs: [ch_stop] stores 3, the worker then
    stores 2 over it and never returns, however long it runs. *)
Theorem stop_lost (ch : channel_t) (db : DB) (n : nat) :
  let '(ch', w) := ch_stop ch VExec in
  exists ch'' db'' w'', worker_main_run n ch' db w = Some (ch'', db'', w'') /\ w'' <> VExit.
Proof.
  cbn [ch_stop notify_state]. assert (Hf : finishing (set_state ch 3) VExec = true) by done.
  revert Hf. generalize (set_state ch 3) VExec db. clear ch db.
  induction n as [|n IH]; intros ch w db Hf; cbn.
  - do 3 eexists. split; [done|]. by intros ->.
  - destruct (finishing_step ch db w Hf) as (ch' & db' & w' & -> & Hf'). by apply IH.
Qed.

(** A request from rest is answered in six steps of the worker. *)
Lemma request_served ch db : c_state ch = 0 ->
  let '(ch1, w) := ch_request ch VParked in
  exists ch2 db2, worker_main_run 4 ch1 db w = Some (ch2, db2, VLoad) /\
    (ch2, db2) = (let '(ch3, db3) := serve1 ch1 db in (set_state ch3 2, db3)) /\
    ch_await ch2 = Some (set_state ch2 0).
Proof.
  intros H. cbn. destruct (serve1 (set_state ch 1) db) as [ch2 db2]. by eauto.
Qed.

End workers.
(** ** Bench workers *)

Section bench.
Context {DB : Type}.
Context (sqlite3_exec : DB -> list Z -> Z * list row * DB).
Context (sqlite3_busy_timeout : DB -> Z -> DB).
Context (pragma_wal insert_sql count_sql : list Z).

Record bench_t := mkBench {
  be_done : Z; be_mode : Z; be_count : Z; be_rc : Z; be_result : Z; be_path : list Z }.

Definition bench_cb (b : bench_t) (v : row) : bench_t :=
  match v with
  | Some t :: _ => mkBench (be_done b) (be_mode b) (be_count b) (be_rc b) (atoll t) (be_path b)
  | _ => b
  end.
Definition bench_rc (b : bench_t) (rc : Z) : bench_t :=
  mkBench (be_done b) (be_mode b) (be_count b) rc (be_result b) (be_path b).
Definition bench_done (b : bench_t) (v : Z) : bench_t :=
  mkBench v (be_mode b) (be_count b) (be_rc b) (be_result b) (be_path b).

Fixpoint bench_loop (n : nat) (b : bench_t) (db : DB) : bench_t * DB :=
  match n with
  | O => (b, db)
  | S n' =>
      let '(rc, b, db) :=
        if be_mode b =? 0
        then let '(rc, _, db) := sqlite3_exec db insert_sql in (rc, b, db)
        else let '(rc, rows, db) := sqlite3_exec db count_sql in (rc, foldl bench_cb b rows, db) in
      if truthy rc then (bench_rc b rc, db) else bench_loop n' b db
  end.
(** [opened]: what [sqlite3_open] returned, the handle when it made one. *)
Definition bench_main (b : bench_t) (opened : Z * DB) : bench_t * DB :=
  let '(rc, db) := opened in
  if truthy rc then (bench_done (bench_rc b 999) 1, db) else
  let '(_, _, db) := sqlite3_exec db pragma_wal in
  let db := sqlite3_busy_timeout db 5000 in
  let '(b, db) := bench_loop (Z.to_nat (be_count b)) b db in
  (bench_done b 1, db).
Definition start_bench (b : bench_t) : bench_t := bench_done b 0.

Lemma bench_main_done b o : be_done (fst (bench_main b o)) = 1.
Proof.
  unfold bench_main. destruct o as [rc db]. destruct (truthy rc); [done|].
  destruct (sqlite3_exec db pragma_wal) as [[? ?] db1].
  by destruct (bench_loop _ _ _).
Qed.
End bench.

(** ** thread_shim.c *)

(** [spawn_add]: the worker adds 100 to the box; the failures of [pthread_create]
    and [pthread_join] give -1 and -2. *)
Definition worker_fn (box : Z) : Z := i32 (box + 100).
Definition spawn_add (create_rc join_rc x : Z) : Z :=
  if truthy create_rc then -1 else
  let box := worker_fn x in
  if truthy join_rc then -2 else box.

(** ** A concrete connection *)

(** A connection that remembers the statements it ran: [sqlite3_exec] returns
    result code 0 and two rows, NULL first and then the number of statements
    run so far as one digit. *)
Definition toy_exec (db : list (list Z)) (sql : list Z) : Z * list row * list (list Z) :=
  (0, [[None]; [Some [48 + zlen db]]], db ++ [sql]).
Definition toy_chan : bchannel_t :=
  mkBch 0 0 0 0 0 (repeat 0 4072) (repeat 0 512) (repeat 0 2048).
Definition toy_start : sys2 (DB:=list (list Z)) := started (start_worker_2addr toy_chan) [].

Lemma toy_shape : shape toy_chan.
Proof. by vm_compute. Qed.

Lemma toy_sql_fits : sql_fits [65; 66].
Proof. split; [repeat constructor; lia|vm_compute; reflexivity]. Qed.

(** Two statements.  In the first call the client runs until it is parked, then the
    worker serves it; in the second the worker is parked first, and the two
    threads alternate. *)
Definition toy_first : sys2 (DB:=list (list Z)) :=
  run_sched toy_exec (replicate 6 false ++ replicate 12 true ++ replicate 6 false)
    (submit_begin toy_start [65; 66]).
Definition toy_second : sys2 (DB:=list (list Z)) :=
  run_sched toy_exec (replicate 8 true ++ concat (replicate 12 [false; true]))
    (submit_begin toy_first [65; 66; 67]).

Lemma toy_second_reach : rtc (step2 toy_exec) toy_start toy_second.
Proof.
  transitivity toy_first.
  - eapply rtc_l; [|apply run_sched_reach].
    apply step_submit; [reflexivity|split; [repeat constructor; lia|vm_compute; reflexivity]].
  - eapply rtc_l; [|apply run_sched_reach].
    apply step_submit; [vm_compute; reflexivity|].
    split; [repeat constructor; lia|vm_compute; reflexivity].
Qed.

(** The parked client, and both replies: the digit counts the statements before. *)
Example toy_first_parks :
  s_d (run_sched toy_exec (replicate 6 false) (submit_begin toy_start [65; 66])) = DParked 0.
Proof. vm_compute. reflexivity. Qed.

Lemma worker_serializes_witness :
  s_hist toy_second = [([65; 66], (0, 0, [48])); ([65; 66; 67], (0, 1, [49]))] /\
  s_db toy_second = [[65; 66]; [65; 66; 67]] /\
  replay toy_exec [] (map fst (s_hist toy_second)) = (map snd (s_hist toy_second), s_db toy_second).
Proof.
  split; [vm_compute; reflexivity|]. split; [vm_compute; reflexivity|].
  apply (worker_serializes toy_exec toy_chan [] toy_second);
    [exact toy_shape|exact toy_second_reach|vm_compute; reflexivity].
Defined.

Lemma submit_completes_witness :
  (forall n s', nsteps (busy toy_exec) n (submit_begin toy_start [65; 66]) s' -> (n <= 382)%nat) /\
  (forall s', rtc (busy toy_exec) (submit_begin toy_start [65; 66]) s' ->
     (exists s'', busy toy_exec s' s'') \/
     (exists r, s_d s' = DIdle /\ s_hist s' = [([65; 66], r)] /\
        exec_spec toy_exec [] [65; 66] = (r, s_db s'))).
Proof.
  apply (submit_completes toy_exec toy_chan [] toy_start [65; 66]);
    [exact toy_shape|apply rtc_refl|reflexivity|exact toy_sql_fits].
Defined.

Lemma close_stops_worker_witness :
  (forall n s', nsteps (busy toy_exec) n (close_begin toy_start) s' -> (n <= 382)%nat) /\
  (forall s', rtc (busy toy_exec) (close_begin toy_start) s' ->
     (exists s'', busy toy_exec s' s'') \/ (s_w s' = WExit /\ s_d s' = DClosed)).
Proof.
  apply (close_stops_worker toy_exec toy_chan [] toy_start);
    [exact toy_shape|apply rtc_refl|reflexivity].
Defined.

(** The captured row need not be the first: with a NULL first column in the
    first row, [row_cb2] captures the next row, although only the first row is to
    be captured. *)
Theorem row_cb2_skips_null (c : bchannel_t) (r : row) (v : list Z) (rest : row) :
  b_got c = 0 ->
  b_result (foldl row_cb2 c [None :: r; Some v :: rest]) = atoll v /\
  b_got (foldl row_cb2 c [None :: r; Some v :: rest]) = 1.
Proof. intros H. cbn. rewrite H. done. Qed.
Lemma row_cb2_skips_null_witness :
  b_result (foldl row_cb2 toy_chan [[None]; [Some [55]]]) = 7.
Proof. apply (row_cb2_skips_null toy_chan [] [55] []). reflexivity. Defined.
